(* ===== verification/_CoqProject ===== *)
-Q . S2P
Prelude.v
Pmm.v
PmmInv.v
PmmProofs.v
PmmBoot.v
PmmSpec.v
FileTable.v
FileTableSpec.v
KString.v
Tty.v
TtySpec.v
RwLock.v
Wait.v
Eventfd.v
Bytes.v
Ext2.v
Ext2Inv.v
Ext2Spec.v
Ext2Map.v
Ext2File.v
Ext2FileSpec.v
Ext2Dir.v
Ext2DirSpec.v
Ext2DirOps.v
Ext2Readdir.v
Ext2Name.v
Ext2NameSpec.v
KList.v
Mqueue.v
MqueueSpec.v
PageSource.v
Memory.v
Slab.v
SlabSpec.v
Vmm.v
VmmSpec.v
Early.v
SList.v
CStr.v
Links.v
ByteRing.v
Security.v
SecuritySpec.v
AclSpec.v
Sched.v
SchedQueue.v
SchedSpec.v
Signal.v
SignalSpec.v
Device.v
DeviceSpec.v
DeviceRefine.v
Task.v
TaskSpec.v
TaskFiles.v
TaskRefine.v
Trace.v
TraceSpec.v
TraceRefine.v
Profile.v
ProfileSpec.v
Console.v
ConsoleSpec.v
SwapCompress.v
SwapMonitor.v
Swap.v
SwapFiles.v
SwapSpec.v
SwapStore.v
UnixSocket.v
UnixSpec.v
UnixRefine.v
ThreadSync.v
ThreadSyncSpec.v
Tsd.v
Ramfs.v
RamfsFile.v
RamfsDir.v
Coherency.v
CoherencySpec.v
