(* ===== verification/Prelude.v ===== *)
(** * Horizon: a verification library for the kernel's core

    Horizon (under [src/]) is a C kernel. This library models the parts that carry its
    own logic as executable functions, and proves what makes them correct; where the
    code does not do what its comments say, the theorem states what it does.

    ** Program parts, files and sources

    - Physical memory: [kernel/mm/pmm.c]. [Pmm] has the page array, the eleven buddy free
      lists and every operation; [PmmInv] the invariant (each free frame lies in exactly
      one listed, aligned block; the counter is their number); [PmmProofs] its
      preservation by splitting and merging; [PmmBoot] the boot path; [PmmSpec] the
      theorems and an abstract allocator of frame sets that the code refines. The page
      flag functions are declared in [include/horizon/mm/page.h] but defined nowhere:
      they are the class [PageFlags] with the laws [PageFlagsLaws].
    - Descriptor tables: [kernel/fs/file_table.c]. [FileTable] models [files_struct] with
      the table embedded in it or allocated, bitmaps as words with their real size, and
      the system calls; [FileTableSpec] the refinement of a map from descriptors to
      files, table growth, and the faults of the embedded table.
    - Strings: [lib/string.c], all of it, in [KString], over a byte-addressed memory in
      which an access outside what is mapped is a fault.
    - Terminals: [drivers/char/tty/tty.c]. [Tty] has rings, line operations, the
      character-device entry points and the keyboard handler; [TtySpec] the refinement of
      bounded queues.
    - Locks: [kernel/spinlock.c], [kernel/rwlock.c]. [RwLock] has one definition per step
      of a thread; theorems quantify over all interleavings of any number of threads.
    - Waiting: [kernel/wait.c], [kernel/completion.c] with [completion.h]. [Wait].
    - Event counters: [kernel/io/eventfd.c]. [Eventfd].
    - ext2: [kernel/fs/ext2/util.c], the allocators of [inode_alloc.c], [ext2_read_block]
      and [ext2_write_block] of [ext2.c], [ext2_write_super] of [super.c]. [Ext2] has the
      operations in a state monad in which every [kmalloc] and every transfer can fail;
      [Ext2Inv] the invariant between bitmaps and free counts; [Ext2Spec] allocation and
      release; [Ext2Map] the block map of an inode.
    - ext2 files: [kernel/fs/ext2/file.c], and [ext2_read_inode] and [ext2_write_inode] of
      [inode.c]. [Ext2File] has the operations with the caller's buffer as a list of its
      real length, and the inode on the device as its 128 bytes; [Ext2FileSpec] defines
      the bytes of a file through the block map and states reads and writes on them.
    - ext2 directories: [kernel/fs/ext2/dir_entry.c], [dir.c], [readdir.c]. [Ext2Dir] has
      the loops over the bytes of a block and the operations; [Ext2DirSpec] a block as a
      list of records, and what each loop does on it; [Ext2DirOps] a directory as a map
      from names to inode numbers; [Ext2Readdir] listing, and the bounds of the loops.
    - ext2 names: [kernel/fs/ext2/create.c], [symlink.c], [ext2_link] and [ext2_unlink] of
      [inode_alloc.c]. [Ext2Name] has the operations, [Ext2NameSpec] linking and what goes
      wrong in symbolic links and removal.
    - Linked lists: [include/horizon/list.h]. [KList] has the operations on a heap of
      nodes and their correspondence to lists of addresses.
    - POSIX message queues: [kernel/ipc/mqueue.c], on [KList]. [Mqueue] has the operations,
      cut at the waits; [MqueueSpec] the refinement of a bounded priority queue.
    - Pages by bitmap: [mm/memory.c]. [Memory] has the first-fit search, [kmalloc] and
      [kfree], and equality with a reference allocator. It implements the interface of
      [PageSource], the class that the two parts above it are written against.
    - Slabs: [mm/slab.c]. [Slab] has caches, slabs and size classes on [KList] and
      [PageSource]; [SlabSpec] the layout of a slab and the refinement of a stack.
    - Page tables: [mm/vmm.c]. [Vmm] has the two-level tables in the words of memory;
      [VmmSpec] the refinement of a finite map from pages to entries.
    - Memory at boot: [mm/early.c]. [Early] has the regions, from which kernel and modules
      are cut, and the allocator used until the others work.
    - Security: [kernel/security.c]. [Security] has the registry of modules, every hook,
      credentials, capabilities and access control lists; [SList] singly linked lists with
      a head pointer and [CStr] strings, which it shares with others; [SecuritySpec] and
      [AclSpec] registration, the order of refusals and access control lists.
    - Scheduling: [kernel/sched.c] and [kernel/sched/rt.c]. [Sched] has the run queue,
      scheduling, blocking, sleeping and the timer tick; [SchedQueue] the refinement of the
      queue by a list, [SchedSpec] turns, the tick and where threads are lost.
    - Signals: [kernel/signal/core.c], on [KList] and [Sched]. [Signal], [SignalSpec].
    - Structures linked into several lists at once: [Links] has the address of a member and
      back ([offsetof], [list_entry]) for any set of fields (class [Fields]), and the
      invariant [tracks], which ties a heap of nodes to a finite map from list heads to the
      owners of their nodes for any assignment of members to heads (class [Linked]).
    - Devices: [kernel/device/device.c], on [Links]. [Device] has devices, buses, drivers
      and classes; [DeviceSpec] what each operation does to the lists; [DeviceRefine] the
      refinement, well-formedness, and where children, races and drivers go wrong.
    - Tasks: [kernel/task/task.c], on [Links]. [Task] has the table, the tree of children,
      descriptors, signals and threads; [TaskSpec] the abstract table; [TaskFiles] the
      descriptors; [TaskRefine] the refinement and where threads and orphans go wrong.
    - Bytes: [Bytes] has little-endian numbers and copying in lists of bytes, for ext2 and
      events. [ByteRing] has the ring of bytes that [kernel/trace.c] and [kernel/profile.c]
      both define, and its refinement of a bounded queue.
    - Tracing: [kernel/trace.c]. [Trace] has points, events, switches and flags on [Links]
      and [ByteRing]; [TraceSpec] the bytes of an event and the walk over the handlers;
      [TraceRefine] the refinement, and where events leak memory or wrap around.
    - Profiling: [kernel/profile.c]. [Profile] has samples, switches and the statistics of
      functions; [ProfileSpec] what the statistics are.
    - Console: [kernel/console.c]. [Console] has the screen in video memory, the cursor and
      the printing of numbers; [ConsoleSpec] the refinement of a roll of paper.
    - Swapping: [kernel/mm/swap.c], [swap_compress.c], [swap_monitor.c] and the choice of
      algorithm of [swap_priority.c]. [Swap] has areas, entries and transfers over files
      (class [Files]; [SwapFiles] has its laws and an instance), [SwapCompress] run lengths,
      [SwapMonitor] statistics; [SwapSpec] the refinement of sets of entries, [SwapStore]
      that of a map from entries to pages.
    - Unix sockets: [kernel/ipc/unix_socket.c], on [Links]. [UnixSocket] has the calls;
      [UnixSpec] sockets as a map with queues and what each call does to it; [UnixRefine]
      the refinement, order, names, and where references, locks and listening go wrong.
    - Thread synchronisation: [kernel/thread/thread_sync.c], on [KList]. [ThreadSync] has the
      steps of mutexes and semaphores, one access to memory at a time; [ThreadSyncSpec] exclusion, order and bounds
      for interleaved threads, and where nodes are seen half linked and wake-ups and permits are lost.
    - Thread-specific data: [kernel/thread/thread_tls.c]. [Tsd].
    - Files in memory: [kernel/fs/ramfs/]. [Ramfs] has files, directories and names over the
      VFS (class [Vfs]) and a reallocation (class [Realloc], with the instances of
      [mm/slab.c], which copies nothing, and of its contract); [RamfsFile] files as lists of
      bytes, [RamfsDir] (Modules [RamfsDir] and [RamfsNames]) directories and names under the
      contract, and what is lost without it.
    - Cache lines: [kernel/mm/cache_coherency.c]. [Coherency] has the directory and the
      protocols; [CoherencySpec] the lines as functions, that a modified copy is alone, and
      (Module [CoherencyOwners]) the refinement of owners and readers, and where the other
      protocols and calls break it.

    The parts meet where the code makes them meet: [kernel/wait.c] under completions and
    event counters, the spinlock inside read-write locks, the page array under the buddy
    lists, block allocation under the block map, the block map under files, files under
    directories and directories under names, lists under message queues, slabs, signals,
    devices, tasks, trace points and sockets, the ring under events and samples, the scheduler under signals, compression and
    statistics under swapping, and the page bitmap under slabs and page
    tables. This file has what they share: machine integers, the fault monad, arrays,
    bitmaps and sums.

    ** Conventions

    A [w]-bit integer is a [Z] with its wrap-around written out ([u8] to [u64], [s32]).
    [None] is a fault: a null or wild pointer, an index outside an array, a division by
    zero. Error codes are negative results as in C. Threads are step functions and an
    execution is a sequence of steps. Operations through function pointers, and code that
    is declared but not defined in the tree, are parameters.

    ** What the theorems show

    - C1, C2: the buddy allocator never hands out a frame twice, returns and merges exactly
      what it is given. C3, C40: a context of page tables is a map from pages to entries,
      which a new table adds its old contents to, and allocating a range is all or nothing.
      C4: the page bitmap is first fit. C5: a slab cache is a stack of the objects of one
      page.
    - C6, C7: [ext2_write] changes exactly the bytes it should, [ext2_read] delivers them
      unless it stays inside one block behind its start. C36: allocation keeps bitmaps,
      group counts and superblock in step. C8 to C11, C37: directories are maps from names
      to inodes, which adding, removing, searching, linking and listing read and change as
      they should, in loops that end, fault or stay at a record of length 0. C12: files in
      memory are lists of bytes, which growing replaces by what the new block holds.
    - C20: a mutex has one owner, while operations on its list of waiting threads do not
      overlap. C21: a semaphore lets as many threads pass as it has permits. C22: a writer
      excludes everybody else. C23: descriptor calls refine a finite map. C24: message
      queues are priority queues. C25: terminals are bounded queues.
    - C26: security modules can only take permissions away.
    - C27, C28: the run queue is first in, first out, and yielding threads take turns. C29:
      the lowest signal that is not blocked is received.
    - C30, C31: the device model refines operations on finite lists and keeps its registry
      well formed, for devices without a parent.
    - C32: the task table is a list of tasks with distinct numbers and a tree of children,
      and a task is found by its number until it is destroyed. C33: thread-specific data is
      a map from threads and keys to values.
    - C34: an event is shown to the handlers of its type, newest first, until one refuses,
      and is queued whole or not at all.
    - C35: the console is a sheet of lines that moves up when it is full.
    - C13, C14: swap entries are allocated first fit, and a page read from an entry is the
      page written to it, for pages that compress to their place. C15: compressing and
      decompressing a page gives it back.
    - C16 to C18: calls on Unix sockets refine a map of sockets with queues of messages,
      which arrive in order and unchanged, and no two sockets have one name. C19: accepting
      a connection never ends.
    - C38, C39: a modified cache line is on one processor only, and with MOESI each line has
      one owner or any number of readers.

    Theorems without a number state what the code does where it does not do what it says,
    or further functions of the same parts.

    ** Bounds and fuel

    The search of the free lists ([find_block]) has fuel 12 for eleven orders, and the
    theorems show that it does not run out; splitting and merging count the orders left. String
    loops take fuel, and the theorems prove a result for every fuel above the length of
    the string. [round_up] doubles at most thirty times for sizes below 2^30. Loops that
    wait are modelled turn by turn and have no fuel. The block loops of [ext2_read] and
    [ext2_write] have one unit more than the blocks from the first to the last, and the
    theorems prove a result. ext2 theorems about the block map hold for devices smaller
    than 4 GB, since the code computes byte offsets in 32 bits, and for the direct and
    single indirect blocks, the only ones the code allocates. The loops over a directory
    block have the size of the block plus one, which is enough unless a record has length
    0, and then nothing is. Walks over a linked list have the number of queues, messages,
    slabs, modules, entries, devices, tasks, threads, points, functions or sockets plus one, more than
    any list of them has nodes. Printing a number has 33 steps for at most 32 digits, the
    length of a run 256 for at most 255. The loop of [sched_tick] takes fuel, since it can fail to end, which the
    theorem about it states for every fuel.

    ** Not modelled

    Registration of terminals (the code does not compile), mounting, renaming and following
    links in ext2 (through the VFS), address spaces and page replacement, the second scheduler
    [kernel/sched/sched.c] and load balancing, System V IPC (its types are declared nowhere,
    [msg.c] does not compile), network protocols, timers ([timer.c] uses a structure that is declared
    nowhere), security modules, drivers and boot code. [list_first_entry] and
    [MEM_PANIC] are used by the sources and defined nowhere: the node behind the head is
    taken for the former, the latter is a parameter. What [kmalloc], [time_get_unix_time],
    [file_anon_fd] and [process_get_file] return is a parameter where it is used. *)

From stdpp Require Export base tactics numbers list gmap.
From Stdlib Require Export ZArith Lia Bool.

#[global] Open Scope Z_scope.

(** ** Machine integers *)

Definition wrap (w z : Z) : Z := z mod 2 ^ w.
Definition u8 (z : Z) : Z := wrap 8 z.
Definition u16 (z : Z) : Z := wrap 16 z.
Definition u32 (z : Z) : Z := wrap 32 z.
Definition u64 (z : Z) : Z := wrap 64 z.

(** Two's complement reading of the low [w] bits. *)
Definition swrap (w z : Z) : Z := (z + 2 ^ (w - 1)) mod 2 ^ w - 2 ^ (w - 1).
Definition s32 (z : Z) : Z := swrap 32 z.

Definition BIT (i : Z) : Z := Z.shiftl 1 i.

(** [x & m] used as a condition. *)
Definition has_flag (x m : Z) : bool := negb (Z.land x m =? 0).

Lemma wrap_small w z : 0 <= z < 2 ^ w -> wrap w z = z.
Proof. apply Z.mod_small. Qed.

Lemma u8_small z : 0 <= z < 2 ^ 8 -> u8 z = z.
Proof. apply wrap_small. Qed.
Lemma u16_small z : 0 <= z < 2 ^ 16 -> u16 z = z.
Proof. apply wrap_small. Qed.
Lemma u32_small z : 0 <= z < 2 ^ 32 -> u32 z = z.
Proof. apply wrap_small. Qed.
Lemma u64_small z : 0 <= z < 2 ^ 64 -> u64 z = z.
Proof. apply wrap_small. Qed.

Lemma s32_small n : 0 <= n < 2 ^ 31 -> s32 n = n.
Proof. intros Hn. unfold s32, swrap. rewrite Z.mod_small; lia. Qed.

(** [autorewrite with width] removes the wrap-arounds that the context shows to be
    without effect. *)
Create HintDb width.
#[export] Hint Rewrite u8_small u16_small u32_small u64_small using lia : width.

Lemma wrap_range w z : 0 <= w -> 0 <= wrap w z < 2 ^ w.
Proof. intros; apply Z.mod_pos_bound, Z.pow_pos_nonneg; lia. Qed.

Lemma BIT_pow i : 0 <= i -> BIT i = 2 ^ i.
Proof. intros. unfold BIT. by rewrite Z.shiftl_1_l. Qed.

Lemma BIT_spec i j : 0 <= i -> Z.testbit (BIT i) j = (i =? j).
Proof. intros Hi. rewrite BIT_pow by done. by apply Z.pow2_bits_eqb. Qed.

Lemma has_flag_BIT x i : 0 <= i -> has_flag x (BIT i) = Z.testbit x i.
Proof.
  intros Hi. unfold has_flag.
  destruct (Z.testbit x i) eqn:E.
  - apply negb_true_iff, Z.eqb_neq. intros H0.
    assert (Z.testbit (Z.land x (BIT i)) i = true) as H1.
    { rewrite Z.land_spec, E, BIT_spec by done. by rewrite Z.eqb_refl. }
    rewrite H0, Z.bits_0 in H1. done.
  - apply negb_false_iff, Z.eqb_eq, Z.bits_inj'. intros n Hn.
    rewrite Z.land_spec, BIT_spec, Z.bits_0 by done.
    destruct (Z.eqb_spec i n); subst; [by rewrite E|by rewrite andb_false_r].
Qed.

(** [x & ~(align - 1)] for a power of two. *)
Lemma land_lnot_pow2 x k : 0 <= k -> Z.land x (Z.lnot (2 ^ k - 1)) = x / 2 ^ k * 2 ^ k.
Proof.
  intros Hk. rewrite Z.sub_1_r, <-Z.ones_equiv, <-Z.ldiff_land, Z.ldiff_ones_r, Z.shiftr_div_pow2, Z.shiftl_mul_pow2 by lia.
  done.
Qed.

(** ** The fault monad *)

(** Operations that can follow a bad pointer or index outside an array return an
    [option]: [None] is the fault. [run E] performs the step whose result [E]
    gives. *)
Lemma bind_Some_l {A B} (f : A -> option B) x : (Some x ≫= f) = f x.
Proof. done. Qed.

Ltac run E := rewrite E, bind_Some_l; cbv beta.

(** ** Arrays *)

(** [a[i]] and [a[i] = v] on an array of [length a] elements: an index outside
    the array is a fault. *)
Definition aget {A} (a : list A) (i : Z) : option A :=
  if i <? 0 then None else a !! Z.to_nat i.

Definition aset {A} (a : list A) (i : Z) (v : A) : option (list A) :=
  if (i <? 0) || (Z.of_nat (length a) <=? i) then None else Some (<[Z.to_nat i := v]> a).

Lemma aget_Some {A} (a : list A) i : 0 <= i < Z.of_nat (length a) -> exists x, aget a i = Some x.
Proof.
  intros Hi. unfold aget. destruct (Z.ltb_spec i 0); [lia|].
  destruct (lookup_lt_is_Some_2 a (Z.to_nat i)) as [x Hx]; [lia|]. eauto.
Qed.

Lemma aget_None {A} (a : list A) i : i < 0 \/ Z.of_nat (length a) <= i -> aget a i = None.
Proof.
  intros Hi. unfold aget. destruct (Z.ltb_spec i 0); [done|]. apply lookup_ge_None_2. lia.
Qed.

Lemma aget_range {A} (a : list A) i x : aget a i = Some x -> 0 <= i < Z.of_nat (length a).
Proof.
  unfold aget. destruct (Z.ltb_spec i 0); [done|]. intros ?%lookup_lt_Some. lia.
Qed.

Lemma aset_Some {A} (a : list A) i v :
  0 <= i < Z.of_nat (length a) -> aset a i v = Some (<[Z.to_nat i := v]> a).
Proof.
  intros Hi. unfold aset. destruct (Z.ltb_spec i 0), (Z.leb_spec (Z.of_nat (length a)) i); done || lia.
Qed.

Lemma aset_None {A} (a : list A) i v :
  i < 0 \/ Z.of_nat (length a) <= i -> aset a i v = None.
Proof.
  intros Hi. unfold aset. destruct (Z.ltb_spec i 0), (Z.leb_spec (Z.of_nat (length a)) i); done || lia.
Qed.

Lemma aset_length {A} (a b : list A) i v : aset a i v = Some b -> length b = length a.
Proof. unfold aset. case_match; [done|]. intros [= <-]. apply length_insert. Qed.

Lemma aget_aset {A} (a b : list A) i v j :
  aset a i v = Some b -> aget b j = if decide (j = i) then Some v else aget a j.
Proof.
  unfold aset. destruct (Z.ltb_spec i 0), (Z.leb_spec (Z.of_nat (length a)) i); simpl; try done.
  intros [= <-]. unfold aget. destruct (Z.ltb_spec j 0); case_decide; try lia; try done.
  - subst. apply list_lookup_insert_eq. lia.
  - apply list_lookup_insert_ne. lia.
Qed.

(** ** Bitmaps: arrays of [w]-bit words *)

Definition bit_at (w : Z) (a : list Z) (i : Z) : option bool :=
  x ← aget a (i / w); Some (Z.testbit x (i mod w)).
Definition set_bit_at (w : Z) (a : list Z) (i : Z) : option (list Z) :=
  x ← aget a (i / w); aset a (i / w) (Z.lor x (BIT (i mod w))).
Definition clear_bit_at (w : Z) (a : list Z) (i : Z) : option (list Z) :=
  x ← aget a (i / w); aset a (i / w) (Z.land x (Z.lnot (BIT (i mod w)))).

Lemma same_bit w i j : 0 < w -> i / w = j / w -> i mod w = j mod w -> i = j.
Proof. intros Hw Hd Hm. rewrite (Z.div_mod i w), (Z.div_mod j w) by lia. congruence. Qed.

Section Bitmaps.
Context (w : Z) (Hw : 0 < w).

Lemma set_bit_Some a i :
  0 <= i < w * Z.of_nat (length a) -> exists b, set_bit_at w a i = Some b.
Proof.
  intros Hi. assert (0 <= i / w < Z.of_nat (length a))
    by (split; [apply Z.div_pos; lia|apply Z.div_lt_upper_bound; lia]).
  unfold set_bit_at. destruct (aget_Some a (i / w)) as [x Hx]; [done|]. rewrite Hx. simpl.
  eexists. by apply aset_Some.
Qed.

Lemma clear_bit_Some a i :
  0 <= i < w * Z.of_nat (length a) -> exists b, clear_bit_at w a i = Some b.
Proof.
  intros Hi. assert (0 <= i / w < Z.of_nat (length a))
    by (split; [apply Z.div_pos; lia|apply Z.div_lt_upper_bound; lia]).
  unfold clear_bit_at. destruct (aget_Some a (i / w)) as [x Hx]; [done|]. rewrite Hx. simpl.
  eexists. by apply aset_Some.
Qed.

Lemma set_bit_length a b i : set_bit_at w a i = Some b -> length b = length a.
Proof. unfold set_bit_at. intros (x & _ & Hb)%bind_Some. by eapply aset_length. Qed.

Lemma clear_bit_length a b i : clear_bit_at w a i = Some b -> length b = length a.
Proof. unfold clear_bit_at. intros (x & _ & Hb)%bind_Some. by eapply aset_length. Qed.

Lemma bit_at_set a b i j :
  set_bit_at w a i = Some b -> bit_at w b j = if decide (j = i) then Some true else bit_at w a j.
Proof.
  unfold set_bit_at, bit_at. intros (x & Hx & Hb)%bind_Some.
  pose proof (Z.mod_pos_bound i w Hw). pose proof (Z.mod_pos_bound j w Hw).
  rewrite (aget_aset _ _ _ _ (j / w) Hb). destruct (decide (j / w = i / w)) as [Ed|Ed].
  - simpl. rewrite Z.lor_spec, BIT_spec by lia. case_decide as E; subst.
    + by rewrite Z.eqb_refl, orb_true_r.
    + rewrite Ed, Hx. simpl. f_equal. destruct (Z.eqb_spec (i mod w) (j mod w)); [|by rewrite orb_false_r].
      destruct E. by apply (same_bit w).
  - case_decide; [by subst|done].
Qed.

Lemma bit_at_clear a b i j :
  clear_bit_at w a i = Some b -> bit_at w b j = if decide (j = i) then Some false else bit_at w a j.
Proof.
  unfold clear_bit_at, bit_at. intros (x & Hx & Hb)%bind_Some.
  pose proof (Z.mod_pos_bound i w Hw). pose proof (Z.mod_pos_bound j w Hw).
  rewrite (aget_aset _ _ _ _ (j / w) Hb). destruct (decide (j / w = i / w)) as [Ed|Ed].
  - simpl. rewrite Z.land_spec, Z.lnot_spec, BIT_spec by lia. case_decide as E; subst.
    + by rewrite Z.eqb_refl, andb_false_r.
    + rewrite Ed, Hx. simpl. f_equal. destruct (Z.eqb_spec (i mod w) (j mod w)); [|by rewrite andb_true_r].
      destruct E. by apply (same_bit w).
  - case_decide; [by subst|done].
Qed.

End Bitmaps.

(** ** Lists and finite maps *)

Lemma filter_all {A} (P : A -> Prop) `{!forall x, Decision (P x)} l : Forall P l -> filter P l = l.
Proof. induction 1 as [|x l Hx Hl IH]; [done|]. by rewrite filter_cons_True, IH. Qed.

Lemma filter_none {A} (P : A -> Prop) `{!forall x, Decision (P x)} l :
  Forall (fun x => ~ P x) l -> filter P l = [].
Proof. induction 1 as [|x l Hx Hl IH]; [done|]. by rewrite filter_cons_False. Qed.

(** The sum of a weight over the values of a map, for invariants that count the
    threads at some program points. *)
Section Totals.
Context {K A : Type} {K_eq : EqDecision K} {K_count : Countable K}.
Implicit Types (f g : A -> Z) (m : gmap K A).

Definition total f m : Z := map_fold (fun _ p acc => f p + acc) 0 m.

Lemma total_insert_new f m t p : m !! t = None -> total f (<[t := p]> m) = f p + total f m.
Proof. intros Ht. unfold total. rewrite map_fold_insert_L; [done|intros; lia|done]. Qed.

Lemma total_delete f m t p : m !! t = Some p -> total f m = f p + total f (delete t m).
Proof.
  intros Ht. rewrite <-(insert_delete_id m t p Ht) at 1. apply total_insert_new, lookup_delete_eq.
Qed.

Lemma total_update f m t p p' : m !! t = Some p -> total f (<[t := p']> m) = total f m - f p + f p'.
Proof.
  intros Ht. rewrite (total_delete f (<[t := p']> m) t p' (lookup_insert_eq _ _ _)), delete_insert_eq.
  rewrite (total_delete f m t p Ht). lia.
Qed.

Lemma total_le f g m : (forall p, f p <= g p) -> total f m <= total g m.
Proof.
  intros H. induction m as [|t p m Hm IH] using map_ind; [done|].
  rewrite !total_insert_new by done. pose proof (H p). lia.
Qed.

Lemma total_zero f m : map_Forall (fun _ p => f p = 0) m -> total f m = 0.
Proof.
  induction m as [|t p m Hm IH] using map_ind; [done|]. intros [Hp Ht]%map_Forall_insert; [|done].
  rewrite total_insert_new, Hp, IH by done. done.
Qed.

Lemma total_nonneg f m : (forall p, 0 <= f p) -> 0 <= total f m.
Proof.
  intros H. rewrite <-(total_zero (fun _ => 0) m) by (intros ???; done). by apply total_le.
Qed.

Lemma total_ge f m t p : (forall p, 0 <= f p) -> m !! t = Some p -> f p <= total f m.
Proof.
  intros H Ht. rewrite (total_delete f m t p Ht). pose proof (total_nonneg f (delete t m) H). lia.
Qed.

Lemma total_ge2 f m t u p p' : (forall p, 0 <= f p) -> m !! t = Some p -> m !! u = Some p' -> t <> u ->
  f p + f p' <= total f m.
Proof.
  intros H Ht Hu Hne. rewrite (total_delete f m t p Ht).
  pose proof (total_ge f (delete t m) u p' H) as Hg. rewrite lookup_delete_ne in Hg by done.
  specialize (Hg Hu). lia.
Qed.
End Totals.
