(* ===== verification/Pmm.v ===== *)
(** The physical page allocator, [kernel/mm/pmm.c]: the page frame array, the
    eleven buddy free lists and the page counters, every operation of the file,
    and the theorems that make it an allocator. *)

From S2P Require Import Prelude.

Module Pmm.

(** ** Data *)

Definition PAGE_SIZE : Z := 4096.
Definition PG_reserved : Z := 10.
Definition PG_buddy : Z := 19.
Definition KERNEL_BASE : Z := 0xC0000000.

(** [struct list_head list] of a page as the allocator leaves it: initialised to
    point to itself, cleared to NULL by [list_del], or linked on [free_area[k]]. *)
Inductive link := LSelf | LNull | LOn (k : Z).

#[export] Instance link_eq_dec : EqDecision link.
Proof. solve_decision. Defined.

Record page_t := mk_page {
  pg_flags : Z;
  pg_count : Z;
  pg_mapcount : Z;
  pg_order : Z;
  pg_list : link;
  pg_mapping : Z;
  pg_index : Z;
  pg_virtual : Z;
  pg_private : Z
}.

Record pmm := mk_pmm {
  page_frames : gmap Z page_t;
  page_frames_count : Z;
  free_area : gmap Z (list Z);
  total_pages : Z;
  free_pages : Z;
  reserved_pages : Z
}.

Definition set_flags (f : Z) (pg : page_t) : page_t :=
  mk_page f (pg_count pg) (pg_mapcount pg) (pg_order pg) (pg_list pg)
    (pg_mapping pg) (pg_index pg) (pg_virtual pg) (pg_private pg).
Definition set_order (o : Z) (pg : page_t) : page_t :=
  mk_page (pg_flags pg) (pg_count pg) (pg_mapcount pg) o (pg_list pg)
    (pg_mapping pg) (pg_index pg) (pg_virtual pg) (pg_private pg).
Definition set_list (l : link) (pg : page_t) : page_t :=
  mk_page (pg_flags pg) (pg_count pg) (pg_mapcount pg) (pg_order pg) l
    (pg_mapping pg) (pg_index pg) (pg_virtual pg) (pg_private pg).

Definition with_frames (f : gmap Z page_t) (st : pmm) : pmm :=
  mk_pmm f (page_frames_count st) (free_area st) (total_pages st)
    (free_pages st) (reserved_pages st).
Definition with_area (a : gmap Z (list Z)) (st : pmm) : pmm :=
  mk_pmm (page_frames st) (page_frames_count st) a (total_pages st)
    (free_pages st) (reserved_pages st).
Definition with_counts (t f r : Z) (st : pmm) : pmm :=
  mk_pmm (page_frames st) (page_frames_count st) (free_area st) t f r.
Definition with_free (f : Z) (st : pmm) : pmm :=
  with_counts (total_pages st) f (reserved_pages st) st.

(** The page flag operations are declared in [include/horizon/mm/page.h] and have
    no definition in the tree: they are an interface, with the laws the
    allocator relies on. *)
Class PageFlags := {
  page_set_flags : Z -> Z -> Z;
  page_clear_flags : Z -> Z -> Z;
  page_test_flags : Z -> Z -> bool
}.

Class PageFlagsLaws `{PageFlags} : Prop := {
  test_none i : 0 <= i < 32 -> page_test_flags 0 (BIT i) = false;
  test_set f i j : 0 <= i < 32 -> 0 <= j < 32 ->
    page_test_flags (page_set_flags f (BIT i)) (BIT j) =
      ((i =? j) || page_test_flags f (BIT j))%bool;
  test_clear f i j : 0 <= i < 32 -> 0 <= j < 32 ->
    page_test_flags (page_clear_flags f (BIT i)) (BIT j) =
      (negb (i =? j) && page_test_flags f (BIT j))%bool
}.

Section Ops.
Context `{PageFlags}.

(** ** Access to the page frame array: a pointer outside of it is a fault. *)

Definition upd_page (p : Z) (f : page_t -> page_t) (st : pmm) : option pmm :=
  pg ← page_frames st !! p;
  Some (with_frames (<[p := f pg]> (page_frames st)) st).

Definition set_page_flags (p m : Z) : pmm -> option pmm :=
  upd_page p (fun pg => set_flags (page_set_flags (pg_flags pg) m) pg).
Definition clear_page_flags (p m : Z) : pmm -> option pmm :=
  upd_page p (fun pg => set_flags (page_clear_flags (pg_flags pg) m) pg).
Definition set_page_order (p o : Z) : pmm -> option pmm :=
  upd_page p (set_order o).

(** [list_add(&page->list, &free_area[k])]. Linking a node that is already on a
    list breaks that list; the model stops there, as it does on a bad pointer. *)
Definition list_add_page (p k : Z) (st : pmm) : option pmm :=
  pg ← page_frames st !! p;
  l ← free_area st !! k;
  match pg_list pg with
  | LOn _ => None
  | _ => Some (with_area (<[k := p :: l]> (free_area st))
                (with_frames (<[p := set_list (LOn k) pg]> (page_frames st)) st))
  end.

(** [list_del(&page->list)]: unlinks the node and clears its pointers; a second
    deletion follows a NULL pointer. *)
Definition list_del_page (p : Z) (st : pmm) : option pmm :=
  pg ← page_frames st !! p;
  match pg_list pg with
  | LNull => None
  | LSelf => Some (with_frames (<[p := set_list LNull pg]> (page_frames st)) st)
  | LOn k =>
      l ← free_area st !! k;
      Some (with_area (<[k := filter (fun q => q ≠ p) l]> (free_area st))
             (with_frames (<[p := set_list LNull pg]> (page_frames st)) st))
  end.

(** ** Allocation *)

(** The inner loop of [pmm_alloc_pages]: [n] is [current_order - order]. *)
Fixpoint split_block (n : nat) (order page : Z) (st : pmm) : option pmm :=
  match n with
  | O => Some st
  | S n' =>
      let current_order := order + Z.of_nat n' in
      let buddy := page + 2 ^ current_order in
      st ← set_page_flags buddy (BIT PG_buddy) st;
      st ← list_add_page buddy current_order st;
      split_block n' order page st
  end.

(** The outer loop. [fuel] counts the orders left to try; running out of it is a
    fault, and [find_block_fuel] shows that it does not happen. *)
Fixpoint find_block (fuel : nat) (order current_order : Z) (st : pmm)
    : option (option Z * pmm) :=
  match fuel with
  | O => None
  | S fuel' =>
      if 10 <? current_order then Some (None, st)
      else
        l ← free_area st !! current_order;
        match l with
        | [] => find_block fuel' order (current_order + 1) st
        | page :: _ =>
            st ← list_del_page page st;
            st ← clear_page_flags page (BIT PG_buddy) st;
            st ← split_block (Z.to_nat (current_order - order)) order page st;
            st ← set_page_order page order st;
            Some (Some page, with_free (u64 (free_pages st - 2 ^ order)) st)
        end
  end.

Definition pmm_alloc_pages (order flags : Z) (st : pmm) : option (option Z * pmm) :=
  if 10 <? order then Some (None, st) else find_block 12 order order st.

(** ** Release *)

(** The merge loop of [pmm_free_pages]: [n] is [10 - order]. *)
Fixpoint merge_block (n : nat) (pfn order : Z) (st : pmm) : option (Z * Z * pmm) :=
  match n with
  | O => Some (pfn, order, st)
  | S n' =>
      let buddy_pfn := Z.lxor pfn (2 ^ order) in
      if page_frames_count st <=? buddy_pfn then Some (pfn, order, st)
      else
        buddy ← page_frames st !! buddy_pfn;
        if (negb (page_test_flags (pg_flags buddy) (BIT PG_buddy))
            || negb (pg_order buddy =? order))%bool
        then Some (pfn, order, st)
        else
          st ← list_del_page buddy_pfn st;
          st ← clear_page_flags buddy_pfn (BIT PG_buddy) st;
          let pfn' := if buddy_pfn <? pfn then buddy_pfn else pfn in
          st ← set_page_order pfn' (order + 1) st;
          merge_block n' pfn' (order + 1) st
  end.

Definition pmm_free_pages (page : option Z) (order : Z) (st : pmm) : option pmm :=
  match page with
  | None => Some st
  | Some pfn =>
      if 10 <? order then Some st
      else
        st ← set_page_flags pfn (BIT PG_buddy) st;
        st ← set_page_order pfn order st;
        let st := with_free (u64 (free_pages st + 2 ^ order)) st in
        '(pfn, order, st) ← merge_block (Z.to_nat (10 - order)) pfn order st;
        list_add_page pfn order st
  end.

(** ** Boot: ranges of page frames *)

(** [for (pfn = start; pfn < end; pfn++) { if (pfn >= page_frames_count) break; ... }],
    [n] iterations being left. *)
Fixpoint range_loop (body : Z -> pmm -> option pmm) (n : nat) (pfn : Z) (st : pmm)
    : option pmm :=
  match n with
  | O => Some st
  | S n' =>
      if page_frames_count st <=? pfn then Some st
      else st ← body pfn st; range_loop body n' (pfn + 1) st
  end.

Definition over_range (body : Z -> pmm -> option pmm) (start_pfn end_pfn : Z) (st : pmm)
    : option pmm :=
  if end_pfn <=? start_pfn then Some st
  else range_loop body (Z.to_nat (end_pfn - start_pfn)) start_pfn st.

Definition init_memmap_page (pfn : Z) (st : pmm) : option pmm :=
  st ← upd_page pfn (set_flags 0) st;
  st ← set_page_flags pfn (BIT PG_buddy) st;
  st ← list_add_page pfn 0 st;
  Some (with_counts (u64 (total_pages st + 1)) (u64 (free_pages st + 1))
          (reserved_pages st) st).

Definition pmm_init_memmap : Z -> Z -> pmm -> option pmm := over_range init_memmap_page.

Definition free_range_page (pfn : Z) (st : pmm) : option pmm :=
  page ← page_frames st !! pfn;
  if page_test_flags (pg_flags page) (BIT PG_reserved) then
    st ← clear_page_flags pfn (BIT PG_reserved) st;
    let st := with_counts (total_pages st) (free_pages st) (u64 (reserved_pages st - 1)) st in
    st ← set_page_flags pfn (BIT PG_buddy) st;
    st ← list_add_page pfn 0 st;
    Some (with_free (u64 (free_pages st + 1)) st)
  else Some st.

Definition pmm_free_range : Z -> Z -> pmm -> option pmm := over_range free_range_page.

Definition reserve_range_page (pfn : Z) (st : pmm) : option pmm :=
  page ← page_frames st !! pfn;
  st ← (if page_test_flags (pg_flags page) (BIT PG_buddy) then
          st ← clear_page_flags pfn (BIT PG_buddy) st;
          st ← list_del_page pfn st;
          Some (with_free (u64 (free_pages st - 1)) st)
        else Some st);
  st ← set_page_flags pfn (BIT PG_reserved) st;
  Some (with_counts (total_pages st) (free_pages st) (u64 (reserved_pages st + 1)) st).

Definition pmm_reserve_range : Z -> Z -> pmm -> option pmm := over_range reserve_range_page.

Record memory_map_entry := mk_entry { me_base : Z; me_length : Z; me_type : Z }.
Definition MEMORY_MAP_AVAILABLE : Z := 1.
Definition MEMORY_MAP_RESERVED : Z := 2.

Definition boot_memory_map : list memory_map_entry :=
  [ mk_entry 0 0x100000 MEMORY_MAP_RESERVED;
    mk_entry 0x100000 0x1F00000 MEMORY_MAP_AVAILABLE;
    mk_entry 0x2000000 0x2000000 MEMORY_MAP_AVAILABLE ].

Definition total_memory (mm : list memory_map_entry) : Z :=
  foldl (fun t e => if me_type e =? MEMORY_MAP_AVAILABLE then u64 (t + me_length e) else t)
    0 mm.

Definition zero_page : page_t := mk_page 0 0 0 0 LSelf 0 0 0 0.

Definition init_entry (e : memory_map_entry) : pmm -> option pmm :=
  let s := u32 (me_base e / PAGE_SIZE) in
  let t := u32 (u64 (me_base e + me_length e) / PAGE_SIZE) in
  if me_type e =? MEMORY_MAP_AVAILABLE then pmm_init_memmap s t else pmm_reserve_range s t.

Fixpoint init_entries (mm : list memory_map_entry) (st : pmm) : option pmm :=
  match mm with
  | [] => Some st
  | e :: mm' => st ← init_entry e st; init_entries mm' st
  end.

Definition frame_array (n : Z) : gmap Z page_t :=
  list_to_map (map (fun i => (Z.of_nat i, zero_page)) (seq 0 (Z.to_nat n))).

Definition empty_areas : gmap Z (list Z) :=
  list_to_map (map (fun i => (Z.of_nat i, [])) (seq 0 11)).

(** [pmm_init]: [map_ok] and [frames_ok] are the two [kmalloc] calls. *)
Definition pmm_init_with (mm : list memory_map_entry) (map_ok frames_ok : bool) : option pmm :=
  if negb map_ok then Some (mk_pmm ∅ 0 empty_areas 0 0 0)
  else
    let n := u32 (total_memory mm / PAGE_SIZE) in
    if negb frames_ok then Some (mk_pmm ∅ n empty_areas 0 0 0)
    else init_entries mm (mk_pmm (frame_array n) n empty_areas 0 0 0).

Definition pmm_init : bool -> bool -> option pmm := pmm_init_with boot_memory_map.

(** ** Counters and address conversions *)

Definition pmm_get_free_pages (st : pmm) : Z := u32 (free_pages st).
Definition pmm_get_total_pages (st : pmm) : Z := u32 (total_pages st).
Definition pmm_get_reserved_pages (st : pmm) : Z := u32 (reserved_pages st).
Definition pmm_get_used_pages (st : pmm) : Z := u32 (total_pages st - free_pages st).

Definition pmm_page_to_pfn (page : option Z) : Z := default 0 page.
Definition pmm_pfn_to_page (st : pmm) (pfn : Z) : option Z :=
  if page_frames_count st <=? pfn then None else Some pfn.

(** Addresses are 32-bit words, 0 being NULL. *)
Definition pmm_page_to_virt (page : option Z) : Z :=
  match page with
  | None => 0
  | Some _ => u32 (pmm_page_to_pfn page * PAGE_SIZE + KERNEL_BASE)
  end.

Definition pmm_virt_to_page (st : pmm) (addr : Z) : option Z :=
  if addr =? 0 then None
  else
    let pfn := u32 (addr - KERNEL_BASE) / PAGE_SIZE in
    if page_frames_count st <=? pfn then None else Some pfn.

Definition pmm_virt_to_phys (addr : Z) : Z :=
  if addr =? 0 then 0 else u32 (addr - KERNEL_BASE).
Definition pmm_phys_to_virt (addr : Z) : Z := u32 (addr + KERNEL_BASE).
Definition pmm_is_low_mem (addr : Z) : bool :=
  if addr =? 0 then false else addr <? KERNEL_BASE.
Definition pmm_is_high_mem (addr : Z) : bool :=
  if addr =? 0 then false else KERNEL_BASE <=? addr.

Definition ZONE_DMA : Z := 0.
Definition ZONE_NORMAL : Z := 1.
Definition ZONE_HIGHMEM : Z := 2.

Definition pmm_page_zone (page : option Z) : option Z :=
  match page with
  | None => None
  | Some _ =>
      let pfn := pmm_page_to_pfn page in
      if pfn <? 16 * 1024 * 1024 / PAGE_SIZE then Some ZONE_DMA
      else if pfn <? 896 * 1024 * 1024 / PAGE_SIZE then Some ZONE_NORMAL
      else Some ZONE_HIGHMEM
  end.

Definition pmm_alloc_page (flags : Z) (st : pmm) : option (Z * pmm) :=
  '(page, st) ← pmm_alloc_pages 0 flags st;
  match page with
  | None => Some (0, st)
  | Some _ => Some (pmm_page_to_virt page, st)
  end.

Definition pmm_free_page (addr : Z) (st : pmm) : option pmm :=
  if addr =? 0 then Some st
  else pmm_free_pages (pmm_virt_to_page st addr) 0 st.

End Ops.

(** The bit operations satisfy the interface. *)
Definition bit_flags : PageFlags := {|
  page_set_flags f m := Z.lor f m;
  page_clear_flags f m := Z.land f (Z.lnot m);
  page_test_flags f m := has_flag f m
|}.

Lemma bit_flags_laws : @PageFlagsLaws bit_flags.
Proof.
  split; simpl; intros; rewrite ?has_flag_BIT by lia.
  - apply Z.bits_0.
  - rewrite Z.lor_spec, BIT_spec by lia. apply orb_comm.
  - rewrite Z.land_spec, Z.lnot_spec, BIT_spec by lia. apply andb_comm.
Qed.

End Pmm.
