(* ===== verification/PmmInv.v ===== *)
(** The invariant of the physical page allocator and how each primitive step of
    [kernel/mm/pmm.c] moves it: the free blocks, the blocks in use, their
    alignment and disjointness, and the order fields of the frames inside them. *)

From S2P Require Import Prelude Pmm.
Import Pmm.

Module PmmInv.

(** ** Views of the state *)

Definition ord (st : pmm) (p : Z) : option Z := pg_order <$> page_frames st !! p.
Definition lnk (st : pmm) (p : Z) : option link := pg_list <$> page_frames st !! p.
Definition buddy_flag `{PageFlags} (st : pmm) (p : Z) : bool :=
  match page_frames st !! p with
  | Some pg => page_test_flags (pg_flags pg) (BIT PG_buddy)
  | None => false
  end.

(** [p] heads a free block of order [k]. *)
Definition linked (st : pmm) (p k : Z) : Prop := lnk st p = Some (LOn k).

(** [p] heads a block of order [k], free or in use. *)
Definition block (B : gmap Z Z) (st : pmm) (p k : Z) : Prop :=
  linked st p k ∨ B !! p = Some k.

(** [o] is the exponent of 2 in [q]. *)
Definition val2 (q o : Z) : Prop := (2 ^ o | q) ∧ ¬ (2 ^ (o + 1) | q) ∧ 0 <= o.

Definition disjoint_blocks (p k p' k' : Z) : Prop := p + 2 ^ k <= p' ∨ p' + 2 ^ k' <= p.

Record block_ok (st : pmm) (p k : Z) : Prop := {
  bk_order : 0 <= k <= 10;
  bk_align : (2 ^ k | p);
  bk_low : 0 <= p;
  bk_high : p + 2 ^ k <= page_frames_count st;
  bk_inner q o : p < q < p + 2 ^ k -> ord st q = Some o -> val2 q o
}.

Record Core (B : gmap Z Z) (st : pmm) : Prop := {
  c_dom p : is_Some (page_frames st !! p) <-> 0 <= p < page_frames_count st;
  c_area_dom k : is_Some (free_area st !! k) <-> 0 <= k <= 10;
  c_nodup k l : free_area st !! k = Some l -> NoDup l;
  c_area k l p : free_area st !! k = Some l -> (p ∈ l <-> linked st p k);
  c_free p k : linked st p k -> block_ok st p k ∧ ord st p = Some k;
  c_used p k : B !! p = Some k -> block_ok st p k;
  c_excl p k k' : B !! p = Some k -> ¬ linked st p k';
  c_disj p k p' k' : block B st p k -> block B st p' k' -> p ≠ p' ->
    disjoint_blocks p k p' k'
}.

(** ** Powers of two and the buddy of a block *)

Lemma pow2_pos k : 0 <= k -> 0 < 2 ^ k.
Proof. intros; apply Z.pow_pos_nonneg; lia. Qed.

Lemma pow2_succ k : 0 <= k -> 2 ^ (k + 1) = 2 * 2 ^ k.
Proof. intros. rewrite Z.pow_add_r by lia. change (2 ^ 1) with 2. lia. Qed.

Lemma pow2_divide j k : 0 <= j <= k -> (2 ^ j | 2 ^ k).
Proof.
  intros. exists (2 ^ (k - j)). rewrite <- Z.pow_add_r by lia. f_equal. lia.
Qed.

Lemma val2_unique q a b : val2 q a -> val2 q b -> a = b.
Proof.
  intros (Ha & Ha' & ?) (Hb & Hb' & ?).
  destruct (Z.lt_trichotomy a b) as [?|[?|?]]; [|done|]; exfalso.
  - apply Ha'. etrans; [|exact Hb]. apply pow2_divide. lia.
  - apply Hb'. etrans; [|exact Ha]. apply pow2_divide. lia.
Qed.

(** The upper half of an aligned pair has exactly the exponent of the half. *)
Lemma val2_upper p k : 0 <= k -> (2 ^ (k + 1) | p) -> val2 (p + 2 ^ k) k.
Proof.
  intros Hk [c Hc]. split; [|split; [|done]].
  - exists (2 * c + 1). subst p. rewrite pow2_succ by done. lia.
  - rewrite pow2_succ in * by done. intros [d Hd]. pose proof (pow2_pos k Hk).
    assert (2 * c + 1 = 2 * d) by (apply (Z.mul_reg_r _ _ (2 ^ k)); lia). lia.
Qed.

Lemma lxor1_even c : Z.Even c -> Z.lxor c 1 = c + 1.
Proof.
  intros [d ->]. rewrite <- Z.add_nocarry_lxor; [done|].
  apply Z.bits_inj'. intros n Hn. rewrite Z.land_spec, Z.bits_0.
  change 1 with (2 ^ 0). rewrite Z.pow2_bits_eqb by done.
  destruct (Z.eqb_spec 0 n); subst; [|apply andb_false_r].
  by rewrite Z.testbit_even_0.
Qed.

Lemma lxor1_odd c : Z.Odd c -> Z.lxor c 1 = c - 1.
Proof.
  intros [d ->]. replace (2 * d + 1) with (Z.lxor (2 * d) 1) at 1
    by (rewrite lxor1_even; [done|by exists d]).
  rewrite Z.lxor_assoc, Z.lxor_nilpotent, Z.lxor_0_r. lia.
Qed.

(** Flipping bit [k] of a multiple of [2^k] moves to the other half of the pair. *)
Lemma lxor_buddy p k :
  0 <= k -> 0 <= p -> (2 ^ k | p) ->
  ((2 ^ (k + 1) | p) ∧ Z.lxor p (2 ^ k) = p + 2 ^ k)
  ∨ ((2 ^ (k + 1) | p - 2 ^ k) ∧ Z.lxor p (2 ^ k) = p - 2 ^ k ∧ 2 ^ k <= p).
Proof.
  intros Hk Hp [c Hc]. pose proof (pow2_pos k Hk) as Hpos.
  assert (0 <= c) by nia.
  assert (Z.lxor p (2 ^ k) = Z.lxor c 1 * 2 ^ k) as ->.
  { subst p. rewrite <- (Z.shiftl_mul_pow2 c k), <- (Z.shiftl_1_l k) by lia.
    rewrite <- Z.shiftl_lxor. rewrite Z.shiftl_mul_pow2 by lia. by rewrite Z.shiftl_1_l. }
  destruct (Z.Even_or_Odd c) as [[d Hd]|[d Hd]].
  - left. assert (Z.lxor c 1 = c + 1) as ->.
    { apply lxor1_even. by exists d. }
    split; [exists d; rewrite pow2_succ by done; nia|nia].
  - right. assert (Z.lxor c 1 = c - 1) as ->.
    { apply lxor1_odd. by exists d. }
    assert (1 <= c) by lia.     split_and!; [exists d; rewrite pow2_succ by done; subst p c; ring|subst p; ring|nia].
Qed.

(** Aligned blocks nest or are disjoint. *)
Lemma aligned_nested p k b k' :
  0 <= k -> k <= k' -> (2 ^ k | b) -> (2 ^ k' | p) -> p <= b < p + 2 ^ k' ->
  b + 2 ^ k <= p + 2 ^ k'.
Proof.
  intros Hk Hkk [c Hc] [d Hd] Hr.
  assert (2 ^ k' = 2 ^ (k' - k) * 2 ^ k) as E
    by (rewrite <- Z.pow_add_r by lia; f_equal; lia).
  pose proof (pow2_pos k Hk). rewrite E in *.
  assert (c < (d + 1) * 2 ^ (k' - k)) by (apply (Z.mul_lt_mono_pos_r (2 ^ k)); lia).
  assert ((c + 1) * 2 ^ k <= (d + 1) * 2 ^ (k' - k) * 2 ^ k)
    by (apply Z.mul_le_mono_nonneg_r; lia).
  lia.
Qed.

Lemma aligned_inner_order p k' b k :
  0 <= k' -> 0 <= k -> (2 ^ k | b) -> (2 ^ k' | p) -> p < b < p + 2 ^ k' -> k < k'.
Proof.
  intros ? ? Hb [d Hd] Hr. destruct (decide (k < k')) as [|Hge]; [done|exfalso].
  assert (2 ^ k' | b) as [c Hc] by (etrans; [apply pow2_divide|exact Hb]; lia).
  pose proof (pow2_pos k' ltac:(lia)).
  assert (d < c) by (apply (Z.mul_lt_mono_pos_r (2 ^ k')); lia).
  assert (c < d + 1) by (apply (Z.mul_lt_mono_pos_r (2 ^ k')); lia). lia.
Qed.

(** ** The core depends on the views only *)

Lemma Core_ext B st st' :
  Core B st ->
  page_frames_count st' = page_frames_count st ->
  free_area st' = free_area st ->
  (forall p, ord st' p = ord st p) ->
  (forall p, lnk st' p = lnk st p) ->
  Core B st'.
Proof.
  intros HC Hn Ha Ho Hl.
  assert (Hk : forall p k, linked st' p k <-> linked st p k) by (intros; unfold linked; by rewrite Hl).
  assert (Hb : forall p k, block_ok st p k -> block_ok st' p k).
  { intros p k []. split; [done..|by rewrite Hn|].
    intros q o ?. rewrite Ho. eauto. }
  assert (Hs : forall p, is_Some (page_frames st' !! p) <-> is_Some (page_frames st !! p)).
  { intros p. specialize (Ho p). unfold ord in Ho.
    destruct (page_frames st' !! p), (page_frames st !! p); try done; by split. }
  split.
  - intros p. rewrite Hs, Hn. apply (c_dom _ _ HC).
  - intros k. rewrite Ha. apply (c_area_dom _ _ HC).
  - intros k l. rewrite Ha. apply (c_nodup _ _ HC).
  - intros k l p. rewrite Ha, Hk. apply (c_area _ _ HC).
  - intros p k. rewrite Hk, Ho. intros [??]%(c_free _ _ HC). auto.
  - intros p k ?. apply Hb. by apply (c_used _ _ HC).
  - intros p k k' ?. rewrite Hk. by eapply (c_excl _ _ HC).
  - intros p k p' k' H1 H2. unfold block in *. rewrite Hk in *.
    by apply (c_disj _ _ HC).
Qed.

(** ** What one primitive step changes *)

Record unchanged (st st' : pmm) : Prop := {
  un_count : page_frames_count st' = page_frames_count st;
  un_total : total_pages st' = total_pages st;
  un_free : free_pages st' = free_pages st;
  un_res : reserved_pages st' = reserved_pages st
}.

Definition flag_at `{PageFlags} (p : Z) (v : bool) (st st' : pmm) : Prop :=
  forall q, buddy_flag st' q = if decide (q = p) then v else buddy_flag st q.
Definition same_flags `{PageFlags} (st st' : pmm) : Prop :=
  forall q, buddy_flag st' q = buddy_flag st q.
Definition same_ord (st st' : pmm) : Prop := forall q, ord st' q = ord st q.
Definition ord_at (p o : Z) (st st' : pmm) : Prop :=
  forall q, ord st' q = if decide (q = p) then Some o else ord st q.
Definition same_lnk (st st' : pmm) : Prop := forall q, lnk st' q = lnk st q.
Definition lnk_at (p : Z) (l : link) (st st' : pmm) : Prop :=
  forall q, lnk st' q = if decide (q = p) then Some l else lnk st q.

Ltac view_tac :=
  intros q; unfold ord, lnk, buddy_flag; simpl;
  rewrite lookup_insert; repeat case_decide; subst; simplify_eq/=; auto.

Section Steps.
Context `{HF : PageFlagsLaws}.

Lemma set_flag_spec st p pg :
  page_frames st !! p = Some pg ->
  exists st', set_page_flags p (BIT PG_buddy) st = Some st'
    ∧ unchanged st st' ∧ free_area st' = free_area st
    ∧ same_ord st st' ∧ same_lnk st st' ∧ flag_at p true st st'.
Proof.
  intros Hp. unfold set_page_flags, upd_page. rewrite Hp. eexists. split; [done|].
  split_and!; [by split|done|..]; view_tac; try by rewrite Hp.
  by rewrite test_set by (unfold PG_buddy; lia).
Qed.

Lemma clear_flag_spec st p pg :
  page_frames st !! p = Some pg ->
  exists st', clear_page_flags p (BIT PG_buddy) st = Some st'
    ∧ unchanged st st' ∧ free_area st' = free_area st
    ∧ same_ord st st' ∧ same_lnk st st' ∧ flag_at p false st st'.
Proof.
  intros Hp. unfold clear_page_flags, upd_page. rewrite Hp. eexists. split; [done|].
  split_and!; [by split|done|..]; view_tac; try by rewrite Hp.
  by rewrite test_clear by (unfold PG_buddy; lia).
Qed.

Lemma set_order_spec st p pg o :
  page_frames st !! p = Some pg ->
  exists st', set_page_order p o st = Some st'
    ∧ unchanged st st' ∧ free_area st' = free_area st
    ∧ ord_at p o st st' ∧ same_lnk st st' ∧ same_flags st st'.
Proof.
  intros Hp. unfold set_page_order, upd_page. rewrite Hp. eexists. split; [done|].
  split_and!; [by split|done|..]; view_tac; by rewrite Hp.
Qed.

Lemma list_add_spec st p pg k l :
  page_frames st !! p = Some pg -> free_area st !! k = Some l ->
  (forall j, ¬ linked st p j) ->
  exists st', list_add_page p k st = Some st'
    ∧ unchanged st st' ∧ free_area st' = <[k := p :: l]> (free_area st)
    ∧ same_ord st st' ∧ lnk_at p (LOn k) st st' ∧ same_flags st st'.
Proof.
  intros Hp Hl Hn. unfold list_add_page. rewrite Hp, Hl; simpl.
  assert (forall j, pg_list pg ≠ LOn j) as Hnj.
  { intros j E. apply (Hn j). unfold linked, lnk. rewrite Hp; simpl. by rewrite E. }
  destruct (pg_list pg) eqn:El; [..|by destruct (Hnj k0)];
  (eexists; split; [done|]; split_and!; [by split|done|..]; view_tac; by rewrite Hp).
Qed.

Lemma list_del_spec st p k l :
  linked st p k -> free_area st !! k = Some l ->
  exists st', list_del_page p st = Some st'
    ∧ unchanged st st' ∧ free_area st' = <[k := filter (fun q => q ≠ p) l]> (free_area st)
    ∧ same_ord st st' ∧ lnk_at p LNull st st' ∧ same_flags st st'.
Proof.
  unfold linked, lnk. intros (pg & Hp & Hk%symmetry)%fmap_Some_1 Hl.
  unfold list_del_page. rewrite Hp; simpl. rewrite Hk. rewrite Hl; simpl.
  eexists; split; [done|]; split_and!; [by split|done|..]; view_tac; by rewrite Hp.
Qed.

End Steps.

(** ** How the steps move blocks *)

Lemma block_ok_views st st' p k :
  page_frames_count st' = page_frames_count st ->
  (forall q, p < q < p + 2 ^ k -> ord st' q = ord st q) ->
  block_ok st p k -> block_ok st' p k.
Proof.
  intros Hn Ho []. split; [done..|by rewrite Hn|].
  intros q o Hq. rewrite Ho by done. eauto.
Qed.

Lemma views_dom st st' p :
  same_ord st st' -> is_Some (page_frames st' !! p) <-> is_Some (page_frames st !! p).
Proof.
  intros Ho. specialize (Ho p). unfold ord in Ho.
  destruct (page_frames st' !! p), (page_frames st !! p); try done; by split.
Qed.

(** Relinking that leaves the set of blocks and the order fields alone. *)
Lemma Core_relink B B' st st' :
  Core B st ->
  unchanged st st' -> same_ord st st' ->
  (forall p k, block B' st' p k <-> block B st p k) ->
  (forall p k, linked st' p k -> ord st p = Some k) ->
  (forall p k k', B' !! p = Some k -> ¬ linked st' p k') ->
  (forall k, is_Some (free_area st' !! k) <-> is_Some (free_area st !! k)) ->
  (forall k l, free_area st' !! k = Some l -> NoDup l ∧ forall p, p ∈ l <-> linked st' p k) ->
  Core B' st'.
Proof.
  intros HC Hu Ho Hb Hord Hex Had Ha.
  assert (Hok : forall p k, block B' st' p k -> block_ok st' p k).
  { intros p k Hp%Hb. apply (block_ok_views st); [apply Hu|done|].
    destruct Hp as [Hp|Hp]; [apply (c_free _ _ HC) in Hp; tauto|by apply (c_used _ _ HC)]. }
  split.
  - intros p. rewrite (views_dom st st') by done. rewrite (un_count _ _ Hu). apply (c_dom _ _ HC).
  - intros k. rewrite Had. apply (c_area_dom _ _ HC).
  - intros k l Hl. by apply (Ha k).
  - intros k l p Hl. by apply (Ha k).
  - intros p k Hp. split; [apply Hok; by left|]. rewrite Ho. auto.
  - intros p k Hp. apply Hok. by right.
  - exact Hex.
  - intros p k p' k' H1%Hb H2%Hb. by apply (c_disj _ _ HC).
Qed.

Lemma linked_range B st p k : Core B st -> linked st p k -> is_Some (free_area st !! k).
Proof. intros HC [[] _]%(c_free _ _ HC). by apply (c_area_dom _ _ HC). Qed.

Lemma Core_unlink B st st' p k l :
  Core B st -> linked st p k -> free_area st !! k = Some l ->
  unchanged st st' -> free_area st' = <[k := filter (fun q => q ≠ p) l]> (free_area st) ->
  same_ord st st' -> lnk_at p LNull st st' ->
  Core (<[p := k]> B) st'.
Proof.
  intros HC Hp Hl Hu Ha Ho Hk.
  assert (Hlk : forall q j, linked st' q j <-> q ≠ p ∧ linked st q j).
  { intros q j. unfold linked. rewrite Hk. case_decide; naive_solver. }
  assert (HB : B !! p = None).
  { destruct (B !! p) eqn:E; [|done]. by destruct (c_excl _ _ HC _ _ k E). }
  eapply (Core_relink B); try done.
  - intros q j. unfold block. rewrite Hlk, lookup_insert.
    case_decide; subst; [|naive_solver].
    unfold linked in *. naive_solver.
  - intros q j [_ Hq]%Hlk. by apply (c_free _ _ HC) in Hq as [_ ?].
  - intros q j j'. rewrite lookup_insert, Hlk. case_decide; [naive_solver|].
    intros E [_ ?]. by apply (c_excl _ _ HC _ _ j' E).
  - intros j. rewrite Ha, lookup_insert. case_decide; subst; [|done].
    by rewrite Hl.
  - intros j l'. rewrite Ha, lookup_insert. case_decide; subst.
    + intros [= <-]. split; [by apply NoDup_filter, (c_nodup _ _ HC j)|].
      intros q. rewrite list_elem_of_filter, Hlk, (c_area _ _ HC) by done. done.
    + intros Hl'. split; [by apply (c_nodup _ _ HC j)|].
      intros q. rewrite (c_area _ _ HC) by done. rewrite Hlk.
      split; [|naive_solver]. intros Hq. split; [|done]. intros ->.
      unfold linked in *. congruence.
Qed.

Lemma Core_link B st st' p k l :
  Core B st -> B !! p = Some k -> ord st p = Some k -> free_area st !! k = Some l ->
  unchanged st st' -> free_area st' = <[k := p :: l]> (free_area st) ->
  same_ord st st' -> lnk_at p (LOn k) st st' ->
  Core (delete p B) st'.
Proof.
  intros HC Hp Hop Hl Hu Ha Ho Hk.
  assert (Hnl : forall j, ¬ linked st p j) by (intros j; by eapply (c_excl _ _ HC)).
  assert (Hlk : forall q j, linked st' q j <-> (q = p ∧ j = k) ∨ (q ≠ p ∧ linked st q j)).
  { intros q j. unfold linked. rewrite Hk. case_decide; naive_solver. }
  eapply (Core_relink B); try done.
  - intros q j. unfold block. rewrite Hlk, lookup_delete.
    case_decide; subst; [|naive_solver]. specialize (Hnl j). naive_solver.
  - intros q j [[-> ->]|[_ Hq]]%Hlk; [done|]. by apply (c_free _ _ HC) in Hq as [_ ?].
  - intros q j j'. rewrite lookup_delete, Hlk. case_decide; [naive_solver|].
    intros E [[-> _]|[_ ?]]; [done|]. by apply (c_excl _ _ HC _ _ j' E).
  - intros j. rewrite Ha, lookup_insert. case_decide; subst; [|done].
    by rewrite Hl.
  - intros j l'. rewrite Ha, lookup_insert. case_decide; subst.
    + intros [= <-]. split.
      * apply NoDup_cons. split; [|by apply (c_nodup _ _ HC j)].
        rewrite (c_area _ _ HC) by done. apply Hnl.
      * intros q. rewrite elem_of_cons, Hlk, (c_area _ _ HC) by done.
        split; [|naive_solver]. intros [->|Hq]; [by left|].
        destruct (decide (q = p)) as [->|]; [by destruct (Hnl j)|by right].
    + intros Hl'. split; [by apply (c_nodup _ _ HC j)|].
      intros q. rewrite (c_area _ _ HC) by done. rewrite Hlk.
      split; [|naive_solver]. intros Hq. right. split; [|done]. intros ->.
      by destruct (Hnl j).
Qed.

(** The order field of the head of a block in use can be rewritten. *)
Lemma Core_order B st st' p k o :
  Core B st -> B !! p = Some k ->
  unchanged st st' -> free_area st' = free_area st ->
  ord_at p o st st' -> same_lnk st st' ->
  Core B st'.
Proof.
  intros HC Hp Hu Ha Ho Hk.
  assert (Hlk : forall q j, linked st' q j <-> linked st q j) by (intros; unfold linked; by rewrite Hk).
  assert (Hok : forall q j, block B st q j -> block_ok st q j -> block_ok st' q j).
  { intros q j Hb. apply block_ok_views; [apply Hu|].
    intros r Hr. rewrite Ho. case_decide as E; [|done]. subst r. exfalso.
    destruct (decide (q = p)) as [->|Hne]; [lia|].
    destruct (c_disj _ _ HC q j p k Hb (or_intror Hp) Hne); [lia|].
    destruct (c_used _ _ HC p k Hp) as [[? _] _ _ _ _]. pose proof (pow2_pos k ltac:(lia)). lia. }
  split.
  - intros q. rewrite (un_count _ _ Hu), <- (c_dom _ _ HC).
    specialize (Ho q). unfold ord in Ho.
    case_decide as E; subst.
    + destruct (page_frames st' !! p); [|done]. split; [intros _|done].
      apply (c_dom _ _ HC). destruct (c_used _ _ HC p k Hp) as [[? _] _ ? ? _].
      pose proof (pow2_pos k ltac:(lia)). lia.
    + destruct (page_frames st' !! q), (page_frames st !! q); try done; by split.
  - intros j. rewrite Ha. apply (c_area_dom _ _ HC).
  - intros j l. rewrite Ha. apply (c_nodup _ _ HC).
  - intros j l q. rewrite Ha, Hlk. apply (c_area _ _ HC).
  - intros q j Hq%Hlk. destruct (c_free _ _ HC _ _ Hq) as [? Hoq].
    split; [by apply Hok; [left|]|]. rewrite Ho. case_decide; [|done].
    subst. by destruct (c_excl _ _ HC _ _ j Hp).
  - intros q j Hq. apply Hok; [by right|by apply (c_used _ _ HC)].
  - intros q j j' Hq. rewrite Hlk. by eapply (c_excl _ _ HC).
  - intros q j q' j' H1 H2. unfold block in *. rewrite Hlk in *. by apply (c_disj _ _ HC).
Qed.

Lemma block_is_ok B st p k : Core B st -> block B st p k -> block_ok st p k.
Proof. intros HC [[? _]%(c_free _ _ HC)|?%(c_used _ _ HC)]; done. Qed.

(** No block starts inside another one. *)
Lemma no_head_inside B st p k q j :
  Core B st -> block B st p k -> block B st q j -> p ≠ q -> ¬ (p <= q < p + 2 ^ k).
Proof.
  intros HC Hp Hq Hne Hin.
  destruct (block_is_ok _ _ _ _ HC Hq) as [[? _] _ _ _ _].
  pose proof (pow2_pos j ltac:(lia)).
  destruct (c_disj _ _ HC p k q j Hp Hq Hne); lia.
Qed.

Lemma block_ok_halves st p k :
  0 <= k -> block_ok st p (k + 1) -> block_ok st p k ∧ block_ok st (p + 2 ^ k) k.
Proof.
  intros Hk [? Hal ? Hhi Hin]. pose proof (pow2_pos k Hk). rewrite pow2_succ in * by done.
  assert (2 ^ k | p) by (etrans; [|exact Hal]; exists 2; lia).
  split; split; try lia; try done.
  - intros q o ?. apply Hin. lia.
  - by apply Z.divide_add_r.
  - intros q o ?. apply Hin. lia.
Qed.

Lemma block_ok_join st p k :
  0 <= k < 10 -> (2 ^ (k + 1) | p) -> ord st (p + 2 ^ k) = Some k ->
  block_ok st p k -> block_ok st (p + 2 ^ k) k -> block_ok st p (k + 1).
Proof.
  intros Hk Hal Ho [_ _ ? ? Hl] [_ _ ? Hh Hu].
  assert (E : 2 ^ (k + 1) = 2 * 2 ^ k) by (apply pow2_succ; lia).
  split; [lia|done|done|lia|].
  intros q o Hq Hqo. destruct (Z.lt_trichotomy q (p + 2 ^ k)) as [?|[->|?]].
  - apply Hl; [lia|done].
  - assert (o = k) as -> by congruence. apply val2_upper; [lia|done].
  - apply Hu; [lia|done].
Qed.

Lemma Core_split B st p k :
  Core B st -> 0 <= k -> B !! p = Some (k + 1) ->
  Core (<[p := k]> (<[p + 2 ^ k := k]> B)) st ∧ ord st (p + 2 ^ k) = Some k.
Proof.
  intros HC Hk HB. pose proof (pow2_pos k Hk) as Hpos.
  pose proof (c_used _ _ HC _ _ HB) as Hok.
  destruct (block_ok_halves _ _ _ Hk Hok) as [Hlo Hup].
  assert (E : 2 ^ (k + 1) = 2 * 2 ^ k) by (by apply pow2_succ).
  assert (Hno : forall j, ¬ block B st (p + 2 ^ k) j).
  { intros j Hj. eapply (no_head_inside B st p (k + 1)); [done|by right|exact Hj|lia|lia]. }
  assert (Hsub : forall q j, block (<[p := k]> (<[p + 2 ^ k := k]> B)) st q j ->
    (q = p ∧ j = k) ∨ (q = p + 2 ^ k ∧ j = k) ∨ (q ≠ p ∧ q ≠ p + 2 ^ k ∧ block B st q j)).
  { intros q j [Hq|Hq].
    - right; right. split_and!; [|by intros ->; destruct (Hno j); left|by left].
      intros ->. by destruct (c_excl _ _ HC _ _ j HB).
    - rewrite !lookup_insert in Hq. repeat case_decide; simplify_eq; auto.
      right; right. split_and!; [done..|by right]. }
  split.
  - split; try apply HC.
    + intros q j Hq. destruct (Hsub q j) as [[-> ->]|[[-> ->]|(?&?&?)]];
        [by right|done..|]. by apply (block_is_ok B).
    + intros q j j' Hq Hl. rewrite !lookup_insert in Hq.
      repeat case_decide; simplify_eq.
      * by destruct (c_excl _ _ HC _ _ j' HB).
      * by destruct (Hno j'); left.
      * by destruct (c_excl _ _ HC _ _ j' Hq).
    + intros q j q' j' H1 H2 Hne. unfold disjoint_blocks.
      assert (Hout : forall r i, block B st r i -> r ≠ p -> r + 2 ^ i <= p ∨ p + 2 * 2 ^ k <= r).
      { intros r i Hr Hrp. destruct (c_disj _ _ HC r i p (k + 1)); [done|by right|done|lia|lia]. }
      destruct (Hsub _ _ H1) as [[-> ->]|[[-> ->]|(?&?&Hq)]],
               (Hsub _ _ H2) as [[-> ->]|[[-> ->]|(?&?&Hq')]];
        try (pose proof (Hout _ _ Hq ltac:(done))); try (pose proof (Hout _ _ Hq' ltac:(done)));
        try lia.
      by apply (c_disj _ _ HC).
  - destruct (proj2 (c_dom _ _ HC (p + 2 ^ k))) as [pg Hpg]; [destruct Hok; lia|].
    assert (Hov : ord st (p + 2 ^ k) = Some (pg_order pg)) by (unfold ord; by rewrite Hpg).
    rewrite Hov. f_equal. apply (val2_unique (p + 2 ^ k)); [apply (bk_inner _ _ _ Hok); [lia|done]|].
    apply val2_upper; [done|apply Hok].
Qed.

Lemma Core_merge B st p k :
  Core B st -> 0 <= k < 10 -> B !! p = Some k -> B !! (p + 2 ^ k) = Some k ->
  (2 ^ (k + 1) | p) -> ord st (p + 2 ^ k) = Some k ->
  Core (<[p := k + 1]> (delete (p + 2 ^ k) B)) st.
Proof.
  intros HC Hk HB HB' Hal Ho. pose proof (pow2_pos k ltac:(lia)) as Hpos.
  assert (E : 2 ^ (k + 1) = 2 * 2 ^ k) by (apply pow2_succ; lia).
  pose proof (block_ok_join _ _ _ Hk Hal Ho (c_used _ _ HC _ _ HB) (c_used _ _ HC _ _ HB')) as Hok.
  assert (Hsub : forall q j, block (<[p := k + 1]> (delete (p + 2 ^ k) B)) st q j ->
    (q = p ∧ j = k + 1) ∨ (q ≠ p ∧ q ≠ p + 2 ^ k ∧ block B st q j)).
  { intros q j [Hq|Hq].
    - right. split_and!; [by intros ->; destruct (c_excl _ _ HC _ _ j HB)
        |by intros ->; destruct (c_excl _ _ HC _ _ j HB')|by left].
    - rewrite lookup_insert, lookup_delete in Hq. repeat case_decide; simplify_eq; auto.
      right. split_and!; [done..|by right]. }
  split; try apply HC.
  - intros q j Hq. destruct (Hsub q j) as [[-> ->]|(?&?&?)]; [by right|done|].
    by apply (block_is_ok B).
  - intros q j j' Hq. rewrite lookup_insert, lookup_delete in Hq.
    repeat case_decide; simplify_eq; by eapply (c_excl _ _ HC).
  - intros q j q' j' H1 H2 Hne. unfold disjoint_blocks.
    assert (Hout : forall r i, block B st r i -> r ≠ p -> r ≠ p + 2 ^ k ->
      r + 2 ^ i <= p ∨ p + 2 * 2 ^ k <= r).
    { intros r i Hr Hrp Hrq.
      pose proof (pow2_pos i ltac:(destruct (block_is_ok _ _ _ _ HC Hr); lia)).
      destruct (c_disj _ _ HC r i p k), (c_disj _ _ HC r i (p + 2 ^ k) k);
        try done; try (by right); lia. }
    destruct (Hsub _ _ H1) as [[-> ->]|(?&?&Hq)], (Hsub _ _ H2) as [[-> ->]|(?&?&Hq')];
      try (pose proof (Hout _ _ Hq ltac:(done) ltac:(done)));
      try (pose proof (Hout _ _ Hq' ltac:(done) ltac:(done))); try lia.
    by apply (c_disj _ _ HC).
Qed.

End PmmInv.
