(* ===== verification/PmmProofs.v ===== *)
(** Theorems about the physical page allocator of [kernel/mm/pmm.c]. *)

From S2P Require Import Prelude Pmm PmmInv.
Import Pmm PmmInv.

Module PmmProofs.

(** ** Counting free frames *)

Definition area_len (a : gmap Z (list Z)) (k : nat) : Z :=
  Z.of_nat (length (default [] (a !! Z.of_nat k))).

Definition sum_over (f : nat -> Z) (ks : list nat) : Z := foldr (fun k s => f k + s) 0 ks.

(** Page frames on the free lists. *)
Definition area_sum (a : gmap Z (list Z)) : Z :=
  sum_over (fun k => 2 ^ Z.of_nat k * area_len a k) (seq 0 11).

Lemma sum_over_ext f g ks : (forall k, k ∈ ks -> f k = g k) -> sum_over f ks = sum_over g ks.
Proof.
  induction ks as [|k ks IH]; simpl; [done|]. intros Hk.
  rewrite Hk by (by left). rewrite IH; [done|]. intros. apply Hk. by right.
Qed.

Lemma sum_over_update f g ks (i : nat) d :
  NoDup ks -> i ∈ ks -> g i = f i + d -> (forall k, k ≠ i -> g k = f k) ->
  sum_over g ks = sum_over f ks + d.
Proof.
  induction ks as [|k ks IH]; simpl; [by intros _ ?%elem_of_nil|].
  intros [Hk Hnd]%NoDup_cons [->|Hi]%elem_of_cons Hgi Ho.
  - rewrite Hgi, (sum_over_ext g f); [lia|]. intros j Hj. apply Ho. by intros ->.
  - rewrite Ho by (by intros ->). rewrite IH by done. lia.
Qed.

Lemma area_sum_insert a k l l' :
  0 <= k <= 10 -> a !! k = Some l ->
  area_sum (<[k := l']> a) = area_sum a + 2 ^ k * (Z.of_nat (length l') - Z.of_nat (length l)).
Proof.
  intros Hk Hl. unfold area_sum. apply (sum_over_update _ _ _ (Z.to_nat k)).
  - apply NoDup_seq.
  - apply elem_of_seq. lia.
  - unfold area_len. rewrite Z2Nat.id by lia. rewrite Hl, lookup_insert_eq. simpl. lia.
  - intros j Hj. unfold area_len. rewrite lookup_insert_ne; [done|]. lia.
Qed.

Lemma filter_ne_id (l : list Z) p : p ∉ l -> filter (fun q => q ≠ p) l = l.
Proof.
  induction l as [|x l IH]; [done|]. intros [Hx Hl]%not_elem_of_cons.
  rewrite filter_cons, decide_True by done. f_equal. auto.
Qed.

Lemma filter_ne_length (l : list Z) p :
  NoDup l -> p ∈ l -> Z.of_nat (length (filter (fun q => q ≠ p) l)) = Z.of_nat (length l) - 1.
Proof.
  induction l as [|x l IH]; [by intros _ ?%elem_of_nil|].
  intros [Hx Hnd]%NoDup_cons Hp. rewrite filter_cons. destruct (decide (x = p)) as [->|Hne].
  - rewrite decide_False by naive_solver. rewrite filter_ne_id by done. simpl. lia.
  - rewrite decide_True by done. apply elem_of_cons in Hp as [->|Hp]; [done|].
    simpl length. rewrite Nat2Z.inj_succ, IH by done. lia.
Qed.

(** A frame on the free lists. *)
Definition free_frame (st : pmm) (q : Z) : Prop :=
  exists p k, linked st p k ∧ p <= q < p + 2 ^ k.

Definition block_frames (k p : Z) : list Z := seqZ p (2 ^ k).
Definition area_frames (st : pmm) (k : nat) : list Z :=
  default [] (free_area st !! Z.of_nat k) ≫= block_frames (Z.of_nat k).
Definition free_frames (st : pmm) : list Z := seq 0 11 ≫= area_frames st.

Lemma length_area_frames st k :
  Z.of_nat (length (area_frames st k)) = 2 ^ Z.of_nat k * area_len (free_area st) k.
Proof.
  unfold area_frames, area_len.
  induction (default [] (free_area st !! Z.of_nat k)) as [|p l IH]; [simpl; lia|].
  rewrite bind_cons, length_app, Nat2Z.inj_add, IH. unfold block_frames.
  rewrite length_seqZ. simpl length. pose proof (pow2_pos (Z.of_nat k) ltac:(lia)). lia.
Qed.

Lemma length_free_frames st : Z.of_nat (length (free_frames st)) = area_sum (free_area st).
Proof.
  unfold free_frames, area_sum. induction (seq 0 11) as [|k ks IH]; [done|].
  rewrite bind_cons, length_app, Nat2Z.inj_add, IH.
  by rewrite length_area_frames.
Qed.

Lemma elem_of_area_frames B st (k : nat) q :
  Core B st -> (k <= 10)%nat ->
  q ∈ area_frames st k <-> exists p, linked st p (Z.of_nat k) ∧ p <= q < p + 2 ^ Z.of_nat k.
Proof.
  intros HC Hk. unfold area_frames.
  destruct (proj2 (c_area_dom _ _ HC (Z.of_nat k))) as [l Hl]; [lia|].
  rewrite Hl. simpl. rewrite list_elem_of_bind. split.
  - intros (p & Hq & Hp). apply elem_of_seqZ in Hq. exists p.
    rewrite <- (c_area _ _ HC _ _ _ Hl). split; [done|lia].
  - intros (p & Hp & Hq). rewrite <- (c_area _ _ HC _ _ _ Hl) in Hp.
    exists p. split; [|done]. apply elem_of_seqZ. lia.
Qed.

Lemma elem_of_free_frames B st q : Core B st -> q ∈ free_frames st <-> free_frame st q.
Proof.
  intros HC. unfold free_frames. rewrite list_elem_of_bind. split.
  - intros (k & Hq & Hk). apply elem_of_seq in Hk.
    apply (elem_of_area_frames B) in Hq as (p & ? & ?); [|done|lia].
    by exists p, (Z.of_nat k).
  - intros (p & k & Hp & Hq). destruct (c_free _ _ HC _ _ Hp) as [[? _ _ _ _] _].
    exists (Z.to_nat k). split; [|apply elem_of_seq; lia].
    apply (elem_of_area_frames B); [done|lia|].
    exists p. by rewrite Z2Nat.id by lia.
Qed.

Lemma linked_inj B st p k p' k' q :
  Core B st -> linked st p k -> linked st p' k' ->
  p <= q < p + 2 ^ k -> p' <= q < p' + 2 ^ k' -> p = p' ∧ k = k'.
Proof.
  intros HC Hp Hp' Hq Hq'. destruct (decide (p = p')) as [->|Hne].
  - unfold linked in *. naive_solver.
  - destruct (c_disj _ _ HC p k p' k'); first [by left|done|lia].
Qed.

Lemma NoDup_free_frames B st : Core B st -> NoDup (free_frames st).
Proof.
  intros HC. apply NoDup_bind.
  - intros k k' q Hk Hk' (p & Hp & Hq)%(elem_of_area_frames B) (p' & Hp' & Hq')%(elem_of_area_frames B);
      try done; apply elem_of_seq in Hk, Hk'; try lia.
    destruct (linked_inj B st p (Z.of_nat k) p' (Z.of_nat k') q) as [_ ?]; try done. lia.
  - intros k Hk%elem_of_seq. unfold area_frames.
    destruct (proj2 (c_area_dom _ _ HC (Z.of_nat k))) as [l Hl]; [lia|]. rewrite Hl. simpl.
    apply NoDup_bind; [|intros; apply NoDup_seqZ|by apply (c_nodup _ _ HC (Z.of_nat k))].
    intros p p' q Hp Hp' Hq%elem_of_seqZ Hq'%elem_of_seqZ.
    apply (c_area _ _ HC _ _ _ Hl) in Hp. apply (c_area _ _ HC _ _ _ Hl) in Hp'.
    by destruct (linked_inj B st p (Z.of_nat k) p' (Z.of_nat k) q).
  - apply NoDup_seq.
Qed.

(** The free lists hold at most the frames there are. *)
Lemma area_sum_bound B st :
  Core B st -> 0 <= page_frames_count st ->
  0 <= area_sum (free_area st) <= page_frames_count st.
Proof.
  intros HC Hn. rewrite <- length_free_frames. split; [lia|].
  transitivity (Z.of_nat (length (seqZ 0 (page_frames_count st)))).
  - apply Nat2Z.inj_le, submseteq_length, NoDup_submseteq; [by apply (NoDup_free_frames B)|].
    intros q (p & k & Hp & Hq)%(elem_of_free_frames B); [|done].
    destruct (c_free _ _ HC _ _ Hp) as [[_ _ ? ? _] _]. apply elem_of_seqZ. lia.
  - rewrite length_seqZ. lia.
Qed.

(** Frames of the block headed by [p]. *)
Definition in_block (p k q : Z) : Prop := p <= q < p + 2 ^ k.

Lemma link_frames st st' p k q :
  lnk_at p (LOn k) st st' -> (forall j, ¬ linked st p j) ->
  free_frame st' q <-> free_frame st q ∨ in_block p k q.
Proof.
  intros Hl Hn. unfold free_frame, linked. split.
  - intros (p' & j & Hp & Hq). rewrite Hl in Hp. case_decide; simplify_eq; [by right|].
    left. eauto.
  - intros [(p' & j & Hp & Hq)|Hq].
    + exists p', j. rewrite Hl. case_decide; subst; [by destruct (Hn j)|done].
    + exists p, k. rewrite Hl. by rewrite decide_True.
Qed.

Lemma unlink_frames st st' p k q :
  lnk_at p LNull st st' -> linked st p k ->
  free_frame st q <-> free_frame st' q ∨ in_block p k q.
Proof.
  intros Hl Hp. unfold free_frame, linked in *. split.
  - intros (p' & j & Hp' & Hq). destruct (decide (p' = p)) as [->|Hne].
    + right. assert (j = k) as -> by congruence. done.
    + left. exists p', j. rewrite Hl. by rewrite decide_False.
  - intros [(p' & j & Hp' & Hq)|Hq]; [|by exists p, k].
    rewrite Hl in Hp'. case_decide; [done|]. eauto.
Qed.

Lemma same_lnk_frames st st' q : same_lnk st st' -> free_frame st' q <-> free_frame st q.
Proof. unfold same_lnk. intros Hl. unfold free_frame, linked. by setoid_rewrite Hl. Qed.

Lemma linked_in_area B st p k l :
  Core B st -> linked st p k -> free_area st !! k = Some l -> p ∈ l.
Proof. intros HC Hp Hl. by apply (c_area _ _ HC _ _ _ Hl). Qed.

Lemma used_frame B st p k : Core B st -> B !! p = Some k -> exists pg, page_frames st !! p = Some pg.
Proof.
  intros HC [[? _] _ ? ? _]%(c_used _ _ HC). pose proof (pow2_pos k ltac:(lia)).
  apply (c_dom _ _ HC). lia.
Qed.

Lemma unchanged_trans a b c : unchanged a b -> unchanged b c -> unchanged a c.
Proof. intros [] []; split; congruence. Qed.

(** ** The PG_buddy flag *)

(** A frame with the flag set heads a free block or lies strictly inside some
    block, [x] excepted. (The converse does not hold: merging with a lower buddy
    clears the flag of the frame that ends up heading the block.) *)
Definition Flag `{PageFlags} (B : gmap Z Z) (x : option Z) (st : pmm) : Prop :=
  forall p, buddy_flag st p = true ->
    x = Some p ∨ (exists k, linked st p k)
    ∨ exists p' k', block B st p' k' ∧ p' < p < p' + 2 ^ k'.

Section Proofs.
Context `{HF : PageFlagsLaws}.

(** After a block is halved, a flagged page is the new list entry, or as before. *)
Lemma split_flags B x page c st st1 st2 : let b := page + 2 ^ c in
  Core B st -> Flag B x st -> B !! page = Some (c + 1) -> 0 < 2 ^ c -> 2 ^ (c + 1) = 2 * 2 ^ c ->
  flag_at b true st st1 -> same_flags st1 st2 ->
  (forall q j, linked st2 q j <-> (q = b ∧ j = c) ∨ linked st q j) -> Flag (<[page := c]> B) x st2.
Proof.
  intros b HC HFl HB Hpos Es Hf1 Hf2 Hlk p. rewrite Hf2, Hf1. case_decide as Ep.
  { intros _. right; left. exists c. rewrite Hlk. by left. }
  intros [?|[[k Hk]|(p' & k' & Hb & Hin)]]%HFl; [by left|..].
  { right; left. exists k. rewrite Hlk. by right. }
  right; right. unfold block. setoid_rewrite Hlk. setoid_rewrite lookup_insert.
  destruct (decide (p' = page)) as [->|Hne].
  - assert (k' = c + 1) as ->.
    { destruct Hb as [Hb|Hb]; [by destruct (c_excl _ _ HC _ _ k' HB)|congruence]. }
    destruct (decide (p < b)).
    + exists page, c. rewrite decide_True by done. split; [by right|unfold b in *; lia].
    + exists b, c. split; [left; by left|unfold b in *; lia].
  - exists p', k'. rewrite decide_False by done. split; [|done]. destruct Hb; [left; by right|by right].
Qed.

Lemma split_step B x st page c :
  Core B st -> Flag B x st -> 0 <= c -> B !! page = Some (c + 1) ->
  exists st1 st2,
    set_page_flags (page + 2 ^ c) (BIT PG_buddy) st = Some st1
    ∧ list_add_page (page + 2 ^ c) c st1 = Some st2
    ∧ Core (<[page := c]> B) st2 ∧ Flag (<[page := c]> B) x st2
    ∧ unchanged st st2
    ∧ area_sum (free_area st2) = area_sum (free_area st) + 2 ^ c
    ∧ (forall q, free_frame st2 q <-> free_frame st q ∨ in_block (page + 2 ^ c) c q).
Proof.
  intros HC HFl Hc HB. set (b := page + 2 ^ c).
  pose proof (pow2_pos c Hc) as Hpos. pose proof (pow2_succ c Hc) as Es.
  pose proof (c_used _ _ HC _ _ HB) as Hok.
  assert (Hnb : forall j, ¬ block B st b j).
  { intros j Hj. eapply (no_head_inside B st page (c + 1)); [done|by right|exact Hj|unfold b; lia..]. }
  destruct (proj2 (c_dom _ _ HC b)) as [pg Hpg]; [destruct Hok; unfold b; lia|].
  destruct (set_flag_spec st b pg Hpg) as (st1 & E1 & Hu1 & Ha1 & Ho1 & Hl1 & Hf1).
  assert (HC1 : Core B st1) by (apply (Core_ext B st); [done|apply Hu1|done..]).
  destruct (Core_split B st1 page c HC1 Hc HB) as [HC1' Hob].
  destruct (proj2 (views_dom st st1 b Ho1)) as [pg1 Hpg1]; [by eexists|].
  destruct (proj2 (c_area_dom _ _ HC1 c)) as [l Hl]; [destruct Hok; lia|].
  assert (Hnl : forall j, ¬ linked st1 b j).
  { intros j. unfold linked. rewrite Hl1. intros Hj. by destruct (Hnb j); left. }
  destruct (list_add_spec st1 b pg1 c l Hpg1 Hl Hnl) as (st2 & E2 & Hu2 & Ha2 & Ho2 & Hl2 & Hf2).
  assert (Hlk : forall q j, linked st2 q j <-> (q = b ∧ j = c) ∨ linked st q j).
  { intros q j. unfold linked. rewrite Hl2, Hl1. case_decide; subst; [|naive_solver].
    specialize (Hnl j). unfold linked in Hnl. rewrite Hl1 in Hnl. naive_solver. }
  exists st1, st2. split_and!; [done|done|..].
  - replace (<[page := c]> B) with (delete b (<[page := c]> (<[b := c]> B))).
    + eapply (Core_link _ st1); try done.
      rewrite lookup_insert_ne by (unfold b; lia). apply lookup_insert_eq.
    + rewrite delete_insert_ne by (unfold b; lia). f_equal. apply delete_insert_id.
      destruct (B !! b) eqn:E; [|done]. by destruct (Hnb z); right.
  - by apply (split_flags B x page c st st1 st2).
  - by apply (unchanged_trans _ st1).
  - rewrite Ha2, (area_sum_insert _ _ l), Ha1 by (done || (destruct Hok; lia)).
    simpl length. lia.
  - intros q. rewrite (link_frames st1 st2) by done. by rewrite (same_lnk_frames st st1).
Qed.

Lemma split_block_ok n : forall order page B x st,
  Core B st -> Flag B x st -> 0 <= order -> B !! page = Some (order + Z.of_nat n) ->
  exists st',
    split_block n order page st = Some st'
    ∧ Core (<[page := order]> B) st' ∧ Flag (<[page := order]> B) x st'
    ∧ unchanged st st'
    ∧ area_sum (free_area st') = area_sum (free_area st) + 2 ^ (order + Z.of_nat n) - 2 ^ order
    ∧ (forall q, free_frame st' q <->
         free_frame st q ∨ page + 2 ^ order <= q < page + 2 ^ (order + Z.of_nat n)).
Proof.
  induction n as [|n IH]; intros order page B x st HC HFl Ho HB.
  - rewrite Z.add_0_r in *. exists st. rewrite insert_id by done.
    split_and!; try done; try lia. intros q. intuition lia.
  - replace (order + Z.of_nat (S n)) with (order + Z.of_nat n + 1) in * by lia.
    destruct (split_step B x st page (order + Z.of_nat n))
      as (st1 & st2 & E1 & E2 & HC2 & HF2 & Hu2 & Hs2 & Hq2); [done|done|lia|done|].
    destruct (IH order page (<[page := order + Z.of_nat n]> B) x st2)
      as (st' & E' & HC' & HF' & Hu' & Hs' & Hq'); [done|done|done|by rewrite lookup_insert_eq|].
    rewrite insert_insert_eq in HC', HF'.
    pose proof (pow2_succ (order + Z.of_nat n) ltac:(lia)).
    exists st'. cbn [split_block]. rewrite E1. simpl. rewrite E2. simpl.
    split_and!; [done..|by apply (unchanged_trans _ st2)|lia|].
    intros q. rewrite Hq', Hq2. unfold in_block.
    assert (2 ^ order <= 2 ^ (order + Z.of_nat n)) by (apply Z.pow_le_mono_r; lia).
    intuition lia.
Qed.

(** ** The invariant *)

(** [A] records the blocks handed out and not yet returned, head to order. *)
Record Inv (A : gmap Z Z) (st : pmm) : Prop := {
  inv_core : Core A st;
  inv_flag : Flag A None st;
  inv_free : free_pages st = area_sum (free_area st);
  inv_count : 0 <= page_frames_count st < 2 ^ 32
}.

Lemma Flag_views B B' x x' st st' :
  Flag B x st ->
  (forall p, buddy_flag st' p = true -> buddy_flag st p = true) ->
  (forall p k, block B st p k -> block B' st' p k) ->
  (forall p k, buddy_flag st' p = true -> linked st p k -> linked st' p k) ->
  (forall p, buddy_flag st' p = true -> x = Some p -> x' = Some p) ->
  Flag B' x' st'.
Proof.
  intros HFl Hf Hb Hl Hx p Hp. destruct (HFl p (Hf p Hp)) as [E|[[k Hk]|(p' & k' & Hbk & Hin)]].
  - left. eauto.
  - right; left. exists k. eauto.
  - right; right. exists p', k'. eauto.
Qed.

Lemma Core_area B st k : Core B st -> 0 <= k <= 10 -> exists l, free_area st !! k = Some l.
Proof. intros HC Hk. destruct (proj2 (c_area_dom _ _ HC k) Hk) as [l Hl]. eauto. Qed.

(** Taking a free block off its list and clearing its flag. *)
Lemma take_block B x st p k l :
  Core B st -> Flag B x st -> linked st p k -> free_area st !! k = Some l ->
  exists st1 st2,
    list_del_page p st = Some st1
    ∧ clear_page_flags p (BIT PG_buddy) st1 = Some st2
    ∧ Core (<[p := k]> B) st2 ∧ Flag (<[p := k]> B) x st2
    ∧ unchanged st st2 ∧ same_ord st st2
    ∧ area_sum (free_area st2) = area_sum (free_area st) - 2 ^ k
    ∧ buddy_flag st2 p = false
    ∧ (forall q, q ≠ p -> buddy_flag st2 q = buddy_flag st q)
    ∧ (forall q, free_frame st q <-> free_frame st2 q ∨ in_block p k q).
Proof.
  intros HC HFl Hp Hl.
  destruct (list_del_spec st p k l Hp Hl) as (st1 & E1 & Hu1 & Ha1 & Ho1 & Hl1 & Hf1).
  assert (HC1 : Core (<[p := k]> B) st1) by (by eapply (Core_unlink B st)).
  destruct (used_frame _ st1 p k HC1) as [pg Hpg]; [apply lookup_insert_eq|].
  destruct (clear_flag_spec st1 p pg Hpg) as (st2 & E2 & Hu2 & Ha2 & Ho2 & Hl2 & Hf2).
  assert (HC2 : Core (<[p := k]> B) st2) by (apply (Core_ext _ st1); [done|apply Hu2|done..]).
  assert (Hlk : forall q j, q ≠ p -> linked st q j -> linked st2 q j).
  { intros q j Hq. unfold linked. rewrite Hl2, Hl1. by rewrite decide_False. }
  assert (Hno : B !! p = None).
  { destruct (B !! p) eqn:E; [|done]. by destruct (c_excl _ _ HC _ _ k E). }
  exists st1, st2. split_and!; [done|done|done| |by apply (unchanged_trans _ st1)| | | | |].
  - apply (Flag_views B _ x _ st); [done|..].
    + intros q. rewrite Hf2, Hf1. by case_decide.
    + intros q j Hb. unfold block. rewrite lookup_insert.
      destruct (decide (p = q)) as [<-|Hne].
      * right. destruct Hb as [Hb|Hb]; [|congruence]. unfold linked in *. naive_solver.
      * destruct Hb; [left; by apply Hlk|by right].
    + intros q j. rewrite Hf2. case_decide; [done|]. intros _. by apply Hlk.
    + done.
  - intros q. by rewrite Ho2, Ho1.
  - destruct (c_free _ _ HC _ _ Hp) as [[? _ _ _ _] _].
    rewrite Ha2, Ha1, (area_sum_insert _ _ l), filter_ne_length; try done; [lia|..].
    + by apply (c_nodup _ _ HC k).
    + by apply (linked_in_area B st p k).
  - rewrite Hf2. by rewrite decide_True.
  - intros q Hq. rewrite Hf2, Hf1. by rewrite decide_False.
  - intros q. rewrite (unlink_frames st st1 p k) by done. by rewrite (same_lnk_frames st1 st2).
Qed.

(** The frames of a block that is handed out are not free. *)
Lemma held_not_free B st p k : Core B st -> B !! p = Some k -> forall q, in_block p k q -> ¬ free_frame st q.
Proof.
  intros HC HB q Hq (p' & k' & Hp' & Hq'). unfold in_block in Hq. destruct (decide (p = p')) as [<-|Hne].
  - by destruct (c_excl _ _ HC p k k' HB).
  - destruct (c_disj _ _ HC p k p' k' (or_intror HB) (or_introl Hp') Hne); lia.
Qed.

(** What a successful allocation of [2^order] frames at [p] does. *)
Record allocated (A : gmap Z Z) (order p : Z) (st st' : pmm) : Prop := {
  al_inv : Inv (<[p := order]> A) st';
  al_fresh : A !! p = None;
  al_count : page_frames_count st' = page_frames_count st;
  al_frames q : free_frame st q <-> free_frame st' q ∨ in_block p order q;
  al_taken q : in_block p order q -> ¬ free_frame st' q;
  al_disj p' k' : A !! p' = Some k' -> disjoint_blocks p order p' k';
  al_align : (2 ^ order | p);
  al_range : 0 <= p ∧ p + 2 ^ order <= page_frames_count st;
  al_free : free_pages st' = free_pages st - 2 ^ order;
  al_source : exists k, order <= k ∧ linked st p k
}.

Lemma alloc_block A st order cur page l :
  Inv A st -> 0 <= order <= cur -> cur <= 10 ->
  free_area st !! cur = Some (page :: l) ->
  exists st1 st2 st3 st4,
    list_del_page page st = Some st1
    ∧ clear_page_flags page (BIT PG_buddy) st1 = Some st2
    ∧ split_block (Z.to_nat (cur - order)) order page st2 = Some st3
    ∧ set_page_order page order st3 = Some st4
    ∧ allocated A order page st (with_free (u64 (free_pages st4 - 2 ^ order)) st4).
Proof.
  intros [HC HFl Hfr Hcnt] Ho Hcur Hl.
  assert (Hp : linked st page cur) by (apply (c_area _ _ HC _ _ _ Hl); by left).
  destruct (take_block A None st page cur _ HC HFl Hp Hl)
    as (st1 & st2 & E1 & E2 & HC2 & HF2 & Hu2 & Ho2 & Hs2 & Hpf & Hof & Hq2).
  destruct (split_block_ok (Z.to_nat (cur - order)) order page _ None st2 HC2 HF2)
    as (st3 & E3 & HC3 & HF3 & Hu3 & Hs3 & Hq3);
    [lia|rewrite lookup_insert_eq; f_equal; lia|].
  rewrite insert_insert_eq in HC3, HF3.
  replace (order + Z.of_nat (Z.to_nat (cur - order))) with cur in * by lia.
  destruct (used_frame _ st3 page order HC3) as [pg Hpg]; [apply lookup_insert_eq|].
  destruct (set_order_spec st3 page pg order Hpg) as (st4 & E4 & Hu4 & Ha4 & Ho4 & Hl4 & Hf4).
  assert (HC4 : Core (<[page := order]> A) st4)
    by (eapply (Core_order _ st3); try done; apply lookup_insert_eq).
  assert (Hu : unchanged st st4) by (eapply unchanged_trans; [|done]; by eapply unchanged_trans).
  assert (Hno : A !! page = None).
  { destruct (A !! page) eqn:E; [|done]. by destruct (c_excl _ _ HC _ _ cur E). }
  pose proof (pow2_pos order ltac:(lia)) as Hpos.
  pose proof (un_count _ _ Hu) as Hcount. pose proof (un_free _ _ Hu) as Hfree.
  assert (Hs4 : area_sum (free_area st4) = free_pages st - 2 ^ order) by (rewrite Ha4; lia).
  pose proof (area_sum_bound _ st4 HC4 ltac:(lia)) as Hb4.
  assert (Hw : u64 (free_pages st4 - 2 ^ order) = area_sum (free_area st4)).
  { rewrite u64_small; lia. }
  exists st1, st2, st3, st4. split_and!; [done..|]. rewrite Hw.
  assert (Hblk : block (<[page := order]> A) st4 page order) by (right; apply lookup_insert_eq).
  pose proof (held_not_free _ st4 page order HC4 (lookup_insert_eq _ _ _)) as Htk.
  destruct (block_is_ok _ _ _ _ HC4 Hblk) as [_ Hal ? Hhi _].
  split; simpl; try done; try lia.
  - split; simpl; [|..|done|lia].
    + by apply (Core_ext _ st4).
    + apply (Flag_views (<[page := order]> A) _ None _ st3); try done.
      * intros q. by rewrite <- Hf4.
      * intros q j. unfold block, linked. change (lnk (with_free _ st4) q) with (lnk st4 q).
        by rewrite Hl4.
      * intros q j _. unfold linked. change (lnk (with_free _ st4) q) with (lnk st4 q). by rewrite Hl4.
  - intros q. change (free_frame (with_free _ st4) q) with (free_frame st4 q).
    rewrite Hq2, (same_lnk_frames st3 st4), Hq3 by done. unfold in_block.
    assert (2 ^ order <= 2 ^ cur) by (apply Z.pow_le_mono_r; lia). intuition lia.
  - intros p' k' Hp'. apply (c_disj _ _ HC4); [done| |congruence].
    right. rewrite lookup_insert_ne; [done|congruence].
  - exists cur. split; [lia|done].
Qed.

Lemma find_block_ok fuel : forall A st order cur,
  Inv A st -> 0 <= order <= cur -> cur <= 11 -> 11 - cur < Z.of_nat fuel ->
  (forall p k, linked st p k -> order <= k -> cur <= k) ->
  exists r st', find_block fuel order cur st = Some (r, st') ∧
    match r with
    | Some p => order <= 10 ∧ allocated A order p st st'
    | None => st' = st ∧ forall p k, linked st p k -> k < order
    end.
Proof.
  induction fuel as [|fuel IH]; intros A st order cur HI Ho Hc Hf Hlow; [lia|].
  cbn [find_block]. pose proof (inv_core _ _ HI) as HC.
  destruct (Z.ltb_spec 10 cur) as [Hgt|Hle].
  - exists None, st. split; [done|]. split; [done|]. intros p k Hp.
    destruct (c_free _ _ HC _ _ Hp) as [[? _ _ _ _] _]. specialize (Hlow p k Hp). lia.
  - destruct (Core_area A st cur HC ltac:(lia)) as [l Hl]. rewrite Hl. simpl.
    destruct l as [|page l].
    + apply (IH A); [done|lia|lia|lia|]. intros p k Hp Hok.
      specialize (Hlow p k Hp Hok). destruct (decide (k = cur)) as [->|]; [|lia].
      apply (c_area _ _ HC _ _ p Hl) in Hp. by apply elem_of_nil in Hp.
    + destruct (alloc_block A st order cur page l HI Ho Hle Hl)
        as (st1 & st2 & st3 & st4 & E1 & E2 & E3 & E4 & Hal).
      rewrite E1. simpl. rewrite E2. simpl. rewrite E3. simpl. rewrite E4. simpl.
      eexists _, _. split; [done|]. split; [lia|exact Hal].
Qed.

(** The outcome of every call of [pmm_alloc_pages]. *)
Lemma alloc_pages_ok A st order flags :
  Inv A st -> 0 <= order ->
  exists r st', pmm_alloc_pages order flags st = Some (r, st') ∧
    match r with
    | Some p => order <= 10 ∧ allocated A order p st st'
    | None => st' = st ∧ (10 < order ∨ forall p k, linked st p k -> k < order)
    end.
Proof.
  intros HI Ho. unfold pmm_alloc_pages. destruct (Z.ltb_spec 10 order).
  - exists None, st. auto.
  - destruct (find_block_ok 12 A st order order HI) as (r & st' & E & Hr);
      [lia|lia|lia|done|]. exists r, st'. split; [done|]. destruct r; naive_solver.
Qed.

(** ** Release *)

(** A frame with the flag and the right order, found where the buddy of a block
    in use is, heads a free block of that order. *)
Lemma buddy_is_free B st p k :
  Core B st -> Flag B (Some p) st -> B !! p = Some k ->
  buddy_flag st (Z.lxor p (2 ^ k)) = true -> ord st (Z.lxor p (2 ^ k)) = Some k ->
  linked st (Z.lxor p (2 ^ k)) k.
Proof.
  intros HC HFl HB Hf Ho. destruct (c_used _ _ HC _ _ HB) as [Hk Hal Hlo Hhi _].
  pose proof (pow2_pos k ltac:(lia)) as Hpos. pose proof (pow2_succ k ltac:(lia)) as Es.
  pose proof (lxor_buddy p k ltac:(lia) Hlo Hal) as Hb.
  set (b := Z.lxor p (2 ^ k)) in *.
  destruct (HFl b Hf) as [[=E]|[[j Hj]|(p' & k' & Hblk & Hin)]].
  - exfalso. lia.
  - pose proof (proj2 (c_free _ _ HC _ _ Hj)). by assert (j = k) as <- by congruence.
  - exfalso. destruct (block_is_ok _ _ _ _ HC Hblk) as [Hk' Hal' _ _ _].
    assert (Halb : (2 ^ k | b)).
    { destruct Hb as [[Hm ->]|(Hm & -> & _)].
      - by apply Z.divide_add_r.
      - by apply Z.divide_sub_r. }
    pose proof (aligned_inner_order p' k' b k ltac:(lia) ltac:(lia) Halb Hal' Hin) as Hlt.
    assert (Hm : exists m, (2 ^ (k + 1) | m) ∧ m <= b < m + 2 ^ (k + 1) ∧ m <= p < m + 2 ^ (k + 1))
      by (destruct Hb as [[Hm Eb]|(Hm & Eb & _)]; [exists p|exists (p - 2 ^ k)]; split_and!; lia || done).
    destruct Hm as (m & Hm & Hmb & Hmp).
    assert (Hpm : p' <= m).
    { assert (Hd : (2 ^ (k + 1) | p')) by (etrans; [apply (pow2_divide _ k'); lia|done]).
      destruct (decide (p' <= m)) as [|Hgt]; [done|].
      pose proof (aligned_nested m (k + 1) p' (k + 1) ltac:(lia) ltac:(lia) Hd Hm). lia. }
    pose proof (aligned_nested p' (k + 1) m k' ltac:(lia) ltac:(lia) Hm Hal' ltac:(lia)) as Hn.
    destruct (decide (p' = p)) as [->|Hne].
    + destruct Hblk as [Hl|HB']; [by destruct (c_excl _ _ HC _ _ k' HB)|].
      assert (k' = k) by congruence. lia.
    + eapply (no_head_inside B st p' k' p k); [done|done|by right|done|lia].
Qed.

(** After two buddies are joined, every flagged page is the joined block's head, on a
    list, or inside a block. *)
Lemma merge_flags A p b p' k st2 st3 :
  let B2 := <[b := k]> (<[p := k]> A) in
  Core B2 st2 -> Flag B2 (Some p) st2 -> same_lnk st2 st3 -> same_flags st2 st3 -> 0 < 2 ^ k -> 2 ^ (k + 1) = 2 * 2 ^ k ->
  (p' = p ∧ b = p' + 2 ^ k ∧ (2 ^ (k + 1) | p')) ∨ (p' = b ∧ p = p' + 2 ^ k ∧ (2 ^ (k + 1) | p')) ->
  Flag (<[p' := k + 1]> A) (Some p') st3.
Proof.
  intros B2 HC2 HF2 Hl3 Hf3 Hpos Es Hcase q. rewrite Hf3. intros Hq.
  destruct (HF2 q Hq) as [[= <-]|[[j Hj]|(r & j & Hr & Hin)]].
  - destruct Hcase as [(-> & _)|(Ep & Eq & _)]; [by left|]. right; right.
    exists p', (k + 1). split; [right; apply lookup_insert_eq|lia].
  - right; left. exists j. unfold linked. by rewrite Hl3.
  - right; right. destruct (decide (r = b ∨ r = p)) as [Hrb|Hrb].
    + assert (j = k) as ->.
      { assert (B2 !! r = Some k) as HBr
          by (unfold B2; rewrite !lookup_insert; destruct Hrb as [->| ->]; repeat case_decide; done).
        destruct Hr as [Hr|Hr]; [by destruct (c_excl _ _ HC2 _ _ j HBr)|congruence]. }
      exists p', (k + 1). split; [right; apply lookup_insert_eq|lia].
    + exists r, j. split; [|done]. destruct Hr as [Hr|Hr]; [left; unfold linked; by rewrite Hl3|].
      right. unfold B2 in Hr. rewrite !lookup_insert in Hr. rewrite lookup_insert.
      repeat case_decide; simplify_eq; try done; exfalso; naive_solver.
Qed.

(** One round of the merge loop. *)
Lemma merge_step A st p k :
  Core (<[p := k]> A) st -> A !! p = None -> Flag (<[p := k]> A) (Some p) st ->
  ord st p = Some k -> k < 10 ->
  let b := Z.lxor p (2 ^ k) in
  let p' := if b <? p then b else p in
  buddy_flag st b = true -> ord st b = Some k ->
  exists st1 st2 st3,
    list_del_page b st = Some st1
    ∧ clear_page_flags b (BIT PG_buddy) st1 = Some st2
    ∧ set_page_order p' (k + 1) st2 = Some st3
    ∧ Core (<[p' := k + 1]> A) st3 ∧ A !! p' = None
    ∧ Flag (<[p' := k + 1]> A) (Some p') st3 ∧ ord st3 p' = Some (k + 1)
    ∧ unchanged st st3
    ∧ area_sum (free_area st3) = area_sum (free_area st) - 2 ^ k
    ∧ (forall q, free_frame st3 q ∨ in_block p' (k + 1) q <-> free_frame st q ∨ in_block p k q).
Proof.
  intros HC HA HFl Ho Hk10 b p' Hfb Hob.
  assert (HB : <[p := k]> A !! p = Some k) by apply lookup_insert_eq.
  destruct (c_used _ _ HC _ _ HB) as [Hk Hal Hlo Hhi _].
  pose proof (pow2_pos k ltac:(lia)) as Hpos. pose proof (pow2_succ k ltac:(lia)) as Es.
  pose proof (buddy_is_free _ st p k HC HFl HB Hfb Hob) as Hlb. fold b in Hlb.
  destruct (Core_area _ st k HC ltac:(lia)) as [l Hl].
  destruct (take_block _ (Some p) st b k l HC HFl Hlb Hl)
    as (st1 & st2 & E1 & E2 & HC2 & HF2 & Hu2 & Ho2 & Hs2 & Hbf & Hof & Hq2).
  assert (Hcase : (p' = p ∧ b = p' + 2 ^ k ∧ (2 ^ (k + 1) | p'))
                  ∨ (p' = b ∧ p = p' + 2 ^ k ∧ (2 ^ (k + 1) | p'))).
  { unfold p'. destruct (lxor_buddy p k ltac:(lia) Hlo Hal) as [[Hm Eb]|(Hm & Eb & _)];
      fold b in Eb; destruct (Z.ltb_spec b p); try lia; [left|right]; split_and!; try done; try lia.
    by rewrite Eb. }
  clearbody p' b.
  assert (Hbp : b ≠ p) by lia.
  assert (HAb : A !! b = None).
  { destruct (A !! b) eqn:E; [|done]. destruct (c_excl _ _ HC b z k); [|done].
    by rewrite lookup_insert_ne. }
  set (B2 := <[b := k]> (<[p := k]> A)) in *.
  assert (HB2 : B2 !! p' = Some k ∧ B2 !! (p' + 2 ^ k) = Some k).
  { unfold B2. destruct Hcase as [(-> & <- & _)|(-> & <- & _)];
      rewrite !lookup_insert; repeat case_decide; done. }
  destruct HB2 as [HBl HBu].
  destruct (used_frame _ st2 p' k HC2 HBl) as [pg Hpg].
  destruct (set_order_spec st2 p' pg (k + 1) Hpg) as (st3 & E3 & Hu3 & Ha3 & Ho3 & Hl3 & Hf3).
  assert (HC3 : Core B2 st3) by (by apply (Core_order _ st2 st3 p' k (k + 1))).
  assert (Hou : ord st3 (p' + 2 ^ k) = Some k).
  { rewrite Ho3, decide_False, Ho2 by lia. by destruct Hcase as [(-> & <- & _)|(-> & <- & _)]. }
  assert (HC3' : Core (<[p' := k + 1]> A) st3).
  { replace (<[p' := k + 1]> A) with (<[p' := k + 1]> (delete (p' + 2 ^ k) B2)).
    - apply Core_merge; try done; try lia. by destruct Hcase as [(_&_&?)|(_&_&?)].
    - unfold B2. apply map_eq. intros i. destruct Hcase as [(-> & <- & _)|(-> & <- & _)];
        rewrite !lookup_insert, lookup_delete, !lookup_insert; repeat case_decide; congruence. }
  exists st1, st2, st3. split_and!; [done..| | | | | |].
  - by destruct Hcase as [(-> & _)|(-> & _)].
  - by apply (merge_flags A p b p' k st2 st3).
  - rewrite Ho3. by rewrite decide_True.
  - by apply (unchanged_trans _ st2).
  - by rewrite Ha3.
  - intros q. rewrite Hq2, (same_lnk_frames st2 st3) by done. unfold in_block.
    destruct Hcase as [(-> & Eb & _)|(-> & Ep & _)]; intuition lia.
Qed.

(** The block being released, and what is left on the lists, at the head of the
    merge loop. *)
Record floating (A : gmap Z Z) (p k : Z) (st : pmm) : Prop := {
  fl_core : Core (<[p := k]> A) st;
  fl_out : A !! p = None;
  fl_flag : Flag (<[p := k]> A) (Some p) st;
  fl_ord : ord st p = Some k
}.

Lemma lxor_buddy_nonneg p k : 0 <= k -> 0 <= p -> (2 ^ k | p) -> 0 <= Z.lxor p (2 ^ k).
Proof.
  intros Hk Hp Hd. pose proof (pow2_pos k Hk).
  destruct (lxor_buddy p k Hk Hp Hd) as [[_ ->]|(_ & -> & ?)]; lia.
Qed.

Lemma merge_block_ok n : forall A p k st,
  floating A p k st -> k + Z.of_nat n = 10 ->
  exists p' k' st',
    merge_block n p k st = Some (p', k', st')
    ∧ floating A p' k' st' ∧ k <= k' <= 10
    ∧ unchanged st st'
    ∧ area_sum (free_area st') + 2 ^ k' = area_sum (free_area st) + 2 ^ k
    ∧ (forall q, free_frame st' q ∨ in_block p' k' q <-> free_frame st q ∨ in_block p k q).
Proof.
  induction n as [|n IH]; intros A p k st Hfl Hn.
  { exists p, k, st. split_and!; try done; lia. }
  destruct Hfl as [HC HA HFl Ho]. cbn [merge_block].
  assert (HB : <[p := k]> A !! p = Some k) by apply lookup_insert_eq.
  destruct (c_used _ _ HC _ _ HB) as [Hk Hal Hlo Hhi _].
  pose proof (lxor_buddy_nonneg p k ltac:(lia) Hlo Hal) as Hb0.
  assert (Hstop : exists p' k' st', Some (p, k, st) = Some (p', k', st')
    ∧ floating A p' k' st' ∧ k <= k' <= 10 ∧ unchanged st st'
    ∧ area_sum (free_area st') + 2 ^ k' = area_sum (free_area st) + 2 ^ k
    ∧ (forall q, free_frame st' q ∨ in_block p' k' q <-> free_frame st q ∨ in_block p k q))
    by (exists p, k, st; split_and!; done || lia).
  destruct (Z.leb_spec (page_frames_count st) (Z.lxor p (2 ^ k))) as [|Hlt]; [done|].
  destruct (proj2 (c_dom _ _ HC (Z.lxor p (2 ^ k)))) as [buddy Hbd]; [done|].
  rewrite Hbd. simpl.
  destruct (page_test_flags (pg_flags buddy) (BIT PG_buddy)) eqn:Ef; simpl; [|done].
  destruct (Z.eqb_spec (pg_order buddy) k) as [Eo|]; simpl; [|done].
  destruct (merge_step A st p k HC HA HFl Ho ltac:(lia))
    as (st1 & st2 & st3 & E1 & E2 & E3 & HC3 & HA3 & HF3 & Ho3 & Hu3 & Hs3 & Hq3).
  { unfold buddy_flag. by rewrite Hbd. }
  { unfold ord. rewrite Hbd. simpl. by rewrite Eo. }
  rewrite E1. simpl. rewrite E2. simpl. rewrite E3. simpl.
  destruct (IH A _ (k + 1) st3 (Build_floating _ _ _ _ HC3 HA3 HF3 Ho3) ltac:(lia))
    as (p' & k' & st' & E' & Hfl' & Hk' & Hu' & Hs' & Hq').
  exists p', k', st'. pose proof (pow2_succ k ltac:(lia)).
  split_and!; [done|done|lia|lia|by apply (unchanged_trans _ st3)|lia|].
  intros q. by rewrite Hq', Hq3.
Qed.

(** What a release of the block [p] of order [k] does. *)
Record released (A : gmap Z Z) (k p : Z) (st st' : pmm) : Prop := {
  re_inv : Inv (delete p A) st';
  re_count : page_frames_count st' = page_frames_count st;
  re_frames q : free_frame st' q <-> free_frame st q ∨ in_block p k q;
  re_free : free_pages st' = free_pages st + 2 ^ k
}.

(** Marking the block free and recording its order: the start of the loop. *)
Lemma free_start A st p k :
  Inv A st -> A !! p = Some k ->
  exists st1 st2,
    set_page_flags p (BIT PG_buddy) st = Some st1
    ∧ set_page_order p k st1 = Some st2
    ∧ floating (delete p A) p k st2 ∧ unchanged st st2
    ∧ free_area st2 = free_area st
    ∧ (forall q, free_frame st2 q <-> free_frame st q).
Proof.
  intros [HC HFl _ _] HA.
  destruct (used_frame _ _ _ _ HC HA) as [pg Hpg].
  destruct (set_flag_spec st p pg Hpg) as (st1 & E1 & Hu1 & Ha1 & Ho1 & Hl1 & Hf1).
  assert (HC1 : Core A st1) by (apply (Core_ext A st); [done|apply Hu1|done..]).
  destruct (used_frame _ _ _ _ HC1 HA) as [pg1 Hpg1].
  destruct (set_order_spec st1 p pg1 k Hpg1) as (st2 & E2 & Hu2 & Ha2 & Ho2 & Hl2 & Hf2).
  assert (HC2 : Core A st2) by (by apply (Core_order _ st1 st2 p k k)).
  assert (Hl : same_lnk st st2) by (intros q; by rewrite Hl2, Hl1).
  exists st1, st2. split_and!; [done..| |by apply (unchanged_trans _ st1)|by rewrite Ha2|].
  - assert (Hid : <[p := k]> (delete p A) = A) by (rewrite insert_delete_eq; by apply insert_id).
    split; rewrite ?Hid; [done|apply lookup_delete_eq| |rewrite Ho2; by rewrite decide_True].
    intros q. rewrite Hf2, Hf1. case_decide; [subst; by left|]. intros Hq.
    destruct (HFl q Hq) as [?|[[j Hj]|(r & j & Hr & Hin)]]; [done|..].
    + right; left. exists j. unfold linked. by rewrite Hl.
    + right; right. exists r, j. split; [|done]. unfold block, linked in *. by rewrite Hl.
  - intros q. by apply same_lnk_frames.
Qed.

Lemma link_flag B st st' p k :
  Core B st -> B !! p = Some k -> Flag B (Some p) st ->
  lnk_at p (LOn k) st st' -> same_flags st st' ->
  Flag (delete p B) None st'.
Proof.
  intros HC HB HFl Hl Hf.
  assert (Hlk : forall q j, linked st q j -> linked st' q j).
  { intros q j. unfold linked. rewrite Hl. case_decide; subst; [|done].
    intros Hq. by destruct (c_excl _ _ HC _ _ j HB). }
  assert (Hp : linked st' p k) by (unfold linked; rewrite Hl; by rewrite decide_True).
  intros q. rewrite Hf. intros Hq.
  destruct (HFl q Hq) as [[= <-]|[[j Hj]|(r & j & Hr & Hin)]]; [right; left; eauto..|].
  right; right. exists r, j. split; [|done]. destruct Hr as [Hr|Hr]; [left; auto|].
  destruct (decide (p = r)) as [<-|Hne].
  - left. by assert (j = k) as -> by congruence.
  - right. by rewrite lookup_delete_ne.
Qed.

Lemma free_pages_ok A st p k :
  Inv A st -> A !! p = Some k ->
  exists st', pmm_free_pages (Some p) k st = Some st' ∧ released A k p st st'.
Proof.
  intros HI HA. destruct (free_start A st p k HI HA)
    as (st1 & st2 & E1 & E2 & Hfl & Hu & Ha & Hfr).
  destruct (c_used _ _ (inv_core _ _ HI) _ _ HA) as [Hk _ _ _ _].
  unfold pmm_free_pages. destruct (Z.ltb_spec 10 k); [lia|].
  rewrite E1. simpl. rewrite E2. simpl.
  set (st3 := with_free (u64 (free_pages st2 + 2 ^ k)) st2).
  assert (Hfl3 : floating (delete p A) p k st3) by (destruct Hfl; split; [by apply (Core_ext _ st2)|done..]).
  destruct (merge_block_ok (Z.to_nat (10 - k)) _ p k st3 Hfl3 ltac:(lia))
    as (p' & k' & st4 & E4 & [HC4 HA4 HF4 Ho4] & Hk' & Hu4 & Hs4 & Hq4).
  rewrite E4. simpl.
  assert (HB : <[p' := k']> (delete p A) !! p' = Some k') by apply lookup_insert_eq.
  destruct (used_frame _ _ _ _ HC4 HB) as [pg Hpg].
  destruct (Core_area _ st4 k' HC4 ltac:(lia)) as [l Hl].
  destruct (list_add_spec st4 p' pg k' l Hpg Hl) as (st' & E' & Hu' & Ha' & Ho' & Hl' & Hf').
  { intros j. by eapply (c_excl _ _ HC4). }
  assert (Hdel : delete p' (<[p' := k']> (delete p A)) = delete p A) by (by apply delete_insert_id).
  assert (HC' : Core (delete p A) st') by (rewrite <- Hdel; by apply (Core_link _ st4 st' p' k' l)).
  exists st'. split; [done|].
  pose proof (un_count _ _ Hu) as Hc. pose proof (un_count _ _ Hu4) as Hc4.
  pose proof (un_count _ _ Hu') as Hc'. pose proof (un_free _ _ Hu) as Hf.
  pose proof (un_free _ _ Hu4) as Hf4. pose proof (un_free _ _ Hu') as Hff. simpl in Hc4, Hf4.
  pose proof (inv_count _ _ HI) as Hcnt. pose proof (inv_free _ _ HI) as Hfree.
  assert (Hs' : area_sum (free_area st') = area_sum (free_area st) + 2 ^ k).
  { rewrite Ha', (area_sum_insert _ _ l) by (done || lia). simpl length.
    change (free_area st3) with (free_area st2) in Hs4. rewrite Ha in Hs4. lia. }
  pose proof (area_sum_bound _ _ HC' ltac:(lia)) as Hb.
  pose proof (area_sum_bound _ _ (inv_core _ _ HI) ltac:(lia)) as Hb0.
  pose proof (pow2_pos k ltac:(lia)).
  assert (Hw : free_pages st' = area_sum (free_area st')) by (rewrite Hff, Hf4, u64_small; lia).
  split; [split; try done; try lia| lia | |lia].
  - rewrite <- Hdel. by apply (link_flag _ st4 st' p' k').
  - intros q. rewrite (link_frames st4 st' p' k') by (done || (intros j; by eapply (c_excl _ _ HC4))).
    rewrite Hq4. change (free_frame st3 q) with (free_frame st2 q). by rewrite Hfr.
Qed.

End Proofs.

End PmmProofs.
