(* ===== verification/PmmBoot.v ===== *)
(** Boot of the physical page allocator: [pmm_init], [pmm_init_memmap] and
    [pmm_reserve_range] of [kernel/mm/pmm.c] establish its invariant. *)

From S2P Require Import Prelude Pmm PmmInv PmmProofs.
Import Pmm PmmInv PmmProofs.

Module PmmBoot.

(** ** Blocks entering and leaving the set of blocks in use *)

Lemma Core_drop B st p : Core B st -> Core (delete p B) st.
Proof.
  intros HC. assert (Hb : forall q j, block (delete p B) st q j -> block B st q j).
  { intros q j [?|[_ ?]%lookup_delete_Some]; [by left|by right]. }
  split; try apply HC.
  - intros q j [_ Hq]%lookup_delete_Some. by apply (c_used _ _ HC).
  - intros q j j' [_ Hq]%lookup_delete_Some. by apply (c_excl _ _ HC q j).
  - intros q j q' j' H1%Hb H2%Hb. by apply (c_disj _ _ HC).
Qed.

Lemma Core_adopt B st p :
  Core B st -> 0 <= p < page_frames_count st ->
  (forall q j, block B st q j -> ¬ in_block q j p) ->
  Core (<[p := 0]> B) st.
Proof.
  intros HC Hp Hout. assert (E : 2 ^ 0 = 1) by done.
  assert (Hself : forall j, ¬ block B st p j).
  { intros j Hj. apply (Hout p j Hj). unfold in_block.
    destruct (block_is_ok _ _ _ _ HC Hj) as [[? _] _ _ _ _]. pose proof (pow2_pos j ltac:(lia)). lia. }
  assert (Hb : forall q j, block (<[p := 0]> B) st q j -> (q = p ∧ j = 0) ∨ (q ≠ p ∧ block B st q j)).
  { intros q j [Hl|Hq].
    - right. split; [intros ->; by destruct (Hself j); left|by left].
    - rewrite lookup_insert in Hq. case_decide; simplify_eq; [by left|right; split; [done|by right]]. }
  split; try apply HC.
  - intros q j Hq. destruct (Hb q j) as [[-> ->]|[_ Hq']]; [by right| |by apply (block_is_ok B)].
    split; [lia|by exists p; lia|lia|lia|intros; lia].
  - intros q j j'. rewrite lookup_insert. case_decide; [|apply (c_excl _ _ HC)].
    subst. intros _ Hl. by destruct (Hself j'); left.
  - assert (Hd : forall q j, q ≠ p -> block B st q j -> disjoint_blocks q j p 0).
    { intros q j Hq Hqj. specialize (Hout q j Hqj). unfold in_block, disjoint_blocks in *. lia. }
    intros q j q' j' [[-> ->]|[? Hq]]%Hb [[-> ->]|[? Hq']]%Hb Hne.
    + done.
    + destruct (Hd q' j' ltac:(done) Hq'); unfold disjoint_blocks; lia.
    + by apply Hd.
    + by apply (c_disj _ _ HC).
Qed.

(** ** The state while memory is being handed over: single pages only *)

Section Boot.
Context `{HF : PageFlagsLaws}.

Record Boot (st : pmm) : Prop := {
  bt_core : Core ∅ st;
  bt_zero p k : linked st p k -> k = 0;
  bt_flag p : buddy_flag st p = true <-> linked st p 0;
  bt_ord p o : ord st p = Some o -> o = 0;
  bt_free : free_pages st = area_sum (free_area st);
  bt_count : 0 <= page_frames_count st < 2 ^ 32
}.

Lemma Boot_Inv st : Boot st -> Inv ∅ st.
Proof.
  intros []. split; [done| |done|done]. intros p Hp. right; left. exists 0. by apply bt_flag0.
Qed.

Lemma Boot_out st p q j : Boot st -> ¬ linked st p 0 -> block ∅ st q j -> ¬ in_block q j p.
Proof.
  intros HB Hp [Hq|Hq]; [|done]. pose proof (bt_zero _ HB _ _ Hq) as ->.
  unfold in_block. change (2 ^ 0) with 1. intros Hin. apply Hp. by replace p with q by lia.
Qed.

Lemma Boot_frame st p : Boot st -> 0 <= p < page_frames_count st -> exists pg, page_frames st !! p = Some pg.
Proof. intros HB Hp. by apply (c_dom _ _ (bt_core _ HB)). Qed.

(** ** One page *)

(** The page is wiped and flagged: nothing but the flag of the page changes for the
    allocator, and the page becomes a block in use. *)
Lemma wipe_page st p pg : Boot st -> 0 <= p < page_frames_count st -> ¬ linked st p 0 -> page_frames st !! p = Some pg ->
  let st1 := with_frames (<[p := set_flags 0 pg]> (page_frames st)) st in
  exists st2, set_page_flags p (BIT PG_buddy) st1 = Some st2 ∧ unchanged st1 st2 ∧ free_area st2 = free_area st ∧
    same_ord st st2 ∧ same_lnk st st2 ∧ flag_at p true st st2 ∧ Core ∅ st2 ∧ Core (<[p := 0]> ∅) st2.
Proof.
  intros HB Hp Hnl Hpg st1.
  assert (Hv : same_ord st st1 ∧ same_lnk st st1 ∧ flag_at p false st st1).
  { split_and!; view_tac; try by rewrite Hpg. apply test_none. unfold PG_buddy. lia. }
  destruct Hv as (Ho1 & Hl1 & Hf1).
  assert (Hpg1 : page_frames st1 !! p = Some (set_flags 0 pg)) by apply lookup_insert_eq.
  destruct (set_flag_spec st1 p _ Hpg1) as (st2 & E2 & Hu2 & Ha2 & Ho2 & Hl2 & Hf2).
  assert (Ho12 : same_ord st st2) by (intros q; by rewrite Ho2, Ho1).
  assert (Hl12 : same_lnk st st2) by (intros q; by rewrite Hl2, Hl1).
  assert (HC2 : Core ∅ st2) by (apply (Core_ext ∅ st); [apply HB|apply Hu2|done..]).
  exists st2. split_and!; try done.
  - intros q. rewrite Hf2. case_decide; [done|]. by rewrite Hf1, decide_False.
  - apply Core_adopt; [done|rewrite (un_count _ _ Hu2); simpl; lia|].
    intros q j [Hq|Hq]; [|done]. apply (Boot_out st); [done..|left]. unfold linked in *. by rewrite <- Hl12.
Qed.

Lemma init_page_ok st p :
  Boot st -> 0 <= p < page_frames_count st -> ¬ linked st p 0 -> 0 <= total_pages st < 2 ^ 33 ->
  exists st', init_memmap_page p st = Some st' ∧ Boot st'
    ∧ page_frames_count st' = page_frames_count st
    ∧ (forall q, linked st' q 0 <-> linked st q 0 ∨ q = p)
    ∧ free_pages st' = free_pages st + 1 ∧ total_pages st' = total_pages st + 1
    ∧ reserved_pages st' = reserved_pages st.
Proof.
  intros HB Hp Hnl Ht. destruct (Boot_frame st p HB Hp) as [pg Hpg].
  unfold init_memmap_page. unfold upd_page at 1. rewrite Hpg. simpl.
  destruct (wipe_page st p pg HB Hp Hnl Hpg) as (st2 & E2 & Hu2 & Ha2 & Ho12 & Hl12 & Hf2 & HC2 & HC2').
  destruct (used_frame _ st2 p 0 HC2') as [pg2 Hpg2]; [apply lookup_insert_eq|].
  destruct (Core_area _ st2 0 HC2 ltac:(lia)) as [l Hl].
  assert (Hnl2 : forall j, ¬ linked st2 p j).
  { intros j. apply (c_excl _ _ HC2' p 0). apply lookup_insert_eq. }
  destruct (list_add_spec st2 p pg2 0 l Hpg2 Hl Hnl2) as (st3 & E3 & Hu3 & Ha3 & Ho3 & Hl3 & Hf3).
  assert (Hop : ord st2 p = Some 0).
  { rewrite Ho12. destruct (ord st p) eqn:E; [f_equal; by apply (bt_ord _ HB p)|].
    unfold ord in E. by rewrite Hpg in E. }
  assert (HC3 : Core ∅ st3).
  { rewrite <- (delete_insert_id ∅ p 0) by done. by apply (Core_link _ st2 st3 p 0 l);
      [|apply lookup_insert_eq|..]. }
  assert (Hlk : forall q j, linked st3 q j <-> linked st q j ∨ (q = p ∧ j = 0)).
  { intros q j. unfold linked. rewrite Hl3, Hl12. specialize (Hnl2 j). unfold linked in Hnl2.
    rewrite Hl12 in Hnl2. case_decide; naive_solver. }
  rewrite E2. simpl. rewrite E3. simpl. eexists; split; [done|]. simpl.
  pose proof (unchanged_trans _ _ _ Hu2 Hu3) as [Hc Hto Hfr Hre]. simpl in *.
  assert (Hs : area_sum (free_area st3) = area_sum (free_area st) + 1).
  { rewrite Ha3, (area_sum_insert _ _ l) by (done || lia). rewrite Ha2. simpl length.
    change (2 ^ 0) with 1. simpl. lia. }
  pose proof (area_sum_bound _ _ HC3 ltac:(destruct HB; lia)).
  pose proof (area_sum_bound _ _ (bt_core _ HB) ltac:(destruct HB; lia)).
  pose proof (bt_free _ HB). pose proof (bt_count _ HB).
  assert (Hw : u64 (free_pages st3 + 1) = free_pages st + 1) by (rewrite u64_small; lia).
  split_and!; [split; simpl|done| |lia|rewrite u64_small; lia|done].
  - by apply (Core_ext _ st3).
  - intros q j [Hq|[_ ->]]%Hlk; [by apply (bt_zero _ HB q)|done].
  - intros q. change (buddy_flag _ q) with (buddy_flag st3 q). change (linked _ q 0) with (linked st3 q 0).
    rewrite Hlk, Hf3, Hf2. case_decide; [naive_solver|]. rewrite (bt_flag _ HB). naive_solver.
  - intros q o. change (ord _ q) with (ord st3 q). rewrite Ho3, Ho12. apply (bt_ord _ HB).
  - lia.
  - lia.
  - intros q. etrans; [apply (Hlk q 0)|naive_solver].
Qed.

Lemma Boot_with st t r :
  Boot st -> Boot (with_counts t (free_pages st) r st).
Proof. intros []. by split; [apply (Core_ext _ st)|..]. Qed.

(** Setting a flag other than PG_buddy is invisible to the free lists. *)
Lemma set_reserved_ok st p :
  Boot st -> 0 <= p < page_frames_count st ->
  exists st', set_page_flags p (BIT PG_reserved) st = Some st' ∧ Boot st'
    ∧ unchanged st st' ∧ (forall q k, linked st' q k <-> linked st q k).
Proof.
  intros HB Hp. destruct (Boot_frame st p HB Hp) as [pg Hpg].
  unfold set_page_flags, upd_page. rewrite Hpg. simpl. eexists; split; [done|].
  set (st1 := with_frames _ st).
  assert (Hv : same_ord st st1 ∧ same_lnk st st1 ∧ same_flags st st1).
  { split_and!; view_tac; try by rewrite Hpg.
    rewrite test_set by (unfold PG_buddy, PG_reserved; lia). by rewrite Hpg. }
  destruct Hv as (Ho & Hl & Hf).
  assert (Hlk : forall q k, linked st1 q k <-> linked st q k) by (intros; unfold linked; by rewrite Hl).
  split_and!; [|by split|done]. destruct HB. split; try done.
  - by apply (Core_ext _ st).
  - intros q k. rewrite Hlk. apply bt_zero0.
  - intros q. rewrite Hlk, Hf. apply bt_flag0.
  - intros q o. rewrite Ho. apply bt_ord0.
Qed.

(** Taking a single free page back out of the free list. *)
Lemma unlink_boot_page st p pg :
  Boot st -> page_frames st !! p = Some pg ->
  page_test_flags (pg_flags pg) (BIT PG_buddy) = true ->
  exists st',
    (st ← clear_page_flags p (BIT PG_buddy) st;
     st ← list_del_page p st;
     Some (with_free (u64 (free_pages st - 1)) st)) = Some st'
    ∧ Boot st' ∧ page_frames_count st' = page_frames_count st
    ∧ total_pages st' = total_pages st ∧ reserved_pages st' = reserved_pages st
    ∧ (forall q, linked st' q 0 <-> linked st q 0 ∧ q ≠ p).
Proof.
  intros HB Hpg Ef.
  assert (Hp : linked st p 0) by (apply (bt_flag _ HB); unfold buddy_flag; by rewrite Hpg).
  destruct (clear_flag_spec st p pg Hpg) as (st1 & E1 & Hu1 & Ha1 & Ho1 & Hl1 & Hf1).
  assert (HC1 : Core ∅ st1) by (apply (Core_ext ∅ st); [apply HB|apply Hu1|done..]).
  assert (Hp1 : linked st1 p 0) by (unfold linked; by rewrite Hl1).
  destruct (Core_area _ st1 0 HC1 ltac:(lia)) as [l Hl].
  destruct (list_del_spec st1 p 0 l Hp1 Hl) as (st2 & E2 & Hu2 & Ha2 & Ho2 & Hl2 & Hf2).
  assert (HC2 : Core ∅ st2).
  { rewrite <- (delete_insert_id ∅ p 0) by done. apply Core_drop. by apply (Core_unlink ∅ st1 st2 p 0 l). }
  assert (Hlk : forall q j, linked st2 q j <-> linked st q j ∧ q ≠ p).
  { intros q j. unfold linked. rewrite Hl2, Hl1. case_decide; naive_solver. }
  assert (Hs : area_sum (free_area st2) = area_sum (free_area st) - 1).
  { rewrite Ha2, (area_sum_insert _ _ l), filter_ne_length; [rewrite Ha1; lia|..]; try done; try lia.
    - by apply (c_nodup _ _ HC1 0).
    - by apply (linked_in_area ∅ st1 p 0). }
  pose proof (unchanged_trans _ _ _ Hu1 Hu2) as [Hc Ht Hf Hr].
  pose proof (area_sum_bound _ _ HC2 ltac:(destruct HB; lia)).
  pose proof (bt_free _ HB). pose proof (bt_count _ HB).
  rewrite E1. simpl. rewrite E2. simpl. eexists; split; [done|].
  split_and!; [|done..|intros q; apply Hlk]. split; simpl; try lia.
  - by apply (Core_ext _ st2).
  - intros q j [Hq _]%Hlk. by apply (bt_zero _ HB q).
  - intros q. change (buddy_flag _ q) with (buddy_flag st2 q). change (linked _ q 0) with (linked st2 q 0).
    rewrite Hlk, Hf2, Hf1. case_decide; [naive_solver|]. rewrite (bt_flag _ HB). naive_solver.
  - intros q o. change (ord _ q) with (ord st2 q). rewrite Ho2, Ho1. apply (bt_ord _ HB).
  - rewrite u64_small; lia.
Qed.

Lemma reserve_page_ok st p :
  Boot st -> 0 <= p < page_frames_count st -> 0 <= reserved_pages st < 2 ^ 33 ->
  exists st', reserve_range_page p st = Some st' ∧ Boot st'
    ∧ page_frames_count st' = page_frames_count st ∧ total_pages st' = total_pages st
    ∧ (forall q, linked st' q 0 <-> linked st q 0 ∧ q ≠ p)
    ∧ reserved_pages st' = reserved_pages st + 1.
Proof.
  intros HB Hp Hr. destruct (Boot_frame st p HB Hp) as [pg Hpg].
  unfold reserve_range_page. rewrite Hpg. simpl.
  assert (Hstep : exists st1,
    (if page_test_flags (pg_flags pg) (BIT PG_buddy) then
       st ← clear_page_flags p (BIT PG_buddy) st;
       st ← list_del_page p st;
       Some (with_free (u64 (free_pages st - 1)) st)
     else Some st) = Some st1 ∧ Boot st1 ∧ page_frames_count st1 = page_frames_count st
    ∧ total_pages st1 = total_pages st ∧ reserved_pages st1 = reserved_pages st
    ∧ (forall q, linked st1 q 0 <-> linked st q 0 ∧ q ≠ p)).
  { destruct (page_test_flags (pg_flags pg) (BIT PG_buddy)) eqn:Ef.
    - by apply (unlink_boot_page st p pg).
    - exists st. split_and!; try done. intros q. split; [|naive_solver]. intros Hq. split; [done|].
      intros ->. apply (bt_flag _ HB) in Hq. unfold buddy_flag in Hq. rewrite Hpg in Hq. congruence. }
  destruct Hstep as (st1 & E1 & HB1 & Hc1 & Ht1 & Hr1 & Hl1). rewrite E1. simpl.
  destruct (set_reserved_ok st1 p HB1 ltac:(lia)) as (st2 & E2 & HB2 & [Hc2 Ht2 Hf2 Hr2] & Hl2).
  rewrite E2. simpl. eexists; split; [done|]. split_and!; simpl.
  - by apply Boot_with.
  - congruence.
  - congruence.
  - intros q. etrans; [apply (Hl2 q 0)|apply Hl1].
  - rewrite u64_small; lia.
Qed.

(** ** Ranges *)

Lemma init_range_ok n : forall st s,
  Boot st -> 0 <= s -> (forall q, s <= q < s + Z.of_nat n -> ¬ linked st q 0) ->
  0 <= total_pages st -> total_pages st + Z.of_nat n < 2 ^ 33 ->
  let e := Z.min (s + Z.of_nat n) (Z.max s (page_frames_count st)) in
  exists st', range_loop init_memmap_page n s st = Some st' ∧ Boot st'
    ∧ page_frames_count st' = page_frames_count st
    ∧ (forall q, linked st' q 0 <-> linked st q 0 ∨ s <= q < e)
    ∧ free_pages st' = free_pages st + (e - s) ∧ total_pages st' = total_pages st + (e - s)
    ∧ reserved_pages st' = reserved_pages st.
Proof.
  induction n as [|n IH]; intros st s HB Hs Hnl Ht0 Ht e; cbn [range_loop].
  { exists st. assert (e = s) as -> by lia. split_and!; try done; try lia. intros q. intuition lia. }
  destruct (Z.leb_spec (page_frames_count st) s).
  { exists st. assert (e = s) as -> by lia. split_and!; try done; try lia. intros q. intuition lia. }
  destruct (init_page_ok st s HB ltac:(lia) (Hnl s ltac:(lia)) ltac:(lia))
    as (st1 & E1 & HB1 & Hc1 & Hl1 & Hf1 & Ht1 & Hr1).
  rewrite E1. simpl.
  destruct (IH st1 (s + 1) HB1 ltac:(lia)) as (st' & E' & HB' & Hc' & Hl' & Hf' & Ht' & Hr').
  - intros q Hq. rewrite Hl1. intros [Hl|]; [|lia]. apply (Hnl q); [lia|done].
  - lia.
  - lia.
  - exists st'. rewrite E'. rewrite Hc1 in *. split_and!; try done; try lia; try congruence.
    intros q. rewrite Hl', Hl1. intuition lia.
Qed.

Lemma reserve_range_ok n : forall st s,
  Boot st -> 0 <= s ->
  0 <= reserved_pages st -> reserved_pages st + Z.of_nat n < 2 ^ 33 ->
  let e := Z.min (s + Z.of_nat n) (Z.max s (page_frames_count st)) in
  exists st', range_loop reserve_range_page n s st = Some st' ∧ Boot st'
    ∧ page_frames_count st' = page_frames_count st ∧ total_pages st' = total_pages st
    ∧ (forall q, linked st' q 0 <-> linked st q 0 ∧ ¬ (s <= q < e))
    ∧ reserved_pages st' = reserved_pages st + (e - s).
Proof.
  induction n as [|n IH]; intros st s HB Hs Hr0 Hr e; cbn [range_loop].
  { exists st. assert (e = s) as -> by lia. split_and!; try done; try lia. intros q. intuition lia. }
  destruct (Z.leb_spec (page_frames_count st) s).
  { exists st. assert (e = s) as -> by lia. split_and!; try done; try lia. intros q. intuition lia. }
  destruct (reserve_page_ok st s HB ltac:(lia) ltac:(lia)) as (st1 & E1 & HB1 & Hc1 & Ht1 & Hl1 & Hr1).
  rewrite E1. simpl.
  destruct (IH st1 (s + 1) HB1 ltac:(lia)) as (st' & E' & HB' & Hc' & Ht' & Hl' & Hr'); [lia|lia|].
  exists st'. rewrite E'. rewrite Hc1 in *. split_and!; try done; try lia; try congruence.
  intros q. rewrite Hl', Hl1. intuition lia.
Qed.

(** ** The state [pmm_init] starts from *)

Lemma lookup_table {A} (v : A) (m : nat) (k : Z) :
  (list_to_map (map (fun i => (Z.of_nat i, v)) (seq 0 m)) : gmap Z A) !! k =
    if decide (0 <= k < Z.of_nat m) then Some v else None.
Proof.
  case_decide as Hk.
  - apply elem_of_list_to_map.
    + rewrite map_map. cbn [fst]. apply NoDup_fmap_2; [intros a b E; lia|apply NoDup_seq].
    + apply list_elem_of_fmap. exists (Z.to_nat k). rewrite Z2Nat.id by lia.
      split; [done|]. apply elem_of_seq. lia.
  - apply not_elem_of_list_to_map. rewrite map_map. cbn [fst].
    intros (i & -> & Hi%elem_of_seq)%list_elem_of_fmap. lia.
Qed.

Lemma lookup_frame_array n p :
  frame_array n !! p = if decide (0 <= p < n) then Some zero_page else None.
Proof. unfold frame_array. rewrite lookup_table. repeat case_decide; done || lia. Qed.

Lemma lookup_empty_areas k : empty_areas !! k = if decide (0 <= k <= 10) then Some [] else None.
Proof. unfold empty_areas. rewrite lookup_table. repeat case_decide; done || lia. Qed.

Definition blank (n : Z) : pmm := mk_pmm (frame_array n) n empty_areas 0 0 0.

Lemma blank_linked n p k : ¬ linked (blank n) p k.
Proof. unfold linked, lnk; simpl. rewrite lookup_frame_array. by case_decide. Qed.

Lemma blank_Boot n : 0 <= n < 2 ^ 32 -> Boot (blank n).
Proof.
  intros Hn. assert (Hnl := blank_linked n). split.
  - split.
    + intros p. simpl. rewrite lookup_frame_array. case_decide; split; try done; by intros [].
    + intros k. simpl. rewrite lookup_empty_areas. case_decide; split; try done; by intros [].
    + intros k l. simpl. rewrite lookup_empty_areas. case_decide; [intros [= <-]; constructor|done].
    + intros k l p. simpl. rewrite lookup_empty_areas. case_decide; [intros [= <-]|done].
      rewrite elem_of_nil. specialize (Hnl p k). tauto.
    + intros p k Hl. by destruct (Hnl p k).
    + done.
    + done.
    + intros p k p' k' [Hl|]; [by destruct (Hnl p k)|done].
  - intros p k Hl. by destruct (Hnl p k).
  - intros p. unfold buddy_flag. simpl. rewrite lookup_frame_array. specialize (Hnl p 0).
    case_decide; [|by split]. simpl. rewrite test_none by (unfold PG_buddy; lia). by split.
  - intros p o. unfold ord. simpl. rewrite lookup_frame_array. case_decide; [|done]. by intros [= <-].
  - done.
  - done.
Qed.

(** The state left by [pmm_init] when both of its allocations succeed. *)
Lemma pmm_init_ok :
  exists st, pmm_init true true = Some st ∧ Boot st
    ∧ page_frames_count st = 16128
    ∧ (forall q, linked st q 0 <-> 256 <= q < 16128)
    ∧ free_pages st = 15872 ∧ total_pages st = 15872 ∧ reserved_pages st = 256.
Proof.
  unfold pmm_init, pmm_init_with. simpl negb. cbv iota.
  change (u32 (total_memory boot_memory_map / PAGE_SIZE)) with 16128.
  change (mk_pmm (frame_array 16128) 16128 empty_areas 0 0 0) with (blank 16128).
  unfold boot_memory_map, init_entries, init_entry, pmm_reserve_range, pmm_init_memmap, over_range.
  cbn [me_type me_base me_length].
  change (MEMORY_MAP_RESERVED =? MEMORY_MAP_AVAILABLE) with false.
  change (MEMORY_MAP_AVAILABLE =? MEMORY_MAP_AVAILABLE) with true. cbv iota.
  change (u32 (0 / PAGE_SIZE)) with 0. change (u32 (u64 (0 + 0x100000) / PAGE_SIZE)) with 256.
  change (u32 (0x100000 / PAGE_SIZE)) with 256.
  change (u32 (u64 (0x100000 + 0x1F00000) / PAGE_SIZE)) with 8192.
  change (u32 (0x2000000 / PAGE_SIZE)) with 8192.
  change (u32 (u64 (0x2000000 + 0x2000000) / PAGE_SIZE)) with 16384.
  rewrite (proj2 (Z.leb_gt 256 0)), (proj2 (Z.leb_gt 8192 256)), (proj2 (Z.leb_gt 16384 8192)) by lia.
  destruct (reserve_range_ok (Z.to_nat (256 - 0)) (blank 16128) 0)
    as (st1 & E1 & HB1 & Hc1 & Ht1 & Hl1 & Hr1); [by apply blank_Boot|simpl; lia..|].
  run E1. cbn [blank page_frames_count total_pages reserved_pages free_pages] in *.
  assert (Hn1 : forall q, ¬ linked st1 q 0) by (intros q; rewrite Hl1; intros [H' _]; by apply (blank_linked 16128 q 0)).
  destruct (init_range_ok (Z.to_nat (8192 - 256)) st1 256)
    as (st2 & E2 & HB2 & Hc2 & Hl2 & Hf2 & Ht2 & Hr2); [done|lia|intros; apply Hn1|lia|lia|].
  run E2.
  destruct (init_range_ok (Z.to_nat (16384 - 8192)) st2 8192)
    as (st3 & E3 & HB3 & Hc3 & Hl3 & Hf3 & Ht3 & Hr3); [done|lia| |lia|lia|].
  { intros q Hq. rewrite Hl2. intros [Hl|]; [by apply (Hn1 q)|lia]. }
  run E3.
  assert (Hf1 : free_pages st1 = 0).
  { rewrite (bt_free _ HB1), <- length_free_frames. destruct (free_frames st1) as [|q fr] eqn:E; [done|].
    exfalso. assert (free_frame st1 q) as (p & k & Hp & _)
      by (apply (elem_of_free_frames ∅); [apply HB1|rewrite E; by left]).
    pose proof (bt_zero _ HB1 _ _ Hp) as ->. by apply (Hn1 p). }
  exists st3. split; [done|]. split; [done|]. rewrite Hc1 in *. rewrite Hc2 in *.
  split_and!; try lia. intros q. rewrite Hl3, Hl2. specialize (Hn1 q). intuition lia.
Qed.

End Boot.

End PmmBoot.
