(* ===== verification/PmmSpec.v ===== *)
(** What the physical page allocator promises: an abstract allocator over sets of
    page frames, the simulation of [kernel/mm/pmm.c] by it, and the theorems
    about the operations, each with a run that meets its hypotheses. *)

From S2P Require Import Prelude Pmm PmmInv PmmProofs PmmBoot.
Import Pmm PmmInv PmmProofs PmmBoot.

Module PmmSpec.

(** ** The abstract allocator *)

(** The free page frames, and the blocks handed out (head to order). *)
Definition spec_state : Type := gset Z * gmap Z Z.

Definition block_set (p k : Z) : gset Z := list_to_set (seqZ p (2 ^ k)).

Inductive spec_step : spec_state -> spec_state -> Prop :=
| spec_alloc F A p k :
    0 <= k <= 10 -> (2 ^ k | p) -> block_set p k ⊆ F -> A !! p = None ->
    spec_step (F, A) (F ∖ block_set p k, <[p := k]> A)
| spec_refuse F A : spec_step (F, A) (F, A)
| spec_free F A p k :
    A !! p = Some k -> block_set p k ## F ->
    spec_step (F, A) (F ∪ block_set p k, delete p A).

(** ** The kernel as a client sees it *)

(** Callers request blocks, and return the blocks they hold with the order they
    asked for. *)
Inductive client_step `{PageFlags} : gmap Z Z * pmm -> gmap Z Z * pmm -> Prop :=
| step_alloc A st order flags p st' :
    0 <= order -> pmm_alloc_pages order flags st = Some (Some p, st') ->
    client_step (A, st) (<[p := order]> A, st')
| step_alloc_null A st order flags st' :
    0 <= order -> pmm_alloc_pages order flags st = Some (None, st') ->
    client_step (A, st) (A, st')
| step_free A st p k st' :
    A !! p = Some k -> pmm_free_pages (Some p) k st = Some st' ->
    client_step (A, st) (delete p A, st').

(** The abstraction: the set of frames on the free lists. *)
Definition frame_set (st : pmm) : gset Z := list_to_set (free_frames st).

Lemma elem_of_block_set p k q : 0 <= k -> q ∈ block_set p k <-> in_block p k q.
Proof.
  intros Hk. unfold block_set, in_block. pose proof (pow2_pos k Hk).
  rewrite elem_of_list_to_set, elem_of_seqZ. done.
Qed.

Lemma elem_of_frame_set B st q : Core B st -> q ∈ frame_set st <-> free_frame st q.
Proof. intros HC. unfold frame_set. rewrite elem_of_list_to_set. by apply (elem_of_free_frames B). Qed.

Section Simulation.
Context `{HF : PageFlagsLaws}.

Lemma alloc_simulates A st order p st' :
  0 <= order <= 10 -> Inv A st -> allocated A order p st st' ->
  frame_set st' = frame_set st ∖ block_set p order ∧ block_set p order ⊆ frame_set st.
Proof.
  intros Ho HI Hal. pose proof (inv_core _ _ HI) as HC. pose proof (inv_core _ _ (al_inv _ _ _ _ _ Hal)) as HC'.
  split.
  - apply set_eq. intros q. rewrite elem_of_difference, elem_of_block_set by lia.
    rewrite (elem_of_frame_set A st) by done. rewrite (elem_of_frame_set (<[p := order]> A) st') by done.
    rewrite (al_frames _ _ _ _ _ Hal). pose proof (al_taken _ _ _ _ _ Hal q). tauto.
  - intros q. rewrite elem_of_block_set by lia. rewrite (elem_of_frame_set A st) by done.
    rewrite (al_frames _ _ _ _ _ Hal). tauto.
Qed.

Lemma free_simulates A st p k st' :
  Inv A st -> A !! p = Some k -> released A k p st st' ->
  frame_set st' = frame_set st ∪ block_set p k ∧ block_set p k ## frame_set st.
Proof.
  intros HI HA Hre. pose proof (inv_core _ _ HI) as HC. pose proof (inv_core _ _ (re_inv _ _ _ _ _ Hre)) as HC'.
  destruct (c_used _ _ HC _ _ HA) as [Hk _ _ _ _].
  split.
  - apply set_eq. intros q. rewrite elem_of_union, elem_of_block_set by lia.
    rewrite (elem_of_frame_set A st) by done. rewrite (elem_of_frame_set (delete p A) st') by done.
    apply (re_frames _ _ _ _ _ Hre).
  - intros q. rewrite elem_of_block_set by lia. rewrite (elem_of_frame_set A st) by done.
    intros Hq (p' & k' & Hl & Hq'). unfold in_block in Hq.
    destruct (decide (p = p')) as [<-|Hne]; [by apply (c_excl _ _ HC p k k')|].
    destruct (c_disj _ _ HC p k p' k'); [by right|by left|done|lia|lia].
Qed.

Lemma client_step_simulated A st A' st' :
  Inv A st -> client_step (A, st) (A', st') ->
  Inv A' st' ∧ spec_step (frame_set st, A) (frame_set st', A').
Proof.
  intros HI Hstep. inversion Hstep; subst.
  - destruct (alloc_pages_ok A st order flags HI) as (r & st2 & E & Hr); [done|].
    simplify_eq. destruct Hr as [Ho Hal]. split; [apply Hal|].
    destruct (alloc_simulates A st order p st') as [-> Hsub]; [lia|done|done|].
    apply spec_alloc; [lia|apply (al_align _ _ _ _ _ Hal)|done|apply (al_fresh _ _ _ _ _ Hal)].
  - destruct (alloc_pages_ok A' st order flags HI) as (r & st2 & E & Hr); [done|].
    simplify_eq. destruct Hr as [-> _]. split; [done|constructor].
  - destruct (free_pages_ok A st p k HI) as (st2 & E & Hre); [done|]. simplify_eq.
    split; [apply Hre|]. destruct (free_simulates A st p k st') as [-> Hd]; [done..|].
    by apply spec_free.
Qed.

Lemma client_run_simulated s s' :
  rtc client_step s s' -> Inv s.1 s.2 ->
  Inv s'.1 s'.2 ∧ rtc spec_step (frame_set s.2, s.1) (frame_set s'.2, s'.1).
Proof.
  induction 1 as [s|s s1 s' Hs _ IH]; [by intros; split|]. intros HI.
  destruct s as [A st], s1 as [A1 st1].
  destruct (client_step_simulated A st A1 st1 HI Hs) as [HI1 Hsp].
  destruct (IH HI1) as [HI' Hr]. split; [done|]. by eapply rtc_l.
Qed.

(** ** Properties *)

(** C1: every sequence of calls refines the abstract allocator, and at every
    point of it the blocks handed out are disjoint from one another and from the
    free frames. *)
Theorem pmm_refines_spec A st A' st' :
  Inv A st -> rtc client_step (A, st) (A', st') ->
  rtc spec_step (frame_set st, A) (frame_set st', A')
  ∧ (forall p k p' k', A' !! p = Some k -> A' !! p' = Some k' -> p ≠ p' ->
       block_set p k ## block_set p' k')
  ∧ (forall p k, A' !! p = Some k -> block_set p k ## frame_set st').
Proof.
  intros HI Hrun. destruct (client_run_simulated _ _ Hrun HI) as [HI' Hsp]. simpl in *.
  pose proof (inv_core _ _ HI') as HC.
  assert (Hpos : forall p k, A' !! p = Some k -> 0 <= k)
    by (intros p k [Hk _ _ _ _]%(c_used _ _ HC); lia).
  split_and!; [done|..].
  - intros p k p' k' Hp Hp' Hne q. rewrite !elem_of_block_set by eauto. unfold in_block.
    destruct (c_disj _ _ HC p k p' k'); [by right|by right|done|lia|lia].
  - intros p k Hp q. rewrite elem_of_block_set by eauto. rewrite (elem_of_frame_set A') by done.
    intros Hq (p' & k' & Hl & Hq'). unfold in_block in Hq.
    destruct (decide (p = p')) as [<-|Hne]; [by apply (c_excl _ _ HC p k k')|].
    destruct (c_disj _ _ HC p k p' k'); [by right|by left|done|lia|lia].
Qed.

(** C2: in a state satisfying the invariant [pmm_alloc_pages] always returns, with
    NULL exactly when the order is above 10 or no free block is large enough, and
    otherwise with an aligned block of [2^order] frames, all of them free before
    the call and none of them free after it, [free_pages] being reduced by
    [2^order] and no other frame changing hands. *)
Theorem pmm_alloc_pages_correct A st order flags :
  Inv A st -> 0 <= order ->
  exists r st', pmm_alloc_pages order flags st = Some (r, st') ∧
    (r = None <-> 10 < order ∨ forall p k, linked st p k -> k < order) ∧
    match r with
    | None => st' = st
    | Some p =>
        Inv (<[p := order]> A) st' ∧ A !! p = None ∧ (2 ^ order | p)
        ∧ 0 <= p ∧ p + 2 ^ order <= page_frames_count st
        ∧ frame_set st' = frame_set st ∖ block_set p order
        ∧ block_set p order ⊆ frame_set st
        ∧ free_pages st' = free_pages st - 2 ^ order
    end.
Proof.
  intros HI Ho. destruct (alloc_pages_ok A st order flags HI Ho) as (r & st' & E & Hr).
  exists r, st'. split; [done|]. destruct r as [p|].
  - destruct Hr as [Ho' Hal]. destruct (alloc_simulates A st order p st') as [Hfs Hsub]; [lia|done|done|].
    split.
    + split; [done|]. intros [?|Hno]; [lia|]. exfalso.
      destruct (al_source _ _ _ _ _ Hal) as (k & Hk & Hl). specialize (Hno p k Hl). lia.
    + destruct Hal. destruct al_range0. split_and!; done.
  - destruct Hr as [-> Hno]. split; [|done]. split; [done|by intros].
Qed.

(** Releasing a held block with the order it was requested with always
    returns, keeps the invariant, gives exactly the frames of the block back and
    adds [2^k] to [free_pages]. *)
Theorem pmm_free_pages_correct A st p k :
  Inv A st -> A !! p = Some k ->
  exists st', pmm_free_pages (Some p) k st = Some st'
    ∧ Inv (delete p A) st'
    ∧ frame_set st' = frame_set st ∪ block_set p k
    ∧ block_set p k ## frame_set st
    ∧ free_pages st' = free_pages st + 2 ^ k.
Proof.
  intros HI HA. destruct (free_pages_ok A st p k HI HA) as (st' & E & Hre).
  destruct (free_simulates A st p k st' HI HA Hre) as [Hfs Hd].
  exists st'. destruct Hre. split_and!; done.
Qed.

(** The counter [free_pages] is at every point of a run the number of frames
    on the free lists, and it never exceeds the number of page frames. *)
Theorem pmm_free_pages_counter A st A' st' :
  Inv A st -> rtc client_step (A, st) (A', st') ->
  free_pages st' = Z.of_nat (size (frame_set st'))
  ∧ 0 <= free_pages st' <= page_frames_count st'.
Proof.
  intros HI Hrun. destruct (client_run_simulated _ _ Hrun HI) as [HI' _]. simpl in *.
  pose proof (inv_core _ _ HI') as HC. rewrite (inv_free _ _ HI'). split.
  - rewrite <- length_free_frames. unfold frame_set. f_equal. symmetry.
    apply size_list_to_set. by apply (NoDup_free_frames A').
  - apply (area_sum_bound A'); [done|]. pose proof (inv_count _ _ HI'). lia.
Qed.

(** [pmm_init] succeeds and establishes the invariant: of the 16128 frames of
    the frame array the 256 below 1 MB are reserved and the others are free. *)
Theorem pmm_init_correct :
  exists st, pmm_init true true = Some st ∧ Inv ∅ st
    ∧ page_frames_count st = 16128
    ∧ (forall q, q ∈ frame_set st <-> 256 <= q < 16128)
    ∧ pmm_get_free_pages st = 15872 ∧ pmm_get_total_pages st = 15872
    ∧ pmm_get_reserved_pages st = 256 ∧ pmm_get_used_pages st = 0.
Proof.
  destruct pmm_init_ok as (st & E & HB & Hc & Hl & Hf & Ht & Hr).
  exists st. pose proof (Boot_Inv st HB) as HI.
  unfold pmm_get_free_pages, pmm_get_total_pages, pmm_get_reserved_pages, pmm_get_used_pages.
  rewrite Hf, Ht, Hr.
  split; [exact E|]. split; [exact HI|]. split; [exact Hc|].
  split; [|by repeat split; vm_compute].
  intros q. rewrite (elem_of_frame_set ∅ st) by apply HI. rewrite <- Hl. split.
  - intros (p & k & Hp & Hq). pose proof (bt_zero _ HB _ _ Hp) as ->. change (2 ^ 0) with 1 in Hq.
    by replace q with p by lia.
  - intros Hq. exists q, 0. split; [done|]. change (2 ^ 0) with 1. lia.
Qed.

End Simulation.

(** The frame at a kernel address and the kernel address of a frame are
    inverse to each other on the frames of a machine of at most 1 GB. *)
Theorem pmm_virt_page_roundtrip st p :
  0 <= p < page_frames_count st -> page_frames_count st <= 0x40000 ->
  pmm_virt_to_page st (pmm_page_to_virt (Some p)) = Some p
  ∧ pmm_virt_to_phys (pmm_page_to_virt (Some p)) = p * PAGE_SIZE
  ∧ pmm_phys_to_virt (p * PAGE_SIZE) = pmm_page_to_virt (Some p)
  ∧ pmm_is_high_mem (pmm_page_to_virt (Some p)) = true.
Proof.
  intros Hp Hn. unfold pmm_page_to_virt, pmm_page_to_pfn, pmm_phys_to_virt, pmm_virt_to_page,
    pmm_virt_to_phys, pmm_is_high_mem, PAGE_SIZE, KERNEL_BASE. simpl default.
  assert (Hv : u32 (p * 4096 + 0xC0000000) = p * 4096 + 0xC0000000) by (apply u32_small; lia).
  rewrite Hv. destruct (Z.eqb_spec (p * 4096 + 0xC0000000) 0) as [|_]; [lia|].
  assert (Hs : u32 (p * 4096 + 0xC0000000 - 0xC0000000) = p * 4096) by (rewrite u32_small; lia).
  rewrite Hs, Z.div_mul by lia. rewrite (proj2 (Z.leb_gt _ _)) by lia.
  split_and!; try done. by apply Z.leb_le; lia.
Qed.

(** ** Runs of a machine with four page frames *)

Definition four_pages : list memory_map_entry := [mk_entry 0 0x4000 MEMORY_MAP_AVAILABLE].

Definition st4 : pmm := default (blank 0) (@pmm_init_with bit_flags four_pages true true).

Lemma st4_Inv : @Inv bit_flags ∅ st4.
Proof.
  destruct (@init_range_ok bit_flags bit_flags_laws 4 (blank 4) 0)
    as (st & E & HB & _); [by apply (@blank_Boot bit_flags bit_flags_laws)|lia| |simpl; lia..|].
  { intros q _. apply blank_linked. }
  assert (Hc : @range_loop (@init_memmap_page bit_flags) 4 0 (blank 4) = Some st4)
    by (vm_compute; reflexivity).
  revert Hc. generalize st4. intros s4 Hc. rewrite Hc in E. injection E as <-. by apply Boot_Inv.
Qed.

(** One frame handed out. *)
Definition st4_one : pmm :=
  match @pmm_alloc_pages bit_flags 0 0 st4 with Some (_, st) => st | None => st4 end.

Lemma st4_alloc : @pmm_alloc_pages bit_flags 0 0 st4 = Some (Some 3, st4_one).
Proof. vm_compute. reflexivity. Qed.

Lemma st4_step : @client_step bit_flags (∅, st4) (<[3 := 0]> ∅, st4_one).
Proof. apply (@step_alloc bit_flags _ _ 0 0); [lia|exact st4_alloc]. Qed.

Lemma pmm_refines_spec_witness :
  rtc spec_step (frame_set st4, ∅) (frame_set st4_one, <[3 := 0]> ∅)
  ∧ block_set 3 0 ## frame_set st4_one.
Proof.
  destruct (@pmm_refines_spec bit_flags bit_flags_laws ∅ st4 (<[3 := 0]> ∅) st4_one st4_Inv)
    as (H1 & _ & H3); [apply rtc_once, st4_step|].
  split; [exact H1|]. apply H3. reflexivity.
Defined.

Lemma pmm_alloc_pages_correct_witness :
  exists r st', @pmm_alloc_pages bit_flags 0 0 st4 = Some (r, st') ∧ r = Some 3
    ∧ free_pages st' = free_pages st4 - 2 ^ 0.
Proof.
  destruct (@pmm_alloc_pages_correct bit_flags bit_flags_laws ∅ st4 0 0 st4_Inv ltac:(lia))
    as (r & st' & E & _ & Hr).
  rewrite st4_alloc in E. apply (inj Some) in E.
  assert (Hrr : r = Some 3) by (exact (f_equal fst (eq_sym E))).
  exists r, st'. rewrite st4_alloc, E. split; [reflexivity|]. split; [exact Hrr|].
  rewrite Hrr in Hr. apply Hr.
Defined.

Lemma pmm_free_pages_correct_witness :
  exists st', @pmm_free_pages bit_flags (Some 3) 0 st4_one = Some st'
    ∧ frame_set st' = frame_set st4_one ∪ block_set 3 0.
Proof.
  destruct (@pmm_free_pages_correct bit_flags bit_flags_laws (<[3 := 0]> ∅) st4_one 3 0)
    as (st' & E & _ & Hf & _).
  - apply (@client_step_simulated bit_flags bit_flags_laws ∅ st4 _ _ st4_Inv st4_step).
  - reflexivity.
  - exists st'. split; [exact E|exact Hf].
Defined.

Lemma pmm_free_pages_counter_witness :
  free_pages st4_one = Z.of_nat (size (frame_set st4_one)).
Proof.
  apply (@pmm_free_pages_counter bit_flags bit_flags_laws ∅ st4 (<[3 := 0]> ∅) st4_one st4_Inv).
  apply rtc_once, st4_step.
Defined.

Lemma pmm_virt_page_roundtrip_witness :
  pmm_virt_to_page st4 (pmm_page_to_virt (Some 2)) = Some 2.
Proof.
  assert (Hn : page_frames_count st4 = 4) by (vm_compute; reflexivity).
  apply (pmm_virt_page_roundtrip st4 2); rewrite Hn; lia.
Defined.

Lemma pmm_init_correct_witness :
  exists st, @pmm_init bit_flags true true = Some st ∧ pmm_get_free_pages st = 15872.
Proof.
  destruct (@pmm_init_correct bit_flags bit_flags_laws) as (st & E & _ & _ & _ & Hf & _).
  exists st. split; [exact E|exact Hf].
Defined.

(** Releases pages one by one. *)
Fixpoint release `{PageFlags} (ps : list Z) (st : pmm) : option pmm :=
  match ps with
  | [] => Some st
  | p :: ps' => st ← pmm_free_pages (Some p) 0 st; release ps' st
  end.

Fixpoint take_all `{PageFlags} (n : nat) (st : pmm) : option pmm :=
  match n with
  | O => Some st
  | S n' => '(_, st) ← pmm_alloc_pages 0 0 st; take_all n' st
  end.

Definition cycle (ps : list Z) : pmm :=
  default st4 (st ← @take_all bit_flags 4 st4; @release bit_flags ps st).

(** Merging with a lower buddy clears the flag of the frame that becomes the
    head of the merged block, so that the block is not merged any further: four
    pages returned in ascending order are all free, and a request for the
    four-page block fails, while returned in descending order they form it. *)
Theorem pmm_lost_coalescing :
  free_pages (cycle [0; 1; 2; 3]) = 4
  ∧ frame_set (cycle [0; 1; 2; 3]) = block_set 0 2
  ∧ (fst <$> @pmm_alloc_pages bit_flags 2 0 (cycle [0; 1; 2; 3])) = Some None
  ∧ (fst <$> @pmm_alloc_pages bit_flags 2 0 (cycle [3; 2; 1; 0])) = Some (Some 0).
Proof.
  split; [vm_compute; reflexivity|]. split; [|split; vm_compute; reflexivity].
  apply set_eq. intros q. unfold frame_set, block_set. rewrite !elem_of_list_to_set.
  assert (free_frames (cycle [0; 1; 2; 3]) = [2; 3; 0; 1]) as -> by (vm_compute; reflexivity).
  assert (seqZ 0 (2 ^ 2) = [0; 1; 2; 3]) as -> by (vm_compute; reflexivity).
  set_solver.
Qed.

End PmmSpec.
