(* ===== verification/FileTable.v ===== *)
(** The descriptor table of a task, [kernel/fs/file_table.c]: descriptor
    allocation, release and duplication, the growth and the cloning of the table,
    and the system calls close, dup, dup2, fcntl and lseek over it. *)

From S2P Require Import Prelude.

Module FileTable.

(** ** Data *)

Definition NR_OPEN_DEFAULT : Z := 64.
Definition NR_OPEN_MAX : Z := 1024.
Definition O_CLOEXEC : Z := 0x80000.
Definition O_ACCMODE : Z := 3.
Definition FD_CLOEXEC : Z := 1.
Definition F_DUPFD : Z := 0.
Definition F_GETFD : Z := 1.
Definition F_SETFD : Z := 2.
Definition F_GETFL : Z := 3.
Definition F_SETFL : Z := 4.

(** [struct fdtable]: file pointers (0 is NULL) and bitmaps of 32-bit words. *)
Record fdtable := mk_fdt {
  max_fds : Z;
  fd : list Z;
  close_on_exec : list Z;
  open_fds : list Z
}.

(** [struct files_struct]. [fdt_own] says that [fdt] is the embedded [fdtab], whose
    arrays are [fd_array[64]], [close_on_exec_init[1]] and [open_fds_init[1]]. *)
Record files_struct := mk_files {
  f_refs : Z;
  fdt : fdtable;
  fdt_own : bool;
  next_fd : Z
}.

(** The fields of [struct file] the system calls of this file use. *)
Record file := mk_file { f_pos : Z; f_flags : Z; i_size : Z }.

Definition with_fdt (t : fdtable) (f : files_struct) : files_struct :=
  mk_files (f_refs f) t (fdt_own f) (next_fd f).
Definition with_next (n : Z) (f : files_struct) : files_struct :=
  mk_files (f_refs f) (fdt f) (fdt_own f) n.
Definition with_fd (l : list Z) (f : files_struct) : files_struct :=
  with_fdt (mk_fdt (max_fds (fdt f)) l (close_on_exec (fdt f)) (open_fds (fdt f))) f.
Definition with_cloexec (l : list Z) (f : files_struct) : files_struct :=
  with_fdt (mk_fdt (max_fds (fdt f)) (fd (fdt f)) l (open_fds (fdt f))) f.
Definition with_open (l : list Z) (f : files_struct) : files_struct :=
  with_fdt (mk_fdt (max_fds (fdt f)) (fd (fdt f)) (close_on_exec (fdt f)) l) f.

(** ** Creation and release of a table *)

Definition fresh_fdtab : fdtable := mk_fdt NR_OPEN_DEFAULT (replicate 64 0) [0] [0].

(** [mem] answers the [kmalloc] calls of a function in order. *)
Definition files_alloc (mem : nat -> bool) : option files_struct :=
  if mem 0%nat then Some (mk_files 1 fresh_fdtab true 0) else None.

(** [files_free]: the table that is left (NULL once it is freed) and the files
    given to [vfs_close]. *)
Definition files_free (files : option files_struct)
    : option (option files_struct * list Z) :=
  match files with
  | None => Some (None, [])
  | Some f =>
      let f := mk_files (f_refs f - 1) (fdt f) (fdt_own f) (next_fd f) in
      if 0 <? f_refs f then Some (Some f, [])
      else
        if (length (fd (fdt f)) <? Z.to_nat (max_fds (fdt f)))%nat then None
        else Some (None, filter (fun x => x ≠ 0) (take (Z.to_nat (max_fds (fdt f))) (fd (fdt f))))
  end.

(** [for (i = 0; i < n; i++) dst[i] = src[i];] with [n] iterations left. *)
Fixpoint copy_words (n : nat) (i : Z) (src dst : list Z) : option (list Z) :=
  match n with
  | O => Some dst
  | S n' =>
      x ← aget src i;
      dst ← aset dst i x;
      copy_words n' (i + 1) src dst
  end.

(** The same loop over the file array, which skips NULL entries. *)
Fixpoint copy_files (n : nat) (i : Z) (src dst : list Z) : option (list Z) :=
  match n with
  | O => Some dst
  | S n' =>
      x ← aget src i;
      dst ← (if x =? 0 then Some dst else aset dst i x);
      copy_files n' (i + 1) src dst
  end.

Definition words (n : Z) : Z := (n + 31) / 32.

Definition files_clone (mem : nat -> bool) (old_files : option files_struct)
    : option (option files_struct) :=
  match old_files with
  | None => Some None
  | Some old =>
      match files_alloc mem with
      | None => Some None
      | Some new =>
          let n := max_fds (fdt old) in
          nfd ← copy_files (Z.to_nat n) 0 (fd (fdt old)) (fd (fdt new));
          ncl ← copy_words (Z.to_nat (words n)) 0 (close_on_exec (fdt old)) (close_on_exec (fdt new));
          nop ← copy_words (Z.to_nat (words n)) 0 (open_fds (fdt old)) (open_fds (fdt new));
          Some (Some (mk_files (f_refs new) (mk_fdt (max_fds (fdt new)) nfd ncl nop) true (next_fd old)))
      end
  end.

(** [while (nfds < nr) nfds <<= 1;] on a signed 32-bit integer: doubling past
    [2^30] overflows. *)
Fixpoint round_up (fuel : nat) (nfds nr : Z) : option Z :=
  if nr <=? nfds then Some nfds
  else match fuel with O => None | S fuel' => round_up fuel' (2 * nfds) nr end.

Definition expand_files (mem : nat -> bool) (files : option files_struct) (nr : Z)
    : option (Z * option files_struct) :=
  match files with
  | None => Some (-1, None)
  | Some f =>
      if u32 nr <=? max_fds (fdt f) then Some (-1, files)
      else
        nfds ← round_up 30 1 nr;
        let nfds := if NR_OPEN_MAX <? nfds then NR_OPEN_MAX else nfds in
        if negb (mem 0%nat && mem 1%nat && mem 2%nat && mem 3%nat) then Some (-1, files)
        else
          let n := max_fds (fdt f) in
          nfd ← copy_words (Z.to_nat n) 0 (fd (fdt f)) (replicate (Z.to_nat nfds) 0);
          ncl ← copy_words (Z.to_nat (words n)) 0 (close_on_exec (fdt f))
                  (replicate (Z.to_nat (words nfds)) 0);
          nop ← copy_words (Z.to_nat (words n)) 0 (open_fds (fdt f))
                  (replicate (Z.to_nat (words nfds)) 0);
          Some (0, Some (mk_files (f_refs f) (mk_fdt nfds nfd ncl nop) false (next_fd f)))
  end.

(** ** Descriptor allocation *)

(** [while (fd < max_fds) { if (fd[fd] == NULL) ...; fd++; }]: the first NULL slot
    among the [n] slots from [i] on. *)
Fixpoint find_null (n : nat) (i : Z) (l : list Z) : option (option Z) :=
  match n with
  | O => Some None
  | S n' => x ← aget l i; if x =? 0 then Some (Some i) else find_null n' (i + 1) l
  end.

(** Marking descriptor [i]: the two bitmaps and [next_fd]. *)
Definition take_fd (f : files_struct) (i flags : Z) : option files_struct :=
  op ← set_bit_at 32 (open_fds (fdt f)) i;
  let f := with_open op f in
  cl ← (if has_flag flags O_CLOEXEC
        then set_bit_at 32 (close_on_exec (fdt f)) i
        else clear_bit_at 32 (close_on_exec (fdt f)) i);
  let f := with_cloexec cl f in
  Some (if next_fd f <=? i then with_next (i + 1) f else f).

Definition alloc_fd (mem : nat -> bool) (files : option files_struct) (start flags : Z)
    : option (Z * option files_struct) :=
  match files with
  | None => Some (-1, None)
  | Some f =>
      let n := max_fds (fdt f) in
      if u32 start <? n then
        r ← find_null (Z.to_nat (n - start)) start (fd (fdt f));
        match r with
        | Some i => f ← take_fd f i flags; Some (i, Some f)
        | None =>
            '(ret, files) ← expand_files mem files (n + 1);
            if ret <? 0 then Some (-1, files)
            else match files with
                 | None => None
                 | Some f => f ← take_fd f n flags; Some (n, Some f)
                 end
        end
      else
        '(ret, files) ← expand_files mem files (start + 1);
        if ret <? 0 then Some (-1, files)
        else match files with
             | None => None
             | Some f => f ← take_fd f start flags; Some (start, Some f)
             end
  end.

(** [free_fd], with the files given to [vfs_close]. *)
Definition free_fd (files : option files_struct) (i : Z) : option (option files_struct * list Z) :=
  match files with
  | None => Some (None, [])
  | Some f =>
      if (i <? 0) || (max_fds (fdt f) <=? i) then Some (files, [])
      else
        x ← aget (fd (fdt f)) i;
        '(f, closed) ← (if x =? 0 then Some (f, [])
                        else l ← aset (fd (fdt f)) i 0; Some (with_fd l f, [x]));
        op ← clear_bit_at 32 (open_fds (fdt f)) i;
        let f := with_open op f in
        cl ← clear_bit_at 32 (close_on_exec (fdt f)) i;
        let f := with_cloexec cl f in
        Some (Some (if i <? next_fd f then with_next i f else f), closed)
  end.

(** ** System calls of the current task, whose table is [files] *)

Definition fget (files : option files_struct) (i : Z) : option Z :=
  match files with
  | None => Some 0
  | Some f =>
      if (i <? 0) || (max_fds (fdt f) <=? i) then Some 0 else aget (fd (fdt f)) i
  end.

Definition sys_close (files : option files_struct) (i : Z)
    : option (Z * option files_struct * list Z) :=
  match files with
  | None => Some (-1, None, [])
  | Some f =>
      if (i <? 0) || (max_fds (fdt f) <=? i) then Some (-1, files, [])
      else '(files, closed) ← free_fd files i; Some (0, files, closed)
  end.

Definition sys_dup (mem : nat -> bool) (files : option files_struct) (oldfd : Z)
    : option (Z * option files_struct) :=
  match files with
  | None => Some (-1, None)
  | Some f =>
      if (oldfd <? 0) || (max_fds (fdt f) <=? oldfd) then Some (-1, files)
      else
        file ← aget (fd (fdt f)) oldfd;
        if file =? 0 then Some (-1, files)
        else
          '(newfd, files) ← alloc_fd mem files 0 0;
          if newfd <? 0 then Some (-1, files)
          else match files with
               | None => None
               | Some f => l ← aset (fd (fdt f)) newfd file; Some (newfd, Some (with_fd l f))
               end
  end.

Definition sys_dup2 (mem : nat -> bool) (files : option files_struct) (oldfd newfd : Z)
    : option (Z * option files_struct * list Z) :=
  match files with
  | None => Some (-1, None, [])
  | Some f =>
      if (oldfd <? 0) || (max_fds (fdt f) <=? oldfd) || (newfd <? 0) then Some (-1, files, [])
      else
        file ← aget (fd (fdt f)) oldfd;
        if file =? 0 then Some (-1, files, [])
        else if oldfd =? newfd then Some (newfd, files, [])
        else
          '(ret, files) ← (if max_fds (fdt f) <=? newfd
                           then expand_files mem files (newfd + 1) else Some (0, files));
          if ret <? 0 then Some (-1, files, [])
          else match files with
               | None => None
               | Some f =>
                   x ← aget (fd (fdt f)) newfd;
                   '(files, closed) ← (if x =? 0 then Some (Some f, []) else free_fd (Some f) newfd);
                   match files with
                   | None => None
                   | Some f =>
                       l ← aset (fd (fdt f)) newfd file;
                       let f := with_fd l f in
                       op ← set_bit_at 32 (open_fds (fdt f)) newfd;
                       let f := with_open op f in
                       cl ← clear_bit_at 32 (close_on_exec (fdt f)) newfd;
                       let f := with_cloexec cl f in
                       Some (newfd, Some (if next_fd f <=? newfd then with_next (newfd + 1) f else f),
                             closed)
                   end
               end
  end.

(** The result of [sys_fcntl]: value, table, open files, files closed. *)
Definition sys_fcntl (mem : nat -> bool) (files : option files_struct) (fs : gmap Z file)
    (i cmd arg : Z) : option (Z * option files_struct * gmap Z file * list Z) :=
  match files with
  | None => Some (-1, None, fs, [])
  | Some f =>
      if (i <? 0) || (max_fds (fdt f) <=? i) then Some (-1, files, fs, [])
      else
        x ← aget (fd (fdt f)) i;
        if x =? 0 then Some (-1, files, fs, [])
        else if cmd =? F_DUPFD then
          res ← sys_dup2 mem files i (s32 arg);
          let '(r, files, closed) := res in Some (r, files, fs, closed)
        else if cmd =? F_GETFD then
          b ← bit_at 32 (close_on_exec (fdt f)) i;
          Some (if (b : bool) then FD_CLOEXEC else 0, files, fs, [])
        else if cmd =? F_SETFD then
          cl ← (if has_flag arg FD_CLOEXEC
                then set_bit_at 32 (close_on_exec (fdt f)) i
                else clear_bit_at 32 (close_on_exec (fdt f)) i);
          Some (0, Some (with_cloexec cl f), fs, [])
        else if cmd =? F_GETFL then
          o ← (fs !! x : option file); Some (s32 (f_flags o), files, fs, [])
        else if cmd =? F_SETFL then
          o ← (fs !! x : option file);
          let fl := Z.lor (Z.land (f_flags o) (Z.lnot O_ACCMODE)) (Z.land arg O_ACCMODE) in
          Some (0, files, <[x := mk_file (f_pos o) (u32 fl) (i_size o)]> fs, [])
        else Some (-1, files, fs, [])
  end.

Definition SEEK_SET : Z := 0.
Definition SEEK_CUR : Z := 1.
Definition SEEK_END : Z := 2.

(** [sys_lseek]: positions are 64-bit, the offset and the result 32-bit. *)
Definition sys_lseek (files : option files_struct) (fs : gmap Z file) (i offset whence : Z)
    : option (Z * gmap Z file) :=
  x ← fget files i;
  if x =? 0 then Some (-1, fs)
  else
    o ← (fs !! x : option file);
    match (if whence =? SEEK_SET then Some offset
           else if whence =? SEEK_CUR then Some (swrap 64 (f_pos o + offset))
           else if whence =? SEEK_END then Some (swrap 64 (i_size o + offset))
           else None) with
    | None => Some (-1, fs)
    | Some pos =>
        if pos <? 0 then Some (-1, fs)
        else Some (s32 pos, <[x := mk_file pos (f_flags o) (i_size o)]> fs)
    end.

End FileTable.
