(* ===== verification/FileTableSpec.v ===== *)
(** What the descriptor table promises: a finite map from descriptors to an open
    file and its close-on-exec flag, on which [close], [dup], [dup2] and the
    descriptor flags of [fcntl] act; [sys_close], [sys_dup], [sys_dup2] and
    [sys_fcntl] simulate it as long as the bitmaps have a bit for the descriptor. *)

From S2P Require Import Prelude FileTable.

Module FileTableSpec.
Import FileTable.

(** ** Well-formed tables and their abstract view *)

(** Number of descriptors the two bitmaps have a bit for. *)
Definition capacity (f : files_struct) : Z := 32 * Z.of_nat (length (open_fds (fdt f))).

(** The file and the close-on-exec flag of descriptor [i]. *)
Definition view (f : files_struct) (i : Z) : option (Z * bool) :=
  x ← aget (fd (fdt f)) i;
  if x =? 0 then None else b ← bit_at 32 (close_on_exec (fdt f)) i; Some (x, b : bool).

Record Wf (f : files_struct) : Prop := {
  wf_len : Z.of_nat (length (fd (fdt f))) = max_fds (fdt f);
  wf_max : max_fds (fdt f) <= NR_OPEN_MAX;
  wf_maps : length (close_on_exec (fdt f)) = length (open_fds (fdt f));
  wf_open : forall i x, aget (fd (fdt f)) i = Some x -> x <> 0 ->
              bit_at 32 (open_fds (fdt f)) i = Some true
}.

Record Rep (f : files_struct) (m : gmap Z (Z * bool)) : Prop := {
  rep_wf : Wf f;
  rep_view : forall i, m !! i = view f i
}.

(** ** The specification *)

Inductive call :=
| Close (i : Z)
| Dup (i : Z)
| Dup2 (i j : Z)
| GetFd (i : Z)
| SetFd (i arg : Z).

(** The lowest of the [n] descriptors from [i] on that is not open. *)
Fixpoint lowest (m : gmap Z (Z * bool)) (i : Z) (n : nat) : option Z :=
  match n with
  | O => None
  | S n' => match m !! i with None => Some i | Some _ => lowest m (i + 1) n' end
  end.

Definition file_at (m : gmap Z (Z * bool)) (i : Z) : list Z :=
  match m !! i with Some (x, _) => [x] | None => [] end.

(** Result, new map and the files closed, in a table of [n] descriptors. *)
Definition spec_step (n : Z) (m : gmap Z (Z * bool)) (c : call) : Z * gmap Z (Z * bool) * list Z :=
  match c with
  | Close i =>
      if (i <? 0) || (n <=? i) then (-1, m, []) else (0, delete i m, file_at m i)
  | Dup i =>
      match m !! i, lowest m 0 (Z.to_nat n) with
      | Some (x, _), Some j => (j, <[j := (x, false)]> m, [])
      | _, _ => (-1, m, [])
      end
  | Dup2 i j =>
      match m !! i with
      | Some (x, _) =>
          if j <? 0 then (-1, m, [])
          else if i =? j then (j, m, [])
          else (j, <[j := (x, false)]> m, file_at m j)
      | None => (-1, m, [])
      end
  | GetFd i =>
      (match m !! i with Some (_, true) => FD_CLOEXEC | Some (_, false) => 0 | None => -1 end, m, [])
  | SetFd i arg =>
      match m !! i with
      | Some (x, _) => (0, <[i := (x, has_flag arg FD_CLOEXEC)]> m, [])
      | None => (-1, m, [])
      end
  end.

(** The descriptor a call marks has a bit in the bitmaps, and no growth is needed. *)
Definition in_scope (n cap : Z) (m : gmap Z (Z * bool)) (c : call) : Prop :=
  match c with
  | Close i => i < cap \/ n <= i
  | Dup i => m !! i = None \/ exists j, lowest m 0 (Z.to_nat n) = Some j /\ j < cap
  | Dup2 i j => m !! i = None \/ j < 0 \/ i = j \/ j < n /\ j < cap
  | GetFd _ | SetFd _ _ => True
  end.

Definition code_step (mem : nat -> bool) (f : files_struct) (c : call)
    : option (Z * option files_struct * list Z) :=
  match c with
  | Close i => sys_close (Some f) i
  | Dup i => '(r, f) ← sys_dup mem (Some f) i; Some (r, f, [])
  | Dup2 i j => sys_dup2 mem (Some f) i j
  | GetFd i =>
      res ← sys_fcntl mem (Some f) ∅ i F_GETFD 0;
      let '(r, f, _, closed) := res in Some (r, f, closed)
  | SetFd i arg =>
      res ← sys_fcntl mem (Some f) ∅ i F_SETFD arg;
      let '(r, f, _, closed) := res in Some (r, f, closed)
  end.

(** ** Views *)

Lemma view_Some f i x b :
  view f i = Some (x, b) <->
  aget (fd (fdt f)) i = Some x /\ x <> 0 /\ bit_at 32 (close_on_exec (fdt f)) i = Some b.
Proof.
  unfold view. split.
  - intros (y & -> & H)%bind_Some. destruct (Z.eqb_spec y 0); [done|].
    destruct (bit_at 32 _ i); naive_solver.
  - intros (-> & Hx & Hb). rewrite bind_Some_l. destruct (Z.eqb_spec x 0); [done|]. by rewrite Hb.
Qed.

Lemma bit_at_Some a i : 0 <= i < 32 * Z.of_nat (length a) -> is_Some (bit_at 32 a i).
Proof.
  intros Hi. unfold bit_at. destruct (aget_Some a (i / 32)) as [x Hx].
  - split; [apply Z.div_pos; lia|apply Z.div_lt_upper_bound; lia].
  - rewrite Hx. simpl. eauto.
Qed.

Lemma bit_at_range a i b : bit_at 32 a i = Some b -> 0 <= i < 32 * Z.of_nat (length a).
Proof.
  unfold bit_at. intros (x & Hx%aget_range & _)%bind_Some.
  pose proof (Z.div_mod i 32). pose proof (Z.mod_pos_bound i 32). lia.
Qed.

Section Table.
Context (f : files_struct) (Hwf : Wf f).

Lemma wf_bit i x : aget (fd (fdt f)) i = Some x -> x <> 0 -> 0 <= i < capacity f.
Proof. intros Hi Hx. eapply bit_at_range, (wf_open f Hwf); eauto. Qed.

(** In a well-formed table a slot has a view exactly when it holds a file. *)
Lemma view_None i : view f i = None <-> forall x, aget (fd (fdt f)) i = Some x -> x = 0.
Proof.
  split.
  - intros Hv x Hx. destruct (decide (x = 0)) as [|Hn]; [done|]. exfalso.
    pose proof (wf_bit i x Hx Hn) as Hr.
    destruct (bit_at_Some (close_on_exec (fdt f)) i) as [b Hb].
    { rewrite (wf_maps f Hwf). apply Hr. }
    rewrite (proj2 (view_Some f i x b)) in Hv; done.
  - intros H. destruct (view f i) as [[x b]|] eqn:E; [|done].
    apply view_Some in E as (Hx & Hn & _). by apply H in Hx.
Qed.

Lemma view_get i x : aget (fd (fdt f)) i = Some x -> x <> 0 -> exists b, view f i = Some (x, b).
Proof.
  intros Hx Hn. destruct (view f i) as [[y b]|] eqn:E.
  - apply view_Some in E as (Hy & _). exists b. naive_solver.
  - by rewrite view_None in E; apply E in Hx.
Qed.

Lemma slot i : 0 <= i < max_fds (fdt f) -> exists x, aget (fd (fdt f)) i = Some x.
Proof. intros. apply aget_Some. rewrite (wf_len f Hwf). done. Qed.

Lemma view_in_table i : max_fds (fdt f) <= i \/ i < 0 -> view f i = None.
Proof. intros Hi. apply view_None. intros x Hx%aget_range. rewrite (wf_len f Hwf) in Hx. lia. Qed.
End Table.


Ltac proj := cbn [with_next with_fd with_cloexec with_open with_fdt
                  fdt fd max_fds close_on_exec open_fds fdt_own next_fd].

(** ** The bitmaps of one descriptor *)

(** [f'] is [f] except for the bitmaps at [i]: there the open bit is [o] and the
    close-on-exec bit is [c]. *)
Record marked (f f' : files_struct) (i : Z) (o c : bool) : Prop := {
  mk_fd_eq : fd (fdt f') = fd (fdt f);
  mk_max : max_fds (fdt f') = max_fds (fdt f);
  mk_own : fdt_own f' = fdt_own f;
  mk_lo : length (open_fds (fdt f')) = length (open_fds (fdt f));
  mk_lc : length (close_on_exec (fdt f')) = length (close_on_exec (fdt f));
  mk_open : forall j, bit_at 32 (open_fds (fdt f')) j
                      = if decide (j = i) then Some o else bit_at 32 (open_fds (fdt f)) j;
  mk_cl : forall j, bit_at 32 (close_on_exec (fdt f')) j
                    = if decide (j = i) then Some c else bit_at 32 (close_on_exec (fdt f)) j
}.

(** Writing one bit of a bitmap, to either value. *)
Lemma put_bit (b : bool) a i : 0 <= i < 32 * Z.of_nat (length a) ->
  exists a', (if b then set_bit_at 32 a i else clear_bit_at 32 a i) = Some a' /\
    length a' = length a /\
    forall j, bit_at 32 a' j = if decide (j = i) then Some b else bit_at 32 a j.
Proof.
  intros Hi. destruct b.
  - destruct (set_bit_Some 32 ltac:(lia) a i Hi) as [a' Ha]. exists a'.
    split; [done|]. split; [by eapply set_bit_length|]. intros. by apply bit_at_set.
  - destruct (clear_bit_Some 32 ltac:(lia) a i Hi) as [a' Ha]. exists a'.
    split; [done|]. split; [by eapply clear_bit_length|]. intros. by apply bit_at_clear.
Qed.

Lemma take_fd_ok f i flags : Wf f -> 0 <= i < capacity f ->
  exists f', take_fd f i flags = Some f' /\ marked f f' i true (has_flag flags O_CLOEXEC).
Proof.
  intros Hwf Hi. unfold take_fd.
  destruct (put_bit true (open_fds (fdt f)) i Hi) as (op & Ho & Hlo & Hbo). run Ho.
  destruct (put_bit (has_flag flags O_CLOEXEC) (close_on_exec (fdt f)) i) as (cl & Hc & Hlc & Hbc).
  { by rewrite (wf_maps f Hwf). }
  proj. run Hc.
  eexists; split; [reflexivity|]. destruct (next_fd _ <=? i); split; proj; done.
Qed.

(** Writing slot [i] of a table whose bitmaps are marked there. *)
Lemma install f f' m i x c l : Rep f m -> marked f f' i true c -> x <> 0 ->
  aset (fd (fdt f')) i x = Some l -> Rep (with_fd l f') (<[i := (x, c)]> m).
Proof.
  intros [Hwf Hm] [Hfd Hmax Hown Hlo Hlc Hop Hcl] Hx Hl.
  pose proof (aset_length _ _ _ _ Hl) as Hlen.
  assert (forall j, aget l j = if decide (j = i) then Some x else aget (fd (fdt f)) j) as Hget.
  { intros j. rewrite (aget_aset _ _ _ _ j Hl). by rewrite Hfd. }
  split; [split|]; proj.
  - rewrite Hlen, Hfd, Hmax. apply Hwf.
  - rewrite Hmax. apply Hwf.
  - rewrite Hlc, Hlo. apply Hwf.
  - intros j y. rewrite Hget, Hop. case_decide; [done|]. apply Hwf.
  - intros j. unfold view. proj.
    rewrite Hget, Hcl. case_decide as E; subst.
    + rewrite lookup_insert_eq, bind_Some_l. destruct (Z.eqb_spec x 0); done.
    + rewrite lookup_insert_ne by done. apply Hm.
Qed.

(** [find_null] finds the lowest descriptor that is not open. *)
Lemma find_null_lowest f m n i : Rep f m -> 0 <= i -> i + Z.of_nat n <= max_fds (fdt f) ->
  find_null n i (fd (fdt f)) = Some (lowest m i n).
Proof.
  intros [Hwf Hm]. revert i. induction n as [|n IH]; intros i Hi Hn; [done|]. cbn [find_null lowest].
  destruct (slot f Hwf i) as [x Hx]; [lia|]. run Hx. rewrite Hm.
  destruct (Z.eqb_spec x 0) as [->|Hne].
  - rewrite (proj2 (view_None f Hwf i)); [done|]. naive_solver.
  - destruct (view_get f Hwf i x Hx Hne) as [b ->]. apply IH; lia.
Qed.

Lemma lowest_spec m i n j : lowest m i n = Some j ->
  i <= j < i + Z.of_nat n /\ m !! j = None /\ forall k, i <= k < j -> is_Some (m !! k).
Proof.
  revert i. induction n as [|n IH]; intros i; cbn [lowest]; [done|].
  destruct (m !! i) as [e|] eqn:E.
  - intros (Hr & Hj & Hk)%IH. split; [lia|]. split; [done|]. intros k Hki.
    destruct (decide (k = i)) as [->|]; [eauto|]. apply Hk. lia.
  - intros [= <-]. split; [lia|]. split; [done|]. lia.
Qed.

(** The range guard of the system calls. *)
Lemma guard_false i n : 0 <= i < n -> (i <? 0) || (n <=? i) = false.
Proof. intros. destruct (Z.ltb_spec i 0), (Z.leb_spec n i); simpl; lia || done. Qed.
Lemma guard_true i n : i < 0 \/ n <= i -> (i <? 0) || (n <=? i) = true.
Proof. intros. destruct (Z.ltb_spec i 0), (Z.leb_spec n i); simpl; lia || done. Qed.
Lemma guard_dec i n : 0 <= i < n \/ (i < 0 \/ n <= i).
Proof. lia. Qed.

(** [free_fd] on a descriptor of the table that has a bit: the slot becomes NULL,
    both bits are cleared, and the file that was there is closed. *)
Lemma free_fd_ok f m i : Rep f m -> 0 <= i < max_fds (fdt f) -> i < capacity f ->
  exists f', free_fd (Some f) i = Some (Some f', file_at m i) /\ Rep f' (delete i m) /\ max_fds (fdt f') = max_fds (fdt f) /\ capacity f' = capacity f.
Proof.
  intros [Hwf Hm] Hi Hc. destruct (slot f Hwf i Hi) as [x Hx].
  assert (exists l, aset (fd (fdt f)) i 0 = Some l) as [l Hl].
  { rewrite aset_Some by (rewrite (wf_len f Hwf); lia). eauto. }
  assert (Hnop : x = 0 -> l = fd (fdt f)).
  { intros ->. rewrite aset_Some in Hl by (rewrite (wf_len f Hwf); lia). injection Hl as <-.
    apply list_insert_id. unfold aget in Hx. destruct (i <? 0); [done|]. done. }
  unfold free_fd. rewrite guard_false by done. run Hx.
  replace (if x =? 0 then Some (f, []) else _) with (Some (with_fd l f, file_at m i)).
  2:{ unfold file_at. rewrite Hm. destruct (Z.eqb_spec x 0) as [H0|Hn].
      - rewrite (proj2 (view_None f Hwf i)), (Hnop H0) by naive_solver. by destruct f as [? [] ? ?].
      - destruct (view_get f Hwf i x Hx Hn) as [b ->]. by rewrite Hl. }
  rewrite bind_Some_l. cbv beta iota. proj.
  destruct (put_bit false (open_fds (fdt f)) i) as (op & Ho & Hlo & Hbo); [unfold capacity in Hc; lia|].
  destruct (put_bit false (close_on_exec (fdt f)) i) as (cl & Hcl & Hlc & Hbc).
  { rewrite (wf_maps f Hwf). unfold capacity in Hc. lia. }
  run Ho. proj. run Hcl.
  eexists; split; [reflexivity|].
  assert (Hget := fun j => aget_aset _ _ _ _ j Hl).
  destruct (i <? _); unfold capacity; (split; [|proj; by rewrite Hlo]).
  all: split; [split|]; proj.
  all: try (rewrite (aset_length _ _ _ _ Hl); apply Hwf).
  all: try apply Hwf.
  all: try (rewrite Hlo, Hlc; apply Hwf).
  all: try (intros j y; rewrite Hget, Hbo; case_decide; [naive_solver|apply Hwf]).
  all: intros j; unfold view; proj; rewrite Hget, Hbc; case_decide as E;
    [subst; by rewrite lookup_delete_eq|rewrite lookup_delete_ne by done; apply Hm].
Qed.

(** [alloc_fd] when a descriptor from [start] on is free and has a bit. *)
Lemma alloc_fd_ok mem f m start flags j :
  Rep f m -> 0 <= start < max_fds (fdt f) ->
  lowest m start (Z.to_nat (max_fds (fdt f) - start)) = Some j -> j < capacity f ->
  exists f', alloc_fd mem (Some f) start flags = Some (j, Some f') /\ marked f f' j true (has_flag flags O_CLOEXEC).
Proof.
  intros HR Hs Hj Hc. pose proof (rep_wf _ _ HR) as Hwf. pose proof (wf_max f Hwf). unfold NR_OPEN_MAX in *.
  unfold alloc_fd. rewrite u32_small by lia. destruct (Z.ltb_spec start (max_fds (fdt f))); [|lia].
  rewrite (find_null_lowest f m), Hj by (done || lia). rewrite bind_Some_l.
  apply lowest_spec in Hj as (Hr & _).
  destruct (take_fd_ok f j flags Hwf) as (f' & Hf & Hmk); [lia|]. run Hf. eauto.
Qed.

(** A descriptor with no file: every call that takes it as its source refuses. *)
Lemma closed_slot f m i : Rep f m -> m !! i = None ->
  (i <? 0) || (max_fds (fdt f) <=? i) = true \/
  (i <? 0) || (max_fds (fdt f) <=? i) = false /\ aget (fd (fdt f)) i = Some 0.
Proof.
  intros [Hwf Hm] Hi. destruct (guard_dec i (max_fds (fdt f))) as [H|H].
  - right. split; [by apply guard_false|]. destruct (slot f Hwf i H) as [x Hx].
    rewrite Hm in Hi. rewrite (view_None f Hwf) in Hi. pose proof (Hi x Hx). congruence.
  - left. by apply guard_true.
Qed.

Lemma open_slot f m i x b : Rep f m -> m !! i = Some (x, b) ->
  0 <= i < max_fds (fdt f) /\ 0 <= i < capacity f /\ aget (fd (fdt f)) i = Some x /\ x <> 0 /\
  bit_at 32 (close_on_exec (fdt f)) i = Some b.
Proof.
  intros [Hwf Hm]. rewrite Hm, view_Some. intros (Hx & Hn & Hb).
  pose proof (aget_range _ _ _ Hx). rewrite (wf_len f Hwf) in *.
  pose proof (wf_bit f Hwf i x Hx Hn). naive_solver.
Qed.

(** What a simulation step has to deliver. *)
Definition simulates (f : files_struct) (res : option (Z * option files_struct * list Z))
    (out : Z * gmap Z (Z * bool) * list Z) : Prop :=
  exists f', res = Some (out.1.1, Some f', out.2) /\ Rep f' out.1.2 /\
    max_fds (fdt f') = max_fds (fdt f) /\ capacity f' = capacity f.

Lemma simulates_refl f m r closed : Rep f m -> simulates f (Some (r, Some f, closed)) (r, m, closed).
Proof. exists f. done. Qed.

Lemma close_sim mem f m i : Rep f m -> in_scope (max_fds (fdt f)) (capacity f) m (Close i) ->
  simulates f (code_step mem f (Close i)) (spec_step (max_fds (fdt f)) m (Close i)).
Proof.
  intros HR Hs. cbn [code_step spec_step in_scope] in *. unfold sys_close.
  destruct (guard_dec i (max_fds (fdt f))) as [H|H].
  - rewrite guard_false by done. destruct (free_fd_ok f m i HR H) as (f' & E & HR' & ? & ?); [lia|].
    run E. exists f'. done.
  - rewrite guard_true by done. by apply simulates_refl.
Qed.

(** Installing [x] in slot [i], whose bits are marked, as [dup] and [dup2] do. *)
Lemma install_sim f f' m i x c : Rep f m -> marked f f' i true c -> x <> 0 ->
  0 <= i < max_fds (fdt f) ->
  exists l, aset (fd (fdt f')) i x = Some l /\ Rep (with_fd l f') (<[i := (x, c)]> m) /\
    max_fds (fdt f') = max_fds (fdt f) /\ capacity f' = capacity f.
Proof.
  intros HR Hmk Hx Hi. eexists. split.
  { apply aset_Some. rewrite (mk_fd_eq _ _ _ _ _ Hmk), (wf_len f (rep_wf _ _ HR)). done. }
  split; [eapply install; eauto; apply aset_Some|].
  { rewrite (mk_fd_eq _ _ _ _ _ Hmk), (wf_len f (rep_wf _ _ HR)). done. }
  unfold capacity. by rewrite (mk_lo _ _ _ _ _ Hmk), (mk_max _ _ _ _ _ Hmk).
Qed.

Lemma dup_sim mem f m i : Rep f m -> in_scope (max_fds (fdt f)) (capacity f) m (Dup i) ->
  simulates f (code_step mem f (Dup i)) (spec_step (max_fds (fdt f)) m (Dup i)).
Proof.
  intros HR Hs. cbn [code_step spec_step in_scope] in *. unfold sys_dup.
  destruct (m !! i) as [[x b]|] eqn:Em.
  - destruct Hs as [?|(j & Hj & Hc)]; [done|]. rewrite Hj.
    destruct (open_slot f m i x b HR Em) as (Hi & _ & Hx & Hn & _).
    rewrite guard_false by done. run Hx. destruct (Z.eqb_spec x 0); [done|].
    assert (max_fds (fdt f) = max_fds (fdt f) - 0) as E0 by lia. rewrite E0 in Hj.
    pose proof (lowest_spec _ _ _ _ Hj) as (Hr & _).
    destruct (alloc_fd_ok mem f m 0 0 j HR) as (f' & E & Hmk); [lia..|done|done|]. run E.
    destruct (Z.ltb_spec j 0); [lia|].
    destruct (install_sim f f' m j x false HR Hmk Hn) as (l & Hl & HR' & ? & ?); [lia|].
    run Hl. rewrite bind_Some_l. exists (with_fd l f'). done.
  - destruct (closed_slot f m i HR Em) as [->|[-> Hx]]; [|run Hx]; by apply simulates_refl.
Qed.

(** The tail of [sys_dup2]: write the slot, then mark its bits. *)
Lemma dup2_tail f m j x : Rep f m -> x <> 0 -> 0 <= j < max_fds (fdt f) -> j < capacity f ->
  exists l op cl, aset (fd (fdt f)) j x = Some l /\
    set_bit_at 32 (open_fds (fdt f)) j = Some op /\
    clear_bit_at 32 (close_on_exec (fdt f)) j = Some cl /\
    forall n, Rep (with_next n (with_cloexec cl (with_open op (with_fd l f)))) (<[j := (x, false)]> m) /\
      length op = length (open_fds (fdt f)).
Proof.
  intros HR Hx Hj Hc. pose proof (rep_wf _ _ HR) as Hwf. unfold capacity in Hc.
  destruct (put_bit true (open_fds (fdt f)) j) as (op & Ho & Hlo & Hbo); [lia|].
  destruct (put_bit false (close_on_exec (fdt f)) j) as (cl & Hcl & Hlc & Hbc).
  { rewrite (wf_maps f Hwf). lia. }
  destruct (install_sim f (with_cloexec cl (with_open op f)) m j x false HR) as (l & Hl & HR' & _);
    [by split|done|done|].
  exists l, op, cl. repeat split_and; try done. intros n. split; [|done].
  destruct HR' as [[] Hv]. by split; [split|].
Qed.

Lemma dup2_sim mem f m i j : Rep f m -> in_scope (max_fds (fdt f)) (capacity f) m (Dup2 i j) ->
  simulates f (code_step mem f (Dup2 i j)) (spec_step (max_fds (fdt f)) m (Dup2 i j)).
Proof.
  intros HR Hs. cbn [code_step spec_step in_scope] in *. unfold sys_dup2.
  destruct (m !! i) as [[x b]|] eqn:Em.
  2:{ destruct (closed_slot f m i HR Em) as [->|[-> Hx]]; [by apply simulates_refl|].
      cbn [orb]. destruct (j <? 0); [by apply simulates_refl|]. run Hx. by apply simulates_refl. }
  destruct (open_slot f m i x b HR Em) as (Hi & Hic & Hx & Hn & _).
  rewrite guard_false by done. cbn [orb].
  destruct (Z.ltb_spec j 0) as [|Hj0]; [by apply simulates_refl|]. run Hx.
  destruct (Z.eqb_spec x 0); [done|]. destruct (Z.eqb_spec i j) as [<-|Hne]; [by apply simulates_refl|].
  assert (0 <= j < max_fds (fdt f) /\ j < capacity f) as [Hj Hjc] by naive_solver lia.
  destruct (Z.leb_spec (max_fds (fdt f)) j); [lia|]. rewrite bind_Some_l. cbv beta iota. cbn [Z.ltb Z.compare].
  destruct (slot f (rep_wf _ _ HR) j Hj) as [y Hy]. run Hy.
  assert (exists f1 m1, (if y =? 0 then Some (Some f, []) else free_fd (Some f) j)
                        = Some (Some f1, file_at m j) /\ Rep f1 m1 /\
            <[j := (x, false)]> m1 = <[j := (x, false)]> m /\
            max_fds (fdt f1) = max_fds (fdt f) /\ capacity f1 = capacity f)
    as (f1 & m1 & E1 & HR1 & Em1 & Hmax & Hcap).
  { destruct (Z.eqb_spec y 0) as [->|Hy0].
    - exists f, m. split; [|done]. unfold file_at. rewrite (rep_view _ _ HR).
      by rewrite (proj2 (view_None f (rep_wf _ _ HR) j)) by naive_solver.
    - destruct (free_fd_ok f m j HR Hj Hjc) as (f' & E & HR' & ? & ?). exists f', (delete j m).
      split_and!; try done. apply insert_delete_eq. }
  run E1. destruct (dup2_tail f1 m1 j x HR1 Hn) as (l & op & cl & El & Eo & Ec & Hfin); [lia..|].
  run El. proj. run Eo. proj. run Ec.
  pose proof (fun n => proj2 (Hfin n)) as Hlen. rewrite Em1 in Hfin.
  eexists. split; [reflexivity|]. unfold capacity in *.
  destruct (next_fd _ <=? j); proj; (split; [|by rewrite (Hlen 0)]).
  - apply Hfin.
  - apply (Hfin (next_fd f1)).
Qed.

Lemma getfd_sim mem f m i : Rep f m ->
  simulates f (code_step mem f (GetFd i)) (spec_step (max_fds (fdt f)) m (GetFd i)).
Proof.
  intros HR. cbn [code_step spec_step]. unfold sys_fcntl.
  destruct (m !! i) as [[x b]|] eqn:Em.
  - destruct (open_slot f m i x b HR Em) as (Hi & _ & Hx & Hn & Hb).
    rewrite guard_false by done. run Hx. destruct (Z.eqb_spec x 0); [done|].
    cbn [Z.eqb F_GETFD F_DUPFD Pos.eqb]. run Hb. rewrite bind_Some_l. destruct b; by apply simulates_refl.
  - destruct (closed_slot f m i HR Em) as [->|[-> Hx]]; [|run Hx; cbn [Z.eqb]];
      rewrite bind_Some_l; by apply simulates_refl.
Qed.

Lemma setfd_sim mem f m i arg : Rep f m ->
  simulates f (code_step mem f (SetFd i arg)) (spec_step (max_fds (fdt f)) m (SetFd i arg)).
Proof.
  intros HR. cbn [code_step spec_step]. unfold sys_fcntl.
  destruct (m !! i) as [[x b]|] eqn:Em.
  - destruct (open_slot f m i x b HR Em) as (Hi & Hc & Hx & Hn & Hb).
    rewrite guard_false by done. run Hx. destruct (Z.eqb_spec x 0); [done|].
    cbn [Z.eqb F_SETFD F_GETFD F_DUPFD Pos.eqb].
    destruct (put_bit (has_flag arg FD_CLOEXEC) (close_on_exec (fdt f)) i) as (cl & Ecl & Hlc & Hbc).
    { rewrite (wf_maps f (rep_wf _ _ HR)). done. }
    run Ecl. rewrite bind_Some_l. destruct HR as [Hwf Hm].
    exists (with_cloexec cl f). split; [done|]. split; [|done]. split; [split|]; proj; try apply Hwf.
    + rewrite Hlc. apply Hwf.
    + intros k. cbn [fst snd]. unfold view. proj. rewrite Hbc. destruct (decide (k = i)) as [->|].
      * rewrite lookup_insert_eq, Hx, bind_Some_l. destruct (Z.eqb_spec x 0); done.
      * rewrite lookup_insert_ne by done. apply Hm.
  - destruct (closed_slot f m i HR Em) as [->|[-> Hx]]; [|run Hx; cbn [Z.eqb]];
      rewrite bind_Some_l; by apply simulates_refl.
Qed.

Lemma call_sim mem f m c : Rep f m -> in_scope (max_fds (fdt f)) (capacity f) m c ->
  simulates f (code_step mem f c) (spec_step (max_fds (fdt f)) m c).
Proof.
  intros HR Hs. destruct c.
  - by apply close_sim.
  - by apply dup_sim.
  - by apply dup2_sim.
  - by apply getfd_sim.
  - by apply setfd_sim.
Qed.

(** ** Growth *)

Lemma copy_words_ok n i src dst :
  0 <= i -> i + Z.of_nat n <= Z.of_nat (length src) -> i + Z.of_nat n <= Z.of_nat (length dst) ->
  exists r, copy_words n i src dst = Some r /\ length r = length dst /\
    forall j, aget r j = if decide (i <= j < i + Z.of_nat n) then aget src j else aget dst j.
Proof.
  revert i dst. induction n as [|n IH]; intros i dst Hi Hs Hd; cbn [copy_words].
  - exists dst. split_and!; try done. intros j. case_decide; [lia|done].
  - destruct (aget_Some src i) as [x Hx]; [lia|]. run Hx.
    pose proof (aset_Some dst i x ltac:(lia)) as E. run E.
    pose proof (aset_length _ _ _ _ E) as Hlen.
    destruct (IH (i + 1) (<[Z.to_nat i := x]> dst)) as (r & Hr & Hl & Hg); [lia|lia|lia|].
    exists r. split; [done|]. split; [congruence|]. intros j. rewrite Hg, (aget_aset _ _ _ _ j E).
    repeat case_decide; subst; try lia; done.
Qed.


Lemma round_up_ok k nfds nr : 0 < nfds -> nr <= nfds * 2 ^ Z.of_nat k ->
  exists e, round_up k nfds nr = Some (nfds * 2 ^ e) /\ 0 <= e /\ nr <= nfds * 2 ^ e /\
    (e = 0 \/ nfds * 2 ^ (e - 1) < nr).
Proof.
  revert nfds. induction k as [|k IH]; intros nfds Hp Hk; cbn [round_up].
  - destruct (Z.leb_spec nr nfds); [|simpl in Hk; lia].
    exists 0. rewrite Z.mul_1_r. split_and!; auto; lia.
  - destruct (Z.leb_spec nr nfds).
    + exists 0. rewrite Z.mul_1_r. split_and!; auto; lia.
    + destruct (IH (2 * nfds)) as (e & Hr & He & Hn & Hmin); [lia| |].
      { rewrite Nat2Z.inj_succ, Z.pow_succ_r in Hk by lia. lia. }
      exists (e + 1). rewrite Z.pow_add_r by lia.
      assert (nfds * (2 ^ e * 2 ^ 1) = 2 * nfds * 2 ^ e) as -> by lia.
      split_and!; auto; try lia. right. replace (e + 1 - 1) with e by lia.
      destruct Hmin as [->|Hm]; [lia|].
      replace e with (e - 1 + 1) at 1 by lia. destruct (decide (e = 0)) as [->|]; [lia|].
      rewrite Z.pow_add_r by lia. lia.
Qed.

(** A copy that succeeds read and wrote inside both arrays. *)
Lemma copy_words_in n i src dst r : copy_words (S n) i src dst = Some r ->
  i + Z.of_nat (S n) <= Z.of_nat (length src) /\ i + Z.of_nat (S n) <= Z.of_nat (length dst).
Proof.
  revert i dst. induction n as [|n IH]; intros i dst; cbn [copy_words];
    intros (x & Hx & (d & Hd & Hr)%bind_Some)%bind_Some.
  all: pose proof (aget_range _ _ _ Hx).
  all: unfold aset in Hd; destruct ((i <? 0) || _) eqn:Eg in Hd; [done|].
  all: apply orb_false_elim in Eg as [_ Eg%Z.leb_gt].
  - lia.
  - injection Hd as <-. apply IH in Hr. rewrite length_insert in Hr. lia.
Qed.

Lemma words_spec n : 32 * words n - 32 < n <= 32 * words n.
Proof. unfold words. pose proof (Z.div_mod (n + 31) 32). pose proof (Z.mod_pos_bound (n + 31) 32). lia. Qed.

(** Copying the bitmap words of [n] descriptors keeps their bits. *)
Lemma copy_bits n src dst : 0 <= n <= 32 * Z.of_nat (length src) -> words n <= Z.of_nat (length dst) ->
  exists r, copy_words (Z.to_nat (words n)) 0 src dst = Some r /\ length r = length dst /\
    forall j, 0 <= j < n -> bit_at 32 r j = bit_at 32 src j.
Proof.
  intros Hn Hl. pose proof (words_spec n) as Hw.
  destruct (copy_words_ok (Z.to_nat (words n)) 0 src dst) as (r & Hr & Hlr & Hg); [lia..|].
  exists r. split_and!; try done. intros j Hj. unfold bit_at. rewrite Hg.
  case_decide as E; [done|]. destruct E.
  pose proof (Z.div_mod j 32). pose proof (Z.mod_pos_bound j 32). lia.
Qed.

(** What growing a table to hold [nr] descriptors has to deliver. *)
Record grown (f f' : files_struct) (m : gmap Z (Z * bool)) (nr : Z) : Prop := {
  gr_rep : Rep f' m;
  gr_room : nr <= max_fds (fdt f');
  gr_full : max_fds (fdt f') <= capacity f';
  gr_pow : exists e, 0 <= e /\ max_fds (fdt f') = 2 ^ e;
  gr_min : max_fds (fdt f') < 2 * nr;
  gr_next : next_fd f' = next_fd f
}.

Lemma expand_files_ok mem f m nr :
  Rep f m -> max_fds (fdt f) <= capacity f -> max_fds (fdt f) < nr <= NR_OPEN_MAX ->
  (forall k, mem k = true) ->
  exists f', expand_files mem (Some f) nr = Some (0, Some f') /\ grown f f' m nr.
Proof.
  intros [Hwf Hm] Hc Hnr Hmem. pose proof (wf_len f Hwf) as Hlen. unfold NR_OPEN_MAX, capacity in *.
  unfold expand_files. rewrite u32_small by lia.
  destruct (Z.leb_spec nr (max_fds (fdt f))); [lia|].
  destruct (round_up_ok 30 1 nr) as (e & He & He0 & Hne & Hmin); [lia..|]. rewrite !Z.mul_1_l in *. run He.
  assert (2 ^ e <= 1024) as Hle.
  { change 1024 with (2 ^ 10). apply Z.pow_le_mono_r; [lia|]. destruct (decide (e <= 10)); [done|].
    destruct Hmin as [|Hmin]; [lia|]. pose proof (Z.pow_le_mono_r 2 10 (e - 1)). lia. }
  unfold NR_OPEN_MAX. destruct (Z.ltb_spec 1024 (2 ^ e)); [lia|]. rewrite !Hmem. cbn [negb andb].
  pose proof (words_spec (2 ^ e)) as Hw. pose proof (words_spec (max_fds (fdt f))).
  destruct (copy_words_ok (Z.to_nat (max_fds (fdt f))) 0 (fd (fdt f)) (replicate (Z.to_nat (2 ^ e)) 0))
    as (nfd & Ef & Hlf & Hgf); [|lia|rewrite length_replicate; lia|]; [lia|]. run Ef.
  assert (words (max_fds (fdt f)) <= Z.of_nat (length (replicate (Z.to_nat (words (2 ^ e))) 0))) as Hwd.
  { rewrite length_replicate. lia. }
  destruct (copy_bits (max_fds (fdt f)) (close_on_exec (fdt f)) _ ltac:(rewrite (wf_maps f Hwf); lia) Hwd)
    as (ncl & Ecl & Hlcl & Hgcl). run Ecl.
  destruct (copy_bits (max_fds (fdt f)) (open_fds (fdt f)) _ ltac:(lia) Hwd)
    as (nop & Eop & Hlop & Hgop). run Eop.
  rewrite length_replicate in *.
  assert (forall j x, aget nfd j = Some x -> x <> 0 -> 0 <= j < max_fds (fdt f) /\ aget (fd (fdt f)) j = Some x)
    as Hold.
  { intros j x. rewrite Hgf. case_decide; [intros; split; [lia|done]|]. unfold aget.
    destruct (j <? 0); [done|]. intros [-> _]%lookup_replicate. done. }
  eexists; split; [reflexivity|]. split; proj; try lia; eauto.
  - split; [split|]; proj; unfold NR_OPEN_MAX; try lia; try congruence.
    + intros j x Hj Hx. destruct (Hold j x Hj Hx) as [Hr Ho]. rewrite Hgop by done. by apply (wf_open f Hwf j x).
    + intros j. rewrite Hm. unfold view. proj. rewrite Hgf.
      case_decide as Hr; [by rewrite Hgcl by lia|]. rewrite (aget_None (fd _)) by lia.
      unfold aget. destruct (j <? 0); [done|].
      destruct (replicate _ 0 !! Z.to_nat j) eqn:E; [|done]. apply lookup_replicate in E as [-> _]. done.
  - unfold capacity. proj. lia.
  - destruct Hmin as [->|Hmin]; [lia|]. replace e with (e - 1 + 1) at 1 by lia.
    destruct (decide (e = 0)) as [->|]; [lia|]. rewrite Z.pow_add_r by lia. lia.
Qed.

(** ** Runs of calls *)

Fixpoint spec_run (n : Z) (m : gmap Z (Z * bool)) (cs : list call)
    : list (Z * list Z) * gmap Z (Z * bool) :=
  match cs with
  | [] => ([], m)
  | c :: cs =>
      let out := spec_step n m c in
      let rest := spec_run n out.1.2 cs in
      ((out.1.1, out.2) :: rest.1, rest.2)
  end.

Fixpoint scoped (n cap : Z) (m : gmap Z (Z * bool)) (cs : list call) : Prop :=
  match cs with
  | [] => True
  | c :: cs => in_scope n cap m c /\ scoped n cap (spec_step n m c).1.2 cs
  end.

Fixpoint code_run (mem : nat -> bool) (f : files_struct) (cs : list call)
    : option (list (Z * list Z) * files_struct) :=
  match cs with
  | [] => Some ([], f)
  | c :: cs =>
      res ← code_step mem f c;
      match res with
      | (r, Some f', closed) => '(obs, f'') ← code_run mem f' cs; Some ((r, closed) :: obs, f'')
      | (_, None, _) => None
      end
  end.

(** A table with files 7, 8 and 9 open on descriptors 0, 1 and 3, the last with
    close-on-exec set. *)
Definition sample : files_struct :=
  mk_files 1 (mk_fdt 64 ([7; 8; 0; 9] ++ replicate 60 0) [8] [11]) true 4.
Definition sample_map : gmap Z (Z * bool) := 
  <[0 := (7, false)]> (<[1 := (8, false)]> (<[3 := (9, true)]> ∅)).

Lemma sample_slots i : 0 <= i < 64 ->
  aget (fd (fdt sample)) i
  = Some (if i =? 0 then 7 else if i =? 1 then 8 else if i =? 3 then 9 else 0).
Proof.
  intros Hi. replace i with (Z.of_nat (Z.to_nat i)) by lia.
  assert (Z.to_nat i < 64)%nat as Hn by lia. revert Hn. generalize (Z.to_nat i) as n. clear. intros n Hn.
  do 64 (destruct n as [|n]; [reflexivity|]). lia.
Qed.

Lemma sample_rep : Rep sample sample_map.
Proof.
  split; [split|].
  - done.
  - done.
  - done.
  - intros i x Hi Hx. pose proof (aget_range _ _ _ Hi) as Hr.
    change (Z.of_nat (length (fd (fdt sample)))) with 64 in Hr. rewrite sample_slots in Hi by done.
    injection Hi as <-. destruct (Z.eqb_spec i 0); [by subst|]. destruct (Z.eqb_spec i 1); [by subst|].
    destruct (Z.eqb_spec i 3); [by subst|]. done.
  - intros i. destruct (guard_dec i 64) as [Hi|Hi].
    + unfold view. rewrite sample_slots by done. unfold sample_map.
      destruct (Z.eqb_spec i 0) as [->|]; [by vm_compute|]. destruct (Z.eqb_spec i 1) as [->|]; [by vm_compute|].
      destruct (Z.eqb_spec i 3) as [->|]; [by vm_compute|].
      by rewrite !lookup_insert_ne by done.
    + unfold view. rewrite aget_None by (change (Z.of_nat (length (fd (fdt sample)))) with 64; lia).
      unfold sample_map. by rewrite !lookup_insert_ne by lia.
Qed.

(** C23: A run of [close], [dup], [dup2] and [fcntl] F_GETFD/F_SETFD calls on a
    descriptor table returns the results, and closes the files, that the abstract
    map from descriptors to (file, close-on-exec) prescribes, and ends in a table
    that represents the abstract map's final state; no call of the run faults. The
    runs are those in which the descriptors marked have a bit in the table's bitmaps
    and no growth is needed. *)
Theorem file_table_refines_spec mem f m cs :
  Rep f m -> scoped (max_fds (fdt f)) (capacity f) m cs ->
  exists f', code_run mem f cs = Some ((spec_run (max_fds (fdt f)) m cs).1, f') /\
    Rep f' (spec_run (max_fds (fdt f)) m cs).2.
Proof.
  revert f m. induction cs as [|c cs IH]; intros f m HR Hs; cbn [code_run spec_run scoped fst snd] in *.
  - eauto.
  - destruct Hs as [Hc Hs]. destruct (call_sim mem f m c HR Hc) as (f1 & E & HR1 & Hmax & Hcap).
    run E. destruct (IH f1 _ HR1) as (f2 & E2 & HR2); [by rewrite Hmax, Hcap|].
    rewrite Hmax in *. run E2. eauto.
Qed.

Lemma file_table_refines_spec_witness :
  exists f', code_run (fun _ => true) sample [Dup 1; SetFd 2 1; GetFd 2; Dup2 3 0; Close 1]
    = Some ([(2, []); (0, []); (1, []); (0, [7]); (0, [8])], f').
Proof.
  destruct (file_table_refines_spec (fun _ => true) sample sample_map
              [Dup 1; SetFd 2 1; GetFd 2; Dup2 3 0; Close 1] sample_rep) as (f' & E & _).
  - split; [right; exists 2; by vm_compute|]. split; [done|]. split; [done|].
    split; [by vm_compute; auto|]. split; [by vm_compute; auto|done].
  - exists f'. exact E.
Defined.

(** ** Allocation *)

Lemma lowest_complete m i n j : i <= j < i + Z.of_nat n -> m !! j = None ->
  (forall k, i <= k < j -> is_Some (m !! k)) -> lowest m i n = Some j.
Proof.
  revert i. induction n as [|n IH]; intros i Hr Hj Hk; [lia|]. cbn [lowest].
  destruct (decide (i = j)) as [->|]; [by rewrite Hj|].
  destruct (Hk i) as [e ->]; [lia|]. apply IH; [lia|done|]. intros k ?. apply Hk. lia.
Qed.

(** Marking a descriptor the bitmaps have no bit for is a fault. *)
Lemma take_fd_fault f i flags : capacity f <= i -> take_fd f i flags = None.
Proof.
  intros Hc. unfold take_fd, set_bit_at.
  rewrite aget_None; [done|]. right. apply Z.div_le_lower_bound; unfold capacity in Hc; lia.
Qed.

(** [alloc_fd] chooses the lowest descriptor from [start] on that is not open.
    If the bitmaps have a bit for it, it is returned with its open bit set and its
    close-on-exec bit as O_CLOEXEC says, every other bit and every slot unchanged,
    so that storing a file in its slot extends the abstract map with that file; if
    they have none, the write to the bitmap is out of bounds. *)
Theorem alloc_fd_lowest mem f m start flags j :
  Rep f m -> 0 <= start <= j -> j < max_fds (fdt f) ->
  m !! j = None -> (forall k, start <= k < j -> is_Some (m !! k)) ->
  (j < capacity f ->
     exists f', alloc_fd mem (Some f) start flags = Some (j, Some f') /\
       marked f f' j true (has_flag flags O_CLOEXEC) /\
       forall x, x <> 0 -> exists l, aset (fd (fdt f')) j x = Some l /\
         Rep (with_fd l f') (<[j := (x, has_flag flags O_CLOEXEC)]> m)) /\
  (capacity f <= j -> alloc_fd mem (Some f) start flags = None).
Proof.
  intros HR Hs Hmax Hj Hk.
  assert (lowest m start (Z.to_nat (max_fds (fdt f) - start)) = Some j) as Hl
    by (apply lowest_complete; [lia|done..]).
  split; intros Hc.
  - destruct (alloc_fd_ok mem f m start flags j HR) as (f' & E & Hmk); [lia|done..|].
    exists f'. split_and!; try done. intros x Hx.
    destruct (install_sim f f' m j x _ HR Hmk Hx) as (l & ? & ? & _); [lia|eauto].
  - pose proof (wf_max f (rep_wf _ _ HR)). unfold NR_OPEN_MAX in *.
    unfold alloc_fd. rewrite u32_small by lia. destruct (Z.ltb_spec start (max_fds (fdt f))); [|lia].
    rewrite (find_null_lowest f m), Hl by (done || lia). rewrite bind_Some_l. by rewrite take_fd_fault.
Qed.

Lemma alloc_fd_lowest_witness :
  exists f', alloc_fd (fun _ => true) (Some sample) 1 O_CLOEXEC = Some (2, Some f').
Proof.
  destruct (alloc_fd_lowest (fun _ => true) sample sample_map 1 O_CLOEXEC 2 sample_rep) as [H _].
  - lia.
  - by vm_compute.
  - by vm_compute.
  - intros k Hk. replace k with 1 by lia. exists (8, false). by vm_compute.
  - destruct H as (f' & E & _); [by vm_compute|]. exists f'. exact E.
Defined.

(** The table of a new task promises 64 descriptors but its embedded bitmaps
    have one 32-bit word each. So for every table that still is the embedded one,
    cloning it (fork) and growing it read outside the bitmaps, and once descriptors
    0 to 31 are open the next allocation writes outside them. *)
Theorem embedded_table_faults mem f m :
  Rep f m -> max_fds (fdt f) = NR_OPEN_DEFAULT -> length (open_fds (fdt f)) = 1%nat ->
  (forall k, mem k = true) ->
  files_clone mem (Some f) = None /\
  (forall nr, NR_OPEN_DEFAULT < nr <= NR_OPEN_MAX -> expand_files mem (Some f) nr = None) /\
  ((forall k, 0 <= k < 32 -> is_Some (m !! k)) -> m !! 32 = None ->
     forall flags, alloc_fd mem (Some f) 0 flags = None).
Proof.
  intros HR Hmax Hop Hmem. pose proof (rep_wf _ _ HR) as Hwf.
  assert (forall dst, copy_words (Z.to_nat (words (max_fds (fdt f)))) 0 (close_on_exec (fdt f)) dst = None)
    as Hcl.
  { intros dst. rewrite Hmax. change (Z.to_nat (words NR_OPEN_DEFAULT)) with 2%nat.
    destruct (copy_words 2 0 _ dst) as [r|] eqn:E; [|done].
    apply copy_words_in in E as [E _]. rewrite (wf_maps f Hwf), Hop in E. lia. }
  split_and!.
  - unfold files_clone, files_alloc. rewrite Hmem. destruct (copy_files _ _ _ _) as [nfd|]; [|done].
    rewrite bind_Some_l. by rewrite Hcl.
  - intros nr Hnr. unfold expand_files, NR_OPEN_DEFAULT, NR_OPEN_MAX in *. rewrite u32_small by lia.
    destruct (Z.leb_spec nr (max_fds (fdt f))); [lia|].
    destruct (round_up 30 1 nr) as [nfds|]; [|done]. rewrite bind_Some_l. rewrite !Hmem. cbn [negb andb].
    destruct (copy_words (Z.to_nat (max_fds (fdt f))) _ _ _) as [nfd|]; [|done].
    rewrite bind_Some_l. by rewrite Hcl.
  - intros Hfull H32 flags. pose proof (wf_max f Hwf). unfold NR_OPEN_DEFAULT, NR_OPEN_MAX in *.
    unfold alloc_fd. rewrite u32_small by lia. destruct (Z.ltb_spec 0 (max_fds (fdt f))); [|lia].
    rewrite (find_null_lowest f m), (lowest_complete m 0 _ 32) by (done || lia).
    rewrite bind_Some_l. rewrite take_fd_fault; [done|]. unfold capacity. lia.
Qed.

Lemma embedded_table_faults_witness : files_clone (fun _ => true) (Some sample) = None.
Proof.
  apply (embedded_table_faults (fun _ => true) sample sample_map sample_rep);
    [reflexivity|reflexivity|intros; reflexivity].
Defined.

(** Growing a table whose bitmaps cover all its descriptors to [nr] of them, at
    most 1024, succeeds when memory is available: the new size is the least power
    of two that is at least [nr], the new bitmaps cover it, and every open file and
    flag is kept. *)
Theorem expand_files_correct mem f m nr :
  Rep f m -> max_fds (fdt f) <= capacity f -> max_fds (fdt f) < nr <= NR_OPEN_MAX ->
  (forall k, mem k = true) ->
  exists f', expand_files mem (Some f) nr = Some (0, Some f') /\ grown f f' m nr.
Proof. apply expand_files_ok. Qed.

Definition empty_table (n : nat) : files_struct := mk_files 1 (mk_fdt (Z.of_nat n) (replicate n 0) [0] [0]) false 0.

Lemma empty_table_rep n : (n <= 1024)%nat -> Rep (empty_table n) ∅.
Proof.
  intros Hn. assert (forall i x, aget (replicate n 0) i = Some x -> x = 0) as H0.
  { intros i x. unfold aget. destruct (i <? 0); [done|]. by intros [-> _]%lookup_replicate. }
  split; [split|]; unfold NR_OPEN_MAX; cbn [empty_table fdt fd max_fds open_fds close_on_exec].
  - by rewrite length_replicate.
  - lia.
  - done.
  - intros i x Hi Hx. by apply H0 in Hi.
  - intros i. rewrite lookup_empty. unfold view. cbn [empty_table fdt fd].
    destruct (aget (replicate n 0) i) eqn:E; [|done]. apply H0 in E as ->. done.
Qed.

Lemma expand_files_correct_witness :
  exists f', expand_files (fun _ => true) (Some (empty_table 32)) 33 = Some (0, Some f') /\
    max_fds (fdt f') < 66.
Proof.
  destruct (expand_files_correct (fun _ => true) (empty_table 32) ∅ 33) as (f' & E & G).
  - apply empty_table_rep. lia.
  - by vm_compute.
  - by vm_compute.
  - intros; reflexivity.
  - exists f'. split; [exact E|]. destruct G. lia.
Defined.

(** ** Descriptors that share a file *)

Lemma fget_open f m i x b : Rep f m -> m !! i = Some (x, b) -> fget (Some f) i = Some x.
Proof.
  intros HR Hi. destruct (open_slot f m i x b HR Hi) as (Hr & _ & Hx & _).
  unfold fget. by rewrite guard_false.
Qed.

(** Two descriptors of one file, as [dup] makes them, share its position: after
    a successful [lseek] through one, asking for the position through the other
    returns what that [lseek] returned. *)
Theorem dup_shares_position f m fs i j x b b' off whence r fs' :
  Rep f m -> m !! i = Some (x, b) -> m !! j = Some (x, b') ->
  - 2 ^ 31 <= off < 2 ^ 31 ->
  sys_lseek (Some f) fs i off whence = Some (r, fs') -> fs' <> fs ->
  sys_lseek (Some f) fs' j 0 SEEK_CUR = Some (r, fs').
Proof.
  intros HR Hi Hj Hoff E Hne. unfold sys_lseek in *.
  rewrite (fget_open f m i x b HR Hi) in E. rewrite (fget_open f m j x b' HR Hj). rewrite bind_Some_l in *.
  destruct (Z.eqb_spec x 0); [naive_solver|].
  apply bind_Some in E as (o & Ho & E).
  destruct (if whence =? SEEK_SET then _ else _) as [pos|] eqn:Ep; [|naive_solver].
  destruct (Z.ltb_spec pos 0) as [|Hpos]; [naive_solver|]. injection E as <- <-.
  rewrite lookup_insert_eq, bind_Some_l. cbn [Z.eqb SEEK_CUR SEEK_SET Pos.eqb f_pos f_flags i_size].
  assert (swrap 64 (pos + 0) = pos) as ->.
  { rewrite Z.add_0_r. assert (pos < 2 ^ 63) as Hlt.
    { repeat case_match; try done; injection Ep as <-; [lia|..].
      all: match goal with |- swrap 64 ?z < _ =>
             unfold swrap; pose proof (Z.mod_pos_bound (z + 2 ^ (64 - 1)) (2 ^ 64)); lia end. }
    unfold swrap. rewrite Z.mod_small; lia. }
  destruct (Z.ltb_spec pos 0); [lia|]. by rewrite insert_insert_eq.
Qed.

(** [sample] after [dup(1)]: descriptors 1 and 2 share file 8. *)
Lemma sample_dup : exists f', sys_dup (fun _ => true) (Some sample) 1 = Some (2, Some f') /\
  Rep f' (<[2 := (8, false)]> sample_map).
Proof.
  destruct (dup_sim (fun _ => true) sample sample_map 1 sample_rep) as (f' & E & HR & _).
  { right. exists 2. by vm_compute. }
  exists f'. split; [|exact HR]. cbn [code_step] in E.
  apply bind_Some in E as ([r f1] & E1 & E). rewrite E1. by simplify_eq.
Qed.

Lemma dup_shares_position_witness :
  exists f' fs', sys_lseek (Some f') {[ 8 := mk_file 5 0 100 ]} 1 20 SEEK_CUR = Some (25, fs') /\
    sys_lseek (Some f') fs' 2 0 SEEK_CUR = Some (25, fs').
Proof.
  destruct sample_dup as (f' & _ & HR).
  exists f', (<[8 := mk_file 25 0 100]> {[ 8 := mk_file 5 0 100 ]}).
  assert (sys_lseek (Some f') {[ 8 := mk_file 5 0 100 ]} 1 20 SEEK_CUR
          = Some (25, <[8 := mk_file 25 0 100]> {[ 8 := mk_file 5 0 100 ]})) as E.
  { unfold sys_lseek. by rewrite (fget_open f' _ 1 8 false HR). }
  split; [exact E|].
  apply (dup_shares_position f' _ {[ 8 := mk_file 5 0 100 ]} 1 2 8 false false 20 SEEK_CUR 25 _ HR);
    [reflexivity|reflexivity|lia|exact E|].
  intros H. apply (f_equal (fun m : gmap Z file => m !! 8)) in H. by vm_compute in H.
Defined.

(** There is no count of the descriptors that share a file: closing one of them
    closes the file, which the other one still designates. *)
Theorem close_ignores_sharing f m i j x b b' :
  Rep f m -> m !! i = Some (x, b) -> m !! j = Some (x, b') -> i <> j ->
  exists f', sys_close (Some f) i = Some (0, Some f', [x]) /\ fget (Some f') j = Some x.
Proof.
  intros HR Hi Hj Hij. destruct (open_slot f m i x b HR Hi) as (Hr & Hc & _).
  destruct (close_sim (fun _ => true) f m i HR) as (f' & E & HR' & _); [left; lia|].
  exists f'. cbn [code_step spec_step] in E, HR'. rewrite guard_false in E, HR' by done.
  cbn [fst snd] in E, HR'. unfold file_at in E. rewrite Hi in E. split; [done|].
  apply (fget_open f' (delete i m) j x b' HR'). by rewrite lookup_delete_ne.
Qed.

Lemma close_ignores_sharing_witness :
  exists f' f'', sys_close (Some f') 1 = Some (0, Some f'', [8]) /\ fget (Some f'') 2 = Some 8.
Proof.
  destruct sample_dup as (f' & _ & HR). exists f'.
  apply (close_ignores_sharing f' _ 1 2 8 false false HR); [reflexivity|reflexivity|lia].
Defined.

(** [fcntl] with F_DUPFD does not look for a free descriptor from [arg] on: it
    is [dup2], so when descriptor [arg] is open its file is closed and replaced. *)
Theorem fcntl_dupfd_replaces mem f m fs i j x y b b' :
  Rep f m -> m !! i = Some (x, b) -> m !! j = Some (y, b') -> i <> j ->
  exists f', sys_fcntl mem (Some f) fs i F_DUPFD j = Some (j, Some f', fs, [y]) /\
    fget (Some f') j = Some x.
Proof.
  intros HR Hi Hj Hij. destruct (open_slot f m i x b HR Hi) as (Hr & _ & Hx & Hn & _).
  destruct (open_slot f m j y b' HR Hj) as (Hrj & Hcj & _).
  pose proof (wf_max f (rep_wf _ _ HR)). unfold NR_OPEN_MAX in *.
  destruct (dup2_sim mem f m i j HR) as (f' & E & HR' & _); [naive_solver lia|].
  cbn [code_step spec_step] in E, HR'. rewrite Hi in E, HR'. unfold file_at in E. rewrite Hj in E.
  destruct (Z.ltb_spec j 0); [lia|]. destruct (Z.eqb_spec i j); [done|]. cbn [fst snd] in E, HR'.
  exists f'. unfold sys_fcntl. rewrite guard_false by done. run Hx. destruct (Z.eqb_spec x 0); [done|].
  cbn [Z.eqb F_DUPFD]. replace (s32 j) with j by (unfold s32, swrap; rewrite Z.mod_small; lia).
  run E. split; [done|]. apply (fget_open f' _ j x false HR'). apply lookup_insert_eq.
Qed.

Lemma fcntl_dupfd_replaces_witness :
  exists f', sys_fcntl (fun _ => true) (Some sample) ∅ 0 F_DUPFD 3 = Some (3, Some f', ∅, [9]) /\
    fget (Some f') 3 = Some 7.
Proof.
  apply (fcntl_dupfd_replaces (fun _ => true) sample sample_map ∅ 0 3 7 9 false true sample_rep);
    [reflexivity|reflexivity|lia].
Defined.

End FileTableSpec.
