(* ===== verification/KString.v ===== *)
(** The string and memory routines of [lib/string.c] over a byte-addressed memory. *)

From S2P Require Import Prelude.

Module KString.

(** ** Memory *)

(** The mapped bytes; an access to an address with no byte is a fault. *)
Notation mem := (gmap Z Z).

Definition load (m : mem) (p : Z) : option Z := m !! p.
Definition store (m : mem) (p v : Z) : option mem :=
  match m !! p with Some _ => Some (<[p := v]> m) | None => None end.

(** [char] is signed. *)
Definition schar (b : Z) : Z := swrap 8 b.

(** ** The routines *)

(** Loops bounded only by a terminator take fuel: [None] is a fault or no fuel
    left; the theorems show how much is enough. *)

(** [while ( *p != 0) p++;] *)
Fixpoint scan (fuel : nat) (p : Z) (m : mem) : option Z :=
  match fuel with
  | O => None
  | S fuel => c ← load m p; if c =? 0 then Some p else scan fuel (p + 1) m
  end.

(** [while (( *d++ = *src++) != 0);] *)
Fixpoint copy_str (fuel : nat) (d src : Z) (m : mem) : option mem :=
  match fuel with
  | O => None
  | S fuel =>
      c ← load m src;
      m ← store m d c;
      if c =? 0 then Some m else copy_str fuel (d + 1) (src + 1) m
  end.

Definition strcpy (fuel : nat) (dest src : Z) (m : mem) : option (Z * mem) :=
  m ← copy_str fuel dest src m; Some (dest, m).

(** [while (n > 0 && ( *d++ = *src++) != 0) n--;]: what is left of [n], and [d]. *)
Fixpoint copy_strn (n : nat) (d src : Z) (m : mem) : option (nat * Z * mem) :=
  match n with
  | O => Some (O, d, m)
  | S n' =>
      c ← load m src;
      m ← store m d c;
      if c =? 0 then Some (n, d + 1, m) else copy_strn n' (d + 1) (src + 1) m
  end.

(** [while (n > 0) { *d++ = c; n--; }] *)
Fixpoint fill (n : nat) (d c : Z) (m : mem) : option mem :=
  match n with
  | O => Some m
  | S n => m ← store m d c; fill n (d + 1) c m
  end.

Definition strncpy (dest src : Z) (n : nat) (m : mem) : option (Z * mem) :=
  res ← copy_strn n dest src m;
  let '(n, d, m) := res in
  m ← fill n d 0 m; Some (dest, m).

Definition strcat (fuel : nat) (dest src : Z) (m : mem) : option (Z * mem) :=
  d ← scan fuel dest m;
  m ← copy_str fuel d src m; Some (dest, m).

(** [while (n > 0 && ( *d = *src) != 0) { d++; src++; n--; }] *)
Fixpoint append_n (n : nat) (d src : Z) (m : mem) : option (Z * mem) :=
  match n with
  | O => Some (d, m)
  | S n =>
      c ← load m src;
      m ← store m d c;
      if c =? 0 then Some (d, m) else append_n n (d + 1) (src + 1) m
  end.

Definition strncat (fuel : nat) (dest src : Z) (n : nat) (m : mem) : option (Z * mem) :=
  d ← scan fuel dest m;
  '(d, m) ← append_n n d src m;
  m ← store m d 0; Some (dest, m).

Fixpoint strcmp (fuel : nat) (s1 s2 : Z) (m : mem) : option Z :=
  match fuel with
  | O => None
  | S fuel =>
      a ← load m s1;
      b ← load m s2;
      if negb (a =? 0) && (a =? b) then strcmp fuel (s1 + 1) (s2 + 1) m
      else Some (schar a - schar b)
  end.

Fixpoint strncmp (n : nat) (s1 s2 : Z) (m : mem) : option Z :=
  match n with
  | O => Some 0
  | S n =>
      a ← load m s1;
      b ← load m s2;
      if negb (a =? 0) && (a =? b) then strncmp n (s1 + 1) (s2 + 1) m
      else Some (schar a - schar b)
  end.

Definition strlen (fuel : nat) (s : Z) (m : mem) : option Z :=
  p ← scan fuel s m; Some (p - s).

(** The character sought is compared as an [int] with a signed [char]. *)
Fixpoint strchr (fuel : nat) (s c : Z) (m : mem) : option (option Z) :=
  match fuel with
  | O => None
  | S fuel =>
      a ← load m s;
      if a =? 0 then Some (if c =? 0 then Some s else None)
      else if schar a =? c then Some (Some s)
      else strchr fuel (s + 1) c m
  end.

Fixpoint search (fuel : nat) (haystack needle : Z) (len : nat) (m : mem) : option (option Z) :=
  match fuel with
  | O => None
  | S fuel =>
      a ← load m haystack;
      if a =? 0 then Some None
      else
        b ← load m needle;
        found ← (if a =? b then r ← strncmp len haystack needle m; Some (r =? 0) else Some false);
        if (found : bool) then Some (Some haystack) else search fuel (haystack + 1) needle len m
  end.

Definition strstr (fuel : nat) (haystack needle : Z) (m : mem) : option (option Z) :=
  len ← strlen fuel needle m;
  if len =? 0 then Some (Some haystack) else search fuel haystack needle (Z.to_nat len) m.

(** [while (n > 0) { *d++ = *s++; n--; }] and the same with [d--], [s--]. *)
Fixpoint copy_up (n : nat) (d s : Z) (m : mem) : option mem :=
  match n with
  | O => Some m
  | S n => c ← load m s; m ← store m d c; copy_up n (d + 1) (s + 1) m
  end.
Fixpoint copy_down (n : nat) (d s : Z) (m : mem) : option mem :=
  match n with
  | O => Some m
  | S n => c ← load m s; m ← store m d c; copy_down n (d - 1) (s - 1) m
  end.

Definition memcpy (dest src : Z) (n : nat) (m : mem) : option (Z * mem) :=
  m ← copy_up n dest src m; Some (dest, m).

Definition memmove (dest src : Z) (n : nat) (m : mem) : option (Z * mem) :=
  if dest <? src then m ← copy_up n dest src m; Some (dest, m)
  else if src <? dest then
    let k := Z.of_nat n - 1 in
    m ← copy_down n (dest + k) (src + k) m; Some (dest, m)
  else Some (dest, m).

Fixpoint memcmp (s1 s2 : Z) (n : nat) (m : mem) : option Z :=
  match n with
  | O => Some 0
  | S n =>
      a ← load m s1;
      b ← load m s2;
      if a =? b then memcmp (s1 + 1) (s2 + 1) n m else Some (a - b)
  end.

Definition memset (s c : Z) (n : nat) (m : mem) : option (Z * mem) :=
  m ← fill n s (u8 c) m; Some (s, m).

(** ** Regions and strings in memory *)

(** The bytes of [l] are at [p], [p + 1], ... *)
Fixpoint bytes_at (m : mem) (p : Z) (l : list Z) : Prop :=
  match l with [] => True | b :: l => m !! p = Some b /\ bytes_at m (p + 1) l end.

Definition mapped (m : mem) (p : Z) (n : nat) : Prop :=
  forall a, p <= a < p + Z.of_nat n -> is_Some (m !! a).

Definition char_ok (b : Z) : Prop := 0 < b < 256.
Definition str_at (m : mem) (p : Z) (s : list Z) : Prop :=
  bytes_at m p (s ++ [0]) /\ Forall char_ok s.

(** The memory after the [n] bytes at [d] were overwritten by those at [s]. *)
Definition moved (m m' : mem) (d s : Z) (n : nat) : Prop :=
  forall a, m' !! a = if decide (d <= a < d + Z.of_nat n) then m !! (s + (a - d)) else m !! a.

Lemma store_ok m p v : is_Some (m !! p) -> store m p v = Some (<[p := v]> m).
Proof. intros [w Hw]. unfold store. by rewrite Hw. Qed.

Lemma mapped_S m p n : mapped m p (S n) -> is_Some (m !! p) /\ mapped m (p + 1) n.
Proof. intros H. split; [apply H; lia|]. intros a ?. apply H. lia. Qed.

Lemma mapped_insert m p n a v : mapped m p n -> mapped (<[a := v]> m) p n.
Proof. intros H b Hb. destruct (decide (a = b)) as [->|]; [rewrite lookup_insert_eq|rewrite lookup_insert_ne by done]; eauto. Qed.

(** [runl E]: a load whose value [E : m !! p = Some v] gives. *)
Ltac runl E := unfold load; run E.

Create HintDb kmem.
#[export] Hint Resolve mapped_insert : kmem.

(** Copying upwards is right when the destination is not inside the source's tail. *)
Lemma copy_up_ok n d s m : mapped m s n -> mapped m d n -> d <= s \/ s + Z.of_nat n <= d ->
  exists m', copy_up n d s m = Some m' /\ moved m m' d s n.
Proof.
  revert d s m. induction n as [|n IH]; intros d s m Hs Hd Hdis; cbn [copy_up].
  - exists m. split; [done|]. intros a. case_decide; [lia|done].
  - apply mapped_S in Hs as [[c Hc] Hs]. apply mapped_S in Hd as [Hd0 Hd]. runl Hc.
    rewrite (store_ok _ _ _ Hd0), bind_Some_l. cbv beta.
    destruct (IH (d + 1) (s + 1) (<[d := c]> m)) as (m' & E & Hm); [eauto with kmem..|lia|].
    exists m'. split; [done|]. intros a. rewrite Hm.
    destruct (decide (d = a)) as [<-|].
    + rewrite lookup_insert_eq. rewrite decide_False, decide_True by lia. by rewrite Z.sub_diag, Z.add_0_r.
    + rewrite (lookup_insert_ne _ _ a) by done.
      replace (s + 1 + (a - (d + 1))) with (s + (a - d)) by lia.
      repeat case_decide; try lia; [|done]. by rewrite lookup_insert_ne by lia.
Qed.

(** Copying downwards is right when the source is not inside the destination's head. *)
Lemma copy_down_ok n d s m : mapped m s n -> mapped m d n -> s <= d \/ d + Z.of_nat n <= s ->
  exists m', copy_down n (d + (Z.of_nat n - 1)) (s + (Z.of_nat n - 1)) m = Some m' /\ moved m m' d s n.
Proof.
  revert m. induction n as [|n IH]; intros m Hs Hd Hdis; cbn [copy_down].
  - exists m. split; [done|]. intros a. case_decide; [lia|done].
  - replace (Z.of_nat (S n) - 1) with (Z.of_nat n) by lia.
    destruct (Hs (s + Z.of_nat n)) as [c Hc]; [lia|]. runl Hc.
    rewrite store_ok, bind_Some_l by (apply Hd; lia). cbv beta.
    destruct (IH (<[d + Z.of_nat n := c]> m)) as (m' & E & Hm).
    { apply mapped_insert. intros a ?. apply Hs. lia. }
    { apply mapped_insert. intros a ?. apply Hd. lia. }
    { lia. }
    rewrite !Z.add_sub_assoc in E. exists m'. split; [done|]. intros a. rewrite Hm.
    destruct (decide (d + Z.of_nat n = a)) as [<-|].
    + rewrite lookup_insert_eq. rewrite decide_False, decide_True by lia. rewrite <-Hc. f_equal. lia.
    + rewrite (lookup_insert_ne _ _ a) by done.
      repeat case_decide; try lia; [|done]. by rewrite lookup_insert_ne by lia.
Qed.

Lemma fill_ok n d c m : mapped m d n ->
  exists m', fill n d c m = Some m' /\
    forall a, m' !! a = if decide (d <= a < d + Z.of_nat n) then Some c else m !! a.
Proof.
  revert d m. induction n as [|n IH]; intros d m Hd; cbn [fill].
  - exists m. split; [done|]. intros a. case_decide; [lia|done].
  - apply mapped_S in Hd as [Hd0 Hd]. rewrite (store_ok _ _ _ Hd0), bind_Some_l. cbv beta.
    destruct (IH (d + 1) (<[d := c]> m)) as (m' & E & Hm); [eauto with kmem|].
    exists m'. split; [done|]. intros a. rewrite Hm.
    destruct (decide (d = a)) as [<-|]; [rewrite lookup_insert_eq|rewrite lookup_insert_ne by done];
      repeat case_decide; try lia; done.
Qed.

Lemma bytes_at_lookup m p l :
  bytes_at m p l <-> forall i b, l !! i = Some b -> m !! (p + Z.of_nat i) = Some b.
Proof.
  revert p. induction l as [|c l IH]; intros p; cbn [bytes_at]; [done|]. rewrite IH. split.
  - intros [Hc Hl] [|i] b Hb; simpl in Hb.
    + simplify_eq. by rewrite Z.add_0_r.
    + replace (p + Z.of_nat (S i)) with (p + 1 + Z.of_nat i) by lia. by apply Hl.
  - intros H. split; [by specialize (H 0%nat c eq_refl); rewrite Z.add_0_r in H|].
    intros i b Hb. specialize (H (S i) b Hb). by replace (p + 1 + Z.of_nat i) with (p + Z.of_nat (S i)) by lia.
Qed.

Lemma str_at_nil m p : str_at m p [] <-> m !! p = Some 0.
Proof. unfold str_at. simpl. split; [naive_solver|]. intros; split_and!; done. Qed.

Lemma str_at_cons m p c s : str_at m p (c :: s) <-> m !! p = Some c /\ char_ok c /\ str_at m (p + 1) s.
Proof. unfold str_at. simpl. rewrite Forall_cons. naive_solver. Qed.

Lemma str_at_insert m p s a v : a < p \/ p + Z.of_nat (length s) < a ->
  str_at m p s -> str_at (<[a := v]> m) p s.
Proof.
  revert p. induction s as [|c s IH]; intros p Ha; cbn [length] in Ha.
  - rewrite !str_at_nil. intros. rewrite lookup_insert_ne by lia. done.
  - rewrite !str_at_cons. intros (Hc & Hok & Hs). rewrite lookup_insert_ne by lia.
    split_and!; [done|done|]. apply IH; [lia|done].
Qed.

(** The bytes of a string and its terminator are mapped. *)
Lemma str_at_get m p s i : str_at m p s -> 0 <= i <= Z.of_nat (length s) ->
  m !! (p + i) = Some (nth (Z.to_nat i) s 0).
Proof.
  intros [Hb _] Hi. rewrite bytes_at_lookup in Hb. specialize (Hb (Z.to_nat i)).
  rewrite Z2Nat.id in Hb by lia. destruct (decide (i = Z.of_nat (length s))) as [->|].
  - rewrite nth_overflow by lia. apply Hb. rewrite Nat2Z.id. by rewrite lookup_app_r, Nat.sub_diag by lia.
  - apply Hb. rewrite lookup_app_l by lia.
    destruct (lookup_lt_is_Some_2 s (Z.to_nat i)) as [x Hx]; [lia|].
    rewrite Hx. f_equal. symmetry. by apply nth_lookup_Some.
Qed.

Lemma str_at_mapped m p s : str_at m p s -> mapped m p (S (length s)).
Proof.
  intros Hs a Ha. replace a with (p + (a - p)) by lia. rewrite (str_at_get m p s) by (done || lia). eauto.
Qed.

Lemma scan_ok fuel p m s : str_at m p s -> (length s < fuel)%nat ->
  scan fuel p m = Some (p + Z.of_nat (length s)).
Proof.
  revert p fuel. induction s as [|c s IH]; intros p [|fuel] Hs Hf; cbn [length] in *; try lia; cbn [scan].
  - apply str_at_nil in Hs. runl Hs. f_equal. lia.
  - apply str_at_cons in Hs as (Hc & Hok & Hs). runl Hc. destruct (Z.eqb_spec c 0); [unfold char_ok in Hok; lia|].
    rewrite IH by (done || lia). f_equal. lia.
Qed.

(** ** The copying loops of strings are block copies *)

Definition apart (d src : Z) (n : nat) : Prop := d <= src \/ src + Z.of_nat n <= d.

Ltac copy_step Hs IH :=
  apply str_at_cons in Hs as (Hc & Hok & Hs); unfold load; rewrite Hc, !bind_Some_l; cbv beta;
  match goal with |- context [store ?m ?d ?c] =>
    unfold store; destruct (m !! d); [|done]; rewrite !bind_Some_l; cbv beta end;
  match goal with |- context [?c =? 0] => destruct (Z.eqb_spec c 0); [unfold char_ok in Hok; lia|] end;
  rewrite IH by first [apply str_at_insert; [unfold apart in *; lia|done]|unfold apart in *; lia].

Lemma copy_up_S n d s m :
  copy_up (S n) d s m = c ← load m s; m ← store m d c; copy_up n (d + 1) (s + 1) m.
Proof. done. Qed.

Lemma copy_str_up fuel d src m s : str_at m src s -> apart d src (S (length s)) -> (length s < fuel)%nat ->
  copy_str fuel d src m = copy_up (S (length s)) d src m.
Proof.
  revert d src m fuel. induction s as [|c s IH]; intros d src m [|fuel] Hs Hd Hf; cbn [length] in *; try lia;
    cbn [copy_str copy_up].
  - apply str_at_nil in Hs. unfold load. rewrite Hs, !bind_Some_l. by destruct (store m d 0).
  - copy_step Hs IH. done.
Qed.

Lemma copy_strn_up n d src m s : str_at m src s -> apart d src (S (length s)) ->
  copy_strn n d src m =
  if (length s <? n)%nat
  then m' ← copy_up (S (length s)) d src m; Some ((n - length s)%nat, d + Z.of_nat (length s) + 1, m')
  else m' ← copy_up n d src m; Some (O, d + Z.of_nat n, m').
Proof.
  revert d src m n. induction s as [|c s IH]; intros d src m [|n] Hs Hd; cbn [length] in *.
  - cbn. by rewrite Z.add_0_r.
  - cbn [copy_strn copy_up Nat.ltb Nat.leb]. apply str_at_nil in Hs. unfold load. rewrite Hs, !bind_Some_l.
    destruct (store m d 0); [|done]. cbn. by rewrite Z.add_0_r.
  - cbn. by rewrite Z.add_0_r.
  - cbn [copy_strn]. replace (S (length s) <? S n)%nat with (length s <? n)%nat by done.
    destruct (length s <? n)%nat eqn:El; rewrite copy_up_S; copy_step Hs IH; rewrite El.
    + destruct (copy_up _ _ _ _); [|done]. rewrite !bind_Some_l.
      by replace (d + 1 + Z.of_nat (length s)) with (d + Z.of_nat (S (length s))) by lia.
    + destruct (copy_up n _ _ _); [|done]. rewrite !bind_Some_l.
      by replace (d + 1 + Z.of_nat n) with (d + Z.of_nat (S n)) by lia.
Qed.

Lemma append_n_up n d src m s : str_at m src s -> apart d src (S (length s)) ->
  append_n n d src m =
  if (length s <? n)%nat
  then m' ← copy_up (S (length s)) d src m; Some (d + Z.of_nat (length s), m')
  else m' ← copy_up n d src m; Some (d + Z.of_nat n, m').
Proof.
  revert d src m n. induction s as [|c s IH]; intros d src m [|n] Hs Hd; cbn [length] in *.
  - cbn. by rewrite Z.add_0_r.
  - cbn [append_n copy_up Nat.ltb Nat.leb]. apply str_at_nil in Hs. unfold load. rewrite Hs, !bind_Some_l.
    destruct (store m d 0); [|done]. cbn. by rewrite Z.add_0_r.
  - cbn. by rewrite Z.add_0_r.
  - cbn [append_n]. replace (S (length s) <? S n)%nat with (length s <? n)%nat by done.
    destruct (length s <? n)%nat eqn:El; rewrite copy_up_S; copy_step Hs IH; rewrite El.
    + destruct (copy_up _ _ _ _); [|done]. rewrite !bind_Some_l.
      by replace (d + 1 + Z.of_nat (length s)) with (d + Z.of_nat (S (length s))) by lia.
    + destruct (copy_up n _ _ _); [|done]. rewrite !bind_Some_l.
      by replace (d + 1 + Z.of_nat n) with (d + Z.of_nat (S n)) by lia.
Qed.

(** ** Comparison and search *)

Fixpoint lex (s t : list Z) : Z :=
  match s, t with
  | [], [] => 0
  | [], b :: _ => - schar b
  | a :: _, [] => schar a
  | a :: s, b :: t => if a =? b then lex s t else schar a - schar b
  end.

Lemma schar_inj a b : 0 <= a < 256 -> 0 <= b < 256 -> schar a = schar b -> a = b.
Proof.
  unfold schar, swrap. intros Ha Hb H.
  assert ((a + 2 ^ (8 - 1)) mod 2 ^ 8 = (b + 2 ^ (8 - 1)) mod 2 ^ 8) as E by lia.
  change (2 ^ (8 - 1)) with 128 in E. change (2 ^ 8) with 256 in E.
  assert ((a - b) mod 256 = 0) as Hm.
  { replace (a - b) with (a + 128 - (b + 128)) by lia. by rewrite Zminus_mod, E, Z.sub_diag. }
  apply Z.mod_divide in Hm as [k Hk]; [|done]. destruct (decide (k = 0)); lia.
Qed.

Lemma schar_nz a : char_ok a -> schar a <> 0.
Proof. intros Ha H. unfold char_ok in Ha. apply (schar_inj a 0) in H; lia. Qed.

Lemma lex_eq s t : Forall char_ok s -> Forall char_ok t -> lex s t = 0 <-> s = t.
Proof.
  intros Hs. revert t. induction Hs as [|a s Ha Hs IH]; intros t Ht; destruct Ht as [|b t Hb Ht]; cbn [lex].
  - done.
  - pose proof (schar_nz b Hb). split; [lia|done].
  - pose proof (schar_nz a Ha). split; [lia|done].
  - destruct (Z.eqb_spec a b) as [<-|Hne].
    + rewrite IH by done. naive_solver.
    + split; [|naive_solver]. intros H. destruct Hne. unfold char_ok in *. apply schar_inj; lia.
Qed.

Lemma lex_antisym s t : lex t s = - lex s t.
Proof.
  revert t. induction s as [|a s IH]; intros [|b t]; cbn [lex]; try lia.
  rewrite (Z.eqb_sym b a). destruct (a =? b); [apply IH|lia].
Qed.

Lemma schar_0 : schar 0 = 0.
Proof. done. Qed.

Lemma strcmp_lex fuel p q m s t : str_at m p s -> str_at m q t -> (length s < fuel)%nat ->
  strcmp fuel p q m = Some (lex s t).
Proof.
  revert p q t fuel. induction s as [|a s IH]; intros p q t [|fuel] Hs Ht Hf; cbn [length] in *; try lia;
    cbn [strcmp].
  - apply str_at_nil in Hs. runl Hs. destruct t as [|b t].
    + apply str_at_nil in Ht. runl Ht. done.
    + apply str_at_cons in Ht as (Hb & _). runl Hb. cbn [lex negb andb Z.eqb]. done.
  - apply str_at_cons in Hs as (Ha & Hok & Hs). runl Ha.
    assert (a <> 0) by (unfold char_ok in Hok; lia). destruct t as [|b t].
    + apply str_at_nil in Ht. runl Ht. destruct (Z.eqb_spec a 0); [done|]. cbn [lex negb andb].
      rewrite schar_0. f_equal. lia.
    + apply str_at_cons in Ht as (Hb & _ & Ht). runl Hb. destruct (Z.eqb_spec a 0); [done|].
      cbn [lex negb andb]. destruct (a =? b); [apply IH; [done..|lia]|done].
Qed.

(** [strncmp] over the length of [t] tests whether [t] is a prefix of [s]. *)
Lemma strncmp_prefix p q m s t : str_at m p s -> str_at m q t ->
  exists r, strncmp (length t) p q m = Some r /\ (r = 0 <-> t `prefix_of` s).
Proof.
  revert p q s. induction t as [|b t IH]; intros p q s Hs Ht; cbn [length strncmp].
  - exists 0. split; [done|]. split; [|done]. intros _. apply prefix_nil.
  - apply str_at_cons in Ht as (Hb & Hokb & Ht). destruct s as [|a s].
    + apply str_at_nil in Hs. runl Hs. runl Hb. cbn [Z.eqb negb andb]. eexists. split; [done|].
      pose proof (schar_nz b Hokb). rewrite schar_0. split; [lia|]. intros ?%prefix_nil_not. done.
    + apply str_at_cons in Hs as (Ha & Hoka & Hs). runl Ha. runl Hb. unfold char_ok in *.
      destruct (Z.eqb_spec a 0); [lia|]. cbn [negb andb]. destruct (Z.eqb_spec a b) as [<-|Hne].
      * destruct (IH _ _ _ Hs Ht) as (r & E & Hr). exists r. split; [done|]. rewrite Hr. split.
        -- apply prefix_cons.
        -- apply prefix_cons_inv_2.
      * eexists. split; [done|]. split.
        -- intros H. destruct Hne. apply schar_inj; lia.
        -- by intros ?%prefix_cons_inv_1.
Qed.

Lemma search_ok fuel h q m s t : str_at m h s -> str_at m q t -> t <> [] -> (length s < fuel)%nat ->
  (exists k, search fuel h q (length t) m = Some (Some (h + Z.of_nat k)) /\
     t `prefix_of` drop k s /\ forall j, (j < k)%nat -> ~ t `prefix_of` drop j s) \/
  search fuel h q (length t) m = Some None /\ forall j, ~ t `prefix_of` drop j s.
Proof.
  intros Hs Ht Hne. revert h s Hs. induction fuel as [|fuel IH]; intros h s Hs Hf; [lia|]. cbn [search].
  destruct s as [|a s].
  - right. apply str_at_nil in Hs. runl Hs. split; [done|]. intros j. rewrite drop_nil.
    destruct t; [done|]. apply prefix_nil_not.
  - pose proof Hs as (Ha & Hoka & Hs')%str_at_cons. runl Ha. unfold char_ok in Hoka.
    destruct (Z.eqb_spec a 0); [lia|].
    destruct (strncmp_prefix h q m (a :: s) t Hs Ht) as (r & Er & Hr).
    destruct t as [|b t]; [done|]. pose proof Ht as (Hb & _)%str_at_cons. runl Hb.
    assert ((if a =? b then r ← strncmp (length (b :: t)) h q m; Some (r =? 0) else Some false)
            = Some (bool_decide ((b :: t) `prefix_of` a :: s))) as ->.
    { destruct (Z.eqb_spec a b) as [<-|Hab].
      - rewrite Er, bind_Some_l. f_equal. apply eq_bool_prop_intro.
        rewrite bool_decide_spec, <-Hr. split; [intros; by apply Z.eqb_eq, Is_true_true|].
        intros ->. done.
      - rewrite bool_decide_eq_false_2; [done|]. intros ?%prefix_cons_inv_1. congruence. }
    rewrite bind_Some_l. case_bool_decide as Hp.
    + left. exists 0%nat. rewrite Z.add_0_r. split_and!; [done|done|]. lia.
    + cbn [length] in Hf. destruct (IH (h + 1) s Hs') as [(k & E & Hk & Hmin)|[E Hnone]]; [lia| |].
      * left. exists (S k). split_and!; [rewrite E; do 2 f_equal; lia|done|].
        intros [|j] Hj; [done|]. apply Hmin. lia.
      * right. split; [done|]. intros [|j]; [done|]. apply Hnone.
Qed.

(** ** Claims *)

(** Sixteen bytes from address 100 on: two strings, then zeros. *)
Definition sample_bytes : list Z := [72; 105; 0; 105; 0; 0; 0; 0; 7; 7; 7; 7; 7; 7; 7; 7].
Definition sample_mem : gmap Z Z := list_to_map (zip (seqZ 100 16) sample_bytes).

Lemma sample_get i b : sample_bytes !! i = Some b -> sample_mem !! (100 + Z.of_nat i) = Some b.
Proof. do 16 (destruct i as [|i]; [intros [= <-]; reflexivity|]). done. Qed.

Lemma sample_mapped p n : 100 <= p -> p + Z.of_nat n <= 116 -> mapped sample_mem p n.
Proof.
  intros Hp Hn a Ha. destruct (lookup_lt_is_Some_2 sample_bytes (Z.to_nat (a - 100))) as [b Hb].
  { simpl. lia. }
  exists b. apply sample_get in Hb. by replace (100 + Z.of_nat (Z.to_nat (a - 100))) with a in Hb by lia.
Qed.

Lemma sample_hi : str_at sample_mem 100 [72; 105].
Proof. repeat split; repeat constructor. Qed.
Lemma sample_i : str_at sample_mem 103 [105].
Proof. repeat split; repeat constructor. Qed.

(** [memmove] copies [n] bytes correctly for any overlap of source and
    destination: the destination ends up with the bytes the source had before the
    call, and no other byte changes. *)
Theorem memmove_correct dest src n m :
  mapped m src n -> mapped m dest n ->
  exists m', memmove dest src n m = Some (dest, m') /\ moved m m' dest src n.
Proof.
  intros Hs Hd. unfold memmove. destruct (Z.ltb_spec dest src) as [Hlt|Hge].
  - destruct (copy_up_ok n dest src m Hs Hd) as (m' & E & Hm); [lia|]. run E. eauto.
  - destruct (Z.ltb_spec src dest) as [Hlt|Hge'].
    + destruct (copy_down_ok n dest src m Hs Hd) as (m' & E & Hm); [lia|]. run E. eauto.
    + exists m. split; [done|]. intros a. case_decide; [|done]. f_equal. lia.
Qed.

Lemma memmove_correct_witness :
  exists m', memmove 101 100 3 sample_mem = Some (101, m') /\ m' !! 102 = Some 105.
Proof.
  destruct (memmove_correct 101 100 3 sample_mem) as (m' & E & Hm).
  - apply sample_mapped; lia.
  - apply sample_mapped; lia.
  - exists m'. split; [exact E|]. rewrite Hm. reflexivity.
Defined.

(** [strncpy] copies at most [n] characters of a string that does not overlap
    the destination. When the string has at least [n] characters exactly its first
    [n] are written. When it is shorter, the terminator is not counted: the string
    is followed by zeros up to and including index [n], so [n + 1] bytes are written
    to an [n]-byte buffer. *)
Theorem strncpy_correct dest src n s m :
  str_at m src s -> apart dest src (S (length s)) -> mapped m dest (S n) ->
  exists m', strncpy dest src n m = Some (dest, m') /\
    forall a, m' !! a =
      if (length s <? n)%nat
      then (if decide (dest <= a <= dest + Z.of_nat n) then Some (nth (Z.to_nat (a - dest)) s 0) else m !! a)
      else (if decide (dest <= a < dest + Z.of_nat n) then Some (nth (Z.to_nat (a - dest)) s 0) else m !! a).
Proof.
  intros Hs Ha Hd. unfold strncpy. rewrite (copy_strn_up n dest src m s Hs Ha). unfold apart in Ha.
  pose proof (str_at_mapped m src s Hs) as Hmp.
  destruct (Nat.ltb_spec (length s) n) as [Hlt|Hge].
  - destruct (copy_up_ok (S (length s)) dest src m) as (m1 & E & Hm1); [done| |lia|].
    { intros b Hb. apply Hd. lia. }
    run E. rewrite bind_Some_l.
    destruct (fill_ok (n - length s) (dest + Z.of_nat (length s) + 1) 0 m1) as (m2 & E2 & Hm2).
    { intros b Hb. rewrite Hm1. case_decide; [lia|]. apply Hd. lia. }
    run E2. exists m2. split; [done|]. intros a. rewrite Hm2, Hm1.
    repeat case_decide; try lia; [by rewrite nth_overflow by lia|by rewrite (str_at_get m src s) by (done || lia)|done].
  - destruct (copy_up_ok n dest src m) as (m1 & E & Hm1); [| |lia|].
    { intros b Hb. apply Hmp. lia. }
    { intros b Hb. apply Hd. lia. }
    run E. rewrite bind_Some_l. exists m1. split; [done|]. intros a. rewrite Hm1.
    case_decide; [by rewrite (str_at_get m src s) by (done || lia)|done].
Qed.

Lemma strncpy_correct_witness :
  exists m', strncpy 108 103 4 sample_mem = Some (108, m') /\ m' !! 112 = Some 0 /\ sample_mem !! 112 = Some 7.
Proof.
  destruct (strncpy_correct 108 103 4 [105] sample_mem sample_i) as (m' & E & Hm).
  - right. simpl. lia.
  - apply sample_mapped; lia.
  - exists m'. split_and!; [exact E|rewrite Hm; reflexivity|reflexivity].
Defined.

(** The string at [d] after the first [k] characters of [t] and a terminator were
    put behind [s]. *)
Lemma str_at_append m m' d src s t k :
  str_at m d s -> str_at m src t -> (k <= length t)%nat ->
  (forall a, m' !! a = if decide (d + Z.of_nat (length s) <= a < d + Z.of_nat (length s + k))
                       then m !! (src + (a - (d + Z.of_nat (length s))))
                       else if decide (a = d + Z.of_nat (length s + k)) then Some 0 else m !! a) ->
  str_at m' d (s ++ take k t).
Proof.
  intros Hs Ht Hk Hm. split; [|apply Forall_app; split; [apply Hs|apply Forall_take, Ht]].
  apply bytes_at_lookup. intros i b Hb. rewrite Hm. rewrite <-app_assoc in Hb.
  destruct (decide (i < length s)%nat) as [Hi|Hi].
  - rewrite !decide_False by lia. rewrite lookup_app_l in Hb by done.
    rewrite (str_at_get m d s) by (done || lia). rewrite Nat2Z.id. f_equal. by apply nth_lookup_Some.
  - rewrite lookup_app_r in Hb by lia. destruct (decide (i - length s < k)%nat) as [Hik|Hik].
    + rewrite decide_True by lia. rewrite lookup_app_l in Hb by (rewrite length_take; lia).
      rewrite lookup_take_lt in Hb by lia.
      rewrite (str_at_get m src t) by (done || lia). f_equal. apply nth_lookup_Some. by rewrite <-Hb; f_equal; lia.
    + rewrite decide_False by lia. rewrite lookup_app_r in Hb by (rewrite length_take; lia).
      rewrite length_take, Nat.min_l in Hb by lia.
      apply list_lookup_singleton_Some in Hb as [Hz <-]. by rewrite decide_True by lia.
Qed.

(** [strcat] and [strncat] append: when the source string does not overlap the
    room behind the destination string [s], the destination holds [s] followed by
    the source string [t], respectively by its first [n] characters, terminated. *)
Theorem strcat_correct fuel dest src n s t m :
  str_at m dest s -> str_at m src t ->
  apart (dest + Z.of_nat (length s)) src (S (length t)) ->
  mapped m (dest + Z.of_nat (length s)) (S (length t)) ->
  (length s < fuel)%nat -> (length t < fuel)%nat ->
  (exists m', strcat fuel dest src m = Some (dest, m') /\ str_at m' dest (s ++ t)) /\
  (exists m', strncat fuel dest src n m = Some (dest, m') /\ str_at m' dest (s ++ take n t)).
Proof.
  intros Hs Ht Ha Hd Hf1 Hf2. unfold strcat, strncat. run (scan_ok fuel dest m s Hs Hf1).
  pose proof (str_at_mapped m src t Ht) as Hmp. pose proof Ha as Ha'. unfold apart in Ha'.
  destruct (copy_up_ok (S (length t)) (dest + Z.of_nat (length s)) src m) as (m1 & E & Hm1); [done|done|lia|].
  assert (m !! (src + Z.of_nat (length t)) = Some 0) as H0.
  { rewrite (str_at_get m src t) by (done || lia). by rewrite nth_overflow by lia. }
  assert (s ++ t = s ++ take (length t) t) as Hall by (by rewrite firstn_all).
  split.
  - rewrite (copy_str_up fuel _ src m t Ht Ha Hf2). run E. exists m1. split; [done|].
    rewrite Hall. apply (str_at_append m m1 dest src s t); [done..|]. intros a. rewrite Hm1.
    repeat case_decide; try lia; try done. rewrite <-H0. f_equal. lia.
  - rewrite bind_Some_l. rewrite (append_n_up n _ src m t Ht Ha).
    destruct (Nat.ltb_spec (length t) n) as [Hlt|Hge].
    + run E. rewrite bind_Some_l. rewrite store_ok, bind_Some_l.
      2:{ rewrite Hm1. rewrite decide_True by lia. apply Hmp. lia. }
      eexists. split; [done|]. rewrite take_ge, Hall by lia.
      apply (str_at_append m _ dest src s t); [done..|]. intros a.
      destruct (decide (dest + Z.of_nat (length s) + Z.of_nat (length t) = a)) as [<-|];
        [rewrite lookup_insert_eq|rewrite lookup_insert_ne, Hm1 by done]; repeat case_decide; done || lia.
    + destruct (copy_up_ok n (dest + Z.of_nat (length s)) src m) as (m2 & E2 & Hm2); [| |lia|].
      { intros b Hb. apply Hmp. lia. }
      { intros b Hb. apply Hd. lia. }
      run E2. rewrite bind_Some_l. rewrite store_ok, bind_Some_l.
      2:{ rewrite Hm2. rewrite decide_False by lia. apply Hd. lia. }
      eexists. split; [done|]. apply (str_at_append m _ dest src s t); [done..|]. intros a.
      destruct (decide (dest + Z.of_nat (length s) + Z.of_nat n = a)) as [<-|];
        [rewrite lookup_insert_eq|rewrite lookup_insert_ne, Hm2 by done]; repeat case_decide; done || lia.
Qed.

Lemma strcat_correct_witness :
  exists m', strcat 5 100 109 (<[109 := 33]> (<[110 := 0]> sample_mem)) = Some (100, m') /\
    str_at m' 100 [72; 105; 33].
Proof.
  apply (strcat_correct 5 100 109 1 [72; 105] [33] (<[109 := 33]> (<[110 := 0]> sample_mem))).
  - do 2 (apply str_at_insert; [simpl; lia|]). apply sample_hi.
  - repeat split; repeat constructor.
  - left. simpl. lia.
  - do 2 apply mapped_insert. apply sample_mapped; simpl; lia.
  - simpl. lia.
  - simpl. lia.
Defined.

(** [strcmp] terminates on strings and returns their lexicographic comparison
    on signed characters: 0 exactly when they are equal, and the negated result when
    the arguments are swapped. *)
Theorem strcmp_correct fuel p q m s t :
  str_at m p s -> str_at m q t -> (length s < fuel)%nat -> (length t < fuel)%nat ->
  exists r, strcmp fuel p q m = Some r /\ strcmp fuel q p m = Some (- r) /\
    r = lex s t /\ (r = 0 <-> s = t).
Proof.
  intros Hs Ht Hf1 Hf2. exists (lex s t). split_and!.
  - by apply strcmp_lex.
  - rewrite <-lex_antisym. by apply strcmp_lex.
  - done.
  - apply lex_eq; [apply Hs|apply Ht].
Qed.

Lemma strcmp_correct_witness :
  exists r, strcmp 3 100 103 sample_mem = Some r /\ r <> 0.
Proof.
  destruct (strcmp_correct 3 100 103 sample_mem [72; 105] [105] sample_hi sample_i) as (r & E & _ & _ & Hr);
    [simpl; lia..|].
  exists r. split; [exact E|]. rewrite Hr. discriminate.
Defined.

(** [strstr] terminates on strings and returns the address of the first
    occurrence of the second in the first, and NULL exactly when there is none. *)
Theorem strstr_correct fuel h q m s t :
  str_at m h s -> str_at m q t -> (length s < fuel)%nat -> (length t < fuel)%nat ->
  (exists k, strstr fuel h q m = Some (Some (h + Z.of_nat k)) /\
     t `prefix_of` drop k s /\ forall j, (j < k)%nat -> ~ t `prefix_of` drop j s) \/
  strstr fuel h q m = Some None /\ forall j, ~ t `prefix_of` drop j s.
Proof.
  intros Hs Ht Hf1 Hf2. unfold strstr, strlen. run (scan_ok fuel q m t Ht Hf2). rewrite bind_Some_l.
  replace (q + Z.of_nat (length t) - q) with (Z.of_nat (length t)) by lia.
  destruct t as [|b t].
  - left. exists 0%nat. rewrite Z.add_0_r. split_and!; [done|apply prefix_nil|lia].
  - destruct (Z.eqb_spec (Z.of_nat (length (b :: t))) 0); [simpl in *; lia|]. rewrite Nat2Z.id.
    by apply search_ok.
Qed.

Lemma strstr_correct_witness : strstr 4 100 103 sample_mem = Some (Some 101).
Proof.
  destruct (strstr_correct 4 100 103 sample_mem [72; 105] [105] sample_hi sample_i) as [(k & E & _)|[E _]];
    [simpl; lia..| |].
  - rewrite E. by vm_compute in E.
  - by vm_compute in E.
Defined.

End KString.
