(* ===== verification/Tty.v ===== *)
(** The terminal driver, [drivers/char/tty/tty.c]: the input and output rings of a
    terminal, its character-device entry points, and the translation of key
    presses into input. *)

From S2P Require Import Prelude.

Module Tty.

(** ** Data *)

Definition TTY_BUFFER_SIZE : Z := 1024.
Definition TTY_FLAG_ECHO : Z := 1.
Definition EV_KEY : Z := 1.

(** One of the two rings of [tty_t]: [input_buffer], [input_head], [input_tail] or
    their output counterparts. *)
Record ring := mk_ring { buffer : list Z; head : Z; tail : Z }.

(** [tty_t]: the rings, the flags, and whether [write_char] is set. *)
Record tty := mk_tty {
  flags : Z;
  input : ring;
  output : ring;
  write_char : bool
}.

Definition with_flags (f : Z) (t : tty) : tty := mk_tty f (input t) (output t) (write_char t).
Definition with_input (r : ring) (t : tty) : tty := mk_tty (flags t) r (output t) (write_char t).
Definition with_output (r : ring) (t : tty) : tty := mk_tty (flags t) (input t) r (write_char t).

(** What a call gives: its return value, the terminal, the bytes copied to the
    caller and the characters given to [write_char]. [None] is a fault. *)
Definition outcome : Type := option (Z * option tty * list Z * list Z).

(** [if (tty == NULL) return -1;] *)
Definition on_tty (t : option tty) (f : tty -> outcome) : outcome :=
  match t with None => Some (-1, None, [], []) | Some t => f t end.

Definition ret (t : tty) (r : Z) : outcome := Some (r, Some t, [], []).

(** ** Rings *)

Definition reset (r : ring) : ring := mk_ring (buffer r) 0 0.

(** Appending a character: [next_head] is compared with the tail, then the
    character is stored at the head. The inner [None] is a full ring. *)
Definition put (r : ring) (c : Z) : option (option ring) :=
  let next_head := u32 (head r + 1) mod TTY_BUFFER_SIZE in
  if next_head =? tail r then Some None
  else b ← aset (buffer r) (head r) c; Some (Some (mk_ring b next_head (tail r))).

(** The loop of [tty_read], with [n] bytes left to read. *)
Fixpoint read_loop (n : nat) (r : ring) : option (list Z * ring) :=
  match n with
  | O => Some ([], r)
  | S n =>
      if head r =? tail r then Some ([], r)
      else
        c ← aget (buffer r) (tail r);
        let tl := u32 (tail r + 1) in
        let tl := if TTY_BUFFER_SIZE <=? tl then 0 else tl in
        '(l, r) ← read_loop n (mk_ring (buffer r) (head r) tl);
        Some (c :: l, r)
  end.

(** The loop of [tty_write] over the bytes not yet written. *)
Fixpoint write_loop (l : list Z) (r : ring) : option (nat * ring) :=
  match l with
  | [] => Some (O, r)
  | c :: l =>
      o ← put r c;
      match o with
      | None => Some (O, r)
      | Some r => '(n, r) ← write_loop l r; Some (S n, r)
      end
  end.

(** ** Operations *)

Definition tty_flush_input (t : option tty) : outcome :=
  on_tty t (fun t => ret (with_input (reset (input t)) t) 0).
Definition tty_flush_output (t : option tty) : outcome :=
  on_tty t (fun t => ret (with_output (reset (output t)) t) 0).

Definition tty_open (t : option tty) (f : Z) : outcome :=
  on_tty t (fun t => ret (mk_tty f (reset (input t)) (reset (output t)) (write_char t)) 0).

(** The results of the two flushes are not looked at. *)
Definition tty_close (t : option tty) : outcome :=
  on_tty t (fun t =>
    res ← tty_flush_input (Some t);
    let '(_, t, _, _) := res in
    res ← tty_flush_output t;
    let '(_, t, _, _) := res in
    Some (0, t, [], [])).

(** [buf] says whether the caller's buffer is a valid pointer. *)
Definition tty_read (t : option tty) (buf : bool) (count : nat) : outcome :=
  on_tty t (fun t =>
    if negb buf then ret t (-1)
    else if head (input t) =? tail (input t) then ret t 0
    else
      '(l, r) ← read_loop count (input t);
      Some (Z.of_nat (length l), Some (with_input r t), l, [])).

(** [buf] is NULL or the [count] bytes to write. *)
Definition tty_write (t : option tty) (buf : option (list Z)) : outcome :=
  on_tty t (fun t =>
    match buf with
    | None => ret t (-1)
    | Some l =>
        '(n, r) ← write_loop l (output t);
        Some (Z.of_nat n, Some (with_output r t), [], if write_char t then take n l else [])
    end).

(** [arg] is NULL or the word it points to; the new word is in the copied bytes. *)
Definition tty_ioctl (t : option tty) (request : Z) (arg : option Z) : outcome :=
  on_tty t (fun t =>
    if request =? 0 then
      Some (0, Some t, match arg with Some _ => [flags t] | None => [] end, [])
    else if request =? 1 then
      ret (match arg with Some f => with_flags f t | None => t end) 0
    else ret t (-1)).

Definition tty_output (t : option tty) (c : Z) : outcome :=
  on_tty t (fun t =>
    o ← put (output t) c;
    match o with
    | None => ret t (-1)
    | Some r => Some (0, Some (with_output r t), [], if write_char t then [c] else [])
    end).

Definition tty_input (t : option tty) (c : Z) : outcome :=
  on_tty t (fun t =>
    o ← put (input t) c;
    match o with
    | None => ret t (-1)
    | Some r =>
        let t := with_input r t in
        if has_flag (flags t) TTY_FLAG_ECHO
        then
          res ← tty_output (Some t) c;
          let '(_, t, _, dev) := res in Some (0, t, [], dev)
        else ret t 0
    end).

(** ** Character-device entry points *)

(** [dev] is NULL or a device whose [private_data] is NULL or a terminal. *)
Definition on_dev (dev : option (option tty)) (f : option tty -> outcome) : outcome :=
  match dev with
  | None => Some (-1, None, [], [])
  | Some None => Some (-1, None, [], [])
  | Some t => f t
  end.

Definition tty_char_open (dev : option (option tty)) (f : Z) : outcome :=
  on_dev dev (fun t => tty_open t f).
Definition tty_char_close (dev : option (option tty)) : outcome := on_dev dev tty_close.
Definition tty_char_read (dev : option (option tty)) (buf : bool) (count : nat) : outcome :=
  on_dev dev (fun t => tty_read t buf count).
Definition tty_char_write (dev : option (option tty)) (buf : option (list Z)) : outcome :=
  on_dev dev (fun t => tty_write t buf).
Definition tty_char_ioctl (dev : option (option tty)) (request : Z) (arg : option Z) : outcome :=
  on_dev dev (fun t => tty_ioctl t request arg).
Definition tty_char_flush (dev : option (option tty)) : outcome :=
  on_dev dev (fun t =>
    res ← tty_flush_input t;
    let '(r, t, l, d) := res in
    if r <? 0 then Some (r, t, l, d) else tty_flush_output t).

(** ** Key events *)

(** The switch of [tty_input_event]: key codes and characters. *)
Definition keymap : list (Z * Z) :=
  [(30, 97); (48, 98); (46, 99); (32, 100); (18, 101); (33, 102); (34, 103); (35, 104);
   (23, 105); (36, 106); (37, 107); (38, 108); (50, 109); (49, 110); (24, 111); (25, 112);
   (16, 113); (19, 114); (31, 115); (20, 116); (22, 117); (47, 118); (17, 119); (45, 120);
   (21, 121); (44, 122); (11, 48); (2, 49); (3, 50); (4, 51); (5, 52); (6, 53);
   (7, 54); (8, 55); (9, 56); (10, 57); (57, 32); (12, 45); (13, 61); (26, 91);
   (27, 93); (39, 59); (40, 39); (41, 96); (43, 92); (51, 44); (52, 46); (53, 47);
   (28, 10); (14, 8); (15, 9); (1, 27)].

Definition key_char (code : Z) : Z :=
  match list_find (fun e => e.1 = code) keymap with Some (_, (_, c)) => c | None => 0 end.

(** The registered terminals, in the order of [tty_list], by the address of their
    [input_handler]. *)
Notation tty_list := (list (Z * tty)).

Definition find_handler (h : Z) (l : tty_list) : option (nat * tty) :=
  match list_find (fun e => e.1 = h) l with Some (i, (_, t)) => Some (i, t) | None => None end.

Record input_event := mk_event { ev_type : Z; ev_code : Z; ev_value : Z }.

(** [tty_input_event]: the result, the terminals, and the characters given to the
    device. A zero handler or device is NULL. *)
Definition tty_input_event (handler dev : Z) (event : option input_event) (l : tty_list)
    : option (Z * tty_list * list Z) :=
  match event with
  | None => Some (-1, l, [])
  | Some ev =>
      if (handler =? 0) || (dev =? 0) then Some (-1, l, [])
      else if negb (ev_type ev =? EV_KEY) then Some (0, l, [])
      else
        match find_handler handler l with
        | None => Some (-1, l, [])
        | Some (i, t) =>
            if ev_value ev =? 1 then
              let c := key_char (ev_code ev) in
              if c =? 0 then Some (0, l, [])
              else
                res ← tty_input (Some t) c;
                match res with
                | (_, Some t, _, d) => Some (0, <[i := (handler, t)]> l, d)
                | (_, None, _, d) => Some (0, l, d)
                end
            else Some (0, l, [])
        end
  end.

(** [tty_input_connect]: the device is opened if it reports keys and the handler
    belongs to a registered terminal; [input_open] is the call to the input layer. *)
Definition tty_input_connect (input_open : Z) (handler dev event_types : Z) (l : tty_list) : Z :=
  if (handler =? 0) || (dev =? 0) then -1
  else if negb (has_flag event_types (BIT EV_KEY)) then -1
  else match find_handler handler l with None => -1 | Some _ => input_open end.

End Tty.
