(* ===== verification/TtySpec.v ===== *)
(** The terminal refines a pair of bounded queues: keyboard input is a FIFO of at
    most 1023 characters, and output is a log that is never drained. *)

From S2P Require Import Prelude Tty.

Module TtySpec.
Import Tty.

Notation N := TTY_BUFFER_SIZE.

(** ** Rings as queues *)

Record Ring (r : ring) : Prop := {
  rg_len : length (buffer r) = 1024%nat;
  rg_head : 0 <= head r < N;
  rg_tail : 0 <= tail r < N
}.

Definition count (r : ring) : nat := Z.to_nat ((head r - tail r) mod N).

(** The characters in the ring, oldest first. *)
Definition pending (r : ring) : list Z :=
  (fun i => default 0 (buffer r !! Z.to_nat ((tail r + Z.of_nat i) mod N))) <$> seq 0 (count r).

(** How many characters a ring holds. *)
Definition room : nat := 1023.

Lemma length_pending r : length (pending r) = count r.
Proof. unfold pending. by rewrite length_fmap, length_seq. Qed.

Lemma count_le r : (count r <= room)%nat.
Proof. unfold count, room, N. pose proof (Z.mod_pos_bound (head r - tail r) 1024). lia. Qed.

(** Two indices of the ring are congruent only when equal. *)
Lemma mod_range a b : 0 <= a < N -> 0 <= b < N -> (a - b) mod N = if b <=? a then a - b else a - b + N.
Proof.
  unfold N. intros. destruct (Z.leb_spec b a); [by rewrite Z.mod_small by lia|].
  rewrite <-(Z.mod_add (a - b) 1) by lia. rewrite Z.mod_small; lia.
Qed.

Lemma next_spec a : 0 <= a < N -> u32 (a + 1) mod N = if a =? N - 1 then 0 else a + 1.
Proof.
  unfold N. intros. rewrite u32_small by lia. destruct (Z.eqb_spec a (1024 - 1)) as [->|]; [done|].
  apply Z.mod_small. lia.
Qed.

Ltac ring_cases :=
  unfold count, room, N in *; rewrite ?mod_range in * by (unfold N; lia); unfold N in *;
  repeat match goal with
  | |- context [?a <=? ?b] => destruct (Z.leb_spec a b)
  | H : context [?a <=? ?b] |- _ => destruct (Z.leb_spec a b)
  end.

Lemma reset_ok r : Ring r -> Ring (reset r) /\ pending (reset r) = [].
Proof. intros []. split; [split; simpl; unfold N; lia || done|done]. Qed.

Lemma put_full r c : Ring r -> count r = room -> put r c = Some None.
Proof.
  intros [Hl Hh Ht] Hc. unfold put. rewrite next_spec by done.
  assert ((if head r =? N - 1 then 0 else head r + 1) = tail r) as ->; [|by rewrite Z.eqb_refl].
  destruct (Z.eqb_spec (head r) (N - 1)); ring_cases; lia.
Qed.

Lemma put_ok r c : Ring r -> (count r < room)%nat ->
  exists r', put r c = Some (Some r') /\ Ring r' /\ pending r' = pending r ++ [c].
Proof.
  intros [Hl Hh Ht] Hc. unfold put. rewrite next_spec by done.
  set (nh := if head r =? N - 1 then 0 else head r + 1).
  assert (0 <= nh < N /\ nh <> tail r /\ (nh - tail r) mod N = (head r - tail r) mod N + 1) as (Hn & Hne & Hcnt).
  { subst nh. destruct (Z.eqb_spec (head r) (N - 1)); ring_cases; lia. }
  destruct (Z.eqb_spec nh (tail r)); [done|].
  rewrite aset_Some, bind_Some_l by (rewrite Hl; unfold N in *; lia).
  eexists. split; [reflexivity|]. split; [split; cbn; [by rewrite length_insert|done|done]|].
  unfold pending, count. cbn [buffer head tail]. rewrite Hcnt.
  pose proof (Z.mod_pos_bound (head r - tail r) N) as Hp. unfold N in Hp.
  rewrite Z2Nat.inj_add, seq_app, fmap_app by (unfold N; lia).
  change (Z.to_nat 1) with 1%nat. rewrite Nat.add_0_l. cbn [seq fmap list_fmap]. f_equal.
  - apply list_fmap_ext. intros i x [-> Hi]%lookup_seq. cbn [Nat.add].
    rewrite list_lookup_insert_ne; [done|]. intros E.
    pose proof (Z.mod_pos_bound (tail r + Z.of_nat i) N). unfold N in *.
    assert (head r = (tail r + Z.of_nat i) mod 1024) as Eh by lia.
    rewrite Eh, Zminus_mod_idemp_l in Hi. replace (tail r + Z.of_nat i - tail r) with (Z.of_nat i) in Hi by lia.
    pose proof (Z.mod_le (Z.of_nat i) 1024). lia.
  - f_equal. rewrite Z2Nat.id, Zplus_mod_idemp_r by (unfold N; lia).
    replace (tail r + (head r - tail r)) with (head r) by lia. rewrite Z.mod_small by done.
    rewrite list_lookup_insert_eq; [done|]. rewrite Hl. unfold N in *. lia.
Qed.

(** Taking the oldest character. *)
Definition pop (r : ring) : ring :=
  let tl := u32 (tail r + 1) in mk_ring (buffer r) (head r) (if N <=? tl then 0 else tl).

Lemma pop_ok r : Ring r -> head r <> tail r ->
  exists c, aget (buffer r) (tail r) = Some c /\ Ring (pop r) /\ pending r = c :: pending (pop r).
Proof.
  intros [Hl Hh Ht] Hne. destruct (aget_Some (buffer r) (tail r)) as [c Hc]; [rewrite Hl; unfold N in *; lia|].
  exists c. split; [done|]. unfold pop.
  assert (u32 (tail r + 1) = tail r + 1) as E by (apply u32_small; unfold N in *; lia).
  set (tl := if N <=? u32 (tail r + 1) then 0 else u32 (tail r + 1)).
  assert (0 <= tl < N /\ tl = (tail r + 1) mod N) as [Htl Etl].
  { subst tl. rewrite E. destruct (Z.leb_spec N (tail r + 1)).
    - replace (tail r) with (N - 1) by lia. done.
    - rewrite Z.mod_small by lia. lia. }
  split; [by split|].
  assert (count r = S (Z.to_nat ((head r - tl) mod N))) as Ecnt.
  { unfold count. rewrite Etl, Zminus_mod_idemp_r. replace (head r - (tail r + 1)) with (head r - tail r - 1) by lia.
    rewrite <-(Zminus_mod_idemp_l (head r - tail r) 1). assert ((head r - tail r) mod N <> 0) as Hnz.
    { rewrite mod_range by done. destruct (Z.leb_spec (tail r) (head r)); unfold N in *; lia. }
    pose proof (Z.mod_pos_bound (head r - tail r) N ltac:(done)) as Hb. revert Hnz Hb.
    generalize ((head r - tail r) mod N) as z. intros z Hnz Hb. rewrite (Z.mod_small (z - 1)); lia. }
  unfold pending. rewrite Ecnt. cbn [seq fmap list_fmap]. f_equal.
  - rewrite Z.add_0_r, Z.mod_small by done. unfold aget in Hc. destruct (tail r <? 0); [done|]. by rewrite Hc.
  - unfold count. cbn [head tail buffer]. fold tl. rewrite <-fmap_S_seq, <-list_fmap_compose.
    apply list_fmap_ext. intros i x _. cbn. do 3 f_equal.
    rewrite Etl, Zplus_mod_idemp_l. f_equal. lia.
Qed.

Lemma empty_iff r : Ring r -> (head r =? tail r) = true <-> pending r = [].
Proof.
  intros HR. rewrite Z.eqb_eq. split.
  - intros E. unfold pending, count. by rewrite E, Z.sub_diag.
  - intros Hp. destruct (decide (head r = tail r)) as [|Hne]; [done|].
    destruct (pop_ok r HR Hne) as (c & _ & _ & E). by rewrite E in Hp.
Qed.

Lemma read_loop_ok n r : Ring r ->
  exists r', read_loop n r = Some (take n (pending r), r') /\ Ring r' /\ pending r' = drop n (pending r).
Proof.
  revert r. induction n as [|n IH]; intros r HR; cbn [read_loop]; [exists r; by rewrite drop_0|].
  destruct (Z.eqb_spec (head r) (tail r)) as [E|Hne].
  - exists r. rewrite (proj1 (empty_iff r HR)) by (by apply Z.eqb_eq). done.
  - destruct (pop_ok r HR Hne) as (c & Hc & HRp & Hp). run Hc.
    destruct (IH (pop r) HRp) as (r' & E & HR' & Hp'). unfold pop in E at 1. run E. rewrite Hp. eauto.
Qed.

Lemma write_loop_ok l r : Ring r ->
  exists r', write_loop l r = Some (Nat.min (length l) (room - length (pending r)), r') /\ Ring r' /\
    pending r' = pending r ++ take (room - length (pending r)) l.
Proof.
  revert r. induction l as [|c l IH]; intros r HR; cbn [write_loop].
  - exists r. rewrite take_nil, app_nil_r. done.
  - pose proof (count_le r) as Hle. rewrite length_pending.
    destruct (decide (count r = room)) as [Hf|Hn].
    + run (put_full r c HR Hf). exists r. rewrite Hf, Nat.sub_diag, app_nil_r. by rewrite Nat.min_0_r.
    + destruct (put_ok r c HR) as (r1 & E1 & HR1 & Hp1); [lia|]. run E1.
      destruct (IH r1 HR1) as (r' & E & HR' & Hp'). run E. exists r'.
      rewrite Hp1, length_app, length_pending in *. cbn [length] in *.
      replace (room - count r)%nat with (S (room - (count r + 1))) by lia.
      split_and!; [done|done|]. rewrite Hp'. by rewrite <-app_assoc.
Qed.

(** ** The specification *)

(** Flags, input queue, output since the last flush, and whether a device is
    attached. *)
Record spec := mk_spec { sp_flags : Z; sp_queue : list Z; sp_out : list Z; sp_dev : bool }.

Inductive call :=
| Key (c : Z)                (* [tty_input] *)
| Read (n : nat)             (* [tty_char_read] *)
| Write (l : list Z)         (* [tty_char_write] *)
| GetFlags
| SetFlags (f : Z)           (* [tty_char_ioctl] *)
| Flush
| Open (f : Z)
| Close.

(** What fits of [l] behind what was output, and what the device sees of it. *)
Definition fits (s : spec) (l : list Z) : list Z := take (room - length (sp_out s)) l.
Definition emit (s : spec) (l : list Z) : spec :=
  mk_spec (sp_flags s) (sp_queue s) (sp_out s ++ fits s l) (sp_dev s).
Definition seen (s : spec) (l : list Z) : list Z := if sp_dev s then fits s l else [].

(** Return value, new state, bytes for the caller, characters for the device. *)
Definition spec_step (s : spec) (c : call) : Z * spec * list Z * list Z :=
  match c with
  | Key c =>
      if (room <=? length (sp_queue s))%nat then (-1, s, [], [])
      else
        let s := mk_spec (sp_flags s) (sp_queue s ++ [c]) (sp_out s) (sp_dev s) in
        if has_flag (sp_flags s) TTY_FLAG_ECHO then (0, emit s [c], [], seen s [c]) else (0, s, [], [])
  | Read n =>
      (Z.of_nat (length (take n (sp_queue s))),
       mk_spec (sp_flags s) (drop n (sp_queue s)) (sp_out s) (sp_dev s), take n (sp_queue s), [])
  | Write l => (Z.of_nat (length (fits s l)), emit s l, [], seen s l)
  | GetFlags => (0, s, [sp_flags s], [])
  | SetFlags f => (0, mk_spec f (sp_queue s) (sp_out s) (sp_dev s), [], [])
  | Flush | Close => (0, mk_spec (sp_flags s) [] [] (sp_dev s), [], [])
  | Open f => (0, mk_spec f [] [] (sp_dev s), [], [])
  end.

Definition code_step (t : tty) (c : call) : outcome :=
  match c with
  | Key c => tty_input (Some t) c
  | Read n => tty_char_read (Some (Some t)) true n
  | Write l => tty_char_write (Some (Some t)) (Some l)
  | GetFlags => tty_char_ioctl (Some (Some t)) 0 (Some 0)
  | SetFlags f => tty_char_ioctl (Some (Some t)) 1 (Some f)
  | Flush => tty_char_flush (Some (Some t))
  | Open f => tty_char_open (Some (Some t)) f
  | Close => tty_char_close (Some (Some t))
  end.

Record Rep (t : tty) (s : spec) : Prop := {
  rp_in : Ring (input t);
  rp_out : Ring (output t);
  rp_flags : flags t = sp_flags s;
  rp_queue : pending (input t) = sp_queue s;
  rp_log : pending (output t) = sp_out s;
  rp_dev : write_char t = sp_dev s
}.

Definition simulates (res : outcome) (out : Z * spec * list Z * list Z) : Prop :=
  exists t', res = Some (out.1.1.1, Some t', out.1.2, out.2) /\ Rep t' out.1.1.2.

Lemma output_sim t s c : Rep t s ->
  exists r t', tty_output (Some t) c = Some (r, Some t', [], seen s [c]) /\ Rep t' (emit s [c]).
Proof.
  intros [Hi Ho Hf Hq Hl Hd]. unfold tty_output, on_tty, seen, emit, fits. rewrite <-Hl, <-Hd, length_pending.
  pose proof (count_le (output t)). destruct (decide (count (output t) = room)) as [E|E].
  - run (put_full _ c Ho E). eexists _, t. rewrite E, Nat.sub_diag. split; [by destruct (write_char t)|].
    split; try done. cbn [take]. by rewrite app_nil_r.
  - destruct (put_ok _ c Ho) as (r & Er & Hr & Hp); [lia|]. run Er. eexists _, _.
    replace (room - count (output t))%nat with (S (room - count (output t) - 1)) by lia.
    cbn [take]. rewrite take_nil. split; [reflexivity|]. by split.
Qed.

Lemma key_sim t s c : Rep t s -> simulates (code_step t (Key c)) (spec_step s (Key c)).
Proof.
  intros HR. pose proof HR as [Hi Ho Hf Hq Hl Hd]. cbn [code_step spec_step]. unfold tty_input, on_tty.
  rewrite <-Hq, length_pending. pose proof (count_le (input t)).
  destruct (Nat.leb_spec room (count (input t))) as [Hfull|Hroom].
  - run (put_full _ c Hi ltac:(lia)). exists t. done.
  - destruct (put_ok _ c Hi) as (r & Er & Hr & Hp); [lia|]. run Er. cbn [with_input flags sp_flags].
    rewrite Hf. set (s1 := mk_spec _ _ _ _).
    assert (Rep (with_input r t) s1) as HR1 by (by split; cbn).
    destruct (has_flag (sp_flags s) TTY_FLAG_ECHO).
    + destruct (output_sim _ _ c HR1) as (r' & t' & E & HR'). run E. exists t'. done.
    + exists (with_input r t). done.
Qed.

Lemma read_sim t s n : Rep t s -> simulates (code_step t (Read n)) (spec_step s (Read n)).
Proof.
  intros [Hi Ho Hf Hq Hl Hd]. cbn [code_step spec_step]. unfold tty_char_read, on_dev, tty_read, on_tty.
  cbn [negb]. rewrite <-Hq. destruct (head (input t) =? tail (input t)) eqn:E.
  - apply (empty_iff _ Hi) in E. rewrite E, take_nil, drop_nil. exists t. split; [done|]. by split.
  - destruct (read_loop_ok n _ Hi) as (r & Er & Hr & Hp). run Er. eexists. split; [done|]. by split.
Qed.

Lemma take_min {A} n (l : list A) : take (Nat.min n (length l)) l = take n l.
Proof. rewrite <-take_take. by rewrite firstn_all. Qed.

Lemma write_sim t s l : Rep t s -> simulates (code_step t (Write l)) (spec_step s (Write l)).
Proof.
  intros [Hi Ho Hf Hq Hl Hd]. cbn [code_step spec_step]. unfold tty_char_write, on_dev, tty_write, on_tty.
  destruct (write_loop_ok l _ Ho) as (r & Er & Hr & Hp). run Er. unfold seen, emit, fits.
  rewrite <-Hl, <-Hd. exists (with_output r t). rewrite length_take. split; [|by split].
  cbn [fst snd]. rewrite (Nat.min_comm (length l)). do 2 f_equal. destruct (write_char t); [|done].
  apply take_min.
Qed.

Lemma reset_rep t s f : Rep t s -> Rep (mk_tty f (reset (input t)) (reset (output t)) (write_char t)) (mk_spec f [] [] (sp_dev s)).
Proof. intros []. by split; cbn; try apply reset_ok. Qed.

Lemma tty_call_sim t s c : Rep t s -> simulates (code_step t c) (spec_step s c).
Proof.
  intros HR. pose proof HR as [Hi Ho Hf Hq Hl Hd].
  destruct c; [by apply key_sim|by apply read_sim|by apply write_sim|..]; cbn [code_step spec_step].
  - exists t. split; [|done]. unfold tty_char_ioctl, on_dev, tty_ioctl, on_tty. cbn. by rewrite Hf.
  - exists (with_flags f t). split; [done|]. by split.
  - exists (mk_tty (flags t) (reset (input t)) (reset (output t)) (write_char t)).
    split; [done|]. rewrite <-Hf. by apply reset_rep.
  - eexists. split; [reflexivity|]. by apply reset_rep.
  - exists (mk_tty (flags t) (reset (input t)) (reset (output t)) (write_char t)).
    split; [done|]. rewrite <-Hf. by apply reset_rep.
Qed.

(** ** Runs *)

Fixpoint spec_run (s : spec) (cs : list call) : list (Z * list Z * list Z) * spec :=
  match cs with
  | [] => ([], s)
  | c :: cs =>
      let out := spec_step s c in
      let rest := spec_run out.1.1.2 cs in
      ((out.1.1.1, out.1.2, out.2) :: rest.1, rest.2)
  end.

Fixpoint code_run (t : tty) (cs : list call) : option (list (Z * list Z * list Z) * tty) :=
  match cs with
  | [] => Some ([], t)
  | c :: cs =>
      res ← code_step t c;
      match res with
      | (r, Some t, l, d) => '(obs, t) ← code_run t cs; Some ((r, l, d) :: obs, t)
      | (_, None, _, _) => None
      end
  end.

Lemma run_sim t s cs : Rep t s ->
  exists t', code_run t cs = Some ((spec_run s cs).1, t') /\ Rep t' (spec_run s cs).2.
Proof.
  revert t s. induction cs as [|c cs IH]; intros t s HR; cbn [code_run spec_run fst snd]; [eauto|].
  destruct (tty_call_sim t s c HR) as (t1 & E & HR1). run E.
  destruct (IH t1 _ HR1) as (t2 & E2 & HR2). run E2. eauto.
Qed.

Definition fresh_tty (f : Z) (dev : bool) : tty :=
  mk_tty f (mk_ring (replicate 1024 0) 0 0) (mk_ring (replicate 1024 0) 0 0) dev.

Lemma fresh_rep f dev : Rep (fresh_tty f dev) (mk_spec f [] [] dev).
Proof. split; cbn [fresh_tty input output]; try done; split; cbn; unfold N; lia || apply length_replicate. Qed.

(** C25: Every run of key presses, reads, writes, flag changes, flushes, opens and
    closes on a terminal gives the return values, the bytes read and the characters
    sent to the device that the two-queue specification gives, without a fault: the
    input ring is a FIFO of 1023 characters that refuses input when full. *)
Theorem tty_refines_queue t s cs :
  Rep t s ->
  exists t', code_run t cs = Some ((spec_run s cs).1, t') /\ Rep t' (spec_run s cs).2.
Proof. apply run_sim. Qed.

Lemma tty_refines_queue_witness :
  exists t', code_run (fresh_tty 1 true) [Key 97; Key 98; Key 99; Read 2; Write [120; 121]; Read 5]
    = Some ([(0, [], [97]); (0, [], [98]); (0, [], [99]); (2, [97; 98], []); (2, [], [120; 121]);
             (1, [99], [])], t').
Proof.
  destruct (tty_refines_queue (fresh_tty 1 true) _ [Key 97; Key 98; Key 99; Read 2; Write [120; 121]; Read 5]
              (fresh_rep 1 true)) as (t' & E & _).
  exists t'. exact E.
Defined.

(** ** The output ring fills up *)

(** Calls that do not reset the output ring. *)
Definition keeps_output (c : call) : bool :=
  match c with Flush | Close | Open _ => false | _ => true end.

(** All characters a run sent to the device. *)
Definition sent (obs : list (Z * list Z * list Z)) : list Z := concat (snd <$> obs).

(** With a device attached, the output ring keeps every character it was sent. *)
Lemma spec_out_step s c : keeps_output c = true -> sp_dev s = true ->
  sp_out (spec_step s c).1.1.2 = sp_out s ++ (spec_step s c).2 /\ sp_dev (spec_step s c).1.1.2 = true.
Proof.
  intros Hk Hd. destruct c; try done; cbn [spec_step]; unfold seen, emit; rewrite ?Hd.
  - destruct (_ <=? _)%nat; [|destruct (has_flag _ _)]; cbn; by rewrite ?app_nil_r, ?Hd.
  - cbn. by rewrite app_nil_r.
  - done.
  - cbn. by rewrite app_nil_r.
  - cbn. by rewrite app_nil_r.
Qed.

Lemma spec_out_run s cs : forallb keeps_output cs = true -> sp_dev s = true ->
  sp_out (spec_run s cs).2 = sp_out s ++ sent (spec_run s cs).1.
Proof.
  revert s. induction cs as [|c cs IH]; intros s Hk Hd; cbn [spec_run fst snd].
  - unfold sent. cbn. by rewrite app_nil_r.
  - apply andb_prop in Hk as [Hc Hk]. destruct (spec_out_step s c Hc Hd) as [Ho Hd'].
    rewrite IH, Ho by done. unfold sent. cbn. by rewrite <-app_assoc.
Qed.

(** Nothing drains the output ring of a terminal with a device attached: until
    it is flushed, closed or reopened it passes at most 1023 characters to the
    device in all, and once it has passed that many every further write returns 0. *)
Theorem tty_output_saturates t s cs obs t' :
  Rep t s -> sp_out s = [] -> sp_dev s = true -> forallb keeps_output cs = true ->
  code_run t cs = Some (obs, t') ->
  (length (sent obs) <= 1023)%nat /\
  (length (sent obs) = 1023%nat -> forall l,
     exists t'', tty_char_write (Some (Some t')) (Some l) = Some (0, Some t'', [], [])).
Proof.
  intros HR Ho Hd Hk E. assert (exists s', Rep t' s' /\ sp_out s' = sent obs) as (s' & HR' & Ho').
  { revert E. clear -HR Ho Hd Hk.
    destruct (run_sim t s cs HR) as (t1 & E1 & HR1).
    rewrite E1. intros [= <- <-]. exists (spec_run s cs).2. split; [done|].
    rewrite spec_out_run, Ho by done. done. }
  split.
  - rewrite <-Ho', <-(rp_log _ _ HR'), length_pending. apply count_le.
  - intros Hfull l. destruct (write_sim t' s' l HR') as (t'' & Ew & _). exists t''. rewrite <-Ho' in Hfull.
    cbn [code_step spec_step] in Ew. unfold seen, fits in Ew. rewrite Hfull in Ew.
    rewrite Ew. cbn. by destruct (sp_dev s').
Qed.

Lemma tty_output_saturates_witness :
  exists t', code_run (fresh_tty 0 true) [Write (replicate 1100 65)]
             = Some ([(1023, [], replicate 1023 65)], t') /\
    exists t'', tty_char_write (Some (Some t')) (Some [66]) = Some (0, Some t'', [], []).
Proof.
  destruct (run_sim (fresh_tty 0 true) _ [Write (replicate 1100 65)] (fresh_rep 0 true)) as (t' & E & _).
  exists t'. split; [rewrite E; vm_compute; reflexivity|].
  apply (tty_output_saturates (fresh_tty 0 true) _ [Write (replicate 1100 65)] _ t' (fresh_rep 0 true) eq_refl eq_refl eq_refl E).
  by vm_compute.
Defined.

(** ** From keys to the reader *)

(** Key presses delivered to handler [h] by device [dev], one event each. *)
Fixpoint press (h dev : Z) (codes : list Z) (l : tty_list) : option tty_list :=
  match codes with
  | [] => Some l
  | k :: codes =>
      res ← tty_input_event h dev (Some (mk_event EV_KEY k 1)) l;
      let '(_, l, _) := res in press h dev codes l
  end.

Lemma find_handler_update h l i t t' : find_handler h l = Some (i, t) ->
  find_handler h (<[i := (h, t')]> l) = Some (i, t').
Proof.
  unfold find_handler. destruct (list_find _ l) as [[j [h1 t1]]|] eqn:E; [|done].
  intros [= -> ->]. apply list_find_Some in E as (Hi & Heq & Hlt). cbn in Heq. subst h1.
  rewrite (proj2 (list_find_Some _ _ i (h, t'))); [done|]. split_and!; [|done|].
  - apply list_lookup_insert_eq. by eapply lookup_lt_Some.
  - intros j y Hj Hlj. rewrite list_lookup_insert_ne in Hj by lia. by eapply Hlt.
Qed.

Lemma press_ok h dev codes l i t s :
  h <> 0 -> dev <> 0 -> find_handler h l = Some (i, t) -> Rep t s ->
  Forall (fun k => key_char k <> 0) codes -> (length (sp_queue s) + length codes <= room)%nat ->
  exists l' t' s', press h dev codes l = Some l' /\ find_handler h l' = Some (i, t') /\ Rep t' s' /\
    sp_queue s' = sp_queue s ++ (key_char <$> codes).
Proof.
  intros Hh Hd Hf HR Hc. revert l t s Hf HR.
  induction Hc as [|k codes Hk Hc IH]; intros l t s Hf HR Hlen; cbn [press].
  - exists l, t, s. by rewrite app_nil_r.
  - unfold tty_input_event. cbn [ev_type ev_code ev_value length] in *.
    destruct (Z.eqb_spec h 0), (Z.eqb_spec dev 0); try done. cbn [orb negb]. rewrite Z.eqb_refl. cbn [negb].
    rewrite Hf, Z.eqb_refl. destruct (Z.eqb_spec (key_char k) 0); [done|].
    destruct (key_sim t s (key_char k) HR) as (t1 & E & HR1). cbn [code_step] in E. run E.
    destruct (IH _ t1 _ (find_handler_update h l i t t1 Hf) HR1) as (l' & t' & s' & E' & Hf' & HR' & Hq').
    + cbn [spec_step]. destruct (Nat.leb_spec room (length (sp_queue s))); [lia|].
      destruct (has_flag _ _); cbn; rewrite length_app; cbn; lia.
    + rewrite bind_Some_l. exists l', t', s'. split_and!; try done. rewrite Hq'. cbn [spec_step].
      destruct (Nat.leb_spec room (length (sp_queue s))); [lia|].
      destruct (has_flag _ _); cbn; by rewrite <-app_assoc.
Qed.

(** Key presses reach the reader: pressing mapped keys on the keyboard of a
    terminal with room for them, then reading, delivers what was pending followed by
    the keys' characters in the order pressed; and no two keys of the map share a
    character. *)
Theorem keys_reach_reader h dev codes l i t s :
  h <> 0 -> dev <> 0 -> find_handler h l = Some (i, t) -> Rep t s ->
  Forall (fun k => key_char k <> 0) codes -> (length (sp_queue s) + length codes <= room)%nat ->
  (exists l' t' t'', press h dev codes l = Some l' /\ find_handler h l' = Some (i, t') /\
     tty_char_read (Some (Some t')) true room
     = Some (Z.of_nat (length (sp_queue s) + length codes), Some t'', sp_queue s ++ (key_char <$> codes), [])) /\
  forall k k', key_char k <> 0 -> key_char k = key_char k' -> k = k'.
Proof.
  intros Hh Hd Hf HR Hc Hlen. split.
  - destruct (press_ok h dev codes l i t s) as (l' & t' & s' & E & Hf' & HR' & Hq'); try done.
    destruct (read_sim t' s' room HR') as (t'' & Er & _). cbn [code_step spec_step fst snd] in Er.
    rewrite Hq' in Er. rewrite take_ge in Er by (rewrite length_app, length_fmap; lia).
    rewrite length_app, length_fmap in Er. eauto 8.
  - assert (forall a b, key_char a = b -> b <> 0 -> (a, b) ∈ keymap) as Hin.
    { intros a b <- Hn. unfold key_char in *. destruct (list_find _ keymap) as [[j [a' b']]|] eqn:E; [|done].
      apply list_find_Some in E as (Hj & Ha & _). cbn in Ha. subst a'. by eapply list_elem_of_lookup_2. }
    assert (NoDup (snd <$> keymap)) as Hnd by (apply (bool_decide_unpack _); by vm_compute).
    intros k k' Hk E. pose proof (Hin k _ eq_refl Hk) as H1. pose proof (Hin k' _ eq_refl ltac:(congruence)) as H2.
    rewrite <-E in H2. apply list_elem_of_lookup in H1 as [x Hx], H2 as [y Hy].
    assert (x = y) as <-; [|congruence].
    eapply NoDup_lookup; [exact Hnd| |]; rewrite list_lookup_fmap; [rewrite Hx|rewrite Hy]; done.
Qed.

Lemma keys_reach_reader_witness :
  exists l' t' t'', press 16 32 [35; 23; 28] [(16, fresh_tty 1 false)] = Some l' /\
    find_handler 16 l' = Some (0%nat, t') /\
    tty_char_read (Some (Some t')) true room = Some (3, Some t'', [104; 105; 10], []).
Proof.
  apply (keys_reach_reader 16 32 [35; 23; 28] [(16, fresh_tty 1 false)] 0 (fresh_tty 1 false) (mk_spec 1 [] [] false));
    [done|done|reflexivity|apply fresh_rep| |].
  - repeat constructor; discriminate.
  - unfold room. cbn. lia.
Defined.

End TtySpec.
