(* ===== verification/RwLock.v ===== *)
(** Spinlocks ([kernel/spinlock.c]) and the read-write lock built on them
    ([kernel/rwlock.c]), in the debugging configuration the headers select, as a
    step relation over any number of threads. *)

From S2P Require Import Prelude.

Module RwLock.

(** ** Raw spinlocks *)

(** [raw_spinlock_t]; the file and the program counter of the holder are opaque
    numbers, 0 for NULL. *)
Record raw_spinlock := mk_spin {
  lk : Z;
  sp_file : Z; sp_line : Z; sp_owner : Z; sp_owner_pc : Z;
  sp_held_count : Z; sp_contention_count : Z
}.

(** Where a lock operation is called from. *)
Record site := mk_site { st_file : Z; st_line : Z; st_pc : Z }.

(** [__sync_lock_test_and_set]: the old value and the lock set to 1. *)
Definition test_and_set (l : raw_spinlock) : Z * raw_spinlock :=
  (lk l, mk_spin 1 (sp_file l) (sp_line l) (sp_owner l) (sp_owner_pc l)
           (sp_held_count l) (sp_contention_count l)).

(** The debugging fields once the lock is held. *)
Definition take_spin (w : site) (contended : bool) (l : raw_spinlock) : raw_spinlock :=
  mk_spin (lk l) (st_file w) (st_line w) 0 (st_pc w) (u32 (sp_held_count l + 1))
    (if contended then u32 (sp_contention_count l + 1) else sp_contention_count l).

(** The test that prints "already locked". *)
Definition spin_warns (l : raw_spinlock) : bool := (sp_owner l =? 0) && (lk l =? 1).

(** One turn of the acquiring loop: [None] when the lock was held and the caller
    spins on. *)
Definition raw_spin_lock_turn (w : site) (contended : bool) (l : raw_spinlock) : option raw_spinlock :=
  let '(old, l) := test_and_set l in
  if old =? 0 then Some (take_spin w contended l) else None.

Definition raw_spin_trylock (w : site) (l : raw_spinlock) : Z * raw_spinlock :=
  let '(old, l) := test_and_set l in
  if old =? 0 then (1, take_spin w false l) else (0, l).

(** The lock after [__raw_spin_unlock], and whether it was not held. *)
Definition raw_spin_unlock (l : raw_spinlock) : raw_spinlock * bool :=
  if lk l =? 0 then (l, true)
  else (mk_spin 0 0 0 0 0 (sp_held_count l) (sp_contention_count l), false).

Definition raw_spin_is_locked (l : raw_spinlock) : bool := negb (lk l =? 0).

(** ** The read-write lock *)

Record rwlock := mk_rw {
  lock : raw_spinlock;
  readers : Z;
  writer : Z;
  file : Z; line : Z; owner : Z; owner_pc : Z;
  held_count : Z; contention_count : Z
}.

Definition rwlock_init : rwlock :=
  mk_rw (mk_spin 0 0 0 0 0 0 0) 0 0 0 0 0 0 0 0.

Definition with_lock (l : raw_spinlock) (rw : rwlock) : rwlock :=
  mk_rw l (readers rw) (writer rw) (file rw) (line rw) (owner rw) (owner_pc rw)
    (held_count rw) (contention_count rw).
Definition with_counts (r w : Z) (rw : rwlock) : rwlock :=
  mk_rw (lock rw) r w (file rw) (line rw) (owner rw) (owner_pc rw) (held_count rw) (contention_count rw).

(** "Update debug information" and "Update contention count". *)
Definition note (w : site) (contended : bool) (rw : rwlock) : rwlock :=
  mk_rw (lock rw) (readers rw) (writer rw) (st_file w) (st_line w) 0 (st_pc w)
    (u32 (held_count rw + 1))
    (if contended then u32 (contention_count rw + 1) else contention_count rw).

(** Where a thread is. [Idle], [Reading] and [Writing] are outside the lock's code;
    an operation [spins] on the spinlock ([spun]: a turn failed before), then is
    inside the section the spinlock protects. *)
Inductive pc :=
| Idle | Reading | Writing
| RLockSpin (contended spun : bool) | RLockTest (contended : bool) | RLockBack
| RLockAdd (contended : bool) | RLockOut
| RTrySpin (spun : bool) | RTryTest | RTryAdd | RTryOut (ret : bool)
| RUnlockSpin (spun : bool) | RUnlockTest | RUnlockDec | RUnlockOut
| WLockSpin (contended spun : bool) | WLockTest (contended : bool) | WLockBack
| WLockSet (contended : bool) | WLockOut
| WTrySpin (spun : bool) | WTryTest | WTrySet | WTryOut (ret : bool)
| WUnlockSpin (spun : bool) | WUnlockTest | WUnlockClear | WUnlockOut.

(** What a thread outside the lock asks for. *)
Inductive request := AskRead | AskTryRead | AskWrite | AskTryWrite | Release.

(** The lock, the threads, and the number of warnings the lock's own checks printed. *)
Record state := mk_state { rw : rwlock; threads : gmap nat pc; warnings : nat }.

(** A turn on the spinlock from program point [again], to go on at [next]. *)
Definition spin_turn (w : site) (spun : bool) (again next : pc) (r : rwlock) : pc * rwlock :=
  match raw_spin_lock_turn w spun (lock r) with
  | Some l => (next, with_lock l r)
  | None => (again, r)
  end.

(** [spin_unlock] and go on at [next]; a spinlock that is not held warns. *)
Definition spin_leave (next : pc) (r : rwlock) : pc * rwlock * nat :=
  let '(l, bad) := raw_spin_unlock (lock r) in
  (next, with_lock l r, if bad then 1%nat else 0%nat).

Definition quiet (x : pc * rwlock) : pc * rwlock * nat := (x, 0%nat).

(** [__read_lock] *)
Definition read_lock_step (w : site) (p : pc) (r : rwlock) : option (pc * rwlock * nat) :=
  match p with
  | RLockSpin c s => Some (quiet (spin_turn w s (RLockSpin c true) (RLockTest c) r))
  | RLockTest c => Some (quiet (if writer r =? 0 then RLockAdd c else RLockBack, r))
  | RLockBack => Some (spin_leave (RLockSpin true false) r)
  | RLockAdd c => Some (quiet (RLockOut, note w c (with_counts (readers r + 1) (writer r) r)))
  | RLockOut => Some (spin_leave Reading r)
  | _ => None
  end.

(** [__read_trylock] *)
Definition read_trylock_step (w : site) (p : pc) (r : rwlock) : option (pc * rwlock * nat) :=
  match p with
  | RTrySpin s => Some (quiet (spin_turn w s (RTrySpin true) RTryTest r))
  | RTryTest => Some (quiet (if writer r =? 0 then RTryAdd else RTryOut false, r))
  | RTryAdd => Some (quiet (RTryOut true, note w false (with_counts (readers r + 1) (writer r) r)))
  | RTryOut ret => Some (spin_leave (if ret then Reading else Idle) r)
  | _ => None
  end.

(** [__read_unlock] *)
Definition read_unlock_step (w : site) (p : pc) (r : rwlock) : option (pc * rwlock * nat) :=
  match p with
  | RUnlockSpin s => Some (quiet (spin_turn w s (RUnlockSpin true) RUnlockTest r))
  | RUnlockTest =>
      Some (if readers r =? 0 then (RUnlockOut, r, 1%nat) else (RUnlockDec, r, 0%nat))
  | RUnlockDec => Some (quiet (RUnlockOut, with_counts (readers r - 1) (writer r) r))
  | RUnlockOut => Some (spin_leave Idle r)
  | _ => None
  end.

(** [__write_lock] *)
Definition write_lock_step (w : site) (p : pc) (r : rwlock) : option (pc * rwlock * nat) :=
  match p with
  | WLockSpin c s => Some (quiet (spin_turn w s (WLockSpin c true) (WLockTest c) r))
  | WLockTest c =>
      Some (quiet (if (0 <? readers r) || negb (writer r =? 0) then WLockBack else WLockSet c, r))
  | WLockBack => Some (spin_leave (WLockSpin true false) r)
  | WLockSet c => Some (quiet (WLockOut, note w c (with_counts (readers r) 1 r)))
  | WLockOut => Some (spin_leave Writing r)
  | _ => None
  end.

(** [__write_trylock] *)
Definition write_trylock_step (w : site) (p : pc) (r : rwlock) : option (pc * rwlock * nat) :=
  match p with
  | WTrySpin s => Some (quiet (spin_turn w s (WTrySpin true) WTryTest r))
  | WTryTest =>
      Some (quiet (if (readers r =? 0) && (writer r =? 0) then WTrySet else WTryOut false, r))
  | WTrySet => Some (quiet (WTryOut true, note w false (with_counts (readers r) 1 r)))
  | WTryOut ret => Some (spin_leave (if ret then Writing else Idle) r)
  | _ => None
  end.

(** [__write_unlock] *)
Definition write_unlock_step (w : site) (p : pc) (r : rwlock) : option (pc * rwlock * nat) :=
  match p with
  | WUnlockSpin s => Some (quiet (spin_turn w s (WUnlockSpin true) WUnlockTest r))
  | WUnlockTest =>
      Some (if writer r =? 0 then (WUnlockOut, r, 1%nat) else (WUnlockClear, r, 0%nat))
  | WUnlockClear => Some (quiet (WUnlockOut, with_counts (readers r) 0 r))
  | WUnlockOut => Some (spin_leave Idle r)
  | _ => None
  end.

(** Threads use the lock as its interface asks: they release what they hold. *)
Definition start (q : request) (p : pc) : option pc :=
  match p, q with
  | Idle, AskRead => Some (RLockSpin false false)
  | Idle, AskTryRead => Some (RTrySpin false)
  | Idle, AskWrite => Some (WLockSpin false false)
  | Idle, AskTryWrite => Some (WTrySpin false)
  | Reading, Release => Some (RUnlockSpin false)
  | Writing, Release => Some (WUnlockSpin false)
  | _, _ => None
  end.

Definition pc_step (w : site) (q : request) (p : pc) (r : rwlock) : option (pc * rwlock * nat) :=
  match p with
  | Idle | Reading | Writing => p' ← start q p; Some (p', r, 0%nat)
  | RLockSpin _ _ | RLockTest _ | RLockBack | RLockAdd _ | RLockOut => read_lock_step w p r
  | RTrySpin _ | RTryTest | RTryAdd | RTryOut _ => read_trylock_step w p r
  | RUnlockSpin _ | RUnlockTest | RUnlockDec | RUnlockOut => read_unlock_step w p r
  | WLockSpin _ _ | WLockTest _ | WLockBack | WLockSet _ | WLockOut => write_lock_step w p r
  | WTrySpin _ | WTryTest | WTrySet | WTryOut _ => write_trylock_step w p r
  | WUnlockSpin _ | WUnlockTest | WUnlockClear | WUnlockOut => write_unlock_step w p r
  end.

(** Thread [t] takes one step. *)
Definition step (t : nat) (w : site) (q : request) (s : state) : option state :=
  p ← (threads s !! t : option pc);
  res ← pc_step w q p (rw s);
  let '(p', r', n) := res in
  Some (mk_state r' (<[t := p']> (threads s)) (warnings s + n)).

Inductive steps : state -> state -> Prop :=
| steps_refl s : steps s s
| steps_more s s1 s2 t w q : steps s s1 -> step t w q s1 = Some s2 -> steps s s2.

(** A fresh lock and any threads, none of which has touched it. *)
Definition initial (s : state) : Prop :=
  rw s = rwlock_init /\ warnings s = 0%nat /\ map_Forall (fun _ p => p = Idle) (threads s).

(** ** The invariant *)

(** 1 for the program points inside the spinlock's section, ... *)
Definition in_section (p : pc) : Z :=
  match p with
  | RLockTest _ | RLockBack | RLockAdd _ | RLockOut | RTryTest | RTryAdd | RTryOut _
  | RUnlockTest | RUnlockDec | RUnlockOut | WLockTest _ | WLockBack | WLockSet _ | WLockOut
  | WTryTest | WTrySet | WTryOut _ | WUnlockTest | WUnlockClear | WUnlockOut => 1
  | _ => 0
  end.

(** ... for those counted in [readers], ... *)
Definition counted (p : pc) : Z :=
  match p with
  | Reading | RLockOut | RTryOut true | RUnlockSpin _ | RUnlockTest | RUnlockDec => 1
  | _ => 0
  end.

(** ... for those [writer] stands for, ... *)
Definition flagged (p : pc) : Z :=
  match p with
  | Writing | WLockOut | WTryOut true | WUnlockSpin _ | WUnlockTest | WUnlockClear => 1
  | _ => 0
  end.

(** ... and for those about to enter as reader or as writer. *)
Definition entering_r (p : pc) : Z := match p with RLockAdd _ | RTryAdd => 1 | _ => 0 end.
Definition entering_w (p : pc) : Z := match p with WLockSet _ | WTrySet => 1 | _ => 0 end.

Record Inv (s : state) : Prop := {
  inv_spin : total in_section (threads s) = lk (lock (rw s));
  inv_one : lk (lock (rw s)) <= 1;
  inv_readers : readers (rw s) = total counted (threads s);
  inv_writer : writer (rw s) = total flagged (threads s);
  inv_excl : writer (rw s) = 0 \/ writer (rw s) = 1 /\ readers (rw s) = 0;
  inv_enter_r : 0 < total entering_r (threads s) -> writer (rw s) = 0;
  inv_enter_w : 0 < total entering_w (threads s) -> writer (rw s) = 0 /\ readers (rw s) = 0;
  inv_quiet : warnings s = 0%nat
}.

Lemma initial_inv s : initial s -> Inv s.
Proof.
  intros (Hr & Hw & Ht).
  assert (forall f, f Idle = 0 -> total f (threads s) = 0) as H0.
  { intros f Hf. apply total_zero. intros t p Hp. by rewrite (Ht t p Hp). }
  split; rewrite ?Hr, ?H0 by done; try done; cbn; lia.
Qed.

Lemma section_bounds (m : gmap nat pc) : total entering_r m + total entering_w m <= total in_section m.
Proof.
  induction m as [|t p m Hm IH] using map_ind; [done|]. rewrite !total_insert_new by done.
  assert (entering_r p + entering_w p <= in_section p) by (destruct p; cbn; lia). lia.
Qed.

(** Facts about the thread that moves, for the arithmetic of one step. *)
Lemma mover s t p : Inv s -> threads s !! t = Some p ->
  in_section p <= lk (lock (rw s)) /\ counted p <= readers (rw s) /\ flagged p <= writer (rw s) /\
  entering_r p <= total entering_r (threads s) /\ entering_w p <= total entering_w (threads s) /\
  0 <= total entering_r (threads s) /\ 0 <= total entering_w (threads s) /\
  0 <= readers (rw s) /\ 0 <= writer (rw s) /\ 0 <= lk (lock (rw s)).
Proof.
  intros [Hs _ Hr Hw _ _ _ _] Ht. rewrite Hr, Hw, <-Hs.
  split_and!; (eapply total_ge || apply total_nonneg); try done; intros []; cbn; try case_match; lia.
Qed.

Lemma weights p :
  0 <= in_section p <= 1 /\ 0 <= counted p <= 1 /\ 0 <= flagged p <= 1 /\
  0 <= entering_r p <= 1 /\ 0 <= entering_w p <= 1.
Proof. destruct p; cbn; try case_match; lia. Qed.

(** The effect of a step of one thread on the lock, in terms of its program points. *)
Lemma pc_step_deltas w q p r p' r' n : pc_step w q p r = Some (p', r', n) ->
  0 <= lk (lock r) <= 1 -> in_section p <= lk (lock r) -> 0 <= readers r ->
  counted p <= readers r -> flagged p <= writer r <= 1 ->
  (0 < entering_r p -> writer r = 0) -> (0 < entering_w p -> writer r = 0 /\ readers r = 0) ->
  n = 0%nat /\
  lk (lock r') = lk (lock r) - in_section p + in_section p' /\ lk (lock r') <= 1 /\
  readers r' = readers r - counted p + counted p' /\
  writer r' = writer r - flagged p + flagged p' /\
  (0 < entering_r p' -> writer r' = 0 /\ in_section p = 1) /\
  (0 < entering_w p' -> writer r' = 0 /\ readers r' = 0 /\ in_section p = 1) /\
  (readers r' <> readers r \/ writer r' <> writer r -> in_section p = 1) /\
  (counted p < counted p' -> writer r = 0 /\ flagged p' = flagged p) /\
  (flagged p < flagged p' -> readers r = 0 /\ writer r = 0 /\ counted p' = counted p).
Proof.
  intros E Hl Hi Hr Hc Hf Her Hew.
  destruct p; cbn in E; unfold spin_turn, raw_spin_lock_turn, spin_leave, raw_spin_unlock, quiet in E;
    cbn [test_and_set] in E; repeat case_match; simplify_eq/=; try lia.
Qed.

Lemma step_inv t w q s s' : Inv s -> step t w q s = Some s' -> Inv s'.
Proof.
  intros HI. unfold step. intros (p & Ht & (res & E & Hs)%bind_Some)%bind_Some.
  destruct res as [[p' r'] n]. injection Hs as <-.
  pose proof (mover s t p HI Ht) as Hm. pose proof (section_bounds (delete t (threads s))) as Hsec.
  assert (forall f, total f (delete t (threads s)) = total f (threads s) - f p) as Hd
    by (intros f; rewrite (total_delete f _ t p Ht); lia).
  rewrite !Hd in Hsec.
  destruct HI as [Hsp H1 Hr Hw Hx Her Hew Hq].
  assert (forall f, total f (<[t := p']> (threads s)) = total f (threads s) - f p + f p') as Hu
    by (intros; by apply total_update).
  destruct (pc_step_deltas w q p (rw s) p' r' n E) as (D1 & D2 & D3 & D4 & D5 & D6 & D7 & D8 & D9 & D10); [lia..|].
  pose proof (weights p). pose proof (weights p').
  split; cbn [rw threads warnings]; rewrite ?Hu; lia.
Qed.

Lemma steps_inv s s' : initial s -> steps s s' -> Inv s'.
Proof. intros Hi Hs. induction Hs; [by apply initial_inv|eapply step_inv; eauto]. Qed.

(** Holding the lock, as a caller sees it. *)
Definition holds_write (p : pc) : bool := match p with Writing => true | _ => false end.
Definition holds (p : pc) : bool := match p with Reading | Writing => true | _ => false end.

(** C22: Whatever the interleaving of any number of threads that use the lock, a
    thread that holds it for writing excludes every other holder, at most one thread
    is inside the section the spinlock protects, the reader count is the number of
    threads counted in it, and neither lock reports a release of a lock not held. *)
Theorem rwlock_exclusion s s' t u p p' :
  initial s -> steps s s' ->
  threads s' !! t = Some p -> threads s' !! u = Some p' -> t <> u ->
  (holds_write p = true -> holds p' = false) /\
  (in_section p = 1 -> in_section p' = 0) /\
  readers (rw s') = total counted (threads s') /\
  warnings s' = 0%nat.
Proof.
  intros Hi Hs Ht Hu Hne. destruct (steps_inv s s' Hi Hs) as [Hsp H1 Hr Hw Hx _ _ Hq].
  assert (forall f, (forall p, 0 <= f p) -> f p + f p' <= total f (threads s')) as H2
    by (intros; by apply (total_ge2 _ _ t u)).
  pose proof (H2 in_section (fun p => proj1 (proj1 (weights p)))) as Hsec.
  assert (flagged p + flagged p' <= total flagged (threads s')) as Hf
    by (apply H2; intros x; pose proof (weights x); lia).
  assert (counted p' <= total counted (threads s')) as Hc.
  { apply (total_ge _ _ u); [|done]. intros x. pose proof (weights x). lia. }
  pose proof (weights p). pose proof (weights p'). rewrite <-Hr in Hc. rewrite <-Hw in Hf.
  split_and!; [|lia|done|done]. destruct p; try done. intros _. destruct p'; try done; cbn in *; lia.
Qed.

Definition two_threads : state := mk_state rwlock_init (<[1%nat := Idle]> {[0%nat := Idle]}) 0.

Lemma two_threads_initial : initial two_threads.
Proof.
  split; [reflexivity|]. split; [reflexivity|].
  intros k x. unfold two_threads. cbn [threads]. rewrite lookup_insert_Some, lookup_singleton_Some. naive_solver.
Qed.

(** Thread [t] taking [n] steps in a row. *)
Fixpoint solo (n : nat) (t : nat) (w : site) (q : request) (s : state) : option state :=
  match n with O => Some s | S n => s ← step t w q s; solo n t w q s end.

Lemma solo_steps n t w q s s' s0 : steps s0 s -> solo n t w q s = Some s' -> steps s0 s'.
Proof.
  revert s. induction n as [|n IH]; intros s Hs; cbn [solo]; [by intros [= <-]|].
  intros (s1 & E & H)%bind_Some. eapply IH; [|done]. by eapply steps_more.
Qed.

Definition here : site := mk_site 1 2 3.

Lemma rwlock_exclusion_witness :
  exists s', steps two_threads s' /\ threads s' !! 0%nat = Some Writing /\
    threads s' !! 1%nat = Some (RLockSpin true false) /\ warnings s' = 0%nat.
Proof.
  destruct (solo 5 0 here AskWrite two_threads) as [s1|] eqn:E1; [|by vm_compute in E1].
  destruct (solo 4 1 here AskRead s1) as [s2|] eqn:E2; [|by vm_compute in E1; injection E1 as <-; vm_compute in E2].
  exists s2. assert (steps two_threads s2) as Hs.
  { eapply solo_steps; [|exact E2]. eapply solo_steps; [|exact E1]. apply steps_refl. }
  split; [exact Hs|]. vm_compute in E1. injection E1 as <-. vm_compute in E2. injection E2 as <-.
  split; [reflexivity|]. split; [reflexivity|].
  apply (rwlock_exclusion two_threads _ 0 1 Writing (RLockSpin true false)); [|exact Hs|reflexivity..|discriminate].
  apply two_threads_initial.
Defined.

(** The program points and locks a thread running alone goes through. *)
Inductive path (w : site) (q : request) : nat -> pc -> rwlock -> pc -> Prop :=
| path_nil p r : path w q 0 p r p
| path_cons n p r p1 r1 p2 : pc_step w q p r = Some (p1, r1, 0%nat) -> path w q n p1 r1 p2 ->
    path w q (S n) p r p2.

Lemma solo_path n t w q s p p2 : threads s !! t = Some p -> path w q n p (rw s) p2 ->
  exists s', solo n t w q s = Some s' /\ threads s' !! t = Some p2.
Proof.
  intros Ht Hp. remember (rw s) as r eqn:Er. revert s Ht Er.
  induction Hp as [|n p r p1 r1 p2 E Hp IH]; intros s Ht Er; cbn [solo]; [eauto|]. subst r.
  unfold step. rewrite Ht, bind_Some_l. cbv beta. run E. apply IH; [apply lookup_insert_eq|done].
Qed.

(** The lock is obtained when nothing stands in the way: in any state in which
    the spinlock is free, an idle thread that runs alone holds the lock for reading after 5 steps if there is no writer, and for
    writing after 5 steps if there is neither writer nor reader. *)
Theorem rwlock_solo_progress s' t w :
  threads s' !! t = Some Idle -> lk (lock (rw s')) = 0 ->
  (writer (rw s') = 0 -> exists s'', solo 5 t w AskRead s' = Some s'' /\ threads s'' !! t = Some Reading) /\
  (writer (rw s') = 0 -> readers (rw s') = 0 ->
     exists s'', solo 5 t w AskWrite s' = Some s'' /\ threads s'' !! t = Some Writing).
Proof.
  intros Ht Hl. split; [intros Hw|intros Hw Hr].
  - eapply solo_path; [done|].
    apply path_cons with (RLockSpin false false) (rw s'); [done|].
    eapply path_cons; [by cbn; unfold spin_turn, raw_spin_lock_turn; cbn; rewrite Hl|].
    eapply path_cons; [by cbn; rewrite Hw|].
    eapply path_cons; [by cbn|]. eapply path_cons; [by cbn|]. apply path_nil.
  - eapply solo_path; [done|].
    apply path_cons with (WLockSpin false false) (rw s'); [done|].
    eapply path_cons; [by cbn; unfold spin_turn, raw_spin_lock_turn; cbn; rewrite Hl|].
    eapply path_cons; [by cbn; rewrite Hw, Hr|].
    eapply path_cons; [by cbn|]. eapply path_cons; [by cbn|]. apply path_nil.
Qed.


Lemma rwlock_solo_progress_witness :
  exists s'', solo 5 1 here AskWrite two_threads = Some s'' /\ threads s'' !! 1%nat = Some Writing.
Proof. apply (rwlock_solo_progress two_threads 1 here); reflexivity. Defined.

(** ** The spinlock's own check *)

Lemma step_owner t w q s s' : sp_owner (lock (rw s)) = 0 -> step t w q s = Some s' ->
  sp_owner (lock (rw s')) = 0.
Proof.
  intros Ho. unfold step. intros (p & Ht & (res & E & Hs)%bind_Some)%bind_Some.
  destruct res as [[p' r'] n]. injection Hs as <-. cbn [rw].
  destruct p; cbn in E; unfold spin_turn, raw_spin_lock_turn, spin_leave, raw_spin_unlock, quiet in E;
    cbn [test_and_set] in E; repeat case_match; by simplify_eq/=.
Qed.

Lemma steps_owner s s' : initial s -> steps s s' -> sp_owner (lock (rw s')) = 0.
Proof. intros Hi Hs. induction Hs; [by destruct Hi as [-> _]|eapply step_owner; eauto]. Qed.

(** The test that should detect a CPU taking a spinlock it already holds
    compares the owner with the constant 0 that every holder stores: whenever any
    thread is inside the section the spinlock protects, every other thread that
    starts to acquire it gets the "already locked" warning. *)
Theorem spinlock_warns_on_contention s s' u p :
  initial s -> steps s s' -> threads s' !! u = Some p -> in_section p = 1 ->
  spin_warns (lock (rw s')) = true.
Proof.
  intros Hi Hs Hu Hp. destruct (steps_inv s s' Hi Hs) as [Hsp H1 _ _ _ _ _ _].
  assert (in_section p <= total in_section (threads s')) as Hge.
  { apply (total_ge _ _ u); [|done]. intros x. pose proof (weights x). lia. }
  unfold spin_warns. rewrite (steps_owner s s' Hi Hs). replace (lk (lock (rw s'))) with 1 by lia. done.
Qed.

Lemma spinlock_warns_on_contention_witness :
  exists s', steps two_threads s' /\ spin_warns (lock (rw s')) = true.
Proof.
  destruct (solo 2 0 here AskWrite two_threads) as [s1|] eqn:E; [|by vm_compute in E].
  exists s1. assert (steps two_threads s1) as Hs by (eapply solo_steps; [apply steps_refl|exact E]).
  split; [exact Hs|].
  apply (spinlock_warns_on_contention two_threads s1 0 (WLockTest false)); [|exact Hs| |reflexivity].
  - apply two_threads_initial.
  - vm_compute in E. injection E as <-. reflexivity.
Defined.


End RwLock.
