(* ===== verification/Wait.v ===== *)
(** Wait queues ([kernel/wait.c]) and completions ([kernel/completion.c]). A wait is
    a small state machine, so that it can be interleaved with other threads: it
    starts, and then takes a turn each time [schedule()] returns to it. *)

From S2P Require Import Prelude.

Module Wait.

(** ** Wait queues *)

Definition WQ_FLAG_EXCLUSIVE : Z := 1.
Definition EINVAL : Z := 22.

(** [wait_queue_entry_t]: its address, flags and task; [func] is
    [default_wake_function]. *)
Record entry := mk_entry { e_addr : Z; e_flags : Z; e_task : Z }.

(** The entries linked in a [wait_queue_head_t], first to last. *)
Notation queue := (list entry).

Definition exclusive (e : entry) : bool := has_flag (e_flags e) WQ_FLAG_EXCLUSIVE.

(** [!list_empty(&wq_entry->link)] *)
Definition queued (q : queue) (e : entry) : bool := existsb (fun e' => e_addr e' =? e_addr e) q.

Definition wait_queue_add (q : queue) (e : entry) : queue :=
  if queued q e then q else if exclusive e then q ++ [e] else e :: q.

Fixpoint wait_queue_remove (q : queue) (e : entry) : queue :=
  match q with
  | [] => []
  | e' :: q => if e_addr e' =? e_addr e then q else e' :: wait_queue_remove q e
  end.

Section Wakeups.
(** [task_wakeup]: its result for a task. *)
Context (task_wakeup : Z -> Z).

Definition default_wake_function (e : entry) : Z := task_wakeup (e_task e).

(** The tasks each function calls [task_wakeup] on, in order. *)
Fixpoint wake_up (q : queue) : list Z :=
  match q with
  | [] => []
  | e :: q => e_task e :: (if default_wake_function e =? 0 then wake_up q else [])
  end.

Definition wake_up_all (q : queue) : list Z := e_task <$> q.

Fixpoint wake_up_interruptible (q : queue) : list Z :=
  match q with
  | [] => []
  | e :: q =>
      if exclusive e then wake_up_interruptible q
      else e_task e :: (if default_wake_function e =? 0 then wake_up_interruptible q else [])
  end.

Definition wake_up_interruptible_all (q : queue) : list Z :=
  e_task <$> filter (fun e => exclusive e = false) q.
End Wakeups.

(** ** Waiting *)

(** The condition is an [int] parameter: the waiting functions get its value. *)

(** A waiter sleeps in [schedule()] or is back in its caller with a result. *)
Inductive phase := Asleep | Back (r : Z).

(** What a waiter finds when [schedule()] returns: the queue, [signal_pending] and
    [jiffies]. *)
Record turn := mk_turn { t_queue : queue; t_signal : bool; t_now : Z }.

(** [wait_event]. *)
Definition wait_event (condition : bool) (e : entry) (q : queue) : phase * queue :=
  if condition then (Back 0, q) else (Asleep, wait_queue_add q e).
Definition wait_event_turn (condition : bool) (e : entry) (t : turn) : phase * queue :=
  if condition then (Back 0, wait_queue_remove (t_queue t) e) else (Asleep, t_queue t).

Section Timed.
(** [time_before] and the value of [ERESTARTSYS]. *)
Context (time_before : Z -> Z -> bool) (ERESTARTSYS : Z).

(** [wait_event_timeout], called at time [now]; the loop's test comes before the
    first sleep. *)
Definition timeout_test (condition : bool) (expire now : Z) (e : entry) (q : queue) : phase * queue :=
  if negb condition && time_before now expire then (Asleep, q)
  else (Back (if condition then s32 (expire - now) else 0), wait_queue_remove q e).

Definition wait_event_timeout (condition : bool) (timeout now : Z) (e : entry) (q : queue)
    : phase * queue :=
  if timeout =? 0 then (Back 0, q)
  else if condition then (Back (s32 timeout), q)
  else timeout_test condition (u32 (now + timeout)) now e (wait_queue_add q e).
Definition wait_event_timeout_turn (condition : bool) (expire : Z) (e : entry) (t : turn)
    : phase * queue :=
  timeout_test condition expire (t_now t) e (t_queue t).

(** [wait_event_interruptible]. *)
Definition wait_event_interruptible (condition : bool) (e : entry) (q : queue) : phase * queue :=
  if condition then (Back 0, q) else (Asleep, wait_queue_add q e).
Definition wait_event_interruptible_turn (condition : bool) (e : entry) (t : turn) : phase * queue :=
  if t_signal t then (Back (- ERESTARTSYS), wait_queue_remove (t_queue t) e)
  else if condition then (Back 0, wait_queue_remove (t_queue t) e)
  else (Asleep, t_queue t).

(** [wait_event_interruptible_timeout]. *)
Definition wait_event_interruptible_timeout (condition : bool) (timeout now : Z) (e : entry) (q : queue)
    : phase * queue :=
  wait_event_timeout condition timeout now e q.
Definition wait_event_interruptible_timeout_turn (condition : bool) (expire : Z) (e : entry) (t : turn)
    : phase * queue :=
  if t_signal t then (Back (- ERESTARTSYS), wait_queue_remove (t_queue t) e)
  else timeout_test condition expire (t_now t) e (t_queue t).

End Timed.

(** The rest of a wait, given what each return of [schedule()] finds. *)
Fixpoint wait_rest (f : turn -> phase * queue) (p : phase) (ts : list turn) : phase :=
  match p, ts with
  | Asleep, t :: ts => wait_rest f (f t).1 ts
  | _, _ => p
  end.

(** ** Completions *)

Definition UINT_MAX : Z := 2 ^ 32 - 1.

Record completion := mk_comp { comp_done : Z; comp_wait : queue }.

Definition completion_init : completion := mk_comp 0 [].

(** [completion_complete] and [completion_complete_all], with the tasks woken. *)
Definition completion_complete (c : completion) : completion * list Z :=
  (mk_comp (u32 (comp_done c + 1)) (comp_wait c), wake_up_all (comp_wait c)).
Definition completion_complete_all (c : completion) : completion * list Z :=
  (mk_comp UINT_MAX (comp_wait c), wake_up_all (comp_wait c)).

(** The locked decrement that follows every successful wait. *)
Definition completion_take (c : completion) : completion :=
  mk_comp (u32 (comp_done c - 1)) (comp_wait c).

(** The four waits: the condition passed is [comp->done > 0] at the call. They
    start waiting, and [..._end] says what follows the wait's result [r]: the result
    of the function, and whether [done] is decremented. *)
Definition completion_wait (c : completion) (e : entry) : phase * completion :=
  let '(p, q) := wait_event (0 <? comp_done c) e (comp_wait c) in (p, mk_comp (comp_done c) q).
Definition completion_wait_end (r : Z) (c : completion) : Z * completion := (0, completion_take c).

Definition completion_wait_timeout (before : Z -> Z -> bool) (c : completion) (timeout now : Z) (e : entry)
    : phase * completion :=
  let '(p, q) := wait_event_timeout before (0 <? comp_done c) timeout now e (comp_wait c) in
  (p, mk_comp (comp_done c) q).
Definition completion_wait_timeout_end (r : Z) (c : completion) : Z * completion :=
  if r =? 0 then (0, c) else (r, completion_take c).

Definition completion_wait_interruptible (c : completion) (e : entry) : phase * completion :=
  let '(p, q) := wait_event_interruptible (0 <? comp_done c) e (comp_wait c) in
  (p, mk_comp (comp_done c) q).
Definition completion_wait_interruptible_end (r : Z) (c : completion) : Z * completion :=
  if r =? 0 then (0, completion_take c) else (r, c).

Definition completion_wait_interruptible_timeout (before : Z -> Z -> bool) (c : completion)
    (timeout now : Z) (e : entry) : phase * completion :=
  let '(p, q) := wait_event_interruptible_timeout before (0 <? comp_done c) timeout now e (comp_wait c) in
  (p, mk_comp (comp_done c) q).
Definition completion_wait_interruptible_timeout_end (r : Z) (c : completion) : Z * completion :=
  if r <=? 0 then (r, c) else (r, completion_take c).

(** ** Wait queues hold what was added, in order *)

Lemma queued_spec q e : queued q e = true <-> e_addr e ∈ (e_addr <$> q).
Proof.
  unfold queued. rewrite existsb_exists, list_elem_of_fmap. split.
  - intros (e' & Hin & E%Z.eqb_eq). exists e'. split; [done|]. by apply list_elem_of_In.
  - intros (e' & -> & Hin). exists e'. split; [by apply list_elem_of_In|apply Z.eqb_refl].
Qed.

Lemma remove_absent q e : queued q e = false -> wait_queue_remove q e = q.
Proof.
  induction q as [|e' q IH]; [done|]. cbn. intros [-> H]%orb_false_elim. by rewrite IH.
Qed.

Lemma remove_app q q' e : queued q e = false -> wait_queue_remove (q ++ q') e = q ++ wait_queue_remove q' e.
Proof. induction q as [|e' q IH]; [done|]. cbn. intros [-> H]%orb_false_elim. by rewrite IH. Qed.

(** Adding and then removing an entry that was not queued restores the queue. *)
Lemma add_remove q e : queued q e = false -> wait_queue_remove (wait_queue_add q e) e = q.
Proof.
  intros H. unfold wait_queue_add. rewrite H. destruct (exclusive e).
  - rewrite remove_app by done. cbn. by rewrite Z.eqb_refl, app_nil_r.
  - cbn. by rewrite Z.eqb_refl.
Qed.

(** Queues in which the non-exclusive entries come first, each entry once. *)
Record Queue (q : queue) : Prop := {
  q_nodup : NoDup (e_addr <$> q);
  q_split : exists l l', q = l ++ l' /\ Forall (fun e => exclusive e = false) l /\
              Forall (fun e => exclusive e = true) l'
}.

Lemma queue_add q e : Queue q -> Queue (wait_queue_add q e).
Proof.
  intros [Hn (l & l' & -> & Hl & Hl')]. unfold wait_queue_add.
  destruct (queued (l ++ l') e) eqn:E; [split; [done|naive_solver]|].
  assert (e_addr e ∉ (e_addr <$> l ++ l')) as Hni by (rewrite <-queued_spec; congruence).
  destruct (exclusive e) eqn:Ee; split.
  - rewrite fmap_app. apply NoDup_app. split; [done|]. split; [|apply NoDup_singleton].
    intros x Hx. cbn. by intros ->%list_elem_of_singleton.
  - exists l, (l' ++ [e]). rewrite app_assoc. split; [done|]. split; [done|].
    apply Forall_app. split; [done|]. by constructor.
  - cbn. constructor; done.
  - exists (e :: l), l'. split; [done|]. split; [by constructor|done].
Qed.

Lemma remove_sublist q e : wait_queue_remove q e `sublist_of` q.
Proof.
  induction q as [|e' q IH]; [done|]. cbn. destruct (_ =? _); [by apply sublist_cons|by apply sublist_skip].
Qed.

Lemma queue_remove q e : Queue q -> Queue (wait_queue_remove q e).
Proof.
  intros [Hn (l & l' & Hq & Hl & Hl')]. split.
  - eapply sublist_NoDup; [exact Hn|]. apply fmap_sublist, remove_sublist.
  - pose proof (remove_sublist q e) as Hs. rewrite Hq in Hs at 2.
    apply sublist_app_r in Hs as (k1 & k2 & -> & H1 & H2). exists k1, k2. split; [done|].
    rewrite !Forall_forall in *. split; intros x Hx; [apply Hl|apply Hl']; by eapply elem_of_sublist.
Qed.

(** Any history of additions and removals. *)
Inductive queue_op := Add (e : entry) | Remove (e : entry).
Fixpoint queue_run (ops : list queue_op) (q : queue) : queue :=
  match ops with
  | [] => q
  | Add e :: ops => queue_run ops (wait_queue_add q e)
  | Remove e :: ops => queue_run ops (wait_queue_remove q e)
  end.

Lemma queue_run_ok ops q : Queue q -> Queue (queue_run ops q).
Proof.
  revert q. induction ops as [|[e|e] ops IH]; intros q Hq; cbn [queue_run]; [done|..]; apply IH.
  - by apply queue_add.
  - by apply queue_remove.
Qed.

Lemma queue_empty : Queue [].
Proof. split; [constructor|]. by exists [], []. Qed.

Lemma interruptible_filter tw q :
  wake_up_interruptible tw q = wake_up tw (filter (fun e => exclusive e = false) q).
Proof.
  induction q as [|e q IH]; [done|]. cbn [wake_up_interruptible]. rewrite filter_cons.
  destruct (exclusive e); case_decide; try done. cbn [wake_up]. by rewrite IH.
Qed.

(** The entries [wake_up] goes through: up to and including the first that wakes. *)
Lemma wake_up_prefix tw q :
  exists l r, q = l ++ r /\ wake_up tw q = e_task <$> l /\
    Forall (fun e => tw (e_task e) = 0) (removelast l) /\
    (r <> [] -> exists e, last l = Some e /\ tw (e_task e) <> 0).
Proof.
  induction q as [|e q (l & r & -> & Hw & Hf & Hr)]; [by exists [], []|]. cbn [wake_up].
  unfold default_wake_function at 1. destruct (Z.eqb_spec (tw (e_task e)) 0) as [E|E].
  - exists (e :: l), r. rewrite Hw. split_and!; [done..| |].
    + destruct l; [constructor|]. by constructor.
    + intros Hn. destruct (Hr Hn) as (e' & Hl & He'). exists e'. destruct l; [done|]. done.
  - exists [e], (l ++ r). split_and!; [done..|constructor|]. intros _. by exists e.
Qed.

(** A waiter that wakes stops [wake_up] before anything behind it. *)
Lemma wake_up_stops tw l l' : Exists (fun e => tw (e_task e) <> 0) l -> wake_up tw (l ++ l') = wake_up tw l.
Proof.
  induction 1 as [e l He|e l H IH]; cbn; unfold default_wake_function.
  - by destruct (Z.eqb_spec (tw (e_task e)) 0).
  - by rewrite IH.
Qed.

(** ** Claims *)

(** The wait functions receive the value the condition had at the call. A waiter
    for which it was false never reports the event, whatever wakes it and however
    often: [wait_event] never returns, the interruptible wait ends only by a signal,
    the timed waits only by the timeout or a signal. A waiter for which it was true
    returns at once and leaves the queue alone. *)
Theorem waiters_never_see_event before ERESTARTSYS e q timeout now expire ts :
  wait_rest (wait_event_turn false e) (wait_event false e q).1 ts = Asleep /\
  wait_rest (wait_event_interruptible_turn ERESTARTSYS false e) (wait_event_interruptible false e q).1 ts
    ∈ [Asleep; Back (- ERESTARTSYS)] /\
  wait_rest (wait_event_timeout_turn before false expire e)
    (wait_event_timeout before false timeout now e q).1 ts ∈ [Asleep; Back 0] /\
  wait_rest (wait_event_interruptible_timeout_turn before ERESTARTSYS false expire e)
    (wait_event_interruptible_timeout before false timeout now e q).1 ts
    ∈ [Asleep; Back 0; Back (- ERESTARTSYS)] /\
  wait_event true e q = (Back 0, q) /\ wait_event_interruptible true e q = (Back 0, q).
Proof.
  assert (forall f (S : list phase) p, (forall t, (f t).1 ∈ S) -> p ∈ S -> wait_rest f p ts ∈ S) as Hrest.
  { intros f S. induction ts as [|t ts IH]; intros [|r] Hf Hp; cbn; try done. by apply IH. }
  split_and!; [|apply Hrest|apply Hrest|apply Hrest|done|done].
  - assert (Asleep ∈ [Asleep]) as Ha by set_solver. cbn [wait_event fst].
    pose proof (Hrest (wait_event_turn false e) [Asleep] Asleep (fun _ => Ha) Ha). set_solver.
  - intros t. unfold wait_event_interruptible_turn. destruct (t_signal t); cbn; set_solver.
  - cbn. set_solver.
  - intros t. unfold wait_event_timeout_turn, timeout_test. destruct (_ && _); cbn; set_solver.
  - unfold wait_event_timeout, timeout_test. destruct (_ =? _); [|destruct (_ && _)]; cbn; set_solver.
  - intros t. unfold wait_event_interruptible_timeout_turn, timeout_test.
    destruct (t_signal t); [|destruct (_ && _)]; cbn; set_solver.
  - unfold wait_event_interruptible_timeout, wait_event_timeout, timeout_test.
    destruct (_ =? _); [|destruct (_ && _)]; cbn; set_solver.
Qed.

(** In a queue made by any history of additions and removals each entry is
    queued once and the non-exclusive entries precede the exclusive ones. [wake_up]
    tries the entries in order and stops behind the first task that wakes;
    [wake_up_interruptible] does the same on the non-exclusive entries only, so the
    two agree whenever a non-exclusive task can be woken. *)
Theorem wake_up_correct tw ops q :
  q = queue_run ops [] ->
  Queue q /\
  (exists l r, q = l ++ r /\ wake_up tw q = e_task <$> l /\
     Forall (fun e => tw (e_task e) = 0) (removelast l) /\
     (r <> [] -> exists e, last l = Some e /\ tw (e_task e) <> 0)) /\
  wake_up_interruptible tw q = wake_up tw (filter (fun e => exclusive e = false) q) /\
  (Exists (fun e => exclusive e = false /\ tw (e_task e) <> 0) q ->
   wake_up tw q = wake_up_interruptible tw q).
Proof.
  intros ->. pose proof (queue_run_ok ops [] queue_empty) as HQ.
  split_and!; [done|apply wake_up_prefix|apply interruptible_filter|]. intros Hex.
  destruct HQ as [_ (l & l' & E & Hl & Hl')]. rewrite interruptible_filter, E in *.
  rewrite Exists_exists in Hex. destruct Hex as (e & Hin & He & Hw).
  rewrite filter_app, (filter_all _ l), (filter_none _ l'), app_nil_r.
  - apply wake_up_stops, Exists_exists. exists e. split; [|done].
    apply elem_of_app in Hin as [|Hin]; [done|]. rewrite Forall_forall in Hl'. apply Hl' in Hin. congruence.
  - eapply Forall_impl; [exact Hl'|]. cbn. congruence.
  - done.
Qed.

Lemma wake_up_correct_witness :
  exists q, q = queue_run [Add (mk_entry 10 1 100); Add (mk_entry 20 0 200); Add (mk_entry 30 0 300);
                           Remove (mk_entry 30 0 300)] [] /\
    Queue q /\ wake_up (fun t => if t =? 200 then 1 else 0) q = [200].
Proof.
  eexists. split; [reflexivity|].
  destruct (wake_up_correct (fun t => if t =? 200 then 1 else 0)
              [Add (mk_entry 10 1 100); Add (mk_entry 20 0 200); Add (mk_entry 30 0 300);
               Remove (mk_entry 30 0 300)] _ eq_refl) as (HQ & _).
  split; [exact HQ|reflexivity].
Defined.

(** Completing and then waiting succeeds at once and leaves the count as it
    was. But the test and the decrement of [completion_wait] are not one critical
    section: with one completion outstanding two waiters can both return, and the
    unsigned count goes from 0 to UINT_MAX, as if every later wait were completed. *)
Theorem completion_count d q e e' :
  0 <= d < UINT_MAX ->
  let c := (completion_complete (mk_comp d q)).1 in
  completion_wait c e = (Back 0, c) /\
  (completion_wait_end 0 c).2 = mk_comp d q /\
  (d = 0 ->
   let c1 := (completion_wait c e).2 in
   completion_wait c1 e' = (Back 0, c1) /\
   (completion_wait_end 0 (completion_wait_end 0 c1).2).2 = mk_comp UINT_MAX q).
Proof.
  unfold UINT_MAX. intros Hd. cbn [completion_complete fst].
  assert (u32 (d + 1) = d + 1) as E by (apply u32_small; lia). cbn [comp_done comp_wait]. rewrite E.
  assert (forall e, completion_wait (mk_comp (d + 1) q) e = (Back 0, mk_comp (d + 1) q)) as Hw.
  { intros x. unfold completion_wait. cbn [comp_done comp_wait]. by destruct (Z.ltb_spec 0 (d + 1)); [|lia]. }
  cbv zeta. rewrite !Hw. cbn [snd]. split_and!; [done| |].
  - cbn. unfold completion_take. cbn. rewrite u32_small by lia. f_equal. lia.
  - intros ->. by split.
Qed.

Lemma completion_count_witness :
  completion_wait (mk_comp 1 []) (mk_entry 10 0 100) = (Back 0, mk_comp 1 []).
Proof.
  destruct (completion_count 0 [] (mk_entry 10 0 100) (mk_entry 20 0 200)) as [E _].
  - unfold UINT_MAX. lia.
  - exact E.
Defined.

End Wait.
