(* ===== verification/Eventfd.v ===== *)
(** Event counters, [kernel/io/eventfd.c]: the table of eventfds, and reads and
    writes of one counter by any number of threads, interleaved at its mutex and at
    its waits. *)

From S2P Require Import Prelude Wait.

Module Eventfd.
Import Wait.

Definition EFD_SEMAPHORE : Z := 1.
Definition EFD_CLOEXEC : Z := 2.
Definition EFD_NONBLOCK : Z := 4.
Definition MAX_EVENTFD : nat := 1024.
Definition UINT64_MAX : Z := 2 ^ 64 - 1.

(** ** Creation and release *)

(** [eventfd_table]: pointers, 0 for NULL. *)
Notation table := (list Z).

Definition eventfd_init : table := replicate MAX_EVENTFD 0.

(** What [eventfd_create] leaves: its result, the table, and the initial count, the
    flags and the file flags of the new eventfd. *)
Record created := mk_created { c_count : Z; c_flags : Z; c_nonblock : bool; c_cloexec : bool }.

(** [efd] is the result of [kmalloc], 0 for failure; [fd] that of [file_anon_fd]. *)
Definition eventfd_create (efd fd : Z) (initval flags : Z) (t : table)
    : Z * table * option created :=
  if has_flag flags (Z.lnot (Z.lor EFD_SEMAPHORE (Z.lor EFD_CLOEXEC EFD_NONBLOCK))) then (-1, t, None)
  else
    match list_find (fun p => p = 0) t with
    | None => (-1, t, None)
    | Some (id, _) =>
        if efd =? 0 then (-1, t, None)
        else
          let t := <[id := efd]> t in
          if fd <? 0 then (-1, <[id := 0]> t, None)
          else (fd, t, Some (mk_created initval flags (has_flag flags EFD_NONBLOCK) (has_flag flags EFD_CLOEXEC)))
    end.

(** [eventfd_release], with the pointer that is freed. *)
Definition eventfd_release (efd : Z) (t : table) : Z * table * option Z :=
  if efd =? 0 then (0, t, None)
  else
    match list_find (fun p => p = efd) t with
    | Some (id, _) => (0, <[id := 0]> t, Some efd)
    | None => (0, t, Some efd)
    end.

(** ** One eventfd and its threads *)

(** Program points of [eventfd_read] and [eventfd_write]: before the checks, at the
    test under the mutex, at the call of [wait_event_interruptible], asleep in it,
    taking the mutex again, changing the count under the mutex, and returned. *)
Inductive pc :=
| RStart (size : Z) | RTest | RWait | RSleep | RRelock | RTake | RDone (val : Z) | RFail
| WStart (size val : Z) | WTest (val : Z) | WWait (val : Z) | WSleep (val : Z) | WRelock (val : Z)
| WAdd (val : Z) | WDone (val : Z) | WFail.

Record state := mk_state {
  efd_count : Z;
  semaphore : bool;                 (* [flags & EFD_SEMAPHORE] *)
  nonblock : bool;                  (* [f_flags & O_NONBLOCK] *)
  mutex : bool;                     (* held *)
  wait_read : list entry;
  wait_write : list entry;
  threads : gmap nat pc
}.

Definition with_count (n : Z) (s : state) : state :=
  mk_state n (semaphore s) (nonblock s) (mutex s) (wait_read s) (wait_write s) (threads s).
Definition with_mutex (b : bool) (s : state) : state :=
  mk_state (efd_count s) (semaphore s) (nonblock s) b (wait_read s) (wait_write s) (threads s).
Definition with_read (q : list entry) (s : state) : state :=
  mk_state (efd_count s) (semaphore s) (nonblock s) (mutex s) q (wait_write s) (threads s).
Definition with_write (q : list entry) (s : state) : state :=
  mk_state (efd_count s) (semaphore s) (nonblock s) (mutex s) (wait_read s) q (threads s).

(** [mutex_lock]: no step while it is held. *)
Definition acquire (next : pc) (s : state) : option (pc * state) :=
  if mutex s then None else Some (next, with_mutex true s).
Definition release (next : pc) (s : state) : option (pc * state) := Some (next, with_mutex false s).

(** The wait queue entry of a thread. *)
Definition entry_of (t : nat) : entry := mk_entry (Z.of_nat t) 0 (Z.of_nat t).

Section Steps.
Context (ERESTARTSYS : Z).

(** [eventfd_read]; [signal] is what [signal_pending] says if the thread is asleep. *)
Definition eventfd_read_step (t : nat) (signal : bool) (p : pc) (s : state) : option (pc * state) :=
  match p with
  | RStart size => if size <? 8 then Some (RFail, s) else acquire RTest s
  | RTest =>
      if efd_count s =? 0
      then (if nonblock s then release RFail s else release RWait s)
      else Some (RTake, s)
  | RWait =>
      match wait_event_interruptible (0 <? efd_count s) (entry_of t) (wait_read s) with
      | (Back r, q) => Some (if r =? 0 then RRelock else RFail, with_read q s)
      | (Asleep, q) => Some (RSleep, with_read q s)
      end
  | RSleep =>
      match wait_event_interruptible_turn ERESTARTSYS false (entry_of t) (mk_turn (wait_read s) signal 0) with
      | (Back r, q) => Some (if r =? 0 then RRelock else RFail, with_read q s)
      | (Asleep, q) => Some (RSleep, with_read q s)
      end
  | RRelock => acquire RTake s
  | RTake =>
      if semaphore s then release (RDone 1) (with_count (u64 (efd_count s - 1)) s)
      else release (RDone (efd_count s)) (with_count 0 s)
  | _ => None
  end.

(** [eventfd_write]. *)
Definition eventfd_write_step (t : nat) (signal : bool) (p : pc) (s : state) : option (pc * state) :=
  match p with
  | WStart size val =>
      if size <? 8 then Some (WFail, s)
      else if val =? UINT64_MAX then Some (WFail, s)
      else acquire (WTest val) s
  | WTest val =>
      if u64 (UINT64_MAX - efd_count s) <? val
      then (if nonblock s then release WFail s else release (WWait val) s)
      else Some (WAdd val, s)
  | WWait val =>
      match wait_event_interruptible (val <=? u64 (UINT64_MAX - efd_count s)) (entry_of t) (wait_write s) with
      | (Back r, q) => Some (if r =? 0 then WRelock val else WFail, with_write q s)
      | (Asleep, q) => Some (WSleep val, with_write q s)
      end
  | WSleep val =>
      match wait_event_interruptible_turn ERESTARTSYS false (entry_of t) (mk_turn (wait_write s) signal 0) with
      | (Back r, q) => Some (if r =? 0 then WRelock val else WFail, with_write q s)
      | (Asleep, q) => Some (WSleep val, with_write q s)
      end
  | WRelock val => acquire (WAdd val) s
  | WAdd val => release (WDone val) (with_count (u64 (efd_count s + val)) s)
  | _ => None
  end.

Definition pc_step (t : nat) (signal : bool) (p : pc) (s : state) : option (pc * state) :=
  match p with
  | RStart _ | RTest | RWait | RSleep | RRelock | RTake => eventfd_read_step t signal p s
  | WStart _ _ | WTest _ | WWait _ | WSleep _ | WRelock _ | WAdd _ => eventfd_write_step t signal p s
  | _ => None
  end.

Definition step (t : nat) (signal : bool) (s : state) : option state :=
  p ← (threads s !! t : option pc);
  '(p', s') ← pc_step t signal p s;
  Some (mk_state (efd_count s') (semaphore s') (nonblock s') (mutex s') (wait_read s') (wait_write s')
          (<[t := p']> (threads s))).

Inductive steps : state -> state -> Prop :=
| steps_refl s : steps s s
| steps_more s s1 s2 t signal : steps s s1 -> step t signal s1 = Some s2 -> steps s s2.

(** [eventfd_poll], on a count read under the mutex. *)
Definition POLLIN_MASK : Z := Z.lor 0x1 0x40.
Definition POLLOUT_MASK : Z := Z.lor 0x4 0x100.
Definition eventfd_poll (s : state) : Z :=
  Z.lor (if 0 <? efd_count s then POLLIN_MASK else 0)
        (if 0 <? u64 (UINT64_MAX - efd_count s) then POLLOUT_MASK else 0).

(** ** Counting *)

Definition starting (p : pc) : Prop :=
  match p with RStart _ => True | WStart _ v => 0 <= v <= UINT64_MAX | _ => False end.

(** The mutex is held at these points. *)
Definition holding (p : pc) : Z :=
  match p with RTest | RTake | WTest _ | WAdd _ => 1 | _ => 0 end.

Definition got (p : pc) : Z := match p with RDone v => v | _ => 0 end.
Definition put (p : pc) : Z := match p with WDone v => v | _ => 0 end.

(** What a thread at [p] relies on. *)
Definition relies (n : Z) (p : pc) : Prop :=
  match p with
  | RTake => 0 < n
  | WStart _ v | WTest v => 0 <= v <= UINT64_MAX
  | WAdd v => 0 <= v /\ n + v <= UINT64_MAX
  | RWait | RSleep | RRelock | WWait _ | WSleep _ | WRelock _ => False
  | RDone v => 0 < v
  | _ => True
  end.

Record Inv (n0 : Z) (s : state) : Prop := {
  inv_nonblock : nonblock s = true;
  inv_range : 0 <= efd_count s <= UINT64_MAX;
  inv_mutex : total holding (threads s) = if mutex s then 1 else 0;
  inv_sum : efd_count s + total got (threads s) = n0 + total put (threads s);
  inv_rely : map_Forall (fun _ p => relies (efd_count s) p) (threads s)
}.

(** What changes the count is done by a thread that holds the mutex, and preserves
    what all threads but those at [RTake] or [WAdd] rely on. *)
Lemma relies_outside n n' p : holding p = 0 -> relies n p -> relies n' p.
Proof. by destruct p. Qed.

Lemma pc_step_ok t signal p s p' s' :
  pc_step t signal p s = Some (p', s') -> nonblock s = true -> 0 <= efd_count s <= UINT64_MAX ->
  relies (efd_count s) p -> (holding p = 1 -> mutex s = true) ->
  nonblock s' = true /\ 0 <= efd_count s' <= UINT64_MAX /\
  efd_count s' + got p' - got p = efd_count s + put p' - put p /\
  relies (efd_count s') p' /\
  (if mutex s' then 1 else 0) = (if mutex s then 1 else 0) - holding p + holding p' /\
  (efd_count s' <> efd_count s -> holding p = 1).
Proof.
  unfold UINT64_MAX. intros E Hnb Hr Hp Hm.
  destruct p; try done; cbn in E, Hp, Hm; unfold acquire, release in E; rewrite ?Hnb in E.
  - destruct (size <? 8); simplify_eq/=; [split_and!; done || lia|].
    destruct (mutex s); simplify_eq/=. split_and!; done || lia.
  - specialize (Hm eq_refl). destruct (Z.eqb_spec (efd_count s) 0); simplify_eq/=; rewrite Hm; split_and!; done || lia.
  - specialize (Hm eq_refl). destruct (semaphore s); simplify_eq/=; rewrite Hm; [rewrite u64_small by lia|];
      split_and!; done || lia.
  - destruct (size <? 8); simplify_eq/=; [split_and!; done || lia|].
    destruct (val =? UINT64_MAX); simplify_eq/=; [split_and!; done || lia|].
    destruct (mutex s); simplify_eq/=. split_and!; done || lia.
  - specialize (Hm eq_refl). unfold UINT64_MAX in *. rewrite u64_small in E by lia.
    destruct (Z.ltb_spec (2 ^ 64 - 1 - efd_count s) val); simplify_eq/=; rewrite Hm; unfold UINT64_MAX;
      split_and!; done || lia.
  - specialize (Hm eq_refl). unfold UINT64_MAX in Hp. simplify_eq/=. rewrite Hm, u64_small by lia.
    split_and!; done || lia.
Qed.

Lemma efd_step_inv n0 t signal s s' : Inv n0 s -> step t signal s = Some s' -> Inv n0 s'.
Proof.
  intros [Hnb Hr Hm Hs Hf] (p & Ht & ([p' s1] & E & Hs')%bind_Some)%bind_Some.
  injection Hs' as <-. pose proof (Hf t p Ht) as Hp.
  assert (forall x, 0 <= holding x) as Hh by (intros []; cbn; lia).
  assert (holding p = 1 -> mutex s = true) as Hpm.
  { pose proof (total_ge holding _ t p Hh Ht) as Hge. destruct (mutex s); [done|]. lia. }
  destruct (pc_step_ok t signal p s p' s1 E Hnb Hr Hp Hpm) as (H1 & H2 & H3 & H4 & H5 & H6).
  split; cbn [nonblock efd_count mutex threads]; rewrite ?(total_update _ _ t p p' Ht); try done.
  - lia.
  - lia.
  - intros u x Hx. destruct (decide (u = t)) as [->|Hne].
    + rewrite lookup_insert_eq in Hx. by simplify_eq.
    + rewrite lookup_insert_ne in Hx by done. specialize (Hf u x Hx). cbn in Hf.
      destruct (decide (efd_count s1 = efd_count s)) as [->|Hc]; [done|].
      apply (relies_outside (efd_count s)); [|done].
      pose proof (total_ge2 holding _ t u p x Hh Ht Hx (not_eq_sym Hne)) as Hge.
      rewrite Hm, (H6 Hc) in Hge. pose proof (Hh x). destruct (mutex s); lia.
Qed.

(** An eventfd in use by threads that have not started, in non-blocking mode. *)
Definition initial (s : state) : Prop :=
  nonblock s = true /\ mutex s = false /\ 0 <= efd_count s <= UINT64_MAX /\
  map_Forall (fun _ p => starting p) (threads s).

Lemma efd_initial_inv s : initial s -> Inv (efd_count s) s.
Proof.
  intros (Hn & Hm & Hr & Hf).
  assert (forall f, (forall p, starting p -> f p = 0) -> total f (threads s) = 0) as H0.
  { intros f H. apply total_zero. intros t p Hp. apply H, (Hf t p Hp). }
  split; rewrite ?H0 by (by intros []); try done.
  - by rewrite Hm.
  - intros t p Hp. specialize (Hf t p Hp). by destruct p.
Qed.

Lemma efd_steps_inv s s' : initial s -> steps s s' -> Inv (efd_count s) s'.
Proof. intros Hi Hs. induction Hs; [by apply efd_initial_inv|eapply efd_step_inv; eauto]. Qed.

(** Non-blocking reads and writes of an eventfd, in any number and any
    interleaving, neither lose nor invent counts: the counter stays a 64-bit value
    and always equals its initial value plus what completed writes added minus what
    completed reads returned, and no completed read returned 0. *)
Theorem eventfd_conserves s s' :
  initial s -> steps s s' ->
  0 <= efd_count s' <= UINT64_MAX /\
  efd_count s' + total got (threads s') = efd_count s + total put (threads s') /\
  map_Forall (fun _ p => forall v, p = RDone v -> 0 < v) (threads s').
Proof.
  intros Hi Hs. destruct (efd_steps_inv s s' Hi Hs) as [_ Hr _ Hsum Hf]. split_and!; [apply Hr..|done|].
  intros t p Hp v ->. apply (Hf t _ Hp).
Qed.

End Steps.

(** The threads of [ts] taking one step each, in that order, without signals. *)
Fixpoint schedule (E : Z) (ts : list nat) (s : state) : option state :=
  match ts with [] => Some s | t :: ts => s ← step E t false s; schedule E ts s end.

Lemma schedule_steps E ts s0 s s' : steps E s0 s -> schedule E ts s = Some s' -> steps E s0 s'.
Proof.
  revert s. induction ts as [|t ts IH]; intros s Hs; cbn [schedule]; [by intros [= <-]|].
  intros (s1 & H1 & H)%bind_Some. eapply IH; [|done]. by eapply steps_more.
Qed.

(** A semaphore eventfd at 0: two readers and a writer of 1. *)
Definition three (nb : bool) : state :=
  mk_state 0 true nb false [] [] (<[0%nat := RStart 8]> (<[1%nat := RStart 8]> {[2%nat := WStart 8 1]})).

Lemma eventfd_conserves_witness :
  exists s', steps 512 (three true) s' /\ threads s' !! 1%nat = Some (RDone 1) /\ efd_count s' = 0 /\
    efd_count s' + total got (threads s') = total put (threads s').
Proof.
  destruct (schedule 512 [2; 2; 2; 1; 1; 1]%nat (three true)) as [s'|] eqn:E; [|by vm_compute in E].
  exists s'. assert (steps 512 (three true) s') as Hs by (eapply schedule_steps; [apply steps_refl|exact E]).
  split; [exact Hs|].
  destruct (eventfd_conserves 512 (three true) s') as (_ & H & _); [|exact Hs|].
  - split; [reflexivity|]. split; [reflexivity|]. split; [by vm_compute|].
    intros k x. unfold three. cbn [threads]. rewrite !lookup_insert_Some, lookup_singleton_Some.
    intros [[_ <-]|[_ [[_ <-]|[_ [_ <-]]]]]; cbn; unfold UINT64_MAX; done || lia.
  - vm_compute in E. injection E as <-. split; [reflexivity|]. split; [reflexivity|exact H].
Defined.

(** In blocking mode the count is not looked at again after the wait: of two
    readers that found a semaphore eventfd empty, both can pass the wait after a
    single write of 1, both return 1, and the counter wraps to the largest 64-bit
    value. *)
Theorem eventfd_blocking_underflow E :
  exists s', steps E (three false) s' /\
    threads s' !! 0%nat = Some (RDone 1) /\ threads s' !! 1%nat = Some (RDone 1) /\
    threads s' !! 2%nat = Some (WDone 1) /\ efd_count s' = UINT64_MAX.
Proof.
  destruct (schedule E [0; 0; 1; 1; 2; 2; 2; 0; 1; 0; 0; 1; 1]%nat (three false)) as [s'|] eqn:Es; [|by vm_compute in Es].
  exists s'. split; [eapply schedule_steps; [apply steps_refl|exact Es]|].
  vm_compute in Es. injection Es as <-. done.
Qed.

(** ** The table *)

(** [eventfd_create] stores the new eventfd in the lowest free slot and leaves
    the table as it was on every failure; releasing it frees exactly that slot again
    and frees its memory. *)
Theorem eventfd_create_release efd fd initval flags t :
  0 < efd -> efd ∉ t ->
  (forall t' r, eventfd_create efd fd initval flags t = (r, t', None) -> r = -1 /\ t' = t) /\
  (forall t' r c, eventfd_create efd fd initval flags t = (r, t', Some c) ->
     r = fd /\ 0 <= fd /\ c_count c = initval /\
     (exists id, t !! id = Some 0 /\ t' = <[id := efd]> t /\ forall j, (j < id)%nat -> t !! j <> Some 0) /\
     eventfd_release efd t' = (0, t, Some efd)).
Proof.
  intros Hefd Hnew. unfold eventfd_create.
  destruct (has_flag _ _); [split; [by intros ?? [= <- <-]|done]|].
  destruct (list_find _ t) as [[id x]|] eqn:Ef; [|split; [by intros ?? [= <- <-]|done]].
  apply list_find_Some in Ef as (Hid & -> & Hlow). pose proof (lookup_lt_Some _ _ _ Hid) as Hlt.
  destruct (Z.eqb_spec efd 0); [lia|]. destruct (Z.ltb_spec fd 0).
  - split; [|done]. intros ?? [= <- <-]. split; [done|]. rewrite list_insert_insert_eq. by apply list_insert_id.
  - split; [done|]. intros ??? [= <- <- <-]. split_and!; try done.
    + exists id. split_and!; try done. intros j Hj E. by eapply Hlow.
    + unfold eventfd_release. destruct (Z.eqb_spec efd 0); [lia|].
      assert (list_find (fun p => p = efd) (<[id := efd]> t) = Some (id, efd)) as ->.
      { apply list_find_Some. split_and!; [by apply list_lookup_insert_eq|done|].
        intros j y Hj Hji ->. rewrite list_lookup_insert_ne in Hj by lia.
        destruct Hnew. by eapply list_elem_of_lookup_2. }
      rewrite list_insert_insert_eq. by rewrite list_insert_id.
Qed.

Lemma eventfd_create_release_witness :
  eventfd_release 4096 (eventfd_create 4096 5 7 1 [16; 0; 32; 0]).1.2 = (0, [16; 0; 32; 0], Some 4096).
Proof.
  destruct (eventfd_create_release 4096 5 7 1 [16; 0; 32; 0]) as [_ H].
  - lia.
  - apply (bool_decide_unpack _). reflexivity.
  - apply (H _ 5 (mk_created 7 1 false false)). reflexivity.
Defined.

End Eventfd.
