(* ===== verification/Bytes.v ===== *)
(** Bytes in memory: [memcpy] between buffers of a known length, and integers as their
    bytes, little endian. *)

From S2P Require Import Prelude.

Module Bytes.

(** [memcpy(dst + at, src + from, n)]: a fault when either range leaves its buffer. *)
Definition blit (dst : list Z) (at_ : Z) (src : list Z) (from n : Z) : option (list Z) :=
  if (at_ + n <=? Z.of_nat (length dst)) && (from + n <=? Z.of_nat (length src))
  then Some (take (Z.to_nat at_) dst ++ take (Z.to_nat n) (drop (Z.to_nat from) src) ++ drop (Z.to_nat (at_ + n)) dst)
  else None.

(** The [n] bytes of an integer, little endian, and back. *)
Fixpoint le (n : nat) (v : Z) : list Z := match n with O => [] | S n => v mod 2 ^ 8 :: le n (v / 2 ^ 8) end.
Fixpoint unle (l : list Z) : Z := match l with [] => 0 | b :: l => b + 2 ^ 8 * unle l end.
Definition field (b : list Z) (off n : nat) : Z := unle (take n (drop off b)).

(** [n] bytes at [off] of a buffer as an unsigned integer, and storing them: outside the
    buffer is a fault. *)
Definition rd (buf : list Z) (off : Z) (n : nat) : option Z :=
  if (0 <=? off) && (off + Z.of_nat n <=? Z.of_nat (length buf)) then Some (field buf (Z.to_nat off) n) else None.
Definition wr (buf : list Z) (off : Z) (n : nat) (v : Z) : option (list Z) := blit buf off (le n v) 0 (Z.of_nat n).

Notation len l := (Z.of_nat (length l)).

(** [memcmp(a, b, k) == 0]: bytes outside either array are a fault. *)
Definition same_bytes (k : Z) (a b : list Z) : option bool :=
  if (len a <? k) || (len b <? k) then None else Some (bool_decide (take (Z.to_nat k) a = take (Z.to_nat k) b)).

Lemma blit_fault dst a src from n : Z.of_nat (length dst) < a + n -> blit dst a src from n = None.
Proof. intros H. unfold blit. destruct (Z.leb_spec (a + n) (Z.of_nat (length dst))); [lia|done]. Qed.

Lemma le_length n v : length (le n v) = n.
Proof. revert v. induction n as [|n IH]; intros v; [done|]. cbn [le length]. by rewrite IH. Qed.

Lemma unle_le n v : unle (le n v) = v mod 2 ^ (8 * Z.of_nat n).
Proof.
  revert v. induction n as [|n IH]; intros v; cbn [le unle].
  - by rewrite Z.mod_1_r.
  - rewrite IH. replace (8 * Z.of_nat (S n)) with (8 + 8 * Z.of_nat n) by lia. rewrite Z.pow_add_r by lia.
    symmetry. apply Z.rem_mul_r; [done|]. apply Z.pow_pos_nonneg; lia.
Qed.

Lemma field_skip n v l off k : (n <= off)%nat -> field (le n v ++ l) off k = field l (off - n) k.
Proof. intros H. unfold field. rewrite drop_app_ge by (by rewrite le_length). by rewrite le_length. Qed.

Lemma field_here n v l : field (le n v ++ l) 0 n = v mod 2 ^ (8 * Z.of_nat n).
Proof. unfold field. rewrite drop_0, take_app_length' by (by rewrite le_length). apply unle_le. Qed.

(** ** Lists of bytes cut in pieces *)

Lemma len_pos (l : list Z) : l <> [] -> 0 < len l.
Proof. destruct l; [done|simpl; lia]. Qed.

Lemma nonempty (l : list Z) : 0 < len l -> l <> [].
Proof. by intros H ->. Qed.

(** Arithmetic on lengths of concatenations, and equality of concatenations. *)
Ltac lens := rewrite ?length_app in *; simpl in *; lia.
Ltac apps := by rewrite ?app_nil_r, <-?app_assoc; simpl; rewrite ?app_nil_r.

(** Cutting a list at a position. *)
Lemma split_at (l : list Z) n : 0 <= n <= len l -> exists l1 l2, l = l1 ++ l2 /\ len l1 = n.
Proof. intros Hn. exists (take (Z.to_nat n) l), (drop (Z.to_nat n) l). rewrite take_drop, length_take. split; [done|lia]. Qed.

(** [memcpy] of the middle of one list over the middle of another. *)
Lemma blit_pieces (X Y Z' S1 S2 S3 : list Z) a f n : a = len X -> f = len S1 -> n = len S2 -> length Y = length S2 ->
  blit (X ++ Y ++ Z') a (S1 ++ S2 ++ S3) f n = Some (X ++ S2 ++ Z').
Proof.
  intros -> -> -> HY. unfold blit. rewrite !length_app. destruct (Z.leb_spec (len X + len S2) (Z.of_nat (length X + (length Y + length Z')))); [|lia].
  destruct (Z.leb_spec (len S1 + len S2) (Z.of_nat (length S1 + (length S2 + length S3)))); [|lia]. cbn [andb].
  replace (Z.to_nat (len X + len S2)) with (length (X ++ Y)) by (rewrite length_app; lia). rewrite !Nat2Z.id, take_app_length, drop_app_length.
  rewrite take_app_length. by rewrite (app_assoc X Y), drop_app_length.
Qed.

(** ** Parts of a buffer *)

Definition slice (l : list Z) (o k : nat) : list Z := take k (drop o l).

Lemma field_slice l o k : field l o k = unle (slice l o k).
Proof. done. Qed.

Lemma blit_inv dst a src f n dst' : blit dst a src f n = Some dst' -> a + n <= len dst /\ f + n <= len src /\
  dst' = take (Z.to_nat a) dst ++ take (Z.to_nat n) (drop (Z.to_nat f) src) ++ drop (Z.to_nat (a + n)) dst.
Proof.
  unfold blit. destruct (Z.leb_spec (a + n) (len dst)), (Z.leb_spec (f + n) (len src)); try done. by intros [= <-].
Qed.

Lemma blit_length dst a src f n dst' : blit dst a src f n = Some dst' -> 0 <= a -> 0 <= f -> 0 <= n -> length dst' = length dst.
Proof. intros (H1 & H2 & ->)%blit_inv Ha Hf Hn. rewrite !length_app, !length_take, !length_drop. lia. Qed.

Lemma blit_slice_same dst a src f n dst' : blit dst a src f n = Some dst' -> 0 <= a -> 0 <= f -> 0 <= n ->
  slice dst' (Z.to_nat a) (Z.to_nat n) = slice src (Z.to_nat f) (Z.to_nat n).
Proof.
  intros (H1 & H2 & ->)%blit_inv Ha Hf Hn. unfold slice. rewrite drop_app_length' by (rewrite length_take; lia).
  rewrite take_app_length' by (rewrite length_take, length_drop; lia). done.
Qed.

Lemma blit_slice_other dst a src f n dst' o k : blit dst a src f n = Some dst' -> 0 <= a -> 0 <= f -> 0 <= n ->
  (o + k <= Z.to_nat a)%nat \/ (Z.to_nat (a + n) <= o)%nat -> slice dst' o k = slice dst o k.
Proof.
  intros (H1 & H2 & ->)%blit_inv Ha Hf Hn Ho. unfold slice. destruct Ho as [Ho|Ho].
  - rewrite drop_app_le by (rewrite length_take; lia). rewrite take_app_le by (rewrite length_drop, length_take; lia).
    rewrite <-(take_drop (Z.to_nat a) dst) at 2. rewrite drop_app_le by (rewrite length_take; lia). by rewrite take_app_le by (rewrite length_drop, length_take; lia).
  - rewrite app_assoc, drop_app_ge by (rewrite length_app, !length_take, length_drop; lia). rewrite length_app, !length_take, length_drop, drop_drop. do 2 f_equal. lia.
Qed.

(** Storing an integer: the field, the other fields, and the length. *)
Lemma wr_Some m a n v : 0 <= a -> a + Z.of_nat n <= len m -> exists m', wr m a n v = Some m'.
Proof.
  intros Ha Hl. unfold wr, blit. rewrite le_length. destruct (Z.leb_spec (a + Z.of_nat n) (len m)); [|lia].
  destruct (Z.leb_spec (0 + Z.of_nat n) (Z.of_nat n)); [by eexists|lia].
Qed.

Lemma wr_length m a n v m' : wr m a n v = Some m' -> 0 <= a -> length m' = length m.
Proof. intros H Ha. eapply blit_length; [exact H|lia..]. Qed.

Lemma wr_same m a n v m' : wr m a n v = Some m' -> 0 <= a -> field m' (Z.to_nat a) n = v mod 2 ^ (8 * Z.of_nat n).
Proof.
  intros H Ha. apply blit_slice_same in H; [|lia..]. rewrite field_slice. rewrite Nat2Z.id in H. rewrite H. unfold slice.
  rewrite drop_0, firstn_all2 by (by rewrite le_length). apply unle_le.
Qed.

Lemma wr_other m a n v m' o k : wr m a n v = Some m' -> 0 <= a -> (o + k <= Z.to_nat a)%nat \/ (Z.to_nat a + n <= o)%nat -> slice m' o k = slice m o k.
Proof. intros H Ha Ho. eapply blit_slice_other; [exact H|lia..]. Qed.

End Bytes.
