(* ===== verification/Ext2.v ===== *)
(** Block and inode allocation and the block map of ext2: [kernel/fs/ext2/util.c],
    the allocation half of [kernel/fs/ext2/inode_alloc.c], block I/O from
    [kernel/fs/ext2/ext2.c] and [ext2_write_super] from [kernel/fs/ext2/super.c]. *)

From S2P Require Import Prelude.

Module Ext2.

Definition EIO : Z := 5.
Definition ENOMEM : Z := 12.
Definition ENOENT : Z := 2.

(** ** Data *)

(** The parameters [ext2_mount] computes once. *)
Record geometry := mk_geo {
  s_block_size : Z;
  s_blocks_per_group : Z;
  s_inodes_per_group : Z;
  s_desc_per_block : Z;
  s_groups_count : Z;
  s_first_data_block : Z;
  s_inode_size : Z
}.

Record ext2_group_desc := mk_gd {
  bg_block_bitmap : Z;
  bg_inode_bitmap : Z;
  bg_inode_table : Z;
  bg_free_blocks_count : Z;
  bg_free_inodes_count : Z
}.

(** The counters of the superblock and the group descriptors, as kept in memory or
    on the device. *)
Record counters := mk_counters {
  s_free_blocks_count : Z;
  s_free_inodes_count : Z;
  s_group_desc : list ext2_group_desc
}.

(** The mounted file system with the inode at hand. [disk] has the blocks of the
    device by their byte offset; the superblock and the descriptor table, which have
    their own place on it, are [stored]. [fails n] says whether the [n]-th call of
    [kmalloc] or of the device fails; [calls] counts them. *)
Record fs := mk_fs {
  mem : counters;
  stored : counters;
  disk : gmap Z (list Z);
  i_data : list Z;
  i_block_group : Z;
  vfs_free_blocks : Z;
  vfs_free_inodes : Z;
  fails : nat -> bool;
  calls : nat
}.

Definition with_mem (c : counters) (s : fs) : fs :=
  mk_fs c (stored s) (disk s) (i_data s) (i_block_group s) (vfs_free_blocks s) (vfs_free_inodes s) (fails s) (calls s).
Definition with_stored (c : counters) (s : fs) : fs :=
  mk_fs (mem s) c (disk s) (i_data s) (i_block_group s) (vfs_free_blocks s) (vfs_free_inodes s) (fails s) (calls s).
Definition with_disk (d : gmap Z (list Z)) (s : fs) : fs :=
  mk_fs (mem s) (stored s) d (i_data s) (i_block_group s) (vfs_free_blocks s) (vfs_free_inodes s) (fails s) (calls s).
Definition with_data (l : list Z) (s : fs) : fs :=
  mk_fs (mem s) (stored s) (disk s) l (i_block_group s) (vfs_free_blocks s) (vfs_free_inodes s) (fails s) (calls s).
Definition with_vfs (b i : Z) (s : fs) : fs :=
  mk_fs (mem s) (stored s) (disk s) (i_data s) (i_block_group s) b i (fails s) (calls s).
Definition with_calls (n : nat) (s : fs) : fs :=
  mk_fs (mem s) (stored s) (disk s) (i_data s) (i_block_group s) (vfs_free_blocks s) (vfs_free_inodes s) (fails s) n.

Definition with_group (l : list ext2_group_desc) (c : counters) : counters :=
  mk_counters (s_free_blocks_count c) (s_free_inodes_count c) l.
Definition with_blocks (n : Z) (c : counters) : counters :=
  mk_counters n (s_free_inodes_count c) (s_group_desc c).
Definition with_inodes (n : Z) (c : counters) : counters :=
  mk_counters (s_free_blocks_count c) n (s_group_desc c).

(** ** A state monad: [None] is an access outside an array or a division by zero *)

Definition M (A : Type) : Type := fs -> option (A * fs).
Definition ret {A} (x : A) : M A := fun s => Some (x, s).
Definition bind {A B} (m : M A) (f : A -> M B) : M B :=
  fun s => '(x, s) ← m s; f x s.
Definition gets {A} (f : fs -> A) : M A := fun s => Some (f s, s).
Definition modify (f : fs -> fs) : M unit := fun s => Some (tt, f s).
Definition lift {A} (o : option A) : M A := fun s => x ← o; Some (x, s).

Declare Scope ext2_scope.
Delimit Scope ext2_scope with ext2.
Notation "x <- m ; k" := (bind m (fun x => k)) (at level 100, m at next level, right associativity) : ext2_scope.
Notation "m ;; k" := (bind m (fun _ => k)) (at level 100, right associativity) : ext2_scope.
Local Open Scope ext2_scope.

(** One call that can fail: [kmalloc], or a transfer. *)
Definition call : M bool :=
  fun s => Some (negb (fails s (calls s)), with_calls (S (calls s)) s).

(** [a[i]] for an unsigned index and [a / b] with [b] possibly zero. *)
Definition index {A} (a : list A) (i : Z) : M A := lift (aget a i).
Definition divide (a b : Z) : M (Z * Z) := if b =? 0 then lift None else ret (a / b, a mod b).

(** ** Words of a block *)

(** [((u32 * )buf)[i]], little endian. *)
Definition get32 (buf : list Z) (i : Z) : option Z :=
  b0 ← aget buf (4 * i); b1 ← aget buf (4 * i + 1); b2 ← aget buf (4 * i + 2); b3 ← aget buf (4 * i + 3);
  Some (b0 + 2 ^ 8 * b1 + 2 ^ 16 * b2 + 2 ^ 24 * b3).
Definition set32 (buf : list Z) (i v : Z) : option (list Z) :=
  buf ← aset buf (4 * i) (v mod 2 ^ 8);
  buf ← aset buf (4 * i + 1) (v / 2 ^ 8 mod 2 ^ 8);
  buf ← aset buf (4 * i + 2) (v / 2 ^ 16 mod 2 ^ 8);
  aset buf (4 * i + 3) (v / 2 ^ 24 mod 2 ^ 8).

Section Operations.
Context (g : geometry).

(** ** Block I/O *)

(** [u64 offset = block * sb->s_block_size]: the product of two [u32]. *)
Definition offset (block : Z) : Z := u32 (block * s_block_size g).

(** [ext2_read_block]: the block's bytes, [None] for -EIO. A block the device does not
    have gives a short transfer. *)
Definition ext2_read_block (block : Z) : M (option (list Z)) :=
  ok <- call;
  d <- gets disk;
  ret (if (ok : bool) then d !! offset block else None).

(** [ext2_write_block]: 0 or -EIO. *)
Definition ext2_write_block (block : Z) (buf : list Z) : M Z :=
  ok <- call;
  d <- gets disk;
  match (if (ok : bool) then d !! offset block else None) with
  | Some _ => modify (with_disk (<[offset block := buf]> d));; ret 0
  | None => ret (- EIO)
  end.

(** Descriptor block [i] of the device's table [d] replaced by the one at
    [(u8 * )s_group_desc + i * s_block_size]. *)
Definition desc_slice (i : Z) (c d : list ext2_group_desc) : list ext2_group_desc :=
  let n := Z.to_nat (s_desc_per_block g) in
  let k := Z.to_nat (i * s_desc_per_block g) in
  take k d ++ take n (drop k c) ++ drop (k + n) d.

(** The loop of [ext2_write_super] over the descriptor blocks, from the [i]-th on. *)
Fixpoint write_descs (n : nat) (i : Z) : M Z :=
  match n with
  | O => ret 0
  | S n =>
      ok <- call;
      if (ok : bool) then
        c <- gets mem;
        d <- gets stored;
        modify (with_stored (with_group (desc_slice i (s_group_desc c) (s_group_desc d)) d));;
        write_descs n (i + 1)
      else ret (- EIO)
  end.

Definition ext2_write_super : M Z :=
  ok <- call;
  if (ok : bool) then
    c <- gets mem;
    d <- gets stored;
    modify (with_stored (mk_counters (s_free_blocks_count c) (s_free_inodes_count c) (s_group_desc d)));;
    q <- divide (u32 (s_groups_count g + s_desc_per_block g - 1)) (s_desc_per_block g);
    r <- write_descs (Z.to_nat q.1) 0;
    if r <? 0 then ret r
    else
      modify (with_vfs (s_free_blocks_count c) (s_free_inodes_count c));;
      ret 0
  else ret (- EIO).

(** ** Block allocation *)

(** The first of the [n] bits from [j] on that is clear. *)
Fixpoint find_zero (n : nat) (j : Z) (bitmap : list Z) : option (option Z) :=
  match n with
  | O => Some None
  | S n =>
      b ← bit_at 8 bitmap j;
      if (b : bool) then find_zero n (j + 1) bitmap else Some (Some j)
  end.

Definition set_group (i : Z) (d : ext2_group_desc) : M unit :=
  c <- gets mem;
  l <- lift (aset (s_group_desc c) i d);
  modify (with_mem (with_group l c)).

Definition add_free_blocks (d : ext2_group_desc) (k : Z) : ext2_group_desc :=
  mk_gd (bg_block_bitmap d) (bg_inode_bitmap d) (bg_inode_table d)
    (u16 (bg_free_blocks_count d + k)) (bg_free_inodes_count d).
Definition add_free_inodes (d : ext2_group_desc) (k : Z) : ext2_group_desc :=
  mk_gd (bg_block_bitmap d) (bg_inode_bitmap d) (bg_inode_table d)
    (bg_free_blocks_count d) (u16 (bg_free_inodes_count d + k)).

(** Marking bit [j] of group [i]'s block bitmap used, the counters and the
    superblock: the physical block, 0 on failure. *)
Definition take_block (i j : Z) (d : ext2_group_desc) (bitmap : list Z) : M Z :=
  bitmap <- lift (set_bit_at 8 bitmap j);
  r <- ext2_write_block (bg_block_bitmap d) bitmap;
  if r <? 0 then ret 0
  else
    set_group i (add_free_blocks d (-1));;
    c <- gets mem;
    modify (with_mem (with_blocks (u32 (s_free_blocks_count c - 1)) c));;
    r <- ext2_write_super;
    if r <? 0 then ret 0
    else ret (u32 (i * s_blocks_per_group g + j + s_first_data_block g)).

(** The loop over the groups, [n] of them left from the [i]-th on. *)
Fixpoint new_block_groups (n : nat) (i : Z) : M Z :=
  match n with
  | O => ret 0
  | S n =>
      c <- gets mem;
      d <- index (s_group_desc c) i;
      if bg_free_blocks_count d =? 0 then new_block_groups n (i + 1)
      else
        ok <- call;
        if negb ok then ret 0
        else
          buf <- ext2_read_block (bg_block_bitmap d);
          match buf with
          | None => ret 0
          | Some bitmap =>
              z <- lift (find_zero (Z.to_nat (s_blocks_per_group g)) 0 bitmap);
              match z with
              | Some j => take_block i j d bitmap
              | None => new_block_groups n (i + 1)
              end
          end
  end.

Definition ext2_new_block : M Z :=
  c <- gets mem;
  if s_free_blocks_count c =? 0 then ret 0
  else new_block_groups (Z.to_nat (s_groups_count g)) 0.

Definition ext2_free_block (block : Z) : M Z :=
  q <- divide (u32 (block - s_first_data_block g)) (s_blocks_per_group g);
  let '(group, idx) := q in
  ok <- call;
  if negb ok then ret (- ENOMEM)
  else
    c <- gets mem;
    d <- index (s_group_desc c) group;
    buf <- ext2_read_block (bg_block_bitmap d);
    match buf with
    | None => ret (- EIO)
    | Some bitmap =>
        b <- lift (bit_at 8 bitmap idx);
        if negb b then ret 0
        else
          bitmap <- lift (clear_bit_at 8 bitmap idx);
          r <- ext2_write_block (bg_block_bitmap d) bitmap;
          if r <? 0 then ret r
          else
            set_group group (add_free_blocks d 1);;
            c <- gets mem;
            modify (with_mem (with_blocks (u32 (s_free_blocks_count c + 1)) c));;
            ext2_write_super
    end.

(** ** The block map of an inode *)

Definition blocks_per_indirect : Z := s_block_size g / 4.
Definition blocks_per_double_indirect : Z := u32 (blocks_per_indirect * blocks_per_indirect).
Definition blocks_per_triple_indirect : Z := u32 (blocks_per_indirect * blocks_per_double_indirect).

(** Entry [i] of pointer block [block]: 0 when there is no such block or it cannot be
    read. *)
Definition pointer (block i : Z) : M Z :=
  if block =? 0 then ret 0
  else
    ok <- call;
    if negb ok then ret 0
    else
      buf <- ext2_read_block block;
      match buf with
      | None => ret 0
      | Some buf => lift (get32 buf i)
      end.

Definition ext2_get_block (block : Z) : M Z :=
  data <- gets i_data;
  let n := blocks_per_indirect in
  if block <? 12 then index data block
  else
    let block := u32 (block - 12) in
    if block <? n then
      p <- index data 12; pointer p block
    else
      let block := u32 (block - n) in
      if block <? blocks_per_double_indirect then
        p <- index data 13;
        if p =? 0 then ret 0
        else q <- divide block n; p <- pointer p q.1; pointer p q.2
      else
        let block := u32 (block - blocks_per_double_indirect) in
        if block <? blocks_per_triple_indirect then
          p <- index data 14;
          if p =? 0 then ret 0
          else
            q <- divide block blocks_per_double_indirect;
            q' <- divide q.2 n;
            q'' <- divide block n;
            p <- pointer p q.1; p <- pointer p q'.1; pointer p q''.2
        else ret 0.

Definition set_data (i v : Z) : M unit :=
  data <- gets i_data;
  data <- lift (aset data i v);
  modify (with_data data).

(** [ext2_free_block] as a statement, its result ignored. *)
Definition discard (block : Z) : M unit := r <- ext2_free_block block; ret tt.

(** A fresh indirect block, already stored in [i_data[12]], is cleared. *)
Definition clear_indirect (phys_block indirect_block : Z) : M bool :=
  ok <- call;
  if negb ok then discard phys_block;; discard indirect_block;; ret false
  else
    r <- ext2_write_block indirect_block (replicate (Z.to_nat (s_block_size g)) 0);
    if r <? 0 then discard phys_block;; discard indirect_block;; ret false
    else ret true.

(** Storing [phys_block] as entry [block] of the indirect block. *)
Definition set_pointer (phys_block indirect_block block : Z) : M Z :=
  ok <- call;
  if negb ok then discard phys_block;; ret 0
  else
    buf <- ext2_read_block indirect_block;
    match buf with
    | None => discard phys_block;; ret 0
    | Some buf =>
        buf <- lift (set32 buf block phys_block);
        r <- ext2_write_block indirect_block buf;
        if r <? 0 then discard phys_block;; ret 0 else ret phys_block
    end.

Definition ext2_alloc_block (block : Z) : M Z :=
  phys_block <- ext2_new_block;
  if phys_block =? 0 then ret 0
  else if block <? 12 then set_data block phys_block;; ret phys_block
  else
    let block := u32 (block - 12) in
    if block <? blocks_per_indirect then
      data <- gets i_data;
      indirect_block <- index data 12;
      if indirect_block =? 0 then
        indirect_block <- ext2_new_block;
        if indirect_block =? 0 then discard phys_block;; ret 0
        else
          set_data 12 indirect_block;;
          ok <- clear_indirect phys_block indirect_block;
          if (ok : bool) then set_pointer phys_block indirect_block block else ret 0
      else set_pointer phys_block indirect_block block
    else discard phys_block;; ret 0.

(** ** Inode allocation *)

(** [for (i = 0; i < s_groups_count; i++)] for a group with free inodes; [group] if
    there is none. *)
Fixpoint find_group (n : nat) (i group : Z) (l : list ext2_group_desc) : option Z :=
  match n with
  | O => Some group
  | S n => d ← aget l i; if 0 <? bg_free_inodes_count d then Some i else find_group n (i + 1) group l
  end.

Definition take_inode (group i : Z) (d : ext2_group_desc) (bitmap : list Z) : M Z :=
  bitmap <- lift (set_bit_at 8 bitmap i);
  r <- ext2_write_block (bg_inode_bitmap d) bitmap;
  if r <? 0 then ret 0
  else
    set_group group (add_free_inodes d (-1));;
    c <- gets mem;
    modify (with_mem (with_inodes (u32 (s_free_inodes_count c - 1)) c));;
    r <- ext2_write_super;
    if r <? 0 then ret 0 else ret (u32 (group * s_inodes_per_group g + i + 1)).

(** [dir] says that the directory exists; its group is the state's [i_block_group]. *)
Definition ext2_new_inode (dir : bool) : M Z :=
  if negb dir then ret 0
  else
    c <- gets mem;
    if s_free_inodes_count c =? 0 then ret 0
    else
      group <- gets i_block_group;
      d <- index (s_group_desc c) group;
      group <- (if bg_free_inodes_count d =? 0
                then lift (find_group (Z.to_nat (s_groups_count g)) 0 group (s_group_desc c))
                else ret group);
      d <- index (s_group_desc c) group;
      if bg_free_inodes_count d =? 0 then ret 0
      else
        ok <- call;
        if negb ok then ret 0
        else
          buf <- ext2_read_block (bg_inode_bitmap d);
          match buf with
          | None => ret 0
          | Some bitmap =>
              z <- lift (find_zero (Z.to_nat (s_inodes_per_group g)) 0 bitmap);
              match z with
              | Some i => take_inode group i d bitmap
              | None => ret 0
              end
          end.

Definition ext2_free_inode (dir : bool) (ino : Z) : M Z :=
  if negb dir then ret (- ENOENT)
  else
    q <- divide (u32 (ino - 1)) (s_inodes_per_group g);
    let '(group, idx) := q in
    ok <- call;
    if negb ok then ret (- ENOMEM)
    else
      c <- gets mem;
      d <- index (s_group_desc c) group;
      buf <- ext2_read_block (bg_inode_bitmap d);
      match buf with
      | None => ret (- EIO)
      | Some bitmap =>
          b <- lift (bit_at 8 bitmap idx);
          if negb b then ret 0
          else
            bitmap <- lift (clear_bit_at 8 bitmap idx);
            r <- ext2_write_block (bg_inode_bitmap d) bitmap;
            if r <? 0 then ret r
            else
              set_group group (add_free_inodes d 1);;
              c <- gets mem;
              modify (with_mem (with_inodes (u32 (s_free_inodes_count c + 1)) c));;
              ext2_write_super
      end.

End Operations.
End Ext2.
