(* ===== verification/Ext2Inv.v ===== *)
(** The invariant of an ext2 file system that ties the free counts of its groups and
    of the superblock to the bitmaps on the device, and its preservation by the
    allocation and release of one block or inode. *)

From S2P Require Import Prelude Ext2.

Module Ext2Inv.
Import Ext2.

(** ** Bitmaps *)

(** The number of clear bits among the first [n]. *)
Fixpoint zeros (bm : list Z) (n : nat) : Z :=
  match n with
  | O => 0
  | S n => zeros bm n + match bit_at 8 bm (Z.of_nat n) with Some false => 1 | _ => 0 end
  end.

Lemma zeros_range bm n : 0 <= zeros bm n <= Z.of_nat n.
Proof. induction n as [|n IH]; cbn [zeros]; [lia|]. repeat case_match; lia. Qed.

Definition flag (v : bool) : Z := if v then -1 else 1.

(** Changing one bit to [v] changes the count by [flag v]. *)
Lemma zeros_put bm bm' j v n :
  (forall i, bit_at 8 bm' i = if decide (i = j) then Some v else bit_at 8 bm i) ->
  bit_at 8 bm j = Some (negb v) ->
  zeros bm' n = zeros bm n + if decide (0 <= j < Z.of_nat n) then flag v else 0.
Proof.
  intros Hb Hj. induction n as [|n IH]; cbn [zeros].
  - destruct (decide _); [lia|done].
  - rewrite IH, Hb. destruct (decide (Z.of_nat n = j)) as [E|E].
    + rewrite E, Hj, decide_False, decide_True by lia. destruct v; cbn; lia.
    + repeat case_decide; try lia; done.
Qed.

Lemma find_zero_ok n j bm : 0 <= j -> j + Z.of_nat n <= 8 * Z.of_nat (length bm) ->
  exists z, find_zero n j bm = Some z /\
    match z with
    | Some k => j <= k < j + Z.of_nat n /\ bit_at 8 bm k = Some false /\
                (forall i, j <= i < k -> bit_at 8 bm i = Some true)
    | None => forall i, j <= i < j + Z.of_nat n -> bit_at 8 bm i = Some true
    end.
Proof.
  revert j. induction n as [|n IH]; intros j Hj Hn; cbn [find_zero].
  - exists None. split; [done|]. lia.
  - destruct (bit_at 8 bm j) as [b|] eqn:Eb.
    2:{ exfalso. unfold bit_at in Eb. destruct (aget_Some bm (j / 8)) as [x Hx]; [|by rewrite Hx in Eb].
        split; [apply Z.div_pos; lia|apply Z.div_lt_upper_bound; lia]. }
    rewrite bind_Some_l. destruct b.
    + destruct (IH (j + 1)) as (z & E & Hz); [lia..|]. exists z. split; [done|]. destruct z as [k|].
      * destruct Hz as (Hk & Hb & Hlow). split; [lia|]. split; [done|]. intros i Hi.
        destruct (decide (i = j)) as [->|]; [done|]. apply Hlow. lia.
      * intros i Hi. destruct (decide (i = j)) as [->|]; [done|]. apply Hz. lia.
    + exists (Some j). split; [done|]. split; [lia|]. split; [done|]. lia.
Qed.

(** All bits set means no clear bit. *)
Lemma zeros_full bm n : (forall i, 0 <= i < Z.of_nat n -> bit_at 8 bm i = Some true) -> zeros bm n = 0.
Proof.
  induction n as [|n IH]; intros H; cbn [zeros]; [done|]. rewrite IH, H by (intros; apply H || lia; lia). done.
Qed.

(** Writing one bit of a bitmap of bytes, to either value. *)
Definition put_bit8 (v : bool) (bm : list Z) (j : Z) : option (list Z) :=
  if v then set_bit_at 8 bm j else clear_bit_at 8 bm j.

Lemma put_bit8_ok v bm j : 0 <= j < 8 * Z.of_nat (length bm) ->
  exists bm', put_bit8 v bm j = Some bm' /\ length bm' = length bm /\
    forall i, bit_at 8 bm' i = if decide (i = j) then Some v else bit_at 8 bm i.
Proof.
  intros Hj. destruct v; cbn [put_bit8].
  - destruct (set_bit_Some 8 ltac:(lia) bm j Hj) as [b E]. exists b.
    split; [done|]. split; [by eapply set_bit_length|]. intros. by apply bit_at_set.
  - destruct (clear_bit_Some 8 ltac:(lia) bm j Hj) as [b E]. exists b.
    split; [done|]. split; [by eapply clear_bit_length|]. intros. by apply bit_at_clear.
Qed.

Lemma bit8_range bm j b : bit_at 8 bm j = Some b -> 0 <= j < 8 * Z.of_nat (length bm).
Proof.
  unfold bit_at. intros (x & Hx%aget_range & _)%bind_Some.
  pose proof (Z.div_mod j 8). pose proof (Z.mod_pos_bound j 8). lia.
Qed.

(** ** Sums over groups *)

Fixpoint gsum (f : ext2_group_desc -> Z) (l : list ext2_group_desc) : Z :=
  match l with [] => 0 | d :: l => f d + gsum f l end.

Lemma gsum_insert f l i d d' : aget l i = Some d -> gsum f (<[Z.to_nat i := d']> l) = gsum f l - f d + f d'.
Proof.
  unfold aget. destruct (Z.ltb_spec i 0); [done|]. generalize (Z.to_nat i) as n. clear.
  induction l as [|x l IH]; intros [|n] E; try done.
  - cbn in *. simplify_eq. lia.
  - change (<[S n := d']> (x :: l)) with (x :: <[n := d']> l). cbn [gsum]. rewrite IH by done. lia.
Qed.

Lemma gsum_bound f l B : (forall i d, aget l i = Some d -> 0 <= f d <= B) -> 0 <= gsum f l <= B * Z.of_nat (length l).
Proof.
  intros H. assert (forall d, d ∈ l -> 0 <= f d <= B) as H'.
  { intros d [n Hn]%list_elem_of_lookup. apply (H (Z.of_nat n)). unfold aget.
    destruct (Z.ltb_spec (Z.of_nat n) 0); [lia|]. by rewrite Nat2Z.id. }
  clear H. induction l as [|x l IH]; cbn [gsum length]; [lia|].
  pose proof (H' x ltac:(left)).
  assert (0 <= gsum f l <= B * Z.of_nat (length l)) by (apply IH; intros; apply H'; by right). lia.
Qed.

Lemma gsum_ge f l i d : (forall i d, aget l i = Some d -> 0 <= f d) -> aget l i = Some d -> f d <= gsum f l.
Proof.
  unfold aget. intros H. destruct (i <? 0); [done|]. generalize (Z.to_nat i) as n.
  assert (forall n d, l !! n = Some d -> 0 <= f d) as H'.
  { intros n x Hx. apply (H (Z.of_nat n)). destruct (Z.ltb_spec (Z.of_nat n) 0); [lia|]. by rewrite Nat2Z.id. }
  clear H. induction l as [|x l IH]; intros [|n] E; try done; cbn [gsum].
  - injection E as <-. assert (0 <= gsum f l); [|lia]. clear IH. induction l as [|y l IH]; cbn [gsum]; [lia|].
    pose proof (H' 1%nat y eq_refl). enough (0 <= gsum f l) by lia. apply IH.
    intros [|n] z Hz; [by apply (H' 0%nat)|by apply (H' (S (S n)))].
  - pose proof (H' O x eq_refl). enough (f d <= gsum f l) by lia. apply (IH (fun n => H' (S n)) n E).
Qed.

(** ** The invariant *)

(** Blocks and inodes are allocated the same way. *)
Inductive kind := Blk | Ino.

#[export] Instance kind_eq_dec : EqDecision kind.
Proof. solve_decision. Defined.

Definition map_of (k : kind) (d : ext2_group_desc) : Z :=
  match k with Blk => bg_block_bitmap d | Ino => bg_inode_bitmap d end.
Definition free_of (k : kind) (d : ext2_group_desc) : Z :=
  match k with Blk => bg_free_blocks_count d | Ino => bg_free_inodes_count d end.
Definition total_of (k : kind) (c : counters) : Z :=
  match k with Blk => s_free_blocks_count c | Ino => s_free_inodes_count c end.

Definition bump_group (k : kind) (d : ext2_group_desc) (n : Z) : ext2_group_desc :=
  match k with Blk => add_free_blocks d n | Ino => add_free_inodes d n end.
Definition bump_total (k : kind) (c : counters) (n : Z) : counters :=
  match k with
  | Blk => with_blocks (u32 (s_free_blocks_count c + n)) c
  | Ino => with_inodes (u32 (s_free_inodes_count c + n)) c
  end.

Section Invariant.
Context (g : geometry).

Definition per (k : kind) : Z := match k with Blk => s_blocks_per_group g | Ino => s_inodes_per_group g end.
Definition base (k : kind) : Z := match k with Blk => s_first_data_block g | Ino => 1 end.

Record Geo : Prop := {
  geo_bs : 0 < s_block_size g < 2 ^ 32;
  geo_per : forall k, 0 < per k <= 8 * s_block_size g;
  geo_u16 : forall k, per k < 2 ^ 16;
  geo_desc : 0 < s_desc_per_block g;
  geo_groups : 0 <= s_groups_count g;
  geo_u32 : s_groups_count g + s_desc_per_block g < 2 ^ 32;
  geo_base : forall k, 0 <= base k;
  geo_last : forall k, base k + s_groups_count g * per k < 2 ^ 32
}.

Record Wf (s : fs) : Prop := {
  wf_io : forall n, fails s n = false;
  wf_groups : Z.of_nat (length (s_group_desc (mem s))) = s_groups_count g;
  wf_stored : length (s_group_desc (stored s)) = length (s_group_desc (mem s));
  wf_map : forall k i d, aget (s_group_desc (mem s)) i = Some d ->
    exists bm, disk s !! offset g (map_of k d) = Some bm /\ Z.of_nat (length bm) = s_block_size g /\
      free_of k d = zeros bm (Z.to_nat (per k));
  wf_free : forall k, total_of k (mem s) = gsum (free_of k) (s_group_desc (mem s));
  wf_inj : forall k k' i i' d d',
    aget (s_group_desc (mem s)) i = Some d -> aget (s_group_desc (mem s)) i' = Some d' ->
    offset g (map_of k d) = offset g (map_of k' d') -> k = k' /\ i = i'
}.

(** Whether object [j] of group [i] is in use. *)
Definition gbit (k : kind) (s : fs) (i j : Z) : option bool :=
  d ← aget (s_group_desc (mem s)) i;
  bm ← disk s !! offset g (map_of k d);
  bit_at 8 bm j.

(** The number of object [j] of group [i], and whether object number [n] is in use. *)
Definition number (k : kind) (i j : Z) : Z := i * per k + j + base k.
Definition in_use (k : kind) (s : fs) (n : Z) : option bool :=
  gbit k s ((n - base k) / per k) ((n - base k) mod per k).

Lemma in_use_number (HG : Geo) k s i j : 0 <= j < per k -> in_use k s (number k i j) = gbit k s i j.
Proof.
  intros Hj. unfold in_use, number. replace (i * per k + j + base k - base k) with (j + i * per k) by lia.
  rewrite Z.div_add, Z.div_small, Z.mod_add, Z.mod_small by lia. done.
Qed.

(** [s'] is [s] with bit [j] of group [i] changed to [v] and the counts adjusted; the
    counters were saved, and nothing else but the number of calls differs. *)
Record Flipped (k : kind) (i j : Z) (v : bool) (d : ext2_group_desc) (bm bm' : list Z) (s s' : fs) : Prop := {
  fl_desc : aget (s_group_desc (mem s)) i = Some d;
  fl_old : disk s !! offset g (map_of k d) = Some bm;
  fl_bit : bit_at 8 bm j = Some (negb v);
  fl_put : put_bit8 v bm j = Some bm';
  fl_disk : disk s' = <[offset g (map_of k d) := bm']> (disk s);
  fl_mem : mem s' = bump_total k (with_group (<[Z.to_nat i := bump_group k d (flag v)]> (s_group_desc (mem s))) (mem s)) (flag v);
  fl_stored : stored s' = mem s';
  fl_data : i_data s' = i_data s;
  fl_group : i_block_group s' = i_block_group s;
  fl_fails : fails s' = fails s
}.

Lemma bump_map k k' d n : map_of k' (bump_group k d n) = map_of k' d.
Proof. by destruct k, k'. Qed.

Lemma bump_free k k' d n :
  free_of k' (bump_group k d n) = if decide (k = k') then u16 (free_of k d + n) else free_of k' d.
Proof. by destruct k, k'. Qed.

Lemma bump_total_of k k' c n :
  total_of k' (bump_total k c n) = if decide (k = k') then u32 (total_of k c + n) else total_of k' c.
Proof. by destruct k, k'. Qed.

Lemma bump_total_groups k c n : s_group_desc (bump_total k c n) = s_group_desc c.
Proof. by destruct k. Qed.

(** Descriptor [a] of the group list after descriptor [i] was replaced. *)
Lemma desc_insert (l : list ext2_group_desc) i d a x : aget l i = Some d ->
  aget (<[Z.to_nat i := x]> l) a = if decide (a = i) then Some x else aget l a.
Proof.
  intros Hi. apply aget_aset. apply aset_Some. by eapply aget_range.
Qed.

Section Flip.
Context (k : kind) (i j : Z) (v : bool) (d : ext2_group_desc) (bm bm' : list Z) (s s' : fs).
Context (HG : Geo) (HW : Wf s) (Hj : 0 <= j < per k) (HF : Flipped k i j v d bm bm' s s').

Lemma flip_groups : s_group_desc (mem s') = <[Z.to_nat i := bump_group k d (flag v)]> (s_group_desc (mem s)).
Proof. by rewrite (fl_mem _ _ _ _ _ _ _ _ _ HF), bump_total_groups. Qed.

Lemma flip_get a : aget (s_group_desc (mem s')) a
  = if decide (a = i) then Some (bump_group k d (flag v)) else aget (s_group_desc (mem s)) a.
Proof. rewrite flip_groups. eapply desc_insert, HF. Qed.

(** The new bitmap, and that the group's new count is the number of its clear bits. *)
Lemma flip_bitmap :
  Z.of_nat (length bm') = s_block_size g /\
  (forall b, bit_at 8 bm' b = if decide (b = j) then Some v else bit_at 8 bm b) /\
  u16 (free_of k d + flag v) = zeros bm' (Z.to_nat (per k)) /\
  u16 (free_of k d + flag v) = free_of k d + flag v.
Proof.
  destruct HF as [Hd Hbm Hbit Hput _ _ _ _ _ _].
  destruct (wf_map s HW k i d Hd) as (bm0 & Hbm0 & Hlen & Hz). rewrite Hbm in Hbm0. injection Hbm0 as <-.
  destruct (put_bit8_ok v bm j (bit8_range bm j _ Hbit)) as (b & Hb & Hlb & Hbits).
  rewrite Hput in Hb. injection Hb as <-.
  pose proof (zeros_put bm bm' j v (Z.to_nat (per k)) Hbits Hbit) as Hzz. rewrite decide_True in Hzz by lia.
  pose proof (zeros_range bm' (Z.to_nat (per k))). pose proof (geo_u16 HG k).
  assert (u16 (free_of k d + flag v) = free_of k d + flag v) as E by (apply u16_small; lia).
  rewrite E. split_and!; [congruence|done|lia|done].
Qed.

(** No other bitmap changed. *)
Lemma flip_other k' a d' : aget (s_group_desc (mem s)) a = Some d' -> ~ (k' = k /\ a = i) ->
  disk s' !! offset g (map_of k' d') = disk s !! offset g (map_of k' d').
Proof.
  intros Ha Hne. rewrite (fl_disk _ _ _ _ _ _ _ _ _ HF), lookup_insert_ne; [done|]. intros E.
  destruct (wf_inj s HW k k' i a d d' (fl_desc _ _ _ _ _ _ _ _ _ HF) Ha E). naive_solver.
Qed.

Lemma flip_maps k' a d' : aget (s_group_desc (mem s')) a = Some d' ->
  exists b, disk s' !! offset g (map_of k' d') = Some b /\ Z.of_nat (length b) = s_block_size g /\
    free_of k' d' = zeros b (Z.to_nat (per k')).
Proof.
  pose proof (fl_desc _ _ _ _ _ _ _ _ _ HF) as Hd. rewrite flip_get. destruct (decide (a = i)) as [->|Ha].
  - intros [= <-]. rewrite bump_map, bump_free. destruct (decide (k = k')) as [<-|Hk].
    + exists bm'. rewrite (fl_disk _ _ _ _ _ _ _ _ _ HF), lookup_insert_eq. destruct flip_bitmap as (? & _ & ? & _). done.
    + rewrite (flip_other k' i d Hd) by naive_solver. by apply (wf_map s HW k' i).
  - intros Hd'. rewrite (flip_other k' a d' Hd') by naive_solver. by apply (wf_map s HW k' a).
Qed.

Lemma flip_totals k' : total_of k' (mem s') = gsum (free_of k') (s_group_desc (mem s')).
Proof.
  pose proof (fl_desc _ _ _ _ _ _ _ _ _ HF) as Hd. rewrite (fl_mem _ _ _ _ _ _ _ _ _ HF) at 1.
  rewrite bump_total_of.
  assert (forall l, total_of k' (with_group l (mem s)) = total_of k' (mem s)) as Ht by (by destruct k').
  assert (gsum (free_of k') (s_group_desc (mem s'))
          = total_of k' (mem s) + if decide (k = k') then flag v else 0) as Hg.
  { rewrite flip_groups, (gsum_insert _ _ i d), bump_free, (wf_free s HW) by done.
    destruct flip_bitmap as (_ & _ & _ & E). destruct (decide (k = k')) as [<-|]; lia. }
  rewrite Hg. destruct (decide (k = k')) as [<-|Hk]; rewrite Ht; [|lia].
  apply u32_small. rewrite <-Hg. pose proof (geo_last HG k). pose proof (geo_base HG k).
  assert (0 <= gsum (free_of k) (s_group_desc (mem s')) <= per k * Z.of_nat (length (s_group_desc (mem s')))) as Hb.
  { apply gsum_bound. intros a d' Hd'. destruct (flip_maps k a d' Hd') as (b & _ & _ & ->).
    pose proof (zeros_range b (Z.to_nat (per k))). lia. }
  rewrite flip_groups, length_insert, (wf_groups s HW) in Hb. rewrite flip_groups. lia.
Qed.

Lemma flip_wf : Wf s'.
Proof.
  pose proof (fl_desc _ _ _ _ _ _ _ _ _ HF) as Hd. split.
  - rewrite (fl_fails _ _ _ _ _ _ _ _ _ HF). apply HW.
  - rewrite flip_groups, length_insert. apply HW.
  - by rewrite (fl_stored _ _ _ _ _ _ _ _ _ HF).
  - apply flip_maps.
  - apply flip_totals.
  - intros k1 k2 a a' d1 d2. rewrite !flip_get.
    destruct (decide (a = i)) as [->|], (decide (a' = i)) as [->|]; intros; simplify_eq;
      rewrite ?bump_map in *; by eapply (wf_inj s HW).
Qed.

Lemma flip_bits k' a b :
  gbit k' s' a b = if decide (k' = k /\ a = i /\ b = j) then Some v else gbit k' s a b.
Proof.
  pose proof HF as [Hd Hbm _ _ Hdisk _ _ _ _ _]. unfold gbit. rewrite flip_get.
  destruct (decide (a = i)) as [->|Ha].
  - rewrite bind_Some_l, bump_map, Hd, bind_Some_l. destruct (decide (k' = k)) as [->|Hk].
    + destruct flip_bitmap as (_ & Hbits & _). rewrite Hdisk, lookup_insert_eq, Hbm, !bind_Some_l, Hbits.
      repeat case_decide; naive_solver.
    + rewrite (flip_other k' i d Hd) by naive_solver. case_decide; [naive_solver|done].
  - rewrite decide_False by naive_solver. destruct (aget (s_group_desc (mem s)) a) as [d'|] eqn:E; [|done].
    rewrite !bind_Some_l. by rewrite (flip_other k' a d' E) by naive_solver.
Qed.

Lemma flip_total : total_of k (mem s') = total_of k (mem s) + flag v.
Proof.
  rewrite flip_totals, flip_groups, (gsum_insert _ _ i d), bump_free, (wf_free s HW) by apply HF.
  rewrite decide_True by done. destruct flip_bitmap as (_ & _ & _ & E). lia.
Qed.

End Flip.
(** Setting a clear bit and clearing it again gives the same bytes. *)
Lemma clear_set bm bm1 bm2 j : bit_at 8 bm j = Some false ->
  put_bit8 true bm j = Some bm1 -> put_bit8 false bm1 j = Some bm2 -> bm2 = bm.
Proof.
  cbn [put_bit8]. unfold bit_at, set_bit_at, clear_bit_at. intros (x & Hx & [= Hb])%bind_Some.
  rewrite Hx, bind_Some_l. intros H1. rewrite (aget_aset _ _ _ _ (j / 8) H1), decide_True, bind_Some_l by done.
  assert (Z.land (Z.lor x (BIT (j mod 8))) (Z.lnot (BIT (j mod 8))) = x) as ->.
  { apply Z.bits_inj'. intros n Hn. pose proof (Z.mod_pos_bound j 8).
    rewrite Z.land_spec, Z.lor_spec, Z.lnot_spec, BIT_spec by lia.
    destruct (Z.eqb_spec (j mod 8) n) as [<-|]; [by rewrite Hb, andb_false_r|by rewrite orb_false_r, andb_true_r]. }
  pose proof (aget_range _ _ _ Hx) as Hr. rewrite aset_Some in H1 by done. injection H1 as <-.
  rewrite aset_Some by (by rewrite length_insert). intros [= <-]. rewrite list_insert_insert_eq.
  apply list_insert_id. unfold aget in Hx. by destruct (j / 8 <? 0).
Qed.

(** Taking and releasing one object restores the counters and the device. *)
Lemma flip_flip k i j d bm bm1 d1 bm2 bm3 s s1 s2 : Geo -> Wf s -> 0 <= j < per k ->
  Flipped k i j true d bm bm1 s s1 -> Flipped k i j false d1 bm2 bm3 s1 s2 ->
  mem s2 = mem s /\ disk s2 = disk s.
Proof.
  intros HG HW Hj F1 F2. destruct (flip_bitmap k i j true d bm bm1 s s1 HG HW Hj F1) as (_ & _ & _ & Hu1).
  pose proof (flip_total k i j true d bm bm1 s s1 HG HW Hj F1) as Ht1.
  pose proof (flip_wf k i j true d bm bm1 s s1 HG HW Hj F1) as HW1.
  destruct (flip_bitmap k i j false d1 bm2 bm3 s1 s2 HG HW1 Hj F2) as (_ & _ & _ & Hu2).
  pose proof (flip_total k i j false d1 bm2 bm3 s1 s2 HG HW1 Hj F2) as Ht2.
  pose proof (flip_get k i j true d bm bm1 s s1 F1 i) as Hget. rewrite decide_True in Hget by done.
  destruct F1 as [A1 A2 A3 A4 A5 A6 _ _ _ _], F2 as [B1 B2 B3 B4 B5 B6 _ _ _ _].
  rewrite Hget in B1. apply (inj Some) in B1. subst d1. rewrite bump_map in *.
  rewrite A5, lookup_insert_eq in B2. injection B2 as <-.
  rewrite (clear_set bm bm1 bm3 j A3 A4 B4) in B5. split.
  - rewrite B6, A6, bump_total_groups. cbn [with_group s_group_desc]. rewrite list_insert_insert_eq.
    assert (bump_group k (bump_group k d (flag true)) (flag false) = d) as ->.
    { rewrite bump_free, decide_True in Hu2 by done. rewrite Hu1 in Hu2.
      destruct d, k; unfold bump_group, add_free_blocks, add_free_inodes, free_of in *;
        cbn [bg_block_bitmap bg_inode_bitmap bg_free_blocks_count bg_free_inodes_count] in *;
        rewrite Hu1, Hu2; f_equal; cbn [flag]; lia. }
    assert (<[Z.to_nat i := d]> (s_group_desc (mem s)) = s_group_desc (mem s)) as ->.
    { apply list_insert_id. unfold aget in A1. by destruct (i <? 0). }
    rewrite Ht1, B6, A6 in Ht2.
    destruct (mem s) as [nb ni l], k; unfold bump_total, with_group, with_blocks, with_inodes, total_of in *;
      cbn [s_free_blocks_count s_free_inodes_count s_group_desc] in *; rewrite Ht2; f_equal; cbn [flag]; lia.
  - rewrite B5, A5. rewrite insert_insert_eq. by apply insert_id.
Qed.

(** A group without clear bits is full. *)
Lemma zeros_zero bm n j : zeros bm n = 0 -> 0 <= j < Z.of_nat n -> bit_at 8 bm j <> Some false.
Proof.
  induction n as [|n IH]; intros Hz Hj; [lia|]. cbn [zeros] in Hz. pose proof (zeros_range bm n) as Hr.
  destruct (decide (j = Z.of_nat n)) as [->|].
  - intros E. rewrite E in Hz. lia.
  - apply IH; [|lia]. repeat case_match; lia.
Qed.

End Invariant.
End Ext2Inv.
