(* ===== verification/Ext2Spec.v ===== *)
(** ext2 allocation keeps the free counts equal to the bitmaps, hands out what is
    free, and the block map returns what was stored. *)

From S2P Require Import Prelude Ext2 Ext2Inv.

Module Ext2Spec.
Import Ext2 Ext2Inv.
Local Open Scope ext2_scope.

(** ** Running the monad *)

Lemma bind_eq {A B} (m : M A) (f : A -> M B) s x s1 : m s = Some (x, s1) -> bind m f s = f x s1.
Proof. intros E. unfold bind. by rewrite E. Qed.

Lemma bind_gets {A B} (h : fs -> A) (f : A -> M B) s : bind (gets h) f s = f (h s) s.
Proof. done. Qed.

Lemma bind_modify {B} h (f : unit -> M B) s : bind (modify h) f s = f tt (h s).
Proof. done. Qed.

Lemma bind_ret_l {A B} (x : A) (f : A -> M B) s : bind (ret x) f s = f x s.
Proof. done. Qed.

Lemma bind_ret {A} (m : M A) s : bind m ret s = m s.
Proof. unfold bind. by destruct (m s) as [[]|]. Qed.

Lemma bind_lift {A B} (o : option A) (f : A -> M B) s x : o = Some x -> bind (lift o) f s = f x s.
Proof. by intros ->. Qed.

Lemma bind_index {A B} (a : list A) i (f : A -> M B) s x : aget a i = Some x -> bind (index a i) f s = f x s.
Proof. intros E. unfold index. by rewrite E. Qed.

(** [go E]: the next action's result is given by [E]. *)
Ltac go E := rewrite (bind_eq _ _ _ _ _ E); cbv beta.
Ltac pure := repeat (rewrite bind_gets || rewrite bind_modify || rewrite bind_ret_l); cbv beta.

Definition no_fault (s : fs) : Prop := forall n, fails s n = false.
Definition tick (s : fs) : fs := with_calls (S (calls s)) s.

Lemma call_ok s : no_fault s -> call s = Some (true, tick s).
Proof. intros H. unfold call. by rewrite H. Qed.

Section Runs.
Context (g : geometry).

Lemma read_ok b buf s : no_fault s -> disk s !! offset g b = Some buf ->
  ext2_read_block g b s = Some (Some buf, tick s).
Proof. intros H Hb. unfold ext2_read_block. go (call_ok s H). pure. unfold ret. cbn. by rewrite Hb. Qed.

Lemma write_ok b buf old s : no_fault s -> disk s !! offset g b = Some old ->
  ext2_write_block g b buf s = Some (0, with_disk (<[offset g b := buf]> (disk s)) (tick s)).
Proof. intros H Hb. unfold ext2_write_block. go (call_ok s H). pure. cbn [tick with_calls disk]. by rewrite Hb. Qed.

(** What saving the counters leaves alone. *)
Record Kept (s s' : fs) : Prop := {
  k_mem : mem s' = mem s;
  k_disk : disk s' = disk s;
  k_data : i_data s' = i_data s;
  k_group : i_block_group s' = i_block_group s;
  k_fails : fails s' = fails s
}.

(** Writing descriptor block [i] extends the part of the table that is up to date. *)
Lemma desc_slice_ok i (c d : list ext2_group_desc) :
  0 <= i -> 0 < s_desc_per_block g -> length d = length c ->
  let k i := Z.to_nat (i * s_desc_per_block g) in
  take (k i) d = take (k i) c ->
  length (desc_slice g i c d) = length c /\ take (k (i + 1)) (desc_slice g i c d) = take (k (i + 1)) c.
Proof.
  intros Hi Hd Hlen k E. unfold desc_slice. fold (k i). rewrite E, app_assoc, take_take_drop.
  replace (k i + Z.to_nat (s_desc_per_block g))%nat with (k (i + 1)) by (subst k; cbv beta; lia).
  set (m := k (i + 1)).
  rewrite length_app, length_take, length_drop. split; [lia|].
  rewrite take_app, take_take, Nat.min_id, length_take. destruct (decide (m <= length c)%nat).
  - replace (m - _)%nat with 0%nat by lia. by rewrite take_0, app_nil_r.
  - rewrite drop_ge by lia. by rewrite take_nil, app_nil_r.
Qed.

Lemma write_descs_ok n i s :
  no_fault s -> 0 <= i -> 0 < s_desc_per_block g ->
  length (s_group_desc (stored s)) = length (s_group_desc (mem s)) ->
  Z.of_nat (length (s_group_desc (mem s))) <= (i + Z.of_nat n) * s_desc_per_block g ->
  (let k := Z.to_nat (i * s_desc_per_block g) in
   take k (s_group_desc (stored s)) = take k (s_group_desc (mem s))) ->
  exists s', write_descs g n i s = Some (0, s') /\ Kept s s' /\
    stored s' = with_group (s_group_desc (mem s)) (stored s).
Proof.
  cbv zeta. revert i s. induction n as [|n IH]; intros i s Hf Hi Hd Hlen Hle H0; cbn [write_descs].
  - exists s. split; [done|]. split; [done|]. rewrite !take_ge in H0 by lia. rewrite <-H0. by destruct (stored s).
  - go (call_ok s Hf). pure. set (s1 := with_stored _ _).
    destruct (desc_slice_ok i (s_group_desc (mem s)) (s_group_desc (stored s))) as [Hl1 Ht1]; [done..|].
    destruct (IH (i + 1) s1) as (s' & E & [] & Hst); try done; [lia| |].
    + cbn. replace (i + 1 + Z.of_nat n) with (i + Z.of_nat (S n)) by lia. done.
    + exists s'. split; [exact E|]. split; [by split|]. rewrite Hst. by cbn.
Qed.

Lemma write_super_ok s : Geo g -> no_fault s ->
  Z.of_nat (length (s_group_desc (mem s))) = s_groups_count g ->
  length (s_group_desc (stored s)) = length (s_group_desc (mem s)) ->
  exists s', ext2_write_super g s = Some (0, s') /\ Kept s s' /\ stored s' = mem s.
Proof.
  intros HG Hf Hgr Hlen. pose proof (geo_desc g HG) as Hd. pose proof (geo_u32 g HG). pose proof (geo_groups g HG).
  unfold ext2_write_super. go (call_ok s Hf). pure. unfold divide.
  destruct (Z.eqb_spec (s_desc_per_block g) 0); [lia|]. pure. rewrite u32_small by lia.
  set (q := (s_groups_count g + s_desc_per_block g - 1) / s_desc_per_block g).
  assert (0 <= q /\ s_groups_count g <= q * s_desc_per_block g) as [Hq Hqd].
  { subst q. split; [apply Z.div_pos; lia|].
    pose proof (Z.div_mod (s_groups_count g + s_desc_per_block g - 1) (s_desc_per_block g)).
    pose proof (Z.mod_pos_bound (s_groups_count g + s_desc_per_block g - 1) (s_desc_per_block g)). lia. }
  set (s1 := with_stored _ _).
  destruct (write_descs_ok (Z.to_nat q) 0 s1) as (s' & E & [] & Hst); try done.
  { cbn. rewrite Z2Nat.id by lia. lia. }
  cbn [fst]. go E. cbn [Z.ltb Z.compare]. pure. eexists. split; [reflexivity|]. split; [by split|].
  cbn [with_vfs stored]. rewrite Hst. subst s1. unfold with_group. cbn. by destruct (mem s).
Qed.

Lemma set_group_ok i d d0 s : aget (s_group_desc (mem s)) i = Some d0 ->
  set_group i d s = Some (tt, with_mem (with_group (<[Z.to_nat i := d]> (s_group_desc (mem s))) (mem s)) s).
Proof.
  intros Hd. unfold set_group. pure. rewrite (bind_lift _ _ _ (<[Z.to_nat i := d]> (s_group_desc (mem s)))).
  - done.
  - apply aset_Some. by eapply aget_range.
Qed.

(** The end of every allocation and release: the bitmap is written, the counts
    change, the superblock is saved. *)
Definition commit {A} (k : kind) (i : Z) (d : ext2_group_desc) (n : Z) (K : Z -> M A) : M A :=
  set_group i (bump_group k d n);;
  c <- gets mem;
  modify (with_mem (bump_total k c n));;
  r <- ext2_write_super g; K r.

Lemma commit_ok {A} k i j v d bm bm' s (K : Z -> M A) : Geo g -> Wf g s ->
  aget (s_group_desc (mem s)) i = Some d -> disk s !! offset g (map_of k d) = Some bm ->
  bit_at 8 bm j = Some (negb v) -> put_bit8 v bm j = Some bm' ->
  exists s', commit k i d (flag v) K (with_disk (<[offset g (map_of k d) := bm']> (disk s)) (tick s)) = K 0 s' /\
    Flipped g k i j v d bm bm' s s'.
Proof.
  intros HG HW Hd Hbm Hbit Hput. unfold commit. set (s1 := with_disk _ _).
  go (set_group_ok i (bump_group k d (flag v)) d s1 Hd). pure. set (s2 := with_mem (bump_total _ _ _) _).
  destruct (write_super_ok s2) as (s' & E & [] & Hst); try done.
  - intros n. apply (wf_io g s HW n).
  - cbn. rewrite bump_total_groups. cbn. rewrite length_insert. apply (wf_groups g s HW).
  - cbn. rewrite bump_total_groups. cbn. rewrite length_insert. apply (wf_stored g s HW).
  - exists s'. go E. split; [done|]. by split; rewrite ?k_mem0, ?k_disk0.
Qed.

Lemma commit_ret k i d n s :
  (set_group i (bump_group k d n);;
   c <- gets mem;
   modify (with_mem (bump_total k c n));;
   ext2_write_super g) s = commit k i d n ret s.
Proof.
  unfold commit. destruct (set_group i (bump_group k d n) s) as [[u s1]|] eqn:E.
  - rewrite !(bind_eq _ _ _ _ _ E). pure. symmetry. apply bind_ret.
  - unfold bind. by rewrite E.
Qed.

Lemma wf_calls n s : Wf g s -> Wf g (with_calls n s).
Proof. intros []. by split. Qed.

Lemma flipped_calls n k i j v d bm bm' s s' :
  Flipped g k i j v d bm bm' (with_calls n s) s' -> Flipped g k i j v d bm bm' s s'.
Proof. intros []. by split. Qed.

Lemma number_u32 k i j d s : Geo g -> Wf g s -> aget (s_group_desc (mem s)) i = Some d -> 0 <= j < per g k ->
  base g k <= number g k i j < 2 ^ 32 /\ u32 (number g k i j) = number g k i j.
Proof.
  intros HG HW Hd%aget_range Hj. rewrite (wf_groups g s HW) in Hd.
  pose proof (geo_last g HG k). pose proof (geo_base g HG k). unfold number.
  assert (i * per g k + per g k <= s_groups_count g * per g k) by nia.
  split; [nia|]. apply u32_small. nia.
Qed.

(** ** Allocation *)

Lemma take_block_ok i j d bm s : Geo g -> Wf g s ->
  aget (s_group_desc (mem s)) i = Some d -> disk s !! offset g (bg_block_bitmap d) = Some bm ->
  bit_at 8 bm j = Some false -> 0 <= j < per g Blk ->
  exists s' bm', take_block g i j d bm s = Some (number g Blk i j, s') /\ Flipped g Blk i j true d bm bm' s s'.
Proof.
  intros HG HW Hd Hbm Hbit Hj. unfold take_block.
  destruct (put_bit8_ok true bm j (bit8_range _ _ _ Hbit)) as (bm' & Hput & _).
  rewrite (bind_lift _ _ _ bm' Hput). cbv beta. go (write_ok (bg_block_bitmap d) bm' bm s (wf_io g s HW) Hbm).
  cbn [Z.ltb Z.compare].
  destruct (commit_ok Blk i j true d bm bm' s (fun r => if r <? 0 then ret 0 else ret (u32 (number g Blk i j))) HG HW Hd Hbm Hbit Hput)
    as (s' & E & HF).
  exists s', bm'. split; [|done]. destruct (number_u32 Blk i j d s HG HW Hd Hj) as [_ Hu].
  etransitivity; [exact E|]. cbn [Z.ltb Z.compare]. unfold ret. by rewrite Hu.
Qed.

Lemma take_inode_ok i j d bm s : Geo g -> Wf g s ->
  aget (s_group_desc (mem s)) i = Some d -> disk s !! offset g (bg_inode_bitmap d) = Some bm ->
  bit_at 8 bm j = Some false -> 0 <= j < per g Ino ->
  exists s' bm', take_inode g i j d bm s = Some (number g Ino i j, s') /\ Flipped g Ino i j true d bm bm' s s'.
Proof.
  intros HG HW Hd Hbm Hbit Hj. unfold take_inode.
  destruct (put_bit8_ok true bm j (bit8_range _ _ _ Hbit)) as (bm' & Hput & _).
  rewrite (bind_lift _ _ _ bm' Hput). cbv beta. go (write_ok (bg_inode_bitmap d) bm' bm s (wf_io g s HW) Hbm).
  cbn [Z.ltb Z.compare].
  destruct (commit_ok Ino i j true d bm bm' s (fun r => if r <? 0 then ret 0 else ret (u32 (number g Ino i j))) HG HW Hd Hbm Hbit Hput)
    as (s' & E & HF).
  exists s', bm'. split; [|done]. destruct (number_u32 Ino i j d s HG HW Hd Hj) as [_ Hu].
  etransitivity; [exact E|]. cbn [Z.ltb Z.compare]. unfold ret. by rewrite Hu.
Qed.

(** A group with free objects has a clear bit among them, and [find_zero] finds the
    lowest. *)
Lemma group_has_free k i d s : Geo g -> Wf g s -> aget (s_group_desc (mem s)) i = Some d -> free_of k d <> 0 ->
  exists bm j, disk s !! offset g (map_of k d) = Some bm /\
    find_zero (Z.to_nat (per g k)) 0 bm = Some (Some j) /\ 0 <= j < per g k /\ bit_at 8 bm j = Some false /\
    forall b, 0 <= b < j -> bit_at 8 bm b = Some true.
Proof.
  intros HG HW Hd Hf. destruct (wf_map g s HW k i d Hd) as (bm & Hbm & Hlen & Hz).
  pose proof (geo_per g HG k) as Hp. exists bm.
  destruct (find_zero_ok (Z.to_nat (per g k)) 0 bm) as (z & E & Hzz); [lia..|]. destruct z as [j|].
  - destruct Hzz as (Hj & Hb & Hlow). exists j. rewrite Z2Nat.id in Hj by lia. done.
  - rewrite zeros_full in Hz by exact Hzz. done.
Qed.

(** [s'] is [s] with object [j] of group [i] taken, the lowest one of the group. *)
Definition Taken (k : kind) (i j : Z) (s s' : fs) : Prop :=
  0 <= j < per g k /\ (exists d bm bm', Flipped g k i j true d bm bm' s s') /\
  forall b, 0 <= b < j -> gbit g k s i b = Some true.

Lemma new_block_groups_ok n i s : Geo g -> Wf g s -> 0 <= i -> i + Z.of_nat n = s_groups_count g ->
  (forall a d, i <= a -> aget (s_group_desc (mem s)) a = Some d -> free_of Blk d = 0) /\
    new_block_groups g n i s = Some (0, s) \/
  exists a j s', new_block_groups g n i s = Some (number g Blk a j, s') /\ Taken Blk a j s s' /\ i <= a /\
    forall b d, i <= b < a -> aget (s_group_desc (mem s)) b = Some d -> free_of Blk d = 0.
Proof.
  intros HG HW. revert i. induction n as [|n IH]; intros i Hi Hn; cbn [new_block_groups].
  - left. split; [|done]. intros a d Ha Hd%aget_range. rewrite (wf_groups g s HW) in Hd. lia.
  - pure. destruct (aget_Some (s_group_desc (mem s)) i) as [d Hd]; [rewrite (wf_groups g s HW); lia|].
    rewrite (bind_index _ _ _ _ d Hd). cbv beta. destruct (Z.eqb_spec (bg_free_blocks_count d) 0) as [E0|E0].
    + destruct (IH (i + 1)) as [[Hz E]|(a & j & s' & E & HT & Ha & Hz)]; [lia..| |].
      * left. split; [|done]. intros a d' Ha Hd'. destruct (decide (a = i)) as [->|]; [|by apply (Hz a d'); [lia|]].
        rewrite Hd in Hd'. by injection Hd' as <-.
      * right. exists a, j, s'. split; [done|]. split; [done|]. split; [lia|]. intros b d' Hb Hd'.
        destruct (decide (b = i)) as [->|]; [|by apply (Hz b d'); [lia|]]. rewrite Hd in Hd'. by injection Hd' as <-.
    + right. destruct (group_has_free Blk i d s HG HW Hd E0) as (bm & j & Hbm & Hfz & Hj & Hbit & Hlow).
      go (call_ok s (wf_io g s HW)). cbn [negb]. cbn [map_of] in Hbm.
      go (read_ok (bg_block_bitmap d) bm (tick s) (wf_io g s HW) Hbm).
      rewrite (bind_lift _ _ _ (Some j) Hfz). cbv beta.
      destruct (take_block_ok i j d bm (tick (tick s)) HG) as (s' & bm' & E & HF); try done; [by do 2 apply wf_calls|].
      exists i, j, s'. split; [exact E|]. split; [|split; [lia|lia]]. split; [done|]. split.
      * exists d, bm, bm'. by do 2 apply flipped_calls in HF.
      * intros b Hb. unfold gbit. rewrite Hd, bind_Some_l. cbn [map_of]. rewrite Hbm, bind_Some_l. by apply Hlow.
Qed.

(** ** Release *)

(** [s'] is [s] with object [j] of group [i] released, or [s] itself when it was free
    already, up to the number of calls. *)
Definition Released (k : kind) (i j : Z) (s s' : fs) : Prop :=
  gbit g k s i j = Some false /\ (exists n, s' = with_calls n s) \/
  gbit g k s i j = Some true /\ exists d bm bm', Flipped g k i j false d bm bm' s s'.

Lemma split_number k n d s : Geo g -> Wf g s -> base g k <= n < 2 ^ 32 ->
  aget (s_group_desc (mem s)) ((n - base g k) / per g k) = Some d ->
  divide (u32 (n - base g k)) (per g k) s = Some (((n - base g k) / per g k, (n - base g k) mod per g k), s) /\
  0 <= (n - base g k) mod per g k < per g k.
Proof.
  intros HG HW Hn Hd. pose proof (geo_per g HG k). pose proof (geo_base g HG k).
  rewrite u32_small by lia. unfold divide. destruct (Z.eqb_spec (per g k) 0); [lia|].
  split; [done|]. apply Z.mod_pos_bound. lia.
Qed.

(** The bit of an object of an existing group can be read. *)
Lemma gbit_total k i j d s : Geo g -> Wf g s -> aget (s_group_desc (mem s)) i = Some d -> 0 <= j < per g k ->
  exists bm b, disk s !! offset g (map_of k d) = Some bm /\ bit_at 8 bm j = Some b /\ gbit g k s i j = Some b /\
    0 <= j < 8 * Z.of_nat (length bm).
Proof.
  intros HG HW Hd Hj. destruct (wf_map g s HW k i d Hd) as (bm & Hbm & Hlen & _). pose proof (geo_per g HG k).
  assert (0 <= j < 8 * Z.of_nat (length bm)) as Hr by lia.
  destruct (put_bit8_ok true bm j Hr) as (bm' & _ & _ & _).
  destruct (aget_Some bm (j / 8)) as [x Hx].
  { split; [apply Z.div_pos; lia|apply Z.div_lt_upper_bound; lia]. }
  exists bm, (Z.testbit x (j mod 8)).
  assert (bit_at 8 bm j = Some (Z.testbit x (j mod 8))) as Hb by (unfold bit_at; by rewrite Hx).
  split; [done|]. split; [done|]. split; [|done]. unfold gbit. by rewrite Hd, bind_Some_l, Hbm, bind_Some_l.
Qed.

Lemma free_block_ok n d s : Geo g -> Wf g s -> base g Blk <= n < 2 ^ 32 ->
  aget (s_group_desc (mem s)) ((n - base g Blk) / per g Blk) = Some d ->
  exists s', ext2_free_block g n s = Some (0, s') /\
    Released Blk ((n - base g Blk) / per g Blk) ((n - base g Blk) mod per g Blk) s s'.
Proof.
  intros HG HW Hn Hd. destruct (split_number Blk n d s HG HW Hn Hd) as [Ed Hj].
  unfold ext2_free_block. cbn [base per] in *. go Ed. set (i := (n - _) / _) in *. set (j := (n - _) mod _) in *.
  destruct (gbit_total Blk i j d s HG HW Hd Hj) as (bm & b & Hbm & Hb & Hg & Hr). cbn [map_of] in Hbm.
  go (call_ok s (wf_io g s HW)). cbn [negb]. pure. rewrite (bind_index _ _ _ _ d Hd). cbv beta.
  go (read_ok (bg_block_bitmap d) bm (tick s) (wf_io g s HW) Hbm). rewrite (bind_lift _ _ _ b Hb). cbv beta.
  destruct b; cbn [negb].
  - destruct (put_bit8_ok false bm j Hr) as (bm' & Hput & _). rewrite (bind_lift _ _ _ bm' Hput). cbv beta.
    go (write_ok (bg_block_bitmap d) bm' bm (tick (tick s)) (wf_io g s HW) Hbm). cbn [Z.ltb Z.compare].
    destruct (commit_ok Blk i j false d bm bm' (tick (tick s)) ret HG) as (s' & E & HF); try done; [by do 2 apply wf_calls|].
    exists s'. split.
    + rewrite <-commit_ret in E. exact E.
    + right. split; [done|]. exists d, bm, bm'. by do 2 apply flipped_calls in HF.
  - eexists. split; [reflexivity|]. left. split; [done|]. by eexists.
Qed.

Lemma free_inode_ok n d s : Geo g -> Wf g s -> base g Ino <= n < 2 ^ 32 ->
  aget (s_group_desc (mem s)) ((n - base g Ino) / per g Ino) = Some d ->
  exists s', ext2_free_inode g true n s = Some (0, s') /\
    Released Ino ((n - base g Ino) / per g Ino) ((n - base g Ino) mod per g Ino) s s'.
Proof.
  intros HG HW Hn Hd. destruct (split_number Ino n d s HG HW Hn Hd) as [Ed Hj].
  unfold ext2_free_inode. cbn [negb]. cbn [base per] in *. go Ed.
  set (i := (n - _) / _) in *. set (j := (n - _) mod _) in *.
  destruct (gbit_total Ino i j d s HG HW Hd Hj) as (bm & b & Hbm & Hb & Hg & Hr). cbn [map_of] in Hbm.
  go (call_ok s (wf_io g s HW)). cbn [negb]. pure. rewrite (bind_index _ _ _ _ d Hd). cbv beta.
  go (read_ok (bg_inode_bitmap d) bm (tick s) (wf_io g s HW) Hbm). rewrite (bind_lift _ _ _ b Hb). cbv beta.
  destruct b; cbn [negb].
  - destruct (put_bit8_ok false bm j Hr) as (bm' & Hput & _). rewrite (bind_lift _ _ _ bm' Hput). cbv beta.
    go (write_ok (bg_inode_bitmap d) bm' bm (tick (tick s)) (wf_io g s HW) Hbm). cbn [Z.ltb Z.compare].
    destruct (commit_ok Ino i j false d bm bm' (tick (tick s)) ret HG) as (s' & E & HF); try done; [by do 2 apply wf_calls|].
    exists s'. split.
    + rewrite <-commit_ret in E. exact E.
    + right. split; [done|]. exists d, bm, bm'. by do 2 apply flipped_calls in HF.
  - eexists. split; [reflexivity|]. left. split; [done|]. by eexists.
Qed.

(** ** In terms of object numbers *)

Lemma in_use_iff k n i j : Geo g -> 0 <= j < per g k ->
  ((n - base g k) / per g k = i /\ (n - base g k) mod per g k = j) <-> n = number g k i j.
Proof.
  intros HG Hj. pose proof (geo_per g HG k). unfold number. split.
  - intros [<- <-]. pose proof (Z.div_mod (n - base g k) (per g k)). lia.
  - intros ->. replace (i * per g k + j + base g k - base g k) with (j + i * per g k) by lia.
    rewrite Z.div_add, Z.div_small, Z.mod_add, Z.mod_small by lia. lia.
Qed.

(** [s'] differs from [s] in that object [n] is now [v], the counts still agree with
    the bitmaps and are saved on the device. *)
Record Changed (k : kind) (n : Z) (v : bool) (s s' : fs) : Prop := {
  ch_was : in_use g k s n = Some (negb v);
  ch_wf : Wf g s';
  ch_bits : forall k' m, in_use g k' s' m = if decide (k' = k /\ m = n) then Some v else in_use g k' s m;
  ch_total : total_of k (mem s') = total_of k (mem s) + flag v;
  ch_saved : stored s' = mem s';
  ch_inode : i_data s' = i_data s
}.

Lemma flipped_changed k i j v d bm bm' s s' : Geo g -> Wf g s -> 0 <= j < per g k ->
  Flipped g k i j v d bm bm' s s' -> Changed k (number g k i j) v s s'.
Proof.
  intros HG HW Hj HF. split.
  - rewrite in_use_number by done. unfold gbit. destruct HF as [Hd Hbm Hb _ _ _ _ _ _ _].
    by rewrite Hd, bind_Some_l, Hbm, bind_Some_l.
  - by eapply flip_wf.
  - intros k' m. unfold in_use. rewrite (flip_bits g k i j v d bm bm' s s' HG HW Hj HF).
    destruct (decide (k' = k)) as [->|]; [|by rewrite !decide_False by naive_solver].
    pose proof (in_use_iff k m i j HG Hj). repeat case_decide; naive_solver.
  - by eapply flip_total.
  - apply HF.
  - apply HF.
Qed.

(** Nothing is free in a group whose count is zero. *)
Lemma full_group k s n d : Geo g -> Wf g s ->
  aget (s_group_desc (mem s)) ((n - base g k) / per g k) = Some d -> free_of k d = 0 -> in_use g k s n <> Some false.
Proof.
  intros HG HW Hd Hz. pose proof (geo_per g HG k). unfold in_use, gbit.
  destruct (wf_map g s HW k _ d Hd) as (bm & Hbm & _ & E). rewrite Hz in E.
  rewrite Hd, bind_Some_l, Hbm, bind_Some_l. apply (zeros_zero bm (Z.to_nat (per g k))); [done|].
  pose proof (Z.mod_pos_bound (n - base g k) (per g k)). lia.
Qed.

Lemma no_free k s n : Geo g -> Wf g s ->
  (forall a d, aget (s_group_desc (mem s)) a = Some d -> free_of k d = 0) -> in_use g k s n <> Some false.
Proof.
  intros HG HW Hz. destruct (aget (s_group_desc (mem s)) ((n - base g k) / per g k)) as [d|] eqn:Hd.
  - apply (full_group k s n d HG HW Hd). by eapply Hz.
  - unfold in_use, gbit. by rewrite Hd.
Qed.

Lemma group_count_range k s a d : Geo g -> Wf g s -> aget (s_group_desc (mem s)) a = Some d -> 0 <= free_of k d <= per g k.
Proof.
  intros HG HW Hd. destruct (wf_map g s HW k a d Hd) as (bm & _ & _ & ->).
  pose proof (zeros_range bm (Z.to_nat (per g k))). pose proof (geo_per g HG k). lia.
Qed.

(** The total is zero only if every group's count is. *)
Lemma count_zero k s : Geo g -> Wf g s -> total_of k (mem s) = 0 ->
  forall a d, aget (s_group_desc (mem s)) a = Some d -> free_of k d = 0.
Proof.
  intros HG HW Ht a d Hd. rewrite (wf_free g s HW) in Ht.
  pose proof (group_count_range k s a d HG HW Hd).
  pose proof (gsum_ge (free_of k) (s_group_desc (mem s)) a d) as Hge.
  enough (free_of k d <= 0) by lia. rewrite <-Ht. apply Hge; [|done]. intros a' d' Hd'.
  apply (group_count_range k s a' d' HG HW Hd').
Qed.

(** What [Taken] says in terms of object numbers. *)
Lemma taken_changed k i j s s' : Geo g -> Wf g s -> Taken k i j s s' ->
  Changed k (number g k i j) true s s'.
Proof. intros HG HW (Hj & (d & bm & bm' & HF) & _). by eapply flipped_changed. Qed.

(** Below the lowest object of the first group with free ones, nothing is free. *)
Lemma below_taken k a j s s' n : Geo g -> Wf g s -> Taken k a j s s' ->
  (forall b d, 0 <= b < a -> aget (s_group_desc (mem s)) b = Some d -> free_of k d = 0) ->
  n < number g k a j -> in_use g k s n <> Some false.
Proof.
  intros HG HW (Hj & _ & Hlow) Hz Hn. pose proof (geo_per g HG k) as Hp.
  pose proof (Z.div_mod (n - base g k) (per g k)) as Hdm. pose proof (Z.mod_pos_bound (n - base g k) (per g k)) as Hmb.
  unfold in_use. set (q := (n - base g k) / per g k) in *. set (r := (n - base g k) mod per g k) in *.
  unfold number in Hn. destruct (decide (q = a)) as [Eq|Hq].
  - rewrite Eq, Hlow; [done|]. nia.
  - destruct (aget (s_group_desc (mem s)) q) as [d|] eqn:Hd; [|unfold gbit; by rewrite Hd].
    apply (full_group k s n d HG HW Hd). apply (Hz q d); [|done]. apply aget_range in Hd. split; [lia|]. nia.
Qed.

(** [ext2_new_block]: nothing is free, or the lowest free block is taken. *)
Lemma new_block_ok s : Geo g -> Wf g s ->
  (ext2_new_block g s = Some (0, s) /\ forall n, in_use g Blk s n <> Some false) \/
  exists a j s', ext2_new_block g s = Some (number g Blk a j, s') /\ Taken Blk a j s s' /\
    forall n, n < number g Blk a j -> in_use g Blk s n <> Some false.
Proof.
  intros HG HW. unfold ext2_new_block. pure. destruct (Z.eqb_spec (s_free_blocks_count (mem s)) 0) as [E0|_].
  { left. split; [done|]. intros n. apply no_free; [done..|]. by apply (count_zero Blk). }
  pose proof (geo_groups g HG).
  destruct (new_block_groups_ok (Z.to_nat (s_groups_count g)) 0 s HG HW) as [[Hz E]|(a & j & s' & E & HT & Ha & Hz)]; [lia..| |].
  - left. split; [done|]. intros n. apply no_free; [done..|]. intros a d Hd. apply (Hz a d); [|done].
    apply aget_range in Hd. lia.
  - right. exists a, j, s'. split; [done|]. split; [done|]. intros n Hn. by apply (below_taken Blk a j s s').
Qed.

Lemma find_group_ok n i group l : 0 <= i -> i + Z.of_nat n = Z.of_nat (length l) ->
  (forall a d, aget l a = Some d -> 0 <= bg_free_inodes_count d) ->
  exists a, find_group n i group l = Some a /\
    ((exists d, i <= a /\ aget l a = Some d /\ bg_free_inodes_count d <> 0) \/ a = group) /\
    (a = group -> (forall d, aget l group = Some d -> bg_free_inodes_count d = 0) ->
      forall b d, i <= b -> aget l b = Some d -> bg_free_inodes_count d = 0) /\
    forall b d, a <> group -> i <= b < a -> aget l b = Some d -> bg_free_inodes_count d = 0.
Proof.
  intros Hi Hn Hpos. revert i Hi Hn. induction n as [|n IH]; intros i Hi Hn; cbn [find_group].
  - exists group. split; [done|]. split; [by right|]. split; [|done]. intros _ _ b d Hb Hd%aget_range. lia.
  - destruct (aget_Some l i) as [d Hd]; [lia|]. rewrite Hd, bind_Some_l. pose proof (Hpos i d Hd).
    destruct (Z.ltb_spec 0 (bg_free_inodes_count d)) as [Hf|Hf].
    + exists i. split; [done|]. split; [left; exists d; split; [lia|split; [done|lia]]|]. split; [|lia].
      intros -> Hz. rewrite (Hz d Hd) in Hf. lia.
    + destruct (IH (i + 1)) as (a & E & Hc & Hall & Hlow); [lia..|]. exists a. split; [done|].
      assert (forall b x, b = i -> aget l b = Some x -> bg_free_inodes_count x = 0) as Hat.
      { intros b x -> Hx. rewrite Hd in Hx. injection Hx as <-. lia. }
      split; [destruct Hc as [(x & ? & ?)|]; [left; exists x; split; [lia|done]|by right]|]. split.
      * intros Ha Hg b x Hb Hx. destruct (decide (b = i)); [by eapply Hat|]. by apply (Hall Ha Hg b x); [lia|].
      * intros b x Ha Hb Hx. destruct (decide (b = i)); [by eapply Hat|]. by apply (Hlow b x Ha); [lia|].
Qed.

(** The second half of [ext2_new_inode], once the group [a] is chosen. *)
Lemma inode_in_group s a d : Geo g -> Wf g s -> aget (s_group_desc (mem s)) a = Some d -> free_of Ino d <> 0 ->
  exists j s',
    (d <- index (s_group_desc (mem s)) a;
     if bg_free_inodes_count d =? 0 then ret 0
     else
       ok <- call;
       if negb ok then ret 0
       else
         buf <- ext2_read_block g (bg_inode_bitmap d);
         match buf with
         | None => ret 0
         | Some bitmap =>
             z <- lift (find_zero (Z.to_nat (s_inodes_per_group g)) 0 bitmap);
             match z with
             | Some i => take_inode g a i d bitmap
             | None => ret 0
             end
         end) s = Some (number g Ino a j, s') /\ Taken Ino a j s s'.
Proof.
  intros HG HW Hd Hf. rewrite (bind_index _ _ _ _ d Hd). cbv beta. cbn [free_of] in Hf.
  destruct (Z.eqb_spec (bg_free_inodes_count d) 0) as [|_]; [done|].
  destruct (group_has_free Ino a d s HG HW Hd Hf) as (bm & j & Hbm & Hfz & Hj & Hbit & Hlow).
  go (call_ok s (wf_io g s HW)). cbn [negb]. cbn [map_of] in Hbm.
  go (read_ok (bg_inode_bitmap d) bm (tick s) (wf_io g s HW) Hbm).
  rewrite (bind_lift _ _ _ (Some j) Hfz). cbv beta.
  destruct (take_inode_ok a j d bm (tick (tick s)) HG) as (s' & bm' & E & HF); try done; [by do 2 apply wf_calls|].
  exists j, s'. split; [exact E|]. split; [done|]. split.
  - exists d, bm, bm'. by do 2 apply flipped_calls in HF.
  - intros b Hb. unfold gbit. rewrite Hd, bind_Some_l. cbn [map_of]. rewrite Hbm, bind_Some_l. by apply Hlow.
Qed.

(** [ext2_new_inode]: nothing is free, or an inode is taken from the directory's group,
    or from the first group with free ones when that group is full. *)
Lemma new_inode_ok s : Geo g -> Wf g s -> 0 <= i_block_group s < s_groups_count g ->
  (ext2_new_inode g true s = Some (0, s) /\ forall n, in_use g Ino s n <> Some false) \/
  exists a j s', ext2_new_inode g true s = Some (number g Ino a j, s') /\ Taken Ino a j s s' /\
    (a = i_block_group s \/
     (forall b, gbit g Ino s (i_block_group s) b <> Some false \/ ~ 0 <= b < per g Ino) /\
     forall n, n < number g Ino a j -> in_use g Ino s n <> Some false).
Proof.
  intros HG HW Hgr. unfold ext2_new_inode. cbn [negb]. pure.
  destruct (Z.eqb_spec (s_free_inodes_count (mem s)) 0) as [E0|_].
  { left. split; [done|]. intros n. apply no_free; [done..|]. by apply (count_zero Ino). }
  destruct (aget_Some (s_group_desc (mem s)) (i_block_group s)) as [d0 Hd0]; [rewrite (wf_groups g s HW); lia|].
  pure. rewrite (bind_index _ _ _ _ d0 Hd0). cbv beta.
  destruct (Z.eqb_spec (bg_free_inodes_count d0) 0) as [Ef|Ef]; cycle 1.
  { rewrite bind_ret_l. cbv beta. destruct (inode_in_group s (i_block_group s) d0 HG HW Hd0 Ef) as (j & s' & E & HT).
    right. exists (i_block_group s), j, s'. split; [exact E|]. split; [done|]. by left. }
  destruct (find_group_ok (Z.to_nat (s_groups_count g)) 0 (i_block_group s) (s_group_desc (mem s)))
    as (a & Ea & Hc & Hall & Hlow); [lia|rewrite (wf_groups g s HW); lia| |].
  { intros a d Hd. apply (group_count_range Ino s a d HG HW Hd). }
  rewrite (bind_lift _ _ _ a Ea). cbv beta.
  assert (forall d, aget (s_group_desc (mem s)) (i_block_group s) = Some d -> bg_free_inodes_count d = 0) as Hz0.
  { intros d Hd. rewrite Hd0 in Hd. by injection Hd as <-. }
  destruct (decide (a = i_block_group s)) as [->|Ha].
  - left. rewrite (bind_index _ _ _ _ d0 Hd0). cbv beta. rewrite Ef. cbn [Z.eqb]. split; [done|].
    intros n. apply no_free; [done..|]. intros b d Hd. apply (Hall eq_refl Hz0 b d); [|done]. apply aget_range in Hd. lia.
  - destruct Hc as [(d & Ha0 & Hd & Hf)|]; [|done].
    destruct (inode_in_group s a d HG HW Hd Hf) as (j & s' & E & HT). right. exists a, j, s'.
    split; [exact E|]. split; [done|]. right. split.
    + intros b. destruct (decide (0 <= b < per g Ino)) as [Hb|]; [left|by right].
      rewrite <-(in_use_number g HG Ino s) by done. pose proof (geo_per g HG Ino).
      apply (full_group Ino s _ d0 HG HW); [|done]. by rewrite (proj1 (proj2 (in_use_iff Ino _ _ b HG Hb) eq_refl)).
    + intros n. apply (below_taken Ino a j s s' n HG HW HT). intros b x Hb Hx. by apply (Hlow b x Ha).
Qed.

Lemma in_use_desc k s n v : in_use g k s n = Some v ->
  exists d, aget (s_group_desc (mem s)) ((n - base g k) / per g k) = Some d.
Proof. unfold in_use, gbit. intros (d & Hd & _)%bind_Some. by exists d. Qed.

(** What [Released] says in terms of object numbers. *)
Lemma released_spec k s s' n v : Geo g -> Wf g s -> in_use g k s n = Some v ->
  Released k ((n - base g k) / per g k) ((n - base g k) mod per g k) s s' ->
  Wf g s' /\
  (forall k' m, in_use g k' s' m = if decide (k' = k /\ m = n) then Some false else in_use g k' s m) /\
  total_of k (mem s') = total_of k (mem s) + (if v then 1 else 0) /\
  (v = false -> mem s' = mem s /\ disk s' = disk s).
Proof.
  intros HG HW Hv HR. unfold in_use in Hv. destruct HR as [[Hb [c ->]]|[Hb (d & bm & bm' & HF)]].
  - rewrite Hb in Hv. injection Hv as <-. split; [by apply wf_calls|]. split; [|split; [cbn; lia|done]].
    intros k' m. case_decide as Hkm; [|done]. destruct Hkm as [-> ->]. exact Hb.
  - rewrite Hb in Hv. injection Hv as <-. pose proof (geo_per g HG k).
    assert (0 <= (n - base g k) mod per g k < per g k) as Hj by (apply Z.mod_pos_bound; lia).
    destruct (flipped_changed k _ _ false d bm bm' s s' HG HW Hj HF) as [_ ? Hbits ? _ _].
    rewrite <-(proj1 (in_use_iff k n _ _ HG Hj) (conj eq_refl eq_refl)) in Hbits. by split_and!.
Qed.

(** Releasing what was taken undoes it. *)
Lemma release_taken k (free : Z -> M Z) i j s s1 : Geo g -> Wf g s -> Taken k i j s s1 ->
  (forall d, base g k <= number g k i j < 2 ^ 32 ->
    aget (s_group_desc (mem s1)) ((number g k i j - base g k) / per g k) = Some d ->
    exists s2, free (number g k i j) s1 = Some (0, s2) /\
      Released k ((number g k i j - base g k) / per g k) ((number g k i j - base g k) mod per g k) s1 s2) ->
  exists s2, free (number g k i j) s1 = Some (0, s2) /\ mem s2 = mem s /\ disk s2 = disk s.
Proof.
  intros HG HW (Hj & (d & bm & bm' & HF) & _) Hfree.
  destruct (proj2 (in_use_iff k _ i j HG Hj) eq_refl) as [Hq Hr]. rewrite Hq, Hr in Hfree.
  pose proof (flip_get g k i j true d bm bm' s s1 HF i) as Hget. rewrite decide_True in Hget by done.
  destruct (number_u32 k i j d s HG HW (fl_desc _ _ _ _ _ _ _ _ _ _ HF) Hj) as [Hn _].
  destruct (Hfree _ Hn Hget) as (s2 & E & HR). exists s2. split; [done|].
  pose proof (flip_bits g k i j true d bm bm' s s1 HG HW Hj HF k i j) as Hb. rewrite decide_True in Hb by done.
  destruct HR as [[Hb' _]|[_ (d1 & bm1 & bm1' & HF1)]]; [congruence|].
  by apply (flip_flip g k i j d bm bm' d1 bm1 bm1' s s1 s2).
Qed.

End Runs.

(** ** A small file system *)

(** Two groups of 32 blocks of 128 bytes, of which the first 12 are in use: the bitmaps
    are in blocks 3, 4, 35 and 36, the inode tables behind them, one inode in a block;
    inodes 1 and 2 are in use, and the directory is in group 1. *)
Definition small_geo : geometry := mk_geo 128 32 8 4 2 1 128.
Definition small_counters : counters := mk_counters 40 14 [mk_gd 3 4 5 20 6; mk_gd 35 36 37 20 8].
Definition small_disk : gmap Z (list Z) :=
  <[384 := 255 :: 15 :: replicate 126 0]> (<[512 := 3 :: replicate 127 0]> (
  <[4480 := 255 :: 15 :: replicate 126 0]> (
  list_to_map ((fun n => (128 * n, replicate 128 0)) <$> seqZ 1 64)))).
Definition small_fs : fs :=
  mk_fs small_counters small_counters small_disk (replicate 15 0) 1 40 14 (fun _ => false) O.

Lemma small_geo_ok : Geo small_geo.
Proof. split; [|intros []..| | | |intros []|intros []]; cbn; lia. Qed.

Lemma two_groups {A} (x y d : A) i : aget [x; y] i = Some d -> i = 0 /\ d = x \/ i = 1 /\ d = y.
Proof.
  intros E. pose proof (aget_range _ _ _ E) as Hr. cbn in Hr. assert (i = 0 \/ i = 1) as [-> | ->] by lia;
    cbn in E; injection E as <-; auto.
Qed.

Lemma small_fs_ok : Wf small_geo small_fs.
Proof.
  split; try done.
  - intros k i d [[-> ->]|[-> ->]]%two_groups; destruct k; eexists;
      (split; [vm_compute; reflexivity|]); split; vm_compute; reflexivity.
  - intros []; reflexivity.
  - intros k k' i i' d d' [[-> ->]|[-> ->]]%two_groups [[-> ->]|[-> ->]]%two_groups; destruct k, k';
      vm_compute; intros; first [by split|discriminate].
Qed.

(** ** The allocators *)

(** C36: while no call fails, [ext2_new_block] returns 0 and changes nothing exactly when
    no block is free; otherwise it returns the lowest free block, whose bit is the only
    one of any bitmap to change, the free counts of the group and of the superblock still
    equal the number of clear bits, and the counters on the device are those in memory. *)
Theorem ext2_new_block_correct g s (HG : Geo g) (HW : Wf g s) :
  (ext2_new_block g s = Some (0, s) /\ forall n, in_use g Blk s n <> Some false) \/
  exists b s', ext2_new_block g s = Some (b, s') /\ Changed g Blk b true s s' /\
    forall n, n < b -> in_use g Blk s n <> Some false.
Proof.
  destruct (new_block_ok g s HG HW) as [|(a & j & s' & E & HT & Hlow)]; [by left|].
  right. exists (number g Blk a j), s'. split; [done|]. split; [|done]. by apply taken_changed.
Qed.

Lemma ext2_new_block_correct_witness :
  (ext2_new_block small_geo small_fs = Some (0, small_fs) /\ forall n, in_use small_geo Blk small_fs n <> Some false) \/
  exists b s', ext2_new_block small_geo small_fs = Some (b, s') /\ Changed small_geo Blk b true small_fs s' /\
    forall n, n < b -> in_use small_geo Blk small_fs n <> Some false.
Proof. apply (ext2_new_block_correct small_geo small_fs); [apply small_geo_ok|apply small_fs_ok]. Defined.

(** While no call fails, [ext2_free_block] of a block of the file system returns 0,
    clears the block's bit and no other, and raises the free counts by one if the block
    was in use; freeing a free block changes no counter and no bitmap. *)
Theorem ext2_free_block_correct g s n v (HG : Geo g) (HW : Wf g s)
    (Hn : s_first_data_block g <= n < 2 ^ 32) (Hv : in_use g Blk s n = Some v) :
  exists s', ext2_free_block g n s = Some (0, s') /\ Wf g s' /\
    (forall k m, in_use g k s' m = if decide (k = Blk /\ m = n) then Some false else in_use g k s m) /\
    s_free_blocks_count (mem s') = s_free_blocks_count (mem s) + (if v then 1 else 0) /\
    (v = false -> mem s' = mem s /\ disk s' = disk s).
Proof.
  destruct (in_use_desc g Blk s n v Hv) as [d Hd].
  destruct (free_block_ok g n d s HG HW Hn Hd) as (s' & E & HR). exists s'. split; [done|].
  destruct (released_spec g Blk s s' n v HG HW Hv HR) as (? & ? & Ht & ?). by split_and!.
Qed.

Lemma ext2_free_block_correct_witness :
  exists s', ext2_free_block small_geo 35 small_fs = Some (0, s') /\ Wf small_geo s' /\
    (forall k m, in_use small_geo k s' m = if decide (k = Blk /\ m = 35) then Some false else in_use small_geo k small_fs m) /\
    s_free_blocks_count (mem s') = s_free_blocks_count (mem small_fs) + 1 /\
    (true = false -> mem s' = mem small_fs /\ disk s' = disk small_fs).
Proof.
  apply (ext2_free_block_correct small_geo small_fs 35 true);
    [apply small_geo_ok|apply small_fs_ok|cbn; lia|vm_compute; reflexivity].
Defined.

(** While no call fails, [ext2_new_inode] returns 0 and changes nothing exactly when
    no inode is free. Otherwise it takes a free inode, the lowest of its group, with the
    same effect on bitmaps and counts as for blocks; the group is the directory's unless
    that one is full, and then no inode with a lower number is free. *)
Theorem ext2_new_inode_correct g s (HG : Geo g) (HW : Wf g s) (Hd : 0 <= i_block_group s < s_groups_count g) :
  (ext2_new_inode g true s = Some (0, s) /\ forall n, in_use g Ino s n <> Some false) \/
  exists group i s', let ino := group * s_inodes_per_group g + i + 1 in
    ext2_new_inode g true s = Some (ino, s') /\ 0 <= i < s_inodes_per_group g /\ Changed g Ino ino true s s' /\
    (forall b, 0 <= b < i -> gbit g Ino s group b = Some true) /\
    (group = i_block_group s \/
     (forall b, 0 <= b < s_inodes_per_group g -> gbit g Ino s (i_block_group s) b <> Some false) /\
     forall n, n < ino -> in_use g Ino s n <> Some false).
Proof.
  destruct (new_inode_ok g s HG HW Hd) as [|(a & j & s' & E & HT & Hc)]; [by left|].
  right. exists a, j, s'. split; [exact E|]. pose proof HT as (Hj & _ & Hlow). split; [done|].
  split; [exact (taken_changed g Ino a j s s' HG HW HT)|]. split; [done|].
  destruct Hc as [|[Hfull Hall]]; [by left|right]. split; [|done]. intros b Hb. by destruct (Hfull b).
Qed.

Lemma ext2_new_inode_correct_witness :
  (ext2_new_inode small_geo true small_fs = Some (0, small_fs) /\ forall n, in_use small_geo Ino small_fs n <> Some false) \/
  exists group i s', let ino := group * s_inodes_per_group small_geo + i + 1 in
    ext2_new_inode small_geo true small_fs = Some (ino, s') /\ 0 <= i < s_inodes_per_group small_geo /\
    Changed small_geo Ino ino true small_fs s' /\
    (forall b, 0 <= b < i -> gbit small_geo Ino small_fs group b = Some true) /\
    (group = i_block_group small_fs \/
     (forall b, 0 <= b < s_inodes_per_group small_geo ->
        gbit small_geo Ino small_fs (i_block_group small_fs) b <> Some false) /\
     forall n, n < ino -> in_use small_geo Ino small_fs n <> Some false).
Proof.
  apply (ext2_new_inode_correct small_geo small_fs); [apply small_geo_ok|apply small_fs_ok|cbn; lia].
Defined.

(** Releasing what was just allocated restores the counters in memory and every
    block of the device, for blocks and for inodes. *)
Theorem ext2_allocation_roundtrip g s (HG : Geo g) (HW : Wf g s)
    (Hd : 0 <= i_block_group s < s_groups_count g) :
  (forall b s1, ext2_new_block g s = Some (b, s1) -> b <> 0 ->
    exists s2, ext2_free_block g b s1 = Some (0, s2) /\ mem s2 = mem s /\ disk s2 = disk s) /\
  (forall ino s1, ext2_new_inode g true s = Some (ino, s1) -> ino <> 0 ->
    exists s2, ext2_free_inode g true ino s1 = Some (0, s2) /\ mem s2 = mem s /\ disk s2 = disk s).
Proof.
  split.
  - intros b s1 E Hb. destruct (new_block_ok g s HG HW) as [[E' _]|(a & j & s' & E' & HT & _)]; rewrite E' in E.
    { congruence. }
    injection E as <- <-. apply (release_taken g Blk (ext2_free_block g) a j s s' HG HW HT).
    intros d. by apply (free_block_ok g _ d s' HG), (taken_changed g Blk a j s s').
  - intros b s1 E Hb. destruct (new_inode_ok g s HG HW Hd) as [[E' _]|(a & j & s' & E' & HT & _)]; rewrite E' in E.
    { congruence. }
    injection E as <- <-. apply (release_taken g Ino (ext2_free_inode g true) a j s s' HG HW HT).
    intros d. by apply (free_inode_ok g _ d s' HG), (taken_changed g Ino a j s s').
Qed.

Lemma ext2_allocation_roundtrip_witness :
  (exists s1 s2, ext2_new_block small_geo small_fs = Some (13, s1) /\ ext2_free_block small_geo 13 s1 = Some (0, s2) /\
     mem s2 = mem small_fs /\ disk s2 = disk small_fs) /\
  (exists s1 s2, ext2_new_inode small_geo true small_fs = Some (9, s1) /\ ext2_free_inode small_geo true 9 s1 = Some (0, s2) /\
     mem s2 = mem small_fs /\ disk s2 = disk small_fs).
Proof.
  destruct (ext2_allocation_roundtrip small_geo small_fs small_geo_ok small_fs_ok) as [Hb Hi]; [cbn; lia|]. split.
  - eexists. destruct (Hb 13 _ ltac:(vm_compute; reflexivity) ltac:(lia)) as (s2 & ?). exists s2. split; [|done].
    vm_compute; reflexivity.
  - eexists. destruct (Hi 9 _ ltac:(vm_compute; reflexivity) ltac:(lia)) as (s2 & ?). exists s2. split; [|done].
    vm_compute; reflexivity.
Defined.

End Ext2Spec.
