(* ===== verification/Ext2Map.v ===== *)
(** The block map of an ext2 inode: what [ext2_alloc_block] stores, [ext2_get_block]
    finds. *)

From S2P Require Import Prelude Ext2 Ext2Inv Ext2Spec.

Module Ext2Map.
Import Ext2 Ext2Inv Ext2Spec.
Local Open Scope ext2_scope.

(** ** Words of a block *)

Lemma word_bytes v : 0 <= v < 2 ^ 32 ->
  v mod 2 ^ 8 + 2 ^ 8 * (v / 2 ^ 8 mod 2 ^ 8) + 2 ^ 16 * (v / 2 ^ 16 mod 2 ^ 8) + 2 ^ 24 * (v / 2 ^ 24 mod 2 ^ 8) = v.
Proof. intros Hv. Z.div_mod_to_equations. lia. Qed.

Lemma set32_ok buf i v : 0 <= i -> 4 * i + 4 <= Z.of_nat (length buf) -> 0 <= v < 2 ^ 32 ->
  exists buf', set32 buf i v = Some buf' /\ length buf' = length buf /\
    forall j, get32 buf' j = if decide (j = i) then Some v else get32 buf j.
Proof.
  intros Hi Hl Hv. unfold set32.
  destruct (aset buf (4 * i) (v mod 2 ^ 8)) as [b0|] eqn:E0; [|rewrite aset_Some in E0 by lia; done].
  pose proof (aset_length _ _ _ _ E0). rewrite bind_Some_l.
  destruct (aset b0 (4 * i + 1) (v / 2 ^ 8 mod 2 ^ 8)) as [b1|] eqn:E1; [|rewrite aset_Some in E1 by lia; done].
  pose proof (aset_length _ _ _ _ E1). rewrite bind_Some_l.
  destruct (aset b1 (4 * i + 2) (v / 2 ^ 16 mod 2 ^ 8)) as [b2|] eqn:E2; [|rewrite aset_Some in E2 by lia; done].
  pose proof (aset_length _ _ _ _ E2). rewrite bind_Some_l.
  destruct (aset b2 (4 * i + 3) (v / 2 ^ 24 mod 2 ^ 8)) as [b3|] eqn:E3; [|rewrite aset_Some in E3 by lia; done].
  pose proof (aset_length _ _ _ _ E3). exists b3. split; [done|]. split; [congruence|]. intros j.
  assert (forall a, aget b3 a = if decide (a = 4 * i + 3) then Some (v / 2 ^ 24 mod 2 ^ 8) else
    if decide (a = 4 * i + 2) then Some (v / 2 ^ 16 mod 2 ^ 8) else
    if decide (a = 4 * i + 1) then Some (v / 2 ^ 8 mod 2 ^ 8) else
    if decide (a = 4 * i) then Some (v mod 2 ^ 8) else aget buf a) as Hget.
  { intros a. by rewrite (aget_aset _ _ _ _ a E3), (aget_aset _ _ _ _ a E2), (aget_aset _ _ _ _ a E1), (aget_aset _ _ _ _ a E0). }
  unfold get32. rewrite !Hget. destruct (decide (j = i)) as [->|].
  - repeat first [rewrite decide_True by lia | rewrite decide_False by lia]. cbn [mbind option_bind].
    f_equal. by apply word_bytes.
  - by repeat rewrite decide_False by lia.
Qed.

Lemma get32_Some buf j : 0 <= j -> 4 * j + 4 <= Z.of_nat (length buf) -> exists v, get32 buf j = Some v.
Proof.
  intros Hj Hl. unfold get32.
  destruct (aget_Some buf (4 * j)) as [? ->]; [lia|]. destruct (aget_Some buf (4 * j + 1)) as [? ->]; [lia|].
  destruct (aget_Some buf (4 * j + 2)) as [? ->]; [lia|]. destruct (aget_Some buf (4 * j + 3)) as [? ->]; [lia|].
  by eexists.
Qed.

Lemma get32_zeros n j : 0 <= j -> 4 * j + 4 <= Z.of_nat n -> get32 (replicate n 0) j = Some 0.
Proof.
  intros Hj Hl. assert (forall a, 0 <= a < Z.of_nat n -> aget (replicate n 0) a = Some 0) as H.
  { intros a Ha. unfold aget. destruct (Z.ltb_spec a 0); [lia|]. apply lookup_replicate_2. lia. }
  unfold get32. by rewrite !H by lia.
Qed.

Section Map.
Context (g : geometry).

(** ** The device *)

(** A block in use that holds no bitmap. *)
Definition data_block (s : fs) (p : Z) : Prop :=
  in_use g Blk s p = Some true /\
  forall k i d, aget (s_group_desc (mem s)) i = Some d -> p <> map_of k d.

(** The device has every block of the groups, is smaller than 4 GB, and its bitmaps and
    the inode's indirect block are in use; block 0 is never free. *)
Record Dev (s : fs) : Prop := {
  dev_size : (s_first_data_block g + s_groups_count g * s_blocks_per_group g) * s_block_size g <= 2 ^ 32;
  dev_block : forall n v, in_use g Blk s n = Some v ->
    exists buf, disk s !! offset g n = Some buf /\ Z.of_nat (length buf) = s_block_size g;
  dev_maps : forall k i d, aget (s_group_desc (mem s)) i = Some d -> in_use g Blk s (map_of k d) = Some true;
  dev_zero : in_use g Blk s 0 <> Some false;
  dev_data : length (i_data s) = 15%nat;
  dev_ind : forall p, aget (i_data s) 12 = Some p -> p <> 0 -> data_block s p
}.

Lemma in_use_range s n v : Geo g -> Wf g s -> in_use g Blk s n = Some v ->
  s_first_data_block g <= n < s_first_data_block g + s_groups_count g * s_blocks_per_group g.
Proof.
  intros HG HW Hn. destruct (in_use_desc g Blk s n v Hn) as [d Hd%aget_range]. cbn [base per] in Hd.
  rewrite (wf_groups g s HW) in Hd. pose proof (geo_per g HG Blk) as Hp. cbn [per] in Hp.
  pose proof (Z.div_mod (n - s_first_data_block g) (s_blocks_per_group g)) as Hdm.
  pose proof (Z.mod_pos_bound (n - s_first_data_block g) (s_blocks_per_group g)). nia.
Qed.

Lemma offset_inj s n m v w : Geo g -> Wf g s -> Dev s -> in_use g Blk s n = Some v -> in_use g Blk s m = Some w ->
  offset g n = offset g m -> n = m.
Proof.
  intros HG HW HD Hn%in_use_range Hm%in_use_range E; try done. pose proof (dev_size s HD).
  pose proof (geo_bs g HG). pose proof (geo_base g HG Blk) as Hb. cbn [base] in Hb.
  unfold offset in E. rewrite !u32_small in E by nia. nia.
Qed.

(** A data block has another place than every bitmap. *)
Lemma data_offset s p k i d : Geo g -> Wf g s -> Dev s -> data_block s p ->
  aget (s_group_desc (mem s)) i = Some d -> offset g (map_of k d) <> offset g p.
Proof.
  intros HG HW HD [Hp Hne] Hd E. apply (Hne k i d Hd).
  symmetry. by eapply (offset_inj s); [..|apply (dev_maps s HD k i d Hd)|apply Hp|].
Qed.

(** Writing a data block and [i_data] keeps the bitmaps. *)
Definition Wrote (p : Z) (buf : list Z) (s s' : fs) : Prop :=
  mem s' = mem s /\ stored s' = stored s /\ disk s' = <[offset g p := buf]> (disk s) /\ fails s' = fails s.

Lemma wrote_bitmap p buf s s' k i d : Geo g -> Wf g s -> Dev s -> data_block s p -> Wrote p buf s s' ->
  aget (s_group_desc (mem s)) i = Some d -> disk s' !! offset g (map_of k d) = disk s !! offset g (map_of k d).
Proof.
  intros HG HW HD Hp (_ & _ & -> & _) Hd. apply lookup_insert_ne.
  pose proof (data_offset s p k i d HG HW HD Hp Hd). congruence.
Qed.

Lemma wrote_in_use p buf s s' k n : Geo g -> Wf g s -> Dev s -> data_block s p -> Wrote p buf s s' ->
  in_use g k s' n = in_use g k s n.
Proof.
  intros HG HW HD Hp HS. unfold in_use, gbit. pose proof HS as (-> & _).
  destruct (aget _ _) as [d|] eqn:Hd; [|done]. rewrite !bind_Some_l.
  by rewrite (wrote_bitmap p buf s s' k _ d HG HW HD Hp HS Hd).
Qed.

Lemma wrote_wf p buf s s' : Geo g -> Wf g s -> Dev s -> data_block s p -> Wrote p buf s s' -> Wf g s'.
Proof.
  intros HG HW HD Hp HS. pose proof HS as (Em & Es & _ & Ef). split; rewrite ?Em, ?Es, ?Ef; try apply HW.
  intros k i d Hd. rewrite (wrote_bitmap p buf s s' k i d HG HW HD Hp HS Hd). by apply (wf_map g s HW k i).
Qed.

Lemma wrote_data p buf s s' q : Geo g -> Wf g s -> Dev s -> data_block s p -> Wrote p buf s s' ->
  data_block s q -> data_block s' q.
Proof.
  intros HG HW HD Hp HS [Hq Hne]. split.
  - by rewrite (wrote_in_use p buf s s' Blk q HG HW HD Hp HS).
  - destruct HS as (-> & _). done.
Qed.

Lemma wrote_dev p buf s s' : Geo g -> Wf g s -> Dev s -> data_block s p -> Wrote p buf s s' ->
  Z.of_nat (length buf) = s_block_size g -> length (i_data s') = 15%nat ->
  (forall q, aget (i_data s') 12 = Some q -> q <> 0 -> data_block s q) -> Dev s'.
Proof.
  intros HG HW HD Hp HS Hl Hd Hi.
  assert (forall k n, in_use g k s' n = in_use g k s n) as Hu by (intros; by eapply wrote_in_use).
  split; [apply HD|..|done|].
  - intros n v. rewrite Hu. intros Hn. destruct HS as (_ & _ & -> & _).
    destruct (decide (offset g p = offset g n)) as [<-|Hne].
    + rewrite lookup_insert_eq. by exists buf.
    + rewrite lookup_insert_ne by done. by eapply (dev_block s HD).
  - intros k i d. rewrite Hu. destruct HS as (-> & _). apply (dev_maps s HD).
  - rewrite Hu. apply (dev_zero s HD).
  - intros q Hq Hq0. eapply wrote_data; [done..|]. by apply Hi.
Qed.

(** Taking a block keeps the other data blocks, and the new one is one. *)
Lemma taken_same_maps k a j s s' i d' : Taken g k a j s s' -> aget (s_group_desc (mem s')) i = Some d' ->
  exists d, aget (s_group_desc (mem s)) i = Some d /\ forall k', map_of k' d' = map_of k' d.
Proof.
  intros (_ & (d & bm & bm' & HF) & _). rewrite (flip_get g k a j true d bm bm' s s' HF).
  destruct (decide (i = a)) as [->|]; [|by exists d'].
  intros [= <-]. exists d. split; [apply HF|]. intros k'. apply bump_map.
Qed.

Lemma taken_data a j s s' q : Geo g -> Wf g s -> Taken g Blk a j s s' -> data_block s q -> data_block s' q.
Proof.
  intros HG HW HT [Hq Hne]. split.
  - rewrite (ch_bits _ _ _ _ _ _ (taken_changed g Blk a j s s' HG HW HT)). by case_decide.
  - intros k i d' Hd'. destruct (taken_same_maps Blk a j s s' i d' HT Hd') as (d & Hd & ->). by eapply Hne.
Qed.

Lemma taken_new a j s s' : Geo g -> Wf g s -> Dev s -> Taken g Blk a j s s' -> data_block s' (number g Blk a j).
Proof.
  intros HG HW HD HT. destruct (taken_changed g Blk a j s s' HG HW HT) as [Hwas _ Hbits _ _ _]. split.
  - rewrite Hbits. by rewrite decide_True.
  - intros k i d' Hd' E. destruct (taken_same_maps Blk a j s s' i d' HT Hd') as (d & Hd & Em).
    rewrite Em in E. rewrite E, (dev_maps s HD k i d Hd) in Hwas. discriminate Hwas.
Qed.

Lemma taken_disk a j s s' q : Geo g -> Wf g s -> Dev s -> Taken g Blk a j s s' -> data_block s q ->
  disk s' !! offset g q = disk s !! offset g q.
Proof.
  intros HG HW HD (_ & (d & bm & bm' & HF) & _) Hq. rewrite (fl_disk _ _ _ _ _ _ _ _ _ _ HF).
  apply lookup_insert_ne. eapply (data_offset s q Blk); [done..|apply HF].
Qed.

Lemma taken_dev a j s s' : Geo g -> Wf g s -> Dev s -> Taken g Blk a j s s' -> Dev s'.
Proof.
  intros HG HW HD HT. pose proof HT as (Hj & (d & bm & bm' & HF) & _).
  destruct (flip_bitmap g Blk a j true d bm bm' s s' HG HW Hj HF) as (Hlen & _).
  destruct (taken_changed g Blk a j s s' HG HW HT) as [_ HW' Hbits _ _ Hdata].
  assert (forall n v, in_use g Blk s' n = Some v -> exists w, in_use g Blk s n = Some w) as Hback.
  { intros n v. rewrite Hbits. case_decide as E; [|by exists v]. destruct E as [_ ->]. intros _. exists false.
    exact (ch_was _ _ _ _ _ _ (taken_changed g Blk a j s s' HG HW HT)). }
  split; [apply HD|..].
  - intros n v Hn. destruct (Hback n v Hn) as [w Hw]. rewrite (fl_disk _ _ _ _ _ _ _ _ _ _ HF).
    destruct (decide (offset g (map_of Blk d) = offset g n)) as [<-|Hne].
    + rewrite lookup_insert_eq. by exists bm'.
    + rewrite lookup_insert_ne by done. by eapply (dev_block s HD).
  - intros k i d' Hd'. destruct (taken_same_maps Blk a j s s' i d' HT Hd') as (d0 & Hd0 & ->).
    rewrite Hbits. case_decide; [done|]. by apply (dev_maps s HD k i).
  - rewrite Hbits. case_decide; [done|]. apply (dev_zero s HD).
  - rewrite Hdata. apply HD.
  - intros p. rewrite Hdata. intros Hp Hp0. apply (taken_data a j s s' p HG HW HT). by apply (dev_ind s HD).
Qed.

(** What one step of an allocation leaves alone: data blocks stay in use and keep their
    contents but for block [x], and the inode tables stay where they are. *)
Definition table (s : fs) (i : Z) : option Z := bg_inode_table <$> aget (s_group_desc (mem s)) i.

Record Kept_but (x : Z) (s s' : fs) : Prop := {
  kb_data : forall p, data_block s p -> data_block s' p;
  kb_disk : forall p, data_block s p -> p <> x -> disk s' !! offset g p = disk s !! offset g p;
  kb_table : forall i, table s' i = table s i
}.

Lemma kept_trans x s1 s2 s3 : Kept_but x s1 s2 -> Kept_but x s2 s3 -> Kept_but x s1 s3.
Proof.
  intros [A1 B1 C1] [A2 B2 C2]. split.
  - auto.
  - intros p Hp Hx. by rewrite B2, B1 by auto.
  - intros i. by rewrite C2, C1.
Qed.

Lemma taken_kept x a j s s' : Geo g -> Wf g s -> Dev s -> Taken g Blk a j s s' -> Kept_but x s s'.
Proof.
  intros HG HW HD HT. split.
  - intros p. by apply (taken_data a j).
  - intros p Hp _. by apply (taken_disk a j).
  - intros i. unfold table. destruct HT as (_ & (d & bm & bm' & HF) & _).
    rewrite (flip_get g Blk a j true d bm bm' s s' HF). case_decide as E; [|done].
    rewrite E, (fl_desc _ _ _ _ _ _ _ _ _ _ HF). done.
Qed.

Lemma wrote_kept p buf s s' : Geo g -> Wf g s -> Dev s -> data_block s p -> Wrote p buf s s' -> Kept_but p s s'.
Proof.
  intros HG HW HD Hp HS. split.
  - intros q. by apply (wrote_data p buf).
  - intros q Hq Hne. destruct HS as (_ & _ & -> & _). apply lookup_insert_ne. intros E. apply Hne.
    symmetry. by eapply (offset_inj s); [..|apply Hp|apply Hq|].
  - intros i. unfold table. by destruct HS as (-> & _).
Qed.

Lemma with_data_kept x data s : Kept_but x s (with_data data s).
Proof. by split. Qed.

(** ** Reading the map *)

(** The block behind logical block [n], as far as the single indirect block goes. *)
Definition block_of (s : fs) (n : Z) : option Z :=
  if n <? 12 then aget (i_data s) n
  else
    p ← aget (i_data s) 12;
    if p =? 0 then Some 0 else buf ← disk s !! offset g p; get32 buf (n - 12).

Lemma pointer_ok s p i v : no_fault s ->
  (if p =? 0 then Some 0 else buf ← disk s !! offset g p; get32 buf i) = Some v ->
  exists c, pointer g p i s = Some (v, with_calls c s).
Proof.
  intros Hf. unfold pointer. destruct (p =? 0).
  - intros [= <-]. exists (calls s). by destruct s.
  - intros (buf & Hb & Hv)%bind_Some. go (call_ok s Hf). cbn [negb]. go (read_ok g p buf (tick s) Hf Hb).
    exists (S (S (calls s))). unfold lift. by rewrite Hv.
Qed.

Lemma get_block_ok s n v : no_fault s -> 0 <= n < 2 ^ 32 -> n < 12 + s_block_size g / 4 -> block_of s n = Some v ->
  exists c, ext2_get_block g n s = Some (v, with_calls c s).
Proof.
  intros Hf Hn Hlt. unfold block_of, ext2_get_block. pure. destruct (Z.ltb_spec n 12) as [|Hge].
  - intros Hv. exists (calls s). unfold index, lift. rewrite Hv. by destruct s.
  - intros (p & Hp & Hv)%bind_Some. rewrite u32_small by lia. unfold blocks_per_indirect.
    destruct (Z.ltb_spec (n - 12) (s_block_size g / 4)) as [|]; [|lia].
    rewrite (bind_index _ _ _ _ p Hp). cbv beta. by apply pointer_ok.
Qed.

(** Word [n - 12] lies in the indirect block. *)
Lemma word_in_block n : Geo g -> 12 <= n < 12 + s_block_size g / 4 -> 0 <= n - 12 /\ 4 * (n - 12) + 4 <= s_block_size g.
Proof. intros HG Hn. pose proof (Z.div_mod (s_block_size g) 4). pose proof (Z.mod_pos_bound (s_block_size g) 4). lia. Qed.

Lemma block_of_Some s n : Geo g -> Dev s -> 0 <= n < 12 + s_block_size g / 4 -> exists v, block_of s n = Some v.
Proof.
  intros HG HD Hn. unfold block_of. pose proof (dev_data s HD). destruct (Z.ltb_spec n 12) as [|Hge].
  - apply aget_Some. lia.
  - destruct (aget_Some (i_data s) 12) as [p Hp]; [lia|]. rewrite Hp, bind_Some_l.
    destruct (Z.eqb_spec p 0) as [|Hp0]; [by eexists|]. destruct (dev_ind s HD p Hp Hp0) as [Hu _].
    destruct (dev_block s HD p true Hu) as (buf & Hb & Hlen). rewrite Hb, bind_Some_l.
    apply get32_Some; rewrite ?Hlen; apply word_in_block; lia || done.
Qed.

(** [s'] maps logical block [n] to [b] and all others as [s] does. *)
Definition Remapped (n b : Z) (s s' : fs) : Prop :=
  forall m v, 0 <= m < 12 + s_block_size g / 4 -> block_of s m = Some v ->
    block_of s' m = Some (if decide (m = n) then b else v).

Lemma taken_block_of a j s s' m : Geo g -> Wf g s -> Dev s -> Taken g Blk a j s s' -> block_of s' m = block_of s m.
Proof.
  intros HG HW HD HT. unfold block_of.
  rewrite (ch_inode _ _ _ _ _ _ (taken_changed g Blk a j s s' HG HW HT)). destruct (m <? 12); [done|].
  destruct (aget (i_data s) 12) as [p|] eqn:Hp; [|done]. rewrite !bind_Some_l.
  destruct (Z.eqb_spec p 0) as [|Hp0]; [done|].
  by rewrite (taken_disk a j s s' p HG HW HD HT (dev_ind s HD p Hp Hp0)).
Qed.

(** ** Writing the map *)

Lemma set_data_ok s i v : 0 <= i < 15 -> Dev s ->
  exists data, aset (i_data s) i v = Some data /\ set_data i v s = Some (tt, with_data data s) /\ length data = 15%nat.
Proof.
  intros Hi HD. pose proof (dev_data s HD) as Hl. eexists. split; [apply aset_Some; lia|]. split.
  - unfold set_data. pure. rewrite (bind_lift _ _ _ _ (aset_Some (i_data s) i v ltac:(lia))). done.
  - by rewrite length_insert.
Qed.

Lemma with_data_wf data s : Wf g s -> Wf g (with_data data s).
Proof. intros []. by split. Qed.

Lemma with_data_dev data s : Dev s -> length data = 15%nat ->
  (forall q, aget data 12 = Some q -> q <> 0 -> data_block s q) -> Dev (with_data data s).
Proof. intros [] Hl Hd. by split. Qed.

Lemma set_pointer_ok s p b i buf buf' : no_fault s -> disk s !! offset g p = Some buf -> set32 buf i b = Some buf' ->
  exists s', set_pointer g b p i s = Some (b, s') /\ Wrote p buf' s s' /\ i_data s' = i_data s.
Proof.
  intros Hf Hb Hs. unfold set_pointer. go (call_ok s Hf). cbn [negb]. go (read_ok g p buf (tick s) Hf Hb).
  rewrite (bind_lift _ _ _ buf' Hs). cbv beta. go (write_ok g p buf' buf (tick (tick s)) Hf Hb).
  cbn [Z.ltb Z.compare]. eexists. by split.
Qed.

Lemma clear_indirect_ok s b p buf : no_fault s -> disk s !! offset g p = Some buf ->
  exists s', clear_indirect g b p s = Some (true, s') /\
    Wrote p (replicate (Z.to_nat (s_block_size g)) 0) s s' /\ i_data s' = i_data s.
Proof.
  intros Hf Hb. unfold clear_indirect. go (call_ok s Hf). cbn [negb].
  go (write_ok g p (replicate (Z.to_nat (s_block_size g)) 0) buf (tick s) Hf Hb).
  cbn [Z.ltb Z.compare]. eexists. by split.
Qed.

(** The indirect block gets entry [n - 12]. *)
Lemma set_pointer_map s p b n : Geo g -> Wf g s -> Dev s -> aget (i_data s) 12 = Some p -> p <> 0 ->
  0 <= b < 2 ^ 32 -> 12 <= n < 12 + s_block_size g / 4 ->
  exists s' buf, set_pointer g b p (n - 12) s = Some (b, s') /\ Wf g s' /\ Dev s' /\ Remapped n b s s' /\
    Wrote p buf s s' /\ i_data s' = i_data s.
Proof.
  intros HG HW HD Hp Hp0 Hb Hn. pose proof (dev_ind s HD p Hp Hp0) as Hdb. destruct (word_in_block n HG Hn) as [Hw Hw'].
  destruct (dev_block s HD p true (proj1 Hdb)) as (buf & Hbuf & Hlen).
  destruct (set32_ok buf (n - 12) b) as (buf' & Hset & Hlen' & Hget); [lia|lia|done|].
  destruct (set_pointer_ok s p b (n - 12) buf buf' (wf_io g s HW) Hbuf Hset) as (s' & E & HS & Hd).
  exists s', buf'. split; [done|]. split; [by eapply wrote_wf|]. split; [|split; [|done]].
  - eapply wrote_dev; try done; rewrite ?Hd; [congruence|apply HD|apply (dev_ind s HD)].
  - intros m v Hm. unfold block_of. rewrite Hd. destruct (Z.ltb_spec m 12); [by rewrite decide_False by lia|].
    rewrite Hp, !bind_Some_l. destruct (Z.eqb_spec p 0); [done|]. rewrite Hbuf, bind_Some_l. intros Hv.
    destruct HS as (_ & _ & -> & _). rewrite lookup_insert_eq, bind_Some_l, Hget, Hv.
    repeat case_decide; lia || done.
Qed.

(** ** Allocation *)

Lemma gsum_nonzero f l : gsum f l <> 0 -> exists i d, aget l i = Some d /\ f d <> 0.
Proof.
  induction l as [|x l IH]; cbn [gsum]; [done|]. intros H. destruct (decide (f x = 0)) as [E|]; [|by exists 0, x].
  destruct IH as (i & d & Hd & Hf); [lia|]. pose proof (aget_range _ _ _ Hd). exists (i + 1), d. split; [|done].
  unfold aget in *. destruct (Z.ltb_spec i 0), (Z.ltb_spec (i + 1) 0); try lia.
  by replace (Z.to_nat (i + 1)) with (S (Z.to_nat i)) by lia.
Qed.

Lemma some_free k s : Geo g -> Wf g s -> total_of k (mem s) <> 0 -> exists n, in_use g k s n = Some false.
Proof.
  intros HG HW Ht. rewrite (wf_free g s HW) in Ht. destruct (gsum_nonzero _ _ Ht) as (i & d & Hd & Hf).
  destruct (group_has_free g k i d s HG HW Hd Hf) as (bm & j & Hbm & _ & Hj & Hb & _).
  exists (number g k i j). rewrite in_use_number by done. unfold gbit. by rewrite Hd, bind_Some_l, Hbm, bind_Some_l.
Qed.

(** With a free block left, [ext2_new_block] takes one. *)
Lemma new_block_some s : Geo g -> Wf g s -> Dev s -> 1 <= s_free_blocks_count (mem s) ->
  exists a j s', ext2_new_block g s = Some (number g Blk a j, s') /\ Taken g Blk a j s s' /\
    0 < number g Blk a j < 2 ^ 32.
Proof.
  intros HG HW HD Hf. destruct (new_block_ok g s HG HW) as [[_ Hn]|(a & j & s' & E & HT & _)].
  { destruct (some_free Blk s HG HW) as [n Hn']; [cbn; lia|]. by destruct (Hn n). }
  exists a, j, s'. split; [done|]. split; [done|]. pose proof HT as (Hj & (d & bm & bm' & HF) & _).
  destruct (number_u32 g Blk a j d s HG HW (fl_desc _ _ _ _ _ _ _ _ _ _ HF) Hj) as [Hr _].
  pose proof (geo_base g HG Blk). pose proof (dev_zero s HD) as Hz.
  pose proof (ch_was _ _ _ _ _ _ (taken_changed g Blk a j s s' HG HW HT)) as Hw. cbn [negb] in Hw.
  assert (number g Blk a j <> 0) by congruence. lia.
Qed.

(** A fresh indirect block: after it is stored and cleared, every entry is 0. *)
Lemma fresh_indirect s b p : Geo g -> Wf g s -> Dev s -> aget (i_data s) 12 = Some 0 -> data_block s p -> p <> 0 ->
  exists data s' buf, set_data 12 p s = Some (tt, with_data data s) /\
    clear_indirect g b p (with_data data s) = Some (true, s') /\
    Wf g s' /\ Dev s' /\ aget (i_data s') 12 = Some p /\
    (forall m v, 0 <= m < 12 + s_block_size g / 4 -> block_of s m = Some v -> block_of s' m = Some v) /\
    Wrote p buf s s'.
Proof.
  intros HG HW HD H12 Hp Hp0. destruct (set_data_ok s 12 p) as (data & Ha & Es & Hl); [lia|done|].
  assert (forall q, aget data q = if decide (q = 12) then Some p else aget (i_data s) q) as Hget
    by (intros; by apply aget_aset).
  set (s1 := with_data data s). pose proof (with_data_wf data s HW : Wf g s1) as HW1.
  assert (Dev s1) as HD1.
  { apply with_data_dev; [done..|]. intros q. rewrite Hget, decide_True by done. by intros [= <-]. }
  destruct (dev_block s HD p true (proj1 Hp)) as (buf & Hbuf & _).
  destruct (clear_indirect_ok s1 b p buf (wf_io g s1 HW1) Hbuf) as (s' & Ec & HS & Hd).
  pose proof (geo_bs g HG). assert (aget (i_data s') 12 = Some p) as H12' by (rewrite Hd; exact (Hget 12)).
  exists data, s', (replicate (Z.to_nat (s_block_size g)) 0).
  split; [done|]. split; [done|]. split; [by eapply (wrote_wf p _ s1)|]. split; [|split; [done|split; [|exact HS]]].
  - eapply (wrote_dev p _ s1); try done; rewrite ?Hd; [rewrite length_replicate; lia|apply HD1|by apply (dev_ind s1 HD1)].
  - intros m v Hm. unfold block_of. rewrite H12', H12, Hd, !bind_Some_l. cbn [i_data with_data s1 Z.eqb].
    destruct (Z.ltb_spec m 12); [rewrite Hget; by rewrite decide_False by lia|]. intros [= <-].
    destruct (Z.eqb_spec p 0); [done|]. destruct HS as (_ & _ & -> & _). rewrite lookup_insert_eq, bind_Some_l.
    apply get32_zeros; rewrite ?Z2Nat.id by lia; apply word_in_block; lia || done.
Qed.

(** The block an inode without an indirect block may still need for it. *)
Definition need (s : fs) : Z := if decide (aget (i_data s) 12 = Some 0) then 1 else 0.

(** What [ext2_alloc_block] promises. *)
Record Allocated (n b : Z) (s s' : fs) : Prop := {
  al_was : in_use g Blk s b = Some false;
  al_now : data_block s' b;
  al_pos : 0 < b;
  al_wf : Wf g s';
  al_dev : Dev s';
  al_map : Remapped n b s s';
  al_kept : exists x, (x = 0 \/ aget (i_data s) 12 = Some x \/ in_use g Blk s x = Some false) /\ Kept_but x s s';
  al_ind : forall q, aget (i_data s') 12 = Some q -> q <> b /\ (aget (i_data s) 12 = Some q \/ in_use g Blk s q = Some false);
  al_need : s_free_blocks_count (mem s') - need s' = s_free_blocks_count (mem s) - need s - 1
}.

(** The first step of every allocation. *)
Lemma alloc_start s : Geo g -> Wf g s -> Dev s -> 1 <= s_free_blocks_count (mem s) ->
  exists a j s1, let b := number g Blk a j in
    ext2_new_block g s = Some (b, s1) /\ Taken g Blk a j s s1 /\ 0 < b < 2 ^ 32 /\
    in_use g Blk s b = Some false /\ data_block s1 b /\ Wf g s1 /\ Dev s1 /\ i_data s1 = i_data s /\
    s_free_blocks_count (mem s1) = s_free_blocks_count (mem s) - 1 /\
    (forall m, in_use g Blk s1 m = Some false -> in_use g Blk s m = Some false) /\
    forall p, aget (i_data s) 12 = Some p -> p <> b.
Proof.
  intros HG HW HD Hf. destruct (new_block_some s HG HW HD Hf) as (a & j & s1 & E & HT & Hb).
  pose proof (taken_changed g Blk a j s s1 HG HW HT) as [Hwas HW1 Hbits Ht _ Hi]. cbn [total_of flag] in Ht.
  exists a, j, s1. cbv zeta. split; [done|]. split; [done|]. split; [done|]. split; [done|].
  split; [by apply (taken_new a j s s1)|]. split; [done|]. split; [by apply (taken_dev a j s s1)|].
  split; [done|]. split; [lia|]. split.
  - intros m. rewrite Hbits. by case_decide.
  - intros p Hp ->. destruct (dev_ind s HD _ Hp ltac:(lia)) as [Hu _]. rewrite Hu in Hwas. discriminate Hwas.
Qed.

Lemma alloc_direct s n : Geo g -> Wf g s -> Dev s -> 1 <= s_free_blocks_count (mem s) -> 0 <= n < 12 ->
  exists b s', ext2_alloc_block g n s = Some (b, s') /\ Allocated n b s s'.
Proof.
  intros HG HW HD Hf Hn.
  destruct (alloc_start s HG HW HD Hf) as (a & j & s1 & E & HT & Hb & Hwas & Hdb & HW1 & HD1 & Hi & Ht & _ & Hp12).
  set (b := number g Blk a j) in *. destruct (set_data_ok s1 n b) as (data & Ha & Es & Hl); [lia|done|].
  assert (forall q, aget data q = if decide (q = n) then Some b else aget (i_data s1) q) as Hget
    by (intros; by apply aget_aset).
  assert (aget data 12 = aget (i_data s) 12) as H12 by (rewrite Hget, decide_False by lia; by rewrite Hi).
  exists b, (with_data data s1). split.
  - unfold ext2_alloc_block. go E. destruct (Z.eqb_spec b 0); [lia|]. destruct (Z.ltb_spec n 12); [|lia]. by go Es.
  - split; [done|done|lia|by apply with_data_wf|..].
    + apply with_data_dev; [done..|]. intros q. rewrite H12, <-Hi. apply (dev_ind s1 HD1).
    + intros m v Hm. rewrite <-(taken_block_of a j s s1 m HG HW HD HT). unfold block_of. cbn [i_data with_data disk].
      rewrite !Hget. rewrite (decide_False (P := 12 = n)) by lia.
      destruct (Z.ltb_spec m 12); [by case_decide|]. by rewrite decide_False by lia.
    + exists 0. split; [by left|]. eapply kept_trans; [by apply (taken_kept 0 a j s s1)|apply with_data_kept].
    + cbn [i_data with_data]. rewrite H12. intros q Hq. split; [by apply Hp12|by left].
    + unfold need. cbn [i_data with_data mem]. rewrite H12. lia.
Qed.

Lemma alloc_indirect s n p : Geo g -> Wf g s -> Dev s -> 1 <= s_free_blocks_count (mem s) ->
  12 <= n < 12 + s_block_size g / 4 -> n < 2 ^ 32 -> aget (i_data s) 12 = Some p -> p <> 0 ->
  exists b s', ext2_alloc_block g n s = Some (b, s') /\ Allocated n b s s'.
Proof.
  intros HG HW HD Hf Hn Hn' Hp Hp0.
  destruct (alloc_start s HG HW HD Hf) as (a & j & s1 & E & HT & Hb & Hwas & Hdb & HW1 & HD1 & Hi & Ht & _ & Hp12).
  set (b := number g Blk a j) in *. pose proof Hp as Hp1. rewrite <-Hi in Hp1.
  destruct (set_pointer_map s1 p b n HG HW1 HD1 Hp1 Hp0) as (s' & buf & Es & HW' & HD' & HR & HS & Hi'); [lia|done|].
  pose proof (wrote_kept p buf s1 s' HG HW1 HD1 (dev_ind s1 HD1 p Hp1 Hp0) HS) as HK.
  exists b, s'. split.
  - unfold ext2_alloc_block. go E. destruct (Z.eqb_spec b 0); [lia|]. destruct (Z.ltb_spec n 12); [lia|].
    rewrite u32_small by lia. unfold blocks_per_indirect. destruct (Z.ltb_spec (n - 12) (s_block_size g / 4)); [|lia].
    pure. rewrite (bind_index _ _ _ _ p Hp1). cbv beta. by destruct (Z.eqb_spec p 0).
  - split; [done|by apply HK|lia|done|done|..].
    + intros m v Hm Hv. apply HR; [done|]. by rewrite (taken_block_of a j s s1 m HG HW HD HT).
    + exists p. split; [by right; left|]. eapply kept_trans; [by apply (taken_kept p a j s s1)|done].
    + rewrite Hi', Hi. intros q Hq. split; [by apply Hp12|by left].
    + unfold need. rewrite Hi', Hi. destruct HS as (-> & _). lia.
Qed.

Lemma alloc_fresh s n : Geo g -> Wf g s -> Dev s -> 2 <= s_free_blocks_count (mem s) ->
  12 <= n < 12 + s_block_size g / 4 -> n < 2 ^ 32 -> aget (i_data s) 12 = Some 0 ->
  exists b s', ext2_alloc_block g n s = Some (b, s') /\ Allocated n b s s'.
Proof.
  intros HG HW HD Hf Hn Hn' Hz.
  destruct (alloc_start s HG HW HD ltac:(lia)) as (a & j & s1 & E1 & HT1 & Hb & Hwas & Hdb & HW1 & HD1 & Hi1 & Ht1 & Hu1 & _).
  destruct (alloc_start s1 HG HW1 HD1 ltac:(lia)) as (a2 & j2 & s2 & E2 & HT2 & Hp & Hwas2 & Hdp & HW2 & HD2 & Hi2 & Ht2 & _ & _).
  set (b := number g Blk a j) in *. set (p := number g Blk a2 j2) in *.
  assert (p <> b) as Hpb by (intros E; rewrite E, (proj1 Hdb) in Hwas2; done).
  destruct (fresh_indirect s2 b p HG HW2 HD2) as (data & s3 & z & Es & Ec & HW3 & HD3 & H12 & Hm3 & HS3); [congruence|done|lia|].
  destruct (set_pointer_map s3 p b n HG HW3 HD3 H12) as (s4 & buf & Ep & HW4 & HD4 & HR & HS4 & Hi4); [lia|lia|done|].
  assert (Kept_but p s1 s4) as HK.
  { eapply kept_trans; [by apply (taken_kept p a2 j2 s1 s2)|].
    eapply kept_trans; [by apply (wrote_kept p z s2 s3)|]. apply (wrote_kept p buf s3 s4); try done.
    by apply (wrote_data p z s2 s3). }
  exists b, s4. split.
  - unfold ext2_alloc_block. go E1. destruct (Z.eqb_spec b 0); [lia|]. destruct (Z.ltb_spec n 12); [lia|].
    rewrite u32_small by lia. unfold blocks_per_indirect. destruct (Z.ltb_spec (n - 12) (s_block_size g / 4)); [|lia].
    pure. rewrite <-Hi1 in Hz. rewrite (bind_index _ _ _ _ 0 Hz). cbv beta. cbn [Z.eqb]. go E2.
    destruct (Z.eqb_spec p 0); [lia|]. go Es. by go Ec.
  - split; [done|by apply HK|lia|done|done|..].
    + intros m v Hm Hv. apply HR; [done|]. apply Hm3; [done|].
      by rewrite (taken_block_of a2 j2 s1 s2 m HG HW1 HD1 HT2), (taken_block_of a j s s1 m HG HW HD HT1).
    + exists p. split; [right; right; by apply Hu1|]. eapply kept_trans; [by apply (taken_kept p a j s s1)|done].
    + rewrite Hi4, H12. intros q [= <-]. split; [done|]. right. by apply Hu1.
    + unfold need. rewrite Hi4, H12, Hz, decide_False, decide_True; [|done|intros [= ?]; lia].
      destruct HS4 as (-> & _), HS3 as (-> & _). lia.
Qed.

(** A device with a free block has blocks no larger than 4 GB. *)
Lemma logical_u32 s n : Geo g -> Wf g s -> Dev s -> 1 <= s_free_blocks_count (mem s) -> n < 12 + s_block_size g / 4 -> n < 2 ^ 32.
Proof.
  intros HG HW HD Hf Hn. destruct (some_free Blk s HG HW) as [m Hm%in_use_range]; [cbn; lia| |done..].
  pose proof (dev_size s HD). pose proof (geo_bs g HG). pose proof (geo_base g HG Blk) as Hb. cbn [base] in Hb.
  assert (s_block_size g <= 2 ^ 32) by nia. Z.div_mod_to_equations. lia.
Qed.

(** [ext2_alloc_block] in every case it handles. *)
Lemma alloc_ok s n : Geo g -> Wf g s -> Dev s -> 0 <= n < 12 + s_block_size g / 4 ->
  1 + need s <= s_free_blocks_count (mem s) ->
  exists b s', ext2_alloc_block g n s = Some (b, s') /\ Allocated n b s s'.
Proof.
  intros HG HW HD Hn Hf. unfold need in Hf. destruct (decide (n < 12)).
  { apply alloc_direct; try done; [|lia]. case_decide; lia. }
  assert (n < 2 ^ 32) by (apply (logical_u32 s); try done; [case_decide; lia|lia]).
  destruct (aget_Some (i_data s) 12) as [p Hp]; [rewrite (dev_data s HD); lia|]. rewrite Hp in Hf.
  destruct (decide (p = 0)) as [->|].
  - rewrite decide_True in Hf by done. apply alloc_fresh; lia || done.
  - apply (alloc_indirect s n p); try done; [|lia]. rewrite decide_False in Hf by congruence. lia.
Qed.

End Map.

(** ** The small file system *)

Lemma small_in_use n v : in_use small_geo Blk small_fs n = Some v -> n ∈ seqZ 1 64.
Proof.
  intros H%in_use_range; [|apply small_geo_ok|apply small_fs_ok]. cbn in H. apply elem_of_seqZ. lia.
Qed.

Definition small_block (n : Z) : bool :=
  match disk small_fs !! offset small_geo n with Some buf => bool_decide (length buf = 128%nat) | None => false end.

Lemma small_blocks : forallb small_block (seqZ 1 64) = true.
Proof. vm_compute. reflexivity. Qed.

Lemma small_fs_dev : Dev small_geo small_fs.
Proof.
  split.
  - vm_compute. discriminate.
  - intros n v H%small_in_use. pose proof (proj1 (forallb_forall _ _) small_blocks n) as Hb.
    rewrite <-list_elem_of_In in Hb. specialize (Hb H). unfold small_block in Hb.
    destruct (disk small_fs !! offset small_geo n) as [buf|]; [|done]. apply bool_decide_eq_true in Hb.
    exists buf. by rewrite Hb.
  - intros k i d [[-> ->]|[-> ->]]%two_groups; destruct k; vm_compute; reflexivity.
  - vm_compute. discriminate.
  - reflexivity.
  - intros p [= <-]. done.
Qed.

(** On a device smaller than 4 GB with two free blocks left and while no call fails,
    [ext2_alloc_block] of a direct or single indirect logical block returns a block that
    was free and is now in use; afterwards [ext2_get_block] finds that block under its
    logical number and every other logical block of that range where it was before, also
    when the indirect block had to be allocated; bitmaps and free counts still agree. *)
Theorem ext2_alloc_get g s n (HG : Geo g) (HW : Wf g s) (HD : Dev g s)
    (Hf : 2 <= s_free_blocks_count (mem s)) (Hn : 0 <= n < 12 + s_block_size g / 4) :
  exists b s', ext2_alloc_block g n s = Some (b, s') /\ b <> 0 /\
    in_use g Blk s b = Some false /\ in_use g Blk s' b = Some true /\ Wf g s' /\ Dev g s' /\
    forall m, 0 <= m < 12 + s_block_size g / 4 ->
      exists v s1 s2, ext2_get_block g m s = Some (v, s1) /\
        ext2_get_block g m s' = Some (if decide (m = n) then b else v, s2).
Proof.
  destruct (alloc_ok g s n HG HW HD Hn) as (b & s' & E & HA).
  { unfold need. case_decide; lia. }
  destruct HA as [Hw [Hu _] Hb HW' HD' HR _ _ _].
  exists b, s'. split; [done|]. split; [lia|]. do 4 (split; [done|]). intros m Hm. destruct (block_of_Some g s m HG HD Hm) as [v Hv].
  pose proof (logical_u32 g s m HG HW HD ltac:(lia) ltac:(lia)).
  destruct (get_block_ok g s m v (wf_io g s HW)) as [c Hc]; [lia|lia|done|].
  destruct (get_block_ok g s' m _ (wf_io g s' HW') ltac:(lia) ltac:(lia) (HR m v Hm Hv)) as [c' Hc'].
  by exists v, (with_calls c s), (with_calls c' s').
Qed.

Lemma ext2_alloc_get_witness :
  exists b s', ext2_alloc_block small_geo 13 small_fs = Some (b, s') /\ b <> 0 /\
    in_use small_geo Blk small_fs b = Some false /\ in_use small_geo Blk s' b = Some true /\ Wf small_geo s' /\
    Dev small_geo s' /\
    forall m, 0 <= m < 12 + s_block_size small_geo / 4 ->
      exists v s1 s2, ext2_get_block small_geo m small_fs = Some (v, s1) /\
        ext2_get_block small_geo m s' = Some (if decide (m = 13) then b else v, s2).
Proof.
  apply (ext2_alloc_get small_geo small_fs 13);
    [apply small_geo_ok|apply small_fs_ok|apply small_fs_dev|vm_compute; discriminate|vm_compute; split; congruence].
Defined.

(** The small file system with the [n]-th call failing. *)
Definition failing_at (n : nat) : fs :=
  mk_fs small_counters small_counters small_disk (replicate 15 0) 1 40 14 (Nat.eqb n) O.

(** The state a run ends in. *)
Definition after (r : option (Z * fs)) : fs := match r with Some (_, s) => s | None => small_fs end.

Lemma after_ok r v : fst <$> r = Some v -> r = Some (v, after r).
Proof. destruct r as [[]|]; [|done]. by intros [= ->]. Qed.

(** When the buffer for clearing a fresh indirect block cannot be allocated,
    [ext2_alloc_block] releases both blocks but leaves the indirect block in
    [i_data[12]]: the next [ext2_new_block] hands out that block for other data, after
    the first free block, while the inode still uses it as its indirect block. *)
Theorem ext2_alloc_dangling :
  exists s1 s2 s3,
    ext2_alloc_block small_geo 13 (failing_at 10) = Some (0, s1) /\
    aget (i_data s1) 12 = Some 14 /\ in_use small_geo Blk s1 14 = Some false /\
    ext2_new_block small_geo s1 = Some (13, s2) /\ ext2_new_block small_geo s2 = Some (14, s3) /\
    aget (i_data s3) 12 = Some 14.
Proof.
  set (r1 := ext2_alloc_block _ _ _). exists (after r1). set (r2 := ext2_new_block small_geo (after r1)).
  exists (after r2), (after (ext2_new_block small_geo (after r2))).
  split_and!; first [apply after_ok|idtac]; vm_compute; reflexivity.
Qed.

End Ext2Map.
