(* ===== verification/Ext2File.v ===== *)
(** Regular files of ext2: reading, writing, seeking ([kernel/fs/ext2/file.c]), and the
    transfer of inodes to and from the inode table ([ext2_read_inode] and
    [ext2_write_inode] of [kernel/fs/ext2/inode.c]). *)

From S2P Require Import Prelude Bytes Ext2.

Module Ext2File.
Export Bytes.
Import Ext2.
Local Open Scope ext2_scope.

Definition EBADF : Z := 9.
Definition EISDIR : Z := 21.
Definition EINVAL : Z := 22.
Definition ENOSPC : Z := 28.
Definition FILE_OPEN_READ : Z := 1.
Definition FILE_OPEN_WRITE : Z := 2.

(** ** Data *)

Inductive file_type_t :=
  | FILE_TYPE_REGULAR | FILE_TYPE_DIRECTORY | FILE_TYPE_CHAR_DEVICE | FILE_TYPE_BLOCK_DEVICE
  | FILE_TYPE_PIPE | FILE_TYPE_SYMLINK | FILE_TYPE_SOCKET.

(** The inode on the device. *)
Record ext2_inode := mk_e2i {
  i_mode : Z; i_uid : Z; i_size : Z; i_atime : Z; i_ctime : Z; i_mtime : Z; i_dtime : Z;
  i_gid : Z; i_links_count : Z; i_blocks : Z; i_flags : Z; i_osd1 : Z; i_block : list Z;
  i_generation : Z; i_file_acl : Z; i_dir_acl : Z; i_faddr : Z; i_osd2 : list Z
}.

(** The inode in memory: the fields of [struct inode], then those of [ext2_inode_info]
    besides [i_data] and [i_block_group], which the file system's state has. [ei_e2i] is
    [None] for a null pointer. *)
Record inode := mk_inode {
  inode_num : Z; type : file_type_t; permissions : Z; uid : Z; gid : Z; isize : Z; blocks : Z;
  atime : Z; mtime : Z; ctime : Z; links : Z;
  ei_flags : Z; ei_faddr : Z; ei_file_acl : Z; ei_dir_acl : Z; ei_dtime : Z;
  ei_e2i : option ext2_inode
}.

Record file := mk_file { position : Z; flags : Z; f_inode : inode }.

Definition with_e2i (e : ext2_inode) (i : inode) : inode :=
  mk_inode (inode_num i) (type i) (permissions i) (uid i) (gid i) (isize i) (blocks i) (atime i) (mtime i) (ctime i)
    (links i) (ei_flags i) (ei_faddr i) (ei_file_acl i) (ei_dir_acl i) (ei_dtime i) (Some e).
Definition with_size (n : Z) (i : inode) : inode :=
  mk_inode (inode_num i) (type i) (permissions i) (uid i) (gid i) n (blocks i) (atime i) (mtime i) (ctime i)
    (links i) (ei_flags i) (ei_faddr i) (ei_file_acl i) (ei_dir_acl i) (ei_dtime i) (ei_e2i i).
Definition with_inode (i : inode) (f : file) : file := mk_file (position f) (flags f) i.
Definition with_position (p : Z) (f : file) : file := mk_file p (flags f) (f_inode f).

(** ** Bytes *)

(** [ext2_inode_t] as it lies in memory. *)
Definition inode_bytes (e : ext2_inode) : list Z :=
  le 2 (i_mode e) ++ le 2 (i_uid e) ++ le 4 (i_size e) ++ le 4 (i_atime e) ++ le 4 (i_ctime e) ++ le 4 (i_mtime e) ++
  le 4 (i_dtime e) ++ le 2 (i_gid e) ++ le 2 (i_links_count e) ++ le 4 (i_blocks e) ++ le 4 (i_flags e) ++
  le 4 (i_osd1 e) ++ mjoin (le 4 <$> i_block e) ++ le 4 (i_generation e) ++ le 4 (i_file_acl e) ++
  le 4 (i_dir_acl e) ++ le 4 (i_faddr e) ++ i_osd2 e.

Definition bytes_inode (b : list Z) : ext2_inode :=
  mk_e2i (field b 0 2) (field b 2 2) (field b 4 4) (field b 8 4) (field b 12 4) (field b 16 4) (field b 20 4)
    (field b 24 2) (field b 26 2) (field b 28 4) (field b 32 4) (field b 36 4)
    ((fun i => field b (40 + 4 * i) 4) <$> seq 0 15)
    (field b 100 4) (field b 104 4) (field b 108 4) (field b 112 4) (take 12 (drop 116 b)).

(** ** File modes *)

Definition EXT2_S_IFMT : Z := 0xF000.
Definition EXT2_S_IFSOCK : Z := 0xC000.
Definition EXT2_S_IFLNK : Z := 0xA000.
Definition EXT2_S_IFREG : Z := 0x8000.
Definition EXT2_S_IFBLK : Z := 0x6000.
Definition EXT2_S_IFDIR : Z := 0x4000.
Definition EXT2_S_IFCHR : Z := 0x2000.
Definition EXT2_S_IFIFO : Z := 0x1000.

Definition mode_of_type (t : file_type_t) : Z :=
  match t with
  | FILE_TYPE_REGULAR => EXT2_S_IFREG
  | FILE_TYPE_DIRECTORY => EXT2_S_IFDIR
  | FILE_TYPE_SYMLINK => EXT2_S_IFLNK
  | FILE_TYPE_BLOCK_DEVICE => EXT2_S_IFBLK
  | FILE_TYPE_CHAR_DEVICE => EXT2_S_IFCHR
  | FILE_TYPE_PIPE => EXT2_S_IFIFO
  | FILE_TYPE_SOCKET => EXT2_S_IFSOCK
  end.

Definition type_of_mode (m : Z) : file_type_t :=
  let m := Z.land m EXT2_S_IFMT in
  if m =? EXT2_S_IFREG then FILE_TYPE_REGULAR
  else if m =? EXT2_S_IFDIR then FILE_TYPE_DIRECTORY
  else if m =? EXT2_S_IFLNK then FILE_TYPE_SYMLINK
  else if m =? EXT2_S_IFBLK then FILE_TYPE_BLOCK_DEVICE
  else if m =? EXT2_S_IFCHR then FILE_TYPE_CHAR_DEVICE
  else if m =? EXT2_S_IFIFO then FILE_TYPE_PIPE
  else if m =? EXT2_S_IFSOCK then FILE_TYPE_SOCKET
  else FILE_TYPE_REGULAR.

Section Operations.
Context (g : geometry).

(** ** The inode table *)

(** The group of an inode, the block of the table it is in and its place there. *)
Definition inode_place (ino : Z) : M (Z * Z * Z) :=
  q <- divide (u32 (ino - 1)) (s_inodes_per_group g);
  let '(block_group, idx) := q in
  c <- gets mem;
  d <- index (s_group_desc c) block_group;
  q <- divide (u32 (idx * s_inode_size g)) (s_block_size g);
  ret (block_group, u32 (bg_inode_table d + q.1), q.2).

(** The inode as [ext2_read_inode] fills it in from [e]. *)
Definition fill_inode (i : inode) (e : ext2_inode) : inode :=
  mk_inode (inode_num i) (type_of_mode (i_mode e)) (Z.land (i_mode e) 0xFFF) (i_uid e) (i_gid e) (i_size e)
    (i_blocks e) (i_atime e) (i_mtime e) (i_ctime e) (i_links_count e)
    (i_flags e) (i_faddr e) (i_file_acl e) (i_dir_acl e) (i_dtime e) (Some e).

Definition set_info (block_group : Z) (data : list Z) (s : fs) : fs :=
  mk_fs (mem s) (stored s) (disk s) data block_group (vfs_free_blocks s) (vfs_free_inodes s) (fails s) (calls s).

(** [None] for the inode when the second [kmalloc] failed and left [i_e2i] null. *)
Definition ext2_read_inode (i : inode) : M (Z * inode) :=
  p <- inode_place (inode_num i);
  let '(block_group, block, off) := p in
  ok <- call;
  if negb ok then ret (- ENOMEM, i)
  else
    buf <- ext2_read_block g block;
    match buf with
    | None => ret (- EIO, i)
    | Some buf =>
        ok <- call;
        if negb ok then
          ret (- ENOMEM, mk_inode (inode_num i) (type i) (permissions i) (uid i) (gid i) (isize i) (blocks i) (atime i)
                 (mtime i) (ctime i) (links i) (ei_flags i) (ei_faddr i) (ei_file_acl i) (ei_dir_acl i) (ei_dtime i) None)
        else
          b <- lift (blit (replicate 128 0) 0 buf off 128);
          let e := bytes_inode b in
          modify (set_info block_group (i_block e));;
          ret (0, fill_inode i e)
    end.

(** [*ei->i_e2i] as [ext2_write_inode] updates it. *)
Definition update_e2i (i : inode) (data : list Z) (e : ext2_inode) : ext2_inode :=
  mk_e2i (Z.lor (mode_of_type (type i)) (Z.land (permissions i) 0xFFF)) (u16 (uid i)) (u32 (isize i))
    (u32 (atime i)) (u32 (ctime i)) (u32 (mtime i)) (ei_dtime i) (u16 (gid i)) (u16 (links i)) (u32 (blocks i))
    (ei_flags i) (i_osd1 e) (take 15 data) (i_generation e) (ei_file_acl i) (ei_dir_acl i) (ei_faddr i) (i_osd2 e).

Definition ext2_write_inode (i : inode) : M (Z * inode) :=
  p <- inode_place (inode_num i);
  let '(_, block, off) := p in
  ok <- call;
  if negb ok then ret (- ENOMEM, i)
  else
    buf <- ext2_read_block g block;
    match buf with
    | None => ret (- EIO, i)
    | Some buf =>
        e <- lift (ei_e2i i);
        data <- gets i_data;
        let e := update_e2i i data e in
        buf <- lift (blit buf off (inode_bytes e) 0 128);
        r <- ext2_write_block g block buf;
        ret (r, with_e2i e i)
    end.

(** ** Reading *)

(** [memset(block_buffer, 0, block_size)] for block 0, a transfer otherwise. *)
Definition fetch (phys_block : Z) : M (option (list Z)) :=
  if phys_block =? 0 then ret (Some (replicate (Z.to_nat (s_block_size g)) 0)) else ext2_read_block g phys_block.

(** The loop of [ext2_read]: [buffer] is the caller's, of which [bytes_read] are
    filled. Running out of fuel is a loop that does not end. *)
Fixpoint read_blocks (fuel : nat) (f : file) (bytes_to_read start_block end_block start_offset block_num bytes_read : Z)
    (buffer : list Z) : M (Z * list Z) :=
  match fuel with
  | O => lift None
  | S fuel =>
      if end_block <? block_num then ret (bytes_read, buffer)
      else
        phys_block <- ext2_get_block g block_num;
        buf <- fetch phys_block;
        match buf with
        | None => ret (- EIO, buffer)
        | Some buf =>
            let offset := if block_num =? start_block then start_offset else 0 in
            let bytes_to_copy := u32 (s_block_size g - offset) in
            let bytes_to_copy :=
              if block_num =? end_block
              then u32 (u64 (u64 (position f + bytes_to_read) - u32 (block_num * s_block_size g)))
              else bytes_to_copy in
            buffer <- lift (blit buffer bytes_read buf offset bytes_to_copy);
            read_blocks fuel f bytes_to_read start_block end_block start_offset (u32 (block_num + 1))
              (u32 (bytes_read + bytes_to_copy)) buffer
        end
  end.

Definition ext2_read (f : file) (buffer : list Z) (size : Z) : M (Z * file * list Z) :=
  if negb (has_flag (flags f) FILE_OPEN_READ) then ret (- EBADF, f, buffer)
  else if isize (f_inode f) <=? position f then ret (0, f, buffer)
  else
    let bytes_to_read :=
      if isize (f_inode f) <? u64 (position f + size) then u32 (isize (f_inode f) - position f) else size in
    q <- divide (position f) (s_block_size g);
    let start_block := u32 q.1 in
    let start_offset := u32 q.2 in
    let end_block := u32 (u64 (position f + bytes_to_read - 1) / s_block_size g) in
    ok <- call;
    if negb ok then ret (- ENOMEM, f, buffer)
    else
      r <- read_blocks (S (S (Z.to_nat (end_block - start_block)))) f bytes_to_read start_block end_block start_offset
             start_block 0 buffer;
      let '(bytes_read, buffer) := r in
      if bytes_read <? 0 then ret (bytes_read, f, buffer)
      else ret (s32 bytes_read, with_position (u64 (position f + bytes_read)) f, buffer).

(** ** Writing *)

(** The block for logical block [block_num], allocated if there is none, with what it
    holds: an error code otherwise. *)
Definition block_for_write (block_num : Z) : M (Z * list Z + Z) :=
  phys_block <- ext2_get_block g block_num;
  if phys_block =? 0 then
    phys_block <- ext2_alloc_block g block_num;
    if phys_block =? 0 then ret (inr (- ENOSPC))
    else ret (inl (phys_block, replicate (Z.to_nat (s_block_size g)) 0))
  else
    buf <- ext2_read_block g phys_block;
    match buf with
    | None => ret (inr (- EIO))
    | Some buf => ret (inl (phys_block, buf))
    end.

(** The loop of [ext2_write]: the number of bytes written or an error code. *)
Fixpoint write_blocks (fuel : nat) (buffer : list Z) (size start_block end_block start_offset block_num bytes_written : Z)
    : M Z :=
  match fuel with
  | O => lift None
  | S fuel =>
      if end_block <? block_num then ret bytes_written
      else
        r <- block_for_write block_num;
        match r with
        | inr e => ret e
        | inl (phys_block, buf) =>
            let offset := if block_num =? start_block then start_offset else 0 in
            let bytes_to_copy := u32 (s_block_size g - offset) in
            let bytes_to_copy :=
              if u32 (size - bytes_written) <? bytes_to_copy then u32 (size - bytes_written) else bytes_to_copy in
            buf <- lift (blit buf offset buffer bytes_written bytes_to_copy);
            ret_ <- ext2_write_block g phys_block buf;
            if ret_ <? 0 then ret ret_
            else
              write_blocks fuel buffer size start_block end_block start_offset (u32 (block_num + 1))
                (u32 (bytes_written + bytes_to_copy))
        end
  end.

Definition ext2_write (f : file) (buffer : list Z) (size : Z) : M (Z * file) :=
  if negb (has_flag (flags f) FILE_OPEN_WRITE) then ret (- EBADF, f)
  else
    q <- divide (position f) (s_block_size g);
    let start_block := u32 q.1 in
    let start_offset := u32 q.2 in
    let end_block := u32 (u64 (position f + size - 1) / s_block_size g) in
    ok <- call;
    if negb ok then ret (- ENOMEM, f)
    else
      r <- write_blocks (S (S (Z.to_nat (end_block - start_block)))) buffer size start_block end_block start_offset
             start_block 0;
      if r <? 0 then ret (r, f)
      else
        let f := with_position (u64 (position f + r)) f in
        if isize (f_inode f) <? position f then
          let f := with_inode (with_size (position f) (f_inode f)) f in
          w <- ext2_write_inode (f_inode f);
          ret (s32 r, with_inode w.2 f)
        else ret (s32 r, f).

(** ** The rest of the operations *)

(** [has_inode] says that [file->inode] is not null. *)
Definition ext2_open_file (has_inode : bool) (f : file) (flags : Z) : Z * file :=
  if negb has_inode then (- ENOENT, f)
  else match type (f_inode f) with
  | FILE_TYPE_REGULAR => (0, mk_file 0 flags (f_inode f))
  | _ => (- EISDIR, f)
  end.

Definition ext2_seek (f : file) (off whence : Z) : Z * file :=
  let to new_position :=
    if isize (f_inode f) <? new_position then (- EINVAL, f) else (0, with_position new_position f) in
  match whence with
  | 0 => to off
  | 1 => to (u64 (position f + off))
  | 2 => to (u64 (isize (f_inode f) + off))
  | _ => (- EINVAL, f)
  end.

Definition ext2_fsync (f : file) : M (Z * file) :=
  w <- ext2_write_inode (f_inode f);
  ret (w.1, with_inode w.2 f).

End Operations.
End Ext2File.
