(* ===== verification/Ext2FileSpec.v ===== *)
(** Reading and writing ext2 files against the bytes of the file: which bytes
    [ext2_read] delivers, what [ext2_write] changes, and that an inode survives its way
    to the inode table and back. *)

From S2P Require Import Prelude Ext2 Ext2Inv Ext2Spec Ext2Map Ext2File.

Module Ext2FileSpec.
Import Ext2 Ext2Inv Ext2Spec Ext2Map Ext2File.
Local Open Scope ext2_scope.

(** ** Copying bytes *)

Lemma aget_nat {A} (l : list A) i : 0 <= i -> aget l i = l !! Z.to_nat i.
Proof. intros Hi. unfold aget. destruct (Z.ltb_spec i 0); [lia|done]. Qed.

Lemma aget_neg {A} (l : list A) i : i < 0 -> aget l i = None.
Proof. intros Hi. unfold aget. destruct (Z.ltb_spec i 0); [done|lia]. Qed.

Lemma blit_ok dst a src from n :
  0 <= a -> 0 <= from -> 0 <= n -> a + n <= Z.of_nat (length dst) -> from + n <= Z.of_nat (length src) ->
  exists r, blit dst a src from n = Some r /\ length r = length dst /\
    forall i, aget r i = if decide (a <= i < a + n) then aget src (from + (i - a)) else aget dst i.
Proof.
  intros Ha Hf Hn Hd Hs. unfold blit.
  destruct (Z.leb_spec (a + n) (Z.of_nat (length dst))); [|lia].
  destruct (Z.leb_spec (from + n) (Z.of_nat (length src))); [|lia]. eexists. split; [reflexivity|]. split.
  { rewrite !length_app, !length_take, !length_drop. lia. }
  intros i. destruct (decide (i < 0)); [rewrite decide_False by lia; by rewrite !aget_neg by lia|].
  rewrite (aget_nat _ i), (aget_nat dst i) by lia. destruct (decide (i < a)) as [|].
  - rewrite lookup_app_l by (rewrite length_take; lia). rewrite lookup_take_lt by lia. by rewrite decide_False by lia.
  - rewrite lookup_app_r by (rewrite length_take; lia). rewrite length_take, Nat.min_l by lia.
    destruct (decide (i < a + n)) as [|].
    + rewrite lookup_app_l by (rewrite length_take, length_drop; lia). rewrite lookup_take_lt, lookup_drop by lia.
      rewrite decide_True by lia. rewrite aget_nat by lia. f_equal. lia.
    + rewrite lookup_app_r by (rewrite length_take, length_drop; lia). rewrite length_take, length_drop.
      rewrite lookup_drop. rewrite decide_False by lia. f_equal. lia.
Qed.

Section Files.
Context (g : geometry).
Notation bs := (s_block_size g).
Notation limit := (12 + s_block_size g / 4).

(** ** The bytes of a file *)

Definition byte_of (s : fs) (off : Z) : option Z :=
  p ← block_of g s (off / bs);
  if p =? 0 then Some 0 else buf ← disk s !! offset g p; aget buf (off mod bs).

(** What logical block [n] holds: [None] inside when there is no such block. *)
Definition held (s : fs) (n : Z) : option (option (list Z)) :=
  p ← block_of g s n; if p =? 0 then Some None else buf ← disk s !! offset g p; Some (Some buf).

Lemma byte_of_held s off : byte_of s off = h ← held s (off / bs); match h with None => Some 0 | Some buf => aget buf (off mod bs) end.
Proof.
  unfold byte_of, held. destruct (block_of g s (off / bs)) as [p|]; [|done]. rewrite !bind_Some_l. destruct (p =? 0); [done|].
  by destruct (disk s !! offset g p).
Qed.

(** The blocks a file is made of are data blocks, each used once and none of them as
    the indirect block. *)
Record Mapped (s : fs) : Prop := {
  mp_data : forall n p, 0 <= n < limit -> block_of g s n = Some p -> p <> 0 ->
    data_block g s p /\ aget (i_data s) 12 <> Some p;
  mp_inj : forall n m p, 0 <= n < limit -> 0 <= m < limit ->
    block_of g s n = Some p -> block_of g s m = Some p -> p <> 0 -> n = m
}.

Lemma byte_place b j : 0 < bs -> 0 <= j < bs -> (b * bs + j) / bs = b /\ (b * bs + j) mod bs = j.
Proof.
  intros Hb Hj. replace (b * bs + j) with (j + b * bs) by lia.
  rewrite Z.div_add, Z.mod_add, Z.div_small, Z.mod_small by lia. lia.
Qed.

(** ** Reading *)

(** The body of the reading loop gets the block's bytes. *)
Lemma fetch_ok s b : Geo g -> Wf g s -> Dev g s -> Mapped s -> 0 <= b < limit -> b < 2 ^ 32 ->
  exists p blk c1 c2, ext2_get_block g b s = Some (p, with_calls c1 s) /\
    fetch g p (with_calls c1 s) = Some (Some blk, with_calls c2 s) /\ Z.of_nat (length blk) = bs /\
    forall j, 0 <= j < bs -> aget blk j = byte_of s (b * bs + j).
Proof.
  intros HG HW HD HM Hb Hb'. pose proof (geo_bs g HG). destruct (block_of_Some g s b HG HD Hb) as [p Hp].
  destruct (get_block_ok g s b p (wf_io g s HW)) as [c1 E]; [lia|lia|done|]. unfold fetch.
  destruct (Z.eqb_spec p 0) as [->|Hp0].
  - exists 0, (replicate (Z.to_nat bs) 0), c1, c1. split; [done|]. split; [done|]. rewrite length_replicate. split; [lia|].
    intros j Hj. unfold byte_of. destruct (byte_place b j) as [-> ->]; [lia..|]. rewrite Hp, bind_Some_l. cbn [Z.eqb].
    rewrite aget_nat by lia. apply lookup_replicate_2. lia.
  - destruct (mp_data s HM b p Hb Hp Hp0) as [[Hu _] _]. destruct (dev_block g s HD p true Hu) as (blk & Hblk & Hlen).
    exists p, blk, c1, (S c1). split; [done|]. destruct (Z.eqb_spec p 0); [done|]. split; [by apply (read_ok g p blk (with_calls c1 s) (wf_io g s HW))|].
    split; [done|]. intros j Hj. unfold byte_of. destruct (byte_place b j) as [-> ->]; [lia..|].
    rewrite Hp, bind_Some_l. destruct (Z.eqb_spec p 0); [done|]. by rewrite Hblk, bind_Some_l.
Qed.

Lemma byte_of_calls c s off : byte_of (with_calls c s) off = byte_of s off.
Proof. done. Qed.

Lemma mapped_calls c s : Mapped s -> Mapped (with_calls c s).
Proof. intros []. by split. Qed.

Lemma dev_calls c s : Dev g s -> Dev g (with_calls c s).
Proof. intros []. by split. Qed.

Section Read.
Context (f : file) (bytes : Z).
Notation pos := (position f).
Notation first := (position f / bs).
Notation last := ((position f + bytes - 1) / bs).
Context (HG : Geo g) (Hpos : 0 <= pos) (Hbytes : 0 < bytes) (Hend : pos + bytes <= limit * bs) (H32 : pos + bytes < 2 ^ 32).

(** The bytes delivered before block [b] is read. *)
Definition done_at (b : Z) : Z := Z.min bytes (Z.max 0 (b * bs - pos)).

Lemma span : 0 <= first <= last /\ last < limit /\ first * bs <= pos < (first + 1) * bs /\
  last * bs <= pos + bytes - 1 < (last + 1) * bs /\ pos mod bs = pos - first * bs.
Proof.
  pose proof (geo_bs g HG). pose proof (Z.div_mod pos bs). pose proof (Z.mod_pos_bound pos bs).
  pose proof (Z.div_mod (pos + bytes - 1) bs). pose proof (Z.mod_pos_bound (pos + bytes - 1) bs).
  split; [split; [apply Z.div_pos; lia|apply Z.div_le_mono; lia]|].
  split; [apply Z.div_lt_upper_bound; lia|]. lia.
Qed.

(** Where block [b] of the transfer starts and how much of it is delivered. *)
Lemma step_at b : first <= b <= last ->
  let o := if b =? first then pos mod bs else 0 in
  0 <= o < bs /\ pos + done_at b = b * bs + o /\ 0 <= done_at b < bytes /\
  done_at (b + 1) = if b =? last then bytes else done_at b + (bs - o).
Proof.
  intros Hb. destruct span as (H1 & H2 & H3 & H4 & H5). pose proof (geo_bs g HG). unfold done_at. cbv zeta.
  assert (b < last -> (b + 1) * bs <= last * bs) by (intros; apply Z.mul_le_mono_nonneg_r; lia).
  assert (first < b -> (first + 1) * bs <= b * bs) by (intros; apply Z.mul_le_mono_nonneg_r; lia).
  assert (b = first -> b * bs = first * bs) by congruence. assert (b = last -> b * bs = last * bs) by congruence.
  destruct (Z.eqb_spec b first) as [Ef|Hne], (Z.eqb_spec b last) as [El|Hnl]; rewrite ?H5; lia.
Qed.

Lemma done_first : done_at first = 0.
Proof. destruct span as (_ & _ & ? & _). unfold done_at. lia. Qed.

Lemma done_end : done_at (last + 1) = bytes.
Proof. destruct span as (_ & _ & ? & ? & _). unfold done_at. lia. Qed.

Context (Hcase : pos mod bs = 0 \/ first <> last).

(** The length [ext2_read] computes for block [b]. *)
Lemma read_length b : first <= b <= last ->
  (if b =? last then u32 (u64 (u64 (pos + bytes) - u32 (b * bs)))
   else u32 (bs - (if b =? first then pos mod bs else 0))) = done_at (b + 1) - done_at b.
Proof.
  intros Hb. destruct (step_at b Hb) as (Ho & Hpd & Hd & Hn). cbv zeta in *. destruct span as (H1 & H2 & H3 & H4 & H5).
  pose proof (geo_bs g HG). rewrite Hn. destruct (Z.eqb_spec b last) as [->|Hne].
  - destruct (Z.eqb_spec last first) as [E|E]; rewrite (u32_small (last * bs)), (u64_small (pos + bytes)), u64_small, u32_small by lia; lia.
  - assert ((b + 1) * bs <= last * bs) by (apply Z.mul_le_mono_nonneg_r; lia).
    assert (0 <= b * bs) by (apply Z.mul_nonneg_nonneg; lia). rewrite u32_small by lia. lia.
Qed.

Lemma read_blocks_ok n b buffer s : Wf g s -> Dev g s -> Mapped s -> first <= b -> Z.of_nat n = last - b + 1 ->
  bytes <= Z.of_nat (length buffer) ->
  exists buffer' c,
    read_blocks g (S n) f bytes first last (pos mod bs) b (done_at b) buffer s = Some ((bytes, buffer'), with_calls c s) /\
    length buffer' = length buffer /\
    forall i, aget buffer' i = if decide (done_at b <= i < bytes) then byte_of s (pos + i) else aget buffer i.
Proof.
  revert b buffer s. induction n as [|n IH]; intros b buffer s HW HD HM Hb Hn Hlen; cbn [read_blocks].
  - destruct (Z.ltb_spec last b); [|lia]. replace b with (last + 1) by lia. rewrite done_end. exists buffer, (calls s).
    split; [by destruct s|]. split; [done|]. intros i. by rewrite decide_False by lia.
  - destruct (Z.ltb_spec last b); [lia|]. destruct span as (H1 & H2 & H3 & H4 & H5). pose proof (geo_bs g HG) as Hbs.
    assert (b < 2 ^ 32) by (assert (b * 1 <= last * bs) by (apply Z.mul_le_mono_nonneg; lia); lia).
    destruct (fetch_ok s b HG HW HD HM) as (p & blk & c1 & c2 & Eg & Ef & Hl & Hby); [lia|lia|]. go Eg. go Ef.
    pose proof (read_length b ltac:(lia)) as HL. destruct (step_at b ltac:(lia)) as (Ho & Hpd & Hd & Hdn). cbv zeta in *.
    set (o := if b =? first then pos mod bs else 0) in *. rewrite HL.
    assert (o + (done_at (b + 1) - done_at b) <= bs /\ done_at b <= done_at (b + 1) <= bytes) as [Hk Hk'].
    { rewrite Hdn. destruct (Z.eqb_spec b last) as [->|]; [lia|].
      assert ((b + 1) * bs <= last * bs) by (apply Z.mul_le_mono_nonneg_r; lia). lia. }
    destruct (blit_ok buffer (done_at b) blk o (done_at (b + 1) - done_at b)) as (buf1 & Eb & Hl1 & Hg1); [lia..|].
    rewrite (bind_lift _ _ _ buf1 Eb). cbv beta. rewrite (u32_small (b + 1)) by lia.
    replace (done_at b + (done_at (b + 1) - done_at b)) with (done_at (b + 1)) by lia. rewrite (u32_small (done_at _)) by lia.
    destruct (IH (b + 1) buf1 (with_calls c2 s)) as (buf2 & c & E & Hl2 & Hg2);
      [by apply wf_calls|by apply dev_calls|by apply mapped_calls|fold pos; lia..|].
    exists buf2, c. split; [exact E|]. split; [congruence|]. intros i. rewrite Hg2, Hg1, byte_of_calls.
    repeat case_decide; try lia; try done.
    rewrite Hby by lia. f_equal. lia.
Qed.

End Read.

(** [ext2_read] up to its loop. *)
Lemma read_prefix f buffer size s : Geo g -> no_fault s -> has_flag (flags f) FILE_OPEN_READ = true ->
  0 <= position f < isize (f_inode f) -> isize (f_inode f) < 2 ^ 31 -> 0 < size < 2 ^ 31 ->
  let bytes := Z.min size (isize (f_inode f) - position f) in
  let first := position f / bs in let last := (position f + bytes - 1) / bs in
  ext2_read g f buffer size s =
    bind (read_blocks g (S (S (Z.to_nat (last - first)))) f bytes first last (position f mod bs) first 0 buffer)
      (fun r => let '(bytes_read, buffer) := r in
        if bytes_read <? 0 then ret (bytes_read, f, buffer)
        else ret (s32 bytes_read, with_position (u64 (position f + bytes_read)) f, buffer)) (tick s).
Proof.
  intros HG Hf Hfl Hp Hi Hs bytes first last. pose proof (geo_bs g HG). unfold ext2_read. rewrite Hfl. cbn [negb].
  destruct (Z.leb_spec (isize (f_inode f)) (position f)); [lia|]. rewrite (u64_small (position f + size)) by lia.
  assert ((if isize (f_inode f) <? position f + size then u32 (isize (f_inode f) - position f) else size) = bytes) as ->.
  { subst bytes. destruct (Z.ltb_spec (isize (f_inode f)) (position f + size)); [rewrite u32_small by lia|]; lia. }
  unfold divide. destruct (Z.eqb_spec bs 0); [lia|]. rewrite bind_ret_l. cbn [fst snd].
  assert (0 <= position f / bs < 2 ^ 32 /\ 0 <= position f mod bs < 2 ^ 32) as [H1 H2].
  { split; [split; [apply Z.div_pos; lia|apply Z.div_lt_upper_bound; nia]|].
    pose proof (Z.mod_le (position f) bs). pose proof (Z.mod_pos_bound (position f) bs). lia. }
  assert (0 <= last < 2 ^ 32) by (split; [apply Z.div_pos; lia|apply Z.div_lt_upper_bound; nia]).
  rewrite u64_small by lia. fold last. rewrite !u32_small by lia. by go (call_ok s Hf).
Qed.

(** ** Writing *)

(** A data block that belongs to no file position, such as one of the inode table. *)
Definition Spare (s : fs) (t : Z) : Prop :=
  data_block g s t /\ aget (i_data s) 12 <> Some t /\ t <> 0 /\
  forall n, 0 <= n < limit -> block_of g s n <> Some t.

(** Writing a block that is not the indirect block keeps the map. *)
Lemma wrote_block_of p buf s s' n : Geo g -> Wf g s -> Dev g s -> data_block g s p -> aget (i_data s) 12 <> Some p ->
  Wrote g p buf s s' -> i_data s' = i_data s -> block_of g s' n = block_of g s n.
Proof.
  intros HG HW HD Hp H12 HS Hi. unfold block_of. rewrite Hi. destruct (n <? 12); [done|].
  destruct (aget (i_data s) 12) as [q|] eqn:Hq; [|done]. rewrite !bind_Some_l. destruct (Z.eqb_spec q 0) as [|Hq0]; [done|].
  rewrite (kb_disk g p s s' (wrote_kept g p buf s s' HG HW HD Hp HS) q); [done| |congruence].
  by apply (dev_ind g s HD).
Qed.

Lemma wrote_held p buf s s' n : Geo g -> Wf g s -> Dev g s -> Mapped s -> data_block g s p ->
  aget (i_data s) 12 <> Some p -> p <> 0 -> Wrote g p buf s s' -> i_data s' = i_data s -> 0 <= n < limit ->
  held s' n = if decide (block_of g s n = Some p) then Some (Some buf) else held s n.
Proof.
  intros HG HW HD HM Hp H12 Hp0 HS Hi Hn. unfold held. rewrite (wrote_block_of p buf s s' _ HG HW HD Hp H12 HS Hi).
  destruct (block_of g s n) as [v|] eqn:Hv; [|done]. rewrite !bind_Some_l.
  destruct (Z.eqb_spec v 0) as [->|Hv0]; [rewrite decide_False by congruence; done|].
  destruct (decide (Some v = Some p)) as [[= ->]|Hne].
  - pose proof HS as (_ & _ & -> & _). by rewrite lookup_insert_eq, bind_Some_l.
  - rewrite (kb_disk g p s s' (wrote_kept g p buf s s' HG HW HD Hp HS) v); [done| |congruence].
    by apply (mp_data s HM _ _ Hn Hv).
Qed.

Lemma wrote_mapped p buf s s' : Geo g -> Wf g s -> Dev g s -> Mapped s -> data_block g s p ->
  aget (i_data s) 12 <> Some p -> Wrote g p buf s s' -> i_data s' = i_data s -> Mapped s'.
Proof.
  intros HG HW HD HM Hp H12 HS Hi.
  assert (forall n, block_of g s' n = block_of g s n) as Hb by (intros; by apply (wrote_block_of p buf)). split.
  - intros n q Hn. rewrite Hb, Hi. intros Hq Hq0. destruct (mp_data s HM n q Hn Hq Hq0) as [Hd ?].
    split; [by apply (wrote_data g p buf s s')|done].
  - intros n m q Hn Hm. rewrite !Hb. by apply (mp_inj s HM).
Qed.

Lemma wrote_spare p buf s s' t : Geo g -> Wf g s -> Dev g s -> data_block g s p -> aget (i_data s) 12 <> Some p ->
  Wrote g p buf s s' -> i_data s' = i_data s -> Spare s t -> Spare s' t.
Proof.
  intros HG HW HD Hp H12 HS Hi (Ht & Ht12 & Ht0 & Htn). split; [by apply (wrote_data g p buf s s')|]. rewrite Hi. do 2 (split; [done|]).
  intros n Hn. rewrite (wrote_block_of p buf s s' n HG HW HD Hp H12 HS Hi). by apply Htn.
Qed.

(** Allocating block [b] for position [n] of the file. *)
Section Alloc.
Context (n b : Z) (s s' : fs) (HG : Geo g) (HD : Dev g s) (HM : Mapped s) (HA : Allocated g n b s s').
Context (Hn : 0 <= n < limit) (H0 : block_of g s n = Some 0).

Lemma alloc_block_of m v : 0 <= m < limit -> block_of g s' m = Some v ->
  m = n /\ v = b \/ m <> n /\ block_of g s m = Some v.
Proof.
  intros Hm. destruct (block_of_Some g s m HG HD Hm) as [w Hw]. rewrite (al_map g n b s s' HA m w Hm Hw), Hw.
  case_decide; naive_solver.
Qed.

Lemma alloc_other_ind v : data_block g s v -> aget (i_data s) 12 <> Some v -> aget (i_data s') 12 <> Some v.
Proof.
  intros [Hv _] H12 E. destruct (al_ind g n b s s' HA v E) as [_ [?|Hf]]; [done|]. rewrite Hv in Hf. discriminate.
Qed.

Lemma alloc_not_new v : data_block g s v -> v <> b.
Proof. intros [Hv _] ->. rewrite (al_was g n b s s' HA) in Hv. discriminate. Qed.

Lemma alloc_data v : data_block g s v -> data_block g s' v.
Proof. destruct (al_kept g n b s s' HA) as (x & _ & HK). apply HK. Qed.

Lemma alloc_mapped : Mapped s'.
Proof.
  split.
  - intros m v Hm Hv Hv0. destruct (alloc_block_of m v Hm Hv) as [[-> ->]|[Hmn Hv']].
    + split; [apply HA|]. intros E. by destruct (al_ind g n b s s' HA b E).
    + destruct (mp_data s HM m v Hm Hv' Hv0) as [Hd H12]. split; [by apply alloc_data|by apply alloc_other_ind].
  - intros m1 m2 v Hm1 Hm2 Hv1 Hv2 Hv0.
    destruct (alloc_block_of m1 v Hm1 Hv1) as [[-> ->]|[Hmn1 Hv1']], (alloc_block_of m2 _ Hm2 Hv2) as [[E1 E2]|[Hmn2 Hv2']].
    + done.
    + destruct (mp_data s HM m2 b Hm2 Hv2' Hv0) as [Hd _]. by destruct (alloc_not_new b Hd).
    + subst. destruct (mp_data s HM m1 b Hm1 Hv1' Hv0) as [Hd _]. by destruct (alloc_not_new b Hd).
    + by apply (mp_inj s HM m1 m2 v).
Qed.

Lemma alloc_held m : 0 <= m < limit -> m <> n -> held s' m = held s m.
Proof.
  intros Hm Hne. unfold held. destruct (block_of_Some g s m HG HD Hm) as [v Hv].
  rewrite (al_map g n b s s' HA _ v Hm Hv), decide_False, Hv, !bind_Some_l by done.
  destruct (Z.eqb_spec v 0) as [|Hv0]; [done|]. destruct (mp_data s HM _ v Hm Hv Hv0) as [Hd H12].
  destruct (al_kept g n b s s' HA) as (x & Hx & HK). rewrite (kb_disk g x s s' HK v Hd); [done|]. intros ->.
  destruct Hx as [?|[?|Hf]]; [done|done|]. rewrite (proj1 Hd) in Hf. discriminate.
Qed.

Lemma alloc_spare t : Spare s t -> Spare s' t.
Proof.
  intros (Ht & Ht12 & Ht0 & Htn). split; [by apply alloc_data|]. split; [by apply alloc_other_ind|]. split; [done|].
  intros m Hm E. destruct (alloc_block_of m t Hm E) as [[-> ->]|[_ E']]; [by destruct (alloc_not_new b Ht)|by apply (Htn m)].
Qed.

Lemma alloc_at : block_of g s' n = Some b.
Proof. rewrite (al_map g n b s s' HA n 0 Hn H0). by rewrite decide_True. Qed.

Lemma alloc_tables i : table s' i = table s i.
Proof. destruct (al_kept g n b s s' HA) as (x & _ & HK). apply HK. Qed.
End Alloc.

(** What a run of [ext2_write] keeps. *)
Record Good (s s' : fs) : Prop := {
  gd_wf : Wf g s';
  gd_dev : Dev g s';
  gd_mapped : Mapped s';
  gd_spare : forall t, Spare s t -> Spare s' t;
  gd_table : forall i, table s' i = table s i
}.

Lemma good_trans s1 s2 s3 : Good s1 s2 -> Good s2 s3 -> Good s1 s3.
Proof.
  intros [] []. split; try done; [auto|]. intros i. congruence.
Qed.

Lemma good_calls_l c s s' : Good (with_calls c s) s' -> Good s s'.
Proof. intros []. by split. Qed.

Lemma alloc_good n b s s' : Geo g -> Dev g s -> Mapped s -> Allocated g n b s s' ->
  0 <= n < limit -> block_of g s n = Some 0 -> Good s s'.
Proof.
  intros HG HD HM HA Hn H0. split; [apply HA|apply HA|by eapply alloc_mapped|intros t; by eapply alloc_spare|intros i; by eapply alloc_tables].
Qed.

(** The first half of the loop's body: the block and what it holds. *)
Lemma block_for_write_ok s b : Geo g -> Wf g s -> Dev g s -> Mapped s -> 0 <= b < limit -> b < 2 ^ 32 ->
  1 + need s <= s_free_blocks_count (mem s) ->
  exists p buf s1, block_for_write g b s = Some (inl (p, buf), s1) /\ Good s s1 /\
    block_of g s1 b = Some p /\ p <> 0 /\ Z.of_nat (length buf) = bs /\
    (forall j, 0 <= j < bs -> aget buf j = byte_of s (b * bs + j)) /\
    (forall off, 0 <= off / bs < limit -> off / bs <> b -> byte_of s1 off = byte_of s off) /\
    s_free_blocks_count (mem s) - need s - 1 <= s_free_blocks_count (mem s1) - need s1.
Proof.
  intros HG HW HD HM Hb Hb32 Hfree. pose proof (geo_bs g HG). destruct (block_of_Some g s b HG HD Hb) as [v Hv].
  destruct (get_block_ok g s b v (wf_io g s HW)) as [c E]; [lia|lia|done|]. unfold block_for_write. go E.
  destruct (Z.eqb_spec v 0) as [->|Hv0].
  - destruct (alloc_ok g (with_calls c s) b HG) as (p & s1 & Ea & HA); [by apply wf_calls|by apply dev_calls|done|done|].
    go Ea. pose proof (al_pos g _ _ _ _ HA). destruct (Z.eqb_spec p 0); [lia|].
    exists p, (replicate (Z.to_nat bs) 0), s1. split; [done|].
    pose proof (dev_calls c s HD) as HDc. pose proof (mapped_calls c s HM) as HMc.
    split; [by apply (good_calls_l c), (alloc_good b p (with_calls c s))|].
    split; [by eapply (alloc_at b p (with_calls c s))|]. split; [lia|]. rewrite length_replicate. split; [lia|]. split; [|split].
    + intros j Hj. rewrite aget_nat by lia. rewrite lookup_replicate_2 by lia. unfold byte_of.
      destruct (byte_place b j) as [-> _]; [lia..|]. by rewrite Hv.
    + intros off Ho Hne. rewrite !byte_of_held. by rewrite (alloc_held b p (with_calls c s) s1).
    + pose proof (al_need g _ _ _ _ HA) as Hneed. change (need (with_calls c s)) with (need s) in Hneed. cbn [mem with_calls] in Hneed. lia.
  - destruct (mp_data s HM b v Hb Hv Hv0) as [[Hu ?] _]. destruct (dev_block g s HD v true Hu) as (buf & Hbuf & Hlen).
    go (read_ok g v buf (with_calls c s) (wf_io g s HW) Hbuf). exists v, buf, (tick (with_calls c s)). split; [done|].
    split; [split; [by do 2 apply wf_calls|by do 2 apply dev_calls|by do 2 apply mapped_calls|done|done]|].
    split; [done|]. split; [done|]. split; [done|]. split; [|split; [done|]].
    + intros j Hj. unfold byte_of. destruct (byte_place b j) as [-> ->]; [lia..|]. rewrite Hv, bind_Some_l.
      destruct (Z.eqb_spec v 0); [done|]. by rewrite Hbuf.
    + change (need (tick (with_calls c s))) with (need s). cbn [mem with_calls tick]. lia.
Qed.

(** The second half: the block is written back. *)
Lemma store_block_ok s b p buf : Geo g -> Wf g s -> Dev g s -> Mapped s -> 0 <= b < limit ->
  block_of g s b = Some p -> p <> 0 -> Z.of_nat (length buf) = bs ->
  exists s', ext2_write_block g p buf s = Some (0, s') /\ Good s s' /\
    (forall m, 0 <= m < limit -> held s' m = if decide (m = b) then Some (Some buf) else held s m) /\
    (forall m, block_of g s' m = block_of g s m) /\
    s_free_blocks_count (mem s') - need s' = s_free_blocks_count (mem s) - need s.
Proof.
  intros HG HW HD HM Hb Hp Hp0 Hlen. destruct (mp_data s HM b p Hb Hp Hp0) as [Hd H12].
  destruct (dev_block g s HD p true (proj1 Hd)) as (old & Hold & _).
  eexists. split; [by apply (write_ok g p buf old s (wf_io g s HW) Hold)|]. set (s' := with_disk _ _).
  assert (Wrote g p buf s s') as HS by (by split). assert (i_data s' = i_data s) as Hi by done. split; [split|split; [|split]].
  - by apply (wrote_wf g p buf s).
  - by apply (wrote_dev g p buf s s' HG HW HD Hd HS Hlen (dev_data g s HD) (dev_ind g s HD)).
  - by apply (wrote_mapped p buf s).
  - intros t. by apply (wrote_spare p buf s).
  - done.
  - intros m Hm. rewrite (wrote_held p buf s s' m) by done.
    destruct (decide (m = b)) as [->|Hne]; [by rewrite decide_True by done|].
    rewrite decide_False; [done|]. intros E. apply Hne. by apply (mp_inj s HM _ _ p).
  - intros m. by apply (wrote_block_of p buf s).
  - done.
Qed.

Section Write.
Context (f : file) (buffer : list Z) (size : Z).
Notation pos := (position f).
Notation first := (position f / bs).
Notation last := ((position f + size - 1) / bs).
Context (HG : Geo g) (Hpos : 0 <= pos) (Hsize : 0 < size) (Hend : pos + size <= limit * bs) (H32 : pos + size < 2 ^ 32).
Context (Hbuf : size <= Z.of_nat (length buffer)).

(** The length [ext2_write] computes for block [b]. *)
Lemma write_length b : first <= b <= last ->
  let o := if b =? first then pos mod bs else 0 in
  let k := u32 (bs - o) in
  (if u32 (size - done_at f size b) <? k then u32 (size - done_at f size b) else k)
    = done_at f size (b + 1) - done_at f size b /\
  o + (done_at f size (b + 1) - done_at f size b) <= bs /\
  done_at f size b <= done_at f size (b + 1) <= size.
Proof.
  intros Hb. destruct (step_at f size HG Hpos Hsize Hend b Hb) as (Ho & Hpd & Hd & Hn). cbv zeta in *.
  destruct (span f size HG Hpos Hsize Hend) as (H1 & H2 & H3 & H4 & H5). pose proof (geo_bs g HG).
  set (o := if b =? first then pos mod bs else 0) in *. rewrite Hn.
  assert (b < last -> (b + 1) * bs <= last * bs) by (intros; apply Z.mul_le_mono_nonneg_r; lia).
  assert (b = last -> b * bs = last * bs) by congruence.
  autorewrite with width.
  destruct (Z.ltb_spec (size - done_at f size b) (bs - o)), (Z.eqb_spec b last); lia.
Qed.

Lemma write_blocks_ok n b s : Wf g s -> Dev g s -> Mapped s -> first <= b -> Z.of_nat n = last - b + 1 ->
  last - b + 1 + need s <= s_free_blocks_count (mem s) ->
  exists s', write_blocks g (S n) buffer size first last (pos mod bs) b (done_at f size b) s = Some (size, s') /\
    Good s s' /\
    forall off, 0 <= off / bs < limit ->
      byte_of s' off = if decide (pos + done_at f size b <= off < pos + size) then aget buffer (off - pos) else byte_of s off.
Proof.
  destruct (span f size HG Hpos Hsize Hend) as (H1 & H2 & H3 & H4 & H5). pose proof (geo_bs g HG) as Hbs.
  revert b s. induction n as [|n IH]; intros b s HW HD HM Hb Hn Hfree; cbn [write_blocks].
  - destruct (Z.ltb_spec last b); [|lia]. replace b with (last + 1) by lia.
    rewrite (done_end f size HG Hpos Hsize Hend). exists s. split; [done|]. split; [by split|].
    intros off Hoff. by rewrite decide_False by lia.
  - destruct (Z.ltb_spec last b); [lia|].
    assert (b < 2 ^ 32) by (assert (b * 1 <= last * bs) by (apply Z.mul_le_mono_nonneg; lia); lia).
    destruct (block_for_write_ok s b HG HW HD HM) as (p & buf & s1 & E1 & HG1 & Hp & Hp0 & Hl & Hby & Hoth & Hf1); [lia..|].
    go E1. destruct (write_length b ltac:(lia)) as (HL & Hk & Hk'). cbv zeta in *.
    destruct (step_at f size HG Hpos Hsize Hend b ltac:(lia)) as (Ho & Hpd & Hd & _). cbv zeta in *.
    set (o := if b =? first then pos mod bs else 0) in *. rewrite HL.
    destruct (blit_ok buf o buffer (done_at f size b) (done_at f size (b + 1) - done_at f size b)) as (buf1 & Eb & Hl1 & Hg1); [lia..|].
    rewrite (bind_lift _ _ _ buf1 Eb). cbv beta.
    destruct (store_block_ok s1 b p buf1 HG (gd_wf _ _ HG1) (gd_dev _ _ HG1) (gd_mapped _ _ HG1)) as (s2 & E2 & HG2 & Hb2 & _ & Hf2); [lia|done|done|congruence|].
    go E2. cbn [Z.ltb Z.compare]. rewrite (u32_small (b + 1)) by lia.
    replace (done_at f size b + (done_at f size (b + 1) - done_at f size b)) with (done_at f size (b + 1)) by lia.
    rewrite (u32_small (done_at f size (b + 1))) by lia.
    destruct (IH (b + 1) s2 (gd_wf _ _ HG2) (gd_dev _ _ HG2) (gd_mapped _ _ HG2)) as (s' & E & HG3 & Hb3); [lia..|].
    exists s'. split; [done|]. split; [exact (good_trans s s1 s' HG1 (good_trans s1 s2 s' HG2 HG3))|]. intros off Hoff.
    rewrite Hb3, byte_of_held, Hb2 by done. pose proof (Z.div_mod off bs ltac:(lia)) as Hdm. pose proof (Z.mod_pos_bound off bs ltac:(lia)).
    destruct (decide (off / bs = b)) as [Eo|Eo].
    + rewrite bind_Some_l. rewrite Eo in Hdm. rewrite Hg1. pose proof (Hby (off mod bs) ltac:(lia)) as Hb0.
      replace (b * bs + off mod bs) with off in Hb0 by lia. rewrite Hb0.
      repeat case_decide; try lia; try done. f_equal. lia.
    + rewrite <-byte_of_held, Hoth by done.
      assert (off / bs < b -> (off / bs + 1) * bs <= b * bs) by (intros; apply Z.mul_le_mono_nonneg_r; lia).
      assert (b < off / bs -> (b + 1) * bs <= off / bs * bs) by (intros; apply Z.mul_le_mono_nonneg_r; lia).
      repeat case_decide; try lia; done.
Qed.

End Write.

(** ** The inode table *)

(** Where inode [ino] is: its group, block and offset. *)
Definition place (s : fs) (ino : Z) : option (Z * Z * Z) :=
  let i := (ino - 1) / s_inodes_per_group g in
  let at_ := u32 ((ino - 1) mod s_inodes_per_group g * s_inode_size g) in
  t ← table s i; Some (i, u32 (t + at_ / bs), at_ mod bs).

Lemma inode_place_ok s ino x : Geo g -> 1 <= ino < 2 ^ 32 -> place s ino = Some x -> inode_place g ino s = Some (x, s).
Proof.
  intros HG Hino (t & Ht & [= <-])%bind_Some. pose proof (geo_per g HG Ino) as Hp. cbn [per] in Hp. pose proof (geo_bs g HG).
  unfold table in Ht. apply fmap_Some in Ht as (d & Hd & ->). unfold inode_place, divide.
  destruct (Z.eqb_spec (s_inodes_per_group g) 0); [lia|]. rewrite u32_small by lia. pure.
  rewrite (bind_index _ _ _ _ d Hd). cbv beta. destruct (Z.eqb_spec bs 0); [lia|]. done.
Qed.

Lemma words_length (l : list Z) : length (mjoin (le 4 <$> l)) = (4 * length l)%nat.
Proof. induction l as [|x l IH]; [done|]. change (mjoin (le 4 <$> x :: l)) with (le 4 x ++ mjoin (le 4 <$> l)). rewrite length_app, IH, le_length. cbn. lia. Qed.

Lemma inode_bytes_length e : length (i_block e) = 15%nat -> length (i_osd2 e) = 12%nat -> length (inode_bytes e) = 128%nat.
Proof. intros H1 H2. unfold inode_bytes. rewrite !length_app, !le_length, words_length, H1, H2. done. Qed.

(** [ext2_write_inode] puts the inode's bytes at its place. *)
Lemma write_inode_ok s i e gr block off old : Geo g -> no_fault s -> length (i_data s) = 15%nat ->
  1 <= inode_num i < 2 ^ 32 -> ei_e2i i = Some e -> length (i_osd2 e) = 12%nat ->
  place s (inode_num i) = Some (gr, block, off) -> off + 128 <= bs ->
  disk s !! offset g block = Some old -> Z.of_nat (length old) = bs ->
  let e' := update_e2i i (i_data s) e in
  exists s' buf, ext2_write_inode g i s = Some ((0, with_e2i e' i), s') /\ Wrote g block buf s s' /\ i_data s' = i_data s /\
    i_block_group s' = i_block_group s /\ Z.of_nat (length buf) = bs /\ 0 <= off /\
    forall j, aget buf j = if decide (off <= j < off + 128) then aget (inode_bytes e') (j - off) else aget old j.
Proof.
  intros HG Hf Hdata Hino He Hosd Hpl Hoff Hold Hlen e'. pose proof (geo_bs g HG) as Hbs.
  assert (0 <= off) as Hoff0.
  { unfold place in Hpl. apply bind_Some in Hpl as (t & _ & [= _ _ <-]). apply Z.mod_pos_bound. lia. }
  assert (Z.of_nat (length (inode_bytes e')) = 128) as Hlb.
  { rewrite inode_bytes_length; [done| |done]. cbn. rewrite length_take. lia. }
  unfold ext2_write_inode. go (inode_place_ok s _ _ HG Hino Hpl). go (call_ok s Hf). cbn [negb].
  go (read_ok g block old (tick s) Hf Hold). rewrite (bind_lift _ _ _ e He). pure. cbn [i_data tick with_calls]. fold e'.
  destruct (blit_ok old off (inode_bytes e') 0 128) as (buf & Eb & Hl & Hg); [lia..|].
  rewrite (bind_lift _ _ _ buf Eb). cbv beta. go (write_ok g block buf old (tick (tick s)) Hf Hold).
  eexists _, buf. split; [reflexivity|]. split; [by split|]. split; [done|]. split; [done|]. split; [lia|]. split; [done|].
  intros j. rewrite Hg. by replace (0 + (j - off)) with (j - off) by lia.
Qed.

(** An inode that can be written: its copy of the inode on the device exists, and its
    place in the inode table is a block of its own. *)
Definition Writable (s : fs) (i : inode) : Prop :=
  1 <= inode_num i < 2 ^ 32 /\ (exists e, ei_e2i i = Some e /\ length (i_osd2 e) = 12%nat) /\
  exists gr block off, place s (inode_num i) = Some (gr, block, off) /\ off + 128 <= bs /\ Spare s block.

Lemma place_good s s' ino : Good s s' -> place s' ino = place s ino.
Proof. intros HS. unfold place. by rewrite (gd_table s s' HS). Qed.

(** Writing the inode changes no byte of the file. *)
Lemma write_inode_good s i : Geo g -> Wf g s -> Dev g s -> Mapped s -> Writable s i ->
  exists e s', ext2_write_inode g i s = Some ((0, with_e2i e i), s') /\ length (i_osd2 e) = 12%nat /\ Good s s' /\
    (forall m, 0 <= m < limit -> held s' m = held s m) /\
    s_free_blocks_count (mem s') - need s' = s_free_blocks_count (mem s) - need s.
Proof.
  intros HG HW HD HM (Hino & (e & He & Hosd) & (gr & block & off & Hpl & Hoff & HSp)). pose proof HSp as (Hdb & H12 & H0 & Hno).
  destruct (dev_block g s HD block true (proj1 Hdb)) as (old & Hold & Hlen).
  destruct (write_inode_ok s i e gr block off old HG (wf_io g s HW) (dev_data g s HD) Hino He Hosd Hpl Hoff Hold Hlen)
    as (s' & buf & E & HS & Hi & _ & Hl & _). eexists _, s'. split; [exact E|]. split; [done|]. split; [split|split].
  - by apply (wrote_wf g block buf s).
  - apply (wrote_dev g block buf s); try done; rewrite Hi; [apply (dev_data g s HD)|apply (dev_ind g s HD)].
  - by apply (wrote_mapped block buf s).
  - intros t. by apply (wrote_spare block buf s).
  - intros k. unfold table. by destruct HS as (-> & _).
  - intros m Hm. rewrite (wrote_held block buf s s' m) by done. rewrite decide_False; [done|]. by apply Hno.
  - unfold need. rewrite Hi. by destruct HS as (-> & _).
Qed.

(** [ext2_write] up to its loop. *)
Lemma write_prefix f buffer size s : Geo g -> no_fault s -> has_flag (flags f) FILE_OPEN_WRITE = true ->
  0 <= position f -> 0 < size -> position f + size < 2 ^ 31 ->
  let first := position f / bs in let last := (position f + size - 1) / bs in
  ext2_write g f buffer size s =
    bind (write_blocks g (S (S (Z.to_nat (last - first)))) buffer size first last (position f mod bs) first 0)
      (fun r => if r <? 0 then ret (r, f)
        else
          let f := with_position (u64 (position f + r)) f in
          if isize (f_inode f) <? position f then
            let f := with_inode (with_size (position f) (f_inode f)) f in
            w <- ext2_write_inode g (f_inode f);
            ret (s32 r, with_inode w.2 f)
          else ret (s32 r, f)) (tick s).
Proof.
  intros HG Hf Hfl Hp Hs H31 first last. pose proof (geo_bs g HG). unfold ext2_write. rewrite Hfl. cbn [negb].
  unfold divide. destruct (Z.eqb_spec bs 0); [lia|]. rewrite bind_ret_l. cbn [fst snd].
  assert (0 <= position f / bs < 2 ^ 32 /\ 0 <= position f mod bs < 2 ^ 32) as [H1 H2].
  { split; [split; [apply Z.div_pos; lia|apply Z.div_lt_upper_bound; nia]|].
    pose proof (Z.mod_le (position f) bs). pose proof (Z.mod_pos_bound (position f) bs). lia. }
  assert (0 <= last < 2 ^ 32) by (split; [apply Z.div_pos; lia|apply Z.div_lt_upper_bound; nia]).
  autorewrite with width. fold last. autorewrite with width. by go (call_ok s Hf).
Qed.

End Files.

(** ** A small file *)

(** Inode 3 of the small file system, a sparse file of 300 bytes. *)
Definition small_e2i : ext2_inode := mk_e2i 0 0 0 0 0 0 0 0 0 0 0 0 (replicate 15 0) 0 0 0 0 (replicate 12 0).
Definition small_inode : inode := mk_inode 3 FILE_TYPE_REGULAR 0x1A4 0 0 300 0 0 0 0 1 0 0 0 0 0 (Some small_e2i).

Lemma small_sparse n : 0 <= n < 12 + s_block_size small_geo / 4 -> block_of small_geo small_fs n = Some 0.
Proof.
  intros Hn. unfold block_of. destruct (Z.ltb_spec n 12); [|done]. rewrite aget_nat by lia. apply lookup_replicate_2. lia.
Qed.

Lemma small_mapped : Mapped small_geo small_fs.
Proof.
  split.
  - intros n p Hn. rewrite small_sparse by done. congruence.
  - intros n m p Hn Hm. rewrite !small_sparse by done. congruence.
Qed.

Lemma small_writable : Writable small_geo small_fs small_inode.
Proof.
  split; [done|]. split; [by exists small_e2i|]. exists 0, 7, 0. split; [vm_compute; reflexivity|]. split; [done|].
  split; [split|].
  - vm_compute. reflexivity.
  - intros k i d [[-> ->]|[-> ->]]%two_groups; by destruct k.
  - split; [done|]. split; [done|]. intros n Hn. by rewrite small_sparse.
Qed.

(** C7: while no call fails, [ext2_read] of a regular file, with a buffer of [size] bytes
    and the position inside the file, delivers the bytes from the position on, as many as
    were asked for or are left, returns their number and advances the position; bytes of
    unmapped blocks are 0. This holds when the position is at the start of a block or the
    bytes reach into another block. Otherwise, when all bytes asked for are in the file and in one block
    behind its start, the length copied is too large by the offset in the block, and the
    copy leaves the caller's buffer. *)
Theorem ext2_read_correct g s f buffer size (HG : Geo g) (HW : Wf g s) (HD : Dev g s) (HM : Mapped g s)
    (Hflag : has_flag (flags f) FILE_OPEN_READ = true) (Hpos : 0 <= position f < isize (f_inode f))
    (Hsize : 0 < size < 2 ^ 31) (Hlimit : isize (f_inode f) <= (12 + s_block_size g / 4) * s_block_size g)
    (H31 : isize (f_inode f) < 2 ^ 31) (Hbuf : Z.of_nat (length buffer) = size) :
  let pos := position f in
  let bytes := Z.min size (isize (f_inode f) - pos) in
  let one_block := pos / s_block_size g = (pos + bytes - 1) / s_block_size g in
  (pos mod s_block_size g = 0 \/ ~ one_block ->
    exists buffer' c,
      ext2_read g f buffer size s = Some ((bytes, with_position (pos + bytes) f, buffer'), with_calls c s) /\
      forall i, aget buffer' i = if decide (0 <= i < bytes) then byte_of g s (pos + i) else aget buffer i) /\
  (pos mod s_block_size g <> 0 -> one_block -> pos + size <= isize (f_inode f) ->
    ext2_read g f buffer size s = None).
Proof.
  intros pos bytes one. pose proof (read_prefix g f buffer size s HG (wf_io g s HW) Hflag Hpos H31 Hsize) as Hpre.
  cbv zeta in Hpre. fold pos bytes in Hpre. rewrite Hpre. clear Hpre. pose proof (geo_bs g HG) as Hbs.
  destruct (span g f bytes HG ltac:(lia) ltac:(lia) ltac:(lia)) as (H1 & H2 & H3 & H4 & H5). fold pos in H1, H2, H3, H4, H5.
  split.
  - intros Hc. destruct (read_blocks_ok g f bytes HG ltac:(lia) ltac:(lia) ltac:(lia) ltac:(lia) Hc
      (S (Z.to_nat ((pos + bytes - 1) / s_block_size g - pos / s_block_size g))) (pos / s_block_size g) buffer (tick s))
      as (buffer' & c & E & _ & Hget); [by apply wf_calls|by apply dev_calls|by apply mapped_calls|fold pos; lia..|].
    rewrite done_first in E, Hget by (done || lia). fold pos in E. exists buffer', c. go E.
    destruct (Z.ltb_spec bytes 0); [lia|]. split; [|done].
    autorewrite with width. by rewrite s32_small by lia.
  - intros Hoff Hone Hin. assert (bytes = size) as Eb by lia. unfold one in Hone. rewrite <-Hone.
    replace (pos / s_block_size g - pos / s_block_size g) with 0 by lia. cbn [Z.to_nat read_blocks].
    rewrite Z.ltb_irrefl, Z.eqb_refl. pose proof (Z.mod_pos_bound pos (s_block_size g)).
    assert (pos / s_block_size g * 1 <= pos / s_block_size g * s_block_size g) by (apply Z.mul_le_mono_nonneg_l; lia).
    destruct (fetch_ok g (tick s) (pos / s_block_size g) HG) as (p & blk & c1 & c2 & Eg & Ef & _);
      [by apply wf_calls|by apply dev_calls|by apply mapped_calls|lia|lia|].
    unfold bind at 1. go Eg. go Ef. fold pos. rewrite (u32_small (_ * _)), (u64_small (pos + bytes)), u64_small, u32_small by lia.
    unfold bind, lift. by rewrite blit_fault by lia.
Qed.

Lemma ext2_read_correct_witness :
  (exists buffer' c,
    ext2_read small_geo (mk_file 128 1 small_inode) (replicate 100 0) 100 small_fs
      = Some ((100, with_position 228 (mk_file 128 1 small_inode), buffer'), with_calls c small_fs)) /\
  ext2_read small_geo (mk_file 10 1 small_inode) (replicate 100 0) 100 small_fs = None.
Proof.
  split.
  - destruct (ext2_read_correct small_geo small_fs (mk_file 128 1 small_inode) (replicate 100 0) 100
      small_geo_ok small_fs_ok small_fs_dev small_mapped) as [H _]; [done|cbn; lia|lia|vm_compute; discriminate|reflexivity|reflexivity|].
    destruct H as (buffer' & c & E & _); [left; done|]. by exists buffer', c.
  - destruct (ext2_read_correct small_geo small_fs (mk_file 10 1 small_inode) (replicate 100 0) 100
      small_geo_ok small_fs_ok small_fs_dev small_mapped) as [_ H]; [done|cbn; lia|lia|vm_compute; discriminate|reflexivity|reflexivity|].
    apply H; [done|reflexivity|cbn; lia].
Defined.

(** ** Inodes as bytes *)

Lemma field_words (b : list Z) l off k : (4 * length b <= off)%nat ->
  field (mjoin (le 4 <$> b) ++ l) off k = field l (off - 4 * length b) k.
Proof. intros H. unfold field. rewrite drop_app_ge by (by rewrite words_length). by rewrite words_length. Qed.

Lemma field_word (b : list Z) l i v : b !! i = Some v ->
  field (mjoin (le 4 <$> b) ++ l) (4 * i) 4 = v mod 2 ^ 32.
Proof.
  revert i. induction b as [|x b IH]; intros i Hi; [done|].
  change (mjoin (le 4 <$> x :: b)) with (le 4 x ++ mjoin (le 4 <$> b)). rewrite <-app_assoc. destruct i as [|i].
  - injection Hi as <-. apply (field_here 4).
  - rewrite field_skip by lia. replace (4 * S i - 4)%nat with (4 * i)%nat by lia. by apply IH.
Qed.

(** The values the fields of [ext2_inode_t] can have. *)
Definition u16_range (z : Z) : Prop := 0 <= z < 2 ^ 16.
Definition u32_range (z : Z) : Prop := 0 <= z < 2 ^ 32.

Record InRange (e : ext2_inode) : Prop := {
  ir_u16 : Forall u16_range [i_mode e; i_uid e; i_gid e; i_links_count e];
  ir_u32 : Forall u32_range [i_size e; i_atime e; i_ctime e; i_mtime e; i_dtime e; i_blocks e; i_flags e; i_osd1 e;
             i_generation e; i_file_acl e; i_dir_acl e; i_faddr e];
  ir_block : length (i_block e) = 15%nat /\ Forall u32_range (i_block e);
  ir_osd2 : length (i_osd2 e) = 12%nat
}.

Lemma bytes_inode_bytes e : InRange e -> bytes_inode (inode_bytes e) = e.
Proof.
  intros [H16 H32 [Hl Hb] Ho]. repeat setoid_rewrite Forall_cons in H16. repeat setoid_rewrite Forall_cons in H32.
  unfold u16_range, u32_range in *. destruct H16 as (?&?&?&?&_), H32 as (?&?&?&?&?&?&?&?&?&?&?&?&_).
  unfold bytes_inode, inode_bytes. destruct e. cbn [i_mode i_uid i_size i_atime i_ctime i_mtime i_dtime i_gid i_links_count
    i_blocks i_flags i_osd1 i_block i_generation i_file_acl i_dir_acl i_faddr i_osd2] in *.
  f_equal; try (rewrite ?field_skip, ?field_words, ?field_skip by (rewrite ?Hl; lia); rewrite ?Hl;
                rewrite field_here; apply Z.mod_small; done).
  - apply list_eq. intros i. rewrite list_lookup_fmap. destruct (decide (i < 15)%nat) as [Hi|Hi].
    + destruct (lookup_lt_is_Some_2 i_block0 i) as [v Hv]; [lia|]. rewrite lookup_seq_lt, Hv by done. cbn [fmap option_fmap option_map].
      rewrite !field_skip by lia. match goal with |- context [field _ ?o 4] => replace o with (4 * i)%nat by lia end.
      rewrite (field_word _ _ i v) by done. f_equal. apply Z.mod_small.
      by apply (proj1 (Forall_lookup _ _) Hb i).
    + rewrite lookup_seq_ge by lia. symmetry. apply lookup_ge_None_2. lia.
  - rewrite !drop_app_ge by (rewrite ?le_length, ?words_length, ?Hl; lia). rewrite !le_length, words_length, Hl.
    cbn [Nat.sub Nat.mul Nat.add]. by rewrite drop_0, take_ge by lia.
Qed.

(** The type and the permissions share [i_mode] without mixing. *)
Lemma mode_split t p :
  let m := Z.lor (mode_of_type t) (Z.land p 0xFFF) in
  type_of_mode m = t /\ Z.land m 0xFFF = Z.land p 0xFFF /\ u16_range m.
Proof.
  intros m. assert (forall c, Z.land m c = Z.lor (Z.land (mode_of_type t) c) (Z.land p (Z.land 0xFFF c))) as Hm.
  { intros c. unfold m. by rewrite Z.land_lor_distr_l, Z.land_assoc. }
  split; [|split].
  - unfold type_of_mode. rewrite Hm. change (Z.land 0xFFF EXT2_S_IFMT) with 0. rewrite Z.land_0_r, Z.lor_0_r. by destruct t.
  - rewrite Hm. change (Z.land 0xFFF 0xFFF) with 0xFFF. by destruct t.
  - unfold u16_range. assert (m mod 2 ^ 16 = m) as <-; [|by apply Z.mod_pos_bound]. rewrite <-Z.land_ones by lia.
    rewrite Hm. change (Z.land 0xFFF (Z.ones 16)) with 0xFFF. by destruct t.
Qed.

(** The fields of an inode in memory, each in the range of its C type. *)
Record InodeRange (s : fs) (i : inode) (e : ext2_inode) : Prop := {
  nr_u32 : Forall u32_range [ei_flags i; ei_faddr i; ei_file_acl i; ei_dir_acl i; ei_dtime i; i_osd1 e; i_generation e];
  nr_data : length (i_data s) = 15%nat /\ Forall u32_range (i_data s);
  nr_osd2 : length (i_osd2 e) = 12%nat
}.

Lemma update_in_range s i e : InodeRange s i e -> InRange (update_e2i i (i_data s) e).
Proof.
  intros [H32 [Hl Hd] Ho]. repeat setoid_rewrite Forall_cons in H32. destruct H32 as (?&?&?&?&?&?&?&_).
  assert (forall z, u16_range (u16 z)) by (intros; apply (wrap_range 16); lia).
  assert (forall z, u32_range (u32 z)) by (intros; apply (wrap_range 32); lia).
  destruct (mode_split (type i) (permissions i)) as (_ & _ & Hm).
  split; cbn [update_e2i i_mode i_uid i_size i_atime i_ctime i_mtime i_dtime i_gid i_links_count
    i_blocks i_flags i_osd1 i_block i_generation i_file_acl i_dir_acl i_faddr i_osd2].
  - by repeat first [apply Forall_nil_2|apply Forall_cons_2; [auto|]].
  - by repeat first [apply Forall_nil_2|apply Forall_cons_2; [auto|]].
  - rewrite take_ge by lia. done.
  - done.
Qed.

(** C6: on a device with enough free blocks and while no call fails, [ext2_write] of a
    non-empty buffer within the range of direct and single indirect blocks and 2 GB writes all of
    it: afterwards the bytes of the file from the old position on are those of the buffer
    and all others are as before, whatever the alignment and whichever blocks had to be
    allocated; the position is behind the last byte, the size is at least the position,
    and the bitmaps, counts and block map are in order. *)
Theorem ext2_write_correct g s f buffer size (HG : Geo g) (HW : Wf g s) (HD : Dev g s) (HM : Mapped g s)
    (HI : Writable g s (f_inode f)) (Hflag : has_flag (flags f) FILE_OPEN_WRITE = true)
    (Hpos : 0 <= position f) (Hsize : 0 < size) (Hbuf : Z.of_nat (length buffer) = size)
    (Hlimit : position f + size <= (12 + s_block_size g / 4) * s_block_size g) (H31 : position f + size < 2 ^ 31)
    (Hfree : (position f + size - 1) / s_block_size g - position f / s_block_size g + 1 + need s <= s_free_blocks_count (mem s)) :
  exists f' s', ext2_write g f buffer size s = Some ((size, f'), s') /\
    position f' = position f + size /\ isize (f_inode f') = Z.max (isize (f_inode f)) (position f + size) /\
    Wf g s' /\ Dev g s' /\ Mapped g s' /\
    forall off, 0 <= off < (12 + s_block_size g / 4) * s_block_size g ->
      byte_of g s' off = if decide (position f <= off < position f + size) then aget buffer (off - position f) else byte_of g s off.
Proof.
  pose proof (geo_bs g HG) as Hbs. pose proof (write_prefix g f buffer size s HG (wf_io g s HW) Hflag Hpos Hsize H31) as Hpre.
  cbv zeta in Hpre. rewrite Hpre. clear Hpre.
  destruct (span g f size HG Hpos Hsize Hlimit) as (H1 & H2 & _).
  destruct (write_blocks_ok g f buffer size HG Hpos Hsize Hlimit ltac:(lia) ltac:(lia)
    (S (Z.to_nat ((position f + size - 1) / s_block_size g - position f / s_block_size g))) (position f / s_block_size g) (tick s))
    as (s1 & E & HS & Hb); [by apply wf_calls|by apply dev_calls|by apply mapped_calls|lia|lia|exact Hfree|].
  rewrite done_first in E, Hb by (done || lia). rewrite Z.add_0_r in Hb. go E.
  destruct (Z.ltb_spec size 0); [lia|]. cbn [position with_position f_inode]. autorewrite with width. rewrite s32_small by lia.
  assert (forall off, 0 <= off < (12 + s_block_size g / 4) * s_block_size g -> 0 <= off / s_block_size g < 12 + s_block_size g / 4) as Hr.
  { intros off Ho. split; [apply Z.div_pos; lia|apply Z.div_lt_upper_bound; lia]. }
  destruct (Z.ltb_spec (isize (f_inode f)) (position f + size)) as [Hgrow|Hkeep].
  - set (i := with_size _ _).
    assert (Writable g s1 i) as HI1.
    { destruct HI as (A & B & (gr & block & off & Hpl & Hoff & HSp)). split; [done|]. split; [done|].
      exists gr, block, off. split; [by rewrite (place_good g (tick s) s1)|]. split; [done|]. by apply (gd_spare g _ _ HS). }
    destruct (write_inode_good g s1 i HG (gd_wf _ _ _ HS) (gd_dev _ _ _ HS) (gd_mapped _ _ _ HS) HI1)
      as (e' & s2 & E2 & _ & HS2 & Hb2 & _). go E2. eexists _, s2. split; [reflexivity|]. cbn [position with_inode f_inode snd].
    split; [done|]. split; [cbn; lia|]. split; [apply HS2|]. split; [apply HS2|]. split; [apply HS2|].
    intros off Ho. rewrite byte_of_held, Hb2, <-byte_of_held, Hb by auto. done.
  - eexists _, s1. split; [reflexivity|]. cbn [position with_position f_inode].
    split; [done|]. split; [lia|]. split; [apply HS|]. split; [apply HS|]. split; [apply HS|]. intros off Ho. by rewrite Hb by auto.
Qed.

Lemma ext2_write_correct_witness :
  exists f' s', ext2_write small_geo (mk_file 100 2 small_inode) (seqZ 1 100) 100 small_fs = Some ((100, f'), s') /\
    position f' = 200 /\ byte_of small_geo s' 150 = Some 51.
Proof.
  destruct (ext2_write_correct small_geo small_fs (mk_file 100 2 small_inode) (seqZ 1 100) 100
    small_geo_ok small_fs_ok small_fs_dev small_mapped small_writable) as (f' & s' & E & Hp & _ & _ & _ & _ & Hb);
    [done|cbn; lia|lia|done|vm_compute; discriminate|reflexivity|vm_compute; discriminate|].
  exists f', s'. split; [done|]. split; [done|]. rewrite Hb by (vm_compute; split; congruence). reflexivity.
Defined.

(** [ext2_read_inode] finds the inode whose bytes lie at its place. *)
Lemma read_inode_ok g s j e gr block off buf : Geo g -> no_fault s -> 1 <= inode_num j < 2 ^ 32 -> InRange e ->
  place g s (inode_num j) = Some (gr, block, off) -> 0 <= off -> off + 128 <= s_block_size g ->
  disk s !! offset g block = Some buf -> Z.of_nat (length buf) = s_block_size g ->
  (forall k, off <= k < off + 128 -> aget buf k = aget (inode_bytes e) (k - off)) ->
  exists s', ext2_read_inode g j s = Some ((0, fill_inode j e), s') /\ i_data s' = i_block e /\ i_block_group s' = gr /\
    mem s' = mem s /\ disk s' = disk s.
Proof.
  intros HG Hf Hino He Hpl Hoff0 Hoff Hbuf Hlen Hbytes.
  pose proof (inode_bytes_length e (proj1 (ir_block e He)) (ir_osd2 e He)) as Hl.
  unfold ext2_read_inode. go (inode_place_ok g s _ _ HG Hino Hpl). go (call_ok s Hf). cbn [negb].
  go (read_ok g block buf (tick s) Hf Hbuf). go (call_ok (tick (tick s)) Hf). cbn [negb].
  destruct (blit_ok (replicate 128 0) 0 buf off 128) as (b & Eb & Hlb & Hgb); rewrite ?length_replicate; [lia..|].
  assert (b = inode_bytes e) as ->.
  { apply list_eq. intros k. destruct (decide (k < 128)%nat) as [Hk|Hk].
    - pose proof (Hgb (Z.of_nat k)) as H1. rewrite decide_True, Hbytes, !aget_nat, Nat2Z.id in H1 by lia. rewrite H1. f_equal. lia.
    - rewrite !lookup_ge_None_2; [done|lia|]. rewrite Hlb, length_replicate. lia. }
  rewrite (bind_lift _ _ _ _ Eb). cbv beta zeta. rewrite (bytes_inode_bytes e He). rewrite bind_modify.
  eexists. by split.
Qed.

(** An inode written by [ext2_write_inode] and read back by [ext2_read_inode] has the
    same type, block pointers, flags, ACLs and deletion time; the permissions keep their
    low 12 bits, owner, group and link count their low 16, size, times and block count
    their low 32, since that is what the inode on the device has room for. *)
Theorem ext2_inode_roundtrip g s i e gr block off old (HG : Geo g) (Hio : no_fault s)
    (Hino : 1 <= inode_num i < 2 ^ 32) (He : ei_e2i i = Some e) (HR : InodeRange s i e)
    (Hplace : place g s (inode_num i) = Some (gr, block, off)) (Hoff : off + 128 <= s_block_size g)
    (Hold : disk s !! offset g block = Some old) (Hlen : Z.of_nat (length old) = s_block_size g) :
  exists i1 s1, ext2_write_inode g i s = Some ((0, i1), s1) /\
    forall j, inode_num j = inode_num i ->
      exists s2, ext2_read_inode g j s1 =
          Some ((0, mk_inode (inode_num i) (type i) (Z.land (permissions i) 0xFFF) (u16 (uid i)) (u16 (gid i))
                      (u32 (isize i)) (u32 (blocks i)) (u32 (atime i)) (u32 (mtime i)) (u32 (ctime i)) (u16 (links i))
                      (ei_flags i) (ei_faddr i) (ei_file_acl i) (ei_dir_acl i) (ei_dtime i) (ei_e2i i1)), s2) /\
        i_data s2 = i_data s /\ i_block_group s2 = gr /\ mem s2 = mem s.
Proof.
  destruct (write_inode_ok g s i e gr block off old HG Hio (proj1 (nr_data s i e HR)) Hino He (nr_osd2 s i e HR) Hplace Hoff Hold Hlen)
    as (s1 & buf & E & (Em & _ & Ed & Ef) & Hi & _ & Hl & Hoff0 & Hget). eexists _, s1. split; [exact E|]. intros j Hj.
  set (e' := update_e2i i (i_data s) e) in *. pose proof (update_in_range s i e HR) as He'.
  destruct (read_inode_ok g s1 j e' gr block off buf) as (s2 & E2 & Hd2 & Hg2 & Hm2 & _); try done.
  - intros n. rewrite Ef. apply Hio.
  - by rewrite Hj.
  - rewrite Hj, <-Hplace. unfold place, table. by rewrite Em.
  - rewrite Ed. apply lookup_insert_eq.
  - intros k Hk. by rewrite Hget, decide_True.
  - exists s2. rewrite E2. destruct (mode_split (type i) (permissions i)) as (Ht & Hp & _).
    split; [|split; [|split; [done|congruence]]].
    + unfold fill_inode, e', update_e2i.
      cbn [i_mode i_uid i_size i_atime i_ctime i_mtime i_dtime i_gid i_links_count i_blocks i_flags i_file_acl i_dir_acl i_faddr with_e2i ei_e2i].
      rewrite Ht, Hp, Hj. done.
    + rewrite Hd2. cbn [e' update_e2i i_block]. apply take_ge. rewrite (proj1 (nr_data s i e HR)). lia.
Qed.

Lemma ext2_inode_roundtrip_witness :
  exists i1 s1, ext2_write_inode small_geo small_inode small_fs = Some ((0, i1), s1) /\
    forall j, inode_num j = 3 -> exists s2 j', ext2_read_inode small_geo j s1 = Some ((0, j'), s2) /\
      permissions j' = 0x1A4 /\ isize j' = 300 /\ i_block_group s2 = 0.
Proof.
  assert (disk small_fs !! offset small_geo 7 = Some (replicate 128 0)) as Hdisk by (vm_compute; reflexivity).
  destruct (ext2_inode_roundtrip small_geo small_fs small_inode small_e2i 0 7 0 (replicate 128 0) small_geo_ok)
    as (i1 & s1 & E & H); [done|done|done| |vm_compute; reflexivity|done|exact Hdisk|done|].
  - split; [|split; [done|]|done]; repeat first [apply Forall_nil_2|apply Forall_cons_2; [vm_compute; split; congruence|]].
  - exists i1, s1. split; [done|]. intros j Hj. destruct (H j Hj) as (s2 & E2 & _ & Hg & _). by eexists s2, _.
Defined.

End Ext2FileSpec.
