(* ===== verification/Ext2Dir.v ===== *)
(** Directories of ext2: the entries of a directory block ([kernel/fs/ext2/dir_entry.c]),
    reading and searching a directory ([kernel/fs/ext2/dir.c], [kernel/fs/ext2/readdir.c]),
    and the operations on names built from them ([kernel/fs/ext2/create.c],
    [kernel/fs/ext2/symlink.c], [ext2_link] and [ext2_unlink] of
    [kernel/fs/ext2/inode_alloc.c], [ext2_alloc_inode] of [kernel/fs/ext2/inode.c]). *)

From S2P Require Import Prelude Ext2 Ext2File.

Module Ext2Dir.
Import Ext2 Ext2File.
Local Open Scope ext2_scope.

Definition EEXIST : Z := 17.
Definition ENOTDIR : Z := 20.
Definition ENAMETOOLONG : Z := 36.
Definition ENOTEMPTY : Z := 39.

(** ** Bytes of a directory entry *)

(** [sizeof(ext2_dir_entry_t)] is 264: 8 bytes of header, 255 of name and one of padding. *)
Definition sizeof_dir_entry : Z := 264.
Definition dirent_size (name_len : Z) : Z := Z.land (sizeof_dir_entry - 255 + name_len + 3) (Z.lnot 3).

Definition get_inode (buf : list Z) (off : Z) : option Z := rd buf off 4.
Definition get_rec_len (buf : list Z) (off : Z) : option Z := rd buf (off + 4) 2.
Definition get_name_len (buf : list Z) (off : Z) : option Z := rd buf (off + 6) 1.
Definition get_file_type (buf : list Z) (off : Z) : option Z := rd buf (off + 7) 1.

Definition EXT2_FT_of_type (t : file_type_t) : Z :=
  match t with
  | FILE_TYPE_REGULAR => 1
  | FILE_TYPE_DIRECTORY => 2
  | FILE_TYPE_SYMLINK => 7
  | FILE_TYPE_BLOCK_DEVICE => 4
  | FILE_TYPE_CHAR_DEVICE => 3
  | FILE_TYPE_PIPE => 5
  | FILE_TYPE_SOCKET => 6
  end.

(** The inode number, the lengths, the type and then the name of the entry at [e];
    [rec_len] is [None] where the code keeps the old one. *)
Definition put_header (buf : list Z) (e ino : Z) (rec_len : option Z) (name_len ft : Z) : option (list Z) :=
  buf ← wr buf e 4 ino;
  buf ← match rec_len with Some r => wr buf (e + 4) 2 r | None => Some buf end;
  buf ← wr buf (e + 6) 1 name_len;
  wr buf (e + 7) 1 ft.
Definition put_entry (buf : list Z) (e ino : Z) (rec_len : option Z) (ft : Z) (name : list Z) : option (list Z) :=
  buf ← put_header buf e ino rec_len (Z.of_nat (length name)) ft;
  blit buf (e + 8) name 0 (Z.of_nat (length name)).

(** [strncmp(entry->name, name, n) == 0] *)
Fixpoint same_name (n : nat) (buf : list Z) (p : Z) (name : list Z) : option bool :=
  match n with
  | O => Some true
  | S n =>
      a ← aget buf p;
      let b := default 0 (head name) in
      if negb (a =? 0) && (a =? b) then same_name n buf (p + 1) (tail name) else Some (a =? b)
  end.

(** ** Searching a block *)

(** The loop [while (offset < block_size)] of [ext2_add_entry]: the buffer with the
    entry put in, or [None] when the block has no room. Running out of fuel is a loop that
    does not end. *)
Fixpoint add_scan (fuel : nat) (block_size entry_size ino ft : Z) (name : list Z) (off : Z) (buf : list Z)
    : option (option (list Z)) :=
  match fuel with
  | O => None
  | S fuel =>
      if off <? block_size then
        inode ← get_inode buf off;
        rec_len ← get_rec_len buf off;
        name_len ← get_name_len buf off;
        let actual_size := dirent_size name_len in
        if (inode =? 0) || (u32 (entry_size + actual_size) <=? rec_len) then
          let free_space := u32 (rec_len - actual_size) in
          buf ← (if negb (inode =? 0) then
                   buf ← wr buf (off + 4) 2 actual_size;
                   put_entry buf (off + actual_size) ino (Some free_space) ft name
                 else put_entry buf off ino None ft name);
          Some (Some buf)
        else add_scan fuel block_size entry_size ino ft name (u32 (off + rec_len)) buf
      else Some None
  end.

(** The loop of [ext2_remove_entry]; [prev] is the offset of [prev_entry]. *)
Fixpoint remove_scan (fuel : nat) (block_size : Z) (name : list Z) (prev : option Z) (off : Z) (buf : list Z)
    : option (option (list Z)) :=
  match fuel with
  | O => None
  | S fuel =>
      if off <? block_size then
        inode ← get_inode buf off;
        rec_len ← get_rec_len buf off;
        name_len ← get_name_len buf off;
        hit ← (if negb (inode =? 0) && (name_len =? Z.of_nat (length name))
               then same_name (length name) buf (off + 8) name else Some false);
        if (hit : bool) then
          buf ← match prev with
                | Some p => r ← get_rec_len buf p; wr buf (p + 4) 2 (r + rec_len)
                | None => wr buf off 4 0
                end;
          Some (Some buf)
        else remove_scan fuel block_size name (Some off) (u32 (off + rec_len)) buf
      else Some None
  end.

(** The loop of [ext2_is_dir_empty]: whether the block has only ["."] and [".."]. *)
Fixpoint empty_scan (fuel : nat) (block_size : Z) (off : Z) (buf : list Z) : option bool :=
  match fuel with
  | O => None
  | S fuel =>
      if off <? block_size then
        inode ← get_inode buf off;
        rec_len ← get_rec_len buf off;
        name_len ← get_name_len buf off;
        skip ← (if negb (inode =? 0) then
                  if name_len =? 1 then c ← aget buf (off + 8); Some (c =? 46)
                  else if name_len =? 2 then
                    c ← aget buf (off + 8);
                    if c =? 46 then d ← aget buf (off + 9); Some (d =? 46) else Some false
                  else Some false
                else Some true);
        if (skip : bool) then empty_scan fuel block_size (u32 (off + rec_len)) buf else Some false
      else Some true
  end.

(** The loop of [ext2_lookup]: the inode number of the entry found. *)
Fixpoint lookup_scan (fuel : nat) (block_size : Z) (name : list Z) (off : Z) (buf : list Z) : option (option Z) :=
  match fuel with
  | O => None
  | S fuel =>
      if off <? block_size then
        inode ← get_inode buf off;
        rec_len ← get_rec_len buf off;
        if (inode =? 0) || (rec_len =? 0) then lookup_scan fuel block_size name (u32 (off + rec_len)) buf
        else
          name_len ← get_name_len buf off;
          hit ← (if name_len =? Z.of_nat (length name) then same_name (Z.to_nat name_len) buf (off + 8) name
                 else Some false);
          if (hit : bool) then Some (Some inode)
          else lookup_scan fuel block_size name (u32 (off + rec_len)) buf
      else Some None
  end.

(** The checks on the arguments: [None] is a null pointer, a name is its characters
    without the terminator. *)
Definition check_dir (dir : option inode) : inode + Z :=
  match dir with
  | None => inr (- ENOENT)
  | Some dir => match type dir with FILE_TYPE_DIRECTORY => inl dir | _ => inr (- ENOTDIR) end
  end.
Definition check_name (dir : option inode) (name : option (list Z)) : inode * list Z + Z :=
  match check_dir dir, name with
  | inr e, _ => inr e
  | inl dir, Some (c :: name) => inl (dir, c :: name)
  | inl _, _ => inr (- EINVAL)
  end.

Section Operations.
Context (g : geometry).
Notation bs := (s_block_size g).

(** Enough for a loop that moves by at least one byte per turn. *)
Definition scan_fuel : nat := S (Z.to_nat bs).

Definition num_blocks (dir : inode) : M Z :=
  q <- divide (u64 (isize dir + bs - 1)) bs; ret (u32 q.1).

(** ** Adding an entry *)

(** A cleared block with one free entry over all of it. *)
Definition free_block_buffer : option (list Z) :=
  put_header (replicate (Z.to_nat bs) 0) 0 0 (Some bs) 0 0.

(** Block [block_num] of the directory for [ext2_add_entry]: formatted if it was not
    there. *)
Definition block_for_add (block_num : Z) : M (Z * list Z + Z) :=
  phys_block <- ext2_get_block g block_num;
  if phys_block =? 0 then
    phys_block <- ext2_alloc_block g block_num;
    if phys_block =? 0 then ret (inr (- ENOSPC))
    else
      buf <- lift free_block_buffer;
      r <- ext2_write_block g phys_block buf;
      if r <? 0 then ret (inr r) else ret (inl (phys_block, buf))
  else
    buf <- ext2_read_block g phys_block;
    match buf with
    | None => ret (inr (- EIO))
    | Some buf => ret (inl (phys_block, buf))
    end.

(** The loop over the blocks of the directory, [n] of them left from [block_num] on:
    [None] when none has room. *)
Fixpoint add_blocks (n : nat) (entry_size ino ft : Z) (name : list Z) (dir : inode) (block_num : Z)
    : M (option (Z * inode)) :=
  match n with
  | O => ret None
  | S n =>
      b <- block_for_add block_num;
      match b with
      | inr e => ret (Some (e, dir))
      | inl (phys_block, buf) =>
          r <- lift (add_scan scan_fuel bs entry_size ino ft name 0 buf);
          match r with
          | None => add_blocks n entry_size ino ft name dir (u32 (block_num + 1))
          | Some buf =>
              r <- ext2_write_block g phys_block buf;
              if r <? 0 then ret (Some (r, dir))
              else
                let size := u32 (u32 (block_num * bs) + bs) in
                if isize dir <? size then
                  w <- ext2_write_inode g (with_size size dir);
                  ret (Some (0, w.2))
                else ret (Some (0, dir))
          end
      end
  end.

Definition ext2_add_entry (dir : option inode) (name : option (list Z)) (ino : Z) (type : file_type_t)
    : M (Z * option inode) :=
  match check_name dir name with
  | inr e => ret (e, dir)
  | inl (dir, name) =>
      if 255 <? Z.of_nat (length name) then ret (- ENAMETOOLONG, Some dir)
      else
        let entry_size := dirent_size (Z.of_nat (length name)) in
        let ft := EXT2_FT_of_type type in
        num <- num_blocks dir;
        ok <- call;
        if negb ok then ret (- ENOMEM, Some dir)
        else
          r <- add_blocks (Z.to_nat num) entry_size ino ft name dir 0;
          match r with
          | Some (r, dir) => ret (r, Some dir)
          | None =>
              phys_block <- ext2_alloc_block g num;
              if phys_block =? 0 then ret (- ENOSPC, Some dir)
              else
                buf <- lift (put_entry (replicate (Z.to_nat bs) 0) 0 ino (Some bs) ft name);
                r <- ext2_write_block g phys_block buf;
                if r <? 0 then ret (r, Some dir)
                else
                  w <- ext2_write_inode g (with_size (u32 (u32 (num + 1) * bs)) dir);
                  ret (0, Some w.2)
          end
  end.

(** ** Removing an entry *)

Fixpoint remove_blocks (n : nat) (name : list Z) (block_num : Z) : M Z :=
  match n with
  | O => ret (- ENOENT)
  | S n =>
      phys_block <- ext2_get_block g block_num;
      if phys_block =? 0 then remove_blocks n name (u32 (block_num + 1))
      else
        buf <- ext2_read_block g phys_block;
        match buf with
        | None => ret (- EIO)
        | Some buf =>
            r <- lift (remove_scan scan_fuel bs name None 0 buf);
            match r with
            | None => remove_blocks n name (u32 (block_num + 1))
            | Some buf => r <- ext2_write_block g phys_block buf; if r <? 0 then ret r else ret 0
            end
        end
  end.

Definition ext2_remove_entry (dir : option inode) (name : option (list Z)) : M Z :=
  match check_name dir name with
  | inr e => ret e
  | inl (dir, name) =>
      if 255 <? Z.of_nat (length name) then ret (- ENAMETOOLONG)
      else
        num <- num_blocks dir;
        ok <- call;
        if negb ok then ret (- ENOMEM) else remove_blocks (Z.to_nat num) name 0
  end.

(** ** Is a directory empty? *)

Fixpoint empty_blocks (n : nat) (block_num : Z) : M Z :=
  match n with
  | O => ret 1
  | S n =>
      phys_block <- ext2_get_block g block_num;
      if phys_block =? 0 then empty_blocks n (u32 (block_num + 1))
      else
        buf <- ext2_read_block g phys_block;
        match buf with
        | None => ret (- EIO)
        | Some buf =>
            e <- lift (empty_scan scan_fuel bs 0 buf);
            if (e : bool) then empty_blocks n (u32 (block_num + 1)) else ret 0
        end
  end.

Definition ext2_is_dir_empty (dir : option inode) : M Z :=
  match check_dir dir with
  | inr e => ret e
  | inl dir =>
      num <- num_blocks dir;
      ok <- call;
      if negb ok then ret (- ENOMEM) else empty_blocks (Z.to_nat num) 0
  end.

(** ** Looking a name up *)

(** An inode besides the one at hand, with the part of its [ext2_inode_info] that the
    state has for the latter. *)
Record vnode := mk_vnode { v_inode : inode; v_group : Z; v_data : list Z }.

(** [m] run on another inode than the one at hand. *)
Definition on {A} (v : vnode) (m : inode -> M (A * inode)) : M (A * vnode) :=
  fun s =>
    r ← m (v_inode v) (set_info (v_group v) (v_data v) s);
    let '(a, i, s') := r in
    Some (a, mk_vnode i (i_block_group s') (i_data s'), set_info (i_block_group s) (i_data s) s').

(** All bytes zero, with the number [ino]. *)
Definition zero_vnode (ino : Z) : vnode :=
  mk_vnode (mk_inode ino FILE_TYPE_REGULAR 0 0 0 0 0 0 0 0 0 0 0 0 0 0 None) 0 (replicate 15 0).

(** What [ext2_lookup] does with the entry it found. *)
Definition load_inode (ino : Z) : M (option vnode) :=
  ok <- call;
  if negb ok then ret None
  else
    ok <- call;
    if negb ok then ret None
    else
      r <- on (zero_vnode ino) (ext2_read_inode g);
      if r.1 <? 0 then ret None else ret (Some r.2).

Fixpoint lookup_blocks (n : nat) (name : list Z) (block_num : Z) : M (option vnode) :=
  match n with
  | O => ret None
  | S n =>
      phys_block <- ext2_get_block g block_num;
      if phys_block =? 0 then lookup_blocks n name (u32 (block_num + 1))
      else
        buf <- ext2_read_block g phys_block;
        match buf with
        | None => ret None
        | Some buf =>
            r <- lift (lookup_scan scan_fuel bs name 0 buf);
            match r with
            | None => lookup_blocks n name (u32 (block_num + 1))
            | Some ino => load_inode ino
            end
        end
  end.

Definition ext2_lookup (dir : option inode) (name : list Z) : M (option vnode) :=
  match check_dir dir with
  | inr _ => ret None
  | inl dir =>
      ok <- call;
      if negb ok then ret None
      else num <- num_blocks dir; lookup_blocks (Z.to_nat num) name 0
  end.

(** ** Reading a directory *)

(** [dirent_t]; the name is the array of 256 characters. *)
Record dirent := mk_dirent { d_inode : Z; d_type : Z; d_name : list Z }.
Definition sizeof_dirent : Z := 264.

Definition ext2_open_dir (has_inode : bool) (f : file) (flags : Z) : Z * file :=
  if negb has_inode then (- ENOENT, f)
  else match type (f_inode f) with
  | FILE_TYPE_DIRECTORY => (0, mk_file 0 flags (f_inode f))
  | _ => (- ENOTDIR, f)
  end.

(** [ext2_read_dir] has the statements of [ext2_read], with other messages. *)
Definition ext2_read_dir (f : file) (buffer : list Z) (size : Z) : M (Z * file * list Z) := ext2_read g f buffer size.

(** [ext2_readdir_dir] calls itself after a free entry. *)
Fixpoint ext2_readdir_dir (fuel : nat) (f : file) (d : dirent) : M (Z * file * dirent) :=
  match fuel with
  | O => lift None
  | S fuel =>
      if negb (has_flag (flags f) FILE_OPEN_READ) then ret (- EBADF, f, d)
      else if isize (f_inode f) <=? position f then ret (- ENOENT, f, d)
      else
        q <- divide (position f) bs;
        let start_block := u32 q.1 in
        let start_offset := u32 q.2 in
        ok <- call;
        if negb ok then ret (- ENOMEM, f, d)
        else
          phys_block <- ext2_get_block g start_block;
          buf <- fetch g phys_block;
          match buf with
          | None => ret (- EIO, f, d)
          | Some buf =>
              inode <- lift (get_inode buf start_offset);
              rec_len <- lift (get_rec_len buf start_offset);
              let f' := with_position (u64 (position f + rec_len)) f in
              if (inode =? 0) || (rec_len =? 0) then ext2_readdir_dir fuel f' d
              else
                name_len <- lift (get_name_len buf start_offset);
                ft <- lift (get_file_type buf start_offset);
                name <- lift (blit (d_name d) 0 buf (start_offset + 8) name_len);
                name <- lift (aset name name_len 0);
                ret (0, f', mk_dirent inode ft name)
          end
  end.

(** The result's third part is what is copied to [dirent_buf], if anything. *)
Definition ext2_readdir_file (fuel : nat) (f : option file) (has_inode has_buf : bool) (d : dirent) (count : Z)
    : M (Z * option file * option dirent) :=
  match f with
  | None => ret (- ENOENT, f, None)
  | Some f0 =>
      if negb has_inode then ret (- ENOTDIR, f, None)
      else match type (f_inode f0) with
      | FILE_TYPE_DIRECTORY =>
          if negb has_buf then ret (- EINVAL, f, None)
          else
            r <- ext2_readdir_dir fuel f0 d;
            let '(r, f0, d) := r in
            if r <? 0 then ret (r, Some f0, None)
            else if count <? sizeof_dirent then ret (- EINVAL, Some f0, None)
            else ret (sizeof_dirent, Some f0, Some d)
      | _ => ret (- ENOTDIR, f, None)
      end
  end.

End Operations.
End Ext2Dir.
