(* ===== verification/Ext2DirSpec.v ===== *)
(** The blocks of a directory as lists of entries, and the searches of [Ext2Dir] as
    functions on those lists. *)

From S2P Require Import Prelude Ext2 Ext2Inv Ext2Spec Ext2Map Ext2File Ext2FileSpec Ext2Dir.

Module Ext2DirSpec.
Import Ext2 Ext2Inv Ext2Spec Ext2Map Ext2File Ext2FileSpec Ext2Dir.
Local Open Scope ext2_scope.

(** ** Reading and writing in the middle of a buffer *)

Section Middle.
Context (P Q : list Z) (buf : list Z) (off : Z) (Hoff : off = Z.of_nat (length P)).

Lemma blit_mid old src : buf = P ++ old ++ Q -> length old = length src ->
  blit buf off src 0 (Z.of_nat (length src)) = Some (P ++ src ++ Q).
Proof.
  intros -> Hl. rewrite <-(app_nil_r src) at 1. by apply (blit_pieces P old Q [] src []).
Qed.

Lemma wr_mid n old v : buf = P ++ old ++ Q -> length old = n -> wr buf off n v = Some (P ++ le n v ++ Q).
Proof.
  intros Hb Hl. unfold wr. rewrite <-(le_length n v) at 2. apply (blit_mid old); [done|]. by rewrite le_length.
Qed.

Lemma rd_mid n v : buf = P ++ le n v ++ Q -> 0 <= v < 2 ^ (8 * Z.of_nat n) -> rd buf off n = Some v.
Proof.
  intros -> Hv. unfold rd. rewrite !length_app, le_length.
  destruct (Z.leb_spec 0 off), (Z.leb_spec (off + Z.of_nat n) (Z.of_nat (length P + (n + length Q)))); cbn [andb]; try lia.
  f_equal. unfold field. rewrite drop_app_length' by lia. rewrite take_app_length' by (by rewrite le_length).
  rewrite unle_le. by apply Z.mod_small.
Qed.
End Middle.

(** ** Entries *)

(** An entry with the bytes up to the next one. *)
Record rec := mk_rec { r_inode : Z; r_type : Z; r_nlen : Z; r_body : list Z }.

Definition rsize (e : rec) : Z := 8 + Z.of_nat (length (r_body e)).
Definition r_name (e : rec) : list Z := take (Z.to_nat (r_nlen e)) (r_body e).
Definition rbytes (e : rec) : list Z :=
  le 4 (r_inode e) ++ le 2 (rsize e) ++ le 1 (r_nlen e) ++ le 1 (r_type e) ++ r_body e.

(** The fields fit their width and the name lies in the entry. *)
Record rec_ok (e : rec) : Prop := {
  ro_inode : 0 <= r_inode e < 2 ^ 32;
  ro_type : 0 <= r_type e < 2 ^ 8;
  ro_nlen : 0 <= r_nlen e < 2 ^ 8;
  ro_name : r_nlen e <= Z.of_nat (length (r_body e));
  ro_size : rsize e < 2 ^ 16
}.

Definition layout (es : list rec) : list Z := mjoin (rbytes <$> es).
Definition total_size (es : list rec) : Z := Z.of_nat (length (layout es)).

Lemma rbytes_length e : Z.of_nat (length (rbytes e)) = rsize e.
Proof. unfold rbytes, rsize. rewrite !length_app, !le_length. lia. Qed.

Lemma layout_cons e es : layout (e :: es) = rbytes e ++ layout es.
Proof. done. Qed.

Lemma layout_app es1 es2 : layout (es1 ++ es2) = layout es1 ++ layout es2.
Proof. unfold layout. by rewrite fmap_app, join_app. Qed.

Lemma total_size_app es1 es2 : total_size (es1 ++ es2) = total_size es1 + total_size es2.
Proof. unfold total_size. rewrite layout_app, length_app. lia. Qed.

Lemma total_size_cons e es : total_size (e :: es) = rsize e + total_size es.
Proof. unfold total_size. rewrite layout_cons, length_app, <-rbytes_length. lia. Qed.

Lemma total_size_nil : total_size [] = 0.
Proof. done. Qed.

Lemma total_size_nonneg es : 0 <= total_size es.
Proof. unfold total_size. lia. Qed.

Lemma rsize_ge e : 8 <= rsize e.
Proof. unfold rsize. lia. Qed.

Hint Rewrite total_size_app total_size_cons total_size_nil : dirsize.
Ltac sizes := autorewrite with dirsize in *.

(** [buf] holds the entries [pre], then [e], then [post]. *)
Section Here.
Context (pre post : list rec) (e : rec) (He : rec_ok e).
Notation buf := (layout (pre ++ e :: post)).
Notation off := (total_size pre).

Ltac here He := unfold total_size; rewrite ?layout_app, ?layout_cons, ?length_app, ?le_length; unfold rbytes;
  rewrite <-?app_assoc; first [reflexivity | lia | apply He | idtac].

Lemma here_inode : get_inode buf off = Some (r_inode e).
Proof. unfold get_inode. eapply (rd_mid (layout pre)); here He. Qed.

Lemma here_rec_len : get_rec_len buf off = Some (rsize e).
Proof.
  unfold get_rec_len. pose proof (rsize_ge e).
  eapply (rd_mid (layout pre ++ le 4 (r_inode e))); here He. split; [lia|apply He].
Qed.

Lemma here_name_len : get_name_len buf off = Some (r_nlen e).
Proof. unfold get_name_len. eapply (rd_mid (layout pre ++ le 4 (r_inode e) ++ le 2 (rsize e))); here He. Qed.

Lemma here_file_type : get_file_type buf off = Some (r_type e).
Proof. unfold get_file_type. eapply (rd_mid (layout pre ++ le 4 (r_inode e) ++ le 2 (rsize e) ++ le 1 (r_nlen e))); here He. Qed.

Lemma here_body j c : 0 <= j -> r_body e !! Z.to_nat j = Some c -> aget buf (off + 8 + j) = Some c.
Proof.
  intros Hj Hc. rewrite aget_nat by (unfold total_size; lia).
  replace buf with ((layout pre ++ le 4 (r_inode e) ++ le 2 (rsize e) ++ le 1 (r_nlen e) ++ le 1 (r_type e)) ++ r_body e ++ layout post)
    by here He.
  rewrite lookup_app_r; rewrite !length_app, !le_length; unfold total_size; [|lia].
  rewrite lookup_app_l; [rewrite <-Hc; f_equal; lia|]. apply lookup_lt_Some in Hc. lia.
Qed.
End Here.

(** ** Names *)

Definition name_ok (name : list Z) : Prop := Forall (fun c => 0 < c < 2 ^ 8) name.

Lemma same_name_ok b name buf p : name_ok name -> length b = length name ->
  (forall i c, b !! i = Some c -> aget buf (p + Z.of_nat i) = Some c) ->
  same_name (length name) buf p name = Some (bool_decide (b = name)).
Proof.
  intros Hn. revert b p. induction Hn as [|c name Hc Hn IH]; intros [|a b] p Hl Hb; try done; cbn [length same_name].
  pose proof (Hb 0%nat a eq_refl) as Ha. rewrite Z.add_0_r in Ha. rewrite Ha, bind_Some_l. change (default 0 (head (c :: name))) with c. cbn [tail].
  destruct (Z.eqb_spec a c) as [->|Hne].
  - destruct (Z.eqb_spec c 0); [lia|]. cbn [negb andb]. rewrite (IH b); [|by injection Hl|].
    + f_equal. apply bool_decide_ext. naive_solver.
    + intros i d Hi. rewrite <-(Hb (S i) d Hi). f_equal. lia.
  - rewrite andb_false_r, bool_decide_eq_false_2 by naive_solver. done.
Qed.

(** The comparison [ext2_remove_entry] and [ext2_lookup] make. *)
Definition hit (name : list Z) (e : rec) : bool := negb (r_inode e =? 0) && bool_decide (r_name e = name).

Lemma r_name_length e : rec_ok e -> Z.of_nat (length (r_name e)) = r_nlen e.
Proof. intros [_ _ H1 H2 _]. unfold r_name. rewrite length_take. lia. Qed.

Lemma compare_ok pre post e name n : rec_ok e -> name_ok name -> n = r_nlen e ->
  (if n =? Z.of_nat (length name) then same_name (length name) (layout (pre ++ e :: post)) (total_size pre + 8) name
   else Some false) = Some (bool_decide (r_name e = name)).
Proof.
  intros He Hn ->. pose proof (r_name_length e He) as Hl. destruct (Z.eqb_spec (r_nlen e) (Z.of_nat (length name))) as [E|E].
  - apply same_name_ok; [done|lia|]. intros i c Hi. apply here_body; [lia|]. rewrite Nat2Z.id.
    unfold r_name in Hi. by apply lookup_take_Some in Hi as [? _].
  - rewrite bool_decide_eq_false_2; [done|]. intros <-. lia.
Qed.

(** ** The searches as functions on lists of entries *)

Definition live_of (e : rec) : list (list Z * (Z * Z)) :=
  if r_inode e =? 0 then [] else [(r_name e, (r_inode e, r_type e))].
Definition live (es : list rec) : list (list Z * (Z * Z)) := mjoin (live_of <$> es).

(** Room for a name of [n] characters in an entry, and the entry's own needs. *)
Definition used (e : rec) : Z := dirent_size (r_nlen e).

Definition fill (e : rec) (ino ft : Z) (name : list Z) : rec :=
  mk_rec ino ft (Z.of_nat (length name)) (name ++ drop (length name) (r_body e)).
Definition split (e : rec) (ino ft : Z) (name : list Z) : list rec :=
  [mk_rec (r_inode e) (r_type e) (r_nlen e) (take (Z.to_nat (used e - 8)) (r_body e));
   mk_rec ino ft (Z.of_nat (length name)) (name ++ drop (Z.to_nat (used e) + length name) (r_body e))].

Fixpoint add_rec (ino ft : Z) (name : list Z) (es : list rec) : option (list rec) :=
  match es with
  | [] => None
  | e :: es =>
      if r_inode e =? 0 then Some (fill e ino ft name :: es)
      else if dirent_size (Z.of_nat (length name)) + used e <=? rsize e then Some (split e ino ft name ++ es)
      else (e ::.) <$> add_rec ino ft name es
  end.

(** [p] is the entry before [es], if there is one; it is part of the result. *)
Definition merge (p e : rec) : rec := mk_rec (r_inode p) (r_type p) (r_nlen p) (r_body p ++ rbytes e).
Definition kill (e : rec) : rec := mk_rec 0 (r_type e) (r_nlen e) (r_body e).

Fixpoint remove_rec (name : list Z) (p : option rec) (es : list rec) : option (list rec) :=
  match es with
  | [] => None
  | e :: es =>
      if hit name e then Some (match p with Some p => merge p e | None => kill e end :: es)
      else (option_list p ++.) <$> remove_rec name (Some e) es
  end.

Fixpoint find_rec (name : list Z) (es : list rec) : option Z :=
  match es with
  | [] => None
  | e :: es => if hit name e then Some (r_inode e) else find_rec name es
  end.

(** ["."] and [".."] *)
Definition dots (name : list Z) : bool := bool_decide (name = [46]) || bool_decide (name = [46; 46]).
Definition empty_rec (es : list rec) : bool := forallb (fun e => (r_inode e =? 0) || dots (r_name e)) es.

(** ** The loops compute those functions *)

Lemma dirent_size_eq n : 0 <= n -> dirent_size n = 4 * ((12 + n) / 4).
Proof.
  intros Hn. unfold dirent_size, sizeof_dir_entry. replace (264 - 255 + n + 3) with (12 + n) by lia.
  rewrite <-Z.ldiff_land. change 3 with (Z.ones 2). rewrite Z.ldiff_ones_r, Z.shiftl_mul_pow2, Z.shiftr_div_pow2 by lia. change (2 ^ 2) with 4. lia.
Qed.

Lemma dirent_size_range n : 0 <= n -> 9 + n <= dirent_size n <= 12 + n.
Proof.
  intros Hn. rewrite dirent_size_eq by done. pose proof (Z.div_mod (12 + n) 4). pose proof (Z.mod_pos_bound (12 + n) 4). lia.
Qed.

Lemma put_header_ok P Q buf e h ino rl nl ft : buf = P ++ h ++ Q -> e = Z.of_nat (length P) -> length h = 8%nat ->
  put_header buf e ino (Some rl) nl ft = Some (P ++ le 4 ino ++ le 2 rl ++ le 1 nl ++ le 1 ft ++ Q).
Proof.
  intros -> -> Hh. unfold put_header.
  destruct h as [|h0 [|h1 [|h2 [|h3 [|h4 [|h5 [|h6 [|h7 [|??]]]]]]]]]; try discriminate.
  rewrite (wr_mid P ([h4;h5;h6;h7] ++ Q) _ _ eq_refl 4 [h0;h1;h2;h3]), bind_Some_l by done.
  rewrite (wr_mid (P ++ le 4 ino) ([h6;h7] ++ Q)) with (old := [h4;h5]), bind_Some_l;
    [|rewrite length_app, le_length; lia|by rewrite <-app_assoc|done].
  rewrite (wr_mid (P ++ le 4 ino ++ le 2 rl) ([h7] ++ Q)) with (old := [h6]), bind_Some_l;
    [|rewrite !length_app, !le_length; lia|by rewrite <-!app_assoc|done].
  erewrite (wr_mid (P ++ le 4 ino ++ le 2 rl ++ le 1 nl) Q) with (old := [h7]);
    [by rewrite <-!app_assoc|rewrite !length_app, !le_length; lia|by rewrite <-!app_assoc|done].
Qed.

(** Keeping the length is writing the old one. *)
Lemma put_header_keep P Q buf e x rl a b ino nl ft : buf = P ++ le 4 x ++ le 2 rl ++ le 1 a ++ le 1 b ++ Q ->
  e = Z.of_nat (length P) -> put_header buf e ino None nl ft = put_header buf e ino (Some rl) nl ft.
Proof.
  intros Hb He. unfold put_header.
  rewrite (wr_mid P (le 2 rl ++ le 1 a ++ le 1 b ++ Q) _ _ He 4 (le 4 x)), !bind_Some_l by done.
  rewrite (wr_mid (P ++ le 4 ino) (le 1 a ++ le 1 b ++ Q) _ (e + 4)) with (old := le 2 rl), !bind_Some_l;
    [by rewrite <-app_assoc|rewrite length_app, le_length; lia|by rewrite <-app_assoc|done].
Qed.

Lemma put_entry_ok P Q B buf e h ino rl ft name : buf = P ++ h ++ B ++ Q -> e = Z.of_nat (length P) -> length h = 8%nat ->
  length B = length name ->
  put_entry buf e ino (Some rl) ft name =
    Some (P ++ le 4 ino ++ le 2 rl ++ le 1 (Z.of_nat (length name)) ++ le 1 ft ++ name ++ Q).
Proof.
  intros Hb He Hh HB. unfold put_entry. rewrite (put_header_ok P (B ++ Q) buf e h) by done. rewrite bind_Some_l.
  erewrite (blit_mid (P ++ le 4 ino ++ le 2 rl ++ le 1 (Z.of_nat (length name)) ++ le 1 ft) Q) with (old := B);
    [by rewrite <-!app_assoc|rewrite !length_app, !le_length; lia|by rewrite <-!app_assoc|done].
Qed.

Lemma put_entry_keep P Q B buf e x rl a b ino ft name :
  buf = P ++ le 4 x ++ le 2 rl ++ le 1 a ++ le 1 b ++ B ++ Q -> e = Z.of_nat (length P) -> length B = length name ->
  put_entry buf e ino None ft name =
    Some (P ++ le 4 ino ++ le 2 rl ++ le 1 (Z.of_nat (length name)) ++ le 1 ft ++ name ++ Q).
Proof.
  intros Hb He HB. rewrite <-(put_entry_ok P Q B buf e (le 4 x ++ le 2 rl ++ le 1 a ++ le 1 b));
    [|by rewrite <-!app_assoc|done|done|done].
  unfold put_entry. by rewrite (put_header_keep P (B ++ Q) buf e x rl a b).
Qed.

Section Add.
Context (ino ft : Z) (name : list Z) (Hname : Z.of_nat (length name) < 2 ^ 8).

(** A free entry that can hold the name: the code does not check it. *)
Definition holds_name (e : rec) : Prop := r_inode e = 0 -> Z.of_nat (length name) <= Z.of_nat (length (r_body e)).

Lemma fill_here pre e post : holds_name e -> r_inode e = 0 ->
  put_entry (layout (pre ++ e :: post)) (total_size pre) ino None ft name = Some (layout (pre ++ fill e ino ft name :: post)).
Proof.
  intros Hh H0. specialize (Hh H0). rewrite layout_app, layout_cons.
  rewrite (put_entry_keep (layout pre) (drop (length name) (r_body e) ++ layout post) (take (length name) (r_body e)) _ _
    (r_inode e) (rsize e) (r_nlen e) (r_type e)); [|unfold rbytes; by rewrite <-!app_assoc, (app_assoc (take _ _)), take_drop|done|rewrite length_take; lia].
  rewrite layout_app, layout_cons. unfold rbytes, fill, rsize. cbn [r_inode r_type r_nlen r_body].
  rewrite length_app, length_drop, <-!app_assoc. do 4 f_equal. f_equal. lia.
Qed.

Lemma split_here pre e post : rec_ok e -> dirent_size (Z.of_nat (length name)) + used e <= rsize e ->
  (buf ← wr (layout (pre ++ e :: post)) (total_size pre + 4) 2 (used e);
   put_entry buf (total_size pre + used e) ino (Some (rsize e - used e)) ft name)
  = Some (layout (pre ++ split e ino ft name ++ post)).
Proof.
  intros He Hfit. pose proof (dirent_size_range (Z.of_nat (length name)) ltac:(lia)).
  pose proof (dirent_size_range (r_nlen e) ltac:(apply He)) as Hu. fold (used e) in Hu. pose proof (ro_nlen e He).
  unfold rsize in Hfit. rewrite layout_app, layout_cons.
  rewrite (wr_mid (layout pre ++ le 4 (r_inode e)) (le 1 (r_nlen e) ++ le 1 (r_type e) ++ r_body e ++ layout post)) with (old := le 2 (rsize e)), bind_Some_l;
    [|rewrite length_app, le_length; unfold total_size; lia|unfold rbytes; by rewrite <-!app_assoc|done].
  set (k := Z.to_nat (used e - 8)). set (body := r_body e) in *.
  rewrite (put_entry_ok (layout pre ++ le 4 (r_inode e) ++ le 2 (used e) ++ le 1 (r_nlen e) ++ le 1 (r_type e) ++ take k body)
    (drop (Z.to_nat (used e) + length name) body ++ layout post) (take (length name) (drop (k + 8) body)) _ _ (take 8 (drop k body))).
  - unfold split. cbn [app]. rewrite layout_app, !layout_cons. unfold rbytes, rsize.
    cbn [r_inode r_type r_nlen r_body]. fold k body. rewrite length_take, length_app, length_drop, <-!app_assoc.
    replace (8 + Z.of_nat (k `min` length body)) with (used e) by lia.
    replace (8 + Z.of_nat (length name + (length body - (Z.to_nat (used e) + length name)))) with (8 + Z.of_nat (length body) - used e) by lia.
    done.
  - rewrite <-!app_assoc. do 5 f_equal. rewrite <-(take_drop k body) at 1. rewrite <-app_assoc. f_equal.
    rewrite <-(take_drop 8 (drop k body)) at 1. rewrite <-app_assoc, drop_drop. f_equal.
    rewrite <-(take_drop (length name) (drop (k + 8) body)) at 1. rewrite <-app_assoc, drop_drop. do 3 f_equal. lia.
  - rewrite !length_app, !le_length, length_take. unfold total_size. lia.
  - rewrite length_take, length_drop. lia.
  - rewrite length_take, length_drop. lia.
Qed.

Lemma add_scan_ok bs fuel pre es : Forall rec_ok es -> Forall holds_name es -> total_size pre + total_size es = bs -> bs < 2 ^ 16 ->
  (Z.to_nat (total_size es) < fuel)%nat ->
  add_scan fuel bs (dirent_size (Z.of_nat (length name))) ino ft name (total_size pre) (layout (pre ++ es))
    = Some ((fun es' => layout (pre ++ es')) <$> add_rec ino ft name es).
Proof.
  intros Hok. revert pre fuel. induction Hok as [|e es He Hok IH]; intros pre fuel Hh Hs Hbs Hfuel; (destruct fuel as [|fuel]; [lia|]);
    cbn [add_scan add_rec].
  - sizes. destruct (Z.ltb_spec (total_size pre) bs); [lia|]. done.
  - inversion_clear Hh as [|?? Hhe Hhs]. sizes. pose proof (rsize_ge e). pose proof (total_size_nonneg es). pose proof (total_size_nonneg pre).
    destruct (Z.ltb_spec (total_size pre) bs); [|lia].
    rewrite here_inode, bind_Some_l, here_rec_len, bind_Some_l, here_name_len, bind_Some_l by done. fold (used e).
    destruct (Z.eqb_spec (r_inode e) 0) as [Hz|Hz]; cbn [orb negb].
    + by rewrite (fill_here pre e es Hhe Hz).
    + pose proof (dirent_size_range (Z.of_nat (length name)) ltac:(lia)).
      pose proof (dirent_size_range (r_nlen e) ltac:(apply He)) as Hu. fold (used e) in Hu. pose proof (ro_nlen e He).
      rewrite u32_small by lia. destruct (Z.leb_spec (dirent_size (Z.of_nat (length name)) + used e) (rsize e)) as [Hle|Hle].
      * rewrite u32_small by lia. rewrite (split_here pre e es He Hle). done.
      * rewrite u32_small by lia. replace (total_size pre + rsize e) with (total_size (pre ++ [e])) by (sizes; lia).
        replace (pre ++ e :: es) with ((pre ++ [e]) ++ es) by (by rewrite <-app_assoc).
        rewrite IH; [|done|sizes; lia|done|lia]. f_equal. destruct (add_rec ino ft name es); [|done].
        cbn [fmap option_fmap option_map]. by rewrite <-app_assoc.
Qed.
End Add.

(** What adding does to the list: the entries stay well formed and fill the block, and
    the names gain one. *)
Lemma live_cons e es : live (e :: es) = live_of e ++ live es.
Proof. done. Qed.

Lemma live_app es1 es2 : live (es1 ++ es2) = live es1 ++ live es2.
Proof. unfold live. by rewrite fmap_app, join_app. Qed.

Lemma live_of_live e : r_inode e <> 0 -> live_of e = [(r_name e, (r_inode e, r_type e))].
Proof. intros H. unfold live_of. by destruct (Z.eqb_spec (r_inode e) 0). Qed.

Lemma live_of_free e : r_inode e = 0 -> live_of e = [].
Proof. intros H. unfold live_of. by rewrite H. Qed.

Definition fits (es es' : list rec) : Prop := Forall rec_ok es' /\ total_size es' = total_size es.

Section AddRec.
Context (ino ft : Z) (name : list Z) (Hino : 1 <= ino < 2 ^ 32) (Hft : 0 <= ft < 2 ^ 8) (Hname : Z.of_nat (length name) < 2 ^ 8).

Lemma fill_rec e : rec_ok e -> holds_name name e -> r_inode e = 0 ->
  rec_ok (fill e ino ft name) /\ rsize (fill e ino ft name) = rsize e /\
  live_of (fill e ino ft name) = [(name, (ino, ft))].
Proof.
  intros He Hh H0. specialize (Hh H0). pose proof (ro_size e He) as Hs. unfold rsize in Hs.
  assert (length (name ++ drop (length name) (r_body e)) = length (r_body e)) as Hl by (rewrite length_app, length_drop; lia).
  split; [|split].
  - split; cbn; rewrite ?Hl; try lia. unfold rsize. cbn. rewrite Hl. lia.
  - unfold rsize. cbn. by rewrite Hl.
  - rewrite live_of_live by (cbn; lia). unfold r_name. cbn. by rewrite Nat2Z.id, take_app_length.
Qed.

Lemma split_rec e : rec_ok e -> dirent_size (Z.of_nat (length name)) + used e <= rsize e -> r_inode e <> 0 ->
  Forall rec_ok (split e ino ft name) /\ total_size (split e ino ft name) = rsize e /\
  live (split e ino ft name) = live_of e ++ [(name, (ino, ft))].
Proof.
  intros He Hfit H0. pose proof (dirent_size_range (Z.of_nat (length name)) ltac:(lia)).
  pose proof (dirent_size_range (r_nlen e) ltac:(apply He)) as Hu. fold (used e) in Hu. destruct He as [H1 H2 H3 H4 H5].
  unfold rsize in H5, Hfit. unfold split. set (k := Z.to_nat (used e - 8)).
  assert (length (take k (r_body e)) = k) as Hl1 by (rewrite length_take; lia).
  assert (length (name ++ drop (Z.to_nat (used e) + length name) (r_body e)) = (length (r_body e) - Z.to_nat (used e))%nat) as Hl2
    by (rewrite length_app, length_drop; lia).
  split; [|split].
  - apply Forall_cons; split; [|apply Forall_singleton]; split; cbn; rewrite ?Hl1, ?Hl2; try lia; unfold rsize; cbn; lia.
  - sizes. unfold rsize. cbn. lia.
  - rewrite !live_cons, live_of_live by done. cbn [r_inode r_type].
    rewrite (live_of_live (mk_rec ino _ _ _)) by (cbn; lia). rewrite (live_of_live e) by done. unfold r_name. cbn [r_nlen r_body r_inode r_type].
    rewrite Nat2Z.id, take_app_length, take_take. replace (Z.to_nat (r_nlen e) `min` k)%nat with (Z.to_nat (r_nlen e)) by lia. done.
Qed.

Lemma add_rec_ok es es' : Forall rec_ok es -> Forall (holds_name name) es -> add_rec ino ft name es = Some es' ->
  fits es es' /\ live es' ≡ₚ (name, (ino, ft)) :: live es.
Proof.
  intros Hok. revert es'. induction Hok as [|e es He Hok IH]; intros es' Hh; cbn [add_rec]; [done|].
  inversion_clear Hh as [|?? Hhe Hhs]. destruct (Z.eqb_spec (r_inode e) 0) as [H0|H0].
  - intros [= <-]. destruct (fill_rec e He Hhe H0) as (H1 & H2 & H3). split; [split; [by constructor|sizes; lia]|].
    rewrite !live_cons, H3, (live_of_free e) by done. done.
  - destruct (Z.leb_spec (dirent_size (Z.of_nat (length name)) + used e) (rsize e)) as [Hle|Hle].
    + intros [= <-]. destruct (split_rec e He Hle H0) as (H1 & H2 & H3). change (?a :: ?b :: es) with ([a; b] ++ es).
      fold (split e ino ft name). split; [split; [by apply Forall_app|sizes; lia]|].
      rewrite live_app, H3, live_cons, <-app_assoc. cbn [app]. symmetry. apply Permutation_middle.
    + intros (es1 & E & ->)%fmap_Some. destruct (IH _ Hhs E) as [[H1 H2] H3]. split; [split; [by constructor|sizes; lia]|].
      rewrite !live_cons, H3. symmetry. apply Permutation_middle.
Qed.
End AddRec.

(** ** Removing *)

Lemma remove_scan_ok bs name fuel pre p es : name_ok name -> Forall rec_ok (option_list p ++ es) ->
  total_size pre + total_size (option_list p ++ es) = bs -> bs < 2 ^ 16 -> (Z.to_nat (total_size es) < fuel)%nat ->
  remove_scan fuel bs name ((fun _ => total_size pre) <$> p) (total_size (pre ++ option_list p)) (layout (pre ++ option_list p ++ es))
    = Some ((fun es' => layout (pre ++ es')) <$> remove_rec name p es).
Proof.
  intros Hn. revert pre p fuel. induction es as [|e es IH]; intros pre p fuel Hok Hs Hbs Hfuel; (destruct fuel as [|fuel]; [lia|]);
    cbn [remove_scan remove_rec].
  - rewrite app_nil_r in *. sizes. destruct (Z.ltb_spec (total_size pre + total_size (option_list p)) bs); [lia|]. done.
  - pose proof Hok as [Hp [He Hes]%Forall_cons]%Forall_app. sizes. pose proof (rsize_ge e). pose proof (total_size_nonneg es).
    pose proof (total_size_nonneg pre). pose proof (total_size_nonneg (option_list p)).
    destruct (Z.ltb_spec (total_size pre + total_size (option_list p)) bs); [|lia]. rewrite <-total_size_app, app_assoc.
    rewrite here_inode, bind_Some_l, here_rec_len, bind_Some_l, here_name_len, bind_Some_l by done.
    replace (if negb (r_inode e =? 0) && (r_nlen e =? Z.of_nat (length name)) then _ else _) with (Some (hit name e)).
    2: { unfold hit. destruct (r_inode e =? 0); [done|]. cbn [negb andb]. symmetry. by apply compare_ok. }
    rewrite bind_Some_l. destruct (hit name e).
    + destruct p as [p|]; cbn [fmap option_fmap option_map] in *.
      * change (option_list (Some p)) with [p] in *. apply Forall_cons in Hp as [Hp _]. rewrite <-app_assoc. cbn [app]. rewrite here_rec_len, bind_Some_l by done.
        rewrite layout_app, layout_cons.
        rewrite (wr_mid (layout pre ++ le 4 (r_inode p)) (le 1 (r_nlen p) ++ le 1 (r_type p) ++ r_body p ++ layout (e :: es))) with (old := le 2 (rsize p)), bind_Some_l;
          [|rewrite length_app, le_length; unfold total_size; lia|unfold rbytes; by rewrite <-!app_assoc|done].
        rewrite layout_app, !layout_cons. unfold rbytes at 2, merge, rsize at 3. cbn [r_inode r_type r_nlen r_body].
        rewrite length_app. replace (8 + Z.of_nat (length (r_body p) + length (rbytes e))) with (rsize p + rsize e)
          by (unfold rsize at 1; rewrite <-rbytes_length; lia). by rewrite <-!app_assoc.
      * change (option_list (@None rec)) with (@nil rec) in *. rewrite app_nil_r in *. rewrite layout_app, layout_cons.
        rewrite (wr_mid (layout pre) (le 2 (rsize e) ++ le 1 (r_nlen e) ++ le 1 (r_type e) ++ r_body e ++ layout es)) with (old := le 4 (r_inode e)), bind_Some_l;
          [|done|unfold rbytes; by rewrite <-!app_assoc|done].
        rewrite layout_app, layout_cons. unfold rbytes, kill, rsize. cbn [r_inode r_type r_nlen r_body]. by rewrite <-!app_assoc.
    + specialize (IH (pre ++ option_list p) (Some e) fuel). change (option_list (Some e)) with [e] in IH. cbn [fmap option_fmap option_map app] in IH.
      rewrite u32_small by (sizes; lia). replace (total_size (pre ++ option_list p) + rsize e) with (total_size ((pre ++ option_list p) ++ [e])) by (sizes; lia).
      rewrite IH; [|by constructor|sizes; lia|done|sizes; lia]. f_equal. destruct (remove_rec name (Some e) es); [|done].
      cbn [fmap option_fmap option_map]. by rewrite <-app_assoc.
Qed.

Definition names (es : list rec) : list (list Z) := fst <$> live es.

Lemma names_cons e es : names (e :: es) = (fst <$> live_of e) ++ names es.
Proof. unfold names. by rewrite live_cons, fmap_app. Qed.

Lemma hit_true name e : hit name e = true <-> r_inode e <> 0 /\ r_name e = name.
Proof. unfold hit. rewrite andb_true_iff, negb_true_iff, Z.eqb_neq, bool_decide_eq_true. done. Qed.

(** An entry that is not hit does not have the name. *)
Lemma hit_false name e : hit name e = false -> name ∉ fst <$> live_of e.
Proof.
  unfold hit, live_of. destruct (r_inode e =? 0); cbn; [intros _ []%elem_of_nil|].
  rewrite bool_decide_eq_false. intros H ->%list_elem_of_singleton. done.
Qed.

Lemma merge_ok p e : rec_ok p -> rsize p + rsize e < 2 ^ 16 ->
  rec_ok (merge p e) /\ rsize (merge p e) = rsize p + rsize e /\ live_of (merge p e) = live_of p.
Proof.
  intros [H1 H2 H3 H4 H5] Hs. pose proof (rbytes_length e) as Hl.
  assert (rsize (merge p e) = rsize p + rsize e) as Hr.
  { rewrite <-Hl. unfold rsize. cbn [r_body merge]. rewrite length_app. lia. }
  split; [split; [exact H1|exact H2|exact H3|cbn; rewrite length_app; lia|lia]|]. split; [done|].
  unfold live_of. cbn. destruct (r_inode p =? 0); [done|]. unfold r_name. cbn. rewrite take_app_le by lia. done.
Qed.

Lemma kill_ok e : rec_ok e -> rec_ok (kill e) /\ rsize (kill e) = rsize e /\ live_of (kill e) = [].
Proof. intros [H1 H2 H3 H4 H5]. split; [by split; cbn|]. done. Qed.

Lemma remove_rec_ok name p es es' : Forall rec_ok (option_list p ++ es) -> total_size (option_list p ++ es) < 2 ^ 16 ->
  remove_rec name p es = Some es' ->
  fits (option_list p ++ es) es' /\ exists ino ft, live (option_list p ++ es) ≡ₚ (name, (ino, ft)) :: live es'.
Proof.
  revert p es'. induction es as [|e es IH]; intros p es' Hok Hs; cbn [remove_rec]; [done|].
  pose proof Hok as [Hp [He Hes]%Forall_cons]%Forall_app. pose proof (total_size_nonneg es).
  destruct (hit name e) eqn:Eh.
  - apply hit_true in Eh as [H0 Hn]. intros [= <-]. destruct p as [p|].
    + change (option_list (Some p)) with [p] in *. cbn [app] in *. sizes. apply Forall_cons in Hp as [Hp _].
      destruct (merge_ok p e Hp) as (M1 & M2 & M3); [lia|]. split; [split; [by constructor|sizes; lia]|].
      exists (r_inode e), (r_type e). rewrite !live_cons, M3, (live_of_live e H0), Hn. cbn [app]. symmetry. apply Permutation_middle.
    + change (option_list (@None rec)) with (@nil rec) in *. cbn [app] in *. sizes. destruct (kill_ok e He) as (K1 & K2 & K3).
      split; [split; [by constructor|sizes; lia]|]. exists (r_inode e), (r_type e).
      by rewrite !live_cons, K3, (live_of_live e H0), Hn.
  - intros (es1 & E & ->)%fmap_Some. specialize (IH (Some e) es1). change (option_list (Some e)) with [e] in IH. cbn [app] in IH.
    sizes. pose proof (total_size_nonneg (option_list p)). destruct IH as [[I1 I2] (ino & ft & I3)]; [by constructor|lia|done|]. sizes.
    split; [split; [by apply Forall_app|sizes; lia]|]. exists ino, ft. rewrite !live_app, I3. symmetry. apply Permutation_middle.
Qed.

Lemma remove_rec_None name p es : remove_rec name p es = None -> name ∉ names es.
Proof.
  revert p. induction es as [|e es IH]; intros p; cbn [remove_rec]; [intros _ []%elem_of_nil|].
  destruct (hit name e) eqn:Eh; [done|]. intros H%fmap_None. rewrite names_cons, not_elem_of_app. split; [by apply hit_false|by apply (IH (Some e))].
Qed.

(** ** Looking up *)

Lemma lookup_scan_ok bs name fuel pre es : name_ok name -> Forall rec_ok es -> total_size pre + total_size es = bs -> bs < 2 ^ 16 ->
  (Z.to_nat (total_size es) < fuel)%nat ->
  lookup_scan fuel bs name (total_size pre) (layout (pre ++ es)) = Some (find_rec name es).
Proof.
  intros Hn Hok. revert pre fuel. induction Hok as [|e es He Hok IH]; intros pre fuel Hs Hbs Hfuel; (destruct fuel as [|fuel]; [lia|]);
    cbn [lookup_scan find_rec].
  - sizes. by destruct (Z.ltb_spec (total_size pre) bs); [lia|].
  - sizes. pose proof (rsize_ge e). pose proof (total_size_nonneg es). pose proof (total_size_nonneg pre).
    destruct (Z.ltb_spec (total_size pre) bs); [|lia].
    assert (lookup_scan fuel bs name (u32 (total_size pre + rsize e)) (layout (pre ++ e :: es)) = Some (find_rec name es)) as Hrest.
    { rewrite u32_small by lia. replace (total_size pre + rsize e) with (total_size (pre ++ [e])) by (sizes; lia).
      replace (pre ++ e :: es) with ((pre ++ [e]) ++ es) by (by rewrite <-app_assoc). apply IH; [sizes; lia|done|lia]. }
    rewrite here_inode, bind_Some_l, here_rec_len, bind_Some_l by done. unfold hit.
    destruct (Z.eqb_spec (r_inode e) 0), (Z.eqb_spec (rsize e) 0); cbn [orb negb andb]; try lia; [done|].
    rewrite here_name_len, bind_Some_l by done.
    replace (if r_nlen e =? Z.of_nat (length name) then _ else _) with (Some (bool_decide (r_name e = name))).
    2: { rewrite <-(compare_ok pre es e name (r_nlen e) He Hn eq_refl). destruct (Z.eqb_spec (r_nlen e) (Z.of_nat (length name))) as [->|]; [|done].
         by rewrite Nat2Z.id. }
    rewrite bind_Some_l. by case_bool_decide.
Qed.

Lemma find_rec_Some name es ino : find_rec name es = Some ino -> exists ft, (name, (ino, ft)) ∈ live es.
Proof.
  induction es as [|e es IH]; cbn [find_rec]; [done|]. rewrite live_cons. destruct (hit name e) eqn:Eh.
  - intros [= <-]. apply hit_true in Eh as [H0 Hn]. exists (r_type e). rewrite live_of_live, Hn by done. set_solver.
  - intros [ft H]%IH. exists ft. set_solver.
Qed.

Lemma find_rec_None name es : find_rec name es = None -> name ∉ names es.
Proof.
  induction es as [|e es IH]; cbn [find_rec]; [intros _ []%elem_of_nil|]. destruct (hit name e) eqn:Eh; [done|].
  intros H. rewrite names_cons, not_elem_of_app. split; [by apply hit_false|by apply IH].
Qed.

(** ** The test for emptiness *)

Lemma dots_ok pre post e : rec_ok e ->
  (if r_nlen e =? 1 then c ← aget (layout (pre ++ e :: post)) (total_size pre + 8); Some (c =? 46)
   else if r_nlen e =? 2 then
     c ← aget (layout (pre ++ e :: post)) (total_size pre + 8);
     if c =? 46 then d ← aget (layout (pre ++ e :: post)) (total_size pre + 9); Some (d =? 46) else Some false
   else Some false) = Some (dots (r_name e)).
Proof.
  intros He. pose proof (r_name_length e He) as Hl. pose proof (ro_name e He) as Hn.
  assert (forall i c, r_name e !! i = Some c -> aget (layout (pre ++ e :: post)) (total_size pre + 8 + Z.of_nat i) = Some c) as Hc.
  { intros i c Hi. apply here_body; [lia|]. rewrite Nat2Z.id. unfold r_name in Hi. by apply lookup_take_Some in Hi as [? _]. }
  unfold dots. destruct (r_name e) as [|a [|b [|??]]]; cbn [length] in Hl;
    destruct (Z.eqb_spec (r_nlen e) 1), (Z.eqb_spec (r_nlen e) 2); try lia.
  - done.
  - specialize (Hc 0%nat a eq_refl). rewrite Z.add_0_r in Hc. rewrite Hc, bind_Some_l.
    destruct (Z.eqb_spec a 46) as [->|]; [done|]. by rewrite !bool_decide_eq_false_2 by congruence.
  - pose proof (Hc 0%nat a eq_refl) as Ha. pose proof (Hc 1%nat b eq_refl) as Hb. rewrite Z.add_0_r in Ha.
    replace (total_size pre + 8 + Z.of_nat 1) with (total_size pre + 9) in Hb by lia. rewrite Ha, bind_Some_l, Hb, bind_Some_l.
    destruct (Z.eqb_spec a 46) as [->|]; [destruct (Z.eqb_spec b 46) as [->|]; [done|]|]; by rewrite !bool_decide_eq_false_2 by congruence.
  - rewrite !bool_decide_eq_false_2 by done. done.
Qed.

Lemma empty_scan_ok bs fuel pre es : Forall rec_ok es -> total_size pre + total_size es = bs -> bs < 2 ^ 16 ->
  (Z.to_nat (total_size es) < fuel)%nat ->
  empty_scan fuel bs (total_size pre) (layout (pre ++ es)) = Some (empty_rec es).
Proof.
  intros Hok. revert pre fuel. induction Hok as [|e es He Hok IH]; intros pre fuel Hs Hbs Hfuel; (destruct fuel as [|fuel]; [lia|]);
    cbn [empty_scan empty_rec forallb].
  - sizes. by destruct (Z.ltb_spec (total_size pre) bs); [lia|].
  - sizes. pose proof (rsize_ge e). pose proof (total_size_nonneg es). pose proof (total_size_nonneg pre).
    destruct (Z.ltb_spec (total_size pre) bs); [|lia].
    assert (empty_scan fuel bs (u32 (total_size pre + rsize e)) (layout (pre ++ e :: es)) = Some (empty_rec es)) as Hrest.
    { rewrite u32_small by lia. replace (total_size pre + rsize e) with (total_size (pre ++ [e])) by (sizes; lia).
      replace (pre ++ e :: es) with ((pre ++ [e]) ++ es) by (by rewrite <-app_assoc). apply IH; [sizes; lia|done|lia]. }
    rewrite here_inode, bind_Some_l, here_rec_len, bind_Some_l, here_name_len, bind_Some_l by done.
    destruct (r_inode e =? 0); cbn [negb orb andb]; [done|]. rewrite (dots_ok pre es e He), bind_Some_l.
    by destruct (dots (r_name e)).
Qed.

Lemma empty_rec_spec es : empty_rec es = true <-> Forall (fun n => dots n = true) (names es).
Proof.
  induction es as [|e es IH]; [done|]. rewrite names_cons, Forall_app, <-IH. cbn [empty_rec forallb]. rewrite andb_true_iff.
  unfold live_of. destruct (r_inode e =? 0); cbn; rewrite ?Forall_singleton; naive_solver.
Qed.

End Ext2DirSpec.
