(* ===== verification/Ext2DirOps.v ===== *)
(** A directory as a finite map from names to inode numbers and types, and the operations
    of [Ext2Dir] as operations on that map. *)

From S2P Require Import Prelude Ext2 Ext2Inv Ext2Spec Ext2Map Ext2File Ext2FileSpec Ext2Dir Ext2DirSpec.

Module Ext2DirOps.
Import Ext2 Ext2Inv Ext2Spec Ext2Map Ext2File Ext2FileSpec Ext2Dir Ext2DirSpec.
Local Open Scope ext2_scope.

(** ** The map *)

(** The names of all blocks, with what they stand for. *)
Definition listing (ess : list (list rec)) : list (list Z * (Z * Z)) := mjoin (live <$> ess).
Definition dir_map (ess : list (list rec)) : gmap (list Z) (Z * Z) := list_to_map (listing ess).

Lemma listing_app ess1 ess2 : listing (ess1 ++ ess2) = listing ess1 ++ listing ess2.
Proof. unfold listing. by rewrite fmap_app, join_app. Qed.

Lemma listing_cons es ess : listing (es :: ess) = live es ++ listing ess.
Proof. done. Qed.

(** Changing one block changes the listing the way the block's own list changes. *)
Lemma listing_insert ess i es es' x : ess !! i = Some es -> live es' ≡ₚ x ++ live es ->
  listing (<[i := es']> ess) ≡ₚ x ++ listing ess.
Proof.
  intros Hi Hl. rewrite <-(take_drop_middle ess i es Hi) at 2. rewrite insert_take_drop by (by eapply lookup_lt_Some).
  rewrite !listing_app, !listing_cons, Hl, !app_assoc. do 2 f_equiv. apply Permutation_app_comm.
Qed.

Lemma dir_map_insert ess ess' name v : NoDup (fst <$> listing ess) -> name ∉ fst <$> listing ess ->
  listing ess' ≡ₚ (name, v) :: listing ess -> NoDup (fst <$> listing ess') /\ dir_map ess' = <[name := v]> (dir_map ess).
Proof.
  intros Hnd Hni Hp. assert (NoDup (fst <$> listing ess')) as Hnd'.
  { rewrite Hp. cbn. by apply NoDup_cons. }
  split; [done|]. unfold dir_map. by rewrite (list_to_map_proper _ _ Hnd' Hp).
Qed.


Lemma dir_map_lookup ess name v : NoDup (fst <$> listing ess) -> (name, v) ∈ listing ess -> dir_map ess !! name = Some v.
Proof. intros. by apply elem_of_list_to_map. Qed.

Lemma dir_map_None ess name : name ∉ fst <$> listing ess <-> dir_map ess !! name = None.
Proof. unfold dir_map. apply not_elem_of_list_to_map. Qed.



Section Dir.
Context (g : geometry).
Notation bs := (s_block_size g).
Notation limit := (12 + s_block_size g / 4).

(** Block [b] of the directory at hand has the entries [es], or is not there and has
    none. *)
Definition block_entries (s : fs) (b : Z) (es : list rec) : Prop :=
  held g s b = Some None /\ es = [] \/
  held g s b = Some (Some (layout es)) /\ Forall rec_ok es /\ total_size es = bs.

(** The directory at hand: its size is a number of blocks, each of them full of entries,
    there are no blocks behind them, and no name is there twice. *)
Record Directory (s : fs) (dir : inode) (ess : list (list rec)) : Prop := {
  di_type : type dir = FILE_TYPE_DIRECTORY;
  di_size : isize dir = Z.of_nat (length ess) * bs;
  di_limit : Z.of_nat (length ess) <= limit;
  di_small : Z.of_nat (length ess) * bs < 2 ^ 32;
  di_blocks : forall b es, ess !! b = Some es -> block_entries s (Z.of_nat b) es;
  di_past : forall n, Z.of_nat (length ess) <= n < limit -> held g s n = Some None;
  di_names : NoDup (fst <$> listing ess)
}.

Lemma check_name_ok s dir ess name : Directory s dir ess -> 1 <= Z.of_nat (length name) ->
  check_name (Some dir) (Some name) = inl (dir, name).
Proof. intros HD Hl. unfold check_name, check_dir. rewrite (di_type s dir ess HD). by destruct name. Qed.

Lemma num_blocks_ok s dir ess : Geo g -> Directory s dir ess -> forall s', num_blocks g dir s' = Some (Z.of_nat (length ess), s').
Proof.
  intros HG HD s'. pose proof (geo_bs g HG). destruct HD as [_ Hs _ Hsm _ _ _]. unfold num_blocks, divide.
  destruct (Z.eqb_spec bs 0); [lia|]. rewrite bind_ret_l. cbn [fst]. rewrite Hs, u64_small by lia.
  replace (Z.of_nat (length ess) * bs + bs - 1) with (bs - 1 + Z.of_nat (length ess) * bs) by lia.
  rewrite Z.div_add, (Z.div_small (bs - 1)) by lia. rewrite u32_small; [done|].
  assert (Z.of_nat (length ess) * 1 <= Z.of_nat (length ess) * bs) by (apply Z.mul_le_mono_nonneg_l; lia). lia.
Qed.

Lemma block_number s dir ess b es : Geo g -> Directory s dir ess -> ess !! b = Some es ->
  0 <= Z.of_nat b < limit /\ (Z.of_nat b + 1) * bs <= isize dir /\ (Z.of_nat b + 1) * bs < 2 ^ 32 /\ Z.of_nat b + 1 < 2 ^ 32.
Proof.
  intros HG HD Hb%lookup_lt_Some. pose proof (geo_bs g HG). destruct HD as [_ Hs Hl Hsm _ _ _].
  assert ((Z.of_nat b + 1) * bs <= Z.of_nat (length ess) * bs) by (apply Z.mul_le_mono_nonneg_r; lia).
  assert ((Z.of_nat b + 1) * 1 <= (Z.of_nat b + 1) * bs) by (apply Z.mul_le_mono_nonneg_l; lia). lia.
Qed.

(** Reading a block that is there. *)
Lemma get_held s b : Geo g -> Wf g s -> Dev g s -> Mapped g s -> 0 <= b < limit -> b < 2 ^ 32 ->
  exists p c, ext2_get_block g b s = Some (p, with_calls c s) /\ block_of g s b = Some p /\
    match held g s b with
    | Some None => p = 0
    | Some (Some buf) => p <> 0 /\ forall c', ext2_read_block g p (with_calls c' s) = Some (Some buf, with_calls (S c') s)
    | None => False
    end.
Proof.
  intros HG HW HD HM Hb Hb32. destruct (block_of_Some g s b HG HD Hb) as [p Hp].
  destruct (get_block_ok g s b p (wf_io g s HW)) as [c E]; [lia|lia|done|]. exists p, c. split; [done|]. split; [done|].
  unfold held. rewrite Hp, bind_Some_l. destruct (Z.eqb_spec p 0) as [|Hp0]; [done|].
  destruct (mp_data g s HM b p Hb Hp Hp0) as [[Hu _] _]. destruct (dev_block g s HD p true Hu) as (buf & Hbuf & _).
  rewrite Hbuf, bind_Some_l. split; [done|]. intros c'. by apply (read_ok g p buf (with_calls c' s) (wf_io g s HW)).
Qed.

Lemma held_calls c s b : held g (with_calls c s) b = held g s b.
Proof. done. Qed.

(** ** Searches over all blocks *)

Section Search.
Context (s : fs) (dir : inode) (ess : list (list rec)) (name : list Z).
Context (HG : Geo g) (HW : Wf g s) (HDv : Dev g s) (HM : Mapped g s) (HD : Directory s dir ess).
Context (Hbs : bs < 2 ^ 16) (Hname : name_ok name).

(** The state after some calls, at block [b] of the directory. *)
Lemma get_block_at c b es : ess !! b = Some es ->
  exists p c', ext2_get_block g (Z.of_nat b) (with_calls c s) = Some (p, with_calls c' s) /\ block_of g s (Z.of_nat b) = Some p /\
    (p = 0 /\ es = [] \/
     p <> 0 /\ ext2_read_block g p (with_calls c' s) = Some (Some (layout es), with_calls (S c') s) /\
       Forall rec_ok es /\ total_size es = bs).
Proof.
  intros Hb. destruct (block_number s dir ess b es HG HD Hb) as (H1 & _ & _ & H2).
  destruct (get_held (with_calls c s) (Z.of_nat b) HG) as (p & c' & E & Hp & Hh);
    [by apply wf_calls|by apply dev_calls|by apply mapped_calls|done|lia|].
  exists p, c'. split; [done|]. split; [done|]. rewrite held_calls in Hh.
  destruct (di_blocks s dir ess HD b es Hb) as [[Hh' ->]|(Hh' & Hok & Hsz)]; rewrite Hh' in Hh; [by left|].
  right. destruct Hh as [Hp0 Hr]. split; [done|]. split; [apply (Hr c')|done].
Qed.

Lemma next_block b es : ess !! b = Some es -> u32 (Z.of_nat b + 1) = Z.of_nat (S b).
Proof. intros Hb. destruct (block_number s dir ess b es HG HD Hb) as (H1 & _ & _ & H2). rewrite u32_small; lia. Qed.

Lemma fuel_enough es : total_size es = bs -> (Z.to_nat (total_size es) < scan_fuel g)%nat.
Proof. intros ->. unfold scan_fuel. lia. Qed.

Lemma lookup_blocks_ok n b c : (n + b = length ess)%nat ->
  exists c', lookup_blocks g n name (Z.of_nat b) (with_calls c s) =
    match find_rec name (mjoin (drop b ess)) with
    | Some ino => load_inode g ino (with_calls c' s)
    | None => Some (None, with_calls c' s)
    end.
Proof.
  revert b c. induction n as [|n IH]; intros b c Hn; cbn [lookup_blocks].
  - rewrite drop_ge by lia. exists c. done.
  - destruct (lookup_lt_is_Some_2 ess b) as [es Hb]; [lia|]. rewrite (drop_S ess es b Hb).
    destruct (get_block_at c b es Hb) as (p & c1 & E & _ & [[-> ->]|(Hp & Er & Hok & Hsz)]); go E.
    + cbn [Z.eqb mjoin list_join app]. rewrite (next_block b [] Hb). apply IH. lia.
    + destruct (Z.eqb_spec p 0); [done|]. go Er.
      rewrite (bind_lift _ _ _ (find_rec name es)) by (apply (lookup_scan_ok bs name _ []); [done..|by apply fuel_enough]). cbv beta.
      replace (find_rec name (mjoin (es :: drop (S b) ess))) with
        (match find_rec name es with Some ino => Some ino | None => find_rec name (mjoin (drop (S b) ess)) end).
      2: { cbn [mjoin list_join]. clear. induction es as [|e es IH]; [done|]. cbn [find_rec app]. by destruct (hit name e). }
      destruct (find_rec name es) as [ino|]; [by exists (S c1)|]. rewrite (next_block b es Hb). apply IH. lia.
Qed.

Lemma empty_blocks_ok n b c : (n + b = length ess)%nat ->
  exists c', empty_blocks g n (Z.of_nat b) (with_calls c s) =
    Some (if empty_rec (mjoin (drop b ess)) then 1 else 0, with_calls c' s).
Proof.
  revert b c. induction n as [|n IH]; intros b c Hn; cbn [empty_blocks].
  - rewrite drop_ge by lia. exists c. done.
  - destruct (lookup_lt_is_Some_2 ess b) as [es Hb]; [lia|]. rewrite (drop_S ess es b Hb).
    destruct (get_block_at c b es Hb) as (p & c1 & E & _ & [[-> ->]|(Hp & Er & Hok & Hsz)]); go E.
    + cbn [Z.eqb mjoin list_join app]. rewrite (next_block b [] Hb). apply IH. lia.
    + destruct (Z.eqb_spec p 0); [done|]. go Er.
      rewrite (bind_lift _ _ _ (empty_rec es)) by (apply (empty_scan_ok bs _ []); [done..|by apply fuel_enough]). cbv beta.
      replace (empty_rec (mjoin (es :: drop (S b) ess))) with (empty_rec es && empty_rec (mjoin (drop (S b) ess)))
        by (cbn [mjoin list_join]; unfold empty_rec; by rewrite forallb_app).
      destruct (empty_rec es); [|by exists (S c1)]. rewrite (next_block b es Hb). apply IH. lia.
Qed.

(** One block of the directory at hand was written. *)
Record Rewritten (i : nat) (es' : list rec) (s' : fs) : Prop := {
  rw_good : Good g s s';
  rw_fits : Forall rec_ok es' /\ total_size es' = bs;
  rw_here : held g s' (Z.of_nat i) = Some (Some (layout es'));
  rw_else : forall m, 0 <= m < limit -> m <> Z.of_nat i -> held g s' m = held g s m
}.



(** The directory after a block was rewritten. *)
Lemma rewritten_dir i es es' s' : ess !! i = Some es -> Rewritten i es' s' -> NoDup (fst <$> listing (<[i := es']> ess)) ->
  Directory s' dir (<[i := es']> ess).
Proof.
  intros Hi HR Hnd. destruct HD as [D1 D2 D3 D4 D5 D6 D7]. split; rewrite ?length_insert; try done.
  2: { intros n Hn. apply lookup_lt_Some in Hi. rewrite (rw_else _ _ _ HR) by lia. by apply D6. }
  intros b es0 Hb. destruct (decide (b = i)) as [->|Hne].
  - rewrite list_lookup_insert_eq in Hb by (by eapply lookup_lt_Some). injection Hb as <-. right.
    split; [apply HR|]. apply HR.
  - rewrite list_lookup_insert_ne in Hb by done. destruct (block_number s dir ess b es0 HG HD Hb) as (Hl & _).
    unfold block_entries. rewrite (rw_else _ _ _ HR) by (done || lia). by apply D5.
Qed.
End Search.

(** ** Adding *)

(** The entry that fills a block nobody uses, and a block with one entry. *)
Definition sole (ino ft : Z) (name : list Z) : rec :=
  mk_rec ino ft (Z.of_nat (length name)) (name ++ replicate (Z.to_nat bs - 8 - length name) 0).

Lemma sole_ok ino ft name : 0 <= ino < 2 ^ 32 -> 0 <= ft < 2 ^ 8 -> Z.of_nat (length name) < 2 ^ 8 -> 8 + Z.of_nat (length name) <= bs < 2 ^ 16 ->
  rec_ok (sole ino ft name) /\ rsize (sole ino ft name) = bs /\ r_name (sole ino ft name) = name.
Proof.
  intros Hi Hf Hn Hb. assert (length (r_body (sole ino ft name)) = (Z.to_nat bs - 8)%nat) as Hl.
  { cbn. rewrite length_app, length_replicate. lia. }
  assert (rsize (sole ino ft name) = bs) as Hs by (unfold rsize; rewrite Hl; lia).
  split; [split; rewrite ?Hl, ?Hs; cbn; lia|]. split; [done|]. unfold r_name. cbn. by rewrite Nat2Z.id, take_app_length.
Qed.

(** A hole of the directory becomes a block with one free entry when the search for room gets to it. *)
Definition usable (es : list rec) : list rec := match es with [] => [sole 0 0 []] | _ => es end.

(** The directory with the entry in the first block with room, or in a new last block. *)
Fixpoint add_dir (ino ft : Z) (name : list Z) (ess : list (list rec)) : list (list rec) :=
  match ess with
  | [] => [[sole ino ft name]]
  | es :: ess => match add_rec ino ft name (usable es) with Some es' => es' :: ess | None => es :: add_dir ino ft name ess end
  end.

Lemma add_dir_skip ino ft name ess b es : ess !! b = Some es -> add_rec ino ft name (usable es) = None ->
  take b ess ++ add_dir ino ft name (drop b ess) = take (S b) ess ++ add_dir ino ft name (drop (S b) ess).
Proof. intros Hb E. rewrite (drop_S ess es b Hb), (take_S_r ess b es Hb). cbn. by rewrite E, <-app_assoc. Qed.

Lemma put_sole ino ft name : 8 + Z.of_nat (length name) <= bs ->
  put_entry (replicate (Z.to_nat bs) 0) 0 ino (Some bs) ft name = Some (layout [sole ino ft name]).
Proof.
  intros Hb. rewrite (put_entry_ok [] (replicate (Z.to_nat bs - 8 - length name) 0) (replicate (length name) 0) _ 0 (replicate 8 0));
    [|cbn [app]; rewrite <-!replicate_add; f_equal; lia|done|done|by rewrite length_replicate].
  change (layout [sole ino ft name]) with (rbytes (sole ino ft name) ++ []). rewrite app_nil_r. unfold rbytes, sole, rsize. cbn [r_inode r_type r_nlen r_body app].
  rewrite length_app, length_replicate. do 4 f_equal. f_equal. lia.
Qed.

Lemma free_block_buffer_eq : 8 <= bs -> free_block_buffer g = Some (layout [sole 0 0 []]).
Proof.
  intros Hb. unfold free_block_buffer. rewrite (put_header_ok [] (replicate (Z.to_nat bs - 8) 0) _ 0 (replicate 8 0));
    [|cbn [app]; rewrite <-replicate_add; f_equal; lia|done|done].
  change (layout [sole 0 0 []]) with (rbytes (sole 0 0 []) ++ []). rewrite app_nil_r. unfold rbytes, sole, rsize. cbn [r_inode r_type r_nlen r_body app].
  rewrite length_replicate. cbn [length]. rewrite Nat.sub_0_r. do 4 f_equal. f_equal. lia.
Qed.

(** Position [n] of the directory at hand gets a new block with the entries [es']. *)
Lemma alloc_store s n es' : Geo g -> Wf g s -> Dev g s -> Mapped g s -> 0 <= n < limit -> held g s n = Some None ->
  1 + need s <= s_free_blocks_count (mem s) -> total_size es' = bs ->
  exists p s1 s2, ext2_alloc_block g n s = Some (p, s1) /\ p <> 0 /\ ext2_write_block g p (layout es') s1 = Some (0, s2) /\
    block_of g s2 n = Some p /\ Good g s s2 /\ held g s2 n = Some (Some (layout es')) /\
    forall m, 0 <= m < limit -> m <> n -> held g s2 m = held g s m.
Proof.
  intros HG HW HDv HM Hn Hh Hfree Hsz.
  assert (block_of g s n = Some 0) as H0.
  { unfold held in Hh. destruct (block_of_Some g s n HG HDv Hn) as [v Hv]. rewrite Hv, bind_Some_l in Hh.
    destruct (Z.eqb_spec v 0) as [E|]; [by rewrite Hv, E|]. by destruct (disk s !! offset g v). }
  destruct (alloc_ok g s n HG HW HDv Hn Hfree) as (p & s1 & Ea & HA). pose proof (al_pos g _ _ _ _ HA).
  pose proof (alloc_good g n p s s1 HG HDv HM HA Hn H0) as HS1. pose proof (alloc_at g n p s s1 HA Hn H0) as Hp.
  destruct (store_block_ok g s1 n p (layout es') HG (gd_wf _ _ _ HS1) (gd_dev _ _ _ HS1) (gd_mapped _ _ _ HS1) Hn Hp)
    as (s2 & Ew & HS2 & Hh2 & Hb2 & _); [lia|exact Hsz|].
  exists p, s1, s2. split; [done|]. split; [lia|]. split; [done|]. split; [|split; [by eapply good_trans|split]].
  - by rewrite Hb2.
  - rewrite Hh2 by done. by rewrite decide_True.
  - intros m Hm Hne. rewrite Hh2 by done. rewrite decide_False by done. by apply (alloc_held g n p s s1).
Qed.

Section AddEntry.
Context (s : fs) (dir : inode) (ess : list (list rec)) (name : list Z) (ino ft : Z).
Context (HG : Geo g) (HW : Wf g s) (HDv : Dev g s) (HM : Mapped g s) (HD : Directory s dir ess).
Context (Hbs : 8 + Z.of_nat (length name) <= bs < 2 ^ 16) (Hlen : Z.of_nat (length name) < 2 ^ 8).
Context (Hino : 1 <= ino < 2 ^ 32) (Hft : 0 <= ft < 2 ^ 8).
Context (Hroom : forall b es, ess !! b = Some es -> Forall (holds_name name) es).
Context (Hfree : 1 + need s <= s_free_blocks_count (mem s)).

(** The block the loop looks at: as it was, or new with one free entry. *)
Lemma block_for_add_ok c b es : ess !! b = Some es ->
  exists p es1 s1, es1 = usable es /\ block_for_add g (Z.of_nat b) (with_calls c s) = Some (inl (p, layout es1), s1) /\ p <> 0 /\
    block_of g s1 (Z.of_nat b) = Some p /\ Good g s s1 /\ Forall rec_ok es1 /\ total_size es1 = bs /\ live es1 = live es /\
    Forall (holds_name name) es1 /\ (forall m, 0 <= m < limit -> m <> Z.of_nat b -> held g s1 m = held g s m) /\
    ((exists c', s1 = with_calls c' s) \/ exists es', add_rec ino ft name es1 = Some es').
Proof.
  intros Hb. destruct (block_number s dir ess b es HG HD Hb) as (Hlim & _).
  destruct (get_block_at s dir ess HG HW HDv HM HD c b es Hb) as (p & c1 & E & Hp & Hcase). unfold block_for_add. go E.
  destruct Hcase as [[-> ->]|(Hp0 & Er & Hok & Hsz)].
  - cbn [Z.eqb]. destruct (sole_ok 0 0 []) as (Hok & Hsz & _); [done|done|done|cbn; lia|].
    assert (held g s (Z.of_nat b) = Some None) as Hh by (unfold held; by rewrite Hp).
    destruct (alloc_store (with_calls c1 s) (Z.of_nat b) [sole 0 0 []] HG) as (p & s1 & s2 & Ea & Hp0 & Ew & Hp2 & HS & _ & Hoth);
      [by apply wf_calls|by apply dev_calls|by apply mapped_calls|done|done|done|by rewrite total_size_cons, total_size_nil, Hsz, Z.add_0_r|].
    exists p, [sole 0 0 []], s2. go Ea. destruct (Z.eqb_spec p 0); [done|].
    rewrite (bind_lift _ _ _ _ (free_block_buffer_eq ltac:(lia))). cbv beta. go Ew.
    split; [done|]. split; [done|]. split; [done|]. split; [done|]. split; [by apply (good_calls_l g c1)|].
    split; [by apply Forall_singleton|]. split; [by rewrite total_size_cons, total_size_nil, Hsz, Z.add_0_r|]. split; [done|].
    split; [apply Forall_singleton; intros _; cbn; rewrite length_replicate; lia|]. split; [done|]. right. by eexists.
  - destruct (Z.eqb_spec p 0); [done|]. go Er. exists p, es, (with_calls (S c1) s).
    split; [destruct es; [|done]; rewrite total_size_nil in Hsz; lia|]. split; [done|]. split; [done|]. split; [done|]. split; [split; [by apply wf_calls|by apply dev_calls|by apply mapped_calls|done|done]|].
    split; [done|]. split; [done|]. split; [done|]. split; [by apply (Hroom b)|]. split; [done|]. left. by eexists.
Qed.

Lemma add_blocks_ok n b c : (n + b = length ess)%nat ->
  (exists i es es' s', ess !! i = Some es /\ live es' ≡ₚ (name, (ino, ft)) :: live es /\ take b ess ++ add_dir ino ft name (drop b ess) = <[i := es']> ess /\
     add_blocks g n (dirent_size (Z.of_nat (length name))) ino ft name dir (Z.of_nat b) (with_calls c s) = Some (Some (0, dir), s') /\
     Rewritten s i es' s') \/
  (exists c', add_blocks g n (dirent_size (Z.of_nat (length name))) ino ft name dir (Z.of_nat b) (with_calls c s) = Some (None, with_calls c' s) /\
     take b ess ++ add_dir ino ft name (drop b ess) = ess ++ [[sole ino ft name]]).
Proof.
  revert b c. induction n as [|n IH]; intros b c Hn; cbn [add_blocks].
  - right. exists c. split; [done|]. by rewrite drop_ge, take_ge by lia.
  - destruct (lookup_lt_is_Some_2 ess b) as [es Hb]; [lia|].
    destruct (block_number s dir ess b es HG HD Hb) as (Hlim & Hin & H32 & _). pose proof (geo_bs g HG).
    destruct (block_for_add_ok c b es Hb) as (p & es1 & s1 & Eu & E & Hp0 & Hp & HS & Hok & Hsz & Hlive & Hh & Hoth & Hcase). go E.
    rewrite (bind_lift _ _ _ _ (add_scan_ok ino ft name Hlen bs (scan_fuel g) [] es1 Hok Hh Hsz ltac:(lia) (fuel_enough es1 Hsz))). cbv beta.
    destruct (add_rec ino ft name es1) as [es'|] eqn:Ea; cbn [fmap option_fmap option_map].
    + left. destruct (add_rec_ok ino ft name Hino Hft Hlen es1 es' Hok Hh Ea) as [[Hok' Hsz'] Hl].
      destruct (store_block_ok g s1 (Z.of_nat b) p (layout es') HG (gd_wf _ _ _ HS) (gd_dev _ _ _ HS) (gd_mapped _ _ _ HS) Hlim Hp Hp0)
        as (s2 & Ew & HS2 & Hh2 & _ & _); [unfold total_size in *; lia|].
      exists b, es, es', s2. split; [done|]. split; [by rewrite Hl, Hlive|].
      split; [rewrite (drop_S ess es b Hb); cbn; by rewrite <-Eu, Ea, (insert_take_drop ess b es') by (by eapply lookup_lt_Some)|]. change ([] ++ es') with es'. go Ew. cbn [Z.ltb Z.compare].
      rewrite (u32_small (Z.of_nat b * bs)) by lia. rewrite u32_small by lia.
      destruct (Z.ltb_spec (isize dir) (Z.of_nat b * bs + bs)); [lia|]. split; [done|].
      split; [by eapply good_trans|split; [done|lia]| |].
      * rewrite Hh2 by done. by rewrite decide_True.
      * intros m Hm Hne. rewrite Hh2 by done. rewrite decide_False by done. by apply Hoth.
    + destruct Hcase as [[c' ->]|[es' ?]]; [|congruence]. rewrite (next_block s dir ess HG HD b es Hb), (add_dir_skip _ _ _ _ b es Hb) by congruence. apply IH. lia.
Qed.

(** A new last block. *)
Lemma appended_dir e s' dir' : type dir' = type dir -> isize dir' = (Z.of_nat (length ess) + 1) * bs -> isize dir' < 2 ^ 32 ->
  Z.of_nat (length ess) < limit -> rec_ok e -> rsize e = bs -> held g s' (Z.of_nat (length ess)) = Some (Some (layout [e])) ->
  (forall m, 0 <= m < limit -> m <> Z.of_nat (length ess) -> held g s' m = held g s m) ->
  NoDup (fst <$> listing (ess ++ [[e]])) -> Directory s' dir' (ess ++ [[e]]).
Proof.
  intros Ht Hs H32 Hl He Hsz Hhere Helse Hnd. destruct HD as [D1 D2 D3 D4 D5 D6 D7].
  assert (Z.of_nat (length (ess ++ [[e]])) = Z.of_nat (length ess) + 1) as HL by (rewrite length_app; cbn; lia).
  split; rewrite ?HL; [congruence|done|lia|by rewrite <-Hs| | |done].
  - intros b es Hb. destruct (decide (b < length ess)%nat) as [Hlt|Hge].
    + rewrite lookup_app_l in Hb by done. unfold block_entries. rewrite Helse by lia. by apply D5.
    + pose proof (lookup_lt_Some _ _ _ Hb) as Hb'. rewrite length_app in Hb'. cbn in Hb'. replace b with (length ess) in * by lia.
      rewrite lookup_app_r, Nat.sub_diag in Hb by lia. injection Hb as <-. right. split; [done|].
      split; [by apply Forall_singleton|]. rewrite total_size_cons, total_size_nil. lia.
  - intros n Hn. rewrite Helse by lia. apply D6. lia.
Qed.

Lemma writable_good s' i i' : Good g s s' -> Writable g s i -> inode_num i' = inode_num i ->
  (exists e, ei_e2i i' = Some e /\ length (i_osd2 e) = 12%nat) -> Writable g s' i'.
Proof.
  intros HS (H1 & _ & (gr & block & off & Hpl & Hoff & HSp)) Hn He. split; [by rewrite Hn|]. split; [done|].
  exists gr, block, off. rewrite Hn, (place_good g s s' _ HS). split; [done|]. split; [done|]. by apply (gd_spare g s s' HS).
Qed.

Lemma add_entry_ok t : ft = EXT2_FT_of_type t -> 1 <= Z.of_nat (length name) -> Writable g s dir -> name ∉ fst <$> listing ess ->
  Z.of_nat (length ess) < limit -> (Z.of_nat (length ess) + 1) * bs < 2 ^ 32 ->
  exists dir' s' ess', ext2_add_entry g (Some dir) (Some name) ino t s = Some ((0, Some dir'), s') /\
    ess' = add_dir ino ft name ess /\ Directory s' dir' ess' /\ dir_map ess' = <[name := (ino, ft)]> (dir_map ess) /\ Good g s s' /\ Writable g s' dir'.
Proof.
  intros Et Hne HI Hnew Hl H32. unfold ext2_add_entry. rewrite (check_name_ok s dir ess), <-Et by done.
  destruct (Z.ltb_spec 255 (Z.of_nat (length name))); [lia|]. go (num_blocks_ok s dir ess HG HD s). go (call_ok s (wf_io g s HW)).
  cbn [negb]. rewrite Nat2Z.id. destruct (add_blocks_ok (length ess) 0 (S (calls s)) ltac:(lia)) as
    [(i & es & es' & s' & Hi & Hlive & Ed & E & HR)|(c & E & Ed)]; change (Z.of_nat 0) with 0 in E; unfold tick; go E.
  - pose proof (listing_insert ess i es es' [(name, (ino, ft))] Hi Hlive) as Hp.
    destruct (dir_map_insert _ _ name _ (di_names s dir ess HD) Hnew Hp) as [Hnd Hmap].
    exists dir, s', (<[i := es']> ess). split; [done|]. split; [done|]. split; [by apply (rewritten_dir s dir ess HG HD i es)|]. split; [done|].
    pose proof (rw_good _ _ _ _ HR). split; [done|]. apply (writable_good s' dir dir); try done. apply HI.
  - set (e := sole ino ft name).
    destruct (sole_ok ino ft name) as (Hok & Hsz & Hrn); [lia|done|done|done|]. fold e in Hok, Hsz, Hrn.
    destruct (alloc_store (with_calls c s) (Z.of_nat (length ess)) [e] HG) as (p & s1 & s2 & Ea & Hp0 & Ew & _ & HS & Hhere & Helse);
      [by apply wf_calls|by apply dev_calls|by apply mapped_calls|lia|apply (di_past s dir ess HD); lia|done|
       rewrite total_size_cons, total_size_nil; lia|].
    go Ea. destruct (Z.eqb_spec p 0); [done|]. rewrite (bind_lift _ _ _ _ (put_sole ino ft name ltac:(lia))). cbv beta. go Ew. cbn [Z.ltb Z.compare].
    assert (Z.of_nat (length ess) * 1 <= Z.of_nat (length ess) * bs) by (apply Z.mul_le_mono_nonneg_l; lia).
    rewrite (u32_small (Z.of_nat (length ess) + 1)) by lia. rewrite u32_small by lia. apply (good_calls_l g c) in HS.
    set (dir1 := with_size _ dir).
    destruct (write_inode_good g s2 dir1 HG (gd_wf _ _ _ HS) (gd_dev _ _ _ HS) (gd_mapped _ _ _ HS)) as (e2 & s3 & E3 & Hosd & HS3 & Hh3 & _).
    { apply (writable_good s2 dir dir1); try done. apply HI. }
    go E3. cbn [snd]. pose proof (good_trans g s s2 s3 HS HS3) as HS'.
    destruct (dir_map_insert ess (ess ++ [[e]]) name (ino, ft) (di_names s dir ess HD) Hnew) as [Hnd Hmap].
    { rewrite listing_app, listing_cons, live_cons, live_of_live, Hrn by (cbn; lia). cbn. symmetry. apply Permutation_cons_append. }
    exists (with_e2i e2 dir1), s3, (ess ++ [[e]]). split; [done|]. split; [done|]. split; [apply appended_dir; try done|].
    + rewrite Hh3 by lia. done.
    + intros m Hm Hmne. rewrite Hh3 by done. by apply Helse.
    + split; [done|]. split; [done|]. apply (writable_good s3 dir); try done. by exists e2.
Qed.
End AddEntry.

End Dir.

(** ** A small directory *)

(** Inode 2 of the small file system, with ["."] and ["a"] in block 10. *)
Definition small_entries : list rec :=
  [mk_rec 2 2 1 [46; 0; 0; 0]; mk_rec 3 1 1 (97 :: replicate 107 0)].
Definition small_dir_fs : fs :=
  with_data (10 :: replicate 14 0) (with_disk (<[1280 := layout small_entries]> (disk small_fs)) small_fs).
Definition small_dir : inode := mk_inode 2 FILE_TYPE_DIRECTORY 0x1ED 0 0 128 0 0 0 0 2 0 0 0 0 0 (Some small_e2i).

Lemma small_data p : in_use small_geo Blk small_fs p = Some true -> p <> 3 /\ p <> 4 /\ p <> 35 /\ p <> 36 -> data_block small_geo small_fs p.
Proof.
  intros Hu Hn. split; [done|]. intros k i d [[-> ->]|[-> ->]]%two_groups; destruct k; cbn; lia.
Qed.

Lemma small_dir_wrote : Wrote small_geo 10 (layout small_entries) small_fs small_dir_fs.
Proof. by split. Qed.

Lemma small_dir_ok : Wf small_geo small_dir_fs /\ Dev small_geo small_dir_fs.
Proof.
  assert (data_block small_geo small_fs 10) as Hd by (apply small_data; [vm_compute; reflexivity|lia]). split.
  - exact (wrote_wf small_geo 10 _ _ _ small_geo_ok small_fs_ok small_fs_dev Hd small_dir_wrote).
  - apply (wrote_dev small_geo 10 _ _ _ small_geo_ok small_fs_ok small_fs_dev Hd small_dir_wrote); [done|done|]. by intros q [= <-].
Qed.

Lemma small_dir_block n : 0 <= n < 12 + s_block_size small_geo / 4 -> block_of small_geo small_dir_fs n = Some (if decide (n = 0) then 10 else 0).
Proof.
  intros Hn. unfold block_of. destruct (Z.ltb_spec n 12); [|by rewrite decide_False by lia]. case_decide as E; [by subst|].
  cbn [i_data small_dir_fs with_data]. rewrite aget_nat by lia. replace (Z.to_nat n) with (S (Z.to_nat (n - 1))) by lia. cbn [lookup list_lookup].
  apply lookup_replicate_2. lia.
Qed.

Lemma small_dir_mapped : Mapped small_geo small_dir_fs.
Proof.
  split.
  - intros n p Hn. rewrite small_dir_block by done. case_decide; intros [= <-] Hp; [|done]. split; [|done].
    apply (wrote_data small_geo 10 (layout small_entries) small_fs small_dir_fs 10 small_geo_ok small_fs_ok small_fs_dev);
      [|exact small_dir_wrote|]; (apply small_data; [vm_compute; reflexivity|lia]).
  - intros n m p Hn Hm. rewrite !small_dir_block by done. repeat case_decide; congruence.
Qed.

Lemma small_dir_writable : Writable small_geo small_dir_fs small_dir.
Proof.
  split; [done|]. split; [by exists small_e2i|]. exists 0, 6, 0. split; [vm_compute; reflexivity|]. split; [done|].
  split; [|split; [done|split; [done|]]].
  - apply (wrote_data small_geo 10 (layout small_entries) small_fs small_dir_fs 6 small_geo_ok small_fs_ok small_fs_dev);
      [|exact small_dir_wrote|]; (apply small_data; [vm_compute; reflexivity|lia]).
  - intros n Hn. rewrite small_dir_block by done. by case_decide.
Qed.

Lemma small_directory : Directory small_geo small_dir_fs small_dir [small_entries].
Proof.
  split; try done.
  - intros [|b] es; cbn; [intros [= <-]|done]. right. split; [vm_compute; reflexivity|]. split; [|done].
    repeat (apply Forall_cons; split; [by split|]). done.
  - intros n Hn. cbn [length] in Hn. unfold held. rewrite small_dir_block by lia. by rewrite decide_False by lia.
  - cbn. apply NoDup_cons. split; [set_solver|]. apply NoDup_singleton.
Qed.

(** ** The operations on the map *)

Lemma live_join ess : live (mjoin ess) = listing ess.
Proof. induction ess as [|es ess IH]; [done|]. rewrite listing_cons, <-IH. apply live_app. Qed.

Lemma lookup_ok g s dir ess name : Geo g -> Wf g s -> Dev g s -> Mapped g s -> Directory g s dir ess -> name_ok name ->
  s_block_size g < 2 ^ 16 ->
  exists c, ext2_lookup g (Some dir) name s =
    match dir_map ess !! name with
    | Some (ino, _) => load_inode g ino (with_calls c s)
    | None => Some (None, with_calls c s)
    end.
Proof.
  intros HG HW HDv HM HD Hname Hbs.
  unfold ext2_lookup, check_dir. rewrite (di_type g s dir ess HD). rewrite (bind_eq _ _ _ _ _ (call_ok s (wf_io g s HW))). cbn [negb].
  rewrite (bind_eq _ _ _ _ _ (num_blocks_ok g s dir ess HG HD (tick s))). rewrite Nat2Z.id.
  destruct (lookup_blocks_ok g s dir ess name HG HW HDv HM HD Hbs Hname (length ess) 0 (S (calls s)) ltac:(lia)) as [c E].
  exists c. change (Z.of_nat 0) with 0 in E. rewrite drop_0 in E. unfold tick. rewrite E.
  pose proof (live_join ess) as Hl.
  destruct (find_rec name (mjoin ess)) as [ino|] eqn:Ef.
  - destruct (find_rec_Some _ _ _ Ef) as [ft Hin]. rewrite Hl in Hin. by rewrite (dir_map_lookup ess name _ (di_names g s dir ess HD) Hin).
  - pose proof (find_rec_None _ _ Ef) as Hni. unfold names in Hni. rewrite Hl in Hni. by rewrite (proj1 (dir_map_None ess name) Hni).
Qed.

(** C8: while no call fails, on a device with enough free blocks, of less than 64 KB, [ext2_add_entry] of
    a new name of 1 to 255 characters succeeds, if the free entries of the directory are long enough for the name (which the code
    does not check) and the directory stays within its direct and single indirect blocks. The entry is in the first block
    with room ([add_dir]: in the first free entry or the first slack behind an entry, in a hole of the directory, which
    gets a block) or in a new last block. Afterwards the directory is the map
    with the name bound to the inode number and the type, all blocks are full of well-formed entries, no name is there twice,
    and the bitmaps, the counts and the block map are in order. *)
Theorem ext2_add_entry_correct g s dir ess name ino t (HG : Geo g) (HW : Wf g s) (HDv : Dev g s) (HM : Mapped g s)
    (HD : Directory g s dir ess) (HI : Writable g s dir) (Hlen : 1 <= Z.of_nat (length name) <= 255)
    (Hbs : 8 + Z.of_nat (length name) <= s_block_size g < 2 ^ 16) (Hino : 1 <= ino < 2 ^ 32)
    (Hnew : dir_map ess !! name = None) (Hroom : forall b es, ess !! b = Some es -> Forall (holds_name name) es)
    (Hfree : 1 + need s <= s_free_blocks_count (mem s)) (Hlimit : Z.of_nat (length ess) < 12 + s_block_size g / 4)
    (H32 : (Z.of_nat (length ess) + 1) * s_block_size g < 2 ^ 32) :
  exists dir' s' ess', ext2_add_entry g (Some dir) (Some name) ino t s = Some ((0, Some dir'), s') /\
    ess' = add_dir g ino (EXT2_FT_of_type t) name ess /\ Directory g s' dir' ess' /\ dir_map ess' = <[name := (ino, EXT2_FT_of_type t)]> (dir_map ess) /\
    Good g s s' /\ Writable g s' dir'.
Proof.
  apply (add_entry_ok g s dir ess name ino (EXT2_FT_of_type t)); try done; try lia; [by destruct t|].
  by apply dir_map_None.
Qed.

Lemma ext2_add_entry_correct_witness :
  exists dir' s' ess', ext2_add_entry small_geo (Some small_dir) (Some [98; 99]) 4 FILE_TYPE_REGULAR small_dir_fs = Some ((0, Some dir'), s') /\
    ess' = add_dir small_geo 4 1 [98; 99] [small_entries] /\ Directory small_geo s' dir' ess' /\ dir_map ess' = <[[98; 99] := (4, 1)]> (dir_map [small_entries]) /\
    Good small_geo small_dir_fs s' /\ Writable small_geo s' dir'.
Proof.
  apply (ext2_add_entry_correct small_geo small_dir_fs small_dir [small_entries] [98; 99] 4 FILE_TYPE_REGULAR small_geo_ok
    (proj1 small_dir_ok) (proj2 small_dir_ok) small_dir_mapped small_directory small_dir_writable); try (cbn; lia); try done.
  intros [|b] es; cbn; [intros [= <-]|done]. by repeat (apply Forall_cons; split; [intros ?; cbn; lia|]).
Defined.



(** [ext2_lookup] reads the inode that the map has for the name, and returns null
    when the map has none; neither the device nor the directory changes. *)
Theorem ext2_lookup_correct g s dir ess name (HG : Geo g) (HW : Wf g s) (HDv : Dev g s) (HM : Mapped g s)
    (HD : Directory g s dir ess) (Hname : name_ok name) (Hbs : s_block_size g < 2 ^ 16) :
  exists c, ext2_lookup g (Some dir) name s =
    match dir_map ess !! name with
    | Some (ino, _) => load_inode g ino (with_calls c s)
    | None => Some (None, with_calls c s)
    end.
Proof.
  by apply lookup_ok.
Qed.

Lemma ext2_lookup_correct_witness :
  dir_map [small_entries] !! [97] = Some (3, 1) /\
  exists c, ext2_lookup small_geo (Some small_dir) [97] small_dir_fs =
    match dir_map [small_entries] !! [97] with
    | Some (ino, _) => load_inode small_geo ino (with_calls c small_dir_fs)
    | None => Some (None, with_calls c small_dir_fs)
    end.
Proof.
  split; [vm_compute; reflexivity|]. apply (ext2_lookup_correct small_geo small_dir_fs small_dir [small_entries] [97] small_geo_ok
    (proj1 small_dir_ok) (proj2 small_dir_ok) small_dir_mapped small_directory); [|cbn; lia]. apply Forall_singleton. lia.
Defined.

(** [ext2_is_dir_empty] returns 1 when the map has no other names than ["."] and
    [".."] and 0 otherwise, and changes nothing. *)
Theorem ext2_is_dir_empty_correct g s dir ess (HG : Geo g) (HW : Wf g s) (HDv : Dev g s) (HM : Mapped g s)
    (HD : Directory g s dir ess) (Hbs : s_block_size g < 2 ^ 16) :
  exists r c, ext2_is_dir_empty g (Some dir) s = Some (r, with_calls c s) /\ (r = 0 \/ r = 1) /\
    (r = 1 <-> forall n, is_Some (dir_map ess !! n) -> n = [46] \/ n = [46; 46]).
Proof.
  unfold ext2_is_dir_empty, check_dir. rewrite (di_type g s dir ess HD).
  rewrite (bind_eq _ _ _ _ _ (num_blocks_ok g s dir ess HG HD s)). cbv beta. rewrite (bind_eq _ _ _ _ _ (call_ok s (wf_io g s HW))). cbn [negb].
  rewrite Nat2Z.id. destruct (empty_blocks_ok g s dir ess HG HW HDv HM HD Hbs (length ess) 0 (S (calls s)) ltac:(lia)) as [c E].
  change (Z.of_nat 0) with 0 in E. rewrite drop_0 in E. eexists _, c. split; [exact E|].
  assert (empty_rec (mjoin ess) = true <-> forall n, is_Some (dir_map ess !! n) -> n = [46] \/ n = [46; 46]) as Hspec.
  { rewrite empty_rec_spec. unfold names. rewrite live_join.
    rewrite Forall_forall. apply forall_proper. intros n.
    assert (n ∈ fst <$> listing ess <-> is_Some (dir_map ess !! n)) as ->.
    { rewrite <-not_eq_None_Some, <-dir_map_None. destruct (decide (n ∈ fst <$> listing ess)); naive_solver. }
    unfold dots. rewrite orb_true_iff, !bool_decide_eq_true. done. }
  destruct (empty_rec (mjoin ess)); (split; [auto|]); naive_solver.
Qed.

Lemma ext2_is_dir_empty_correct_witness :
  exists r c, ext2_is_dir_empty small_geo (Some small_dir) small_dir_fs = Some (r, with_calls c small_dir_fs) /\ (r = 0 \/ r = 1) /\
    (r = 1 <-> forall n, is_Some (dir_map [small_entries] !! n) -> n = [46] \/ n = [46; 46]).
Proof.
  apply (ext2_is_dir_empty_correct small_geo small_dir_fs small_dir [small_entries] small_geo_ok
    (proj1 small_dir_ok) (proj2 small_dir_ok) small_dir_mapped small_directory). cbn; lia.
Defined.

End Ext2DirOps.
