(* ===== verification/Ext2Readdir.v ===== *)
(** Reading a directory entry by entry, and when the loops over entries end. *)

From S2P Require Import Prelude Ext2 Ext2Inv Ext2Spec Ext2Map Ext2File Ext2FileSpec Ext2Dir Ext2DirSpec Ext2DirOps.

Module Ext2Readdir.
Import Ext2 Ext2Inv Ext2Spec Ext2Map Ext2File Ext2FileSpec Ext2Dir Ext2DirSpec Ext2DirOps.
Local Open Scope ext2_scope.

(** The string in an array of characters. *)
Fixpoint c_string (l : list Z) : list Z :=
  match l with [] => [] | c :: l => if c =? 0 then [] else c :: c_string l end.

Lemma c_string_app name l : name_ok name -> c_string (name ++ 0 :: l) = name.
Proof.
  induction 1 as [|c name Hc Hn IH]; [done|]. cbn. destruct (Z.eqb_spec c 0); [lia|]. by rewrite IH.
Qed.

(** What is left of a list of entries behind the first one in use. *)
Fixpoint next_live (rs : list rec) : option (rec * list rec) :=
  match rs with
  | [] => None
  | e :: rs => if r_inode e =? 0 then next_live rs else Some (e, rs)
  end.

Lemma next_live_spec rs : live rs = match next_live rs with Some (e, rs') => live_of e ++ live rs' | None => [] end.
Proof.
  induction rs as [|e rs IH]; [done|]. cbn [next_live]. rewrite live_cons. unfold live_of at 1.
  destruct (Z.eqb_spec (r_inode e) 0); [done|]. by rewrite live_of_live.
Qed.

Lemma next_live_Some rs e rs' : next_live rs = Some (e, rs') -> r_inode e <> 0 /\ e ∈ rs /\ (length rs' < length rs)%nat.
Proof.
  induction rs as [|e0 rs IH]; [done|]. cbn [next_live length]. destruct (Z.eqb_spec (r_inode e0) 0).
  - intros (H1 & H2 & H3)%IH. split; [done|]. split; [by right|lia].
  - intros [= <- <-]. split; [done|]. split; [by left|lia].
Qed.

Section Readdir.
Context (g : geometry) (s : fs) (dir : inode) (ess : list (list rec)).
Notation bs := (s_block_size g).
Notation limit := (12 + s_block_size g / 4).
Context (HG : Geo g) (HW : Wf g s) (HDv : Dev g s) (HM : Mapped g s) (HD : Directory g s dir ess).
Context (Hbs : bs < 2 ^ 16) (Hholes : Forall (fun es => es <> []) ess).

(** The entries from position [pos] of the directory on are [rs]. *)
Definition Cursor (pos : Z) (rs : list rec) : Prop :=
  (exists b pre post, ess !! b = Some (pre ++ post) /\ post <> [] /\
     pos = Z.of_nat b * bs + total_size pre /\ rs = post ++ mjoin (drop (S b) ess)) \/
  (pos = Z.of_nat (length ess) * bs /\ rs = []).

Lemma cursor_block b : (b <= length ess)%nat -> Cursor (Z.of_nat b * bs) (mjoin (drop b ess)).
Proof.
  intros Hb. destruct (decide (b < length ess)%nat) as [Hlt|Hge].
  - left. destruct (lookup_lt_is_Some_2 ess b Hlt) as [es Hes]. exists b, [], es. split; [done|].
    split; [by apply (proj1 (Forall_lookup _ _) Hholes b)|]. rewrite total_size_nil, (drop_S ess es b Hes). split; [lia|done].
  - right. rewrite drop_ge by lia. replace b with (length ess) by lia. done.
Qed.

Lemma block_ok b es : ess !! b = Some es -> Forall rec_ok es /\ total_size es = bs.
Proof.
  intros Hb. destruct (di_blocks g s dir ess HD b es Hb) as [[_ ->]|(_ & ? & ?)]; [|done].
  by destruct (proj1 (Forall_lookup _ _) Hholes b [] Hb).
Qed.

Lemma cursor_next pos e rs : Cursor pos (e :: rs) -> Cursor (pos + rsize e) rs.
Proof.
  intros [(b & pre & post & Hb & Hne & -> & Hrs)|[_ ?]]; [|done]. destruct post as [|e0 post]; [done|].
  cbn [app] in Hrs. injection Hrs as <- ->. destruct post as [|e1 post].
  - destruct (block_ok b _ Hb) as [_ Hsz]. sizes. pose proof (lookup_lt_Some _ _ _ Hb).
    replace (Z.of_nat b * bs + total_size pre + rsize e) with (Z.of_nat (S b) * bs) by lia. apply cursor_block. lia.
  - left. exists b, (pre ++ [e]), (e1 :: post). rewrite <-app_assoc. split; [done|]. split; [done|]. split; [sizes; lia|done].
Qed.

Lemma cursor_end pos : Cursor pos [] -> pos = isize dir.
Proof.
  intros [(b & pre & post & _ & Hne & _ & Hrs)|[-> _]]; [by destruct post|]. symmetry. apply HD.
Qed.

(** One call, up to the entry it finds. *)
Lemma readdir_at pos e rs c : Cursor pos (e :: rs) ->
  exists b pre post p c1 c2, pos < isize dir /\ pos + rsize e < 2 ^ 32 /\ pos / bs = Z.of_nat b /\ pos mod bs = total_size pre /\
    ext2_get_block g (Z.of_nat b) (with_calls c s) = Some (p, with_calls c1 s) /\
    fetch g p (with_calls c1 s) = Some (Some (layout (pre ++ e :: post)), with_calls c2 s) /\ rec_ok e.
Proof.
  intros [(b & pre & post & Hb & Hne & -> & Hrs)|[_ ?]]; [|done]. destruct post as [|e0 post]; [done|].
  cbn [app] in Hrs. injection Hrs as <- ->. destruct (block_ok b _ Hb) as [Hok Hsz]. sizes.
  pose proof (rsize_ge e). pose proof (total_size_nonneg pre). pose proof (total_size_nonneg post).
  destruct (block_number g s dir ess b _ HG HD Hb) as (_ & Hin & H32 & _).
  destruct (byte_place g (Z.of_nat b) (total_size pre)) as [Hdiv Hmod]; [lia|lia|].
  destruct (get_block_at g s dir ess HG HW HDv HM HD c b _ Hb) as (p & c1 & E & _ & [[_ He]|(Hp & Er & _)]); [by destruct pre|].
  exists b, pre, post, p, c1, (S c1). split; [lia|]. split; [lia|]. split; [done|]. split; [done|]. split; [done|].
  apply Forall_app in Hok as [_ [? _]%Forall_cons]. split; [|done]. unfold fetch. destruct (Z.eqb_spec p 0); [done|]. exact Er.
Qed.
(** ** The calls *)

Section Calls.
Context (f : file) (Hinode : f_inode f = dir) (Hflag : has_flag (flags f) FILE_OPEN_READ = true).

(** [dirent->name] after an entry was copied. *)
Definition name_after (e : rec) (d : dirent) : list Z := r_name e ++ 0 :: drop (S (length (r_name e))) (d_name d).

Lemma copy_name pre e post d : rec_ok e -> length (d_name d) = 256%nat ->
  (name ← blit (d_name d) 0 (layout (pre ++ e :: post)) (total_size pre + 8) (r_nlen e); aset name (r_nlen e) 0) = Some (name_after e d).
Proof.
  intros He Hd. pose proof (ro_nlen e He). pose proof (ro_name e He) as Hn. pose proof (r_name_length e He) as Hl.
  replace (layout (pre ++ e :: post)) with
    ((layout pre ++ le 4 (r_inode e) ++ le 2 (rsize e) ++ le 1 (r_nlen e) ++ le 1 (r_type e)) ++ r_body e ++ layout post)
    by (rewrite layout_app, layout_cons; unfold rbytes; by rewrite <-!app_assoc).
  set (h := layout pre ++ _). assert (length h = Z.to_nat (total_size pre + 8)) as Hh.
  { unfold h, total_size. rewrite !length_app, !le_length. lia. }
  unfold blit. rewrite Hd, !length_app, Hh. pose proof (total_size_nonneg pre).
  destruct (Z.leb_spec (0 + r_nlen e) (Z.of_nat 256)); [|lia].
  destruct (Z.leb_spec (total_size pre + 8 + r_nlen e) (Z.of_nat (Z.to_nat (total_size pre + 8) + (length (r_body e) + length (layout post))))); [|lia].
  cbn [andb]. rewrite bind_Some_l, drop_app_length' by done. rewrite take_app_le by lia. fold (r_name e).
  change (take (Z.to_nat 0) (d_name d)) with (@nil Z). cbn [app]. rewrite Z.add_0_l.
  rewrite aset_Some by (rewrite length_app, length_drop, Hd; lia). f_equal. unfold name_after.
  rewrite insert_app_r_alt by lia. f_equal. replace (Z.to_nat (r_nlen e) - length (r_name e))%nat with 0%nat by lia.
  destruct (drop (Z.to_nat (r_nlen e)) (d_name d)) as [|x l] eqn:Ed.
  - apply (f_equal length) in Ed. rewrite length_drop, Hd in Ed. cbn in Ed. lia.
  - cbn. f_equal. replace (S (length (r_name e))) with (Z.to_nat (r_nlen e) + 1)%nat by lia. rewrite <-drop_drop, Ed. done.
Qed.

Lemma readdir_next rs pos fuel d c : Cursor pos rs -> 0 <= pos -> length (d_name d) = 256%nat -> (length rs < fuel)%nat ->
  exists c', match next_live rs with
  | None => ext2_readdir_dir g fuel (with_position pos f) d (with_calls c s) =
      Some ((- ENOENT, with_position (isize dir) f, d), with_calls c' s)
  | Some (e, rs') => exists pos', 0 <= pos' /\ Cursor pos' rs' /\
      ext2_readdir_dir g fuel (with_position pos f) d (with_calls c s) =
        Some ((0, with_position pos' f, mk_dirent (r_inode e) (r_type e) (name_after e d)), with_calls c' s)
  end.
Proof.
  revert pos fuel c. induction rs as [|e rs IH]; intros pos fuel c HC Hpos Hd Hfuel; (destruct fuel as [|fuel]; [lia|]);
    cbn [ext2_readdir_dir next_live]; change (flags (with_position pos f)) with (flags f); rewrite Hflag; cbn [negb position with_position f_inode];
    rewrite Hinode.
  - exists c. rewrite (cursor_end pos HC), Z.leb_refl. done.
  - destruct (readdir_at pos e rs (S c) HC) as (b & pre & post & p & c1 & c2 & Hlt & H32 & Hdiv & Hmod & Eg & Ef & He).
    pose proof (geo_bs g HG). pose proof (rsize_ge e). pose proof (total_size_nonneg pre).
    destruct (Z.leb_spec (isize dir) pos); [lia|]. unfold divide. destruct (Z.eqb_spec bs 0); [lia|]. rewrite bind_ret_l. cbn [fst snd].
    assert (0 <= pos / bs < 2 ^ 32) by (split; [lia|apply Z.div_lt_upper_bound; nia]).
    assert (total_size pre < bs) by (rewrite <-Hmod; apply Z.mod_pos_bound; lia).
    rewrite Hdiv, Hmod, !u32_small by lia. go (call_ok (with_calls c s) (wf_io g s HW)). cbn [negb]. go Eg. go Ef.
    rewrite (bind_lift _ _ _ _ (here_inode pre post e He)), (bind_lift _ _ _ _ (here_rec_len pre post e He)). cbv beta zeta.
    rewrite u64_small by lia. destruct (Z.eqb_spec (rsize e) 0); [lia|]. rewrite orb_false_r.
    change (with_position (pos + rsize e) (with_position pos f)) with (with_position (pos + rsize e) f).
    destruct (Z.eqb_spec (r_inode e) 0) as [Hi|Hi].
    + apply IH; [by apply cursor_next|lia|done|cbn in Hfuel; lia].
    + exists c2, (pos + rsize e). split; [lia|]. split; [by apply cursor_next|].
      rewrite (bind_lift _ _ _ _ (here_name_len pre post e He)), (bind_lift _ _ _ _ (here_file_type pre post e He)). cbv beta.
      pose proof (copy_name pre e post d He Hd) as (nm & E1 & E2)%bind_Some.
      rewrite (bind_lift _ _ _ _ E1), (bind_lift _ _ _ _ E2). done.
Qed.
End Calls.
End Readdir.

(** ** Reading all of it *)

(** The entries of [calls] calls of [ext2_readdir_dir], up to the first error. *)
Fixpoint read_all (g : geometry) (n fuel : nat) (f : file) (d : dirent) : M (list (list Z * (Z * Z)) * Z) :=
  match n with
  | O => ret ([], 0)
  | S n =>
      r <- ext2_readdir_dir g fuel f d;
      let '(r, f, d) := r in
      if r <? 0 then ret ([], r)
      else l <- read_all g n fuel f d; ret ((c_string (d_name d), (d_inode d, d_type d)) :: l.1, l.2)
  end.

Lemma read_all_ok g s dir ess f (HG : Geo g) (HW : Wf g s) (HDv : Dev g s) (HM : Mapped g s) (HD : Directory g s dir ess) :
  s_block_size g < 2 ^ 16 -> Forall (fun es => es <> []) ess -> f_inode f = dir -> has_flag (flags f) FILE_OPEN_READ = true ->
  forall n fuel rs pos d c, Cursor g ess pos rs -> 0 <= pos -> length (d_name d) = 256%nat -> (length rs < fuel)%nat ->
    (length (live rs) < n)%nat -> Forall name_ok (names rs) -> Forall rec_ok rs ->
    exists c', read_all g n fuel (with_position pos f) d (with_calls c s) = Some ((live rs, - ENOENT), with_calls c' s).
Proof.
  intros Hbs Hholes Hi Hfl. induction n as [|n IH]; intros fuel rs pos d c HC Hpos Hd Hfuel Hn Hnames Hok; [lia|]. cbn [read_all].
  destruct (readdir_next g s dir ess HG HW HDv HM HD Hbs Hholes f Hi Hfl rs pos fuel d c HC Hpos Hd Hfuel) as [c' H].
  unfold names in Hnames. rewrite next_live_spec in *. destruct (next_live rs) as [[e rs']|] eqn:E.
  - destruct (next_live_Some rs e rs' E) as (He0 & Hin & Hlen). destruct H as (pos' & Hpos' & HC' & H). go H. cbn [Z.ltb Z.compare].
    rewrite live_of_live in * by done. rewrite fmap_app in Hnames. cbn in Hnames, Hn. apply Forall_cons in Hnames as [Hne Hnames].
    pose proof (proj1 (Forall_forall _ _) Hok e Hin) as Hoke.
    assert (Forall rec_ok rs') as Hok'.
    { clear -E Hok. revert E. induction Hok as [|x rs Hx Hok IHok]; [done|]. cbn. destruct (r_inode x =? 0); [done|]. by intros [= _ <-]. }
    edestruct (IH fuel rs' pos') as [c2 E2]; [exact HC'|exact Hpos'| |lia|lia|exact Hnames|exact Hok'|].
    2: { go E2. exists c2. cbn [fst snd d_name d_inode d_type]. unfold name_after. rewrite c_string_app by done. done. }
    cbn [d_name]. unfold name_after. rewrite length_app. cbn [length]. rewrite length_drop, Hd.
    pose proof (r_name_length e Hoke). pose proof (ro_nlen e Hoke). lia.
  - go H. exists c'. done.
Qed.

(** C11: reading a directory without holes, whose blocks are full of well-formed entries, from its start by [ext2_readdir_dir], while no call
    fails and with blocks of less than 64 KB, gives every
    name in use exactly once, in the order of the blocks, with its inode number and type,
    skipping the free entries, and then -ENOENT; the device does not change. *)
Theorem ext2_readdir_lists g s dir ess f d fuel (HG : Geo g) (HW : Wf g s) (HDv : Dev g s) (HM : Mapped g s)
    (HD : Directory g s dir ess) (Hbs : s_block_size g < 2 ^ 16) (Hholes : Forall (fun es => es <> []) ess)
    (Hinode : f_inode f = dir) (Hpos : position f = 0) (Hflag : has_flag (flags f) FILE_OPEN_READ = true)
    (Hd : length (d_name d) = 256%nat) (Hfuel : (length (mjoin ess) < fuel)%nat)
    (Hnames : Forall name_ok (fst <$> listing ess)) :
  exists c, read_all g (S (length (listing ess))) fuel f d s = Some ((listing ess, - ENOENT), with_calls c s).
Proof.
  destruct (read_all_ok g s dir ess f HG HW HDv HM HD Hbs Hholes Hinode Hflag (S (length (listing ess))) fuel (mjoin ess) 0 d (calls s)) as [c E];
    rewrite ?live_join; try done; try lia.
  - apply (cursor_block g ess Hholes 0). lia.
  - unfold names. by rewrite live_join.
  - apply Forall_join, Forall_forall. intros es [b Hb]%list_elem_of_lookup. by apply (block_ok g s dir ess HD Hholes b).
  - exists c. rewrite live_join in E. replace (with_position 0 f) with f in E by (destruct f; cbn in *; by subst).
    by replace (with_calls (calls s) s) with s in E by (by destruct s).
Qed.

Lemma ext2_readdir_lists_witness :
  exists c, read_all small_geo (S (length (listing [small_entries]))) 3 (mk_file 0 1 small_dir) (mk_dirent 0 0 (replicate 256 0)) small_dir_fs
    = Some ((listing [small_entries], - ENOENT), with_calls c small_dir_fs).
Proof.
  apply (ext2_readdir_lists small_geo small_dir_fs small_dir [small_entries] (mk_file 0 1 small_dir) (mk_dirent 0 0 (replicate 256 0)) 3 small_geo_ok
    (proj1 small_dir_ok) (proj2 small_dir_ok) small_dir_mapped small_directory); try done; try (cbn; lia).
  - by apply Forall_singleton.
  - cbn. repeat (apply Forall_cons; split; [apply Forall_singleton; lia|]). done.
Defined.

(** ** When the loops end *)

(** A loop over states of which each turn faults, ends or goes on. *)
Section Loop.
Context {S R : Type} (body : S -> option (R + S)) (at_ : S -> Z) (N : Z).

Fixpoint loop (fuel : nat) (x : S) : option R :=
  match fuel with
  | O => None
  | Datatypes.S fuel => r ← body x; match r with inl r => Some r | inr y => loop fuel y end
  end.

(** [n] turns that go on. *)
Fixpoint goes (n : nat) (x : S) : option S :=
  match n with O => Some x | Datatypes.S n => match body x with Some (inr y) => goes n y | _ => None end end.

(** Each turn that goes on is below [N] and moves ahead or stays; one that stays goes on
    the same way for ever, and has the reason [idle] for it. *)
Context (idle : S -> Prop).
Context (Hstep : forall x y, 0 <= at_ x -> body x = Some (inr y) ->
  at_ x < N /\ at_ x <= at_ y /\ (at_ y = at_ x -> body y = Some (inr y) /\ idle y)).

Lemma loop_none n fuel x y : goes n x = Some y -> body y = None \/ body y = Some (inr y) -> loop fuel x = None.
Proof.
  intros Hg Hy. revert n x Hg. induction fuel as [|fuel IH]; intros [|n] x Hg; cbn in *; [done|done| |].
  - injection Hg as ->. destruct Hy as [-> | ->]; [done|]. cbn. by apply (IH O).
  - destruct (body x) as [[r|z]|]; [done| |done]. cbn. by apply (IH n).
Qed.

Lemma loop_stuck fuel y : body y = Some (inr y) -> loop fuel y = None.
Proof. intros Hy. by apply (loop_none O fuel y y); [|right]. Qed.

(** How the loop ends: with a result, after turns enough; at a turn that faults; or never. *)
Definition outcome (k : Z) (x : S) : Prop :=
  (exists r, forall fuel, k < Z.of_nat fuel -> loop fuel x = Some r) \/
  (exists n y, Z.of_nat n <= k /\ goes n x = Some y /\ body y = None) \/
  (exists n y, Z.of_nat n <= k /\ goes n x = Some y /\ body y = Some (inr y) /\ idle y).

Lemma outcome_weaken k k' x : k <= k' -> outcome k x -> outcome k' x.
Proof.
  intros Hk [(r & H)|[(n & y & Hn & H)|(n & y & Hn & H)]]; [left; exists r; intros fuel Hf; apply H; lia|right; left; exists n, y; split; [lia|done]|right; right; exists n, y; split; [lia|done]].
Qed.

Lemma outcome_step k x y : 0 <= k -> body x = Some (inr y) -> outcome k y -> outcome (k + 1) x.
Proof.
  intros Hk E [(r & H)|[(n & z & Hn & Hg & H)|(n & z & Hn & Hg & H)]].
  - left. exists r. intros [|fuel] Hf; [lia|]. cbn. rewrite E. cbn. apply H. lia.
  - right. left. exists (Datatypes.S n), z. cbn. rewrite E. split; [lia|done].
  - right. right. exists (Datatypes.S n), z. cbn. rewrite E. split; [lia|done].
Qed.

Lemma loop_outcome m x : 0 <= at_ x -> N - at_ x <= Z.of_nat m -> outcome (Z.of_nat m) x.
Proof.
  revert x. induction m as [|m IH]; intros x Hx Hm; (destruct (body x) as [[r|y]|] eqn:E;
    [left; exists r; intros [|fuel] Hf; [lia|]; cbn; by rewrite E| |right; left; exists O, x; split; [lia|done]]); destruct (Hstep x y Hx E) as (HN & Hle & Hst); [lia|].
  replace (Z.of_nat (Datatypes.S m)) with (Z.of_nat m + 1) by lia. apply (outcome_step _ x y); [lia|done|].
  destruct (decide (at_ y = at_ x)) as [Heq|Hne]; [|apply IH; lia]. right. right. exists O, y. split; [lia|]. by destruct (Hst Heq).
Qed.
End Loop.

Definition byte_buffer (buf : list Z) : Prop := Forall (fun b => 0 <= b < 2 ^ 8) buf.

Lemma unle_range l : byte_buffer l -> 0 <= unle l < 2 ^ (8 * Z.of_nat (length l)).
Proof.
  induction 1 as [|b l Hb Hl IH]; [done|]. cbn [unle length]. replace (8 * Z.of_nat (S (length l))) with (8 + 8 * Z.of_nat (length l)) by lia.
  rewrite Z.pow_add_r by lia. lia.
Qed.

Lemma rec_len_range buf off v : byte_buffer buf -> get_rec_len buf off = Some v -> 0 <= v < 2 ^ 16.
Proof.
  intros Hb. unfold get_rec_len, rd, field. case_match eqn:E; [|done]. intros [= <-].
  apply andb_true_iff in E as [E1%Z.leb_le E2%Z.leb_le].
  pose proof (unle_range (take 2 (drop (Z.to_nat (off + 4)) buf)) ltac:(by apply Forall_take, Forall_drop)) as H.
  rewrite length_take, length_drop in H. by replace (2 `min` (length buf - Z.to_nat (off + 4)))%nat with 2%nat in H by lia.
Qed.

(** The four loops as instances. *)
Section Scans.
Context (bs : Z) (buf : list Z) (Hbuf : byte_buffer buf) (Hbs : bs < 2 ^ 16).

Definition lookup_body (name : list Z) (off : Z) : option (option Z + Z) :=
  if off <? bs then
    inode ← get_inode buf off;
    rec_len ← get_rec_len buf off;
    if (inode =? 0) || (rec_len =? 0) then Some (inr (u32 (off + rec_len)))
    else
      name_len ← get_name_len buf off;
      hit ← (if name_len =? Z.of_nat (length name) then same_name (Z.to_nat name_len) buf (off + 8) name else Some false);
      if (hit : bool) then Some (inl (Some inode)) else Some (inr (u32 (off + rec_len)))
  else Some (inl None).

Definition remove_body (name : list Z) (x : option Z * Z) : option (option (list Z) + option Z * Z) :=
  let '(prev, off) := x in
  if off <? bs then
    inode ← get_inode buf off;
    rec_len ← get_rec_len buf off;
    name_len ← get_name_len buf off;
    hit ← (if negb (inode =? 0) && (name_len =? Z.of_nat (length name))
           then same_name (length name) buf (off + 8) name else Some false);
    if (hit : bool) then
      b ← match prev with
          | Some p => r ← get_rec_len buf p; wr buf (p + 4) 2 (r + rec_len)
          | None => wr buf off 4 0
          end;
      Some (inl (Some b))
    else Some (inr (Some off, u32 (off + rec_len)))
  else Some (inl None).

Definition empty_body (off : Z) : option (bool + Z) :=
  if off <? bs then
    inode ← get_inode buf off;
    rec_len ← get_rec_len buf off;
    name_len ← get_name_len buf off;
    skip ← (if negb (inode =? 0) then
              if name_len =? 1 then c ← aget buf (off + 8); Some (c =? 46)
              else if name_len =? 2 then
                c ← aget buf (off + 8);
                if c =? 46 then d ← aget buf (off + 9); Some (d =? 46) else Some false
              else Some false
            else Some true);
    if (skip : bool) then Some (inr (u32 (off + rec_len))) else Some (inl false)
  else Some (inl true).

(** Case analysis on what a turn reads; [IH] is for the turns behind it. *)
Ltac turn := repeat (match goal with
  | |- context [get_inode buf ?o] => destruct (get_inode buf o)
  | |- context [get_rec_len buf ?o] => destruct (get_rec_len buf o)
  | |- context [get_name_len buf ?o] => destruct (get_name_len buf o)
  | |- context [same_name ?n buf ?o ?m] => destruct (same_name n buf o m)
  | |- context [aget buf ?o] => destruct (aget buf o)
  | |- context [wr ?b ?o ?n ?v] => destruct (wr b o n v)
  | |- context [match ?p with Some _ => _ | None => _ end] => is_var p; destruct p
  | |- context [if ?b then _ else _] => destruct b
  end; rewrite ?bind_Some_l; try done).

Lemma lookup_loop name fuel off : lookup_scan fuel bs name off buf = loop (lookup_body name) fuel off.
Proof.
  revert off. induction fuel as [|fuel IH]; intros off; [done|]. cbn [lookup_scan loop]. set (K := loop _ fuel) in *.
  unfold lookup_body. turn.
Qed.

Lemma remove_loop name fuel prev off : remove_scan fuel bs name prev off buf = loop (remove_body name) fuel (prev, off).
Proof.
  revert prev off. induction fuel as [|fuel IH]; intros prev off; [done|]. cbn [remove_scan loop]. set (K := loop _ fuel) in *.
  unfold remove_body. turn.
Qed.

Lemma empty_loop fuel off : empty_scan fuel bs off buf = loop empty_body fuel off.
Proof.
  revert off. induction fuel as [|fuel IH]; intros off; [done|]. cbn [empty_scan loop]. set (K := loop _ fuel) in *.
  unfold empty_body. turn.
Qed.

(** A turn adds the length of the entry to the offset. *)
Lemma next_offset off v : 0 <= off < bs -> get_rec_len buf off = Some v -> u32 (off + v) = off + v /\ off <= off + v.
Proof. intros Ho Hv. pose proof (rec_len_range buf off v Hbuf Hv). rewrite u32_small by lia. lia. Qed.

Definition add_body (entry_size ino ft : Z) (name : list Z) (off : Z) : option (option (list Z) + Z) :=
  if off <? bs then
    inode ← get_inode buf off;
    rec_len ← get_rec_len buf off;
    name_len ← get_name_len buf off;
    let actual_size := dirent_size name_len in
    if (inode =? 0) || (u32 (entry_size + actual_size) <=? rec_len) then
      b ← (if negb (inode =? 0) then
             b ← wr buf (off + 4) 2 actual_size;
             put_entry b (off + actual_size) ino (Some (u32 (rec_len - actual_size))) ft name
           else put_entry buf off ino None ft name);
      Some (inl (Some b))
    else Some (inr (u32 (off + rec_len)))
  else Some (inl None).

Lemma add_loop entry_size ino ft name fuel off :
  add_scan fuel bs entry_size ino ft name off buf = loop (add_body entry_size ino ft name) fuel off.
Proof.
  revert off. induction fuel as [|fuel IH]; intros off; [done|]. cbn [add_scan loop]. set (K := loop _ fuel) in *.
  unfold add_body. turn; match goal with |- context [put_entry ?b ?o ?i ?r ?f ?n] => by destruct (put_entry b o i r f n) end.
Qed.

(** [body] goes on only behind the entry at hand. *)
Lemma lookup_moves name off y : lookup_body name off = Some (inr y) ->
  off < bs /\ exists v, get_rec_len buf off = Some v /\ y = u32 (off + v).
Proof. unfold lookup_body. destruct (Z.ltb_spec off bs); [|done]. split; [done|]. revert H0. turn; intros [= <-]; eauto. Qed.

Lemma empty_moves off y : empty_body off = Some (inr y) ->
  off < bs /\ exists v, get_rec_len buf off = Some v /\ y = u32 (off + v).
Proof. unfold empty_body. destruct (Z.ltb_spec off bs); [|done]. split; [done|]. revert H0. turn; intros [= <-]; eauto. Qed.

Lemma add_moves entry_size ino ft name off y : add_body entry_size ino ft name off = Some (inr y) ->
  off < bs /\ exists v, get_rec_len buf off = Some v /\ y = u32 (off + v).
Proof.
  unfold add_body. destruct (Z.ltb_spec off bs); [|done]. split; [done|]. revert H0. turn; try (intros [= <-]; eauto; done).
  all: match goal with |- context [put_entry ?b ?o ?i ?r ?f ?n] => by destruct (put_entry b o i r f n) end.
Qed.

Lemma remove_moves name prev off y : remove_body name (prev, off) = Some (inr y) ->
  off < bs /\ (exists v, get_rec_len buf off = Some v /\ y = (Some off, u32 (off + v))) /\ remove_body name (Some off, off) = Some (inr y).
Proof. unfold remove_body. destruct (Z.ltb_spec off bs); [|done]. split; [done|]. revert H0. turn; intros [= <-]; eauto. Qed.

(** The outcome of the loops whose state is the offset. *)
Definition empty_entry (off : Z) : Prop := get_rec_len buf off = Some 0.

Lemma offset_loop {R} (body : Z -> option (R + Z)) : 0 < bs ->
  (forall off y, body off = Some (inr y) -> off < bs /\ exists v, get_rec_len buf off = Some v /\ y = u32 (off + v)) -> outcome body empty_entry bs 0.
Proof.
  intros H3 Hb. apply (outcome_weaken _ _ (Z.of_nat (Z.to_nat bs))); [lia|]. apply (loop_outcome body (fun off => off) bs); [|lia|lia]. intros x y Hx E.
  destruct (Hb x y E) as (Hlt & v & Hv & ->). destruct (next_offset x v ltac:(lia) Hv) as [Eu Hle]. rewrite Eu in *.
  split; [done|]. split; [done|]. intros Heq. assert (v = 0) as -> by lia. unfold empty_entry. rewrite Heq in *. done.
Qed.

Lemma remove_outcome name : 0 < bs -> outcome (remove_body name) (fun x => empty_entry x.2) bs (None, 0).
Proof.
  intros H3. apply (outcome_weaken _ _ (Z.of_nat (Z.to_nat bs))); [lia|]. apply (loop_outcome (remove_body name) snd bs); [|cbn; lia|cbn; lia]. intros [prev x] y Hx E. cbn [snd] in *.
  destruct (remove_moves name prev x y E) as (Hlt & (v & Hv & ->) & E').
  destruct (next_offset x v ltac:(lia) Hv) as [Eu Hle]. rewrite Eu in *. cbn [snd]. split; [done|]. split; [done|]. intros Heq. assert (v = 0) as -> by lia. unfold empty_entry. cbn. rewrite Heq in *. done.
Qed.

(** How a scan ends that repeats [body] from [x] on: with one result, within one turn per byte; at a turn that reads or writes outside of the block;
    or never, because it came to an entry of length 0, where it stays. *)
Definition scan_ends {St R} (body : St -> option (R + St)) (off : St -> Z) (x : St) (scan : nat -> option R) : Prop :=
  (forall fuel, scan fuel = loop body fuel x) /\
  ((exists r, forall fuel, bs < Z.of_nat fuel -> scan fuel = Some r) \/
   (exists n y, Z.of_nat n <= bs /\ goes body n x = Some y /\ body y = None /\ forall fuel, scan fuel = None) \/
   (exists n y, Z.of_nat n <= bs /\ goes body n x = Some y /\ body y = Some (inr y) /\ get_rec_len buf (off y) = Some 0 /\ forall fuel, scan fuel = None)).

Lemma scan_ends_intro {St R} (body : St -> option (R + St)) off x scan : (forall fuel, scan fuel = loop body fuel x) -> outcome body (fun y => empty_entry (off y)) bs x -> scan_ends body off x scan.
Proof.
  intros Hs Ho. split; [done|]. destruct Ho as [(r & H)|[(n & y & Hn & Hg & Hy)|(n & y & Hn & Hg & Hy & H0)]].
  - left. exists r. intros fuel Hf. rewrite Hs. by apply H.
  - right. left. exists n, y. repeat (split; [done|]). intros fuel. rewrite Hs. by apply (loop_none body n fuel x y Hg); left.
  - right. right. exists n, y. repeat (split; [done|]). intros fuel. rewrite Hs. by apply (loop_none body n fuel x y Hg); right.
Qed.

End Scans.

(** C37: each of the four loops over the entries of a block of less than 64 KB, whatever bytes it holds, has one of three outcomes: it ends with one result
    within one turn per byte of the block; it comes within as many turns to one that reads or writes outside of the block;
    or it comes to an entry of length 0 and never ends. *)
Theorem dir_scans_bounded bs buf name entry_size ino ft (Hbuf : byte_buffer buf) (Hbs : 0 < bs < 2 ^ 16) :
  scan_ends bs buf (add_body bs buf entry_size ino ft name) (fun off => off) 0 (fun fuel => add_scan fuel bs entry_size ino ft name 0 buf) /\
  scan_ends bs buf (remove_body bs buf name) snd (None, 0) (fun fuel => remove_scan fuel bs name None 0 buf) /\
  scan_ends bs buf (empty_body bs buf) (fun off => off) 0 (fun fuel => empty_scan fuel bs 0 buf) /\
  scan_ends bs buf (lookup_body bs buf name) (fun off => off) 0 (fun fuel => lookup_scan fuel bs name 0 buf).
Proof.
  split_and!; apply scan_ends_intro.
  - intros fuel. apply add_loop.
  - apply (offset_loop bs buf Hbuf); [lia|lia|apply add_moves].
  - intros fuel. apply remove_loop.
  - apply (remove_outcome bs buf Hbuf); lia.
  - intros fuel. apply empty_loop.
  - apply (offset_loop bs buf Hbuf); [lia|lia|apply empty_moves].
  - intros fuel. apply lookup_loop.
  - apply (offset_loop bs buf Hbuf); [lia|lia|apply lookup_moves].
Qed.

Lemma dir_scans_bounded_witness :
  let buf := layout small_entries in
  scan_ends 128 buf (add_body 128 buf 12 5 1 [99]) (fun off => off) 0 (fun fuel => add_scan fuel 128 12 5 1 [99] 0 buf) /\
  scan_ends 128 buf (remove_body 128 buf [99]) snd (None, 0) (fun fuel => remove_scan fuel 128 [99] None 0 buf) /\
  scan_ends 128 buf (empty_body 128 buf) (fun off => off) 0 (fun fuel => empty_scan fuel 128 0 buf) /\
  scan_ends 128 buf (lookup_body 128 buf [99]) (fun off => off) 0 (fun fuel => lookup_scan fuel 128 [99] 0 buf).
Proof.
  apply (dir_scans_bounded 128 (layout small_entries) [99] 12 5 1); [|lia].
  apply Forall_forall. intros b Hb. assert (forallb (fun b => (0 <=? b) && (b <? 256)) (layout small_entries) = true) as H by (vm_compute; reflexivity).
  pose proof (proj1 (forallb_forall _ _) H b) as Hx. rewrite <-list_elem_of_In in Hx. specialize (Hx Hb). lia.
Defined.

(** In a cleared block every entry has length 0: looking up, removing and testing for
    emptiness never end there. *)
Theorem cleared_block_never_ends bs name fuel (Hbs : 8 <= bs < 2 ^ 16) :
  let buf := replicate (Z.to_nat bs) 0 in
  lookup_scan fuel bs name 0 buf = None /\ remove_scan fuel bs name None 0 buf = None /\ empty_scan fuel bs 0 buf = None.
Proof.
  intros buf. assert (forall n off, 0 <= off -> off + Z.of_nat n <= bs -> rd buf off n = Some 0) as Hrd.
  { intros n off Ho Hn. unfold rd, field, buf. rewrite length_replicate.
    destruct (Z.leb_spec 0 off), (Z.leb_spec (off + Z.of_nat n) (Z.of_nat (Z.to_nat bs))); cbn [andb]; try lia. f_equal.
    rewrite drop_replicate, take_replicate. generalize (n `min` (Z.to_nat bs - Z.to_nat off))%nat. induction n0; [done|]. cbn [replicate unle]. lia. }
  rewrite lookup_loop, remove_loop, empty_loop.
  assert (lookup_body bs buf name 0 = Some (inr 0)) as H1.
  { unfold lookup_body, get_inode, get_rec_len. rewrite !Hrd by (cbn; lia). by destruct (Z.ltb_spec 0 bs); [|lia]. }
  assert (empty_body bs buf 0 = Some (inr 0)) as H2.
  { unfold empty_body, get_inode, get_rec_len, get_name_len. rewrite !Hrd by (cbn; lia). by destruct (Z.ltb_spec 0 bs); [|lia]. }
  assert (forall p, remove_body bs buf name (p, 0) = Some (inr (Some 0, 0))) as H3.
  { intros p. unfold remove_body, get_inode, get_rec_len, get_name_len. rewrite !Hrd by (cbn; lia). by destruct (Z.ltb_spec 0 bs); [|lia]. }
  split_and!; [by apply loop_stuck| |by apply loop_stuck]. destruct fuel as [|fuel]; [done|]. cbn [loop]. rewrite H3, bind_Some_l. by apply loop_stuck.
Qed.

(** On a block full of well-formed entries the four loops compute the functions
    [add_rec], [remove_rec], [empty_rec] and [find_rec] on the list of the entries. *)
Theorem dir_scans_reference bs es name ino ft (Hok : Forall rec_ok es) (Hsize : total_size es = bs) (Hbs : bs < 2 ^ 16)
    (Hname : name_ok name) (Hlen : Z.of_nat (length name) < 2 ^ 8) (Hroom : Forall (holds_name name) es) :
  let fuel := S (Z.to_nat bs) in
  add_scan fuel bs (dirent_size (Z.of_nat (length name))) ino ft name 0 (layout es) = Some (layout <$> add_rec ino ft name es) /\
  remove_scan fuel bs name None 0 (layout es) = Some (layout <$> remove_rec name None es) /\
  empty_scan fuel bs 0 (layout es) = Some (empty_rec es) /\
  lookup_scan fuel bs name 0 (layout es) = Some (find_rec name es).
Proof.
  intros fuel. assert (Z.to_nat (total_size es) < fuel)%nat by (unfold fuel; lia). split_and!.
  - by apply (add_scan_ok ino ft name Hlen bs fuel []).
  - by apply (remove_scan_ok bs name fuel [] None).
  - by apply (empty_scan_ok bs fuel []).
  - by apply (lookup_scan_ok bs name fuel []).
Qed.

Lemma dir_scans_reference_witness :
  add_scan 129 128 (dirent_size 1) 5 1 [99] 0 (layout small_entries) = Some (layout <$> add_rec 5 1 [99] small_entries) /\
  remove_scan 129 128 [99] None 0 (layout small_entries) = Some (layout <$> remove_rec [99] None small_entries) /\
  empty_scan 129 128 0 (layout small_entries) = Some (empty_rec small_entries) /\
  lookup_scan 129 128 [99] 0 (layout small_entries) = Some (find_rec [99] small_entries).
Proof.
  apply (dir_scans_reference 128 small_entries [99] 5 1); [|done|lia|apply Forall_singleton; lia|done|].
  - repeat (apply Forall_cons; split; [by split|]). done.
  - repeat (apply Forall_cons; split; [intros ?; cbn; lia|]). done.
Defined.

End Ext2Readdir.
