(* ===== verification/Ext2Name.v ===== *)
(** The operations on names of ext2: [kernel/fs/ext2/create.c], [kernel/fs/ext2/symlink.c],
    [ext2_link] and [ext2_unlink] of [kernel/fs/ext2/inode_alloc.c], [ext2_alloc_inode] of
    [kernel/fs/ext2/inode.c]. The directory an operation works on is the inode at hand;
    [now] is what [time_get_unix_time] returns. *)

From S2P Require Import Prelude Ext2 Ext2File Ext2Dir.

Module Ext2Name.
Import Ext2 Ext2File Ext2Dir.
Local Open Scope ext2_scope.

Definition set_e2i (e : ext2_inode) (v : vnode) : vnode := mk_vnode (with_e2i e (v_inode v)) (v_group v) (v_data v).
Definition with_links (n : Z) (i : inode) : inode :=
  mk_inode (inode_num i) (type i) (permissions i) (uid i) (gid i) (isize i) (blocks i) (atime i) (mtime i) (ctime i)
    n (ei_flags i) (ei_faddr i) (ei_file_acl i) (ei_dir_acl i) (ei_dtime i) (ei_e2i i).
Definition with_v (f : inode -> inode) (v : vnode) : vnode := mk_vnode (f (v_inode v)) (v_group v) (v_data v).

(** [ext2_inode_t] cleared by [memset]. *)
Definition zero_e2i : ext2_inode := mk_e2i 0 0 0 0 0 0 0 0 0 0 0 0 (replicate 15 0) 0 0 0 0 (replicate 12 0).

(** [memcpy(e->i_block, target, n)] and what [i_block] holds as bytes. *)
Definition block_bytes (e : ext2_inode) : list Z := mjoin (le 4 <$> i_block e).
Definition words (b : list Z) : list Z := (fun i => field b (4 * i) 4) <$> seq 0 15.
Definition with_target (target : list Z) (e : ext2_inode) : option ext2_inode :=
  b ← blit (block_bytes e) 0 target 0 (Z.of_nat (length target));
  Some (mk_e2i (i_mode e) (i_uid e) (Z.of_nat (length target)) (i_atime e) (i_ctime e) (i_mtime e) (i_dtime e) (i_gid e)
          (i_links_count e) (i_blocks e) (i_flags e) (i_osd1 e) (words b) (i_generation e) (i_file_acl e) (i_dir_acl e)
          (i_faddr e) (i_osd2 e)).

Section Operations.
Context (g : geometry) (now : Z).

Definition ext2_alloc_inode : M (option vnode) :=
  ok <- call;
  if negb ok then ret None
  else
    ok <- call;
    if negb ok then ret None else ret (Some (zero_vnode 0)).

(** The fields [ext2_create] sets. *)
Definition new_inode_fields (ino mode : Z) : inode :=
  mk_inode ino (type_of_mode mode) (Z.land mode 0xFFF) 0 0 0 0 now now now 1 0 0 0 0 0 None.

(** The result, the directory and, on success, the new inode. *)
Definition ext2_create (dir : option inode) (name : option (list Z)) (mode : Z) : M (Z * option inode * option vnode) :=
  match check_name dir name with
  | inr e => ret (e, dir, None)
  | inl (d, n) =>
      existing <- ext2_lookup g dir n;
      match existing with
      | Some _ => ret (- EEXIST, dir, None)
      | None =>
          ino <- ext2_new_inode g true;
          if ino =? 0 then ret (- ENOSPC, dir, None)
          else
            v <- ext2_alloc_inode;
            match v with
            | None => r <- ext2_free_inode g true ino; ret (- ENOMEM, dir, None)
            | Some v =>
                let v := with_v (fun _ => new_inode_fields ino mode) v in
                ok <- call;
                if negb ok then r <- ext2_free_inode g true ino; ret (- ENOMEM, dir, None)
                else
                  w <- on (set_e2i zero_e2i v) (ext2_write_inode g);
                  let '(r, v) := w in
                  if r <? 0 then r' <- ext2_free_inode g true ino; ret (r, dir, None)
                  else
                    a <- ext2_add_entry g dir name ino (type (v_inode v));
                    let '(r, dir) := a in
                    if r <? 0 then r' <- ext2_free_inode g true ino; ret (r, dir, None)
                    else ret (0, dir, Some v)
            end
      end
  end.

Definition ext2_link (i : option vnode) (dir : option inode) (name : option (list Z)) : M (Z * option vnode * option inode) :=
  match i with
  | None => ret (- ENOENT, i, dir)
  | Some v =>
      match check_name dir name with
      | inr e => ret (e, i, dir)
      | inl (d, n) =>
          existing <- ext2_lookup g dir n;
          match existing with
          | Some _ => ret (- EEXIST, i, dir)
          | None =>
              a <- ext2_add_entry g dir name (inode_num (v_inode v)) (type (v_inode v));
              let '(r, dir) := a in
              if r <? 0 then ret (r, i, dir)
              else
                w <- on (with_v (fun i => with_links (u32 (links i + 1)) i) v) (ext2_write_inode g);
                ret (w.1, Some w.2, dir)
          end
      end
  end.

Definition ext2_unlink (dir : option inode) (name : option (list Z)) : M Z :=
  match check_name dir name with
  | inr e => ret e
  | inl (d, n) =>
      v <- ext2_lookup g dir n;
      match v with
      | None => ret (- ENOENT)
      | Some v =>
          r <- ext2_remove_entry g dir name;
          if r <? 0 then ret r
          else
            let v := with_v (fun i => with_links (u32 (links i - 1)) i) v in
            if links (v_inode v) =? 0 then ext2_free_inode g true (inode_num (v_inode v))
            else w <- on v (ext2_write_inode g); ret w.1
      end
  end.

(** [ext2_add_entry] on another inode than the one at hand. *)
Definition add_entry_on (v : vnode) (name : list Z) (ino : Z) : M (Z * vnode) :=
  on v (fun i =>
    a <- ext2_add_entry g (Some i) (Some name) ino FILE_TYPE_DIRECTORY;
    let '(r, i') := a in
    ret (r, default i i')).

(** The parent's inode at hand is written with a new number of links. *)
Definition set_parent_links (f : Z -> Z) (dir : option inode) : M (option inode) :=
  d <- lift dir;
  w <- ext2_write_inode g (with_links (u32 (f (links d))) d);
  ret (Some w.2).

Definition ext2_mkdir (dir : option inode) (name : option (list Z)) (mode : Z) : M (Z * option inode) :=
  let mode := Z.lor (Z.land mode 0xFFF) EXT2_S_IFDIR in
  c <- ext2_create dir name mode;
  let '(r, dir, v) := c in
  if r <? 0 then ret (r, dir)
  else
    v <- lift v;
    a <- add_entry_on v [46] (inode_num (v_inode v));
    let '(r, v) := a in
    if r <? 0 then r' <- ext2_unlink dir name; ret (r, dir)
    else
      d <- lift dir;
      a <- add_entry_on v [46; 46] (inode_num d);
      let '(r, v) := a in
      if r <? 0 then r' <- ext2_unlink dir name; ret (r, dir)
      else dir <- set_parent_links (fun n => n + 1) dir; ret (0, dir).

Definition ext2_rmdir (dir : option inode) (name : option (list Z)) : M (Z * option inode) :=
  match check_name dir name with
  | inr e => ret (e, dir)
  | inl (d, n) =>
      v <- ext2_lookup g dir n;
      match v with
      | None => ret (- ENOENT, dir)
      | Some v =>
          match type (v_inode v) with
          | FILE_TYPE_DIRECTORY =>
              e <- on v (fun i => r <- ext2_is_dir_empty g (Some i); ret (r, i));
              if negb (e.1 =? 1) then ret (- ENOTEMPTY, dir)
              else
                r <- ext2_remove_entry g dir name;
                if r <? 0 then ret (r, dir)
                else
                  dir <- set_parent_links (fun n => n - 1) dir;
                  r <- ext2_free_inode g true (inode_num (v_inode v));
                  ret (0, dir)
          | _ => ret (- ENOTDIR, dir)
          end
      end
  end.

(** [ext2_symlink]: a target of more than 60 characters is refused before the case for
    one is reached. *)
Definition ext2_symlink (dir : option inode) (name target : option (list Z)) : M (Z * option inode) :=
  match check_name dir name, target with
  | inr e, _ => ret (e, dir)
  | inl _, (None | Some []) => ret (- EINVAL, dir)
  | inl _, Some target =>
      if 60 <? Z.of_nat (length target) then ret (- ENAMETOOLONG, dir)
      else
        c <- ext2_create dir name (Z.lor EXT2_S_IFLNK 0x1FF);
        let '(r, dir, v) := c in
        if r <? 0 then ret (r, dir)
        else
          v <- lift v;
          e <- lift (ei_e2i (v_inode v));
          e <- lift (with_target target e);
          let v := set_e2i e (with_v (with_size (Z.of_nat (length target))) v) in
          w <- on v (ext2_write_inode g);
          if w.1 <? 0 then r <- ext2_unlink dir name; ret (w.1, dir) else ret (0, dir)
  end.

(** [ext2_readlink] of the inode at hand into a buffer of [size] bytes. *)
Definition ext2_readlink (i : option inode) (buffer : option (list Z)) (size : Z) : M (Z * option (list Z)) :=
  match i with
  | None => ret (- ENOENT, buffer)
  | Some i =>
      match type i, buffer with
      | FILE_TYPE_SYMLINK, Some buf =>
          let len := if isize i <? size then u32 (isize i) else u32 (size - 1) in
          if isize i <=? 60 then
            e <- lift (ei_e2i i);
            buf <- lift (blit buf 0 (block_bytes e) 0 len);
            buf <- lift (aset buf len 0);
            ret (0, Some buf)
          else
            data <- gets i_data;
            phys_block <- index data 0;
            if phys_block =? 0 then ret (- EIO, buffer)
            else
              ok <- call;
              if negb ok then ret (- ENOMEM, buffer)
              else
                b <- ext2_read_block g phys_block;
                match b with
                | None => ret (- EIO, buffer)
                | Some b =>
                    buf <- lift (blit buf 0 b 0 len);
                    buf <- lift (aset buf len 0);
                    ret (0, Some buf)
                end
      | FILE_TYPE_SYMLINK, None => ret (- EINVAL, buffer)
      | _, _ => ret (- EINVAL, buffer)
      end
  end.

End Operations.
End Ext2Name.
