(* ===== verification/Ext2NameSpec.v ===== *)
(** What the operations on names of [Ext2Name] do: the link, the inode table and the
    directory together, and three runs that show what they leave behind. *)

From S2P Require Import Prelude Ext2 Ext2Inv Ext2Spec Ext2Map Ext2File Ext2FileSpec Ext2Dir Ext2DirSpec Ext2DirOps Ext2Name.

Module Ext2NameSpec.
Import Ext2 Ext2Inv Ext2Spec Ext2Map Ext2File Ext2FileSpec Ext2Dir Ext2DirSpec Ext2DirOps Ext2Name.
Local Open Scope ext2_scope.

Section Names.
Context (g : geometry).
Notation bs := (s_block_size g).
Notation limit := (12 + s_block_size g / 4).

(** ** Another inode than the one at hand *)






(** ** Linking *)





End Names.

(** ** A file with two names *)





(** ** What some operations leave behind *)

(** Removing the first entry of a block leaves a free entry of its length. *)
Definition two_entries : list rec := [mk_rec 3 1 1 [97; 0; 0; 0]; mk_rec 4 1 1 (98 :: replicate 107 0)].
Definition two_names : fs :=
  with_data (10 :: replicate 14 0) (with_disk (<[1280 := layout two_entries]> (disk small_fs)) small_fs).

(** [ext2_add_entry] does not compare the length of a free entry with the name: in a
    directory with the names ["a"] and ["b"], removing ["a"] and adding a name of 20
    characters succeeds and overwrites the entry of ["b"], which is then gone. *)
Theorem ext2_add_entry_clobbers :
  fst <$> (r1 <- ext2_remove_entry small_geo (Some small_dir) (Some [97]);
           r2 <- ext2_add_entry small_geo (Some small_dir) (Some (replicate 20 65)) 5 FILE_TYPE_REGULAR;
           r3 <- ext2_remove_entry small_geo (Some small_dir) (Some [98]);
           ret (r1, r2.1, r3)) two_names = Some (0, 0, - ENOENT).
Proof. vm_compute. reflexivity. Qed.

(** The target [ext2_symlink] stores in [i_e2i->i_block] is overwritten with [i_data] by
    [ext2_write_inode]: a link to ["ab"] can be created, looked up and read, and has the
    right length, but its target is two zero bytes. *)
Theorem ext2_symlink_loses_target :
  fst <$> (r <- ext2_symlink small_geo 7 (Some small_dir) (Some [108]) (Some [97; 98]);
           v <- ext2_lookup small_geo r.2 [108];
           v <- lift v;
           l <- on v (fun i => l <- ext2_readlink small_geo (Some i) (Some (replicate 4 1)) 4; ret (l, i));
           ret (r.1, isize (v_inode v), l.1)) small_dir_fs
    = Some (0, 2, (0, Some [0; 0; 0; 1])).
Proof. vm_compute. reflexivity. Qed.

(** [ext2_unlink] of the last name frees the inode but none of its blocks: after creating
    a file, writing 100 bytes and unlinking it, every inode is free again and one block is
    lost. *)
Theorem ext2_unlink_leaks_blocks :
  fst <$> (c <- ext2_create small_geo 7 (Some small_dir) (Some [102]) 0x81A4;
           let '(r, dir, v) := c in
           v <- lift v;
           w <- on v (fun i => w <- ext2_write small_geo (mk_file 0 2 i) (seqZ 1 100) 100; ret (w.1, f_inode w.2));
           r' <- ext2_unlink small_geo dir (Some [102]);
           n <- gets (fun s => (s_free_blocks_count (mem s), s_free_inodes_count (mem s)));
           ret (r, w.1, r', n)) small_dir_fs
    = Some (0, 100, 0, (s_free_blocks_count (mem small_dir_fs) - 1, s_free_inodes_count (mem small_dir_fs))).
Proof. vm_compute. reflexivity. Qed.

End Ext2NameSpec.
