(* ===== verification/KList.v ===== *)
(** The circular doubly linked lists of [include/horizon/list.h] at the level of their
    pointers, and their correspondence to lists of addresses. *)

From S2P Require Import Prelude.

Module KList.

(** ** Operations *)

(** The [next] and [prev] fields of the list nodes, by the address of the node. An access
    through an address that is no node's is a fault. *)
Record heap := mk_heap { next : gmap Z Z; prev : gmap Z Z }.

Definition set_next (p v : Z) (h : heap) : option heap :=
  _ ← next h !! p; Some (mk_heap (<[p := v]> (next h)) (prev h)).
Definition set_prev (p v : Z) (h : heap) : option heap :=
  _ ← prev h !! p; Some (mk_heap (next h) (<[p := v]> (prev h))).

Definition list_init (l : Z) (h : heap) : option heap := h ← set_next l l h; set_prev l l h.

Definition list_add (new head : Z) (h : heap) : option heap :=
  n ← next h !! head;
  h ← set_prev n new h;
  n ← next h !! head;
  h ← set_next new n h;
  h ← set_prev new head h;
  set_next head new h.

Definition list_add_tail (new head : Z) (h : heap) : option heap :=
  p ← prev h !! head;
  h ← set_next p new h;
  p ← prev h !! head;
  h ← set_prev new p h;
  h ← set_next new head h;
  set_prev head new h.

Definition list_del (entry : Z) (h : heap) : option heap :=
  n ← next h !! entry;
  p ← prev h !! entry;
  h ← set_prev n p h;
  p ← prev h !! entry;
  n ← next h !! entry;
  h ← set_next p n h;
  h ← set_next entry 0 h;
  set_prev entry 0 h.

Definition list_empty (head : Z) (h : heap) : option bool := n ← next h !! head; Some (n =? head).

(** [list_for_each_entry(pos, head, member) if (test) break;] from [pos] on: the node the
    loop stops at, or [None] when it gets back to [head]. *)
Fixpoint for_each (fuel : nat) (test : Z -> option bool) (head pos : Z) (h : heap) : option (option Z) :=
  match fuel with
  | O => None
  | S fuel =>
      if pos =? head then Some None
      else
        b ← test pos;
        if (b : bool) then Some (Some pos) else pos ← next h !! pos; for_each fuel test head pos h
  end.
Definition list_for_each_entry (fuel : nat) (test : Z -> option bool) (head : Z) (h : heap) : option (option Z) :=
  pos ← next h !! head; for_each fuel test head pos h.

(** [list_for_each_entry_safe] with a body that removes [pos] from the list: the nodes the
    body is run on, in order. *)
Fixpoint del_all (fuel : nat) (head pos n : Z) (h : heap) : option (list Z * heap) :=
  match fuel with
  | O => None
  | S fuel =>
      if pos =? head then Some ([], h)
      else
        h ← list_del pos h;
        n' ← next h !! n;
        r ← del_all fuel head n n' h;
        Some (pos :: r.1, r.2)
  end.
Definition list_clear (fuel : nat) (head : Z) (h : heap) : option (list Z * heap) :=
  pos ← next h !! head; n ← next h !! pos; del_all fuel head pos n h.

(** New memory for a list node at [p], with any contents. *)
Definition new_node (p : Z) (h : heap) : heap := mk_heap (<[p := 0]> (next h)) (<[p := 0]> (prev h)).

(** ** What a list is *)

(** The nodes [xs] follow [p] one after the other, linked in both directions. *)
Fixpoint chain (h : heap) (p : Z) (xs : list Z) : Prop :=
  match xs with
  | [] => True
  | x :: xs => next h !! p = Some x /\ prev h !! x = Some p /\ chain h x xs
  end.

(** The list with head [head] has the nodes [xs], first to last. *)
Definition is_list (h : heap) (head : Z) (xs : list Z) : Prop := NoDup (head :: xs) /\ chain h head (xs ++ [head]).

(** A node that is in memory, in a list or not. *)
Definition node (h : heap) (x : Z) : Prop := is_Some (next h !! x) /\ is_Some (prev h !! x).

(** What the operations on a list leave alone. *)
Definition others (h h' : heap) (l : list Z) : Prop :=
  (forall y, y ∉ l -> next h' !! y = next h !! y /\ prev h' !! y = prev h !! y) /\ forall y, node h y -> node h' y.

Lemma chain_app h p xs ys : chain h p (xs ++ ys) <-> chain h p xs /\ chain h (List.last xs p) ys.
Proof.
  revert p. induction xs as [|x xs IH]; intros p; [cbn; tauto|]. cbn [app chain]. rewrite IH.
  replace (List.last (x :: xs) p) with (List.last xs x); [tauto|]. clear. revert x p. induction xs as [|y xs IH]; intros x p; [done|].
  cbn [List.last]. destruct xs; [done|]. apply IH.
Qed.

Lemma last_cons (x : Z) xs p : List.last (x :: xs) p = List.last xs x.
Proof. revert x p. induction xs as [|y xs IH]; intros x p; [done|]. cbn [List.last]. destruct xs; [done|]. apply IH. Qed.

Lemma last_in xs (p : Z) : List.last xs p ∈ p :: xs.
Proof. revert p. induction xs as [|x xs IH]; intros p; [by left|]. rewrite last_cons. right. apply IH. Qed.

(** A chain does not depend on the [next] of its last node, nor on the [prev] of its
    first. *)
Lemma chain_frame h h' p xs : NoDup (p :: xs) -> chain h p xs ->
  (forall y, y ∈ p :: xs -> y <> List.last xs p -> next h' !! y = next h !! y) ->
  (forall y, y ∈ xs -> prev h' !! y = prev h !! y) -> chain h' p xs.
Proof.
  revert p. induction xs as [|x xs IH]; intros p Hnd Hc Hn Hp; [done|]. destruct Hc as (H1 & H2 & H3).
  apply NoDup_cons in Hnd as [Hni Hnd]. rewrite last_cons in Hn. split; [|split].
  - rewrite Hn; [done|by left|]. intros ->. apply Hni, last_in.
  - rewrite Hp; [done|by left].
  - apply IH; [done|done| |].
    + intros y Hy Hl. apply Hn; [by right|done].
    + intros y Hy. apply Hp. by right.
Qed.

(** The place between [a] and [b], with the neighbours [p] and [q]: both sides are
    chains. *)
Record Place (h : heap) (head : Z) (a b : list Z) (p q : Z) (rest : list Z) : Prop := {
  pl_nodup : NoDup (head :: a ++ b);
  pl_before : p = List.last a head;
  pl_behind : b ++ [head] = q :: rest;
  pl_a : chain h head a;
  pl_b : chain h q rest
}.

Lemma place_of h head a b : is_list h head (a ++ b) -> exists q rest, Place h head a b (List.last a head) q rest /\
  next h !! List.last a head = Some q /\ prev h !! q = Some (List.last a head).
Proof.
  intros [Hnd Hc]. destruct (b ++ [head]) as [|q rest] eqn:E; [by destruct b|]. exists q, rest.
  rewrite <-app_assoc, E in Hc. apply chain_app in Hc as [Ha (Hn & Hp & Hr)]. by split.
Qed.

Section AtPlace.
Context (h : heap) (head : Z) (a b : list Z) (p q : Z) (rest : list Z) (HP : Place h head a b p q rest).

Lemma place_facts : NoDup (head :: a) /\ NoDup (q :: rest) /\ p ∈ head :: a /\ q ∈ b ++ [head] /\
  (forall y, y ∈ a -> y ∉ q :: rest) /\ (forall y, y ∈ head :: a -> y ∉ b).
Proof.
  destruct HP as [Hnd -> Hb _ _]. apply NoDup_cons in Hnd as [Hh Hab]. apply NoDup_app in Hab as (Ha & Hd & Hb').
  rewrite not_elem_of_app in Hh. destruct Hh as [Hha Hhb]. rewrite <-Hb. split; [by apply NoDup_cons|]. split.
  { apply NoDup_app. split; [done|]. split; [set_solver|apply NoDup_singleton]. }
  split; [apply last_in|]. split; [rewrite Hb; by left|]. split; set_solver.
Qed.

(** Only [next] of [p] and [prev] of [q] change, and nodes that are not in the list. *)
Lemma sides h' : (forall y, y ∈ head :: a ++ b -> y <> p -> next h' !! y = next h !! y) ->
  (forall y, y ∈ head :: a ++ b -> y <> q -> prev h' !! y = prev h !! y) -> chain h' head a /\ chain h' q rest.
Proof.
  intros Hn Hp. destruct place_facts as (N1 & N2 & I1 & I2 & D1 & D2).
  assert (forall y, y ∈ q :: rest -> y ∈ head :: a ++ b) as Hin.
  { intros y. rewrite <-(pl_behind _ _ _ _ _ _ _ HP). set_solver. }
  split.
  - apply (chain_frame h); [done|apply HP| |].
    + intros y Hy Hl. apply Hn; [set_solver|]. by rewrite (pl_before _ _ _ _ _ _ _ HP).
    + intros y Hy. apply Hp; [set_solver|]. intros ->. apply (D1 q); [done|by left].
  - apply (chain_frame h); [done|apply HP| |].
    + intros y Hy Hl. apply Hn; [by apply Hin|]. intros ->.
      apply Hl. assert (List.last (q :: rest) q = head) as Hlast by (rewrite <-(pl_behind _ _ _ _ _ _ _ HP); apply last_last).
      rewrite last_cons in Hlast. rewrite Hlast. rewrite <-(pl_behind _ _ _ _ _ _ _ HP) in Hy. set_solver.
    + intros y Hy. apply Hp; [apply Hin; by right|]. apply NoDup_cons in N2 as [N2 _]. by intros ->.
Qed.
End AtPlace.

(** ** Adding *)

Lemma set_next_ok p v h : node h p -> set_next p v h = Some (mk_heap (<[p := v]> (next h)) (prev h)).
Proof. intros [[x Hx] _]. unfold set_next. by rewrite Hx. Qed.

Lemma set_prev_ok p v h : node h p -> set_prev p v h = Some (mk_heap (next h) (<[p := v]> (prev h))).
Proof. intros [_ [x Hx]]. unfold set_prev. by rewrite Hx. Qed.

Lemma node_next h p v x : node h x -> node (mk_heap (<[p := v]> (next h)) (prev h)) x.
Proof. intros [H1 H2]. split; [|done]. cbn. destruct (decide (x = p)) as [->|]; [by rewrite lookup_insert_eq|by rewrite lookup_insert_ne]. Qed.

Lemma node_prev h p v x : node h x -> node (mk_heap (next h) (<[p := v]> (prev h))) x.
Proof. intros [H1 H2]. split; [done|]. cbn. destruct (decide (x = p)) as [->|]; [by rewrite lookup_insert_eq|by rewrite lookup_insert_ne]. Qed.

#[local] Hint Resolve node_next node_prev : core.

(** All nodes of a list are in memory. *)
Lemma list_node h head xs x : is_list h head xs -> x ∈ head :: xs -> node h x.
Proof.
  intros [Hnd Hc] Hx. assert (exists a b, head :: xs ++ [head] = a ++ x :: b /\ b <> []) as (a & b & Hab & Hb).
  { apply list_elem_of_split in Hx as (a & b & E). exists a, (b ++ [head]). split; [|by destruct b].
    change (head :: xs ++ [head]) with ((head :: xs) ++ [head]). by rewrite E, <-app_assoc. }
  assert (is_Some (next h !! x)) as Hn.
  { destruct b as [|y b]; [done|]. destruct a as [|z a].
    - injection Hab as -> Hab. rewrite Hab in Hc. destruct Hc as (-> & _). by eexists.
    - injection Hab as -> Hab. rewrite Hab in Hc. apply chain_app in Hc as [_ (_ & _ & -> & _)]. by eexists. }
  split; [done|]. apply elem_of_cons in Hx as [->|Hx].
  - apply chain_app in Hc as [_ (_ & -> & _)]. by eexists.
  - apply list_elem_of_split in Hx as (a' & b' & ->). rewrite <-app_assoc in Hc. apply chain_app in Hc as [_ (_ & -> & _)]. by eexists.
Qed.

Section Insert.
Context (h : heap) (head : Z) (a b : list Z) (p q : Z) (rest : list Z) (HP : Place h head a b p q rest).
Context (new : Z) (Hnew : new ∉ head :: a ++ b) (Hnode : node h new).

Lemma insert_here h' : next h' = <[p := new]> (<[new := q]> (next h)) -> prev h' = <[q := new]> (<[new := p]> (prev h)) ->
  is_list h' head (a ++ new :: b) /\ others h h' (new :: head :: a ++ b).
Proof.
  intros En Ep. destruct (place_facts h head a b p q rest HP) as (N1 & N2 & I1 & I2 & D1 & D2).
  assert (p ∈ head :: a ++ b) as Hp by set_solver. assert (q ∈ head :: a ++ b) as Hq by set_solver.
  assert (new <> p) as Hnp by (intros ->; done). assert (new <> q) as Hnq by (intros ->; done).
  destruct (sides h head a b p q rest HP h') as [Ha Hb].
  { intros y Hy Hne. rewrite En, !lookup_insert_ne; [done| |done]. intros ->. done. }
  { intros y Hy Hne. rewrite Ep, !lookup_insert_ne; [done| |done]. intros ->. done. }
  split; [split|split].
  - pose proof (pl_nodup _ _ _ _ _ _ _ HP) as Hnd. rewrite app_comm_cons, <-Permutation_middle. apply NoDup_cons. done.
  - rewrite <-app_assoc. cbn [app]. rewrite (pl_behind _ _ _ _ _ _ _ HP), chain_app, <-(pl_before _ _ _ _ _ _ _ HP).
    cbn [chain]. rewrite En, Ep, lookup_insert_eq. rewrite (lookup_insert_ne _ p), lookup_insert_eq by done.
    rewrite lookup_insert_eq, (lookup_insert_ne _ q), lookup_insert_eq by done. done.
  - intros y Hy. apply not_elem_of_cons in Hy as [Hyn Hy]. assert (p <> y) by congruence. assert (q <> y) by congruence.
    by rewrite En, Ep, !lookup_insert_ne.
  - intros y [[v Hv] [w Hw]]. split; [rewrite En|rewrite Ep]; rewrite !lookup_insert_is_Some'; eauto.
Qed.
End Insert.

(** [list_add] puts the new node behind the node it is given, which is the head or the
    last node of a prefix [a] of the list. *)
Lemma list_add_ok h head a b new : is_list h head (a ++ b) -> new ∉ head :: a ++ b -> node h new ->
  exists h', list_add new (List.last a head) h = Some h' /\ is_list h' head (a ++ new :: b) /\ others h h' (new :: head :: a ++ b).
Proof.
  intros HL Hnew Hnode. destruct (place_of h head a b HL) as (q & rest & HP & Hn & Hp). pose proof (pl_behind _ _ _ _ _ _ _ HP) as Hb.
  destruct (place_facts _ _ _ _ _ _ _ HP) as (_ & _ & I1 & I2 & _). set (p := List.last a head) in *.
  assert (node h p) as Np by (apply (list_node h head (a ++ b)); [done|set_solver]).
  assert (node h q) as Nq by (apply (list_node h head (a ++ b)); [done|set_solver]).
  unfold list_add. rewrite Hn, bind_Some_l, set_prev_ok, bind_Some_l by done. cbn [next]. rewrite Hn, bind_Some_l.
  rewrite set_next_ok, bind_Some_l, set_prev_ok, bind_Some_l, set_next_ok by auto. eexists. split; [reflexivity|]. cbn [next prev].
  apply (insert_here h head a b p q rest HP new Hnew Hnode); cbn [next prev]; [done|]. apply insert_insert_ne. intros ->. set_solver.
Qed.

(** [list_add_tail] puts it before the node it is given: the head or the first node of a
    suffix [b]. *)
Lemma list_add_tail_ok h head a b new : is_list h head (a ++ b) -> new ∉ head :: a ++ b -> node h new ->
  exists h', list_add_tail new (List.hd head b) h = Some h' /\ is_list h' head (a ++ new :: b) /\ others h h' (new :: head :: a ++ b).
Proof.
  intros HL Hnew Hnode. destruct (place_of h head a b HL) as (q & rest & HP & Hn & Hp). pose proof (pl_behind _ _ _ _ _ _ _ HP) as Hb.
  destruct (place_facts _ _ _ _ _ _ _ HP) as (_ & _ & I1 & I2 & _). set (p := List.last a head) in *.
  assert (node h p) as Np by (apply (list_node h head (a ++ b)); [done|set_solver]).
  assert (node h q) as Nq by (apply (list_node h head (a ++ b)); [done|set_solver]).
  assert (List.hd head b = q) as -> by (destruct b; cbn in *; congruence).
  unfold list_add_tail. rewrite Hp, bind_Some_l, set_next_ok, bind_Some_l by done. cbn [prev]. rewrite Hp, bind_Some_l.
  rewrite set_prev_ok, bind_Some_l, set_next_ok, bind_Some_l, set_prev_ok by auto. eexists. split; [reflexivity|]. cbn [next prev].
  apply (insert_here h head a b p q rest HP new Hnew Hnode); cbn [next prev]; [|done]. apply insert_insert_ne. intros ->. set_solver.
Qed.

(** ** Deleting *)

Lemma list_del_ok h head a x b : is_list h head (a ++ x :: b) ->
  exists h', list_del x h = Some h' /\ is_list h' head (a ++ b) /\ next h' !! x = Some 0 /\ prev h' !! x = Some 0 /\
    others h h' (head :: a ++ x :: b).
Proof.
  intros HL. pose proof HL as [Hnd Hc]. rewrite <-app_assoc in Hc. cbn [app] in Hc. apply chain_app in Hc as [Ha (Hpx & Hxp & Hc)].
  set (p := List.last a head) in *.
  assert (x ∉ head :: a ++ b /\ NoDup (head :: a ++ b)) as [Hx Hnd'].
  { rewrite app_comm_cons, <-Permutation_middle in Hnd. by apply NoDup_cons in Hnd. }
  assert (exists q rest, b ++ [head] = q :: rest) as (q & rest & Eb) by (destruct b; eauto). rewrite Eb in Hc. destruct Hc as (Hxq & Hqx & Hr).
  assert (Place h head a b p q rest) as HP by (by split). destruct (place_facts _ _ _ _ _ _ _ HP) as (_ & _ & Ip & Iq & _).
  assert (p ∈ head :: a ++ b) as Hp by set_solver. assert (q ∈ head :: a ++ b) as Hq by set_solver.
  assert (x <> p) as Hnp by (intros ->; done). assert (x <> q) as Hnq by (intros ->; done).
  assert (forall y, y ∈ x :: head :: a ++ b -> node h y) as Hnode by
    (intros y Hy; apply (list_node h head (a ++ x :: b)); [done|]; by rewrite app_comm_cons, <-Permutation_middle).
  assert (node h x) as Nx by (apply Hnode; by left). assert (node h p) as Np by (apply Hnode; by right). assert (node h q) as Nq by (apply Hnode; by right).
  unfold list_del. rewrite Hxq, bind_Some_l, Hxp, bind_Some_l, set_prev_ok, bind_Some_l by done. cbn [prev next].
  rewrite lookup_insert_ne, Hxp, bind_Some_l, Hxq, bind_Some_l by done.
  rewrite set_next_ok, bind_Some_l, set_next_ok, bind_Some_l, set_prev_ok by auto.
  eexists. split; [reflexivity|]. cbn [prev next]. set (h' := mk_heap _ _).
  destruct (sides h head a b p q rest HP h') as [Ha' Hb'].
  { intros y Hy Hne. cbn. rewrite !lookup_insert_ne; [done|done|]. by intros ->. }
  { intros y Hy Hne. cbn. rewrite !lookup_insert_ne; [done|done|]. by intros ->. }
  split; [split; [done|]|split; [|split; [|split]]].
  - rewrite <-app_assoc, Eb, chain_app. split; [done|]. fold p. cbn. rewrite lookup_insert_ne, lookup_insert_eq by done.
    rewrite lookup_insert_ne, lookup_insert_eq by done. done.
  - cbn. by rewrite lookup_insert_eq.
  - cbn. by rewrite lookup_insert_eq.
  - intros y Hy. cbn. rewrite app_comm_cons, <-Permutation_middle in Hy. apply not_elem_of_cons in Hy as [Hyx Hy].
    change ((head :: a) ++ b) with (head :: a ++ b) in Hy.
    assert (p <> y) by congruence. assert (q <> y) by congruence. by rewrite !lookup_insert_ne.
  - intros y [[v Hv] [w Hw]]. split; cbn; rewrite !lookup_insert_is_Some'; eauto.
Qed.

(** ** Initialising, testing and walking *)

Lemma list_init_ok l h : node h l -> exists h', list_init l h = Some h' /\ is_list h' l [] /\ others h h' [l].
Proof.
  intros Hl. unfold list_init. rewrite set_next_ok, bind_Some_l, set_prev_ok by auto. eexists. split; [reflexivity|].
  split; [split; [apply NoDup_singleton|]|split].
  - cbn. by rewrite !lookup_insert_eq.
  - intros y Hy%not_elem_of_cons. cbn. by rewrite !lookup_insert_ne by (symmetry; apply Hy).
  - auto.
Qed.

Lemma list_empty_ok h head xs : is_list h head xs -> list_empty head h = Some (bool_decide (xs = [])).
Proof.
  intros [Hnd Hc]. unfold list_empty. destruct xs as [|x xs]; destruct Hc as (-> & _); rewrite bind_Some_l.
  - by rewrite Z.eqb_refl.
  - f_equal. apply NoDup_cons in Hnd as [Hh _]. rewrite bool_decide_eq_false_2 by done. apply Z.eqb_neq. intros ->. apply Hh. by left.
Qed.

Lemma next_ok h head a x b : is_list h head (a ++ x :: b) -> next h !! x = Some (List.hd head b).
Proof.
  intros [_ Hc]. rewrite <-app_assoc in Hc. cbn [app] in Hc. apply chain_app in Hc as [_ (_ & _ & Hc)]. by destruct b; destruct Hc as (-> & _).
Qed.

Lemma first_ok h head xs : is_list h head xs -> next h !! head = Some (List.hd head xs).
Proof. intros [_ Hc]. by destruct xs; destruct Hc as (-> & _). Qed.

(** The loop visits the nodes in order up to the first that passes the test. *)
Lemma for_each_ok h head xs test (t : Z -> bool) fuel a b : is_list h head xs -> xs = a ++ b -> (length b < fuel)%nat ->
  (forall x, x ∈ b -> test x = Some (t x)) -> for_each fuel test head (List.hd head b) h = Some (List.find t b).
Proof.
  intros HL. revert a fuel. induction b as [|x b IH]; intros a fuel -> Hf Ht; (destruct fuel as [|fuel]; [cbn in Hf; lia|]); cbn [for_each List.hd].
  - by rewrite Z.eqb_refl.
  - pose proof HL as [Hnd _]. apply NoDup_cons in Hnd as [Hh _]. destruct (Z.eqb_spec x head) as [->|_]; [set_solver|].
    rewrite Ht, bind_Some_l by (by left). cbn [List.find]. destruct (t x); [done|].
    rewrite (next_ok h head a x b HL), bind_Some_l. apply (IH (a ++ [x])); [by rewrite <-app_assoc|cbn in Hf; lia|].
    intros y Hy. apply Ht. by right.
Qed.

Lemma list_for_each_entry_ok h head xs test t fuel : is_list h head xs -> (length xs < fuel)%nat ->
  (forall x, x ∈ xs -> test x = Some (t x)) -> list_for_each_entry fuel test head h = Some (List.find t xs).
Proof.
  intros HL Hf Ht. unfold list_for_each_entry. rewrite (first_ok h head xs HL), bind_Some_l. by apply (for_each_ok h head xs test t fuel [] xs).
Qed.

Lemma others_trans h1 h2 h3 l : others h1 h2 l -> others h2 h3 l -> others h1 h3 l.
Proof. intros [A1 B1] [A2 B2]. split; [|auto]. intros y Hy. destruct (A1 y Hy), (A2 y Hy). split; congruence. Qed.

Lemma others_weaken h h' l l' : others h h' l -> (forall y, y ∈ l -> y ∈ l') -> others h h' l'.
Proof. intros [A B] Hl. split; [|done]. intros y Hy. apply A. auto. Qed.

(** Deleting every node leaves an empty list. *)
Lemma del_all_ok fuel h head xs n : is_list h head xs -> (length xs < fuel)%nat ->
  (forall x ys, xs = x :: ys -> n = List.hd head ys) ->
  exists h', del_all fuel head (List.hd head xs) n h = Some (xs, h') /\ is_list h' head [] /\ others h h' (head :: xs).
Proof.
  revert fuel h n. induction xs as [|x xs IH]; intros fuel h n HL Hf Hn; (destruct fuel as [|fuel]; [cbn in Hf; lia|]); cbn [del_all List.hd].
  - rewrite Z.eqb_refl. exists h. done.
  - rewrite (Hn x xs eq_refl). pose proof HL as [Hnd _]. apply NoDup_cons in Hnd as [Hh _].
    destruct (Z.eqb_spec x head) as [->|_]; [destruct Hh; by left|].
    destruct (list_del_ok h head [] x xs HL) as (h1 & E & HL1 & _ & _ & HO). rewrite E, bind_Some_l. cbn [app] in *.
    assert (exists n', next h1 !! List.hd head xs = Some n' /\ forall y ys, xs = y :: ys -> n' = List.hd head ys) as (n' & En & Hn').
    { destruct xs as [|y ys]; cbn [List.hd].
      - exists head. split; [by rewrite (first_ok h1 head [])|done].
      - exists (List.hd head ys). split; [by apply (next_ok h1 head [])|]. by intros ?? [= -> ->]. }
    rewrite En, bind_Some_l. destruct (IH fuel h1 n' HL1) as (h' & E' & HL' & HO'); [cbn in Hf; lia|done|].
    exists h'. split; [by rewrite E'|]. split; [done|]. eapply others_trans; [done|]. apply (others_weaken _ _ _ _ HO'). intros y. rewrite !elem_of_cons. tauto.
Qed.

Lemma list_clear_ok fuel h head xs : is_list h head xs -> (length xs < fuel)%nat ->
  exists h', list_clear fuel head h = Some (xs, h') /\ is_list h' head [] /\ others h h' (head :: xs).
Proof.
  intros HL Hf. unfold list_clear. rewrite (first_ok h head xs HL), bind_Some_l.
  assert (exists n, next h !! List.hd head xs = Some n /\ forall y ys, xs = y :: ys -> n = List.hd head ys) as (n & En & Hn).
  { destruct xs as [|y ys]; cbn [List.hd].
    - exists head. split; [by rewrite (first_ok h head [])|done].
    - exists (List.hd head ys). split; [by apply (next_ok h head [])|]. by intros ?? [= -> ->]. }
  rewrite En, bind_Some_l. by apply del_all_ok.
Qed.

Lemma chain_others h h' p ys l : chain h p ys -> others h h' l -> (forall y, y ∈ p :: ys -> y ∉ l) -> chain h' p ys.
Proof.
  intros Hc [Ho _]. revert p Hc. induction ys as [|y ys IH]; intros p Hc Hd; [done|].
  destruct Hc as (H1 & H2 & H3). cbn [chain]. destruct (Ho p) as [-> _]; [apply Hd; by left|].
  destruct (Ho y) as [_ ->]; [apply Hd; right; by left|]. split; [done|]. split; [done|]. apply IH; [done|]. intros z Hz. apply Hd. by right.
Qed.

(** A list none of whose nodes an operation touches is as before. *)
Lemma list_frame h h' head xs l : is_list h head xs -> others h h' l -> (forall y, y ∈ head :: xs -> y ∉ l) -> is_list h' head xs.
Proof. intros [Hnd Hc] Ho Hd. split; [done|]. apply (chain_others h h' _ _ l Hc Ho). set_solver. Qed.

Lemma new_node_others p h : others h (new_node p h) [p] /\ node (new_node p h) p.
Proof.
  split; [split|].
  - intros y Hy%not_elem_of_cons. cbn. by rewrite !lookup_insert_ne by (symmetry; apply Hy).
  - intros y [H1 H2]. split; cbn; rewrite lookup_insert_is_Some'; auto.
  - split; cbn; rewrite lookup_insert_eq; by eexists.
Qed.

Lemma new_node_list p h head xs : is_list h head xs -> p ∉ head :: xs -> is_list (new_node p h) head xs.
Proof. intros HL Hp. apply (list_frame h _ head xs [p] HL (proj1 (new_node_others p h))). set_solver. Qed.

(** *** Pointers of nodes elsewhere *)

Lemma list_init_next a h h' y : list_init a h = Some h' -> y <> a -> next h' !! y = next h !! y.
Proof.
  unfold list_init, set_next, set_prev. intros Es Hy. repeat (simplify_option_eq; try done). by rewrite lookup_insert_ne.
Qed.

Lemma list_add_next n p h h' : list_add n p h = Some h' ->
  exists q, next h !! p = Some q /\ next h' = <[p := n]> (<[n := q]> (next h)).
Proof. unfold list_add, set_next, set_prev. intros Es. repeat (simplify_option_eq; try done). eauto. Qed.

(** Adding to a head that was never initialised follows a null pointer. *)
Lemma list_add_null n p h : next h !! p = Some 0 -> prev h !! 0 = None -> list_add n p h = None.
Proof. intros Hp H0. unfold list_add, set_prev. by rewrite Hp, bind_Some_l, H0. Qed.

(** Memory that is no node stays none. *)
Lemma list_init_none a h h' y : list_init a h = Some h' -> prev h !! y = None -> prev h' !! y = None.
Proof.
  unfold list_init, set_next, set_prev. intros Es Hy. repeat (simplify_option_eq; try done). rewrite lookup_insert_ne; [done|]. intros ->. congruence.
Qed.

Lemma list_add_none n p h h' y : list_add n p h = Some h' -> prev h !! y = None -> prev h' !! y = None.
Proof.
  unfold list_add, set_next, set_prev. intros Es Hy. repeat (simplify_option_eq; try done).
  match goal with H : <[_ := _]> (prev h) !! n = Some _ |- _ => rename H into Hn end.
  assert (n <> y). { intros ->. apply lookup_insert_Some in Hn as [[? ?]|[_ ?]]; congruence. }
  rewrite !lookup_insert_ne; [done|intros ->; congruence|done].
Qed.

(** A node that is taken out twice: the second time its null pointers are followed. *)
Lemma list_del_twice e h h' : prev h !! 0 = None -> list_del e h = Some h' -> list_del e h' = None.
Proof.
  intros H0. unfold list_del, set_next, set_prev. intros Es. repeat (simplify_option_eq; try done).
  rewrite lookup_insert_eq. simpl. rewrite lookup_insert_eq. simpl.
  rewrite !lookup_insert_ne by (intros ->; congruence). by rewrite H0.
Qed.

(** ** The operations as operations on lists *)

(** A list of three nodes and a node that is in no list. *)
Definition small_heap : heap :=
  mk_heap (list_to_map [(100, 10); (10, 20); (20, 30); (30, 100); (40, 0)]) (list_to_map [(100, 30); (10, 100); (20, 10); (30, 20); (40, 0)]).

Lemma small_list : is_list small_heap 100 [10; 20; 30].
Proof. split; [|by vm_compute]. repeat (apply NoDup_cons; split; [set_solver|]). apply NoDup_nil. done. Qed.

(** On the pointers of a circular list, [list_add] and [list_add_tail] insert the new
    node at the given place, [list_del] takes a node out and clears its pointers,
    [list_empty] says whether there are no nodes, [list_for_each_entry] finds the first
    node with a property, and clearing the list with [list_for_each_entry_safe] empties
    it, all within one turn per node: each does to the chain of pointers what the
    corresponding function does to the list of addresses. *)
Theorem klist_refines h head a b x fuel test t (HL : is_list h head (a ++ b)) (Hx : x ∉ head :: a ++ b) (Hnode : node h x)
    (Hfuel : (length (a ++ b) < fuel)%nat) (Htest : forall y, y ∈ a ++ b -> test y = Some (t y)) :
  (exists h', list_add x (List.last a head) h = Some h' /\ is_list h' head (a ++ x :: b) /\
     exists h'', list_del x h' = Some h'' /\ is_list h'' head (a ++ b)) /\
  (exists h', list_add_tail x (List.hd head b) h = Some h' /\ is_list h' head (a ++ x :: b)) /\
  list_empty head h = Some (bool_decide (a ++ b = [])) /\
  list_for_each_entry fuel test head h = Some (List.find t (a ++ b)) /\
  (exists h', list_clear fuel head h = Some (a ++ b, h') /\ is_list h' head []).
Proof.
  split_and!.
  - destruct (list_add_ok h head a b x HL Hx Hnode) as (h' & E & HL' & _). exists h'. split; [done|]. split; [done|].
    destruct (list_del_ok h' head a x b HL') as (h'' & E' & HL'' & _). eauto.
  - destruct (list_add_tail_ok h head a b x HL Hx Hnode) as (h' & E & HL' & _). eauto.
  - by apply list_empty_ok.
  - by apply list_for_each_entry_ok.
  - destruct (list_clear_ok fuel h head (a ++ b) HL Hfuel) as (h' & E & HL' & _). eauto.
Qed.

Lemma klist_refines_witness :
  (exists h', list_add 40 10 small_heap = Some h' /\ is_list h' 100 [10; 40; 20; 30] /\
     exists h'', list_del 40 h' = Some h'' /\ is_list h'' 100 [10; 20; 30]) /\
  (exists h', list_add_tail 40 20 small_heap = Some h' /\ is_list h' 100 [10; 40; 20; 30]) /\
  list_empty 100 small_heap = Some (bool_decide ([10; 20; 30] = [])) /\
  list_for_each_entry 4 (fun y => Some (15 <? y)) 100 small_heap = Some (List.find (fun y => 15 <? y) [10; 20; 30]) /\
  (exists h', list_clear 4 100 small_heap = Some ([10; 20; 30], h') /\ is_list h' 100 []).
Proof.
  apply (klist_refines small_heap 100 [10] [20; 30] 40 4 (fun y => Some (15 <? y)) (fun y => 15 <? y) small_list);
    [set_solver|split; by vm_compute; eexists|cbn; lia|done].
Defined.

End KList.
