(* ===== verification/Mqueue.v ===== *)
(** POSIX message queues: [kernel/ipc/mqueue.c]. *)

From S2P Require Import Prelude KList.

Module Mqueue.
Import KList.

Definition O_CREAT : Z := 0x100.
Definition O_EXCL : Z := 0x200.
Definition O_NONBLOCK : Z := 0x4000.

(** ** Data *)

Record mq_attr := mk_attr { mq_flags : Z; mq_maxmsg : Z; mq_msgsize : Z; mq_curmsgs : Z }.
Record mq_msg := mk_msg { msg_len : Z; msg_prio : Z; msg_data : list Z }.

(** [struct mqueue] without its list nodes: [list] is at the queue's own address and
    [msg_list] at [offsetof(struct mqueue, msg_list)] behind it. The wait queues are those
    of [Wait], and the mutexes make each critical section one step. *)
Record mqueue := mk_mq { name : list Z; attr : mq_attr; refcount : Z }.
Definition MSG_LIST : Z := 12.
Definition msg_list (mq : Z) : Z := mq + MSG_LIST.

(** [file_t] as far as it is used here; [private_data] is [None] for a null pointer. *)
Record file := mk_file { private_data : option Z; f_flags : Z }.

(** The list nodes, the messages by the address of their node, and the queues by their
    address. [kfree] takes a message or a queue away. *)
Record state := mk_state { nodes : heap; msgs : gmap Z mq_msg; queues : gmap Z mqueue }.

Definition with_nodes (h : heap) (s : state) : state := mk_state h (msgs s) (queues s).
Definition with_msgs (m : gmap Z mq_msg) (s : state) : state := mk_state (nodes s) m (queues s).
Definition with_queues (q : gmap Z mqueue) (s : state) : state := mk_state (nodes s) (msgs s) q.
Definition with_attr (a : mq_attr) (q : mqueue) : mqueue := mk_mq (name q) a (refcount q).
Definition with_curmsgs (n : Z) (a : mq_attr) : mq_attr := mk_attr (mq_flags a) (mq_maxmsg a) (mq_msgsize a) n.
Definition with_refcount (n : Z) (q : mqueue) : mqueue := mk_mq (name q) (attr q) n.
Definition with_flags (n : Z) (f : file) : file := mk_file (private_data f) n.

(** A call returns, or sleeps in [wait_event_interruptible] and goes on in a later state. *)
Inductive outcome := Returned (r : Z) | Waiting.

(** ** Finding, opening and closing *)

Section Registry.
(** The address of [mqueue_list]. *)
Context (mqueue_list : Z).

(** Enough for a walk over a list of queues or of messages. *)
Definition queue_fuel (s : state) : nat := S (size (queues s)).
Definition msg_fuel (s : state) : nat := S (size (msgs s)).

Definition mqueue_find (n : list Z) (s : state) : option (option Z) :=
  list_for_each_entry (queue_fuel s) (fun mq => q ← queues s !! mq; Some (bool_decide (name q = n))) mqueue_list (nodes s).

(** A message is freed behind each [list_del]. *)
Definition free_all_messages (mq : Z) (s : state) : option state :=
  r ← list_clear (msg_fuel s) (msg_list mq) (nodes s);
  Some (mk_state r.2 (foldr delete (msgs s) r.1) (queues s)).

(** The attributes of a new queue. *)
Definition initial_attr (a : option mq_attr) : mq_attr :=
  match a with
  | Some a => mk_attr (mq_flags a) (mq_maxmsg a) (mq_msgsize a) 0
  | None => mk_attr 0 10 8192 0
  end.

(** [mem] and [mem_name] are what the two [kmalloc]s return, [fd] and [file_flags] the
    result of [file_anon_fd] and the flags of the file it makes. *)
Definition mqueue_create (n : list Z) (a : option mq_attr) (mem mem_name : option Z) (s : state) : option (option Z * state) :=
  match mem, mem_name with
  | Some mq, Some _ =>
      h ← list_init (msg_list mq) (new_node (msg_list mq) (new_node mq (nodes s)));
      h ← list_add mq mqueue_list h;
      Some (Some mq, mk_state h (msgs s) (<[mq := mk_mq n (initial_attr a) 1]> (queues s)))
  | _, _ => Some (None, s)
  end.

(** The reference [mqueue_open] took is given back; a queue it had just created goes. *)
Definition open_undo (mq : Z) (s : state) : option state :=
  q ← queues s !! mq;
  let n := refcount q - 1 in
  if n =? 0 then
    h ← list_del mq (nodes s);
    Some (mk_state h (msgs s) (delete mq (queues s)))
  else Some (with_queues (<[mq := with_refcount n q]> (queues s)) s).

Definition mqueue_open (n : option (list Z)) (oflag : Z) (a : option mq_attr) (mem mem_name : option Z) (fd file_flags : Z)
    (s : state) : option (Z * option file * state) :=
  match n with
  | None => Some (-1, None, s)
  | Some n =>
      found ← mqueue_find n s;
      r ← match found with
          | None => if negb (has_flag oflag O_CREAT) then Some (None, s) else mqueue_create n a mem mem_name s
          | Some mq =>
              if Z.land oflag (Z.lor O_CREAT O_EXCL) =? Z.lor O_CREAT O_EXCL then Some (None, s)
              else
                q ← queues s !! mq;
                Some (Some mq, with_queues (<[mq := with_refcount (refcount q + 1) q]> (queues s)) s)
          end;
      let '(mq, s) := r in
      match mq with
      | None => Some (-1, None, s)
      | Some mq =>
          if fd <? 0 then s ← open_undo mq s; Some (-1, None, s)
          else Some (fd, Some (mk_file (Some mq) (if has_flag oflag O_NONBLOCK then Z.lor file_flags O_NONBLOCK else file_flags)), s)
      end
  end.

(** [f] is what [process_get_file] returns for the descriptor. *)
Definition mqueue_close (f : option file) (s : state) : option (Z * state) :=
  match f ≫= private_data with
  | None => Some (-1, s)
  | Some mq =>
      q ← queues s !! mq;
      let n := refcount q - 1 in
      let s := with_queues (<[mq := with_refcount n q]> (queues s)) s in
      if n =? 0 then
        h ← list_del mq (nodes s);
        s ← free_all_messages mq (with_nodes h s);
        Some (0, with_queues (delete mq (queues s)) s)
      else Some (0, s)
  end.

Definition mqueue_unlink (n : option (list Z)) (s : state) : option (Z * state) :=
  match n with
  | None => Some (-1, s)
  | Some n =>
      found ← mqueue_find n s;
      match found with
      | None => Some (-1, s)
      | Some mq =>
          q ← queues s !! mq;
          h ← list_del mq (nodes s);
          if 0 <? refcount q then h ← list_add mq mqueue_list h; Some (0, with_nodes h s)
          else
            s ← free_all_messages mq (with_nodes h s);
            Some (0, with_queues (delete mq (queues s)) s)
      end
  end.
End Registry.

(** ** Sending *)

(** The message is in the list behind all messages of its priority or a higher one. *)
Definition enqueue (mq : Z) (m : mq_msg) (msg : Z) (s : state) : option state :=
  let s := mk_state (new_node msg (nodes s)) (<[msg := m]> (msgs s)) (queues s) in
  pos ← list_for_each_entry (msg_fuel s) (fun x => p ← msgs s !! x; Some (msg_prio p <? msg_prio m)) (msg_list mq) (nodes s);
  h ← list_add_tail msg (default (msg_list mq) pos) (nodes s);
  q ← queues s !! mq;
  Some (mk_state h (msgs s) (<[mq := with_attr (with_curmsgs (mq_curmsgs (attr q) + 1) (attr q)) q]> (queues s))).

(** The rest of [mqueue_send] behind the wait for space; [mem] is what [kmalloc] returns,
    [ptr] the bytes at [msg_ptr]. *)
Definition send_rest (mq : Z) (ptr : list Z) (len prio : Z) (mem : option Z) (s : state) : option (outcome * state) :=
  match mem with
  | None => Some (Returned (-1), s)
  | Some msg =>
      if Z.of_nat (length ptr) <? len then None
      else s ← enqueue mq (mk_msg len prio (take (Z.to_nat len) ptr)) msg s; Some (Returned 0, s)
  end.

(** [msg_len > mq_msgsize] compares as [size_t]. *)
Definition mqueue_send (f : option file) (ptr : list Z) (len prio : Z) (mem : option Z) (s : state) : option (outcome * state) :=
  match f with
  | Some (mk_file (Some mq) flags) =>
      q ← queues s !! mq;
      if u32 (mq_msgsize (attr q)) <? len then Some (Returned (-1), s)
      else if mq_maxmsg (attr q) <=? mq_curmsgs (attr q) then
        if has_flag flags O_NONBLOCK then Some (Returned (-1), s) else Some (Waiting, s)
      else send_rest mq ptr len prio mem s
  | _ => Some (Returned (-1), s)
  end.

(** A sender goes on when the wait returns [ret]: 0, or an error. *)
Definition send_resume (mq : Z) (ptr : list Z) (len prio : Z) (mem : option Z) (ret : Z) (s : state) : option (outcome * state) :=
  if negb (ret =? 0) then Some (Returned (-1), s) else send_rest mq ptr len prio mem s.

(** [mqueue_timedsend]: without a timeout it is [mqueue_send], with one the code up to the
    wait is the same, and the wait returns what is left of the time. *)
Definition mqueue_timedsend (f : option file) (ptr : list Z) (len prio : Z) (mem : option Z) (s : state) : option (outcome * state) :=
  mqueue_send f ptr len prio mem s.
Definition timedsend_resume (mq : Z) (ptr : list Z) (len prio : Z) (mem : option Z) (ret : Z) (s : state) : option (outcome * state) :=
  if ret <=? 0 then Some (Returned (-1), s) else send_rest mq ptr len prio mem s.

(** ** Receiving *)

(** The first message, taken out and freed; [list_first_entry] is the node behind the
    head. *)
Definition dequeue (mq : Z) (s : state) : option (mq_msg * state) :=
  msg ← next (nodes s) !! msg_list mq;
  h ← list_del msg (nodes s);
  q ← queues s !! mq;
  m ← msgs s !! msg;
  Some (m, mk_state h (delete msg (msgs s)) (<[mq := with_attr (with_curmsgs (mq_curmsgs (attr q) - 1) (attr q)) q]> (queues s))).

(** The bytes copied to [msg_ptr] and the priority stored through [msg_prio] come with the
    result. *)
Definition receive_rest (mq len : Z) (s : state) : option (outcome * option (list Z * Z) * state) :=
  r ← dequeue mq s;
  let '(m, s) := r in
  Some (Returned (s32 (msg_len m)), Some (take (Z.to_nat (Z.min len (msg_len m))) (msg_data m), msg_prio m), s).

Definition mqueue_receive (f : option file) (len : Z) (s : state) : option (outcome * option (list Z * Z) * state) :=
  match f with
  | Some (mk_file (Some mq) flags) =>
      q ← queues s !! mq;
      if len <? u32 (mq_msgsize (attr q)) then Some (Returned (-1), None, s)
      else if mq_curmsgs (attr q) =? 0 then
        if has_flag flags O_NONBLOCK then Some (Returned (-1), None, s) else Some (Waiting, None, s)
      else receive_rest mq len s
  | _ => Some (Returned (-1), None, s)
  end.

Definition receive_resume (mq len ret : Z) (s : state) : option (outcome * option (list Z * Z) * state) :=
  if negb (ret =? 0) then Some (Returned (-1), None, s) else receive_rest mq len s.

Definition mqueue_timedreceive (f : option file) (len : Z) (s : state) : option (outcome * option (list Z * Z) * state) :=
  mqueue_receive f len s.
Definition timedreceive_resume (mq len ret : Z) (s : state) : option (outcome * option (list Z * Z) * state) :=
  if ret <=? 0 then Some (Returned (-1), None, s) else receive_rest mq len s.

(** ** Attributes *)

(** [want] says that the pointer for the result is not null. *)
Definition mqueue_getattr (f : option file) (want : bool) (s : state) : option (Z * option mq_attr) :=
  if negb want then Some (-1, None)
  else match f with
  | Some (mk_file (Some mq) flags) =>
      q ← queues s !! mq;
      let a := attr q in
      Some (0, Some (mk_attr (Z.land flags O_NONBLOCK) (mq_maxmsg a) (mq_msgsize a) (mq_curmsgs a)))
  | _ => Some (-1, None)
  end.

Definition mqueue_setattr (f : option file) (a : option mq_attr) (want : bool) (s : state) : option (Z * option file * option mq_attr) :=
  match a, f with
  | Some a, Some (mk_file (Some mq) flags) =>
      q ← queues s !! mq;
      let old := mk_attr (Z.land flags O_NONBLOCK) (mq_maxmsg (attr q)) (mq_msgsize (attr q)) (mq_curmsgs (attr q)) in
      let flags := if has_flag (mq_flags a) O_NONBLOCK then Z.lor flags O_NONBLOCK else Z.land flags (Z.lnot O_NONBLOCK) in
      Some (0, Some (mk_file (Some mq) flags), if (want : bool) then Some old else None)
  | _, _ => Some (-1, f, None)
  end.

(** The notification itself is not implemented. *)
Definition mqueue_notify (f : option file) : Z := match f ≫= private_data with None => -1 | Some _ => 0 end.

End Mqueue.
