(* ===== verification/MqueueSpec.v ===== *)
(** POSIX message queues as priority queues: messages are kept in the order in which they
    are to be received, highest priority first and oldest first within a priority. *)

From stdpp Require Import sorting.
From S2P Require Import Prelude KList Mqueue.

Module MqueueSpec.
Import KList Mqueue.

(** ** The abstract queue *)

(** A message goes before the first one of lower priority. *)
Fixpoint insert_prio (m : mq_msg) (ms : list mq_msg) : list mq_msg :=
  match ms with
  | [] => [m]
  | x :: ms => if msg_prio x <? msg_prio m then m :: x :: ms else x :: insert_prio m ms
  end.

Definition sorted (ms : list mq_msg) : Prop := StronglySorted (fun a b => msg_prio b <= msg_prio a) ms.

Lemma insert_prio_perm m ms : insert_prio m ms ≡ₚ m :: ms.
Proof. induction ms as [|x ms IH]; [done|]. cbn. destruct (msg_prio x <? msg_prio m); [done|]. rewrite IH. apply Permutation_swap. Qed.

Lemma insert_prio_length m ms : length (insert_prio m ms) = S (length ms).
Proof. by rewrite insert_prio_perm. Qed.

Lemma insert_prio_sorted m ms : sorted ms -> sorted (insert_prio m ms).
Proof.
  induction 1 as [|x ms Hs IH Hx]; cbn; [by repeat constructor|]. destruct (Z.ltb_spec (msg_prio x) (msg_prio m)).
  - constructor; [by constructor|]. constructor; [lia|]. eapply Forall_impl; [done|]. cbn. lia.
  - constructor; [done|]. rewrite insert_prio_perm. by constructor.
Qed.

(** Within a priority the order is that of sending. *)
Lemma insert_prio_fifo m ms k : sorted ms ->
  filter (fun x => msg_prio x = k) (insert_prio m ms) = filter (fun x => msg_prio x = k) ms ++ (if decide (msg_prio m = k) then [m] else []).
Proof.
  induction 1 as [|x ms Hs IH Hx]; cbn [insert_prio].
  - rewrite filter_cons, filter_nil. by case_decide.
  - destruct (Z.ltb_spec (msg_prio x) (msg_prio m)).
    + destruct (decide (msg_prio m = k)) as [Hk|Hk]; [|by rewrite filter_cons_False, app_nil_r].
      rewrite filter_cons_True by done. rewrite (filter_none _ (x :: ms)); [done|]. constructor; [lia|]. eapply Forall_impl; [done|]. cbn. lia.
    + destruct (decide (msg_prio x = k)); [rewrite !filter_cons_True by done|rewrite !filter_cons_False by done]; by rewrite IH.
Qed.

(** ** The queue in memory *)

(** A message that the queue accepts. *)
Definition fits (q : mqueue) (m : mq_msg) : Prop :=
  msg_len m = Z.of_nat (length (msg_data m)) /\ msg_len m <= u32 (mq_msgsize (attr q)).

(** [xs] are the addresses of the messages of the queue at [mq], [ms] the messages. *)
Record Queue (s : state) (mq : Z) (q : mqueue) (xs : list Z) (ms : list mq_msg) : Prop := {
  qu_here : queues s !! mq = Some q;
  qu_list : is_list (nodes s) (msg_list mq) xs;
  qu_msgs : Forall2 (fun x m => msgs s !! x = Some m) xs ms;
  qu_count : mq_curmsgs (attr q) = Z.of_nat (length ms);
  qu_sorted : sorted ms;
  qu_sizes : Forall (fits q) ms
}.

(** [p] is the address of memory that is not in use. *)
Definition fresh (s : state) (p : Z) : Prop := next (nodes s) !! p = None /\ msgs s !! p = None.

Lemma list_not_fresh s head xs p : is_list (nodes s) head xs -> fresh s p -> p ∉ head :: xs.
Proof. intros HL [Hf _] Hin. destruct (list_node _ _ _ _ HL Hin) as [[v Hv] _]. congruence. Qed.

Lemma walk_fuel {A} (m : gmap Z A) xs : NoDup xs -> (forall x, x ∈ xs -> is_Some (m !! x)) -> (length xs <= size m)%nat.
Proof.
  intros Hnd Hx. rewrite <-(size_list_to_set (C := gset Z) xs Hnd), <-(size_dom (D := gset Z) m). apply subseteq_size.
  intros x. rewrite elem_of_list_to_set, elem_of_dom. auto.
Qed.

Lemma msgs_some s mq q xs ms x : Queue s mq q xs ms -> x ∈ xs -> is_Some (msgs s !! x).
Proof.
  intros HQ [i Hi]%list_elem_of_lookup. destruct (Forall2_lookup_l _ _ _ _ _ (qu_msgs _ _ _ _ _ HQ) Hi) as (m & _ & Hm). by eexists.
Qed.

(** ** Sending *)

(** The walk stops where [insert_prio] inserts. *)
Lemma insert_place (t : Z -> bool) (R : Z -> mq_msg -> Prop) head msg m xs ms :
  Forall2 (fun x p => R x p /\ t x = (msg_prio p <? msg_prio m)) xs ms -> R msg m ->
  exists a b, xs = a ++ b /\ default head (List.find t xs) = List.hd head b /\ Forall2 R (a ++ msg :: b) (insert_prio m ms).
Proof.
  intros HF Hm. induction HF as [|x p xs ms [Hx Ht] HF IH].
  - exists [], []. split; [done|]. split; [done|]. cbn. by repeat constructor.
  - cbn [List.find insert_prio]. rewrite Ht. destruct (msg_prio p <? msg_prio m).
    + exists [], (x :: xs). split; [done|]. split; [done|]. constructor; [done|]. constructor; [done|].
      eapply Forall2_impl; [done|]. by intros ?? [? _].
    + destruct IH as (a & b & -> & Hf & HF'). exists (x :: a), b. split; [done|]. split; [done|]. by constructor.
Qed.

Definition counted (q : mqueue) (n : Z) : mqueue := with_attr (with_curmsgs n (attr q)) q.

Lemma enqueue_ok s mq q xs ms m msg : Queue s mq q xs ms -> fresh s msg -> fits q m ->
  exists s' xs', enqueue mq m msg s = Some s' /\ Queue s' mq (counted q (mq_curmsgs (attr q) + 1)) xs' (insert_prio m ms) /\
    others (nodes s) (nodes s') (msg :: msg_list mq :: xs) /\ msgs s' = <[msg := m]> (msgs s) /\
    queues s' = <[mq := counted q (mq_curmsgs (attr q) + 1)]> (queues s).
Proof.
  intros HQ Hf Hfit. pose proof HQ as [Hq HL HF Hc Hs Hsz]. pose proof (list_not_fresh s _ _ _ HL Hf) as Hni. destruct Hf as [_ Hfm].
  set (s1 := mk_state (new_node msg (nodes s)) (<[msg := m]> (msgs s)) (queues s)).
  set (t := fun x => match msgs s1 !! x with Some p => msg_prio p <? msg_prio m | None => false end).
  assert (forall x, x ∈ xs -> x <> msg) as Hne by (intros x Hx ->; apply Hni; by right).
  assert (forall x p, x ∈ xs -> msgs s !! x = Some p -> msgs s1 !! x = Some p) as Hs1.
  { intros x p Hx Hp. cbn. rewrite lookup_insert_ne; [done|]. apply not_eq_sym. by apply Hne. }
  assert (is_list (nodes s1) (msg_list mq) xs) as HL1 by (by apply new_node_list).
  destruct (new_node_others msg (nodes s)) as [HO1 HN].
  destruct (insert_place t (fun x p => msgs s1 !! x = Some p) (msg_list mq) msg m xs ms) as (a & b & -> & Hfind & HF').
  { apply Forall2_same_length_lookup_2; [by apply Forall2_length in HF|]. intros i x p Hx Hp.
    assert (msgs s1 !! x = Some p) as E.
    { apply Hs1; [by eapply list_elem_of_lookup_2|]. by apply (Forall2_lookup_lr _ _ _ _ _ _ HF Hx Hp). }
    split; [done|]. unfold t. by rewrite E. }
  { cbn. apply lookup_insert_eq. }
  destruct (list_add_tail_ok (nodes s1) (msg_list mq) a b msg HL1 Hni HN) as (h & E & HL' & HO2).
  exists (mk_state h (msgs s1) (<[mq := counted q (mq_curmsgs (attr q) + 1)]> (queues s))), (a ++ msg :: b). split; [|split; [split|split; [|done]]].
  - unfold enqueue. cbv zeta. fold s1. rewrite (list_for_each_entry_ok (nodes s1) (msg_list mq) (a ++ b) _ t).
    + rewrite bind_Some_l, Hfind, E, bind_Some_l.
      change (queues s1) with (queues s). by rewrite Hq, bind_Some_l.
    + done.
    + unfold msg_fuel. apply Nat.lt_succ_r. apply walk_fuel; [by destruct HL as [[_ ?]%NoDup_cons _]|].
      intros x Hx. destruct (msgs_some s mq q _ _ x HQ Hx) as [p Hp]. exists p. by apply Hs1.
    + intros x Hx. destruct (msgs_some s mq q _ _ x HQ Hx) as [p Hp]. unfold t. rewrite (Hs1 x p Hx Hp). done.
  - cbn. apply lookup_insert_eq.
  - done.
  - done.
  - cbn. rewrite insert_prio_length, Hc. lia.
  - by apply insert_prio_sorted.
  - rewrite insert_prio_perm. by constructor.
  - eapply others_trans; [|exact HO2]. apply (others_weaken _ _ _ _ HO1). set_solver.
Qed.

(** ** Receiving *)

Lemma dequeue_ok s mq q x xs m ms : Queue s mq q (x :: xs) (m :: ms) ->
  exists s', dequeue mq s = Some (m, s') /\ Queue s' mq (counted q (mq_curmsgs (attr q) - 1)) xs ms /\
    others (nodes s) (nodes s') (msg_list mq :: x :: xs) /\ msgs s' = delete x (msgs s) /\
    queues s' = <[mq := counted q (mq_curmsgs (attr q) - 1)]> (queues s).
Proof.
  intros [Hq HL HF Hc Hs Hsz]. inversion_clear Hsz as [|?? _ Hsz']. inversion_clear HF as [|???? Hx HF']. inversion_clear Hs as [|?? Hs' _].
  destruct (list_del_ok (nodes s) (msg_list mq) [] x xs HL) as (h & E & HL' & _ & _ & HO).
  eexists. split; [unfold dequeue; rewrite (first_ok _ _ _ HL), bind_Some_l; cbn [List.hd]; by rewrite E, bind_Some_l, Hq, bind_Some_l, Hx, bind_Some_l|].
  split; [split|done]; cbn; [apply lookup_insert_eq|done| |rewrite Hc; cbn; lia|done|done].
  assert (x ∉ xs) as Hni by (destruct HL as [[_ [? _]%NoDup_cons]%NoDup_cons _]; done).
  apply Forall2_same_length_lookup_2; [by apply Forall2_length in HF'|]. intros i y p Hy Hp.
  rewrite lookup_delete_ne; [by apply (Forall2_lookup_lr _ _ _ _ _ _ HF' Hy Hp)|].
  intros ->. apply Hni. by eapply list_elem_of_lookup_2.
Qed.

(** ** The calls *)

(** The message [mqueue_send] makes. *)
Definition message (ptr : list Z) (len prio : Z) : mq_msg := mk_msg len prio (take (Z.to_nat len) ptr).

Lemma message_fits q ptr len prio : 0 <= len <= Z.of_nat (length ptr) -> len <= u32 (mq_msgsize (attr q)) -> fits q (message ptr len prio).
Proof. intros Hl Hs. split; [|done]. cbn. rewrite length_take. lia. Qed.

Lemma send_rest_ok s mq q xs ms ptr len prio msg : Queue s mq q xs ms -> fresh s msg -> 0 <= len <= Z.of_nat (length ptr) ->
  len <= u32 (mq_msgsize (attr q)) ->
  exists s' xs', send_rest mq ptr len prio (Some msg) s = Some (Returned 0, s') /\
    Queue s' mq (counted q (mq_curmsgs (attr q) + 1)) xs' (insert_prio (message ptr len prio) ms).
Proof.
  intros HQ Hf Hl Hs. unfold send_rest. destruct (Z.ltb_spec (Z.of_nat (length ptr)) len); [lia|].
  destruct (enqueue_ok s mq q xs ms (message ptr len prio) msg HQ Hf) as (s' & xs' & E & HQ' & _); [by apply message_fits|].
  unfold message in E. rewrite E. eauto.
Qed.

Lemma receive_rest_ok s mq q x xs m ms len : Queue s mq q (x :: xs) (m :: ms) -> u32 (mq_msgsize (attr q)) <= len ->
  u32 (mq_msgsize (attr q)) < 2 ^ 31 ->
  exists s', receive_rest mq len s = Some (Returned (msg_len m), Some (msg_data m, msg_prio m), s') /\
    Queue s' mq (counted q (mq_curmsgs (attr q) - 1)) xs ms.
Proof.
  intros HQ Hl H31. destruct (dequeue_ok s mq q x xs m ms HQ) as (s' & E & HQ' & _). exists s'. split; [|done].
  pose proof (qu_sizes _ _ _ _ _ HQ) as Hsz. inversion_clear Hsz as [|?? [H1 H2] _]. unfold receive_rest. rewrite E, bind_Some_l.
  unfold s32, swrap. rewrite (Z.mod_small (msg_len m + 2 ^ (32 - 1))) by lia.
  rewrite take_ge by lia. do 4 f_equal. lia.
Qed.

(** ** A small queue *)

(** An empty queue for two messages of at most 64 bytes at address 1000. *)
Definition small_mq (maxmsg n : Z) : mqueue := mk_mq [47; 113] (mk_attr 0 maxmsg 64 n) 1.
Definition small_state : state :=
  mk_state (mk_heap (list_to_map [(500, 1000); (1000, 500); (1012, 1012)]) (list_to_map [(500, 1000); (1000, 500); (1012, 1012)]))
    ∅ {[1000 := small_mq 2 0]}.

Lemma small_queue : Queue small_state 1000 (small_mq 2 0) [] [].
Proof.
  split; [done| |by constructor|done|by constructor|by constructor]. split; [apply NoDup_singleton|]. by vm_compute.
Qed.

(** The same queue with two messages. *)
Definition full_state : state :=
  mk_state (mk_heap (list_to_map [(500, 1000); (1000, 500); (1012, 2000); (2000, 2040); (2040, 1012)])
                    (list_to_map [(500, 1000); (1000, 500); (1012, 2040); (2000, 1012); (2040, 2000)]))
    (list_to_map [(2000, mk_msg 3 7 [1; 2; 3]); (2040, mk_msg 1 4 [9])]) {[1000 := small_mq 2 2]}.

Lemma full_queue : Queue full_state 1000 (small_mq 2 2) [2000; 2040] [mk_msg 3 7 [1; 2; 3]; mk_msg 1 4 [9]].
Proof.
  split; [done| | |done| |].
  - split; [repeat (apply NoDup_cons; split; [set_solver|]); by apply NoDup_nil|]. by vm_compute.
  - by repeat constructor.
  - repeat constructor. cbn. lia.
  - by repeat constructor.
Qed.

(** ** Sending and receiving *)

(** [mqueue_send] refuses a message longer than the queue's limit; on a full queue a
    non-blocking sender gets an error and a blocking one waits, with nothing changed;
    otherwise the message is put behind all messages of the same or a higher priority and
    before all of a lower one, the others keep their order, the count of messages is right
    and not above the maximum. *)
Theorem mqueue_send_correct s mq q xs ms flags ptr len prio msg (HQ : Queue s mq q xs ms) (Hmem : fresh s msg)
    (Hlen : 0 <= len <= Z.of_nat (length ptr)) :
  let f := Some (mk_file (Some mq) flags) in
  let m := message ptr len prio in
  if decide (u32 (mq_msgsize (attr q)) < len) then mqueue_send f ptr len prio (Some msg) s = Some (Returned (-1), s)
  else if decide (mq_maxmsg (attr q) <= Z.of_nat (length ms)) then
    mqueue_send f ptr len prio (Some msg) s = Some (if has_flag flags O_NONBLOCK then Returned (-1) else Waiting, s)
  else exists s' q' xs', mqueue_send f ptr len prio (Some msg) s = Some (Returned 0, s') /\ Queue s' mq q' xs' (insert_prio m ms) /\
    Z.of_nat (length (insert_prio m ms)) <= mq_maxmsg (attr q') /\
    forall k, filter (fun x => msg_prio x = k) (insert_prio m ms) =
      filter (fun x => msg_prio x = k) ms ++ (if decide (msg_prio m = k) then [m] else []).
Proof.
  intros f m. pose proof HQ as [Hq _ _ Hc Hs _]. unfold mqueue_send, f. rewrite Hq, bind_Some_l, Hc.
  case_decide as H1; [by destruct (Z.ltb_spec (u32 (mq_msgsize (attr q))) len); [|lia]|].
  destruct (Z.ltb_spec (u32 (mq_msgsize (attr q))) len); [lia|].
  case_decide as H2; destruct (Z.leb_spec (mq_maxmsg (attr q)) (Z.of_nat (length ms))); try lia; [by destruct (has_flag flags O_NONBLOCK)|].
  destruct (send_rest_ok s mq q xs ms ptr len prio msg HQ Hmem Hlen ltac:(lia)) as (s' & xs' & E & HQ').
  eexists s', _, xs'. split; [exact E|]. split; [exact HQ'|]. split; [cbn; rewrite insert_prio_length; lia|].
  intros k. by apply insert_prio_fifo.
Qed.

Lemma mqueue_send_correct_witness :
  exists s' q' xs', mqueue_send (Some (mk_file (Some 1000) 0)) [1; 2; 3] 3 7 (Some 2000) small_state = Some (Returned 0, s') /\
    Queue s' 1000 q' xs' [mk_msg 3 7 [1; 2; 3]] /\ Z.of_nat 1 <= mq_maxmsg (attr q') /\
    forall k, filter (fun x => msg_prio x = k) [mk_msg 3 7 [1; 2; 3]] = [] ++ (if decide (7 = k) then [mk_msg 3 7 [1; 2; 3]] else []).
Proof.
  apply (mqueue_send_correct small_state 1000 (small_mq 2 0) [] [] 0 [1; 2; 3] 3 7 2000 small_queue); [by split; vm_compute|cbn; lia].
Defined.

(** [mqueue_receive] with a buffer that is large enough returns the first message
    whole, with its length and priority: no message in the queue has a higher priority,
    and none of the same priority was sent before it. The rest stays as it is. On an empty
    queue a non-blocking receiver gets an error and a blocking one waits. *)
Theorem mqueue_receive_correct s mq q xs ms flags len (HQ : Queue s mq q xs ms) (Hlen : u32 (mq_msgsize (attr q)) <= len)
    (H31 : u32 (mq_msgsize (attr q)) < 2 ^ 31) :
  let f := Some (mk_file (Some mq) flags) in
  match ms with
  | [] => mqueue_receive f len s = Some (if has_flag flags O_NONBLOCK then Returned (-1) else Waiting, None, s)
  | m :: ms' => exists s' q' xs', mqueue_receive f len s = Some (Returned (msg_len m), Some (msg_data m, msg_prio m), s') /\
      Queue s' mq q' xs' ms' /\ Forall (fun x => msg_prio x <= msg_prio m) ms' /\
      head (filter (fun x => msg_prio x = msg_prio m) ms) = Some m
  end.
Proof.
  intros f. pose proof HQ as [Hq _ HF Hc Hs _]. unfold mqueue_receive, f. rewrite Hq, bind_Some_l, Hc.
  destruct (Z.ltb_spec len (u32 (mq_msgsize (attr q)))); [lia|]. destruct ms as [|m ms']; [by destruct (has_flag flags O_NONBLOCK)|].
  inversion HF as [|x ? xs' ? _ _]; subst. destruct (receive_rest_ok s mq q x xs' m ms' len HQ Hlen H31) as (s' & E & HQ').
  eexists s', _, xs'. split; [exact E|]. split; [exact HQ'|]. split; [by inversion_clear Hs|]. by rewrite filter_cons_True.
Qed.

Lemma mqueue_receive_correct_witness :
  exists s' q' xs', mqueue_receive (Some (mk_file (Some 1000) 0)) 64 full_state = Some (Returned 3, Some ([1; 2; 3], 7), s') /\
    Queue s' 1000 q' xs' [mk_msg 1 4 [9]] /\ Forall (fun x => msg_prio x <= 7) [mk_msg 1 4 [9]] /\
    head (filter (fun x => msg_prio x = 7) [mk_msg 3 7 [1; 2; 3]; mk_msg 1 4 [9]]) = Some (mk_msg 3 7 [1; 2; 3]).
Proof.
  apply (mqueue_receive_correct full_state 1000 (small_mq 2 2) [2000; 2040] [mk_msg 3 7 [1; 2; 3]; mk_msg 1 4 [9]] 0 64 full_queue); vm_compute; congruence.
Defined.

(** ** Runs *)

Inductive op := Send (data : list Z) (prio : Z) | Receive.

(** What a call returns: its result, and a message. *)
Notation answer := (Z * option (list Z * Z))%type.

(** A priority queue for [cap] messages of at most [size] bytes. *)
Definition spec_step (cap size : Z) (o : op) (ms : list mq_msg) : answer * list mq_msg :=
  match o with
  | Send data prio =>
      if (size <? Z.of_nat (length data)) || (cap <=? Z.of_nat (length ms)) then ((-1, None), ms)
      else ((0, None), insert_prio (mk_msg (Z.of_nat (length data)) prio data) ms)
  | Receive =>
      match ms with
      | [] => ((-1, None), [])
      | m :: ms => ((msg_len m, Some (msg_data m, msg_prio m)), ms)
      end
  end.

Fixpoint spec_run (cap size : Z) (os : list op) (ms : list mq_msg) : list answer * list mq_msg :=
  match os with
  | [] => ([], ms)
  | o :: os => let '(r, ms) := spec_step cap size o ms in let '(rs, ms) := spec_run cap size os ms in (r :: rs, ms)
  end.

Section Runs.
(** [kmalloc] finds memory that is not in use. *)
Context (kmalloc : state -> Z) (Hkmalloc : forall s, fresh s (kmalloc s)).

(** The same with the calls on a file [f]; a call that waits ends the run. *)
Definition code_step (f : option file) (size : Z) (o : op) (s : state) : option (answer * state) :=
  match o with
  | Send data prio =>
      r ← mqueue_send f data (Z.of_nat (length data)) prio (Some (kmalloc s)) s;
      match r with (Returned r, s) => Some ((r, None), s) | (Waiting, _) => None end
  | Receive =>
      r ← mqueue_receive f size s;
      match r with (Returned r, m, s) => Some ((r, m), s) | (Waiting, _, _) => None end
  end.

Fixpoint code_run (f : option file) (size : Z) (os : list op) (s : state) : option (list answer * state) :=
  match os with
  | [] => Some ([], s)
  | o :: os => '(r, s) ← code_step f size o s; '(rs, s) ← code_run f size os s; Some (r :: rs, s)
  end.

(** The limits of a queue do not change. *)
Definition limits (q : mqueue) : Z * Z := (mq_maxmsg (attr q), u32 (mq_msgsize (attr q))).

Lemma code_step_ok s mq q xs ms flags o : Queue s mq q xs ms -> has_flag flags O_NONBLOCK = true -> (limits q).2 < 2 ^ 31 ->
  exists s' q' xs', let r := spec_step (limits q).1 (limits q).2 o ms in
    code_step (Some (mk_file (Some mq) flags)) (limits q).2 o s = Some (r.1, s') /\ Queue s' mq q' xs' r.2 /\ limits q' = limits q.
Proof.
  intros HQ Hnb H31. pose proof HQ as [Hq _ HF Hc Hs _]. destruct o as [data prio|]; cbn [code_step spec_step limits fst snd] in *.
  - unfold mqueue_send. rewrite Hq, bind_Some_l, Hc. destruct (Z.ltb_spec (u32 (mq_msgsize (attr q))) (Z.of_nat (length data))); cbn [orb].
    { exists s, q, xs. done. }
    destruct (Z.leb_spec (mq_maxmsg (attr q)) (Z.of_nat (length ms))); [rewrite Hnb; by exists s, q, xs|].
    destruct (send_rest_ok s mq q xs ms data (Z.of_nat (length data)) prio (kmalloc s) HQ (Hkmalloc s)) as (s' & xs' & E & HQ'); [lia|lia|].
    unfold message in HQ'. rewrite Nat2Z.id, take_ge in HQ' by lia. rewrite E, bind_Some_l. eexists s', _, xs'. split; [done|]. by split.
  - unfold mqueue_receive. rewrite Hq, bind_Some_l, Z.ltb_irrefl, Hc. destruct ms as [|m ms].
    { cbn [length]. change (Z.of_nat 0 =? 0) with true. cbv iota. rewrite Hnb. by exists s, q, xs. }
    inversion HF as [|x ? xs' ? _ _]; subst. destruct (receive_rest_ok s mq q x xs' m ms _ HQ ltac:(reflexivity) H31) as (s' & E & HQ').
    change (Z.of_nat (length (m :: ms)) =? 0) with false. cbv iota. rewrite E, bind_Some_l. eexists s', _, xs'. split; [done|]. by split.
Qed.

(** C24: any run of sends and receives on a non-blocking descriptor gives the answers of a
    priority queue with the queue's limits, and leaves the queue in memory in the state
    of that priority queue: the linked list, the count and the messages refine it. *)
Theorem mqueue_refines_priority_queue os s mq q xs ms flags (HQ : Queue s mq q xs ms) (Hnb : has_flag flags O_NONBLOCK = true)
    (H31 : (limits q).2 < 2 ^ 31) :
  exists s' q' xs', let r := spec_run (limits q).1 (limits q).2 os ms in
    code_run (Some (mk_file (Some mq) flags)) (limits q).2 os s = Some (r.1, s') /\ Queue s' mq q' xs' r.2.
Proof.
  revert s q xs ms HQ H31. induction os as [|o os IH]; intros s q xs ms HQ H31; cbn [spec_run code_run]; [by exists s, q, xs|].
  destruct (code_step_ok s mq q xs ms flags o HQ Hnb H31) as (s1 & q1 & xs1 & E1 & HQ1 & HL). rewrite E1, bind_Some_l.
  destruct (spec_step (limits q).1 (limits q).2 o ms) as [r ms1]. cbn [fst snd] in *.
  destruct (IH s1 q1 xs1 ms1 HQ1) as (s2 & q2 & xs2 & E2 & HQ2); [by rewrite HL|]. rewrite HL in E2, HQ2. rewrite E2, bind_Some_l.
  exists s2, q2, xs2. destruct (spec_run (limits q).1 (limits q).2 os ms1). done.
Qed.
End Runs.

(** An allocator: some address that is not in use. *)
Definition some_kmalloc (s : state) : Z := stdpp.base.fresh (dom (next (nodes s)) ∪ dom (msgs s) : gset Z).

Lemma some_kmalloc_ok s : fresh s (some_kmalloc s).
Proof.
  pose proof (is_fresh (dom (next (nodes s)) ∪ dom (msgs s) : gset Z)) as H. apply not_elem_of_union in H as [H1 H2].
  split; by apply not_elem_of_dom.
Qed.

Lemma mqueue_refines_priority_queue_witness :
  let os := [Send [1] 3; Send [2] 5; Send [3] 5; Receive; Send [4] 5; Receive; Receive; Receive] in
  let r := spec_run 2 64 os [] in
  r.1 = [(0, None); (0, None); (-1, None); (1, Some ([2], 5)); (0, None); (1, Some ([4], 5)); (1, Some ([1], 3)); (-1, None)] /\
  exists s' q' xs', code_run some_kmalloc (Some (mk_file (Some 1000) O_NONBLOCK)) 64 os small_state = Some (r.1, s') /\
    Queue s' 1000 q' xs' r.2.
Proof.
  split; [reflexivity|].
  apply (mqueue_refines_priority_queue some_kmalloc some_kmalloc_ok [Send [1] 3; Send [2] 5; Send [3] 5; Receive; Send [4] 5; Receive; Receive; Receive]
    small_state 1000 (small_mq 2 0) [] [] O_NONBLOCK small_queue); reflexivity.
Defined.

(** ** Waiters that are not alone *)

(** A receiver that goes on after its wait does not test again: on an empty queue it takes
    the head of the list for a message. *)
Theorem receive_resume_empty_faults s mq q len (HQ : Queue s mq q [] []) (Hhead : msgs s !! msg_list mq = None) :
  receive_resume mq len 0 s = None.
Proof.
  destruct HQ as [Hq HL _ _ _ _]. unfold receive_resume, receive_rest, dequeue. cbn [Z.eqb negb]. rewrite (first_ok _ _ _ HL), bind_Some_l. cbn [List.hd].
  destruct (list_del (msg_list mq) (nodes s)) as [h|]; [|done]. by rewrite bind_Some_l, Hq, bind_Some_l, Hhead.
Qed.

(** Two receivers wait on an empty queue, one message is sent, and both waits return: the
    first receiver gets it, the second follows a pointer to no message. *)
Theorem mqueue_second_receiver_faults :
  let f := Some (mk_file (Some 1000) 0) in
  (fun r => r.1.1) <$> mqueue_receive f 64 small_state = Some Waiting /\
  (r1 ← mqueue_send f [5] 1 0 (Some 2000) small_state;
   r2 ← receive_resume 1000 64 0 r1.2;
   Some (r1.1, r2.1)) = Some (Returned 0, (Returned 1, Some ([5], 0))) /\
  (r1 ← mqueue_send f [5] 1 0 (Some 2000) small_state;
   r2 ← receive_resume 1000 64 0 r1.2;
   receive_resume 1000 64 0 r2.2) = None.
Proof. split_and!; vm_compute; reflexivity. Qed.

(** A sender that goes on after its wait does not test again either: on a full queue the
    count exceeds [mq_maxmsg]. *)
Theorem send_resume_exceeds_maxmsg s mq q xs ms ptr len prio msg (HQ : Queue s mq q xs ms) (Hmem : fresh s msg)
    (Hlen : 0 <= len <= Z.of_nat (length ptr)) (Hsize : len <= u32 (mq_msgsize (attr q)))
    (Hfull : Z.of_nat (length ms) = mq_maxmsg (attr q)) :
  exists s' q' xs', send_resume mq ptr len prio (Some msg) 0 s = Some (Returned 0, s') /\
    Queue s' mq q' xs' (insert_prio (message ptr len prio) ms) /\ mq_curmsgs (attr q') = mq_maxmsg (attr q') + 1.
Proof.
  destruct (send_rest_ok s mq q xs ms ptr len prio msg HQ Hmem Hlen Hsize) as (s' & xs' & E & HQ').
  eexists s', _, xs'. split; [exact E|]. split; [exact HQ'|]. cbn. rewrite (qu_count _ _ _ _ _ HQ). lia.
Qed.

(** ** The registry *)

Section Registry.
Context (root : Z).

(** The queues in [mqueue_list], by address: each is referenced at least once and no two
    have the same name. *)
Record Registry (s : state) (qs : list Z) : Prop := {
  re_list : is_list (nodes s) root qs;
  re_queue : forall mq, mq ∈ qs -> exists q, queues s !! mq = Some q /\ 1 <= refcount q;
  re_names : forall mq mq' q q', mq ∈ qs -> mq' ∈ qs -> queues s !! mq = Some q -> queues s !! mq' = Some q' -> name q = name q' -> mq = mq'
}.

Definition named (s : state) (n : list Z) (mq : Z) : bool :=
  match queues s !! mq with Some q => bool_decide (name q = n) | None => false end.

Lemma mqueue_find_ok s qs n : Registry s qs -> mqueue_find root n s = Some (List.find (named s n) qs).
Proof.
  intros [HL HQ _]. apply list_for_each_entry_ok; [done| |].
  - unfold queue_fuel. apply Nat.lt_succ_r, walk_fuel; [by destruct HL as [[_ ?]%NoDup_cons _]|].
    intros mq (q & Hq & _)%HQ. by eexists.
  - intros mq (q & Hq & _)%HQ. unfold named. by rewrite Hq.
Qed.

(** The name is found where it is, in whatever order the list has. *)
Lemma mqueue_find_in s qs n mq q : Registry s qs -> mq ∈ qs -> queues s !! mq = Some q -> name q = n ->
  mqueue_find root n s = Some (Some mq).
Proof.
  intros HR Hin Hq Hn. rewrite (mqueue_find_ok s qs n HR). f_equal.
  destruct (List.find (named s n) qs) as [mq'|] eqn:E.
  - apply find_some in E as [E1%list_elem_of_In E2]. unfold named in E2. destruct (queues s !! mq') as [q'|] eqn:Hq'; [|done].
    apply bool_decide_eq_true in E2. f_equal. apply (re_names s qs HR mq' mq q' q); congruence.
  - apply list_elem_of_In in Hin. pose proof (find_none _ _ E mq Hin) as E'. unfold named in E'. rewrite Hq, bool_decide_eq_true_2 in E'; done.
Qed.

(** [mqueue_unlink] of a queue that exists succeeds and removes nothing: every queue
    in the registry is referenced, so it is put back, and its name can be opened as
    before. *)
Theorem mqueue_unlink_keeps s qs n mq q (HR : Registry s qs) (Hin : mq ∈ qs) (Hq : queues s !! mq = Some q) (Hn : name q = n) :
  exists s' qs', mqueue_unlink root (Some n) s = Some (0, s') /\ Registry s' qs' /\ qs' ≡ₚ qs /\
    queues s' = queues s /\ msgs s' = msgs s /\ mqueue_find root n s' = Some (Some mq).
Proof.
  unfold mqueue_unlink. rewrite (mqueue_find_in s qs n mq q HR Hin Hq Hn), bind_Some_l, Hq, bind_Some_l.
  destruct (re_queue s qs HR mq Hin) as (q' & Hq' & Href). assert (q' = q) as -> by congruence.
  pose proof Hin as (a & b & ->)%list_elem_of_split.
  destruct (list_del_ok (nodes s) root a mq b (re_list _ _ HR)) as (h1 & E1 & HL1 & _ & _ & HO1). rewrite E1, bind_Some_l.
  destruct (Z.ltb_spec 0 (refcount q)); [|lia].
  assert (mq ∉ root :: a ++ b /\ NoDup (root :: a ++ b)) as [Hni _].
  { destruct (re_list _ _ HR) as [Hnd _]. rewrite app_comm_cons, <-Permutation_middle in Hnd. by apply NoDup_cons in Hnd. }
  assert (node h1 mq) as HN.
  { apply HO1. apply (list_node (nodes s) root (a ++ mq :: b)); [apply HR|]. by right. }
  destruct (list_add_ok h1 root [] (a ++ b) mq HL1 Hni HN) as (h2 & E2 & HL2 & _). cbn [List.last app] in *. rewrite E2, bind_Some_l.
  assert (Registry (with_nodes h2 s) (mq :: a ++ b)) as HR'.
  { split; [done| |]; cbn [queues with_nodes].
    - intros x Hx. apply (re_queue _ _ HR). by rewrite <-Permutation_middle.
    - intros x y qx qy Hx Hy. apply (re_names _ _ HR); by rewrite <-Permutation_middle. }
  exists (with_nodes h2 s), (mq :: a ++ b). split; [done|]. split; [done|]. split; [apply Permutation_middle|]. split; [done|]. split; [done|].
  apply (mqueue_find_in _ _ _ _ q HR'); [by left|done|done].
Qed.
End Registry.

Lemma small_registry : Registry 500 small_state [1000].
Proof.
  split.
  - split; [|by vm_compute]. repeat (apply NoDup_cons; split; [set_solver|]). by apply NoDup_nil.
  - intros mq ->%list_elem_of_singleton. by exists (small_mq 2 0).
  - by intros mq mq' q q' ->%list_elem_of_singleton ->%list_elem_of_singleton.
Qed.

Lemma mqueue_unlink_keeps_witness :
  exists s' qs', mqueue_unlink 500 (Some [47; 113]) small_state = Some (0, s') /\ Registry 500 s' qs' /\ qs' ≡ₚ [1000] /\
    queues s' = queues small_state /\ msgs s' = msgs small_state /\ mqueue_find 500 [47; 113] s' = Some (Some 1000).
Proof.
  apply (mqueue_unlink_keeps 500 small_state [1000] [47; 113] 1000 (small_mq 2 0) small_registry); [by left|done|done].
Defined.

(** ** Opening and closing *)

Section OpenClose.
Context (root : Z) (s : state) (qs : list Z) (HR : Registry root s qs).

(** Memory for a queue: its two list nodes are not in use. *)
Definition fresh_queue (mq : Z) : Prop :=
  next (nodes s) !! mq = None /\ next (nodes s) !! msg_list mq = None /\ queues s !! mq = None.

Lemma msg_list_ne mq : msg_list mq <> mq.
Proof. unfold msg_list, MSG_LIST. lia. Qed.

Lemma create_ok n a mq p : fresh_queue mq -> List.find (named s n) qs = None ->
  exists s', mqueue_create root n a (Some mq) (Some p) s = Some (Some mq, s') /\
    Registry root s' (mq :: qs) /\ Queue s' mq (mk_mq n (initial_attr a) 1) [] [] /\
    queues s' = <[mq := mk_mq n (initial_attr a) 1]> (queues s) /\ msgs s' = msgs s.
Proof.
  intros (Hf1 & Hf2 & Hf3) Hnone. pose proof (re_list _ _ _ HR) as HL. pose proof (msg_list_ne mq) as Hne.
  assert (forall x, x ∈ root :: qs -> x <> mq /\ x <> msg_list mq) as Hx.
  { intros x Hx. destruct (list_node _ _ _ _ HL Hx) as [[v Hv] _]. split; intros ->; congruence. }
  unfold mqueue_create. set (h0 := new_node (msg_list mq) (new_node mq (nodes s))).
  destruct (new_node_others mq (nodes s)) as [O1 N1]. destruct (new_node_others (msg_list mq) (new_node mq (nodes s))) as [O2 N2]. fold h0 in O2, N2.
  destruct (list_init_ok (msg_list mq) h0 N2) as (h1 & E1 & HI1 & O3). rewrite E1, bind_Some_l.
  assert (is_list h1 root qs) as HL1.
  { apply (list_frame h0 _ root qs [msg_list mq]); [|exact O3|intros y Hy ->%list_elem_of_singleton; by destruct (Hx _ Hy)].
    do 2 (apply new_node_list; [|intros Hin; by destruct (Hx _ Hin)]). done. }
  assert (mq ∉ root :: qs) as Hni by (intros Hin; by destruct (Hx mq Hin)).
  assert (node h1 mq) as HN by (apply O3, O2, N1).
  destruct (list_add_ok h1 root [] qs mq HL1 Hni HN) as (h2 & E2 & HL2 & O4). cbn [List.last app] in *. rewrite E2, bind_Some_l.
  eexists. split; [reflexivity|]. split; [split|split; [split|done]]; cbn [nodes queues msgs].
  - done.
  - intros x Hin. destruct (decide (x = mq)) as [->|Hxn]; [rewrite lookup_insert_eq; by eexists|].
    rewrite lookup_insert_ne by done. apply (re_queue _ _ _ HR). by apply elem_of_cons in Hin as [->|?].
  - assert (forall x q, x ∈ qs -> queues s !! x = Some q -> name q <> n) as Hdiff.
    { intros x q Hin Hq Hn. apply list_elem_of_In in Hin. pose proof (find_none _ _ Hnone x Hin) as Hb. unfold named in Hb.
      rewrite Hq, bool_decide_eq_true_2 in Hb; done. }
    assert (forall x, x ∈ mq :: qs -> x <> mq -> x ∈ qs) as Htl by (by intros x [->|?]%elem_of_cons ?).
    intros x y qx qy Hx' Hy' Hqx Hqy Hnm. destruct (decide (x = mq)) as [->|Hxm], (decide (y = mq)) as [->|Hym]; [done| | |];
      first [rewrite lookup_insert_eq in Hqx | rewrite lookup_insert_ne in Hqx by done];
      first [rewrite lookup_insert_eq in Hqy | rewrite lookup_insert_ne in Hqy by done].
    + injection Hqx as <-. by destruct (Hdiff y qy (Htl y Hy' Hym)).
    + injection Hqy as <-. by destruct (Hdiff x qx (Htl x Hx' Hxm)).
    + apply (re_names _ _ _ HR x y qx qy); auto.
  - apply lookup_insert_eq.
  - apply (list_frame h1 h2 _ _ _ HI1 O4). intros y ->%list_elem_of_singleton.
    rewrite not_elem_of_cons. split; [done|]. intros Hin. by destruct (Hx (msg_list mq) Hin).
  - constructor.
  - by destruct a.
  - constructor.
  - constructor.
Qed.

(** Opening a queue by a new name with [O_CREAT] puts an empty queue with the given
    attributes into the registry; closing the descriptor takes it out again and frees it,
    and every other queue and message is as before. *)
Theorem mqueue_open_close n oflag a mq p fd flags (Hmem : fresh_queue mq) (Hnone : List.find (named s n) qs = None)
    (Hcreat : has_flag oflag O_CREAT = true) (Hfd : 0 <= fd) :
  exists f s1 s2, mqueue_open root (Some n) oflag a (Some mq) (Some p) fd flags s = Some (fd, Some f, s1) /\
    Registry root s1 (mq :: qs) /\ Queue s1 mq (mk_mq n (initial_attr a) 1) [] [] /\
    mqueue_close (Some f) s1 = Some (0, s2) /\ Registry root s2 qs /\ queues s2 = queues s /\ msgs s2 = msgs s.
Proof.
  destruct (create_ok n a mq p Hmem Hnone) as (s1 & E1 & HR1 & HQ1 & Eq & Em).
  unfold mqueue_open. rewrite (mqueue_find_ok root s qs n HR), bind_Some_l, Hnone, Hcreat. cbn [negb]. rewrite E1, bind_Some_l.
  destruct (Z.ltb_spec fd 0); [lia|]. eexists _, s1. pose proof (re_list _ _ _ HR1) as HL1. pose proof HQ1 as [Hq1 HI1 _ _ _ _].
  destruct (list_del_ok (nodes s1) root [] mq qs HL1) as (h & E2 & HL2 & _ & _ & HO). cbn [app] in *.
  assert (is_list h (msg_list mq) []) as HI2.
  { apply (list_frame (nodes s1) _ _ _ _ HI1 HO). intros y ->%list_elem_of_singleton Hin. destruct Hmem as (_ & H2 & _).
    apply elem_of_cons in Hin as [E|[E|Hin]%elem_of_cons].
    - destruct (list_node _ _ _ root (re_list _ _ _ HR) ltac:(by left)) as [[v Hv] _]. congruence.
    - by apply (msg_list_ne mq).
    - destruct (list_node _ _ _ (msg_list mq) (re_list _ _ _ HR) ltac:(by right)) as [[v Hv] _]. congruence. }
  destruct (list_clear_ok (S (size (msgs s1))) h (msg_list mq) [] HI2) as (h2 & E3 & HI3 & HO3); [cbn; lia|].
  eexists. split; [reflexivity|]. split; [done|]. split; [done|]. split.
  - unfold mqueue_close. cbn [mbind option_bind private_data]. rewrite Hq1. cbn [refcount mbind option_bind]. change (1 - 1 =? 0) with true. cbv iota.
    cbn [nodes with_queues]. rewrite E2. cbn [mbind option_bind]. unfold free_all_messages, msg_fuel. cbn [nodes with_nodes with_queues msgs]. rewrite E3. reflexivity.
  - cbn [queues with_queues with_nodes nodes msgs foldr fst snd].
    assert (mq ∉ qs) as Hni.
    { destruct HL1 as [Hnd _]. apply NoDup_cons in Hnd as [_ Hnd]. by apply NoDup_cons in Hnd as [? _]. }
    assert (delete mq (<[mq := with_refcount (1 - 1) (mk_mq n (initial_attr a) 1)]> (queues s1)) = queues s) as Hqs.
    { rewrite Eq, insert_insert_eq, delete_insert_id; [done|]. apply Hmem. }
    split; [|by rewrite Hqs, Em]. split; cbn [queues with_queues with_nodes nodes]; rewrite ?Hqs.
    + apply (list_frame h h2 _ _ _ HL2 HO3). intros y Hy Hin%list_elem_of_singleton. subst y. destruct Hmem as (_ & H2 & _).
      destruct (list_node _ _ _ _ (re_list _ _ _ HR) Hy) as [[v Hv] _]. congruence.
    + apply HR.
    + apply HR.
Qed.
End OpenClose.

Lemma mqueue_open_close_witness :
  exists f s1 s2, mqueue_open 500 (Some [47; 97]) O_CREAT None (Some 3000) (Some 3100) 5 0 small_state = Some (5, Some f, s1) /\
    Registry 500 s1 [3000; 1000] /\ Queue s1 3000 (mk_mq [47; 97] (mk_attr 0 10 8192 0) 1) [] [] /\
    mqueue_close (Some f) s1 = Some (0, s2) /\ Registry 500 s2 [1000] /\ queues s2 = queues small_state /\ msgs s2 = msgs small_state.
Proof.
  apply (mqueue_open_close 500 small_state [1000] small_registry [47; 97] O_CREAT None 3000 3100 5 0); [by split_and!|done|done|lia].
Defined.

End MqueueSpec.
