(* ===== verification/PageSource.v ===== *)
(** What the allocators above it need of a page allocator: the calls [mm_alloc_pages] and
    [mm_free_pages], and the laws the slab allocator relies on. [mm/memory.c] implements
    it in [Memory]. *)

From S2P Require Import Prelude.

Definition PAGE_SIZE : Z := 4096.

(** [n] pages from page number [p] on. *)
Definition pages (p n : Z) : gset Z := list_to_set (seqZ p n).

Lemma elem_of_pages p n q : q ∈ pages p n <-> p <= q < p + n.
Proof. unfold pages. rewrite elem_of_list_to_set, elem_of_seqZ. done. Qed.

Lemma pages_cons p n : 0 < n -> pages p n = {[ p ]} ∪ pages (p + 1) (n - 1).
Proof. intros Hn. apply set_eq. intros q. rewrite elem_of_union, elem_of_singleton, !elem_of_pages. lia. Qed.

Lemma pages_empty p n : n <= 0 -> pages p n = ∅.
Proof. intros Hn. apply set_eq. intros q. rewrite elem_of_pages. set_solver by lia. Qed.

Lemma size_pages p n : 0 <= n -> size (pages p n) = Z.to_nat n.
Proof. intros Hn. unfold pages. rewrite size_list_to_set by apply NoDup_seqZ. by rewrite length_seqZ. Qed.

Lemma pages_1 p : pages p 1 = {[ p ]}.
Proof. rewrite pages_cons, (pages_empty (p + 1)) by lia. apply union_empty_r_L. Qed.

(** The calls: [None] inside the result of [ps_alloc] is [NULL]. *)
Class PageSource (S : Type) := {
  ps_alloc : Z -> S -> option (option Z * S);
  ps_free : option Z -> Z -> S -> option S }.

(** Addresses are page numbers times [PAGE_SIZE]. A call that finds no pages leaves the
    state as it was; pages handed out were available and no longer are; pages
    given back are available again. *)
Class PageSourceLaws (S : Type) `{!PageSource S} := {
  ps_ok : S -> Prop;
  ps_all : S -> gset Z;
  ps_avail : S -> gset Z;
  ps_alloc_ok : forall n s, ps_ok s -> 0 <= n < 2 ^ 32 ->
    exists r s', ps_alloc n s = Some (r, s') /\ ps_ok s' /\ ps_all s' = ps_all s /\
      match r with
      | Some a => exists p, a = p * PAGE_SIZE /\ 0 < n /\ 0 < p /\ (p + n) * PAGE_SIZE <= 2 ^ 32 /\
                            pages p n ⊆ ps_avail s /\ ps_avail s' = ps_avail s ∖ pages p n
      | None => s' = s
      end;
  ps_free_ok : forall p n s, ps_ok s -> 0 < n -> pages p n ⊆ ps_all s ->
    exists s', ps_free (Some (p * PAGE_SIZE)) n s = Some s' /\ ps_ok s' /\ ps_all s' = ps_all s /\
      ps_avail s' = ps_avail s ∪ pages p n;
  ps_avail_all : forall s, ps_ok s -> ps_avail s ⊆ ps_all s }.
