(* ===== verification/Memory.v ===== *)
(** The page allocator of [mm/memory.c]: one bit per page, allocation of the first run of
    free pages that is long enough, and the [kmalloc] of the same file over it. *)

From S2P Require Import Prelude PageSource.

Module Memory.

Definition MEM_ZERO : Z := 0x08.

(** [mem_start], [total_pages], [free_pages] and [page_bitmap] with its [bitmap_size]
    bytes; [zeroed] are the byte ranges [kmalloc] has cleared, last first. *)
Record mm := mk_mm { mem_start : Z; total_pages : Z; free_pages : Z; page_bitmap : list Z; zeroed : list (Z * Z) }.

Definition with_bitmap (b : list Z) (s : mm) : mm := mk_mm (mem_start s) (total_pages s) (free_pages s) b (zeroed s).
Definition with_free (n : Z) (s : mm) : mm := mk_mm (mem_start s) (total_pages s) n (page_bitmap s) (zeroed s).
Definition with_zeroed (z : list (Z * Z)) (s : mm) : mm := mk_mm (mem_start s) (total_pages s) (free_pages s) (page_bitmap s) z.

(** ** Operations *)

(** [for (j = 0; j < n; j++) page_bitmap[(page + j) / 8] |= 1 << ((page + j) % 8);] *)
Fixpoint mark (n : nat) (page : Z) (bm : list Z) : option (list Z) :=
  match n with
  | O => Some bm
  | S n => bm ← set_bit_at 8 bm page; mark n (u32 (page + 1)) bm
  end.

Definition mm_init : option mm :=
  let mem_start := 0x100000 in
  let mem_end := 0x1000000 in
  let total := u32 (mem_end - mem_start) / PAGE_SIZE in
  let bitmap_size := u32 (total + 7) / 8 in
  let bitmap := replicate (Z.to_nat bitmap_size) 0 in
  let bitmap_pages := u32 (bitmap_size + PAGE_SIZE - 1) / PAGE_SIZE in
  bitmap ← mark (Z.to_nat bitmap_pages) 0 bitmap;
  Some (mk_mm mem_start total (u32 (total - bitmap_pages)) bitmap []).

(** The loop of [mm_alloc_pages] from page [i] on, [n] pages left: the first page of the
    run it stops at. *)
Fixpoint find_run (n : nat) (count i start_page found_pages : Z) (bm : list Z) : option (option Z) :=
  match n with
  | O => Some None
  | S n =>
      used ← bit_at 8 bm i;
      if (used : bool) then find_run n count (i + 1) (i + 1) 0 bm
      else
        let found_pages := found_pages + 1 in
        if found_pages =? count then Some (Some start_page) else find_run n count (i + 1) start_page found_pages bm
  end.

(** [None] in the result is [NULL]. *)
Definition mm_alloc_pages (count : Z) (s : mm) : option (option Z * mm) :=
  if count =? 0 then Some (None, s)
  else if free_pages s <? count then Some (None, s)
  else
    r ← find_run (Z.to_nat (total_pages s)) count 0 0 0 (page_bitmap s);
    match r with
    | None => Some (None, s)
    | Some start_page =>
        bm ← mark (Z.to_nat count) start_page (page_bitmap s);
        Some (Some (u32 (mem_start s + u32 (start_page * PAGE_SIZE))),
              with_free (u32 (free_pages s - count)) (with_bitmap bm s))
    end.

Fixpoint unmark (n : nat) (p : Z) (s : mm) : option mm :=
  match n with
  | O => Some s
  | S n =>
      s ← (if p <? total_pages s then
             used ← bit_at 8 (page_bitmap s) p;
             if (used : bool) then
               bm ← clear_bit_at 8 (page_bitmap s) p;
               Some (with_free (u32 (free_pages s + 1)) (with_bitmap bm s))
             else Some s
           else Some s);
      unmark n (u32 (p + 1)) s
  end.

Definition mm_free_pages (addr : option Z) (count : Z) (s : mm) : option mm :=
  match addr with
  | None => Some s
  | Some addr => if count =? 0 then Some s else unmark (Z.to_nat count) (u32 (addr - mem_start s) / PAGE_SIZE) s
  end.

Definition kmalloc (size flags : Z) (s : mm) : option (option Z * mm) :=
  if size =? 0 then Some (None, s)
  else
    let pages := u32 (size + PAGE_SIZE - 1) / PAGE_SIZE in
    r ← mm_alloc_pages pages s;
    let '(addr, s) := r in
    match addr with
    | Some a => if has_flag flags MEM_ZERO then Some (addr, with_zeroed ((a, u32 (pages * PAGE_SIZE)) :: zeroed s) s) else Some (addr, s)
    | None => Some (addr, s)
    end.

Definition kfree (addr : option Z) (s : mm) : option mm :=
  match addr with None => Some s | Some a => mm_free_pages (Some a) 1 s end.

Definition MEM_KERNEL : Z := 0x01.
Definition vmalloc (size : Z) (s : mm) : option (option Z * mm) := kmalloc size MEM_KERNEL s.
Definition vfree (addr : option Z) (s : mm) : option mm := kfree addr s.

(** ** The free pages *)

Definition free_set (s : mm) : gset Z :=
  list_to_set (filter (fun p => bit_at 8 (page_bitmap s) p = Some false) (seqZ 0 (total_pages s))).

(** The bitmap has a bit for every page, the memory ends below 4 GB, and [free_pages] is
    the number of clear bits. *)
Record Wf (s : mm) : Prop := {
  wf_total : 0 <= total_pages s <= 8 * Z.of_nat (length (page_bitmap s));
  wf_start : 0 < mem_start s /\ mem_start s mod PAGE_SIZE = 0;
  wf_end : mem_start s + total_pages s * PAGE_SIZE < 2 ^ 32;
  wf_free : free_pages s = Z.of_nat (size (free_set s)) }.

Lemma elem_of_free_set s p : p ∈ free_set s <-> 0 <= p < total_pages s /\ bit_at 8 (page_bitmap s) p = Some false.
Proof. unfold free_set. rewrite elem_of_list_to_set, list_elem_of_filter, elem_of_seqZ. intuition lia. Qed.

(** ** The loops *)

Lemma mark_ok n p bm : 0 <= p -> p + Z.of_nat n <= 8 * Z.of_nat (length bm) -> p + Z.of_nat n < 2 ^ 32 ->
  exists bm', mark n p bm = Some bm' /\ length bm' = length bm /\
    (forall j, bit_at 8 bm' j = if decide (p <= j < p + Z.of_nat n) then Some true else bit_at 8 bm j).
Proof.
  revert p bm. induction n as [|n IH]; intros p bm Hp Hn Hw; cbn [mark].
  - exists bm. split_and!; [done..|]. intros j. case_decide; [lia|done].
  - destruct (set_bit_Some 8 ltac:(lia) bm p) as [b E]; [lia|]. rewrite E. cbn.
    rewrite u32_small by lia. pose proof (set_bit_length 8 bm b p E) as Hl.
    destruct (IH (p + 1) b) as (b' & Eb & Hlb & Hb); [lia..|]. exists b'. split_and!; [done|lia|].
    intros j. rewrite Hb, (bit_at_set 8 ltac:(lia) _ _ _ j E). repeat case_decide; done || lia.
Qed.

(** All of the [n] pages from [p] on are free. *)
Definition run_at (bm : list Z) (p n : Z) : Prop := forall j, p <= j < p + n -> bit_at 8 bm j = Some false.

Lemma find_run_ok n count i start bm :
  0 <= start <= i -> i - start < count -> i + Z.of_nat n <= 8 * Z.of_nat (length bm) ->
  run_at bm start (i - start) -> (forall q, 0 <= q < start -> ~ run_at bm q count) ->
  exists r, find_run n count i start (i - start) bm = Some r /\
    match r with
    | Some p => 0 <= p /\ p + count <= i + Z.of_nat n /\ run_at bm p count /\ forall q, 0 <= q < p -> ~ run_at bm q count
    | None => forall q, 0 <= q -> q + count <= i + Z.of_nat n -> ~ run_at bm q count
    end.
Proof.
  revert i start. induction n as [|n IH]; intros i start Hs Hc Hn Hrun Hlow; cbn [find_run].
  - exists None. split; [done|]. intros q Hq Hqn. apply Hlow. lia.
  - destruct (aget_Some bm (i / 8)) as [x Hx].
    { split; [apply Z.div_pos; lia|apply Z.div_lt_upper_bound; lia]. }
    assert (bit_at 8 bm i = Some (Z.testbit x (i mod 8))) as Hbit by (unfold bit_at; by rewrite Hx).
    rewrite Hbit. cbn. destruct (Z.testbit x (i mod 8)).
    + destruct (IH (i + 1) (i + 1)) as (r & E & Hr); [lia..| | |].
      * intros j Hj. lia.
      * intros q Hq Hrq. destruct (decide (q < start)); [by apply (Hlow q); [lia|]|].
        pose proof (Hrq i ltac:(lia)). congruence.
      * rewrite Z.sub_diag in E. exists r. split; [done|]. destruct r;
          [destruct Hr as (?&?&?&?); split_and!; [lia..|done|done]|intros q ??; apply Hr; lia].
    + assert (run_at bm start (i - start + 1)) as Hrun'.
      { intros j Hj. destruct (decide (j = i)) as [->|]; [done|]. apply Hrun. lia. }
      destruct (Z.eqb_spec (i - start + 1) count) as [<-|Hne].
      * exists (Some start). split; [done|]. split_and!; [lia..|done|done].
      * replace (i - start + 1) with (i + 1 - start) by lia.
        destruct (IH (i + 1) start) as (r & E & Hr); [lia..| |done|].
        { by replace (i + 1 - start) with (i - start + 1) by lia. }
        exists r. split; [done|]. destruct r;
          [destruct Hr as (?&?&?&?); split_and!; [lia..|done|done]|intros q ??; apply Hr; lia].
Qed.

Lemma run_at_free s p n : 0 <= p -> p + n <= total_pages s ->
  run_at (page_bitmap s) p n <-> pages p n ⊆ free_set s.
Proof.
  intros Hp Hn. split.
  - intros Hr q. rewrite elem_of_pages, elem_of_free_set. intros Hq. split; [lia|by apply Hr].
  - intros Hr j Hj. specialize (Hr j). rewrite elem_of_pages, elem_of_free_set in Hr. by apply Hr.
Qed.

(** ** Allocation and release *)

(** Page [p] starts the first run of [n] free pages. *)
Definition first_fit (s : mm) (n p : Z) : Prop :=
  0 <= p /\ p + n <= total_pages s /\ pages p n ⊆ free_set s /\
  forall q, 0 <= q < p -> ~ pages q n ⊆ free_set s.

Lemma Wf_take s bm p n : Wf s -> 0 <= n -> 0 <= p -> p + n <= total_pages s -> pages p n ⊆ free_set s ->
  length bm = length (page_bitmap s) ->
  (forall j, bit_at 8 bm j = if decide (p <= j < p + n) then Some true else bit_at 8 (page_bitmap s) j) ->
  let s' := with_free (u32 (free_pages s - n)) (with_bitmap bm s) in
  Wf s' /\ free_set s' = free_set s ∖ pages p n.
Proof.
  intros [Ht Hs He Hf] Hn0 Hp Hn Hsub Hl Hbm s'.
  assert (free_set s' = free_set s ∖ pages p n) as Hset.
  { apply set_eq. intros q. rewrite elem_of_difference, !elem_of_free_set, elem_of_pages. cbn. rewrite Hbm.
    case_decide; intuition (done || lia || congruence). }
  split; [|done]. pose proof (subseteq_size _ _ Hsub) as Hle. rewrite size_pages in Hle by lia.
  assert (size (free_set s) <= Z.to_nat (total_pages s))%nat as Hle2.
  { rewrite <-(size_pages 0) by lia. apply subseteq_size. intros q. rewrite elem_of_free_set, elem_of_pages. lia. }
  split; cbn [s' with_free with_bitmap total_pages page_bitmap mem_start free_pages]; [lia|done|done|].
  fold s'. rewrite Hset, size_difference, size_pages by (done || lia).
  unfold PAGE_SIZE in He. rewrite u32_small by lia. lia.
Qed.

(** The result of [mm_alloc_pages] in every case. *)
Lemma mm_alloc_pages_ok s count : Wf s -> 0 <= count < 2 ^ 32 ->
  exists r s', mm_alloc_pages count s = Some (r, s') /\ Wf s' /\
    match r with
    | Some a => exists p, first_fit s count p /\ 0 < count /\ a = mem_start s + p * PAGE_SIZE /\
                          free_set s' = free_set s ∖ pages p count
    | None => s' = s /\ (count = 0 \/ forall p, 0 <= p -> p + count <= total_pages s -> ~ pages p count ⊆ free_set s)
    end.
Proof.
  intros Hwf Hc. pose proof Hwf as [Ht Hs He Hf]. unfold mm_alloc_pages.
  destruct (Z.eqb_spec count 0) as [->|Hc0]; [exists None, s; auto|].
  destruct (Z.ltb_spec (free_pages s) count).
  { exists None, s. split_and!; [done..|]. right. intros p Hp _ Hsub%subseteq_size. rewrite size_pages in Hsub by lia. lia. }
  destruct (find_run_ok (Z.to_nat (total_pages s)) count 0 0 (page_bitmap s)) as (r & E & Hr); [lia..| | |].
  { intros j Hj. lia. }
  { intros q Hq. lia. }
  rewrite Z.sub_diag in E. rewrite E. cbn [mbind option_bind]. destruct r as [p|].
  - destruct Hr as (Hp & Hpc & Hrun & Hfirst). rewrite Z.add_0_l, Z2Nat.id in Hpc by lia.
    rewrite run_at_free in Hrun by lia. unfold PAGE_SIZE in He.
    destruct (mark_ok (Z.to_nat count) p (page_bitmap s)) as (bm & Eb & Hl & Hbm); [lia..|].
    rewrite Eb. cbn [mbind option_bind]. rewrite Z2Nat.id in Hbm by lia.
    destruct (Wf_take s bm p count) as [Hwf' Hset]; [done|lia..|done|done|done|].
    eexists _, _. split; [done|]. split; [done|]. exists p. split_and!; [|lia| |done].
    + split_and!; [lia..|done|]. intros q Hq Hsub. apply (Hfirst q); [done|]. apply run_at_free; [lia..|done].
    + unfold PAGE_SIZE. rewrite (u32_small (p * 4096)), u32_small; lia.
  - exists None, s. split_and!; [done..|]. right. intros p Hp Hpc Hsub. apply (Hr p); [lia..|].
    apply run_at_free; [lia..|done].
Qed.

Lemma Wf_give s bm p : Wf s -> p ∈ pages 0 (total_pages s) -> p ∉ free_set s ->
  length bm = length (page_bitmap s) ->
  (forall j, bit_at 8 bm j = if decide (j = p) then Some false else bit_at 8 (page_bitmap s) j) ->
  let s' := with_free (u32 (free_pages s + 1)) (with_bitmap bm s) in
  Wf s' /\ free_set s' = {[ p ]} ∪ free_set s.
Proof.
  intros [Ht Hs He Hf] Hp Hnf Hl Hbm s'. rewrite elem_of_pages in Hp.
  assert (free_set s' = {[ p ]} ∪ free_set s) as Hset.
  { apply set_eq. intros q. rewrite elem_of_union, elem_of_singleton, !elem_of_free_set. cbn. rewrite Hbm.
    case_decide; [subst|]; intuition (done || lia). }
  split; [|done].
  assert (size (free_set s') <= Z.to_nat (total_pages s))%nat as Hle.
  { rewrite <-(size_pages 0) by lia. apply subseteq_size. intros q. rewrite elem_of_free_set, elem_of_pages. cbn. lia. }
  rewrite Hset, size_union, size_singleton in Hle by set_solver.
  split; cbn [s' with_free with_bitmap total_pages page_bitmap mem_start free_pages]; [lia|done|done|].
  fold s'. rewrite Hset, size_union, size_singleton by set_solver.
  unfold PAGE_SIZE in He. rewrite u32_small by lia. lia.
Qed.

Lemma bit_at_total s p : Wf s -> 0 <= p < total_pages s -> exists b, bit_at 8 (page_bitmap s) p = Some b.
Proof.
  intros [Ht _ _ _] Hp. unfold bit_at. destruct (aget_Some (page_bitmap s) (p / 8)) as [x ->]; [|by eexists].
  split; [apply Z.div_pos; lia|apply Z.div_lt_upper_bound; lia].
Qed.

Lemma unmark_ok n p s : Wf s -> 0 <= p -> p + Z.of_nat n < 2 ^ 32 ->
  exists s', unmark n p s = Some s' /\ Wf s' /\ mem_start s' = mem_start s /\ total_pages s' = total_pages s /\
    free_set s' = free_set s ∪ (pages p (Z.of_nat n) ∩ pages 0 (total_pages s)).
Proof.
  revert p s. induction n as [|n IH]; intros p s Hwf Hp Hn; cbn [unmark].
  - exists s. split_and!; [done..|]. rewrite pages_empty by lia. set_solver.
  - rewrite u32_small by lia. rewrite pages_cons by lia. rewrite Nat2Z.inj_succ, Z.sub_1_r, Z.pred_succ.
    destruct (Z.ltb_spec p (total_pages s)) as [Hlt|Hge].
    + assert (p ∈ pages 0 (total_pages s)) as Hin by (rewrite elem_of_pages; lia).
      destruct (bit_at_total s p Hwf) as [b Hb]; [lia|]. rewrite Hb. cbn [mbind option_bind]. destruct b.
      * destruct Hwf as [Ht Hs He Hf]. destruct (clear_bit_Some 8 ltac:(lia) (page_bitmap s) p) as [bm Eb]; [lia|].
        rewrite Eb. cbn [mbind option_bind].
        destruct (Wf_give s bm p) as [Hwf' Hset]; [done..| |by eapply clear_bit_length|by intros j; apply (bit_at_clear 8)|].
        { rewrite elem_of_free_set, Hb. intros [_ [=]]. }
        destruct (IH (p + 1) _ Hwf') as (s' & E & Hw & Hm & Htt & Hs'); [lia..|].
        exists s'. rewrite E. split_and!; [done..|]. rewrite Hs', Hset. cbn [total_pages with_free with_bitmap].
        set_solver.
      * cbn [mbind option_bind]. destruct (IH (p + 1) s Hwf) as (s' & E & Hw & Hm & Htt & Hs'); [lia..|].
        exists s'. rewrite E. split_and!; [done..|]. rewrite Hs'.
        assert (p ∈ free_set s) by (rewrite elem_of_free_set; auto with lia). set_solver.
    + cbn [mbind option_bind]. destruct (IH (p + 1) s Hwf) as (s' & E & Hw & Hm & Htt & Hs'); [lia..|].
      exists s'. rewrite E. split_and!; [done..|]. rewrite Hs'.
      assert (p ∉ pages 0 (total_pages s)) by (rewrite elem_of_pages; lia). set_solver.
Qed.

(** Releasing [count] pages from page [p] on. *)
Lemma mm_free_pages_ok s p count : Wf s -> 0 <= p < total_pages s -> 0 <= count -> p + count < 2 ^ 32 ->
  exists s', mm_free_pages (Some (mem_start s + p * PAGE_SIZE)) count s = Some s' /\ Wf s' /\
    mem_start s' = mem_start s /\ total_pages s' = total_pages s /\
    free_set s' = free_set s ∪ (pages p count ∩ pages 0 (total_pages s)).
Proof.
  intros Hwf Hp Hc Hw. unfold mm_free_pages. destruct (Z.eqb_spec count 0) as [->|].
  - exists s. split_and!; [done..|]. rewrite pages_empty by lia. set_solver.
  - pose proof (wf_end s Hwf). pose proof (wf_start s Hwf). unfold PAGE_SIZE in *.
    rewrite u32_small, Z.add_simpl_l, Z.div_mul by lia.
    destruct (unmark_ok (Z.to_nat count) p s) as (s' & E & H'); [done|lia..|].
    exists s'. rewrite Z2Nat.id in H' by lia. done.
Qed.

(** ** The page source *)

#[global] Instance memory_source : PageSource mm := {
  ps_alloc := mm_alloc_pages;
  ps_free := mm_free_pages }.

(** The number of the first page of the memory. *)
Definition first_page (s : mm) : Z := mem_start s / PAGE_SIZE.

Lemma mem_start_page s : Wf s -> mem_start s = first_page s * PAGE_SIZE /\ 0 < first_page s.
Proof.
  intros [_ [H0 Hm] _ _]. unfold first_page, PAGE_SIZE in *. pose proof (Z.div_mod (mem_start s) 4096 ltac:(lia)). lia.
Qed.

(** Page numbers of the memory and of its free pages. *)
Definition all_pages (s : mm) : gset Z := pages (first_page s) (total_pages s).
Definition avail (s : mm) : gset Z := set_map (Z.add (first_page s)) (free_set s).

Lemma elem_of_avail s q : q ∈ avail s <-> q - first_page s ∈ free_set s.
Proof.
  unfold avail. rewrite elem_of_map. split.
  - intros (x & -> & Hx). by rewrite Z.add_simpl_l.
  - intros Hq. eexists. split; [|exact Hq]. lia.
Qed.

Lemma mm_alloc_pages_fields n s r s' : mm_alloc_pages n s = Some (r, s') ->
  mem_start s' = mem_start s /\ total_pages s' = total_pages s.
Proof.
  unfold mm_alloc_pages. repeat (case_match; [by intros [= <- <-]|]).
  intros (o & _ & Ho)%bind_Some. destruct o; [|by simplify_eq].
  apply bind_Some in Ho as (bm & _ & Ho). by simplify_eq.
Qed.

#[global] Program Instance memory_source_laws : PageSourceLaws mm := {
  ps_ok := Wf;
  ps_all := all_pages;
  ps_avail := avail }.
Next Obligation.
  intros n s Hwf Hn. destruct (mm_alloc_pages_ok s n Hwf Hn) as (r & s' & E & Hwf' & Hr). exists r, s'.
  destruct (mm_alloc_pages_fields n s r s' E) as [Em Et]. pose proof (mem_start_page s Hwf) as [Hs Hs0].
  pose proof (wf_end s Hwf).
  split; [done|]. split; [done|]. split; [unfold all_pages, first_page; by rewrite Em, Et|].
  destruct r as [a|]; [|by destruct Hr]. destruct Hr as (p & (Hp & Hpn & Hsub & _) & Hn0 & -> & Hset).
  exists (first_page s + p). unfold PAGE_SIZE in *. split_and!; [lia..| |].
  - intros q. rewrite elem_of_pages, elem_of_avail. intros Hq. apply Hsub. rewrite elem_of_pages. lia.
  - apply set_eq. intros q. rewrite elem_of_difference, !elem_of_avail, elem_of_pages. unfold first_page in *.
    rewrite Em, Hset, elem_of_difference, elem_of_pages. intuition lia.
Qed.
Next Obligation.
  intros p n s Hwf Hn Hsub. unfold all_pages in Hsub.
  assert (first_page s <= p /\ p + n <= first_page s + total_pages s) as Hp.
  { pose proof (Hsub p) as H1. pose proof (Hsub (p + n - 1)) as H2. rewrite !elem_of_pages in H1, H2. lia. }
  pose proof (mem_start_page s Hwf) as [Hs Hs0]. pose proof (wf_end s Hwf) as He. unfold PAGE_SIZE in He.
  pose proof (wf_start s Hwf) as [Hp0 _].
  destruct (mm_free_pages_ok s (p - first_page s) n Hwf) as (s' & E & Hwf' & Em & Et & Hset); [lia..|].
  exists s'. replace (p * PAGE_SIZE) with (mem_start s + (p - first_page s) * PAGE_SIZE) by (rewrite Hs; ring).
  split; [done|]. split; [done|]. split; [unfold all_pages, first_page; by rewrite Em, Et|].
  apply set_eq. intros q. rewrite elem_of_union, !elem_of_avail, elem_of_pages. unfold first_page in *.
  rewrite Em, Hset, elem_of_union, elem_of_intersection, !elem_of_pages. intuition lia.
Qed.
Next Obligation.
  intros s Hwf q. unfold all_pages. rewrite elem_of_avail, elem_of_free_set, elem_of_pages. lia.
Qed.

(** ** Runs against a reference allocator *)

(** The reference: the least page from which on [n] pages lie in the set [F] of free
    pages, found by trying every page. *)
Definition least_run (total n : Z) (F : gset Z) : option Z :=
  head (filter (fun p => pages p n ⊆ F) (seqZ 0 (total - n + 1))).

Inductive call := Alloc (n : Z) | Free (p n : Z).

Definition good_call (total : Z) (c : call) : Prop :=
  match c with
  | Alloc n => 0 <= n < 2 ^ 32
  | Free p n => 0 <= p < total /\ 0 <= n < 2 ^ 31
  end.

Definition spec_call (total : Z) (c : call) (F : gset Z) : option Z * gset Z :=
  match c with
  | Alloc n =>
      if n =? 0 then (None, F)
      else match least_run total n F with
           | Some p => (Some p, F ∖ pages p n)
           | None => (None, F)
           end
  | Free p n => (None, F ∪ (pages p n ∩ pages 0 total))
  end.

Definition mm_call (c : call) (s : mm) : option (option Z * mm) :=
  match c with
  | Alloc n => mm_alloc_pages n s
  | Free p n => s ← mm_free_pages (Some (mem_start s + p * PAGE_SIZE)) n s; Some (None, s)
  end.

Fixpoint mm_run (cs : list call) (s : mm) : option (list (option Z) * mm) :=
  match cs with
  | [] => Some ([], s)
  | c :: cs => r ← mm_call c s; t ← mm_run cs r.2; Some (r.1 :: t.1, t.2)
  end.

Fixpoint spec_run (total : Z) (cs : list call) (F : gset Z) : list (option Z) * gset Z :=
  match cs with
  | [] => ([], F)
  | c :: cs => let r := spec_call total c F in let t := spec_run total cs r.2 in (r.1 :: t.1, t.2)
  end.

Lemma least_run_Some total n F p : 0 <= p -> p + n <= total -> pages p n ⊆ F ->
  (forall q, 0 <= q < p -> ~ pages q n ⊆ F) -> least_run total n F = Some p.
Proof.
  intros Hp Hn Hsub Hleast. unfold least_run.
  replace (total - n + 1) with (p + (total - n + 1 - p)) by lia.
  rewrite seqZ_app, filter_app by lia. rewrite (filter_none _ (seqZ 0 p)).
  - rewrite app_nil_l, Z.add_0_l, seqZ_cons, filter_cons_True by (lia || done). done.
  - apply Forall_forall. intros q Hq%elem_of_seqZ. apply Hleast. lia.
Qed.

Lemma least_run_None total n F : (forall q, 0 <= q -> q + n <= total -> ~ pages q n ⊆ F) -> least_run total n F = None.
Proof.
  intros H. unfold least_run. rewrite filter_none; [done|]. apply Forall_forall. intros q Hq%elem_of_seqZ. apply H; lia.
Qed.

(** The address of a page. *)
Definition address (s : mm) (p : option Z) : option Z :=
  match p with Some p => Some (mem_start s + p * PAGE_SIZE) | None => None end.

(** One call does what the reference does. *)
Lemma mm_call_ok c s : Wf s -> good_call (total_pages s) c ->
  exists r s', mm_call c s = Some (r, s') /\ Wf s' /\ mem_start s' = mem_start s /\ total_pages s' = total_pages s /\
    r = address s (spec_call (total_pages s) c (free_set s)).1 /\
    free_set s' = (spec_call (total_pages s) c (free_set s)).2.
Proof.
  intros Hwf Hc. destruct c as [n|p n]; cbn [good_call mm_call spec_call] in Hc |- *.
  - destruct (mm_alloc_pages_ok s n Hwf Hc) as (r & s' & E & Hwf' & Hr).
    destruct (mm_alloc_pages_fields _ _ _ _ E) as [Em Et]. exists r, s'.
    split; [done|]. split; [done|]. split; [done|]. split; [done|].
    destruct r as [a|].
    + destruct Hr as (p & (Hp & Hpn & Hsub & Hl) & Hn & -> & Hset). rewrite (proj2 (Z.eqb_neq n 0)) by lia.
      by rewrite (least_run_Some _ _ _ p).
    + destruct Hr as [-> [->|Hr]]; [done|]. case_match; [done|]. by rewrite least_run_None.
  - pose proof (wf_end s Hwf) as He. pose proof (wf_start s Hwf) as [Hs0 _]. unfold PAGE_SIZE in He.
    destruct (mm_free_pages_ok s p n Hwf) as (s' & E & Hwf' & Em & Et & Hset); [lia..|].
    rewrite E. exists None, s'. done.
Qed.

(** C4: Every sequence of calls of [mm_alloc_pages] and [mm_free_pages], from any state whose
    counter is right, returns without a fault exactly what the reference allocator returns
    which tries every page in turn on the set of free pages, and leaves the bitmap with
    exactly its free pages and the counter with their number. *)
Theorem mm_refines_first_fit cs s : Wf s -> Forall (good_call (total_pages s)) cs ->
  let t := spec_run (total_pages s) cs (free_set s) in
  exists s', mm_run cs s = Some (map (address s) t.1, s') /\
    Wf s' /\ free_set s' = t.2 /\ free_pages s' = Z.of_nat (size t.2).
Proof.
  intros Hwf Hcs. cbv zeta. revert s Hwf Hcs. induction cs as [|c cs IH]; intros s Hwf Hcs.
  - exists s. split_and!; [done..|by apply wf_free].
  - apply Forall_cons in Hcs as [Hc Hcs].
    destruct (mm_call_ok c s Hwf Hc) as (r & s1 & E & Hwf1 & Em & Et & Hr & Hset).
    destruct (IH s1 Hwf1) as (s' & E' & H'); [by rewrite Et|].
    rewrite Et, Hset in E', H'. exists s'. cbn [mm_run spec_run]. rewrite E. cbn [mbind option_bind fst snd].
    rewrite E'. cbn [mbind option_bind fst snd map]. unfold address in *. rewrite Hr, Em. done.
Qed.

(** The memory [mm_init] sets up: 3840 pages from 1 MB on, the first of which holds the
    bitmap. *)
Lemma mm_init_ok : exists s, mm_init = Some s /\ Wf s /\ mem_start s = 0x100000 /\ total_pages s = 3840 /\
  free_set s = pages 1 3839.
Proof.
  unfold mm_init. destruct (mark_ok 1 0 (replicate (Z.to_nat (u32 (3840 + 7) / 8)) 0)) as (bm & E & Hl & Hbm);
    [done|vm_compute; congruence|done|].
  change (u32 (0x1000000 - 0x100000) / PAGE_SIZE) with 3840.
  change (Z.to_nat (u32 (u32 (3840 + 7) / 8 + PAGE_SIZE - 1) / PAGE_SIZE)) with 1%nat.
  rewrite E. cbn [mbind option_bind].
  match goal with |- exists s, Some ?x = _ /\ _ => set (s := x) end. exists s.
  assert (free_set s = pages 1 3839) as Hset.
  { apply set_eq. intros p. rewrite elem_of_free_set, elem_of_pages. cbn [s total_pages page_bitmap]. rewrite Hbm.
    case_decide; [intuition (lia || done)|]. unfold bit_at, aget.
    split; [intuition lia|]. intros Hp. split; [lia|]. destruct (Z.ltb_spec (p / 8) 0).
    - pose proof (Z.div_pos p 8). lia.
    - rewrite lookup_replicate_2; [cbn; by rewrite Z.bits_0|].
      pose proof (Z.div_lt_upper_bound p 8 480). change (u32 (3840 + 7) / 8) with 480. lia. }
  split; [done|]. split; [|split; [reflexivity|split; [reflexivity|exact Hset]]].
  split; [|split; reflexivity|reflexivity|].
  - cbn [s total_pages page_bitmap]. rewrite Hl, length_replicate. vm_compute. split; congruence.
  - rewrite Hset, size_pages by lia. reflexivity.
Qed.

(** Eight pages, the first of which is in use. *)
Definition small : mm := mk_mm 0x100000 8 7 [1] [].

Lemma small_ok : Wf small.
Proof. split; [cbn; lia|done|done|vm_compute; reflexivity]. Qed.

Lemma mm_refines_first_fit_witness : exists s',
  mm_run [Alloc 1; Alloc 2; Free 1 1; Alloc 1; Alloc 5] small =
    Some ([Some 0x101000; Some 0x102000; None; Some 0x101000; None], s') /\ free_pages s' = 4.
Proof.
  destruct (mm_refines_first_fit [Alloc 1; Alloc 2; Free 1 1; Alloc 1; Alloc 5] small small_ok) as (s' & E & _ & _ & Hn).
  { repeat constructor; cbn; lia. }
  exists s'. split; [rewrite E|rewrite Hn]; vm_compute; reflexivity.
Defined.

(** A block of several pages is not given back by [kfree]: only its first page is. *)
Theorem kfree_gives_back_one_page s size flags a s1 : Wf s -> 0 < size <= 2 ^ 31 ->
  kmalloc size flags s = Some (Some a, s1) ->
  exists s2, kfree (Some a) s1 = Some s2 /\ free_pages s2 = free_pages s - (size + PAGE_SIZE - 1) / PAGE_SIZE + 1.
Proof.
  intros Hwf Hsize. unfold kmalloc, kfree. rewrite (proj2 (Z.eqb_neq size 0)), (u32_small (size + PAGE_SIZE - 1)) by (unfold PAGE_SIZE; lia).
  set (n := (size + PAGE_SIZE - 1) / PAGE_SIZE).
  assert (0 < n < 2 ^ 20) as Hn.
  { unfold n, PAGE_SIZE. split; [apply Z.div_str_pos; lia|apply Z.div_lt_upper_bound; lia]. }
  intros ([r s'] & E & Hr)%bind_Some. destruct (mm_alloc_pages_ok s n Hwf) as (r0 & s0 & E0 & Hwf0 & H0); [lia|].
  rewrite E in E0. simplify_eq. destruct r0 as [a0|]; [|by simplify_eq].
  assert (a0 = a) as -> by (case_match; by simplify_eq).
  assert (Wf s1 /\ free_set s1 = free_set s0 /\ mem_start s1 = mem_start s0 /\ total_pages s1 = total_pages s0)
    as (Hwf1 & Hs1 & Em & Et).
  { case_match; simplify_eq; [|done]. split_and!; [|done..]. by destruct Hwf0. }
  destruct H0 as (p & (Hp & Hpn & Hsub & _) & _ & -> & Hset).
  destruct (mm_alloc_pages_fields _ _ _ _ E) as [Em0 Et0]. pose proof (wf_end s Hwf) as He. unfold PAGE_SIZE in He.
  pose proof (wf_start s Hwf) as [Hst _].
  destruct (mm_free_pages_ok s1 p 1 Hwf1) as (s2 & E2 & Hwf2 & _ & _ & Hset2); [lia..|].
  rewrite Em, Em0 in E2. exists s2. split; [done|]. rewrite !wf_free by done.
  assert (pages p 1 ∩ pages 0 (total_pages s1) = {[ p ]}) as Hp1.
  { apply set_eq. intros q. rewrite elem_of_intersection, !elem_of_pages, elem_of_singleton. lia. }
  rewrite Hset2, Hs1, Hset, Hp1, size_union, size_singleton, size_difference, size_pages by
    (done || lia || (intros q; rewrite elem_of_difference, elem_of_singleton, elem_of_pages; lia)).
  pose proof (subseteq_size _ _ Hsub) as Hle. rewrite size_pages in Hle by lia. lia.
Qed.

End Memory.
