(* ===== verification/Slab.v ===== *)
(** The slab allocator: [mm/slab.c] with the structures of [include/horizon/mm/slab.h]. *)

From S2P Require Import Prelude PageSource KList.

Module Slab.
Import KList.

Definition MEM_ZERO : Z := 0x08.
Definition SLAB_HWCACHE_ALIGN : Z := 0x1.
Definition SLAB_PANIC : Z := 0x4.
Definition PAGE_SHIFT : Z := 12.
Definition SIZE_MAX : Z := 2 ^ 32 - 1.

(** ** Data *)

(** Sizes on the 32-bit machine: [slab_t] is its list node, three words and the head of
    the list of free objects; a spinlock has eight words. *)
Definition sizeof_slab : Z := 24.
Definition sizeof_ptr : Z := 4.

(** [slab_t] without its list node, which is at the slab's own address. 0 is [NULL]. *)
Record slab := mk_slab { start : Z; inuse : Z; free : Z; freelist : Z }.

(** [slab_cache_t] without its list nodes and its lock. A constructor or destructor works
    on the words of the objects. *)
Record slab_cache := mk_cache {
  size : Z; align : Z; flags : Z; num : Z; total_objects : Z; total_slabs : Z;
  ctor : option (Z -> gmap Z Z -> gmap Z Z); dtor : option (Z -> gmap Z Z -> gmap Z Z) }.

(** The list nodes of a cache. *)
Definition cache_node (cache : Z) : Z := cache + 4.
Definition slabs_full (cache : Z) : Z := cache + 68.
Definition slabs_partial (cache : Z) : Z := cache + 76.
Definition slabs_free (cache : Z) : Z := cache + 84.

(** What a call returns: a pointer, [None] being [NULL], or never because of
    [kernel_panic]. *)
Inductive outcome := Returned (p : option Z) | Panicked.

Definition kmalloc_sizes : list Z := [32; 64; 128; 256; 512; 1024; 2048; 4096; 8192; 16384; 32768; 65536; 131072].

Section Slab.
Context {P : Type} `{!PageSource P}.
(** [MEM_PANIC] is defined nowhere in the tree. *)
Context (MEM_PANIC : Z).

(** The list nodes; the first word of every object by the object's address, which is
    [next] while the object is free and belongs to its owner otherwise; the slabs by the
    address of their page; the caches; and the page allocator. *)
Record state := mk_state {
  nodes : heap; words : gmap Z Z; slabs : gmap Z slab; caches : gmap Z slab_cache; source : P }.

Definition with_nodes (h : heap) (s : state) : state := mk_state h (words s) (slabs s) (caches s) (source s).
Definition with_words (w : gmap Z Z) (s : state) : state := mk_state (nodes s) w (slabs s) (caches s) (source s).
Definition with_slabs (m : gmap Z slab) (s : state) : state := mk_state (nodes s) (words s) m (caches s) (source s).
Definition with_caches (m : gmap Z slab_cache) (s : state) : state := mk_state (nodes s) (words s) (slabs s) m (source s).
Definition with_source (p : P) (s : state) : state := mk_state (nodes s) (words s) (slabs s) (caches s) p.
Definition with_totals (objects n : Z) (c : slab_cache) : slab_cache :=
  mk_cache (size c) (align c) (flags c) (num c) objects n (ctor c) (dtor c).

(** ** Creating a cache *)

(** The size and alignment of the objects. *)
Definition object_align (align : Z) : Z :=
  let align := if align =? 0 then sizeof_ptr else align in
  if align <? sizeof_ptr then sizeof_ptr else align.
Definition object_size (size align : Z) : Z :=
  let size := if size <? sizeof_ptr then sizeof_ptr else size in
  Z.land (u32 (size + align - 1)) (Z.lnot (align - 1)).
Definition objects_per_slab (size : Z) : Z :=
  let num := (PAGE_SIZE - sizeof_slab) / size in
  if num =? 0 then 1 else num.

Section Create.
(** The address of [cache_list], and what the words of the new page hold where
    [total_objects] and [total_slabs] are: [mm_alloc_pages] does not clear pages. *)
Context (cache_list old_objects old_slabs : Z).

Definition slab_cache_create (has_name : bool) (size align flags : Z) (ctor dtor : option (Z -> gmap Z Z -> gmap Z Z))
    (s : state) : option (outcome * state) :=
  if negb has_name || (size =? 0) then Some (Returned None, s)
  else
    let align := object_align align in
    let size := object_size size align in
    r ← ps_alloc 1 (source s);
    let s := with_source r.2 s in
    match r.1 with
    | None => Some (if has_flag flags SLAB_PANIC then Panicked else Returned None, s)
    | Some cache =>
        if size =? 0 then None
        else
          let c := mk_cache size align flags (objects_per_slab size) old_objects old_slabs ctor dtor in
          let h := new_node (cache_node cache) (new_node (slabs_full cache)
                     (new_node (slabs_partial cache) (new_node (slabs_free cache) (nodes s)))) in
          h ← list_init (slabs_full cache) h;
          h ← list_init (slabs_partial cache) h;
          h ← list_init (slabs_free cache) h;
          h ← list_add (cache_node cache) cache_list h;
          Some (Returned (Some cache), with_caches (<[cache := c]> (caches s)) (with_nodes h s))
    end.

(** [slab_init]: the caches made so far, or [None] when the kernel panics. *)
Fixpoint create_caches (sizes : list Z) (s : state) : option (option (list Z) * state) :=
  match sizes with
  | [] => Some (Some [], s)
  | size :: sizes =>
      r ← slab_cache_create true size 0 SLAB_HWCACHE_ALIGN None None s;
      match r.1 with
      | Returned (Some cache) =>
          t ← create_caches sizes r.2;
          Some (option_map (cons cache) t.1, t.2)
      | _ => Some (None, r.2)
      end
  end.
Definition slab_init (s : state) : option (option (list Z) * state) := create_caches kmalloc_sizes s.
End Create.

(** ** Allocating *)

(** The loop over the objects of a new slab: the free list so far is [fl]. *)
Fixpoint init_objects (n : nat) (c : slab_cache) (start i fl : Z) (w : gmap Z Z) : Z * gmap Z Z :=
  match n with
  | O => (fl, w)
  | S n =>
      let obj := u32 (start + sizeof_slab + u32 (i * size c)) in
      let w := <[obj := fl]> w in
      let w := match ctor c with Some f => f obj w | None => w end in
      init_objects n c start (i + 1) obj w
  end.

Definition slab_alloc (cache : Z) (s : state) : option (option Z * state) :=
  c ← caches s !! cache;
  r ← ps_alloc 1 (source s);
  let s := with_source r.2 s in
  match r.1 with
  | None => Some (None, s)
  | Some start =>
      let '(fl, w) := init_objects (Z.to_nat (num c)) c start 0 0 (words s) in
      h ← list_add start (slabs_free cache) (new_node start (nodes s));
      let c := with_totals (u32 (total_objects c + num c)) (u32 (total_slabs c + 1)) c in
      Some (Some start, mk_state h w (<[start := mk_slab start 0 (num c) fl]> (slabs s)) (<[cache := c]> (caches s)) (source s))
  end.

(** The slab [slab_cache_alloc] takes the object from, on the partial list. *)
Definition slab_for_alloc (cache : Z) (s : state) : option (option Z * state) :=
  none_partial ← list_empty (slabs_partial cache) (nodes s);
  if (none_partial : bool) then
    none_free ← list_empty (slabs_free cache) (nodes s);
    r ← (if (none_free : bool) then slab_alloc cache s
         else
           slab ← next (nodes s) !! slabs_free cache;
           h ← list_del slab (nodes s);
           Some (Some slab, with_nodes h s));
    let '(slab, s) := r in
    match slab with
    | None => Some (None, s)
    | Some slab => h ← list_add slab (slabs_partial cache) (nodes s); Some (Some slab, with_nodes h s)
    end
  else slab ← next (nodes s) !! slabs_partial cache; Some (Some slab, s).

(** [memset(obj, 0, n)]: a slab owns one page. *)
Definition clear_object (slab obj n : Z) (w : gmap Z Z) : option (gmap Z Z) :=
  if slab + PAGE_SIZE <? obj + n then None
  else Some (map_imap (fun a v => Some (if (obj <=? a) && (a <? obj + n) then 0 else v)) w).

Definition slab_cache_alloc (cache : option Z) (flags : Z) (s : state) : option (outcome * state) :=
  match cache with
  | None => Some (Returned None, s)
  | Some cache =>
      c ← caches s !! cache;
      r ← slab_for_alloc cache s;
      let '(slab, s) := r in
      match slab with
      | None => Some (if has_flag flags MEM_PANIC then Panicked else Returned None, s)
      | Some slab =>
          sl ← slabs s !! slab;
          let obj := freelist sl in
          nxt ← words s !! obj;
          let sl := mk_slab (start sl) (u32 (inuse sl + 1)) (u32 (free sl - 1)) nxt in
          let s := with_slabs (<[slab := sl]> (slabs s)) s in
          s ← (if free sl =? 0 then
                 h ← list_del slab (nodes s);
                 h ← list_add slab (slabs_full cache) h;
                 Some (with_nodes h s)
               else Some s);
          w ← (if has_flag flags MEM_ZERO then clear_object slab obj (size c) (words s) else Some (words s));
          Some (Returned (Some obj), with_words w s)
      end
  end.

(** ** Freeing *)

(** [obj & PAGE_MASK] *)
Definition page_of (obj : Z) : Z := Z.land obj (Z.lnot (PAGE_SIZE - 1)).

(** [list_del(&slab->list); list_add(&slab->list, head);] *)
Definition move (slab head : Z) (s : state) : option state :=
  h ← list_del slab (nodes s);
  h ← list_add slab head h;
  Some (with_nodes h s).

Definition slab_cache_free (cache obj : option Z) (s : state) : option state :=
  match cache, obj with
  | Some cache, Some obj =>
      let slab := page_of obj in
      c ← caches s !! cache;
      let s := match dtor c with Some f => with_words (f obj (words s)) s | None => s end in
      _ ← words s !! obj;
      sl ← slabs s !! slab;
      let sl' := mk_slab (start sl) (u32 (inuse sl - 1)) (u32 (free sl + 1)) obj in
      let s := with_slabs (<[slab := sl']> (slabs s)) (with_words (<[obj := freelist sl]> (words s)) s) in
      s ← (if free sl' =? 1 then move slab (slabs_partial cache) s else Some s);
      if free sl' =? num c then move slab (slabs_free cache) s else Some s
  | _, _ => Some s
  end.

(** ** Giving pages back *)

(** [list_for_each_entry_safe] over [head], each slab given back; [each] is what else is
    done to the state. *)
Fixpoint free_slabs (fuel : nat) (each : state -> option state) (head pos n : Z) (s : state) : option (Z * state) :=
  match fuel with
  | O => None
  | S fuel =>
      if pos =? head then Some (0, s)
      else
        h ← list_del pos (nodes s);
        sl ← slabs s !! pos;
        src ← ps_free (Some (start sl)) 1 (source s);
        s ← each (mk_state h (words s) (delete pos (slabs s)) (caches s) src);
        n' ← next (nodes s) !! n;
        r ← free_slabs fuel each head n n' s;
        Some (r.1 + 1, r.2)
  end.
Definition free_list (each : state -> option state) (head : Z) (s : state) : option (Z * state) :=
  pos ← next (nodes s) !! head; n ← next (nodes s) !! pos; free_slabs (S (base.size (slabs s))) each head pos n s.

Definition slab_cache_shrink (cache : option Z) (s : state) : option (Z * state) :=
  match cache with
  | None => Some (0, s)
  | Some cache =>
      free_list (fun s =>
        c ← caches s !! cache;
        let c := with_totals (u32 (total_objects c - num c)) (u32 (total_slabs c - 1)) c in
        Some (with_caches (<[cache := c]> (caches s)) s)) (slabs_free cache) s
  end.

Definition slab_cache_destroy (cache : option Z) (s : state) : option state :=
  match cache with
  | None => Some s
  | Some cache =>
      h ← list_del (cache_node cache) (nodes s);
      r ← free_list Some (slabs_full cache) (with_nodes h s);
      r ← free_list Some (slabs_partial cache) r.2;
      r ← free_list Some (slabs_free cache) r.2;
      let s := r.2 in
      src ← ps_free (Some cache) 1 (source s);
      Some (mk_state (nodes s) (words s) (slabs s) (delete cache (caches s)) src)
  end.

Definition slab_cache_size (cache : option Z) (s : state) : option Z :=
  match cache with None => Some 0 | Some cache => c ← caches s !! cache; Some (size c) end.

Definition slab_cache_info (cache : option Z) (s : state) : option (option (Z * Z)) :=
  match cache with None => Some None | Some cache => c ← caches s !! cache; Some (Some (total_objects c, total_slabs c)) end.

(** ** General allocation *)

Section Kmalloc.
(** The caches [slab_init] made, smallest objects first. *)
Context (kmalloc_caches : list Z).

(** The first class that is large enough. *)
Fixpoint size_class (size : Z) (sizes : list Z) (i : nat) : option nat :=
  match sizes with
  | [] => None
  | n :: sizes => if size <=? n then Some i else size_class size sizes (S i)
  end.

Definition kmalloc (size flags : Z) (s : state) : option (outcome * state) :=
  if size =? 0 then Some (Returned None, s)
  else match size_class size kmalloc_sizes 0 with
  | Some i => cache ← kmalloc_caches !! i; slab_cache_alloc (Some cache) flags s
  | None =>
      r ← ps_alloc (Z.shiftr (u32 (size + PAGE_SIZE - 1)) PAGE_SHIFT) (source s);
      Some (Returned r.1, with_source r.2 s)
  end.

Definition kzalloc (size flags : Z) (s : state) : option (outcome * state) := kmalloc size (Z.lor flags MEM_ZERO) s.

Definition kcalloc (n size flags : Z) (s : state) : option (outcome * state) :=
  if (n =? 0) || (size =? 0) then Some (Returned None, s)
  else if SIZE_MAX / n <? size then Some (Returned None, s)
  else kzalloc (u32 (n * size)) flags s.

Definition kfree (ptr : option Z) (s : state) : option state :=
  match ptr with
  | None => Some s
  | Some _ => cache ← kmalloc_caches !! 0%nat; slab_cache_free (Some cache) ptr s
  end.

(** [old_size] is the constant 0, so [memcpy] copies nothing. *)
Definition krealloc (ptr : option Z) (size flags : Z) (s : state) : option (outcome * state) :=
  match ptr with
  | None => kmalloc size flags s
  | Some _ =>
      if size =? 0 then s ← kfree ptr s; Some (Returned None, s)
      else
        r ← kmalloc size flags s;
        match r.1 with
        | Returned (Some new) => s ← kfree ptr r.2; Some (Returned (Some new), s)
        | o => Some (o, r.2)
        end
  end.
End Kmalloc.
End Slab.

Arguments state : clear implicits.
End Slab.
