(* ===== verification/SlabSpec.v ===== *)
(** What a slab cache does: the objects of a slab and their layout, the links between a
    cache and its slab, and the refinement of a stack of objects. *)

From S2P Require Import Prelude PageSource KList Memory Slab.

Module SlabSpec.
Import KList Slab.

(** ** Links *)

(** A list head with no node, and one with one node. *)
Definition alone (h : heap) (x : Z) : Prop := next h !! x = Some x /\ prev h !! x = Some x.
Definition pair (h : heap) (x y : Z) : Prop :=
  next h !! x = Some y /\ prev h !! x = Some y /\ next h !! y = Some x /\ prev h !! y = Some x.

(** Execution of pointer updates on known links. *)
Ltac link_step :=
  first
    [ rewrite lookup_insert_eq
    | rewrite lookup_insert_ne by done
    | match goal with H : ?x = Some _ |- context [?x] => rewrite H end ];
  cbn.
Ltac links := unfold list_del, list_add, set_next, set_prev; cbn; repeat link_step.
Ltac links_done := unfold alone, pair; split_and?; cbn; repeat link_step; done.

Section Links.
Context (F Q E a : Z) (HFQ : F <> Q) (HFE : F <> E) (HQE : Q <> E) (HaF : a <> F) (HaQ : a <> Q) (HaE : a <> E).

(** The slab [a] is on the full list [F], the partial list [Q] or on neither; the head [E]
    of the free list designates it in every case, since a fresh slab is linked to [Q]
    without being taken off [E]. *)
Definition on_list (h : heap) (x y : Z) : Prop :=
  pair h x a /\ alone h y /\ next h !! E = Some a /\ prev h !! E = Some a.
Definition on_none (h : heap) : Prop :=
  alone h F /\ alone h Q /\ next h !! a = Some a /\ prev h !! a = Some E /\ next h !! E = Some a /\ prev h !! E = Some a.

Lemma fresh_links h : alone h F -> alone h Q -> alone h E ->
  exists h1 h2, list_add a E (new_node a h) = Some h1 /\ list_add a Q h1 = Some h2 /\ on_list h2 Q F.
Proof.
  intros [HF1 HF2] [HQ1 HQ2] [HE1 HE2]. do 2 eexists. split; [|split].
  - unfold new_node. links. reflexivity.
  - links. reflexivity.
  - unfold on_list. links_done.
Qed.

Lemma move_links h x y : (x = F /\ y = Q \/ x = Q /\ y = F) -> on_list h x y ->
  exists h1 h2, list_del a h = Some h1 /\ list_add a y h1 = Some h2 /\ on_list h2 y x.
Proof.
  intros Hxy ((H1 & H2 & H3 & H4) & (H5 & H6) & H7 & H8).
  assert (x <> y /\ a <> x /\ a <> y /\ x <> E /\ y <> E) as (? & ? & ? & ? & ?) by (destruct Hxy as [[-> ->]|[-> ->]]; auto).
  do 2 eexists. split; [|split].
  - links. reflexivity.
  - links. reflexivity.
  - unfold on_list. links_done.
Qed.

Lemma empty_links h : on_list h Q F ->
  exists h1 h2, list_del a h = Some h1 /\ list_add a E h1 = Some h2 /\ on_none h2.
Proof.
  intros ((H1 & H2 & H3 & H4) & (H5 & H6) & H7 & H8). do 2 eexists. split; [|split].
  - links. reflexivity.
  - links. reflexivity.
  - unfold on_none. links_done.
Qed.

Lemma reuse_links h : on_none h ->
  exists h1 h2, list_del a h = Some h1 /\ list_add a Q h1 = Some h2 /\ on_list h2 Q F.
Proof.
  intros ((H1 & H2) & (H3 & H4) & H5 & H6 & H7 & H8). do 2 eexists. split; [|split].
  - links. reflexivity.
  - links. reflexivity.
  - unfold on_list. links_done.
Qed.
End Links.
(** ** Objects *)

(** The objects of the slab at [a]. *)
Definition object (c : slab_cache) (a i : Z) : Z := a + sizeof_slab + i * size c.
Definition objects (c : slab_cache) (a : Z) : list Z := object c a <$> seqZ 0 (num c).

(** A cache as [slab_cache_create] makes it, with no constructor or destructor, whose
    objects are no larger than what a page has room for. *)
Record Cache (c : slab_cache) : Prop := {
  c_size : 4 <= size c <= PAGE_SIZE - sizeof_slab;
  c_num : num c = objects_per_slab (size c);
  c_ctor : ctor c = None;
  c_dtor : dtor c = None }.

(** The address of a page. *)
Definition page_address (a : Z) : Prop := exists p, a = p * PAGE_SIZE /\ 0 < p /\ (p + 1) * PAGE_SIZE <= 2 ^ 32.

Lemma num_fits c : Cache c -> 0 < num c /\ sizeof_slab + num c * size c <= PAGE_SIZE.
Proof.
  intros [Hs -> _ _]. unfold objects_per_slab, PAGE_SIZE, sizeof_slab in *.
  assert (0 < (4096 - 24) / size c) by (apply Z.div_str_pos; lia).
  rewrite (proj2 (Z.eqb_neq _ 0)) by lia. pose proof (Z.mul_div_le (4096 - 24) (size c)). lia.
Qed.

Lemma elem_of_objects c a x : x ∈ objects c a <-> exists i, 0 <= i < num c /\ x = object c a i.
Proof.
  unfold objects. rewrite list_elem_of_fmap. split.
  - intros (i & -> & Hi%elem_of_seqZ). exists i. split; [lia|done].
  - intros (i & Hi & ->). exists i. rewrite elem_of_seqZ. split; [done|lia].
Qed.

Section Layout.
Context (c : slab_cache) (a : Z) (Hc : Cache c) (Ha : page_address a).

Lemma object_range i : 0 <= i < num c -> a + sizeof_slab <= object c a i /\ object c a i + size c <= a + PAGE_SIZE.
Proof. intros Hi. pose proof (num_fits c Hc). pose proof (c_size c Hc). unfold object. nia. Qed.

Lemma object_page i : 0 <= i < num c -> page_of (object c a i) = a.
Proof.
  intros Hi. pose proof (object_range i Hi) as Hr. pose proof (c_size c Hc). destruct Ha as (p & -> & Hp & _).
  unfold page_of, PAGE_SIZE, sizeof_slab in *. change (Z.lnot (4096 - 1)) with (Z.lnot (Z.ones 12)).
  rewrite <-Z.ldiff_land, Z.ldiff_ones_r by lia.
  rewrite Z.shiftr_div_pow2, Z.shiftl_mul_pow2 by lia. change (2 ^ 12) with 4096. f_equal.
  symmetry. apply Z.div_unique with (object c (p * 4096) i - p * 4096); lia.
Qed.

Lemma objects_NoDup : NoDup (objects c a).
Proof.
  unfold objects. apply NoDup_fmap_2_strong, NoDup_seqZ.
  intros i j _ _. unfold object. pose proof (c_size c Hc). intros. assert (i * size c = j * size c) by lia. nia.
Qed.

Lemma object_nonzero x : x ∈ objects c a -> x <> 0.
Proof.
  intros (i & Hi & ->)%elem_of_objects. pose proof (object_range i Hi) as Hr. destruct Ha as (p & -> & Hp & _).
  unfold PAGE_SIZE, sizeof_slab in *. lia.
Qed.
End Layout.

(** ** The list of free objects *)

(** The free objects [fl] are linked through their first words from [o] on. *)
Fixpoint free_chain (w : gmap Z Z) (o : Z) (fl : list Z) : Prop :=
  match fl with
  | [] => o = 0
  | x :: fl => o = x /\ exists n, w !! x = Some n /\ free_chain w n fl
  end.

Lemma free_chain_head w o fl : free_chain w o fl -> o = hd 0 fl.
Proof. destruct fl; [done|]. by intros [-> _]. Qed.

Lemma free_chain_agree w w' o fl : (forall x, x ∈ fl -> w' !! x = w !! x) -> free_chain w o fl -> free_chain w' o fl.
Proof.
  revert o. induction fl as [|x fl IH]; intros o Hw; [done|]. intros (-> & n & Hn & Hch). split; [done|].
  exists n. rewrite Hw by set_solver. split; [done|]. apply IH; [|done]. set_solver.
Qed.

Lemma init_objects_ok c a n i fl w : Cache c -> page_address a -> 0 <= i -> i + Z.of_nat n <= num c ->
  let r := init_objects n c a i (hd 0 fl) w in
  free_chain w (hd 0 fl) fl -> (forall j, i <= j -> object c a j ∉ fl) ->
  free_chain r.2 r.1 (rev (object c a <$> seqZ i (Z.of_nat n)) ++ fl) /\
  (forall x, x ∉ (object c a <$> seqZ i (Z.of_nat n)) -> r.2 !! x = w !! x).
Proof.
  intros Hc Ha. revert i fl w. induction n as [|n IH]; intros i fl w Hi Hn r Hch Hfl; subst r; cbn [init_objects].
  { split; [exact Hch|done]. }
  pose proof (object_range c a Hc i ltac:(lia)) as Hr. pose proof (c_size c Hc).
  destruct Ha as (p & -> & Hp & Hp2). unfold PAGE_SIZE, sizeof_slab in *.
  assert (u32 (p * 4096 + 24 + u32 (i * size c)) = object c (p * 4096) i) as ->.
  { unfold object, sizeof_slab in *. rewrite (u32_small (i * size c)), u32_small by nia. done. }
  rewrite (c_ctor c Hc). set (x := object c (p * 4096) i).
  assert (x ∉ fl) as Hx by (apply Hfl; lia).
  destruct (IH (i + 1) (x :: fl) (<[x := hd 0 fl]> w)) as [H1 H2]; [lia..| | |].
  - split; [done|]. exists (hd 0 fl). rewrite lookup_insert_eq. split; [done|].
    apply (free_chain_agree w); [|done]. intros y Hy. apply lookup_insert_ne. congruence.
  - intros j Hj. rewrite not_elem_of_cons. split; [|apply Hfl; lia]. unfold x, object. nia.
  - rewrite Nat2Z.inj_succ, seqZ_cons, Z.pred_succ, <-Z.add_1_r by lia. cbn [fmap list_fmap rev]. fold x. split.
    + rewrite <-app_assoc. exact H1.
    + intros y [Hy1 Hy2]%not_elem_of_cons. rewrite H2 by done. apply lookup_insert_ne. congruence.
Qed.

(** ** A cache and its slab *)

Section Pool.
Context {P : Type} `{!PageSource P} `{!PageSourceLaws P}.
Context (MEM_PANIC cache : Z) (Hcache : page_address cache).
Notation F := (slabs_full cache).
Notation Q := (slabs_partial cache).
Notation E := (slabs_free cache).
Implicit Types (s : state P).

(** The slab's record, its free objects [fl] and the objects in use. *)
Record Body (c : slab_cache) (s : state P) (a : Z) (fl used : list Z) : Prop := {
  b_cache : Cache c;
  b_page : page_address a;
  b_caches : caches s !! cache = Some c;
  b_slab : slabs s !! a = Some (mk_slab a (Z.of_nat (length used)) (Z.of_nat (length fl)) (hd 0 fl));
  b_chain : free_chain (words s) (hd 0 fl) fl;
  b_objects : fl ++ used ≡ₚ objects c a;
  b_used : forall x, x ∈ used -> is_Some (words s !! x);
  b_null : words s !! 0 = None }.

(** Where the slab is with [u] of its [n] objects in use. *)
Definition Links (a n u : Z) (h : heap) : Prop :=
  if u =? n then on_list E a h F Q else if u =? 0 then on_none F Q E a h else on_list E a h Q F.

Definition Pool (c : slab_cache) (s : state P) (a : Z) (fl used : list Z) : Prop :=
  Body c s a fl used /\ Links a (num c) (Z.of_nat (length used)) (nodes s).

Lemma heads_differ a : page_address a -> F <> Q /\ F <> E /\ Q <> E /\ a <> F /\ a <> Q /\ a <> E.
Proof.
  intros (p & -> & _). destruct Hcache as (q & -> & _).
  unfold slabs_full, slabs_partial, slabs_free, PAGE_SIZE. lia.
Qed.

Lemma body_count c s a fl used : Body c s a fl used ->
  Z.of_nat (length fl) + Z.of_nat (length used) = num c /\ 0 < num c < 4096.
Proof.
  intros HB. pose proof (Permutation_length (b_objects _ _ _ _ _ HB)) as Hl. unfold objects in Hl.
  rewrite length_app, length_fmap, length_seqZ in Hl. pose proof (num_fits c (b_cache _ _ _ _ _ HB)).
  pose proof (c_size c (b_cache _ _ _ _ _ HB)). unfold PAGE_SIZE, sizeof_slab in *. nia.
Qed.

Lemma body_NoDup c s a fl used : Body c s a fl used -> NoDup (fl ++ used).
Proof. intros HB. rewrite (b_objects _ _ _ _ _ HB). apply objects_NoDup, HB. Qed.

Lemma body_object c s a fl used x : Body c s a fl used -> x ∈ fl ++ used -> page_of x = a /\ x <> 0 /\ x + size c <= a + PAGE_SIZE.
Proof.
  intros HB Hx. rewrite (b_objects _ _ _ _ _ HB) in Hx. pose proof (b_cache _ _ _ _ _ HB) as Hc.
  pose proof (b_page _ _ _ _ _ HB) as Ha. split_and!; [|by eapply object_nonzero|];
    apply elem_of_objects in Hx as (i & Hi & ->); [by apply object_page|]. by apply object_range.
Qed.

Lemma body_nodes c s a fl used h : Body c s a fl used -> Body c (with_nodes h s) a fl used.
Proof. intros []; by split. Qed.

(** ** Allocating *)

Lemma slab_for_alloc_ok c s a fl used : Pool c s a fl used -> fl <> [] ->
  exists h, slab_for_alloc cache s = Some (Some a, with_nodes h s) /\ on_list E a h Q F.
Proof.
  intros [HB HL] Hfl. pose proof (body_count _ _ _ _ _ HB) as [Hn Hn0].
  destruct (heads_differ a (b_page _ _ _ _ _ HB)) as (? & ? & ? & ? & ? & ?).
  assert (0 < Z.of_nat (length fl)) by (destruct fl; [done|cbn; lia]).
  unfold Links in HL. rewrite (proj2 (Z.eqb_neq _ (num c))) in HL by lia.
  unfold slab_for_alloc, list_empty. destruct (Z.eqb_spec (Z.of_nat (length used)) 0).
  - destruct (reuse_links F Q E a) with (h := nodes s) as (h1 & h2 & E1 & E2 & HL2); [done..|].
    destruct HL as ((_ & _) & (HQ & _) & _ & _ & HE & _). rewrite HQ, HE. cbn [mbind option_bind].
    rewrite Z.eqb_refl, (proj2 (Z.eqb_neq a E)) by done. cbn [mbind option_bind]. rewrite E1. cbn [mbind option_bind].
    cbn [nodes with_nodes]. rewrite E2. by exists h2.
  - pose proof HL as ((HQ & _) & _). rewrite HQ. cbn [mbind option_bind]. rewrite (proj2 (Z.eqb_neq a Q)) by done.
    exists (nodes s). destruct s. by split.
Qed.

Lemma clear_object_ok c s a fl used o : Body c s a fl used -> o ∈ used ->
  exists w, clear_object a o (size c) (words s) = Some w /\ Body c (with_words w s) a fl used.
Proof.
  intros HB Ho. destruct (body_object c s a fl used o HB) as (_ & _ & Hr); [apply elem_of_app; auto|].
  unfold clear_object. destruct (Z.ltb_spec (a + PAGE_SIZE) (o + size c)); [lia|].
  set (w := map_imap _ _). exists w. split; [done|].
  pose proof (body_NoDup _ _ _ _ _ HB) as HN. apply NoDup_app in HN as (_ & Hdis & _).
  assert (forall x, x ∈ objects c a -> x <> o -> (o <=? x) && (x <? o + size c) = false) as Hout.
  { pose proof (b_cache _ _ _ _ _ HB) as Hc. pose proof (c_size c Hc).
    assert (o ∈ objects c a) as (j & Hj & ->)%elem_of_objects
      by (rewrite <-(b_objects _ _ _ _ _ HB); apply elem_of_app; auto).
    intros x (i & Hi & ->)%elem_of_objects Hne. apply andb_false_iff. unfold object in *.
    destruct (decide (i < j)); [left; apply Z.leb_gt; nia|right; apply Z.ltb_ge].
    assert (i <> j) by congruence. nia. }
  destruct HB as [Hc Ha Hcs Hsl Hch Hp Hu H0]. split; cbn [words caches slabs with_words]; try done.
  - apply (free_chain_agree (words s)); [|done]. intros x Hx. unfold w. rewrite map_lookup_imap.
    assert (x ∈ objects c a) by (rewrite <-Hp; apply elem_of_app; auto).
    rewrite Hout; [by destruct (words s !! x)|done|]. intros ->. by apply (Hdis o).
  - intros x Hx. unfold w. rewrite map_lookup_imap. destruct (Hu x Hx) as [v ->]. by eexists.
  - unfold w. by rewrite map_lookup_imap, H0.
Qed.

(** [slab_cache_alloc] behind the choice of the slab. *)
Lemma take_ok c s0 c0 s a o fl used flags :
  caches s0 !! cache = Some c0 -> size c0 = size c -> slab_for_alloc cache s0 = Some (Some a, s) ->
  Body c s a (o :: fl) used -> on_list E a (nodes s) Q F ->
  exists s', slab_cache_alloc MEM_PANIC (Some cache) flags s0 = Some (Returned (Some o), s') /\ Pool c s' a fl (o :: used) /\
    source s' = source s.
Proof.
  intros Hc0 Hsz Hfor HB HL. pose proof (body_count _ _ _ _ _ HB) as [Hn Hn0]. cbn [length] in Hn.
  destruct (heads_differ a (b_page _ _ _ _ _ HB)) as (? & ? & ? & ? & ? & ?).
  unfold slab_cache_alloc. rewrite Hc0, bind_Some_l, Hfor, bind_Some_l, (b_slab _ _ _ _ _ HB), bind_Some_l.
  cbn [freelist hd]. destruct (b_chain _ _ _ _ _ HB) as (_ & n & Ho & Hch). rewrite Ho, bind_Some_l.
  cbn [start inuse free length]. rewrite !u32_small by lia.
  set (sl := mk_slab _ _ _ _). set (s1 := with_slabs _ s).
  assert (Body c s1 a fl (o :: used)) as HB1.
  { pose proof (body_NoDup _ _ _ _ _ HB) as HN. destruct HB as [Hc Ha Hcs Hsl _ Hp Hu H0'].
    split; cbn [s1 with_slabs words caches slabs]; try done.
    - rewrite lookup_insert_eq. unfold sl. rewrite <-(free_chain_head _ _ _ Hch). cbn [length]. do 2 f_equal; lia.
    - by rewrite <-(free_chain_head _ _ _ Hch).
    - rewrite <-Hp. by rewrite <-Permutation_middle.
    - intros x [->|Hx]%elem_of_cons; [by eexists|auto]. }
  assert (exists s2, (if Z.of_nat (S (length fl)) - 1 =? 0 then h ← list_del a (nodes s1); h ← list_add a F h; Some (with_nodes h s1) else Some s1) = Some s2 /\
    Pool c s2 a fl (o :: used) /\ source s2 = source s) as (s2 & -> & [HB2 HL2] & Hsrc).
  { destruct (Z.eqb_spec (Z.of_nat (S (length fl)) - 1) 0).
    - destruct (move_links F Q E a) with (h := nodes s1) (x := Q) (y := F) as (h1 & h2 & -> & E2 & HL2); [done..|by right|done|].
      rewrite bind_Some_l, E2, bind_Some_l. eexists. split; [done|]. split; [|done]. split; [by apply body_nodes|].
      unfold Links. cbn [length]. rewrite (proj2 (Z.eqb_eq _ (num c))) by lia. done.
    - eexists. split; [done|]. split; [|done]. split; [done|]. unfold Links. cbn [length].
      by rewrite (proj2 (Z.eqb_neq _ (num c))), (proj2 (Z.eqb_neq _ 0)) by lia. }
  rewrite bind_Some_l. destruct (has_flag flags MEM_ZERO).
  - rewrite Hsz. destruct (clear_object_ok c s2 a fl (o :: used) o HB2) as (w & -> & HB3); [apply elem_of_cons; auto|].
    rewrite bind_Some_l. eexists. split; [done|]. split; [by split|done].
  - rewrite bind_Some_l. eexists. split; [done|]. destruct s2. split; [by split|done].
Qed.

Lemma pool_alloc_ok c s a o fl used flags : Pool c s a (o :: fl) used ->
  exists s', slab_cache_alloc MEM_PANIC (Some cache) flags s = Some (Returned (Some o), s') /\ Pool c s' a fl (o :: used).
Proof.
  intros HP. destruct (slab_for_alloc_ok c s a (o :: fl) used HP) as (h & Ef & HL); [done|]. destruct HP as [HB _].
  destruct (take_ok c s c (with_nodes h s) a o fl used flags) as (s' & E' & HP' & _);
    [apply HB|done|done|by apply body_nodes|done|eauto].
Qed.

(** All objects in use: the head of the free list still designates the slab, which is taken
    again, and there is no object. *)
Lemma alloc_full c s a used flags : Pool c s a [] used -> slab_cache_alloc MEM_PANIC (Some cache) flags s = None.
Proof.
  intros [HB HL]. pose proof (body_count _ _ _ _ _ HB) as [Hn Hn0]. cbn [length] in Hn.
  destruct (heads_differ a (b_page _ _ _ _ _ HB)) as (? & ? & ? & ? & ? & ?).
  unfold Links in HL. rewrite (proj2 (Z.eqb_eq _ (num c))) in HL by lia.
  destruct (move_links F Q E a) with (h := nodes s) (x := F) (y := Q) as (h1 & h2 & E1 & E2 & HL2); [done..|by left|done|].
  unfold slab_cache_alloc, slab_for_alloc, list_empty. destruct HL as (_ & (HQ & _) & HE & _).
  rewrite (b_caches _ _ _ _ _ HB), bind_Some_l, HQ, !bind_Some_l, Z.eqb_refl, HE, !bind_Some_l.
  rewrite (proj2 (Z.eqb_neq a E)), E1, !bind_Some_l by done. cbn [nodes with_nodes]. rewrite E2, !bind_Some_l.
  cbn [slabs with_nodes words]. rewrite (b_slab _ _ _ _ _ HB), bind_Some_l. cbn [freelist hd].
  by rewrite (b_null _ _ _ _ _ HB).
Qed.

(** A cache without a slab. *)
Record New (c : slab_cache) (s : state P) : Prop := {
  n_cache : Cache c;
  n_caches : caches s !! cache = Some c;
  n_lists : alone (nodes s) F /\ alone (nodes s) Q /\ alone (nodes s) E;
  n_null : words s !! 0 = None;
  n_source : ps_ok (source s) }.

Lemma page_source_page s src a : ps_ok (source s) -> ps_alloc 1 (source s) = Some (Some a, src) -> page_address a.
Proof.
  intros Hok Ea. destruct (ps_alloc_ok 1 (source s) Hok) as (r & s' & E' & _ & _ & Hr); [lia|].
  rewrite Ea in E'. injection E' as <- <-. destruct Hr as (p & -> & _ & Hp & Hp2 & _). by exists p.
Qed.

(** The first allocation gets a page and hands out its last object. *)
Lemma alloc_first c s a src flags : New c s -> ps_alloc 1 (source s) = Some (Some a, src) ->
  exists c' o fl s', rev (objects c a) = o :: fl /\ objects c' a = objects c a /\
    slab_cache_alloc MEM_PANIC (Some cache) flags s = Some (Returned (Some o), s') /\ Pool c' s' a fl [o].
Proof.
  intros [Hc Hcs (HF & HQ & HE) H0 Hok] Ea. pose proof (page_source_page s src a Hok Ea) as Ha.
  destruct (heads_differ a Ha) as (? & ? & ? & ? & ? & ?). pose proof (num_fits c Hc) as [Hn Hfit].
  destruct (init_objects_ok c a (Z.to_nat (num c)) 0 [] (words s) Hc Ha) as [Hch Hw]; [lia..|done| |].
  { intros j _. apply not_elem_of_nil. }
  rewrite Z2Nat.id, app_nil_r in Hch by lia. rewrite Z2Nat.id in Hw by lia. cbn [hd] in Hch, Hw.
  change (object c a <$> seqZ 0 (num c)) with (objects c a) in Hch, Hw.
  destruct (init_objects (Z.to_nat (num c)) c a 0 0 (words s)) as [f w] eqn:Ei. cbn [fst snd] in Hch, Hw.
  destruct (rev (objects c a)) as [|o fl] eqn:Er.
  { apply (f_equal (@length Z)) in Er. rewrite length_rev in Er. unfold objects in Er.
    rewrite length_fmap, length_seqZ in Er. cbn in Er. lia. }
  pose proof (free_chain_head _ _ _ Hch) as Hf. cbn in Hf. subst f.
  destruct (fresh_links F Q E a) with (h := nodes s) as (h1 & h2 & E1 & E2 & HL); [done..|].
  set (c' := with_totals (u32 (total_objects c + num c)) (u32 (total_slabs c + 1)) c).
  set (s1 := mk_state h2 w (<[a := mk_slab a 0 (num c) o]> (slabs s)) (<[cache := c']> (caches s)) src : state P).
  assert (slab_for_alloc cache s = Some (Some a, s1)) as Hfor.
  { unfold slab_for_alloc, list_empty. destruct HQ as [-> _], HE as [-> _]. rewrite !bind_Some_l, !Z.eqb_refl.
    unfold slab_alloc. rewrite Hcs, Ea, !bind_Some_l. cbn [fst snd words nodes with_source]. rewrite Ei.
    rewrite E1, !bind_Some_l. cbn [nodes]. rewrite E2. done. }
  assert (length (rev (objects c a)) = Z.to_nat (num c)) as Hlen.
  { rewrite length_rev. unfold objects. by rewrite length_fmap, length_seqZ. }
  destruct (take_ok c' s c s1 a o fl [] flags) as (s' & E' & HP & _); [done..| |done|].
  { split; cbn [s1 words slabs caches]; try done.
    - destruct Hc. by split.
    - by rewrite lookup_insert_eq.
    - rewrite lookup_insert_eq. rewrite <-Er, Hlen, Z2Nat.id by lia. rewrite Er. done.
    - rewrite app_nil_r, <-Er. symmetry. apply Permutation_rev.
    - by intros x ?%not_elem_of_nil.
    - rewrite Hw, H0; [done|]. intros Hin. by eapply object_nonzero in Hin. }
  exists c', o, fl, s'. done.
Qed.

(** ** Freeing *)

Lemma move_to s x y h1 h2 : list_del x (nodes s) = Some h1 -> list_add x y h1 = Some h2 -> move x y s = Some (with_nodes h2 s).
Proof. intros E1 E2. unfold move. by rewrite E1, bind_Some_l, E2. Qed.

(** The record of the slab after [o] is put back. *)
Definition given (c : slab_cache) (s : state P) (a o : Z) (fl used : list Z) : state P :=
  with_slabs (<[a := mk_slab a (Z.of_nat (length used) - 1) (Z.of_nat (length fl) + 1) o]> (slabs s))
    (with_words (<[o := hd 0 fl]> (words s)) s).

Lemma given_body c s a fl used o : Body c s a fl used -> o ∈ used ->
  Body c (given c s a o fl used) a (o :: fl) (filter (fun x => x <> o) used) /\
  Z.of_nat (length (filter (fun x => x <> o) used)) = Z.of_nat (length used) - 1.
Proof.
  intros HB Ho. pose proof (body_NoDup _ _ _ _ _ HB) as (_ & Hdis & HNu)%NoDup_app.
  destruct (list_elem_of_split _ _ Ho) as (l1 & l2 & Hl). assert (used ≡ₚ o :: l1 ++ l2) as Hp
    by (rewrite Hl; symmetry; apply Permutation_middle).
  assert (filter (fun x => x <> o) used ≡ₚ l1 ++ l2) as Hfil.
  { rewrite Hp, filter_cons_False by auto. rewrite filter_all; [done|]. rewrite Hp in HNu.
    apply NoDup_cons in HNu as [Hn _]. apply Forall_forall. intros x Hx ->. done. }
  assert (Z.of_nat (length (filter (fun x => x <> o) used)) = Z.of_nat (length used) - 1) as Hlen.
  { rewrite (Permutation_length Hfil), (Permutation_length Hp). cbn [length]. lia. }
  split; [|done]. assert (o ∉ fl) as Hofl by (intros ?; by apply (Hdis o)).
  destruct (body_object c s a fl used o HB) as (_ & Hnz & _); [apply elem_of_app; auto|].
  destruct HB as [Hc Ha Hcs Hsl Hch Hperm Hu H0]. split; cbn [given with_slabs with_words words slabs caches]; try done.
  - rewrite lookup_insert_eq, Hlen. cbn [length hd]. do 2 f_equal; lia.
  - cbn [hd free_chain]. split; [done|]. exists (hd 0 fl). rewrite lookup_insert_eq. split; [done|].
    apply (free_chain_agree (words s)); [|done]. intros x Hx. apply lookup_insert_ne. congruence.
  - rewrite <-Hperm, Hfil, Hp. cbn. by rewrite <-Permutation_middle.
  - intros x [_ Hx]%list_elem_of_filter. rewrite lookup_insert_is_Some'. auto.
  - by rewrite lookup_insert_ne.
Qed.

Lemma pool_free_ok c s a fl used o : Pool c s a fl used -> o ∈ used ->
  exists s', slab_cache_free (Some cache) (Some o) s = Some s' /\ Pool c s' a (o :: fl) (filter (fun x => x <> o) used).
Proof.
  intros [HB HL] Ho. pose proof (body_count _ _ _ _ _ HB) as [Hn Hn0].
  destruct (heads_differ a (b_page _ _ _ _ _ HB)) as (? & ? & ? & ? & ? & ?).
  destruct (body_object c s a fl used o HB) as (Hpg & _ & _); [apply elem_of_app; auto|].
  assert (0 < Z.of_nat (length used)) as Hu by (destruct used; [by apply not_elem_of_nil in Ho|cbn; lia]).
  destruct (given_body c s a fl used o HB Ho) as [HB' Hlen].
  unfold slab_cache_free. rewrite Hpg, (b_caches _ _ _ _ _ HB), bind_Some_l, (c_dtor c (b_cache _ _ _ _ _ HB)).
  destruct (b_used _ _ _ _ _ HB o Ho) as [v ->]. rewrite bind_Some_l, (b_slab _ _ _ _ _ HB), bind_Some_l.
  cbn [start inuse free freelist]. rewrite !u32_small by lia. fold (given c s a o fl used).
  set (s1 := given c s a o fl used) in *. assert (nodes s1 = nodes s) as Hnodes by done.
  assert (exists s2, (if Z.of_nat (length fl) + 1 =? 1 then move a Q s1 else Some s1) = Some s2 /\
    Body c s2 a (o :: fl) (filter (fun x => x <> o) used) /\ on_list E a (nodes s2) Q F) as (s2 & -> & HB2 & HL2).
  { unfold Links in HL. destruct (Z.eqb_spec (Z.of_nat (length fl) + 1) 1).
    - rewrite (proj2 (Z.eqb_eq _ (num c))) in HL by lia.
      destruct (move_links F Q E a) with (h := nodes s) (x := F) (y := Q) as (h1 & h2 & E1 & E2 & HL2); [done..|by left|done|].
      rewrite <-Hnodes in E1. rewrite (move_to s1 a Q h1 h2 E1 E2). eexists. split; [done|]. split; [by apply body_nodes|done].
    - rewrite (proj2 (Z.eqb_neq _ (num c))), (proj2 (Z.eqb_neq _ 0)) in HL by lia. eexists. split; [done|]. by split. }
  rewrite bind_Some_l. destruct (Z.eqb_spec (Z.of_nat (length fl) + 1) (num c)).
  - destruct (empty_links F Q E a) with (h := nodes s2) as (h1 & h2 & E1 & E2 & HL3); [done..|].
    rewrite (move_to s2 a E h1 h2 E1 E2). eexists. split; [done|]. split; [by apply body_nodes|].
    unfold Links. by rewrite Hlen, (proj2 (Z.eqb_neq _ (num c))), (proj2 (Z.eqb_eq _ 0)) by lia.
  - eexists. split; [done|]. split; [done|]. unfold Links.
    by rewrite Hlen, (proj2 (Z.eqb_neq _ (num c))), (proj2 (Z.eqb_neq _ 0)) by lia.
Qed.

(** The owner of an object writes to its first word. *)
Lemma pool_write_ok c s a fl used o v : Pool c s a fl used -> o ∈ used -> Pool c (with_words (<[o := v]> (words s)) s) a fl used.
Proof.
  intros [HB HL] Ho. split; [|done]. destruct (body_object c s a fl used o HB) as (_ & Hnz & _); [apply elem_of_app; auto|].
  pose proof (body_NoDup _ _ _ _ _ HB) as (_ & Hdis & _)%NoDup_app.
  destruct HB as [Hc Ha Hcs Hsl Hch Hperm Hu H0]. split; cbn [with_words words slabs caches]; try done.
  - apply (free_chain_agree (words s)); [|done]. intros x Hx. apply lookup_insert_ne. intros <-. by apply (Hdis o).
  - intros x Hx. rewrite lookup_insert_is_Some'. auto.
  - by rewrite lookup_insert_ne.
Qed.

(** ** Runs *)

Inductive op := OAlloc (flags : Z) | OFree (o : Z) | OWrite (o v : Z).

Definition do_op (x : op) (s : state P) : option (option outcome * state P) :=
  match x with
  | OAlloc flags => r ← slab_cache_alloc MEM_PANIC (Some cache) flags s; Some (Some r.1, r.2)
  | OFree o => s ← slab_cache_free (Some cache) (Some o) s; Some (None, s)
  | OWrite o v => Some (None, with_words (<[o := v]> (words s)) s)
  end.
Fixpoint run (l : list op) (s : state P) : option (list (option outcome)) :=
  match l with
  | [] => Some []
  | x :: l => r ← do_op x s; t ← run l r.2; Some (r.1 :: t)
  end.

(** The reference: a stack of free objects; taking one from the empty stack is the fault. *)
Fixpoint stack_run (l : list op) (stack : list Z) : option (list (option outcome)) :=
  match l with
  | [] => Some []
  | OAlloc _ :: l =>
      match stack with
      | [] => None
      | o :: stack => t ← stack_run l stack; Some (Some (Returned (Some o)) :: t)
      end
  | OFree o :: l => t ← stack_run l (o :: stack); Some (None :: t)
  | OWrite _ _ :: l => t ← stack_run l stack; Some (None :: t)
  end.

(** Clients free and write only what they hold. *)
Fixpoint proper (l : list op) (stack used : list Z) : Prop :=
  match l with
  | [] => True
  | OAlloc _ :: l => match stack with [] => True | o :: stack => proper l stack (o :: used) end
  | OFree o :: l => o ∈ used /\ proper l (o :: stack) (filter (fun x => x <> o) used)
  | OWrite o _ :: l => o ∈ used /\ proper l stack used
  end.

Lemma pool_run l c s a fl used : Pool c s a fl used -> proper l fl used -> run l s = stack_run l fl.
Proof.
  revert s fl used. induction l as [|x l IH]; intros s fl used HP Hpr; [done|].
  destruct x as [flags|o|o v]; cbn [run stack_run do_op proper] in *.
  - destruct fl as [|o fl].
    + by rewrite (alloc_full c s a used flags HP).
    + destruct (pool_alloc_ok c s a o fl used flags HP) as (s' & -> & HP'). rewrite !bind_Some_l. cbn [fst snd].
      by rewrite (IH _ _ _ HP' Hpr).
  - destruct Hpr as [Ho Hpr]. destruct (pool_free_ok c s a fl used o HP Ho) as (s' & -> & HP').
    rewrite !bind_Some_l. cbn [fst snd]. by rewrite (IH _ _ _ HP' Hpr).
  - destruct Hpr as [Ho Hpr]. rewrite bind_Some_l. cbn [fst snd].
    by rewrite (IH _ _ _ (pool_write_ok c s a fl used o v HP Ho) Hpr).
Qed.

(** C5: A new cache whose page allocator has a page is a stack of the [num] objects of that
    page, last object first: any sequence of allocations, with or without clearing, of
    releases of objects in use and of writes to them returns exactly what the stack
    returns, so that no object is handed out twice, and an allocation with all [num]
    objects in use faults instead of taking a second page. *)
Theorem slab_cache_refines_stack l c s a src : New c s -> ps_alloc 1 (source s) = Some (Some a, src) ->
  proper l (rev (objects c a)) [] ->
  run l s = stack_run l (rev (objects c a)) /\ NoDup (objects c a) /\ Z.of_nat (length (objects c a)) = num c /\
  (forall x, x ∈ objects c a -> a + sizeof_slab <= x /\ x + size c <= a + PAGE_SIZE).
Proof.
  intros HN Ea Hpr. pose proof (page_source_page s src a (n_source c s HN) Ea) as Ha. pose proof (n_cache c s HN) as Hc.
  pose proof (num_fits c Hc) as [Hn _].
  split; [|split; [by apply objects_NoDup|split]].
  - destruct l as [|x l]; [done|]. destruct x as [flags|o|o v]; cbn [proper] in Hpr;
      [|by destruct Hpr as [?%not_elem_of_nil _]..].
    destruct (alloc_first c s a src flags HN Ea) as (c' & o & fl & s' & Er & Eo & E' & HP).
    cbn [run do_op stack_run]. rewrite E', Er, !bind_Some_l in *. cbn [fst snd]. by rewrite (pool_run l c' s' a fl [o]).
  - unfold objects. rewrite length_fmap, length_seqZ. lia.
  - intros x (i & Hi & ->)%elem_of_objects. by apply object_range.
Qed.

End Pool.
(** ** Making a cache *)

Lemma alone_list h x : is_list h x [] <-> alone h x.
Proof. unfold is_list, alone. cbn. split; [naive_solver|]. intros [H1 H2]. split; [apply NoDup_singleton|done]. Qed.

Section Create.
Context {P : Type} `{!PageSource P} `{!PageSourceLaws P}.

(** The nodes of a new cache and the list of caches. *)
Lemma cache_nodes_ok h cache cache_list xs : page_address cache -> is_list h cache_list xs ->
  (forall x, x ∈ cache_list :: xs -> x < cache \/ cache + PAGE_SIZE <= x) ->
  exists h1 h2 h3 h4,
    list_init (slabs_full cache) (new_node (cache_node cache) (new_node (slabs_full cache)
      (new_node (slabs_partial cache) (new_node (slabs_free cache) h)))) = Some h1 /\
    list_init (slabs_partial cache) h1 = Some h2 /\ list_init (slabs_free cache) h2 = Some h3 /\
    list_add (cache_node cache) cache_list h3 = Some h4 /\
    alone h4 (slabs_full cache) /\ alone h4 (slabs_partial cache) /\ alone h4 (slabs_free cache) /\
    is_list h4 cache_list (cache_node cache :: xs).
Proof.
  intros Hpage HL Hx.
  set (N := cache_node cache). set (F := slabs_full cache). set (Q := slabs_partial cache). set (E := slabs_free cache).
  assert (N = cache + 4 /\ F = cache + 68 /\ Q = cache + 76 /\ E = cache + 84) as (HN & HF & HQ & HE) by done.
  clearbody N F Q E. unfold PAGE_SIZE in Hx.
  set (h0 := new_node N (new_node F (new_node Q (new_node E h)))).
  assert (is_list h0 cache_list xs) as HL0.
  { unfold h0. repeat (apply new_node_list; [|intros Hin%Hx; lia]). done. }
  assert (node h0 N /\ node h0 F /\ node h0 Q /\ node h0 E) as (NN & NF & NQ & NE).
  { unfold h0. split_and!; repeat (first [apply (proj2 (new_node_others _ _)) | apply (proj2 (proj1 (new_node_others _ _)))]). }
  destruct (list_init_ok F h0 NF) as (h1 & E1 & L1 & O1).
  destruct (list_init_ok Q h1) as (h2 & E2 & L2 & O2); [by apply O1|].
  destruct (list_init_ok E h2) as (h3 & E3 & L3 & O3); [by apply O2, O1|].
  assert (forall y, y ∈ cache_list :: xs -> y ∉ [F] /\ y ∉ [Q] /\ y ∉ [E] /\ y <> N) as Hout.
  { intros y Hy%Hx. rewrite !list_elem_of_singleton. lia. }
  assert (is_list h3 cache_list xs) as HL3.
  { apply (list_frame h2 h3 _ _ [E]); [|done|by intros y Hy; apply Hout].
    apply (list_frame h1 h2 _ _ [Q]); [|done|by intros y Hy; apply Hout].
    apply (list_frame h0 h1 _ _ [F]); [done|done|by intros y Hy; apply Hout]. }
  assert (is_list h3 F [] /\ is_list h3 Q []) as [LF LQ].
  { split.
    - apply (list_frame h2 h3 _ _ [E]); [apply (list_frame h1 h2 _ _ [Q])|..]; try done;
        intros y ->%list_elem_of_singleton; rewrite list_elem_of_singleton; lia.
    - apply (list_frame h2 h3 _ _ [E]); [done..|]. intros y ->%list_elem_of_singleton. rewrite list_elem_of_singleton. lia. }
  destruct (list_add_ok h3 cache_list [] xs N) as (h4 & E4 & L4 & O4);
    [done|intros Hin; by destruct (Hout N Hin) as (_ & _ & _ & [])|by apply O3, O2, O1|].
  exists h1, h2, h3, h4. do 4 (split; [done|]).
  assert (forall y, y = F \/ y = Q \/ y = E -> is_list h3 y [] -> alone h4 y) as Hal.
  { intros y Hy Ly. apply alone_list, (list_frame h3 h4 _ _ _ Ly O4). intros z ->%list_elem_of_singleton Hin.
    assert (y ∈ N :: cache_list :: xs) as [->|Hin2]%elem_of_cons by set_solver; [lia|].
    apply Hx in Hin2. lia. }
  split_and!; [apply Hal; auto..|done].
Qed.

(** [slab_cache_create] makes a new cache of the objects asked for, when there is a page. *)
Lemma slab_cache_create_ok cache_list o1 o2 size0 align0 flags xs (s : state P) cache src :
  let align := object_align align0 in
  let sz := object_size size0 align in
  0 < size0 -> 4 <= sz <= PAGE_SIZE - sizeof_slab -> ps_ok (source s) -> words s !! 0 = None ->
  is_list (nodes s) cache_list xs -> ps_alloc 1 (source s) = Some (Some cache, src) ->
  (forall x, x ∈ cache_list :: xs -> x < cache \/ cache + PAGE_SIZE <= x) ->
  exists c s', slab_cache_create cache_list o1 o2 true size0 align0 flags None None s = Some (Returned (Some cache), s') /\
    New cache c s' /\ size c = sz /\ is_list (nodes s') cache_list (cache_node cache :: xs) /\ source s' = src.
Proof.
  intros align sz Hs0 Hsz Hok H0 HL Ea Hx. pose proof (page_source_page s src cache Hok Ea) as Hpage.
  destruct (cache_nodes_ok (nodes s) cache cache_list xs Hpage HL Hx)
    as (h1 & h2 & h3 & h4 & E1 & E2 & E3 & E4 & A1 & A2 & A3 & L4).
  unfold slab_cache_create. rewrite (proj2 (Z.eqb_neq size0 0)) by lia. cbn [negb orb]. rewrite Ea, bind_Some_l.
  cbn [fst snd]. fold align. fold sz. rewrite (proj2 (Z.eqb_neq sz 0)) by lia. cbn [nodes with_source].
  rewrite E1, bind_Some_l, E2, bind_Some_l, E3, bind_Some_l, E4, bind_Some_l.
  exists (mk_cache sz align flags (objects_per_slab sz) o1 o2 None None). eexists. split; [done|]. split; [|by split_and!].
  destruct (ps_alloc_ok 1 (source s) Hok) as (r & s1 & E' & Hok' & _); [lia|]. rewrite Ea in E'. injection E' as <- <-.
  split; cbn [with_caches with_nodes with_source caches nodes words source];
    [by split|by rewrite lookup_insert_eq|done|done|done].
Qed.
End Create.

(** ** Sizes *)

(** Sizes and layout: with an alignment that is a power of two the object size is the
    smallest multiple of it that is at least the size asked for and a pointer; a page holds
    as many objects as fit behind the header when one fits, and otherwise is given one
    that ends behind the page; every object has the same remainder as the header's 24 bytes
    modulo the alignment, so objects of a cache are aligned only up to 8. *)
Theorem slab_layout size0 k : 0 < size0 -> 2 <= k <= 12 -> size0 < 2 ^ 31 ->
  let sz := object_size size0 (object_align (2 ^ k)) in
  let n := objects_per_slab sz in
  (Z.max size0 sizeof_ptr <= sz < Z.max size0 sizeof_ptr + 2 ^ k /\ sz mod 2 ^ k = 0) /\
  (sz <= PAGE_SIZE - sizeof_slab -> 0 < n /\ sizeof_slab + n * sz <= PAGE_SIZE < sizeof_slab + (n + 1) * sz) /\
  (PAGE_SIZE - sizeof_slab < sz -> n = 1 /\ PAGE_SIZE < sizeof_slab + sz) /\
  (forall a i, a mod PAGE_SIZE = 0 -> (a + sizeof_slab + i * sz) mod 2 ^ k = sizeof_slab mod 2 ^ k).
Proof.
  intros Hs Hk Hs2. assert (4 <= 2 ^ k <= 4096) as Hp.
  { split; [apply (Z.pow_le_mono_r 2 2 k)|apply (Z.pow_le_mono_r 2 k 12)]; lia. }
  assert (object_align (2 ^ k) = 2 ^ k) as ->.
  { unfold object_align, sizeof_ptr. rewrite (proj2 (Z.eqb_neq _ 0)), (proj2 (Z.ltb_ge _ 4)) by lia. done. }
  assert (object_size size0 (2 ^ k) = (Z.max size0 sizeof_ptr + 2 ^ k - 1) / 2 ^ k * 2 ^ k) as Esz.
  { unfold object_size, sizeof_ptr. rewrite land_lnot_pow2 by lia.
    destruct (Z.ltb_spec size0 4); rewrite u32_small by lia; do 3 f_equal; lia. }
  set (sz := object_size size0 (2 ^ k)) in *. clearbody sz. set (m := Z.max size0 sizeof_ptr) in *.
  assert (4 <= m) by (unfold m, sizeof_ptr; lia).
  pose proof (Z.div_mod (m + 2 ^ k - 1) (2 ^ k) ltac:(lia)). pose proof (Z.mod_pos_bound (m + 2 ^ k - 1) (2 ^ k) ltac:(lia)).
  assert (sz mod 2 ^ k = 0) as Hmod by (rewrite Esz; apply Z.mod_mul; lia).
  unfold objects_per_slab, PAGE_SIZE, sizeof_slab. cbv zeta. split; [split; [lia|done]|]. split; [|split].
  - intros Hle. assert (0 < (4096 - 24) / sz) by (apply Z.div_str_pos; lia).
    rewrite (proj2 (Z.eqb_neq _ 0)) by lia. pose proof (Z.mul_div_le (4096 - 24) sz ltac:(lia)).
    pose proof (Z.mul_succ_div_gt (4096 - 24) sz ltac:(lia)). nia.
  - intros Hgt. rewrite Z.div_small by lia. split; [done|lia].
  - intros a i Ha. apply Z.mod_divide in Ha as [q ->]; [|lia]. apply Z.mod_divide in Hmod as [j ->]; [|lia].
    replace (2 ^ k) with (2 ^ k * 1) at 1 by lia.
    replace 4096 with (2 ^ (12 - k) * 2 ^ k) by (rewrite <-Z.pow_add_r by lia; by replace (12 - k + k) with 12 by lia).
    replace (q * (2 ^ (12 - k) * 2 ^ k) + 24 + i * (j * (2 ^ k * 1))) with (24 + (q * 2 ^ (12 - k) + i * j) * 2 ^ k) by ring.
    apply Z.mod_add. lia.
Qed.

Lemma slab_layout_witness : objects_per_slab (object_size 1000 (object_align (2 ^ 4))) = 4 /\ object_size 1000 (object_align (2 ^ 4)) = 1008 /\
  0 <= 1008 - 1000 < 2 ^ 4.
Proof.
  pose proof (slab_layout 1000 4 ltac:(lia) ltac:(lia) ltac:(lia)) as [[H _] _].
  change (object_size 1000 (object_align (2 ^ 4))) with 1008 in *. cbn in H. split; [done|]. split; [done|]. lia.
Defined.

(** ** General allocation *)

(** The first class that is large enough, counted from [i]. *)
Lemma size_class_ok size sizes i :
  match size_class size sizes i with
  | Some k => exists j n, k = (i + j)%nat /\ sizes !! j = Some n /\ size <= n /\
                          forall j' m, (j' < j)%nat -> sizes !! j' = Some m -> m < size
  | None => forall m, m ∈ sizes -> m < size
  end.
Proof.
  revert i. induction sizes as [|n sizes IH]; intros i; cbn [size_class]; [by intros m ?%not_elem_of_nil|].
  destruct (Z.leb_spec size n) as [Hle|Hgt].
  - exists 0%nat, n. split_and!; [lia|done|done|]. intros; lia.
  - specialize (IH (S i)). destruct (size_class size sizes (S i)) as [k|].
    + destruct IH as (j & m & -> & Hj & Hm & Hlow). exists (S j), m. split_and!; [lia|done|done|].
      intros [|j'] m' Hj' Hm'; [by injection Hm' as <-|]. apply (Hlow j' m'); [lia|done].
    + intros m [->|Hm]%elem_of_cons; [done|]. by apply IH.
Qed.

Section Kmalloc.
Context {P : Type} `{!PageSource P} (MEM_PANIC : Z) (kmalloc_caches : list Z).
Notation kmalloc := (kmalloc MEM_PANIC kmalloc_caches).
Notation kcalloc := (kcalloc MEM_PANIC kmalloc_caches).

(** [kmalloc] of up to 128 KB allocates from the cache of the smallest class that is
    large enough, and asks the page allocator for exactly the pages needed above; [kcalloc]
    of [n] times [size] bytes returns [NULL] when the product does not fit 32 bits and
    otherwise clears and returns [n * size] bytes. *)
Theorem kmalloc_classes n size flags (s : state P) :
  length kmalloc_caches = 13%nat -> 0 < n < 2 ^ 32 -> 0 < size < 2 ^ 32 ->
  (size <= 131072 -> exists i m cache, kmalloc_sizes !! i = Some m /\ size <= m /\
     (forall j m', (j < i)%nat -> kmalloc_sizes !! j = Some m' -> m' < size) /\
     kmalloc_caches !! i = Some cache /\ kmalloc size flags s = slab_cache_alloc MEM_PANIC (Some cache) flags s) /\
  (131072 < size <= 2 ^ 32 - PAGE_SIZE ->
     kmalloc size flags s = r ← ps_alloc ((size + PAGE_SIZE - 1) / PAGE_SIZE) (source s); Some (Returned r.1, with_source r.2 s)) /\
  kcalloc n size flags s =
    (if n * size <? 2 ^ 32 then kmalloc (n * size) (Z.lor flags MEM_ZERO) s else Some (Returned None, s)).
Proof.
  intros Hl Hn Hs. split_and!.
  - intros Hle. unfold Slab.kmalloc. rewrite (proj2 (Z.eqb_neq size 0)) by lia.
    pose proof (size_class_ok size kmalloc_sizes 0) as Hc. destruct (size_class size kmalloc_sizes 0) as [i|].
    + destruct Hc as (j & m & -> & Hj & Hm & Hlow). cbn [Nat.add].
      destruct (lookup_lt_is_Some_2 kmalloc_caches j) as [cache Hcache].
      { apply lookup_lt_Some in Hj. rewrite Hl. exact Hj. }
      exists j, m, cache. rewrite Hcache. done.
    + exfalso. assert (131072 < size); [|lia]. apply Hc. unfold kmalloc_sizes. rewrite !elem_of_cons. tauto.
  - intros Hbig. unfold Slab.kmalloc. rewrite (proj2 (Z.eqb_neq size 0)) by lia. unfold PAGE_SIZE in *.
    assert (size_class size kmalloc_sizes 0 = None) as ->.
    { pose proof (size_class_ok size kmalloc_sizes 0) as Hc. destruct (size_class size kmalloc_sizes 0); [|done].
      destruct Hc as (j & m & _ & Hj & Hm & _). apply list_elem_of_lookup_2 in Hj.
      exfalso. unfold kmalloc_sizes in Hj. repeat (apply elem_of_cons in Hj as [->|Hj]; [lia|]). by apply not_elem_of_nil in Hj. }
    rewrite u32_small by lia. by rewrite Z.shiftr_div_pow2.
  - unfold Slab.kcalloc, kzalloc. rewrite (proj2 (Z.eqb_neq n 0)), (proj2 (Z.eqb_neq size 0)) by lia. cbn [orb].
    unfold SIZE_MAX. destruct (Z.ltb_spec ((2 ^ 32 - 1) / n) size) as [Hlt|Hge].
    + rewrite (proj2 (Z.ltb_ge _ _)); [done|].
      pose proof (Z.mul_succ_div_gt (2 ^ 32 - 1) n ltac:(lia)). nia.
    + pose proof (Z.mul_div_le (2 ^ 32 - 1) n ltac:(lia)). rewrite (proj2 (Z.ltb_lt _ _)) by nia.
      by rewrite u32_small by nia.
Qed.
End Kmalloc.

(** ** On the pages of [mm/memory.c] *)

(** A list of caches with no cache, over eight pages. *)
Definition boot : state Memory.mm := mk_state (mk_heap {[ 16 := 16 ]} {[ 16 := 16 ]}) ∅ ∅ ∅ Memory.small.
Definition demo_create := slab_cache_create (P := Memory.mm) 16 0 0 true 1000 0 0 None None boot.
Definition demo : state Memory.mm := match demo_create with Some (_, s) => s | None => boot end.
Definition demo_cache : slab_cache := mk_cache 1000 4 0 4 0 0 None None.

Lemma demo_new : New 0x101000 demo_cache demo.
Proof.
  split; [split; [cbn; unfold PAGE_SIZE, sizeof_slab; lia|done..]|done|done|done|].
  split; [vm_compute; split; congruence|vm_compute; split; congruence|vm_compute; congruence|vm_compute; reflexivity].
Qed.

Lemma slab_cache_refines_stack_witness :
  run 64 0x101000 [OAlloc 0; OWrite 0x102bd0 7; OAlloc 8; OFree 0x102bd0; OAlloc 0] demo =
    Some [Some (Returned (Some 0x102bd0)); None; Some (Returned (Some 0x1027e8)); None; Some (Returned (Some 0x102bd0))] /\
  run 64 0x101000 (replicate 5 (OAlloc 0)) demo = None.
Proof.
  assert (page_address 0x101000) as Hp by (exists 0x101; unfold PAGE_SIZE; lia).
  assert (ps_alloc 1 (source demo) = Some (Some 0x102000, Memory.mk_mm 0x100000 8 5 [7] [])) as Ea by (vm_compute; reflexivity).
  split.
  - destruct (slab_cache_refines_stack 64 0x101000 Hp
      [OAlloc 0; OWrite 0x102bd0 7; OAlloc 8; OFree 0x102bd0; OAlloc 0] demo_cache demo 0x102000 _ demo_new Ea) as [-> _].
    { change (rev (objects demo_cache 0x102000)) with [0x102bd0; 0x1027e8; 0x102400; 0x102018].
      cbn. rewrite !elem_of_cons. tauto. }
    vm_compute. reflexivity.
  - destruct (slab_cache_refines_stack 64 0x101000 Hp (replicate 5 (OAlloc 0)) demo_cache demo 0x102000 _ demo_new Ea) as [-> _].
    { change (rev (objects demo_cache 0x102000)) with [0x102bd0; 0x1027e8; 0x102400; 0x102018]. done. }
    vm_compute. reflexivity.
Defined.

Lemma kmalloc_classes_witness : exists cache,
  kmalloc (P := Memory.mm) 64 (seqZ 1 13) 100 0 demo = slab_cache_alloc 64 (Some cache) 0 demo /\
  kcalloc (P := Memory.mm) 64 (seqZ 1 13) (2 ^ 31) 100 0 demo = Some (Returned None, demo).
Proof.
  destruct (kmalloc_classes (P := Memory.mm) 64 (seqZ 1 13) (2 ^ 31) 100 0 demo) as (H & _ & Hc); [done|lia|lia|].
  destruct H as (i & m & cache & _ & _ & _ & _ & E); [lia|]. exists cache. split; [exact E|]. rewrite Hc. done.
Defined.

(** [slab_cache_shrink] of a cache whose only slab has no object in use follows a null
    pointer: the slab has been put on the free list twice. *)
Theorem slab_cache_shrink_faults :
  match slab_cache_alloc 64 (Some 0x101000) 0 demo with
  | Some (Returned (Some o), s1) =>
      match slab_cache_free (Some 0x101000) (Some o) s1 with
      | Some s2 => slab_cache_shrink (Some 0x101000) s2 = None
      | None => False
      end
  | _ => False
  end.
Proof. vm_compute. reflexivity. Qed.

End SlabSpec.
