(* ===== verification/Vmm.v ===== *)
(** Virtual memory: [mm/vmm.c] with the structures of [include/horizon/vmm.h]. Two-level
    page tables in the words of memory, over a page allocator. *)

From S2P Require Import Prelude PageSource.

Module Vmm.

Definition PDE_PRESENT : Z := 1.
Definition PDE_WRITE : Z := 2.
Definition PDE_USER : Z := 4.
Definition PTE_PRESENT : Z := 1.
Definition PTE_WRITE : Z := 2.
Definition PROT_READ : Z := 1.
Definition PROT_WRITE : Z := 2.

(** ** Data *)

Record vm_context := mk_context { page_dir : Z; page_dir_phys : Z }.
Record vm_area := mk_vma { vm_start : Z; vm_end : Z; vm_flags : Z; vm_page_prot : Z }.

Section Vmm.
Context {P : Type} `{!PageSource P}.

(** The words of memory by their address, those not in the map being 0; the contexts by
    their address; the current context, 0 for none; the page directory loaded in the
    processor; and the page allocator. *)
Record state := mk_state { mem : gmap Z Z; contexts : gmap Z vm_context; current_context : Z; cr3 : Z; source : P }.

Definition with_mem (m : gmap Z Z) (s : state) : state := mk_state m (contexts s) (current_context s) (cr3 s) (source s).
Definition with_contexts (c : gmap Z vm_context) (s : state) : state := mk_state (mem s) c (current_context s) (cr3 s) (source s).
Definition with_source (p : P) (s : state) : state := mk_state (mem s) (contexts s) (current_context s) (cr3 s) p.

Definition word (s : state) (a : Z) : Z := default 0 (mem s !! a).
Definition set_word (a v : Z) (s : state) : state := with_mem (<[a := v]> (mem s)) s.

(** [entries[i]] of the directory or table at [t]. *)
Definition slot (t i : Z) : Z := t + 4 * i.

Definition page_base (a : Z) : Z := Z.land a 0xFFFFF000.
Definition pd_index (virt : Z) : Z := Z.shiftr virt 22.
Definition pt_index (virt : Z) : Z := Z.land (Z.shiftr virt 12) 0x3FF.

(** ** Single pages *)

(** [None] is a null [context]; [virt] and [phys] are null when they are 0. *)
Definition vmm_map_page (context : option Z) (virt phys flags : Z) (s : state) : option (Z * state) :=
  match context with
  | None => Some (-1, s)
  | Some context =>
      if (virt =? 0) || (phys =? 0) then Some (-1, s)
      else
        let virt := page_base virt in
        let phys := page_base phys in
        c ← contexts s !! context;
        let pde := slot (page_dir c) (pd_index virt) in
        r ← (if negb (has_flag (word s pde) PDE_PRESENT) then
               r ← ps_alloc 1 (source s);
               let s := with_source r.2 s in
               match r.1 with
               | None => Some (false, s)
               | Some table => Some (true, set_word pde (Z.lor (Z.lor (Z.lor table PDE_PRESENT) PDE_WRITE) PDE_USER) s)
               end
             else Some (true, s));
        let '(ok, s) := r in
        if negb ok then Some (-1, s)
        else
          let table := page_base (word s pde) in
          Some (0, set_word (slot table (pt_index virt)) (Z.lor phys flags) s)
  end.

Definition vmm_unmap_page (context : option Z) (virt : Z) (s : state) : option (Z * state) :=
  match context with
  | None => Some (-1, s)
  | Some context =>
      if virt =? 0 then Some (-1, s)
      else
        let virt := page_base virt in
        c ← contexts s !! context;
        let pde := word s (slot (page_dir c) (pd_index virt)) in
        if negb (has_flag pde PDE_PRESENT) then Some (-1, s)
        else
          let pte := slot (page_base pde) (pt_index virt) in
          if negb (has_flag (word s pte) PTE_PRESENT) then Some (-1, s) else Some (0, set_word pte 0 s)
  end.

(** 0 is [NULL]. *)
Definition vmm_get_phys_addr (context : option Z) (virt : Z) (s : state) : option Z :=
  match context with
  | None => Some 0
  | Some context =>
      if virt =? 0 then Some 0
      else
        c ← contexts s !! context;
        let pde := word s (slot (page_dir c) (pd_index virt)) in
        if negb (has_flag pde PDE_PRESENT) then Some 0
        else
          let pte := word s (slot (page_base pde) (pt_index virt)) in
          if negb (has_flag pte PTE_PRESENT) then Some 0 else Some (Z.lor (page_base pte) (Z.land virt 0xFFF))
  end.

(** ** Several pages *)

(** The loop that looks for a page that is mapped already, [n] pages from [virt] on. *)
Fixpoint any_mapped (n : nat) (context : option Z) (virt : Z) (s : state) : option bool :=
  match n with
  | O => Some false
  | S n =>
      p ← vmm_get_phys_addr context virt s;
      if negb (p =? 0) then Some true else any_mapped n context (u32 (virt + PAGE_SIZE)) s
  end.

(** The loop that maps: the pages mapped before one failed come with the result. *)
Fixpoint map_all (n : nat) (context : option Z) (virt phys flags : Z) (s : state) : option (nat * bool * state) :=
  match n with
  | O => Some (O, true, s)
  | S n =>
      r ← vmm_map_page context virt phys flags s;
      if r.1 <? 0 then Some (O, false, r.2)
      else
        t ← map_all n context (u32 (virt + PAGE_SIZE)) (u32 (phys + PAGE_SIZE)) flags r.2;
        let '(k, ok, s) := t in
        Some (S k, ok, s)
  end.

Fixpoint unmap_all (n : nat) (context : option Z) (virt : Z) (s : state) : option state :=
  match n with
  | O => Some s
  | S n => r ← vmm_unmap_page context virt s; unmap_all n context (u32 (virt + PAGE_SIZE)) r.2
  end.

Definition vmm_alloc_pages (context : option Z) (addr count flags : Z) (s : state) : option (Z * state) :=
  match context with
  | None => Some (0, s)
  | Some _ =>
      if count =? 0 then Some (0, s)
      else
        let addr := page_base addr in
        m ← any_mapped (Z.to_nat count) context addr s;
        if (m : bool) then Some (0, s)
        else
          r ← ps_alloc count (source s);
          let s := with_source r.2 s in
          match r.1 with
          | None => Some (0, s)
          | Some phys =>
              t ← map_all (Z.to_nat count) context addr phys flags s;
              let '(k, ok, s) := t in
              if (ok : bool) then Some (addr, s)
              else
                src ← ps_free (Some phys) count (source s);
                s ← unmap_all k context addr (with_source src s);
                Some (0, s)
          end
  end.

Fixpoint free_all (n : nat) (context : option Z) (virt : Z) (s : state) : option state :=
  match n with
  | O => Some s
  | S n =>
      phys ← vmm_get_phys_addr context virt s;
      s ← (if negb (phys =? 0) then
             r ← vmm_unmap_page context virt s;
             src ← ps_free (Some phys) 1 (source r.2);
             Some (with_source src r.2)
           else Some s);
      free_all n context (u32 (virt + PAGE_SIZE)) s
  end.

Definition vmm_free_pages (context : option Z) (addr count : Z) (s : state) : option state :=
  match context with
  | None => Some s
  | Some _ => if (addr =? 0) || (count =? 0) then Some s else free_all (Z.to_nat count) context (page_base addr) s
  end.

(** ** Contexts *)

(** [m] is what [kmalloc] returns for the structure. *)
Definition vmm_create_context (m : option Z) (s : state) : option (option Z * state) :=
  match m with
  | None => Some (None, s)
  | Some context =>
      r ← ps_alloc 1 (source s);
      let s := with_source r.2 s in
      match r.1 with
      | None => Some (None, s)
      | Some dir => Some (Some context, with_contexts (<[context := mk_context dir dir]> (contexts s)) s)
      end
  end.

Fixpoint free_tables (n : nat) (dir i : Z) (s : state) : option state :=
  match n with
  | O => Some s
  | S n =>
      let pde := word s (slot dir i) in
      s ← (if has_flag pde PDE_PRESENT then src ← ps_free (Some (page_base pde)) 1 (source s); Some (with_source src s) else Some s);
      free_tables n dir (i + 1) s
  end.

Definition vmm_destroy_context (context : option Z) (s : state) : option state :=
  match context with
  | None => Some s
  | Some context =>
      c ← contexts s !! context;
      s ← (if negb (page_dir c =? 0) then
             s ← free_tables 1024 (page_dir c) 0 s;
             src ← ps_free (Some (page_dir c)) 1 (source s);
             Some (with_source src s)
           else Some s);
      Some (with_contexts (delete context (contexts s)) s)
  end.

Definition vmm_switch_context (context : option Z) (s : state) : option state :=
  match context with
  | None => Some s
  | Some context => c ← contexts s !! context; Some (mk_state (mem s) (contexts s) context (page_dir_phys c) (source s))
  end.

(** The loops of [vmm_init]; what [vmm_map_page] returns is not looked at. *)
Fixpoint map_range (n : nat) (context : option Z) (base i : Z) (s : state) : option state :=
  match n with
  | O => Some s
  | S n =>
      r ← vmm_map_page context (base + i) i (Z.lor PTE_PRESENT PTE_WRITE) s;
      map_range n context base (i + PAGE_SIZE) r.2
  end.

(** The kernel's context, or [None] for a panic. *)
Definition vmm_init (m : option Z) (s : state) : option (option Z * state) :=
  r ← vmm_create_context m s;
  match r.1 with
  | None => Some (None, r.2)
  | Some context =>
      s ← map_range 1024 (Some context) 0 0 r.2;
      s ← map_range 1024 (Some context) 0xC0000000 0 s;
      s ← vmm_switch_context (Some context) s;
      Some (Some context, s)
  end.

(** ** Areas *)

Definition vmm_find_vma (context : option Z) (addr : Z) : option vm_area := None.

(** [m] says whether [kmalloc] delivers memory. *)
Definition vmm_create_vma (context : option Z) (addr size flags : Z) (m : bool) : option vm_area :=
  if bool_decide (context = None) || (addr =? 0) || (size =? 0) || negb m then None
  else
    let prot := if has_flag flags PROT_READ then PTE_PRESENT else 0 in
    let prot := if has_flag flags PROT_WRITE then Z.lor prot PTE_WRITE else prot in
    Some (mk_vma addr (u32 (addr + size)) flags prot).

Definition vmm_destroy_vma (context : option Z) (vma : option vm_area) : Z :=
  match context, vma with Some _, Some _ => 0 | _, _ => -1 end.

(** [None] in the result is a panic. *)
Definition vmm_handle_page_fault (addr error_code : Z) (s : state) : option (option state) :=
  if current_context s =? 0 then Some None
  else
    let context := Some (current_context s) in
    match vmm_find_vma context addr with
    | None => Some None
    | Some vma =>
        if has_flag error_code 2 && negb (has_flag (vm_flags vma) PROT_WRITE) then Some None
        else
          r ← ps_alloc 1 (source s);
          let s := with_source r.2 s in
          match r.1 with
          | None => Some None
          | Some page =>
              t ← vmm_map_page context (page_base addr) page (vm_page_prot vma) s;
              if t.1 <? 0 then src ← ps_free (Some page) 1 (source t.2); Some None else Some (Some t.2)
          end
    end.
End Vmm.

Arguments state : clear implicits.
End Vmm.
