(* ===== verification/VmmSpec.v ===== *)
(** What the page tables of [mm/vmm.c] do: a context is a finite map from pages to entries. *)

From S2P Require Import Prelude PageSource Memory Vmm.

Module VmmSpec.
Import Vmm.

(** ** Addresses *)

Lemma land_page_mask a : 0 <= a < 2 ^ 32 -> page_base a = a / PAGE_SIZE * PAGE_SIZE.
Proof.
  intros Ha. unfold page_base, PAGE_SIZE. change 0xFFFFF000 with (Z.ldiff (Z.ones 32) (Z.ones 12)).
  replace (Z.land a (Z.ldiff (Z.ones 32) (Z.ones 12))) with (Z.ldiff (Z.land a (Z.ones 32)) (Z.ones 12)).
  - rewrite Z.land_ones, Z.mod_small, Z.ldiff_ones_r, Z.shiftr_div_pow2, Z.shiftl_mul_pow2 by lia. done.
  - apply Z.bits_inj'. intros n Hn. rewrite Z.land_spec, !Z.ldiff_spec, Z.land_spec. by rewrite andb_assoc.
Qed.

Lemma lor_page p f : 0 <= f < PAGE_SIZE -> Z.lor (p * PAGE_SIZE) f = p * PAGE_SIZE + f.
Proof.
  intros Hf. unfold PAGE_SIZE in *. assert (Z.land (p * 4096) f = 0) as H0.
  { apply Z.bits_inj'. intros n Hn. rewrite Z.land_spec, Z.bits_0. change 4096 with (2 ^ 12).
    destruct (decide (n < 12)).
    - by rewrite Z.mul_pow2_bits_low.
    - replace f with (f mod 2 ^ 12) by (apply Z.mod_small; lia). rewrite Z.mod_pow2_bits_high by lia. apply andb_false_r. }
  rewrite <-Z.lxor_lor, Z.add_nocarry_lxor by done. done.
Qed.

Lemma page_base_entry p f : 0 <= p -> (p + 1) * PAGE_SIZE <= 2 ^ 32 -> 0 <= f < PAGE_SIZE ->
  page_base (p * PAGE_SIZE + f) = p * PAGE_SIZE.
Proof.
  intros Hp Hp2 Hf. rewrite land_page_mask by (unfold PAGE_SIZE in *; lia). unfold PAGE_SIZE in *.
  rewrite Z.add_comm, Z.div_add, (Z.div_small f) by lia. done.
Qed.

Lemma has_flag_1 x : has_flag x 1 = Z.odd x.
Proof. change 1 with (BIT 0). rewrite has_flag_BIT by lia. apply Z.bit0_odd. Qed.

Lemma odd_entry p f : Z.odd (p * PAGE_SIZE + f) = Z.odd f.
Proof. unfold PAGE_SIZE. rewrite Z.odd_add, Z.odd_mul. change (Z.odd 4096) with false. by rewrite andb_false_r, xorb_false_l. Qed.

(** The page number of an address, and its indices. *)
Definition vpn (virt : Z) : Z := virt / PAGE_SIZE.

Lemma indices virt : 0 <= virt < 2 ^ 32 ->
  pd_index virt = vpn virt / 1024 /\ pt_index virt = vpn virt mod 1024 /\ 0 <= vpn virt < 2 ^ 20.
Proof.
  intros Hv. unfold pd_index, pt_index, vpn, PAGE_SIZE. rewrite !Z.shiftr_div_pow2 by lia.
  change 0x3FF with (Z.ones 10). rewrite Z.land_ones by lia. split_and!.
  - rewrite Z.div_div by lia. done.
  - done.
  - apply Z.div_pos; lia.
  - apply Z.div_lt_upper_bound; lia.
Qed.

Lemma page_base_vpn virt : 0 <= virt < 2 ^ 32 -> 0 <= page_base virt < 2 ^ 32 /\ vpn (page_base virt) = vpn virt.
Proof.
  intros Hv. rewrite land_page_mask by done. unfold vpn, PAGE_SIZE. rewrite Z.div_mul by lia.
  pose proof (Z.mul_div_le virt 4096 ltac:(lia)). pose proof (Z.div_pos virt 4096 ltac:(lia) ltac:(lia)). lia.
Qed.

(** ** The tables as a map *)

Section Tables.
Context {P : Type} `{!PageSource P} `{!PageSourceLaws P}.
Context (context dir_page : Z).
Notation dir := (dir_page * PAGE_SIZE).
Implicit Types (s : state P).

Lemma word_set s a v b : word (set_word a v s) b = if decide (b = a) then v else word s b.
Proof.
  unfold word, set_word. cbn [mem with_mem]. case_decide; subst; [by rewrite lookup_insert_eq|by rewrite lookup_insert_ne].
Qed.

(** The directory entry of index [i]. *)
Definition pde s (i : Z) : Z := word s (slot dir i).

(** The entry of page [v] of the address space. *)
Definition entry s (v : Z) : option Z :=
  let d := pde s (v / 1024) in
  if has_flag d PDE_PRESENT then
    let e := word s (slot (page_base d) (v mod 1024)) in
    if has_flag e PTE_PRESENT then Some e else None
  else None.

(** The pages the allocator may hand out, and those in [R], which it has handed out and
    nobody has written to yet. *)
Definition unused (R : gset Z) s : gset Z := ps_avail (source s) ∪ R.

Lemma avail_unused R s p : p ∈ ps_avail (source s) -> p ∈ unused R s.
Proof. unfold unused. set_solver. Qed.

(** A page with a table: not the directory, and not an unused page. *)
Definition table_page R s (t : Z) : Prop := 0 <= t /\ (t + 1) * PAGE_SIZE <= 2 ^ 32 /\ t <> dir_page /\ t ∉ unused R s.

(** The directory and the tables are pages of their own. *)
Record Tables (R : gset Z) s : Prop := {
  t_context : contexts s !! context = Some (mk_context dir dir);
  t_source : ps_ok (source s);
  t_dir : 0 < dir_page /\ (dir_page + 1) * PAGE_SIZE <= 2 ^ 32 /\ dir_page ∉ unused R s;
  t_apart_R : R ## ps_avail (source s);
  t_pde : forall i, 0 <= i < 1024 -> has_flag (pde s i) PDE_PRESENT = true ->
    exists t, pde s i = t * PAGE_SIZE + 7 /\ table_page R s t;
  t_apart : forall i j, 0 <= i < 1024 -> 0 <= j < 1024 -> has_flag (pde s i) PDE_PRESENT = true -> pde s i = pde s j -> i = j }.

(** What page [t] holds for page [v] of the address space once it has become its table. *)
Definition stale s (t v : Z) : option Z :=
  let e := word s (slot (t * PAGE_SIZE) (v mod 1024)) in if has_flag e PTE_PRESENT then Some e else None.

(** There is no table for page [v]. *)
Definition absent s (v : Z) : Prop := has_flag (pde s (v / 1024)) PDE_PRESENT = false.

(** Pages stay as they are until they are handed out, and tables stay. *)
Record grows s s' : Prop := {
  gr_avail : ps_avail (source s') ⊆ ps_avail (source s);
  gr_words : forall p j, p ∈ ps_avail (source s') -> 0 <= j < 1024 -> word s' (slot (p * PAGE_SIZE) j) = word s (slot (p * PAGE_SIZE) j);
  gr_pde : forall i, 0 <= i < 1024 -> has_flag (pde s i) PDE_PRESENT = true -> pde s' i = pde s i }.

Lemma grows_refl s : grows s s.
Proof. by split. Qed.

Lemma grows_trans s1 s2 s3 : grows s1 s2 -> grows s2 s3 -> grows s1 s3.
Proof.
  intros [A1 W1 P1] [A2 W2 P2]. split; [by etrans| |].
  - intros p j Hp Hj. rewrite W2 by done. apply W1; [by apply A2|done].
  - intros i Hi Hf. rewrite P2; [by apply P1|done|by rewrite P1].
Qed.

Lemma group_range v : 0 <= v < 2 ^ 20 -> 0 <= v / 1024 < 1024.
Proof. intros Hv. split; [apply Z.div_pos; lia|apply Z.div_lt_upper_bound; lia]. Qed.

Lemma stale_grows s s' t v : grows s s' -> t ∈ ps_avail (source s') -> stale s' t v = stale s t v.
Proof. intros HG Ht. unfold stale. rewrite (gr_words s s' HG); [done|done|]. apply Z.mod_pos_bound. lia. Qed.

Lemma absent_grows s s' v : grows s s' -> 0 <= v < 2 ^ 20 -> absent s' v -> absent s v.
Proof.
  intros HG Hv Ha. unfold absent in *. destruct (has_flag (pde s (v / 1024)) PDE_PRESENT) eqn:E; [|done]. rewrite (gr_pde s s' HG) in Ha; [congruence|by apply group_range|done].
Qed.

Lemma absent_entry s v : absent s v -> entry s v = None.
Proof. unfold absent, entry. by intros ->. Qed.

(** Page [v] has the entry it had or, if it had no table, what was in a page that became
    one. *)
Definition kept s s' (v : Z) : Prop := entry s' v = entry s v \/ absent s v /\ exists t, t ∈ ps_avail (source s) /\ entry s' v = stale s t v.

Lemma entry_kept_trans s1 s2 s3 v : grows s1 s2 -> 0 <= v < 2 ^ 20 -> kept s1 s2 v -> kept s2 s3 v -> kept s1 s3 v.
Proof.
  intros HG Hv H1 [E|(Ha & t & Ht & E)].
  - destruct H1 as [E1|(Ha & t & Ht & E1)]; [left; congruence|right]. split; [done|]. exists t. by rewrite E.
  - right. split; [by eapply absent_grows|]. exists t. split; [by apply (gr_avail s1 s2 HG)|]. by rewrite E, (stale_grows s1 s2).
Qed.

Lemma kept_mapped s s' v e : kept s s' v -> entry s v = Some e -> entry s' v = Some e.
Proof. intros [E|[Ha _]] He; [congruence|]. by rewrite absent_entry in He. Qed.

(** When the pages that may be handed out are zero, nothing stale turns up. *)
Definition zeroed s : Prop := forall p j, p ∈ ps_avail (source s) -> 0 <= j < 1024 -> word s (slot (p * PAGE_SIZE) j) = 0.

Lemma stale_zeroed s t v : zeroed s -> t ∈ ps_avail (source s) -> stale s t v = None.
Proof. intros Hz Ht. unfold stale. rewrite Hz; [done|done|]. apply Z.mod_pos_bound. lia. Qed.

Lemma kept_zeroed s s' v : zeroed s -> kept s s' v -> entry s' v = entry s v.
Proof. intros Hz [E|(Ha & t & Ht & E)]; [done|]. by rewrite E, stale_zeroed, absent_entry. Qed.

Lemma slot_inj p q i j : 0 <= i < 1024 -> 0 <= j < 1024 -> slot (p * PAGE_SIZE) i = slot (q * PAGE_SIZE) j -> p = q /\ i = j.
Proof. unfold slot, PAGE_SIZE. lia. Qed.

Lemma pde_table R s i : Tables R s -> 0 <= i < 1024 -> has_flag (pde s i) PDE_PRESENT = true ->
  exists t, page_base (pde s i) = t * PAGE_SIZE /\ pde s i = t * PAGE_SIZE + 7 /\ table_page R s t.
Proof.
  intros HT Hi Hd. destruct (t_pde R s HT i Hi Hd) as (t & E & Ht). exists t. split; [|done].
  rewrite E. apply page_base_entry; [apply Ht|apply Ht|unfold PAGE_SIZE; lia].
Qed.

(** ** Storing an entry *)

(** An entry written to the table of directory index [i]. *)
Lemma put_entry_word_ok R s i k e t : Tables R s -> 0 <= i < 1024 -> 0 <= k < 1024 -> pde s i = t * PAGE_SIZE + 7 -> table_page R s t ->
  let s' := set_word (slot (t * PAGE_SIZE) k) e s in
  Tables R s' /\ grows s s' /\ forall v, 0 <= v < 2 ^ 20 ->
    entry s' v = if decide (v = 1024 * i + k) then (if has_flag e PTE_PRESENT then Some e else None) else entry s v.
Proof.
  intros HT Hi Hk Et Ht s'. assert (has_flag (pde s i) PDE_PRESENT = true) as Hpres.
  { unfold PDE_PRESENT. rewrite Et, has_flag_1, odd_entry. done. }
  assert (forall j, 0 <= j < 1024 -> pde s' j = pde s j) as Hpde.
  { intros j Hj. unfold pde, s'. rewrite word_set. rewrite decide_False; [done|].
    intros [E _]%slot_inj; [|done..]. destruct Ht as (_ & _ & Hd & _). congruence. }
  split; [|split].
  - destruct HT as [Hc Hs Hd HR Hp Ha]. split; try done.
    + intros j Hj. rewrite Hpde by done. apply Hp. done.
    + intros j1 j2 H1 H2. rewrite !Hpde by done. by apply Ha.
  - split; [done| |intros j Hj _; by apply Hpde]. intros p j Hpa Hj. unfold s'. rewrite word_set, decide_False; [done|].
    intros [E _]%slot_inj; [|done..]. subst. destruct Ht as (_ & _ & _ & Hn). by apply Hn, avail_unused.
  - intros v Hv. unfold entry. assert (0 <= v / 1024 < 1024) as Hvi
      by (split; [apply Z.div_pos; lia|apply Z.div_lt_upper_bound; lia]).
    pose proof (Z.mod_pos_bound v 1024 ltac:(lia)) as Hvk. pose proof (Z.div_mod v 1024 ltac:(lia)) as Hvv.
    rewrite Hpde by done. destruct (has_flag (pde s (v / 1024)) PDE_PRESENT) eqn:Hf.
    + destruct (pde_table R s (v / 1024) HT Hvi Hf) as (t' & Eb & Et' & Ht'). rewrite Eb. unfold s'. rewrite word_set.
      destruct (decide (v = 1024 * i + k)) as [->|Hne].
      * assert ((1024 * i + k) / 1024 = i /\ (1024 * i + k) mod 1024 = k) as [E1 E2] by lia.
        rewrite E1, E2 in *. assert (t' = t) as -> by (unfold PAGE_SIZE in *; lia). by rewrite decide_True.
      * rewrite decide_False; [done|]. intros [-> Ek]%slot_inj; [|lia..].
        assert (v / 1024 = i) by (apply (t_apart R s HT); [done..|congruence]). lia.
    + rewrite decide_False; [done|]. intros ->. replace ((1024 * i + k) / 1024) with i in Hf by lia. congruence.
Qed.

(** A new table: the pages it is for have the entries that the page holds. *)
Lemma add_table_ok R s i t src : Tables R s -> 0 <= i < 1024 -> has_flag (pde s i) PDE_PRESENT = false ->
  0 <= t -> (t + 1) * PAGE_SIZE <= 2 ^ 32 -> t ∈ ps_avail (source s) -> ps_ok src -> ps_avail src = ps_avail (source s) ∖ {[ t ]} ->
  let s' := set_word (slot dir i) (t * PAGE_SIZE + 7) (with_source src s) in
  Tables R s' /\ pde s' i = t * PAGE_SIZE + 7 /\ table_page R s' t /\ grows s s' /\ forall v, 0 <= v < 2 ^ 20 -> entry s' v = if decide (v / 1024 = i) then stale s t v else entry s v.
Proof.
  intros HT Hi Hf Ht0 Ht1 Hav Hok Hsrc s'. pose proof HT as [Hc Hs (Hd0 & Hd1 & Hd2) HR Hp Ha].
  assert (t ∈ unused R s) as Htu by (unfold unused; apply elem_of_union; auto). assert (t <> dir_page) as Hne by (intros ->; done).
  assert (forall p, p ∈ unused R s' <-> p ∈ unused R s /\ p <> t) as Hun.
  { intros p. unfold unused. cbn [s' set_word with_mem source with_source]. rewrite Hsrc.
    rewrite !elem_of_union, elem_of_difference, elem_of_singleton. assert (t ∉ R) by (intros ?; by apply (HR t)).
    destruct (decide (p = t)); subst; tauto. }
  assert (forall j, 0 <= j < 1024 -> pde s' j = if decide (j = i) then t * PAGE_SIZE + 7 else pde s j) as Hpde.
  { intros j Hj. unfold pde, s'. rewrite word_set. unfold word. cbn [mem with_source]. repeat case_decide; try done.
    - unfold slot, PAGE_SIZE in *. lia.
    - by subst. }
  assert (forall p j, p <> dir_page -> 0 <= j < 1024 -> word s' (slot (p * PAGE_SIZE) j) = word s (slot (p * PAGE_SIZE) j)) as Hword.
  { intros p j Hp' Hj. unfold s'. rewrite word_set, decide_False; [done|]. by intros [-> _]%slot_inj. }
  assert (forall t', table_page R s t' -> table_page R s' t' /\ t' <> t) as Htab.
  { intros t' (? & ? & ? & Hna). split; [split_and!; try done|by intros ->]. rewrite Hun. tauto. }
  assert (table_page R s' t) as Htt by (split_and!; [done..|]; rewrite Hun; tauto).
  split; [|split; [by rewrite Hpde, decide_True|split; [done|split]]].
  - split; cbn [s' set_word with_mem source with_source contexts]; fold s'; try done.
    + split_and!; [done..|]. rewrite Hun. tauto.
    + rewrite Hsrc. set_solver.
    + intros j Hj. rewrite Hpde by done. case_decide; [eauto|]. intros Hf'.
      destruct (Hp j Hj Hf') as (t' & E & Ht'). exists t'. split; [done|]. by apply Htab.
    + intros j1 j2 H1 H2. rewrite !Hpde by done. repeat case_decide; subst; try done.
      * intros _ E. destruct (Hp j2 H2) as (t' & E' & Ht'); [rewrite <-E; unfold PDE_PRESENT; by rewrite has_flag_1, odd_entry|].
        destruct (Htab t' Ht') as [_ []]. unfold PAGE_SIZE in *. lia.
      * intros Hf' E. destruct (Hp j1 H1 Hf') as (t' & E' & Ht'). destruct (Htab t' Ht') as [_ []]. unfold PAGE_SIZE in *. lia.
      * by apply Ha.
  - assert (ps_avail (source s') = ps_avail (source s) ∖ {[ t ]}) as Hav' by exact Hsrc. split; [rewrite Hav'; set_solver| |].
    + intros p j Hpa Hj. apply Hword; [|done]. intros ->. apply Hd2, avail_unused. rewrite Hav' in Hpa. set_solver.
    + intros j Hj Hf'. rewrite Hpde by done. rewrite decide_False; [done|]. intros ->. congruence.
  - intros v Hv. unfold entry. assert (0 <= v / 1024 < 1024) as Hvi
      by (split; [apply Z.div_pos; lia|apply Z.div_lt_upper_bound; lia]).
    pose proof (Z.mod_pos_bound v 1024 ltac:(lia)) as Hvk. rewrite Hpde by done. case_decide as E.
    + assert (has_flag (t * PAGE_SIZE + 7) PDE_PRESENT = true) as -> by (unfold PDE_PRESENT; by rewrite has_flag_1, odd_entry). rewrite page_base_entry by (done || unfold PAGE_SIZE; lia). by rewrite Hword by done.
    + destruct (has_flag (pde s (v / 1024)) PDE_PRESENT) eqn:Hf'; [|done].
      destruct (pde_table R s _ HT Hvi Hf') as (t' & -> & _ & Ht'). rewrite Hword; [done|apply Ht'|done].
Qed.
(** ** The operations *)

(** The entry for frame [phys] with [flags], if it is present. *)
Definition new_entry (phys flags : Z) : option Z :=
  if Z.odd flags then Some (page_base phys + flags) else None.

Lemma lor_base phys flags : 0 <= phys < 2 ^ 32 -> 0 <= flags < PAGE_SIZE ->
  Z.lor (page_base phys) flags = page_base phys + flags /\ has_flag (page_base phys + flags) PTE_PRESENT = Z.odd flags.
Proof.
  intros Hp Hf. rewrite land_page_mask by done. rewrite lor_page by done. split; [done|].
  unfold PTE_PRESENT. by rewrite has_flag_1, odd_entry.
Qed.

(** The table made for [virt], if one was made, and the entries before [virt] is mapped. *)
Definition new_table s (virt : Z) (o : option Z) : Prop := match o with Some t => t ∈ ps_avail (source s) /\ absent s (vpn virt) | None => True end.
Definition entry_with s (virt : Z) (o : option Z) (v : Z) : option Z :=
  match o with Some t => if decide (v / 1024 = vpn virt / 1024) then stale s t v else entry s v | None => entry s v end.

Lemma entry_with_kept s s' virt o v : new_table s virt o -> entry s' v = entry_with s virt o v -> kept s s' v.
Proof.
  intros Ho E. unfold kept. rewrite E. destruct o as [t|]; [|by left]. destruct Ho as [Ht Ha]. cbn. case_decide as Hd; [|by left]. right. unfold absent in *. rewrite Hd. split; [done|]. by exists t.
Qed.

Lemma vmm_map_page_ok R s virt phys flags : Tables R s -> 0 < virt < 2 ^ 32 -> 0 < phys < 2 ^ 32 -> 0 <= flags < PAGE_SIZE ->
  exists r s', vmm_map_page (Some context) virt phys flags s = Some (r, s') /\ Tables R s' /\ ps_all (source s') = ps_all (source s) /\ grows s s' /\
    ((r = 0 /\ exists o, new_table s virt o /\ forall v, 0 <= v < 2 ^ 20 -> entry s' v = if decide (v = vpn virt) then new_entry phys flags else entry_with s virt o v) \/
     (r = -1 /\ s' = s /\ ps_alloc 1 (source s) = Some (None, source s))).
Proof.
  intros HT Hv Hp Hf. unfold vmm_map_page. rewrite (proj2 (Z.eqb_neq virt 0)), (proj2 (Z.eqb_neq phys 0)) by lia. cbn [orb].
  destruct (page_base_vpn virt) as [Hvb Hvn]; [lia|]. destruct (indices (page_base virt) Hvb) as (-> & -> & Hr). rewrite Hvn in *.
  set (i := vpn virt / 1024). set (k := vpn virt mod 1024).
  assert (0 <= i < 1024) as Hi by (split; [apply Z.div_pos; lia|apply Z.div_lt_upper_bound; lia]).
  assert (0 <= k < 1024) as Hk by (apply Z.mod_pos_bound; lia).
  assert (vpn virt = 1024 * i + k) as Hik by (apply Z.div_mod; lia).
  destruct (lor_base phys flags) as [-> Hodd]; [lia|done|].
  rewrite (t_context R s HT), bind_Some_l. cbn [page_dir]. fold (pde s i).
  assert (forall s1 t o, Tables R s1 -> grows s s1 -> pde s1 i = t * PAGE_SIZE + 7 -> table_page R s1 t ->
    (forall v, 0 <= v < 2 ^ 20 -> entry s1 v = entry_with s virt o v) ->
    let s' := set_word (slot (page_base (pde s1 i)) k) (page_base phys + flags) s1 in
    Tables R s' /\ grows s s' /\ forall v, 0 <= v < 2 ^ 20 -> entry s' v = if decide (v = vpn virt) then new_entry phys flags else entry_with s virt o v) as Hput.
  { intros s1 t o HT1 HG1 E1 Ht Heq s'. subst s'. rewrite E1, page_base_entry by (try apply Ht; unfold PAGE_SIZE; lia).
    destruct (put_entry_word_ok R s1 i k (page_base phys + flags) t HT1 Hi Hk E1 Ht) as (HT2 & HG2 & Hent). split; [done|]. split; [by eapply grows_trans|].
    intros v Hvr. rewrite Hent, Hik, Hodd by done. case_decide; [done|]. by apply Heq. }
  destruct (has_flag (pde s i) PDE_PRESENT) eqn:Hpr; cbn [negb].
  - rewrite bind_Some_l. cbn [negb]. fold (pde s i). destruct (t_pde R s HT i Hi Hpr) as (t & Et & Ht).
    destruct (Hput s t None HT (grows_refl s) Et Ht) as (HT' & HG' & Hent); [done|]. eexists 0, _. split; [done|]. split; [done|]. split; [done|]. split; [done|]. left. split; [done|]. by exists None.
  - destruct (ps_alloc_ok 1 (source s) (t_source R s HT)) as (r & src & Ea & Hok & Hall & Hr'); [lia|].
    rewrite Ea, bind_Some_l. cbn [fst snd]. destruct r as [a|].
    + destruct Hr' as (t & -> & _ & Ht0 & Ht1 & Hsub & Hset). rewrite pages_1 in Hsub, Hset.
      destruct (add_table_ok R s i t src HT Hi Hpr) as (HT1 & E1 & Ht & HG1 & Heq); [lia|done|set_solver|done|done|].
      rewrite <-!Z.lor_assoc. change (Z.lor PDE_PRESENT (Z.lor PDE_WRITE PDE_USER)) with 7.
      rewrite lor_page by (unfold PAGE_SIZE; lia). rewrite bind_Some_l. cbn [negb].
      set (s1 := set_word (slot dir i) (t * PAGE_SIZE + 7) (with_source src s)) in *. fold (pde s1 i).
      destruct (Hput s1 t (Some t) HT1 HG1 E1 Ht Heq) as (HT' & HG' & Hent). eexists 0, _. split; [done|]. split; [done|]. split; [done|]. split; [done|]. left. split; [done|].
      exists (Some t). split; [|done]. split; [set_solver|done].
    + subst src. rewrite bind_Some_l. cbn [negb]. exists (-1), s. destruct s. split; [done|]. split; [done|]. split; [done|]. split; [apply grows_refl|]. by right.
Qed.

Lemma vmm_unmap_page_ok R s virt : Tables R s -> 0 < virt < 2 ^ 32 ->
  exists r s', vmm_unmap_page (Some context) virt s = Some (r, s') /\ Tables R s' /\ source s' = source s /\ grows s s' /\
    r = (if entry s (vpn virt) then 0 else -1) /\
    forall v, 0 <= v < 2 ^ 20 -> entry s' v = if decide (v = vpn virt) then None else entry s v.
Proof.
  intros HT Hv. unfold vmm_unmap_page. rewrite (proj2 (Z.eqb_neq virt 0)) by lia.
  destruct (page_base_vpn virt) as [Hvb Hvn]; [lia|]. destruct (indices (page_base virt) Hvb) as (-> & -> & Hr). rewrite Hvn in *.
  assert (entry s (vpn virt) = None -> forall v, 0 <= v < 2 ^ 20 -> entry s v = if decide (v = vpn virt) then None else entry s v) as Hnone.
  { intros E v _. case_decide; congruence. }
  rewrite (t_context R s HT), bind_Some_l. cbn [page_dir].
  set (i := vpn virt / 1024) in *. set (k := vpn virt mod 1024) in *. fold (pde s i).
  assert (0 <= i < 1024) as Hi by (split; [apply Z.div_pos; lia|apply Z.div_lt_upper_bound; lia]).
  assert (0 <= k < 1024) as Hk by (apply Z.mod_pos_bound; lia).
  assert (vpn virt = 1024 * i + k) as Hik by (apply Z.div_mod; lia).
  assert (entry s (vpn virt) = if has_flag (pde s i) PDE_PRESENT then
    (let e := word s (slot (page_base (pde s i)) k) in if has_flag e PTE_PRESENT then Some e else None) else None) as Hent by done.
  destruct (has_flag (pde s i) PDE_PRESENT) eqn:Hpr; cbn [negb].
  2:{ exists (-1), s. rewrite Hent. split_and!; [done|done|done|apply grows_refl|done|by apply Hnone]. }
  cbv zeta in Hent. destruct (has_flag (word s (slot (page_base (pde s i)) k)) PTE_PRESENT) eqn:Hpt; cbn [negb].
  2:{ exists (-1), s. rewrite Hent. split_and!; [done|done|done|apply grows_refl|done|by apply Hnone]. }
  destruct (pde_table R s i HT Hi Hpr) as (t & -> & Et & Ht).
  destruct (put_entry_word_ok R s i k 0 t HT Hi Hk Et Ht) as (HT' & HG' & Hent'). eexists 0, _. split; [done|]. split; [done|]. split; [done|]. split; [done|].
  rewrite Hent. split; [done|]. intros v Hvr. rewrite Hent', Hik by done. by repeat case_decide.
Qed.

Lemma vmm_get_phys_addr_ok R s virt : Tables R s -> 0 < virt < 2 ^ 32 ->
  vmm_get_phys_addr (Some context) virt s =
    Some (match entry s (vpn virt) with Some e => Z.lor (page_base e) (virt mod PAGE_SIZE) | None => 0 end).
Proof.
  intros HT Hv. unfold vmm_get_phys_addr. rewrite (proj2 (Z.eqb_neq virt 0)) by lia.
  destruct (indices virt) as (-> & -> & Hr); [lia|]. rewrite (t_context R s HT), bind_Some_l. cbn [page_dir]. unfold entry.
  fold (pde s (vpn virt / 1024)). destruct (has_flag (pde s (vpn virt / 1024)) PDE_PRESENT); cbn [negb]; [|done].
  destruct (has_flag (word s _) PTE_PRESENT); cbn [negb]; [|done].
  change 0xFFF with (Z.ones 12). by rewrite Z.land_ones.
Qed.

(** ** Ranges of pages *)

Lemma tables_source R R' s src : Tables R s -> ps_ok src -> unused R' (with_source src s) ⊆ unused R s -> R' ## ps_avail src ->
  Tables R' (with_source src s).
Proof.
  intros [Hc Hs (Hd0 & Hd1 & Hd2) HR Hp Ha] Hok Hun HR'. split; try done.
  - split_and!; [done..|]. intros Hin. by apply Hd2, Hun.
  - intros i Hi Hf. destruct (Hp i Hi Hf) as (t & E & (? & ? & ? & Hn)). exists t. split; [done|]. split_and!; [done..|].
    intros Hin. by apply Hn, Hun.
Qed.

Lemma next_page V n : 0 <= V -> V + 1 + Z.of_nat (S n) <= 2 ^ 20 -> u32 (V * PAGE_SIZE + PAGE_SIZE) = (V + 1) * PAGE_SIZE.
Proof. intros HV Hn. unfold PAGE_SIZE. rewrite u32_small; lia. Qed.

Lemma vpn_page V : vpn (V * PAGE_SIZE) = V.
Proof. apply Z.div_mul. done. Qed.

Lemma page_virt V n : 0 < V -> V + Z.of_nat (S n) <= 2 ^ 20 -> 0 < V * PAGE_SIZE < 2 ^ 32.
Proof. unfold PAGE_SIZE. lia. Qed.

(** Frame 0 is not mapped: its address is the null pointer that stands for no mapping. *)
Definition no_frame_0 s : Prop := forall v e, 0 <= v < 2 ^ 20 -> entry s v = Some e -> page_base e <> 0.

Lemma any_mapped_ok R n V s : Tables R s -> no_frame_0 s -> 0 < V -> V + Z.of_nat n <= 2 ^ 20 ->
  exists b, any_mapped n (Some context) (V * PAGE_SIZE) s = Some b /\
    (b = false -> forall v, V <= v < V + Z.of_nat n -> entry s v = None).
Proof.
  intros HT H0. revert V. induction n as [|n IH]; intros V HV Hn; cbn [any_mapped].
  { exists false. split; [done|]. lia. }
  rewrite (vmm_get_phys_addr_ok R s _ HT) by (eapply page_virt; eassumption).
  rewrite bind_Some_l, vpn_page, Z.mod_mul by done. destruct (entry s V) as [e|] eqn:Ee.
  - rewrite Z.lor_0_r, (proj2 (Z.eqb_neq _ 0)) by (apply (H0 V); [lia|done]). by exists true.
  - cbn [negb Z.eqb]. destruct n as [|n].
    + exists false. split; [done|]. intros _ v Hv. by replace v with V by lia.
    + rewrite (next_page V n) by lia. destruct (IH (V + 1)) as (b & Eb & Hb); [lia..|]. exists b. split; [done|].
      intros -> v Hv. destruct (decide (v = V)) as [->|]; [done|]. apply Hb; [done|lia].
Qed.

Lemma map_all_ok R n V p flags s : Tables R s -> 0 < V -> V + Z.of_nat n <= 2 ^ 20 -> 0 < p -> (p + Z.of_nat n) * PAGE_SIZE <= 2 ^ 32 ->
  0 <= flags < PAGE_SIZE -> Z.odd flags = true ->
  exists k ok s', map_all n (Some context) (V * PAGE_SIZE) (p * PAGE_SIZE) flags s = Some (k, ok, s') /\ Tables R s' /\
    ps_all (source s') = ps_all (source s) /\ grows s s' /\ (k <= n)%nat /\ (ok = true -> k = n) /\
    forall v, 0 <= v < 2 ^ 20 -> if decide (V <= v < V + Z.of_nat k) then entry s' v = Some ((p + (v - V)) * PAGE_SIZE + flags) else kept s s' v.
Proof.
  intros HT HV Hn Hp Hpn Hf Hodd. revert V p s HT HV Hn Hp Hpn. induction n as [|n IH]; intros V p s HT HV Hn Hp Hpn; cbn [map_all].
  { exists O, true, s. split_and!; try done. intros v Hv. rewrite decide_False by lia. by left. }
  destruct (vmm_map_page_ok R s (V * PAGE_SIZE) (p * PAGE_SIZE) flags HT) as (r & s1 & -> & HT1 & Hall & HG1 & Hcase);
    [by eapply page_virt|unfold PAGE_SIZE in *; lia|done|].
  rewrite bind_Some_l. cbn [fst snd]. destruct Hcase as [(-> & o & Ho & He)|(-> & -> & _)].
  2:{ exists O, false, s. split_and!; try done; [lia|]. intros v Hv. rewrite decide_False by lia. by left. }
  cbn [Z.ltb Z.compare]. rewrite vpn_page in He. unfold new_entry in He. rewrite Hodd in He.
  replace (page_base (p * PAGE_SIZE)) with (p * PAGE_SIZE) in He.
  2:{ rewrite <-(Z.add_0_r (p * PAGE_SIZE)) at 2. rewrite page_base_entry; unfold PAGE_SIZE in *; lia. }
  assert (forall v, 0 <= v < 2 ^ 20 -> v <> V -> kept s s1 v) as Hkept.
  { intros v Hv Hne. apply (entry_with_kept s s1 (V * PAGE_SIZE) o v Ho). by rewrite He, decide_False. }
  destruct n as [|n].
  - exists 1%nat, true, s1. split_and!; try done. intros v Hv. case_decide; [|apply Hkept; lia]. rewrite He, decide_True by lia. do 3 f_equal. lia.
  - rewrite (next_page V n) by lia. replace (u32 (p * PAGE_SIZE + PAGE_SIZE)) with ((p + 1) * PAGE_SIZE)
      by (unfold PAGE_SIZE in *; rewrite u32_small; lia).
    destruct (IH (V + 1) (p + 1) s1) as (k & ok & s' & -> & HT' & Hall' & HG' & Hk & Hok & Hent); [done|lia..|].
    rewrite bind_Some_l. exists (S k), ok, s'. split_and!; try done; [congruence|by eapply grows_trans|lia|intros ?; f_equal; auto|].
    intros v Hv. specialize (Hent v Hv). destruct (decide (v = V)) as [->|Hne].
    + rewrite decide_False in Hent by lia. rewrite decide_True by lia. replace (p + (V - V)) with p by lia. apply (kept_mapped s1); [done|]. by rewrite He, decide_True.
    + repeat case_decide; try lia; [rewrite Hent; do 3 f_equal; lia|]. eapply entry_kept_trans; [done|done|by apply Hkept|done].
Qed.

Lemma unmap_all_ok R k V s : Tables R s -> 0 < V -> V + Z.of_nat k <= 2 ^ 20 ->
  exists s', unmap_all k (Some context) (V * PAGE_SIZE) s = Some s' /\ Tables R s' /\ source s' = source s /\
    forall v, 0 <= v < 2 ^ 20 -> entry s' v = if decide (V <= v < V + Z.of_nat k) then None else entry s v.
Proof.
  revert V s. induction k as [|k IH]; intros V s HT HV Hk; cbn [unmap_all].
  { exists s. split_and!; try done. intros v Hv. rewrite decide_False by lia. done. }
  destruct (vmm_unmap_page_ok R s (V * PAGE_SIZE) HT) as (r & s1 & -> & HT1 & Hs1 & _ & _ & He); [by eapply page_virt|].
  rewrite bind_Some_l. cbn [snd]. rewrite vpn_page in He. destruct k as [|k].
  - exists s1. split_and!; try done. intros v Hv. rewrite He by done. repeat case_decide; done || lia.
  - rewrite (next_page V k) by lia. destruct (IH (V + 1) s1) as (s' & -> & HT' & Hs' & Hent); [done|lia..|].
    exists s'. split_and!; [done|done|congruence|]. intros v Hv. rewrite Hent, He by done. repeat case_decide; done || lia.
Qed.

(** C40: on a context in which no page is mapped to frame 0, [vmm_alloc_pages], for a range of
    pages inside the address space, page 0 left out, and flags with the bit for present pages, either returns
    the address of the first page, and then no page of the range was mapped and the range
    now maps consecutive frames that were available, or it returns [NULL], also when the
    memory for a page table ran out in the middle. In the first case every page outside of
    the range, and in the second every page, keeps its entry, or had no table and now has
    what an available page held before it became a table: new tables are not cleared. When
    the available pages are zero all these pages keep their entries. *)
Theorem vmm_alloc_pages_correct s V off n flags :
  Tables ∅ s -> no_frame_0 s -> 0 < V -> 0 <= off < PAGE_SIZE -> 0 < n -> V + n <= 2 ^ 20 -> 0 <= flags < PAGE_SIZE -> Z.odd flags = true ->
  exists r s', vmm_alloc_pages (Some context) (V * PAGE_SIZE + off) n flags s = Some (r, s') /\ Tables ∅ s' /\
    ((r = V * PAGE_SIZE /\ (forall v, V <= v < V + n -> entry s v = None) /\
      exists p, pages p n ⊆ ps_avail (source s) /\ forall v, 0 <= v < 2 ^ 20 ->
        if decide (V <= v < V + n) then entry s' v = Some ((p + (v - V)) * PAGE_SIZE + flags) else kept s s' v /\ (zeroed s -> entry s' v = entry s v)) \/
     (r = 0 /\ forall v, 0 <= v < 2 ^ 20 -> kept s s' v /\ (zeroed s -> entry s' v = entry s v))).
Proof.
  intros HT H0 HV Hoff Hn HVn Hf Hodd. unfold vmm_alloc_pages. rewrite (proj2 (Z.eqb_neq n 0)) by lia.
  rewrite page_base_entry by (done || unfold PAGE_SIZE; lia). assert (forall s' v, kept s s' v -> kept s s' v /\ (zeroed s -> entry s' v = entry s v)) as Hz by (intros s' v Hk; split; [done|]; intros; by apply kept_zeroed).
  destruct (any_mapped_ok ∅ (Z.to_nat n) V s HT H0 HV) as (b & -> & Hb); [lia|]. rewrite bind_Some_l. rewrite Z2Nat.id in Hb by lia.
  destruct b; [exists 0, s; split_and!; try done; right; split; [done|]; intros v _; apply Hz; by left|].
  destruct (ps_alloc_ok n (source s) (t_source ∅ s HT)) as (r & src & -> & Hok & Hall & Hr); [lia|].
  rewrite bind_Some_l. cbn [fst snd]. destruct r as [a|].
  2:{ subst src. exists 0, s. split; [by destruct s|]. split; [done|]. right. split; [done|]. intros v _. apply Hz. by left. }
  destruct Hr as (p & -> & _ & Hp & Hpn & Hsub & Hset).
  assert (Tables (pages p n) (with_source src s)) as HT1.
  { apply (tables_source ∅); [done..| |].
    - unfold unused. cbn [source with_source]. rewrite Hset. set_solver.
    - rewrite Hset. set_solver. }
  assert (forall s' v, kept (with_source src s) s' v -> kept s s' v) as Hsrc.
  { intros s' v [E|(Ha & t & Ht & E)]; [by left|]. right. split; [done|]. exists t. split; [|done]. cbn in Ht. rewrite Hset in Ht. set_solver. }
  destruct (map_all_ok (pages p n) (Z.to_nat n) V p flags _ HT1) as (k & ok & s2 & -> & HT2 & Hall2 & _ & Hk & Hkn & Hent); [lia..|done|done|].
  rewrite bind_Some_l. destruct ok.
  - rewrite (Hkn eq_refl), Z2Nat.id in Hent by lia. exists (V * PAGE_SIZE), s2. split; [done|]. split.
    + replace s2 with (with_source (source s2) s2) by by destruct s2.
      apply (tables_source (pages p n)); [done|apply HT2| |set_solver]. unfold unused. cbn [source with_source]. set_solver.
    + left. split; [done|]. split; [by apply Hb|]. exists p. split; [done|]. intros v Hv. specialize (Hent v Hv). case_decide; [done|]. by apply Hz, Hsrc.
  - destruct (ps_free_ok p n (source s2) (t_source _ s2 HT2) Hn) as (src' & -> & Hok' & _ & Hset').
    { rewrite Hall2. cbn [source with_source]. rewrite Hall. etrans; [exact Hsub|]. by apply ps_avail_all, (t_source ∅ s HT). }
    rewrite bind_Some_l. assert (Tables ∅ (with_source src' s2)) as HT3.
    { apply (tables_source (pages p n)); [done|done| |set_solver]. unfold unused. cbn [source with_source]. rewrite Hset'. set_solver. }
    destruct (unmap_all_ok ∅ k V _ HT3) as (s4 & -> & HT4 & _ & Hent4); [lia..|]. rewrite bind_Some_l.
    exists 0, s4. split; [done|]. split; [done|]. right. split; [done|]. intros v Hv. apply Hz. specialize (Hent v Hv). specialize (Hent4 v Hv).
    case_decide as Hd; [left; rewrite Hent4, Hb; [done|done|lia]|]. destruct (Hsrc _ _ Hent) as [E|(Ha & t & Ht & E)]; [left; rewrite Hent4; exact E|]. right. split; [done|]. exists t. split; [done|]. rewrite Hent4. exact E.
Qed.

(** ** Runs *)

Inductive op := OMap (virt phys flags : Z) | OUnmap (virt : Z) | OGet (virt : Z).

Definition good_op (x : op) : Prop :=
  match x with
  | OMap virt phys flags => 0 < virt < 2 ^ 32 /\ 0 < phys < 2 ^ 32 /\ 0 <= flags < PAGE_SIZE
  | OUnmap virt | OGet virt => 0 < virt < 2 ^ 32
  end.

Definition do_op (x : op) (s : state P) : option (Z * state P) :=
  match x with
  | OMap virt phys flags => vmm_map_page (Some context) virt phys flags s
  | OUnmap virt => vmm_unmap_page (Some context) virt s
  | OGet virt => r ← vmm_get_phys_addr (Some context) virt s; Some (r, s)
  end.
Fixpoint run (l : list op) (s : state P) : option (list Z * state P) :=
  match l with
  | [] => Some ([], s)
  | x :: l => r ← do_op x s; t ← run l r.2; Some (r.1 :: t.1, t.2)
  end.

(** The entries that page [t] holds in [s] for the pages of group [i] of the directory. *)
Definition stale_map s (i t : Z) : gmap Z Z := map_imap (fun v _ => stale s t v) (gset_to_gmap () (list_to_set (seqZ (1024 * i) 1024) : gset Z)).

Lemma lookup_stale_map s i t v : stale_map s i t !! v = if decide (v / 1024 = i) then stale s t v else None.
Proof.
  unfold stale_map. rewrite map_lookup_imap, lookup_gset_to_gmap. pose proof (Z.div_mod v 1024 ltac:(lia)). pose proof (Z.mod_pos_bound v 1024 ltac:(lia)). case_decide as Hd.
  - rewrite option_guard_True by (rewrite elem_of_list_to_set, elem_of_seqZ; lia). done.
  - rewrite option_guard_False; [done|]. rewrite elem_of_list_to_set, elem_of_seqZ. lia.
Qed.

(** What turns up when [v] is mapped on [M], the memory having been [s0] at the start:
    nothing, or, if no page of its group was mapped, what a page held that was available. *)
Definition turns_up (s0 : state P) (v : Z) (M N : gmap Z Z) : Prop :=
  N = ∅ \/ exists t, t ∈ ps_avail (source s0) /\ N = stale_map s0 (v / 1024) t /\ forall w, 0 <= w < 2 ^ 20 -> w / 1024 = v / 1024 -> M !! w = None.

(** The reference: a finite map from page numbers to entries. [map] may fail for want of
    memory and changes nothing then. *)
Definition set_entry (v : Z) (e : option Z) (M : gmap Z Z) : gmap Z Z :=
  match e with Some e => <[v := e]> M | None => delete v M end.
Fixpoint spec_run (s0 : state P) (l : list op) (rs : list Z) (M M' : gmap Z Z) : Prop :=
  match l, rs with
  | [], [] => M' = M
  | OMap virt phys flags :: l, r :: rs =>
      (r = 0 /\ exists N, turns_up s0 (vpn virt) M N /\ spec_run s0 l rs (set_entry (vpn virt) (new_entry phys flags) (N ∪ M)) M') \/ (r = -1 /\ spec_run s0 l rs M M')
  | OUnmap virt :: l, r :: rs => r = (if M !! vpn virt then 0 else -1) /\ spec_run s0 l rs (delete (vpn virt) M) M'
  | OGet virt :: l, r :: rs =>
      r = match M !! vpn virt with Some e => Z.lor (page_base e) (virt mod PAGE_SIZE) | None => 0 end /\ spec_run s0 l rs M M'
  | _, _ => False
  end.

(** Nothing turns up in memory whose available pages are zero. *)
Lemma nothing_turns_up s0 v M N : zeroed s0 -> turns_up s0 v M N -> N = ∅.
Proof. intros Hz [->|(t & Ht & -> & _)]; [done|]. apply map_eq. intros w. rewrite lookup_stale_map, lookup_empty. case_decide; [by apply stale_zeroed|done]. Qed.

Definition models (M : gmap Z Z) s : Prop := forall v, 0 <= v < 2 ^ 20 -> M !! v = entry s v.

Lemma models_set M s s' v e : 0 <= v < 2 ^ 20 -> models M s ->
  (forall w, 0 <= w < 2 ^ 20 -> entry s' w = if decide (w = v) then e else entry s w) -> models (set_entry v e M) s'.
Proof.
  intros Hv HM He w Hw. rewrite He by done. unfold set_entry. case_decide as E.
  - subst. destruct e; [apply lookup_insert_eq|apply lookup_delete_eq].
  - destruct e; [rewrite lookup_insert_ne by done|rewrite lookup_delete_ne by done]; by apply HM.
Qed.

Lemma models_map M s s' s0 virt o e : 0 <= vpn virt < 2 ^ 20 -> models M s -> grows s0 s -> new_table s virt o ->
  (forall w, 0 <= w < 2 ^ 20 -> entry s' w = if decide (w = vpn virt) then e else entry_with s virt o w) ->
  exists N, turns_up s0 (vpn virt) M N /\ models (set_entry (vpn virt) e (N ∪ M)) s'.
Proof.
  intros Hv HM HG Ho He. exists (match o with Some t => stale_map s0 (vpn virt / 1024) t | None => ∅ end). destruct o as [t|].
  - destruct Ho as [Ht Ha]. assert (forall w, 0 <= w < 2 ^ 20 -> w / 1024 = vpn virt / 1024 -> M !! w = None) as HN.
    { intros w Hw Hg. rewrite HM by done. apply absent_entry. unfold absent in *. by rewrite Hg. }
    split; [right; exists t; split; [by apply (gr_avail s0 s HG)|done]|]. intros w Hw. rewrite He by done. cbn. unfold set_entry.
    assert (w <> vpn virt -> (stale_map s0 (vpn virt / 1024) t ∪ M) !! w = (if decide (w / 1024 = vpn virt / 1024) then stale s t w else entry s w)) as E.
    { intros _. rewrite lookup_union, lookup_stale_map, (stale_grows s0 s t w HG Ht). case_decide as Hd; [rewrite (HN w Hw Hd); by destruct (stale s0 t w)|]. rewrite HM by done. by destruct (entry s w). }
    destruct (decide (w = vpn virt)) as [->|Ew]; [destruct e; [apply lookup_insert_eq|apply lookup_delete_eq]|]. destruct e; [rewrite lookup_insert_ne by done|rewrite lookup_delete_ne by done]; by apply E.
  - split; [by left|]. rewrite map_empty_union. by apply (models_set M s).
Qed.

(** C3: A virtual memory context, whose directory and tables are pages of their own, refines a
    finite map from page numbers to page table entries: in every sequence of
    [vmm_map_page], [vmm_unmap_page] and [vmm_get_phys_addr] calls, at any addresses but
    the null pointer, each call returns what the map says, and at the end the tables in
    memory hold exactly the map's entries. When a table has to be allocated the map also
    gets, for the other pages of that table, exactly the entries that the page held
    before, as tables are not cleared; these are none when the pages that may be handed
    out are zero. *)
Theorem vmm_refines_map l s M : Tables ∅ s -> models M s -> Forall good_op l ->
  (exists rs s' M', run l s = Some (rs, s') /\ spec_run s l rs M M' /\ Tables ∅ s' /\ models M' s') /\ (zeroed s -> forall v N K, turns_up s v N K -> K = ∅).
Proof.
  intros HT HM Hl. split; [|intros Hz v N K; by apply nothing_turns_up]. assert (grows s s) as HG by apply grows_refl. revert HT HM HG. generalize s at 1 2 4 5 as s1. revert M.
  induction l as [|x l IH]; intros M s1 HT HM HG; [by exists [], s1, M|].
  apply Forall_cons in Hl as [Hx Hl]. specialize (IH Hl). cbn [run]. destruct x as [virt phys flags|virt|virt]; cbn [do_op good_op] in *.
  - destruct Hx as (Hv & Hp & Hf). destruct (indices virt ltac:(lia)) as (_ & _ & Hvr).
    destruct (vmm_map_page_ok ∅ s1 virt phys flags HT Hv Hp Hf) as (r & s2 & -> & HT1 & _ & HG1 & [(-> & o & Ho & He)|(-> & -> & _)]); rewrite bind_Some_l; cbn [fst snd].
    + destruct (models_map M s1 s2 s virt o _ Hvr HM HG Ho He) as (N & HN & HM'). destruct (IH _ s2 HT1 HM') as (rs & s' & M' & -> & Hspec & H'); [by eapply grows_trans|]. rewrite bind_Some_l.
      eexists _, s', M'. split; [done|]. split; [cbn; left; split; [done|]; by exists N|done].
    + destruct (IH M s1 HT HM HG) as (rs & s' & M' & -> & Hspec & H'). rewrite bind_Some_l.
      eexists _, s', M'. split; [done|]. split; [cbn; auto|done].
  - destruct (indices virt ltac:(lia)) as (_ & _ & Hvr).
    destruct (vmm_unmap_page_ok ∅ s1 virt HT Hx) as (r & s2 & -> & HT1 & _ & HG1 & Hr & He). rewrite bind_Some_l. cbn [fst snd].
    destruct (IH _ s2 HT1 (models_set M s1 s2 _ None Hvr HM He)) as (rs & s' & M' & -> & Hspec & H'); [by eapply grows_trans|]. rewrite bind_Some_l.
    eexists _, s', M'. split; [done|]. split; [|done]. cbn. rewrite (HM _ Hvr). done.
  - destruct (indices virt ltac:(lia)) as (_ & _ & Hvr). rewrite (vmm_get_phys_addr_ok ∅ s1 virt HT Hx), !bind_Some_l. cbn [fst snd].
    destruct (IH M s1 HT HM HG) as (rs & s' & M' & -> & Hspec & H'). rewrite bind_Some_l.
    eexists _, s', M'. split; [done|]. split; [|done]. cbn. rewrite (HM _ Hvr). done.
Qed.

End Tables.

(** ** New contexts *)

Section Create.
Context {P : Type} `{!PageSource P} `{!PageSourceLaws P}.

(** A new context, when the pages the allocator hands out are clear, maps nothing. *)
Lemma vmm_create_context_ok context (s : state P) : ps_ok (source s) ->
  (forall p j, p ∈ ps_avail (source s) -> 0 <= j < 1024 -> word s (slot (p * PAGE_SIZE) j) = 0) ->
  exists r s', vmm_create_context (Some context) s = Some (r, s') /\
    match r with
    | Some c => c = context /\ exists p, Tables context p ∅ s' /\ forall v, 0 <= v < 2 ^ 20 -> entry p s' v = None
    | None => s' = s
    end.
Proof.
  intros Hok Hcl. unfold vmm_create_context. destruct (ps_alloc_ok 1 (source s) Hok) as (r & src & -> & Hok' & _ & Hr); [lia|].
  rewrite bind_Some_l. cbn [fst snd]. destruct r as [a|].
  2:{ subst src. exists None, s. by destruct s. }
  destruct Hr as (p & -> & _ & Hp & Hp1 & Hsub & Hset). rewrite pages_1 in *. eexists _, _. split; [done|]. split; [done|]. exists p.
  assert (forall i, 0 <= i < 1024 -> word s (slot (p * PAGE_SIZE) i) = 0) as Hz by (intros i Hi; apply Hcl; [set_solver|done]).
  split.
  - split; cbn [with_contexts with_source contexts source]; try done.
    + apply lookup_insert_eq.
    + split_and!; [done..|]. unfold unused. cbn [with_contexts with_source source]. rewrite Hset. set_solver.
    + intros i Hi Hf. exfalso. unfold pde, word in *. cbn [mem with_contexts with_source] in Hf. by rewrite (Hz i Hi) in Hf.
    + intros i j Hi Hj Hf. exfalso. unfold pde, word in *. cbn [mem with_contexts with_source] in Hf. by rewrite (Hz i Hi) in Hf.
  - intros v Hv. assert (0 <= v / 1024 < 1024) by (split; [apply Z.div_pos; lia|apply Z.div_lt_upper_bound; lia]).
    unfold entry, pde, word in *. cbn [mem with_contexts with_source]. by rewrite Hz.
Qed.
End Create.

(** ** On the pages of [mm/memory.c] *)

(** Clear memory of eight pages, and a context whose directory is the second one. *)
Definition boot : state Memory.mm := mk_state ∅ ∅ 0 0 Memory.small.
Definition demo : state Memory.mm :=
  match vmm_create_context (Some 5) boot with Some (_, s) => s | None => boot end.

Lemma demo_tables : Tables 5 0x101 ∅ demo.
Proof.
  split; [done| | | |done|done].
  - split; [vm_compute; split; congruence|vm_compute; split; congruence|vm_compute; congruence|vm_compute; reflexivity].
  - split; [lia|]. split; [unfold PAGE_SIZE; lia|]. apply (bool_decide_unpack _). vm_compute. exact I.
  - apply disjoint_empty_l.
Qed.

Lemma demo_entries v : entry 0x101 demo v = None.
Proof. done. Qed.

Lemma vmm_refines_map_witness : exists s',
  run 5 [OMap 0x400123 0x7000 3; OGet 0x400456; OUnmap 0x400000; OGet 0x400456] demo = Some ([0; 0x7456; 0; 0], s') /\
  Tables 5 0x101 ∅ s'.
Proof.
  destruct (vmm_refines_map 5 0x101 [OMap 0x400123 0x7000 3; OGet 0x400456; OUnmap 0x400000; OGet 0x400456] demo ∅)
    as [(rs & s' & M' & E & _ & HT & _) _].
  - exact demo_tables.
  - intros v _. by rewrite demo_entries, lookup_empty.
  - repeat constructor; cbn; unfold PAGE_SIZE; lia.
  - exists s'. split; [|done]. rewrite E. f_equal. f_equal.
    assert (fst <$> run 5 [OMap 0x400123 0x7000 3; OGet 0x400456; OUnmap 0x400000; OGet 0x400456] demo = Some [0; 0x7456; 0; 0]) as H
      by (vm_compute; reflexivity).
    rewrite E in H. by injection H.
Defined.

Lemma vmm_alloc_pages_correct_witness : exists s',
  vmm_alloc_pages (Some 5) 0x400010 2 3 demo = Some (0x400000, s') /\ Tables 5 0x101 ∅ s'.
Proof.
  destruct (vmm_alloc_pages_correct 5 0x101 demo 0x400 0x10 2 3) as (r & s' & E & HT & _).
  - exact demo_tables.
  - intros v e _. by rewrite demo_entries.
  - lia.
  - unfold PAGE_SIZE. lia.
  - lia.
  - lia.
  - unfold PAGE_SIZE. lia.
  - done.
  - exists s'. split; [|done]. change (0x400 * PAGE_SIZE + 0x10) with 0x400010 in E. rewrite E. do 2 f_equal.
    assert (fst <$> vmm_alloc_pages (Some 5) 0x400010 2 3 demo = Some 0x400000) as H by (vm_compute; reflexivity).
    rewrite E in H. by injection H.
Defined.

(** [vmm_init] maps the first 4 MB at [0xC0000000], except the first page: its physical
    address is the null pointer, which [vmm_map_page] refuses. *)
Theorem vmm_init_leaves_first_page :
  match vmm_init (Some 5) boot with
  | Some (Some c, s) => vmm_get_phys_addr (Some c) 0xC0000000 s = Some 0 /\ vmm_get_phys_addr (Some c) 0xC0001000 s = Some 0x1000
  | _ => False
  end.
Proof. vm_compute. split; reflexivity. Qed.

(** Page tables are not cleared: a word left in the page that becomes a table is a mapping
    nobody asked for. *)
Theorem stale_table_maps :
  match vmm_map_page (Some 5) 0x400000 0x6000 3 (set_word 0x102004 0x7003 demo) with
  | Some (r, s) => r = 0 /\ vmm_get_phys_addr (Some 5) 0x401000 s = Some 0x7000
  | None => False
  end.
Proof. vm_compute. split; reflexivity. Qed.

(** No page fault is ever resolved: areas are not recorded, so the kernel panics. *)
Theorem page_fault_panics (s : state Memory.mm) addr error_code : vmm_handle_page_fault addr error_code s = Some None.
Proof. unfold vmm_handle_page_fault. by case_match. Qed.

End VmmSpec.
