(* ===== verification/Early.v ===== *)
(** Memory at boot: [mm/early.c]. The list of memory regions the boot loader reports, from
    which the kernel and the modules are cut out, and the allocator that only moves
    forward. *)

From Stdlib Require Import Sorted.
From S2P Require Import Prelude.

Module Early.

Definition MEMORY_REGION_AVAILABLE : Z := 1.
Definition MEMORY_REGION_KERNEL : Z := 6.
Definition MEMORY_REGION_MODULES : Z := 7.

(** ** Data *)

Record memory_region := mk_region { start : Z; size : Z; type : Z }.
(** 64-bit [start] and [size], a 32-bit [type] and the pointer to the next region. *)
Definition sizeof_region : Z := 24.

Record early_allocator := mk_alloc { a_start : Z; a_end : Z; a_current : Z }.

(** The regions in the order of the list; the counters; the allocator, whose [a_start] is
    0 before it is set up; the offset of the static buffer used until then; and the ranges
    cleared by [memset], last first. *)
Record state := mk_state {
  memory_regions : list memory_region; memory_region_count : Z; total_memory : Z; available_memory : Z;
  allocator : early_allocator; early_buffer_offset : Z; cleared : list (Z * Z) }.
Definition sizeof_early_buffer : Z := 4096.

Definition initial : state := mk_state [] 0 0 0 (mk_alloc 0 0 0) 0 [].

Definition with_regions (l : list memory_region) (s : state) : state :=
  mk_state l (memory_region_count s) (total_memory s) (available_memory s) (allocator s) (early_buffer_offset s) (cleared s).
Definition with_counters (n total available : Z) (s : state) : state :=
  mk_state (memory_regions s) n total available (allocator s) (early_buffer_offset s) (cleared s).
Definition with_allocator (a : early_allocator) (s : state) : state :=
  mk_state (memory_regions s) (memory_region_count s) (total_memory s) (available_memory s) a (early_buffer_offset s) (cleared s).
Definition with_offset (o : Z) (s : state) : state :=
  mk_state (memory_regions s) (memory_region_count s) (total_memory s) (available_memory s) (allocator s) o (cleared s).
Definition with_cleared (c : list (Z * Z)) (s : state) : state :=
  mk_state (memory_regions s) (memory_region_count s) (total_memory s) (available_memory s) (allocator s) (early_buffer_offset s) c.

(** A pointer into the static buffer or to an address. *)
Inductive place := Buffer (offset : Z) | At (address : Z).

(** ** The allocator *)

(** [(x + align - 1) & ~(align - 1)] *)
Definition align_up (x align : Z) : Z := Z.land (u32 (x + align - 1)) (Z.lnot (align - 1)).

Definition early_mm_allocator_alloc (size align : Z) (s : state) : option place * state :=
  if a_start (allocator s) =? 0 then
    let s := with_offset (align_up (early_buffer_offset s) align) s in
    let off := early_buffer_offset s in
    if sizeof_early_buffer <? u32 (off + size) then (None, s)
    else (Some (Buffer off), with_offset (u32 (off + size)) s)
  else
    let a := allocator s in
    let current := align_up (a_current a) align in
    if a_end a <? u32 (current + size) then (None, s)
    else (Some (At current),
          with_cleared ((current, size) :: cleared s) (with_allocator (mk_alloc (a_start a) (a_end a) (u32 (current + size))) s)).

Definition early_mm_alloc (size align : Z) (s : state) : option place * state := early_mm_allocator_alloc size align s.

(** Nothing is ever given back. *)
Definition early_mm_allocator_free (addr : option place) (s : state) : state := s.
Definition early_mm_free (addr : option place) (s : state) : state := early_mm_allocator_free addr s.

Definition early_mm_init_allocator (start end_ : Z) (s : state) : state := with_allocator (mk_alloc start end_ start) s.

(** ** Regions *)

Definition early_mm_add_region (start size type : Z) (s : state) : state :=
  let '(region, s) := early_mm_allocator_alloc sizeof_region 8 s in
  match region with
  | None => s
  | Some _ =>
      with_counters (u32 (memory_region_count s + 1)) (u64 (total_memory s + size))
        (if type =? MEMORY_REGION_AVAILABLE then u64 (available_memory s + size) else available_memory s)
        (with_regions (memory_regions s ++ [mk_region start size type]) s)
  end.

(** [early_mm_get_regions] and the sizes. *)
Definition early_mm_get_regions (s : state) : list memory_region := memory_regions s.
Definition early_mm_get_total_memory (s : state) : Z := total_memory s.
Definition early_mm_get_available_memory (s : state) : Z := available_memory s.

(** The available region that contains [n] bytes from [p] on. *)
Definition contains (p n : Z) (r : memory_region) : bool :=
  (type r =? MEMORY_REGION_AVAILABLE) && (start r <=? p) && (u64 (p + n) <=? u64 (start r + size r)).

Fixpoint find_region (p n : Z) (l : list memory_region) (i : nat) : option (nat * memory_region) :=
  match l with
  | [] => None
  | r :: l => if contains p n r then Some (i, r) else find_region p n l (S i)
  end.

(** What [early_mm_reserve_kernel] and [early_mm_reserve_modules] do with [n] bytes from
    [p] on: the region is split and its middle part gets the type [t]. *)
Definition reserve (p n t : Z) (s : state) : state :=
  match find_region p n (memory_regions s) 0 with
  | None => s
  | Some (i, r) =>
      let s := if start r <? p then early_mm_add_region (start r) (u64 (p - start r)) MEMORY_REGION_AVAILABLE s else s in
      let s := if u64 (p + n) <? u64 (start r + size r)
               then let after_start := u64 (p + n) in
                    early_mm_add_region after_start (u64 (start r + size r - after_start)) MEMORY_REGION_AVAILABLE s
               else s in
      let s := with_regions (<[i := mk_region p n t]> (memory_regions s)) s in
      with_counters (memory_region_count s) (total_memory s) (u64 (available_memory s - n)) s
  end.

Definition early_mm_reserve_kernel (kernel_start kernel_end : Z) (s : state) : state :=
  reserve kernel_start (u64 (kernel_end - kernel_start)) MEMORY_REGION_KERNEL s.

(** [mods] are the modules [multiboot_get_mod] delivers: start and end, or a null pointer. *)
Definition early_mm_reserve_modules (mods : list (option (Z * Z))) (s : state) : state :=
  fold_left (fun s m =>
    match m with
    | Some (mod_start, mod_end) => reserve mod_start (u64 (mod_end - mod_start)) MEMORY_REGION_MODULES s
    | None => s
    end) mods s.

(** The first available region at or above 1 MB. *)
Definition find_heap (l : list memory_region) : option memory_region :=
  head (filter (fun r => type r = MEMORY_REGION_AVAILABLE /\ 0x100000 <= start r) l).

(** [entries] are the entries of the multiboot memory map. *)
Definition early_mm_init (entries : list (Z * Z * Z)) (kernel_start kernel_end : Z) (mods : list (option (Z * Z))) (s : state)
    : state :=
  let s := fold_left (fun s e => early_mm_add_region e.1.1 e.1.2 e.2 s) entries s in
  let s := early_mm_reserve_kernel kernel_start kernel_end s in
  let s := early_mm_reserve_modules mods s in
  match find_heap (memory_regions s) with
  | Some r => early_mm_init_allocator (u32 (start r)) (u32 (start r + size r)) s
  | None => s
  end.

(** ** The memory map *)

(** The types of the regions that contain the byte [b]. *)
Definition covers (b : Z) (r : memory_region) : Prop := start r <= b < start r + size r.
#[export] Instance covers_dec b r : Decision (covers b r).
Proof. unfold covers. apply _. Defined.
Definition map_at (l : list memory_region) (b : Z) : list Z := type <$> filter (covers b) l.

(** Every region lies within 64 bits, and no byte in two of them. *)
Record Map (l : list memory_region) : Prop := {
  m_range : Forall (fun r => 0 <= start r /\ 0 <= size r /\ start r + size r < 2 ^ 64) l;
  m_once : forall b, (length (map_at l b) <= 1)%nat }.

Lemma map_at_app l l' b : map_at (l ++ l') b = map_at l b ++ map_at l' b.
Proof. unfold map_at. by rewrite filter_app, fmap_app. Qed.

Lemma map_at_one r b : map_at [r] b = if decide (covers b r) then [type r] else [].
Proof. unfold map_at. case_decide as H; [by rewrite filter_cons_True|by rewrite filter_cons_False]. Qed.

Lemma find_region_ok p n l i : match find_region p n l i with
  | Some (k, r) => exists l1 l2, l = l1 ++ r :: l2 /\ k = (i + length l1)%nat /\ contains p n r = true
  | None => Forall (fun r => contains p n r = false) l
  end.
Proof.
  revert i. induction l as [|r l IH]; intros i; cbn [find_region]; [done|].
  destruct (contains p n r) eqn:E.
  - exists [], l. split_and!; [done|cbn; lia|done].
  - specialize (IH (S i)). destruct (find_region p n l (S i)) as [[k r']|]; [|by constructor].
    destruct IH as (l1 & l2 & -> & -> & Hr). exists (r :: l1), l2. split_and!; [done|cbn; lia|done].
Qed.

(** ** Adding and cutting regions *)

(** The static buffer has room for [k] more regions. *)
Definition Room (k : Z) (s : state) : Prop :=
  a_start (allocator s) = 0 /\ early_buffer_offset s mod 8 = 0 /\ 0 <= early_buffer_offset s /\
  early_buffer_offset s + k * sizeof_region <= sizeof_early_buffer.

Lemma align_up_pow2 x k : 0 <= x -> 0 <= k -> x + 2 ^ k - 1 < 2 ^ 32 -> align_up x (2 ^ k) = (x + 2 ^ k - 1) / 2 ^ k * 2 ^ k.
Proof. intros Hx Hk Hw. unfold align_up. assert (0 < 2 ^ k) by (apply Z.pow_pos_nonneg; lia). rewrite u32_small, land_lnot_pow2 by lia. done. Qed.

Lemma early_mm_add_region_ok a n t k s : Room k s -> 1 <= k ->
  let s' := early_mm_add_region a n t s in
  memory_regions s' = memory_regions s ++ [mk_region a n t] /\ Room (k - 1) s' /\ allocator s' = allocator s.
Proof.
  intros (Hs & Hm & H0 & Hr) Hk. unfold sizeof_region, sizeof_early_buffer in Hr.
  unfold early_mm_add_region, early_mm_allocator_alloc. rewrite Hs, Z.eqb_refl.
  assert (align_up (early_buffer_offset s) 8 = early_buffer_offset s) as E.
  { rewrite (align_up_pow2 _ 3) by lia. change (2 ^ 3) with 8. apply Z.mod_divide in Hm as [q Hq]; [|lia].
    rewrite Hq at 1. replace (q * 8 + 8 - 1) with (7 + q * 8) by lia. rewrite Z.div_add by lia. change (7 / 8) with 0. lia. }
  cbn [early_buffer_offset with_offset]. rewrite E. unfold sizeof_early_buffer, sizeof_region.
  rewrite u32_small, (proj2 (Z.ltb_ge _ _)) by lia. split_and!; [done| |done].
  unfold Room. cbn [allocator early_buffer_offset with_offset with_regions with_counters].
  split_and!; [done| |lia|unfold sizeof_region, sizeof_early_buffer; lia].
  rewrite Z.add_mod, Hm by lia. done.
Qed.

(** The parts a region is cut into. *)
Definition parts (p n t : Z) (r : memory_region) : list memory_region :=
  (if start r <? p then [mk_region (start r) (p - start r) MEMORY_REGION_AVAILABLE] else []) ++
  (if p + n <? start r + size r then [mk_region (p + n) (start r + size r - (p + n)) MEMORY_REGION_AVAILABLE] else []).

Lemma reserve_regions p n t k s : Forall (fun r => 0 <= start r /\ 0 <= size r /\ start r + size r < 2 ^ 64) (memory_regions s) ->
  Room k s -> 2 <= k -> 0 <= p -> 0 <= n -> p + n < 2 ^ 64 ->
  let s' := reserve p n t s in
  Room (k - 2) s' /\ allocator s' = allocator s /\
  (memory_regions s' = memory_regions s /\ Forall (fun r => contains p n r = false) (memory_regions s) \/
   exists l1 r l2, memory_regions s = l1 ++ r :: l2 /\ contains p n r = true /\
     memory_regions s' = l1 ++ mk_region p n t :: l2 ++ parts p n t r).
Proof.
  intros Hreg Hroom Hk Hp Hn Hw s'. subst s'. unfold reserve. pose proof (find_region_ok p n (memory_regions s) 0) as Hf.
  destruct (find_region p n (memory_regions s) 0) as [[i r]|].
  2:{ split; [|by split; [|left]]. destruct Hroom as (? & ? & ? & ?). unfold Room, sizeof_region in *. split_and!; try done; lia. }
  destruct Hf as (l1 & l2 & Hl & -> & Hc). rewrite Hl in Hreg. apply Forall_app in Hreg as [_ [(Hr0 & Hr1 & Hr2) _]%Forall_cons_1].
  pose proof Hc as Hc'. unfold contains in Hc'. rewrite !andb_true_iff, !Z.leb_le, !u64_small in Hc' by lia.
  rewrite !u64_small by (rewrite ?u64_small; lia).
  set (s1 := if start r <? p then early_mm_add_region (start r) (p - start r) MEMORY_REGION_AVAILABLE s else s).
  assert (memory_regions s1 = memory_regions s ++ (if start r <? p then [mk_region (start r) (p - start r) MEMORY_REGION_AVAILABLE] else []) /\
    Room (k - 1) s1 /\ allocator s1 = allocator s) as (R1 & Rm1 & A1).
  { unfold s1. destruct (start r <? p); [by apply early_mm_add_region_ok; [|lia]|].
    rewrite app_nil_r. split_and!; [done| |done]. destruct Hroom as (? & ? & ? & ?). unfold Room, sizeof_region in *. split_and!; try done; lia. }
  set (s2 := if p + n <? start r + size r then early_mm_add_region (p + n) (start r + size r - (p + n)) MEMORY_REGION_AVAILABLE s1 else s1).
  assert (memory_regions s2 = memory_regions s ++ parts p n t r /\ Room (k - 2) s2 /\ allocator s2 = allocator s) as (R2 & Rm2 & A2).
  { unfold s2, parts. rewrite app_assoc, <-R1, <-A1. destruct (p + n <? start r + size r).
    - replace (k - 2) with (k - 1 - 1) by lia. by apply early_mm_add_region_ok; [|lia].
    - rewrite app_nil_r. split_and!; [done| |done]. destruct Rm1 as (? & ? & ? & ?). unfold Room, sizeof_region in *. split_and!; try done; lia. }
  split; [exact Rm2|]. split; [exact A2|]. right. exists l1, r, l2. split; [done|]. split; [done|].
  cbn [memory_regions with_regions with_counters]. rewrite R2, Hl, <-app_assoc, Nat.add_0_l.
  rewrite insert_app_r_alt, Nat.sub_diag by lia. done.
Qed.

(** Cutting a region changes the types of the bytes cut out and of no other byte. *)
Lemma cut_map l1 r l2 p n t : Map (l1 ++ r :: l2) -> contains p n r = true -> 0 <= p -> 0 <= n -> p + n < 2 ^ 64 ->
  let l' := l1 ++ mk_region p n t :: l2 ++ parts p n t r in
  Map l' /\ forall b, map_at l' b = if decide (p <= b < p + n) then [t] else map_at (l1 ++ r :: l2) b.
Proof.
  intros [Hr Ho] Hc Hp Hn Hw l'. apply Forall_app in Hr as [Hr1 [(Hs0 & Hs1 & Hs2) Hr2]%Forall_cons_1].
  unfold contains in Hc. rewrite !andb_true_iff, Z.eqb_eq, !Z.leb_le, !u64_small in Hc by lia. destruct Hc as [[Ht Hst] Hen].
  assert (forall b, map_at l' b = if decide (p <= b < p + n) then [t] else map_at (l1 ++ r :: l2) b) as Hmap.
  { intros b. specialize (Ho b). unfold l'. rewrite !map_at_app in *.
    change (mk_region p n t :: l2 ++ parts p n t r) with ([mk_region p n t] ++ l2 ++ parts p n t r).
    change (r :: l2) with ([r] ++ l2) in *. rewrite !map_at_app, !map_at_one in *. unfold covers in *. cbn [start size type] in *.
    assert (map_at (parts p n t r) b = if decide (covers b r /\ ~ p <= b < p + n) then [MEMORY_REGION_AVAILABLE] else []) as ->.
    { unfold parts. rewrite map_at_app. unfold covers.
      destruct (Z.ltb_spec (start r) p), (Z.ltb_spec (p + n) (start r + size r)); rewrite ?map_at_one; unfold covers; cbn [start size type];
        repeat case_decide; cbn; done || lia. }
    unfold covers. destruct (decide (start r <= b < start r + size r)) as [Hb|Hb].
    - rewrite !length_app in Ho. cbn [length] in Ho. destruct (map_at l1 b); [|cbn in Ho; lia].
      destruct (map_at l2 b); [|cbn in Ho; lia]. cbn [app]. rewrite Ht. repeat case_decide; cbn; done || lia.
    - rewrite !decide_False by lia. cbn. by rewrite app_nil_r. }
  split; [|done]. split.
  - unfold l'. apply Forall_app. split; [done|]. apply Forall_cons. split; [cbn; lia|]. apply Forall_app. split; [done|].
    unfold parts. apply Forall_app. split; case_match; repeat constructor; cbn; lia.
  - intros b. rewrite Hmap. case_decide; [cbn; lia|apply Ho].
Qed.

(** [reserve] on the map: it does nothing, or gives the bytes the new type. *)
Lemma reserve_ok p n t k s : Map (memory_regions s) -> Room k s -> 2 <= k -> 0 <= p -> 0 <= n -> p + n < 2 ^ 64 ->
  let s' := reserve p n t s in
  Room (k - 2) s' /\ allocator s' = allocator s /\ Map (memory_regions s') /\
  (memory_regions s' = memory_regions s /\ Forall (fun r => contains p n r = false) (memory_regions s) \/
   (forall b, p <= b < p + n -> map_at (memory_regions s) b = [MEMORY_REGION_AVAILABLE]) /\
   forall b, map_at (memory_regions s') b = if decide (p <= b < p + n) then [t] else map_at (memory_regions s) b).
Proof.
  intros HM Hroom Hk Hp Hn Hw s'.
  destruct (reserve_regions p n t k s (m_range _ HM) Hroom Hk Hp Hn Hw) as (Hroom' & HA & Hcase). fold s' in Hroom', HA, Hcase.
  split; [done|]. split; [done|]. destruct Hcase as [[E Hno]|(l1 & r & l2 & E & Hc & E')].
  - rewrite E. split; [done|]. by left.
  - rewrite E', E in *. destruct (cut_map l1 r l2 p n t HM Hc Hp Hn Hw) as [HM' Hmap]. split; [done|]. right. split; [|done].
    intros b Hb. pose proof (m_range _ HM) as [_ [(Hs0 & Hs1 & Hs2) _]%Forall_cons_1]%Forall_app.
    unfold contains in Hc. rewrite !andb_true_iff, Z.eqb_eq, !Z.leb_le, !u64_small in Hc by lia. destruct Hc as [[Ht Hst] Hen].
    pose proof (m_once _ HM b) as Ho. change (r :: l2) with ([r] ++ l2) in *. rewrite !map_at_app, map_at_one in *.
    unfold covers in *. rewrite decide_True in * by lia. rewrite !length_app in Ho. cbn [length] in Ho.
    destruct (map_at l1 b); [|cbn in Ho; lia]. destruct (map_at l2 b); [|cbn in Ho; lia]. cbn. by rewrite Ht.
Qed.

(** ** Start-up *)

Definition region_of (e : Z * Z * Z) : memory_region := mk_region e.1.1 e.1.2 e.2.

Lemma add_entries_ok entries k s : Room k s -> Z.of_nat (length entries) <= k ->
  let s' := fold_left (fun s e => early_mm_add_region e.1.1 e.1.2 e.2 s) entries s in
  memory_regions s' = memory_regions s ++ (region_of <$> entries) /\ Room (k - Z.of_nat (length entries)) s' /\ allocator s' = allocator s.
Proof.
  revert k s. induction entries as [|e entries IH]; intros k s Hroom Hk; cbn [fold_left fmap list_fmap length] in *.
  - rewrite app_nil_r, Z.sub_0_r. done.
  - destruct (early_mm_add_region_ok e.1.1 e.1.2 e.2 k s Hroom ltac:(lia)) as (E & Hroom' & HA).
    destruct (IH (k - 1) _ Hroom' ltac:(lia)) as (E' & Hroom'' & HA').
    rewrite E', E, HA', HA, <-app_assoc. split; [done|]. split; [|done].
    by replace (k - Z.of_nat (S (length entries))) with (k - 1 - Z.of_nat (length entries)) by lia.
Qed.

Definition good_module (m : option (Z * Z)) : Prop :=
  match m with Some (a, b) => 0 <= a <= b /\ b < 2 ^ 32 | None => True end.

(** Modules are cut out of available memory: a byte that changes its type was available. *)
Lemma reserve_modules_ok mods k s : Map (memory_regions s) -> Room k s -> 2 * Z.of_nat (length mods) <= k -> Forall good_module mods ->
  let s' := early_mm_reserve_modules mods s in
  Map (memory_regions s') /\ allocator s' = allocator s /\
  forall b, map_at (memory_regions s') b = map_at (memory_regions s) b \/
    (map_at (memory_regions s) b = [MEMORY_REGION_AVAILABLE] /\ map_at (memory_regions s') b = [MEMORY_REGION_MODULES]).
Proof.
  unfold early_mm_reserve_modules. revert k s. induction mods as [|m mods IH]; intros k s HM Hroom Hk Hg; cbn [fold_left length] in *.
  { split_and!; [done..|]. auto. }
  apply Forall_cons in Hg as [Hm Hg]. destruct m as [[a e]|]; [|by apply (IH k); [..|lia|]]. cbn in Hm.
  rewrite u64_small by lia.
  destruct (reserve_ok a (e - a) MEMORY_REGION_MODULES k s HM Hroom ltac:(lia)) as (Hroom' & HA & HM' & Hcase); [lia..|].
  destruct (IH (k - 2) _ HM' Hroom' ltac:(lia) Hg) as (HM'' & HA' & Hb). split; [done|]. split; [congruence|].
  intros b. destruct Hcase as [[E _]|[Hav Hmap]]; [rewrite E in Hb; apply Hb|].
  specialize (Hb b). rewrite Hmap in Hb. case_decide as Hd; [|done].
  right. split; [by apply Hav|]. destruct Hb as [Hb|[[=] _]]. done.
Qed.

Lemma map_at_elem l b t : t ∈ map_at l b <-> exists r, r ∈ l /\ covers b r /\ type r = t.
Proof.
  unfold map_at. rewrite list_elem_of_fmap. split.
  - intros (r & -> & [Hc Hr]%list_elem_of_filter). eauto.
  - intros (r & Hr & Hc & <-). exists r. rewrite list_elem_of_filter. done.
Qed.

(** The bytes of the region the allocator gets are available. *)
Lemma heap_available l r : Map l -> find_heap l = Some r -> (forall b, map_at l b <> [] -> b < 2 ^ 32 - 1) ->
  forall b, u32 (start r) <= b < u32 (start r + size r) -> map_at l b = [MEMORY_REGION_AVAILABLE].
Proof.
  intros HM Hh Hlow b Hb.
  assert (r ∈ l /\ type r = MEMORY_REGION_AVAILABLE) as [Hr Ht].
  { unfold find_heap in Hh. apply head_Some_elem_of, list_elem_of_filter in Hh. tauto. }
  pose proof (proj1 (Forall_forall _ _) (m_range _ HM) r Hr) as (H0 & H1 & H2). cbn beta in *.
  assert (forall c, covers c r -> map_at l c = [MEMORY_REGION_AVAILABLE]) as Hcov.
  { intros c Hc. assert (MEMORY_REGION_AVAILABLE ∈ map_at l c) as Hin by (apply map_at_elem; eauto).
    pose proof (m_once _ HM c). destruct (map_at l c) as [|x [|y m]]; [by apply not_elem_of_nil in Hin| |cbn in *; lia].
    apply list_elem_of_singleton in Hin. by subst. }
  destruct (decide (size r = 0)) as [E|E]; [rewrite E, Z.add_0_r in Hb; lia|].
  assert (start r + size r - 1 < 2 ^ 32 - 1) by (apply Hlow; rewrite Hcov; [done|unfold covers; lia]).
  rewrite !u32_small in Hb by lia. apply Hcov. unfold covers. lia.
Qed.

(** Start-up keeps the memory map: when the entries the boot loader reports are disjoint,
    below 4 GB and few enough for the static buffer, then after [early_mm_init] the regions
    are still disjoint and contain exactly the same bytes, every byte of a kernel that lay
    in an available entry is in a kernel region, and the allocator's memory is available
    memory only, so that it overlaps neither the kernel nor a module. *)
Theorem early_mm_init_correct entries kernel_start kernel_end mods e0 :
  Map (region_of <$> entries) -> Forall (fun e => e.1.1 + e.1.2 < 2 ^ 32) entries ->
  (Z.of_nat (length entries) + 2 + 2 * Z.of_nat (length mods)) * sizeof_region <= sizeof_early_buffer ->
  0 <= kernel_start <= kernel_end /\ kernel_end < 2 ^ 32 -> Forall good_module mods ->
  e0 ∈ entries -> e0.2 = MEMORY_REGION_AVAILABLE -> e0.1.1 <= kernel_start -> kernel_end <= e0.1.1 + e0.1.2 ->
  let s := early_mm_init entries kernel_start kernel_end mods initial in
  Map (memory_regions s) /\
  (forall b, map_at (memory_regions s) b = [] <-> map_at (region_of <$> entries) b = []) /\
  (forall b, kernel_start <= b < kernel_end -> map_at (memory_regions s) b = [MEMORY_REGION_KERNEL]) /\
  (forall b, a_start (allocator s) <= b < a_end (allocator s) -> map_at (memory_regions s) b = [MEMORY_REGION_AVAILABLE]).
Proof.
  intros HM Hbelow Hlen [Hks Hke] Hmods He0 Ht0 Hs0 Hn0. unfold early_mm_init.
  set (k := Z.of_nat (length entries) + 2 + 2 * Z.of_nat (length mods)) in *.
  destruct (add_entries_ok entries k initial) as (E1 & R1 & A1); [by split_and!|lia|].
  set (s1 := fold_left _ entries initial) in *. cbn [memory_regions initial app] in E1.
  unfold early_mm_reserve_kernel. rewrite u64_small by lia.
  rewrite <-E1 in HM. destruct (reserve_ok kernel_start (kernel_end - kernel_start) MEMORY_REGION_KERNEL _ s1 HM R1)
    as (R2 & A2 & M2 & Hcase); [lia..|]. set (s2 := reserve kernel_start _ _ s1) in *.
  replace (kernel_start + (kernel_end - kernel_start)) with kernel_end in Hcase by lia.
  destruct Hcase as [[_ Hno]|[Hav2 Hmap2]].
  { exfalso. rewrite E1, Forall_forall in Hno. specialize (Hno (region_of e0)). apply (list_elem_of_fmap_2 region_of) in He0.
    specialize (Hno He0). pose proof (proj1 (Forall_forall _ _) (m_range _ HM) (region_of e0)) as Hr. rewrite E1 in Hr.
    specialize (Hr He0). unfold contains in Hno. cbn in Hno, Hr. rewrite !u64_small in Hno by lia.
    rewrite Ht0, (proj2 (Z.leb_le _ _) Hs0) in Hno. cbn in Hno. apply Z.leb_gt in Hno. lia. }
  destruct (reserve_modules_ok mods (k - Z.of_nat (length entries) - 2) s2 M2 R2) as (M3 & A3 & Hmap3); [lia|done|].
  set (s3 := early_mm_reserve_modules mods s2) in *.
  assert (forall b, map_at (memory_regions s3) b = [] <-> map_at (region_of <$> entries) b = []) as Hcov.
  { intros b. rewrite <-E1. destruct (Hmap3 b) as [->|[Hb ->]]; rewrite Hmap2 in *; case_decide as Hd; try done.
    - by rewrite (Hav2 b Hd).
    - by rewrite Hb. }
  assert (forall b, kernel_start <= b < kernel_end -> map_at (memory_regions s3) b = [MEMORY_REGION_KERNEL]) as Hker.
  { intros b Hb. destruct (Hmap3 b) as [->|[Hb' _]]; rewrite Hmap2, decide_True in * by done; done. }
  assert (forall s4, memory_regions s4 = memory_regions s3 ->
    (forall b, a_start (allocator s4) <= b < a_end (allocator s4) -> map_at (memory_regions s3) b = [MEMORY_REGION_AVAILABLE]) ->
    Map (memory_regions s4) /\ (forall b, map_at (memory_regions s4) b = [] <-> map_at (region_of <$> entries) b = []) /\
    (forall b, kernel_start <= b < kernel_end -> map_at (memory_regions s4) b = [MEMORY_REGION_KERNEL]) /\
    (forall b, a_start (allocator s4) <= b < a_end (allocator s4) -> map_at (memory_regions s4) b = [MEMORY_REGION_AVAILABLE])) as Hend
    by (intros s4 ->; done).
  destruct (find_heap (memory_regions s3)) as [r|] eqn:Eh; apply Hend; [done| |done|].
  - cbn [early_mm_init_allocator with_allocator allocator a_start a_end]. apply (heap_available _ _ M3 Eh). intros b Hb.
    rewrite Hcov in Hb. destruct (map_at (region_of <$> entries) b) as [|t l] eqn:Eb; [done|].
    assert (t ∈ map_at (region_of <$> entries) b) as (r' & Hr' & Hc & _)%map_at_elem by (rewrite Eb; apply elem_of_cons; auto).
    apply list_elem_of_fmap in Hr' as (e & -> & He). rewrite Forall_forall in Hbelow. specialize (Hbelow e He).
    unfold covers in Hc. cbn in Hc. lia.
  - rewrite A3, A2, A1. cbn. lia.
Qed.

Lemma early_mm_init_correct_witness :
  let s := early_mm_init [(0, 0x9f000, 1); (0x100000, 0x1000000, 1)] 0x200000 0x280000 [None; Some (0x300000, 0x301000)] initial in
  map_at (memory_regions s) 0x27ffff = [MEMORY_REGION_KERNEL] /\ map_at (memory_regions s) 0x100000 = [MEMORY_REGION_AVAILABLE] /\
  a_start (allocator s) = 0x100000 /\ a_end (allocator s) = 0x200000.
Proof.
  assert (Map (region_of <$> [(0, 0x9f000, 1); (0x100000, 0x1000000, 1)])) as HM.
  { split; [repeat constructor; cbn; lia|]. intros b.
    change (region_of <$> [(0, 0x9f000, 1); (0x100000, 0x1000000, 1)])
      with ([mk_region 0 0x9f000 1] ++ [mk_region 0x100000 0x1000000 1]).
    rewrite map_at_app, !map_at_one. unfold covers. cbn [start size]. repeat case_decide; cbn; lia. }
  destruct (early_mm_init_correct _ 0x200000 0x280000 [None; Some (0x300000, 0x301000)] (0x100000, 0x1000000, 1) HM)
    as (_ & _ & Hk & Ha); [repeat constructor; cbn; lia|unfold sizeof_region, sizeof_early_buffer; cbn; lia|lia
      |repeat constructor; cbn; lia|rewrite !elem_of_cons; tauto|done|cbn; lia|cbn; lia|].
  cbv zeta. split; [apply Hk; lia|]. split; [apply Ha; vm_compute; split; congruence|]. split; reflexivity.
Defined.

(** The counters count twice what is cut: a single region of 16 MB with a kernel of 1 MB
    in it is reported as 31 MB of memory, of which 30 MB are available. *)
Theorem early_counters_count_twice :
  let s := early_mm_init [(0x100000, 0x1000000, 1)] 0x100000 0x200000 [] initial in
  map size (memory_regions s) = [0x100000; 0xf00000] /\
  early_mm_get_total_memory s = 0x1f00000 /\ early_mm_get_available_memory s = 0x1e00000.
Proof. vm_compute. auto. Qed.

(** ** Allocation from the region *)

(** A list of requests, each a size and the logarithm of its alignment: the blocks
    returned. *)
Fixpoint serve (reqs : list (Z * Z)) (s : state) : list (Z * Z * Z) * state :=
  match reqs with
  | [] => ([], s)
  | (n, k) :: reqs =>
      let r := early_mm_alloc n (2 ^ k) s in
      let t := serve reqs r.2 in
      match r.1 with
      | Some (At a) => ((a, n, k) :: t.1, t.2)
      | _ => t
      end
  end.

(** The allocator is set up, below 2 GB. *)
Definition Heap (s : state) : Prop :=
  0 < a_start (allocator s) /\ a_start (allocator s) <= a_current (allocator s) <= a_end (allocator s) /\ a_end (allocator s) < 2 ^ 31.

Lemma early_mm_alloc_ok n k s : Heap s -> 0 <= n < 2 ^ 30 -> 0 <= k <= 20 ->
  let a := align_up (a_current (allocator s)) (2 ^ k) in
  a mod 2 ^ k = 0 /\ a_current (allocator s) <= a < a_current (allocator s) + 2 ^ k /\
  ((a + n <= a_end (allocator s) /\ exists s', early_mm_alloc n (2 ^ k) s = (Some (At a), s') /\ Heap s' /\
      a_current (allocator s') = a + n /\ a_end (allocator s') = a_end (allocator s)) \/
   (a_end (allocator s) < a + n /\ early_mm_alloc n (2 ^ k) s = (None, s))).
Proof.
  intros (H0 & Hc & He) Hn Hk a. assert (0 < 2 ^ k <= 2 ^ 20) as Hp.
  { split; [apply Z.pow_pos_nonneg; lia|apply Z.pow_le_mono_r; lia]. }
  assert (a = (a_current (allocator s) + 2 ^ k - 1) / 2 ^ k * 2 ^ k) as Ea by (apply align_up_pow2; lia).
  pose proof (Z.div_mod (a_current (allocator s) + 2 ^ k - 1) (2 ^ k) ltac:(lia)).
  pose proof (Z.mod_pos_bound (a_current (allocator s) + 2 ^ k - 1) (2 ^ k) ltac:(lia)).
  split; [rewrite Ea; apply Z.mod_mul; lia|]. split; [lia|].
  unfold early_mm_alloc, early_mm_allocator_alloc. rewrite (proj2 (Z.eqb_neq _ 0)) by lia. fold a.
  rewrite u32_small by lia. destruct (Z.ltb_spec (a_end (allocator s)) (a + n)); [by right|]. left.
  split; [lia|]. eexists. split; [done|]. unfold Heap. cbn. lia.
Qed.

(** The blocks the early allocator hands out are aligned as asked, lie one behind the
    other in what is left of its region, and so never overlap; requests that do not fit
    are refused and leave it as it was. *)
Theorem early_blocks_disjoint reqs s : Heap s -> Forall (fun r => 0 <= r.1 < 2 ^ 30 /\ 0 <= r.2 <= 20) reqs ->
  let t := serve reqs s in
  Forall (fun b => let '(a, n, k) := b in a mod 2 ^ k = 0 /\ a_current (allocator s) <= a /\ a + n <= a_current (allocator t.2)) t.1 /\
  StronglySorted (fun x y => x.1.1 + x.1.2 <= y.1.1) t.1 /\
  a_current (allocator s) <= a_current (allocator t.2) <= a_end (allocator s).
Proof.
  revert s. induction reqs as [|[n k] reqs IH]; intros s Hs Hreqs; cbn [serve].
  { cbn [fst snd]. split; [constructor|]. split; [constructor|]. split; [lia|apply Hs]. }
  apply Forall_cons in Hreqs as [[Hn Hk] Hreqs]. cbn [fst snd] in Hn, Hk.
  destruct (early_mm_alloc_ok n k s Hs Hn Hk) as (Hal & Hcur & [(Hend & s' & -> & Hs' & Ec & Ee)|(Hend & ->)]); cbn [fst snd].
  - destruct (IH s' Hs' Hreqs) as (Hb & Hss & Hle). rewrite Ec, Ee in *. cbn [fst snd]. split_and!; [| |lia|lia].
    + constructor; [split_and!; [done|lia|lia]|]. eapply Forall_impl; [exact Hb|]. intros [[a' n'] k'] (? & ? & ?). split_and!; [done|lia|lia].
    + constructor; [done|]. eapply Forall_impl; [exact Hb|]. intros [[a' n'] k'] (? & ? & ?). cbn. lia.
  - by apply IH.
Qed.

Lemma early_blocks_disjoint_witness :
  let s := with_allocator (mk_alloc 0x100000 0x200000 0x100000) initial in
  (serve [(10, 0); (0x1000, 12); (0x200000, 0); (8, 3)] s).1 = [(0x100000, 10, 0); (0x101000, 0x1000, 12); (0x102000, 8, 3)] /\
  a_current (allocator (serve [(10, 0); (0x1000, 12); (0x200000, 0); (8, 3)] s).2) <= 0x200000.
Proof.
  split; [reflexivity|].
  destruct (early_blocks_disjoint [(10, 0); (0x1000, 12); (0x200000, 0); (8, 3)]
    (with_allocator (mk_alloc 0x100000 0x200000 0x100000) initial)) as (_ & _ & _ & H); [unfold Heap; cbn; lia|repeat constructor; cbn; lia|].
  exact H.
Defined.

(** A request so large that the end of the block wraps around is granted. *)
Theorem early_alloc_wraps :
  fst (early_mm_alloc (2 ^ 32 - 0x1000) 1 (with_allocator (mk_alloc 0x100000 0x200000 0x100000) initial)) = Some (At 0x100000).
Proof. reflexivity. Qed.

End Early.
