(* ===== verification/SList.v ===== *)
(** Null-terminated singly linked lists: the chain of addresses that a [next] field links
    together, and what walks over it do. The code has such lists in
    [kernel/security.c]. *)

From S2P Require Import Prelude.

Module SList.

Section SList.
Context {A : Type} (next : A -> option Z).
Implicit Types (m : gmap Z A) (p : option Z) (l : list Z).

(** [chain m p l]: from the pointer [p] the nodes at the addresses [l] follow, and then a
    null pointer. *)
Fixpoint chain m p l : Prop :=
  match l with
  | [] => p = None
  | a :: l => p = Some a /\ exists x, m !! a = Some x /\ chain m (next x) l
  end.

(** The node values of a chain. *)
Fixpoint nodes_of m l : list A :=
  match l with
  | [] => []
  | a :: l => match m !! a with Some x => x :: nodes_of m l | None => nodes_of m l end
  end.

Lemma chain_unique m p l1 l2 : chain m p l1 -> chain m p l2 -> l1 = l2.
Proof.
  revert p l2. induction l1 as [|a l1 IH]; intros p [|b l2]; simpl; [done|naive_solver..|].
  intros [-> (x & Hx & H1)] [[= <-] (y & Hy & H2)]. simplify_eq. f_equal. by eapply IH.
Qed.

Lemma chain_suffix m p l1 a l2 : chain m p (l1 ++ a :: l2) -> chain m (Some a) (a :: l2).
Proof. revert p. induction l1 as [|b l1 IH]; intros p; simpl; naive_solver. Qed.

(** A chain that ends meets no node twice. *)
Lemma chain_NoDup m p l : chain m p l -> NoDup l.
Proof.
  revert p. induction l as [|a l IH]; intros p H; [constructor|].
  destruct (H) as [-> (x & Hx & Hl)]. constructor; [|by eapply IH].
  intros (l1 & l2 & ->)%list_elem_of_split.
  pose proof (chain_suffix _ _ (a :: l1) a l2 H) as Hs.
  pose proof (chain_unique _ _ _ _ H Hs) as E. apply (f_equal length) in E. simpl in E.
  rewrite length_app in E. simpl in E. lia.
Qed.

Lemma chain_dom m p l a : chain m p l -> a ∈ l -> exists x, m !! a = Some x.
Proof. revert p. induction l as [|b l IH]; intros p; simpl; [set_solver|]. set_solver. Qed.

Lemma chain_size m p l : chain m p l -> (length l <= size m)%nat.
Proof.
  intros H. rewrite <-size_dom. rewrite <-(size_list_to_set (C := gset Z)) by (by eapply chain_NoDup).
  apply subseteq_size. intros a Ha%elem_of_list_to_set. destruct (chain_dom _ _ _ _ H Ha). by eapply elem_of_dom_2.
Qed.

(** Only the nodes of the chain matter to it. *)
Lemma chain_ext m m' p l : (forall a, a ∈ l -> m' !! a = m !! a) -> chain m p l -> chain m' p l.
Proof.
  revert p. induction l as [|b l IH]; intros p E; simpl; [done|]. intros [-> (y & Hy & Hl)]. split; [done|]. exists y.
  split; [rewrite E; [done|left]|]. apply IH; [|done]. intros a Ha. apply E. by right.
Qed.

Lemma nodes_of_ext m m' l : (forall a, a ∈ l -> m' !! a = m !! a) -> nodes_of m' l = nodes_of m l.
Proof.
  induction l as [|b l IH]; intros E; simpl; [done|]. rewrite (E b) by left. rewrite IH; [done|]. intros a Ha. apply E. by right.
Qed.

Lemma chain_insert m p l a x : chain m p l -> a ∉ l -> chain (<[a := x]> m) p l.
Proof. intros H Ha. eapply chain_ext; [|done]. intros b Hb. rewrite lookup_insert_ne; [done|]. by intros ->. Qed.

Lemma chain_delete m p l a : chain m p l -> a ∉ l -> chain (delete a m) p l.
Proof. intros H Ha. eapply chain_ext; [|done]. intros b Hb. rewrite lookup_delete_ne; [done|]. by intros ->. Qed.

(** A chain in two parts, and writing the link between them. *)
Lemma chain_behind m p l a x l' :
  chain m p (l ++ a :: l') -> m !! a = Some x -> chain m (next x) l'.
Proof. intros H%chain_suffix Hx. simpl in H. naive_solver. Qed.

Lemma chain_relink m p l a x y l1 l2 :
  chain m p (l ++ a :: l1) -> m !! a = Some x -> chain m (next y) l2 -> a ∉ l2 ->
  chain (<[a := y]> m) p (l ++ a :: l2).
Proof.
  intros H Hx Hy Ha. pose proof (chain_NoDup _ _ _ H) as Hnd. revert p H.
  induction l as [|b l IH]; intros p; simpl in *.
  - intros [-> _]. split; [done|]. exists y. rewrite lookup_insert_eq. auto using chain_insert.
  - apply NoDup_cons in Hnd as [Hb Hnd]. intros [-> (z & Hz & Hl)]. split; [done|]. exists z.
    rewrite lookup_insert_ne by set_solver. auto.
Qed.

Lemma nodes_of_app m l1 l2 : nodes_of m (l1 ++ l2) = nodes_of m l1 ++ nodes_of m l2.
Proof. induction l1 as [|a l1 IH]; simpl; [done|]. rewrite IH. by destruct (m !! a). Qed.

Lemma nodes_of_length m p l : chain m p l -> length (nodes_of m l) = length l.
Proof.
  revert p. induction l as [|a l IH]; intros p; simpl; [done|].
  intros [_ (x & -> & Hl)]. simpl. f_equal. by eapply IH.
Qed.

End SList.
End SList.
