(* ===== verification/CStr.v ===== *)
(** Names in character arrays, as the registries of the kernel compare them. *)

From S2P Require Import Prelude.

Module CStr.

(** [strcmp] of [lib/string.c] on two arrays; running over the end of one is a fault. *)
Fixpoint strcmp (s1 s2 : list Z) : option Z :=
  match s1, s2 with
  | a :: s1, b :: s2 => if negb (a =? 0) && (a =? b) then strcmp s1 s2 else Some (a - b)
  | _, _ => None
  end.

(** The characters before the terminating zero. *)
Fixpoint cstr (s : list Z) : list Z :=
  match s with [] => [] | c :: s => if c =? 0 then [] else c :: cstr s end.

Lemma strcmp_cstr a b : 0 ∈ a -> 0 ∈ b ->
  exists r, strcmp a b = Some r /\ (r =? 0) = bool_decide (cstr a = cstr b).
Proof.
  revert b. induction a as [|x a IH]; intros [|y b] Ha Hb; try by apply not_elem_of_nil in Ha || apply not_elem_of_nil in Hb.
  simpl. destruct (Z.eqb_spec x 0), (Z.eqb_spec x y), (Z.eqb_spec y 0); subst; simpl; try lia.
  - by exists 0.
  - exists (0 - y). split; [done|]. simpl. lia.
  - apply elem_of_cons in Ha as [?|Ha], Hb as [?|Hb]; try lia.
    destruct (IH b Ha Hb) as (r & -> & Hr). exists r. split; [done|]. rewrite Hr. apply bool_decide_ext. split; congruence.
  - exists (x - 0). split; [done|]. simpl. lia.
  - exists (x - y). split; [done|]. rewrite bool_decide_false by congruence. lia.
Qed.

(** [strncpy(comm, name, n); comm[n] = 0] into an array of [n + 1]: the characters of the
    name, at most [n], and zeros. The name is read up to its end or [n] characters. *)
Fixpoint copy_name (n : nat) (name : list Z) : option (list Z) :=
  match n with
  | O => Some [0]
  | S n' =>
      c ← head name;
      if c =? 0 then Some (replicate (S n) 0) else r ← copy_name n' (tail name); Some (c :: r)
  end.

Lemma copy_name_length n name l : copy_name n name = Some l -> length l = S n.
Proof.
  revert name l. induction n as [|n IH]; intros name l; cbn [copy_name]; [by intros [= <-]|].
  intros (c & _ & E)%bind_Some. destruct (c =? 0); [injection E as <-; simpl; by rewrite length_replicate|].
  apply bind_Some in E as (r & Hr & [= <-]). simpl. f_equal. by eapply IH.
Qed.

End CStr.
