(* ===== verification/Links.v ===== *)
(** Structures with embedded list nodes ([struct list_head] fields), as a finite map from
    the heads of lists to the structures on them: every list operation on the pointers is
    an operation on one entry of the map, because no two nodes share an address. *)

From S2P Require Import Prelude KList.

Module Links.
Import KList.

(** The list nodes a component's structures have, with their offsets. *)
Class Fields (F : Type) := { offset : F -> Z }.

(** [&a->f], and [list_entry(p, type, f)]. *)
Definition addr `{Fields F} (a : Z) (f : F) : Z := a + offset f.
Definition list_entry `{Fields F} (p : Z) (f : F) : Z := p - offset f.

(** Which of them are heads of lists, and by which field structures hang in the lists of a
    kind. A node is not both, and hangs in lists of one kind only. *)
Class Linked (F : Type) `{Fields F} := {
  member : F -> option F;
  member_member : forall f m, member f = Some m -> member m = None;
  member_inj : forall f g m, member f = Some m -> member g = Some m -> f = g
}.

Section Links.
Context {F : Type} {F_eq : EqDecision F} {F_countable : Countable F} {F_fields : Fields F} {F_linked : Linked F}.

(** Lists by their heads: kind and structure. *)
Notation links := (gmap (F * Z) (list Z)).

(** The structure [d] is in no list of the kind [f]. *)
Definition free (R : links) (f : F) (d : Z) : Prop := forall a l, R !! (f, a) = Some l -> d ∉ l.

Definition nodes_in (m : F) (l : list Z) : list Z := map (fun d => addr d m) l.

Lemma elem_nodes_in m l y : y ∈ nodes_in m l <-> exists d, y = addr d m /\ d ∈ l.
Proof. apply list_elem_of_fmap. Qed.

Lemma entry_addr d m : list_entry (addr d m) m = d.
Proof. unfold list_entry, addr. lia. Qed.

(** The structures in memory, by the fields they have, and that they do not overlap. *)
Context (live : F -> Z -> Prop).
Context (layout : forall f a g b, live f a -> live g b -> addr a f = addr b g -> f = g /\ a = b).
Implicit Types (h : heap) (R : links) (f g m : F) (a b d : Z) (l : list Z).

Record tracks h R : Prop := {
  tr_node : forall f a, live f a -> node h (addr a f);
  tr_list : forall f a l, R !! (f, a) = Some l -> exists m, member f = Some m /\ live f a /\ Forall (live m) l /\
    is_list h (addr a f) (nodes_in m l);
  tr_once : forall f a b l l' d, R !! (f, a) = Some l -> R !! (f, b) = Some l' -> d ∈ l -> d ∈ l' -> a = b
}.

Lemma tracks_list h R f a l m : tracks h R -> R !! (f, a) = Some l -> member f = Some m ->
  live f a /\ Forall (live m) l /\ is_list h (addr a f) (nodes_in m l).
Proof. intros HT E Hm. destruct (tr_list _ _ HT _ _ _ E) as (m' & E' & H). simplify_eq. done. Qed.

Lemma tracks_NoDup h R f a l : tracks h R -> R !! (f, a) = Some l -> NoDup l.
Proof.
  intros HT E. destruct (tr_list _ _ HT _ _ _ E) as (m & _ & _ & _ & [Hnd _]). apply NoDup_cons in Hnd as [_ Hnd].
  by apply NoDup_fmap_1 in Hnd.
Qed.

(** An operation on the list of [(f, a)] that touches only its nodes and those of
    structures that are in no other list of the kind. *)
Lemma tracks_set h h' R f a m l ps : tracks h R -> member f = Some m -> live f a -> Forall (live m) l ->
  is_list h' (addr a f) (nodes_in m l) -> others h h' ps ->
  (forall y, y ∈ ps -> y = addr a f \/ exists d, y = addr d m /\ live m d /\ free (delete (f, a) R) f d) ->
  (forall d, d ∈ l -> free (delete (f, a) R) f d) -> tracks h' (<[(f, a) := l]> R).
Proof.
  intros HT Hm Hl Hlm HL HO Hps Hfree. split.
  - intros g b Hg. apply HO, (tr_node _ _ HT _ _ Hg).
  - intros g b l' E. destruct (decide ((g, b) = (f, a))) as [E'|Hne].
    + rewrite E', lookup_insert_eq in E. simplify_eq. by exists m.
    + rewrite lookup_insert_ne in E by done. destruct (tr_list _ _ HT _ _ _ E) as (m' & Hm' & Hb & Hlm' & HL').
      exists m'. split; [done|]. split; [done|]. split; [done|]. apply (list_frame h h' _ _ ps HL' HO).
      intros y Hy Hin. apply elem_of_cons in Hy as [->|(d' & -> & Hd')%elem_nodes_in];
        [|pose proof (proj1 (Forall_forall _ _) Hlm' _ Hd') as Hld'];
        apply Hps in Hin as [Ea|(d & Ea & Hd & Hf)]; apply layout in Ea as [-> ->]; try done.
      * by apply member_member in Hm; rewrite Hm in Hm'.
      * by apply member_member in Hm'; rewrite Hm in Hm'.
      * rewrite (member_inj _ _ _ Hm' Hm) in *. apply (Hf b l'); [|done]. by rewrite lookup_delete_ne.
  - intros g b b' l1 l2 d E1 E2 Hd1 Hd2.
    destruct (decide ((g, b) = (f, a))) as [Eb|Nb], (decide ((g, b') = (f, a))) as [Eb'|Nb']; simplify_eq; try done.
    + rewrite lookup_insert_eq in E1. rewrite lookup_insert_ne in E2 by done. simplify_eq. destruct (Hfree d Hd1 b' l2); [|done].
      by rewrite lookup_delete_ne.
    + rewrite lookup_insert_eq in E2. rewrite lookup_insert_ne in E1 by done. simplify_eq. destruct (Hfree d Hd2 b l1); [|done].
      by rewrite lookup_delete_ne.
    + rewrite lookup_insert_ne in E1, E2 by done. by eapply (tr_once _ _ HT g b b').
Qed.

Lemma free_delete R f a d : free R f d -> free (delete (f, a) R) f d.
Proof. intros H b l (_ & E)%lookup_delete_Some. by eapply H. Qed.

Lemma once_free h R f a l d : tracks h R -> R !! (f, a) = Some l -> d ∈ l -> free (delete (f, a) R) f d.
Proof. intros HT E Hd b l' (Hne & E')%lookup_delete_Some Hd'. destruct Hne. by rewrite (tr_once _ _ HT f a b l l' d). Qed.

(** A list is given up. *)
Lemma tracks_delete h R k : tracks h R -> tracks h (delete k R).
Proof.
  intros [H1 H2 H3]. split; [done| |].
  - intros f a l [_ E]%lookup_delete_Some. by apply H2.
  - intros f a b l l' d [_ E]%lookup_delete_Some [_ E']%lookup_delete_Some. by eapply H3.
Qed.

(** A node that is in no list and no head of one is written. *)
Lemma tracks_untouched h h' R m d : tracks h R -> live m d -> others h h' [addr d m] -> R !! (m, d) = None ->
  (forall f, member f = Some m -> free R f d) -> tracks h' R.
Proof.
  intros HT Hd HO HR Hf. split.
  - intros g b Hg. apply HO, (tr_node _ _ HT _ _ Hg).
  - intros g b l E. destruct (tr_list _ _ HT _ _ _ E) as (m' & Hm' & Hb & Hl & HL). exists m'. split; [done|]. split; [done|]. split; [done|].
    apply (list_frame h h' _ _ _ HL HO). intros y Hy ->%list_elem_of_singleton.
    apply elem_of_cons in Hy as [Ea|(d' & Ea & Hd')%elem_nodes_in]; apply layout in Ea as [<- <-]; try done.
    + congruence.
    + by apply (Hf g Hm' b l).
    + by apply (proj1 (Forall_forall _ _) Hl).
  - apply HT.
Qed.

Lemma init_node h R m d : tracks h R -> live m d -> R !! (m, d) = None -> (forall f, member f = Some m -> free R f d) ->
  exists h', list_init (addr d m) h = Some h' /\ tracks h' R.
Proof.
  intros HT Hd HR Hf. destruct (list_init_ok (addr d m) h) as (h' & E & _ & HO); [by apply (tr_node _ _ HT)|].
  exists h'. split; [done|]. by eapply tracks_untouched.
Qed.

Lemma init_head h R f a m : tracks h R -> live f a -> member f = Some m -> (forall l, R !! (f, a) = Some l -> l = []) ->
  exists h', list_init (addr a f) h = Some h' /\ tracks h' (<[(f, a) := []]> R).
Proof.
  intros HT Ha Hm HR. destruct (list_init_ok (addr a f) h) as (h' & E & HL & HO); [by apply (tr_node _ _ HT)|].
  exists h'. split; [done|]. apply (tracks_set h h' R f a m [] [addr a f]); try done.
  - intros y ->%list_elem_of_singleton. by left.
  - by intros d ?%not_elem_of_nil.
Qed.

(** Nodes of a list, as the places they are. *)
Lemma places f a m l : Forall (live m) l -> forall y, y ∈ addr a f :: nodes_in m l -> y = addr a f \/ exists d, y = addr d m /\ live m d /\ d ∈ l.
Proof.
  intros Hl y [->|(d & -> & Hd)%elem_nodes_in]%elem_of_cons; [by left|]. right. exists d. split; [done|]. split; [|done].
  by apply (proj1 (Forall_forall _ _) Hl).
Qed.

(** A structure in no list of the kind is not among the nodes of a list. *)
Lemma link_not_listed h R f a m l d : tracks h R -> R !! (f, a) = Some l -> member f = Some m -> live m d -> free R f d -> addr d m ∉ addr a f :: nodes_in m l.
Proof.
  intros HT E Hm Hd Hf. destruct (tracks_list _ _ _ _ _ _ HT E Hm) as (Ha & Hl & HL).
  intros [Ea|(d' & Ea & Hd')%elem_nodes_in]%elem_of_cons; apply layout in Ea as [Ef Ed]; try done.
  - subst. by apply member_member in Hm as Hm'; rewrite Hm in Hm'.
  - subst. by apply (Hf a l).
  - by apply (proj1 (Forall_forall _ _) Hl).
Qed.

Lemma add_places h R f a m l d : tracks h R -> R !! (f, a) = Some l -> member f = Some m -> live m d -> free R f d ->
  forall y, y ∈ addr d m :: addr a f :: nodes_in m l -> y = addr a f \/ exists d, y = addr d m /\ live m d /\ free (delete (f, a) R) f d.
Proof.
  intros HT E Hm Hd Hf y [->|Hy]%elem_of_cons; [right; exists d; split_and!; try done; by apply free_delete|].
  destruct (tracks_list _ _ _ _ _ _ HT E Hm) as (_ & Hl & _).
  destruct (places f a m l Hl y Hy) as [->|(d' & -> & Hd' & Hin)]; [by left|]. right. exists d'. split_and!; try done. by eapply once_free.
Qed.

Lemma add_link h R f a m l d : tracks h R -> R !! (f, a) = Some l -> member f = Some m -> live m d -> free R f d ->
  exists h', list_add (addr d m) (addr a f) h = Some h' /\ tracks h' (<[(f, a) := d :: l]> R).
Proof.
  intros HT E Hm Hd Hf. destruct (tracks_list _ _ _ _ _ _ HT E Hm) as (Ha & Hl & HL). pose proof (link_not_listed h R f a m l d HT E Hm Hd Hf) as Hn.
  destruct (list_add_ok h (addr a f) [] (nodes_in m l) (addr d m) HL Hn (tr_node _ _ HT _ _ Hd)) as (h' & Ea & HL' & HO).
  exists h'. split; [done|]. apply (tracks_set h h' R f a m (d :: l) (addr d m :: addr a f :: nodes_in m l)); try done.
  - by constructor.
  - by eapply add_places.
  - intros d' [->|Hin]%elem_of_cons; [by apply free_delete|by eapply once_free].
Qed.

Lemma add_tail_link h R f a m l d : tracks h R -> R !! (f, a) = Some l -> member f = Some m -> live m d -> free R f d ->
  exists h', list_add_tail (addr d m) (addr a f) h = Some h' /\ tracks h' (<[(f, a) := l ++ [d]]> R).
Proof.
  intros HT E Hm Hd Hf. destruct (tracks_list _ _ _ _ _ _ HT E Hm) as (Ha & Hl & HL).
  pose proof (link_not_listed h R f a m l d HT E Hm Hd Hf) as Hn. rewrite <-(app_nil_r (nodes_in m l)) in HL, Hn.
  destruct (list_add_tail_ok h (addr a f) (nodes_in m l) [] (addr d m) HL Hn (tr_node _ _ HT _ _ Hd)) as (h' & Ea & HL' & HO).
  rewrite app_nil_r in HO. exists h'. split; [done|]. apply (tracks_set h h' R f a m (l ++ [d]) (addr d m :: addr a f :: nodes_in m l)); try done.
  - apply Forall_app. split; [done|]. by constructor.
  - unfold nodes_in. by rewrite map_app.
  - by eapply add_places.
  - intros d' [Hin|Hin]%elem_of_app; [by eapply once_free|]. apply list_elem_of_singleton in Hin as ->. by apply free_delete.
Qed.

(** The list [l] without [d]. *)
Definition without d l : list Z := filter (fun x => x <> d) l.

Lemma without_split d l1 l2 : NoDup (l1 ++ d :: l2) -> without d (l1 ++ d :: l2) = l1 ++ l2.
Proof.
  intros (H1 & H2 & [H3 _]%NoDup_cons)%NoDup_app. unfold without. rewrite filter_app, filter_cons_False by tauto. f_equal; apply filter_all.
  - apply Forall_forall. intros x Hx ->. apply (H2 d Hx). left.
  - apply Forall_forall. by intros x Hx ->.
Qed.

Lemma elem_without d l x : x ∈ without d l <-> x ∈ l /\ x <> d.
Proof. unfold without. rewrite list_elem_of_filter. tauto. Qed.

Lemma del_link h R f a m l d : tracks h R -> R !! (f, a) = Some l -> member f = Some m -> d ∈ l ->
  exists h', list_del (addr d m) h = Some h' /\ tracks h' (<[(f, a) := without d l]> R).
Proof.
  intros HT E Hm Hd. destruct (tracks_list _ _ _ _ _ _ HT E Hm) as (Ha & Hl & HL). pose proof (tracks_NoDup _ _ _ _ _ HT E) as Hnd.
  destruct (list_elem_of_split _ _ Hd) as (l1 & l2 & ->). rewrite without_split by done.
  unfold nodes_in in HL. rewrite map_app in HL. destruct (list_del_ok h (addr a f) _ (addr d m) _ HL) as (h' & Ed & HL' & _ & _ & HO).
  exists h'. split; [done|]. apply (tracks_set h h' R f a m (l1 ++ l2) (addr a f :: nodes_in m (l1 ++ d :: l2))); try done.
  - rewrite Forall_app, Forall_cons in Hl. apply Forall_app. tauto.
  - unfold nodes_in. by rewrite map_app.
  - unfold nodes_in. by rewrite map_app.
  - intros y Hy. destruct (places f a m _ Hl y Hy) as [->|(d' & -> & Hd' & Hin)]; [by left|]. right. exists d'. split_and!; try done. by eapply once_free.
  - intros d' Hin. eapply once_free; [done|done|]. rewrite elem_of_app, elem_of_cons. rewrite elem_of_app in Hin. tauto.
Qed.

Lemma clear_links h R f a m l fuel : tracks h R -> R !! (f, a) = Some l -> member f = Some m -> (length l < fuel)%nat ->
  exists h', list_clear fuel (addr a f) h = Some (nodes_in m l, h') /\ tracks h' (<[(f, a) := []]> R).
Proof.
  intros HT E Hm Hf. destruct (tracks_list _ _ _ _ _ _ HT E Hm) as (Ha & Hl & HL).
  destruct (list_clear_ok fuel h (addr a f) (nodes_in m l) HL) as (h' & Ec & HL' & HO); [unfold nodes_in; by rewrite length_map|].
  exists h'. split; [done|]. apply (tracks_set h h' R f a m [] (addr a f :: nodes_in m l)); try done.
  - intros y Hy. destruct (places f a m l Hl y Hy) as [->|(d' & -> & Hd' & Hin)]; [by left|]. right. exists d'. split_and!; try done. by eapply once_free.
  - by intros d ?%not_elem_of_nil.
Qed.

(** A walk with a test of the structures. *)
Lemma walk_links h R f a m l fuel test t : tracks h R -> R !! (f, a) = Some l -> member f = Some m -> (length l < fuel)%nat ->
  (forall d, d ∈ l -> test d = Some (t d)) ->
  list_for_each_entry fuel (fun p => test (list_entry p m)) (addr a f) h = Some (option_map (fun d => addr d m) (List.find t l)).
Proof.
  intros HT E Hm Hf Ht. destruct (tracks_list _ _ _ _ _ _ HT E Hm) as (Ha & Hl & HL).
  rewrite (list_for_each_entry_ok h (addr a f) (nodes_in m l) _ (fun p => t (list_entry p m)) fuel HL).
  - clear. f_equal. induction l as [|d l IH]; [done|]. simpl. rewrite entry_addr. by destruct (t d).
  - unfold nodes_in. by rewrite length_map.
  - intros y (d & -> & Hd)%elem_nodes_in. rewrite entry_addr. auto.
Qed.

Lemma next_link h R f a m l1 d l2 : tracks h R -> R !! (f, a) = Some (l1 ++ d :: l2) -> member f = Some m ->
  next h !! addr d m = Some (List.hd (addr a f) (nodes_in m l2)).
Proof.
  intros HT E Hm. destruct (tracks_list _ _ _ _ _ _ HT E Hm) as (_ & _ & HL). unfold nodes_in in HL. rewrite map_app in HL.
  by apply (next_ok h (addr a f) _ _ _ HL).
Qed.

Lemma first_link h R f a m l : tracks h R -> R !! (f, a) = Some l -> member f = Some m ->
  next h !! addr a f = Some (List.hd (addr a f) (nodes_in m l)).
Proof. intros HT E Hm. destruct (tracks_list _ _ _ _ _ _ HT E Hm) as (_ & _ & HL). by apply first_ok. Qed.

(** A list is no longer than there are structures. *)
Lemma links_bound {A} h R f a l (M : gmap Z A) : tracks h R -> R !! (f, a) = Some l -> (forall d, d ∈ l -> is_Some (M !! d)) ->
  (length l < S (size M))%nat.
Proof.
  intros HT E HM. pose proof (tracks_NoDup _ _ _ _ _ HT E) as Hnd.
  rewrite <-(size_dom (D := gset Z) M), <-(size_list_to_set (C := gset Z)) by done.
  apply Nat.lt_succ_r, subseteq_size. intros d Hd%elem_of_list_to_set. apply elem_of_dom. auto.
Qed.

End Links.
End Links.
