(* ===== verification/ByteRing.v ===== *)
(** The ring buffers of tracing and profiling: [trace_buffer_t] of [kernel/trace.c], of
    which [profile_buffer_t] of [kernel/profile.c] is a copy, and their refinement of a
    bounded queue of bytes. *)

From S2P Require Import Prelude Bytes.

Module ByteRing.
Import Bytes.

Definition ENOMEM : Z := 12.
Definition EINVAL : Z := 22.

(** [buffer] is [None] for a null pointer; otherwise the allocated bytes. *)
Record trace_buffer := mk_buffer { buffer : option (list Z); size : Z; head : Z; tail : Z }.
Implicit Types (b : trace_buffer) (data : list Z).

Definition with_head (h : Z) b : trace_buffer := mk_buffer (buffer b) (size b) h (tail b).
Definition with_tail (t : Z) b : trace_buffer := mk_buffer (buffer b) (size b) (head b) t.

(** [memcpy(buffer->buffer + off, data + from, n)] *)
Definition store (off : Z) data (from n : Z) b : option trace_buffer :=
  l ← buffer b; l ← blit l off data from n; Some (mk_buffer (Some l) (size b) (head b) (tail b)).

(** Whether [kmalloc] gives memory, which it clears, is a parameter. *)
Definition trace_buffer_init (mem : bool) (n : Z) (b : option trace_buffer) : Z * option trace_buffer :=
  match b with
  | None => (- EINVAL, None)
  | Some b =>
      if n =? 0 then (- EINVAL, Some b)
      else if mem then (0, Some (mk_buffer (Some (replicate (Z.to_nat n) 0)) n 0 0))
      else (- ENOMEM, Some (mk_buffer None (size b) (head b) (tail b)))
  end.

Definition trace_buffer_free (b : option trace_buffer) : Z * option trace_buffer :=
  match b with
  | None => (- EINVAL, None)
  | Some b => (0, Some (mk_buffer None (size b) (head b) (tail b)))
  end.

Definition trace_buffer_used (b : option trace_buffer) : Z :=
  match b with
  | None => 0
  | Some b => if tail b <=? head b then u32 (head b - tail b) else u32 (u32 (size b - tail b) + head b)
  end.

Definition trace_buffer_free_space (b : option trace_buffer) : Z :=
  match b with None => 0 | Some b' => u32 (u32 (size b' - trace_buffer_used b) - 1) end.

Definition trace_buffer_write (b : option trace_buffer) (data : option (list Z)) (n : Z) : option (Z * option trace_buffer) :=
  match b, data with
  | Some b, Some d =>
      if n =? 0 then Some (- EINVAL, Some b)
      else
        let space := trace_buffer_free_space (Some b) in
        if space <? n then Some (0, Some b)
        else if u32 (head b + n) <=? size b then
          b ← store (head b) d 0 n b;
          let b := with_head (u32 (head b + n)) b in
          Some (s32 n, Some (if head b =? size b then with_head 0 b else b))
        else
          let first_chunk := u32 (size b - head b) in
          let second_chunk := u32 (n - first_chunk) in
          b ← store (head b) d 0 first_chunk b;
          b ← store 0 d first_chunk second_chunk b;
          Some (s32 n, Some (with_head second_chunk b))
  | _, _ => Some (- EINVAL, b)
  end.

(** [data] is the caller's memory, which is returned as it is afterwards. *)
Definition trace_buffer_read (b : option trace_buffer) (data : option (list Z)) (n : Z) : option (Z * option (list Z) * option trace_buffer) :=
  match b, data with
  | Some b, Some d =>
      if n =? 0 then Some (- EINVAL, Some d, Some b)
      else
        let available := trace_buffer_used (Some b) in
        if available =? 0 then Some (0, Some d, Some b)
        else
          let n := if available <? n then available else n in
          l ← buffer b;
          if u32 (tail b + n) <=? size b then
            d ← blit d 0 l (tail b) n;
            let b := with_tail (u32 (tail b + n)) b in
            Some (s32 n, Some d, Some (if tail b =? size b then with_tail 0 b else b))
          else
            let first_chunk := u32 (size b - tail b) in
            let second_chunk := u32 (n - first_chunk) in
            d ← blit d 0 l (tail b) first_chunk;
            d ← blit d first_chunk l 0 second_chunk;
            Some (s32 n, Some d, Some (with_tail second_chunk b))
  | _, _ => Some (- EINVAL, data, b)
  end.

Definition trace_buffer_clear (b : option trace_buffer) : Z * option trace_buffer :=
  match b with None => (- EINVAL, None) | Some b => (0, Some (with_tail 0 (with_head 0 b))) end.

Definition trace_buffer_is_empty (b : option trace_buffer) : bool :=
  match b with None => true | Some b => head b =? tail b end.

Definition trace_buffer_is_full (b : option trace_buffer) : bool :=
  match b with
  | None => false
  | Some b =>
      let next_head := u32 (head b + 1) in
      (if next_head =? size b then 0 else next_head) =? tail b
  end.

(** ** Rings as queues *)

(** The ring [b] holds the bytes [q], oldest first: in one piece, or in two around the end
    of the memory. One byte is always free. *)
Inductive holds : trace_buffer -> list Z -> Prop :=
  | Flat (A Q R : list Z) (HR : R <> []) :
      holds (mk_buffer (Some (A ++ Q ++ R)) (len A + len Q + len R) (len A + len Q) (len A)) Q
  | Wrapped (Q2 F Q1 : list Z) (HF : F <> []) (HQ : Q1 <> []) :
      holds (mk_buffer (Some (Q2 ++ F ++ Q1)) (len Q2 + len F + len Q1) (len Q2) (len Q2 + len F)) (Q1 ++ Q2).

(** Half of the 32-bit range keeps the sums of indices from wrapping around. *)
Definition small b : Prop := size b <= 2 ^ 31.

Lemma used_ok b q : holds b q -> small b -> trace_buffer_used (Some b) = len q /\ len q < size b.
Proof.
  intros [A Q R HR%len_pos|Q2 F Q1 HF%len_pos HQ%len_pos] Hs; unfold small in Hs; cbn [trace_buffer_used size head tail] in *.
  - destruct (Z.leb_spec (len A) (len A + len Q)); [|lia]. rewrite u32_small by lia. lia.
  - destruct (Z.leb_spec (len Q2 + len F) (len Q2)); [lia|]. rewrite length_app, (u32_small (_ - _)), u32_small by lia. lia.
Qed.

Lemma free_ok b q : holds b q -> small b -> trace_buffer_free_space (Some b) = size b - len q - 1.
Proof.
  intros H Hs. destruct (used_ok b q H Hs) as [E Hu]. unfold trace_buffer_free_space. rewrite E. unfold small in Hs.
  rewrite (u32_small (size b - len q)), u32_small by lia. done.
Qed.

(** The two shapes with their equations, to build them after an operation. *)
Lemma flat_eq b l n h t A Q R : R <> [] -> b = mk_buffer (Some l) n h t -> l = A ++ Q ++ R -> n = len A + len Q + len R -> h = len A + len Q -> t = len A -> holds b Q.
Proof. intros HR -> -> -> -> ->. by apply Flat. Qed.

Lemma wrapped_eq b q l n h t Q2 F Q1 : F <> [] -> Q1 <> [] -> b = mk_buffer (Some l) n h t -> l = Q2 ++ F ++ Q1 -> n = len Q2 + len F + len Q1 -> h = len Q2 ->
  t = len Q2 + len F -> q = Q1 ++ Q2 -> holds b q.
Proof. intros HF HQ -> -> -> -> -> ->. by apply Wrapped. Qed.

(** The write of [d] into [b] makes [b'] and returns the length. *)
Definition writes b (d rest : list Z) b' : Prop :=
  trace_buffer_write (Some b) (Some (d ++ rest)) (len d) = Some (len d, Some b').

Lemma write_start b q d rest : holds b q -> small b -> d <> [] -> len q + len d < size b ->
  trace_buffer_write (Some b) (Some (d ++ rest)) (len d) =
    if head b + len d <=? size b
    then b ← store (head b) (d ++ rest) 0 (len d) b;
         let b := with_head (head b + len d) b in Some (len d, Some (if head b =? size b then with_head 0 b else b))
    else let first_chunk := size b - head b in
         b ← store (head b) (d ++ rest) 0 first_chunk b; b ← store 0 (d ++ rest) first_chunk (len d - first_chunk) b;
         Some (len d, Some (with_head (len d - first_chunk) b)).
Proof.
  intros H Hs Hd%len_pos Hq. unfold trace_buffer_write. destruct (Z.eqb_spec (len d) 0); [lia|]. rewrite (free_ok b q H Hs).
  destruct (Z.ltb_spec (size b - len q - 1) (len d)); [lia|]. unfold small in Hs. assert (0 <= head b < size b) as Hh.
  { destruct H as [A Q R HR%len_pos|Q2 F Q1 HF%len_pos HQ%len_pos]; cbn [size head] in *; lia. }
  rewrite (u32_small (head b + len d)), s32_small by lia. destruct (Z.leb_spec (head b + len d) (size b)).
  - unfold store. destruct (buffer b) as [l|]; [|done]. rewrite !bind_Some_l. destruct (blit l _ _ _ _); [|done]. simpl. by rewrite u32_small by lia.
  - rewrite (u32_small (size b - head b)), (u32_small (len d - _)) by lia. done.
Qed.

Lemma write_flat_end A Q R d rest : len d <= len R -> d <> [] -> R <> [] -> len Q + len d < len A + len Q + len R -> len A + len Q + len R <= 2 ^ 31 ->
  exists b', size b' = len A + len Q + len R /\ writes (mk_buffer (Some (A ++ Q ++ R)) (len A + len Q + len R) (len A + len Q) (len A)) d rest b' /\ holds b' (Q ++ d).
Proof.
  intros Hle Hd HR Hq Hs. unfold writes. rewrite (write_start _ Q) by (done || by apply Flat). cbn [size head]. pose proof (len_pos d Hd).
  destruct (Z.leb_spec (len A + len Q + len d) (len A + len Q + len R)); [|lia]. destruct (split_at R (len d)) as (R1 & R2 & -> & HR1); [lia|].
  unfold store. cbn [buffer]. rewrite bind_Some_l. replace (A ++ Q ++ R1 ++ R2) with ((A ++ Q) ++ R1 ++ R2) by apps.
  change (d ++ rest) with ([] ++ d ++ rest). rewrite (blit_pieces (A ++ Q) R1 R2 [] d rest) by lens. rewrite !bind_Some_l. cbv zeta. cbn [with_head buffer size head tail].
  destruct (Z.eqb_spec (len A + len Q + len d) (len A + len Q + len (R1 ++ R2))) as [E|E]; (eexists; split; [|split; [done|]]; [done|]).
  - eapply (wrapped_eq _ _ _ _ _ _ [] A (Q ++ d)); [apply nonempty; lens|apply nonempty; lens|reflexivity| |lens|done|done|apps].
    assert (R2 = []) as -> by (apply length_zero_iff_nil; lens). apps.
  - eapply (flat_eq _ _ _ _ _ A (Q ++ d) R2); [apply nonempty; lens|reflexivity|apps|lens|lens|done].
Qed.

Lemma write_flat_around A Q R d rest : len R < len d -> R <> [] -> len Q + len d < len A + len Q + len R -> len A + len Q + len R <= 2 ^ 31 ->
  exists b', size b' = len A + len Q + len R /\ writes (mk_buffer (Some (A ++ Q ++ R)) (len A + len Q + len R) (len A + len Q) (len A)) d rest b' /\ holds b' (Q ++ d).
Proof.
  intros Hlt HR Hq Hs. unfold writes. rewrite (write_start _ Q) by (done || (by apply Flat) || (apply nonempty; lia)). cbn [size head]. pose proof (len_pos R HR).
  destruct (Z.leb_spec (len A + len Q + len d) (len A + len Q + len R)); [lia|]. cbv zeta. replace (len A + len Q + len R - (len A + len Q)) with (len R) by lia.
  destruct (split_at d (len R)) as (d1 & d2 & -> & Hd1); [lia|]. destruct (split_at A (len d2)) as (A1 & A2 & -> & HA1); [lens|].
  unfold store. cbn [buffer]. rewrite bind_Some_l. replace ((A1 ++ A2) ++ Q ++ R) with (((A1 ++ A2) ++ Q) ++ R ++ []) by apps.
  replace ((d1 ++ d2) ++ rest) with ([] ++ d1 ++ d2 ++ rest) by apps. rewrite (blit_pieces _ R [] [] d1 (d2 ++ rest)) by lens. rewrite !bind_Some_l. cbn [buffer]. rewrite bind_Some_l.
  replace (((A1 ++ A2) ++ Q) ++ d1 ++ []) with ([] ++ A1 ++ A2 ++ Q ++ d1) by apps. cbn [app].
  rewrite (blit_pieces [] A1 (A2 ++ Q ++ d1) d1 d2 rest) by lens. rewrite bind_Some_l. cbn [with_head buffer size head tail app]. eexists. split; [|split; [done|]]; [done|].
  eapply (wrapped_eq _ _ _ _ _ _ d2 A2 (Q ++ d1)); [apply nonempty; lens|apply nonempty; lens|reflexivity|apps|lens|lens|lens|apps].
Qed.

Lemma write_wrapped Q2 F Q1 d rest : d <> [] -> F <> [] -> Q1 <> [] -> len d < len F -> len Q2 + len F + len Q1 <= 2 ^ 31 ->
  exists b', size b' = len Q2 + len F + len Q1 /\ writes (mk_buffer (Some (Q2 ++ F ++ Q1)) (len Q2 + len F + len Q1) (len Q2) (len Q2 + len F)) d rest b' /\ holds b' ((Q1 ++ Q2) ++ d).
Proof.
  intros Hd HF HQ Hlt Hs. unfold writes. rewrite (write_start _ (Q1 ++ Q2)); [|by apply Wrapped|done|done|simpl; lens]. cbn [size head]. pose proof (len_pos d Hd). pose proof (len_pos _ HQ).
  destruct (Z.leb_spec (len Q2 + len d) (len Q2 + len F + len Q1)); [|lia]. destruct (split_at F (len d)) as (F1 & F2 & -> & HF1); [lia|].
  unfold store. cbn [buffer]. rewrite bind_Some_l. replace (Q2 ++ (F1 ++ F2) ++ Q1) with (Q2 ++ F1 ++ F2 ++ Q1) by apps.
  change (d ++ rest) with ([] ++ d ++ rest). rewrite (blit_pieces Q2 F1 (F2 ++ Q1) [] d rest) by lens. rewrite !bind_Some_l. cbv zeta. cbn [with_head buffer size head tail].
  destruct (Z.eqb_spec (len Q2 + len d) (len Q2 + len (F1 ++ F2) + len Q1)); [lens|]. eexists. split; [|split; [done|]]; [done|].
  eapply (wrapped_eq _ _ _ _ _ _ (Q2 ++ d) F2 Q1); [apply nonempty; lens|done|reflexivity|apps|lens|lens|lens|apps].
Qed.

(** A write adds all bytes at the end or, without room, none. *)
Lemma ring_write_ok b q d rest : holds b q -> small b -> d <> [] ->
  exists b', size b' = size b /\
    trace_buffer_write (Some b) (Some (d ++ rest)) (len d) = Some (if len q + len d <? size b then len d else 0, Some b') /\
    holds b' (if len q + len d <? size b then q ++ d else q).
Proof.
  intros H Hs Hd. destruct (Z.ltb_spec (len q + len d) (size b)) as [Hlt|Hge].
  - unfold small in Hs. destruct H as [A Q R HR|Q2 F Q1 HF HQ]; cbn [size] in *.
    + destruct (Z.le_gt_cases (len d) (len R)); [by apply write_flat_end|apply write_flat_around; (done || lia)].
    + apply write_wrapped; try done. lens.
  - exists b. split; [done|]. split; [|done]. pose proof (len_pos d Hd). destruct (used_ok b q H Hs) as [_ Hq]. unfold trace_buffer_write.
    destruct (Z.eqb_spec (len d) 0); [lia|]. rewrite (free_ok b q H Hs). by destruct (Z.ltb_spec (size b - len q - 1) (len d)); [|lia].
Qed.

(** The read of [n] bytes of [b] into [dst] makes [dst'] and [b'] and returns [m]. *)
Definition reads b (dst : list Z) (n m : Z) (dst' : list Z) b' : Prop :=
  trace_buffer_read (Some b) (Some dst) n = Some (m, Some dst', Some b').

Lemma read_start b q dst n l : holds b q -> small b -> 0 < n -> 0 < len q -> buffer b = Some l ->
  let m := Z.min n (len q) in
  trace_buffer_read (Some b) (Some dst) n =
    if tail b + m <=? size b
    then d ← blit dst 0 l (tail b) m;
         let b := with_tail (tail b + m) b in Some (m, Some d, Some (if tail b =? size b then with_tail 0 b else b))
    else let first_chunk := size b - tail b in
         d ← blit dst 0 l (tail b) first_chunk; d ← blit d first_chunk l 0 (m - first_chunk);
         Some (m, Some d, Some (with_tail (m - first_chunk) b)).
Proof.
  intros H Hs Hn Hq El m. destruct (used_ok b q H Hs) as [Eu Hu]. unfold trace_buffer_read. destruct (Z.eqb_spec n 0); [lia|]. rewrite Eu.
  destruct (Z.eqb_spec (len q) 0); [lia|]. assert ((if len q <? n then len q else n) = m) as -> by (destruct (Z.ltb_spec (len q) n); lia).
  rewrite El, bind_Some_l. unfold small in Hs. assert (0 <= tail b < size b) as Ht.
  { destruct H as [A Q R HR%len_pos|Q2 F Q1 HF%len_pos HQ%len_pos]; cbn [size tail] in *; lia. }
  assert (0 < m < size b) as Hm by lia. rewrite (u32_small (tail b + m)), s32_small by lia. destruct (Z.leb_spec (tail b + m) (size b)).
  - destruct (blit dst _ _ _ _); done.
  - rewrite (u32_small (size b - tail b)), (u32_small (m - _)) by lia. done.
Qed.

Lemma read_flat A q1 q2 R d0 d1 n : 0 < len q1 -> R <> [] -> length d0 = length q1 -> Z.min n (len (q1 ++ q2)) = len q1 ->
  len A + len (q1 ++ q2) + len R <= 2 ^ 31 ->
  exists b', size b' = len A + len (q1 ++ q2) + len R /\
    reads (mk_buffer (Some (A ++ (q1 ++ q2) ++ R)) (len A + len (q1 ++ q2) + len R) (len A + len (q1 ++ q2)) (len A)) (d0 ++ d1) n (len q1) (q1 ++ d1) b' /\ holds b' q2.
Proof.
  intros H1 HR Hd Hm Hs. unfold reads. erewrite (read_start _ (q1 ++ q2) _ n); [|by apply Flat|done|lens|lens|done]. rewrite Hm. cbn [size tail]. pose proof (len_pos R HR).
  destruct (Z.leb_spec (len A + len q1) (len A + len (q1 ++ q2) + len R)); [|lens]. replace (A ++ (q1 ++ q2) ++ R) with (A ++ q1 ++ q2 ++ R) by apps.
  change (d0 ++ d1) with ([] ++ d0 ++ d1). rewrite (blit_pieces [] d0 d1 A q1 (q2 ++ R)) by lens. rewrite bind_Some_l. cbv zeta. cbn [with_tail buffer size head tail].
  destruct (Z.eqb_spec (len A + len q1) (len A + len (q1 ++ q2) + len R)); [lens|]. eexists. split; [|split; [done|]]; [done|].
  eapply (flat_eq _ _ _ _ _ (A ++ q1) q2 R); [done|reflexivity|apps|lens|lens|lens].
Qed.

Lemma read_wrapped_end Q2 F q1 Q1 d0 d1 n : 0 < len q1 -> F <> [] -> length d0 = length q1 -> Z.min n (len ((q1 ++ Q1) ++ Q2)) = len q1 ->
  len Q2 + len F + len (q1 ++ Q1) <= 2 ^ 31 ->
  exists b', size b' = len Q2 + len F + len (q1 ++ Q1) /\
    reads (mk_buffer (Some (Q2 ++ F ++ q1 ++ Q1)) (len Q2 + len F + len (q1 ++ Q1)) (len Q2) (len Q2 + len F)) (d0 ++ d1) n (len q1) (q1 ++ d1) b' /\ holds b' (Q1 ++ Q2).
Proof.
  intros H1 HF Hd Hm Hs. unfold reads. erewrite (read_start _ ((q1 ++ Q1) ++ Q2) _ n); [|apply Wrapped; [done|apply nonempty; lens]|done|lens|lens|done].
  rewrite Hm. cbn [size tail]. pose proof (len_pos F HF). destruct (Z.leb_spec (len Q2 + len F + len q1) (len Q2 + len F + len (q1 ++ Q1))); [|lens].
  replace (Q2 ++ F ++ q1 ++ Q1) with ((Q2 ++ F) ++ q1 ++ Q1) by apps. change (d0 ++ d1) with ([] ++ d0 ++ d1).
  rewrite (blit_pieces [] d0 d1 (Q2 ++ F) q1 Q1) by lens. rewrite bind_Some_l. cbv zeta. cbn [with_tail buffer size head tail].
  destruct (Z.eqb_spec (len Q2 + len F + len q1) (len Q2 + len F + len (q1 ++ Q1))) as [E|E]; (eexists; split; [|split; [done|]]; [done|]).
  - assert (Q1 = []) as -> by (apply length_zero_iff_nil; lens). cbn [app].
    eapply (flat_eq _ _ _ _ _ [] Q2 (F ++ q1)); [apply nonempty; lens|reflexivity|apps|lens|lens|done].
  - eapply (wrapped_eq _ _ _ _ _ _ Q2 (F ++ q1) Q1); [apply nonempty; lens|apply nonempty; lens|reflexivity|apps|lens|lens|lens|done].
Qed.

Lemma read_wrapped_around x q2 F Q1 d0 d1 n : 0 < len x -> F <> [] -> Q1 <> [] -> length d0 = length (Q1 ++ x) -> Z.min n (len (Q1 ++ x ++ q2)) = len (Q1 ++ x) ->
  len (x ++ q2) + len F + len Q1 <= 2 ^ 31 ->
  exists b', size b' = len (x ++ q2) + len F + len Q1 /\
    reads (mk_buffer (Some ((x ++ q2) ++ F ++ Q1)) (len (x ++ q2) + len F + len Q1) (len (x ++ q2)) (len (x ++ q2) + len F)) (d0 ++ d1) n (len (Q1 ++ x)) ((Q1 ++ x) ++ d1) b' /\ holds b' q2.
Proof.
  intros H1 HF HQ Hd Hm Hs. unfold reads. erewrite (read_start _ (Q1 ++ x ++ q2) _ n); [|by apply Wrapped|done|lens|lens|done].
  rewrite Hm. cbn [size tail]. pose proof (len_pos F HF). destruct (Z.leb_spec (len (x ++ q2) + len F + len (Q1 ++ x)) (len (x ++ q2) + len F + len Q1)); [lens|]. cbv zeta.
  replace (len (x ++ q2) + len F + len Q1 - (len (x ++ q2) + len F)) with (len Q1) by lia. destruct (split_at d0 (len Q1)) as (e1 & e2 & -> & He1); [lens|].
  replace ((x ++ q2) ++ F ++ Q1) with (((x ++ q2) ++ F) ++ Q1 ++ []) by apps. replace ((e1 ++ e2) ++ d1) with ([] ++ e1 ++ e2 ++ d1) by apps.
  rewrite (blit_pieces [] e1 (e2 ++ d1) ((x ++ q2) ++ F) Q1 []) by lens. rewrite bind_Some_l. cbn [app].
  replace (((x ++ q2) ++ F) ++ Q1 ++ []) with ([] ++ x ++ (q2 ++ F ++ Q1)) by apps. rewrite (blit_pieces Q1 e2 d1 [] x (q2 ++ F ++ Q1)) by lens.
  rewrite bind_Some_l, app_assoc. eexists. split; [|split; [done|]]; [done|]. cbn [with_tail buffer size head tail].
  eapply (flat_eq _ _ _ _ _ x q2 (F ++ Q1)); [apply nonempty; lens|reflexivity|apps|lens|lens|lens].
Qed.

(** A read takes as many of the oldest bytes as there are, at most [n]. *)
Lemma ring_read_ok b q1 q2 d0 d1 n : holds b (q1 ++ q2) -> small b -> 0 < n -> len q1 = Z.min n (len (q1 ++ q2)) -> length d0 = length q1 ->
  exists b', size b' = size b /\ reads b (d0 ++ d1) n (len q1) (q1 ++ d1) b' /\ holds b' q2.
Proof.
  intros H Hs Hn Hm Hd. destruct (Z.eq_dec (len q1) 0) as [E0|E0].
  { assert (q1 = []) as -> by (apply length_zero_iff_nil; lia). assert (q2 = []) as -> by (apply length_zero_iff_nil; simpl in *; lia).
    assert (d0 = []) as -> by (by apply length_zero_iff_nil). exists b. split; [done|]. split; [|done]. destruct (used_ok b [] H Hs) as [E _].
    unfold reads, trace_buffer_read. destruct (Z.eqb_spec n 0); [lia|]. by rewrite E. }
  remember (q1 ++ q2) as q eqn:Eq. unfold small in Hs. destruct H as [A Q R HR|Q2 F Q1 HF HQ]; cbn [size] in *.
  - subst Q. apply read_flat; (done || lia).
  - destruct (Z.le_gt_cases (len q1) (len Q1)) as [Hle|Hgt].
    + destruct (split_at Q1 (len q1)) as (q1' & Q1' & -> & Hq1); [lia|]. rewrite <-app_assoc in Eq. apply app_inj_1 in Eq as [-> <-]; [|lia].
      apply read_wrapped_end; (done || lia).
    + assert (exists x, q1 = Q1 ++ x /\ Q2 = x ++ q2) as (x & -> & ->).
      { destruct (split_at q1 (len Q1)) as (y & x & -> & Hy); [lia|]. exists x. rewrite <-app_assoc in Eq. by apply app_inj_1 in Eq as [-> ->]; [|lia]. }
      apply read_wrapped_around; (done || lens).
Qed.

Lemma is_empty_ok b q : holds b q -> trace_buffer_is_empty (Some b) = bool_decide (q = []).
Proof.
  intros [A Q R HR|Q2 F Q1 HF%len_pos HQ%len_pos]; cbn [trace_buffer_is_empty head tail].
  - destruct (Z.eqb_spec (len A + len Q) (len A)); case_bool_decide as E; try done; [destruct E; apply length_zero_iff_nil; lia|subst; simpl in *; lia].
  - destruct (Z.eqb_spec (len Q2) (len Q2 + len F)); case_bool_decide as E; try done; [lia|]. apply (f_equal length) in E. lens.
Qed.

Lemma is_full_ok b q : holds b q -> small b -> trace_buffer_is_full (Some b) = (len q =? size b - 1).
Proof.
  intros [A Q R HR%len_pos|Q2 F Q1 HF%len_pos HQ%len_pos] Hs; unfold small in Hs; cbn [trace_buffer_is_full head tail size] in *; rewrite u32_small by lia.
  - destruct (Z.eqb_spec (len A + len Q + 1) (len A + len Q + len R)).
    + destruct (Z.eqb_spec 0 (len A)), (Z.eqb_spec (len Q) (len A + len Q + len R - 1)); done || lia.
    + destruct (Z.eqb_spec (len A + len Q + 1) (len A)), (Z.eqb_spec (len Q) (len A + len Q + len R - 1)); done || lia.
  - rewrite length_app. destruct (Z.eqb_spec (len Q2 + 1) (len Q2 + len F + len Q1)); [lia|].
    destruct (Z.eqb_spec (len Q2 + 1) (len Q2 + len F)), (Z.eqb_spec (Z.of_nat (length Q1 + length Q2)) (len Q2 + len F + len Q1 - 1)); done || lia.
Qed.

Lemma ring_clear_ok b q : holds b q -> exists b', trace_buffer_clear (Some b) = (0, Some b') /\ size b' = size b /\ holds b' [].
Proof.
  intros H. eexists. split; [done|]. split; [done|]. destruct H as [A Q R HR%len_pos|Q2 F Q1 HF%len_pos HQ%len_pos].
  - eapply (flat_eq _ _ _ _ _ [] [] (A ++ Q ++ R)); [apply nonempty; lens|reflexivity|done|lens|done|done].
  - eapply (flat_eq _ _ _ _ _ [] [] (Q2 ++ F ++ Q1)); [apply nonempty; lens|reflexivity|done|lens|done|done].
Qed.

Lemma init_ok n b : 0 < n -> exists b', trace_buffer_init true n (Some b) = (0, Some b') /\ size b' = n /\ holds b' [].
Proof.
  intros Hn. unfold trace_buffer_init. destruct (Z.eqb_spec n 0); [lia|]. eexists. split; [done|]. split; [done|].
  eapply (flat_eq _ _ _ _ _ [] [] (replicate (Z.to_nat n) 0)); [apply nonempty; rewrite length_replicate; lia|reflexivity|done| |done|done].
  rewrite length_replicate. simpl. lia.
Qed.

(** ** Sequences of operations *)

Inductive op := Write (d : list Z) | Read (n : nat) | Clear | Used | IsEmpty | IsFull.
(** A number, the bytes a read delivers, or a condition. *)
Inductive answer := Num (r : Z) | Got (l : list Z) | Flag (f : bool).

Definition perform (o : op) b : option (answer * trace_buffer) :=
  match o with
  | Write d => r ← trace_buffer_write (Some b) (Some d) (len d); b ← r.2; Some (Num r.1, b)
  | Read n =>
      r ← trace_buffer_read (Some b) (Some (replicate n 0)) (Z.of_nat n); d ← r.1.2; b ← r.2;
      Some (Got (take (Z.to_nat r.1.1) d), b)
  | Clear => let r := trace_buffer_clear (Some b) in b ← r.2; Some (Num r.1, b)
  | Used => Some (Num (trace_buffer_used (Some b)), b)
  | IsEmpty => Some (Flag (trace_buffer_is_empty (Some b)), b)
  | IsFull => Some (Flag (trace_buffer_is_full (Some b)), b)
  end.

(** A queue of fewer than [cap] bytes. *)
Definition spec (cap : Z) (o : op) (q : list Z) : answer * list Z :=
  match o with
  | Write [] => (Num (- EINVAL), q)
  | Write d => if len q + len d <? cap then (Num (len d), q ++ d) else (Num 0, q)
  | Read n => (Got (take n q), drop n q)
  | Clear => (Num 0, [])
  | Used => (Num (len q), q)
  | IsEmpty => (Flag (bool_decide (q = [])), q)
  | IsFull => (Flag (len q =? cap - 1), q)
  end.

Fixpoint run (os : list op) b : option (list answer * trace_buffer) :=
  match os with [] => Some ([], b) | o :: os => r ← perform o b; q ← run os r.2; Some (r.1 :: q.1, q.2) end.

Fixpoint spec_run (cap : Z) (os : list op) (q : list Z) : list answer * list Z :=
  match os with [] => ([], q) | o :: os => let r := spec cap o q in let t := spec_run cap os r.2 in (r.1 :: t.1, t.2) end.

Lemma ring_perform_ok o b q : holds b q -> small b ->
  exists b', perform o b = Some ((spec (size b) o q).1, b') /\ size b' = size b /\ holds b' (spec (size b) o q).2.
Proof.
  intros H Hs. destruct o as [d|n| | | |]; cbn [perform].
  - destruct d as [|x d]; [by exists b|]. destruct (ring_write_ok b q (x :: d) [] H Hs ltac:(done)) as (b' & Hb' & E & H').
    rewrite app_nil_r in E. rewrite E, bind_Some_l. exists b'. cbn [fst snd]. rewrite bind_Some_l. cbn [spec]. by destruct (len q + len (x :: d) <? size b).
  - destruct n as [|n]; [by exists b|]. set (q1 := take (S n) q). set (q2 := drop (S n) q).
    assert (len q1 = Z.min (Z.of_nat (S n)) (len (q1 ++ q2))) as Hm by (unfold q1, q2; rewrite take_drop, length_take; lia).
    assert (holds b (q1 ++ q2)) as H2 by (unfold q1, q2; by rewrite take_drop).
    assert (length q1 <= S n)%nat as Hle by (unfold q1; rewrite length_take; lia).
    destruct (ring_read_ok b q1 q2 (replicate (length q1) 0) (replicate (S n - length q1) 0) (Z.of_nat (S n)) H2 Hs ltac:(lia) Hm ltac:(by rewrite length_replicate)) as (b' & Hb' & E & H').
    rewrite <-replicate_add in E. replace (length q1 + (S n - length q1))%nat with (S n) in E by lia. unfold reads in E. rewrite E, bind_Some_l. cbn [fst snd]. rewrite !bind_Some_l.
    exists b'. rewrite Nat2Z.id, take_app_length. cbn [spec fst snd]. by fold q1 q2.
  - destruct (ring_clear_ok b q H) as (b' & E & Hb' & H'). rewrite E. by exists b'.
  - exists b. cbn [spec fst snd]. destruct (used_ok b q H Hs) as [-> _]. done.
  - exists b. cbn [spec fst snd]. by rewrite (is_empty_ok b q H).
  - exists b. cbn [spec fst snd]. by rewrite (is_full_ok b q H Hs).
Qed.

(** Any sequence of writes, reads, clearings and tests of a ring buffer of at most 2^31
    bytes gives the answers of a queue with room for one byte less than the buffer: a write
    goes in completely or, without room, not at all; reads deliver the bytes in the order of
    the writes, also around the end of the memory; the tests for empty and full are exact. *)
Theorem byte_ring_refines os b q : holds b q -> small b ->
  exists b', run os b = Some ((spec_run (size b) os q).1, b') /\ holds b' (spec_run (size b) os q).2.
Proof.
  revert b q. induction os as [|o os IH]; intros b q H Hs; [by exists b|]. destruct (ring_perform_ok o b q H Hs) as (b1 & E1 & Hb1 & H1).
  destruct (IH b1 _ H1) as (b2 & E2 & H2); [unfold small in *; lia|]. rewrite Hb1 in E2, H2. exists b2. cbn [run spec_run]. rewrite E1, bind_Some_l.
  cbn [fst snd]. by rewrite E2, bind_Some_l.
Qed.

(** A buffer of four bytes: the second write does not fit, the third goes around the end. *)
Lemma byte_ring_refines_witness : exists b b', trace_buffer_init true 4 (Some (mk_buffer None 0 0 0)) = (0, Some b) /\
  run [Write [1; 2]; Write [3; 4]; Read 1; Write [5; 6]; IsFull; Read 9; IsEmpty] b =
    Some ([Num 2; Num 0; Got [1]; Num 2; Flag true; Got [2; 5; 6]; Flag true], b').
Proof.
  destruct (init_ok 4 (mk_buffer None 0 0 0)) as (b & E & Hb & H); [lia|].
  destruct (byte_ring_refines [Write [1; 2]; Write [3; 4]; Read 1; Write [5; 6]; IsFull; Read 9; IsEmpty] b [] H) as (b' & Er & _); [unfold small; lia|].
  rewrite Hb in Er. exists b, b'. split; [exact E|]. exact Er.
Defined.

End ByteRing.
