(* ===== verification/Security.v ===== *)
(** The security framework: [kernel/security.c] with [include/horizon/security.h]. Modules
    in a linked list are asked in turn by every hook; credentials; access control lists. *)

From S2P Require Import Prelude CStr.

Module Security.
Import CStr.

Definition ENOENT : Z := 2.
Definition ENOMEM : Z := 12.
Definition EACCES : Z := 13.
Definition EEXIST : Z := 17.
Definition EINVAL : Z := 22.
Definition ACL_USER : Z := 1.
Definition ACL_GROUP : Z := 2.
Definition ACL_OTHER : Z := 3.

(** ** Data *)

Record security_context := mk_ctx {
  uid : Z; gid : Z; euid : Z; egid : Z; suid : Z; sgid : Z; fsuid : Z; fsgid : Z;
  cap_inheritable : Z; cap_permitted : Z; cap_effective : Z
}.

Definition with_uid (u : Z) (c : security_context) : security_context :=
  mk_ctx u (gid c) (euid c) (egid c) (suid c) (sgid c) (fsuid c) (fsgid c) (cap_inheritable c) (cap_permitted c) (cap_effective c).
Definition with_gid (g : Z) (c : security_context) : security_context :=
  mk_ctx (uid c) g (euid c) (egid c) (suid c) (sgid c) (fsuid c) (fsgid c) (cap_inheritable c) (cap_permitted c) (cap_effective c).

Record acl_entry := mk_entry { tag : Z; id : Z; perm : Z; entry_next : option Z }.
Record acl := mk_acl { count : Z; entries : option Z }.

Definition with_entry_next (n : option Z) (e : acl_entry) : acl_entry := mk_entry (tag e) (id e) (perm e) n.

Section World.
(** What the hooks of a module can read and change besides the contexts. *)
Context {W : Type}.

Record world := mk_world { contexts : gmap Z security_context; outside : W }.

Definition with_contexts (c : gmap Z security_context) (w : world) : world := mk_world c (outside w).

(** A function pointer applied to its arguments. Paths, names and directory entries are
    addresses. Hooks run with [security_lock] held, so that none of them can register or
    unregister a module. *)
Definition hook : Type := world -> Z * world.

Record security_ops := mk_ops {
  task_create : option (Z -> Z -> hook);
  task_setuid : option (Z -> Z -> hook);
  task_setgid : option (Z -> Z -> hook);
  task_kill : option (Z -> Z -> hook);
  file_open : option (Z -> Z -> Z -> hook);
  file_permission : option (Z -> Z -> Z -> hook);
  file_chown : option (Z -> Z -> Z -> Z -> hook);
  file_chmod : option (Z -> Z -> Z -> hook);
  ipc_permission : option (Z -> Z -> Z -> hook);
  path_truncate : option (Z -> hook);
  path_mknod : option (Z -> Z -> Z -> Z -> hook);
  path_mkdir : option (Z -> Z -> Z -> hook);
  path_rmdir : option (Z -> Z -> hook);
  path_unlink : option (Z -> Z -> hook);
  path_symlink : option (Z -> Z -> Z -> hook);
  path_link : option (Z -> Z -> Z -> hook);
  path_rename : option (Z -> Z -> Z -> Z -> Z -> hook);
  path_chmod : option (Z -> Z -> hook);
  path_chown : option (Z -> Z -> Z -> hook);
  path_chroot : option (Z -> hook)
}.

(** [name] is the array of 32 characters; [ops] is [None] for a null pointer. *)
Record security_module := mk_module { name : list Z; ops : option security_ops; module_next : option Z }.

Definition with_module_next (n : option Z) (m : security_module) : security_module := mk_module (name m) (ops m) n.

(** The modules in memory, registered or not, and the head of the list. *)
Record state := mk_state { mods : gmap Z security_module; security_modules : option Z }.

(** Enough for a walk over a list of modules. *)
Definition module_fuel (s : state) : nat := S (size (mods s)).

(** ** Registration *)

(** The first loop: is there a module of this name already? *)
Fixpoint find_name (fuel : nat) (n : list Z) (ms : gmap Z security_module) (curr : option Z) : option bool :=
  match fuel with
  | O => None
  | S fuel =>
      match curr with
      | None => Some false
      | Some a =>
          m ← ms !! a; r ← strcmp (name m) n;
          if r =? 0 then Some true else find_name fuel n ms (module_next m)
      end
  end.

(** The second loop: [prev] when [curr] has become null. *)
Fixpoint find_last (fuel : nat) (ms : gmap Z security_module) (prev curr : option Z) : option (option Z) :=
  match fuel with
  | O => None
  | S fuel =>
      match curr with
      | None => Some prev
      | Some a => m ← ms !! a; find_last fuel ms curr (module_next m)
      end
  end.

(** [p->next = n]. *)
Definition set_next (p : Z) (n : option Z) (ms : gmap Z security_module) : option (gmap Z security_module) :=
  m ← ms !! p; Some (<[p := with_module_next n m]> ms).

Definition security_register_module (module : option Z) (s : state) : option (Z * state) :=
  match module with
  | None => Some (- EINVAL, s)
  | Some a =>
      m ← mods s !! a; c ← head (name m);
      if c =? 0 then Some (- EINVAL, s) else
      match ops m with
      | None => Some (- EINVAL, s)
      | Some _ =>
          taken ← find_name (module_fuel s) (name m) (mods s) (security_modules s);
          if (taken : bool) then Some (- EEXIST, s)
          else
            match security_modules s with
            | None => ms ← set_next a None (mods s); Some (0, mk_state ms (Some a))
            | Some _ =>
                prev ← find_last (module_fuel s) (mods s) None (security_modules s);
                p ← prev;
                ms ← set_next p (Some a) (mods s);
                ms ← set_next a None ms;
                Some (0, mk_state ms (security_modules s))
            end
      end
  end.

(** The loop of [security_unregister_module] from [curr], behind [prev]. *)
Fixpoint unregister_loop (fuel : nat) (module : Z) (prev curr : option Z) (s : state) : option (Z * state) :=
  match fuel with
  | O => None
  | S fuel =>
      match curr with
      | None => Some (- ENOENT, s)
      | Some a =>
          m ← mods s !! a;
          if a =? module then
            match prev with
            | None => Some (0, mk_state (mods s) (module_next m))
            | Some p => ms ← set_next p (module_next m) (mods s); Some (0, mk_state ms (security_modules s))
            end
          else unregister_loop fuel module curr (module_next m) s
      end
  end.

Definition security_unregister_module (module : option Z) (s : state) : option (Z * state) :=
  match module with
  | None => Some (- EINVAL, s)
  | Some a => unregister_loop (module_fuel s) a None (security_modules s) s
  end.

(** ** Contexts *)

(** [mem] is what [kmalloc] returns; [MEM_ZERO] asks for zeroed memory. *)
Definition security_alloc_context (mem : option Z) (w : world) : option Z * world :=
  match mem with
  | None => (None, w)
  | Some a => (Some a, with_contexts (<[a := mk_ctx 0 0 0 0 0 0 0 0 0 0 0]> (contexts w)) w)
  end.

Definition security_free_context (context : option Z) (w : world) : world :=
  match context with
  | None => w
  | Some c => with_contexts (delete c (contexts w)) w
  end.

(** ** Hooks *)

(** The loop that every hook has: [sel] reads the function pointer and applies it. *)
Fixpoint call_loop (fuel : nat) (sel : security_ops -> option hook) (ms : gmap Z security_module) (module : option Z) (ret : Z)
    (w : world) : option (Z * world) :=
  match fuel with
  | O => None
  | S fuel =>
      match module with
      | None => Some (ret, w)
      | Some a =>
          m ← ms !! a;
          match ops m ≫= sel with
          | Some h =>
              let '(ret, w) := h w in
              if negb (ret =? 0) then Some (ret, w) else call_loop fuel sel ms (module_next m) ret w
          | None => call_loop fuel sel ms (module_next m) ret w
          end
      end
  end.

Definition call_modules (sel : security_ops -> option hook) (s : state) (w : world) : option (Z * world) :=
  call_loop (module_fuel s) sel (mods s) (security_modules s) 0 w.

Definition security_task_create (parent child : option Z) (s : state) (w : world) : option (Z * world) :=
  match parent, child with
  | Some p, Some c =>
      v ← contexts w !! p; _ ← contexts w !! c;
      call_modules (fun o => f ← task_create o; Some (f p c)) s (with_contexts (<[c := v]> (contexts w)) w)
  | _, _ => Some (- EINVAL, w)
  end.

Definition security_task_setuid (context : option Z) (u : Z) (s : state) (w : world) : option (Z * world) :=
  match context with
  | None => Some (- EINVAL, w)
  | Some c =>
      r ← call_modules (fun o => f ← task_setuid o; Some (f c u)) s w;
      let '(ret, w) := r in
      if ret =? 0 then v ← contexts w !! c; Some (ret, with_contexts (<[c := with_uid u v]> (contexts w)) w)
      else Some (ret, w)
  end.

Definition security_task_setgid (context : option Z) (g : Z) (s : state) (w : world) : option (Z * world) :=
  match context with
  | None => Some (- EINVAL, w)
  | Some c =>
      r ← call_modules (fun o => f ← task_setgid o; Some (f c g)) s w;
      let '(ret, w) := r in
      if ret =? 0 then v ← contexts w !! c; Some (ret, with_contexts (<[c := with_gid g v]> (contexts w)) w)
      else Some (ret, w)
  end.

Definition security_task_kill (context : option Z) (pid : Z) (s : state) (w : world) : option (Z * world) :=
  match context with
  | None => Some (- EINVAL, w)
  | Some c => call_modules (fun o => f ← task_kill o; Some (f c pid)) s w
  end.

Definition security_file_open (context path : option Z) (flags : Z) (s : state) (w : world) : option (Z * world) :=
  match context, path with
  | Some c, Some p => call_modules (fun o => f ← file_open o; Some (f c p flags)) s w
  | _, _ => Some (- EINVAL, w)
  end.

Definition security_file_permission (context path : option Z) (mask : Z) (s : state) (w : world) : option (Z * world) :=
  match context, path with
  | Some c, Some p => call_modules (fun o => f ← file_permission o; Some (f c p mask)) s w
  | _, _ => Some (- EINVAL, w)
  end.

Definition security_file_chown (context path : option Z) (u g : Z) (s : state) (w : world) : option (Z * world) :=
  match context, path with
  | Some c, Some p => call_modules (fun o => f ← file_chown o; Some (f c p u g)) s w
  | _, _ => Some (- EINVAL, w)
  end.

Definition security_file_chmod (context path : option Z) (mode : Z) (s : state) (w : world) : option (Z * world) :=
  match context, path with
  | Some c, Some p => call_modules (fun o => f ← file_chmod o; Some (f c p mode)) s w
  | _, _ => Some (- EINVAL, w)
  end.

Definition security_ipc_permission (context : option Z) (key mask : Z) (s : state) (w : world) : option (Z * world) :=
  match context with
  | None => Some (- EINVAL, w)
  | Some c => call_modules (fun o => f ← ipc_permission o; Some (f c key mask)) s w
  end.

Definition security_path_truncate (path : option Z) (s : state) (w : world) : option (Z * world) :=
  match path with
  | None => Some (- EINVAL, w)
  | Some p => call_modules (fun o => f ← path_truncate o; Some (f p)) s w
  end.

Definition security_path_mknod (dir dentry : option Z) (mode dev : Z) (s : state) (w : world) : option (Z * world) :=
  match dir, dentry with
  | Some d, Some e => call_modules (fun o => f ← path_mknod o; Some (f d e mode dev)) s w
  | _, _ => Some (- EINVAL, w)
  end.

Definition security_path_mkdir (dir dentry : option Z) (mode : Z) (s : state) (w : world) : option (Z * world) :=
  match dir, dentry with
  | Some d, Some e => call_modules (fun o => f ← path_mkdir o; Some (f d e mode)) s w
  | _, _ => Some (- EINVAL, w)
  end.

Definition security_path_rmdir (dir dentry : option Z) (s : state) (w : world) : option (Z * world) :=
  match dir, dentry with
  | Some d, Some e => call_modules (fun o => f ← path_rmdir o; Some (f d e)) s w
  | _, _ => Some (- EINVAL, w)
  end.

Definition security_path_unlink (dir dentry : option Z) (s : state) (w : world) : option (Z * world) :=
  match dir, dentry with
  | Some d, Some e => call_modules (fun o => f ← path_unlink o; Some (f d e)) s w
  | _, _ => Some (- EINVAL, w)
  end.

Definition security_path_symlink (dir dentry old_name : option Z) (s : state) (w : world) : option (Z * world) :=
  match dir, dentry, old_name with
  | Some d, Some e, Some n => call_modules (fun o => f ← path_symlink o; Some (f d e n)) s w
  | _, _, _ => Some (- EINVAL, w)
  end.

Definition security_path_link (old_dentry new_dir new_dentry : option Z) (s : state) (w : world) : option (Z * world) :=
  match old_dentry, new_dir, new_dentry with
  | Some e, Some d, Some e' => call_modules (fun o => f ← path_link o; Some (f e d e')) s w
  | _, _, _ => Some (- EINVAL, w)
  end.

Definition security_path_rename (old_dir old_dentry new_dir new_dentry : option Z) (flags : Z) (s : state) (w : world)
    : option (Z * world) :=
  match old_dir, old_dentry, new_dir, new_dentry with
  | Some d, Some e, Some d', Some e' => call_modules (fun o => f ← path_rename o; Some (f d e d' e' flags)) s w
  | _, _, _, _ => Some (- EINVAL, w)
  end.

Definition security_path_chmod (path : option Z) (mode : Z) (s : state) (w : world) : option (Z * world) :=
  match path with
  | None => Some (- EINVAL, w)
  | Some p => call_modules (fun o => f ← path_chmod o; Some (f p mode)) s w
  end.

Definition security_path_chown (path : option Z) (u g : Z) (s : state) (w : world) : option (Z * world) :=
  match path with
  | None => Some (- EINVAL, w)
  | Some p => call_modules (fun o => f ← path_chown o; Some (f p u g)) s w
  end.

Definition security_path_chroot (path : option Z) (s : state) (w : world) : option (Z * world) :=
  match path with
  | None => Some (- EINVAL, w)
  | Some p => call_modules (fun o => f ← path_chroot o; Some (f p)) s w
  end.

End World.

Arguments world : clear implicits.
Arguments hook : clear implicits.
Arguments security_ops : clear implicits.
Arguments security_module : clear implicits.
Arguments state : clear implicits.

(** ** Capabilities *)

Definition security_has_capability (context : option Z) (cap : Z) (cs : gmap Z security_context) : option Z :=
  match context with
  | None => Some 0
  | Some c => v ← cs !! c; Some (if has_flag (cap_effective v) cap then 1 else 0)
  end.

(** ** Access control lists *)

(** The lists in memory, and their entries. *)
Record acls := mk_acls { lists : gmap Z acl; acl_entries : gmap Z acl_entry }.

Definition entry_fuel (h : acls) : nat := S (size (acl_entries h)).

Definition security_acl_alloc (mem : option Z) (h : acls) : option Z * acls :=
  match mem with
  | None => (None, h)
  | Some a => (Some a, mk_acls (<[a := mk_acl 0 None]> (lists h)) (acl_entries h))
  end.

(** [next] is read before the entry is freed. *)
Fixpoint free_entries (fuel : nat) (entry : option Z) (es : gmap Z acl_entry) : option (gmap Z acl_entry) :=
  match fuel with
  | O => None
  | S fuel =>
      match entry with
      | None => Some es
      | Some a => e ← es !! a; free_entries fuel (entry_next e) (delete a es)
      end
  end.

Definition security_acl_free (acl : option Z) (h : acls) : option acls :=
  match acl with
  | None => Some h
  | Some a =>
      l ← lists h !! a;
      es ← free_entries (entry_fuel h) (entries l) (acl_entries h);
      Some (mk_acls (delete a (lists h)) es)
  end.

Definition security_acl_add_entry (acl : option Z) (t i p : Z) (mem : option Z) (h : acls) : option (Z * acls) :=
  match acl with
  | None => Some (- EINVAL, h)
  | Some a =>
      match mem with
      | None => Some (- ENOMEM, h)
      | Some e =>
          l ← lists h !! a;
          Some (0, mk_acls (<[a := mk_acl (u32 (count l + 1)) (Some e)]> (lists h))
                     (<[e := mk_entry t i p (entries l)]> (acl_entries h)))
      end
  end.

Fixpoint remove_loop (fuel : nat) (a t i : Z) (prev entry : option Z) (h : acls) : option (Z * acls) :=
  match fuel with
  | O => None
  | S fuel =>
      match entry with
      | None => Some (- ENOENT, h)
      | Some p =>
          e ← acl_entries h !! p;
          if (tag e =? t) && (id e =? i) then
            l ← lists h !! a;
            match prev with
            | None => Some (0, mk_acls (<[a := mk_acl (u32 (count l - 1)) (entry_next e)]> (lists h)) (delete p (acl_entries h)))
            | Some q =>
                e' ← acl_entries h !! q;
                Some (0, mk_acls (<[a := mk_acl (u32 (count l - 1)) (entries l)]> (lists h))
                           (delete p (<[q := with_entry_next (entry_next e) e']> (acl_entries h))))
            end
          else remove_loop fuel a t i entry (entry_next e) h
      end
  end.

Definition security_acl_remove_entry (acl : option Z) (t i : Z) (h : acls) : option (Z * acls) :=
  match acl with
  | None => Some (- EINVAL, h)
  | Some a => l ← lists h !! a; remove_loop (entry_fuel h) a t i None (entries l) h
  end.

(** The loop of [security_acl_check]: the permissions of the entry that decides. *)
Fixpoint check_loop (fuel : nat) (c : security_context) (entry : option Z) (es : gmap Z acl_entry) : option Z :=
  match fuel with
  | O => None
  | S fuel =>
      match entry with
      | None => Some 0
      | Some p =>
          e ← es !! p;
          if (tag e =? ACL_USER) && (id e =? uid c) then Some (perm e)
          else if (tag e =? ACL_GROUP) && (id e =? gid c) then Some (perm e)
          else if tag e =? ACL_OTHER then Some (perm e)
          else check_loop fuel c (entry_next e) es
      end
  end.

Definition security_acl_check (acl context : option Z) (mask : Z) (cs : gmap Z security_context) (h : acls) : option Z :=
  match acl, context with
  | Some a, Some c =>
      v ← cs !! c;
      if uid v =? 0 then Some 0
      else
        l ← lists h !! a;
        p ← check_loop (entry_fuel h) v (entries l) (acl_entries h);
        if negb (Z.land p mask =? mask) then Some (- EACCES) else Some 0
  | _, _ => Some (- EINVAL)
  end.

End Security.
