(* ===== verification/SecuritySpec.v ===== *)
(** The security framework as a specification: a list of modules of distinct names that are
    asked in the order of their registration, where the first refusal is final; and access
    control lists as lists of entries of which the first that fits decides. *)

From S2P Require Import Prelude CStr SList Security.

Module SecuritySpec.
Import CStr SList Security.

Section Modules.
Context {W : Type}.
Implicit Types (s : state W) (w : world W) (m : security_module W) (l : list Z) (ms : gmap Z (security_module W)).

Definition label m : list Z := cstr (name m).
Definition nameless m : bool := bool_decide (label m = []).
Definition usable m : Prop := label m <> [] /\ ops m <> None.

(** The registered modules, in order. *)
Definition registered s l : list (security_module W) := nodes_of (mods s) l.
Definition labels s l : list (list Z) := label <$> registered s l.

(** The list is well formed, names are terminated strings, the registered ones differ. *)
Record inv s l : Prop := {
  inv_chain : chain module_next (mods s) (security_modules s) l;
  inv_names : map_Forall (fun _ m => 0 ∈ name m) (mods s);
  inv_distinct : NoDup (labels s l);
  inv_usable : Forall usable (registered s l)
}.

(** Registration changes only the links of the modules in memory. *)
Definition same_modules s s' : Prop :=
  forall a, (fun m => (name m, ops m)) <$> mods s' !! a = (fun m => (name m, ops m)) <$> mods s !! a.

(** ** Specification of registration *)

Definition has_ops m : bool := match ops m with Some _ => true | None => false end.

(** [l] holds the addresses of the registered modules; a module that is not in memory is
    no argument for the code. *)
Definition spec_register s (a : Z) m l : Z * list Z :=
  if nameless m || negb (has_ops m) then (- EINVAL, l)
  else if bool_decide (label m ∈ labels s l) then (- EEXIST, l)
  else (0, l ++ [a]).

Definition spec_unregister (a : Z) l : Z * list Z :=
  if bool_decide (a ∈ l) then (0, filter (fun b => b <> a) l) else (- ENOENT, l).

(** ** The walks *)

Lemma find_name_spec fuel n ms p l :
  chain module_next ms p l -> map_Forall (fun _ m => 0 ∈ name m) ms -> 0 ∈ n -> (length l < fuel)%nat ->
  find_name fuel n ms p = Some (bool_decide (cstr n ∈ label <$> nodes_of ms l)).
Proof.
  revert p l. induction fuel as [|fuel IH]; intros p [|a l]; simpl; try lia.
  - by intros ->.
  - intros [-> (m & Hm & Hl)] Hn Ht Hf. rewrite Hm. simpl.
    destruct (strcmp_cstr (name m) n) as (r & -> & Hr); [by eapply Hn|done|]. simpl. rewrite Hr.
    case_bool_decide as E.
    + rewrite bool_decide_true; [done|]. rewrite <-E. left.
    + rewrite (IH (module_next m) l) by (done || lia). f_equal. apply bool_decide_ext. unfold label in *. set_solver.
Qed.

Lemma find_last_spec fuel ms prev p l :
  chain module_next ms p l -> (length l < fuel)%nat ->
  find_last fuel ms prev p = Some (match last l with Some a => Some a | None => prev end).
Proof.
  revert prev p l. induction fuel as [|fuel IH]; intros prev p [|a l]; simpl; try lia.
  - by intros ->.
  - intros [-> (m & Hm & Hl)] Hf. rewrite Hm. simpl. rewrite (IH _ _ l) by (done || lia).
    pose proof (last_cons a l) as E. simpl in E. rewrite E. by destruct (last l).
Qed.

Lemma find_name_inv s l n : inv s l -> 0 ∈ n ->
  find_name (module_fuel s) n (mods s) (security_modules s) = Some (bool_decide (cstr n ∈ labels s l)).
Proof.
  intros [Hc Hn _ _] Ht. apply find_name_spec; try done. pose proof (chain_size _ _ _ _ Hc). unfold module_fuel. lia.
Qed.

Lemma find_last_inv s l a : inv s (l ++ [a]) ->
  find_last (module_fuel s) (mods s) None (security_modules s) = Some (Some a).
Proof.
  intros [Hc _ _ _]. rewrite (find_last_spec _ _ _ _ _ Hc); [by rewrite last_snoc|].
  pose proof (chain_size _ _ _ _ Hc). unfold module_fuel. lia.
Qed.

(** ** Links *)

Lemma same_modules_link s a m n h : mods s !! a = Some m ->
  same_modules s (mk_state (<[a := with_module_next n m]> (mods s)) h).
Proof.
  intros Hm b. simpl. destruct (decide (b = a)) as [->|]; [|by rewrite lookup_insert_ne].
  by rewrite lookup_insert_eq, Hm.
Qed.

Lemma same_modules_trans s1 s2 s3 : same_modules s1 s2 -> same_modules s2 s3 -> same_modules s1 s3.
Proof. intros H1 H2 a. by rewrite H2, H1. Qed.

Lemma same_modules_nodes s s' l : same_modules s s' ->
  (fun m => (name m, ops m)) <$> registered s' l = (fun m => (name m, ops m)) <$> registered s l.
Proof.
  intros H. unfold registered. induction l as [|a l IH]; [done|]. simpl. specialize (H a).
  destruct (mods s' !! a), (mods s !! a); simplify_eq/=; congruence.
Qed.

Lemma same_modules_labels s s' l : same_modules s s' -> labels s' l = labels s l.
Proof.
  intros H%(same_modules_nodes _ _ l). unfold labels, label.
  apply (f_equal (fmap (fun x => cstr x.1))) in H. by rewrite <-!list_fmap_compose in H.
Qed.

Lemma same_modules_usable s s' l : same_modules s s' -> Forall usable (registered s l) -> Forall usable (registered s' l).
Proof.
  intros H%(same_modules_nodes _ _ l). revert H. generalize (registered s l) (registered s' l).
  induction l0 as [|m ms IH]; intros [|m' ms']; try done. simpl. intros [= Hn Ho E] [Hm Hms]%Forall_cons.
  constructor; [|auto]. unfold usable, label in *. by rewrite Hn, Ho.
Qed.

Lemma same_modules_names s s' : same_modules s s' ->
  map_Forall (fun _ m => 0 ∈ name m) (mods s) -> map_Forall (fun _ m => 0 ∈ name m) (mods s').
Proof.
  intros H Hn a m' Hm'. specialize (H a). rewrite Hm' in H. destruct (mods s !! a) as [m|] eqn:E; simplify_eq/=.
  specialize (Hn a m E). simpl in Hn. congruence.
Qed.

(** A state with the same modules on a given chain has the invariant when the names on the
    chain do. *)
Lemma inv_same s s' l l' : inv s l -> same_modules s s' -> chain module_next (mods s') (security_modules s') l' ->
  NoDup (labels s l') -> Forall usable (registered s l') -> inv s' l'.
Proof.
  intros Hi Hs Hc Hd Hu. split; [done| | |].
  - eapply same_modules_names; [done|]. apply Hi.
  - by rewrite (same_modules_labels s).
  - by eapply same_modules_usable.
Qed.

(** ** Registration refines its specification *)

Lemma head_label m : 0 ∈ name m -> exists c, head (name m) = Some c /\ (c =? 0) = nameless m.
Proof.
  unfold nameless, label. destruct (name m) as [|c n]; [by intros ?%not_elem_of_nil|]. intros _. exists c. split; [done|].
  simpl. by destruct (c =? 0).
Qed.

Lemma registered_elem s l a m : a ∈ l -> mods s !! a = Some m -> m ∈ registered s l.
Proof.
  unfold registered. induction 1 as [a l|a b l _ IH]; simpl; intros Hm.
  - rewrite Hm. left.
  - destruct (mods s !! b); [right|]; auto.
Qed.

Lemma registered_snoc s l a m : mods s !! a = Some m -> registered s (l ++ [a]) = registered s l ++ [m].
Proof.
  intros Hm. unfold registered. induction l as [|b l IH]; simpl; [by rewrite Hm|]. rewrite IH. by destruct (mods s !! b).
Qed.

Lemma append_chain s l a m : inv s l -> mods s !! a = Some m -> a ∉ l -> l <> [] ->
  exists ms, (p ← last l; ms ← set_next p (Some a) (mods s); set_next a None ms) = Some ms /\
    chain module_next ms (security_modules s) (l ++ [a]) /\ same_modules s (mk_state ms (security_modules s)).
Proof.
  intros Hi Hm Ha Hl. destruct (exists_last Hl) as (l0 & b & ->). rewrite last_snoc. simpl.
  pose proof (inv_chain _ _ Hi) as Hc. destruct (chain_dom _ _ _ _ b Hc) as [mb Hb]; [set_solver|].
  unfold set_next. rewrite Hb. simpl. rewrite lookup_insert_ne, Hm by set_solver. simpl. eexists. split; [done|].
  assert (a <> b) by set_solver. split.
  - rewrite insert_insert_ne, <-app_assoc by done. simpl.
    eapply (chain_relink _ _ _ _ _ mb); [by apply chain_insert|by rewrite lookup_insert_ne| |set_solver].
    simpl. split; [done|]. eexists. by rewrite lookup_insert_eq.
  - eapply same_modules_trans; [by apply (same_modules_link s b mb (Some a) (security_modules s))|].
    apply (same_modules_link (mk_state _ _)). simpl. by rewrite lookup_insert_ne.
Qed.

Lemma register_spec s l a m : inv s l -> mods s !! a = Some m ->
  exists s', security_register_module (Some a) s = Some ((spec_register s a m l).1, s') /\
    inv s' (spec_register s a m l).2 /\ same_modules s s'.
Proof.
  intros Hi Hm. unfold security_register_module, spec_register. run Hm.
  assert (0 ∈ name m) as Hz by (by eapply (inv_names _ _ Hi)).
  destruct (head_label m Hz) as (c & Eh & Hc). run Eh. rewrite Hc. unfold has_ops.
  destruct (nameless m) eqn:En; [by exists s|]. destruct (ops m) as [o|] eqn:Eo; [|by exists s].
  run (find_name_inv _ l (name m) Hi Hz). simpl orb. fold (label m). case_bool_decide as Ed; [by exists s|].
  assert (a ∉ l) as Ha.
  { intros Ha. apply Ed. unfold labels. apply list_elem_of_fmap. exists m. eauto using registered_elem. }
  assert (NoDup (labels s (l ++ [a])) /\ Forall usable (registered s (l ++ [a]))) as [Hnd Hu].
  { unfold labels. rewrite (registered_snoc _ _ _ _ Hm), fmap_app. split.
    - apply NoDup_app. split; [apply Hi|]. split; [|apply NoDup_singleton]. intros x Hx ->%list_elem_of_singleton. done.
    - apply Forall_app. split; [apply Hi|]. repeat constructor; [|by rewrite Eo].
      unfold nameless in En. by apply bool_decide_eq_false in En. }
  destruct (decide (l = [])) as [->|Hl].
  - pose proof (inv_chain _ _ Hi) as Hch. simpl in Hch. rewrite Hch. unfold set_next. rewrite Hm. simpl. eexists. split; [done|].
    assert (same_modules s (mk_state (<[a := with_module_next None m]> (mods s)) (Some a))) as Hs by by apply same_modules_link.
    split; [|done]. eapply inv_same; try done. simpl. split; [done|]. eexists. by rewrite lookup_insert_eq.
  - destruct (append_chain _ _ _ _ Hi Hm Ha Hl) as (ms & Hms & Hc' & Hs).
    destruct (exists_last Hl) as (l0 & b & ->). rewrite last_snoc in Hms. simpl in Hms.
    pose proof (inv_chain _ _ Hi) as Hch. destruct (security_modules s) as [h|] eqn:Es.
    + rewrite <-Es, (find_last_inv s l0 b), !bind_Some_l by done. rewrite Es in *. apply bind_Some in Hms as (ms1 & H1 & H2). run H1. run H2. eexists. split; [done|]. split; [by eapply inv_same|done].
    + destruct l0; by destruct Hch.
Qed.

(** The walk of [security_unregister_module] up to the module. *)
Lemma unregister_loop_found fuel s a m la lb prev p :
  chain module_next (mods s) p (la ++ a :: lb) -> a ∉ la -> mods s !! a = Some m -> (length la < fuel)%nat ->
  unregister_loop fuel a prev p s =
    match match last la with Some b => Some b | None => prev end with
    | None => Some (0, mk_state (mods s) (module_next m))
    | Some q => ms ← set_next q (module_next m) (mods s); Some (0, mk_state ms (security_modules s))
    end.
Proof.
  revert fuel prev p. induction la as [|b la IH]; intros [|fuel] prev p Hc Ha Hm Hf; simpl in Hf; try lia.
  - destruct Hc as [-> _]. simpl. by rewrite Hm, bind_Some_l, Z.eqb_refl.
  - destruct Hc as [-> (x & Hx & Hc)]. apply not_elem_of_cons in Ha as [Hab Ha]. rewrite last_cons. simpl.
    rewrite Hx, bind_Some_l. destruct (Z.eqb_spec b a); [by subst|].
    rewrite (IH fuel (Some b) (module_next x)) by (done || lia). by destruct (last la).
Qed.

Lemma unregister_loop_missing fuel s a l prev p :
  chain module_next (mods s) p l -> a ∉ l -> (length l < fuel)%nat -> unregister_loop fuel a prev p s = Some (- ENOENT, s).
Proof.
  revert fuel prev p. induction l as [|b l IH]; intros [|fuel] prev p Hc Ha Hf; simpl in Hf; try lia.
  - by rewrite Hc.
  - destruct Hc as [-> (x & Hx & Hc)]. apply not_elem_of_cons in Ha as [Hab Ha]. simpl.
    rewrite Hx, bind_Some_l. destruct (Z.eqb_spec b a); [by subst|]. apply IH; done || lia.
Qed.

Lemma registered_sublist s l l' : l' `sublist_of` l -> registered s l' `sublist_of` registered s l.
Proof.
  unfold registered. induction 1 as [|a l1 l2 _ IH|a l1 l2 _ IH]; simpl; [done| |];
    destruct (mods s !! a); try done; by constructor.
Qed.

Lemma inv_drop s l s' l' : inv s l -> l' `sublist_of` l -> same_modules s s' ->
  chain module_next (mods s') (security_modules s') l' -> inv s' l'.
Proof.
  intros Hi Hl Hs Hc. pose proof (registered_sublist s l l' Hl) as Hr. eapply inv_same; try done.
  - eapply sublist_NoDup; [apply Hi|]. by apply fmap_sublist.
  - pose proof (inv_usable _ _ Hi) as Hu. rewrite Forall_forall in *. intros m Hm. apply Hu. by eapply elem_of_sublist.
Qed.

Lemma filter_split (a : Z) la lb : a ∉ la -> a ∉ lb -> filter (fun b => b <> a) (la ++ a :: lb) = la ++ lb.
Proof.
  intros Ha Hb. rewrite filter_app, filter_cons_False by naive_solver. f_equal; apply filter_all, Forall_forall; set_solver.
Qed.

Lemma unregister_found s l a : inv s l -> a ∈ l ->
  exists s', security_unregister_module (Some a) s = Some (0, s') /\ inv s' (filter (fun b => b <> a) l) /\ same_modules s s'.
Proof.
  intros Hi (la & lb & ->)%list_elem_of_split. pose proof (inv_chain _ _ Hi) as Hc.
  pose proof (chain_NoDup _ _ _ _ Hc) as (_ & Hab & [Hlb _]%NoDup_cons)%NoDup_app.
  assert (a ∉ la) as Hla by (intros H; destruct (Hab a H); left).
  destruct (chain_dom _ _ _ _ a Hc) as [m Hm]; [set_solver|].
  pose proof (chain_behind _ _ _ _ _ _ _ Hc Hm) as Hcb. rewrite filter_split by done.
  assert (la ++ lb `sublist_of` la ++ a :: lb) as Hsub by (apply sublist_app; [done|by apply sublist_cons]).
  unfold security_unregister_module. pose proof (chain_size _ _ _ _ Hc) as Hsz. rewrite length_app in Hsz. simpl in Hsz.
  rewrite (unregister_loop_found _ _ _ m la lb) by (done || unfold module_fuel; lia).
  destruct (decide (la = [])) as [->|Hne].
  - simpl. eexists. split; [done|]. split; [|done]. by eapply inv_drop.
  - destruct (exists_last Hne) as (l0 & b & ->). rewrite last_snoc. rewrite <-app_assoc in Hc. simpl in Hc.
    destruct (chain_dom _ _ _ _ b Hc) as [mb Hb]; [set_solver|]. unfold set_next. rewrite Hb, !bind_Some_l.
    eexists. split; [done|].
    assert (same_modules s (mk_state (<[b := with_module_next (module_next m) mb]> (mods s)) (security_modules s)))
      as Hs by (by apply same_modules_link).
    split; [|done]. eapply inv_drop; try done. simpl. rewrite <-app_assoc. simpl.
    eapply (chain_relink _ _ _ _ _ mb); try done. intros Hbb. destruct (Hab b); set_solver.
Qed.

Lemma unregister_spec s l a : inv s l ->
  exists s', security_unregister_module (Some a) s = Some ((spec_unregister a l).1, s') /\
    inv s' (spec_unregister a l).2 /\ same_modules s s'.
Proof.
  intros Hi. unfold spec_unregister. case_bool_decide as Ha; [by apply unregister_found|].
  exists s. split; [|done]. apply unregister_loop_missing with l; [apply Hi|done|].
  pose proof (chain_size _ _ _ _ (inv_chain _ _ Hi)). unfold module_fuel. lia.
Qed.

(** ** Sequences of registrations *)

Inductive call := Register (a : option Z) | Unregister (a : option Z).

Definition perform (c : call) s : option (Z * state W) :=
  match c with Register a => security_register_module a s | Unregister a => security_unregister_module a s end.

Definition spec_call s (c : call) l : Z * list Z :=
  match c with
  | Register (Some a) => match mods s !! a with Some m => spec_register s a m l | None => (0, l) end
  | Unregister (Some a) => spec_unregister a l
  | _ => (- EINVAL, l)
  end.

(** The module to be registered is in memory. *)
Definition in_memory s (c : call) : Prop :=
  match c with Register (Some a) => is_Some (mods s !! a) | _ => True end.

Fixpoint perform_all (cs : list call) s : option (list Z * state W) :=
  match cs with
  | [] => Some ([], s)
  | c :: cs => r ← perform c s; rs ← perform_all cs r.2; Some (r.1 :: rs.1, rs.2)
  end.

Fixpoint spec_all s (cs : list call) l : list Z * list Z :=
  match cs with
  | [] => ([], l)
  | c :: cs => let r := spec_call s c l in let rs := spec_all s cs r.2 in (r.1 :: rs.1, rs.2)
  end.

Lemma perform_spec c s l : inv s l -> in_memory s c ->
  exists s', perform c s = Some ((spec_call s c l).1, s') /\ inv s' (spec_call s c l).2 /\ same_modules s s'.
Proof.
  intros Hi Hm. destruct c as [[a|]|[a|]]; [|by exists s| |by exists s].
  - destruct Hm as [m Hm]. unfold perform, spec_call. destruct (register_spec s l a m Hi Hm) as (s' & ? & ?).
    exists s'. by rewrite Hm.
  - by apply unregister_spec.
Qed.

Lemma same_modules_lookup s s' a : same_modules s s' ->
  match mods s !! a, mods s' !! a with
  | Some m, Some m' => name m' = name m /\ ops m' = ops m
  | None, None => True
  | _, _ => False
  end.
Proof. intros H. specialize (H a). destruct (mods s !! a), (mods s' !! a); simplify_eq/=; done. Qed.

Lemma spec_call_same s s' c l : same_modules s s' -> spec_call s' c l = spec_call s c l.
Proof.
  intros H. destruct c as [[a|]|[a|]]; try done. simpl. pose proof (same_modules_lookup _ _ a H) as Ha.
  destruct (mods s !! a), (mods s' !! a); try done. destruct Ha as [Hn Ho].
  unfold spec_register, nameless, label, has_ops. by rewrite Hn, Ho, (same_modules_labels s s').
Qed.

Lemma spec_all_same s s' cs l : same_modules s s' -> spec_all s' cs l = spec_all s cs l.
Proof.
  intros H. revert l. induction cs as [|c cs IH]; intros l; [done|]. simpl. by rewrite (spec_call_same s s'), IH.
Qed.

Lemma in_memory_same s s' c : same_modules s s' -> in_memory s c -> in_memory s' c.
Proof.
  intros H. destruct c as [[a|]|]; try done. simpl. intros [m Hm]. pose proof (same_modules_lookup _ _ a H) as Ha.
  rewrite Hm in Ha. by destruct (mods s' !! a).
Qed.

(** Whatever modules are registered and unregistered in whatever order, each call
    returns what it should (a module without a name or without operations, or a name that is
    taken, is refused, and so is removing what is not there), the registered modules are
    those of a list to which registration appends and from which removal deletes, and their
    names stay distinct. *)
Theorem registration_refines cs s l :
  inv s l -> Forall (in_memory s) cs ->
  exists s', perform_all cs s = Some ((spec_all s cs l).1, s') /\ inv s' (spec_all s cs l).2 /\ same_modules s s'.
Proof.
  revert s l. induction cs as [|c cs IH]; intros s l Hi Hm; [by exists s|]. apply Forall_cons in Hm as [Hc Hcs].
  destruct (perform_spec c s l Hi Hc) as (s1 & E1 & Hi1 & Hs1). simpl. run E1.
  destruct (IH s1 (spec_call s c l).2) as (s2 & E2 & Hi2 & Hs2); [done| |].
  { eapply Forall_impl; [done|]. eauto using in_memory_same. }
  rewrite (spec_all_same s s1) in * by done. simpl. run E2. exists s2. simpl. eauto using same_modules_trans.
Qed.

(** ** Asking the modules *)

(** What every hook should do with a list of modules: ask each that has the operation, until
    one refuses. *)
Fixpoint ask (sel : security_ops W -> option (hook W)) (ms : list (security_module W)) w : Z * world W :=
  match ms with
  | [] => (0, w)
  | m :: ms =>
      match ops m ≫= sel with
      | Some h => let r := h w in if r.1 =? 0 then ask sel ms r.2 else r
      | None => ask sel ms w
      end
  end.

Lemma ask_app sel (ms1 ms2 : list (security_module W)) w :
  ask sel (ms1 ++ ms2) w = let r := ask sel ms1 w in if r.1 =? 0 then ask sel ms2 r.2 else r.
Proof.
  revert w. induction ms1 as [|m ms1 IH]; intros w; [done|]. simpl. destruct (ops m ≫= sel) as [h|]; [|apply IH].
  destruct (h w) as [r w'] eqn:E. simpl. destruct (r =? 0) eqn:Er; [apply IH|]. simpl. by rewrite Er.
Qed.

Lemma ask_same sel s s' l w : same_modules s s' -> ask sel (registered s' l) w = ask sel (registered s l) w.
Proof.
  intros H%(same_modules_nodes _ _ l). revert H w. generalize (registered s l) (registered s' l).
  induction l0 as [|m ms IH]; intros [|m' ms']; try done. simpl. intros [= Hn Ho E] w. rewrite Ho.
  destruct (ops m ≫= sel) as [h|]; [|by apply IH]. destruct (h w) as [r w']. simpl. destruct (r =? 0); [by apply IH|done].
Qed.

Lemma call_loop_ask fuel sel ms p l w : chain module_next ms p l -> (length l < fuel)%nat ->
  call_loop fuel sel ms p 0 w = Some (ask sel (nodes_of ms l) w).
Proof.
  revert p l w. induction fuel as [|fuel IH]; intros p [|a l] w; simpl; try lia; [by intros ->|].
  intros [-> (m & Hm & Hl)] Hf. rewrite Hm, bind_Some_l. simpl. destruct (ops m) as [o|]; simpl; [|apply IH; done || lia].
  destruct (sel o) as [h|]; [|apply IH; done || lia].
  destruct (h w) as [r w']. simpl. destruct (Z.eqb_spec r 0) as [->|]; simpl; [|done]. apply IH; done || lia.
Qed.

Lemma call_modules_ask sel s l w : inv s l -> call_modules sel s w = Some (ask sel (registered s l) w).
Proof.
  intros Hi. apply call_loop_ask; [apply Hi|]. pose proof (chain_size _ _ _ _ (inv_chain _ _ Hi)). unfold module_fuel. lia.
Qed.

(** The calls that only ask. *)
Inductive request :=
  | Kill (c : option Z) (pid : Z)
  | Open (c p : option Z) (flags : Z)
  | Permission (c p : option Z) (mask : Z)
  | Chown (c p : option Z) (u g : Z)
  | Chmod (c p : option Z) (mode : Z)
  | Ipc (c : option Z) (key mask : Z)
  | Truncate (p : option Z)
  | Mknod (d e : option Z) (mode dev : Z)
  | Mkdir (d e : option Z) (mode : Z)
  | Rmdir (d e : option Z)
  | Unlink (d e : option Z)
  | Symlink (d e n : option Z)
  | Link (e d e' : option Z)
  | Rename (d e d' e' : option Z) (flags : Z)
  | Path_chmod (p : option Z) (mode : Z)
  | Path_chown (p : option Z) (u g : Z)
  | Chroot (p : option Z).

Definition check (r : request) s w : option (Z * world W) :=
  match r with
  | Kill c pid => security_task_kill c pid s w
  | Open c p flags => security_file_open c p flags s w
  | Permission c p mask => security_file_permission c p mask s w
  | Chown c p u g => security_file_chown c p u g s w
  | Chmod c p mode => security_file_chmod c p mode s w
  | Ipc c key mask => security_ipc_permission c key mask s w
  | Truncate p => security_path_truncate p s w
  | Mknod d e mode dev => security_path_mknod d e mode dev s w
  | Mkdir d e mode => security_path_mkdir d e mode s w
  | Rmdir d e => security_path_rmdir d e s w
  | Unlink d e => security_path_unlink d e s w
  | Symlink d e n => security_path_symlink d e n s w
  | Link e d e' => security_path_link e d e' s w
  | Rename d e d' e' flags => security_path_rename d e d' e' flags s w
  | Path_chmod p mode => security_path_chmod p mode s w
  | Path_chown p u g => security_path_chown p u g s w
  | Chroot p => security_path_chroot p s w
  end.

(** The operation of a module that a request is about, applied to its arguments; none when
    one of them is a null pointer. *)
Definition question (r : request) : option (security_ops W -> option (hook W)) :=
  match r with
  | Kill c pid => c ← c; Some (fun o => (fun f => f c pid) <$> task_kill o)
  | Open c p flags => c ← c; p ← p; Some (fun o => (fun f => f c p flags) <$> file_open o)
  | Permission c p mask => c ← c; p ← p; Some (fun o => (fun f => f c p mask) <$> file_permission o)
  | Chown c p u g => c ← c; p ← p; Some (fun o => (fun f => f c p u g) <$> file_chown o)
  | Chmod c p mode => c ← c; p ← p; Some (fun o => (fun f => f c p mode) <$> file_chmod o)
  | Ipc c key mask => c ← c; Some (fun o => (fun f => f c key mask) <$> ipc_permission o)
  | Truncate p => p ← p; Some (fun o => (fun f => f p) <$> path_truncate o)
  | Mknod d e mode dev => d ← d; e ← e; Some (fun o => (fun f => f d e mode dev) <$> path_mknod o)
  | Mkdir d e mode => d ← d; e ← e; Some (fun o => (fun f => f d e mode) <$> path_mkdir o)
  | Rmdir d e => d ← d; e ← e; Some (fun o => (fun f => f d e) <$> path_rmdir o)
  | Unlink d e => d ← d; e ← e; Some (fun o => (fun f => f d e) <$> path_unlink o)
  | Symlink d e n => d ← d; e ← e; n ← n; Some (fun o => (fun f => f d e n) <$> path_symlink o)
  | Link e d e' => e ← e; d ← d; e' ← e'; Some (fun o => (fun f => f e d e') <$> path_link o)
  | Rename d e d' e' flags =>
      d ← d; e ← e; d' ← d'; e' ← e'; Some (fun o => (fun f => f d e d' e' flags) <$> path_rename o)
  | Path_chmod p mode => p ← p; Some (fun o => (fun f => f p mode) <$> path_chmod o)
  | Path_chown p u g => p ← p; Some (fun o => (fun f => f p u g) <$> path_chown o)
  | Chroot p => p ← p; Some (fun o => (fun f => f p) <$> path_chroot o)
  end.

Definition answer (r : request) (ms : list (security_module W)) w : Z * world W :=
  match question r with Some q => ask q ms w | None => (- EINVAL, w) end.

Lemma check_answer r s l w : inv s l -> check r s w = Some (answer r (registered s l) w).
Proof.
  intros Hi. unfold answer.
  destruct r; repeat match goal with p : option Z |- _ => destruct p end; try done; apply (call_modules_ask _ s l w Hi).
Qed.

(** Every request is put to the registered modules in the order of their registration;
    the first refusal is the result and the modules behind it are not asked; without a
    refusal the request is granted; a null pointer is refused without asking anybody. *)
Theorem requests_first_refusal r s l w :
  inv s l ->
  check r s w = Some (match question r with
                      | Some q => ask q (registered s l) w
                      | None => (- EINVAL, w)
                      end).
Proof. apply check_answer. Qed.

(** C26: One module more can only refuse more: a request that was refused is refused with the
    same code and the new module is not asked, a request that was granted is left to the new
    module; and when it is unregistered again, every request is answered as before. *)
Theorem registration_restricts r s l s1 s2 a m q w :
  inv s l -> mods s !! a = Some m -> question r = Some q ->
  security_register_module (Some a) s = Some (0, s1) -> security_unregister_module (Some a) s1 = Some (0, s2) ->
  check r s1 w = (x ← check r s w; Some (if x.1 =? 0 then ask q [m] x.2 else x)) /\
  check r s2 w = check r s w.
Proof.
  intros Hi Hm Hq E1 E2. destruct (register_spec s l a m Hi Hm) as (s1' & E1' & Hi1 & Hs1).
  rewrite E1 in E1'. injection E1' as H0 <-. unfold spec_register in *.
  destruct (nameless m || negb (has_ops m)); [done|]. case_bool_decide as Hl; [done|]. simpl in Hi1.
  assert (a ∉ l) as Ha.
  { intros Ha. apply Hl, list_elem_of_fmap. exists m. eauto using registered_elem. }
  destruct (unregister_spec s1 (l ++ [a]) a Hi1) as (s2' & E2' & Hi2 & Hs2). rewrite E2 in E2'. injection E2' as _ <-.
  unfold spec_unregister in Hi2. rewrite bool_decide_true in Hi2 by set_solver. simpl in Hi2.
  rewrite (filter_split a l []), app_nil_r in Hi2 by set_solver.
  rewrite (check_answer r s1 (l ++ [a])), (check_answer r s l), (check_answer r s2 l) by done. unfold answer. rewrite Hq.
  rewrite (ask_same q s s1), (registered_snoc s l a m), ask_app by done. split; [done|].
  by rewrite (ask_same q s s2) by (by eapply same_modules_trans).
Qed.

(** ** Credentials *)

(** [security_task_setuid] returns the first refusal and then leaves the contexts as the
    modules made them; without a refusal it sets [uid] of the context and nothing else, so
    that the effective, saved and file system ids stay. *)
Theorem setuid_spec c u s l w :
  inv s l ->
  let r := ask (fun o => (fun f => f c u) <$> task_setuid o) (registered s l) w in
  security_task_setuid (Some c) u s w =
    if r.1 =? 0 then
      match contexts r.2 !! c with
      | Some v => Some (0, with_contexts (<[c := with_uid u v]> (contexts r.2)) r.2)
      | None => None
      end
    else Some r.
Proof.
  intros Hi r. unfold security_task_setuid. rewrite (call_modules_ask _ s l w Hi), bind_Some_l.
  change (ask (fun o => f ← task_setuid o; Some (f c u)) (registered s l) w) with r. destruct r as [ret w']. simpl.
  destruct (Z.eqb_spec ret 0) as [->|]; [|done]. by destruct (contexts w' !! c).
Qed.

(** [security_task_create] gives the child the parent's ids and capabilities before it asks
    anybody: they stay when a module refuses. *)
Theorem task_create_copies p c v s l w :
  inv s l -> contexts w !! p = Some v -> is_Some (contexts w !! c) ->
  security_task_create (Some p) (Some c) s w =
    Some (ask (fun o => (fun f => f p c) <$> task_create o) (registered s l) (with_contexts (<[c := v]> (contexts w)) w)).
Proof.
  intros Hi Hp [x Hc]. unfold security_task_create. rewrite Hp, bind_Some_l, Hc, bind_Some_l. apply (call_modules_ask _ _ _ _ Hi).
Qed.

End Modules.

(** ** Examples *)

(** A module that only has [task_kill], with a fixed answer. *)
Definition kill_ops (r : Z) : security_ops unit :=
  mk_ops None None None (Some (fun _ _ w => (r, w))) None None None None None None None None None None None None None None None None.

Definition module_named (c r : Z) : security_module unit := mk_module (c :: repeat 0 31) (Some (kill_ops r)) None.

(** Two modules in memory, of which the second refuses everything; none registered. *)
Definition two_modules : state unit := mk_state (<[100 := module_named 97 0]> {[200 := module_named 98 (-1)]}) None.

Lemma two_modules_inv : inv two_modules [].
Proof.
  split; [done| |constructor|constructor]. apply map_Forall_insert_2; [|apply map_Forall_singleton]; vm_compute; right; left.
Qed.

Lemma registration_refines_witness :
  exists s, perform_all [Register (Some 100); Register (Some 200); Register (Some 100); Unregister (Some 100); Unregister (Some 100)]
    two_modules = Some ([0; 0; -17; 0; -2], s) /\ inv s [200].
Proof.
  destruct (registration_refines
    [Register (Some 100); Register (Some 200); Register (Some 100); Unregister (Some 100); Unregister (Some 100)]
    two_modules [] two_modules_inv) as (s & E & Hi & _).
  - repeat constructor; vm_compute; eauto.
  - exists s. split; [exact E|exact Hi].
Defined.

Definition no_contexts : world unit := mk_world ∅ tt.

Lemma requests_first_refusal_witness :
  check (Kill (Some 1) 7) two_modules no_contexts = Some (0, no_contexts) /\
  check (Kill None 7) two_modules no_contexts = Some (- EINVAL, no_contexts).
Proof.
  split.
  - rewrite (requests_first_refusal _ two_modules [] no_contexts two_modules_inv). reflexivity.
  - rewrite (requests_first_refusal _ two_modules [] no_contexts two_modules_inv). reflexivity.
Defined.

Lemma registration_restricts_witness :
  exists s1 s2, check (Kill (Some 1) 7) s1 no_contexts = Some (-1, no_contexts) /\
    check (Kill (Some 1) 7) s2 no_contexts = Some (0, no_contexts).
Proof.
  destruct (registration_restricts (Kill (Some 1) 7) two_modules []
    (mk_state (<[200 := module_named 98 (-1)]> (mods two_modules)) (Some 200))
    (mk_state (<[200 := module_named 98 (-1)]> (mods two_modules)) None) 200 (module_named 98 (-1))
    (fun o => (fun f => f 1 7) <$> task_kill o) no_contexts two_modules_inv) as [H1 H2]; try reflexivity.
  do 2 eexists. split; [exact H1|exact H2].
Defined.

End SecuritySpec.
