(* ===== verification/AclSpec.v ===== *)
(** Access control lists ([kernel/security.c]) as finite lists of entries: the operations on
    linked entries refine operations on a map from lists to their contents, and what
    [security_acl_check] decides. *)

From S2P Require Import Prelude SList Security.

Module AclSpec.
Import SList Security.

Implicit Types (h : acls) (a : Z) (es : list Z).

(** ** Abstraction *)

(** Tag, id and permissions. *)
Notation slot := (Z * Z * Z)%type.
Definition value (e : acl_entry) : slot := (tag e, id e, perm e).

Notation chain_in h := (chain entry_next (acl_entries h)).

(** [R] gives the addresses of the entries of every list: each list is a chain with the right
    count, no entry is in two lists, and there are no others. *)
Record rep h (R : gmap Z (list Z)) : Prop := {
  rep_list : forall a,
    match lists h !! a, R !! a with
    | Some L, Some es => chain_in h (entries L) es /\ count L = u32 (Z.of_nat (length es))
    | None, None => True
    | _, _ => False
    end;
  rep_sep : forall a b es es', a <> b -> R !! a = Some es -> R !! b = Some es' -> es ## es';
  rep_all : forall e, is_Some (acl_entries h !! e) -> exists a es, R !! a = Some es /\ e ∈ es
}.

Definition contents h es : list slot := value <$> nodes_of (acl_entries h) es.
Definition view h (R : gmap Z (list Z)) : gmap Z (list slot) := contents h <$> R.

(** The code's lists [h] stand for the abstract ones [M]. *)
Definition sim h (M : gmap Z (list slot)) : Prop := exists R, rep h R /\ M = view h R.

(** ** Specification *)

Fixpoint remove_first (t i : Z) (l : list slot) : option (list slot) :=
  match l with
  | [] => None
  | x :: l => if (x.1.1 =? t) && (x.1.2 =? i) then Some l else cons x <$> remove_first t i l
  end.

(** Does the entry decide for this user and group? *)
Definition fits (c : security_context) (x : slot) : bool :=
  (x.1.1 =? ACL_USER) && (x.1.2 =? uid c) || (x.1.1 =? ACL_GROUP) && (x.1.2 =? gid c) || (x.1.1 =? ACL_OTHER).

Definition granted (c : security_context) (l : list slot) : Z :=
  match List.find (fits c) l with Some x => x.2 | None => 0 end.

Inductive op :=
  | Alloc (mem : option Z)
  | Free (l : option Z)
  | Add (l : option Z) (t i p : Z) (mem : option Z)
  | Remove (l : option Z) (t i : Z).

Inductive reply := Code (r : Z) | Address (p : option Z) | Done.

Definition run_op (o : op) h : option (reply * acls) :=
  match o with
  | Alloc mem => let r := security_acl_alloc mem h in Some (Address r.1, r.2)
  | Free l => h ← security_acl_free l h; Some (Done, h)
  | Add l t i p mem => r ← security_acl_add_entry l t i p mem h; Some (Code r.1, r.2)
  | Remove l t i => r ← security_acl_remove_entry l t i h; Some (Code r.1, r.2)
  end.

Definition spec_op (o : op) (M : gmap Z (list slot)) : reply * gmap Z (list slot) :=
  match o with
  | Alloc None => (Address None, M)
  | Alloc (Some a) => (Address (Some a), <[a := []]> M)
  | Free None => (Done, M)
  | Free (Some a) => (Done, delete a M)
  | Add None _ _ _ _ => (Code (- EINVAL), M)
  | Add (Some a) _ _ _ None => (Code (- ENOMEM), M)
  | Add (Some a) t i p (Some _) => (Code 0, <[a := (t, i, p) :: default [] (M !! a)]> M)
  | Remove None _ _ => (Code (- EINVAL), M)
  | Remove (Some a) t i =>
      match remove_first t i (default [] (M !! a)) with
      | Some l => (Code 0, <[a := l]> M)
      | None => (Code (- ENOENT), M)
      end
  end.

(** What [kmalloc] returns is not in use, and a list that is given is one. *)
Definition valid h (o : op) : Prop :=
  match o with
  | Alloc (Some a) => lists h !! a = None
  | Free (Some a) | Remove (Some a) _ _ => is_Some (lists h !! a)
  | Add (Some a) _ _ _ mem => is_Some (lists h !! a) /\ (forall e, mem = Some e -> acl_entries h !! e = None)
  | _ => True
  end.

(** ** Changing one list *)

Lemma rep_lookup h R a L : rep h R -> lists h !! a = Some L ->
  exists es, R !! a = Some es /\ chain_in h (entries L) es /\ count L = u32 (Z.of_nat (length es)).
Proof. intros H HL. pose proof (rep_list _ _ H a) as Ha. rewrite HL in Ha. destruct (R !! a); [eauto|done]. Qed.

Lemma rep_other h h' R a es b es' : rep h R -> default [] (R !! a) = es -> a <> b -> R !! b = Some es' ->
  (forall e, e ∉ es -> is_Some (acl_entries h !! e) -> acl_entries h' !! e = acl_entries h !! e) ->
  forall e, e ∈ es' -> acl_entries h' !! e = acl_entries h !! e.
Proof.
  intros H Ha Hab Hb Hout e He. pose proof (rep_list _ _ H b) as HL. rewrite Hb in HL.
  destruct (lists h !! b) as [L|]; [|done]. destruct HL as [Hc _]. apply Hout; [|by eapply chain_dom].
  intros He'. destruct (R !! a) as [ea|] eqn:Ea; simpl in Ha; subst; [|by apply not_elem_of_nil in He'].
  by apply (rep_sep _ _ H a b es es' Hab Ea Hb e).
Qed.

(** Replacing one list by another, made of its own entries and of fresh ones. *)
Lemma rep_update h R a es es' L' ns :
  rep h R -> default [] (R !! a) = es -> chain entry_next ns (entries L') es' -> count L' = u32 (Z.of_nat (length es')) ->
  (forall e, e ∉ es -> is_Some (acl_entries h !! e) -> ns !! e = acl_entries h !! e) ->
  (forall e, e ∈ es' -> e ∈ es \/ acl_entries h !! e = None) ->
  (forall e, is_Some (ns !! e) -> e ∈ es' \/ e ∉ es /\ is_Some (acl_entries h !! e)) ->
  let h' := mk_acls (<[a := L']> (lists h)) ns in
  rep h' (<[a := es']> R) /\ view h' (<[a := es']> R) = <[a := contents h' es']> (view h R).
Proof.
  intros H Ha Hc Hn Hout Hnew Hall h'.
  assert (forall b l, a <> b -> R !! b = Some l -> forall e, e ∈ l -> ns !! e = acl_entries h !! e) as Hoth.
  { intros b l Hab Hb. by apply (rep_other h h' R a es b l). }
  split; [split|].
  - intros b. simpl. destruct (decide (a = b)) as [<-|Hab]; [by rewrite !lookup_insert_eq|].
    rewrite !lookup_insert_ne by done. pose proof (rep_list _ _ H b) as Hb.
    destruct (lists h !! b), (R !! b) eqn:E; try done. destruct Hb as [Hb ?]. split; [|done].
    eapply chain_ext; [|done]. by apply (Hoth b).
  - assert (forall b l, a <> b -> R !! b = Some l -> es' ## l) as Hd.
    { intros b l Hab Hb e He Hel. destruct (Hnew e He) as [He'|He'].
      - destruct (R !! a) as [ea|] eqn:Ea; simpl in Ha; subst; [|by apply not_elem_of_nil in He'].
        by apply (rep_sep _ _ H a b es l Hab Ea Hb e).
      - pose proof (rep_list _ _ H b) as HL. rewrite Hb in HL. destruct (lists h !! b); [|done].
        destruct (chain_dom _ _ _ _ e (proj1 HL) Hel). congruence. }
    intros b c l1 l2 Hbc. destruct (decide (a = b)) as [<-|Hab], (decide (a = c)) as [<-|Hac]; try done.
    + rewrite lookup_insert_eq, lookup_insert_ne by done. intros [= <-] Hl2. by eapply Hd.
    + rewrite lookup_insert_eq, lookup_insert_ne by done. intros Hl1 [= <-]. intros e He1 He2. by eapply (Hd b l1 Hab Hl1 e).
    + rewrite !lookup_insert_ne by done. by apply (rep_sep _ _ H).
  - intros e He. destruct (Hall e He) as [He'|[He1 He2]].
    + exists a, es'. by rewrite lookup_insert_eq.
    + destruct (rep_all _ _ H e He2) as (b & l & Hb & Hl). exists b, l. split; [|done].
      rewrite lookup_insert_ne; [done|]. intros <-. rewrite Hb in Ha. simpl in Ha. by subst.
  - unfold view. rewrite fmap_insert. apply map_eq. intros b.
    destruct (decide (a = b)) as [<-|Hab]; [by rewrite !lookup_insert_eq|]. rewrite !lookup_insert_ne, !lookup_fmap by done.
    destruct (R !! b) as [l|] eqn:E; [|done]. simpl. f_equal. unfold contents. simpl. f_equal. apply nodes_of_ext.
    by apply (Hoth b).
Qed.

(** ** The operations *)

Lemma alloc_refines h M a : sim h M -> lists h !! a = None ->
  sim (security_acl_alloc (Some a) h).2 (<[a := []]> M).
Proof.
  intros (R & H & ->) Ha. pose proof (rep_list _ _ H a) as HL. rewrite Ha in HL. destruct (R !! a) eqn:E; [done|].
  destruct (rep_update h R a [] [] (mk_acl 0 None) (acl_entries h)) as [H1 H2]; try done; rewrite ?E; try done.
  - set_solver.
  - intros e He. right. split; [set_solver|done].
  - exists (<[a := []]> R). split; [done|]. symmetry. apply H2.
Qed.

Lemma add_refines h M a t i p e : sim h M -> is_Some (lists h !! a) -> acl_entries h !! e = None ->
  exists h', security_acl_add_entry (Some a) t i p (Some e) h = Some (0, h') /\
    sim h' (<[a := (t, i, p) :: default [] (M !! a)]> M).
Proof.
  intros (R & H & ->) [L HL] He. destruct (rep_lookup _ _ _ _ H HL) as (es & Ha & Hc & Hn).
  unfold security_acl_add_entry. rewrite HL, bind_Some_l. eexists. split; [done|].
  assert (e ∉ es) as Hes by (intros [? ?]%(chain_dom _ _ _ _ _ Hc); congruence).
  assert (forall b, b ∈ es -> <[e := mk_entry t i p (entries L)]> (acl_entries h) !! b = acl_entries h !! b) as Hsame
    by (intros b Hb; rewrite lookup_insert_ne; [done|by intros ->]).
  destruct (rep_update h R a es (e :: es) (mk_acl (u32 (count L + 1)) (Some e)) (<[e := mk_entry t i p (entries L)]> (acl_entries h)))
    as [H1 H2]; try done.
  - by rewrite Ha.
  - simpl. split; [done|]. eexists. rewrite lookup_insert_eq. split; [done|]. by eapply chain_ext.
  - simpl. rewrite Hn. unfold u32, wrap. rewrite Zplus_mod_idemp_l. f_equal. lia.
  - intros b _ [x Hx]. rewrite lookup_insert_ne; [done|]. intros ->. congruence.
  - intros b [->|Hb]%elem_of_cons; auto.
  - intros b Hb. destruct (decide (b = e)) as [->|Hbe]; [left; left|]. rewrite lookup_insert_ne in Hb by done.
    destruct (decide (b ∈ es)); [left; by right|by right].
  - exists (<[a := e :: es]> R). split; [done|]. rewrite H2. f_equal. unfold view. rewrite lookup_fmap, Ha. simpl.
    unfold contents. simpl. rewrite lookup_insert_eq, (nodes_of_ext _ _ es Hsame). done.
Qed.

(** *** Freeing *)

Definition delete_all (es : list Z) (m : gmap Z acl_entry) : gmap Z acl_entry := foldr delete m es.

Lemma delete_all_lookup es m e : delete_all es m !! e = if decide (e ∈ es) then None else m !! e.
Proof.
  unfold delete_all. induction es as [|b es IH]; [by rewrite decide_False by set_solver|simpl].
  destruct (decide (e = b)) as [->|Heb].
  - rewrite lookup_delete_eq. by rewrite decide_True by left.
  - rewrite lookup_delete_ne, IH by done. repeat case_decide; set_solver.
Qed.

Lemma free_entries_spec fuel m p es : chain entry_next m p es -> (length es < fuel)%nat ->
  free_entries fuel p m = Some (delete_all es m).
Proof.
  revert fuel m p. induction es as [|b es IH]; intros [|fuel] m p Hc Hf; simpl in Hf; try lia.
  - by rewrite Hc.
  - pose proof (chain_NoDup _ _ _ _ Hc) as [Hb _]%NoDup_cons. destruct Hc as [-> (x & Hx & Hc)]. simpl.
    rewrite Hx, bind_Some_l, (IH fuel (delete b m)) by (try lia; by apply chain_delete). f_equal.
    apply map_eq. intros e. rewrite delete_all_lookup. destruct (decide (e = b)) as [->|Heb].
    + rewrite !lookup_delete_eq. by case_decide.
    + by rewrite !lookup_delete_ne, delete_all_lookup.
Qed.

Lemma free_refines h M a : sim h M -> is_Some (lists h !! a) ->
  exists h', security_acl_free (Some a) h = Some h' /\ sim h' (delete a M).
Proof.
  intros (R & H & ->) [L HL]. destruct (rep_lookup _ _ _ _ H HL) as (es & Ha & Hc & Hn).
  unfold security_acl_free. rewrite HL, bind_Some_l, (free_entries_spec _ _ _ es), bind_Some_l; [|done|].
  2:{ pose proof (chain_size _ _ _ _ Hc). unfold entry_fuel. lia. }
  eexists. split; [done|]. exists (delete a R).
  assert (forall b l, a <> b -> R !! b = Some l -> forall e, e ∈ l -> delete_all es (acl_entries h) !! e = acl_entries h !! e) as Hoth.
  { intros b l Hab Hb e He. rewrite delete_all_lookup, decide_False; [done|]. intros He'.
    by apply (rep_sep _ _ H a b es l Hab Ha Hb e). }
  split; [split|]; simpl.
  - intros b. destruct (decide (a = b)) as [<-|Hab]; [by rewrite !lookup_delete_eq|]. rewrite !lookup_delete_ne by done.
    pose proof (rep_list _ _ H b) as Hb. destruct (lists h !! b), (R !! b) eqn:E; try done. destruct Hb as [Hb ?].
    split; [|done]. eapply chain_ext; [|done]. by apply (Hoth b).
  - intros b c l1 l2 Hbc [_ H1]%lookup_delete_Some [_ H2]%lookup_delete_Some. by eapply (rep_sep _ _ H b c).
  - intros e. rewrite delete_all_lookup. case_decide as He; [by intros []|]. intros Hs.
    destruct (rep_all _ _ H e Hs) as (b & l & Hb & Hl). exists b, l. split; [|done]. rewrite lookup_delete_ne; [done|].
    intros <-. congruence.
  - unfold view. rewrite <-fmap_delete. apply map_fmap_ext. intros b l [Hab Hb]%lookup_delete_Some.
    unfold contents. simpl. f_equal. symmetry. apply nodes_of_ext. by apply (Hoth b).
Qed.

(** *** Removing *)

Definition matches (t i : Z) (e : acl_entry) : bool := (tag e =? t) && (id e =? i).

Lemma remove_first_none t i (l : list acl_entry) :
  Forall (fun e => matches t i e = false) l -> remove_first t i (value <$> l) = None.
Proof. induction 1 as [|e l He _ IH]; [done|]. csimpl. fold (matches t i e). by rewrite He, IH. Qed.

Lemma remove_first_app t i (l1 l2 : list acl_entry) e :
  Forall (fun e => matches t i e = false) l1 -> matches t i e = true ->
  remove_first t i (value <$> l1 ++ e :: l2) = Some (value <$> l1 ++ l2).
Proof.
  intros H He. induction H as [|e1 l1 He1 _ IH]; csimpl.
  - fold (matches t i e). by rewrite He.
  - fold (matches t i e1). by rewrite He1, IH.
Qed.

(** The first entry of a chain that matches. *)
Lemma first_match (m : gmap Z acl_entry) t i p es : chain entry_next m p es ->
  Forall (fun e => matches t i e = false) (nodes_of m es) \/
  exists la b lb x, es = la ++ b :: lb /\ m !! b = Some x /\ matches t i x = true /\
    Forall (fun e => matches t i e = false) (nodes_of m la).
Proof.
  revert p. induction es as [|b es IH]; intros p; simpl; [by left|]. intros [_ (x & Hx & Hc)]. rewrite Hx.
  destruct (matches t i x) eqn:E.
  - right. exists [], b, es, x. by repeat split.
  - destruct (IH _ Hc) as [Hf|(la & c & lb & y & -> & Hy & Hm & Hf)]; [left; by constructor|].
    right. exists (b :: la), c, lb, y. simpl. rewrite Hx. repeat split; try done. by constructor.
Qed.

Lemma remove_loop_missing fuel h a t i es prev p : chain_in h p es ->
  Forall (fun e => matches t i e = false) (nodes_of (acl_entries h) es) -> (length es < fuel)%nat ->
  remove_loop fuel a t i prev p h = Some (- ENOENT, h).
Proof.
  revert fuel prev p. induction es as [|b es IH]; intros [|fuel] prev p Hc Hm Hf; simpl in Hf; try lia.
  - by rewrite Hc.
  - destruct Hc as [-> (x & Hx & Hc)]. simpl in Hm. rewrite Hx in Hm. apply Forall_cons in Hm as [Hm Hms]. simpl.
    rewrite Hx, bind_Some_l. fold (matches t i x). rewrite Hm. apply IH; done || lia.
Qed.

Lemma remove_loop_found fuel h a t i L la b lb x prev p :
  chain_in h p (la ++ b :: lb) -> acl_entries h !! b = Some x -> matches t i x = true ->
  Forall (fun e => matches t i e = false) (nodes_of (acl_entries h) la) -> lists h !! a = Some L -> (length la < fuel)%nat ->
  remove_loop fuel a t i prev p h =
    match match last la with Some q => Some q | None => prev end with
    | None => Some (0, mk_acls (<[a := mk_acl (u32 (count L - 1)) (entry_next x)]> (lists h)) (delete b (acl_entries h)))
    | Some q =>
        e' ← acl_entries h !! q;
        Some (0, mk_acls (<[a := mk_acl (u32 (count L - 1)) (entries L)]> (lists h))
                   (delete b (<[q := with_entry_next (entry_next x) e']> (acl_entries h))))
    end.
Proof.
  intros Hc Hx Hm Hla HL. revert fuel prev p Hc. induction la as [|c la IH]; intros [|fuel] prev p Hc Hf; simpl in Hf; try lia.
  - destruct Hc as [-> _]. simpl. rewrite Hx, bind_Some_l. fold (matches t i x). by rewrite Hm, HL, bind_Some_l.
  - destruct Hc as [-> (y & Hy & Hc)]. simpl in Hla. rewrite Hy in Hla. apply Forall_cons in Hla as [Hyt Hla].
    rewrite last_cons. simpl. rewrite Hy, bind_Some_l. fold (matches t i y). rewrite Hyt.
    rewrite (IH Hla fuel (Some c) (entry_next y)) by (done || lia). by destruct (last la).
Qed.

(** The chain behind the removal of [b]. *)
Lemma unlink_chain (m : gmap Z acl_entry) L la b lb x n : chain entry_next m (entries L) (la ++ b :: lb) -> m !! b = Some x ->
  exists L' m', 
    (match last la with
     | None => Some (mk_acl n (entry_next x), delete b m)
     | Some q => e' ← m !! q; Some (mk_acl n (entries L), delete b (<[q := with_entry_next (entry_next x) e']> m))
     end) = Some (L', m') /\ count L' = n /\ chain entry_next m' (entries L') (la ++ lb) /\
    (forall e, e ∉ la -> e <> b -> m' !! e = m !! e) /\ m' !! b = None /\
    (forall l, l ⊆ la ++ lb -> value <$> nodes_of m' l = value <$> nodes_of m l).
Proof.
  intros Hc Hx. pose proof (chain_NoDup _ _ _ _ Hc) as (_ & Hab & [Hlb _]%NoDup_cons)%NoDup_app.
  assert (b ∉ la) as Hla by (intros H; destruct (Hab b H); left).
  pose proof (chain_behind _ _ _ _ _ _ _ Hc Hx) as Hcb.
  assert (forall l, l ⊆ la ++ lb -> b ∉ l) as Hbl by set_solver.
  destruct (decide (la = [])) as [->|Hne].
  - simpl. do 2 eexists. split; [done|]. split; [done|]. simpl. split; [by apply chain_delete|].
    split; [by intros e _ ?; rewrite lookup_delete_ne|]. split; [apply lookup_delete_eq|]. intros l Hl. f_equal.
    apply nodes_of_ext. intros e He. rewrite lookup_delete_ne; [done|]. intros ->. by apply (Hbl l).
  - destruct (exists_last Hne) as (l0 & q & ->). rewrite last_snoc, <-app_assoc in *. simpl in Hc.
    destruct (chain_dom _ _ _ _ q Hc) as [y Hy]; [set_solver|]. rewrite Hy, bind_Some_l.
    assert (q <> b) as Hqb by set_solver.
    do 2 eexists. split; [done|]. split; [done|]. simpl. split.
    { apply chain_delete; [|set_solver]. simpl.
      eapply (chain_relink _ _ _ _ _ y); try done. intros Hq. destruct (Hab q); set_solver. }
    split; [intros e He ?; rewrite lookup_delete_ne, lookup_insert_ne by set_solver; done|].
    split; [apply lookup_delete_eq|]. intros l Hl. specialize (Hbl l Hl). clear Hl.
    induction l as [|e l IH]; [done|]. simpl. rewrite lookup_delete_ne by set_solver.
    specialize (IH ltac:(set_solver)). destruct (decide (e = q)) as [->|].
    + rewrite lookup_insert_eq, Hy. csimpl. by rewrite IH.
    + rewrite lookup_insert_ne by done. destruct (m !! e); [csimpl; by rewrite IH|done].
Qed.

Lemma remove_refines h M a t i : sim h M -> is_Some (lists h !! a) ->
  exists r h', security_acl_remove_entry (Some a) t i h = Some (r, h') /\
    match remove_first t i (default [] (M !! a)) with
    | Some l => r = 0 /\ sim h' (<[a := l]> M)
    | None => r = - ENOENT /\ sim h' M
    end.
Proof.
  intros (R & H & ->) [L HL]. destruct (rep_lookup _ _ _ _ H HL) as (es & Ha & Hc & Hn).
  unfold security_acl_remove_entry. rewrite HL, bind_Some_l. unfold view at 1. rewrite lookup_fmap, Ha. simpl default.
  pose proof (chain_size _ _ _ _ Hc) as Hsz.
  destruct (first_match _ t i _ _ Hc) as [Hm|(la & b & lb & x & -> & Hx & Hm & Hla)].
  { rewrite (remove_loop_missing _ _ _ _ _ es) by (done || unfold entry_fuel; lia). do 2 eexists. split; [done|].
    unfold contents. rewrite remove_first_none by done. split; [done|]. by exists R. }
  rewrite length_app in Hsz. simpl in Hsz.
  rewrite (remove_loop_found _ _ _ _ _ L la b lb x) by (done || unfold entry_fuel; lia).
  destruct (unlink_chain _ L la b lb x (u32 (count L - 1)) Hc Hx) as (L' & m' & Eq & Hn' & Hc' & Hout & Hb & Hv).
  exists 0, (mk_acls (<[a := L']> (lists h)) m'). split.
  { destruct (last la) as [q|]; [|by simplify_eq]. apply bind_Some in Eq as (y & Ey & ?). rewrite Ey, bind_Some_l. by simplify_eq. }
  unfold contents. rewrite nodes_of_app. simpl. rewrite Hx, remove_first_app by done. split; [done|].
  destruct (rep_update h R a (la ++ b :: lb) (la ++ lb) L' m') as [H1 H2]; try done.
  - by rewrite Ha.
  - rewrite Hn', Hn, !length_app. simpl. unfold u32, wrap. rewrite Zminus_mod_idemp_l. f_equal. lia.
  - intros e He _. apply Hout; set_solver.
  - intros e He. left. set_solver.
  - intros e He. destruct (decide (e = b)) as [->|]; [rewrite Hb in He; by destruct He|].
    destruct (decide (e ∈ la ++ lb)); [by left|]. right. split; [set_solver|]. rewrite Hout in He by set_solver. done.
  - exists (<[a := la ++ lb]> R). split; [done|]. rewrite H2. f_equal. unfold contents. simpl. rewrite Hv by done.
    by rewrite nodes_of_app.
Qed.

(** The operations on access control lists refine those on a map from lists to sequences
    of entries: a new list is empty, adding puts an entry in front, removing takes away the
    first entry with the tag and id and fails when there is none, freeing gives back the list
    and all its entries; no other list changes, and every entry in memory belongs to exactly
    one list whose count is the number of its entries. *)
Theorem acl_operations_refine h M o :
  sim h M -> valid h o ->
  exists h', run_op o h = Some ((spec_op o M).1, h') /\ sim h' (spec_op o M).2.
Proof.
  intros Hs Hv. destruct o as [[a|]|[a|]|[a|] t i p [e|]|[a|] t i]; simpl in Hv; try by (eexists; split; [reflexivity|]).
  - eexists. split; [reflexivity|]. by apply alloc_refines.
  - destruct (free_refines h M a Hs Hv) as (h' & E & Hs'). exists h'. split; [|done]. unfold run_op. by rewrite E.
  - destruct (add_refines h M a t i p e Hs (proj1 Hv)) as (h' & E & Hs'); [by apply (proj2 Hv)|]. exists h'.
    split; [|done]. unfold run_op. by rewrite E.
  - destruct (remove_refines h M a t i Hs Hv) as (r & h' & E & Hr). exists h'. unfold run_op, spec_op. rewrite E, bind_Some_l.
    destruct (remove_first _ _ _); by destruct Hr as [-> Hr].
Qed.

(** ** Decisions *)

Lemma check_loop_granted fuel c m p es : chain entry_next m p es -> (length es < fuel)%nat ->
  check_loop fuel c p m = Some (granted c (value <$> nodes_of m es)).
Proof.
  revert fuel p. induction es as [|b es IH]; intros [|fuel] p Hc Hf; simpl in Hf; try lia.
  - by rewrite Hc.
  - destruct Hc as [-> (x & Hx & Hc)]. simpl. rewrite Hx, bind_Some_l. unfold granted. csimpl.
    unfold fits at 1. simpl. destruct ((tag x =? ACL_USER) && (id x =? uid c)); [done|].
    destruct ((tag x =? ACL_GROUP) && (id x =? gid c)); [done|]. destruct (tag x =? ACL_OTHER); [done|].
    simpl. apply IH; done || lia.
Qed.

Lemma acl_check_granted h M a l c v mask cs :
  sim h M -> M !! a = Some l -> cs !! c = Some v ->
  security_acl_check (Some a) (Some c) mask cs h =
    Some (if (uid v =? 0) || (Z.land (granted v l) mask =? mask) then 0 else - EACCES).
Proof.
  intros (R & H & ->) Hl Hv. unfold security_acl_check. rewrite Hv, bind_Some_l. destruct (uid v =? 0); [done|].
  unfold view in Hl. rewrite lookup_fmap in Hl. destruct (R !! a) as [es|] eqn:Ea; [|done]. injection Hl as <-.
  pose proof (rep_list _ _ H a) as HL. rewrite Ea in HL. destruct (lists h !! a) as [L|]; [|done]. destruct HL as [Hc _].
  rewrite bind_Some_l, (check_loop_granted _ v _ _ es), bind_Some_l; [|done|].
  - unfold contents. simpl. by destruct (_ =? mask).
  - pose proof (chain_size _ _ _ _ Hc). unfold entry_fuel. lia.
Qed.

(** [security_acl_check] lets the user 0 do everything; everybody else needs all the bits
    of the mask among the permissions of the first entry that is for the user, for the group,
    or for others; without such an entry there are no permissions. *)
Theorem acl_check_decides h M a l c v mask cs :
  sim h M -> M !! a = Some l -> cs !! c = Some v ->
  security_acl_check (Some a) (Some c) mask cs h =
    Some (if (uid v =? 0) || (Z.land (granted v l) mask =? mask) then 0 else - EACCES).
Proof. apply acl_check_granted. Qed.

(** The order of the entries decides, not their kind: an entry for others that is added later
    stands in front of one for the user and hides it, whatever the user had. *)
Theorem acl_other_hides h M a l c v cs i p e mask :
  sim h M -> M !! a = Some l -> cs !! c = Some v -> uid v <> 0 -> acl_entries h !! e = None ->
  exists h', security_acl_add_entry (Some a) ACL_OTHER i p (Some e) h = Some (0, h') /\
    security_acl_check (Some a) (Some c) mask cs h' = Some (if Z.land p mask =? mask then 0 else - EACCES).
Proof.
  intros Hs Hl Hv Hu He. assert (is_Some (lists h !! a)) as HL.
  { destruct Hs as (R & H & ->). pose proof (rep_list _ _ H a) as HL. unfold view in Hl. rewrite lookup_fmap in Hl.
    destruct (R !! a), (lists h !! a); done || eauto. }
  destruct (add_refines h M a ACL_OTHER i p e Hs HL He) as (h' & E & Hs'). exists h'. split; [done|].
  rewrite Hl in Hs'. simpl in Hs'.
  rewrite (acl_check_granted h' _ a ((ACL_OTHER, i, p) :: l) c v mask cs Hs' (lookup_insert_eq _ _ _) Hv).
  by destruct (Z.eqb_spec (uid v) 0).
Qed.

(** Asked for all capabilities at once ([CAP_ALL]), the code says yes to whom has one. *)
Theorem capability_all c v cs :
  cs !! c = Some v -> 0 <= cap_effective v < 2 ^ 32 ->
  security_has_capability (Some c) 0xFFFFFFFF cs = Some (if cap_effective v =? 0 then 0 else 1).
Proof.
  intros Hv Hr. unfold security_has_capability, has_flag. rewrite Hv, bind_Some_l.
  change 0xFFFFFFFF with (Z.ones 32). rewrite Z.land_ones, Z.mod_small by lia. by destruct (cap_effective v =? 0).
Qed.

(** ** Examples *)

(** One list at 10 with an entry for user 5 at 20, and nothing else. *)
Definition one_list : acls := mk_acls {[10 := mk_acl 1 (Some 20)]} {[20 := mk_entry ACL_USER 5 6 None]}.

Lemma one_list_sim : sim one_list {[10 := [(ACL_USER, 5, 6)]]}.
Proof.
  exists {[10 := [20]]}. split; [|by vm_compute]. split.
  - intros a. simpl. destruct (decide (a = 10)) as [->|]; [|by rewrite !lookup_singleton_ne].
    rewrite !lookup_singleton_eq. split; [|done]. simpl. split; [done|]. eexists. by rewrite lookup_singleton_eq.
  - intros a b es es' Hab [<- _]%lookup_singleton_Some [<- _]%lookup_singleton_Some. done.
  - intros e [x Hx]. simpl in Hx. apply lookup_singleton_Some in Hx as [<- _]. exists 10, [20]. rewrite lookup_singleton_eq. set_solver.
Qed.

Lemma acl_operations_refine_witness :
  exists h, run_op (Add (Some 10) ACL_GROUP 3 4 (Some 30)) one_list = Some (Code 0, h) /\
    sim h {[10 := [(ACL_GROUP, 3, 4); (ACL_USER, 5, 6)]]}.
Proof.
  destruct (acl_operations_refine one_list {[10 := [(ACL_USER, 5, 6)]]} (Add (Some 10) ACL_GROUP 3 4 (Some 30)) one_list_sim)
    as (h & E & H).
  - split; [by vm_compute; eauto|]. intros e [= <-]. reflexivity.
  - exists h. split; [exact E|exact H].
Defined.

Lemma acl_check_decides_witness :
  security_acl_check (Some 10) (Some 1) 2 {[1 := mk_ctx 5 3 0 0 0 0 0 0 0 0 0]} one_list = Some 0 /\
  security_acl_check (Some 10) (Some 1) 1 {[1 := mk_ctx 5 3 0 0 0 0 0 0 0 0 0]} one_list = Some (- EACCES).
Proof.
  split.
  - rewrite (acl_check_decides one_list {[10 := [(ACL_USER, 5, 6)]]} 10 [(ACL_USER, 5, 6)] 1 (mk_ctx 5 3 0 0 0 0 0 0 0 0 0));
      [reflexivity|exact one_list_sim|reflexivity..].
  - rewrite (acl_check_decides one_list {[10 := [(ACL_USER, 5, 6)]]} 10 [(ACL_USER, 5, 6)] 1 (mk_ctx 5 3 0 0 0 0 0 0 0 0 0));
      [reflexivity|exact one_list_sim|reflexivity..].
Defined.

End AclSpec.
