(* ===== verification/Sched.v ===== *)
(** The scheduler: [kernel/sched.c] with the real-time part [kernel/sched/rt.c]. There is one
    run queue: [sched.c] includes [sched/config.h] last, where [CONFIG_NR_CPUS] is 1, and
    [this_rq()] is the first queue. *)

From S2P Require Import Prelude.

Module Sched.

(** ** Constants *)

(** States and priorities as [sched.c] sees them: [sched/config.h] redefines the macros of
    [thread.h] and comes behind it. *)
Definition THREAD_STATE_READY : Z := 1.
Definition THREAD_STATE_RUNNING : Z := 2.
Definition THREAD_STATE_BLOCKED : Z := 3.
Definition THREAD_STATE_SLEEPING : Z := 4.
Definition THREAD_PRIO_IDLE : Z := 139.
Definition THREAD_PRIO_LOW : Z := 120.
Definition THREAD_PRIO_NORMAL : Z := 100.
Definition THREAD_PRIO_REALTIME : Z := 0.
Definition SCHED_TIMESLICE_DEFAULT : Z := 100.
Definition CONFIG_NR_CPUS : Z := 1.

Definition THREAD_KERNEL : Z := 1.
Definition SCHED_FIFO : Z := 1.
Definition SCHED_RR : Z := 2.
Definition SCHED_BATCH : Z := 3.
Definition SCHED_IDLE : Z := 4.
Definition SCHED_DEADLINE : Z := 5.
Definition UINT32_MAX : Z := 0xFFFFFFFF.
Definition EINVAL : Z := 22.

(** [SCHED_PRIO_MAX] as [rt.c] sees it, without [sched/config.h]. *)
Definition SCHED_PRIO_MAX : Z := 99.

(** ** Data *)

(** The fields of [struct thread] that the scheduler uses. *)
Record thread := mk_thread {
  tid : Z; pid : Z; st : Z; flags : Z; policy : Z; priority : Z; static_priority : Z; dynamic_priority : Z;
  time_slice : Z; start_time : Z; cpu : Z; wakeup_time : Z; next : option Z; prev : option Z
}.

Record run_queue := mk_rq {
  nr_running : Z; nr_switches : Z; nr_schedule : Z; curr_timestamp : Z; last_timestamp : Z;
  curr : option Z; idle : option Z; head : option Z; tail : option Z; bitmap : Z
}.

(** The static variables of [rt.c]. *)
Record rt_vars := mk_rt {
  rt_enabled : bool; rt_runtime : Z; rt_period : Z; rt_prio_base : Z;
  rt_schedule_count : Z; rt_switch_count : Z; rt_preempt_count : Z; rt_yield_count : Z; rt_boost_count : Z; rt_throttle_count : Z
}.

Record state := mk_state { threads : gmap Z thread; rq : run_queue; rt : rt_vars }.

Definition with_state (v : Z) (t : thread) : thread :=
  mk_thread (tid t) (pid t) v (flags t) (policy t) (priority t) (static_priority t) (dynamic_priority t) (time_slice t)
    (start_time t) (cpu t) (wakeup_time t) (next t) (prev t).
Definition with_policy (v : Z) (t : thread) : thread :=
  mk_thread (tid t) (pid t) (st t) (flags t) v (priority t) (static_priority t) (dynamic_priority t) (time_slice t)
    (start_time t) (cpu t) (wakeup_time t) (next t) (prev t).
Definition with_priority (v : Z) (t : thread) : thread :=
  mk_thread (tid t) (pid t) (st t) (flags t) (policy t) v (static_priority t) (dynamic_priority t) (time_slice t)
    (start_time t) (cpu t) (wakeup_time t) (next t) (prev t).
Definition with_static (v : Z) (t : thread) : thread :=
  mk_thread (tid t) (pid t) (st t) (flags t) (policy t) (priority t) v (dynamic_priority t) (time_slice t)
    (start_time t) (cpu t) (wakeup_time t) (next t) (prev t).
Definition with_dynamic (v : Z) (t : thread) : thread :=
  mk_thread (tid t) (pid t) (st t) (flags t) (policy t) (priority t) (static_priority t) v (time_slice t)
    (start_time t) (cpu t) (wakeup_time t) (next t) (prev t).
Definition with_slice (v : Z) (t : thread) : thread :=
  mk_thread (tid t) (pid t) (st t) (flags t) (policy t) (priority t) (static_priority t) (dynamic_priority t) v
    (start_time t) (cpu t) (wakeup_time t) (next t) (prev t).
Definition with_cpu (v : Z) (t : thread) : thread :=
  mk_thread (tid t) (pid t) (st t) (flags t) (policy t) (priority t) (static_priority t) (dynamic_priority t) (time_slice t)
    (start_time t) v (wakeup_time t) (next t) (prev t).
Definition with_wakeup (v : Z) (t : thread) : thread :=
  mk_thread (tid t) (pid t) (st t) (flags t) (policy t) (priority t) (static_priority t) (dynamic_priority t) (time_slice t)
    (start_time t) (cpu t) v (next t) (prev t).
Definition with_next (v : option Z) (t : thread) : thread :=
  mk_thread (tid t) (pid t) (st t) (flags t) (policy t) (priority t) (static_priority t) (dynamic_priority t) (time_slice t)
    (start_time t) (cpu t) (wakeup_time t) v (prev t).
Definition with_prev (v : option Z) (t : thread) : thread :=
  mk_thread (tid t) (pid t) (st t) (flags t) (policy t) (priority t) (static_priority t) (dynamic_priority t) (time_slice t)
    (start_time t) (cpu t) (wakeup_time t) (next t) v.

Definition with_nr_running (v : Z) (q : run_queue) : run_queue :=
  mk_rq v (nr_switches q) (nr_schedule q) (curr_timestamp q) (last_timestamp q) (curr q) (idle q) (head q) (tail q) (bitmap q).
Definition with_nr_switches (v : Z) (q : run_queue) : run_queue :=
  mk_rq (nr_running q) v (nr_schedule q) (curr_timestamp q) (last_timestamp q) (curr q) (idle q) (head q) (tail q) (bitmap q).
Definition with_nr_schedule (v : Z) (q : run_queue) : run_queue :=
  mk_rq (nr_running q) (nr_switches q) v (curr_timestamp q) (last_timestamp q) (curr q) (idle q) (head q) (tail q) (bitmap q).
Definition with_curr_timestamp (v : Z) (q : run_queue) : run_queue :=
  mk_rq (nr_running q) (nr_switches q) (nr_schedule q) v (last_timestamp q) (curr q) (idle q) (head q) (tail q) (bitmap q).
Definition with_last_timestamp (v : Z) (q : run_queue) : run_queue :=
  mk_rq (nr_running q) (nr_switches q) (nr_schedule q) (curr_timestamp q) v (curr q) (idle q) (head q) (tail q) (bitmap q).
Definition with_curr (v : option Z) (q : run_queue) : run_queue :=
  mk_rq (nr_running q) (nr_switches q) (nr_schedule q) (curr_timestamp q) (last_timestamp q) v (idle q) (head q) (tail q) (bitmap q).
Definition with_head (v : option Z) (q : run_queue) : run_queue :=
  mk_rq (nr_running q) (nr_switches q) (nr_schedule q) (curr_timestamp q) (last_timestamp q) (curr q) (idle q) v (tail q) (bitmap q).
Definition with_tail (v : option Z) (q : run_queue) : run_queue :=
  mk_rq (nr_running q) (nr_switches q) (nr_schedule q) (curr_timestamp q) (last_timestamp q) (curr q) (idle q) (head q) v (bitmap q).
Definition with_bitmap (v : Z) (q : run_queue) : run_queue :=
  mk_rq (nr_running q) (nr_switches q) (nr_schedule q) (curr_timestamp q) (last_timestamp q) (curr q) (idle q) (head q) (tail q) v.

(** [p->field = ...]; a null or wild pointer is a fault. *)
Definition upd (p : Z) (f : thread -> thread) (s : state) : option state :=
  t ← threads s !! p; Some (mk_state (<[p := f t]> (threads s)) (rq s) (rt s)).
(** [rq->field = ...]. *)
Definition on_rq (f : run_queue -> run_queue) (s : state) : state := mk_state (threads s) (f (rq s)) (rt s).
Definition on_rt (f : rt_vars -> rt_vars) (s : state) : state := mk_state (threads s) (rq s) (f (rt s)).
(** [*p] for a pointer that may be null. *)
Definition deref (p : option Z) (s : state) : option thread := a ← p; threads s !! a.

(** ** The run queue *)

(** The same lines in [sched_add_thread], [sched_enqueue_thread] and [sched_requeue_thread]:
    to the end of the queue. *)
Definition append (a : Z) (s : state) : option state :=
  match tail (rq s) with
  | None =>
      s ← upd a (with_next None) (on_rq (fun q => with_tail (Some a) (with_head (Some a) q)) s);
      upd a (with_prev None) s
  | Some t =>
      s ← upd a (with_prev (Some t)) s;
      s ← upd a (with_next None) s;
      s ← upd t (with_next (Some a)) s;
      Some (on_rq (with_tail (Some a)) s)
  end.

Definition count_up (s : state) : state := on_rq (fun q => with_nr_running (u32 (nr_running q + 1)) q) s.

Definition sched_add_thread (thread : option Z) (s : state) : option state :=
  match thread with
  | None => Some s
  | Some a =>
      t ← threads s !! a;
      if negb (st t =? THREAD_STATE_READY) then Some s else s ← append a s; Some (count_up s)
  end.

Definition sched_enqueue_thread (thread : option Z) (s : state) : option state :=
  match thread with
  | None => Some s
  | Some a => s ← append a s; Some (count_up s)
  end.

Definition sched_requeue_thread (thread : option Z) (s : state) : option state :=
  match thread with
  | None => Some s
  | Some a => append a s
  end.

Definition sched_remove_thread (thread : option Z) (s : state) : option state :=
  match thread with
  | None => Some s
  | Some a =>
      t ← threads s !! a;
      s ← match prev t with
          | Some p => upd p (with_next (next t)) s
          | None => Some (on_rq (with_head (next t)) s)
          end;
      t ← threads s !! a;
      s ← match next t with
          | Some n => upd n (with_prev (prev t)) s
          | None => Some (on_rq (with_tail (prev t)) s)
          end;
      s ← upd a (with_next None) s;
      s ← upd a (with_prev None) s;
      Some (if 0 <? nr_running (rq s) then on_rq (fun q => with_nr_running (nr_running q - 1) q) s else s)
  end.

Definition sched_dequeue_thread (s : state) : option (option Z * state) :=
  match head (rq s) with
  | None => Some (None, s)
  | Some a =>
      t ← threads s !! a;
      s ← match next t with
          | Some n => upd n (with_prev None) (on_rq (with_head (next t)) s)
          | None => Some (on_rq (fun q => with_tail None (with_head None q)) s)
          end;
      s ← upd a (with_next None) s;
      s ← upd a (with_prev None) s;
      Some (Some a, s)
  end.

(** ** Real-time threads: [rt.c] *)

Definition is_rt (t : thread) : bool := (policy t =? SCHED_FIFO) || (policy t =? SCHED_RR).

Definition rt_is_realtime (p : option Z) (s : state) : option bool :=
  match p with
  | None => Some false
  | Some a => if negb (rt_enabled (rt s)) then Some false else t ← threads s !! a; Some (is_rt t)
  end.

Definition rt_can_preempt (p current : option Z) (s : state) : option bool :=
  match p, current with
  | Some a, Some c =>
      if negb (rt_enabled (rt s)) then Some false
      else
        r ← rt_is_realtime p s;
        if negb r then Some false
        else
          rc ← rt_is_realtime current s;
          if (rc : bool) then t ← threads s !! a; tc ← threads s !! c; Some (priority t <? priority tc) else Some true
  | _, _ => Some false
  end.

Definition bump_schedule (v : rt_vars) : rt_vars :=
  mk_rt (rt_enabled v) (rt_runtime v) (rt_period v) (rt_prio_base v) (u64 (rt_schedule_count v + 1)) (rt_switch_count v)
    (rt_preempt_count v) (rt_yield_count v) (rt_boost_count v) (rt_throttle_count v).
Definition bump_yield (v : rt_vars) : rt_vars :=
  mk_rt (rt_enabled v) (rt_runtime v) (rt_period v) (rt_prio_base v) (rt_schedule_count v) (rt_switch_count v)
    (rt_preempt_count v) (u64 (rt_yield_count v + 1)) (rt_boost_count v) (rt_throttle_count v).
Definition bump_boost (v : rt_vars) : rt_vars :=
  mk_rt (rt_enabled v) (rt_runtime v) (rt_period v) (rt_prio_base v) (rt_schedule_count v) (rt_switch_count v)
    (rt_preempt_count v) (rt_yield_count v) (u64 (rt_boost_count v + 1)) (rt_throttle_count v).
Definition bump_throttle (v : rt_vars) : rt_vars :=
  mk_rt (rt_enabled v) (rt_runtime v) (rt_period v) (rt_prio_base v) (rt_schedule_count v) (rt_switch_count v)
    (rt_preempt_count v) (rt_yield_count v) (rt_boost_count v) (u64 (rt_throttle_count v + 1)).

Section Memory.
(** [rq->active] is never set and stays a null pointer: [rt_schedule] looks at list heads in
    the memory behind address 0. Whether that memory can be read is up to the page tables;
    what is there makes no difference, since the loop takes [NULL] for every thread. *)
Context (low_memory : bool).

(** The result is the thread to run: always [NULL]. *)
Definition rt_schedule (s : state) : option (option Z * state) :=
  if negb (rt_enabled (rt s)) then Some (None, s)
  else if low_memory then Some (None, on_rt bump_schedule s) else None.

(** ** Scheduling *)

(** Whether the switch takes place; [next] differs from [curr]. *)
Definition can_preempt (nxt cur : option Z) (s : state) : option bool :=
  rn ← rt_is_realtime nxt s;
  if (rn : bool) then
    rc ← rt_is_realtime cur s;
    if negb rc then Some true else rt_can_preempt nxt cur s
  else
    c ← deref cur s;
    Some (negb ((policy c =? SCHED_FIFO) && (st c =? THREAD_STATE_RUNNING))).

(** The body of the branch that switches. [sched_context_switch] only prints the two ids. *)
Definition switch_to (nxt cur : option Z) (s : state) : option state :=
  let s := on_rq (fun q => with_nr_switches (u32 (nr_switches q + 1)) q) s in
  c ← deref cur s;
  cp ← cur;
  s ← (if st c =? THREAD_STATE_RUNNING then upd cp (with_state THREAD_STATE_READY) s else Some s);
  np ← nxt;
  s ← upd np (with_state THREAD_STATE_RUNNING) s;
  Some (on_rq (with_curr nxt) s).

Definition sched_schedule (s : state) : option state :=
  let s := on_rq (fun q => with_nr_schedule (u64 (nr_schedule q + 1)) q) s in
  let cur := curr (rq s) in
  r ← rt_schedule s;
  r ← match r.1 with None => sched_dequeue_thread r.2 | Some _ => Some r end;
  let s := r.2 in
  let nxt := match r.1 with None => idle (rq s) | Some _ => r.1 end in
  s ← (if bool_decide (cur <> idle (rq s)) then
         c ← deref cur s;
         if st c =? THREAD_STATE_RUNNING then
           if negb (policy c =? SCHED_FIFO) || negb (st c =? THREAD_STATE_RUNNING) then sched_requeue_thread cur s else Some s
         else Some s
       else Some s);
  if bool_decide (cur <> nxt) then
    can ← can_preempt nxt cur s;
    if (can : bool) then switch_to nxt cur s else Some s
  else Some s.

Definition sched_yield (s : state) : option state := sched_schedule s.

Definition sched_check_preempt (thread : option Z) (s : state) : option state :=
  match thread with
  | None => Some s
  | Some a =>
      let cur := curr (rq s) in
      if bool_decide (cur = idle (rq s)) then sched_schedule s
      else
        let normal :=
          t ← threads s !! a; c ← deref cur s;
          if dynamic_priority t <? dynamic_priority c then sched_schedule s else Some s in
        r ← rt_is_realtime thread s;
        if (r : bool) then
          rc ← rt_is_realtime cur s;
          if negb rc then sched_schedule s
          else
            can ← rt_can_preempt thread cur s;
            if (can : bool) then sched_schedule s else normal
        else
          c ← deref cur s;
          if (policy c =? SCHED_FIFO) && (st c =? THREAD_STATE_RUNNING) then Some s else normal
  end.

Definition schedule_if_current (a : Z) (s : state) : option state :=
  if bool_decide (Some a = curr (rq s)) then sched_schedule s else Some s.

Definition sched_block_thread (thread : option Z) (s : state) : option state :=
  match thread with
  | None => Some s
  | Some a =>
      s ← upd a (with_state THREAD_STATE_BLOCKED) s;
      s ← sched_remove_thread thread s;
      schedule_if_current a s
  end.

Definition sched_unblock_thread (thread : option Z) (s : state) : option state :=
  match thread with
  | None => Some s
  | Some a =>
      t ← threads s !! a;
      if negb (st t =? THREAD_STATE_BLOCKED) then Some s
      else
        s ← upd a (with_state THREAD_STATE_READY) s;
        s ← sched_add_thread thread s;
        sched_check_preempt thread s
  end.

(** [now] is what [get_timestamp] returns. *)
Definition sched_sleep_thread (thread : option Z) (ms now : Z) (s : state) : option state :=
  match thread with
  | None => Some s
  | Some a =>
      s ← upd a (with_state THREAD_STATE_SLEEPING) s;
      s ← upd a (with_wakeup (u64 (now + ms * 1000))) s;
      s ← sched_remove_thread thread s;
      schedule_if_current a s
  end.

Definition sched_wakeup_thread (thread : option Z) (s : state) : option state :=
  match thread with
  | None => Some s
  | Some a =>
      t ← threads s !! a;
      if negb (st t =? THREAD_STATE_SLEEPING) then Some s
      else
        s ← upd a (with_state THREAD_STATE_READY) s;
        s ← sched_add_thread thread s;
        sched_check_preempt thread s
  end.

(** The loop of [sched_tick]; [next] is read before the thread is woken up. *)
Fixpoint wake_loop (fuel : nat) (p : option Z) (s : state) : option state :=
  match fuel with
  | O => None
  | S fuel =>
      match p with
      | None => Some s
      | Some a =>
          t ← threads s !! a;
          s ← (if (st t =? THREAD_STATE_SLEEPING) && (wakeup_time t <=? curr_timestamp (rq s)) then sched_wakeup_thread (Some a) s
               else Some s);
          wake_loop fuel (next t) s
      end
  end.

(** A turn of the current thread's time slice; [slice] is what an expired one is set to. *)
Definition tick_slice (a slice : Z) (s : state) : option state :=
  t ← threads s !! a;
  s ← (if 0 <? time_slice t then upd a (with_slice (time_slice t - 1)) s else Some s);
  t ← threads s !! a;
  if time_slice t =? 0 then
    s ← upd a (with_slice slice) s;
    s ← sched_requeue_thread (Some a) s;
    sched_schedule s
  else Some s.

Definition sched_update_statistics (s : state) : state := on_rq (fun q => with_last_timestamp (curr_timestamp q) q) s.

Definition sched_tick (fuel : nat) (now : Z) (s : state) : option state :=
  let s := on_rq (with_curr_timestamp now) s in
  let cur := curr (rq s) in
  if bool_decide (cur = idle (rq s)) then Some s
  else
    a ← cur;
    t ← threads s !! a;
    s ← (if policy t =? SCHED_FIFO then Some s
         else if policy t =? SCHED_RR then tick_slice a 100 s
         else tick_slice a SCHED_TIMESLICE_DEFAULT s);
    s ← wake_loop fuel (head (rq s)) s;
    Some (sched_update_statistics s).

End Memory.

(** ** Attributes *)

Definition sched_update_priority (t : thread) : thread := with_dynamic (static_priority t) t.

Definition sched_update_timeslice (t : thread) : thread :=
  if policy t =? SCHED_FIFO then with_slice 0 t else with_slice SCHED_TIMESLICE_DEFAULT t.

Definition sched_update_policy (t : thread) : thread :=
  let t :=
    if policy t =? SCHED_FIFO then with_slice UINT32_MAX (with_static THREAD_PRIO_REALTIME t)
    else if policy t =? SCHED_RR then with_slice 100 (with_static THREAD_PRIO_REALTIME t)
    else if policy t =? SCHED_BATCH then with_slice (SCHED_TIMESLICE_DEFAULT * 2) (with_static THREAD_PRIO_LOW t)
    else if policy t =? SCHED_IDLE then with_slice SCHED_TIMESLICE_DEFAULT (with_static THREAD_PRIO_IDLE t)
    else if policy t =? SCHED_DEADLINE then with_slice SCHED_TIMESLICE_DEFAULT (with_static (THREAD_PRIO_REALTIME - 1) t)
    else with_slice SCHED_TIMESLICE_DEFAULT (with_static THREAD_PRIO_NORMAL t) in
  with_dynamic (static_priority t) t.

Definition sched_update_affinity (t : thread) : thread := if CONFIG_NR_CPUS <=? cpu t then with_cpu 0 t else t.

Definition sched_update_thread (t : thread) : thread :=
  sched_update_affinity (sched_update_policy (sched_update_timeslice (sched_update_priority t))).

Definition sched_set_priority (thread : option Z) (p : Z) (s : state) : option state :=
  match thread with
  | None => Some s
  | Some a =>
      if (p <? THREAD_PRIO_IDLE) || (THREAD_PRIO_REALTIME <? p) then Some s
      else upd a (fun t => sched_update_thread (with_dynamic p (with_static p (with_priority p t)))) s
  end.

Definition sched_get_priority (thread : option Z) (s : state) : option Z :=
  match thread with None => Some (- EINVAL) | Some a => t ← threads s !! a; Some (priority t) end.

Definition sched_set_policy (thread : option Z) (p : Z) (s : state) : option state :=
  match thread with
  | None => Some s
  | Some a =>
      if SCHED_DEADLINE <? p then Some s
      else
        upd a (fun t =>
          sched_update_thread
            (with_slice (if p =? SCHED_FIFO then UINT32_MAX else if p =? SCHED_RR then 100 else SCHED_TIMESLICE_DEFAULT)
              (with_policy p t))) s
  end.

(** The error code is returned as an unsigned number. *)
Definition sched_get_policy (thread : option Z) (s : state) : option Z :=
  match thread with None => Some (u32 (- EINVAL)) | Some a => t ← threads s !! a; Some (policy t) end.

Definition sched_set_timeslice (thread : option Z) (v : Z) (s : state) : option state :=
  match thread with None => Some s | Some a => upd a (with_slice v) s end.

Definition sched_get_timeslice (thread : option Z) (s : state) : option Z :=
  match thread with None => Some 0 | Some a => t ← threads s !! a; Some (time_slice t) end.

Definition sched_set_affinity (thread : option Z) (c : Z) (s : state) : option state :=
  match thread with
  | None => Some s
  | Some a => if CONFIG_NR_CPUS <=? c then Some s else upd a (with_cpu c) s
  end.

Definition sched_get_affinity (thread : option Z) (s : state) : option Z :=
  match thread with None => Some 0 | Some a => t ← threads s !! a; Some (cpu t) end.

(** ** Start *)

(** [now] is the time at the first and [now'] at the second call of [get_timestamp]; [mem] is
    what [kmalloc] returns for the idle thread. *)
Definition sched_init (now now' : Z) (mem : option Z) (s : state) : state :=
  let q := mk_rq 0 0 0 now now None None None None 0 in
  match mem with
  | None => mk_state (threads s) q (rt s)
  | Some a =>
      mk_state
        (<[a := mk_thread 0 0 THREAD_STATE_RUNNING THREAD_KERNEL SCHED_IDLE THREAD_PRIO_IDLE THREAD_PRIO_IDLE THREAD_PRIO_IDLE
                  SCHED_TIMESLICE_DEFAULT now' 0 0 None None]> (threads s))
        (mk_rq 0 0 0 now now (Some a) (Some a) None None 0) (rt s)
  end.

(** ** Parameters of the real-time part *)

Definition rt_init (s : state) : state := on_rt (fun _ => mk_rt true 950000 1000000 100 0 0 0 0 0 0) s.

Definition rt_enable (enable : Z) (s : state) : Z * state :=
  (0, on_rt (fun v => mk_rt (negb (enable =? 0)) (rt_runtime v) (rt_period v) (rt_prio_base v) (rt_schedule_count v)
                        (rt_switch_count v) (rt_preempt_count v) (rt_yield_count v) (rt_boost_count v) (rt_throttle_count v)) s).

Definition rt_set_runtime (runtime : Z) (s : state) : Z * state :=
  if rt_period (rt s) <? runtime then (- EINVAL, s)
  else (0, on_rt (fun v => mk_rt (rt_enabled v) runtime (rt_period v) (rt_prio_base v) (rt_schedule_count v)
                        (rt_switch_count v) (rt_preempt_count v) (rt_yield_count v) (rt_boost_count v) (rt_throttle_count v)) s).

Definition rt_set_period (period : Z) (s : state) : Z * state :=
  if (period =? 0) || (period <? rt_runtime (rt s)) then (- EINVAL, s)
  else (0, on_rt (fun v => mk_rt (rt_enabled v) (rt_runtime v) period (rt_prio_base v) (rt_schedule_count v)
                        (rt_switch_count v) (rt_preempt_count v) (rt_yield_count v) (rt_boost_count v) (rt_throttle_count v)) s).

Definition rt_set_prio_base (base : Z) (s : state) : Z * state :=
  (0, on_rt (fun v => mk_rt (rt_enabled v) (rt_runtime v) (rt_period v) base (rt_schedule_count v)
                        (rt_switch_count v) (rt_preempt_count v) (rt_yield_count v) (rt_boost_count v) (rt_throttle_count v)) s).

(** [1ULL << p]: a shift by 64 bits or more, or by a negative number, is undefined. *)
Definition bit64 (p : Z) : option Z := if (0 <=? p) && (p <? 64) then Some (BIT p) else None.

(** The guards that all of these have; the thread they go on with. *)
Definition rt_guard (p : option Z) (s : state) : option (option (Z * thread)) :=
  match p with
  | None => Some None
  | Some a => if negb (rt_enabled (rt s)) then Some None else t ← threads s !! a; Some (if is_rt t then Some (a, t) else None)
  end.

Definition rt_enqueue (p : option Z) (s : state) : option (Z * state) :=
  g ← rt_guard p s;
  match g with
  | None => Some (- EINVAL, s)
  | Some (_, t) => b ← bit64 (priority t); Some (0, on_rq (fun q => with_bitmap (Z.lor (bitmap q) b) q) s)
  end.

Definition rt_dequeue (p : option Z) (s : state) : option (Z * state) :=
  g ← rt_guard p s;
  match g with
  | None => Some (- EINVAL, s)
  | Some (_, t) => b ← bit64 (priority t); Some (0, on_rq (fun q => with_bitmap (Z.land (bitmap q) (Z.lnot b)) q) s)
  end.

Definition rt_yield (p : option Z) (s : state) : option (Z * state) :=
  g ← rt_guard p s;
  match g with
  | None => Some (- EINVAL, s)
  | Some _ => Some (0, on_rt bump_yield s)
  end.

(** The end of [rt_boost] and [rt_throttle]: a new priority, and its bit instead of the old. *)
Definition set_rt_priority (a : Z) (old new : Z) (s : state) : option state :=
  if new =? old then Some s
  else
    s ← upd a (with_priority new) s;
    b ← bit64 old; b' ← bit64 new;
    Some (on_rq (fun q => with_bitmap (Z.lor (Z.land (bitmap q) (Z.lnot b)) b') q) s).

Definition rt_boost (p : option Z) (boost : Z) (s : state) : option (Z * state) :=
  if boost <=? 0 then Some (- EINVAL, s)
  else
    g ← rt_guard p s;
    match g with
    | None => Some (- EINVAL, s)
    | Some (a, t) =>
        let new := s32 (priority t - boost) in
        s ← set_rt_priority a (priority t) (if new <? 0 then 0 else new) (on_rt bump_boost s);
        Some (0, s)
    end.

Definition rt_throttle (p : option Z) (throttle : Z) (s : state) : option (Z * state) :=
  if throttle <=? 0 then Some (- EINVAL, s)
  else
    g ← rt_guard p s;
    match g with
    | None => Some (- EINVAL, s)
    | Some (a, t) =>
        let new := s32 (priority t + throttle) in
        s ← set_rt_priority a (priority t) (if SCHED_PRIO_MAX <? new then SCHED_PRIO_MAX else new) (on_rt bump_throttle s);
        Some (0, s)
    end.

End Sched.
