(* ===== verification/SchedQueue.v ===== *)
(** The run queue of the scheduler ([kernel/sched.c]) as a list of threads: what the
    operations on its doubly linked nodes do to it. *)

From S2P Require Import Prelude Sched.

Module SchedQueue.
Import Sched.

Implicit Types (s : state) (ts : gmap Z thread) (l : list Z) (p e : option Z).

(** ** Linked threads *)

Definition link ts (a : Z) : option (option Z * option Z) := (fun t => (prev t, next t)) <$> ts !! a.

(** The first of [l], or [e] when there is none, and the last, or [p]. *)
Definition first_of l e : option Z := match l with [] => e | a :: _ => Some a end.
Fixpoint end_of p l : option Z := match l with [] => p | a :: l => end_of (Some a) l end.

(** The threads [l] are linked to each other, behind [p] and before [e]. *)
Fixpoint seg ts p l e : Prop :=
  match l with
  | [] => True
  | a :: l => link ts a = Some (p, first_of l e) /\ seg ts (Some a) l e
  end.

Lemma first_of_app l1 l2 e : first_of (l1 ++ l2) e = first_of l1 (first_of l2 e).
Proof. by destruct l1. Qed.

Lemma end_of_app p l1 l2 : end_of p (l1 ++ l2) = end_of (end_of p l1) l2.
Proof. revert p. induction l1 as [|a l1 IH]; intros p; [done|]. apply IH. Qed.

Lemma end_of_cases p l : end_of p l = p /\ l = [] \/ exists l0 a, l = l0 ++ [a] /\ end_of p l = Some a.
Proof.
  destruct (decide (l = [])) as [->|(l0 & a & ->)%exists_last]; [by left|]. right. exists l0, a. by rewrite end_of_app.
Qed.

Lemma seg_app ts p l1 l2 e : seg ts p (l1 ++ l2) e <-> seg ts p l1 (first_of l2 e) /\ seg ts (end_of p l1) l2 e.
Proof. revert p. induction l1 as [|a l1 IH]; intros p; simpl; [tauto|]. rewrite first_of_app, IH. tauto. Qed.

Lemma seg_ext ts ts' p l e : (forall a, a ∈ l -> link ts' a = link ts a) -> seg ts p l e -> seg ts' p l e.
Proof.
  revert p. induction l as [|a l IH]; intros p E; [done|]. intros [Ha Hl]. split; [rewrite E; [done|left]|].
  apply IH; [|done]. intros b Hb. apply E. by right.
Qed.

Lemma seg_link ts p l e a : seg ts p l e -> a ∈ l -> exists t, ts !! a = Some t.
Proof.
  intros H (l1 & l2 & ->)%list_elem_of_split. apply seg_app in H as [_ [H _]]. unfold link in H.
  destruct (ts !! a); [eauto|done].
Qed.

Lemma link_insert ts a t : link (<[a := t]> ts) a = Some (prev t, next t).
Proof. unfold link. by rewrite lookup_insert_eq. Qed.
Lemma link_insert_ne ts a b t : a <> b -> link (<[a := t]> ts) b = link ts b.
Proof. intros H. unfold link. by rewrite lookup_insert_ne. Qed.
Lemma link_Some ts a t : ts !! a = Some t -> link ts a = Some (prev t, next t).
Proof. unfold link. by intros ->. Qed.

(** Writing the link behind the last, and before the first. *)
Lemma seg_end ts p l a e e' t : ts !! a = Some t -> a ∉ l -> seg ts p (l ++ [a]) e ->
  seg (<[a := with_next e' t]> ts) p (l ++ [a]) e'.
Proof.
  intros Ht Ha [Hl [Hk _]]%seg_app. apply seg_app. split.
  - eapply seg_ext; [|exact Hl]. intros b Hb. apply link_insert_ne. by intros ->.
  - split; [|done]. rewrite link_insert. rewrite (link_Some _ _ _ Ht) in Hk. by injection Hk as <- _.
Qed.

Lemma seg_start ts p p' l a e t : ts !! a = Some t -> a ∉ l -> seg ts p (a :: l) e ->
  seg (<[a := with_prev p' t]> ts) p' (a :: l) e.
Proof.
  intros Ht Ha [Hk Hl]. split.
  - rewrite link_insert. rewrite (link_Some _ _ _ Ht) in Hk. by injection Hk as _ <-.
  - eapply seg_ext; [|exact Hl]. intros b Hb. apply link_insert_ne. by intros ->.
Qed.

(** ** The queue *)

(** Threads outside the queue have no links. *)
Record queue s l : Prop := {
  q_nodup : NoDup l;
  q_head : head (rq s) = first_of l None;
  q_tail : tail (rq s) = end_of None l;
  q_seg : seg (threads s) None l None;
  q_loose : forall a x, a ∉ l -> link (threads s) a = Some x -> x = (None, None)
}.

(** A thread and a run queue without what the queue operations change. *)
Definition body (t : thread) : thread := with_prev None (with_next None t).
Definition bare (q : run_queue) : run_queue := with_tail None (with_head None q).

Definition bodies s s' : Prop := forall a, body <$> threads s' !! a = body <$> threads s !! a.

(** Only links, head and tail change. *)
Definition frame s s' : Prop := bodies s s' /\ bare (rq s') = bare (rq s) /\ rt s' = rt s.

Lemma bodies_insert s a t t' q r : threads s !! a = Some t -> body t' = body t -> bodies s (mk_state (<[a := t']> (threads s)) q r).
Proof.
  intros Ha Hb c. simpl. destruct (decide (a = c)) as [<-|]; [|by rewrite lookup_insert_ne].
  rewrite lookup_insert_eq, Ha. simpl. by rewrite Hb.
Qed.

Lemma bodies_trans s1 s2 s3 : bodies s1 s2 -> bodies s2 s3 -> bodies s1 s3.
Proof. intros H1 H2 a. by rewrite H2, H1. Qed.

Lemma frame_refl s : frame s s.
Proof. by repeat split. Qed.

Lemma frame_trans s1 s2 s3 : frame s1 s2 -> frame s2 s3 -> frame s1 s3.
Proof. intros (B1 & R1 & T1) (B2 & R2 & T2). split; [by eapply bodies_trans|]. by rewrite R2, R1, T2, T1. Qed.

Lemma frame_upd s a t t' : threads s !! a = Some t -> body t' = body t -> frame s (mk_state (<[a := t']> (threads s)) (rq s) (rt s)).
Proof. intros. split; [by eapply bodies_insert|done]. Qed.

Lemma frame_rq s f : bare (f (rq s)) = bare (rq s) -> frame s (on_rq f s).
Proof. by repeat split. Qed.

(** What a frame keeps of a thread. *)
Lemma frame_thread s s' a t : frame s s' -> threads s !! a = Some t -> exists t', threads s' !! a = Some t' /\ body t' = body t.
Proof. intros [H _] Ht. specialize (H a). rewrite Ht in H. destruct (threads s' !! a); [|done]. apply (inj Some) in H. eauto. Qed.

Lemma upd_ok s a f t : threads s !! a = Some t -> upd a f s = Some (mk_state (<[a := f t]> (threads s)) (rq s) (rt s)).
Proof. intros Ht. unfold upd. by rewrite Ht. Qed.

(** ** Appending *)

Lemma append_empty s a t : queue s [] -> threads s !! a = Some t ->
  exists s', append a s = Some s' /\ queue s' [a] /\ frame s s'.
Proof.
  intros [_ Hh Ht _ Hloose] Ha. unfold append. rewrite Ht.
  rewrite (upd_ok _ _ _ t) by done. rewrite bind_Some_l. erewrite upd_ok by (simpl; apply lookup_insert_eq). simpl.
  rewrite insert_insert_eq. eexists. split; [done|]. split.
  - split; simpl; try done; [apply NoDup_singleton|by rewrite link_insert|].
    intros b x Hb. rewrite link_insert_ne by set_solver. apply Hloose. set_solver.
  - split; [|done]. by eapply bodies_insert.
Qed.

Lemma append_behind s l b a t : queue s (l ++ [b]) -> a ∉ l ++ [b] -> threads s !! a = Some t ->
  exists s', append a s = Some s' /\ queue s' (l ++ [b; a]) /\ frame s s'.
Proof.
  intros [Hnd Hh Ht Hs Hloose] Hnew Ha. unfold append. rewrite Ht, end_of_app. simpl.
  assert (a <> b) as Hab by set_solver. assert (b ∉ l) as Hbl by (apply NoDup_app in Hnd as (_ & H & _); set_solver).
  destruct (seg_link _ _ _ _ b Hs) as [tb Hb]; [set_solver|].
  rewrite (upd_ok _ _ _ t) by done. rewrite bind_Some_l. erewrite upd_ok by (simpl; apply lookup_insert_eq). simpl.
  rewrite insert_insert_eq. erewrite upd_ok by (simpl; by rewrite lookup_insert_ne). simpl. eexists. split; [done|]. split.
  - change [b; a] with ([b] ++ [a]). rewrite app_assoc. split; simpl.
    + apply NoDup_app. split; [done|]. split; [set_solver|apply NoDup_singleton].
    + rewrite Hh. by rewrite !first_of_app.
    + by rewrite end_of_app.
    + apply seg_app. rewrite end_of_app. simpl. split.
      * eapply seg_end; [by rewrite lookup_insert_ne|done|]. eapply seg_ext; [|exact Hs].
        intros c Hc. apply link_insert_ne. set_solver.
      * split; [|done]. rewrite link_insert_ne by done. by rewrite link_insert.
    + intros c x Hc. rewrite !link_insert_ne by set_solver. apply Hloose. set_solver.
  - split; [|done]. eapply bodies_trans; [by apply (bodies_insert s a t (with_next None (with_prev (Some b) t)) (rq s) (rt s))|].
    eapply (bodies_insert (mk_state _ _ _)); simpl; [by rewrite lookup_insert_ne|done].
Qed.

Lemma append_ok s l a t : queue s l -> a ∉ l -> threads s !! a = Some t ->
  exists s', append a s = Some s' /\ queue s' (l ++ [a]) /\ frame s s'.
Proof.
  intros H Ha Ht. destruct (decide (l = [])) as [->|(l0 & b & ->)%exists_last]; [by eapply append_empty|].
  rewrite <-app_assoc. by eapply append_behind.
Qed.

(** ** Taking the first *)

Lemma dequeue_empty s : queue s [] -> sched_dequeue_thread s = Some (None, s).
Proof. intros [_ Hh _ _ _]. unfold sched_dequeue_thread. by rewrite Hh. Qed.

Lemma rq_dequeue_ok s a l : queue s (a :: l) ->
  exists s', sched_dequeue_thread s = Some (Some a, s') /\ queue s' l /\ frame s s'.
Proof.
  intros [Hnd Hh Ht [Hk Hs] Hloose]. apply NoDup_cons in Hnd as [Hal Hnd]. unfold sched_dequeue_thread. rewrite Hh. simpl.
  unfold link in Hk. destruct (threads s !! a) as [t|] eqn:Ea; [|done]. injection Hk as Hp Hn. rewrite bind_Some_l, Hn.
  destruct l as [|b l]; simpl.
  - rewrite (upd_ok (on_rq _ s) a _ t) by done. rewrite bind_Some_l. erewrite upd_ok by (simpl; apply lookup_insert_eq). simpl.
    rewrite insert_insert_eq. eexists. split; [done|]. split; [|split; [|done]]; [|by eapply bodies_insert].
    split; simpl; try done. intros c x _. destruct (decide (a = c)) as [<-|Hac]; [rewrite link_insert; by intros [= <-]|].
    rewrite link_insert_ne by done. apply Hloose. set_solver.
  - destruct (seg_link _ _ _ _ b Hs) as [tb Hb]; [left|]. assert (a <> b) as Hab by set_solver.
    rewrite (upd_ok (on_rq _ s) b _ tb) by done. simpl. erewrite upd_ok by (simpl; by rewrite lookup_insert_ne). simpl.
    erewrite upd_ok by (simpl; apply lookup_insert_eq). simpl. rewrite insert_insert_eq. eexists. split; [done|].
    apply NoDup_cons in Hnd as [Hbl Hnd]. split; [split; simpl|].
    + by apply NoDup_cons.
    + done.
    + by rewrite Ht.
    + apply (seg_ext (<[b := with_prev None tb]> (threads s)) _ None (b :: l) None).
      { intros c Hc. apply link_insert_ne. set_solver. }
      by eapply (seg_start _ (Some a)).
    + intros c x Hc. destruct (decide (a = c)) as [<-|Hac]; [rewrite link_insert; by intros [= <-]|].
      rewrite !link_insert_ne by set_solver. apply Hloose. set_solver.
    + split; [|done]. eapply bodies_trans; [by apply (bodies_insert s b tb (with_prev None tb) (rq s) (rt s))|].
      eapply (bodies_insert (mk_state _ _ _)); simpl; [by rewrite lookup_insert_ne|done].
Qed.

(** ** Removing *)

(** The two halves of [sched_remove_thread]: the link from the left and the one from the
    right. *)
Lemma unlink_left s l1 a l2 t : queue s (l1 ++ a :: l2) -> threads s !! a = Some t ->
  exists s', match prev t with Some p => upd p (with_next (next t)) s | None => Some (on_rq (with_head (next t)) s) end = Some s' /\
    threads s' !! a = Some t /\ seg (threads s') None l1 (first_of l2 None) /\ seg (threads s') (Some a) l2 None /\
    head (rq s') = first_of (l1 ++ l2) None /\ tail (rq s') = tail (rq s) /\
    (forall b, b ∉ l1 -> link (threads s') b = link (threads s) b) /\ frame s s'.
Proof.
  intros [Hnd Hh Ht [Hs1 [Hk Hs2]]%seg_app _] Ha. rewrite (link_Some _ _ _ Ha) in Hk. injection Hk as -> ->.
  apply NoDup_app in Hnd as (Hn1 & Hd & [Ha2 Hn2]%NoDup_cons).
  destruct (end_of_cases None l1) as [[-> ->]|(l0 & p & -> & ->)].
  - eexists. split; [done|]. by repeat split.
  - assert (p ∉ l0) as Hp by (apply NoDup_app in Hn1 as (_ & H & _); set_solver).
    assert (p <> a) as Hpa by (intros ->; apply (Hd a); set_solver).
    destruct (seg_link _ _ _ _ p Hs1) as [tp Htp]; [set_solver|]. rewrite (upd_ok _ _ _ tp) by done.
    eexists. split; [done|]. simpl. rewrite lookup_insert_ne by done. split; [done|]. split; [by eapply seg_end|].
    split. { eapply seg_ext; [|exact Hs2]. intros b Hb. apply link_insert_ne. intros ->. apply (Hd b); set_solver. }
    split; [rewrite Hh, !first_of_app; by destruct l0|]. split; [done|].
    split; [intros b Hb; apply link_insert_ne; set_solver|]. by eapply frame_upd.
Qed.

Lemma unlink_right s a l2 t p : a ∉ l2 -> NoDup l2 -> threads s !! a = Some t -> prev t = p -> next t = first_of l2 None ->
  seg (threads s) (Some a) l2 None ->
  exists s', match next t with Some n => upd n (with_prev (prev t)) s | None => Some (on_rq (with_tail (prev t)) s) end = Some s' /\
    threads s' !! a = Some t /\ seg (threads s') p l2 None /\ head (rq s') = head (rq s) /\
    tail (rq s') = (if decide (l2 = []) then p else tail (rq s)) /\
    (forall b, b ∉ l2 -> link (threads s') b = link (threads s) b) /\ frame s s'.
Proof.
  intros Ha Hnd Ht -> -> Hs. destruct l2 as [|n l2]; simpl.
  - eexists. split; [done|]. by repeat split.
  - destruct (seg_link _ _ _ _ n Hs) as [tn Htn]; [left|]. rewrite (upd_ok _ _ _ tn) by done. eexists. split; [done|]. simpl.
    apply NoDup_cons in Hnd as [Hn _]. rewrite lookup_insert_ne by set_solver. split; [done|].
    split; [by eapply (seg_start _ (Some a))|]. split; [done|]. split; [done|].
    split; [intros b Hb; apply link_insert_ne; set_solver|]. by eapply frame_upd.
Qed.

(** [nr_running] behind a removal. *)
Definition count_down s : state :=
  if 0 <? nr_running (rq s) then on_rq (fun q => with_nr_running (nr_running q - 1) q) s else s.

Lemma count_down_threads s : threads (count_down s) = threads s /\ head (rq (count_down s)) = head (rq s) /\
  tail (rq (count_down s)) = tail (rq s).
Proof. unfold count_down. by destruct (0 <? _). Qed.

Lemma count_down_queue s l : queue s l -> queue (count_down s) l.
Proof. intros []. destruct (count_down_threads s) as (E1 & E2 & E3). split; rewrite ?E1, ?E2, ?E3; done. Qed.

Lemma remove_ok s l1 a l2 : queue s (l1 ++ a :: l2) ->
  exists s', sched_remove_thread (Some a) s = Some (count_down s') /\ queue s' (l1 ++ l2) /\ frame s s'.
Proof.
  intros HQ. pose proof HQ as [Hnd Hh Htl Hs Hloose].
  assert (exists t, threads s !! a = Some t) as [t Ht] by (eapply seg_link; [done|set_solver]).
  pose proof Hs as [_ [Hk _]]%seg_app. rewrite (link_Some _ _ _ Ht) in Hk. injection Hk as Hp Hn.
  apply NoDup_app in Hnd as (Hn1 & Hd & [Ha2 Hn2]%NoDup_cons).
  destruct (unlink_left s l1 a l2 t HQ Ht) as (s1 & E1 & Ht1 & Hs1 & Hs2 & Hh1 & Htl1 & Ho1 & F1).
  destruct (unlink_right s1 a l2 t (end_of None l1)) as (s2 & E2 & Ht2 & Hs3 & Hh2 & Htl2 & Ho2 & F2); try done.
  unfold sched_remove_thread. run Ht. run E1. run Ht1. run E2.
  rewrite (upd_ok _ _ _ t), bind_Some_l by done. erewrite upd_ok by (simpl; apply lookup_insert_eq). rewrite bind_Some_l. simpl.
  rewrite insert_insert_eq. eexists (mk_state (<[a := body t]> (threads s2)) (rq s2) (rt s2)). split; [done|].
  assert (a ∉ l1) as Ha1 by (intros H; apply (Hd a H); left). split; [split; simpl|].
  - apply NoDup_app. split; [done|]. split; [|done]. intros b Hb1 Hb2. apply (Hd b Hb1). by right.
  - by rewrite Hh2.
  - rewrite Htl2, end_of_app, Htl1, Htl, end_of_app. simpl. destruct l2; by destruct (decide _).
  - apply seg_app. split.
    + eapply seg_ext; [|exact Hs1]. intros b Hb. rewrite link_insert_ne by (by intros ->). apply Ho2.
      intros Hb2. apply (Hd b Hb). by right.
    + eapply seg_ext; [|exact Hs3]. intros b Hb. apply link_insert_ne. by intros ->.
  - intros b x Hb. destruct (decide (a = b)) as [<-|Hab]; [rewrite link_insert; by intros [= <-]|].
    rewrite link_insert_ne, Ho2, Ho1 by set_solver. apply Hloose. set_solver.
  - eapply frame_trans; [exact F1|]. eapply frame_trans; [exact F2|]. by eapply frame_upd.
Qed.

(** Taking away a thread that is not in the queue: the code takes it for the only one there
    and forgets all the others. *)
Lemma remove_loose s l a t : queue s l -> a ∉ l -> threads s !! a = Some t ->
  exists s', sched_remove_thread (Some a) s = Some (count_down s') /\ head (rq s') = None /\ tail (rq s') = None /\
    threads s' = threads s /\ frame s s'.
Proof.
  intros [Hnd Hh Htl Hs Hloose] Ha Ht. pose proof (Hloose a _ Ha (link_Some _ _ _ Ht)) as [= Hp Hn].
  unfold sched_remove_thread. run Ht. rewrite Hp, Hn, bind_Some_l. simpl. rewrite Ht, bind_Some_l. rewrite Hp, Hn, bind_Some_l.
  rewrite (upd_ok _ _ _ t), bind_Some_l by done. erewrite upd_ok by (simpl; apply lookup_insert_eq). rewrite bind_Some_l. simpl.
  rewrite insert_insert_eq. exists (mk_state (<[a := body t]> (threads s)) (with_tail None (with_head None (rq s))) (rt s)). split; [reflexivity|]. simpl.
  assert (body t = t) as Hb by (destruct t; simpl in *; by subst). rewrite Hb, insert_id by done. by repeat split.
Qed.

(** Changes that leave links, head and tail alone. *)
Lemma queue_same s s' l : queue s l -> (forall a, link (threads s') a = link (threads s) a) ->
  head (rq s') = head (rq s) -> tail (rq s') = tail (rq s) -> queue s' l.
Proof.
  intros [Hnd Hh Ht Hs Hl] E Eh Et. split; [done|by rewrite Eh|by rewrite Et| |].
  - eapply seg_ext; [|exact Hs]. auto.
  - intros a x Ha. rewrite E. by apply Hl.
Qed.

Lemma link_keep ts a t t' b : ts !! a = Some t -> prev t' = prev t -> next t' = next t -> link (<[a := t']> ts) b = link ts b.
Proof.
  intros Ha Hp Hn. destruct (decide (a = b)) as [<-|]; [|by apply link_insert_ne]. by rewrite link_insert, (link_Some _ _ t), Hp, Hn.
Qed.

(** ** The operations as operations on a list *)

Inductive op := Enqueue (a : Z) | Add (a : Z) | Dequeue | Remove (a : Z).

Definition perform (o : op) s : option (option Z * state) :=
  match o with
  | Enqueue a => s ← sched_enqueue_thread (Some a) s; Some (None, s)
  | Add a => s ← sched_add_thread (Some a) s; Some (None, s)
  | Dequeue => sched_dequeue_thread s
  | Remove a => s ← sched_remove_thread (Some a) s; Some (None, s)
  end.

(** [ready a]: the thread's state is [THREAD_STATE_READY]. *)
Definition ready s (a : Z) : bool := match threads s !! a with Some t => st t =? THREAD_STATE_READY | None => false end.

Definition spec (rd : Z -> bool) (o : op) l : option Z * list Z :=
  match o with
  | Enqueue a => (None, l ++ [a])
  | Add a => (None, if rd a then l ++ [a] else l)
  | Dequeue => (first_of l None, List.tl l)
  | Remove a => (None, filter (fun b => b <> a) l)
  end.

(** A thread is put into the queue when it is not there, and removed when it is. *)
Definition valid s l (o : op) : Prop :=
  match o with
  | Enqueue a | Add a => is_Some (threads s !! a) /\ a ∉ l
  | Dequeue => True
  | Remove a => a ∈ l
  end.

Fixpoint valid_all s (os : list op) l : Prop :=
  match os with [] => True | o :: os => valid s l o /\ valid_all s os (spec (ready s) o l).2 end.

Fixpoint perform_all (os : list op) s : option (list (option Z) * state) :=
  match os with
  | [] => Some ([], s)
  | o :: os => r ← perform o s; rs ← perform_all os r.2; Some (r.1 :: rs.1, rs.2)
  end.

Fixpoint spec_all (rd : Z -> bool) (os : list op) l : list (option Z) * list Z :=
  match os with
  | [] => ([], l)
  | o :: os => let r := spec rd o l in let rs := spec_all rd os r.2 in (r.1 :: rs.1, rs.2)
  end.

Lemma queue_count s l f : queue s l -> head (f (rq s)) = head (rq s) -> tail (f (rq s)) = tail (rq s) -> queue (on_rq f s) l.
Proof. intros H Eh Et. by eapply queue_same. Qed.

Lemma count_up_ok s l : queue s l -> queue (count_up s) l /\ bodies s (count_up s).
Proof. intros H. split; [by apply queue_count|done]. Qed.

Lemma remove_filter l1 a l2 : NoDup (l1 ++ a :: l2) -> filter (fun b => b <> a) (l1 ++ a :: l2) = l1 ++ l2.
Proof.
  intros (_ & Hd & [Ha _]%NoDup_cons)%NoDup_app. rewrite filter_app, filter_cons_False by naive_solver.
  f_equal; apply filter_all, Forall_forall; intros b Hb ->; [apply (Hd a Hb); left|done].
Qed.

Lemma perform_ok o s l : queue s l -> valid s l o ->
  exists s', perform o s = Some ((spec (ready s) o l).1, s') /\ queue s' (spec (ready s) o l).2 /\ bodies s s'.
Proof.
  intros HQ Hv. destruct o as [a|a| |a]; simpl in Hv.
  - destruct Hv as [[t Ht] Ha]. destruct (append_ok s l a t HQ Ha Ht) as (s' & E & HQ' & [HB _]). simpl. rewrite E, bind_Some_l.
    eexists. split; [done|]. destruct (count_up_ok s' _ HQ'). split; [done|]. by eapply bodies_trans.
  - destruct Hv as [[t Ht] Ha]. unfold perform, sched_add_thread, spec, ready. run Ht.
    destruct (st t =? THREAD_STATE_READY); simpl; [|by exists s].
    destruct (append_ok s l a t HQ Ha Ht) as (s' & E & HQ' & [HB _]). rewrite E, bind_Some_l.
    eexists. split; [done|]. destruct (count_up_ok s' _ HQ'). split; [done|]. by eapply bodies_trans.
  - destruct l as [|a l]; [exists s; split; [by apply dequeue_empty|done]|].
    destruct (rq_dequeue_ok s a l HQ) as (s' & E & HQ' & [HB _]). eauto.
  - apply list_elem_of_split in Hv as (l1 & l2 & ->). destruct (remove_ok s l1 a l2 HQ) as (s' & E & HQ' & [HB _]).
    unfold perform, spec. rewrite E, bind_Some_l, (remove_filter l1 a l2) by apply HQ. eexists. split; [done|].
    split; [by apply count_down_queue|]. intros c. destruct (count_down_threads s') as (-> & _). apply HB.
Qed.

Lemma bodies_ready s s' a : bodies s s' -> ready s' a = ready s a.
Proof.
  intros H. specialize (H a). unfold ready. destruct (threads s' !! a) as [t'|], (threads s !! a) as [t|]; try done.
  apply (inj Some), (f_equal st) in H. simpl in H. by rewrite H.
Qed.

Lemma bodies_spec s s' : bodies s s' -> forall o l, spec (ready s') o l = spec (ready s) o l.
Proof. intros H o l. destruct o; try done. simpl. by rewrite (bodies_ready s s'). Qed.

Lemma bodies_spec_all s s' : bodies s s' -> forall os l, spec_all (ready s') os l = spec_all (ready s) os l.
Proof. intros H os. induction os as [|o os IH]; intros l; [done|]. simpl. by rewrite (bodies_spec s s'), IH. Qed.

Lemma bodies_valid_all s s' : bodies s s' -> forall os l, valid_all s os l -> valid_all s' os l.
Proof.
  intros H os. induction os as [|o os IH]; intros l; [done|]. simpl. intros [Hv Hall]. split.
  - destruct o; try done; (destruct Hv as [[t Ht] ?]; split; [|done]; specialize (H a); rewrite Ht in H; by destruct (threads s' !! a)).
  - rewrite (bodies_spec s s') by done. by apply IH.
Qed.

(** C27: the run queue is first come, first served: whatever threads are put in that are not in it, taken out, and
    removed that are in it, the linked threads are a list to whose end [sched_enqueue_thread] and, for ready
    threads, [sched_add_thread] put a thread, from whose front [sched_dequeue_thread] takes
    one, and from which [sched_remove_thread] takes any; nothing else of a thread changes. *)
Theorem run_queue_refines os s l :
  queue s l -> valid_all s os l ->
  exists s', perform_all os s = Some ((spec_all (ready s) os l).1, s') /\ queue s' (spec_all (ready s) os l).2 /\ bodies s s'.
Proof.
  revert s l. induction os as [|o os IH]; intros s l HQ Hv; [by exists s|]. destruct Hv as [Hv Hall].
  destruct (perform_ok o s l HQ Hv) as (s1 & E1 & HQ1 & HB1). simpl. rewrite E1, bind_Some_l.
  destruct (IH s1 (spec (ready s) o l).2 HQ1) as (s2 & E2 & HQ2 & HB2); [by eapply bodies_valid_all|].
  rewrite (bodies_spec_all s s1 HB1) in E2, HQ2. simpl. rewrite E2, bind_Some_l. exists s2. simpl. split; [done|].
  split; [done|]. by eapply bodies_trans.
Qed.

End SchedQueue.
