(* ===== verification/SchedSpec.v ===== *)
(** What the scheduler ([kernel/sched.c], [kernel/sched/rt.c]) does: threads of the normal
    policies take turns; and where the code loses threads, never wakes them, or does not
    return. *)

From S2P Require Import Prelude Sched SchedQueue.

Module SchedSpec.
Import Sched SchedQueue.

Implicit Types (s : state) (l : list Z) (a c n : Z).

(** ** Fields that the queue operations keep *)

Lemma body_fields t t' : body t' = body t -> st t' = st t /\ policy t' = policy t /\ dynamic_priority t' = dynamic_priority t /\
  time_slice t' = time_slice t /\ wakeup_time t' = wakeup_time t.
Proof. destruct t, t'. intros [=]. by subst. Qed.

Lemma bare_fields q q' : bare q' = bare q -> curr q' = curr q /\ idle q' = idle q /\ curr_timestamp q' = curr_timestamp q.
Proof. destruct q, q'. intros [=]. by subst. Qed.

(** A thread with a state, and one of the policies that are not real-time. *)
Definition is_in (v : Z) s a : Prop := exists t, threads s !! a = Some t /\ st t = v.
Definition normal s a : Prop := exists t, threads s !! a = Some t /\ is_rt t = false.

Lemma is_in_frame v s s' a : bodies s s' -> is_in v s a -> is_in v s' a.
Proof.
  intros H (t & Ht & Hs). specialize (H a). rewrite Ht in H. destruct (threads s' !! a) as [t'|] eqn:E; [|done].
  apply (inj Some), body_fields in H as (H & _). exists t'. by rewrite H.
Qed.

Lemma normal_frame s s' a : bodies s s' -> normal s a -> normal s' a.
Proof.
  intros H (t & Ht & Hs). specialize (H a). rewrite Ht in H. destruct (threads s' !! a) as [t'|] eqn:E; [|done].
  apply (inj Some), body_fields in H as (_ & H & _). exists t'. split; [done|]. unfold is_rt. by rewrite H.
Qed.

(** ** Turns *)

Section Turns.
Context (low_memory : bool).

(** [c] runs, the threads [l] wait, nobody else does; all of normal policies. *)
Record turn s c l : Prop := {
  t_queue : queue s l;
  t_curr : curr (rq s) = Some c;
  t_idle : exists i, idle (rq s) = Some i /\ i ∉ c :: l;
  t_new : c ∉ l;
  t_running : is_in THREAD_STATE_RUNNING s c;
  t_ready : Forall (is_in THREAD_STATE_READY s) l;
  t_normal : Forall (normal s) (c :: l);
  t_memory : rt_enabled (rt s) = true -> low_memory = true
}.

Lemma rt_schedule_ok s : (rt_enabled (rt s) = true -> low_memory = true) ->
  exists s', rt_schedule low_memory s = Some (None, s') /\ threads s' = threads s /\ rq s' = rq s /\
    rt_enabled (rt s') = rt_enabled (rt s).
Proof.
  intros H. unfold rt_schedule. destruct (rt_enabled (rt s)) eqn:E; simpl; [|by exists s]. rewrite H by done.
  eexists. by repeat split.
Qed.

Lemma normal_not_rt s a : normal s a -> rt_is_realtime (Some a) s = Some false.
Proof. intros (t & Ht & Hn). unfold rt_is_realtime. destruct (rt_enabled (rt s)); [|done]. simpl. by rewrite Ht, bind_Some_l, Hn. Qed.

Lemma can_preempt_normal s n c : normal s n -> normal s c -> can_preempt (Some n) (Some c) s = Some true.
Proof.
  intros Hn (t & Ht & Hc). unfold can_preempt. rewrite (normal_not_rt s n Hn), bind_Some_l. simpl. rewrite Ht, bind_Some_l.
  unfold is_rt in Hc. apply orb_false_iff in Hc as [-> _]. done.
Qed.

(** The switch from one thread to another. *)
Definition switched n c (s : state) : state :=
  match threads s !! c, threads s !! n with
  | Some tc, Some tn =>
      mk_state (<[n := with_state THREAD_STATE_RUNNING tn]> (<[c := with_state THREAD_STATE_READY tc]> (threads s)))
        (with_curr (Some n) (with_nr_switches (u32 (nr_switches (rq s) + 1)) (rq s))) (rt s)
  | _, _ => s
  end.

Lemma switch_ok s n c : n <> c -> is_in THREAD_STATE_RUNNING s c -> (exists t, threads s !! n = Some t) ->
  switch_to (Some n) (Some c) s = Some (switched n c s).
Proof.
  intros Hnc (tc & Htc & Hsc) [tn Htn]. unfold switch_to, switched, deref. rewrite !bind_Some_l. simpl.
  rewrite Htc, bind_Some_l, Hsc, Z.eqb_refl, Htn. rewrite (upd_ok _ _ _ tc), bind_Some_l by done.
  erewrite upd_ok by (simpl; by rewrite lookup_insert_ne). done.
Qed.

Lemma switched_link s n c b : n <> c -> link (threads (switched n c s)) b = link (threads s) b.
Proof.
  intros Hnc. unfold switched. destruct (threads s !! c) as [tc|] eqn:Ec, (threads s !! n) as [tn|] eqn:En; try done. simpl.
  erewrite link_keep; [|by rewrite lookup_insert_ne|done|done]. by eapply link_keep.
Qed.

Lemma switched_keep (P : state -> Z -> Prop) s n c b : b <> n -> b <> c ->
  (forall s s' a, threads s' !! a = threads s !! a -> P s a -> P s' a) -> P s b -> P (switched n c s) b.
Proof.
  intros Hn Hc HP H. eapply HP; [|exact H]. unfold switched.
  destruct (threads s !! c), (threads s !! n); try done. simpl. by rewrite !lookup_insert_ne.
Qed.

(** The start of [sched_schedule]: counters, and the first of the queue. *)
Lemma schedule_start s c l : turn s c l ->
  exists s1, rt_schedule low_memory (on_rq (fun q => with_nr_schedule (u64 (nr_schedule q + 1)) q) s) = Some (None, s1) /\
    turn s1 c l /\ threads s1 = threads s /\ idle (rq s1) = idle (rq s).
Proof.
  intros [HQ Hc Hi Hnew Hr Hrd Hn Hm].
  destruct (rt_schedule_ok (on_rq (fun q => with_nr_schedule (u64 (nr_schedule q + 1)) q) s)) as (s1 & E & Et & Eq & Er); [done|].
  exists s1. split; [done|]. split; [|by rewrite Et, Eq]. split; rewrite ?Eq; try done.
  - eapply queue_same; [exact HQ|by rewrite Et|by rewrite Eq|by rewrite Eq].
  - destruct Hr as (t & Ht & Hs). exists t. by rewrite Et.
  - eapply Forall_impl; [exact Hrd|]. intros a (t & Ht & Hs). exists t. by rewrite Et.
  - eapply Forall_impl; [exact Hn|]. intros a (t & Ht & Hs). exists t. by rewrite Et.
  - rewrite Er. exact Hm.
Qed.

(** The requeueing of a running thread of a normal policy. *)
Lemma requeue_running s c l (i : Z) : queue s l -> c ∉ l -> c <> i -> idle (rq s) = Some i -> is_in THREAD_STATE_RUNNING s c -> normal s c ->
  exists s', (if bool_decide (Some c <> idle (rq s)) then
         t ← deref (Some c) s;
         if st t =? THREAD_STATE_RUNNING then
           if negb (policy t =? SCHED_FIFO) || negb (st t =? THREAD_STATE_RUNNING) then sched_requeue_thread (Some c) s else Some s
         else Some s
       else Some s) = Some s' /\ queue s' (l ++ [c]) /\ frame s s'.
Proof.
  intros HQ Hc Hci Hi (t & Ht & Hs) (t' & Ht' & Hn). simplify_eq. rewrite bool_decide_true by congruence. unfold deref.
  rewrite bind_Some_l, Ht, bind_Some_l, Hs, Z.eqb_refl. unfold is_rt in Hn. apply orb_false_iff in Hn as [-> _]. simpl.
  by eapply append_ok.
Qed.

Lemma queue_frame_turn s1 s2 a : frame s1 s2 -> curr (rq s2) = curr (rq s1) /\ idle (rq s2) = idle (rq s1) /\
  (forall v, is_in v s1 a -> is_in v s2 a) /\ (normal s1 a -> normal s2 a) /\ rt s2 = rt s1.
Proof.
  intros (HB & HR & HT). destruct (bare_fields _ _ HR) as (? & ? & _). repeat split; eauto using is_in_frame, normal_frame.
Qed.

Lemma switched_turn s n c l (i : Z) : queue s (l ++ [c]) -> n ∉ c :: l -> c ∉ l -> i ∉ c :: n :: l -> idle (rq s) = Some i ->
  is_in THREAD_STATE_RUNNING s c -> (exists t, threads s !! n = Some t) -> Forall (is_in THREAD_STATE_READY s) l ->
  Forall (normal s) (c :: n :: l) -> (rt_enabled (rt s) = true -> low_memory = true) ->
  turn (switched n c s) n (l ++ [c]).
Proof.
  intros HQ Hn Hc Hi Hidle (tc & Htc & Hsc) [tn Htn] Hrd [Hnc [Hnn Hnl]%Forall_cons]%Forall_cons Hm.
  assert (n <> c) as Hne by set_solver.
  assert (threads (switched n c s) !! n = Some (with_state THREAD_STATE_RUNNING tn) /\
          threads (switched n c s) !! c = Some (with_state THREAD_STATE_READY tc) /\ rt (switched n c s) = rt s /\
          curr (rq (switched n c s)) = Some n /\ idle (rq (switched n c s)) = idle (rq s) /\
          head (rq (switched n c s)) = head (rq s) /\ tail (rq (switched n c s)) = tail (rq s)) as (En & Ec & Er & E1 & E2 & E3 & E4).
  { unfold switched. rewrite Htc, Htn. simpl. rewrite lookup_insert_eq, lookup_insert_ne, lookup_insert_eq by done. done. }
  assert (forall b, b ∈ l -> b <> n /\ b <> c) as Hl by set_solver.
  assert (normal (switched n c s) n) as Hn1.
  { destruct Hnn as (t & Ht & Hp). simplify_eq. exists (with_state THREAD_STATE_RUNNING tn). done. }
  assert (normal (switched n c s) c) as Hn2.
  { destruct Hnc as (t & Ht & Hp). simplify_eq. exists (with_state THREAD_STATE_READY tc). done. }
  split.
  - eapply queue_same; [exact HQ| |done|done]. intros b. by apply switched_link.
  - done.
  - exists i. rewrite E2. split; [done|]. set_solver.
  - set_solver.
  - eexists. by rewrite En.
  - apply Forall_app. split; [|constructor; [eexists; by rewrite Ec|constructor]]. rewrite Forall_forall in *. intros b Hb.
    destruct (Hl b Hb). apply (switched_keep (is_in THREAD_STATE_READY)); auto. intros ? ? ? E (t & Ht & ?). exists t. by rewrite E.
  - constructor; [done|]. apply Forall_app. split; [|by constructor]. rewrite Forall_forall in *. intros b Hb.
    destruct (Hl b Hb). apply (switched_keep normal); auto. intros ? ? ? E (t & Ht & ?). exists t. by rewrite E.
  - by rewrite Er.
Qed.

Lemma schedule_rotates s c n l : turn s c (n :: l) ->
  exists s', sched_schedule low_memory s = Some s' /\ turn s' n (l ++ [c]) /\ idle (rq s') = idle (rq s).
Proof.
  intros HT. destruct (schedule_start s c (n :: l) HT) as (s1 & E1 & HT1 & _ & Ei1).
  pose proof HT1 as [HQ Hc (i & Hi & Hil) Hnew Hr Hrd Hn Hm].
  destruct (rq_dequeue_ok s1 n l HQ) as (s2 & E2 & HQ2 & F2).
  destruct (queue_frame_turn s1 s2 c F2) as (C2 & I2 & R2 & N2 & T2).
  pose proof (q_nodup _ _ HQ) as [Hnl Hnd]%NoDup_cons. apply Forall_cons in Hn as [Hnc Hnn]. apply Forall_cons in Hrd as [Hrn Hrl].
  destruct (requeue_running s2 c l i) as (s3 & E3 & HQ3 & F3);
    [exact HQ2|set_solver|set_solver|congruence|by apply R2|by apply N2|].
  assert (forall b v, is_in v s1 b -> is_in v s3 b) as Hin.
  { intros b v ?. apply (is_in_frame v s2 s3 b (proj1 F3)), (is_in_frame v s1 s2 b (proj1 F2)). done. }
  assert (forall b, normal s1 b -> normal s3 b) as Hnm.
  { intros b ?. apply (normal_frame s2 s3 b (proj1 F3)), (normal_frame s1 s2 b (proj1 F2)). done. }
  assert (idle (rq s3) = Some i /\ rt s3 = rt s1) as [I3 T3].
  { destruct (queue_frame_turn s2 s3 c F3) as (_ & I3 & _ & _ & T3). split; congruence. }
  assert (exists t, threads s3 !! n = Some t) as Hn3 by (destruct (Hin n _ Hrn) as (t & ? & _); eauto).
  exists (switched n c s3). split; [|split].
  - unfold sched_schedule. rewrite E1, bind_Some_l. cbn [fst snd]. rewrite E2, bind_Some_l. cbn [fst snd].
    replace (curr (rq (on_rq (fun q => with_nr_schedule (u64 (nr_schedule q + 1)) q) s))) with (Some c) by (symmetry; apply HT).
    rewrite E3, bind_Some_l, bool_decide_true by set_solver. rewrite can_preempt_normal, bind_Some_l.
    + apply switch_ok; [set_solver|by apply Hin|done].
    + apply Hnm. by apply Forall_cons in Hnn as [? _].
    + by apply Hnm.
  - apply switched_turn with i; try done; [set_solver|set_solver|by apply Hin| | |].
    + eapply Forall_impl; [exact Hrl|]. intros b. apply Hin.
    + constructor; [by apply Hnm|]. eapply Forall_impl; [exact Hnn|]. intros b. apply Hnm.
    + rewrite T3. exact Hm.
  - rewrite <-Ei1, Hi. unfold switched. destruct Hn3 as [tn ->]. destruct (threads s3 !! c); done.
Qed.

(** [k] calls of [sched_yield]. *)
Fixpoint yields (k : nat) s : option state := match k with O => Some s | S k => s ← sched_yield low_memory s; yields k s end.

(** C28: threads of the normal policies take turns: [k] calls of [sched_yield], at most as many as threads are waiting, rotate running
    and waiting threads by [k], so that each of them runs after at most as many calls as
    there are threads waiting; exactly one is in the state of a running thread, the others
    are ready and in the queue. While the real-time scheduler is enabled this needs memory that can be read at address 0 ([t_memory]),
    as [rt_schedule] follows its pointer [active], which is null. *)
Theorem yield_round_robin s c l k :
  turn s c l -> (k <= length l)%nat ->
  exists s' c' l', yields k s = Some s' /\ turn s' c' l' /\ c' :: l' = drop k (c :: l) ++ take k (c :: l).
Proof.
  revert s c l. intros s c l HT Hk.
  assert (forall k s c l1 l2, turn s c (l1 ++ l2) -> (k <= length l1)%nat ->
    exists s' c' l', yields k s = Some s' /\ turn s' c' l' /\ c' :: l' = drop k (c :: l1) ++ l2 ++ take k (c :: l1)) as H.
  { clear. induction k as [|k IH]; intros s c l1 l2 HT Hk; [exists s, c, (l1 ++ l2); split; [done|split; [done|by rewrite app_nil_r]]|].
    destruct l1 as [|n l1]; simpl in Hk; [lia|]. destruct (schedule_rotates s c n (l1 ++ l2) HT) as (s1 & E & HT1 & _).
    rewrite <-app_assoc in HT1. destruct (IH s1 n l1 (l2 ++ [c]) HT1) as (s' & c' & l' & E' & HT' & Hl); [lia|].
    exists s', c', l'. simpl. unfold sched_yield. rewrite E, bind_Some_l. split; [done|]. split; [done|]. rewrite Hl. by rewrite <-!app_assoc. }
  destruct (H k s c l [] ltac:(by rewrite app_nil_r) Hk) as (s' & c' & l' & ? & ? & Hl). exists s', c', l'. by rewrite Hl.
Qed.

(** ** The idle thread *)

(** The idle thread is a thread of a normal policy. *)
Definition idles s (i : Z) : Prop := idle (rq s) = Some i /\ normal s i.

(** The end of [sched_schedule] when the queue is empty: the idle thread gets the processor. *)
Lemma switch_to_idle s c i v : c <> i -> is_in v s c -> normal s c -> normal s i ->
  exists s', (can ← can_preempt (Some i) (Some c) s; if (can : bool) then switch_to (Some i) (Some c) s else Some s) = Some s' /\
    curr (rq s') = Some i /\ (forall b, link (threads s') b = link (threads s) b) /\ head (rq s') = head (rq s) /\
    tail (rq s') = tail (rq s) /\ (forall b, b <> i -> b <> c -> threads s' !! b = threads s !! b) /\
    is_in (if v =? THREAD_STATE_RUNNING then THREAD_STATE_READY else v) s' c.
Proof.
  intros Hci (tc & Htc & Hv) Hnc Hni. rewrite can_preempt_normal, bind_Some_l by done.
  destruct Hni as (ti & Hti & _). unfold switch_to, deref. rewrite !bind_Some_l. simpl. rewrite Htc, bind_Some_l, Hv.
  destruct (v =? THREAD_STATE_RUNNING) eqn:Ev.
  - rewrite (upd_ok _ _ _ tc), bind_Some_l by done. erewrite upd_ok by (simpl; by rewrite lookup_insert_ne). simpl.
    eexists. split; [done|]. simpl. split; [done|]. split.
    { intros b. erewrite link_keep; [|by rewrite lookup_insert_ne|done|done]. by eapply link_keep. }
    split; [done|]. split; [done|]. split; [intros b Hb1 Hb2; by rewrite !lookup_insert_ne|].
    eexists. simpl. by rewrite lookup_insert_ne, lookup_insert_eq.
  - rewrite bind_Some_l. erewrite upd_ok by done. simpl. eexists. split; [done|]. simpl. split; [done|].
    split; [intros b; by eapply link_keep|]. split; [done|]. split; [done|].
    split; [intros b Hb1 Hb2; by rewrite lookup_insert_ne|]. exists tc. simpl. by rewrite lookup_insert_ne.
Qed.

(** [sched_schedule] looks for the next thread before it puts the current one back: a thread
    that yields while nobody else is ready makes room for the idle thread. *)
Theorem lone_thread_yields_to_idle s c i :
  turn s c [] -> idles s i ->
  exists s', sched_yield low_memory s = Some s' /\ curr (rq s') = Some i /\ queue s' [c] /\ is_in THREAD_STATE_READY s' c.
Proof.
  intros HT [Hi Hni]. destruct (schedule_start s c [] HT) as (s1 & E1 & HT1 & Et1 & Ei1).
  pose proof HT1 as [HQ Hc (j & Hj & Hjl) _ Hr _ Hn _]. assert (j = i) as -> by congruence.
  apply Forall_cons in Hn as [Hn _].
  destruct (requeue_running s1 c [] i) as (s2 & E2 & HQ2 & F2); try done; [set_solver|set_solver|].
  destruct (queue_frame_turn s1 s2 c F2) as (_ & I2 & R2 & N2 & _).
  destruct (switch_to_idle s2 c i THREAD_STATE_RUNNING) as (s3 & E3 & C3 & L3 & H3 & T3 & _ & S3).
  { set_solver. } { by apply R2. } { by apply N2. }
  { apply (normal_frame s1 s2 i (proj1 F2)). destruct Hni as (t & Ht & ?). exists t. by rewrite Et1. }
  exists s3. split; [|split; [done|split; [by eapply queue_same|done]]].
  unfold sched_yield, sched_schedule. rewrite E1, bind_Some_l. cbn [fst snd]. rewrite (dequeue_empty s1 HQ), bind_Some_l. cbn [fst snd].
  replace (curr (rq (on_rq (fun q => with_nr_schedule (u64 (nr_schedule q + 1)) q) s))) with (Some c) by (symmetry; apply HT).
  rewrite E2, bind_Some_l, Hj. rewrite bool_decide_true by set_solver. exact E3.
Qed.

(** ** Blocking *)

(** [sched_block_thread] removes the running thread from the queue, in which it is not. The
    removal empties the queue: all threads that were ready are forgotten and only the idle
    thread runs. *)
Theorem block_current_forgets_ready s c l i :
  turn s c l -> idles s i ->
  exists s', sched_block_thread low_memory (Some c) s = Some s' /\ curr (rq s') = Some i /\ head (rq s') = None /\
    is_in THREAD_STATE_BLOCKED s' c /\ Forall (is_in THREAD_STATE_READY s') l.
Proof.
  intros HT [Hi Hni]. pose proof HT as [HQ Hc (j & Hj & Hjl) Hnew (t & Ht & Hst) Hrd Hn Hm]. assert (j = i) as -> by congruence.
  set (s1 := mk_state (<[c := with_state THREAD_STATE_BLOCKED t]> (threads s)) (rq s) (rt s)).
  assert (queue s1 l) as HQ1 by (eapply queue_same; [exact HQ|intros b; by eapply link_keep|done|done]).
  destruct (remove_loose s1 l c (with_state THREAD_STATE_BLOCKED t)) as (s2 & E2 & H2 & T2 & Th2 & F2); [done|done|apply lookup_insert_eq|].
  destruct (queue_frame_turn s1 s2 c F2) as (C2 & I2 & _ & _ & R2).
  assert (threads (count_down s2) = threads s1 /\ curr (rq (count_down s2)) = Some c /\ idle (rq (count_down s2)) = Some i /\
    rt (count_down s2) = rt s /\ head (rq (count_down s2)) = None) as (Th3 & C3 & I3 & R3 & H3).
  { unfold count_down. destruct (0 <? _); simpl; rewrite Th2, C2, I2, R2, H2; done. }
  destruct (rt_schedule_ok (on_rq (fun q => with_nr_schedule (u64 (nr_schedule q + 1)) q) (count_down s2))) as (s4 & E4 & Th4 & Q4 & R4).
  { simpl. by rewrite R3. }
  assert (forall b, b <> c -> threads s4 !! b = threads s !! b) as Hsame.
  { intros b Hb. rewrite Th4. simpl. rewrite Th3. simpl. by rewrite lookup_insert_ne. }
  assert (threads s4 !! c = Some (with_state THREAD_STATE_BLOCKED t)) as Hc4.
  { rewrite Th4. simpl. rewrite Th3. simpl. apply lookup_insert_eq. }
  assert (c <> i) as Hci by set_solver.
  destruct (switch_to_idle s4 c i THREAD_STATE_BLOCKED) as (s5 & E5 & C5 & _ & H5 & _ & O5 & S5).
  { done. } { by exists (with_state THREAD_STATE_BLOCKED t). }
  { apply Forall_cons in Hn as [(t' & Ht' & Hp) _]. simplify_eq. by exists (with_state THREAD_STATE_BLOCKED t). }
  { destruct Hni as (ti & Hti & ?). exists ti. by rewrite Hsame. }
  exists s5. split; [|split; [done|split; [by rewrite H5, Q4|split; [done|]]]].
  - unfold sched_block_thread. rewrite (upd_ok _ _ _ t) by done. rewrite bind_Some_l. fold s1. rewrite E2, bind_Some_l.
    unfold schedule_if_current. rewrite bool_decide_true by done. unfold sched_schedule. rewrite E4, bind_Some_l. cbn [fst snd].
    unfold sched_dequeue_thread. rewrite Q4. cbn [rq on_rq head with_nr_schedule idle curr]. rewrite H3, bind_Some_l. cbn [fst snd].
    rewrite Q4. cbn [rq on_rq with_nr_schedule idle curr]. rewrite C3, I3, bool_decide_true by congruence.
    unfold deref at 1. rewrite bind_Some_l, Hc4, !bind_Some_l. exact E5.
  - rewrite Forall_forall in *. intros b Hb. destruct (Hrd b Hb) as (tb & Htb & ?). exists tb.
    rewrite O5, Hsame by set_solver. done.
Qed.

(** ** The timer tick *)

Lemma turn_thread s c l a t t' : turn s c l -> threads s !! a = Some t -> prev t' = prev t -> next t' = next t -> st t' = st t ->
  policy t' = policy t -> turn (mk_state (<[a := t']> (threads s)) (rq s) (rt s)) c l.
Proof.
  intros [HQ Hc Hi Hnew Hr Hrd Hn Hm] Ha Ep En Es Epo.
  assert (forall v b, is_in v s b -> is_in v (mk_state (<[a := t']> (threads s)) (rq s) (rt s)) b) as H1.
  { intros v b (tb & Htb & Hv). destruct (decide (a = b)) as [<-|]; [|exists tb; simpl; by rewrite lookup_insert_ne].
    exists t'. simpl. rewrite lookup_insert_eq. split; [done|]. congruence. }
  assert (forall b, normal s b -> normal (mk_state (<[a := t']> (threads s)) (rq s) (rt s)) b) as H2.
  { intros b (tb & Htb & Hv). destruct (decide (a = b)) as [<-|]; [|exists tb; simpl; by rewrite lookup_insert_ne].
    exists t'. simpl. rewrite lookup_insert_eq. split; [done|]. simplify_eq. unfold is_rt in *. by rewrite Epo. }
  split; try done.
  - eapply queue_same; [exact HQ|intros b; by eapply link_keep|done|done].
  - by apply H1.
  - eapply Forall_impl; [exact Hrd|]. auto.
  - eapply Forall_impl; [exact Hn|]. auto.
Qed.

Lemma turn_time s c l now : turn s c l -> turn (on_rq (with_curr_timestamp now) s) c l.
Proof. intros [HQ Hc Hi Hnew Hr Hrd Hn Hm]. split; try done. by eapply queue_same. Qed.

(** The queue behind its first [l] comes to [c], which is linked to itself. *)
Record cyclic s c l : Prop := {
  cy_head : head (rq s) = first_of l (Some c);
  cy_seg : seg (threads s) None l (Some c);
  cy_self : link (threads s) c = Some (Some c, Some c);
  cy_awake : Forall (fun b => exists t, threads s !! b = Some t /\ st t <> THREAD_STATE_SLEEPING) (c :: l)
}.

(** Putting the last thread of the queue into the queue once more. *)
Lemma append_self s l c : queue s (l ++ [c]) ->
  exists s', append c s = Some s' /\ head (rq s') = first_of l (Some c) /\ seg (threads s') None l (Some c) /\
    link (threads s') c = Some (Some c, Some c) /\ frame s s'.
Proof.
  intros [Hnd Hh Ht Hs _]. destruct (seg_link _ _ _ _ c Hs) as [t Hc]; [set_solver|].
  assert (c ∉ l) as Hcl by (apply NoDup_app in Hnd as (_ & H & _); set_solver).
  unfold append. rewrite Ht, end_of_app. simpl. rewrite (upd_ok _ _ _ t), bind_Some_l by done.
  erewrite upd_ok by (simpl; apply lookup_insert_eq). simpl. rewrite insert_insert_eq.
  erewrite upd_ok by (simpl; apply lookup_insert_eq). simpl. rewrite insert_insert_eq.
  eexists. split; [done|]. simpl. split; [by rewrite Hh, first_of_app|]. split.
  { apply seg_app in Hs as [Hs _]. eapply seg_ext; [|exact Hs]. intros b Hb. apply link_insert_ne. by intros ->. }
  split; [by rewrite link_insert|]. split; [by eapply bodies_insert|done].
Qed.

(** [sched_schedule] when the running thread is in the queue already. *)
Lemma schedule_twice s c n l (i : Z) : queue s (n :: l ++ [c]) -> n ∉ c :: l -> c ∉ l -> curr (rq s) = Some c -> idle (rq s) = Some i -> c <> i ->
  is_in THREAD_STATE_RUNNING s c -> Forall (is_in THREAD_STATE_READY s) (n :: l) -> Forall (normal s) (c :: n :: l) ->
  (rt_enabled (rt s) = true -> low_memory = true) ->
  exists s', sched_schedule low_memory s = Some s' /\ cyclic s' c l.
Proof.
  intros HQ Hn Hcl Hc Hi Hci Hr Hrd Hnm Hm.
  destruct (rt_schedule_ok (on_rq (fun q => with_nr_schedule (u64 (nr_schedule q + 1)) q) s)) as (s1 & E1 & Th1 & Q1 & R1); [done|].
  assert (queue s1 (n :: l ++ [c])) as HQ1 by (eapply queue_same; [exact HQ|by rewrite Th1|by rewrite Q1|by rewrite Q1]).
  destruct (rq_dequeue_ok s1 n (l ++ [c]) HQ1) as (s2 & E2 & HQ2 & F2).
  destruct (append_self s2 l c HQ2) as (s3 & E3 & H3 & S3 & L3 & F3).
  assert (bodies s s3) as HB by (intros b; rewrite (proj1 F3), (proj1 F2), Th1; done).
  assert (is_in THREAD_STATE_RUNNING s3 c /\ normal s3 c /\ normal s3 n /\ is_in THREAD_STATE_READY s3 n) as (R3 & N3 & N3n & Rn).
  { apply Forall_cons in Hnm as [? [? _]%Forall_cons]. apply Forall_cons in Hrd as [? _]. eauto 10 using is_in_frame, normal_frame. }
  assert (idle (rq s2) = Some i /\ is_in THREAD_STATE_RUNNING s2 c /\ normal s2 c) as (I2 & R2 & N2).
  { destruct (queue_frame_turn s1 s2 c F2) as (_ & -> & _). rewrite Q1. split; [done|].
    assert (bodies s s2) by (intros b; by rewrite (proj1 F2), Th1). apply Forall_cons in Hnm as [? _]. eauto using is_in_frame, normal_frame. }
  assert (n <> c) as Hnc by set_solver. exists (switched n c s3). split.
  - unfold sched_schedule. rewrite E1, bind_Some_l. cbn [fst snd]. rewrite E2, bind_Some_l. cbn [fst snd].
    replace (curr (rq (on_rq (fun q => with_nr_schedule (u64 (nr_schedule q + 1)) q) s))) with (Some c) by done.
    rewrite I2, (bool_decide_true (Some c <> Some i)) by congruence. destruct R2 as (t & Ht & Hst), N2 as (t' & Ht' & Hp). simplify_eq.
    unfold deref at 1. rewrite bind_Some_l, Ht, bind_Some_l, Hst, Z.eqb_refl. unfold is_rt in Hp. apply orb_false_iff in Hp as [-> _].
    cbn [negb orb sched_requeue_thread]. rewrite E3, bind_Some_l, bool_decide_true by congruence.
    rewrite can_preempt_normal, bind_Some_l by done. apply switch_ok; [done|done|]. destruct Rn as (tn & ? & _). eauto.
  - destruct R3 as (tc & Htc & Hsc), Rn as (tn & Htn & Hsn). split.
    + rewrite <-H3. unfold switched. by rewrite Htc, Htn.
    + eapply seg_ext; [|exact S3]. intros b _. by apply switched_link.
    + by rewrite switched_link.
    + unfold switched. rewrite Htc, Htn. simpl. constructor.
      * eexists. rewrite lookup_insert_ne, lookup_insert_eq by done. by split.
      * rewrite Forall_forall. intros b Hb. rewrite !lookup_insert_ne by set_solver. apply Forall_cons in Hrd as [_ Hrd].
        rewrite Forall_forall in Hrd. destruct (is_in_frame _ s s3 b HB (Hrd b Hb)) as (tb & ? & Hb'). exists tb.
        split; [done|]. by rewrite Hb'.
Qed.

Lemma wake_cyclic fuel s c l1 l2 : cyclic s c (l1 ++ l2) -> wake_loop low_memory fuel (first_of l2 (Some c)) s = None.
Proof.
  intros HC. revert l1 l2 HC. induction fuel as [|fuel IH]; intros l1 l2 HC; [done|]. pose proof HC as [_ Hs Hself Haw].
  assert (exists a t, first_of l2 (Some c) = Some a /\ threads s !! a = Some t /\ st t <> THREAD_STATE_SLEEPING /\
    exists l1' l2', l1 ++ l2 = l1' ++ l2' /\ next t = first_of l2' (Some c)) as (a & t & Ea & Ht & Hst & l1' & l2' & El & Hn).
  { rewrite Forall_forall in Haw. destruct l2 as [|b l2].
    - destruct (Haw c) as (t & Ht & Hst); [left|]. exists c, t. split; [done|]. split; [done|]. split; [done|].
      exists l1, []. split; [done|]. rewrite (link_Some _ _ _ Ht) in Hself. by injection Hself.
    - destruct (Haw b) as (t & Ht & Hst); [set_solver|]. exists b, t. split; [done|]. split; [done|]. split; [done|].
      exists (l1 ++ [b]), l2. rewrite <-app_assoc. split; [done|]. apply seg_app in Hs as [_ [Hk _]].
      rewrite (link_Some _ _ _ Ht) in Hk. by injection Hk. }
  cbn [wake_loop]. rewrite Ea, Ht, bind_Some_l. destruct (Z.eqb_spec (st t) THREAD_STATE_SLEEPING); [done|]. simpl.
  rewrite Hn. apply (IH l1'). by rewrite <-El.
Qed.

Lemma tick_slice_corrupts s c n l t : turn s c (n :: l) -> threads s !! c = Some t -> 0 <= time_slice t <= 1 ->
  exists s', tick_slice low_memory c SCHED_TIMESLICE_DEFAULT s = Some s' /\ cyclic s' c l.
Proof.
  intros HT Ht Hsl. unfold tick_slice. rewrite Ht, bind_Some_l.
  set (s1 := mk_state (<[c := with_slice 0 t]> (threads s)) (rq s) (rt s)).
  assert ((if 0 <? time_slice t then upd c (with_slice (time_slice t - 1)) s else Some s) = Some s1) as E1.
  { destruct (Z.ltb_spec 0 (time_slice t)).
    - rewrite (upd_ok _ _ _ t) by done. replace (time_slice t - 1) with 0 by lia. done.
    - unfold s1. rewrite insert_id; [by destruct s|]. rewrite Ht. f_equal. assert (time_slice t = 0) by lia. destruct t; simpl in *; by subst. }
  rewrite E1, bind_Some_l. cbn [threads s1]. rewrite lookup_insert_eq, bind_Some_l. cbn [time_slice with_slice]. rewrite Z.eqb_refl.
  erewrite upd_ok by apply lookup_insert_eq. rewrite bind_Some_l. cbn [threads s1 rq rt]. rewrite insert_insert_eq.
  change (with_slice SCHED_TIMESLICE_DEFAULT (with_slice 0 t)) with (with_slice SCHED_TIMESLICE_DEFAULT t).
  set (s2 := mk_state (<[c := with_slice SCHED_TIMESLICE_DEFAULT t]> (threads s)) (rq s) (rt s)).
  assert (turn s2 c (n :: l)) as HT2 by (by eapply turn_thread). pose proof HT2 as [HQ Hc (i & Hi & Hil) Hnew Hr Hrd Hnm Hm].
  destruct (append_ok s2 (n :: l) c (with_slice SCHED_TIMESLICE_DEFAULT t)) as (s3 & E3 & HQ3 & F3);
    [done|done|apply lookup_insert_eq|].
  cbn [sched_requeue_thread]. rewrite E3, bind_Some_l. destruct (queue_frame_turn s2 s3 c F3) as (C3 & I3 & R3 & N3 & T3).
  pose proof (q_nodup _ _ HQ) as [Hnl _]%NoDup_cons.
  apply schedule_twice with n i; try done.
  - set_solver.
  - set_solver.
  - by rewrite C3.
  - by rewrite I3.
  - set_solver.
  - by apply R3.
  - eapply Forall_impl; [exact Hrd|]. intros b. apply (is_in_frame _ _ _ _ (proj1 F3)).
  - eapply Forall_impl; [exact Hnm|]. intros b. apply (normal_frame _ _ _ (proj1 F3)).
  - by rewrite T3.
Qed.

(** When the time slice of the running thread is used up while another thread is ready,
    the timer tick does not come back: [sched_tick] puts the thread into the queue, the
    [sched_schedule] it calls does so again, which links the thread to itself, and the loop
    that looks for sleeping threads goes round for ever, whatever the number of steps. *)
Theorem tick_never_returns s c n l now t :
  turn s c (n :: l) -> threads s !! c = Some t -> 0 <= time_slice t <= 1 ->
  (exists s', tick_slice low_memory c SCHED_TIMESLICE_DEFAULT (on_rq (with_curr_timestamp now) s) = Some s' /\ cyclic s' c l) /\
  forall fuel, sched_tick low_memory fuel now s = None.
Proof.
  intros HT Ht Hsl. apply (turn_time _ _ _ now) in HT as HT0. set (s0 := on_rq (with_curr_timestamp now) s) in *.
  destruct (tick_slice_corrupts s0 c n l t HT0 Ht Hsl) as (s' & E & HC).
  split; [by exists s'|]. intros fuel. unfold sched_tick. fold s0. pose proof HT0 as [_ Hc (i & Hi & Hil) _ _ _ [Hn _]%Forall_cons _].
  rewrite Hc, Hi, bool_decide_false by set_solver. rewrite bind_Some_l, (Ht : threads s0 !! c = Some t), bind_Some_l.
  destruct Hn as (t' & Ht' & Hp). assert (t' = t) as -> by (rewrite (Ht : threads s0 !! c = Some t) in Ht'; congruence).
  unfold is_rt in Hp. apply orb_false_iff in Hp as [-> ->]. rewrite E, bind_Some_l, (cy_head _ _ _ HC).
  by rewrite (wake_cyclic fuel s' c [] l HC).
Qed.

(** The loop over a queue of ready threads wakes nobody. *)
Lemma wake_loop_ready fuel s p l : seg (threads s) p l None -> Forall (is_in THREAD_STATE_READY s) l -> (length l < fuel)%nat ->
  wake_loop low_memory fuel (first_of l None) s = Some s.
Proof.
  revert p fuel. induction l as [|a l IH]; intros p [|fuel] Hs Hr Hf; simpl in Hf; try lia; [done|]. destruct Hs as [Hk Hs].
  apply Forall_cons in Hr as [(t & Ht & Hst) Hr]. simpl. rewrite Ht, bind_Some_l, Hst. simpl.
  rewrite (link_Some _ _ _ Ht) in Hk. injection Hk as _ ->. eapply IH; [done|done|lia].
Qed.

(** A tick within the time slice. *)
Lemma tick_slice_left s c v t : threads s !! c = Some t -> 1 < time_slice t ->
  tick_slice low_memory c v s = Some (mk_state (<[c := with_slice (time_slice t - 1) t]> (threads s)) (rq s) (rt s)).
Proof.
  intros Ht Hsl. unfold tick_slice. rewrite Ht, bind_Some_l. destruct (Z.ltb_spec 0 (time_slice t)); [|lia].
  rewrite (upd_ok _ _ _ t), bind_Some_l by done. simpl. rewrite lookup_insert_eq, bind_Some_l. simpl.
  by destruct (Z.eqb_spec (time_slice t - 1) 0); [lia|].
Qed.

(** A timer tick that does not use up the time slice takes one from it and changes the
    state of no thread. Sleeping threads are taken out of the queue when they fall asleep and
    the tick looks for them there: however late it is, it wakes none. *)
Theorem tick_wakes_nobody s c l now t fuel :
  turn s c l -> threads s !! c = Some t -> 1 < time_slice t -> (length l < fuel)%nat ->
  exists s', sched_tick low_memory fuel now s = Some s' /\ turn s' c l /\
    (forall a v, is_in v s a -> is_in v s' a) /\ threads s' !! c = Some (with_slice (time_slice t - 1) t).
Proof.
  intros HT Ht Hsl Hf. apply (turn_time _ _ _ now) in HT as HT0. set (s0 := on_rq (with_curr_timestamp now) s) in *.
  set (s1 := mk_state (<[c := with_slice (time_slice t - 1) t]> (threads s)) (rq s0) (rt s)).
  assert (turn s1 c l) as HT1 by (by eapply (turn_thread s0)).
  pose proof HT1 as [HQ1 Hc (i & Hi & Hil) _ _ Hrd [(t' & Ht' & Hp) _]%Forall_cons _].
  simpl in Ht'. rewrite lookup_insert_eq in Ht'. injection Ht' as <-. unfold is_rt in Hp. apply orb_false_iff in Hp as [H1 H2]. simpl in H1, H2.
  exists (sched_update_statistics s1). split; [|split; [|split]].
  - unfold sched_tick. fold s0. change (curr (rq s0)) with (curr (rq s1)). change (idle (rq s0)) with (idle (rq s1)).
    rewrite Hc, Hi, bool_decide_false by set_solver. rewrite bind_Some_l, (Ht : threads s0 !! c = Some t), bind_Some_l, H1, H2.
    rewrite (tick_slice_left s0 c _ t), bind_Some_l by done. change (mk_state _ _ _) with s1.
    rewrite (q_head _ _ HQ1), (wake_loop_ready fuel s1 None l) by (apply HQ1 || done). done.
  - destruct HT1 as [H3 ? ? ? ? ? ? ?]. split; try done. by eapply queue_same.
  - intros a v (ta & Hta & Hv). destruct (decide (c = a)) as [<-|].
    + exists (with_slice (time_slice t - 1) t). simpl. rewrite lookup_insert_eq. simplify_eq. done.
    + exists ta. simpl. by rewrite lookup_insert_ne.
  - simpl. apply lookup_insert_eq.
Qed.

(** While a thread with the policy [SCHED_FIFO] runs, scheduling takes the first ready thread
    out of the queue, then finds that it may not run, and does not put it back. *)
Theorem fifo_loses_first s c n l t i :
  queue s (n :: l) -> c ∉ n :: l -> curr (rq s) = Some c -> idle (rq s) = Some i -> c <> i ->
  threads s !! c = Some t -> st t = THREAD_STATE_RUNNING -> policy t = SCHED_FIFO -> normal s n ->
  (rt_enabled (rt s) = true -> low_memory = true) ->
  exists s', sched_schedule low_memory s = Some s' /\ queue s' l /\ curr (rq s') = Some c /\ n ∉ l /\
    forall v, is_in v s n -> is_in v s' n.
Proof.
  intros HQ Hcl Hc Hi Hci Ht Hst Hp Hn Hm. pose proof (q_nodup _ _ HQ) as [Hnl _]%NoDup_cons.
  destruct (rt_schedule_ok (on_rq (fun q => with_nr_schedule (u64 (nr_schedule q + 1)) q) s)) as (s1 & E1 & Th1 & Q1 & R1); [done|].
  assert (queue s1 (n :: l)) as HQ1 by (eapply queue_same; [exact HQ|by rewrite Th1|by rewrite Q1|by rewrite Q1]).
  destruct (rq_dequeue_ok s1 n l HQ1) as (s2 & E2 & HQ2 & F2).
  assert (bodies s s2) as HB by (intros b; by rewrite (proj1 F2), Th1).
  destruct (queue_frame_turn s1 s2 c F2) as (C2 & I2 & _). rewrite Q1 in C2, I2. simpl in C2, I2.
  assert (exists t', threads s2 !! c = Some t' /\ st t' = THREAD_STATE_RUNNING /\ policy t' = SCHED_FIFO) as (t2 & Ht2 & Hs2 & Hp2).
  { destruct (frame_thread s1 s2 c t F2) as (t2 & Ht2 & Hb); [by rewrite Th1|]. apply body_fields in Hb as (E & E' & _). exists t2.
    by rewrite E, E'. }
  exists s2. split; [|split; [done|split; [by rewrite C2|split; [done|]]]].
  - unfold sched_schedule. rewrite E1, bind_Some_l. cbn [fst snd]. rewrite E2, bind_Some_l. cbn [fst snd].
    replace (curr (rq (on_rq (fun q => with_nr_schedule (u64 (nr_schedule q + 1)) q) s))) with (Some c) by done.
    rewrite I2, Hi, (bool_decide_true (Some c <> Some i)) by congruence. unfold deref at 1.
    rewrite bind_Some_l, Ht2, bind_Some_l, Hs2, Z.eqb_refl, Hp2, Z.eqb_refl. simpl. rewrite bool_decide_true by set_solver.
    unfold can_preempt. rewrite (normal_not_rt s2 n (normal_frame s s2 n HB Hn)), bind_Some_l. simpl.
    by rewrite Ht2, bind_Some_l, Hp2, Hs2.
  - intros v. by apply is_in_frame.
Qed.

End Turns.

(** ** Priorities and the real-time part *)

(** The range check compares with the bounds of [thread.h] in mind, where a real-time thread
    has the highest number; with those of [sched/config.h] no priority passes it, and
    [sched_set_priority] never does anything. *)
Theorem set_priority_ignored p v s : sched_set_priority p v s = Some s.
Proof.
  destruct p as [a|]; [|done]. unfold sched_set_priority, THREAD_PRIO_IDLE, THREAD_PRIO_REALTIME.
  destruct (Z.ltb_spec v 139), (Z.ltb_spec 0 v); try done. lia.
Qed.

(** The real-time threads may not take more time than there is. *)
Definition rt_bounded s : Prop := 0 < rt_period (rt s) /\ rt_runtime (rt s) <= rt_period (rt s).

(** The parameters of the real-time part stay consistent, whatever is asked for: a runtime
    above the period and a period of 0 or below the runtime are refused. *)
Theorem rt_parameters_bounded s v :
  rt_bounded (rt_init s) /\
  (0 <= rt_runtime (rt s) -> rt_bounded s -> 0 <= v ->
   rt_bounded (rt_set_runtime v s).2 /\ rt_bounded (rt_set_period v s).2 /\ rt_bounded (rt_enable v s).2 /\ rt_bounded (rt_set_prio_base v s).2 /\
   ((rt_set_runtime v s).1 = 0 <-> v <= rt_period (rt s)) /\ ((rt_set_period v s).1 = 0 <-> 0 < v /\ rt_runtime (rt s) <= v)).
Proof.
  split; [by vm_compute|]. intros Hr [H1 H2] Hv. unfold rt_set_runtime, rt_set_period, rt_bounded, EINVAL.
  destruct (Z.ltb_spec (rt_period (rt s)) v), (Z.eqb_spec v 0), (Z.ltb_spec v (rt_runtime (rt s))); simpl; lia.
Qed.

(** Priorities of real-time threads go up to 99, but only bits below 64 can be computed. *)
Theorem throttle_undefined s a t v :
  threads s !! a = Some t -> is_rt t = true -> rt_enabled (rt s) = true -> 0 <= priority t < 64 -> 0 < v -> 64 <= priority t + v <= 99 ->
  rt_throttle (Some a) v s = None.
Proof.
  intros Ht Hr He Hp Hv Hs. unfold rt_throttle. destruct (Z.leb_spec v 0); [lia|]. unfold rt_guard. rewrite He. simpl.
  rewrite Ht, bind_Some_l, Hr. simpl. unfold s32, swrap. rewrite Z.mod_small by lia.
  replace (priority t + v + 2 ^ (32 - 1) - 2 ^ (32 - 1)) with (priority t + v) by lia. unfold SCHED_PRIO_MAX.
  destruct (Z.ltb_spec 99 (priority t + v)); [lia|]. unfold set_rt_priority. destruct (Z.eqb_spec (priority t + v) (priority t)); [lia|].
  erewrite upd_ok by exact Ht. rewrite bind_Some_l. unfold bit64.
  destruct (Z.leb_spec 0 (priority t)), (Z.ltb_spec (priority t) 64), (Z.leb_spec 0 (priority t + v)), (Z.ltb_spec (priority t + v) 64); try lia.
  done.
Qed.

(** ** Examples *)

(** Thread 1 runs, 2 and 3 wait, 9 is the idle thread; all have [slice] left. *)
Definition thread_with (v slice : Z) (n p : option Z) : thread := mk_thread 1 1 v 0 0 100 100 100 slice 0 0 0 n p.

Definition three (slice : Z) : state :=
  mk_state
    (<[1 := thread_with THREAD_STATE_RUNNING slice None None]>
      (<[2 := thread_with THREAD_STATE_READY slice (Some 3) None]>
        (<[3 := thread_with THREAD_STATE_READY slice None (Some 2)]>
          {[9 := thread_with THREAD_STATE_READY slice None None]})))
    (mk_rq 3 0 0 0 0 (Some 1) (Some 9) (Some 2) (Some 3) 0) (mk_rt true 950000 1000000 100 0 0 0 0 0 0).

Lemma three_queue slice : queue (three slice) [2; 3].
Proof.
  split; [|done|done|by repeat split|].
  - repeat (apply NoDup_cons; split; [set_solver|]). apply NoDup_nil. done.
  - intros a x Ha. unfold link. simpl. rewrite fmap_Some. intros (t & Ht & ->). revert Ht.
    rewrite !lookup_insert_Some, lookup_singleton_Some. intros [[<- <-]|[_ [[<- <-]|[_ [[<- <-]|[_ [<- <-]]]]]]]; done || set_solver.
Qed.

Lemma three_turn slice : turn true (three slice) 1 [2; 3].
Proof.
  split; [apply three_queue|done| |set_solver| | | |done].
  - exists 9. split; [done|set_solver].
  - by exists (thread_with THREAD_STATE_RUNNING slice None None).
  - repeat constructor; eexists; done.
  - repeat constructor; eexists; done.
Qed.

Lemma yield_round_robin_witness :
  exists s c l, yields true 2 (three 5) = Some s /\ turn true s c l /\ c :: l = [3; 1; 2].
Proof.
  destruct (yield_round_robin true (three 5) 1 [2; 3] 2 (three_turn 5)) as (s & c & l & E & HT & Hl); [simpl; lia|].
  exists s, c, l. split; [exact E|]. split; [exact HT|exact Hl].
Defined.

Lemma tick_never_returns_witness : sched_tick true 1000 7 (three 1) = None.
Proof.
  refine (proj2 (tick_never_returns true (three 1) 1 2 [3] 7 (thread_with THREAD_STATE_RUNNING 1 None None) (three_turn 1) _ _) 1000%nat);
    [reflexivity|simpl; lia].
Defined.

Lemma tick_wakes_nobody_witness :
  exists s, sched_tick true 3 7 (three 5) = Some s /\ turn true s 1 [2; 3].
Proof.
  destruct (tick_wakes_nobody true (three 5) 1 [2; 3] 7 (thread_with THREAD_STATE_RUNNING 5 None None) 3 (three_turn 5)) as (s & E & HT & _);
    [reflexivity|simpl; lia|simpl; lia|]. exists s. split; [exact E|exact HT].
Defined.

Lemma run_queue_refines_witness :
  exists s, SchedQueue.perform_all [Dequeue; Enqueue 1; Add 2; Remove 3] (three 5) = Some ([Some 2; None; None; None], s) /\
    queue s [1; 2].
Proof.
  destruct (SchedQueue.run_queue_refines [Dequeue; Enqueue 1; Add 2; Remove 3] (three 5) [2; 3] (three_queue 5)) as (s & E & HQ & _).
  - simpl. repeat split; (by eexists) || set_solver.
  - exists s. split; [exact E|exact HQ].
Defined.

End SchedSpec.
