(* ===== verification/Signal.v ===== *)
(** Signals: [kernel/signal/core.c] with [include/horizon/signal.h], on the lists of [KList]
    and the scheduler of [Sched]. *)

From S2P Require Import Prelude KList Sched.

Module Signal.
Import KList.

Definition ESRCH : Z := 3.
Definition EAGAIN : Z := 11.
Definition ENOMEM : Z := 12.
Definition EINVAL : Z := 22.
Definition SIGKILL : Z := 9.
Definition SIGSTOP : Z := 19.
Definition SIGRTMAX : Z := 64.
Definition SI_KERNEL : Z := 1.
Definition SI_QUEUE : Z := 2.
Definition SIG_DFL : Z := 0.
Definition SIG_IGN : Z := 1.

(** States as [thread.h] numbers them, which is what [core.c] includes; [sched.c] uses the
    numbers of [sched/config.h]. *)
Definition THREAD_STATE_BLOCKED : Z := 2.
Definition THREAD_STATE_STOPPED : Z := 4.

(** ** Data *)

(** [siginfo_t], with the fields of [_rt] for the union. *)
Record siginfo := mk_info { si_signo : Z; si_errno : Z; si_code : Z; si_pid : Z; si_uid : Z; si_sigval : Z }.
Record sigaction := mk_act { sa_handler : Z; sa_mask : Z; sa_flags : Z; sa_restorer : Z }.

(** The part of [struct thread] that is about signals; the other part is a thread of [Sched]
    at the same address. *)
Record sigthread := mk_st { signal_mask : Z; sigactions : option (list sigaction); task : option Z }.

(** [struct task_struct]: [pending.signal] and [main_thread]. The lists [pending.list] and
    [threads] start at addresses inside it. *)
Record task_struct := mk_task { pending : Z; main_thread : option Z }.
Definition pending_list (t : Z) : Z := t + 8.
Definition threads_list (t : Z) : Z := t + 16.

(** The node [process_threads] inside a thread. *)
Definition PROCESS_THREADS : Z := 24.

(** [infos] holds the [siginfo_t] of each queued [sigqueue_t], whose list node is at its own
    address. *)
Record state := mk_state {
  nodes : heap; infos : gmap Z siginfo; tasks : gmap Z task_struct; sigthreads : gmap Z sigthread; sched : Sched.state
}.

Definition with_nodes (h : heap) (s : state) : state := mk_state h (infos s) (tasks s) (sigthreads s) (sched s).
Definition with_infos (i : gmap Z siginfo) (s : state) : state := mk_state (nodes s) i (tasks s) (sigthreads s) (sched s).
Definition with_tasks (t : gmap Z task_struct) (s : state) : state := mk_state (nodes s) (infos s) t (sigthreads s) (sched s).
Definition with_sigthreads (t : gmap Z sigthread) (s : state) : state := mk_state (nodes s) (infos s) (tasks s) t (sched s).
Definition with_sched (c : Sched.state) (s : state) : state := mk_state (nodes s) (infos s) (tasks s) (sigthreads s) c.
Definition with_pending (v : Z) (t : task_struct) : task_struct := mk_task v (main_thread t).
Definition with_mask (v : Z) (t : sigthread) : sigthread := mk_st v (sigactions t) (task t).
Definition with_actions (v : list sigaction) (t : sigthread) : sigthread := mk_st (signal_mask t) (Some v) (task t).

(** [1ULL << (sig - 1)]; signal 0 asks for a negative shift, which is undefined. *)
Definition sig_bit (sig : Z) : option Z := if (0 <? sig) && (sig <=? 64) then Some (BIT (sig - 1)) else None.

Definition bad_signal (sig : Z) : bool := (sig <? 0) || (SIGRTMAX <=? sig).

Definition set_pending (t v : Z) (s : state) : option state :=
  k ← tasks s !! t; Some (with_tasks (<[t := with_pending v k]> (tasks s)) s).

(** [memset] and the three assignments behind it. *)
Definition kernel_info (sig : Z) : siginfo := mk_info sig 0 SI_KERNEL 0 0 0.

(** ** Sending *)

Section Signals.
Context (low_memory : bool).

(** Enough for a walk over the queued signals and over the threads. *)
Definition queue_fuel (s : state) : nat := S (size (infos s)).
Definition thread_fuel (s : state) : nat := S (size (sigthreads s)).

(** [list_for_each_entry(thread, &task->threads, process_threads)] with a body. *)
Fixpoint each_thread (fuel : nat) (body : Z -> state -> option state) (head pos : Z) (s : state) : option state :=
  match fuel with
  | O => None
  | S fuel =>
      if pos =? head then Some s
      else
        s ← body (pos - PROCESS_THREADS) s;
        n ← next (nodes s) !! pos;
        each_thread fuel body head n s
  end.

Definition for_each_thread (body : Z -> state -> option state) (t : Z) (s : state) : option state :=
  pos ← next (nodes s) !! threads_list t; each_thread (thread_fuel s) body (threads_list t) pos s.

(** The check that ends [signal_queue] and [signal_queue_thread]. *)
Definition wake_thread (sig thread : Z) (s : state) : option state :=
  th ← Sched.threads (sched s) !! thread;
  if Sched.st th =? THREAD_STATE_BLOCKED then
    st ← sigthreads s !! thread;
    b ← sig_bit sig;
    if negb (has_flag (signal_mask st) b) then c ← Sched.sched_unblock_thread low_memory (Some thread) (sched s); Some (with_sched c s)
    else Some s
  else Some s.

(** A new queue entry at [q] behind those that wait. *)
Definition enqueue (t q : Z) (info : siginfo) (s : state) : option state :=
  h ← list_init q (new_node q (nodes s));
  h ← list_add_tail q (pending_list t) h;
  Some (mk_state h (<[q := info]> (infos s)) (tasks s) (sigthreads s) (sched s)).

(** [mem] is what [kmalloc] returns. *)
Definition signal_queue (task : option Z) (sig : Z) (info : option siginfo) (mem : option Z) (s : state) : option (Z * state) :=
  match task, info with
  | Some t, Some i =>
      if bad_signal sig then Some (- EINVAL, s)
      else
        match mem with
        | None => Some (- ENOMEM, s)
        | Some q => s ← enqueue t q i s; s ← for_each_thread (wake_thread sig) t s; Some (0, s)
        end
  | _, _ => Some (- EINVAL, s)
  end.

Definition signal_queue_thread (thread : option Z) (sig : Z) (info : option siginfo) (mem : option Z) (s : state) : option (Z * state) :=
  match thread, info with
  | Some a, Some i =>
      if bad_signal sig then Some (- EINVAL, s)
      else
        st ← sigthreads s !! a;
        match task st with
        | None => Some (- EINVAL, s)
        | Some t =>
            match mem with
            | None => Some (- ENOMEM, s)
            | Some q => s ← enqueue t q i s; s ← wake_thread sig a s; Some (0, s)
            end
        end
  | _, _ => Some (- EINVAL, s)
  end.

(** [task->pending.signal |= 1ULL << (sig - 1)]. *)
Definition mark (t sig : Z) (s : state) : option state :=
  b ← sig_bit sig; k ← tasks s !! t; set_pending t (Z.lor (pending k) b) s.

Definition signal_send_info (task : option Z) (sig : Z) (info : option siginfo) (mem : option Z) (s : state) : option (Z * state) :=
  match task, info with
  | Some t, Some _ =>
      if bad_signal sig then Some (- EINVAL, s)
      else s ← mark t sig s; signal_queue task sig info mem s
  | _, _ => Some (- EINVAL, s)
  end.

Definition signal_send (task : option Z) (sig : Z) (mem : option Z) (s : state) : option (Z * state) :=
  match task with
  | None => Some (- EINVAL, s)
  | Some _ => if bad_signal sig then Some (- EINVAL, s) else signal_send_info task sig (Some (kernel_info sig)) mem s
  end.

Definition signal_send_info_thread (thread : option Z) (sig : Z) (info : option siginfo) (mem : option Z) (s : state) : option (Z * state) :=
  match thread, info with
  | Some a, Some _ =>
      if bad_signal sig then Some (- EINVAL, s)
      else
        st ← sigthreads s !! a;
        match task st with
        | None => Some (- EINVAL, s)
        | Some t => s ← mark t sig s; signal_queue_thread thread sig info mem s
        end
  | _, _ => Some (- EINVAL, s)
  end.

Definition signal_send_thread (thread : option Z) (sig : Z) (mem : option Z) (s : state) : option (Z * state) :=
  match thread with
  | None => Some (- EINVAL, s)
  | Some _ => if bad_signal sig then Some (- EINVAL, s) else signal_send_info_thread thread sig (Some (kernel_info sig)) mem s
  end.

(** [target] is what [task_get] returns, [pid] and [uid] those of [task_current()]. *)
Definition signal_sigqueue (target : option Z) (pid uid sig value : Z) (mem : option Z) (s : state) : option (Z * state) :=
  if bad_signal sig then Some (- EINVAL, s)
  else
    match target with
    | None => Some (- ESRCH, s)
    | Some t => signal_send_info target sig (Some (mk_info sig 0 SI_QUEUE pid uid value)) mem s
    end.

(** ** Receiving *)

(** [while (sig < SIGRTMAX) { if (set & bit) break; sig++; }]. *)
Fixpoint first_signal (fuel : nat) (set sig : Z) : option Z :=
  match fuel with
  | O => None
  | S fuel =>
      if SIGRTMAX <=? sig then Some sig
      else b ← sig_bit sig; if has_flag set b then Some sig else first_signal fuel set (sig + 1)
  end.

Definition lowest (set : Z) : option Z := first_signal 64 set 1.

(** The rest of [signal_dequeue] and [signal_dequeue_thread]: the first entry of this number
    leaves the queue, or a default one is made, and the bit is cleared. *)
Definition take_signal (t sig : Z) (s : state) : option (Z * option siginfo * state) :=
  found ← list_for_each_entry (queue_fuel s) (fun q => i ← infos s !! q; Some (si_signo i =? sig)) (pending_list t) (nodes s);
  r ← match found with
      | Some q =>
          i ← infos s !! q;
          h ← list_del q (nodes s);
          Some (i, with_infos (delete q (infos s)) (with_nodes h s))
      | None => Some (kernel_info sig, s)
      end;
  let '(i, s) := r in
  b ← sig_bit sig;
  k ← tasks s !! t;
  s ← set_pending t (Z.land (pending k) (Z.lnot b)) s;
  Some (sig, Some i, s).

(** [info] is a pointer to the caller's [siginfo_t], null or not. The result has the signal
    or an error code, and what was written to [info]. *)
Definition signal_dequeue (task : option Z) (info : bool) (s : state) : option (Z * option siginfo * state) :=
  match task with
  | Some t =>
      if negb info then Some (- EINVAL, None, s)
      else
        k ← tasks s !! t;
        if pending k =? 0 then Some (- EAGAIN, None, s)
        else
          sig ← lowest (pending k);
          if SIGRTMAX <=? sig then Some (- EAGAIN, None, s) else take_signal t sig s
  | None => Some (- EINVAL, None, s)
  end.

(** The pending signals that the thread does not block. *)
Definition deliverable (k : task_struct) (st : sigthread) : Z := Z.land (pending k) (Z.lnot (signal_mask st)).

Definition signal_dequeue_thread (thread : option Z) (info : bool) (s : state) : option (Z * option siginfo * state) :=
  match thread with
  | Some a =>
      if negb info then Some (- EINVAL, None, s)
      else
        st ← sigthreads s !! a;
        match task st with
        | None => Some (- EINVAL, None, s)
        | Some t =>
            k ← tasks s !! t;
            let set := deliverable k st in
            if set =? 0 then Some (- EAGAIN, None, s)
            else
              sig ← lowest set;
              if SIGRTMAX <=? sig then Some (- EAGAIN, None, s) else take_signal t sig s
        end
  | None => Some (- EINVAL, None, s)
  end.

Definition signal_pending (task : option Z) (s : state) : option bool :=
  match task with None => Some false | Some t => k ← tasks s !! t; Some (negb (pending k =? 0)) end.

Definition signal_pending_thread (thread : option Z) (s : state) : option bool :=
  match thread with
  | None => Some false
  | Some a =>
      st ← sigthreads s !! a;
      match task st with None => Some false | Some t => k ← tasks s !! t; Some (negb (deliverable k st =? 0)) end
  end.

(** ** Handling *)

Definition default_action (a sig : Z) (s : state) : option state :=
  if (sig =? SIGKILL) || (sig =? SIGSTOP) then
    c ← Sched.upd a (Sched.with_state THREAD_STATE_STOPPED) (sched s); Some (with_sched c s)
  else Some s.

(** Handlers are not called: the last branch only returns. *)
Definition signal_handle_thread (thread : option Z) (sig : Z) (s : state) : option (Z * state) :=
  match thread with
  | None => Some (- EINVAL, s)
  | Some a =>
      if bad_signal sig then Some (- EINVAL, s)
      else
        st ← sigthreads s !! a;
        match sigactions st with
        | None => s ← default_action a sig s; Some (0, s)
        | Some acts =>
            act ← aget acts sig;
            if sa_handler act =? SIG_DFL then s ← default_action a sig s; Some (0, s) else Some (0, s)
        end
  end.

(** The main thread of a task, for the operations that are about it. *)
Definition main_of (t : Z) (s : state) : option (option Z) := k ← tasks s !! t; Some (main_thread k).

Definition signal_handle (task : option Z) (sig : Z) (s : state) : option (Z * state) :=
  match task with
  | None => Some (- EINVAL, s)
  | Some t =>
      if bad_signal sig then Some (- EINVAL, s)
      else m ← main_of t s; match m with Some _ => signal_handle_thread m sig s | None => Some (- EINVAL, s) end
  end.

Definition signal_do_signal_thread (thread : option Z) (s : state) : option (Z * state) :=
  match thread with
  | None => Some (- EINVAL, s)
  | Some a =>
      st ← sigthreads s !! a;
      match task st with
      | None => Some (- EINVAL, s)
      | Some t =>
          k ← tasks s !! t;
          if deliverable k st =? 0 then Some (0, s)
          else
            r ← signal_dequeue_thread thread true s;
            let '(sig, _, s) := r in
            if sig <? 0 then Some (0, s) else signal_handle_thread thread sig s
      end
  end.

Definition signal_do_signal (task : option Z) (s : state) : option (Z * state) :=
  match task with
  | None => Some (- EINVAL, s)
  | Some t =>
      k ← tasks s !! t;
      if pending k =? 0 then Some (0, s)
      else
        s ← for_each_thread (fun a s => r ← signal_do_signal_thread (Some a) s; Some r.2) t s;
        Some (0, s)
  end.

(** ** Masks and actions *)

(** The three ways to change a mask are used by the code and defined nowhere. *)
Context (SIG_BLOCK SIG_UNBLOCK SIG_SETMASK : Z).

(** [set] is the set pointed to; the second result is what is written to [oldset]. *)
Definition signal_mask_thread (thread : option Z) (how : Z) (set : option Z) (s : state) : option (Z * option Z * state) :=
  match thread with
  | None => Some (- EINVAL, None, s)
  | Some a =>
      st ← sigthreads s !! a;
      let old := signal_mask st in
      let change v := Some (0, Some old, with_sigthreads (<[a := with_mask v st]> (sigthreads s)) s) in
      match set with
      | None => Some (0, Some old, s)
      | Some m =>
          if how =? SIG_BLOCK then change (Z.lor old m)
          else if how =? SIG_UNBLOCK then change (Z.land old (Z.lnot m))
          else if how =? SIG_SETMASK then change m
          else Some (- EINVAL, Some old, s)
      end
  end.

(** [signal_mask] of the source. *)
Definition signal_mask_task (task : option Z) (how : Z) (set : option Z) (s : state) : option (Z * option Z * state) :=
  match task with
  | None => Some (- EINVAL, None, s)
  | Some t => m ← main_of t s; match m with Some _ => signal_mask_thread m how set s | None => Some (- EINVAL, None, s) end
  end.

Definition no_action : sigaction := mk_act 0 0 0 0.

(** [old] tells whether [oldact] is not null; the second result is what is written to it. *)
Definition signal_action_thread (thread : option Z) (sig : Z) (act : option sigaction) (old : bool) (mem : option Z) (s : state)
    : option (Z * option sigaction * state) :=
  match thread with
  | None => Some (- EINVAL, None, s)
  | Some a =>
      if bad_signal sig then Some (- EINVAL, None, s)
      else
        st ← sigthreads s !! a;
        o ← match sigactions st, old with Some acts, true => x ← aget acts sig; Some (Some x) | _, _ => Some None end;
        match act with
        | None => Some (0, o, s)
        | Some x =>
            let acts := match sigactions st with
                        | Some acts => Some acts
                        | None => match mem with Some _ => Some (repeat no_action (Z.to_nat SIGRTMAX)) | None => None end
                        end in
            match acts with
            | None => Some (- ENOMEM, o, s)
            | Some acts =>
                acts ← aset acts sig x;
                Some (0, o, with_sigthreads (<[a := with_actions acts st]> (sigthreads s)) s)
            end
        end
  end.

Definition signal_action (task : option Z) (sig : Z) (act : option sigaction) (old : bool) (mem : option Z) (s : state)
    : option (Z * option sigaction * state) :=
  match task with
  | None => Some (- EINVAL, None, s)
  | Some t =>
      if bad_signal sig then Some (- EINVAL, None, s)
      else m ← main_of t s; match m with Some _ => signal_action_thread m sig act old mem s | None => Some (- EINVAL, None, s) end
  end.

(** ** Waiting *)

(** A call returns, or the thread is blocked; when it runs again, it goes on with a call of
    the same function. *)
Inductive outcome := Returned (r : Z) (info : option siginfo) | Blocked.

(** The check that [signal_wait_thread] and [signal_timedwait_thread] begin with: [None] when
    no signal of the set is pending. [info] tells whether there is a place for the info. *)
Definition poll (t set : Z) (info : bool) (s : state) : option (option (Z * option siginfo) * state) :=
  k ← tasks s !! t;
  let p := Z.land (pending k) set in
  if p =? 0 then Some (None, s)
  else
    sig ← lowest p;
    if SIGRTMAX <=? sig then Some (None, s)
    else
      r ← signal_dequeue (Some t) true s;
      let '(ret, i, s) := r in
      if ret <? 0 then Some (Some (ret, None), s) else Some (Some (sig, if info then i else None), s).

Definition signal_wait_thread (thread set : option Z) (info : bool) (s : state) : option (outcome * state) :=
  match thread, set with
  | Some a, Some m =>
      st ← sigthreads s !! a;
      match task st with
      | None => Some (Returned (- EINVAL) None, s)
      | Some t =>
          r ← poll t m info s;
          match r.1 with
          | Some (x, i) => Some (Returned x i, r.2)
          | None => c ← Sched.sched_block_thread low_memory thread (sched r.2); Some (Blocked, with_sched c r.2)
          end
      end
  | _, _ => Some (Returned (- EINVAL) None, s)
  end.

Definition signal_wait (task set : option Z) (info : bool) (s : state) : option (outcome * state) :=
  match task, set with
  | Some t, Some _ =>
      m ← main_of t s;
      match m with Some _ => signal_wait_thread m set info s | None => Some (Returned (- EINVAL) None, s) end
  | _, _ => Some (Returned (- EINVAL) None, s)
  end.

(** [timeout] is the number of seconds and nanoseconds, [now] the time in microseconds. *)
Definition wakeup_at (now : Z) (timeout : Z * Z) : Z := u64 (now + timeout.1 * 1000000000 + timeout.2).

Definition signal_timedwait_thread (thread set : option Z) (info : bool) (timeout : option (Z * Z)) (now : Z) (s : state)
    : option (outcome * state) :=
  match thread, set with
  | Some a, Some m =>
      st ← sigthreads s !! a;
      match task st with
      | None => Some (Returned (- EINVAL) None, s)
      | Some t =>
          r ← poll t m info s;
          match r.1 with
          | Some (x, i) => Some (Returned x i, r.2)
          | None =>
              c ← match timeout with
                  | Some v => Sched.upd a (Sched.with_wakeup (wakeup_at now v)) (sched r.2)
                  | None => Some (sched r.2)
                  end;
              c ← Sched.sched_block_thread low_memory thread c;
              Some (Blocked, with_sched c r.2)
          end
      end
  | _, _ => Some (Returned (- EINVAL) None, s)
  end.

(** Behind the wait, at the time [now]: late, or a second try without a timeout. *)
Definition timedwait_resume (thread set : option Z) (info : bool) (wakeup now : Z) (s : state) : option (outcome * state) :=
  if wakeup <=? now then Some (Returned (- EAGAIN) None, s) else signal_timedwait_thread thread set info None now s.

Definition signal_timedwait (task set : option Z) (info : bool) (timeout : option (Z * Z)) (now : Z) (s : state)
    : option (outcome * state) :=
  match task, set with
  | Some t, Some _ =>
      m ← main_of t s;
      match m with Some _ => signal_timedwait_thread m set info timeout now s | None => Some (Returned (- EINVAL) None, s) end
  | _, _ => Some (Returned (- EINVAL) None, s)
  end.

(** [cur] and [self] are [task_current()] and [thread_self()]; [out] tells whether [sig] is
    not null. The second result is what is written there. *)
Definition signal_sigwait (cur self set : option Z) (out : bool) (s : state) : option (outcome * option Z * state) :=
  match set, cur, self with
  | Some _, Some _, Some _ =>
      if negb out then Some (Returned (- EINVAL) None, None, s)
      else
        r ← signal_wait_thread self set true s;
        match r.1 with
        | Returned x _ => if x <? 0 then Some (Returned x None, None, r.2) else Some (Returned 0 None, Some x, r.2)
        | Blocked => Some (Blocked, None, r.2)
        end
  | _, _, _ => Some (Returned (- EINVAL) None, None, s)
  end.

(** [task] is [task_current()]. *)
Definition signal_setup (task : option Z) (s : state) : option (Z * state) :=
  match task with
  | None => Some (- EINVAL, s)
  | Some t => s ← set_pending t 0 s; h ← list_init (pending_list t) (nodes s); Some (0, with_nodes h s)
  end.

End Signals.
End Signal.
