(* ===== verification/SignalSpec.v ===== *)
(** Signals ([kernel/signal/core.c]) as a specification: a set of pending signals and a queue
    of infos; what sending adds, what receiving takes, and where the code loses signals or
    does not wake those who wait. *)

From S2P Require Import Prelude KList Sched Signal.

Module SignalSpec.
Import KList Signal.

Implicit Types (s : state) (t sig : Z) (l : list siginfo).

(** ** The lowest signal of a set *)

Lemma sig_bit_ok sig : 1 <= sig <= 63 -> sig_bit sig = Some (BIT (sig - 1)).
Proof. intros H. unfold sig_bit. by destruct (Z.ltb_spec 0 sig), (Z.leb_spec sig 64); try lia. Qed.

(** [member set sig]: the bit of the signal is set. *)
Definition member (set sig : Z) : bool := Z.testbit set (sig - 1).

Lemma first_signal_spec fuel set sig : 1 <= sig <= SIGRTMAX -> SIGRTMAX - sig < Z.of_nat fuel ->
  exists r, first_signal fuel set sig = Some r /\ sig <= r <= SIGRTMAX /\ (r < SIGRTMAX -> member set r = true) /\
    forall k, sig <= k < r -> member set k = false.
Proof.
  revert sig. unfold SIGRTMAX. induction fuel as [|fuel IH]; intros sig Hs Hf; [lia|]. cbn [first_signal]. unfold SIGRTMAX.
  destruct (Z.leb_spec 64 sig).
  - exists sig. split; [done|]. split; [lia|]. split; [lia|]. lia.
  - rewrite sig_bit_ok, bind_Some_l by lia. rewrite has_flag_BIT by lia. fold (member set sig). destruct (member set sig) eqn:E.
    + exists sig. split; [done|]. split; [lia|]. split; [done|]. lia.
    + destruct (IH (sig + 1)) as (r & Hr & H1 & H2 & H3); [lia|lia|]. exists r. split; [done|]. split; [lia|]. split; [done|].
      intros k Hk. destruct (decide (k = sig)) as [->|]; [done|]. apply H3. lia.
Qed.

Lemma lowest_signal_spec set :
  exists r, lowest set = Some r /\ 1 <= r <= SIGRTMAX /\ (r < SIGRTMAX -> member set r = true) /\ forall k, 1 <= k < r -> member set k = false.
Proof. apply (first_signal_spec 64); unfold SIGRTMAX; lia. Qed.

(** The least member is what is found. *)
Lemma lowest_least set sig : 1 <= sig < SIGRTMAX -> member set sig = true -> (forall k, 1 <= k < sig -> member set k = false) -> lowest set = Some sig.
Proof.
  intros Hs Hm Hk. destruct (lowest_signal_spec set) as (r & -> & Hr & Hrm & Hrk). f_equal.
  destruct (Z.lt_trichotomy r sig) as [H|[H|H]]; [|done|].
  - rewrite Hk in Hrm by lia. assert (r < SIGRTMAX) as H' by lia. by specialize (Hrm H').
  - rewrite Hrk in Hm by lia. done.
Qed.

Lemma member_nonzero set sig : member set sig = true -> (set =? 0) = false.
Proof. unfold member. intros H. apply Z.eqb_neq. intros ->. by rewrite Z.bits_0 in H. Qed.

(** ** A task's pending signals *)

(** [p] are the pending signals and [l] the queued infos of the task, oldest first; [xs] are
    the addresses of the entries. *)
Record waiting s t (p : Z) (xs : list Z) l : Prop := {
  w_task : exists k, tasks s !! t = Some k /\ pending k = p;
  w_list : is_list (nodes s) (pending_list t) xs;
  w_infos : Forall2 (fun q i => infos s !! q = Some i) xs l
}.

(** The threads of the task: a list of nodes inside threads that the scheduler knows. *)
Record members s t (ys : list Z) : Prop := {
  m_list : is_list (nodes s) (threads_list t) ys;
  m_threads : forall y, y ∈ ys -> is_Some (sigthreads s !! (y - PROCESS_THREADS)) /\ is_Some (Sched.threads (sched s) !! (y - PROCESS_THREADS))
}.

Lemma with_sched_id s : with_sched (sched s) s = s.
Proof. by destruct s. Qed.

Section Spec.
Context (low_memory : bool).

(** A thread is blocked for [core.c] when its state is 2, which for [sched.c] is a running
    thread: [sched_unblock_thread] leaves it alone. *)
Lemma wake_thread_same s sig a : 1 <= sig <= 63 -> is_Some (sigthreads s !! a) -> is_Some (Sched.threads (sched s) !! a) ->
  wake_thread low_memory sig a s = Some s.
Proof.
  intros Hs [st Hst] [th Hth]. unfold wake_thread. rewrite Hth, bind_Some_l.
  destruct (Z.eqb_spec (Sched.st th) THREAD_STATE_BLOCKED) as [E|]; [|done].
  rewrite Hst, bind_Some_l, sig_bit_ok, bind_Some_l by done. destruct (negb _); [|done].
  unfold Sched.sched_unblock_thread. rewrite Hth, bind_Some_l, E. simpl. by rewrite with_sched_id.
Qed.

Lemma each_thread_same s body head ys ys1 ys2 fuel : is_list (nodes s) head ys -> ys = ys1 ++ ys2 -> (length ys2 < fuel)%nat ->
  (forall y, y ∈ ys -> body (y - PROCESS_THREADS) s = Some s) -> each_thread fuel body head (List.hd head ys2) s = Some s.
Proof.
  intros HL. revert ys1 fuel. induction ys2 as [|y ys2 IH]; intros ys1 [|fuel] -> Hf Hb; simpl in Hf; try lia; cbn [each_thread List.hd].
  - by rewrite Z.eqb_refl.
  - assert (y <> head) as Hne by (destruct HL as [[H _]%NoDup_cons _]; set_solver). destruct (Z.eqb_spec y head); [done|].
    rewrite Hb, bind_Some_l by set_solver. rewrite (next_ok _ _ _ _ _ HL), bind_Some_l.
    apply (IH (ys1 ++ [y])); [by rewrite <-app_assoc|lia|done].
Qed.

Lemma list_le_map {A} (m : gmap Z A) (f : Z -> Z) xs : NoDup xs -> (forall x y, f x = f y -> x = y) ->
  (forall x, x ∈ xs -> is_Some (m !! f x)) -> (length xs <= size m)%nat.
Proof.
  intros Hnd Hf Hx. rewrite <-(length_fmap f), <-size_dom, <-(size_list_to_set (C := gset Z)).
  - apply subseteq_size. intros y (x & -> & Hy)%elem_of_list_to_set%list_elem_of_fmap. by apply elem_of_dom, Hx.
  - apply NoDup_fmap_2; [|done]. intros x y. apply Hf.
Qed.

Lemma wake_all_same s t sig ys : members s t ys -> 1 <= sig <= 63 -> for_each_thread (wake_thread low_memory sig) t s = Some s.
Proof.
  intros [HL Ht] Hs. unfold for_each_thread. rewrite (first_ok _ _ _ HL), bind_Some_l.
  apply (each_thread_same s _ _ ys [] ys); try done.
  - assert (length ys <= size (sigthreads s))%nat; [|unfold thread_fuel; lia].
    apply (list_le_map _ (fun y => y - PROCESS_THREADS)); [by destruct HL as [[_ ?]%NoDup_cons _]|lia|intros y Hy; by apply Ht].
  - intros y Hy. destruct (Ht y Hy). by apply wake_thread_same.
Qed.

(** ** Sending *)

Lemma sig_enqueue_ok s t p xs l ys q i : waiting s t p xs l -> members s t ys ->
  q ∉ pending_list t :: threads_list t :: xs ++ ys -> infos s !! q = None -> pending_list t :: xs ## threads_list t :: ys ->
  exists s', enqueue t q i s = Some s' /\ waiting s' t p (xs ++ [q]) (l ++ [i]) /\ members s' t ys /\
    tasks s' = tasks s /\ sigthreads s' = sigthreads s /\ sched s' = sched s.
Proof.
  intros [Hk HL HF] [HM Ht] Hq Hi Hd. unfold enqueue.
  destruct (new_node_others q (nodes s)) as [Ho Hn]. destruct (list_init_ok q (new_node q (nodes s)) Hn) as (h1 & E1 & _ & Ho1).
  pose proof (others_trans _ _ _ _ Ho Ho1) as Ho2. rewrite E1, bind_Some_l.
  assert (is_list h1 (pending_list t) xs) as HL1 by (eapply list_frame; [exact HL|exact Ho2|set_solver]).
  assert (is_list h1 (threads_list t) ys) as HM1 by (eapply list_frame; [exact HM|exact Ho2|set_solver]).
  destruct (list_add_tail_ok h1 (pending_list t) xs [] q) as (h2 & E2 & HL2 & Ho3); [by rewrite app_nil_r|rewrite app_nil_r; set_solver|by apply Ho1|].
  rewrite app_nil_r in Ho3. simpl in E2. rewrite E2, bind_Some_l. eexists. split; [done|]. split; [split; simpl; try done|].
  - apply Forall2_app; [|constructor; [apply lookup_insert_eq|constructor]].
    eapply Forall2_impl; [exact HF|]. intros x j Hx. simpl. rewrite lookup_insert_ne; [done|]. intros <-. congruence.
  - split; [|done]. split; [|done]. simpl. eapply list_frame; [exact HM1|exact Ho3|].
    intros y Hy [->|Hy2]%elem_of_cons; [set_solver|]. by apply (Hd y).
Qed.

(** What the task and its threads are, for a signal to be sent with a new entry at [q]. *)
Definition can_send s t (xs ys : list Z) (q : Z) : Prop :=
  members s t ys /\ q ∉ pending_list t :: threads_list t :: xs ++ ys /\ infos s !! q = None /\ pending_list t :: xs ## threads_list t :: ys.

Lemma send_ok s t p xs l ys q sig i : waiting s t p xs l -> can_send s t xs ys q -> 1 <= sig <= 63 ->
  exists s', signal_send_info low_memory (Some t) sig (Some i) (Some q) s = Some (0, s') /\
    waiting s' t (Z.lor p (BIT (sig - 1))) (xs ++ [q]) (l ++ [i]) /\ members s' t ys /\
    sigthreads s' = sigthreads s /\ sched s' = sched s.
Proof.
  intros HW (HM & Hq & Hi & Hd) Hs. pose proof HW as [(k & Hk & Hp) HL HF]. unfold signal_send_info, bad_signal, SIGRTMAX.
  destruct (Z.ltb_spec sig 0), (Z.leb_spec 64 sig); try lia. simpl orb. cbv iota. unfold mark.
  rewrite sig_bit_ok, bind_Some_l, Hk, bind_Some_l by done. unfold set_pending. rewrite Hk, !bind_Some_l.
  set (s1 := with_tasks _ s).
  assert (waiting s1 t (Z.lor p (BIT (sig - 1))) xs l) as HW1.
  { split; [|done|done]. eexists. simpl. rewrite lookup_insert_eq, <-Hp. done. }
  assert (members s1 t ys) as HM1 by (by destruct HM).
  destruct (sig_enqueue_ok s1 t _ xs l ys q i HW1 HM1 Hq Hi Hd) as (s2 & E2 & HW2 & HM2 & _ & Hst & Hsc).
  unfold signal_queue, bad_signal, SIGRTMAX. destruct (Z.ltb_spec sig 0), (Z.leb_spec 64 sig); try lia. simpl orb. cbv iota.
  rewrite E2, bind_Some_l, (wake_all_same s2 t sig ys), bind_Some_l by done. exists s2. split; [done|]. split; [done|]. split; [done|]. by rewrite Hst, Hsc.
Qed.

(** ** Receiving *)

(** The oldest info of a number and the others; without one, what the kernel makes up. *)
Fixpoint pick sig l : option (siginfo * list siginfo) :=
  match l with
  | [] => None
  | i :: l => if si_signo i =? sig then Some (i, l) else (fun r => (r.1, i :: r.2)) <$> pick sig l
  end.

Definition taken sig l : siginfo * list siginfo := match pick sig l with Some r => r | None => (kernel_info sig, l) end.

(** The same on the addresses of the entries. *)
Lemma pick_split s sig xs l : Forall2 (fun q i => infos s !! q = Some i) xs l ->
  let test := fun q => match infos s !! q with Some i => si_signo i =? sig | None => false end in
  match pick sig l with
  | None => List.find test xs = None
  | Some (i, l') => exists xs1 q xs2, xs = xs1 ++ q :: xs2 /\ List.find test xs = Some q /\ infos s !! q = Some i /\
      Forall2 (fun q i => infos s !! q = Some i) (xs1 ++ xs2) l'
  end.
Proof.
  intros HF test. induction HF as [|q i xs l Hq HF IH]; [done|]. simpl. unfold test at 1 3. rewrite Hq.
  destruct (si_signo i =? sig) eqn:E; [by exists [], q, xs|]. destruct (pick sig l) as [[j l']|]; simpl; [|done].
  destruct IH as (xs1 & q' & xs2 & -> & Hf & Hq' & HF'). exists (q :: xs1), q', xs2. repeat split; try done. by constructor.
Qed.

Lemma take_signal_ok s t p xs l sig : waiting s t p xs l -> 1 <= sig <= 63 ->
  exists s' xs', take_signal t sig s = Some (sig, Some (taken sig l).1, s') /\
    waiting s' t (Z.land p (Z.lnot (BIT (sig - 1)))) xs' (taken sig l).2 /\
    sigthreads s' = sigthreads s /\ sched s' = sched s.
Proof.
  intros [(k & Hk & Hp) HL HF] Hs. unfold take_signal. pose proof HL as [[Hh Hnd]%NoDup_cons _].
  assert (forall x, x ∈ xs -> is_Some (infos s !! x)) as Hin.
  { intros x (n & Hx)%list_elem_of_lookup. destruct (Forall2_lookup_l _ _ _ _ _ HF Hx) as (i & _ & Hi). eauto. }
  rewrite (list_for_each_entry_ok _ _ xs _ (fun q => match infos s !! q with Some i => si_signo i =? sig | None => false end)), bind_Some_l;
    [|done| |].
  2:{ pose proof (list_le_map (infos s) (fun x => x) xs Hnd ltac:(auto) Hin). unfold queue_fuel. lia. }
  2:{ intros x Hx. destruct (Hin x Hx) as [i Hi]. by rewrite Hi. }
  pose proof (pick_split s sig xs l HF) as HP. unfold taken. destruct (pick sig l) as [[i l']|].
  - destruct HP as (xs1 & q & xs2 & -> & -> & Hq & HF'). rewrite Hq, bind_Some_l.
    destruct (list_del_ok _ _ _ _ _ HL) as (h & E & HL' & _). rewrite E, !bind_Some_l. rewrite sig_bit_ok, bind_Some_l by done.
    simpl. rewrite Hk, bind_Some_l. unfold set_pending. simpl. rewrite Hk, !bind_Some_l. do 2 eexists. split; [done|].
    split; [split; simpl|done].
    + eexists. rewrite lookup_insert_eq, <-Hp. done.
    + exact HL'.
    + apply NoDup_app in Hnd as (_ & Hd & [Hq2 _]%NoDup_cons). eapply Forall2_same_length_lookup in HF' as [Hlen HF'].
      apply Forall2_same_length_lookup. split; [done|]. intros n x j Hx Hj. rewrite lookup_delete_ne; [by eapply HF'|].
      intros ->. apply list_elem_of_lookup_2 in Hx. apply elem_of_app in Hx as [Hx|Hx]; [apply (Hd x Hx); left|done].
  - rewrite HP. rewrite !bind_Some_l. rewrite sig_bit_ok, bind_Some_l, Hk, bind_Some_l by done. unfold set_pending.
    rewrite Hk, !bind_Some_l. do 2 eexists. split; [done|]. split; [split; simpl|done]; try done.
    eexists. rewrite lookup_insert_eq, <-Hp. done.
Qed.

(** Sending a signal (1 to 63) to a task makes it pending and puts its info behind those
    that wait, and nothing else: no thread of the task is woken up, whatever its state, since
    the number of a blocked thread in [thread.h] is that of a running one in [sched.c]. *)
Theorem send_queues s t p xs l ys q sig i :
  waiting s t p xs l -> can_send s t xs ys q -> 1 <= sig <= 63 ->
  exists s', signal_send_info low_memory (Some t) sig (Some i) (Some q) s = Some (0, s') /\
    waiting s' t (Z.lor p (BIT (sig - 1))) (xs ++ [q]) (l ++ [i]) /\ sched s' = sched s.
Proof. intros HW HC Hs. destruct (send_ok s t p xs l ys q sig i HW HC Hs) as (s' & ? & ? & _ & _ & ?). eauto. Qed.

Lemma dequeue_thread_ok s t p xs l a st sig : waiting s t p xs l -> sigthreads s !! a = Some st -> task st = Some t ->
  let set := Z.land p (Z.lnot (signal_mask st)) in
  1 <= sig <= 63 -> member set sig = true -> (forall k, 1 <= k < sig -> member set k = false) ->
  exists s' xs', signal_dequeue_thread (Some a) true s = Some (sig, Some (taken sig l).1, s') /\
    waiting s' t (Z.land p (Z.lnot (BIT (sig - 1)))) xs' (taken sig l).2 /\ sched s' = sched s.
Proof.
  intros HW Hst Ht set Hs Hm Hk. pose proof HW as [(k & Ek & Ep) _ _]. unfold signal_dequeue_thread. simpl negb. cbv iota.
  rewrite Hst, bind_Some_l, Ht, Ek, bind_Some_l. unfold deliverable. rewrite Ep. fold set. rewrite (member_nonzero set sig Hm).
  rewrite (lowest_least set sig), bind_Some_l by (unfold SIGRTMAX; done || lia). unfold SIGRTMAX. destruct (Z.leb_spec 64 sig); [lia|].
  destruct (take_signal_ok s t p xs l sig HW Hs) as (s' & xs' & E & HW' & _ & Hsc). exists s', xs'. by rewrite E.
Qed.

(** C29: A thread receives the lowest pending signal that it does not block, with the oldest
    info that was sent with this number (or one made up when there is none); this info and
    the pending bit go, everything else stays. When all pending signals are blocked, there
    is none to receive. *)
Theorem dequeue_lowest_unblocked s t p xs l a st :
  waiting s t p xs l -> sigthreads s !! a = Some st -> task st = Some t ->
  let set := Z.land p (Z.lnot (signal_mask st)) in
  (set = 0 -> signal_dequeue_thread (Some a) true s = Some (- EAGAIN, None, s)) /\
  (forall sig, 1 <= sig <= 63 -> member set sig = true -> (forall k, 1 <= k < sig -> member set k = false) ->
   exists s' xs', signal_dequeue_thread (Some a) true s = Some (sig, Some (taken sig l).1, s') /\
     waiting s' t (Z.land p (Z.lnot (BIT (sig - 1)))) xs' (taken sig l).2 /\ sched s' = sched s).
Proof.
  intros HW Hst Ht set. split.
  - intros Hz. pose proof HW as [(k & Ek & Ep) _ _]. unfold signal_dequeue_thread. simpl negb. cbv iota.
    rewrite Hst, bind_Some_l, Ht, Ek, bind_Some_l. unfold deliverable. rewrite Ep. fold set. by rewrite Hz.
  - intros sig Hs Hm Hk. by apply (dequeue_thread_ok s t p xs l a st sig).
Qed.

(** A signal that was sent twice is received once: its second info stays in the queue without
    a pending bit and is only received when the signal is sent again. *)
Theorem second_instance_stuck s t xs i1 i2 a st sig :
  waiting s t (BIT (sig - 1)) xs [i1; i2] -> si_signo i1 = sig -> sigthreads s !! a = Some st -> task st = Some t -> signal_mask st = 0 ->
  1 <= sig <= 63 ->
  exists s' xs', signal_dequeue_thread (Some a) true s = Some (sig, Some i1, s') /\ waiting s' t 0 xs' [i2] /\
    signal_dequeue (Some t) true s' = Some (- EAGAIN, None, s').
Proof.
  intros HW Hi Hst Ht Hm Hs.
  destruct (dequeue_thread_ok s t (BIT (sig - 1)) xs [i1; i2] a st sig HW Hst Ht) as (s' & xs' & E & HW' & _).
  - done.
  - unfold member. rewrite Hm, Z.land_spec, Z.lnot_spec, Z.bits_0, BIT_spec by lia. by rewrite Z.eqb_refl.
  - intros k Hk. unfold member. rewrite Hm, Z.land_spec, BIT_spec by lia. destruct (Z.eqb_spec (sig - 1) (k - 1)); [lia|done].
  - unfold taken in *. simpl in *. rewrite Hi, Z.eqb_refl in E, HW'. simpl in E, HW'.
    replace (Z.land (BIT (sig - 1)) (Z.lnot (BIT (sig - 1)))) with 0 in HW' by (by rewrite <-Z.ldiff_land, Z.ldiff_diag).
    exists s', xs'. split; [done|]. split; [done|]. destruct HW' as [(k & Hk & Hp) _ _]. unfold signal_dequeue. simpl negb. cbv iota.
    by rewrite Hk, bind_Some_l, Hp.
Qed.

(** Waiting for a set of signals reports the lowest pending one of the set, but takes the lowest
    pending signal of all from the queue: when that is another one, it is lost, its info is
    handed out for the signal reported, and the signal reported stays pending. *)
Theorem wait_takes_other s t p xs l x y set :
  waiting s t p xs l -> 1 <= x < y -> y <= 63 ->
  member p x = true -> (forall k, 1 <= k < x -> member p k = false) ->
  member (Z.land p set) y = true -> (forall k, 1 <= k < y -> member set k = false) ->
  exists s' xs', poll t set true s = Some (Some (y, Some (taken x l).1), s') /\
    waiting s' t (Z.land p (Z.lnot (BIT (x - 1)))) xs' (taken x l).2 /\ member (Z.land p (Z.lnot (BIT (x - 1)))) y = true.
Proof.
  intros HW Hx Hy Hpx Hpk Hsy Hsk. pose proof HW as [(k & Ek & Ep) _ _]. unfold poll. rewrite Ek, bind_Some_l, Ep.
  rewrite (member_nonzero _ _ Hsy), (lowest_least _ y), bind_Some_l; [|unfold SIGRTMAX; lia|done|].
  2:{ intros j Hj. unfold member in *. by rewrite Z.land_spec, Hsk, andb_false_r. }
  unfold SIGRTMAX at 1. destruct (Z.leb_spec 64 y); [lia|]. unfold signal_dequeue. simpl negb. cbv iota. rewrite Ek, bind_Some_l, Ep.
  rewrite (member_nonzero _ _ Hpx), (lowest_least _ x), bind_Some_l; [|unfold SIGRTMAX; lia|done|done].
  unfold SIGRTMAX. destruct (Z.leb_spec 64 x); [lia|]. destruct (take_signal_ok s t p xs l x HW) as (s' & xs' & E & HW' & _); [lia|].
  rewrite E, bind_Some_l. destruct (Z.ltb_spec x 0); [lia|]. exists s', xs'. split; [done|]. split; [done|].
  unfold member in *. rewrite Z.land_spec in Hsy. apply andb_true_iff in Hsy as [Hsy _].
  rewrite Z.land_spec, Z.lnot_spec, BIT_spec, Hsy by lia. destruct (Z.eqb_spec (x - 1) (y - 1)); [lia|done].
Qed.

(** Signal 0 passes the check of every function, which then shifts by a negative number. *)
Theorem signal_zero_undefined t mem s : signal_send low_memory (Some t) 0 mem s = None.
Proof. done. Qed.

(** ** Masks and actions *)

Context (SIG_BLOCK SIG_UNBLOCK SIG_SETMASK : Z) (Hdistinct : NoDup [SIG_BLOCK; SIG_UNBLOCK; SIG_SETMASK]).

(** Blocking adds to the mask, unblocking takes from it, setting replaces it, and the old mask
    is handed out. No signal is exempt, [SIGKILL] and [SIGSTOP] included. *)
Theorem mask_changes s a st m sig :
  sigthreads s !! a = Some st -> 1 <= sig <= 63 ->
  let mask how := signal_mask_thread SIG_BLOCK SIG_UNBLOCK SIG_SETMASK (Some a) how (Some m) s in
  let changed r v := exists s', r = Some (0, Some (signal_mask st), s') /\ exists st', sigthreads s' !! a = Some st' /\
    member (signal_mask st') sig = v /\ sigactions st' = sigactions st /\ task st' = task st in
  changed (mask SIG_BLOCK) (member (signal_mask st) sig || member m sig) /\
  changed (mask SIG_UNBLOCK) (member (signal_mask st) sig && negb (member m sig)) /\
  changed (mask SIG_SETMASK) (member m sig).
Proof.
  intros Hst Hs mask changed. apply NoDup_cons in Hdistinct as [H1 [H2 _]%NoDup_cons].
  assert (SIG_UNBLOCK <> SIG_BLOCK /\ SIG_SETMASK <> SIG_BLOCK /\ SIG_SETMASK <> SIG_UNBLOCK) as (N1 & N2 & N3) by set_solver.
  unfold mask, changed, signal_mask_thread. rewrite Hst, bind_Some_l.
  destruct (Z.eqb_spec SIG_BLOCK SIG_BLOCK), (Z.eqb_spec SIG_UNBLOCK SIG_BLOCK), (Z.eqb_spec SIG_SETMASK SIG_BLOCK),
    (Z.eqb_spec SIG_UNBLOCK SIG_UNBLOCK), (Z.eqb_spec SIG_SETMASK SIG_UNBLOCK), (Z.eqb_spec SIG_SETMASK SIG_SETMASK); try done.
  unfold member. split; [|split]; eexists; (split; [done|]); eexists; simpl; rewrite lookup_insert_eq; (split; [done|]); simpl;
    rewrite ?Z.lor_spec, ?Z.land_spec, ?Z.lnot_spec by lia; done.
Qed.

(** The table of actions has an entry for every signal. *)
Definition actions_ok (st : sigthread) : Prop :=
  match sigactions st with Some acts => length acts = Z.to_nat SIGRTMAX | None => True end.

(** The action of a signal: the default as long as there is no table. *)
Definition action_of (st : sigthread) (k : Z) : option sigaction :=
  match sigactions st with Some acts => aget acts k | None => Some no_action end.

Lemma aget_repeat k : 0 <= k < SIGRTMAX -> aget (repeat no_action (Z.to_nat SIGRTMAX)) k = Some no_action.
Proof.
  intros Hk. destruct (aget_Some (repeat no_action (Z.to_nat SIGRTMAX)) k) as [x Hx]; [by rewrite repeat_length, Z2Nat.id by (unfold SIGRTMAX; lia)|].
  rewrite Hx. f_equal. unfold aget in Hx. destruct (k <? 0); [done|]. apply list_elem_of_lookup_2 in Hx.
  by apply list_elem_of_In, repeat_spec in Hx.
Qed.

(** An action that is set is the one that is read back, and the actions of all other
    signals stay what they were; the first action of a thread makes a table in which the
    others are the default. Only without memory for it nothing is set. *)
Theorem action_roundtrip s a st sig act mem :
  sigthreads s !! a = Some st -> actions_ok st -> 0 <= sig < SIGRTMAX -> (sigactions st = None -> mem <> None) ->
  exists s' st', signal_action_thread (Some a) sig (Some act) false mem s = Some (0, None, s') /\
    sigthreads s' !! a = Some st' /\ actions_ok st' /\
    forall k, 0 <= k < SIGRTMAX ->
      action_of st' k = (if decide (k = sig) then Some act else action_of st k) /\
      signal_action_thread (Some a) k None true None s' = Some (0, action_of st' k, s').
Proof.
  intros Hst Hok Hs Hmem.
  assert (forall k, 0 <= k < SIGRTMAX -> bad_signal k = false) as Hbad.
  { intros k Hk. unfold bad_signal, SIGRTMAX in *. destruct (Z.ltb_spec k 0), (Z.leb_spec 64 k); done || lia. }
  assert (exists acts, match sigactions st with
      | Some acts => Some acts
      | None => match mem with Some _ => Some (repeat no_action (Z.to_nat SIGRTMAX)) | None => None end
      end = Some acts /\ length acts = Z.to_nat SIGRTMAX /\ forall k, 0 <= k < SIGRTMAX -> aget acts k = action_of st k) as (acts & Ea & Hlen & Hget).
  { unfold actions_ok, action_of in *. destruct (sigactions st) as [acts|]; [eauto|]. destruct mem; [|by destruct Hmem].
    eexists. split; [done|]. split; [apply repeat_length|apply aget_repeat]. }
  assert (0 <= sig < Z.of_nat (length acts)) as Hr by (rewrite Hlen; unfold SIGRTMAX in *; lia).
  destruct (aset acts sig act) as [acts'|] eqn:E; [|by rewrite aset_Some in E].
  exists (with_sigthreads (<[a := with_actions acts' st]> (sigthreads s)) s), (with_actions acts' st).
  split; [|split; [apply lookup_insert_eq|split]].
  - unfold signal_action_thread. rewrite Hbad, Hst, bind_Some_l by done.
    replace (match sigactions st with Some acts => _ | None => _ end : option (option sigaction)) with (Some None : option (option sigaction))
      by (by destruct (sigactions st)).
    rewrite bind_Some_l, Ea, E. done.
  - unfold actions_ok. simpl. by rewrite (aset_length _ _ _ _ E).
  - intros k Hk. unfold action_of at 1 3. simpl. rewrite (aget_aset _ _ _ _ k E), Hget by done. split; [done|].
    unfold signal_action_thread. rewrite Hbad by done. simpl. rewrite lookup_insert_eq, bind_Some_l. simpl.
    rewrite (aget_aset _ _ _ _ k E), Hget by done. case_decide; [done|]. destruct (action_of st k) eqn:Ek; [done|].
    rewrite <-Hget in Ek by done. destruct (aget_Some acts k) as [x Hx]; [rewrite Hlen; unfold SIGRTMAX in *; lia|]. congruence.
Qed.

(** A timeout of one second is added, as a number of nanoseconds, to a time in microseconds:
    the thread is to be woken up after a thousand seconds. *)
Theorem timeout_unit now : 0 <= now < 2 ^ 63 -> wakeup_at now (1, 0) = now + 1000 * 1000000.
Proof. intros H. unfold wakeup_at. simpl. rewrite u64_small by lia. lia. Qed.

End Spec.

(** ** Examples *)

(** A task at 1000 with one thread at 76, blocked for the scheduler; signal 5 is pending and
    queued at 500. *)
Definition info5 : siginfo := mk_info 5 0 SI_QUEUE 7 0 42.

Definition one_pending : state :=
  mk_state
    (mk_heap (list_to_map [(1008, 500); (500, 1008); (1016, 100); (100, 1016)]) (list_to_map [(1008, 500); (500, 1008); (1016, 100); (100, 1016)]))
    {[500 := info5]} {[1000 := mk_task 16 (Some 76)]} {[76 := mk_st 0 None (Some 1000)]}
    (Sched.mk_state {[76 := Sched.mk_thread 1 1 Sched.THREAD_STATE_BLOCKED 0 0 100 100 100 5 0 0 0 None None]}
      (Sched.mk_rq 0 0 0 0 0 None None None None 0) (Sched.mk_rt true 950000 1000000 100 0 0 0 0 0 0)).

Lemma one_pending_waiting : waiting one_pending 1000 16 [500] [info5].
Proof.
  split.
  - by eexists.
  - split; [|by vm_compute]. repeat (apply NoDup_cons; split; [set_solver|]). apply NoDup_nil. done.
  - by repeat constructor.
Qed.

Lemma one_pending_members : members one_pending 1000 [100].
Proof.
  split.
  - split; [|by vm_compute]. repeat (apply NoDup_cons; split; [set_solver|]). apply NoDup_nil. done.
  - intros y ->%list_elem_of_singleton. split; by eexists.
Qed.

Lemma send_queues_witness :
  exists s, signal_send_info true (Some 1000) 3 (Some (kernel_info 3)) (Some 600) one_pending = Some (0, s) /\
    waiting s 1000 20 [500; 600] [info5; kernel_info 3] /\ sched s = sched one_pending.
Proof.
  destruct (send_queues true one_pending 1000 16 [500] [info5] [100] 600 3 (kernel_info 3) one_pending_waiting) as (s & E & HW & Hs).
  - split; [exact one_pending_members|]. split; [unfold pending_list, threads_list; set_solver by lia|]. split; [reflexivity|].
    unfold pending_list, threads_list. intros x. set_solver by lia.
  - lia.
  - exists s. split; [exact E|]. split; [exact HW|exact Hs].
Defined.

Lemma dequeue_lowest_unblocked_witness :
  exists s xs, signal_dequeue_thread (Some 76) true one_pending = Some (5, Some info5, s) /\ waiting s 1000 0 xs [].
Proof.
  destruct (dequeue_lowest_unblocked one_pending 1000 16 [500] [info5] 76 (mk_st 0 None (Some 1000)) one_pending_waiting)
    as [_ H]; [reflexivity|reflexivity|]. destruct (H 5) as (s & xs & E & HW & _).
  - lia.
  - reflexivity.
  - intros k Hk. assert (k = 1 \/ k = 2 \/ k = 3 \/ k = 4) as [->|[->|[->| ->]]] by lia; reflexivity.
  - exists s, xs. split; [exact E|exact HW].
Defined.

Lemma action_roundtrip_witness :
  exists s, signal_action_thread (Some 76) 15 (Some (mk_act 7 0 0 0)) false (Some 800) one_pending = Some (0, None, s) /\
    signal_action_thread (Some 76) 15 None true None s = Some (0, Some (mk_act 7 0 0 0), s) /\
    signal_action_thread (Some 76) 16 None true None s = Some (0, Some no_action, s).
Proof.
  destruct (action_roundtrip one_pending 76 (mk_st 0 None (Some 1000)) 15 (mk_act 7 0 0 0) (Some 800)) as (s & st & E & _ & _ & H);
    [reflexivity|exact I|unfold SIGRTMAX; lia|discriminate|].
  destruct (H 15) as [E1 E2]; [unfold SIGRTMAX; lia|]. destruct (H 16) as [E3 E4]; [unfold SIGRTMAX; lia|].
  rewrite E1 in E2. rewrite E3 in E4. exists s. split; [exact E|]. split; [exact E2|exact E4].
Defined.

End SignalSpec.
