(* ===== verification/Device.v ===== *)
(** The device model: [kernel/device/device.c] with [include/horizon/device.h]. Devices,
    drivers, buses and classes are structures of the callers that this code links into
    each other's lists; it allocates nothing. *)

From S2P Require Import Prelude KList Links CStr.

Module Device.
Import KList Links CStr.

Definition EEXIST : Z := 17.
Definition ENODEV : Z := 19.
Definition EINVAL : Z := 22.

(** ** Data *)

Inductive device_state := DEVICE_STATE_DISABLED | DEVICE_STATE_ENABLED | DEVICE_STATE_SUSPENDED | DEVICE_STATE_ERROR.

(** The list nodes inside the structures, and the one of [device_list] itself. *)
Inductive field :=
  | DeviceList
  | BusDrivers | BusDevices
  | ClassDevices
  | DriverDevices | DriverBusList
  | DriverList | BusList | ClassList | Children | Siblings.

Definition field_offset (f : field) : Z :=
  match f with
  | DeviceList => 0
  | BusDrivers => 36 | BusDevices => 44
  | ClassDevices => 40
  | DriverDevices => 40 | DriverBusList => 48
  | DriverList => 92 | BusList => 100 | ClassList => 108 | Children => 124 | Siblings => 132
  end.

#[global] Instance device_fields : Fields field := { offset := field_offset }.

(** The structures without their list nodes. A null pointer is [None]; the tables of
    function pointers are addresses. *)
Record bus_type := mk_bus { bus_name : list Z; bus_ops : option Z; bus_next : option Z }.
Record device_class := mk_class { class_name : list Z; class_type : Z; class_ops : option Z; class_next : option Z }.
Record device_driver := mk_driver { drv_name : list Z; drv_bus : option Z; drv_ops : option Z; drv_private : Z }.
Record device := mk_device {
  name : list Z; class : option Z; driver : option Z; bus : option Z; state : device_state;
  major : Z; minor : Z; ops : option Z; private_data : Z; parent : option Z
}.

Definition with_bus_next (n : option Z) (b : bus_type) : bus_type := mk_bus (bus_name b) (bus_ops b) n.
Definition with_class_next (n : option Z) (c : device_class) : device_class :=
  mk_class (class_name c) (class_type c) (class_ops c) n.
Definition with_drv_bus (b : option Z) (v : device_driver) : device_driver :=
  mk_driver (drv_name v) b (drv_ops v) (drv_private v).
Definition with_class (c : option Z) (d : device) : device :=
  mk_device (name d) c (driver d) (bus d) (state d) (major d) (minor d) (ops d) (private_data d) (parent d).
Definition with_driver (v : option Z) (d : device) : device :=
  mk_device (name d) (class d) v (bus d) (state d) (major d) (minor d) (ops d) (private_data d) (parent d).
Definition with_bus (b : option Z) (d : device) : device :=
  mk_device (name d) (class d) (driver d) b (state d) (major d) (minor d) (ops d) (private_data d) (parent d).
Definition with_state (x : device_state) (d : device) : device :=
  mk_device (name d) (class d) (driver d) (bus d) x (major d) (minor d) (ops d) (private_data d) (parent d).

(** Buses and classes are in null-terminated lists, walked in the same two ways: to find a
    name, and to find the one in front of a given one. *)
Section Chains.
Context {A : Type} (nm : A -> list Z) (nxt : A -> option Z).

Fixpoint find_named (fuel : nat) (n : list Z) (m : gmap Z A) (p : option Z) : option (option Z) :=
  match fuel with
  | O => None
  | S fuel =>
      match p with
      | None => Some None
      | Some a => x ← m !! a; r ← strcmp (nm x) n; if r =? 0 then Some p else find_named fuel n m (nxt x)
      end
  end.

(** [while (prev != NULL && prev->next != b) prev = prev->next;] *)
Fixpoint find_prev (fuel : nat) (b : Z) (m : gmap Z A) (prev : option Z) : option (option Z) :=
  match fuel with
  | O => None
  | S fuel =>
      match prev with
      | None => Some None
      | Some p => x ← m !! p; if bool_decide (nxt x = Some b) then Some prev else find_prev fuel b m (nxt x)
      end
  end.
End Chains.

Section World.
(** What the functions behind the pointers can change besides the registry. *)
Context {W : Type}.

Record registry := mk_registry {
  nodes : heap;
  devices : gmap Z device;
  drivers : gmap Z device_driver;
  buses : gmap Z bus_type;
  classes : gmap Z device_class;
  bus_list : option Z;
  class_list : option Z;
  outside : W
}.

Definition with_nodes (h : heap) (s : registry) : registry :=
  mk_registry h (devices s) (drivers s) (buses s) (classes s) (bus_list s) (class_list s) (outside s).
Definition with_devices (m : gmap Z device) (s : registry) : registry :=
  mk_registry (nodes s) m (drivers s) (buses s) (classes s) (bus_list s) (class_list s) (outside s).
Definition with_drivers (m : gmap Z device_driver) (s : registry) : registry :=
  mk_registry (nodes s) (devices s) m (buses s) (classes s) (bus_list s) (class_list s) (outside s).
Definition with_buses (m : gmap Z bus_type) (l : option Z) (s : registry) : registry :=
  mk_registry (nodes s) (devices s) (drivers s) m (classes s) l (class_list s) (outside s).
Definition with_classes (m : gmap Z device_class) (l : option Z) (s : registry) : registry :=
  mk_registry (nodes s) (devices s) (drivers s) (buses s) m (bus_list s) l (outside s).
Definition with_outside (w : W) (s : registry) : registry :=
  mk_registry (nodes s) (devices s) (drivers s) (buses s) (classes s) (bus_list s) (class_list s) w.

(** A field of a structure is written; a bad pointer is a fault. *)
Definition update_device (f : device -> device) (d : Z) (s : registry) : option registry :=
  x ← devices s !! d; Some (with_devices (<[d := f x]> (devices s)) s).
Definition update_driver (f : device_driver -> device_driver) (v : Z) (s : registry) : option registry :=
  x ← drivers s !! v; Some (with_drivers (<[v := f x]> (drivers s)) s).

(** A step on the list nodes. *)
Definition on_nodes (f : heap -> option heap) (s : registry) : option registry :=
  h ← f (nodes s); Some (with_nodes h s).

(** ** Functions behind pointers *)

Definition callback : Type := Z -> registry -> option (Z * registry).

Record device_operations := mk_dev_ops {
  dev_probe : option callback; dev_remove : option callback; dev_suspend : option callback;
  dev_resume : option callback; dev_shutdown : option callback
}.
Record driver_operations := mk_drv_ops {
  drv_probe : option callback; drv_remove : option callback; drv_suspend : option callback;
  drv_resume : option callback; drv_shutdown : option callback
}.
Record bus_operations := mk_bus_ops {
  bus_match : option (Z -> callback); bus_probe : option callback; bus_remove : option callback;
  bus_suspend : option callback; bus_resume : option callback; bus_shutdown : option callback
}.
Record class_operations := mk_class_ops { dev_create : option callback; dev_destroy : option callback }.

(** The contents of the tables, by their addresses. *)
Record tables := mk_tables {
  device_ops : Z -> device_operations;
  driver_ops : Z -> driver_operations;
  bus_type_ops : Z -> bus_operations;
  device_class_ops : Z -> class_operations
}.

(** [if (f != NULL) f(d);] *)
Definition call (f : option callback) (d : Z) (s : registry) : option registry :=
  match f with None => Some s | Some f => r ← f d s; Some r.2 end.

Section Registry.
Context (device_list : Z) (T : tables).

(** Enough for a walk over devices, drivers, buses or classes. *)
Definition device_fuel (s : registry) : nat := S (size (devices s)).
Definition driver_fuel (s : registry) : nat := S (size (drivers s)).
Definition bus_fuel (s : registry) : nat := S (size (buses s)).
Definition class_fuel (s : registry) : nat := S (size (classes s)).

(** ** Devices *)

Definition device_init (s : registry) : option registry := on_nodes (list_init device_list) s.

Definition find_device (test : device -> option bool) (s : registry) : option (option Z) :=
  r ← list_for_each_entry (device_fuel s) (fun p => d ← devices s !! list_entry p Siblings; test d) device_list (nodes s);
  Some (option_map (fun p => list_entry p Siblings) r).

Definition device_find_by_name (n : option (list Z)) (s : registry) : option (option Z) :=
  match n with
  | None => Some None
  | Some n => find_device (fun d => r ← strcmp (name d) n; Some (r =? 0)) s
  end.

Definition device_find_by_devnum (ma mi : Z) (s : registry) : option (option Z) :=
  find_device (fun d => Some ((major d =? ma) && (minor d =? mi))) s.

(** [if (o != NULL) list_add(&a->f, &o->g);] *)
Definition add_to (a : Z) (f : field) (o : option Z) (g : field) (s : registry) : option registry :=
  match o with None => Some s | Some b => on_nodes (list_add (addr a f) (addr b g)) s end.

(** [if (o != NULL) list_del(&a->f);] *)
Definition del_from (a : Z) (f : field) (o : option Z) (s : registry) : option registry :=
  match o with None => Some s | Some _ => on_nodes (list_del (addr a f)) s end.

(** The part before the lock is taken the second time. *)
Definition register_check (d : Z) (s : registry) : option (option Z) :=
  x ← devices s !! d; device_find_by_name (Some (name x)) s.

(** The lists of the device are initialised. *)
Definition register_init (d : Z) (s : registry) : option registry :=
  s ← on_nodes (list_init (addr d DriverList)) s;
  s ← on_nodes (list_init (addr d BusList)) s;
  s ← on_nodes (list_init (addr d ClassList)) s;
  s ← on_nodes (list_init (addr d Children)) s;
  on_nodes (list_init (addr d Siblings)) s.

(** All behind the check. *)
Definition register_rest (d : Z) (s : registry) : option registry :=
  s ← register_init d s;
  s ← update_device (with_state DEVICE_STATE_DISABLED) d s;
  s ← on_nodes (list_add (addr d Siblings) device_list) s;
  x ← devices s !! d;
  s ← add_to d Siblings (parent x) Children s;
  s ← add_to d BusList (bus x) BusDevices s;
  s ← add_to d ClassList (class x) ClassDevices s;
  s ← add_to d DriverList (driver x) DriverDevices s;
  s ← call (o ← ops x; dev_probe (device_ops T o)) d s;
  update_device (with_state DEVICE_STATE_ENABLED) d s.

Definition device_register (dev : option Z) (s : registry) : option (Z * registry) :=
  match dev with
  | None => Some (- EINVAL, s)
  | Some d =>
      existing ← register_check d s;
      match existing with
      | Some _ => Some (- EEXIST, s)
      | None => s ← register_rest d s; Some (0, s)
      end
  end.

Definition device_unregister (dev : option Z) (s : registry) : option (Z * registry) :=
  match dev with
  | None => Some (- EINVAL, s)
  | Some d =>
      s ← update_device (with_state DEVICE_STATE_DISABLED) d s;
      x ← devices s !! d;
      s ← call (o ← ops x; dev_remove (device_ops T o)) d s;
      s ← on_nodes (list_del (addr d Siblings)) s;
      x ← devices s !! d;
      s ← del_from d Siblings (parent x) s;
      s ← del_from d BusList (bus x) s;
      s ← del_from d ClassList (class x) s;
      s ← del_from d DriverList (driver x) s;
      Some (0, s)
  end.

(** ** Buses *)

Definition bus_find_by_name (n : option (list Z)) (s : registry) : option (option Z) :=
  match n with None => Some None | Some n => find_named bus_name bus_next (bus_fuel s) n (buses s) (bus_list s) end.

Definition bus_register (bus : option Z) (s : registry) : option (Z * registry) :=
  match bus with
  | None => Some (- EINVAL, s)
  | Some b =>
      x ← buses s !! b;
      existing ← bus_find_by_name (Some (bus_name x)) s;
      match existing with
      | Some _ => Some (- EEXIST, s)
      | None =>
          s ← on_nodes (list_init (addr b BusDrivers)) s;
          s ← on_nodes (list_init (addr b BusDevices)) s;
          Some (0, with_buses (<[b := with_bus_next (bus_list s) x]> (buses s)) (Some b) s)
      end
  end.

Definition bus_unregister (bus : option Z) (s : registry) : option (Z * registry) :=
  match bus with
  | None => Some (- EINVAL, s)
  | Some b =>
      x ← buses s !! b;
      if bool_decide (bus_list s = Some b) then Some (0, with_buses (buses s) (bus_next x) s)
      else
        prev ← find_prev bus_next (bus_fuel s) b (buses s) (bus_list s);
        match prev with
        | None => Some (0, s)
        | Some p => y ← buses s !! p; Some (0, with_buses (<[p := with_bus_next (bus_next x) y]> (buses s)) (bus_list s) s)
        end
  end.

Definition bus_add_device (bus dev : option Z) (s : registry) : option (Z * registry) :=
  match bus, dev with
  | Some b, Some d =>
      s ← update_device (with_bus (Some b)) d s;
      s ← on_nodes (list_add (addr d BusList) (addr b BusDevices)) s;
      Some (0, s)
  | _, _ => Some (- EINVAL, s)
  end.

Definition bus_remove_device (bus' dev : option Z) (s : registry) : option (Z * registry) :=
  match bus', dev with
  | Some b, Some d =>
      x ← devices s !! d;
      if negb (bool_decide (bus x = Some b)) then Some (- EINVAL, s)
      else
        s ← on_nodes (list_del (addr d BusList)) s;
        s ← update_device (with_bus None) d s;
        Some (0, s)
  | _, _ => Some (- EINVAL, s)
  end.

Definition bus_add_driver (bus drv : option Z) (s : registry) : option (Z * registry) :=
  match bus, drv with
  | Some b, Some v =>
      s ← update_driver (with_drv_bus (Some b)) v s;
      s ← on_nodes (list_add (addr v DriverBusList) (addr b BusDrivers)) s;
      Some (0, s)
  | _, _ => Some (- EINVAL, s)
  end.

Definition bus_remove_driver (bus drv : option Z) (s : registry) : option (Z * registry) :=
  match bus, drv with
  | Some b, Some v =>
      x ← drivers s !! v;
      if negb (bool_decide (drv_bus x = Some b)) then Some (- EINVAL, s)
      else
        s ← on_nodes (list_del (addr v DriverBusList)) s;
        s ← update_driver (with_drv_bus None) v s;
        Some (0, s)
  | _, _ => Some (- EINVAL, s)
  end.

(** [dev->driver = drv; list_add(&dev->driver_list, &drv->devices);] *)
Definition attach (v d : Z) (s : registry) : option registry :=
  s ← update_device (with_driver (Some v)) d s;
  on_nodes (list_add (addr d DriverList) (addr v DriverDevices)) s.

(** The function [drv->ops->probe], if there is one. *)
Definition probe_of (v : Z) (s : registry) : option (option callback) :=
  x ← drivers s !! v; Some (o ← drv_ops x; drv_probe (driver_ops T o)).

(** The function [bus->ops->match], if there is one. *)
Definition match_of (b : Z) (s : registry) : option (option (Z -> callback)) :=
  x ← buses s !! b; Some (o ← bus_ops x; bus_match (bus_type_ops T o)).

Fixpoint match_loop (fuel : nat) (b d pos : Z) (s : registry) : option (Z * registry) :=
  match fuel with
  | O => None
  | S fuel =>
      if pos =? addr b BusDrivers then Some (- ENODEV, s)
      else
        let v := list_entry pos DriverBusList in
        m ← match_of b s;
        r ← match m with Some m => r ← m v d s; Some (r.1 =? 0, r.2) | None => Some (false, s) end;
        let '(hit, s) := (r : bool * registry) in
        if hit then
          s ← attach v d s; p ← probe_of v s; s ← call p d s; Some (0, s)
        else pos ← next (nodes s) !! pos; match_loop fuel b d pos s
  end.

Definition bus_match_device (bus' dev : option Z) (s : registry) : option (Z * registry) :=
  match bus', dev with
  | Some b, Some d =>
      x ← devices s !! d;
      if negb (bool_decide (bus x = Some b)) then Some (- EINVAL, s)
      else pos ← next (nodes s) !! addr b BusDrivers; match_loop (driver_fuel s) b d pos s
  | _, _ => Some (- EINVAL, s)
  end.

(** ** Drivers *)

(** The drivers of one bus after the other. *)
Fixpoint find_driver (fuel : nat) (n : list Z) (b : option Z) (s : registry) : option (option Z) :=
  match fuel with
  | O => None
  | S fuel =>
      match b with
      | None => Some None
      | Some a =>
          x ← buses s !! a;
          r ← list_for_each_entry (driver_fuel s)
                (fun p => v ← drivers s !! list_entry p DriverBusList; r ← strcmp (drv_name v) n; Some (r =? 0))
                (addr a BusDrivers) (nodes s);
          match r with
          | Some p => Some (Some (list_entry p DriverBusList))
          | None => find_driver fuel n (bus_next x) s
          end
      end
  end.

Definition driver_find_by_name (n : option (list Z)) (s : registry) : option (option Z) :=
  match n with None => Some None | Some n => find_driver (bus_fuel s) n (bus_list s) s end.

Definition driver_register (drv : option Z) (s : registry) : option (Z * registry) :=
  match drv with
  | None => Some (- EINVAL, s)
  | Some v =>
      x ← drivers s !! v;
      existing ← driver_find_by_name (Some (drv_name x)) s;
      match existing with
      | Some _ => Some (- EEXIST, s)
      | None =>
          s ← on_nodes (list_init (addr v DriverDevices)) s;
          s ← on_nodes (list_init (addr v DriverBusList)) s;
          match drv_bus x with
          | None => Some (0, s)
          | Some b => r ← bus_add_driver (Some b) (Some v) s; Some (0, r.2)
          end
      end
  end.

(** [list_for_each_entry_safe] over the devices of the driver: [list_del] of each, and its
    [driver] becomes null. *)
Definition forget_driver (ds : gmap Z device) (p : Z) : option (gmap Z device) :=
  x ← ds !! list_entry p DriverList; Some (<[list_entry p DriverList := with_driver None x]> ds).

Fixpoint forget_all (ds : gmap Z device) (ps : list Z) : option (gmap Z device) :=
  match ps with [] => Some ds | p :: ps => ds ← forget_driver ds p; forget_all ds ps end.

Definition driver_unregister (drv : option Z) (s : registry) : option (Z * registry) :=
  match drv with
  | None => Some (- EINVAL, s)
  | Some v =>
      x ← drivers s !! v;
      s ← match drv_bus x with
          | None => Some s
          | Some b => r ← bus_remove_driver (Some b) (Some v) s; Some r.2
          end;
      r ← list_clear (device_fuel s) (addr v DriverDevices) (nodes s);
      ds ← forget_all (devices s) r.1;
      Some (0, with_devices ds (with_nodes r.2 s))
  end.

Definition driver_add_device (drv dev : option Z) (s : registry) : option (Z * registry) :=
  match drv, dev with
  | Some v, Some d => s ← attach v d s; Some (0, s)
  | _, _ => Some (- EINVAL, s)
  end.

Definition driver_remove_device (drv dev : option Z) (s : registry) : option (Z * registry) :=
  match drv, dev with
  | Some v, Some d =>
      x ← devices s !! d;
      if negb (bool_decide (driver x = Some v)) then Some (- EINVAL, s)
      else
        s ← on_nodes (list_del (addr d DriverList)) s;
        s ← update_device (with_driver None) d s;
        Some (0, s)
  | _, _ => Some (- EINVAL, s)
  end.

(** The function [drv->bus->ops->match], if there is one. *)
Definition driver_match (x : device_driver) (s : registry) : option (option (Z -> callback)) :=
  match drv_bus x with None => Some None | Some b => match_of b s end.

(** Its answer; without a function every driver fits. *)
Definition ask (m : option (Z -> callback)) (v d : Z) (s : registry) : option (Z * registry) :=
  match m with Some m => m v d s | None => Some (0, s) end.

Definition driver_probe_device (drv dev : option Z) (s : registry) : option (Z * registry) :=
  match drv, dev with
  | Some v, Some d =>
      x ← drivers s !! v;
      m ← driver_match x s;
      r ← ask m v d s;
      let '(c, s) := (r : Z * registry) in
      if negb (c =? 0) then Some (- ENODEV, s)
      else
        s ← attach v d s;
        p ← probe_of v s;
        match p with Some p => p d s | None => Some (0, s) end
  | _, _ => Some (- EINVAL, s)
  end.

(** ** Classes *)

Definition class_find_by_name (n : option (list Z)) (s : registry) : option (option Z) :=
  match n with None => Some None | Some n => find_named class_name class_next (class_fuel s) n (classes s) (class_list s) end.

Definition class_register (class : option Z) (s : registry) : option (Z * registry) :=
  match class with
  | None => Some (- EINVAL, s)
  | Some c =>
      x ← classes s !! c;
      existing ← class_find_by_name (Some (class_name x)) s;
      match existing with
      | Some _ => Some (- EEXIST, s)
      | None =>
          s ← on_nodes (list_init (addr c ClassDevices)) s;
          Some (0, with_classes (<[c := with_class_next (class_list s) x]> (classes s)) (Some c) s)
      end
  end.

Definition class_unregister (class : option Z) (s : registry) : option (Z * registry) :=
  match class with
  | None => Some (- EINVAL, s)
  | Some c =>
      x ← classes s !! c;
      if bool_decide (class_list s = Some c) then Some (0, with_classes (classes s) (class_next x) s)
      else
        prev ← find_prev class_next (class_fuel s) c (classes s) (class_list s);
        match prev with
        | None => Some (0, s)
        | Some p => y ← classes s !! p; Some (0, with_classes (<[p := with_class_next (class_next x) y]> (classes s)) (class_list s) s)
        end
  end.

Definition class_add_device (class dev : option Z) (s : registry) : option (Z * registry) :=
  match class, dev with
  | Some c, Some d =>
      s ← update_device (with_class (Some c)) d s;
      s ← on_nodes (list_add (addr d ClassList) (addr c ClassDevices)) s;
      y ← classes s !! c;
      s ← call (o ← class_ops y; dev_create (device_class_ops T o)) d s;
      Some (0, s)
  | _, _ => Some (- EINVAL, s)
  end.

Definition class_remove_device (class' dev : option Z) (s : registry) : option (Z * registry) :=
  match class', dev with
  | Some c, Some d =>
      x ← devices s !! d;
      if negb (bool_decide (class x = Some c)) then Some (- EINVAL, s)
      else
        y ← classes s !! c;
        s ← call (o ← class_ops y; dev_destroy (device_class_ops T o)) d s;
        s ← on_nodes (list_del (addr d ClassList)) s;
        s ← update_device (with_class None) d s;
        Some (0, s)
  | _, _ => Some (- EINVAL, s)
  end.

End Registry.
End World.
Arguments registry W : clear implicits.
Arguments tables W : clear implicits.

End Device.
