(* ===== verification/DeviceSpec.v ===== *)
(** The device model as a specification: sequences of structures instead of linked nodes.
    Every operation of [Device] that its caller may use in the state at hand returns what
    the operation on sequences returns. *)

From S2P Require Import Prelude KList Links SList CStr Device.

Module DeviceSpec.
Import KList Links CStr Device.

#[global] Instance field_eq_dec : EqDecision field.
Proof. solve_decision. Defined.

Definition fields : list field :=
  [DeviceList; BusDrivers; BusDevices; ClassDevices; DriverDevices; DriverBusList; DriverList; BusList; ClassList; Children; Siblings].

#[global] Program Instance field_countable : Countable field := {|
  encode f := encode (default 0%nat (fst <$> list_find (eq f) fields));
  decode p := decode p ≫= fun n => fields !! (n : nat)
|}.
Next Obligation. by intros []. Qed.

(** The field by which a structure hangs in a list, for the five kinds of list heads. *)
Definition field_member (f : field) : option field :=
  match f with
  | DeviceList => Some Siblings
  | BusDrivers => Some DriverBusList
  | BusDevices => Some BusList
  | ClassDevices => Some ClassList
  | DriverDevices => Some DriverList
  | _ => None
  end.

#[global] Program Instance device_linked : Linked field := { member := field_member }.
Next Obligation. by intros [] m [= <-]. Qed.
Next Obligation. by intros [] [] m [= <-]. Qed.

#[local] Arguments bus_find_by_name : simpl never.
#[local] Arguments class_find_by_name : simpl never.
#[local] Arguments bus_add_driver : simpl never.
#[local] Arguments bus_remove_driver : simpl never.

Lemma alter_insert {A} (g : A -> A) (k : field * Z) (m : gmap (field * Z) A) x :
  m !! k = Some x -> alter g k m = <[k := g x]> m.
Proof.
  intros E. apply map_eq. intros j. destruct (decide (j = k)) as [->|]; [by rewrite lookup_alter_eq, lookup_insert_eq, E|].
  by rewrite lookup_alter_ne, lookup_insert_ne.
Qed.

Lemma alter_is_Some `{Countable K} {A} (g : A -> A) (k j : K) (m : gmap K A) : is_Some (alter g k m !! j) <-> is_Some (m !! j).
Proof.
  destruct (decide (k = j)) as [->|]; [|by rewrite lookup_alter_ne]. by rewrite lookup_alter_eq, fmap_is_Some.
Qed.

(** ** Null-terminated lists of names *)

(** Names with the tables of their owners. *)
Definition terminated (m : gmap Z (list Z * option Z)) : Prop := map_Forall (fun _ x => 0 ∈ x.1) m.

Definition v_named (info : gmap Z (list Z * option Z)) (l : list Z) (n : list Z) : option Z :=
  List.find (fun a => match info !! a with Some i => bool_decide (cstr i.1 = cstr n) | None => false end) l.

Section Chains.
Context {A : Type} (nm : A -> list Z) (op : A -> option Z) (nxt : A -> option Z) (put : option Z -> A -> A).
Context (nxt_put : forall o x, nxt (put o x) = o).
Implicit Types (m : gmap Z A) (l : list Z) (b : Z).
Notation info m := ((fun x => (nm x, op x)) <$> m).

Lemma find_named_ok fuel n m p l : SList.chain nxt m p l -> terminated (info m) -> 0 ∈ n -> (length l < fuel)%nat ->
  find_named nm nxt fuel n m p = Some (v_named (info m) l n).
Proof.
  intros Hl Ht Hn. revert p fuel Hl. induction l as [|a l IH]; intros p [|fuel] Hl Hf; simpl in Hf; try lia; [by rewrite Hl|].
  destruct Hl as [-> (x & Hx & Hl)]. unfold v_named. simpl. rewrite lookup_fmap, Hx. simpl.
  destruct (strcmp_cstr (nm x) n) as (r & -> & Hr); [|done|].
  - apply (Ht a (nm x, op x)). by rewrite lookup_fmap, Hx.
  - simpl. rewrite Hr. case_bool_decide; [done|]. apply IH; [done|lia].
Qed.

Lemma find_prev_none fuel b m p l : SList.chain nxt m p l -> b ∉ l -> (length l < fuel)%nat -> find_prev nxt fuel b m p = Some None.
Proof using Type.
  clear nm op put nxt_put.
  revert p fuel. induction l as [|a l IH]; intros p [|fuel] Hl Hb Hf; simpl in Hf; try lia; [by rewrite Hl|].
  destruct Hl as [-> (x & Hx & Hl)]. simpl. rewrite Hx. simpl. rewrite bool_decide_false.
  - apply IH; [done|by apply not_elem_of_cons in Hb as [_ ?]|lia].
  - intros E'. rewrite E' in Hl. destruct l as [|c l]; [done|]. destruct Hl as [[= <-] _]. apply Hb. right. left.
Qed.

Lemma find_prev_some fuel b m p l1 q l2 : SList.chain nxt m p (l1 ++ q :: b :: l2) -> (length l1 < fuel)%nat ->
  find_prev nxt fuel b m p = Some (Some q).
Proof using Type.
  clear nm op put nxt_put.
  revert p fuel. induction l1 as [|a l1 IH]; intros p [|fuel] Hl Hf; simpl in Hf; try lia; destruct (Hl) as [-> (x & Hx & Hl')]; simpl; rewrite Hx; simpl.
  - destruct Hl' as [-> _]. by rewrite bool_decide_true.
  - rewrite bool_decide_false; [apply IH; [done|lia]|]. intros E'. pose proof (SList.chain_NoDup _ _ _ _ Hl) as Hnd.
    rewrite E' in Hl'. destruct l1 as [|c l1]; destruct Hl' as [[= <-] _]; apply NoDup_cons in Hnd as [_ Hnd]; apply NoDup_cons in Hnd as [Hnd _];
      apply Hnd; rewrite ?elem_of_app, !elem_of_cons; tauto.
Qed.

(** Taking [b] out of the list, where the code finds it. *)
Lemma chain_first m p l b x : SList.chain nxt m p l -> p = Some b -> m !! b = Some x -> SList.chain nxt m (nxt x) (without b l).
Proof.
  intros Hl -> Hx. pose proof (SList.chain_NoDup _ _ _ _ Hl) as Hnd. destruct l as [|c l]; [done|]. destruct Hl as [[= <-] (y & Hy & Hl)]. simplify_eq.
  pose proof (without_split b [] l Hnd) as Ew. cbn [app] in Ew. rewrite Ew. done.
Qed.

Lemma chain_later m p l b x fuel : SList.chain nxt m p l -> p <> Some b -> m !! b = Some x -> b ∈ l -> (length l < fuel)%nat ->
  exists q y, find_prev nxt fuel b m p = Some (Some q) /\ m !! q = Some y /\
    SList.chain nxt (<[q := put (nxt x) y]> m) p (without b l).
Proof using nxt_put.
  clear nm op.
  intros Hl Hp Hx Hb Hf. pose proof (SList.chain_NoDup _ _ _ _ Hl) as Hnd. apply list_elem_of_split in Hb as (l1 & l2 & ->).
  destruct l1 as [|q l1 _] using rev_ind; [by destruct Hl|]. rewrite <-app_assoc in *. simpl in *.
  destruct (SList.chain_dom _ _ _ _ q Hl) as [y Hy]; [rewrite elem_of_app, elem_of_cons; tauto|]. exists q, y. split; [|split; [done|]].
  - apply (find_prev_some fuel b m p l1 q l2); [done|]. rewrite length_app in Hf. lia.
  - rewrite (cons_middle q l1 (b :: l2)), app_assoc, without_split by (by rewrite <-app_assoc). rewrite <-app_assoc. simpl.
    eapply SList.chain_relink; [done|done| |].
    + rewrite nxt_put. eapply (SList.chain_behind nxt m p (l1 ++ [q]) b x l2); [|done]. by rewrite <-app_assoc.
    + apply NoDup_app in Hnd as (_ & _ & Hnd). apply NoDup_cons in Hnd as [Hnd _]. by apply not_elem_of_cons in Hnd as [_ ?].
Qed.

Lemma info_put m b x o : info m !! b = Some (nm x, op x) -> nm (put o x) = nm x -> op (put o x) = op x -> info (<[b := put o x]> m) = info m.
Proof. intros Hx Hn Ho. rewrite fmap_insert, Hn, Ho. by apply insert_id. Qed.

Lemma chain_push m p l b x : SList.chain nxt m p l -> b ∉ l -> SList.chain nxt (<[b := put p x]> m) (Some b) (b :: l).
Proof.
  intros Hl Hb. split; [done|]. exists (put p x). rewrite lookup_insert_eq. split; [done|]. rewrite nxt_put. by apply SList.chain_insert.
Qed.

Lemma named_not_in m l b x : m !! b = Some x -> v_named (info m) l (nm x) = None -> b ∉ l.
Proof.
  intros Hx Hf Hin. pose proof (List.find_none _ _ Hf b) as Hn. cbv beta in Hn. rewrite lookup_fmap, Hx in Hn. simpl in Hn.
  rewrite bool_decide_true in Hn by done. discriminate Hn. by apply list_elem_of_In.
Qed.

Lemma named_fuel m p l : SList.chain nxt m p l -> (length l < S (size m))%nat.
Proof. intros Hl%SList.chain_size. lia. Qed.
End Chains.
Section Spec.
Context {W : Type}.
Implicit Types (s : registry W) (d a b c : Z) (f : field).

(** ** The functions behind the pointers *)

(** They may do anything outside the registry. *)
Notation effect := (Z -> W -> Z * W).

Record effects := mk_effects {
  e_probe : Z -> option effect; e_remove : Z -> option effect; e_drv_probe : Z -> option effect;
  e_match : Z -> option (Z -> effect); e_create : Z -> option effect; e_destroy : Z -> option effect
}.

Definition lift (g : effect) : callback := fun d s => let r := g d (outside s) in Some (r.1, with_outside r.2 s).

Definition tables_of (E : effects) : tables W := mk_tables
  (fun o => mk_dev_ops (option_map lift (e_probe E o)) (option_map lift (e_remove E o)) None None None)
  (fun o => mk_drv_ops (option_map lift (e_drv_probe E o)) None None None None)
  (fun o => mk_bus_ops (option_map (fun m v => lift (m v)) (e_match E o)) None None None None None)
  (fun o => mk_class_ops (option_map lift (e_create E o)) (option_map lift (e_destroy E o))).

(** ** Abstract states *)

(** Which structures are in which list, in order; the registered buses and classes; and
    the fields of devices and drivers. *)
Record view := mk_view {
  v_links : gmap (field * Z) (list Z);
  v_buses : list Z;
  v_classes : list Z;
  v_devices : gmap Z device;
  v_drivers : gmap Z device_driver;
  v_outside : W
}.
Implicit Types (v : view).

Definition with_links (R : gmap (field * Z) (list Z)) v : view :=
  mk_view R (v_buses v) (v_classes v) (v_devices v) (v_drivers v) (v_outside v).
Definition with_v_buses (l : list Z) v : view := mk_view (v_links v) l (v_classes v) (v_devices v) (v_drivers v) (v_outside v).
Definition with_v_classes (l : list Z) v : view := mk_view (v_links v) (v_buses v) l (v_devices v) (v_drivers v) (v_outside v).
Definition with_v_outside (w : W) v : view := mk_view (v_links v) (v_buses v) (v_classes v) (v_devices v) (v_drivers v) w.

Definition v_dev (g : device -> device) d v : view :=
  mk_view (v_links v) (v_buses v) (v_classes v) (alter g d (v_devices v)) (v_drivers v) (v_outside v).
Definition v_drv (g : device_driver -> device_driver) d v : view :=
  mk_view (v_links v) (v_buses v) (v_classes v) (v_devices v) (alter g d (v_drivers v)) (v_outside v).
Definition v_init f a v : view := with_links (<[(f, a) := []]> (v_links v)) v.
Definition v_link f a d v : view := with_links (alter (cons d) (f, a) (v_links v)) v.
Definition v_unlink f a d v : view := with_links (alter (without d) (f, a) (v_links v)) v.
Definition v_link_opt f (o : option Z) d v : view := match o with Some a => v_link f a d v | None => v end.
Definition v_unlink_opt f (o : option Z) d v : view := match o with Some a => v_unlink f a d v | None => v end.
Definition v_call (g : option effect) d v : view :=
  match g with Some g => with_v_outside (g d (v_outside v)).2 v | None => v end.
Definition v_list v f a : list Z := default [] (v_links v !! (f, a)).

(** ** Correspondence *)

(** The buses and classes in memory with their names and tables, the devices and the
    drivers in memory, and that no two nodes of theirs share an address. Names are
    terminated. *)
Context (device_list : Z) (bus_info class_info : gmap Z (list Z * option Z)) (Ds Vs : gset Z).

Definition live f a : Prop :=
  match f with
  | DeviceList => a = device_list
  | BusDrivers | BusDevices => is_Some (bus_info !! a)
  | ClassDevices => is_Some (class_info !! a)
  | DriverDevices | DriverBusList => a ∈ Vs
  | DriverList | BusList | ClassList | Children | Siblings => a ∈ Ds
  end.

Definition disjoint_layout : Prop := forall f a g b, live f a -> live g b -> addr a f = addr b g -> f = g /\ a = b.

Context (layout : disjoint_layout) (Hbn : terminated bus_info) (Hcn : terminated class_info).

(** The structure in whose list of the kind [f] the field of [d] says that it is. *)
Definition owner v f d : option Z :=
  match f with
  | DeviceList => Some device_list
  | BusDrivers => v_drivers v !! d ≫= drv_bus
  | BusDevices => v_devices v !! d ≫= bus
  | ClassDevices => v_devices v !! d ≫= class
  | DriverDevices => v_devices v !! d ≫= driver
  | _ => None
  end.

(** Well-formed registries: whatever is in a list says so itself, and registered buses and
    classes have lists. *)
Record valid v : Prop := {
  va_devices : dom (v_devices v) = Ds;
  va_drivers : dom (v_drivers v) = Vs;
  va_names : map_Forall (fun _ x => 0 ∈ name x) (v_devices v);
  va_drv_names : map_Forall (fun _ x => 0 ∈ drv_name x) (v_drivers v);
  va_list : is_Some (v_links v !! (DeviceList, device_list));
  va_buses : forall b, b ∈ v_buses v -> is_Some (v_links v !! (BusDrivers, b)) /\ is_Some (v_links v !! (BusDevices, b));
  va_classes : forall c, c ∈ v_classes v -> is_Some (v_links v !! (ClassDevices, c));
  va_back : forall f a l d, v_links v !! (f, a) = Some l -> d ∈ l -> owner v f d = Some a
}.

Record rep s v : Prop := {
  rp_tracks : tracks live (nodes s) (v_links v);
  rp_devices : devices s = v_devices v;
  rp_drivers : drivers s = v_drivers v;
  rp_outside : outside s = v_outside v;
  rp_buses : (fun x => (bus_name x, bus_ops x)) <$> buses s = bus_info;
  rp_classes : (fun x => (class_name x, class_ops x)) <$> classes s = class_info;
  rp_bus_list : SList.chain bus_next (buses s) (bus_list s) (v_buses v);
  rp_class_list : SList.chain class_next (classes s) (class_list s) (v_classes v);
  rp_valid : valid v
}.

(** ** Steps *)

Lemma v_dev_owner g d v f e x : v_devices v !! d = Some x ->
  (f = BusDevices -> e = d -> bus (g x) = bus x) -> (f = ClassDevices -> e = d -> class (g x) = class x) ->
  (f = DriverDevices -> e = d -> driver (g x) = driver x) -> owner (v_dev g d v) f e = owner v f e.
Proof.
  intros Hx Hb Hc Hv. destruct f; try done; simpl; (destruct (decide (d = e)) as [<-|]; [|by rewrite lookup_alter_ne]);
    rewrite lookup_alter_eq, Hx; simpl; auto.
Qed.

Lemma dev_step g d s v x : rep s v -> v_devices v !! d = Some x -> name (g x) = name x ->
  (bus (g x) = bus x \/ free (v_links v) BusDevices d) -> (class (g x) = class x \/ free (v_links v) ClassDevices d) ->
  (driver (g x) = driver x \/ free (v_links v) DriverDevices d) ->
  exists s', update_device g d s = Some s' /\ rep s' (v_dev g d v).
Proof.
  intros H Hx Hn Hb Hc Hv. unfold update_device. rewrite (rp_devices _ _ H), Hx. simpl. eexists. split; [done|]. destruct H as [HT H1 H2 H3 H4 H5 H6 H7 HV].
  assert (<[d := g x]> (v_devices v) = alter g d (v_devices v)) as E.
  { apply map_eq. intros j. destruct (decide (j = d)) as [->|]; [by rewrite lookup_alter_eq, lookup_insert_eq, Hx|].
    by rewrite lookup_alter_ne, lookup_insert_ne. }
  split; simpl; try done. destruct HV as [V1 V2 V3 V4 V5 V6 V7 V8]. split; simpl; try done.
  - by rewrite dom_alter_L.
  - rewrite <-E. apply map_Forall_insert_2; [|done]. rewrite Hn. by apply (V3 d).
  - intros f a l e El He. erewrite v_dev_owner; [by eapply V8|done|..]; intros -> ->.
    + destruct Hb as [|Hf]; [done|]. by destruct (Hf a l).
    + destruct Hc as [|Hf]; [done|]. by destruct (Hf a l).
    + destruct Hv as [|Hf]; [done|]. by destruct (Hf a l).
Qed.

Lemma drv_step g d s v x : rep s v -> v_drivers v !! d = Some x -> drv_name (g x) = drv_name x ->
  (drv_bus (g x) = drv_bus x \/ free (v_links v) BusDrivers d) ->
  exists s', update_driver g d s = Some s' /\ rep s' (v_drv g d v).
Proof.
  intros H Hx Hn Hb. unfold update_driver. rewrite (rp_drivers _ _ H), Hx. simpl. eexists. split; [done|]. destruct H as [HT H1 H2 H3 H4 H5 H6 H7 HV].
  assert (<[d := g x]> (v_drivers v) = alter g d (v_drivers v)) as E.
  { apply map_eq. intros j. destruct (decide (j = d)) as [->|]; [by rewrite lookup_alter_eq, lookup_insert_eq, Hx|].
    by rewrite lookup_alter_ne, lookup_insert_ne. }
  split; simpl; try done. destruct HV as [V1 V2 V3 V4 V5 V6 V7 V8]. split; simpl; try done.
  - by rewrite dom_alter_L.
  - rewrite <-E. apply map_Forall_insert_2; [|done]. rewrite Hn. by apply (V4 d).
  - intros f a l e El He. specialize (V8 f a l e El He). destruct f; try done. simpl in *.
    destruct (decide (d = e)) as [<-|]; [|by rewrite lookup_alter_ne]. rewrite lookup_alter_eq, Hx in *. simpl in *.
    destruct Hb as [->|Hf]; [done|]. by destruct (Hf a l).
Qed.

(** Lists change and nothing else. *)
Lemma rep_links s v h R : rep s v -> tracks live h R -> (forall k, is_Some (v_links v !! k) -> is_Some (R !! k)) ->
  (forall f a l d, R !! (f, a) = Some l -> d ∈ l -> owner v f d = Some a) -> rep (with_nodes h s) (with_links R v).
Proof.
  intros [HT H1 H2 H3 H4 H5 H6 H7 [V1 V2 V3 V4 V5 V6 V7 V8]] HT' Hk Hb. split; try done. split; try done; simpl.
  - by apply Hk.
  - intros b [Hb1 Hb2]%V6. auto.
  - intros c Hc%V7. auto.
Qed.

Lemma link_step f a d m s v : rep s v -> is_Some (v_links v !! (f, a)) -> member f = Some m -> live m d -> free (v_links v) f d ->
  owner v f d = Some a -> exists s', on_nodes (list_add (addr d m) (addr a f)) s = Some s' /\ rep s' (v_link f a d v).
Proof.
  intros H [l El] Hm Hl Hf Ho. destruct (add_link live layout _ _ f a m l d (rp_tracks _ _ H) El Hm Hl Hf) as (h & E & HT).
  unfold on_nodes. rewrite E. simpl. eexists. split; [done|]. unfold v_link. rewrite (alter_insert _ _ _ _ El). apply rep_links; try done.
  - intros k Hk. rewrite lookup_insert_is_Some'. auto.
  - intros g b l' e [[Hk <-]|[_ E']]%lookup_insert_Some He; [|by eapply (va_back _ (rp_valid _ _ H))]. injection Hk as <- <-.
    apply elem_of_cons in He as [->|He]; [done|]. by eapply (va_back _ (rp_valid _ _ H)).
Qed.

Lemma unlink_step f a d m l s v : rep s v -> v_links v !! (f, a) = Some l -> member f = Some m -> d ∈ l ->
  exists s', on_nodes (list_del (addr d m)) s = Some s' /\ rep s' (v_unlink f a d v).
Proof.
  intros H El Hm Hd. destruct (del_link live layout _ _ f a m l d (rp_tracks _ _ H) El Hm Hd) as (h & E & HT).
  unfold on_nodes. rewrite E. simpl. eexists. split; [done|]. unfold v_unlink. rewrite (alter_insert _ _ _ _ El). apply rep_links; try done.
  - intros k Hk. rewrite lookup_insert_is_Some'. auto.
  - intros g b l' e [[Hk <-]|[_ E']]%lookup_insert_Some He; [|by eapply (va_back _ (rp_valid _ _ H))]. injection Hk as <- <-.
    apply elem_without in He as [He _]. by eapply (va_back _ (rp_valid _ _ H)).
Qed.

Lemma init_node_step m d s v : rep s v -> live m d -> member m = None -> (forall f, member f = Some m -> free (v_links v) f d) ->
  exists s', on_nodes (list_init (addr d m)) s = Some s' /\ rep s' v /\ others (nodes s) (nodes s') [addr d m].
Proof.
  intros H Hl Hm Hf. destruct (list_init_ok (addr d m) (nodes s)) as (h & E & _ & HO); [by apply (tr_node _ _ _ (rp_tracks _ _ H))|].
  unfold on_nodes. rewrite E. simpl. eexists. split; [done|]. split; [|done]. pose proof (rp_tracks _ _ H) as HT. destruct H. split; try done.
  apply (tracks_untouched live layout _ h _ m d HT Hl HO); [|done].
  apply eq_None_not_Some. intros [l El]. destruct (tr_list _ _ _ HT _ _ _ El) as (m' & ? & _). congruence.
Qed.

Lemma init_head_step f a m s v : rep s v -> live f a -> member f = Some m -> (forall l, v_links v !! (f, a) = Some l -> l = []) ->
  exists s', on_nodes (list_init (addr a f)) s = Some s' /\ rep s' (v_init f a v).
Proof.
  intros H Hl Hm He. destruct (init_head live layout _ _ f a m (rp_tracks _ _ H) Hl Hm He) as (h & E & HT).
  unfold on_nodes. rewrite E. simpl. eexists. split; [done|]. apply rep_links; try done.
  - intros k Hk. rewrite lookup_insert_is_Some'. auto.
  - intros g b l' e [[Hk <-]|[_ E']]%lookup_insert_Some Hin; [by apply not_elem_of_nil in Hin|]. by eapply (va_back _ (rp_valid _ _ H)).
Qed.

Lemma rep_outside s v w : rep s v -> rep (with_outside w s) (with_v_outside w v).
Proof. intros [HT H1 H2 H3 H4 H5 H6 H7 HV]. split; try done. destruct HV as [V1 V2 V3 V4 V5 V6 V7 V8]. by split. Qed.

Lemma call_step g d s v : rep s v -> exists s', call (option_map lift g) d s = Some s' /\ rep s' (v_call g d v).
Proof.
  intros H. destruct g as [g|]; simpl; [|by exists s]. eexists. split; [done|]. rewrite (rp_outside _ _ H). by apply rep_outside.
Qed.
(** What the steps leave free. *)
Lemma free_link f g a d e v : free (v_links v) f d -> f <> g -> free (v_links (v_link g a e v)) f d.
Proof. intros H Hne b l. simpl. rewrite lookup_alter_ne by congruence. apply H. Qed.

Lemma free_unlink s v f a d : rep s v -> owner v f d = Some a -> free (v_links (v_unlink f a d v)) f d.
Proof.
  intros H Ho b l El Hd. simpl in El. destruct (decide (b = a)) as [->|].
  - rewrite lookup_alter_eq in El. destruct (v_links v !! (f, a)); simplify_eq/=. by apply elem_without in Hd as [_ ?].
  - rewrite lookup_alter_ne in El by congruence. pose proof (va_back _ (rp_valid _ _ H) _ _ _ _ El Hd). congruence.
Qed.

Lemma free_link_opt f g o d e v : free (v_links v) f d -> f <> g -> free (v_links (v_link_opt g o e v)) f d.
Proof. intros. destruct o; [by apply free_link|done]. Qed.

Lemma list_kept f a v g b d : is_Some (v_links (v_link g b d v) !! (f, a)) <-> is_Some (v_links v !! (f, a)).
Proof. apply alter_is_Some. Qed.

Lemma list_kept_opt f a v g o d : is_Some (v_links (v_link_opt g o d v) !! (f, a)) <-> is_Some (v_links v !! (f, a)).
Proof. destruct o; [apply list_kept|done]. Qed.

Lemma in_list v f a d : d ∈ v_list v f a -> exists l, v_links v !! (f, a) = Some l /\ d ∈ l.
Proof. unfold v_list. destruct (v_links v !! (f, a)) as [l|]; simpl; [by exists l|]. by intros ?%not_elem_of_nil. Qed.

Lemma in_list_unlink v f a g b d e : d ∈ v_list v f a -> f <> g -> d ∈ v_list (v_unlink g b e v) f a.
Proof. intros H Hne. unfold v_list. simpl. rewrite lookup_alter_ne by congruence. done. Qed.

Lemma in_list_unlink_opt v f a g o d e : d ∈ v_list v f a -> f <> g -> d ∈ v_list (v_unlink_opt g o e v) f a.
Proof. intros. destruct o; [by apply in_list_unlink|done]. Qed.

Lemma link_opt_step f o d m s v : rep s v -> member f = Some m -> live m d -> free (v_links v) f d ->
  (forall a, o = Some a -> is_Some (v_links v !! (f, a)) /\ owner v f d = Some a) ->
  exists s', add_to d m o f s = Some s' /\ rep s' (v_link_opt f o d v).
Proof. intros H Hm Hl Hf Ho. destruct o as [a|]; simpl; [|by exists s]. destruct (Ho a eq_refl). by apply link_step. Qed.

Lemma unlink_opt_step f o d m s v : rep s v -> member f = Some m -> (forall a, o = Some a -> d ∈ v_list v f a) ->
  exists s', del_from d m o s = Some s' /\ rep s' (v_unlink_opt f o d v).
Proof.
  intros H Hm Ho. destruct o as [a|]; simpl; [|by exists s]. destruct (in_list _ _ _ _ (Ho a eq_refl)) as (l & El & Hd). by eapply unlink_step.
Qed.

Lemma head_addr : addr device_list DeviceList = device_list.
Proof. apply Z.add_0_r. Qed.

Lemma link_device_step d s v : rep s v -> d ∈ Ds -> free (v_links v) DeviceList d ->
  exists s', on_nodes (list_add (addr d Siblings) device_list) s = Some s' /\ rep s' (v_link DeviceList device_list d v).
Proof.
  intros H Hd Hf. destruct (link_step DeviceList device_list d Siblings s v H) as (s' & E & H'); try done; [by apply (va_list _ (rp_valid _ _ H))|].
  rewrite head_addr in E. by exists s'.
Qed.

Lemma rep_device s v d x : rep s v -> v_devices v !! d = Some x -> d ∈ Ds.
Proof. intros H E. rewrite <-(va_devices _ (rp_valid _ _ H)). by eapply elem_of_dom_2. Qed.

Lemma rep_driver s v d x : rep s v -> v_drivers v !! d = Some x -> d ∈ Vs.
Proof. intros H E. rewrite <-(va_drivers _ (rp_valid _ _ H)). by eapply elem_of_dom_2. Qed.

(** ** Devices *)

Context (E : effects).
Notation T := (tables_of E).

Definition same_name (n : list Z) (x : device) : bool := bool_decide (cstr (name x) = cstr n).

Definition v_find (t : device -> bool) v : option Z :=
  List.find (fun d => match v_devices v !! d with Some x => t x | None => false end) (v_list v DeviceList device_list).

Lemma listed_device s v f a l d : rep s v -> v_links v !! (f, a) = Some l -> member f <> Some DriverBusList -> d ∈ l -> is_Some (v_devices v !! d).
Proof.
  intros H El Hm Hd. destruct (tr_list _ _ _ (rp_tracks _ _ H) _ _ _ El) as (m & Em & _ & Hl & _).
  rewrite Forall_forall in Hl. apply Hl in Hd. apply elem_of_dom. rewrite (va_devices _ (rp_valid _ _ H)). by destruct f; simplify_eq/=.
Qed.

Lemma find_device_ok test t s v : rep s v -> (forall x, 0 ∈ name x -> test x = Some (t x)) ->
  find_device device_list test s = Some (v_find t v).
Proof.
  intros H Ht. destruct (va_list _ (rp_valid _ _ H)) as [l El]. unfold find_device, v_find, v_list. rewrite El. simpl.
  pose proof (listed_device s v DeviceList device_list l) as Hdev.
  pose proof (walk_links live _ _ _ _ Siblings l (device_fuel s) (fun d => x ← devices s !! d; test x)
    (fun d => match v_devices v !! d with Some x => t x | None => false end) (rp_tracks _ _ H) El eq_refl) as Hw.
  rewrite head_addr in Hw. rewrite Hw; simpl.
  - f_equal. destruct (List.find _ l); simpl; [|done]. by rewrite entry_addr.
  - unfold device_fuel. rewrite (rp_devices _ _ H). eapply links_bound; [apply H|done|]. intros d Hd. by eapply Hdev.
  - intros d Hd. rewrite (rp_devices _ _ H). destruct (Hdev d H El) as [x Hx]; [done|done|]. rewrite Hx. simpl. apply Ht.
    by apply (va_names _ (rp_valid _ _ H) d).
Qed.

Lemma find_by_name_ok n s v : rep s v -> 0 ∈ n -> device_find_by_name device_list (Some n) s = Some (v_find (same_name n) v).
Proof.
  intros H Hn. apply find_device_ok; [done|]. intros x Hx. destruct (strcmp_cstr (name x) n Hx Hn) as (r & -> & Hr). simpl. by rewrite Hr.
Qed.

Lemma find_by_devnum_ok ma mi s v : rep s v ->
  device_find_by_devnum device_list ma mi s = Some (v_find (fun x => (major x =? ma) && (minor x =? mi)) v).
Proof. intros H. by apply find_device_ok. Qed.

(** A device can be entered into the lists when it has no parent and is in no list yet, and
    the lists of its bus, class and driver exist. *)
Definition can_enter d (x : device) v : Prop :=
  parent x = None /\ free (v_links v) BusDevices d /\ free (v_links v) ClassDevices d /\ free (v_links v) DriverDevices d /\
  (forall b, bus x = Some b -> is_Some (v_links v !! (BusDevices, b))) /\
  (forall c, class x = Some c -> is_Some (v_links v !! (ClassDevices, c))) /\
  (forall a, driver x = Some a -> is_Some (v_links v !! (DriverDevices, a))).

(** It can be registered also when its name is taken. *)
Definition can_register d v : Prop :=
  exists x, v_devices v !! d = Some x /\ (v_find (same_name (name x)) v = None -> can_enter d x v).

Definition v_enter d (x : device) v : view :=
  v_dev (with_state DEVICE_STATE_ENABLED) d (v_call (ops x ≫= e_probe E) d
    (v_link_opt DriverDevices (driver x) d (v_link_opt ClassDevices (class x) d (v_link_opt BusDevices (bus x) d
      (v_link DeviceList device_list d (v_dev (with_state DEVICE_STATE_DISABLED) d v)))))).

Definition v_register d v : Z * view :=
  match v_devices v !! d with
  | None => (0, v)
  | Some x => match v_find (same_name (name x)) v with Some _ => (- EEXIST, v) | None => (0, v_enter d x v) end
  end.

Lemma not_listed s v d x : rep s v -> v_devices v !! d = Some x -> v_find (same_name (name x)) v = None -> free (v_links v) DeviceList d.
Proof.
  intros H Hx Hf a l El Hd. pose proof (va_back _ (rp_valid _ _ H) _ _ _ _ El Hd) as [= <-].
  unfold v_find, v_list in Hf. rewrite El in Hf. simpl in Hf. pose proof (List.find_none _ _ Hf d) as Hn. cbv beta in Hn. rewrite Hx in Hn.
  unfold same_name in Hn. rewrite bool_decide_true in Hn by done. discriminate Hn. by apply list_elem_of_In.
Qed.

(** [step L]: the next operation of the program is the one [L] is about. *)
Ltac step L := let s' := fresh "s" in let E := fresh "E" in let H := fresh "H" in
  destruct L as (s' & E & H); [..|rewrite E; clear E; simpl].

Lemma probe_lift {A B} (o : option Z) (g : Z -> option A) (k : A -> B) (h : Z -> option B) :
  (forall a, h a = option_map k (g a)) -> (o ≫= h) = option_map k (o ≫= g).
Proof. intros Hh. destruct o; simpl; auto. Qed.

Lemma v_dev_lookup g d v x : v_devices v !! d = Some x -> v_devices (v_dev g d v) !! d = Some (g x).
Proof. intros Hx. simpl. by rewrite lookup_alter_eq, Hx. Qed.

Lemma v_call_devices g d v : v_devices (v_call g d v) = v_devices v.
Proof. by destruct g. Qed.
Lemma v_call_links g d v : v_links (v_call g d v) = v_links v.
Proof. by destruct g. Qed.
Lemma v_link_opt_devices f o d v : v_devices (v_link_opt f o d v) = v_devices v.
Proof. by destruct o. Qed.
Lemma v_link_opt_drivers f o d v : v_drivers (v_link_opt f o d v) = v_drivers v.
Proof. by destruct o. Qed.

(** The nodes that a registration initialises. *)
Definition own_fields : list field := [DriverList; BusList; ClassList; Children; Siblings].

Lemma register_init_ok d s v : rep s v -> d ∈ Ds -> free (v_links v) DeviceList d -> free (v_links v) BusDevices d ->
  free (v_links v) ClassDevices d -> free (v_links v) DriverDevices d ->
  exists s', register_init d s = Some s' /\ rep s' v /\ others (nodes s) (nodes s') (addr d <$> own_fields).
Proof.
  clear Hbn Hcn.
  intros H Hd F1 F2 F3 F4. unfold register_init.
  destruct (init_node_step DriverList d s v H Hd eq_refl) as (s1 & -> & H1 & O1); [by intros []|]. simpl.
  destruct (init_node_step BusList d s1 v H1 Hd eq_refl) as (s2 & -> & H2 & O2); [by intros []|]. simpl.
  destruct (init_node_step ClassList d s2 v H2 Hd eq_refl) as (s3 & -> & H3 & O3); [by intros []|]. simpl.
  destruct (init_node_step Children d s3 v H3 Hd eq_refl) as (s4 & -> & H4 & O4); [by intros []|]. simpl.
  destruct (init_node_step Siblings d s4 v H4 Hd eq_refl) as (s5 & E5 & H5 & O5); [by intros []|].
  exists s5. split; [done|]. split; [done|].
  assert (forall h h' m, m ∈ own_fields -> others h h' [addr d m] -> others h h' (addr d <$> own_fields)) as Hw.
  { intros h h' m Hm HO. eapply others_weaken; [done|]. intros y ->%list_elem_of_singleton. apply list_elem_of_fmap. eauto. }
  unfold own_fields in *. eapply others_trans; [eapply (Hw _ _ DriverList); [|done]|eapply others_trans; [eapply (Hw _ _ BusList); [|done]|
    eapply others_trans; [eapply (Hw _ _ ClassList); [|done]|eapply others_trans; [eapply (Hw _ _ Children); [|done]|eapply (Hw _ _ Siblings); [|done]]]]]; set_solver.
Qed.

Lemma register_rest_ok d s v x : rep s v -> v_devices v !! d = Some x -> free (v_links v) DeviceList d -> can_enter d x v ->
  exists s', register_rest device_list T d s = Some s' /\ rep s' (v_enter d x v).
Proof.
  intros H Hx F4 (Hp & F1 & F2 & F3 & L1 & L2 & L3). pose proof (rep_device _ _ _ _ H Hx) as Hd. unfold register_rest.
  destruct (register_init_ok d s v H Hd F4 F1 F2 F3) as (s0 & E0 & H4 & _). rewrite E0, bind_Some_l.
  step (dev_step (with_state DEVICE_STATE_DISABLED) d _ v x H4 Hx); auto.
  set (v1 := v_dev _ d v) in *. pose proof (v_dev_lookup (with_state DEVICE_STATE_DISABLED) d v x Hx) as Hx1. fold v1 in Hx1.
  step (link_device_step d _ v1 H0 Hd F4).
  set (v2 := v_link _ _ d v1) in *. rewrite (rp_devices _ _ H1), (Hx1 : v_devices v2 !! d = _). simpl. rewrite Hp. simpl.
  step (link_opt_step BusDevices (bus x) d BusList _ v2 H1); auto; [by apply free_link| |].
  { intros b Hb. split; [by apply list_kept, L1|]. cbn [owner]. by rewrite (Hx1 : v_devices v2 !! d = _). }
  set (v3 := v_link_opt _ _ d v2) in *. assert (v_devices v3 = v_devices v1) as D3 by exact (v_link_opt_devices _ _ _ v2).
  step (link_opt_step ClassDevices (class x) d ClassList _ v3 H2); auto; [by apply free_link_opt; [apply free_link|]| |].
  { intros c Hc'. split; [by apply list_kept_opt, list_kept, L2|]. cbn [owner]. by rewrite D3, Hx1. }
  set (v4 := v_link_opt _ _ d v3) in *. assert (v_devices v4 = v_devices v1) as D4 by (rewrite <-D3; exact (v_link_opt_devices _ _ _ v3)).
  step (link_opt_step DriverDevices (driver x) d DriverList _ v4 H3); auto; [by do 2 (apply free_link_opt; [|done]); apply free_link| |].
  { intros a Ha. split; [by apply list_kept_opt, list_kept_opt, list_kept, L3|]. cbn [owner]. by rewrite D4, Hx1. }
  set (v5 := v_link_opt _ _ d v4) in *. rewrite (probe_lift _ (e_probe E) lift) by done.
  step (call_step (ops x ≫= e_probe E) d _ v5 H5).
  step (dev_step (with_state DEVICE_STATE_ENABLED) d _ _ (with_state DEVICE_STATE_DISABLED x) H6); auto.
  { rewrite v_call_devices. unfold v5. by rewrite v_link_opt_devices, D4. }
  by eexists.
Qed.

Lemma register_check_ok d s v x : rep s v -> v_devices v !! d = Some x ->
  register_check device_list d s = Some (v_find (same_name (name x)) v).
Proof.
  intros H Hx. unfold register_check. rewrite (rp_devices _ _ H), Hx, bind_Some_l. apply find_by_name_ok; [done|].
  by apply (va_names _ (rp_valid _ _ H) d).
Qed.

Lemma device_register_ok d s v : rep s v -> can_register d v ->
  exists s', device_register device_list T (Some d) s = Some ((v_register d v).1, s') /\ rep s' (v_register d v).2.
Proof.
  intros H (x & Hx & Hc). unfold device_register, v_register. rewrite Hx, (register_check_ok d s v x H Hx), bind_Some_l.
  destruct (v_find _ v) eqn:Ef; [by exists s|].
  destruct (register_rest_ok d s v x H Hx (not_listed _ _ _ _ H Hx Ef) (Hc eq_refl)) as (s' & Es & H'). rewrite Es, bind_Some_l. by exists s'.
Qed.
Lemma unlink_opt_devices f o d v : v_devices (v_unlink_opt f o d v) = v_devices v.
Proof. by destruct o. Qed.

(** A device can be unregistered when it is registered without a parent, and on the lists
    of its bus, class and driver. *)
Definition can_unregister d v : Prop :=
  exists x, v_devices v !! d = Some x /\ parent x = None /\ d ∈ v_list v DeviceList device_list /\
    (forall b, bus x = Some b -> d ∈ v_list v BusDevices b) /\ (forall c, class x = Some c -> d ∈ v_list v ClassDevices c) /\
    (forall a, driver x = Some a -> d ∈ v_list v DriverDevices a).

Definition v_unregister d v : Z * view :=
  match v_devices v !! d with
  | None => (0, v)
  | Some x =>
      (0, v_unlink_opt DriverDevices (driver x) d (v_unlink_opt ClassDevices (class x) d (v_unlink_opt BusDevices (bus x) d
            (v_unlink DeviceList device_list d (v_call (ops x ≫= e_remove E) d (v_dev (with_state DEVICE_STATE_DISABLED) d v))))))
  end.

Lemma device_unregister_ok d s v : rep s v -> can_unregister d v ->
  exists s', device_unregister T (Some d) s = Some ((v_unregister d v).1, s') /\ rep s' (v_unregister d v).2.
Proof.
  intros H (x & Hx & Hp & Ll & Lb & Lc & Lv). unfold device_unregister, v_unregister. rewrite Hx. cbn [fst snd].
  step (dev_step (with_state DEVICE_STATE_DISABLED) d _ v x H Hx); auto. set (v1 := v_dev _ d v) in *.
  pose proof (v_dev_lookup (with_state DEVICE_STATE_DISABLED) d v x Hx) as Hx1. fold v1 in Hx1.
  rewrite (rp_devices _ _ H0), Hx1. simpl. rewrite (probe_lift _ (e_remove E) lift) by done.
  step (call_step (ops x ≫= e_remove E) d _ v1 H0). set (v2 := v_call _ d v1) in *.
  assert (v_links v2 = v_links v) as L2 by exact (v_call_links _ _ v1). assert (v_devices v2 = v_devices v1) as D2 by apply v_call_devices.
  assert (forall f a, v_list v2 f a = v_list v f a) as LL by (intros; unfold v_list; by rewrite L2).
  destruct (in_list v2 DeviceList device_list d) as (l & El & Hd); [by rewrite LL|].
  step (unlink_step DeviceList device_list d Siblings l _ v2 H1); auto. set (v3 := v_unlink _ _ d v2) in *.
  rewrite (rp_devices _ _ H2), (D2 : v_devices v3 = _), Hx1. simpl. rewrite Hp. simpl.
  step (unlink_opt_step BusDevices (bus x) d BusList _ v3 H2); auto.
  { intros b Hb. apply in_list_unlink; [rewrite LL; by apply Lb|done]. }
  step (unlink_opt_step ClassDevices (class x) d ClassList _ _ H3); auto.
  { intros c Hc. apply in_list_unlink_opt; [|done]. apply in_list_unlink; [rewrite LL; by apply Lc|done]. }
  step (unlink_opt_step DriverDevices (driver x) d DriverList _ _ H4); auto.
  { intros a Ha. do 2 (apply in_list_unlink_opt; [|done]). apply in_list_unlink; [rewrite LL; by apply Lv|done]. }
  by eexists.
Qed.

(** ** Buses *)

Lemma rep_buses s v m p l : rep s v -> (fun x => (bus_name x, bus_ops x)) <$> m = bus_info -> SList.chain bus_next m p l ->
  (forall b, b ∈ l -> is_Some (v_links v !! (BusDrivers, b)) /\ is_Some (v_links v !! (BusDevices, b))) ->
  rep (with_buses m p s) (with_v_buses l v).
Proof. intros [HT H1 H2 H3 H4 H5 H6 H7 [V1 V2 V3 V4 V5 V6 V7 V8]] Hm Hl Hb. by split. Qed.

Lemma rep_classes_ s v m p l : rep s v -> (fun x => (class_name x, class_ops x)) <$> m = class_info -> SList.chain class_next m p l ->
  (forall c, c ∈ l -> is_Some (v_links v !! (ClassDevices, c))) -> rep (with_classes m p s) (with_v_classes l v).
Proof. intros [HT H1 H2 H3 H4 H5 H6 H7 [V1 V2 V3 V4 V5 V6 V7 V8]] Hm Hl Hb. by split. Qed.

Lemma bus_known s v b i : rep s v -> bus_info !! b = Some i -> exists x, buses s !! b = Some x /\ i = (bus_name x, bus_ops x).
Proof. intros H Hi. rewrite <-(rp_buses _ _ H), lookup_fmap in Hi. destruct (buses s !! b) as [x|]; simplify_eq/=. by exists x. Qed.

Lemma class_known s v c i : rep s v -> class_info !! c = Some i -> exists x, classes s !! c = Some x /\ i = (class_name x, class_ops x).
Proof. intros H Hi. rewrite <-(rp_classes _ _ H), lookup_fmap in Hi. destruct (classes s !! c) as [x|]; simplify_eq/=. by exists x. Qed.

Lemma bus_find_ok n s v : rep s v -> 0 ∈ n -> bus_find_by_name (Some n) s = Some (v_named bus_info (v_buses v) n).
Proof.
  intros H Hn. unfold bus_find_by_name. rewrite (find_named_ok bus_name bus_ops bus_next _ n _ _ _ (rp_bus_list _ _ H)).
  - by rewrite (rp_buses _ _ H).
  - by rewrite (rp_buses _ _ H).
  - done.
  - eapply named_fuel, H.
Qed.

Lemma class_find_ok n s v : rep s v -> 0 ∈ n -> class_find_by_name (Some n) s = Some (v_named class_info (v_classes v) n).
Proof.
  intros H Hn. unfold class_find_by_name. rewrite (find_named_ok class_name class_ops class_next _ n _ _ _ (rp_class_list _ _ H)).
  - by rewrite (rp_classes _ _ H).
  - by rewrite (rp_classes _ _ H).
  - done.
  - eapply named_fuel, H.
Qed.

Definition unused v f a : Prop := forall l, v_links v !! (f, a) = Some l -> l = [].

(** A bus can be registered, and registered again, when nothing is in its lists. *)
Definition can_bus_register b v : Prop :=
  exists i, bus_info !! b = Some i /\ (v_named bus_info (v_buses v) i.1 = None -> unused v BusDrivers b /\ unused v BusDevices b).

Definition v_bus_register b v : Z * view :=
  match bus_info !! b with
  | None => (0, v)
  | Some i =>
      match v_named bus_info (v_buses v) i.1 with
      | Some _ => (- EEXIST, v)
      | None => (0, with_v_buses (b :: v_buses v) (v_init BusDevices b (v_init BusDrivers b v)))
      end
  end.

Lemma bus_register_ok b s v : rep s v -> can_bus_register b v ->
  exists s', bus_register (Some b) s = Some ((v_bus_register b v).1, s') /\ rep s' (v_bus_register b v).2.
Proof.
  intros H (i & Hi & Hu). unfold bus_register, v_bus_register. rewrite Hi. destruct (bus_known _ _ _ _ H Hi) as (x & Hx & ->). simpl in *.
  rewrite Hx. simpl.
  rewrite (bus_find_ok _ _ v H) by (by apply (Hbn b (bus_name x, bus_ops x))). simpl.
  destruct (v_named _ _ _) eqn:Ef; [by exists s|]. destruct (Hu eq_refl) as [U1 U2].
  assert (live BusDrivers b) as Hl by (by eexists).
  step (init_head_step BusDrivers b DriverBusList s v H Hl eq_refl U1).
  step (init_head_step BusDevices b BusList _ _ H0 Hl eq_refl); [by intros l; simpl; rewrite lookup_insert_ne; [apply U2|]|].
  eexists. split; [done|]. assert (b ∉ v_buses v) as Hb.
  { apply (named_not_in bus_name bus_ops (buses s) _ b x Hx). by rewrite (rp_buses _ _ H). }
  apply rep_buses; [done| | |].
  - rewrite (info_put bus_name bus_ops with_bus_next); try done; [apply H1|]. by rewrite (rp_buses _ _ H1).
  - apply (chain_push bus_next with_bus_next); [done|apply (rp_bus_list _ _ H1)|done].
  - intros c [->|Hc]%elem_of_cons; simpl.
    + rewrite lookup_insert_eq, (lookup_insert_ne _ (BusDevices, b)) by done. rewrite lookup_insert_eq. by split; eexists.
    + apply (va_buses _ (rp_valid _ _ H1) c Hc).
Qed.

Definition v_bus_unregister b v : Z * view := (0, with_v_buses (without b (v_buses v)) v).

Lemma without_same b l : b ∉ l -> without b l = l.
Proof. intros Hb. apply filter_all, Forall_forall. by intros x Hx ->. Qed.

Lemma bus_unregister_ok b s v : rep s v -> is_Some (bus_info !! b) ->
  exists s', bus_unregister (Some b) s = Some ((v_bus_unregister b v).1, s') /\ rep s' (v_bus_unregister b v).2.
Proof.
  intros H [i Hi]. destruct (bus_known _ _ _ _ H Hi) as (x & Hx & ->). unfold bus_unregister, v_bus_unregister. rewrite Hx, bind_Some_l. cbn [fst snd].
  pose proof (rp_bus_list _ _ H) as Hl. pose proof (named_fuel _ _ _ _ Hl) as Hf.
  assert (forall c, c ∈ without b (v_buses v) -> is_Some (v_links v !! (BusDrivers, c)) /\ is_Some (v_links v !! (BusDevices, c))) as Hw.
  { intros c [Hc _]%elem_without. by apply (va_buses _ (rp_valid _ _ H)). }
  case_bool_decide as Ep.
  { eexists. split; [done|]. apply rep_buses; try done; [apply H|by eapply chain_first]. }
  destruct (decide (b ∈ v_buses v)) as [Hb|Hb].
  - destruct (chain_later bus_next with_bus_next ltac:(done) _ _ _ b x _ Hl Ep Hx Hb Hf) as (q & y & Eq & Hy & Hl'). unfold bus_fuel. rewrite Eq. simpl. rewrite Hy. simpl.
    eexists. split; [done|]. apply rep_buses; try done.
    rewrite (info_put bus_name bus_ops with_bus_next); try done; [apply H|]. by rewrite lookup_fmap, Hy.
  - unfold bus_fuel. rewrite (find_prev_none bus_next _ b _ _ _ Hl Hb Hf). simpl. eexists. split; [done|].
    rewrite without_same by done. destruct H. by destruct v.
Qed.
(** ** Devices on buses *)

(** A device can be added to a list of the kind [f] of [a]. *)
Definition can_add f a d v : Prop := is_Some (v_devices v !! d) /\ is_Some (v_links v !! (f, a)) /\ free (v_links v) f d.

(** A device can be removed unless its field says that it is in the list and it is not. *)
Definition can_remove f (g : device -> option Z) a d v : Prop :=
  exists x, v_devices v !! d = Some x /\ (g x = Some a -> d ∈ v_list v f a).

Definition v_add f (g : option Z -> device -> device) a d v : view := v_link f a d (v_dev (g (Some a)) d v).
Definition v_remove f (g : device -> option Z) (p : option Z -> device -> device) a d v : Z * view :=
  match v_devices v !! d with
  | None => (0, v)
  | Some x => if bool_decide (g x = Some a) then (0, v_dev (p None) d (v_unlink f a d v)) else (- EINVAL, v)
  end.

Lemma bus_add_device_ok b d s v : rep s v -> can_add BusDevices b d v ->
  exists s', bus_add_device (Some b) (Some d) s = Some (0, s') /\ rep s' (v_add BusDevices with_bus b d v).
Proof.
  intros H ([x Hx] & Hl & Hf). unfold bus_add_device. step (dev_step (with_bus (Some b)) d s v x H Hx); auto.
  step (link_step BusDevices b d BusList _ _ H0 Hl); auto.
  - exact (rep_device _ _ _ _ H Hx).
  - cbn [owner]. by rewrite (v_dev_lookup _ _ _ _ Hx).
  - by eexists.
Qed.

Lemma bus_remove_device_ok b d s v : rep s v -> can_remove BusDevices bus b d v ->
  exists s', bus_remove_device (Some b) (Some d) s = Some ((v_remove BusDevices bus with_bus b d v).1, s') /\
    rep s' (v_remove BusDevices bus with_bus b d v).2.
Proof.
  intros H (x & Hx & Hl). unfold bus_remove_device, v_remove. rewrite (rp_devices _ _ H), Hx. simpl. case_bool_decide as Eb; simpl; [|by exists s].
  destruct (in_list _ _ _ _ (Hl Eb)) as (l & El & Hd). step (unlink_step BusDevices b d BusList l s v H El eq_refl Hd).
  step (dev_step (with_bus None) d _ _ x H0 Hx); auto; [|by eexists]. right. eapply free_unlink; [done|]. cbn [owner]. by rewrite Hx.
Qed.

Lemma attach_ok a d s v : rep s v -> can_add DriverDevices a d v ->
  exists s', attach a d s = Some s' /\ rep s' (v_add DriverDevices with_driver a d v).
Proof.
  intros H ([x Hx] & Hl & Hf). unfold attach. step (dev_step (with_driver (Some a)) d s v x H Hx); auto.
  apply link_step; auto.
  - exact (rep_device _ _ _ _ H Hx).
  - cbn [owner]. by rewrite (v_dev_lookup _ _ _ _ Hx).
Qed.

Lemma driver_remove_device_ok a d s v : rep s v -> can_remove DriverDevices driver a d v ->
  exists s', driver_remove_device (Some a) (Some d) s = Some ((v_remove DriverDevices driver with_driver a d v).1, s') /\
    rep s' (v_remove DriverDevices driver with_driver a d v).2.
Proof.
  intros H (x & Hx & Hl). unfold driver_remove_device, v_remove. rewrite (rp_devices _ _ H), Hx. simpl. case_bool_decide as Eb; simpl; [|by exists s].
  destruct (in_list _ _ _ _ (Hl Eb)) as (l & El & Hd). step (unlink_step DriverDevices a d DriverList l s v H El eq_refl Hd).
  step (dev_step (with_driver None) d _ _ x H0 Hx); auto; [|by eexists]. right. eapply free_unlink; [done|]. cbn [owner]. by rewrite Hx.
Qed.

(** ** Classes *)

Definition can_class_register c v : Prop :=
  exists i, class_info !! c = Some i /\ (v_named class_info (v_classes v) i.1 = None -> unused v ClassDevices c).

Definition v_class_register c v : Z * view :=
  match class_info !! c with
  | None => (0, v)
  | Some i =>
      match v_named class_info (v_classes v) i.1 with
      | Some _ => (- EEXIST, v)
      | None => (0, with_v_classes (c :: v_classes v) (v_init ClassDevices c v))
      end
  end.

Lemma class_register_ok c s v : rep s v -> can_class_register c v ->
  exists s', class_register (Some c) s = Some ((v_class_register c v).1, s') /\ rep s' (v_class_register c v).2.
Proof.
  intros H (i & Hi & Hu). unfold class_register, v_class_register. rewrite Hi. destruct (class_known _ _ _ _ H Hi) as (x & Hx & ->). simpl in *.
  rewrite Hx. simpl. rewrite (class_find_ok _ _ v H) by (by apply (Hcn c (class_name x, class_ops x))). simpl.
  destruct (v_named _ _ _) eqn:Ef; [by exists s|]. assert (live ClassDevices c) as Hl by (by eexists).
  step (init_head_step ClassDevices c ClassList s v H Hl eq_refl (Hu eq_refl)). eexists. split; [done|].
  assert (c ∉ v_classes v) as Hc.
  { apply (named_not_in class_name class_ops (classes s) _ c x Hx). by rewrite (rp_classes _ _ H). }
  apply rep_classes_; [done| | |].
  - rewrite (info_put class_name class_ops with_class_next); try done; [apply H0|]. by rewrite (rp_classes _ _ H0).
  - apply (chain_push class_next with_class_next); [done|apply (rp_class_list _ _ H0)|done].
  - intros e [->|He]%elem_of_cons; simpl; [rewrite lookup_insert_eq; by eexists|]. apply (va_classes _ (rp_valid _ _ H0) e He).
Qed.

Definition v_class_unregister c v : Z * view := (0, with_v_classes (without c (v_classes v)) v).

Lemma class_unregister_ok c s v : rep s v -> is_Some (class_info !! c) ->
  exists s', class_unregister (Some c) s = Some ((v_class_unregister c v).1, s') /\ rep s' (v_class_unregister c v).2.
Proof.
  intros H [i Hi]. destruct (class_known _ _ _ _ H Hi) as (x & Hx & ->). unfold class_unregister, v_class_unregister. rewrite Hx, bind_Some_l. cbn [fst snd].
  pose proof (rp_class_list _ _ H) as Hl. pose proof (named_fuel _ _ _ _ Hl) as Hf.
  assert (forall e, e ∈ without c (v_classes v) -> is_Some (v_links v !! (ClassDevices, e))) as Hw.
  { intros e [He _]%elem_without. by apply (va_classes _ (rp_valid _ _ H)). }
  case_bool_decide as Ep.
  { eexists. split; [done|]. apply rep_classes_; try done; [apply H|by eapply chain_first]. }
  destruct (decide (c ∈ v_classes v)) as [Hc|Hc].
  - destruct (chain_later class_next with_class_next ltac:(done) _ _ _ c x _ Hl Ep Hx Hc Hf) as (q & y & Eq & Hy & Hl').
    unfold class_fuel. rewrite Eq. simpl. rewrite Hy. simpl. eexists. split; [done|]. apply rep_classes_; try done.
    rewrite (info_put class_name class_ops with_class_next); try done; [apply H|]. by rewrite lookup_fmap, Hy.
  - unfold class_fuel. rewrite (find_prev_none class_next _ c _ _ _ Hl Hc Hf). simpl. eexists. split; [done|].
    rewrite without_same by done. destruct H. by destruct v.
Qed.

Definition class_table c : option Z := class_info !! c ≫= snd.

Definition v_class_add c d v : view := v_call (class_table c ≫= e_create E) d (v_add ClassDevices with_class c d v).

Lemma class_table_ok s v c : rep s v -> is_Some (class_info !! c) -> exists y, classes s !! c = Some y /\ class_ops y = class_table c.
Proof. intros H [i Hi]. destruct (class_known _ _ _ _ H Hi) as (y & Hy & ->). exists y. unfold class_table. by rewrite Hi. Qed.

Lemma listed_class s v c : rep s v -> is_Some (v_links v !! (ClassDevices, c)) -> is_Some (class_info !! c).
Proof. intros H [l El]. by destruct (tr_list _ _ _ (rp_tracks _ _ H) _ _ _ El) as (m & _ & Hl & _). Qed.

Lemma class_add_device_ok c d s v : rep s v -> can_add ClassDevices c d v ->
  exists s', class_add_device T (Some c) (Some d) s = Some (0, s') /\ rep s' (v_class_add c d v).
Proof.
  intros H ([x Hx] & Hl & Hf). unfold class_add_device. step (dev_step (with_class (Some c)) d s v x H Hx); auto.
  step (link_step ClassDevices c d ClassList _ _ H0 Hl); auto.
  - exact (rep_device _ _ _ _ H Hx).
  - cbn [owner]. by rewrite (v_dev_lookup _ _ _ _ Hx).
  - destruct (class_table_ok s1 _ c H1) as (y & Hy & Ey); [exact (listed_class _ _ _ H Hl)|]. rewrite Hy. simpl. rewrite Ey, (probe_lift _ (e_create E) lift) by done.
    step (call_step (class_table c ≫= e_create E) d _ _ H1). by eexists.
Qed.

(** The class's function runs before the device is taken out. *)
Definition v_class_remove c d v : Z * view :=
  match v_devices v !! d with
  | None => (0, v)
  | Some x =>
      if bool_decide (class x = Some c)
      then (0, v_dev (with_class None) d (v_unlink ClassDevices c d (v_call (class_table c ≫= e_destroy E) d v)))
      else (- EINVAL, v)
  end.

Lemma class_remove_device_ok c d s v : rep s v -> can_remove ClassDevices class c d v ->
  exists s', class_remove_device T (Some c) (Some d) s = Some ((v_class_remove c d v).1, s') /\ rep s' (v_class_remove c d v).2.
Proof.
  intros H (x & Hx & Hl). unfold class_remove_device, v_class_remove. rewrite (rp_devices _ _ H), Hx. simpl. case_bool_decide as Eb; simpl; [|by exists s].
  destruct (in_list _ _ _ _ (Hl Eb)) as (l & El & Hd).
  destruct (class_table_ok s v c H) as (y & Hy & Ey); [by eapply listed_class; [|by eexists]|]. rewrite Hy. simpl. rewrite Ey, (probe_lift _ (e_destroy E) lift) by done.
  step (call_step (class_table c ≫= e_destroy E) d _ _ H). set (v1 := v_call _ d v) in *.
  assert (v_links v1 !! (ClassDevices, c) = Some l) as El1 by (unfold v1; by rewrite v_call_links).
  assert (v_devices v1 !! d = Some x) as Hx1 by (unfold v1; by rewrite v_call_devices).
  step (unlink_step ClassDevices c d ClassList l _ v1 H0 El1 eq_refl Hd).
  step (dev_step (with_class None) d _ _ x H1 Hx1); auto; [|by eexists]. right. eapply free_unlink; [done|]. cbn [owner]. by rewrite Hx1.
Qed.
(** ** Drivers *)

Definition can_add_driver b a v : Prop :=
  is_Some (v_drivers v !! a) /\ is_Some (v_links v !! (BusDrivers, b)) /\ free (v_links v) BusDrivers a.

Definition v_add_driver b a v : view := v_link BusDrivers b a (v_drv (with_drv_bus (Some b)) a v).

Lemma v_drv_lookup g a v x : v_drivers v !! a = Some x -> v_drivers (v_drv g a v) !! a = Some (g x).
Proof. intros Hx. simpl. by rewrite lookup_alter_eq, Hx. Qed.

Lemma bus_add_driver_ok b a s v : rep s v -> can_add_driver b a v ->
  exists s', bus_add_driver (Some b) (Some a) s = Some (0, s') /\ rep s' (v_add_driver b a v).
Proof.
  intros H ([x Hx] & Hl & Hf). unfold bus_add_driver. step (drv_step (with_drv_bus (Some b)) a s v x H Hx); auto.
  step (link_step BusDrivers b a DriverBusList _ _ H0 Hl); auto.
  - exact (rep_driver _ _ _ _ H Hx).
  - cbn [owner]. by rewrite (v_drv_lookup _ _ _ _ Hx).
  - by eexists.
Qed.

Definition can_remove_driver b a v : Prop :=
  exists x, v_drivers v !! a = Some x /\ (drv_bus x = Some b -> a ∈ v_list v BusDrivers b).

Definition v_remove_driver b a v : Z * view :=
  match v_drivers v !! a with
  | None => (0, v)
  | Some x => if bool_decide (drv_bus x = Some b) then (0, v_drv (with_drv_bus None) a (v_unlink BusDrivers b a v)) else (- EINVAL, v)
  end.

Lemma bus_remove_driver_ok b a s v : rep s v -> can_remove_driver b a v ->
  exists s', bus_remove_driver (Some b) (Some a) s = Some ((v_remove_driver b a v).1, s') /\ rep s' (v_remove_driver b a v).2.
Proof.
  intros H (x & Hx & Hl). unfold bus_remove_driver, v_remove_driver. rewrite (rp_drivers _ _ H), Hx. simpl. case_bool_decide as Eb; simpl; [|by exists s].
  destruct (in_list _ _ _ _ (Hl Eb)) as (l & El & Hd). step (unlink_step BusDrivers b a DriverBusList l s v H El eq_refl Hd).
  step (drv_step (with_drv_bus None) a _ _ x H0 Hx); auto; [|by eexists]. right. eapply free_unlink; [done|]. cbn [owner]. by rewrite Hx.
Qed.

(** The drivers of all registered buses. *)
Definition v_all_drivers v : list Z := mjoin ((fun b => v_list v BusDrivers b) <$> v_buses v).

Definition drv_named (n : list Z) v a : bool :=
  match v_drivers v !! a with Some x => bool_decide (cstr (drv_name x) = cstr n) | None => false end.

Definition v_find_driver (n : list Z) v : option Z := List.find (drv_named n v) (v_all_drivers v).

Lemma listed_driver s v b l a : rep s v -> v_links v !! (BusDrivers, b) = Some l -> a ∈ l -> is_Some (v_drivers v !! a).
Proof.
  intros H El Hd. destruct (tr_list _ _ _ (rp_tracks _ _ H) _ _ _ El) as (m & [= <-] & _ & Hl & _).
  rewrite Forall_forall in Hl. apply Hl in Hd. apply elem_of_dom. by rewrite (va_drivers _ (rp_valid _ _ H)).
Qed.

Lemma bus_drivers_ok n s v b : rep s v -> is_Some (v_links v !! (BusDrivers, b)) -> 0 ∈ n ->
  list_for_each_entry (driver_fuel s) (fun p => x ← drivers s !! list_entry p DriverBusList; r ← strcmp (drv_name x) n; Some (r =? 0))
    (addr b BusDrivers) (nodes s) = Some (option_map (fun a => addr a DriverBusList) (List.find (drv_named n v) (v_list v BusDrivers b))).
Proof.
  intros H [l El] Hn. unfold v_list. rewrite El. simpl. rewrite (rp_drivers _ _ H).
  apply (walk_links live _ _ _ _ DriverBusList l _ (fun a => x ← v_drivers v !! a; r ← strcmp (drv_name x) n; Some (r =? 0)) _ (rp_tracks _ _ H) El eq_refl).
  - unfold driver_fuel. rewrite (rp_drivers _ _ H). eapply links_bound; [apply H|done|]. intros d Hd. by eapply listed_driver.
  - intros a Ha. destruct (listed_driver s v b l a H El Ha) as [x Hx]. unfold drv_named. rewrite Hx. simpl.
    destruct (strcmp_cstr (drv_name x) n) as (r & -> & Hr); [by apply (va_drv_names _ (rp_valid _ _ H) a)|done|]. simpl. by rewrite Hr.
Qed.

Lemma find_app (t : Z -> bool) l1 l2 : List.find t (l1 ++ l2) = match List.find t l1 with Some x => Some x | None => List.find t l2 end.
Proof. induction l1 as [|x l1 IH]; [done|]. simpl. by destruct (t x). Qed.

Lemma find_driver_loop fuel n p l s v : rep s v -> 0 ∈ n -> SList.chain bus_next (buses s) p l -> (length l < fuel)%nat ->
  (forall b, b ∈ l -> is_Some (v_links v !! (BusDrivers, b))) ->
  find_driver fuel n p s = Some (List.find (drv_named n v) (mjoin ((fun b => v_list v BusDrivers b) <$> l))).
Proof.
  intros H Hn. revert p l. induction fuel as [|fuel IH]; intros p [|b l] Hl Hf Hb; simpl in Hf; try lia; [by rewrite Hl|].
  destruct Hl as [-> (x & Hx & Hl)]. simpl. rewrite Hx. simpl. rewrite (bus_drivers_ok n s v b H) by (try done; apply Hb; left). simpl.
  rewrite find_app. destruct (List.find _ (v_list v BusDrivers b)); simpl; [by rewrite entry_addr|].
  apply IH; [done|lia|]. intros c Hc. apply Hb. by right.
Qed.

Lemma driver_find_ok n s v : rep s v -> 0 ∈ n -> driver_find_by_name (Some n) s = Some (v_find_driver n v).
Proof.
  intros H Hn. unfold driver_find_by_name. apply find_driver_loop; try done; [apply H|eapply named_fuel, H|].
  intros b Hb. exact (proj1 (va_buses _ (rp_valid _ _ H) b Hb)).
Qed.

Definition can_driver_register a v : Prop :=
  exists x, v_drivers v !! a = Some x /\ (v_find_driver (drv_name x) v = None ->
    unused v DriverDevices a /\ free (v_links v) BusDrivers a /\ (forall b, drv_bus x = Some b -> is_Some (v_links v !! (BusDrivers, b)))).

Definition v_driver_register a v : Z * view :=
  match v_drivers v !! a with
  | None => (0, v)
  | Some x =>
      match v_find_driver (drv_name x) v with
      | Some _ => (- EEXIST, v)
      | None =>
          let v := v_init DriverDevices a v in
          (0, match drv_bus x with Some b => v_add_driver b a v | None => v end)
      end
  end.

Lemma driver_register_ok a s v : rep s v -> can_driver_register a v ->
  exists s', driver_register (Some a) s = Some ((v_driver_register a v).1, s') /\ rep s' (v_driver_register a v).2.
Proof.
  intros H (x & Hx & Hc). unfold driver_register, v_driver_register. rewrite (rp_drivers _ _ H), Hx, bind_Some_l.
  rewrite (driver_find_ok _ _ v H), bind_Some_l by (by apply (va_drv_names _ (rp_valid _ _ H) a)).
  destruct (v_find_driver _ v) eqn:Ef; [by exists s|]. destruct (Hc eq_refl) as (U & F & L).
  pose proof (rep_driver _ _ _ _ H Hx) as Ha. cbn [fst snd].
  step (init_head_step DriverDevices a DriverList s v H Ha eq_refl U).
  destruct (init_node_step DriverBusList a s0 _ H0 Ha eq_refl) as (s1 & E1 & H1 & _).
  { intros [] [=] c l. simpl. rewrite lookup_insert_ne by done. apply F. }
  rewrite E1. simpl.
  destruct (drv_bus x) as [b|] eqn:Eb; [|by eexists].
  destruct (bus_add_driver_ok b a _ _ H1) as (s' & Es & H'); [|rewrite Es; simpl; by exists s'].
  split; [by eexists|]. simpl. rewrite lookup_insert_ne by done. split; [by apply L|]. intros c l. simpl. rewrite lookup_insert_ne by done. apply F.
Qed.

(** *** Unregistering: every device of the driver forgets it. *)

Definition can_driver_unregister a v : Prop :=
  exists x, v_drivers v !! a = Some x /\ (forall b, drv_bus x = Some b -> a ∈ v_list v BusDrivers b) /\
    is_Some (v_links v !! (DriverDevices, a)).

Definition v_off_bus a v : view :=
  match v_drivers v !! a ≫= drv_bus with Some b => v_drv (with_drv_bus None) a (v_unlink BusDrivers b a v) | None => v end.

Definition v_forget (l : list Z) v : view := foldl (fun v d => v_dev (with_driver None) d v) v l.

Definition v_driver_unregister a v : Z * view :=
  (0, v_forget (v_list v DriverDevices a) (v_init DriverDevices a (v_off_bus a v))).

Lemma forget_ok l s v : rep s v -> (forall d, d ∈ l -> is_Some (v_devices v !! d) /\ free (v_links v) DriverDevices d) ->
  exists ds, forget_all (devices s) (nodes_in DriverList l) = Some ds /\ rep (with_devices ds s) (v_forget l v).
Proof.
  revert s v. induction l as [|d l IH]; intros s v H Hl; simpl; [exists (devices s); split; [done|by destruct s]|].
  destruct (Hl d) as [[x Hx] Hf]; [left|]. unfold forget_driver. rewrite entry_addr.
  destruct (dev_step (with_driver None) d s v x H Hx) as (s' & E' & H'); auto. unfold update_device in E'.
  rewrite (rp_devices _ _ H), Hx in *. simpl in *. injection E' as <-.
  destruct (IH _ _ H') as (ds & Ed & Hd); [|exists ds; split; [done|exact Hd]].
  intros e He. simpl. rewrite alter_is_Some. apply Hl. by right.
Qed.

Lemma off_bus_ok a s v x : rep s v -> v_drivers v !! a = Some x -> (forall b, drv_bus x = Some b -> a ∈ v_list v BusDrivers b) ->
  exists s', match drv_bus x with None => Some s | Some b => r ← bus_remove_driver (Some b) (Some a) s; Some r.2 end = Some s' /\ rep s' (v_off_bus a v).
Proof.
  intros H Hx Hb. unfold v_off_bus. rewrite Hx. simpl. destruct (drv_bus x) as [b|] eqn:Eb; [|by exists s].
  destruct (bus_remove_driver_ok b a s v H) as (s' & E' & H').
  - exists x. split; [done|]. rewrite Eb. apply Hb.
  - rewrite E', bind_Some_l. unfold v_remove_driver in *. rewrite Hx, bool_decide_true in H' by done. by exists s'.
Qed.

Lemma off_bus_same a v f b : f <> BusDrivers -> v_links (v_off_bus a v) !! (f, b) = v_links v !! (f, b).
Proof. intros Hf. unfold v_off_bus. destruct (v_drivers v !! a ≫= drv_bus); [|done]. simpl. by rewrite lookup_alter_ne by congruence. Qed.

Lemma driver_unregister_ok a s v : rep s v -> can_driver_unregister a v ->
  exists s', driver_unregister (Some a) s = Some ((v_driver_unregister a v).1, s') /\ rep s' (v_driver_unregister a v).2.
Proof.
  intros H (x & Hx & Hb & [l Hl]). unfold driver_unregister, v_driver_unregister. rewrite (rp_drivers _ _ H), Hx, bind_Some_l.
  destruct (off_bus_ok a s v x H Hx Hb) as (s1 & E1 & H1). rewrite E1, bind_Some_l. cbn [fst snd]. set (v1 := v_off_bus a v) in *.
  assert (v_links v1 !! (DriverDevices, a) = Some l) as Hl1 by (unfold v1; by rewrite off_bus_same).
  assert (forall d, d ∈ l -> is_Some (v_devices v1 !! d)) as Hdev by (intros d Hd; by eapply listed_device).
  destruct (clear_links live layout _ _ DriverDevices a DriverList l (device_fuel s1) (rp_tracks _ _ H1) Hl1 eq_refl) as (h & Ec & HT).
  { unfold device_fuel. rewrite (rp_devices _ _ H1). eapply links_bound; [apply H1|done|done]. }
  rewrite Ec, bind_Some_l. cbn [fst snd]. assert (rep (with_nodes h s1) (v_init DriverDevices a v1)) as H2.
  { apply rep_links; try done.
    - intros k Hk. rewrite lookup_insert_is_Some'. auto.
    - intros g b l' e [[Hk <-]|[_ E']]%lookup_insert_Some Hin; [by apply not_elem_of_nil in Hin|]. by eapply (va_back _ (rp_valid _ _ H1)). }
  destruct (forget_ok l _ _ H2) as (ds & Ed & H3); [|]; simpl in *.
  - intros d Hd. split; [by apply Hdev|]. intros b l'. simpl. intros [[Hk <-]|[Hne E']]%lookup_insert_Some Hin; [by apply not_elem_of_nil in Hin|].
    apply Hne. f_equal. by eapply (tr_once _ _ _ (rp_tracks _ _ H1) DriverDevices).
  - rewrite Ed, bind_Some_l. eexists. split; [done|]. unfold v_list. by rewrite Hl.
Qed.
(** ** Matching and probing *)

Definition bus_table b : option Z := bus_info !! b ≫= snd.

(** The drivers are asked one after the other; the first answer 0 decides. *)
Fixpoint try_drivers (m : option (Z -> effect)) d (l : list Z) (w : W) : option Z * W :=
  match l with
  | [] => (None, w)
  | a :: l =>
      match m with
      | None => try_drivers m d l w
      | Some g => let r := g a d w in if r.1 =? 0 then (Some a, r.2) else try_drivers m d l r.2
      end
  end.

Definition drv_table a v : option Z := v_drivers v !! a ≫= drv_ops.

Definition v_matched d v (r : option Z * W) : Z * view :=
  match r.1 with
  | None => (- ENODEV, with_v_outside r.2 v)
  | Some a => (0, v_call (drv_table a v ≫= e_drv_probe E) d (v_add DriverDevices with_driver a d (with_v_outside r.2 v)))
  end.

Definition v_match b d v : Z * view :=
  if bool_decide (v_devices v !! d ≫= bus = Some b)
  then v_matched d v (try_drivers (bus_table b ≫= e_match E) d (v_list v BusDrivers b) (v_outside v))
  else (- EINVAL, v).

(** A device on a bus can be matched when no driver has it yet and all drivers on the bus
    have a list of devices. *)
Definition can_match b d v : Prop :=
  exists x, v_devices v !! d = Some x /\ (bus x = Some b -> is_Some (v_links v !! (BusDrivers, b)) /\
    free (v_links v) DriverDevices d /\ forall a, a ∈ v_list v BusDrivers b -> is_Some (v_links v !! (DriverDevices, a))).

Lemma match_of_ok b s v : rep s v -> is_Some (bus_info !! b) ->
  match_of T b s = Some (option_map (fun m a => lift (m a)) (bus_table b ≫= e_match E)).
Proof.
  intros H [i Hi]. destruct (bus_known _ _ _ _ H Hi) as (y & Hy & ->). unfold match_of, bus_table. rewrite Hy, Hi. simpl. f_equal.
  by apply probe_lift.
Qed.

Lemma listed_bus s v b : rep s v -> is_Some (v_links v !! (BusDrivers, b)) -> is_Some (bus_info !! b).
Proof. intros H [l El]. by destruct (tr_list _ _ _ (rp_tracks _ _ H) _ _ _ El) as (m & _ & Hl & _). Qed.

Lemma probe_of_ok a s v : rep s v -> is_Some (v_drivers v !! a) ->
  probe_of T a s = Some (option_map lift (drv_table a v ≫= e_drv_probe E)).
Proof.
  intros H [y Hy]. unfold probe_of, drv_table. rewrite (rp_drivers _ _ H), Hy. simpl. f_equal. by apply probe_lift.
Qed.

(** What happens to the device a driver accepts. *)
Lemma accept_ok a d s v : rep s v -> can_add DriverDevices a d v -> is_Some (v_drivers v !! a) ->
  exists s1 s', attach a d s = Some s1 /\ rep s1 (v_add DriverDevices with_driver a d v) /\
    probe_of T a s1 = Some (option_map lift (drv_table a v ≫= e_drv_probe E)) /\
    call (option_map lift (drv_table a v ≫= e_drv_probe E)) d s1 = Some s' /\
    rep s' (v_call (drv_table a v ≫= e_drv_probe E) d (v_add DriverDevices with_driver a d v)).
Proof.
  intros H Ha Hd. destruct (attach_ok a d s v H Ha) as (s1 & E1 & H1).
  destruct (call_step (drv_table a v ≫= e_drv_probe E) d s1 _ H1) as (s' & E' & H'). exists s1, s'. split_and!; try done.
  apply (probe_of_ok a s1 (v_add DriverDevices with_driver a d v) H1 Hd).
Qed.

Lemma can_add_outside f a d w v : can_add f a d v -> can_add f a d (with_v_outside w v).
Proof. done. Qed.

Lemma match_loop_ok fuel b d l1 l2 s v : rep s v -> v_links v !! (BusDrivers, b) = Some (l1 ++ l2) -> (length l2 < fuel)%nat ->
  (forall a, a ∈ l2 -> can_add DriverDevices a d v) ->
  let r := v_matched d v (try_drivers (bus_table b ≫= e_match E) d l2 (v_outside v)) in
  exists s', match_loop T fuel b d (List.hd (addr b BusDrivers) (nodes_in DriverBusList l2)) s = Some (r.1, s') /\ rep s' r.2.
Proof.
  cbv zeta. revert l1 fuel s v. induction l2 as [|a l2 IH]; intros l1 [|fuel] s v H El Hf Ha; simpl in Hf; try lia.
  { exists s. simpl. rewrite Z.eqb_refl. destruct v. done. }
  pose proof (listed_bus s v b H ltac:(by eexists)) as Hb.
  destruct (tracks_list _ _ _ _ _ _ DriverBusList (rp_tracks _ _ H) El eq_refl) as (Lb & Ll & _).
  assert (live DriverBusList a) as La by (rewrite Forall_forall in Ll; apply Ll; set_solver).
  assert (is_Some (v_drivers v !! a)) as Hdr by (eapply listed_driver; [done|done|set_solver]).
  assert ((addr a DriverBusList =? addr b BusDrivers) = false) as Hne.
  { apply Z.eqb_neq. intros Ea. by destruct (layout _ _ _ _ La Lb Ea). }
  assert (forall s v, rep s v -> v_links v !! (BusDrivers, b) = Some (l1 ++ a :: l2) ->
    next (nodes s) !! addr a DriverBusList = Some (List.hd (addr b BusDrivers) (nodes_in DriverBusList l2))) as Hnx
    by (intros s0 v0 H0 E0; by apply (next_link live _ _ BusDrivers b DriverBusList l1 a l2 (rp_tracks _ _ H0) E0)).
  simpl. rewrite Hne, (match_of_ok b s v H Hb), bind_Some_l.
  assert (v_links v !! (BusDrivers, b) = Some ((l1 ++ [a]) ++ l2)) as El' by (by rewrite <-app_assoc).
  destruct (bus_table b ≫= e_match E) as [g|]; cbn [option_map].
  - rewrite entry_addr. unfold lift at 1. rewrite !bind_Some_l. cbn [fst snd]. rewrite (rp_outside _ _ H). pose proof (rep_outside s v (g a d (v_outside v)).2 H) as H1.
    destruct ((g a d (v_outside v)).1 =? 0).
    + destruct (accept_ok a d _ _ H1 (can_add_outside _ _ _ _ _ (Ha a ltac:(left))) Hdr) as (s1 & s' & E1 & _ & E2 & E3 & H').
      rewrite E1, bind_Some_l, E2, bind_Some_l, E3. by exists s'.
    + rewrite (Hnx _ _ H1 El), bind_Some_l. destruct (IH (l1 ++ [a]) fuel _ _ H1 El') as (s' & Hs'); [lia| |by exists s'].
      intros c Hc. apply can_add_outside, Ha. by right.
  - rewrite bind_Some_l. cbv iota beta. rewrite (Hnx _ _ H El), bind_Some_l. destruct (IH (l1 ++ [a]) fuel _ _ H El') as (s' & Hs'); [lia| |by exists s'].
    intros c Hc. apply Ha. by right.
Qed.

Lemma bus_match_ok b d s v : rep s v -> can_match b d v ->
  exists s', bus_match_device T (Some b) (Some d) s = Some ((v_match b d v).1, s') /\ rep s' (v_match b d v).2.
Proof.
  intros H (x & Hx & Hc). unfold bus_match_device, v_match. rewrite (rp_devices _ _ H), Hx, !bind_Some_l.
  case_bool_decide as Eb; simpl; [|by exists s]. destruct (Hc Eb) as ([l El] & Hf & Hl). unfold v_list in *. rewrite El in *. simpl in *.
  rewrite (first_link live _ _ _ _ DriverBusList l (rp_tracks _ _ H) El eq_refl), bind_Some_l.
  destruct (match_loop_ok (driver_fuel s) b d [] l s v H El) as (s' & Hm).
  - unfold driver_fuel. rewrite (rp_drivers _ _ H). eapply links_bound; [apply H|done|]. intros a Ha. by eapply listed_driver.
  - intros a Ha. split; [by eexists|]. auto.
  - by exists s'.
Qed.

Definition can_probe a d v : Prop :=
  can_add DriverDevices a d v /\ exists y, v_drivers v !! a = Some y /\ forall b, drv_bus y = Some b -> is_Some (bus_info !! b).

Definition v_probe a d v : Z * view :=
  let m := (v_drivers v !! a ≫= drv_bus) ≫= fun b => bus_table b ≫= e_match E in
  let r := match m with Some g => g a d (v_outside v) | None => (0, v_outside v) end in
  let v := with_v_outside r.2 v in
  if r.1 =? 0 then
    let v := v_add DriverDevices with_driver a d v in
    match drv_table a v ≫= e_drv_probe E with
    | Some p => ((p d (v_outside v)).1, with_v_outside (p d (v_outside v)).2 v)
    | None => (0, v)
    end
  else (- ENODEV, v).

Lemma with_v_outside_same v : with_v_outside (v_outside v) v = v.
Proof. by destruct v. Qed.

Lemma driver_probe_ok a d s v : rep s v -> can_probe a d v ->
  exists s', driver_probe_device T (Some a) (Some d) s = Some ((v_probe a d v).1, s') /\ rep s' (v_probe a d v).2.
Proof.
  intros H (Ha & y & Hy & Hb). unfold driver_probe_device, v_probe. rewrite (rp_drivers _ _ H), Hy, bind_Some_l.
  change (Some y ≫= drv_bus) with (drv_bus y).
  assert (driver_match T y s =
    Some (option_map (fun m a => lift (m a)) (drv_bus y ≫= fun b => bus_table b ≫= e_match E))) as Em.
  { unfold driver_match. destruct (drv_bus y) as [b|]; [|done]. by apply (match_of_ok b s v H), Hb. }
  rewrite Em, bind_Some_l. clear Em. cbv zeta. set (m := drv_bus y ≫= _).
  set (r := match m with Some g => g a d (v_outside v) | None => (0, v_outside v) end).
  assert (exists s1, ask (option_map (fun m a => lift (m a)) m) a d s = Some (r.1, s1) /\
    rep s1 (with_v_outside r.2 v)) as (s1 & E1 & H1).
  { unfold r. destruct m as [g|]; simpl.
    - unfold lift. rewrite (rp_outside _ _ H). eexists. split; [done|]. by apply rep_outside.
    - exists s. by rewrite with_v_outside_same. }
  rewrite E1, bind_Some_l. cbn [fst snd]. destruct (r.1 =? 0); simpl; [|by exists s1].
  destruct (accept_ok a d s1 _ H1 (can_add_outside _ _ _ _ _ Ha) ltac:(by eexists)) as (s2 & s' & E2 & H2 & E3 & E4 & H').
  change (drv_table a (v_add DriverDevices with_driver a d (with_v_outside r.2 v))) with (drv_table a (with_v_outside r.2 v)).
  rewrite E2, bind_Some_l, E3, bind_Some_l. destruct (drv_table a _ ≫= e_drv_probe E) as [p|]; simpl in *.
  - injection E4 as <-. eexists. split; [|exact H']. unfold lift. by rewrite (rp_outside _ _ H2).
  - injection E4 as <-. by exists s2.
Qed.

End Spec.
End DeviceSpec.
