(* ===== verification/DeviceRefine.v ===== *)
(** Sequences of calls of the device model ([kernel/device/device.c]) refine sequences of
    operations on lists; what registration promises; and where the code breaks its own
    lists. *)

From S2P Require Import Prelude KList Links SList CStr Device DeviceSpec.

Module DeviceRefine.
Import KList Links CStr Device DeviceSpec.

Inductive op :=
  | DeviceRegister (d : Z) | DeviceUnregister (d : Z) | DeviceFind (n : list Z) | DeviceFindNum (ma mi : Z)
  | BusRegister (b : Z) | BusUnregister (b : Z) | BusFind (n : list Z)
  | BusAddDevice (b d : Z) | BusRemoveDevice (b d : Z) | BusAddDriver (b a : Z) | BusRemoveDriver (b a : Z) | BusMatch (b d : Z)
  | DriverRegister (a : Z) | DriverUnregister (a : Z) | DriverFind (n : list Z)
  | DriverAddDevice (a d : Z) | DriverRemoveDevice (a d : Z) | DriverProbe (a d : Z)
  | ClassRegister (c : Z) | ClassUnregister (c : Z) | ClassFind (n : list Z) | ClassAddDevice (c d : Z) | ClassRemoveDevice (c d : Z).

(** An error code or a pointer. *)
Inductive answer := Code (r : Z) | Found (p : option Z).

Section Refine.
Context {W : Type} (device_list : Z) (E : effects (W := W)).
Implicit Types (s : registry W) (v : view (W := W)).

Definition coded {A} (r : option (Z * A)) : option (answer * A) := r ← r; Some (Code r.1, r.2).
Definition looked s (r : option (option Z)) : option (answer * registry W) := r ← r; Some (Found r, s).

Definition perform (o : op) s : option (answer * registry W) :=
  let T := tables_of E in
  match o with
  | DeviceRegister d => coded (device_register device_list T (Some d) s)
  | DeviceUnregister d => coded (device_unregister T (Some d) s)
  | DeviceFind n => looked s (device_find_by_name device_list (Some n) s)
  | DeviceFindNum ma mi => looked s (device_find_by_devnum device_list ma mi s)
  | BusRegister b => coded (bus_register (Some b) s)
  | BusUnregister b => coded (bus_unregister (Some b) s)
  | BusFind n => looked s (bus_find_by_name (Some n) s)
  | BusAddDevice b d => coded (bus_add_device (Some b) (Some d) s)
  | BusRemoveDevice b d => coded (bus_remove_device (Some b) (Some d) s)
  | BusAddDriver b a => coded (bus_add_driver (Some b) (Some a) s)
  | BusRemoveDriver b a => coded (bus_remove_driver (Some b) (Some a) s)
  | BusMatch b d => coded (bus_match_device T (Some b) (Some d) s)
  | DriverRegister a => coded (driver_register (Some a) s)
  | DriverUnregister a => coded (driver_unregister (Some a) s)
  | DriverFind n => looked s (driver_find_by_name (Some n) s)
  | DriverAddDevice a d => coded (driver_add_device (Some a) (Some d) s)
  | DriverRemoveDevice a d => coded (driver_remove_device (Some a) (Some d) s)
  | DriverProbe a d => coded (driver_probe_device T (Some a) (Some d) s)
  | ClassRegister c => coded (class_register (Some c) s)
  | ClassUnregister c => coded (class_unregister (Some c) s)
  | ClassFind n => looked s (class_find_by_name (Some n) s)
  | ClassAddDevice c d => coded (class_add_device T (Some c) (Some d) s)
  | ClassRemoveDevice c d => coded (class_remove_device T (Some c) (Some d) s)
  end.

Context (bus_info class_info : gmap Z (list Z * option Z)) (Ds Vs : gset Z).

(** The same on lists. *)
Definition code (r : Z * view (W := W)) : answer * view (W := W) := (Code r.1, r.2).

Definition spec (o : op) v : answer * view (W := W) :=
  match o with
  | DeviceRegister d => code (v_register device_list E d v)
  | DeviceUnregister d => code (v_unregister device_list E d v)
  | DeviceFind n => (Found (v_find device_list (same_name n) v), v)
  | DeviceFindNum ma mi => (Found (v_find device_list (fun x => (major x =? ma) && (minor x =? mi)) v), v)
  | BusRegister b => code (v_bus_register bus_info b v)
  | BusUnregister b => code (v_bus_unregister b v)
  | BusFind n => (Found (v_named bus_info (v_buses v) n), v)
  | BusAddDevice b d => (Code 0, v_add BusDevices with_bus b d v)
  | BusRemoveDevice b d => code (v_remove BusDevices bus with_bus b d v)
  | BusAddDriver b a => (Code 0, v_add_driver b a v)
  | BusRemoveDriver b a => code (v_remove_driver b a v)
  | BusMatch b d => code (v_match bus_info E b d v)
  | DriverRegister a => code (v_driver_register a v)
  | DriverUnregister a => code (v_driver_unregister a v)
  | DriverFind n => (Found (v_find_driver n v), v)
  | DriverAddDevice a d => (Code 0, v_add DriverDevices with_driver a d v)
  | DriverRemoveDevice a d => code (v_remove DriverDevices driver with_driver a d v)
  | DriverProbe a d => code (v_probe bus_info E a d v)
  | ClassRegister c => code (v_class_register class_info c v)
  | ClassUnregister c => code (v_class_unregister c v)
  | ClassFind n => (Found (v_named class_info (v_classes v) n), v)
  | ClassAddDevice c d => (Code 0, v_class_add class_info E c d v)
  | ClassRemoveDevice c d => code (v_class_remove class_info E c d v)
  end.

(** What the code expects of its callers: structures in memory, terminated names, that
    what is linked or unlinked is not, or is, linked already, and that the devices that are registered and
    unregistered have no parent ([can_enter], [can_unregister]): [device_register] puts the list of devices out of order when it links a child to its parent. *)
Definition allowed (o : op) v : Prop :=
  match o with
  | DeviceRegister d => can_register device_list d v
  | DeviceUnregister d => can_unregister device_list d v
  | DeviceFind n | BusFind n | DriverFind n | ClassFind n => 0 ∈ n
  | DeviceFindNum _ _ => True
  | BusRegister b => can_bus_register bus_info b v
  | BusUnregister b => is_Some (bus_info !! b)
  | BusAddDevice b d => can_add BusDevices b d v
  | BusRemoveDevice b d => can_remove BusDevices bus b d v
  | BusAddDriver b a => can_add_driver b a v
  | BusRemoveDriver b a => can_remove_driver b a v
  | BusMatch b d => can_match b d v
  | DriverRegister a => can_driver_register a v
  | DriverUnregister a => can_driver_unregister a v
  | DriverAddDevice a d => can_add DriverDevices a d v
  | DriverRemoveDevice a d => can_remove DriverDevices driver a d v
  | DriverProbe a d => can_probe bus_info a d v
  | ClassRegister c => can_class_register class_info c v
  | ClassUnregister c => is_Some (class_info !! c)
  | ClassAddDevice c d => can_add ClassDevices c d v
  | ClassRemoveDevice c d => can_remove ClassDevices class c d v
  end.

Fixpoint run (os : list op) s : option (list answer * registry W) :=
  match os with
  | [] => Some ([], s)
  | o :: os => r ← perform o s; q ← run os r.2; Some (r.1 :: q.1, q.2)
  end.

Fixpoint spec_run (os : list op) v : list answer * view (W := W) :=
  match os with
  | [] => ([], v)
  | o :: os => let r := spec o v in let q := spec_run os r.2 in (r.1 :: q.1, q.2)
  end.

Fixpoint all_allowed (os : list op) v : Prop :=
  match os with [] => True | o :: os => allowed o v /\ all_allowed os (spec o v).2 end.

Notation rep := (rep device_list bus_info class_info Ds Vs).
Context (layout : disjoint_layout device_list bus_info class_info Ds Vs) (Hbn : terminated bus_info) (Hcn : terminated class_info).

Lemma coded_ok (c : option (Z * registry W)) (r : Z * view (W := W)) : (exists s', c = Some (r.1, s') /\ rep s' r.2) ->
  exists s', coded c = Some ((code r).1, s') /\ rep s' (code r).2.
Proof. intros (s' & -> & H). by exists s'. Qed.

Lemma done_ok (c : option (Z * registry W)) v' : (exists s', c = Some (0, s') /\ rep s' v') ->
  exists s', coded c = Some (Code 0, s') /\ rep s' v'.
Proof. intros (s' & -> & H). by exists s'. Qed.

Lemma looked_ok s v c r : rep s v -> c = Some r -> exists s', looked s c = Some (Found r, s') /\ rep s' v.
Proof. intros H ->. by exists s. Qed.

Lemma device_perform_ok o s v : rep s v -> allowed o v -> exists s', perform o s = Some ((spec o v).1, s') /\ rep s' (spec o v).2.
Proof.
  intros H Ha. destruct o; simpl in Ha; cbn [perform spec fst snd]; try apply coded_ok; try apply done_ok;
    try (apply looked_ok; [done|]).
  - by apply device_register_ok.
  - by apply device_unregister_ok.
  - by eapply find_by_name_ok.
  - by eapply find_by_devnum_ok.
  - by apply bus_register_ok.
  - by apply bus_unregister_ok.
  - by eapply bus_find_ok.
  - by apply bus_add_device_ok.
  - by apply bus_remove_device_ok.
  - by apply bus_add_driver_ok.
  - by apply bus_remove_driver_ok.
  - by apply bus_match_ok.
  - by apply driver_register_ok.
  - by apply driver_unregister_ok.
  - by eapply driver_find_ok.
  - unfold driver_add_device. destruct (attach_ok device_list bus_info class_info Ds Vs layout a d s v H Ha) as (s' & Es & H'). rewrite Es, bind_Some_l. by exists s'.
  - by apply driver_remove_device_ok.
  - by apply driver_probe_ok.
  - by apply class_register_ok.
  - by apply class_unregister_ok.
  - by eapply class_find_ok.
  - by apply class_add_device_ok.
  - by apply class_remove_device_ok.
Qed.

Lemma run_ok os s v : rep s v -> all_allowed os v -> exists s', run os s = Some ((spec_run os v).1, s') /\ rep s' (spec_run os v).2.
Proof.
  revert s v. induction os as [|o os IH]; intros s v H Ha; [by exists s|]. destruct Ha as [Ho Ha].
  destruct (device_perform_ok o s v H Ho) as (s1 & E1 & H1). destruct (IH s1 _ H1 Ha) as (s2 & E2 & H2).
  simpl. rewrite E1, bind_Some_l. simpl. rewrite E2, bind_Some_l. by exists s2.
Qed.

(** C30: any sequence of calls of the device model within the obligations of its callers ([allowed]; in particular devices
    have no parent, as registering a child breaks the list of devices) runs without a
    fault and gives the answers, the lists, the fields and the effects of the same
    sequence of operations on finite lists of devices, drivers, buses and classes: devices
    are found by name and number among the registered ones, newest first; a driver is
    found on the registered buses; a device is matched with the first driver of its bus
    that accepts it; and a name that is registered already is refused. *)
Theorem device_model_refines os s v : rep s v -> all_allowed os v ->
  exists s', run os s = Some ((spec_run os v).1, s') /\ rep s' (spec_run os v).2.
Proof. apply run_ok. Qed.
(** ** Well-formed registries *)

Definition dname v d : option (list Z) := option_map (fun x => cstr (name x)) (v_devices v !! d).
Definition iname (info : gmap Z (list Z * option Z)) b : option (list Z) := option_map (fun i => cstr i.1) (info !! b).

(** No two registered devices, buses or classes have the same name. *)
Definition distinct v : Prop :=
  NoDup (map (dname v) (v_list v DeviceList device_list)) /\ NoDup (map (iname bus_info) (v_buses v)) /\
  NoDup (map (iname class_info) (v_classes v)).

(** A step that registers and unregisters nothing. *)
Record same v v' : Prop := {
  sm_list : v_list v' DeviceList device_list = v_list v DeviceList device_list;
  sm_name : forall d, dname v' d = dname v d;
  sm_buses : v_buses v' = v_buses v;
  sm_classes : v_classes v' = v_classes v
}.

Lemma same_refl v : same v v.
Proof. done. Qed.
Lemma same_trans v1 v2 v3 : same v1 v2 -> same v2 v3 -> same v1 v3.
Proof. intros [A1 B1 C1 D1] [A2 B2 C2 D2]. split; [congruence| |congruence..]. intros d. by rewrite B2, B1. Qed.
Lemma same_dev g d v : (forall x, name (g x) = name x) -> same v (v_dev g d v).
Proof.
  intros Hg. split; try done. intros e. unfold dname. simpl. destruct (decide (d = e)) as [->|]; [|by rewrite lookup_alter_ne].
  rewrite lookup_alter_eq. destruct (v_devices v !! e); simpl; [by rewrite Hg|done].
Qed.
Lemma same_drv g a v : same v (v_drv g a v).
Proof. done. Qed.
Lemma same_outside w v : same v (with_v_outside w v).
Proof. done. Qed.
Lemma same_call g d v : same v (v_call g d v).
Proof. by destruct g. Qed.
Lemma same_links R v : R !! (DeviceList, device_list) = v_links v !! (DeviceList, device_list) -> same v (with_links R v).
Proof. intros HR. split; try done. unfold v_list. simpl. by rewrite HR. Qed.
Lemma same_link f a d v : f <> DeviceList -> same v (v_link f a d v).
Proof. intros Hf. apply same_links. apply lookup_alter_ne. congruence. Qed.
Lemma same_unlink f a d v : f <> DeviceList -> same v (v_unlink f a d v).
Proof. intros Hf. apply same_links. apply lookup_alter_ne. congruence. Qed.
Lemma same_init f a v : f <> DeviceList -> same v (v_init f a v).
Proof. intros Hf. apply same_links. apply lookup_insert_ne. congruence. Qed.
Lemma same_forget l v : same v (v_forget l v).
Proof.
  revert v. induction l as [|d l IH]; intros v; [done|]. simpl. eapply same_trans; [|apply IH]. by apply same_dev.
Qed.

Lemma same_distinct v v' : same v v' -> distinct v -> distinct v'.
Proof.
  intros [HL HN HB HC] (D1 & D2 & D3). unfold distinct. rewrite HL, HB, HC. split; [|done].
  by rewrite (map_ext (dname v') (dname v)) by done.
Qed.

Lemma same_link_opt f o d v : f <> DeviceList -> same v (v_link_opt f o d v).
Proof. intros. destruct o; [by apply same_link|done]. Qed.
Lemma same_unlink_opt f o d v : f <> DeviceList -> same v (v_unlink_opt f o d v).
Proof. intros. destruct o; [by apply same_unlink|done]. Qed.

(** [same_steps] goes through a composition of steps. *)
Ltac same_by L u := apply (same_trans _ u); [|apply L; done].
Ltac same_steps := repeat match goal with
  | |- same ?u ?u => apply same_refl
  | |- same _ (v_dev _ _ ?u) => same_by same_dev u
  | |- same _ (v_drv _ _ ?u) => same_by same_drv u
  | |- same _ (with_v_outside _ ?u) => same_by same_outside u
  | |- same _ (v_call _ _ ?u) => same_by same_call u
  | |- same _ (v_link _ _ _ ?u) => same_by same_link u
  | |- same _ (v_unlink _ _ _ ?u) => same_by same_unlink u
  | |- same _ (v_link_opt _ _ _ ?u) => same_by same_link_opt u
  | |- same _ (v_unlink_opt _ _ _ ?u) => same_by same_unlink_opt u
  | |- same _ (v_init _ _ ?u) => same_by same_init u
  | |- same _ (v_forget _ ?u) => same_by same_forget u
  end.

(** The calls that neither register nor unregister a device, a bus or a class. *)
Definition passive (o : op) : bool :=
  match o with
  | DeviceRegister _ | DeviceUnregister _ | BusRegister _ | BusUnregister _ | ClassRegister _ | ClassUnregister _ => false
  | _ => true
  end.

Lemma passive_same o v : passive o = true -> same v (spec o v).2.
Proof.
  destruct o; intros [=]; cbn [spec code fst snd]; try done; unfold v_add, v_remove, v_add_driver, v_remove_driver, v_match, v_matched,
    v_driver_register, v_driver_unregister, v_off_bus, v_probe, v_class_add, v_class_remove, v_add_driver, v_add;
    repeat case_match; cbn [fst snd]; same_steps.
Qed.

Lemma named_fresh info l b i : info !! b = Some i -> v_named info l i.1 = None -> iname info b ∉ map (iname info) l.
Proof.
  intros Hi Hf (c & Ec & Hc)%list_elem_of_fmap. pose proof (List.find_none _ _ Hf c (proj1 (list_elem_of_In _ _) Hc)) as Hn. cbv beta in Hn.
  unfold iname in Ec. rewrite Hi in Ec. simpl in Ec. destruct (info !! c) as [j|]; [|done]. simpl in Ec. injection Ec as Ec.
  by rewrite bool_decide_true in Hn.
Qed.

Lemma without_NoDup {A} (g : Z -> A) b l : NoDup (map g l) -> NoDup (map g (without b l)).
Proof. intros H. eapply (sublist_NoDup _ (map g l)); [done|]. apply (fmap_sublist g), sublist_filter. Qed.

(** Entering a device whose name is new. *)
Lemma enter_distinct d x v : v_devices v !! d = Some x -> is_Some (v_links v !! (DeviceList, device_list)) ->
  v_find device_list (same_name (name x)) v = None -> distinct v -> distinct (v_enter device_list E d x v).
Proof.
  intros Hx [l El] Hf HD. unfold v_enter. set (v1 := v_dev _ d v). assert (same v v1) as H1 by (by apply same_dev).
  apply (same_distinct (v_link DeviceList device_list d v1)); [same_steps|].
  destruct (same_distinct _ _ H1 HD) as (D1 & D2 & D3). split; [|done].
  assert (v_list (v_link DeviceList device_list d v1) DeviceList device_list = d :: v_list v1 DeviceList device_list) as ->.
  { unfold v_list. simpl. by rewrite lookup_alter_eq, El. }
  simpl. apply NoDup_cons. split; [|done]. change (dname (v_link _ _ _ _)) with (dname v1). rewrite (sm_list _ _ H1).
  intros (e & Ee & He)%list_elem_of_fmap. rewrite !(sm_name _ _ H1) in Ee. unfold dname in Ee. rewrite Hx in Ee.
  destruct (v_devices v !! e) as [y|] eqn:Hy; [|done]. injection Ee as Ee.
  pose proof (List.find_none _ _ Hf e (proj1 (list_elem_of_In _ _) He)) as Hn. cbv beta in Hn. rewrite Hy in Hn. unfold same_name in Hn.
  by rewrite bool_decide_true in Hn.
Qed.

Lemma step_distinct o s v : rep s v -> distinct v -> allowed o v -> distinct (spec o v).2.
Proof.
  intros H HD Ha. destruct (passive o) eqn:Hp; [by eapply same_distinct; [apply passive_same|]|].
  destruct o; try discriminate Hp; cbn [spec code fst snd]; clear Hp.
  - destruct Ha as (x & Hx & _). unfold v_register. rewrite Hx. destruct (v_find _ _ v) eqn:Ef; [done|]. cbn [snd].
    apply enter_distinct; try done. eapply va_list, rp_valid, H.
  - destruct Ha as (x & Hx & _). unfold v_unregister. rewrite Hx. cbn [snd]. set (v1 := v_call _ d _).
    apply (same_distinct (v_unlink DeviceList device_list d v1)); [same_steps|].
    assert (same v v1) as H1 by (unfold v1; same_steps). destruct (same_distinct _ _ H1 HD) as (D1 & D2 & D3). split; [|done].
    assert (v_list (v_unlink DeviceList device_list d v1) DeviceList device_list = without d (v_list v1 DeviceList device_list)) as ->.
    { unfold v_list. simpl. rewrite lookup_alter_eq. by destruct (v_links v1 !! _). }
    by apply without_NoDup.
  - destruct Ha as (i & Hi & _). unfold v_bus_register. rewrite Hi. destruct (v_named _ _ _) eqn:Ef; [done|]. cbn [snd].
    assert (same v (v_init BusDevices b (v_init BusDrivers b v))) as H1 by same_steps. destruct (same_distinct _ _ H1 HD) as (D1 & D2 & D3).
    split_and!; [done| |done]. simpl. apply NoDup_cons. split; [by eapply named_fresh|done].
  - destruct HD as (D1 & D2 & D3). split_and!; [done| |done]. by apply without_NoDup.
  - destruct Ha as (i & Hi & _). unfold v_class_register. rewrite Hi. destruct (v_named _ _ _) eqn:Ef; [done|]. cbn [snd].
    assert (same v (v_init ClassDevices c v)) as H1 by same_steps. destruct (same_distinct _ _ H1 HD) as (D1 & D2 & D3).
    split_and!; [done|done|]. simpl. apply NoDup_cons. split; [by eapply named_fresh|done].
  - destruct HD as (D1 & D2 & D3). split_and!; [done|done|]. by apply without_NoDup.
Qed.

Lemma run_distinct os s v : rep s v -> distinct v -> all_allowed os v -> distinct (spec_run os v).2.
Proof.
  revert s v. induction os as [|o os IH]; intros s v H HD Ha; [done|]. destruct Ha as [Ho Ha].
  destruct (device_perform_ok o s v H Ho) as (s1 & _ & H1). simpl. eapply IH; [done|by eapply step_distinct|done].
Qed.
(** What an element of a list of the kind [f] of [a] says of itself. *)
Definition points_back s f a d : Prop :=
  match f with
  | DeviceList => is_Some (devices s !! d)
  | BusDrivers => exists x, drivers s !! d = Some x /\ drv_bus x = Some a
  | BusDevices => exists x, devices s !! d = Some x /\ bus x = Some a
  | ClassDevices => exists x, devices s !! d = Some x /\ class x = Some a
  | DriverDevices => exists x, devices s !! d = Some x /\ driver x = Some a
  | _ => True
  end.

(** The list of the kind [f] of [a] is a circular list of structures that point back. *)
Definition good_list s f a (l : list Z) : Prop :=
  exists m, member f = Some m /\ is_list (nodes s) (addr a f) (nodes_in m l) /\ forall d, d ∈ l -> points_back s f a d.

Record well_formed s : Prop := {
  wf_devices : exists l, good_list s DeviceList device_list l /\
    NoDup (map (fun d => option_map (fun x => cstr (name x)) (devices s !! d)) l);
  wf_buses : exists l, SList.chain bus_next (buses s) (bus_list s) l /\
    NoDup (map (fun b => option_map (fun x => cstr (bus_name x)) (buses s !! b)) l) /\
    forall b, b ∈ l -> (exists ds, good_list s BusDevices b ds) /\ exists vs, good_list s BusDrivers b vs;
  wf_classes : exists l, SList.chain class_next (classes s) (class_list s) l /\
    NoDup (map (fun c => option_map (fun x => cstr (class_name x)) (classes s !! c)) l) /\
    forall c, c ∈ l -> exists ds, good_list s ClassDevices c ds
}.

Lemma rep_good s v f a l : rep s v -> v_links v !! (f, a) = Some l -> good_list s f a l.
Proof.
  intros H El. destruct (tr_list _ _ _ (rp_tracks _ _ _ _ _ _ _ H) _ _ _ El) as (m & Em & _ & Hl & HL). exists m. split_and!; try done.
  intros d Hd. pose proof (va_back _ _ _ _ (rp_valid _ _ _ _ _ _ _ H) _ _ _ _ El Hd) as Ho. unfold points_back.
  rewrite (rp_devices _ _ _ _ _ _ _ H), (rp_drivers _ _ _ _ _ _ _ H). destruct f; try done; simpl in Ho.
  - by eapply listed_device.
  - destruct (v_drivers v !! d) as [x|]; [by exists x|done].
  - destruct (v_devices v !! d) as [x|]; [by exists x|done].
  - destruct (v_devices v !! d) as [x|]; [by exists x|done].
  - destruct (v_devices v !! d) as [x|]; [by exists x|done].
Qed.

Lemma rep_well_formed s v : rep s v -> distinct v -> well_formed s.
Proof.
  intros H (D1 & D2 & D3). pose proof (rp_valid _ _ _ _ _ _ _ H) as V. split.
  - destruct (va_list _ _ _ _ V) as [l El]. exists l. split; [by eapply rep_good|]. rewrite (rp_devices _ _ _ _ _ _ _ H).
    unfold v_list in D1. by rewrite El in D1.
  - exists (v_buses v). split; [apply H|]. split.
    + rewrite (map_ext _ (iname bus_info)); [done|]. intros b. unfold iname. rewrite <-(rp_buses _ _ _ _ _ _ _ H), lookup_fmap. by destruct (buses s !! b).
    + intros b Hb. destruct (va_buses _ _ _ _ V b Hb) as [[vs Ev] [ds Ed]]. split; eexists; by eapply rep_good.
  - exists (v_classes v). split; [apply H|]. split.
    + rewrite (map_ext _ (iname class_info)); [done|]. intros c. unfold iname. rewrite <-(rp_classes _ _ _ _ _ _ _ H), lookup_fmap. by destruct (classes s !! c).
    + intros c Hc. destruct (va_classes _ _ _ _ V c Hc) as [ds Ed]. eexists. by eapply rep_good.
Qed.

(** C31: whatever callers do within their obligations ([allowed]; in particular devices have no parent), the registry stays well formed: the
    lists of devices, of buses, of classes, and of the devices and drivers of every
    registered bus and class are intact, everything in a list has its pointer set to the
    list's owner, and no two registered devices, buses or classes have the same name. *)
Theorem registry_well_formed os s v : rep s v -> distinct v -> all_allowed os v ->
  exists r s', run os s = Some (r, s') /\ well_formed s'.
Proof.
  intros H HD Ha. destruct (run_ok os s v H Ha) as (s' & Es & H'). exists (spec_run os v).1, s'. split; [done|].
  eapply rep_well_formed; [done|]. by eapply run_distinct.
Qed.

(** ** Registering, finding, unregistering *)

Lemma find_ext (t t' : Z -> bool) l : (forall a, a ∈ l -> t a = t' a) -> List.find t l = List.find t' l.
Proof.
  induction l as [|a l IH]; intros Ht; [done|]. simpl. rewrite (Ht a) by left. rewrite IH; [done|]. intros b Hb. apply Ht. by right.
Qed.

(** The fields that lookups read. *)
Definition keys v d : option (list Z * Z * Z) := option_map (fun x => (name x, major x, minor x)) (v_devices v !! d).

Definition by_keys (t : device -> bool) : Prop :=
  forall x y, name x = name y -> major x = major y -> minor x = minor y -> t x = t y.

Lemma find_keys t v v' : by_keys t -> (forall d, keys v' d = keys v d) -> v_list v' DeviceList device_list = v_list v DeviceList device_list ->
  v_find device_list t v' = v_find device_list t v.
Proof.
  intros Ht Hk Hl. unfold v_find. rewrite Hl. apply find_ext. intros d _. specialize (Hk d). unfold keys in Hk.
  destruct (v_devices v' !! d) as [x|], (v_devices v !! d) as [y|]; try done. injection Hk as ? ? ?. by apply Ht.
Qed.

Lemma keys_state z d v e : keys (v_dev (with_state z) d v) e = keys v e.
Proof.
  unfold keys. simpl. destruct (decide (d = e)) as [->|]; [|by rewrite lookup_alter_ne]. rewrite lookup_alter_eq. by destruct (v_devices v !! e).
Qed.

Lemma enter_devices d x v : v_devices (v_enter device_list E d x v) = alter (with_state DEVICE_STATE_ENABLED) d (alter (with_state DEVICE_STATE_DISABLED) d (v_devices v)).
Proof. unfold v_enter. simpl. by rewrite v_call_devices, !v_link_opt_devices. Qed.

Lemma enter_keys d x v e : keys (v_enter device_list E d x v) e = keys v e.
Proof.
  transitivity (keys (v_dev (with_state DEVICE_STATE_ENABLED) d (v_dev (with_state DEVICE_STATE_DISABLED) d v)) e); [|by rewrite !keys_state].
  unfold keys. by rewrite enter_devices.
Qed.

Lemma enter_list d x v : is_Some (v_links v !! (DeviceList, device_list)) ->
  v_list (v_enter device_list E d x v) DeviceList device_list = d :: v_list v DeviceList device_list.
Proof.
  intros [l El]. unfold v_enter. set (v1 := v_dev _ d v). set (v2 := v_link DeviceList device_list d v1).
  rewrite (sm_list v2) by same_steps. unfold v2, v_list. simpl. by rewrite lookup_alter_eq, El.
Qed.

(** A newly registered device is the first that is found. *)
Lemma enter_find t d x v : by_keys t -> v_devices v !! d = Some x -> is_Some (v_links v !! (DeviceList, device_list)) ->
  v_find device_list t (v_enter device_list E d x v) = if t x then Some d else v_find device_list t v.
Proof.
  intros Ht Hx Hl. unfold v_find at 1. rewrite enter_list by done. simpl.
  pose proof (enter_keys d x v) as Hk. set (v' := v_enter _ _ _ _ _) in *.
  assert (forall e, match v_devices v' !! e with Some y => t y | None => false end = match v_devices v !! e with Some y => t y | None => false end) as He.
  { intros e. specialize (Hk e). unfold keys in Hk. destruct (v_devices v' !! e) as [y|], (v_devices v !! e) as [z|]; try done.
    injection Hk as ? ? ?. by apply Ht. }
  rewrite He, Hx. destruct (t x); [done|]. by apply find_ext.
Qed.

Lemma without_cons d l : d ∉ l -> without d (d :: l) = l.
Proof. intros Hd. unfold without. rewrite filter_cons_False by tauto. by apply without_same. Qed.

(** What is in the lists behind [v_enter]. *)
Lemma enter_linked d x v f o : f <> DeviceList -> (f, o) ∈ [(BusDevices, bus x); (ClassDevices, class x); (DriverDevices, driver x)] ->
  forall a, o = Some a -> is_Some (v_links v !! (f, a)) -> d ∈ v_list (v_enter device_list E d x v) f a.
Proof.
  intros Hf Ho a -> [l El]. unfold v_list, v_enter. simpl. rewrite v_call_links.
  assert (forall o g, (g, o) = (f, Some a) -> forall v0, is_Some (v_links v0 !! (f, a)) -> d ∈ default [] (v_links (v_link_opt g o d v0) !! (f, a))) as Hin.
  { intros o g [= -> ->] v0 [l0 E0]. simpl. rewrite lookup_alter_eq, E0. left. }
  assert (forall o g, forall v0, d ∈ default [] (v_links v0 !! (f, a)) -> d ∈ default [] (v_links (v_link_opt g o d v0) !! (f, a))) as Hkeep.
  { intros [b|] g v0 H0; [|done]. simpl. destruct (decide ((g, b) = (f, a))) as [->|]; [|by rewrite lookup_alter_ne].
    rewrite lookup_alter_eq. destruct (v_links v0 !! (f, a)); simpl in *; [by right|done]. }
  assert (is_Some (v_links (v_link DeviceList device_list d (v_dev (with_state DEVICE_STATE_DISABLED) d v)) !! (f, a))) as Hs.
  { apply list_kept. by exists l. }
  rewrite !elem_of_cons in Ho. destruct Ho as [Ho|[Ho|[Ho|Ho%not_elem_of_nil]]]; [..|done].
  - by apply Hkeep, Hkeep, Hin.
  - apply Hkeep, Hin; [done|]. by apply list_kept_opt.
  - apply Hin; [done|]. by apply list_kept_opt, list_kept_opt.
Qed.

Lemma entered_can_unregister d x v : v_devices v !! d = Some x -> is_Some (v_links v !! (DeviceList, device_list)) -> can_enter d x v ->
  can_unregister device_list d (v_enter device_list E d x v).
Proof.
  intros Hx Hl (Hp & _ & _ & _ & L1 & L2 & L3). exists (with_state DEVICE_STATE_ENABLED (with_state DEVICE_STATE_DISABLED x)).
  split; [by rewrite enter_devices, lookup_alter_eq, lookup_alter_eq, Hx|]. split; [done|]. split; [rewrite enter_list by done; left|].
  split_and!; intros a Ha; eapply enter_linked; try done; eauto; set_solver.
Qed.

Lemma unregister_find t d x v : by_keys t -> v_devices v !! d = Some x -> is_Some (v_links v !! (DeviceList, device_list)) ->
  d ∉ v_list v DeviceList device_list ->
  v_find device_list t (v_unregister device_list E d (v_enter device_list E d x v)).2 = v_find device_list t v.
Proof.
  intros Ht Hx Hl Hd. set (v1 := v_enter _ _ d x v). assert (v_devices v1 !! d = Some (with_state DEVICE_STATE_ENABLED (with_state DEVICE_STATE_DISABLED x))) as Hx1.
  { unfold v1. by rewrite enter_devices, lookup_alter_eq, lookup_alter_eq, Hx. }
  unfold v_unregister. rewrite Hx1. cbn [snd]. set (v2 := v_call _ d _). apply find_keys; [done| |].
  - intros e. transitivity (keys v2 e); [unfold keys; by rewrite !unlink_opt_devices|]. unfold v2, keys. rewrite v_call_devices.
    change (keys (v_dev (with_state DEVICE_STATE_DISABLED) d v1) e = keys v e). rewrite keys_state. apply enter_keys.
  - rewrite (sm_list (v_unlink DeviceList device_list d v2)) by same_steps.
    assert (same v1 v2) as H2 by (unfold v2; same_steps). pose proof (sm_list _ _ H2) as L2.
    assert (v_list (v_unlink DeviceList device_list d v2) DeviceList device_list = without d (v_list v2 DeviceList device_list)) as ->.
    { unfold v_list. simpl. rewrite lookup_alter_eq. by destruct (v_links v2 !! _). }
    rewrite L2. unfold v1. rewrite enter_list by done. by apply without_cons.
Qed.

Lemma by_keys_name n : by_keys (same_name n).
Proof. intros x y Hn _ _. unfold same_name. by rewrite Hn. Qed.
Lemma by_keys_num ma mi : by_keys (fun x => (major x =? ma) && (minor x =? mi)).
Proof. intros x y _ Hm Hi. by rewrite Hm, Hi. Qed.

(** A device with a new name, registered by [device_register], is found by its name and
    by its number; no other name leads elsewhere than before; and when it is unregistered,
    every lookup answers as it did before the device came. *)
Theorem register_find_unregister d s v x : rep s v -> v_devices v !! d = Some x -> can_enter d x v ->
  v_find device_list (same_name (name x)) v = None ->
  exists s1 s2, device_register device_list (tables_of E) (Some d) s = Some (0, s1) /\
    device_find_by_name device_list (Some (name x)) s1 = Some (Some d) /\
    device_find_by_devnum device_list (major x) (minor x) s1 = Some (Some d) /\
    (forall n, 0 ∈ n -> cstr n <> cstr (name x) -> device_find_by_name device_list (Some n) s1 = device_find_by_name device_list (Some n) s) /\
    device_unregister (tables_of E) (Some d) s1 = Some (0, s2) /\
    (forall n, 0 ∈ n -> device_find_by_name device_list (Some n) s2 = device_find_by_name device_list (Some n) s) /\
    (forall ma mi, device_find_by_devnum device_list ma mi s2 = device_find_by_devnum device_list ma mi s).
Proof.
  intros H Hx Hc Hf. pose proof (va_list _ _ _ _ (rp_valid _ _ _ _ _ _ _ H)) as Hl. pose proof (va_names _ _ _ _ (rp_valid _ _ _ _ _ _ _ H) d x Hx) as Hn.
  destruct (device_register_ok device_list bus_info class_info Ds Vs layout E d s v H) as (s1 & E1 & H1); [by exists x; split|].
  unfold v_register in E1, H1. rewrite Hx, Hf in E1, H1. cbn [fst snd] in E1, H1.
  assert (d ∉ v_list v DeviceList device_list) as Hd.
  { destruct (Hl) as [l El]. unfold v_list. rewrite El. exact (not_listed _ _ _ _ _ _ _ _ _ H Hx Hf _ _ El). }
  destruct (device_unregister_ok device_list bus_info class_info Ds Vs layout E d s1 _ H1) as (s2 & E2 & H2); [by apply entered_can_unregister|].
  exists s1, s2. assert ((v_unregister device_list E d (v_enter device_list E d x v)).1 = 0) as Ez by (unfold v_unregister; by case_match).
  rewrite Ez in E2.
  split_and!; try done.
  - rewrite (find_by_name_ok _ _ _ _ _ _ _ _ H1 Hn), enter_find by (done || apply by_keys_name). unfold same_name. by rewrite bool_decide_true.
  - rewrite (find_by_devnum_ok _ _ _ _ _ _ _ _ _ H1), enter_find by (done || apply by_keys_num). by rewrite !Z.eqb_refl.
  - intros n Hn' Hne. rewrite (find_by_name_ok _ _ _ _ _ _ _ _ H1 Hn'), (find_by_name_ok _ _ _ _ _ _ _ _ H Hn'), enter_find by (done || apply by_keys_name).
    unfold same_name at 1. rewrite bool_decide_false; [done|]. congruence.
  - intros n Hn'. rewrite (find_by_name_ok _ _ _ _ _ _ _ _ H2 Hn'), (find_by_name_ok _ _ _ _ _ _ _ _ H Hn').
    f_equal. apply unregister_find; try done. apply by_keys_name.
  - intros ma mi. rewrite (find_by_devnum_ok _ _ _ _ _ _ _ _ _ H2), (find_by_devnum_ok _ _ _ _ _ _ _ _ _ H).
    f_equal. apply unregister_find; try done. apply by_keys_num.
Qed.
(** ** Where the code breaks its own lists *)

(** Adding a node to an empty list. *)
Lemma add_self n h hp : next hp !! h = Some h -> node hp h -> node hp n ->
  exists hp', list_add n h hp = Some hp' /\ next hp' = <[h := n]> (<[n := h]> (next hp)).
Proof.
  intros Hn Nh Nn. unfold list_add. rewrite Hn, bind_Some_l, set_prev_ok, bind_Some_l by done. simpl. rewrite Hn, bind_Some_l.
  rewrite set_next_ok, bind_Some_l by (by apply node_prev). rewrite set_prev_ok, bind_Some_l by (by apply node_next, node_prev).
  rewrite set_next_ok by (by apply node_prev, node_next, node_prev). by eexists.
Qed.

(** A search that starts at [d] and goes on to an address that is no device's. *)
Lemma search_lost d q s x n : next (nodes s) !! device_list = Some (addr d Siblings) -> addr d Siblings <> device_list ->
  devices s !! d = Some x -> 0 ∈ name x -> 0 ∈ n -> cstr n <> cstr (name x) -> next (nodes s) !! addr d Siblings = Some q -> q <> device_list ->
  devices s !! list_entry q Siblings = None -> device_find_by_name device_list (Some n) s = None.
Proof.
  intros H1 H2 Hx Hn Hn' Hne H3 H4 H5. unfold device_find_by_name, find_device, list_for_each_entry. rewrite H1, bind_Some_l. unfold device_fuel. simpl.
  destruct (Z.eqb_spec (addr d Siblings) device_list); [done|]. rewrite entry_addr, Hx. simpl.
  destruct (strcmp_cstr (name x) n Hn Hn') as (r & -> & Hr). simpl. rewrite Hr, bool_decide_false by congruence. rewrite H3. simpl.
  destruct (size (devices s)); [done|]. simpl. destruct (Z.eqb_spec q device_list); [done|]. by rewrite H5.
Qed.

(** A device with a parent cannot be unregistered: [device_unregister] deletes its node
    twice. *)
Theorem child_unregister_faults d s x p : devices s !! d = Some x -> parent x = Some p -> prev (nodes s) !! 0 = None ->
  device_unregister (tables_of E) (Some d) s = None.
Proof.
  intros Hx Hp H0. unfold device_unregister, update_device. rewrite Hx, bind_Some_l. simpl. rewrite lookup_insert_eq, bind_Some_l. simpl.
  rewrite (probe_lift _ (e_remove E) lift) by done. set (s1 := with_devices _ s).
  assert (exists s2, call (option_map lift (ops x ≫= e_remove E)) d s1 = Some s2 /\ nodes s2 = nodes s /\ devices s2 = devices s1) as (s2 & -> & N2 & D2).
  { destruct (ops x ≫= e_remove E); simpl; eauto. }
  simpl. unfold on_nodes. rewrite N2. destruct (list_del (addr d Siblings) (nodes s)) as [h|] eqn:Ed; [|done]. simpl.
  rewrite D2. simpl. rewrite lookup_insert_eq. simpl. rewrite Hp. simpl. unfold on_nodes. simpl. by rewrite (list_del_twice _ _ _ H0 Ed).
Qed.

(** Registering a child of a device puts the child's node into the list of devices and then
    into the parent's list of children: from the child on, the list of devices leads
    into the parent's, and every search that goes past the child takes the parent's list
    head for a device. *)
Theorem child_registration_breaks d p s v x : rep s v -> v_devices v !! d = Some x -> parent x = Some p -> p ∈ Ds -> p <> d ->
  bus x = None -> class x = None -> driver x = None -> ops x = None -> v_find device_list (same_name (name x)) v = None ->
  free (v_links v) BusDevices d -> free (v_links v) ClassDevices d -> free (v_links v) DriverDevices d ->
  is_list (nodes s) (addr p Children) [] ->
  exists s', device_register device_list (tables_of E) (Some d) s = Some (0, s') /\
    forall n, 0 ∈ n -> cstr n <> cstr (name x) -> device_find_by_name device_list (Some n) s' = None.
Proof.
  intros H Hx Hp Hpd Hne Hb Hc Hv Ho Hf F1 F2 F3 [_ HC]. pose proof (rep_device _ _ _ _ _ _ _ _ _ H Hx) as Hd.
  pose proof (not_listed _ _ _ _ _ _ _ _ _ H Hx Hf) as F4.
  assert (addr p Children ∉ addr d <$> own_fields) as Hsep.
  { intros (m & Ea & Hm)%list_elem_of_fmap. assert (live device_list bus_info class_info Ds Vs m d) as Hl
      by (unfold own_fields in Hm; set_unfold; by destruct Hm as [->|[->|[->|[->|[->|?]]]]]).
    by destruct (layout Children p m d Hpd Hl Ea). }
  unfold device_register. rewrite (register_check_ok _ _ _ _ _ d s v x H Hx), bind_Some_l, Hf. unfold register_rest.
  destruct (register_init_ok _ _ _ _ _ layout d s v H Hd F4 F1 F2 F3) as (s0 & E0 & H0 & O0). rewrite E0, bind_Some_l.
  destruct (dev_step _ _ _ _ _ (with_state DEVICE_STATE_DISABLED) d s0 v x H0 Hx) as (s1 & E1 & H1); auto. rewrite E1, bind_Some_l.
  destruct (link_device_step _ _ _ _ _ layout d s1 _ H1 Hd F4) as (s2 & E2 & H2). rewrite E2, bind_Some_l. set (v2 := v_link _ _ _ _) in *.
  assert (v_devices v2 !! d = Some (with_state DEVICE_STATE_DISABLED x)) as Hx2 by (simpl; by rewrite lookup_alter_eq, Hx).
  assert (addr p Children <> addr d Siblings /\ addr p Children <> device_list /\ addr d Siblings <> device_list) as (N1 & N2 & N3).
  { pose proof (head_addr device_list) as Hh. split_and!; intros Ea.
    - by destruct (layout Children p Siblings d Hpd Hd Ea).
    - rewrite <-Hh in Ea. by destruct (layout Children p DeviceList device_list Hpd eq_refl Ea).
    - rewrite <-Hh in Ea. by destruct (layout Siblings d DeviceList device_list Hd eq_refl Ea). }
  assert (next (nodes s2) !! addr p Children = Some (addr p Children) /\ next (nodes s2) !! device_list = Some (addr d Siblings)) as [Nc Nl].
  { unfold on_nodes in E2. destruct (list_add _ _ (nodes s1)) as [h2|] eqn:Ea; [|done]. injection E2 as <-. cbn [nodes with_nodes].
    destruct (list_add_next _ _ _ _ Ea) as (q & _ & ->). rewrite lookup_insert_eq, !lookup_insert_ne by done. split; [|done].
    unfold update_device in E1. destruct (devices s0 !! d); [|done]. injection E1 as <-. simpl. destruct O0 as [O0 _]. destruct (O0 _ Hsep) as [-> _]. apply HC. }
  pose proof (rp_tracks _ _ _ _ _ _ _ H2) as HT. destruct (add_self (addr d Siblings) (addr p Children) (nodes s2) Nc) as (h & Eh & Nh);
    [by apply (tr_node _ _ _ HT Children)|by apply (tr_node _ _ _ HT Siblings)|].
  rewrite (rp_devices _ _ _ _ _ _ _ H2), Hx2, bind_Some_l. simpl. rewrite Hp, Hb, Hc, Hv, Ho. simpl. unfold on_nodes, update_device. rewrite Eh. simpl.
  rewrite (rp_devices _ _ _ _ _ _ _ H2), Hx2. simpl. eexists. split; [done|]. intros n Hn Hnn.
  apply (search_lost d (addr p Children) _ (with_state DEVICE_STATE_ENABLED (with_state DEVICE_STATE_DISABLED x))); simpl; try done.
  - rewrite Nh, lookup_insert_ne, lookup_insert_ne by done. done.
  - by rewrite lookup_insert_eq.
  - by apply (va_names _ _ _ _ (rp_valid _ _ _ _ _ _ _ H) d).
  - by rewrite Nh, lookup_insert_ne, lookup_insert_eq by done.
  - apply not_elem_of_dom. rewrite dom_insert_L, dom_alter_L, (va_devices _ _ _ _ (rp_valid _ _ _ _ _ _ _ H)).
    intros Hin. assert (list_entry (addr p Children) Siblings ∈ Ds) as Hq by set_solver.
    by destruct (layout Siblings (list_entry (addr p Children) Siblings) Children p Hq Hpd); [unfold list_entry, addr; lia|].
Qed.
Lemma free_link_other f g a d e v : d <> e -> free (v_links v) f d -> free (v_links (v_link g a e v)) f d.
Proof.
  intros Hne H b l El Hd. simpl in El. destruct (decide ((g, a) = (f, b))) as [Hk|]; [|rewrite lookup_alter_ne in El by done; by eapply H].
  rewrite Hk, lookup_alter_eq in El. destruct (v_links v !! (f, b)) as [l'|] eqn:E'; simplify_eq/=. apply elem_of_cons in Hd as [?|Hd]; [done|by eapply H].
Qed.

Lemma free_link_opt_other f g o d e v : d <> e -> free (v_links v) f d -> free (v_links (v_link_opt g o e v)) f d.
Proof. intros. destruct o; [by apply free_link_other|done]. Qed.

(** Entering one device leaves another free, and the lists where they are. *)
Lemma enter_free f d e x v : d <> e -> free (v_links v) f d -> free (v_links (v_enter device_list E e x v)) f d.
Proof.
  intros Hne H. unfold v_enter. simpl. rewrite v_call_links. do 3 (apply free_link_opt_other; [done|]). by apply free_link_other.
Qed.

Lemma enter_lists d x v k : is_Some (v_links v !! k) -> is_Some (v_links (v_enter device_list E d x v) !! k).
Proof.
  intros H. destruct k as [f a]. unfold v_enter. simpl. rewrite v_call_links. by apply list_kept_opt, list_kept_opt, list_kept_opt, list_kept.
Qed.

Lemma enter_other d e x y v : d <> e -> can_enter d x v -> can_enter d x (v_enter device_list E e y v).
Proof.
  intros Hne (Hp & F1 & F2 & F3 & L1 & L2 & L3). split_and!; try done; try (by apply enter_free); intros a Ha; apply enter_lists; auto.
Qed.

(** [device_register] looks for the name before it takes the lock: two registrations of
    devices with the same name that both look before either goes on both succeed. *)
Theorem register_race d1 d2 s v x1 x2 : rep s v -> v_devices v !! d1 = Some x1 -> v_devices v !! d2 = Some x2 -> d1 <> d2 ->
  cstr (name x1) = cstr (name x2) -> can_enter d1 x1 v -> can_enter d2 x2 v -> v_find device_list (same_name (name x1)) v = None ->
  exists s1 s2 l, register_check device_list d1 s = Some None /\ register_check device_list d2 s = Some None /\
    register_rest device_list (tables_of E) d1 s = Some s1 /\ register_rest device_list (tables_of E) d2 s1 = Some s2 /\
    good_list s2 DeviceList device_list l /\ d1 ∈ l /\ d2 ∈ l.
Proof.
  intros H Hx1 Hx2 Hne Hn C1 C2 Hf. assert (v_find device_list (same_name (name x2)) v = None) as Hf2.
  { rewrite <-Hf. unfold v_find. apply find_ext. intros a _. unfold same_name. by rewrite Hn. }
  pose proof (va_list _ _ _ _ (rp_valid _ _ _ _ _ _ _ H)) as Hl.
  destruct (register_rest_ok _ _ _ _ _ layout E d1 s v x1 H Hx1 (not_listed _ _ _ _ _ _ _ _ _ H Hx1 Hf) C1) as (s1 & E1 & H1).
  set (v1 := v_enter _ _ d1 x1 v) in *. assert (v_devices v1 !! d2 = Some x2) as Hx2' by (unfold v1; by rewrite enter_devices, !lookup_alter_ne).
  destruct (register_rest_ok _ _ _ _ _ layout E d2 s1 v1 x2 H1 Hx2') as (s2 & E2 & H2).
  { apply enter_free; [done|]. exact (not_listed _ _ _ _ _ _ _ _ _ H Hx2 Hf2). }
  { by apply enter_other. }
  pose proof (enter_lists d1 x1 v _ Hl) as Hl1. destruct (enter_lists d2 x2 v1 _ Hl1) as [l El].
  exists s1, s2, l. rewrite (register_check_ok _ _ _ _ _ d1 s v x1 H Hx1), (register_check_ok _ _ _ _ _ d2 s v x2 H Hx2), Hf, Hf2.
  split_and!; try done; [by eapply rep_good|..].
  - pose proof (enter_list d2 x2 v1 Hl1) as Hll. unfold v_list at 1 in Hll. rewrite El in Hll. simpl in Hll. rewrite Hll. right.
    unfold v1. rewrite enter_list by done. left.
  - pose proof (enter_list d2 x2 v1 Hl1) as Hll. unfold v_list at 1 in Hll. rewrite El in Hll. simpl in Hll. rewrite Hll. left.
Qed.

(** A driver that is registered without a bus is in no list: it is not found, and its name
    is free for the next one. *)
Theorem driver_without_bus_lost a s v x : rep s v -> v_drivers v !! a = Some x -> drv_bus x = None -> can_driver_register a v ->
  v_find_driver (drv_name x) v = None ->
  exists s', driver_register (Some a) s = Some (0, s') /\ driver_find_by_name (Some (drv_name x)) s' = Some None.
Proof.
  intros H Hx Hb Hc Hf. destruct (driver_register_ok _ _ _ _ _ layout a s v H Hc) as (s' & Es & H').
  unfold v_driver_register in *. rewrite Hx, Hf, Hb in *. cbn [fst snd] in *. exists s'. split; [done|].
  rewrite (driver_find_ok _ _ _ _ _ _ _ _ H') by (by apply (va_drv_names _ _ _ _ (rp_valid _ _ _ _ _ _ _ H) a)).
  f_equal. rewrite <-Hf. unfold v_find_driver, v_all_drivers. f_equal. f_equal. apply list_fmap_ext. intros _ b _. unfold v_list. simpl.
  by rewrite lookup_insert_ne.
Qed.

(** ** The first state *)

(** [device_init] on structures in memory that nobody has linked yet. *)
Lemma device_init_ok s : (forall f a, live device_list bus_info class_info Ds Vs f a -> node (nodes s) (addr a f)) ->
  dom (devices s) = Ds -> dom (drivers s) = Vs -> map_Forall (fun _ x => 0 ∈ name x) (devices s) ->
  map_Forall (fun _ x => 0 ∈ drv_name x) (drivers s) -> (fun x => (bus_name x, bus_ops x)) <$> buses s = bus_info ->
  (fun x => (class_name x, class_ops x)) <$> classes s = class_info -> bus_list s = None -> class_list s = None ->
  let v := mk_view {[(DeviceList, device_list) := []]} [] [] (devices s) (drivers s) (outside s) in
  exists s', device_init device_list s = Some s' /\ rep s' v /\ distinct v.
Proof.
  intros Hn H1 H2 H3 H4 H5 H6 H7 H8 v. destruct (list_init_ok device_list (nodes s)) as (h & Eh & HL & HO).
  { rewrite <-(head_addr device_list). by apply Hn. }
  unfold device_init, on_nodes. rewrite Eh. simpl. eexists. split; [done|]. split; [split; simpl; try done|].
  - split.
    + intros f a Hl. apply HO. by apply Hn.
    + intros f a l [Hk <-]%lookup_singleton_Some. injection Hk as <- <-. exists Siblings. rewrite head_addr. split_and!; done.
    + by intros f a b l l' d [_ <-]%lookup_singleton_Some _ ?%not_elem_of_nil.
  - split; simpl; try done.
    + rewrite lookup_singleton_eq. by eexists.
    + by intros b ?%not_elem_of_nil.
    + by intros c ?%not_elem_of_nil.
    + by intros f a l d [_ <-]%lookup_singleton_Some ?%not_elem_of_nil.
  - unfold distinct, v_list. simpl. rewrite lookup_singleton_eq. simpl. split_and!; constructor.
Qed.

End Refine.
(** ** An example *)

(** A bus, a class, a driver for the bus, and two devices. *)
Definition ex_bus : bus_type := mk_bus [112; 0] (Some 1) None.
Definition ex_class : device_class := mk_class [99; 0] 0 None None.
Definition ex_driver : device_driver := mk_driver [118; 0] (Some 1000) (Some 1) 0.
Definition ex_device (n : Z) (b c p : option Z) : device := mk_device [n; 0] c None b DEVICE_STATE_DISABLED 4 n None 0 p.

Definition ex_addresses : list Z :=
  [8; 1036; 1044; 2040; 3040; 3048; 4092; 4100; 4108; 4124; 4132; 5092; 5100; 5108; 5124; 5132].
Definition ex_nodes : heap := foldr new_node (mk_heap ∅ ∅) ex_addresses.

Definition ex_start (p : option Z) : registry Z :=
  mk_registry ex_nodes {[4000 := ex_device 97 (Some 1000) (Some 2000) None; 5000 := ex_device 98 None None p]} {[3000 := ex_driver]}
    {[1000 := ex_bus]} {[2000 := ex_class]} None None 0.

(** The bus accepts every driver; the driver counts its probes. *)
Definition ex_effects : effects (W := Z) := mk_effects (fun _ => None) (fun _ => None) (fun _ => Some (fun d w => (0, w + 1)))
  (fun _ => Some (fun a d w => (0, w))) (fun _ => None) (fun _ => None).

Definition ex_buses : gmap Z (list Z * option Z) := {[1000 := ([112; 0], Some 1)]}.
Definition ex_classes : gmap Z (list Z * option Z) := {[2000 := ([99; 0], None)]}.
Definition ex_devices : gset Z := {[4000; 5000]}.
Definition ex_drivers : gset Z := {[3000]}.

Definition ex_view (p : option Z) : view (W := Z) :=
  mk_view {[(DeviceList, 8) := []]} [] [] (devices (ex_start p)) (drivers (ex_start p)) 0.

Notation ex_live := (live 8 ex_buses ex_classes ex_devices ex_drivers).

Lemma ex_places f a : ex_live f a -> (f, a) ∈ [(DeviceList, 8); (BusDrivers, 1000); (BusDevices, 1000); (ClassDevices, 2000); (DriverDevices, 3000);
  (DriverBusList, 3000); (DriverList, 4000); (BusList, 4000); (ClassList, 4000); (Children, 4000); (Siblings, 4000);
  (DriverList, 5000); (BusList, 5000); (ClassList, 5000); (Children, 5000); (Siblings, 5000)].
Proof.
  destruct f; simpl; unfold ex_buses, ex_classes, ex_devices, ex_drivers; rewrite ?lookup_singleton_is_Some; set_solver.
Qed.

Ltac ex_cases H := repeat (apply elem_of_cons in H as [H|H]; [injection H as -> ->|]); [..|by apply not_elem_of_nil in H].

Lemma ex_layout : disjoint_layout 8 ex_buses ex_classes ex_devices ex_drivers.
Proof.
  intros f a g b Ha%ex_places Hb%ex_places Hab.
  ex_cases Ha; ex_cases Hb; (split; reflexivity) || discriminate Hab.
Qed.

Lemma ex_named : terminated ex_buses /\ terminated ex_classes.
Proof. split; apply map_Forall_singleton; right; left. Qed.

Lemma ex_rep p : exists s, device_init 8 (ex_start p) = Some s /\ rep 8 ex_buses ex_classes ex_devices ex_drivers s (ex_view p) /\
  distinct 8 ex_buses ex_classes (ex_view p).
Proof.
  apply (device_init_ok 8 ex_buses ex_classes ex_devices ex_drivers); try done.
  - intros f a Ha%ex_places. ex_cases Ha; split; vm_compute; by eexists.
  - cbn [devices ex_start]. apply map_Forall_insert_2; [right; left|]. apply map_Forall_singleton. right. left.
  - cbn [drivers ex_start]. apply map_Forall_singleton. right. left.
Qed.
(** Conditions on a concrete state are decidable. *)
Lemma free_check R f d : bool_decide (map_Forall (fun (k : field * Z) l => k.1 = f -> d ∉ l) R) = true -> free R f d.
Proof. intros H%bool_decide_eq_true a l El. by apply (H (f, a) l). Qed.

Lemma unused_check (v : view (W := Z)) f a : bool_decide (v_list v f a = []) = true -> unused v f a.
Proof. intros H%bool_decide_eq_true l El. unfold v_list in H. by rewrite El in H. Qed.

Lemma elem_check (x : Z) (l : list Z) : bool_decide (x ∈ l) = true -> x ∈ l.
Proof. apply bool_decide_eq_true. Qed.

Ltac ex_check := repeat match goal with
  | |- True => exact I
  | |- free _ _ _ => apply free_check; vm_compute; reflexivity
  | |- unused _ _ _ => apply unused_check; vm_compute; reflexivity
  | |- is_Some _ => vm_compute; eexists; reflexivity
  | |- _ ∈ _ => apply elem_check; vm_compute; reflexivity
  | |- _ /\ _ => split
  | |- exists _, _ => eexists; split; [vm_compute; reflexivity|]
  | |- _ = _ -> _ => let H := fresh in intros H; vm_compute in H; try discriminate H; clear H
  | |- forall _, _ = _ -> _ => let H := fresh in intros ? H; vm_compute in H; (discriminate H || (injection H as <-))
  | |- forall _, _ ∈ _ -> _ => let H := fresh in intros ? H; vm_compute in H; apply elem_of_cons in H as [->|H]; [|by apply not_elem_of_nil in H]
  | |- _ = _ => vm_compute; reflexivity
  end.
Ltac ex_allowed := repeat (split; [unfold allowed, can_register, can_enter, can_unregister, can_bus_register, can_class_register,
  can_driver_register, can_match; ex_check|]); exact I.

Definition ex_ops : list op :=
  [BusRegister 1000; ClassRegister 2000; DriverRegister 3000; DeviceRegister 4000; BusMatch 1000 4000; DeviceFind [97; 0]; DeviceRegister 5000;
   DeviceFindNum 4 98; DriverFind [118; 0]; DeviceRegister 4000; DeviceUnregister 4000; DeviceFind [97; 0]; BusUnregister 1000; DriverFind [118; 0]].

Lemma ex_ops_allowed : all_allowed 8 ex_effects ex_buses ex_classes ex_ops (ex_view None).
Proof. unfold ex_ops. cbn [all_allowed]. ex_allowed. Qed.
Definition ex_answers : list answer :=
  [Code 0; Code 0; Code 0; Code 0; Code 0; Found (Some 4000); Code 0; Found (Some 5000); Found (Some 3000); Code (- EEXIST);
   Code 0; Found None; Code 0; Found None].

Lemma ex_answers_ok : (spec_run 8 ex_effects ex_buses ex_classes ex_ops (ex_view None)).1 = ex_answers.
Proof. vm_compute. reflexivity. Qed.

Lemma device_model_refines_witness :
  exists s s', device_init 8 (ex_start None) = Some s /\ run 8 ex_effects ex_ops s = Some (ex_answers, s').
Proof.
  destruct (ex_rep None) as (s & Es & H & _).
  destruct (device_model_refines 8 ex_effects ex_buses ex_classes ex_devices ex_drivers ex_layout (proj1 ex_named) (proj2 ex_named)
    ex_ops s (ex_view None) H ex_ops_allowed) as (s' & Er & _).
  rewrite ex_answers_ok in Er. exists s, s'. split; [exact Es|exact Er].
Defined.

Lemma registry_well_formed_witness :
  exists s r s', device_init 8 (ex_start None) = Some s /\ run 8 ex_effects ex_ops s = Some (r, s') /\ well_formed 8 s'.
Proof.
  destruct (ex_rep None) as (s & Es & H & HD).
  destruct (registry_well_formed 8 ex_effects ex_buses ex_classes ex_devices ex_drivers ex_layout (proj1 ex_named) (proj2 ex_named)
    ex_ops s (ex_view None) H HD ex_ops_allowed) as (r & s' & Er & Hw).
  exists s, r, s'. split; [exact Es|]. split; [exact Er|exact Hw].
Defined.

Lemma register_find_unregister_witness :
  exists s s1 s2, device_init 8 (ex_start None) = Some s /\ device_register 8 (tables_of ex_effects) (Some 5000) s = Some (0, s1) /\
    device_find_by_name 8 (Some [98; 0]) s1 = Some (Some 5000) /\ device_unregister (tables_of ex_effects) (Some 5000) s1 = Some (0, s2).
Proof.
  destruct (ex_rep None) as (s & Es & H & _).
  destruct (register_find_unregister 8 ex_effects ex_buses ex_classes ex_devices ex_drivers ex_layout (proj1 ex_named) (proj2 ex_named)
    5000 s (ex_view None) (ex_device 98 None None None) H) as (s1 & s2 & E1 & E2 & _ & _ & E3 & _);
    [vm_compute; reflexivity|unfold can_enter; ex_check|vm_compute; reflexivity|].
  exists s, s1, s2. split; [exact Es|]. split; [exact E1|]. split; [exact E2|exact E3].
Defined.

(** The state in which [child_registration_breaks] applies is reached by registering the
    parent, here 4000 without bus and class, and then its child 5000: afterwards the parent
    is not found, and the child cannot be unregistered. *)
Definition ex_family : option (registry Z) :=
  s ← device_init 8 (ex_start (Some 4000));
  r ← device_register 8 (tables_of ex_effects) (Some 4000) (with_devices (<[4000 := ex_device 97 None None None]> (devices s)) s);
  r ← device_register 8 (tables_of ex_effects) (Some 5000) r.2;
  if r.1 =? 0 then Some r.2 else None.

Example child_example :
  (s ← ex_family; Some (device_find_by_name 8 (Some [97; 0]) s,
     match device_unregister (tables_of ex_effects) (Some 5000) s with Some _ => true | None => false end)) = Some (None, false).
Proof. vm_compute. reflexivity. Qed.

End DeviceRefine.
