(* ===== verification/Task.v ===== *)
(** Tasks: [kernel/task/task.c] with [include/horizon/task.h]. The list of tasks and the
    lists of children, descriptors, signals, and the threads of a task. *)

From S2P Require Import Prelude KList CStr Links.

Module Task.
Export CStr.
Import KList Links.

Definition EPERM : Z := 1.
Definition ESRCH : Z := 3.
Definition EBADF : Z := 9.
Definition ENOMEM : Z := 12.
Definition EBUSY : Z := 16.
Definition EINVAL : Z := 22.
Definition EMFILE : Z := 24.
Definition MAX_CPUS : Z := 8.
Definition TASK_RUNNING : Z := 0.
Definition TASK_INTERRUPTIBLE : Z := 1.
Definition TASK_ZOMBIE : Z := 3.
Definition TASK_DEAD : Z := 6.
Definition SCHED_NORMAL : Z := 0.
Definition SCHED_IDLE : Z := 4.
Definition THREAD_CREATED : Z := 0.
Definition THREAD_READY : Z := 1.
Definition THREAD_WAITING : Z := 3.
Definition THREAD_EXITED : Z := 5.
Definition THREAD_DETACHED : Z := 1.

(** ** Data *)

(** The list nodes: [task_list], the five of a task, and the one of a thread. *)
Inductive field := TaskList | Children | Sibling | Threads | Tasks | ThreadGroup | ThreadEntry.

Definition field_offset (f : field) : Z :=
  match f with
  | TaskList => 0
  | Children => 60 | Sibling => 68 | Threads => 256 | Tasks => 272 | ThreadGroup => 280
  | ThreadEntry => 32
  end.
#[global] Instance task_fields : Fields field := { offset := field_offset }.

Record thread := mk_thread {
  tid : Z; thread_task : Z; start_routine : Z; arg : Z; retval : Z; thread_flags : Z; thread_state : Z; waiting_for : option Z
}.

(** [task_struct] as far as this file uses it, without its list nodes. *)
Record task_struct := mk_task {
  pid : Z; tgid : Z; ppid : Z; comm : list Z; state : Z; exit_code : Z;
  parent : option Z; real_parent : option Z; group_leader : option Z;
  prio : Z; static_prio : Z; normal_prio : Z; policy : Z;
  mm : option Z; files : option Z; fs : option Z; signal : option Z; sighand : option Z; stack : option Z;
  blocked : Z; pending : Z; main_thread : option Z; thread_count : Z; cpu : Z
}.

(** [fd_array] holds addresses of files, 0 for none. *)
Record files_struct := mk_files { count : Z; max_fds : Z; next_fd : Z; fd_array : list Z; close_on_exec : list Z }.
Record file := mk_file { f_count : Z; has_release : bool }.

(** What is given to code that is not part of this file, in order. *)
Inductive event := DestroyMm (a : Z) | Kfree (a : Z) | Release (f : Z).

Record tasks_state := mk_state {
  nodes : heap;
  tasks : gmap Z task_struct;
  threads : gmap Z thread;
  file_tables : gmap Z files_struct;
  open_files : gmap Z file;
  next_pid : Z;
  current : option Z;
  idle_tasks : list (option Z);
  events : list event
}.
Implicit Types (s : tasks_state).

Definition with_nodes (h : heap) s : tasks_state :=
  mk_state h (tasks s) (threads s) (file_tables s) (open_files s) (next_pid s) (current s) (idle_tasks s) (events s).
Definition with_tasks (m : gmap Z task_struct) s : tasks_state :=
  mk_state (nodes s) m (threads s) (file_tables s) (open_files s) (next_pid s) (current s) (idle_tasks s) (events s).
Definition with_threads (m : gmap Z thread) s : tasks_state :=
  mk_state (nodes s) (tasks s) m (file_tables s) (open_files s) (next_pid s) (current s) (idle_tasks s) (events s).
Definition with_file_tables (m : gmap Z files_struct) s : tasks_state :=
  mk_state (nodes s) (tasks s) (threads s) m (open_files s) (next_pid s) (current s) (idle_tasks s) (events s).
Definition with_open_files (m : gmap Z file) s : tasks_state :=
  mk_state (nodes s) (tasks s) (threads s) (file_tables s) m (next_pid s) (current s) (idle_tasks s) (events s).
Definition with_next_pid (n : Z) s : tasks_state :=
  mk_state (nodes s) (tasks s) (threads s) (file_tables s) (open_files s) n (current s) (idle_tasks s) (events s).
Definition with_current (c : option Z) s : tasks_state :=
  mk_state (nodes s) (tasks s) (threads s) (file_tables s) (open_files s) (next_pid s) c (idle_tasks s) (events s).
Definition with_idle (l : list (option Z)) s : tasks_state :=
  mk_state (nodes s) (tasks s) (threads s) (file_tables s) (open_files s) (next_pid s) (current s) l (events s).
Definition emit (e : list event) s : tasks_state :=
  mk_state (nodes s) (tasks s) (threads s) (file_tables s) (open_files s) (next_pid s) (current s) (idle_tasks s) (events s ++ e).

(** Setters of the fields that change. *)
Section Setters.
Context (t : task_struct).
Definition with_state (x : Z) : task_struct :=
  mk_task (pid t) (tgid t) (ppid t) (comm t) x (exit_code t) (parent t) (real_parent t) (group_leader t) (prio t) (static_prio t)
    (normal_prio t) (policy t) (mm t) (files t) (fs t) (signal t) (sighand t) (stack t) (blocked t) (pending t) (main_thread t) (thread_count t) (cpu t).
Definition with_comm (x : list Z) : task_struct :=
  mk_task (pid t) (tgid t) (ppid t) x (state t) (exit_code t) (parent t) (real_parent t) (group_leader t) (prio t) (static_prio t)
    (normal_prio t) (policy t) (mm t) (files t) (fs t) (signal t) (sighand t) (stack t) (blocked t) (pending t) (main_thread t) (thread_count t) (cpu t).
Definition with_exit_code (x : Z) : task_struct :=
  mk_task (pid t) (tgid t) (ppid t) (comm t) (state t) x (parent t) (real_parent t) (group_leader t) (prio t) (static_prio t)
    (normal_prio t) (policy t) (mm t) (files t) (fs t) (signal t) (sighand t) (stack t) (blocked t) (pending t) (main_thread t) (thread_count t) (cpu t).
Definition with_files (x : option Z) : task_struct :=
  mk_task (pid t) (tgid t) (ppid t) (comm t) (state t) (exit_code t) (parent t) (real_parent t) (group_leader t) (prio t) (static_prio t)
    (normal_prio t) (policy t) (mm t) x (fs t) (signal t) (sighand t) (stack t) (blocked t) (pending t) (main_thread t) (thread_count t) (cpu t).
Definition with_pending (x : Z) : task_struct :=
  mk_task (pid t) (tgid t) (ppid t) (comm t) (state t) (exit_code t) (parent t) (real_parent t) (group_leader t) (prio t) (static_prio t)
    (normal_prio t) (policy t) (mm t) (files t) (fs t) (signal t) (sighand t) (stack t) (blocked t) x (main_thread t) (thread_count t) (cpu t).
Definition with_thread (m : option Z) (n : Z) : task_struct :=
  mk_task (pid t) (tgid t) (ppid t) (comm t) (state t) (exit_code t) (parent t) (real_parent t) (group_leader t) (prio t) (static_prio t)
    (normal_prio t) (policy t) (mm t) (files t) (fs t) (signal t) (sighand t) (stack t) (blocked t) (pending t) m n (cpu t).
End Setters.

Definition with_thread_state (x : Z) (w : option Z) (t : thread) : thread :=
  mk_thread (tid t) (thread_task t) (start_routine t) (arg t) (retval t) (thread_flags t) x w.
Definition with_retval (x r : Z) (t : thread) : thread :=
  mk_thread (tid t) (thread_task t) (start_routine t) (arg t) r (thread_flags t) x (waiting_for t).
Definition with_thread_flags (x : Z) (t : thread) : thread :=
  mk_thread (tid t) (thread_task t) (start_routine t) (arg t) (retval t) x (thread_state t) (waiting_for t).

Definition update_task (g : task_struct -> task_struct) (a : Z) s : option tasks_state :=
  t ← tasks s !! a; Some (with_tasks (<[a := g t]> (tasks s)) s).
Definition update_thread (g : thread -> thread) (a : Z) s : option tasks_state :=
  t ← threads s !! a; Some (with_threads (<[a := g t]> (threads s)) s).
Definition on_nodes (f : heap -> option heap) s : option tasks_state := h ← f (nodes s); Some (with_nodes h s).

(** ** Names *)

Definition unnamed : list Z := [117; 110; 110; 97; 109; 101; 100; 0].

(** The name of a new task. *)
Definition new_name (name : option (list Z)) : option (list Z) :=
  match name with Some n => copy_name 15 n | None => Some (unnamed ++ replicate 8 0) end.

Section Tasks.
(** The addresses of the list of tasks and of the first task. *)
Context (task_list init_task : Z).

(** ** Start *)

Definition idle_task (c : Z) s : option (option Z) :=
  if (c <? 0) || (MAX_CPUS <=? c) then Some None else aget (idle_tasks s) c.

(** A structure of zeros, with the fields that [task_init] and [task_create] set. *)
Definition blank (p pp pr pol : Z) (par leader : option Z) (name : list Z) (c : Z) : task_struct :=
  mk_task p p pp name TASK_RUNNING 0 par par leader pr pr pr pol None None None None None None 0 0 None 0 c.

(** The nodes of a structure that has just been cleared. *)
Definition clear_nodes (a : Z) (h : heap) : heap :=
  new_node (addr a Children) (new_node (addr a Sibling) (new_node (addr a Threads) (new_node (addr a Tasks) (new_node (addr a ThreadGroup) h)))).

Definition init_lists (a : Z) s : option tasks_state :=
  s ← on_nodes (list_init (addr a Children)) s;
  s ← on_nodes (list_init (addr a Sibling)) s;
  s ← on_nodes (list_init (addr a Tasks)) s;
  on_nodes (list_init (addr a ThreadGroup)) s.

(** The idle tasks; [mems] is what [kmalloc] returns for each processor. *)
Fixpoint init_idle (mems : list (option Z)) (c : Z) s : option tasks_state :=
  match mems with
  | [] => Some s
  | None :: mems => init_idle mems (c + 1) (with_idle (idle_tasks s ++ [None]) s)
  | Some a :: mems =>
      let s := with_idle (idle_tasks s ++ [Some a]) (with_nodes (clear_nodes a (nodes s)) s) in
      s ← init_lists a (with_tasks (<[a := blank 0 0 140 SCHED_IDLE (Some init_task) (Some a) (replicate 16 0) c]> (tasks s)) s);
      init_idle mems (c + 1) s
  end.

Definition task_init (mems : list (option Z)) s : option tasks_state :=
  s ← on_nodes (list_init task_list) s;
  let s := with_nodes (clear_nodes init_task (nodes s)) s in
  let s := with_tasks (<[init_task := blank 0 0 120 SCHED_NORMAL (Some init_task) (Some init_task) (replicate 16 0) 0]> (tasks s)) s in
  s ← init_lists init_task s;
  s ← on_nodes (list_add (addr init_task Tasks) task_list) s;
  init_idle mems 0 (with_idle [] (with_current (Some init_task) s)).

(** ** Creating and destroying tasks *)

Definition task_get_pid s : Z * tasks_state := (next_pid s, with_next_pid (u32 (next_pid s + 1)) s).

(** [mem] is what [kmalloc] returns. *)
Definition task_create (name : option (list Z)) (mem : option Z) s : option (option Z * tasks_state) :=
  match mem with
  | None => Some (None, s)
  | Some a =>
      let '(p, s) := task_get_pid s in
      cur ← current s;
      c ← tasks s !! cur;
      nm ← new_name name;
      let s := with_nodes (clear_nodes a (nodes s)) s in
      s ← init_lists a (with_tasks (<[a := blank p (pid c) 120 SCHED_NORMAL (Some cur) (Some a) nm 0]> (tasks s)) s);
      s ← on_nodes (list_add (addr a Sibling) (addr cur Children)) s;
      s ← on_nodes (list_add (addr a Tasks) task_list) s;
      Some (Some a, s)
  end.

(** [if (p != NULL) kfree(p);] *)
Definition freed (p : option Z) : list event := match p with Some a => [Kfree a] | None => [] end.

Definition task_destroy (task : option Z) s : option (Z * tasks_state) :=
  match task with
  | None => Some (- EINVAL, s)
  | Some a =>
      if bool_decide (current s = Some a) then Some (- EBUSY, s)
      else if a =? init_task then Some (- EPERM, s)
      else if bool_decide (Some a ∈ idle_tasks s) then Some (- EPERM, s)
      else
        s ← on_nodes (list_del (addr a Tasks)) s;
        s ← on_nodes (list_del (addr a Sibling)) s;
        t ← tasks s !! a;
        let s := emit (match mm t with Some x => [DestroyMm x] | None => [] end ++ freed (files t) ++ freed (fs t) ++
                       freed (sighand t) ++ freed (signal t) ++ freed (stack t) ++ [Kfree a]) s in
        let s := match files t with Some x => with_file_tables (delete x (file_tables s)) s | None => s end in
        Some (0, with_tasks (delete a (tasks s)) s)
  end.

Definition task_current s : option Z := current s.

(** Enough for a walk over tasks or threads. *)
Definition task_fuel s : nat := S (size (tasks s)).
Definition thread_fuel s : nat := S (size (threads s)).

Definition task_get (p : Z) s : option (option Z) :=
  r ← list_for_each_entry (task_fuel s) (fun q => t ← tasks s !! list_entry q Tasks; Some (pid t =? p)) task_list (nodes s);
  Some (option_map (fun q => list_entry q Tasks) r).

Definition task_set_state (task : option Z) (x : Z) s : option (Z * tasks_state) :=
  match task with
  | None => Some (- EINVAL, s)
  | Some a => s ← update_task (fun t => with_state t x) a s; Some (0, s)
  end.

Definition task_set_name (task : option Z) (name : option (list Z)) s : option (Z * tasks_state) :=
  match task, name with
  | Some a, Some n =>
      nm ← copy_name 15 n;
      s ← update_task (fun t => with_comm t nm) a s; Some (0, s)
  | _, _ => Some (- EINVAL, s)
  end.

(** ** Descriptors *)

(** The structure for the descriptors of a task; [m1], [m2] and [m3] are what the three
    [kmalloc]s return. *)
Definition new_files (a : Z) (m1 m2 m3 : option Z) s : option (option Z * tasks_state) :=
  match m1, m2, m3 with
  | None, _, _ => Some (None, s)
  | Some f, None, _ => Some (None, emit [Kfree f] s)
  | Some f, Some d, None => Some (None, emit [Kfree d; Kfree f] s)
  | Some f, Some _, Some _ =>
      s ← update_task (fun t => with_files t (Some f)) a s;
      Some (Some f, with_file_tables (<[f := mk_files 1 16 0 (replicate 16 0) (replicate 1 0)]> (file_tables s)) s)
  end.

(** The loop over the descriptors from [next_fd] on. *)
Fixpoint find_fd (n : nat) (max fd : Z) (l : list Z) : option (option Z) :=
  match n with
  | O => Some None
  | S n => x ← aget l fd; if x =? 0 then Some (Some fd) else find_fd n max ((fd + 1) mod max) l
  end.

Definition task_add_file (task f : option Z) (m1 m2 m3 : option Z) s : option (Z * tasks_state) :=
  match task, f with
  | Some a, Some f =>
      t ← tasks s !! a;
      r ← match files t with Some x => Some (Some x, s) | None => new_files a m1 m2 m3 s end;
      let '(x, s) := (r : option Z * tasks_state) in
      match x with
      | None => Some (- ENOMEM, s)
      | Some x =>
          fs ← file_tables s !! x;
          r ← find_fd (Z.to_nat (max_fds fs)) (max_fds fs) (next_fd fs) (fd_array fs);
          match r with
          | None => Some (- EMFILE, s)
          | Some fd =>
              l ← aset (fd_array fs) fd f;
              let s := with_file_tables (<[x := mk_files (count fs) (max_fds fs) ((fd + 1) mod max_fds fs) l (close_on_exec fs)]> (file_tables s)) s in
              o ← open_files s !! f;
              Some (fd, with_open_files (<[f := mk_file (u32 (f_count o + 1)) (has_release o)]> (open_files s)) s)
          end
      end
  | _, _ => Some (- EINVAL, s)
  end.

Definition task_remove_file (task : option Z) (fd : Z) s : option (Z * tasks_state) :=
  match task with
  | None => Some (- EINVAL, s)
  | Some a =>
      t ← tasks s !! a;
      match files t with
      | None => Some (- EBADF, s)
      | Some x =>
          fs ← file_tables s !! x;
          if max_fds fs <=? fd then Some (- EBADF, s)
          else
            f ← aget (fd_array fs) fd;
            if f =? 0 then Some (- EBADF, s)
            else
              o ← open_files s !! f;
              let c := u32 (f_count o - 1) in
              let s := if c =? 0 then emit ((if has_release o then [Release f] else []) ++ [Kfree f]) (with_open_files (delete f (open_files s)) s)
                       else with_open_files (<[f := mk_file c (has_release o)]> (open_files s)) s in
              l ← aset (fd_array fs) fd 0;
              m ← clear_bit_at 32 (close_on_exec fs) fd;
              Some (0, with_file_tables (<[x := mk_files (count fs) (max_fds fs) (next_fd fs) l m]> (file_tables s)) s)
      end
  end.

(** The address of the file, 0 for none. *)
Definition task_get_file (task : option Z) (fd : Z) s : option Z :=
  match task with
  | None => Some 0
  | Some a =>
      t ← tasks s !! a;
      match files t with
      | None => Some 0
      | Some x => fs ← file_tables s !! x; if max_fds fs <=? fd then Some 0 else aget (fd_array fs) fd
      end
  end.

(** ** Signals *)

Definition bad_signal (sig : Z) : bool := (sig <? 1) || (64 <? sig).

Definition task_signal (task : option Z) (sig : Z) s : option (Z * tasks_state) :=
  match task with
  | None => Some (- EINVAL, s)
  | Some a =>
      if bad_signal sig then Some (- EINVAL, s)
      else
        t ← tasks s !! a;
        if (state t =? TASK_ZOMBIE) || (state t =? TASK_DEAD) then Some (- ESRCH, s)
        else if has_flag (blocked t) (BIT (sig - 1)) then Some (0, s)
        else
          s ← update_task (fun t => with_pending t (Z.lor (pending t) (BIT (sig - 1)))) a s;
          if state t =? TASK_INTERRUPTIBLE then s ← update_task (fun t => with_state t TASK_RUNNING) a s; Some (0, s) else Some (0, s)
  end.

(** [list_for_each_entry] with a body that changes the state. *)
Fixpoint each (fuel : nat) (body : Z -> tasks_state -> option tasks_state) (f : field) (head pos : Z) s : option tasks_state :=
  match fuel with
  | O => None
  | S fuel =>
      if pos =? head then Some s
      else s ← body (list_entry pos f) s; pos ← next (nodes s) !! pos; each fuel body f head pos s
  end.
Definition for_each (fuel : nat) (body : Z -> tasks_state -> option tasks_state) (f : field) (head : Z) s : option tasks_state :=
  pos ← next (nodes s) !! head; each fuel body f head pos s.

Definition send (sig : Z) (a : Z) s : option tasks_state := r ← task_signal (Some a) sig s; Some r.2.

Definition task_signal_group (task : option Z) (sig : Z) s : option (Z * tasks_state) :=
  match task with
  | None => Some (- EINVAL, s)
  | Some a =>
      if bad_signal sig then Some (- EINVAL, s)
      else
        t ← tasks s !! a;
        leader ← group_leader t;
        s ← for_each (task_fuel s) (send sig) ThreadGroup (addr leader ThreadGroup) s;
        s ← send sig leader s;
        Some (0, s)
  end.

Definition task_signal_all (sig : Z) s : option (Z * tasks_state) :=
  if bad_signal sig then Some (- EINVAL, s)
  else s ← for_each (task_fuel s) (send sig) Tasks task_list s; Some (0, s).

(** ** Threads *)

Definition task_create_thread (task : option Z) (routine : Z) (argument flags : Z) (mem : option Z) s : option (option Z * tasks_state) :=
  match task with
  | None => Some (None, s)
  | Some a =>
      if routine =? 0 then Some (None, s)
      else
        match mem with
        | None => Some (None, s)
        | Some p =>
            t ← tasks s !! a;
            let th := mk_thread (thread_count t) a routine argument 0 flags THREAD_CREATED None in
            let s := with_nodes (new_node (addr p ThreadEntry) (nodes s)) (with_threads (<[p := th]> (threads s)) s) in
            s ← on_nodes (list_init (addr p ThreadEntry)) s;
            s ← update_task (fun t => with_thread t (match main_thread t with None => Some p | m => m end) (u32 (thread_count t + 1))) a s;
            s ← on_nodes (list_add (addr p ThreadEntry) (addr a Threads)) s;
            Some (Some p, s)
        end
  end.

Definition task_current_thread (task : option Z) s : option (option Z) :=
  match task with None => Some None | Some a => t ← tasks s !! a; Some (main_thread t) end.

Definition task_exit (task : option Z) (status : Z) s : option (Z * tasks_state) :=
  match task with
  | None => Some (- EINVAL, s)
  | Some a =>
      s ← update_task (fun t => with_exit_code t status) a s;
      s ← update_task (fun t => with_state t TASK_ZOMBIE) a s;
      t ← tasks s !! a;
      match parent t with
      | None => Some (0, s)
      | Some p =>
          q ← tasks s !! p;
          if state q =? TASK_INTERRUPTIBLE then s ← update_task (fun t => with_state t TASK_RUNNING) p s; Some (0, s) else Some (0, s)
      end
  end.

(** A thread that waits for [p] becomes ready. *)
Definition wake_waiter (p t : Z) s : option tasks_state :=
  th ← threads s !! t;
  if (thread_state th =? THREAD_WAITING) && bool_decide (waiting_for th = Some p)
  then update_thread (with_thread_state THREAD_READY None) t s else Some s.

(** The function ends without a return statement behind the checks: [None] stands for the
    value its callers get. *)
Definition task_exit_thread (task th : option Z) (r : Z) s : option (option Z * tasks_state) :=
  match task, th with
  | Some a, Some p =>
      x ← threads s !! p;
      if negb (thread_task x =? a) then Some (Some (- EINVAL), s)
      else
        s ← update_thread (with_retval THREAD_EXITED r) p s;
        s ← for_each (thread_fuel s) (wake_waiter p) ThreadEntry (addr a Threads) s;
        t ← tasks s !! a;
        if bool_decide (main_thread t = Some p) then q ← task_exit (Some a) (s32 r) s; Some (None, q.2) else Some (None, s)
  | _, _ => Some (Some (- EINVAL), s)
  end.

(** The return value that is stored, if any. *)
Definition task_join_thread (task th : option Z) s : option (Z * option Z * tasks_state) :=
  match task, th with
  | Some a, Some p =>
      x ← threads s !! p;
      if negb (thread_task x =? a) then Some (- EINVAL, None, s)
      else if has_flag (thread_flags x) THREAD_DETACHED then Some (- EINVAL, None, s)
      else
        cur ← task_current_thread (Some a) s;
        match cur with
        | None => Some (- EINVAL, None, s)
        | Some c =>
            s ← (if thread_state x =? THREAD_EXITED then Some s else update_thread (with_thread_state THREAD_WAITING (Some p)) c s);
            x ← threads s !! p;
            s ← on_nodes (list_del (addr p ThreadEntry)) s;
            Some (0, Some (retval x), emit [Kfree p] (with_threads (delete p (threads s)) s))
        end
  | _, _ => Some (- EINVAL, None, s)
  end.

Definition task_detach_thread (task th : option Z) s : option (Z * tasks_state) :=
  match task, th with
  | Some a, Some p =>
      x ← threads s !! p;
      if negb (thread_task x =? a) then Some (- EINVAL, s)
      else if has_flag (thread_flags x) THREAD_DETACHED then Some (0, s)
      else s ← update_thread (fun x => with_thread_flags (Z.lor (thread_flags x) THREAD_DETACHED) x) p s; Some (0, s)
  | _, _ => Some (- EINVAL, s)
  end.

Definition task_cancel_thread (task th : option Z) s : option (option Z * tasks_state) :=
  match task, th with
  | Some a, Some p =>
      x ← threads s !! p;
      if negb (thread_task x =? a) then Some (Some (- EINVAL), s) else task_exit_thread task th 0 s
  | _, _ => Some (Some (- EINVAL), s)
  end.

Definition task_get_thread (task : option Z) (i : Z) s : option (option Z) :=
  match task with
  | None => Some None
  | Some a =>
      r ← list_for_each_entry (thread_fuel s) (fun q => x ← threads s !! list_entry q ThreadEntry; Some (tid x =? i)) (addr a Threads) (nodes s);
      Some (option_map (fun q => list_entry q ThreadEntry) r)
  end.

End Tasks.
End Task.
