(* ===== verification/TaskSpec.v ===== *)
(** The table of tasks ([kernel/task/task.c]) as a specification: a list of tasks with
    distinct numbers, a tree of children, and what creating, destroying, finding,
    signalling and ending tasks do to them. *)

From S2P Require Import Prelude KList Links Task.

Module TaskSpec.
Import KList Links Task.

#[global] Instance field_eq_dec : EqDecision field.
Proof. solve_decision. Defined.

Definition fields : list field := [TaskList; Children; Sibling; Threads; Tasks; ThreadGroup; ThreadEntry].

#[global] Program Instance field_countable : Countable field := {|
  encode f := encode (default 0%nat (fst <$> list_find (eq f) fields));
  decode p := decode p ≫= fun n => fields !! (n : nat)
|}.
Next Obligation. by intros []. Qed.

Definition field_member (f : field) : option field :=
  match f with TaskList => Some Tasks | Children => Some Sibling | Threads => Some ThreadEntry | _ => None end.

#[global] Program Instance task_linked : Linked field := { member := field_member }.
Next Obligation. by intros [] m [= <-]. Qed.
Next Obligation. by intros [] [] m [= <-]. Qed.

#[local] Arguments new_name : simpl never.
#[local] Arguments task_signal : simpl never.
#[local] Arguments send : simpl never.

Section Spec.
(** The list head, the first task, and the memory in which tasks can lie: the nodes of two
    tasks there never share an address. *)
Context (task_list init_task : Z) (arena : gset Z).

Definition live (f : field) (a : Z) : Prop :=
  match f with TaskList => a = task_list | ThreadEntry => False | _ => a ∈ arena end.

Definition disjoint_layout : Prop := forall f a g b, live f a -> live g b -> addr a f = addr b g -> f = g /\ a = b.
Context (layout : disjoint_layout).

(** ** Abstract states *)

(** The tasks in the list, newest first; the children of each, newest first; and the fields
    of all tasks, the idle ones included. *)
Record view := mk_view {
  procs : list Z; kids : gmap Z (list Z); body : gmap Z task_struct; vnext : Z; vcur : Z; vidle : list (option Z)
}.
Implicit Types (s : tasks_state) (v : view) (a p : Z).

Definition links_of (l : list Z) (k : gmap Z (list Z)) : gmap (field * Z) (list Z) := <[(TaskList, task_list) := l]> (kmap (pair Children) k).

#[local] Instance pair_inj : Inj (=) (=) (pair (B := Z) Children).
Proof. by intros x y [= ->]. Qed.

Lemma links_children l k a : links_of l k !! (Children, a) = k !! a.
Proof. unfold links_of. rewrite lookup_insert_ne by done. apply (lookup_kmap (pair Children)). Qed.

Lemma links_list l k : links_of l k !! (TaskList, task_list) = Some l.
Proof. apply lookup_insert_eq. Qed.

Lemma links_other l k f a x : links_of l k !! (f, a) = Some x -> (f = TaskList /\ a = task_list /\ x = l) \/ (f = Children /\ k !! a = Some x).
Proof.
  unfold links_of. intros [[Hk <-]|[_ E]]%lookup_insert_Some; [left; by injection Hk as <- <-|]. right.
  apply (lookup_kmap_Some (pair Children)) in E as (b & [= -> ->] & E). done.
Qed.

Lemma links_kids l k a x : links_of l (<[a := x]> k) = <[(Children, a) := x]> (links_of l k).
Proof. unfold links_of. by rewrite (kmap_insert (pair Children)), insert_insert_ne. Qed.

Lemma links_procs l l' k : <[(TaskList, task_list) := l']> (links_of l k) = links_of l' k.
Proof. unfold links_of. by rewrite insert_insert_eq. Qed.

Lemma links_drop l k a : delete (Children, a) (links_of l k) = links_of l (delete a k).
Proof. unfold links_of. rewrite delete_insert_ne by done. by rewrite (kmap_delete (pair Children)). Qed.

(** Well-formed tables. *)
Record valid v : Prop := {
  va_cur : vcur v ∈ procs v;
  va_init : init_task ∈ procs v;
  va_task : forall a, a ∈ procs v -> (exists t, body v !! a = Some t /\ 0 <= pid t < vnext v) /\ is_Some (kids v !! a);
  va_pids : forall a b t u, a ∈ procs v -> b ∈ procs v -> body v !! a = Some t -> body v !! b = Some u -> pid t = pid u -> a = b;
  va_kids : forall p l, kids v !! p = Some l -> p ∈ procs v /\
    forall a, a ∈ l -> a ∈ procs v /\ exists t, body v !! a = Some t /\ parent t = Some p;
  va_parent : forall a, a ∈ procs v -> a <> init_task -> exists p l, kids v !! p = Some l /\ a ∈ l;
  va_idle : forall a, Some a ∈ vidle v -> a ∉ procs v /\ is_Some (body v !! a);
  va_next : vnext v < 2 ^ 32
}.

Record rep s v : Prop := {
  rp_tracks : tracks live (nodes s) (links_of (procs v) (kids v));
  rp_tasks : tasks s = body v;
  rp_next : next_pid s = vnext v;
  rp_cur : current s = Some (vcur v);
  rp_idle : idle_tasks s = vidle v;
  rp_valid : valid v
}.

(** A task that is not in memory is in no list. *)
Lemma fresh_free s v a : rep s v -> body v !! a = None -> a ∉ procs v /\ kids v !! a = None /\ forall f, free (links_of (procs v) (kids v)) f a.
Proof.
  intros H Ha. pose proof (rp_valid _ _ H) as V. assert (a ∉ procs v) as Hp.
  { intros Hin. destruct (va_task _ V a Hin) as [(t & Ht & _) _]. congruence. }
  split; [done|]. split.
  - apply eq_None_not_Some. intros [l El]. by destruct (va_kids _ V a l El).
  - intros f b l [(-> & -> & ->)|(-> & E)]%links_other; [done|]. intros Hin. destruct (va_kids _ V b l E) as [_ Hk]. by destruct (Hk a Hin).
Qed.

(** ** Creating *)

Lemma clear_nodes_ok a h R : tracks live h R -> a ∈ arena -> (forall f, f <> TaskList -> R !! (f, a) = None) -> (forall f, free R f a) ->
  tracks live (clear_nodes a h) R.
Proof.
  intros HT Ha HR Hf. unfold clear_nodes.
  assert (forall h m, live m a -> m <> TaskList -> tracks live h R -> tracks live (new_node (addr a m) h) R) as Hn.
  { intros h' m Hm Hne HT'. eapply (tracks_untouched live layout h' _ R m a); [done|done|apply new_node_others|by apply HR|done]. }
  by repeat (apply Hn; [done|done|]).
Qed.

Lemma on_nodes_tracks f h s : f (nodes s) = Some h -> on_nodes f s = Some (with_nodes h s).
Proof. intros E. unfold on_nodes. by rewrite E. Qed.

Lemma init_lists_ok a s R : tracks live (nodes s) R -> a ∈ arena -> (forall f, f <> TaskList -> R !! (f, a) = None) -> (forall f, free R f a) ->
  exists h, init_lists a s = Some (with_nodes h s) /\ tracks live h (<[(Children, a) := []]> R).
Proof.
  intros HT Ha HR Hf. unfold init_lists.
  destruct (init_head live layout (nodes s) R Children a Sibling HT Ha eq_refl) as (h1 & E1 & H1); [by rewrite HR|].
  rewrite (on_nodes_tracks _ h1) by done. simpl. set (R' := <[(Children, a) := []]> R) in *.
  assert (forall m, m <> Children -> m <> TaskList -> R' !! (m, a) = None) as HR' by (intros m Hm Hm'; unfold R'; rewrite lookup_insert_ne by congruence; by apply HR).
  assert (forall f, free R' f a) as Hf'.
  { intros f b l. unfold R'. intros [[_ <-]|[_ E]]%lookup_insert_Some; [apply not_elem_of_nil|by eapply Hf]. }
  destruct (init_node live layout h1 R' Sibling a H1 Ha) as (h2 & E2 & H2); [by apply HR'|done|]. rewrite (on_nodes_tracks _ h2) by done. simpl.
  destruct (init_node live layout h2 R' Tasks a H2 Ha) as (h3 & E3 & H3); [by apply HR'|done|]. rewrite (on_nodes_tracks _ h3) by done. simpl.
  destruct (init_node live layout h3 R' ThreadGroup a H3 Ha) as (h4 & E4 & H4); [by apply HR'|done|]. rewrite (on_nodes_tracks _ h4) by done. by exists h4.
Qed.

Lemma task_head_addr : addr task_list TaskList = task_list.
Proof. apply Z.add_0_r. Qed.

Definition v_create (nm : list Z) a v : view :=
  match body v !! vcur v with
  | None => v
  | Some c =>
      mk_view (a :: procs v) (<[a := []]> (alter (cons a) (vcur v) (kids v)))
        (<[a := blank (vnext v) (pid c) 120 SCHED_NORMAL (Some (vcur v)) (Some a) nm 0]> (body v)) (u32 (vnext v + 1)) (vcur v) (vidle v)
  end.

(** Memory for a task is fresh, and the numbers have not run out. *)
Definition can_create (name : option (list Z)) a v : Prop :=
  is_Some (new_name name) /\ a ∈ arena /\ body v !! a = None /\ vnext v + 1 < 2 ^ 32.

Lemma create_valid nm a v : valid v -> body v !! a = None -> vnext v + 1 < 2 ^ 32 -> a ∉ procs v -> kids v !! a = None -> valid (v_create nm a v).
Proof.
  intros V Ha Hn Hp Hk. destruct (va_task _ V _ (va_cur _ V)) as [(c & Hc & Hpc) [kc Ekc]]. unfold v_create. rewrite Hc.
  assert (a <> vcur v) as Hac by (intros ->; congruence). assert (0 <= vnext v) as Hn0 by lia. set (t0 := blank _ _ _ _ _ _ _ _).
  assert (u32 (vnext v + 1) = vnext v + 1) as Hu by (apply u32_small; lia).
  assert (forall b, b ∈ procs v -> <[a := t0]> (body v) !! b = body v !! b) as Hb by (intros b Hb; apply lookup_insert_ne; by intros ->).
  split; simpl; rewrite ?Hu.
  - right. apply (va_cur _ V).
  - right. apply (va_init _ V).
  - intros b [->|Hin]%elem_of_cons.
    + rewrite !lookup_insert_eq. split; [|by eexists]. exists t0. split; [done|]. simpl. lia.
    + rewrite Hb by done. destruct (va_task _ V b Hin) as [(t & Ht & Hpt) Hkb]. split; [exists t; split; [done|lia]|].
      rewrite lookup_insert_is_Some'. right. destruct (decide (b = vcur v)) as [->|]; [rewrite lookup_alter_eq, Ekc; by eexists|by rewrite lookup_alter_ne].
  - intros b1 b2 t u [->|H1]%elem_of_cons [->|H2]%elem_of_cons.
    + done.
    + rewrite lookup_insert_eq, Hb by done. intros [= <-] Hu2 E. destruct (va_task _ V _ H2) as [(u' & Hu' & ?) _]. simplify_eq. simpl in E. lia.
    + rewrite lookup_insert_eq, Hb by done. intros Hu1 [= <-] E. destruct (va_task _ V _ H1) as [(u' & Hu' & ?) _]. simplify_eq. simpl in E. lia.
    + rewrite !Hb by done. by apply (va_pids _ V).
  - intros p l [[<- <-]|[Hne E]]%lookup_insert_Some.
    + split; [left|]. by intros b ?%not_elem_of_nil.
    + destruct (decide (p = vcur v)) as [->|].
      * rewrite lookup_alter_eq, Ekc in E. injection E as <-. destruct (va_kids _ V _ _ Ekc) as [Hpp Hch]. split; [by right|].
        intros b [->|Hin]%elem_of_cons; [split; [left|]; exists t0; by rewrite lookup_insert_eq|].
        destruct (Hch b Hin) as [Hbp Ht]. split; [by right|]. by rewrite Hb.
      * rewrite lookup_alter_ne in E by done. destruct (va_kids _ V _ _ E) as [Hpp Hch]. split; [by right|].
        intros b Hin. destruct (Hch b Hin) as [Hbp Ht]. split; [by right|]. by rewrite Hb.
  - intros b [->|Hin]%elem_of_cons Hne.
    + exists (vcur v), (a :: kc). split; [|left]. by rewrite lookup_insert_ne, lookup_alter_eq, Ekc by done.
    + destruct (va_parent _ V b Hin Hne) as (p & l & El & Hbl). destruct (decide (p = vcur v)) as [->|].
      * exists (vcur v), (a :: kc). rewrite lookup_insert_ne, lookup_alter_eq, Ekc by done. split; [done|]. right. by simplify_eq.
      * exists p, l. rewrite lookup_insert_ne, lookup_alter_ne by (done || (intros ->; congruence)). done.
  - intros b Hi. destruct (va_idle _ V b Hi) as [Hbp Hbb]. split; [|rewrite lookup_insert_is_Some'; auto].
    apply not_elem_of_cons. split; [intros ->; by destruct Hbb; congruence|done].
  - lia.
Qed.

Lemma task_create_ok name a s v : rep s v -> can_create name a v ->
  exists s', task_create task_list name (Some a) s = Some (Some a, s') /\ exists nm, new_name name = Some nm /\ rep s' (v_create nm a v).
Proof.
  intros H ([nm Hnm] & Ha & Hfr & Hn). pose proof (rp_valid _ _ H) as V. destruct (fresh_free _ _ _ H Hfr) as (Hp & Hk & Hf).
  destruct (va_task _ V _ (va_cur _ V)) as [(c & Hc & Hpc) [kc Ekc]]. assert (a <> vcur v) as Hac by (intros ->; congruence).
  unfold task_create, task_get_pid. simpl. rewrite (rp_cur _ _ H). simpl. rewrite (rp_tasks _ _ H), Hc. simpl.
  rewrite Hnm. simpl. rewrite (rp_next _ _ H).
  set (R := links_of (procs v) (kids v)) in *. assert (forall f, f <> TaskList -> R !! (f, a) = None) as HR.
  { intros f Hft. apply eq_None_not_Some. intros [l [(-> & _)|(-> & E)]%links_other]; [done|congruence]. }
  destruct (init_lists_ok a (with_tasks (<[a := blank (vnext v) (pid c) 120 SCHED_NORMAL (Some (vcur v)) (Some a) nm 0]> (body v))
    (with_nodes (clear_nodes a (nodes s)) (with_next_pid (u32 (vnext v + 1)) s))) R) as (h1 & E1 & H1); [|done|done|done|].
  { apply clear_nodes_ok; try done. apply H. }
  rewrite E1. simpl. set (R1 := <[(Children, a) := []]> R) in *.
  assert (R1 !! (Children, vcur v) = Some kc) as Ek by (unfold R1, R; rewrite lookup_insert_ne by congruence; by rewrite links_children).
  assert (forall f, free R1 f a) as Hf1.
  { intros f b l. unfold R1. intros [[_ <-]|[_ E]]%lookup_insert_Some; [apply not_elem_of_nil|by eapply Hf]. }
  destruct (add_link live layout h1 R1 Children (vcur v) Sibling kc a H1 Ek eq_refl Ha (Hf1 Children)) as (h2 & E2 & H2).
  rewrite (on_nodes_tracks _ h2) by done. simpl. set (R2 := <[(Children, vcur v) := a :: kc]> R1) in *.
  assert (R2 !! (TaskList, task_list) = Some (procs v)) as Et.
  { unfold R2, R1. rewrite !lookup_insert_ne by done. apply links_list. }
  destruct (add_link live layout h2 R2 TaskList task_list Tasks (procs v) a H2 Et eq_refl Ha) as (h3 & E3 & H3).
  { intros b l. unfold R2. rewrite lookup_insert_ne by done. apply Hf1. }
  rewrite task_head_addr in E3. rewrite (on_nodes_tracks _ h3) by done. simpl. eexists. split; [done|]. exists nm. split; [done|].
  pose proof (create_valid nm a v V Hfr Hn Hp Hk) as V'. unfold v_create in *. rewrite Hc in *. split; simpl; try done.
  - rewrite links_kids. replace (alter (cons a) (vcur v) (kids v)) with (<[vcur v := a :: kc]> (kids v)).
    + rewrite <-(links_procs (procs v)), links_kids. unfold R2, R1, R in H3.
      rewrite (insert_insert_ne _ (Children, a)) by done. rewrite (insert_insert_ne _ (Children, vcur v)) in H3 by congruence. exact H3.
    + apply map_eq. intros j. destruct (decide (j = vcur v)) as [->|]; [by rewrite lookup_insert_eq, lookup_alter_eq, Ekc|]. by rewrite lookup_insert_ne, lookup_alter_ne.
  - apply H.
  - apply H.
Qed.
(** ** Destroying *)

Definition v_destroy a v : Z * view :=
  if bool_decide (vcur v = a) then (- EBUSY, v)
  else if a =? init_task then (- EPERM, v)
  else if bool_decide (Some a ∈ vidle v) then (- EPERM, v)
  else
    match body v !! a ≫= parent with
    | None => (0, v)
    | Some p => (0, mk_view (without a (procs v)) (delete a (alter (without a) p (kids v))) (delete a (body v)) (vnext v) (vcur v) (vidle v))
    end.

(** A task in the list can be destroyed when it has no children. *)
Definition can_destroy a v : Prop :=
  vcur v = a \/ a = init_task \/ Some a ∈ vidle v \/ (a ∈ procs v /\ kids v !! a = Some []).

Lemma destroy_valid a p lp v : valid v -> a <> vcur v -> a <> init_task -> a ∈ procs v -> kids v !! a = Some [] -> kids v !! p = Some lp -> a ∈ lp ->
  valid (mk_view (without a (procs v)) (delete a (alter (without a) p (kids v))) (delete a (body v)) (vnext v) (vcur v) (vidle v)).
Proof.
  intros V Hc Hi Ha Hk Hp Hap. assert (a <> p) as Hne by (intros ->; rewrite Hk in Hp; injection Hp as <-; by apply not_elem_of_nil in Hap).
  assert (forall b, b ∈ without a (procs v) -> b ∈ procs v /\ b <> a) as Hw by (intros b Hb; by apply elem_without).
  assert (forall q l, delete a (alter (without a) p (kids v)) !! q = Some l -> q <> a /\ exists l', kids v !! q = Some l' /\ forall b, b ∈ l -> b ∈ l') as Hkids.
  { intros q l [Hq E]%lookup_delete_Some. split; [done|]. destruct (decide (q = p)) as [->|].
    - rewrite lookup_alter_eq, Hp in E. injection E as <-. exists lp. split; [done|]. intros b. rewrite elem_without. tauto.
    - rewrite lookup_alter_ne in E by done. by exists l. }
  split; simpl.
  - apply elem_without. split; [apply (va_cur _ V)|done].
  - apply elem_without. split; [apply (va_init _ V)|done].
  - intros b [Hb Hba]%Hw. destruct (va_task _ V b Hb) as [Ht Hkb]. rewrite !lookup_delete_ne by done. split; [done|].
    destruct (decide (p = b)) as [->|]; [rewrite lookup_alter_eq, Hp; by eexists|by rewrite lookup_alter_ne].
  - intros b1 b2 t u [H1 N1]%Hw [H2 N2]%Hw. rewrite !lookup_delete_ne by done. by apply (va_pids _ V).
  - intros q l E. destruct (Hkids q l E) as (Hqa & l' & E' & Hsub). destruct (va_kids _ V q l' E') as [Hq Hch].
    split; [by apply elem_without|]. intros b Hb. assert (b <> a) as Hba.
    { intros ->. destruct (Hch a (Hsub a Hb)) as [_ (t & Ht & Hpt)]. destruct (va_kids _ V p lp Hp) as [_ Hch'].
      destruct (Hch' a Hap) as [_ (t' & Ht' & Hpt')]. assert (q = p) as -> by congruence. apply lookup_delete_Some in E as [_ E].
      rewrite lookup_alter_eq, Hp in E. injection E as <-. by apply elem_without in Hb as [_ ?]. }
    destruct (Hch b (Hsub b Hb)) as [Hbp Ht]. split; [by apply elem_without|]. by rewrite lookup_delete_ne.
  - intros b [Hb Hba]%Hw Hbi. destruct (va_parent _ V b Hb Hbi) as (q & l & E & Hbl).
    assert (q <> a) as Hqa by (intros ->; rewrite Hk in E; injection E as <-; by apply not_elem_of_nil in Hbl).
    destruct (decide (q = p)) as [->|].
    + exists p, (without a lp). rewrite lookup_delete_ne, lookup_alter_eq, Hp by done. split; [done|]. apply elem_without. split; [congruence|done].
    + exists q, l. by rewrite lookup_delete_ne, lookup_alter_ne by done.
  - intros b Hb. destruct (va_idle _ V b Hb) as [Hbp Hbb]. split; [intros Hin; by apply Hw in Hin as [? _]|].
    rewrite lookup_delete_ne by (by intros ->). done.
  - apply (va_next _ V).
Qed.

Lemma task_destroy_ok a s v : rep s v -> can_destroy a v ->
  exists s', task_destroy init_task (Some a) s = Some ((v_destroy a v).1, s') /\ rep s' (v_destroy a v).2.
Proof.
  intros H Hc. pose proof (rp_valid _ _ H) as V. unfold task_destroy, v_destroy. rewrite (rp_cur _ _ H), (rp_idle _ _ H).
  rewrite (bool_decide_ext (Some (vcur v) = Some a) (vcur v = a)) by (split; congruence).
  case_bool_decide as Ecur; [by exists s|]. destruct (Z.eqb_spec a init_task) as [Ei|Ei]; [by exists s|]. case_bool_decide as Eid; [by exists s|].
  destruct Hc as [?|[?|[?|[Ha Hk]]]]; try done. destruct (va_parent _ V a Ha Ei) as (p & lp & Hp & Hap).
  destruct (va_kids _ V p lp Hp) as [_ Hch]. destruct (Hch a Hap) as [_ (t & Ht & Hpt)]. rewrite Ht. simpl. rewrite Hpt.
  assert (a <> p) as Hne by (intros ->; rewrite Hk in Hp; injection Hp as <-; by apply not_elem_of_nil in Hap).
  destruct (del_link live layout _ _ TaskList task_list Tasks (procs v) a (rp_tracks _ _ H) (links_list _ _) eq_refl Ha) as (h1 & E1 & H1).
  rewrite (on_nodes_tracks _ h1) by done. simpl. rewrite links_procs in H1.
  destruct (del_link live layout _ _ Children p Sibling lp a H1) as (h2 & E2 & H2); [by rewrite links_children|done|done|].
  rewrite (on_nodes_tracks _ h2) by done. simpl. rewrite (rp_tasks _ _ H), Ht. simpl.
  rewrite <-links_kids in H2. apply (tracks_delete _ _ _ (Children, a)) in H2. rewrite links_drop in H2.
  assert (<[p := without a lp]> (kids v) = alter (without a) p (kids v)) as Ea.
  { apply map_eq. intros j. destruct (decide (j = p)) as [->|]; [by rewrite lookup_insert_eq, lookup_alter_eq, Hp|]. by rewrite lookup_insert_ne, lookup_alter_ne. }
  rewrite Ea in H2. eexists. split; [done|]. pose proof (destroy_valid a p lp v V ltac:(done) Ei Ha Hk Hp Hap) as V'.
  destruct (files t); split; simpl; try done; apply H || by rewrite (rp_tasks _ _ H).
Qed.

(** ** Finding *)

Definition v_get p v : option Z :=
  List.find (fun a => match body v !! a with Some t => pid t =? p | None => false end) (procs v).

Lemma task_get_ok p s v : rep s v -> task_get task_list p s = Some (v_get p v).
Proof.
  intros H. pose proof (rp_valid _ _ H) as V. unfold task_get, v_get.
  pose proof (walk_links live _ _ TaskList task_list Tasks (procs v) (task_fuel s) (fun a => t ← tasks s !! a; Some (pid t =? p))
    (fun a => match body v !! a with Some t => pid t =? p | None => false end) (rp_tracks _ _ H) (links_list _ _) eq_refl) as Hw.
  rewrite task_head_addr in Hw. rewrite Hw; simpl.
  - f_equal. destruct (List.find _ (procs v)); simpl; [|done]. by rewrite entry_addr.
  - unfold task_fuel. rewrite (rp_tasks _ _ H). eapply links_bound; [apply H|apply links_list|]. intros a Ha.
    destruct (va_task _ V a Ha) as [(t & -> & _) _]. by eexists.
  - intros a Ha. rewrite (rp_tasks _ _ H). by destruct (va_task _ V a Ha) as [(t & -> & _) _].
Qed.

(** Numbers are distinct, so that a task is found exactly by its own. *)
Lemma get_by_pid p v a : valid v -> v_get p v = Some a <-> a ∈ procs v /\ exists t, body v !! a = Some t /\ pid t = p.
Proof.
  intros V. unfold v_get. split.
  - intros [Hin Hp]%List.find_some. apply list_elem_of_In in Hin. split; [done|]. destruct (body v !! a) as [t|]; [|done]. exists t. split; [done|lia].
  - intros (Hin & t & Ht & Hp). destruct (List.find _ (procs v)) as [b|] eqn:E.
    + apply List.find_some in E as [Hb Hpb]. apply list_elem_of_In in Hb. destruct (body v !! b) as [u|] eqn:Eu; [|done].
      f_equal. eapply (va_pids _ V b a u t); try done. lia.
    + apply list_elem_of_In in Hin. pose proof (List.find_none _ _ E a Hin) as Hn. cbv beta in Hn. rewrite Ht in Hn. lia.
Qed.
(** ** Changing a task *)

Definition v_upd (g : task_struct -> task_struct) a v : view :=
  mk_view (procs v) (kids v) (alter g a (body v)) (vnext v) (vcur v) (vidle v).

Definition keeps (g : task_struct -> task_struct) : Prop := forall t, pid (g t) = pid t /\ parent (g t) = parent t.

Lemma body_upd g a v b : v.(body) !! b = None -> alter g a (body v) !! b = None.
Proof. intros E. destruct (decide (a = b)) as [->|]; [by rewrite lookup_alter_eq, E|by rewrite lookup_alter_ne]. Qed.

Lemma upd_lookup g a v b u : keeps g -> alter g a (body v) !! b = Some u -> exists t, body v !! b = Some t /\ pid u = pid t /\ parent u = parent t.
Proof.
  intros Hg. destruct (decide (a = b)) as [->|]; [rewrite lookup_alter_eq|rewrite lookup_alter_ne by done; eauto].
  destruct (body v !! b) as [t|]; [|done]. intros [= <-]. exists t. destruct (Hg t). done.
Qed.

Lemma upd_keeps g a v b t : keeps g -> body v !! b = Some t -> exists u, alter g a (body v) !! b = Some u /\ pid u = pid t /\ parent u = parent t.
Proof.
  intros Hg Hb. destruct (decide (a = b)) as [->|]; [rewrite lookup_alter_eq, Hb|rewrite lookup_alter_ne, Hb by done; eauto].
  exists (g t). destruct (Hg t). done.
Qed.

Lemma upd_valid g a v : keeps g -> valid v -> valid (v_upd g a v).
Proof.
  intros Hg [V1 V2 V3 V4 V5 V6 V7 V8]. split; simpl; try done.
  - intros b Hb. destruct (V3 b Hb) as [(t & Ht & Hp) Hk]. split; [|done]. destruct (upd_keeps g a v b t Hg Ht) as (u & Hu & Eu & _). exists u. split; [done|lia].
  - intros b1 b2 u1 u2 H1 H2 E1 E2 Ep. apply upd_lookup in E1 as (t1 & E1 & P1 & _); [|done]. apply upd_lookup in E2 as (t2 & E2 & P2 & _); [|done].
    eapply V4; try done. congruence.
  - intros p l E. destruct (V5 p l E) as [Hp Hch]. split; [done|]. intros b Hb. destruct (Hch b Hb) as [Hbp (t & Ht & Hpt)]. split; [done|].
    destruct (upd_keeps g a v b t Hg Ht) as (u & Hu & _ & Eu). exists u. split; [done|congruence].
  - intros b Hb. destruct (V7 b Hb) as [Hbp [t Ht]]. split; [done|]. destruct (upd_keeps g a v b t Hg Ht) as (u & -> & _). by eexists.
Qed.

Lemma insert_alter (g : task_struct -> task_struct) a (m : gmap Z task_struct) t : m !! a = Some t -> <[a := g t]> m = alter g a m.
Proof.
  intros Ht. apply map_eq. intros j. destruct (decide (j = a)) as [->|]; [by rewrite lookup_insert_eq, lookup_alter_eq, Ht|]. by rewrite lookup_insert_ne, lookup_alter_ne.
Qed.

Lemma alter_same (g : task_struct -> task_struct) a (m : gmap Z task_struct) t : m !! a = Some t -> g t = t -> alter g a m = m.
Proof. intros Ht Hg. rewrite <-(insert_alter g a m t Ht), Hg. by apply insert_id. Qed.

Lemma update_task_ok g a s v t : rep s v -> body v !! a = Some t -> keeps g -> exists s', update_task g a s = Some s' /\ rep s' (v_upd g a v).
Proof.
  intros H Ht Hg. unfold update_task. rewrite (rp_tasks _ _ H), Ht. simpl. eexists. split; [done|]. destruct H as [H1 H2 H3 H4 H5 V].
  split; try done; simpl; [by apply insert_alter|by apply upd_valid].
Qed.

(** ** Signals *)

(** What a signal does to a task. *)
Definition deaf (t : task_struct) : bool := (state t =? TASK_ZOMBIE) || (state t =? TASK_DEAD).
Definition deliver (sig : Z) (t : task_struct) : task_struct :=
  if deaf t || has_flag (blocked t) (BIT (sig - 1)) then t
  else
    let t' := with_pending t (Z.lor (pending t) (BIT (sig - 1))) in
    if state t =? TASK_INTERRUPTIBLE then with_state t' TASK_RUNNING else t'.

Lemma deliver_keeps sig : keeps (deliver sig).
Proof. intros t. unfold deliver. by repeat case_match. Qed.

Definition v_signal a sig v : Z * view :=
  if bad_signal sig then (- EINVAL, v)
  else match body v !! a with Some t => (if deaf t then - ESRCH else 0, v_upd (deliver sig) a v) | None => (0, v) end.

Lemma rep_same g a s v t : rep s v -> body v !! a = Some t -> g t = t -> rep s (v_upd g a v).
Proof. intros [H1 H2 H3 H4 H5 V] Ht Hg. unfold v_upd. rewrite (alter_same g a _ t Ht Hg). by destruct v. Qed.

Lemma task_signal_ok a sig s v : rep s v -> is_Some (body v !! a) ->
  exists s', task_signal (Some a) sig s = Some ((v_signal a sig v).1, s') /\ rep s' (v_signal a sig v).2.
Proof.
  intros H [t Ht]. unfold task_signal, v_signal. destruct (bad_signal sig); [by exists s|]. rewrite (rp_tasks _ _ H), Ht, bind_Some_l.
  fold (deaf t). cbn [fst snd]. destruct (deaf t) eqn:Ed.
  { exists s. split; [done|]. eapply rep_same; [done|done|]. unfold deliver. by rewrite Ed. }
  destruct (has_flag (blocked t) _) eqn:Eb.
  { exists s. split; [done|]. eapply rep_same; [done|done|]. unfold deliver. by rewrite Ed, Eb. }
  destruct (update_task_ok (fun t => with_pending t (Z.lor (pending t) (BIT (sig - 1)))) a s v t H Ht) as (s1 & E1 & H1); [done|].
  rewrite E1, bind_Some_l. destruct (state t =? TASK_INTERRUPTIBLE) eqn:Es.
  - destruct (update_task_ok (fun t => with_state t TASK_RUNNING) a s1 _ (with_pending t (Z.lor (pending t) (BIT (sig - 1)))) H1) as (s2 & E2 & H2);
      [simpl; by rewrite lookup_alter_eq, Ht|done|]. rewrite E2, bind_Some_l. exists s2. split; [done|]. unfold v_upd in *. simpl in *.
    rewrite <-(insert_alter (deliver sig) a _ t Ht). unfold deliver at 1. rewrite Ed, Eb, Es. simpl.
    rewrite <-(insert_alter _ a (body v) t Ht) in H2. rewrite <-(insert_alter (fun t => with_state t TASK_RUNNING) a _ _ (lookup_insert_eq _ _ _)), insert_insert_eq in H2. exact H2.
  - exists s1. split; [done|]. unfold v_upd in *. rewrite <-(insert_alter (deliver sig) a _ t Ht). unfold deliver at 1. rewrite Ed, Eb, Es. simpl.
    by rewrite <-(insert_alter _ a (body v) t Ht) in H1.
Qed.

(** All tasks of the list, once each. *)
Definition v_signal_all sig v : Z * view :=
  if bad_signal sig then (- EINVAL, v) else (0, foldl (fun v a => v_upd (deliver sig) a v) v (procs v)).

Lemma each_ok sig l1 l2 fuel s v : bad_signal sig = false -> rep s v -> procs v = l1 ++ l2 -> (length l2 < fuel)%nat ->
  exists s', each fuel (send sig) Tasks task_list (List.hd task_list (nodes_in Tasks l2)) s = Some s' /\
    rep s' (foldl (fun v a => v_upd (deliver sig) a v) v l2).
Proof.
  intros Hb. revert l1 fuel s v. induction l2 as [|a l2 IH]; intros l1 [|fuel] s v H El Hf; simpl in Hf; try lia; simpl.
  { rewrite Z.eqb_refl. by exists s. }
  assert (a ∈ procs v) as Ha by (rewrite El, elem_of_app, elem_of_cons; tauto).
  destruct (tracks_list _ _ _ TaskList task_list _ Tasks (rp_tracks _ _ H) (links_list _ _) eq_refl) as (_ & Hl & _).
  rewrite Forall_forall in Hl. destruct (Z.eqb_spec (addr a Tasks) task_list) as [Ea|_].
  { rewrite <-task_head_addr in Ea. by destruct (layout Tasks a TaskList task_list (Hl a Ha) eq_refl Ea). }
  destruct (va_task _ (rp_valid _ _ H) a Ha) as [(t & Ht & _) _]. rewrite entry_addr.
  destruct (task_signal_ok a sig s v H ltac:(by eexists)) as (s1 & E1 & H1). unfold v_signal in E1, H1. rewrite Hb, Ht in E1, H1. cbn [fst snd] in E1, H1.
  assert (send sig a s = Some s1) as Es by (unfold send; by rewrite E1). rewrite Es, bind_Some_l.
  pose proof (next_link live _ _ TaskList task_list Tasks l1 a l2 (rp_tracks _ _ H1)) as Hn. rewrite task_head_addr in Hn.
  rewrite Hn, bind_Some_l; [|rewrite links_list; simpl; by rewrite El|done].
  apply (IH (l1 ++ [a])); [done| |lia]. simpl. by rewrite <-app_assoc.
Qed.

Lemma task_signal_all_ok sig s v : rep s v ->
  exists s', task_signal_all task_list sig s = Some ((v_signal_all sig v).1, s') /\ rep s' (v_signal_all sig v).2.
Proof.
  intros H. unfold task_signal_all, v_signal_all. destruct (bad_signal sig) eqn:Hb; [by exists s|]. cbn [fst snd]. unfold for_each.
  pose proof (first_link live _ _ TaskList task_list Tasks _ (rp_tracks _ _ H) (links_list _ _) eq_refl) as Hn. rewrite task_head_addr in Hn.
  rewrite Hn, bind_Some_l. destruct (each_ok sig [] (procs v) (task_fuel s) s v Hb H eq_refl) as (s' & E & H').
  - unfold task_fuel. rewrite (rp_tasks _ _ H). eapply links_bound; [apply H|apply links_list|]. intros a Ha.
    destruct (va_task _ (rp_valid _ _ H) a Ha) as [(t & -> & _) _]. by eexists.
  - rewrite E, bind_Some_l. by exists s'.
Qed.

Lemma foldl_body g l v a : NoDup l -> body (foldl (fun v b => v_upd g b v) v l) !! a = if bool_decide (a ∈ l) then g <$> body v !! a else body v !! a.
Proof.
  intros Hnd. revert v. induction Hnd as [|b l Hb Hnd IH]; intros v; cbn [foldl]; [by rewrite bool_decide_false by apply not_elem_of_nil|].
  rewrite IH. cbn [body v_upd]. destruct (decide (a = b)) as [->|].
  - rewrite bool_decide_false, bool_decide_true by (done || left). by rewrite lookup_alter_eq.
  - rewrite lookup_alter_ne by done. case_bool_decide as Ha.
    + rewrite bool_decide_true by (by right). done.
    + rewrite bool_decide_false; [done|]. by intros [?|?]%elem_of_cons.
Qed.

(** ** Ending *)

Definition can_exit a v : Prop := exists t, body v !! a = Some t /\ forall p, parent t = Some p -> is_Some (body v !! p).

Definition end_task (status : Z) (t : task_struct) : task_struct := with_state (with_exit_code t status) TASK_ZOMBIE.
Definition wake (t : task_struct) : task_struct := if state t =? TASK_INTERRUPTIBLE then with_state t TASK_RUNNING else t.

Definition v_exit a status v : view :=
  let v1 := v_upd (end_task status) a v in
  match body v !! a ≫= parent with Some p => v_upd wake p v1 | None => v1 end.

Lemma task_exit_ok a status s v : rep s v -> can_exit a v ->
  exists s', task_exit (Some a) status s = Some (0, s') /\ rep s' (v_exit a status v).
Proof.
  intros H (t & Ht & Hp). unfold task_exit, v_exit. rewrite Ht.
  destruct (update_task_ok (fun t => with_exit_code t status) a s v t H Ht) as (s1 & E1 & H1); [done|]. rewrite E1, bind_Some_l.
  destruct (update_task_ok (fun t => with_state t TASK_ZOMBIE) a s1 _ (with_exit_code t status) H1) as (s2 & E2 & H2); [simpl; by rewrite lookup_alter_eq, Ht|done|].
  rewrite E2, bind_Some_l. assert (rep s2 (v_upd (end_task status) a v)) as H2'.
  { unfold v_upd in *. simpl in *. rewrite <-(insert_alter (end_task status) a _ t Ht). rewrite <-(insert_alter (fun t => with_exit_code t status) a (body v) t Ht) in H2.
    rewrite <-(insert_alter _ a _ _ (lookup_insert_eq _ _ _)), insert_insert_eq in H2. exact H2. }
  rewrite (rp_tasks _ _ H2'). simpl. rewrite lookup_alter_eq, Ht. simpl. destruct (parent t) as [p|] eqn:Ep; [|by exists s2].
  assert (is_Some (body (v_upd (end_task status) a v) !! p)) as [q Hq].
  { destruct (Hp p eq_refl) as [q Hq]. simpl. destruct (decide (a = p)) as [->|]; [rewrite lookup_alter_eq, Hq; by eexists|rewrite lookup_alter_ne, Hq by done; by eexists]. }
  cbn [body v_upd] in Hq. rewrite Hq, bind_Some_l. destruct (state q =? TASK_INTERRUPTIBLE) eqn:Es.
  - destruct (update_task_ok (fun t => with_state t TASK_RUNNING) p s2 _ q H2' Hq) as (s3 & E3 & H3); [done|]. rewrite E3, bind_Some_l. exists s3. split; [done|].
    unfold v_upd in *. simpl in *. rewrite <-(insert_alter wake p _ q Hq). unfold wake. rewrite Es. by rewrite <-(insert_alter _ p _ q Hq) in H3.
  - exists s2. split; [done|]. eapply rep_same; [done|done|]. unfold wake. by rewrite Es.
Qed.
(** ** Start *)

Lemma init_idle_ok mems c s R : tracks live (nodes s) R -> (forall a, Some a ∈ mems -> a ∈ arena /\ (forall f, f <> TaskList -> R !! (f, a) = None) /\ forall f, free R f a) ->
  exists s', init_idle init_task mems c s = Some s' /\ tracks live (nodes s') R /\ idle_tasks s' = idle_tasks s ++ mems /\
    next_pid s' = next_pid s /\ current s' = current s /\
    (forall a, ~ Some a ∈ mems -> tasks s' !! a = tasks s !! a) /\ forall a, Some a ∈ mems -> is_Some (tasks s' !! a).
Proof.
  revert c s. induction mems as [|m mems IH]; intros c s HT Hm; cbn [init_idle].
  { exists s. rewrite app_nil_r. split_and!; try done. by intros a ?%not_elem_of_nil. }
  assert (forall a, Some a ∈ mems -> a ∈ arena /\ (forall f, f <> TaskList -> R !! (f, a) = None) /\ forall f, free R f a) as Hm' by (intros a Ha; apply Hm; by right).
  destruct m as [a|].
  - destruct (Hm a ltac:(left)) as (Ha & HR & Hf). cbv zeta. set (s1 := with_tasks _ _).
    destruct (init_lists_ok a s1 R) as (h & E & H1); [by apply clear_nodes_ok|done|done|done|]. rewrite E, bind_Some_l.
    apply (tracks_delete _ _ _ (Children, a)) in H1. rewrite delete_insert_id in H1 by (by apply HR).
    destruct (IH (c + 1) (with_nodes h s1) H1 Hm') as (s' & E' & HT' & Hi & Hn & Hc & Ho & Hin). exists s'. split; [done|]. split; [done|].
    split; [rewrite Hi; simpl; by rewrite <-app_assoc|]. split; [done|]. split; [done|]. simpl in Ho. split.
    + intros b Hb. apply not_elem_of_cons in Hb as [Hba Hb]. rewrite Ho by done. apply lookup_insert_ne. congruence.
    + intros b [[= ->]|Hb]%elem_of_cons; [|by apply Hin]. destruct (decide (Some a ∈ mems)); [by apply Hin|]. rewrite Ho by done. rewrite lookup_insert_eq. by eexists.
  - destruct (IH (c + 1) (with_idle (idle_tasks s ++ [None]) s) HT Hm') as (s' & E' & HT' & Hi & Hn & Hc & Ho & Hin). exists s'. split; [done|]. split; [done|].
    split; [rewrite Hi; simpl; by rewrite <-app_assoc|]. split; [done|]. split; [done|]. split.
    + intros b Hb. apply not_elem_of_cons in Hb as [_ Hb]. by apply Ho.
    + intros b [?|Hb]%elem_of_cons; [done|by apply Hin].
Qed.

Definition v_start (b : gmap Z task_struct) (n : Z) (mems : list (option Z)) : view := mk_view [init_task] {[init_task := []]} b n init_task mems.

(** The table starts with the first task, which is the current one. *)
Lemma task_init_ok mems s : (forall f a, live f a -> node (nodes s) (addr a f)) -> init_task ∈ arena -> 0 < next_pid s < 2 ^ 32 ->
  (forall a, Some a ∈ mems -> a ∈ arena /\ a <> init_task) ->
  exists s', task_init task_list init_task mems s = Some s' /\ rep s' (v_start (tasks s') (next_pid s) mems).
Proof.
  intros Hno Hi Hn Hm. assert (tracks live (nodes s) ∅) as H0 by (split; [done|by intros f a l ?|by intros f a b l l' d ?]).
  destruct (init_head live layout (nodes s) ∅ TaskList task_list Tasks H0 eq_refl eq_refl) as (h1 & E1 & H1); [done|].
  unfold task_init. rewrite task_head_addr in E1. rewrite (on_nodes_tracks _ h1) by done. rewrite bind_Some_l. cbv zeta.
  set (R1 := <[(TaskList, task_list) := []]> ∅) in *. set (s1 := with_tasks _ _).
  assert (forall a f, f <> TaskList -> R1 !! (f, a) = None) as HR1 by (intros a f Hf; unfold R1; by rewrite lookup_insert_ne by congruence).
  assert (forall a f, free R1 f a) as Hf1 by (intros a f b l; unfold R1; intros [[_ <-]|[_ E]]%lookup_insert_Some; [apply not_elem_of_nil|done]).
  destruct (init_lists_ok init_task s1 R1) as (h2 & E2 & H2); [by apply clear_nodes_ok; auto|done|auto|auto|]. rewrite E2, bind_Some_l.
  set (R2 := <[(Children, init_task) := []]> R1) in *.
  destruct (add_link live layout h2 R2 TaskList task_list Tasks [] init_task H2) as (h3 & E3 & H3); [by unfold R2, R1; rewrite lookup_insert_ne, lookup_insert_eq|done|done| |].
  { intros b l. unfold R2. rewrite lookup_insert_ne by done. apply Hf1. }
  rewrite task_head_addr in E3. rewrite (on_nodes_tracks _ h3) by done. rewrite bind_Some_l. set (s3 := with_idle _ _).
  assert (<[(TaskList, task_list) := [init_task]]> R2 = links_of [init_task] {[init_task := []]}) as HR.
  { unfold R2, R1, links_of. rewrite (kmap_singleton (pair Children)). rewrite (insert_insert_ne _ (Children, init_task)), insert_insert_eq by done. reflexivity. }
  rewrite HR in H3. destruct (init_idle_ok mems 0 s3 _ H3) as (s' & E' & HT' & Hid & Hnx & Hcu & Ho & Hin).
  { intros a Ha. destruct (Hm a Ha) as [Haa Hai]. split; [done|]. split.
    - intros f Hf. apply eq_None_not_Some. intros [l [(-> & _)|(-> & E)]%links_other]; [done|]. by rewrite lookup_singleton_ne in E.
    - intros f b l [(_ & _ & ->)|(_ & E)]%links_other; [by intros ?%list_elem_of_singleton|]. apply lookup_singleton_Some in E as [_ <-]. apply not_elem_of_nil. }
  exists s'. split; [done|]. assert (exists t, tasks s' !! init_task = Some t /\ pid t = 0) as (t & Ht & Hp).
  { rewrite Ho by (intros Hx; by destruct (Hm _ Hx)). simpl. rewrite lookup_insert_eq. by eexists. }
  split; [done|done|done|done|done|]. split; simpl.
  - left.
  - left.
  - intros a ->%list_elem_of_singleton. rewrite lookup_singleton_eq. split; [exists t; split; [done|lia]|by eexists].
  - intros a b x y ->%list_elem_of_singleton ->%list_elem_of_singleton. done.
  - intros p l [<- <-]%lookup_singleton_Some. split; [left|]. by intros a ?%not_elem_of_nil.
  - by intros a ->%list_elem_of_singleton.
  - intros a Ha. split; [|by apply Hin]. intros ->%list_elem_of_singleton. by destruct (Hm _ Ha).
  - lia.
Qed.

End Spec.
End TaskSpec.
