(* ===== verification/TaskFiles.v ===== *)
(** The descriptors of a task ([task_add_file], [task_remove_file] and [task_get_file] of
    [kernel/task/task.c]): the search for a free one, and what a file added to a task
    leaves behind once it is removed. *)

From S2P Require Import Prelude KList Links Task.

Module TaskFiles.
Import KList Links Task.

Implicit Types (s : tasks_state) (fs : files_struct).

(** The structure as [task_add_file] makes it and keeps it. *)
Record wf_files fs : Prop := {
  wf_max : 0 < max_fds fs < 2 ^ 31;
  wf_next : 0 <= next_fd fs < max_fds fs;
  wf_array : Z.of_nat (length (fd_array fs)) = max_fds fs;
  wf_close : max_fds fs <= 32 * Z.of_nat (length (close_on_exec fs))
}.

(** The task [a] has the structure [fs] at [x]. *)
Definition files_at s (a x : Z) fs : Prop := (exists t, tasks s !! a = Some t /\ files t = Some x) /\ file_tables s !! x = Some fs.

(** The [k]-th descriptor that is tried. *)
Definition probe fs (k : Z) : Z := (next_fd fs + k) mod max_fds fs.
Definition in_use fs (fd : Z) : Prop := exists x, aget (fd_array fs) fd = Some x /\ x <> 0.

Lemma probe_range fs k : wf_files fs -> 0 <= probe fs k < max_fds fs.
Proof. intros W. apply Z.mod_pos_bound, W. Qed.

Lemma probe_next fs k : wf_files fs -> (probe fs k + 1) mod max_fds fs = probe fs (k + 1).
Proof. intros W. unfold probe. rewrite Zplus_mod_idemp_l. f_equal. lia. Qed.

Lemma probe_first fs : wf_files fs -> probe fs 0 = next_fd fs.
Proof. intros W. unfold probe. rewrite Z.add_0_r. apply Z.mod_small, W. Qed.

(** All descriptors are tried. *)
Lemma probe_onto fs d : wf_files fs -> 0 <= d < max_fds fs -> exists k, 0 <= k < max_fds fs /\ probe fs k = d.
Proof.
  intros W Hd. pose proof (wf_max _ W). pose proof (wf_next _ W). exists ((d - next_fd fs) mod max_fds fs). split; [apply Z.mod_pos_bound; lia|].
  unfold probe. rewrite Zplus_mod_idemp_r. replace (next_fd fs + (d - next_fd fs)) with d by lia. by apply Z.mod_small.
Qed.

(** The loop finds the first free descriptor among the next [n] or knows that none is free. *)
Lemma find_fd_spec fs n k : wf_files fs ->
  match find_fd n (max_fds fs) (probe fs k) (fd_array fs) with
  | None => False
  | Some None => forall j, 0 <= j < Z.of_nat n -> in_use fs (probe fs (k + j))
  | Some (Some d) => exists j, 0 <= j < Z.of_nat n /\ d = probe fs (k + j) /\ aget (fd_array fs) d = Some 0 /\
      forall i, 0 <= i < j -> in_use fs (probe fs (k + i))
  end.
Proof.
  intros W. revert k. induction n as [|n IH]; intros k; cbn [find_fd]; [intros j Hj; lia|].
  destruct (aget_Some (fd_array fs) (probe fs k)) as [x Hx]; [rewrite (wf_array _ W); by apply probe_range|]. rewrite Hx, bind_Some_l.
  destruct (Z.eqb_spec x 0) as [->|Hx0].
  - exists 0. rewrite Z.add_0_r. split; [lia|]. split; [done|]. split; [done|]. intros i Hi. lia.
  - assert (in_use fs (probe fs (k + 0))) as H0 by (rewrite Z.add_0_r; by exists x).
    assert (forall i, in_use fs (probe fs (k + 1 + (i - 1))) -> in_use fs (probe fs (k + i))) as Hs by (intros i; by replace (k + 1 + (i - 1)) with (k + i) by lia).
    specialize (IH (k + 1)). rewrite probe_next by done. destruct (find_fd n _ _ _) as [[d|]|]; [|intros j Hj|done].
    + destruct IH as (j & Hj & -> & Hd & Hb). exists (j + 1). replace (k + (j + 1)) with (k + 1 + j) by lia. split; [lia|]. split; [done|]. split; [done|].
      intros i Hi. destruct (decide (i = 0)) as [->|]; [done|]. apply Hs, Hb. lia.
    + destruct (decide (j = 0)) as [->|]; [done|]. apply Hs, IH. lia.
Qed.

(** A free descriptor that is the first one from [next_fd] on, around the end. *)
Definition first_free fs (d : Z) : Prop :=
  aget (fd_array fs) d = Some 0 /\ exists j, 0 <= j < max_fds fs /\ d = probe fs j /\ forall i, 0 <= i < j -> in_use fs (probe fs i).

Definition all_used fs : Prop := forall d, 0 <= d < max_fds fs -> in_use fs d.

Lemma fd_search_ok fs : wf_files fs ->
  (exists d, find_fd (Z.to_nat (max_fds fs)) (max_fds fs) (next_fd fs) (fd_array fs) = Some (Some d) /\ first_free fs d) \/
  (find_fd (Z.to_nat (max_fds fs)) (max_fds fs) (next_fd fs) (fd_array fs) = Some None /\ all_used fs).
Proof.
  intros W. pose proof (wf_max _ W). pose proof (find_fd_spec fs (Z.to_nat (max_fds fs)) 0 W) as H0. rewrite probe_first in H0 by done.
  destruct (find_fd _ _ _ _) as [[d|]|]; [|right|done].
  - destruct H0 as (j & Hj & -> & Hd & Hb). left. eexists. split; [done|]. split; [done|]. exists j. split; [lia|done].
  - split; [done|]. intros d Hd. destruct (probe_onto fs d W Hd) as (k & Hk & <-). apply (H0 k). lia.
Qed.

(** ** Operations *)

Lemma get_file_at s a x fs fd : files_at s a x fs -> task_get_file (Some a) fd s = if max_fds fs <=? fd then Some 0 else aget (fd_array fs) fd.
Proof. intros [(t & Ht & Hf) Hx]. unfold task_get_file. by rewrite Ht, bind_Some_l, Hf, Hx. Qed.

Definition store fs (fd next : Z) (l close : list Z) : files_struct := mk_files (count fs) (max_fds fs) next l close.

Lemma add_file_at s a x fs f o m1 m2 m3 : files_at s a x fs -> wf_files fs -> open_files s !! f = Some o ->
  (all_used fs /\ task_add_file (Some a) (Some f) m1 m2 m3 s = Some (- EMFILE, s)) \/
  (exists d l, first_free fs d /\ aset (fd_array fs) d f = Some l /\
    task_add_file (Some a) (Some f) m1 m2 m3 s =
      Some (d, with_open_files (<[f := mk_file (u32 (f_count o + 1)) (has_release o)]> (open_files s))
                 (with_file_tables (<[x := store fs d ((d + 1) mod max_fds fs) l (close_on_exec fs)]> (file_tables s)) s))).
Proof.
  intros [(t & Ht & Hf) Hx] W Ho. unfold task_add_file. rewrite Ht, bind_Some_l, Hf, bind_Some_l, Hx, bind_Some_l.
  destruct (fd_search_ok fs W) as [(d & E & Hd)|[E Hu]]; rewrite E, bind_Some_l; [right|by left].
  destruct Hd as [Hd0 Hd]. pose proof (aget_range _ _ _ Hd0) as Hr. exists d, (<[Z.to_nat d := f]> (fd_array fs)).
  rewrite aset_Some by done. split; [done|]. split; [done|]. rewrite bind_Some_l. cbn [open_files with_file_tables]. by rewrite Ho.
Qed.

Lemma remove_file_at s a x fs d f o : files_at s a x fs -> wf_files fs -> 0 <= d -> aget (fd_array fs) d = Some f -> f <> 0 -> open_files s !! f = Some o ->
  exists l m, aset (fd_array fs) d 0 = Some l /\ clear_bit_at 32 (close_on_exec fs) d = Some m /\ length m = length (close_on_exec fs) /\
    task_remove_file (Some a) d s = Some (0, with_file_tables (<[x := store fs d (next_fd fs) l m]> (file_tables s))
      (if u32 (f_count o - 1) =? 0
       then emit ((if has_release o then [Release f] else []) ++ [Kfree f]) (with_open_files (delete f (open_files s)) s)
       else with_open_files (<[f := mk_file (u32 (f_count o - 1)) (has_release o)]> (open_files s)) s)).
Proof.
  intros [(t & Ht & Hfi) Hx] W Hd Hf Hf0 Ho. pose proof (aget_range _ _ _ Hf) as Hr. pose proof (wf_array _ W) as Hl. pose proof (wf_close _ W).
  destruct (clear_bit_Some 32 ltac:(lia) (close_on_exec fs) d) as [m Hm]; [lia|]. exists (<[Z.to_nat d := 0]> (fd_array fs)), m.
  rewrite aset_Some by done. split; [done|]. split; [done|]. split; [by eapply clear_bit_length|].
  unfold task_remove_file. rewrite Ht, bind_Some_l, Hfi, Hx, bind_Some_l. destruct (Z.leb_spec (max_fds fs) d); [lia|]. rewrite Hf, bind_Some_l.
  destruct (Z.eqb_spec f 0); [done|]. rewrite Ho, bind_Some_l. cbv zeta. rewrite aset_Some, bind_Some_l, Hm, bind_Some_l by done. by destruct (_ =? 0).
Qed.

(** A changed structure in place of the old one. *)
Lemma store_wf fs d next l m : wf_files fs -> 0 <= next < max_fds fs -> length l = length (fd_array fs) -> length m = length (close_on_exec fs) ->
  wf_files (store fs d next l m).
Proof. intros [W1 W2 W3 W4] Hn Hl Hm. split; simpl; rewrite ?Hl, ?Hm; done. Qed.

Lemma fd_store_at s a x fs d f next l m : files_at s a x fs -> wf_files fs -> aset (fd_array fs) d f = Some l ->
  let s' := with_file_tables (<[x := store fs d next l m]> (file_tables s)) s in
  files_at s' a x (store fs d next l m) /\
  forall fd, 0 <= fd -> task_get_file (Some a) fd s' = if fd =? d then Some f else task_get_file (Some a) fd s.
Proof.
  intros Hat W Hl s'. assert (files_at s' a x (store fs d next l m)) as Hat' by (destruct Hat as [Ht _]; split; [done|apply lookup_insert_eq]).
  split; [done|]. intros fd Hfd. rewrite (get_file_at s' a x _ fd Hat'), (get_file_at s a x fs fd Hat). cbn [max_fds fd_array store]. rewrite (aget_aset _ _ _ _ fd Hl).
  destruct (Z.leb_spec (max_fds fs) fd); [|case_decide]; destruct (Z.eqb_spec fd d); try done; try lia.
  unfold aset in Hl. rewrite (wf_array _ W) in Hl. destruct (Z.leb_spec (max_fds fs) d); [|lia]. by rewrite orb_true_r in Hl.
Qed.

(** [task_add_file] on a task with descriptors fails with [-EMFILE] and no change
    exactly when every descriptor is in use; otherwise it takes the first free one from
    [next_fd] on, around the end of the table, which then leads to the file and has one
    more reference, all other descriptors lead where they led, the next search starts
    behind it, and the structure stays well-formed. *)
Theorem add_file_first_free s a x fs f o m1 m2 m3 : files_at s a x fs -> wf_files fs -> open_files s !! f = Some o -> f <> 0 ->
  exists r s', task_add_file (Some a) (Some f) m1 m2 m3 s = Some (r, s') /\
    (r = - EMFILE /\ all_used fs /\ s' = s \/
     first_free fs r /\ open_files s' !! f = Some (mk_file (u32 (f_count o + 1)) (has_release o)) /\
     (forall d, 0 <= d -> task_get_file (Some a) d s' = if d =? r then Some f else task_get_file (Some a) d s) /\
     exists fs', files_at s' a x fs' /\ wf_files fs' /\ next_fd fs' = (r + 1) mod max_fds fs).
Proof.
  intros Hat W Ho Hf. destruct (add_file_at s a x fs f o m1 m2 m3 Hat W Ho) as [[Hu E]|(d & l & Hd & Hl & E)].
  { exists (- EMFILE), s. split; [done|]. left. done. }
  exists d, (with_open_files (<[f := mk_file (u32 (f_count o + 1)) (has_release o)]> (open_files s))
    (with_file_tables (<[x := store fs d ((d + 1) mod max_fds fs) l (close_on_exec fs)]> (file_tables s)) s)).
  split; [done|]. right. split; [done|]. split; [apply lookup_insert_eq|]. destruct (fd_store_at s a x fs d f ((d + 1) mod max_fds fs) l (close_on_exec fs)) as [Hat' Hg]; try done.
  split; [exact Hg|]. eexists. split; [exact Hat'|]. split; [|done]. apply store_wf; try done; [apply Z.mod_pos_bound, W|by eapply aset_length].
Qed.

(** Removing drops one reference; the last one calls [release] and frees the file. *)
Lemma remove_file_ok s a x fs d f o : files_at s a x fs -> wf_files fs -> aget (fd_array fs) d = Some f -> f <> 0 -> open_files s !! f = Some o -> 1 <= f_count o < 2 ^ 32 ->
  exists s' fs', task_remove_file (Some a) d s = Some (0, s') /\ files_at s' a x fs' /\ wf_files fs' /\
    (forall fd, 0 <= fd -> task_get_file (Some a) fd s' = if fd =? d then Some 0 else task_get_file (Some a) fd s) /\
    (f_count o = 1 -> open_files s' = delete f (open_files s) /\ events s' = events s ++ (if has_release o then [Release f] else []) ++ [Kfree f]) /\
    (1 < f_count o -> open_files s' = <[f := mk_file (f_count o - 1) (has_release o)]> (open_files s) /\ events s' = events s).
Proof.
  intros Hat W Hf Hf0 Ho Hc. pose proof (aget_range _ _ _ Hf) as Hr.
  destruct (remove_file_at s a x fs d f o Hat W ltac:(lia) Hf Hf0 Ho) as (l & m & Hl & Hm & Hlm & E). rewrite u32_small in E by lia.
  destruct (fd_store_at s a x fs d 0 (next_fd fs) l m Hat W Hl) as [[Ht Hx] Hg]. eexists _, (store fs d (next_fd fs) l m). split; [exact E|].
  assert (wf_files (store fs d (next_fd fs) l m)) as W' by (apply store_wf; try done; [apply W|by eapply aset_length]).
  assert (forall fd, task_get_file (Some a) fd (with_file_tables (<[x := store fs d (next_fd fs) l m]> (file_tables s)) s) = if max_fds fs <=? fd then Some 0 else aget l fd) as Hg'
    by (intros fd; by rewrite (get_file_at _ a x (store fs d (next_fd fs) l m))).
  destruct (Z.eqb_spec (f_count o - 1) 0); (split; [split; [exact Ht|exact Hx]|]; split; [exact W'|]; split; [exact Hg|]; split; [intros H1; try (exfalso; lia); done|intros H1; try (exfalso; lia); done]).
Qed.

(** A file that is added to a task and removed again through its descriptor leaves the
    task as it was: every descriptor leads where it led before, the file has as many
    references as before and is neither released nor freed. *)
Theorem add_remove_file s a x fs f o m1 m2 m3 : files_at s a x fs -> wf_files fs -> ~ all_used fs ->
  open_files s !! f = Some o -> f <> 0 -> 1 <= f_count o < 2 ^ 32 - 1 ->
  exists d s1 s2, task_add_file (Some a) (Some f) m1 m2 m3 s = Some (d, s1) /\ task_get_file (Some a) d s1 = Some f /\
    task_remove_file (Some a) d s1 = Some (0, s2) /\ (forall fd, 0 <= fd -> task_get_file (Some a) fd s2 = task_get_file (Some a) fd s) /\
    open_files s2 = open_files s /\ events s2 = events s.
Proof.
  intros Hat W Hu Ho Hf Hc. destruct (add_file_at s a x fs f o m1 m2 m3 Hat W Ho) as [[? _]|(d & l & [Hd0 _] & Hl & E)]; [done|].
  pose proof (aget_range _ _ _ Hd0) as Hr. pose proof (wf_array _ W) as Ha. set (fs1 := store fs d ((d + 1) mod max_fds fs) l (close_on_exec fs)) in *.
  destruct (fd_store_at s a x fs d f ((d + 1) mod max_fds fs) l (close_on_exec fs) Hat W Hl) as [Hat1 Hg1].
  assert (wf_files fs1) as W1 by (apply store_wf; try done; [apply Z.mod_pos_bound, W|by eapply aset_length]).
  rewrite u32_small in E by lia. set (s1 := with_open_files _ _) in E. destruct (remove_file_ok s1 a x fs1 d f (mk_file (f_count o + 1) (has_release o))) as (s2 & fs2 & E2 & _ & _ & Hg2 & _ & Hb).
  - exact Hat1.
  - done.
  - simpl. rewrite (aget_aset _ _ _ _ d Hl). by rewrite decide_True.
  - done.
  - apply lookup_insert_eq.
  - simpl. lia.
  - exists d, s1, s2. split; [exact E|]. split; [etransitivity; [apply (Hg1 d); lia|by rewrite Z.eqb_refl]|]. split; [exact E2|]. destruct Hb as [Hb1 Hb2]; [simpl; lia|].
    split; [|split; [|exact Hb2]].
    + intros fd Hfd. rewrite Hg2 by done. destruct (Z.eqb_spec fd d) as [->|Hne].
      * rewrite (get_file_at s a x fs d Hat), Hd0. destruct (Z.leb_spec (max_fds fs) d); [lia|done].
      * etransitivity; [apply (Hg1 fd Hfd)|]. by destruct (Z.eqb_spec fd d).
    + rewrite Hb1. simpl. rewrite insert_insert_eq. replace (f_count o + 1 - 1) with (f_count o) by lia. apply insert_id. rewrite Ho. by destruct o.
Qed.

(** ** Example *)

Definition ex_task : task_struct := with_files (blank 1 0 120 SCHED_NORMAL None None (replicate 16 0) 0) (Some 500).
Definition ex_files : files_struct := mk_files 1 4 2 [7; 0; 7; 7] [0].
Definition ex_state (fs : files_struct) : tasks_state := mk_state (mk_heap ∅ ∅) {[100 := ex_task]} ∅ {[500 := fs]} {[7 := mk_file 3 true]} 2 None [] [].

Lemma ex_files_wf : wf_files ex_files.
Proof. split; simpl; lia. Qed.

Lemma ex_files_at fs : files_at (ex_state fs) 100 500 fs.
Proof. split; [exists ex_task; by vm_compute|reflexivity]. Qed.

Lemma add_file_first_free_witness : exists s', task_add_file (Some 100) (Some 7) None None None (ex_state ex_files) = Some (1, s') /\
  task_get_file (Some 100) 1 s' = Some 7.
Proof.
  destruct (add_file_first_free (ex_state ex_files) 100 500 ex_files 7 (mk_file 3 true) None None None (ex_files_at _) ex_files_wf eq_refl ltac:(discriminate))
    as (r & s' & E & [(_ & Hu & _)|(Hd & _ & Hg & _)]).
  - destruct (Hu 1) as (x & [= <-] & Hx); [simpl; lia|]. by destruct Hx.
  - pose proof E as E0. vm_compute in E0. injection E0 as <- _. exists s'. split; [exact E|]. exact (Hg 1 ltac:(lia)).
Defined.

Lemma add_remove_file_witness : exists d s1 s2, task_add_file (Some 100) (Some 7) None None None (ex_state ex_files) = Some (d, s1) /\
  task_remove_file (Some 100) d s1 = Some (0, s2) /\ open_files s2 = {[7 := mk_file 3 true]}.
Proof.
  destruct (add_remove_file (ex_state ex_files) 100 500 ex_files 7 (mk_file 3 true) None None None (ex_files_at _) ex_files_wf)
    as (d & s1 & s2 & E1 & _ & E2 & _ & Ho & _).
  - intros Hu. destruct (Hu 1) as (x & [= <-] & Hx); [simpl; lia|]. by destruct Hx.
  - reflexivity.
  - discriminate.
  - simpl. lia.
  - exists d, s1, s2. split; [exact E1|]. split; [exact E2|exact Ho].
Defined.

(** A table with no free descriptor, and the last reference. *)
Example full_table : task_add_file (Some 100) (Some 7) None None None (ex_state (mk_files 1 2 1 [7; 7] [0])) = Some (- EMFILE, ex_state (mk_files 1 2 1 [7; 7] [0])).
Proof. vm_compute. reflexivity. Qed.

End TaskFiles.
