(* ===== verification/TaskRefine.v ===== *)
(** What the task table, the descriptors and the threads of [kernel/task/task.c] do: the
    table refines a list of tasks with distinct numbers; the search for a descriptor; and
    where threads, orphans and blocked signals go wrong. *)

From S2P Require Import Prelude KList Links Task TaskSpec.

Module TaskRefine.
Import KList Links Task TaskSpec.

#[local] Arguments new_name : simpl never.

Inductive op :=
  | Create (name : option (list Z)) (a : Z) | Destroy (a : Z) | Get (p : Z) | SetState (a x : Z) | SetName (a : Z) (n : list Z)
  | Signal (a sig : Z) | SignalAll (sig : Z) | Exit (a status : Z).

(** An error code or a pointer. *)
Inductive answer := Code (r : Z) | Ptr (p : option Z).

Section Refine.
Context (task_list init_task : Z) (arena : gset Z).
Implicit Types (s : tasks_state) (v : view) (a p : Z).

Definition perform (o : op) s : option (answer * tasks_state) :=
  match o with
  | Create name a => r ← task_create task_list name (Some a) s; Some (Ptr r.1, r.2)
  | Destroy a => r ← task_destroy init_task (Some a) s; Some (Code r.1, r.2)
  | Get p => r ← task_get task_list p s; Some (Ptr r, s)
  | SetState a x => r ← task_set_state (Some a) x s; Some (Code r.1, r.2)
  | SetName a n => r ← task_set_name (Some a) (Some n) s; Some (Code r.1, r.2)
  | Signal a sig => r ← task_signal (Some a) sig s; Some (Code r.1, r.2)
  | SignalAll sig => r ← task_signal_all task_list sig s; Some (Code r.1, r.2)
  | Exit a status => r ← task_exit (Some a) status s; Some (Code r.1, r.2)
  end.

Definition code (r : Z * view) : answer * view := (Code r.1, r.2).

Definition spec (o : op) v : answer * view :=
  match o with
  | Create name a => (Ptr (Some a), v_create (default [] (new_name name)) a v)
  | Destroy a => code (v_destroy init_task a v)
  | Get p => (Ptr (v_get p v), v)
  | SetState a x => (Code 0, v_upd (fun t => with_state t x) a v)
  | SetName a n => (Code 0, v_upd (fun t => with_comm t (default [] (copy_name 15 n))) a v)
  | Signal a sig => code (v_signal a sig v)
  | SignalAll sig => code (v_signal_all sig v)
  | Exit a status => (Code 0, v_exit a status v)
  end.

(** The tasks named are in memory, names are terminated, new memory is fresh, and a task
    that is destroyed has no children. *)
Definition allowed (o : op) v : Prop :=
  match o with
  | Create name a => can_create arena name a v
  | Destroy a => can_destroy init_task a v
  | Get _ | SignalAll _ => True
  | SetState a _ | Signal a _ => is_Some (body v !! a)
  | SetName a n => is_Some (body v !! a) /\ is_Some (copy_name 15 n)
  | Exit a _ => can_exit a v
  end.

Fixpoint run (os : list op) s : option (list answer * tasks_state) :=
  match os with
  | [] => Some ([], s)
  | o :: os => r ← perform o s; q ← run os r.2; Some (r.1 :: q.1, q.2)
  end.

Fixpoint spec_run (os : list op) v : list answer * view :=
  match os with
  | [] => ([], v)
  | o :: os => let r := spec o v in let q := spec_run os r.2 in (r.1 :: q.1, q.2)
  end.

Fixpoint all_allowed (os : list op) v : Prop :=
  match os with [] => True | o :: os => allowed o v /\ all_allowed os (spec o v).2 end.

Notation rep := (rep task_list init_task arena).
Context (layout : disjoint_layout task_list arena).

Lemma task_perform_ok o s v : rep s v -> allowed o v -> exists s', perform o s = Some ((spec o v).1, s') /\ rep s' (spec o v).2.
Proof.
  intros H Ha. destruct o; cbn [perform spec allowed] in *.
  - destruct (task_create_ok _ _ _ layout name a s v H Ha) as (s' & E & nm & Hn & H'). rewrite E, Hn. by exists s'.
  - destruct (task_destroy_ok _ _ _ layout a s v H Ha) as (s' & E & H'). rewrite E. by exists s'.
  - rewrite (task_get_ok _ _ _ p s v H). by exists s.
  - destruct Ha as [t Ht]. destruct (update_task_ok _ _ _ (fun t => with_state t x) a s v t H Ht) as (s' & E & H'); [done|]. cbn [task_set_state]. rewrite E. by exists s'.
  - destruct Ha as [[t Ht] [nm Hn]]. rewrite Hn. cbn [task_set_name]. rewrite Hn, bind_Some_l.
    destruct (update_task_ok _ _ _ (fun t => with_comm t nm) a s v t H Ht) as (s' & E & H'); [done|]. rewrite E. by exists s'.
  - destruct (task_signal_ok _ _ _ a sig s v H Ha) as (s' & E & H'). rewrite E. by exists s'.
  - destruct (task_signal_all_ok _ _ _ layout sig s v H) as (s' & E & H'). rewrite E. by exists s'.
  - destruct (task_exit_ok _ _ _ a status s v H Ha) as (s' & E & H'). rewrite E. by exists s'.
Qed.

(** C32: any sequence of creating, destroying, finding, renaming, signalling and ending
    tasks within the callers' obligations runs without a fault and gives the answers and
    the table of the same sequence on lists: a new task becomes the first of the table and
    of its parent's children, a destroyed one is taken out of both, and throughout the
    current and the first task stay in the table, the numbers of the tasks are distinct
    and every task but the first is in the children of its parent. *)
Theorem task_table_refines os s v : rep s v -> all_allowed os v ->
  exists s', run os s = Some ((spec_run os v).1, s') /\ rep s' (spec_run os v).2.
Proof.
  revert s v. induction os as [|o os IH]; intros s v H Ha; [by exists s|]. destruct Ha as [Ho Ha].
  destruct (task_perform_ok o s v H Ho) as (s1 & E1 & H1). destruct (IH s1 _ H1 Ha) as (s2 & E2 & H2).
  simpl. rewrite E1, bind_Some_l. simpl. rewrite E2, bind_Some_l. by exists s2.
Qed.

(** ** Numbers *)

Lemma create_procs nm a v : valid init_task v -> procs (v_create nm a v) = a :: procs v /\
  exists t, body (v_create nm a v) !! a = Some t /\ pid t = vnext v /\ forall b, b <> a -> body (v_create nm a v) !! b = body v !! b.
Proof.
  intros V. destruct (va_task _ _ V _ (va_cur _ _ V)) as [(c & Hc & _) _]. unfold v_create. rewrite Hc. split; [done|]. simpl.
  eexists. split; [apply lookup_insert_eq|]. split; [done|]. intros b Hb. by apply lookup_insert_ne.
Qed.

Lemma find_cons_other (t t' : Z -> bool) a l : t a = false -> (forall b, b ∈ l -> t b = t' b) -> List.find t (a :: l) = List.find t' l.
Proof.
  intros Ha Hl. simpl. rewrite Ha. induction l as [|b l IH]; [done|]. simpl. rewrite (Hl b) by left. destruct (t' b); [done|].
  apply IH. intros c Hc. apply Hl. by right.
Qed.

(** A task is found by the number it gets from [task_create], all other numbers lead
    where they led before, and after [task_destroy] the number leads nowhere. *)
Theorem create_get_destroy name a s v : rep s v -> can_create arena name a v -> vcur v <> a -> init_task <> a ->
  exists s1 s2, task_create task_list name (Some a) s = Some (Some a, s1) /\ task_get task_list (next_pid s) s1 = Some (Some a) /\
    (forall p, p <> next_pid s -> task_get task_list p s1 = task_get task_list p s) /\
    task_destroy init_task (Some a) s1 = Some (0, s2) /\ forall p, task_get task_list p s2 = task_get task_list p s.
Proof.
  intros H Hc Hcur Hi. pose proof Hc as (_ & _ & Hfr & _). destruct (fresh_free _ _ _ _ _ _ H Hfr) as (Hp & Hk & _).
  destruct (task_create_ok _ _ _ layout name a s v H Hc) as (s1 & E1 & nm & Hn & H1). pose proof (rp_valid _ _ _ _ _ H) as V. pose proof (rp_valid _ _ _ _ _ H1) as V1.
  destruct (create_procs nm a v V) as (Hpr & t & Ht & Hpid & Hoth). set (v1 := v_create nm a v) in *.
  assert (vcur v1 = vcur v /\ vidle v1 = vidle v /\ kids v1 !! a = Some []) as (Hc1 & Hi1 & Hk1).
  { unfold v1, v_create. destruct (va_task _ _ V _ (va_cur _ _ V)) as [(c & -> & _) _]. simpl. by rewrite lookup_insert_eq. }
  destruct (task_destroy_ok _ _ _ layout a s1 v1 H1) as (s2 & E2 & H2).
  { right. right. right. split; [rewrite Hpr; left|done]. }
  assert (~ Some a ∈ vidle v1) as Hni by (rewrite Hi1; intros Hin; destruct (va_idle _ _ V a Hin) as [_ [x Hx]]; congruence).
  destruct (va_parent _ _ V1 a) as (p & l & El & Hal); [rewrite Hpr; left|by apply not_eq_sym|]. destruct (va_kids _ _ V1 p l El) as [_ Hch]. destruct (Hch a Hal) as [_ (t' & Ht' & Hpt)].
  assert (t' = t) as -> by congruence. unfold v_destroy in E2, H2.
  rewrite bool_decide_false in E2, H2 by congruence. destruct (Z.eqb_spec a init_task) as [|_]; [by subst|]. rewrite bool_decide_false, Ht in E2, H2 by done.
  simpl in E2, H2. rewrite Hpt in E2, H2. cbn [fst snd] in E2, H2. exists s1, s2. split; [done|].
  rewrite (task_get_ok _ _ _ _ s1 v1 H1). split; [f_equal; apply (get_by_pid init_task); [done|]; split; [rewrite Hpr; left|]; exists t; rewrite (rp_next _ _ _ _ _ H); done|].
  split; [|split; [done|]].
  - intros q Hq. rewrite (task_get_ok _ _ _ _ s1 v1 H1), (task_get_ok _ _ _ _ s v H). f_equal. unfold v_get. rewrite Hpr. apply find_cons_other.
    + rewrite Ht. rewrite (rp_next _ _ _ _ _ H) in Hq. lia.
    + intros b Hb. rewrite Hoth; [done|]. by intros ->.
  - intros q. rewrite (task_get_ok _ _ _ _ s2 _ H2), (task_get_ok _ _ _ _ s v H). f_equal. unfold v_get. simpl. rewrite Hpr.
    unfold without. rewrite filter_cons_False by tauto. fold (without a (procs v)).
    assert (without a (procs v) = procs v) as -> by (apply filter_all, Forall_forall; by intros x Hx ->).
    clear -Hp Hoth. revert Hp. generalize (procs v). intros l Hp. induction l as [|b l IH]; [done|]. apply not_elem_of_cons in Hp as [Hba Hp].
    simpl. rewrite lookup_delete_ne, Hoth by done. by rewrite IH.
Qed.

(** [task_signal_all] delivers a valid signal once to every task of the table and to
    nothing else: it becomes pending and wakes an interruptible sleeper unless the task
    has ended or blocks it. *)
Theorem signal_all_reaches sig s v : rep s v -> bad_signal sig = false ->
  exists s', task_signal_all task_list sig s = Some (0, s') /\ rep s' (v_signal_all sig v).2 /\
    forall a, tasks s' !! a = if bool_decide (a ∈ procs v) then deliver sig <$> tasks s !! a else tasks s !! a.
Proof.
  intros H Hb. destruct (task_signal_all_ok _ _ _ layout sig s v H) as (s' & E & H'). unfold v_signal_all in *. rewrite Hb in *. cbn [fst snd] in *.
  exists s'. split; [done|]. split; [done|]. intros a. rewrite (rp_tasks _ _ _ _ _ H'), (rp_tasks _ _ _ _ _ H). apply foldl_body.
  eapply tracks_NoDup; [apply H|apply links_list].
Qed.
(** ** Where threads, orphans and blocked signals go wrong *)

(** A blocked signal is dropped: the call succeeds and nothing is pending afterwards. *)
Theorem blocked_signal_lost a sig s t : tasks s !! a = Some t -> bad_signal sig = false -> deaf t = false ->
  has_flag (blocked t) (BIT (sig - 1)) = true -> task_signal (Some a) sig s = Some (0, s).
Proof. intros Ht Hb Hd Hf. unfold task_signal. rewrite Hb, Ht, bind_Some_l. fold (deaf t). by rewrite Hd, Hf. Qed.

(** The nodes of a task that the code leaves as they were cleared. *)
Lemma init_lists_keeps a s s' y : init_lists a s = Some s' -> y ∉ [addr a Children; addr a Sibling; addr a Tasks; addr a ThreadGroup] ->
  next (nodes s') !! y = next (nodes s) !! y /\ (prev (nodes s) !! 0 = None -> prev (nodes s') !! 0 = None).
Proof.
  unfold init_lists, on_nodes. intros E Hy. rewrite !not_elem_of_cons in Hy. destruct Hy as (Y1 & Y2 & Y3 & Y4 & _).
  destruct (list_init (addr a Children) (nodes s)) as [h1|] eqn:E1; [|done]. simpl in E.
  destruct (list_init (addr a Sibling) h1) as [h2|] eqn:E2; [|done]. simpl in E.
  destruct (list_init (addr a Tasks) h2) as [h3|] eqn:E3; [|done]. simpl in E.
  destruct (list_init (addr a ThreadGroup) h3) as [h4|] eqn:E4; [|done]. injection E as <-. simpl. split.
  - rewrite (list_init_next _ _ _ _ E4), (list_init_next _ _ _ _ E3), (list_init_next _ _ _ _ E2), (list_init_next _ _ _ _ E1) by done. done.
  - intros H0. eapply list_init_none, list_init_none, list_init_none, list_init_none, H0; eassumption.
Qed.

Lemma on_nodes_add n p s s' : on_nodes (list_add n p) s = Some s' -> list_add n p (nodes s) = Some (nodes s').
Proof. unfold on_nodes. destruct (list_add n p (nodes s)) as [h|]; [|done]. by intros [= <-]. Qed.

(** The list of threads of a new task is never initialised. *)
Lemma created_threads_null name a s v s' : rep s v -> can_create arena name a v -> prev (nodes s) !! 0 = None -> (forall f, addr a f <> 0) ->
  task_create task_list name (Some a) s = Some (Some a, s') ->
  next (nodes s') !! addr a Threads = Some 0 /\ prev (nodes s') !! 0 = None /\ is_Some (tasks s' !! a).
Proof.
  intros H (Hn & Ha & Hfr & _) H0 Hna E. pose proof (rp_valid _ _ _ _ _ H) as V. unfold task_create, task_get_pid in E. simpl in E.
  rewrite (rp_cur _ _ _ _ _ H) in E. simpl in E. destruct (tasks s !! vcur v) as [c|]; [|done]. simpl in E. destruct (new_name name) as [nm|]; [|done]. simpl in E.
  set (s0 := with_tasks _ _) in E. destruct (init_lists a s0) as [s1|] eqn:E1; [|done]. simpl in E.
  destruct (on_nodes (list_add (addr a Sibling) _) s1) as [s2|] eqn:E2; [|done]. simpl in E.
  destruct (on_nodes (list_add (addr a Tasks) _) s2) as [s3|] eqn:E3; [|done]. injection E as <-.
  apply on_nodes_add in E2 as L2. apply on_nodes_add in E3 as L3.
  assert (forall f b, live task_list arena f b -> addr a Threads = addr b f -> f = Threads /\ b = a) as Hsep.
  { intros f b Hb Ea. destruct (layout Threads a f b Ha Hb Ea) as [<- <-]. done. }
  destruct (init_lists_keeps a s0 s1 (addr a Threads) E1) as [N1 P1].
  { rewrite !not_elem_of_cons. split_and!; try apply not_elem_of_nil; intros Ea; by apply Hsep in Ea as [? _]. }
  assert (prev (nodes s0) !! 0 = None) as P0.
  { simpl. unfold clear_nodes. cbn [new_node prev]. rewrite !lookup_insert_ne by done. done. }
  assert (next (nodes s0) !! addr a Threads = Some 0) as N0.
  { simpl. unfold clear_nodes. cbn [new_node next]. rewrite (lookup_insert_ne _ (addr a Children)), (lookup_insert_ne _ (addr a Sibling)), lookup_insert_eq; [done|..];
      intros Ea; symmetry in Ea; by apply Hsep in Ea as [? _]. }
  assert (vcur v ∈ arena) as Hcur.
  { destruct (tracks_list _ _ _ TaskList task_list _ Tasks (rp_tracks _ _ _ _ _ H) (links_list _ _ _) eq_refl) as (_ & Hl & _).
    rewrite Forall_forall in Hl. apply (Hl _ (va_cur _ _ V)). }
  pose proof (task_head_addr task_list) as Hh.
  destruct (list_add_next _ _ _ _ L2) as (q2 & _ & N2). destruct (list_add_next _ _ _ _ L3) as (q3 & _ & N3). split; [|split].
  - rewrite N3, !lookup_insert_ne, N2, !lookup_insert_ne; [by rewrite N1|..]; intros Ea; symmetry in Ea; try (by apply Hsep in Ea as [? _]).
    rewrite <-Hh in Ea. by apply Hsep in Ea as [? _].
  - eapply list_add_none, list_add_none, P1, P0; eassumption.
  - unfold on_nodes in E2, E3. destruct (list_add _ _ (nodes s2)); [|done]. injection E3 as <-. destruct (list_add _ _ (nodes s1)); [|done]. injection E2 as <-.
    unfold init_lists, on_nodes in E1. repeat (simplify_option_eq; try done). rewrite lookup_insert_eq. by eexists.
Qed.

(** Creating a thread in a task that [task_create] made follows a null pointer. *)
Theorem create_thread_faults name a s v s' p routine argument flags : rep s v -> can_create arena name a v -> prev (nodes s) !! 0 = None ->
  (forall f, addr a f <> 0) -> task_create task_list name (Some a) s = Some (Some a, s') -> routine <> 0 -> addr p ThreadEntry <> 0 ->
  addr p ThreadEntry <> addr a Threads -> task_create_thread (Some a) routine argument flags (Some p) s' = None.
Proof.
  intros H Hc H0 Hna E Hr Hp Hpa. destruct (created_threads_null name a s v s' H Hc H0 Hna E) as (N & P & [t Ht]).
  unfold task_create_thread. destruct (Z.eqb_spec routine 0); [done|]. rewrite Ht, bind_Some_l.
  set (s1 := with_nodes _ _). destruct (list_init (addr p ThreadEntry) (nodes s1)) as [h|] eqn:Eh; [|unfold on_nodes at 2; by rewrite Eh].
  rewrite (on_nodes_tracks _ h) by done. simpl. unfold update_task. simpl. rewrite Ht. simpl. unfold on_nodes. simpl.
  rewrite (list_add_null (addr p ThreadEntry) (addr a Threads) h); [done| |].
  - rewrite (list_init_next _ _ _ _ Eh) by done. simpl. by rewrite lookup_insert_ne.
  - apply (list_init_none _ _ _ _ Eh). simpl. by rewrite lookup_insert_ne.
Qed.

(** Destroying a task that has children leaves them without a parent in memory: when one of
    them ends, [task_exit] reads the parent that is gone. *)
Theorem orphan_exit_faults a c l s v status : rep s v -> a <> vcur v -> a <> init_task -> ~ Some a ∈ vidle v -> a <> c -> kids v !! a = Some l -> c ∈ l ->
  exists s', task_destroy init_task (Some a) s = Some (0, s') /\ task_exit (Some c) status s' = None.
Proof.
  intros H Hcur Hi Hid Hac Hk Hcl. pose proof (rp_valid _ _ _ _ _ H) as V. destruct (va_kids _ _ V a l Hk) as [Ha Hch]. destruct (Hch c Hcl) as [_ (tc & Htc & Hpc)].
  destruct (va_parent _ _ V a Ha Hi) as (p & lp & Hp & Hap). destruct (va_task _ _ V a Ha) as [(t & Ht & _) _].
  unfold task_destroy. rewrite (rp_cur _ _ _ _ _ H), bool_decide_false by congruence. destruct (Z.eqb_spec a init_task); [done|].
  rewrite (rp_idle _ _ _ _ _ H), bool_decide_false by done.
  destruct (del_link (live task_list arena) layout _ _ TaskList task_list Tasks (procs v) a (rp_tracks _ _ _ _ _ H) (links_list _ _ _) eq_refl Ha) as (h1 & E1 & H1).
  rewrite (on_nodes_tracks _ h1) by done. simpl. rewrite links_procs in H1.
  destruct (del_link (live task_list arena) layout _ _ Children p Sibling lp a H1) as (h2 & E2 & H2); [by rewrite links_children|done|done|].
  rewrite (on_nodes_tracks _ h2) by done. simpl. rewrite (rp_tasks _ _ _ _ _ H), Ht. simpl. eexists. split; [done|].
  unfold task_exit, update_task. destruct (files t); simpl; rewrite ?(rp_tasks _ _ _ _ _ H), lookup_delete_ne, Htc by done; simpl; rewrite lookup_insert_eq; simpl;
    rewrite lookup_insert_eq; simpl; rewrite Hpc; simpl; rewrite !lookup_insert_ne by done; by rewrite lookup_delete_eq.
Qed.

(** Joining a thread that is still running does not wait: the thread is taken out and its
    memory freed, and the joining thread is left waiting for it. *)
Theorem join_frees_running a p c l s t x y : tasks s !! a = Some t -> main_thread t = Some c -> threads s !! p = Some x -> threads s !! c = Some y -> c <> p ->
  thread_task x = a -> has_flag (thread_flags x) THREAD_DETACHED = false -> thread_state x <> THREAD_EXITED ->
  is_list (nodes s) (addr a Threads) l -> addr p ThreadEntry ∈ l ->
  exists s', task_join_thread (Some a) (Some p) s = Some (0, Some (retval x), s') /\ threads s' !! p = None /\
    threads s' !! c = Some (with_thread_state THREAD_WAITING (Some p) y).
Proof.
  intros Ht Hm Hx Hy Hcp Hta Hfl Hst HL Hin. unfold task_join_thread. rewrite Hx, bind_Some_l, Hta, Z.eqb_refl, Hfl. simpl. rewrite Ht. simpl. rewrite Hm. simpl.
  destruct (Z.eqb_spec (thread_state x) THREAD_EXITED); [done|]. unfold update_thread. rewrite Hy. simpl. rewrite lookup_insert_ne, Hx by done. simpl.
  apply list_elem_of_split in Hin as (l1 & l2 & ->). destruct (list_del_ok _ _ _ _ _ HL) as (h & Eh & _). unfold on_nodes. simpl. rewrite Eh. simpl.
  eexists. split; [done|]. simpl. rewrite lookup_delete_eq, lookup_delete_ne, lookup_insert_eq by done. done.
Qed.

End Refine.

(** ** Example *)

Definition ex_arena : gset Z := {[1000; 2000; 3000; 4000]}.

Lemma task_places f a : live 8 ex_arena f a -> (f, a) ∈ (TaskList, 8) :: (a ← [1000; 2000; 3000; 4000]; f ← [Children; Sibling; Threads; Tasks; ThreadGroup]; [(f, a)]).
Proof. destruct f; simpl; unfold ex_arena; set_solver. Qed.

Ltac ex_cases H := repeat (apply elem_of_cons in H as [H|H]; [injection H as -> ->|]); [..|by apply not_elem_of_nil in H].

Lemma task_layout : disjoint_layout 8 ex_arena.
Proof. intros f a g b Ha%task_places Hb%task_places Hab. simpl in Ha, Hb. ex_cases Ha; ex_cases Hb; (split; reflexivity) || discriminate Hab. Qed.

Definition ex_heap : heap := new_node 8 (foldr clear_nodes (mk_heap ∅ ∅) [1000; 2000; 3000; 4000]).
Definition ex_boot : tasks_state := mk_state ex_heap ∅ ∅ ∅ ∅ 1 None [] [].

(** One processor whose idle task is at 4000, and seven without. *)
Definition ex_idle : list (option Z) := Some 4000 :: replicate 7 None.

Definition ex_started : option tasks_state := task_init 8 1000 ex_idle ex_boot.
Definition ex_tasks : gmap Z task_struct := from_option tasks ∅ ex_started.
Definition ex_view : view := v_start 1000 ex_tasks 1 ex_idle.

Lemma task_ex_rep : exists s, task_init 8 1000 ex_idle ex_boot = Some s /\ TaskSpec.rep 8 1000 ex_arena s ex_view.
Proof.
  destruct (task_init_ok 8 1000 ex_arena task_layout ex_idle ex_boot) as (s & E & H).
  - intros f a Ha%task_places. simpl in Ha. ex_cases Ha; split; vm_compute; by eexists.
  - unfold ex_arena. set_solver.
  - simpl. lia.
  - intros a [[= ->]|Ha]%elem_of_cons; [unfold ex_arena; set_solver|]. by apply elem_of_replicate in Ha as [? _].
  - exists s. split; [done|]. unfold ex_view, ex_tasks, ex_started. by rewrite E.
Qed.

(** Two tasks are made, found, put to sleep, signalled and ended; one is destroyed. *)
Definition ex_ops : list op :=
  [Create (Some [97; 0]) 2000; Create None 3000; Get 1; Get 2; SetState 2000 TASK_INTERRUPTIBLE; SignalAll 9; SignalAll 65; Destroy 1000;
   Destroy 4000; Exit 3000 7; Signal 3000 1; Destroy 3000; Get 2; Get 1].
Definition ex_answers : list answer :=
  [Ptr (Some 2000); Ptr (Some 3000); Ptr (Some 2000); Ptr (Some 3000); Code 0; Code 0; Code (- EINVAL); Code (- EBUSY);
   Code (- EPERM); Code 0; Code (- ESRCH); Code 0; Ptr None; Ptr (Some 2000)].

Lemma task_elem_check (x : Z) (l : list Z) : bool_decide (x ∈ l) = true -> x ∈ l.
Proof. apply bool_decide_eq_true. Qed.

Ltac ex_check := repeat match goal with
  | |- True => exact I
  | |- is_Some _ => vm_compute; eexists; reflexivity
  | |- _ ∈ ex_arena => unfold ex_arena; set_solver
  | |- _ ∈ _ => apply task_elem_check; vm_compute; reflexivity
  | |- _ /\ _ => split
  | |- _ < _ => vm_compute; reflexivity
  | |- exists _, _ => eexists; split; [vm_compute; reflexivity|]
  | |- forall _, _ = _ -> _ => let H := fresh in intros ? H; vm_compute in H; (discriminate H || (injection H as <-))
  | |- _ = _ => vm_compute; reflexivity
  end.

Lemma task_ops_allowed : all_allowed 1000 ex_arena ex_ops ex_view.
Proof.
  unfold ex_ops. cbn [all_allowed]. unfold allowed, can_create, can_exit. repeat (split; [|]); ex_check.
  - left. vm_compute. reflexivity.
  - right. right. left. left.
  - right. right. right. ex_check.
Qed.

Lemma task_table_refines_witness : exists s s', task_init 8 1000 ex_idle ex_boot = Some s /\ run 8 1000 ex_ops s = Some (ex_answers, s').
Proof.
  destruct task_ex_rep as (s & Es & H). destruct (task_table_refines 8 1000 ex_arena task_layout ex_ops s ex_view H task_ops_allowed) as (s' & Er & _).
  exists s, s'. split; [exact Es|]. replace ex_answers with (spec_run 1000 ex_ops ex_view).1 by (vm_compute; reflexivity). exact Er.
Defined.

Lemma create_get_destroy_witness : exists s s1 s2, task_init 8 1000 ex_idle ex_boot = Some s /\
  task_create 8 None (Some 2000) s = Some (Some 2000, s1) /\ task_get 8 1 s1 = Some (Some 2000) /\ task_destroy 1000 (Some 2000) s1 = Some (0, s2).
Proof.
  destruct task_ex_rep as (s & Es & H).
  destruct (create_get_destroy 8 1000 ex_arena task_layout None 2000 s ex_view H) as (s1 & s2 & E1 & E2 & _ & E3 & _); [unfold can_create; ex_check|discriminate|discriminate|].
  exists s, s1, s2. rewrite (rp_next _ _ _ _ _ H) in E2. split; [exact Es|]. split; [exact E1|]. split; [exact E2|exact E3].
Defined.

Lemma signal_all_reaches_witness : exists s s', task_init 8 1000 ex_idle ex_boot = Some s /\ task_signal_all 8 9 s = Some (0, s') /\
  tasks s' !! 1000 = deliver 9 <$> tasks s !! 1000.
Proof.
  destruct task_ex_rep as (s & Es & H). destruct (signal_all_reaches 8 1000 ex_arena task_layout 9 s ex_view H eq_refl) as (s' & E & _ & Ht).
  exists s, s'. split; [exact Es|]. split; [exact E|]. exact (Ht 1000).
Defined.

(** A thread in a new task: the list of its threads has not been initialised. *)
Example create_thread_example :
  (s ← task_init 8 1000 ex_idle ex_boot; r ← task_create 8 None (Some 2000) s;
   Some (task_create_thread (Some 2000) 77 0 0 (Some 9000) r.2)) = Some None.
Proof. vm_compute. reflexivity. Qed.

End TaskRefine.
