(* ===== verification/Trace.v ===== *)
(** Tracing: [kernel/trace.c] with [include/horizon/trace.h]. Points with handlers on a
    linked list, events as the bytes of [trace_event_t], and the ring they are written to. *)

From S2P Require Import Prelude KList Bytes CStr Links ByteRing.

Module Trace.
Import KList Bytes CStr Links ByteRing.

Definition TRACE_EVENT_SYSCALL : Z := 0.
Definition TRACE_EVENT_INTERRUPT : Z := 1.
Definition TRACE_EVENT_SCHEDULE : Z := 2.
Definition TRACE_EVENT_PAGEFAULT : Z := 3.
Definition TRACE_EVENT_KMALLOC : Z := 4.
Definition TRACE_EVENT_KFREE : Z := 5.
Definition TRACE_FLAG_ALL : Z := 127.

(** ** Data *)

(** The list nodes: [trace_points] with the one of a point; and, for profiling, [profile_functions]
    with the one of a function. *)
Inductive field := PointsHead | PointEntry | FunctionsHead | FunctionEntry.

Definition field_offset (f : field) : Z :=
  match f with PointsHead => 0 | PointEntry => 12 | FunctionsHead => 0 | FunctionEntry => 36 end.
#[global] Instance trace_fields : Fields field := { offset := field_offset }.

(** [handler] is the address of the function, 0 for none; [name] likewise. *)
Record trace_point := mk_point { name : Z; type : Z; flags : Z; handler : Z; data : Z }.

Definition with_flags (x : Z) (p : trace_point) : trace_point := mk_point (name p) (type p) x (handler p) (data p).

(** What an event takes from [current]. *)
Record task := mk_task { pid : Z; tid : Z; comm : list Z }.

(** What the event takes from its surroundings: the time, the processor, the current task,
    the return address, and for each size the memory that [kmalloc] returns, if any. *)
Record env := mk_env { timestamp : Z; cpu : Z; current : option task; caller : Z; block : Z -> option (list Z) }.

Section Trace.
(** Handlers get the bytes of the event, which they may change, and their data, and work on
    a state of their own. *)
Context {W : Type} (handlers : Z -> list Z -> Z -> W -> Z * list Z * W).

Record log := mk_log { nodes : heap; points : gmap Z trace_point; enabled : list Z; buf : trace_buffer; world : W }.
Implicit Types (l : log) (p : Z) (ev : list Z).

Definition with_nodes (h : heap) l : log := mk_log h (points l) (enabled l) (buf l) (world l).
Definition with_points (m : gmap Z trace_point) l : log := mk_log (nodes l) m (enabled l) (buf l) (world l).
Definition with_enabled (e : list Z) l : log := mk_log (nodes l) (points l) e (buf l) (world l).
Definition with_buf (b : trace_buffer) l : log := mk_log (nodes l) (points l) (enabled l) b (world l).
Definition with_world (w : W) l : log := mk_log (nodes l) (points l) (enabled l) (buf l) w.

Definition on_nodes (f : heap -> option heap) l : option log := h ← f (nodes l); Some (with_nodes h l).

(** The address of [trace_points]. *)
Context (trace_points : Z).

Definition trace_init (mem : bool) l : option (Z * log) :=
  let r := trace_buffer_init mem (1024 * 1024) (Some (buf l)) in
  b ← r.2;
  if negb (r.1 =? 0) then Some (- ENOMEM, with_buf b l)
  else Some (0, with_enabled (replicate 32 0) (with_buf b l)).

(** ** Points *)

Definition trace_register_point (point : option Z) l : option (Z * log) :=
  match point with
  | None => Some (- EINVAL, l)
  | Some p =>
      x ← points l !! p;
      if name x =? 0 then Some (- EINVAL, l)
      else l ← on_nodes (list_add (addr p PointEntry) trace_points) l; Some (0, l)
  end.

Definition trace_unregister_point (point : option Z) l : option (Z * log) :=
  match point with
  | None => Some (- EINVAL, l)
  | Some p => l ← on_nodes (list_del (addr p PointEntry)) l; Some (0, l)
  end.

(** Enough for a walk over the points. *)
Definition point_fuel l : nat := S (base.size (points l)).

(** ** Events *)

Definition trace_is_enabled (t : Z) l : option bool :=
  if 32 <=? t then Some false else x ← aget (enabled l) t; Some (negb (x =? 0)).

(** [sizeof(trace_event_t)] *)
Definition sizeof_event : Z := 120.

(** The name of a task in a field of 16 characters that held [old]. *)
Definition put_comm (t : option task) (old : list Z) : option (list Z) :=
  match t with Some t => copy_name 15 (comm t) | None => Some (0 :: List.tl old) end.

(** The fields of an event in the memory [m]. *)
Definition fill (e : env) (t f : Z) (d : option (list Z)) (n : Z) (m : list Z) : option (list Z) :=
  m ← wr m 0 4 t;
  m ← wr m 4 4 f;
  m ← wr m 8 8 (timestamp e);
  m ← wr m 16 4 (cpu e);
  m ← wr m 20 4 (match current e with Some c => pid c | None => 0 end);
  m ← wr m 24 4 (match current e with Some c => tid c | None => 0 end);
  c ← put_comm (current e) (take 16 (drop 28 m));
  m ← blit m 28 c 0 16;
  m ← wr m 44 4 (caller e);
  m ← wr m 112 4 0;
  m ← wr m 116 4 n;
  match d with
  | Some d => if 0 <? n then blit m 120 d 0 n else Some m
  | None => Some m
  end.

(** The loop over the points from [pos] on; [ret] is the answer of the last handler. *)
Fixpoint call_points (fuel : nat) (t pos ret : Z) ev l : option (Z * list Z * log) :=
  match fuel with
  | O => None
  | S fuel =>
      if pos =? trace_points then Some (ret, ev, l)
      else
        x ← points l !! list_entry pos PointEntry;
        if (type x =? t) && negb (handler x =? 0) then
          let '(ret, ev, w) := handlers (handler x) ev (data x) (world l) in
          let l := with_world w l in
          if negb (ret =? 0) then Some (ret, ev, l)
          else pos ← next (nodes l) !! pos; call_points fuel t pos ret ev l
        else pos ← next (nodes l) !! pos; call_points fuel t pos ret ev l
  end.

(** An event that is enabled. *)
Definition record_event (e : env) (t f : Z) (d : option (list Z)) (n : Z) l : option (Z * log) :=
  let sz := u32 (sizeof_event + n) in
  match block e sz with
  | None => Some (- ENOMEM, l)
  | Some m =>
      ev ← fill e t f d n m;
      pos ← next (nodes l) !! trace_points;
      '(ret, ev, l) ← call_points (point_fuel l) t pos 0 ev l;
      if ret =? 0 then
        r ← trace_buffer_write (Some (buf l)) (Some ev) sz;
        b ← r.2;
        Some (ret, with_buf b l)
      else Some (ret, l)
  end.

Definition trace_event (e : env) (t f : Z) (d : option (list Z)) (n : Z) l : option (Z * log) :=
  on ← trace_is_enabled t l;
  if negb (on : bool) then Some (0, l) else record_event e t f d n l.

(** The data of the events below, as bytes. *)
Definition of_bytes (d : list Z) : option (list Z) * Z := (Some d, Z.of_nat (length d)).

Definition trace_syscall_enter (e : env) (syscall arg1 arg2 arg3 arg4 arg5 arg6 : Z) l : option (Z * log) :=
  let '(d, n) := of_bytes (le 4 syscall ++ le 4 arg1 ++ le 4 arg2 ++ le 4 arg3 ++ le 4 arg4 ++ le 4 arg5 ++ le 4 arg6) in
  trace_event e TRACE_EVENT_SYSCALL TRACE_FLAG_ALL d n l.

Definition trace_syscall_exit (e : env) (syscall ret : Z) l : option (Z * log) :=
  let '(d, n) := of_bytes (le 4 syscall ++ le 4 ret) in trace_event e TRACE_EVENT_SYSCALL TRACE_FLAG_ALL d n l.

Definition trace_interrupt (e : env) (irq : Z) l : option (Z * log) :=
  let '(d, n) := of_bytes (le 4 irq) in trace_event e TRACE_EVENT_INTERRUPT TRACE_FLAG_ALL d n l.

Definition pid_of (t : option task) : Z := match t with Some t => pid t | None => 0 end.

(** [stack1] and [stack2] are what the two names held before. *)
Definition trace_schedule (e : env) (prev next : option task) (stack1 stack2 : list Z) l : option (Z * log) :=
  c1 ← put_comm prev stack1;
  c2 ← put_comm next stack2;
  let '(d, n) := of_bytes (le 4 (pid_of prev) ++ le 4 (pid_of next) ++ c1 ++ c2) in
  trace_event e TRACE_EVENT_SCHEDULE TRACE_FLAG_ALL d n l.

Definition trace_pagefault (e : env) (address error : Z) l : option (Z * log) :=
  let '(d, n) := of_bytes (le 4 address ++ le 4 error) in trace_event e TRACE_EVENT_PAGEFAULT TRACE_FLAG_ALL d n l.

Definition trace_kmalloc (e : env) (ptr sz f : Z) l : option (Z * log) :=
  let '(d, n) := of_bytes (le 4 ptr ++ le 4 sz ++ le 4 f) in trace_event e TRACE_EVENT_KMALLOC TRACE_FLAG_ALL d n l.

Definition trace_kfree (e : env) (ptr : Z) l : option (Z * log) :=
  let '(d, n) := of_bytes (le 4 ptr) in trace_event e TRACE_EVENT_KFREE TRACE_FLAG_ALL d n l.

(** ** Switches and flags *)

Definition set_enabled (t x : Z) l : option (Z * log) :=
  if 32 <=? t then Some (- EINVAL, l) else e ← aset (enabled l) t x; Some (0, with_enabled e l).
Definition trace_enable (t : Z) l : option (Z * log) := set_enabled t 1 l.
Definition trace_disable (t : Z) l : option (Z * log) := set_enabled t 0 l.

Fixpoint set_flags_loop (fuel : nat) (t f pos : Z) l : option log :=
  match fuel with
  | O => None
  | S fuel =>
      if pos =? trace_points then Some l
      else
        x ← points l !! list_entry pos PointEntry;
        let l := if type x =? t then with_points (<[list_entry pos PointEntry := with_flags f x]> (points l)) l else l in
        pos ← next (nodes l) !! pos; set_flags_loop fuel t f pos l
  end.

Definition trace_set_flags (t f : Z) l : option (Z * log) :=
  if 32 <=? t then Some (- EINVAL, l)
  else pos ← next (nodes l) !! trace_points; l ← set_flags_loop (point_fuel l) t f pos l; Some (0, l).

Definition trace_get_flags (t : Z) l : option Z :=
  if 32 <=? t then Some 0
  else
    r ← list_for_each_entry (point_fuel l) (fun q => x ← points l !! list_entry q PointEntry; Some (type x =? t)) trace_points (nodes l);
    match r with Some q => x ← points l !! list_entry q PointEntry; Some (flags x) | None => Some 0 end.

End Trace.
End Trace.
