(* ===== verification/TraceSpec.v ===== *)
(** What tracing does ([kernel/trace.c]): the layout of events, registration of points, the
    order in which handlers are asked, and what is read back from the ring. *)

From S2P Require Import Prelude KList Bytes CStr Links ByteRing Trace.

Module TraceSpec.
Import KList Bytes CStr Links ByteRing Trace.

#[global] Instance trace_field_eq_dec : EqDecision field.
Proof. solve_decision. Defined.

Definition fields : list field := [PointsHead; PointEntry; FunctionsHead; FunctionEntry].

#[global] Program Instance trace_field_countable : Countable field := {|
  encode f := encode (default 0%nat (fst <$> list_find (eq f) fields));
  decode p := decode p ≫= fun n => fields !! (n : nat)
|}.
Next Obligation. by intros []. Qed.

Definition field_member (f : field) : option field :=
  match f with PointsHead => Some PointEntry | FunctionsHead => Some FunctionEntry | _ => None end.

#[global] Program Instance trace_linked : Linked field := { member := field_member }.
Next Obligation. by intros [] m [= <-]. Qed.
Next Obligation. by intros [] [] m [= <-]. Qed.

(** ** Layout of events *)

(** Later stores into other fields leave a field alone. *)
Ltac untouched := repeat match goal with
  | H : wr ?m _ _ _ = Some ?m' |- context [slice ?m' ?o ?k] => rewrite (wr_other _ _ _ _ _ o k H ltac:(lia) ltac:(lia))
  | H : blit ?m _ _ _ _ = Some ?m' |- context [slice ?m' ?o ?k] => rewrite (blit_slice_other _ _ _ _ _ _ o k H ltac:(lia) ltac:(lia) ltac:(lia) ltac:(lia))
  end.
Ltac stored H := untouched; rewrite <-field_slice; let X := fresh in pose proof (wr_same _ _ _ _ _ H ltac:(lia)) as X; exact X.

(** The values of an event's fields. *)
Record event_ok (e : env) (t f : Z) (d : option (list Z)) (n : Z) (ev : list Z) : Prop := {
  ev_type : Bytes.field ev 0 4 = u32 t;
  ev_flags : Bytes.field ev 4 4 = u32 f;
  ev_timestamp : Bytes.field ev 8 8 = u64 (timestamp e);
  ev_cpu : Bytes.field ev 16 4 = u32 (cpu e);
  ev_pid : Bytes.field ev 20 4 = u32 (match current e with Some c => pid c | None => 0 end);
  ev_tid : Bytes.field ev 24 4 = u32 (match current e with Some c => tid c | None => 0 end);
  ev_comm : match current e with Some c => copy_name 15 (comm c) = Some (slice ev 28 16) | None => slice ev 28 1 = [0] end;
  ev_caller : Bytes.field ev 44 4 = u32 (caller e);
  ev_backtrace_size : Bytes.field ev 112 4 = 0;
  ev_data_size : Bytes.field ev 116 4 = u32 n;
  ev_data : forall x, d = Some x -> slice ev 120 (Z.to_nat n) = take (Z.to_nat n) x
}.

(** The data are there, and so is the name of the current task. *)
Definition can_fill (e : env) (d : option (list Z)) (n : Z) : Prop :=
  0 <= n /\ (forall x, d = Some x -> n <= len x) /\ forall c, current e = Some c -> is_Some (copy_name 15 (comm c)).

Lemma put_comm_ok t old : (forall c, t = Some c -> is_Some (copy_name 15 (comm c))) -> length old = 16%nat ->
  exists c, put_comm t old = Some c /\ length c = 16%nat /\ match t with Some x => copy_name 15 (comm x) = Some c | None => take 1 c = [0] end.
Proof.
  intros Ht Ho. destruct t as [t|]; cbn [put_comm].
  - destruct (Ht t eq_refl) as [c Hc]. exists c. rewrite Hc. split; [done|]. split; [by eapply copy_name_length|done].
  - eexists. split; [done|]. split; [|done]. simpl. destruct old; simpl in *; lia.
Qed.

Lemma put_data_ok d n m : 0 <= n -> (forall x, d = Some x -> n <= len x) -> len m = 120 + n ->
  exists ev, match d with Some d => if 0 <? n then blit m 120 d 0 n else Some m | None => Some m end = Some ev /\
    length ev = length m /\ (forall o k, (o + k <= 120)%nat -> slice ev o k = slice m o k) /\ forall x, d = Some x -> slice ev 120 (Z.to_nat n) = take (Z.to_nat n) x.
Proof.
  intros Hn Hd Hm. destruct d as [x|]; [|exists m; by repeat split]. specialize (Hd x eq_refl). destruct (Z.ltb_spec 0 n).
  - destruct (blit m 120 x 0 n) as [ev|] eqn:Eb; [|exfalso; revert Eb; unfold blit; destruct (Z.leb_spec (120 + n) (len m)), (Z.leb_spec (0 + n) (len x)); done || lia].
    exists ev. split; [done|]. split; [eapply blit_length; [done|lia..]|]. split; [intros o k Ho; eapply blit_slice_other; [done|lia..]|].
    intros y [= <-]. apply blit_slice_same in Eb; [|lia..]. exact Eb.
  - exists m. split; [done|]. split; [done|]. split; [done|]. intros y _. replace (Z.to_nat n) with 0%nat by lia. done.
Qed.

Lemma event_fill_ok e t f d n m : can_fill e d n -> len m = sizeof_event + n -> exists ev, fill e t f d n m = Some ev /\ length ev = length m /\ event_ok e t f d n ev.
Proof.
  intros (Hn & Hd & Hc) Hm. unfold sizeof_event in Hm. unfold fill.
  destruct (wr_Some m 0 4 t) as [m1 E1]; [lia..|]. rewrite E1, bind_Some_l. pose proof (wr_length _ _ _ _ _ E1 ltac:(lia)).
  destruct (wr_Some m1 4 4 f) as [m2 E2]; [lia..|]. rewrite E2, bind_Some_l. pose proof (wr_length _ _ _ _ _ E2 ltac:(lia)).
  destruct (wr_Some m2 8 8 (timestamp e)) as [m3 E3]; [lia..|]. rewrite E3, bind_Some_l. pose proof (wr_length _ _ _ _ _ E3 ltac:(lia)).
  destruct (wr_Some m3 16 4 (cpu e)) as [m4 E4]; [lia..|]. rewrite E4, bind_Some_l. pose proof (wr_length _ _ _ _ _ E4 ltac:(lia)).
  set (vp := match current e with Some c => pid c | None => 0 end). set (vt := match current e with Some c => tid c | None => 0 end).
  destruct (wr_Some m4 20 4 vp) as [m5 E5]; [lia..|]. rewrite E5, bind_Some_l. pose proof (wr_length _ _ _ _ _ E5 ltac:(lia)).
  destruct (wr_Some m5 24 4 vt) as [m6 E6]; [lia..|]. rewrite E6, bind_Some_l. pose proof (wr_length _ _ _ _ _ E6 ltac:(lia)).
  destruct (put_comm_ok (current e) (take 16 (drop 28 m6)) Hc) as (c & Ec & Hcl & Hcn); [rewrite length_take, length_drop; lia|]. rewrite Ec, bind_Some_l.
  destruct (blit m6 28 c 0 16) as [m7|] eqn:E7; [|exfalso; revert E7; unfold blit; rewrite Hcl; destruct (Z.leb_spec (28 + 16) (len m6)); [done|lia]]. rewrite bind_Some_l.
  pose proof (blit_length _ _ _ _ _ _ E7 ltac:(lia) ltac:(lia) ltac:(lia)).
  destruct (wr_Some m7 44 4 (caller e)) as [m8 E8]; [lia..|]. rewrite E8, bind_Some_l. pose proof (wr_length _ _ _ _ _ E8 ltac:(lia)).
  destruct (wr_Some m8 112 4 0) as [m9 E9]; [lia..|]. rewrite E9, bind_Some_l. pose proof (wr_length _ _ _ _ _ E9 ltac:(lia)).
  destruct (wr_Some m9 116 4 n) as [m10 E10]; [lia..|]. rewrite E10, bind_Some_l. pose proof (wr_length _ _ _ _ _ E10 ltac:(lia)).
  destruct (put_data_ok d n m10 Hn Hd ltac:(lia)) as (ev & Ev & Hl & Hk & Hdx).
  rewrite Ev. exists ev. split; [done|]. split; [congruence|].
  split; rewrite ?field_slice; rewrite ?Hk by lia; try done.
  - stored E1.
  - stored E2.
  - stored E3.
  - stored E4.
  - stored E5.
  - stored E6.
  - apply blit_slice_same in E7; [|lia..]. change (slice m7 28 16 = slice c 0 16) in E7. assert (slice c 0 16 = c) as Hs by (unfold slice; rewrite drop_0, firstn_all2 by lia; done).
    destruct (current e); untouched; [by rewrite E7, Hs|]. rewrite Hs in E7. rewrite <-Hcn, <-E7. unfold slice. by rewrite take_take.
  - stored E8.
  - stored E9.
  - stored E10.
Qed.

(** ** Points *)

Section Points.
Context {W : Type} (handlers : Z -> list Z -> Z -> W -> Z * list Z * W).
(** The heads of the lists, and the memory of points and functions. *)
Context (points_head : Z) (functions_head : option Z) (point_arena function_arena : gset Z).

Definition live (f : field) (a : Z) : Prop :=
  match f with
  | PointsHead => a = points_head
  | PointEntry => a ∈ point_arena
  | FunctionsHead => functions_head = Some a
  | FunctionEntry => a ∈ function_arena
  end.

Definition disjoint_layout : Prop := forall f a g b, live f a -> live g b -> addr a f = addr b g -> f = g /\ a = b.
Context (layout : disjoint_layout).
Implicit Types (l : log (W := W)) (R : gmap (field * Z) (list Z)) (ps : list Z).

Lemma head_at : addr points_head PointsHead = points_head.
Proof. apply Z.add_0_r. Qed.

(** [ps] are the registered points, newest first; [R] has all lists. *)
Record rep l R ps : Prop := {
  rp_tracks : tracks live (nodes l) R;
  rp_points : R !! (PointsHead, points_head) = Some ps;
  rp_known : forall p, p ∈ ps -> is_Some (points l !! p)
}.

Lemma point_free l R ps p : rep l R ps -> p ∉ ps -> free R PointsHead p.
Proof. intros [HT HP _] Hp a x E. destruct (tracks_list _ _ _ _ _ _ PointEntry HT E eq_refl) as [-> _]. congruence. Qed.

Lemma on_nodes_ok (f : heap -> option heap) h l : f (nodes l) = Some h -> on_nodes f l = Some (with_nodes h l).
Proof. intros E. unfold on_nodes. by rewrite E. Qed.

Lemma register_point_ok p x l R ps : rep l R ps -> p ∈ point_arena -> p ∉ ps -> points l !! p = Some x -> name x <> 0 ->
  exists h, trace_register_point points_head (Some p) l = Some (0, with_nodes h l) /\
    rep (with_nodes h l) (<[(PointsHead, points_head) := p :: ps]> R) (p :: ps).
Proof.
  intros H Ha Hp Hx Hn. pose proof H as [HT HP HK]. cbn [trace_register_point]. rewrite Hx, bind_Some_l. destruct (Z.eqb_spec (name x) 0); [done|].
  destruct (add_link live layout (nodes l) R PointsHead points_head PointEntry ps p HT HP eq_refl Ha (point_free l R ps p H Hp)) as (h & E & H').
  rewrite head_at in E. rewrite (on_nodes_ok _ h) by done. rewrite bind_Some_l. exists h. split; [done|]. split; [done|apply lookup_insert_eq|].
  intros q [->|Hq]%elem_of_cons; [by eexists|by apply HK].
Qed.

Lemma unregister_point_ok p l R ps : rep l R ps -> p ∈ ps ->
  exists h, trace_unregister_point (Some p) l = Some (0, with_nodes h l) /\
    rep (with_nodes h l) (<[(PointsHead, points_head) := without p ps]> R) (without p ps).
Proof.
  intros H Hp. pose proof H as [HT HP HK]. cbn [trace_unregister_point].
  destruct (del_link live layout (nodes l) R PointsHead points_head PointEntry ps p HT HP eq_refl Hp) as (h & E & H').
  rewrite (on_nodes_ok _ h) by done. rewrite bind_Some_l. exists h. split; [done|]. split; [done|apply lookup_insert_eq|].
  intros q [Hq _]%elem_without. by apply HK.
Qed.

Lemma points_bound l R ps : rep l R ps -> (length ps < point_fuel l)%nat.
Proof. intros [HT HP HK]. unfold point_fuel. eapply links_bound; [exact HT|exact HP|exact HK]. Qed.

(** ** Handlers *)

(** The handlers of a type are asked in the order of the list, until one answers other
    than 0. Each sees the event as the ones before left it. *)
Fixpoint dispatch (t : Z) (xs : list trace_point) (ev : list Z) (w : W) : Z * list Z * W :=
  match xs with
  | [] => (0, ev, w)
  | x :: xs =>
      if (type x =? t) && negb (handler x =? 0) then
        let '(r, ev, w) := handlers (handler x) ev (data x) w in if negb (r =? 0) then (r, ev, w) else dispatch t xs ev w
      else dispatch t xs ev w
  end.

Definition points_of l ps : list trace_point := omap (fun p => points l !! p) ps.

Lemma rep_world w l R ps : rep l R ps -> rep (with_world w l) R ps.
Proof. intros [HT HP HK]. by split. Qed.

Lemma call_points_ok t ev l R ps1 ps2 fuel : rep l R (ps1 ++ ps2) -> (length ps2 < fuel)%nat ->
  call_points handlers points_head fuel t (List.hd points_head (nodes_in PointEntry ps2)) 0 ev l =
    let '(r, ev, w) := dispatch t (points_of l ps2) ev (world l) in Some (r, ev, with_world w l).
Proof.
  revert ps1 fuel ev l. induction ps2 as [|p ps2 IH]; intros ps1 [|fuel] ev l H Hf; simpl in Hf; try lia; cbn [call_points nodes_in map List.hd].
  { rewrite Z.eqb_refl. simpl. by destruct l. }
  pose proof H as [HT HP HK]. assert (p ∈ ps1 ++ p :: ps2) as Hp by (apply elem_of_app; right; left).
  destruct (tracks_list _ _ _ _ _ _ PointEntry HT HP eq_refl) as (_ & Hl & _). rewrite Forall_forall in Hl.
  destruct (Z.eqb_spec (addr p PointEntry) points_head) as [Ea|_].
  { rewrite <-head_at in Ea. by destruct (layout PointEntry p PointsHead points_head (Hl p Hp) eq_refl Ea). }
  rewrite entry_addr. destruct (HK p Hp) as [x Hx]. rewrite Hx, bind_Some_l. unfold points_of. cbn [omap list_omap]. rewrite Hx. cbn [dispatch].
  pose proof (next_link live _ _ PointsHead points_head PointEntry ps1 p ps2 HT HP eq_refl) as Hn. rewrite head_at in Hn.
  assert (ps1 ++ p :: ps2 = (ps1 ++ [p]) ++ ps2) as Eps by (by rewrite <-app_assoc).
  destruct ((type x =? t) && negb (handler x =? 0)).
  - destruct (handlers (handler x) ev (data x) (world l)) as [[r ev'] w] eqn:Eh. destruct (Z.eqb_spec r 0) as [->|]; cbn [negb]; [|done].
    cbn [nodes with_world]. rewrite Hn, bind_Some_l. rewrite Eps in H. rewrite (IH (ps1 ++ [p]) fuel ev' (with_world w l)) by (apply rep_world, H || lia).
    cbn [points with_world world]. by destruct (dispatch t _ ev' w) as [[? ?] ?].
  - rewrite Hn, bind_Some_l. rewrite Eps in H. by apply (IH (ps1 ++ [p])); [|lia].
Qed.

(** ** Events *)

(** What an event that is enabled leaves behind. *)
Definition recorded (t : Z) (ev : list Z) (q : list Z) l ps : Z * list Z * W :=
  let '(r, ev, w) := dispatch t (points_of l ps) ev (world l) in
  (r, if (r =? 0) && (len q + len ev <? ByteRing.size (buf l)) then q ++ ev else q, w).

(** Handlers keep the size of events. *)
Context (sized : forall h ev d w, length (handlers h ev d w).1.2 = length ev).

Lemma dispatch_length t xs ev w : length (dispatch t xs ev w).1.2 = length ev.
Proof.
  revert ev w. induction xs as [|x xs IH]; intros ev w; [done|]. cbn [dispatch]. destruct ((type x =? t) && _); [|apply IH].
  pose proof (sized (handler x) ev (data x) w) as Hs. destruct (handlers _ _ _ _) as [[r ev'] w']. simpl in Hs. destruct (negb (r =? 0)); [done|]. by rewrite IH.
Qed.

Lemma record_event_ok e t f d n m l R ps q : rep l R ps -> holds (buf l) q -> small (buf l) -> can_fill e d n -> n < 2 ^ 31 ->
  block e (sizeof_event + n) = Some m -> len m = sizeof_event + n ->
  exists ev l', fill e t f d n m = Some ev /\ event_ok e t f d n ev /\
    record_event handlers points_head e t f d n l = Some ((recorded t ev q l ps).1.1, l') /\
    nodes l' = nodes l /\ points l' = points l /\ enabled l' = enabled l /\ world l' = (recorded t ev q l ps).2 /\
    ByteRing.size (buf l') = ByteRing.size (buf l) /\ holds (buf l') (recorded t ev q l ps).1.2.
Proof.
  intros H Hh Hs Hc Hn Hb Hm. pose proof H as [HT HP HK]. destruct (event_fill_ok e t f d n m Hc Hm) as (ev & Ef & El & He). destruct Hc as [Hn0 _]. exists ev.
  unfold record_event. unfold sizeof_event in *. rewrite u32_small by lia. rewrite Hb, Ef, bind_Some_l.
  pose proof (first_link live _ _ PointsHead points_head PointEntry ps HT HP eq_refl) as Hf. rewrite head_at in Hf. rewrite Hf, bind_Some_l.
  rewrite (call_points_ok t ev l R [] ps) by (done || eapply points_bound, H). unfold recorded. pose proof (dispatch_length t (points_of l ps) ev (world l)) as Hd.
  destruct (dispatch t (points_of l ps) ev (world l)) as [[r ev'] w]. simpl in Hd. rewrite bind_Some_l. destruct (Z.eqb_spec r 0) as [->|Hr]; cbn [andb fst snd].
  - destruct (ring_write_ok (buf l) q ev' [] Hh Hs) as (b' & Hb' & Ew & Hw); [apply nonempty; lia|]. rewrite app_nil_r in Ew. replace (120 + n) with (len ev') by lia.
    cbn [buf with_world]. rewrite Ew, bind_Some_l. cbn [snd]. rewrite bind_Some_l. eexists. split; [done|]. split; [done|]. split; [done|]. by repeat split.
  - eexists. split; [done|]. split; [done|]. split; [done|]. by repeat split.
Qed.

End Points.
End TraceSpec.
