(* ===== verification/TraceRefine.v ===== *)
(** The trace log as a whole: any sequence of operations of [kernel/trace.c] refines a list
    of points, a set of switches and a bounded queue of bytes; events are read back as they
    were recorded. *)

From S2P Require Import Prelude KList Bytes CStr Links ByteRing Trace TraceSpec.

Module TraceRefine.
Import KList Bytes CStr Links ByteRing Trace TraceSpec.

Section Refine.
Context {W : Type} (handlers : Z -> list Z -> Z -> W -> Z * list Z * W) (points_head : Z) (point_arena : gset Z).
Implicit Types (l : log (W := W)).

Notation live := (live points_head None point_arena ∅).
Context (layout : disjoint_layout points_head None point_arena ∅).

(** ** Flags *)

Definition set_flag (t f : Z) (x : trace_point) : trace_point := if type x =? t then with_flags f x else x.
Definition set_all (t f : Z) (ps : list Z) (m : gmap Z trace_point) : gmap Z trace_point := foldl (fun m p => alter (set_flag t f) p m) m ps.

Lemma set_flag_alter t f p x (m : gmap Z trace_point) : m !! p = Some x ->
  (if type x =? t then <[p := with_flags f x]> m else m) = alter (set_flag t f) p m.
Proof.
  intros Hx. apply map_eq. intros j. destruct (decide (p = j)) as [<-|Hne].
  - rewrite lookup_alter_eq, Hx. simpl. unfold set_flag. destruct (type x =? t); [by rewrite lookup_insert_eq|done].
  - rewrite lookup_alter_ne by done. destruct (type x =? t); [by rewrite lookup_insert_ne|done].
Qed.

Notation rep := (rep points_head None point_arena ∅).

Lemma rep_points m l R ps : rep l R ps -> (forall p, p ∈ ps -> is_Some (m !! p)) -> rep (with_points m l) R ps.
Proof. intros [HT HP HK] Hm. by split. Qed.

Lemma set_flags_ok t f l R ps1 ps2 fuel : rep l R (ps1 ++ ps2) -> (length ps2 < fuel)%nat ->
  set_flags_loop points_head fuel t f (List.hd points_head (nodes_in PointEntry ps2)) l = Some (with_points (set_all t f ps2 (points l)) l).
Proof.
  revert ps1 fuel l. induction ps2 as [|p ps2 IH]; intros ps1 [|fuel] l H Hf; simpl in Hf; try lia; cbn [set_flags_loop nodes_in map List.hd].
  { rewrite Z.eqb_refl. by destruct l. }
  pose proof H as [HT HP HK]. assert (p ∈ ps1 ++ p :: ps2) as Hp by (apply elem_of_app; right; left).
  destruct (tracks_list _ _ _ _ _ _ PointEntry HT HP eq_refl) as (_ & Hl & _). rewrite Forall_forall in Hl.
  destruct (Z.eqb_spec (addr p PointEntry) points_head) as [Ea|_].
  { rewrite <-(head_at points_head) in Ea. by destruct (layout PointEntry p PointsHead points_head (Hl p Hp) eq_refl Ea). }
  rewrite entry_addr. destruct (HK p Hp) as [x Hx]. rewrite Hx, bind_Some_l. set (l1 := if type x =? t then _ else l). cbv zeta.
  assert (l1 = with_points (alter (set_flag t f) p (points l)) l) as ->.
  { rewrite <-(set_flag_alter t f p x) by done. unfold l1. destruct (type x =? t); [done|by destruct l]. }
  pose proof (next_link live _ _ PointsHead points_head PointEntry ps1 p ps2 HT HP eq_refl) as Hn. rewrite head_at in Hn. cbn [nodes with_points].
  rewrite Hn, bind_Some_l. assert (ps1 ++ p :: ps2 = (ps1 ++ [p]) ++ ps2) as Eps by (by rewrite <-app_assoc). rewrite Eps in H.
  rewrite (IH (ps1 ++ [p])); [done| |lia]. apply rep_points; [done|]. intros j Hj. rewrite <-Eps in Hj. destruct (HK j Hj) as [y Hy].
  destruct (decide (p = j)) as [->|]; [rewrite lookup_alter_eq, Hy; by eexists|rewrite lookup_alter_ne, Hy by done; by eexists].
Qed.

Lemma set_all_keeps t f qs (m : gmap Z trace_point) p : is_Some (m !! p) -> is_Some (set_all t f qs m !! p).
Proof.
  revert m. induction qs as [|a qs IH]; intros m Hm; [done|]. cbn [set_all foldl]. apply IH. destruct Hm as [x Hx].
  destruct (decide (a = p)) as [->|]; [rewrite lookup_alter_eq, Hx; by eexists|rewrite lookup_alter_ne, Hx by done; by eexists].
Qed.

(** ** Abstract logs *)

(** The registered points, newest first; all points; the switches; the bytes in the ring;
    and the state of the handlers. *)
Record view := mk_view { ps : list Z; info : gmap Z trace_point; on : list Z; queue : list Z; state : W }.
Implicit Types (v : view).

Definition log_rep l v : Prop :=
  rep l {[(PointsHead, points_head) := ps v]} (ps v) /\ points l = info v /\ enabled l = on v /\ length (on v) = 32%nat /\ world l = state v /\
  holds (buf l) (queue v) /\ small (buf l).

Inductive op :=
  | Register (p : Z) | Unregister (p : Z) | Enable (t : Z) | Disable (t : Z) | SetFlags (t f : Z) | GetFlags (t : Z)
  | Event (e : env) (t f : Z) (d : option (list Z)) (n : Z) | Read (n : nat).
Inductive answer := Num (r : Z) | Got (x : list Z).

Definition num (r : option (Z * log)) : option (answer * log (W := W)) := r ← r; Some (Num r.1, r.2).

Definition perform (o : op) l : option (answer * log) :=
  match o with
  | Register p => num (trace_register_point points_head (Some p) l)
  | Unregister p => num (trace_unregister_point (Some p) l)
  | Enable t => num (trace_enable t l)
  | Disable t => num (trace_disable t l)
  | SetFlags t f => num (trace_set_flags points_head t f l)
  | GetFlags t => r ← trace_get_flags points_head t l; Some (Num r, l)
  | Event e t f d n => num (trace_event handlers points_head e t f d n l)
  | Read n => r ← ByteRing.perform (ByteRing.Read n) (buf l); match r.1 with ByteRing.Got x => Some (Got x, with_buf r.2 l) | _ => None end
  end.

Definition v_switch (t x : Z) v : answer * view :=
  if 32 <=? t then (Num (- EINVAL), v) else (Num 0, mk_view (ps v) (info v) (<[Z.to_nat t := x]> (on v)) (queue v) (state v)).

Definition v_flags (t : Z) v : Z :=
  match List.find (fun p => match info v !! p with Some x => type x =? t | None => false end) (ps v) ≫= fun p => info v !! p with
  | Some x => flags x | None => 0
  end.

(** An event of a type that is switched on: the handlers are asked; if none refuses and the
    event fits, its bytes go to the end of the queue. [cap] is the size of the ring. *)
Definition v_event (cap : Z) (e : env) (t f : Z) (d : option (list Z)) (n : Z) v : answer * view :=
  if (32 <=? t) || (default 0 (on v !! Z.to_nat t) =? 0) then (Num 0, v)
  else
    match block e (sizeof_event + n) with
    | None => (Num (- ENOMEM), v)
    | Some m =>
        let '(r, ev, w) := dispatch handlers t (omap (fun p => info v !! p) (ps v)) (default [] (fill e t f d n m)) (state v) in
        (Num r, mk_view (ps v) (info v) (on v) (if (r =? 0) && (len (queue v) + len ev <? cap) then queue v ++ ev else queue v) w)
    end.

Definition spec (cap : Z) (o : op) v : answer * view :=
  match o with
  | Register p => (Num 0, mk_view (p :: ps v) (info v) (on v) (queue v) (state v))
  | Unregister p => (Num 0, mk_view (without p (ps v)) (info v) (on v) (queue v) (state v))
  | Enable t => v_switch t 1 v
  | Disable t => v_switch t 0 v
  | SetFlags t f =>
      if 32 <=? t then (Num (- EINVAL), v) else (Num 0, mk_view (ps v) (set_all t f (ps v) (info v)) (on v) (queue v) (state v))
  | GetFlags t => (Num (if 32 <=? t then 0 else v_flags t v), v)
  | Event e t f d n => v_event cap e t f d n v
  | Read n => (Got (take n (queue v)), mk_view (ps v) (info v) (on v) (drop n (queue v)) (state v))
  end.

(** Points are registered once, and only registered ones unregistered; the data and the
    names that an event copies are there. *)
Definition allowed (o : op) v : Prop :=
  match o with
  | Register p => p ∈ point_arena /\ p ∉ ps v /\ exists x, info v !! p = Some x /\ name x <> 0
  | Unregister p => p ∈ ps v
  | Enable t | Disable t | SetFlags t _ | GetFlags t => 0 <= t
  | Event e t f d n => 0 <= t /\ can_fill e d n /\ n < 2 ^ 31 /\ forall m, block e (sizeof_event + n) = Some m -> len m = sizeof_event + n
  | Read _ => True
  end.

Lemma trace_switch_ok t x l v : log_rep l v -> 0 <= t -> exists l', num (set_enabled t x l) = Some ((v_switch t x v).1, l') /\
  ByteRing.size (buf l') = ByteRing.size (buf l) /\ log_rep l' (v_switch t x v).2.
Proof.
  intros (H & Hi & Ho & H32 & Hw & Hq & Hs) Ht. unfold set_enabled, v_switch. destruct (Z.leb_spec 32 t); [by exists l|]. rewrite Ho, aset_Some by lia.
  rewrite bind_Some_l. unfold num. rewrite bind_Some_l. eexists. split; [done|]. split; [done|]. destruct H as [HT HP HK]. split_and!; try done.
  simpl. by rewrite length_insert.
Qed.

Lemma get_flags_ok t l v : log_rep l v -> trace_get_flags points_head t l = Some (if 32 <=? t then 0 else v_flags t v).
Proof.
  intros (H & Hi & Ho & H32 & Hw & Hq & Hs). unfold trace_get_flags. destruct (32 <=? t); [done|]. pose proof H as [HT HP HK].
  pose proof (walk_links live _ _ PointsHead points_head PointEntry (ps v) (point_fuel l) (fun p => x ← points l !! p; Some (type x =? t))
    (fun p => match info v !! p with Some x => type x =? t | None => false end) HT HP eq_refl) as Hwk. rewrite head_at in Hwk. rewrite Hwk.
  - rewrite bind_Some_l. unfold v_flags. destruct (List.find _ (ps v)) as [p|] eqn:E; [|done]. cbn [option_map]. rewrite entry_addr.
    apply List.find_some in E as [Hin _]. apply list_elem_of_In in Hin. rewrite Hi in HK. rewrite Hi. cbn [mbind option_bind]. by destruct (HK p Hin) as [x ->].
  - eapply points_bound, H.
  - intros p Hp. rewrite <-Hi. by destruct (HK p Hp) as [x ->].
Qed.

Context (sized : forall h ev d w, length (handlers h ev d w).1.2 = length ev).

Lemma is_enabled_ok t l v : log_rep l v -> 0 <= t -> trace_is_enabled t l = Some (negb ((32 <=? t) || (default 0 (on v !! Z.to_nat t) =? 0))).
Proof.
  intros (H & Hi & Ho & H32 & _) Ht. unfold trace_is_enabled. destruct (Z.leb_spec 32 t); [done|]. rewrite Ho. unfold aget. destruct (Z.ltb_spec t 0); [lia|].
  destruct (lookup_lt_is_Some_2 (on v) (Z.to_nat t)) as [x Hx]; [lia|]. by rewrite Hx.
Qed.

Lemma event_op_ok e t f d n l v : log_rep l v -> allowed (Event e t f d n) v ->
  exists l', num (trace_event handlers points_head e t f d n l) = Some ((v_event (ByteRing.size (buf l)) e t f d n v).1, l') /\
    ByteRing.size (buf l') = ByteRing.size (buf l) /\ log_rep l' (v_event (ByteRing.size (buf l)) e t f d n v).2.
Proof.
  intros H (Ht & Hc & Hn & Hb). unfold trace_event, v_event. rewrite (is_enabled_ok t l v H Ht), bind_Some_l, negb_involutive.
  destruct ((32 <=? t) || _); [by exists l|]. pose proof H as (Hr & Hi & Ho & H32 & Hw & Hq & Hs). destruct (block e (sizeof_event + n)) as [m|] eqn:Eb.
  - destruct (record_event_ok handlers points_head None point_arena ∅ layout sized e t f d n m l _ _ _ Hr Hq Hs Hc Hn Eb (Hb m eq_refl)) as (ev & l' & Ef & _ & E & H1 & H2 & H3 & H4 & H5 & H6).
    rewrite Ef. change (default [] (Some ev)) with ev. unfold recorded, points_of in *. rewrite Hi, Hw in E, H4, H6. destruct (dispatch handlers t _ ev (state v)) as [[r ev'] w]. cbn [fst snd] in *.
    unfold num. rewrite E, bind_Some_l. exists l'. split; [done|]. split; [done|]. destruct Hr as [HT HP HK].
    split_and!; simpl; try congruence. split; [by rewrite H1|done|by rewrite H2].
  - unfold record_event, sizeof_event in *. destruct Hc as [Hn0 _]. rewrite u32_small, Eb by lia. unfold num. rewrite bind_Some_l. by exists l.
Qed.
Lemma log_rep_links l v h l' qs : log_rep l v -> l' = with_nodes h l -> rep l' (<[(PointsHead, points_head) := qs]> {[(PointsHead, points_head) := ps v]}) qs ->
  log_rep l' (mk_view qs (info v) (on v) (queue v) (state v)).
Proof.
  intros (_ & Hi & Ho & H32 & Hw & Hq & Hs) -> H. split_and!; try done. simpl. by rewrite insert_singleton_eq in H.
Qed.

Lemma trace_perform_ok o l v : log_rep l v -> allowed o v ->
  exists l', perform o l = Some ((spec (ByteRing.size (buf l)) o v).1, l') /\ ByteRing.size (buf l') = ByteRing.size (buf l) /\
    log_rep l' (spec (ByteRing.size (buf l)) o v).2.
Proof.
  intros H Ha. pose proof H as (Hr & Hi & Ho & H32 & Hw & Hq & Hs). destruct o as [p|p|t|t|t f|t|e t f d n|n]; cbn [perform spec allowed] in *.
  - destruct Ha as (Ha & Hp & x & Hx & Hn). rewrite <-Hi in Hx. destruct (register_point_ok _ _ _ _ layout p x l _ _ Hr Ha Hp Hx Hn) as (h & E & H'). rewrite E. unfold num. rewrite bind_Some_l.
    eexists. split; [done|]. split; [done|]. by eapply log_rep_links.
  - destruct (unregister_point_ok _ _ _ _ layout p l _ _ Hr Ha) as (h & E & H'). rewrite E. unfold num. rewrite bind_Some_l.
    eexists. split; [done|]. split; [done|]. by eapply log_rep_links.
  - by apply trace_switch_ok.
  - by apply trace_switch_ok.
  - unfold trace_set_flags. destruct (32 <=? t); [by exists l|]. pose proof Hr as [HT HP HK].
    pose proof (first_link live _ _ PointsHead points_head PointEntry (ps v) HT HP eq_refl) as Hf. rewrite head_at in Hf. rewrite Hf, bind_Some_l.
    rewrite (set_flags_ok t f l _ [] (ps v) _ Hr) by (eapply points_bound, Hr). rewrite bind_Some_l. unfold num. rewrite bind_Some_l.
    eexists. split; [done|]. split; [done|]. split_and!; try done; simpl; [|by rewrite Hi]. apply rep_points; [done|]. intros p Hp. by apply set_all_keeps, HK.
  - rewrite (get_flags_ok t l v H), bind_Some_l. by exists l.
  - by apply event_op_ok.
  - destruct (ring_perform_ok (ByteRing.Read n) (buf l) (queue v) Hq Hs) as (b & E & Hb & H'). rewrite E, bind_Some_l. cbn [ByteRing.spec fst snd] in *.
    eexists. split; [done|]. split; [done|]. destruct Hr as [HT HP HK]. split_and!; try done. unfold small in *. simpl. lia.
Qed.

Fixpoint run (os : list op) l : option (list answer * log) :=
  match os with [] => Some ([], l) | o :: os => r ← perform o l; q ← run os r.2; Some (r.1 :: q.1, q.2) end.

Fixpoint spec_run (cap : Z) (os : list op) v : list answer * view :=
  match os with [] => ([], v) | o :: os => let r := spec cap o v in let t := spec_run cap os r.2 in (r.1 :: t.1, t.2) end.

Fixpoint all_allowed (cap : Z) (os : list op) v : Prop :=
  match os with [] => True | o :: os => allowed o v /\ all_allowed cap os (spec cap o v).2 end.

(** C34: any sequence of registering and unregistering points, switching types on and off,
    setting and reading flags, recording events and reading the ring runs without a fault
    and refines a list of points, switches and a bounded queue of bytes: an event of a type
    that is on is shown to the handlers of the type, newest first, until one refuses, and
    is queued completely if none does and there is room, and not at all otherwise. *)
Theorem trace_log_refines os l v : log_rep l v -> all_allowed (ByteRing.size (buf l)) os v ->
  exists l', run os l = Some ((spec_run (ByteRing.size (buf l)) os v).1, l') /\ log_rep l' (spec_run (ByteRing.size (buf l)) os v).2.
Proof.
  revert l v. induction os as [|o os IH]; intros l v H Ha; [by exists l|]. destruct Ha as [Ho Ha]. destruct (trace_perform_ok o l v H Ho) as (l1 & E1 & Hb & H1).
  rewrite <-Hb in Ha. destruct (IH l1 _ H1) as (l2 & E2 & H2); [by rewrite Hb in *|]. rewrite Hb in E2, H2. exists l2. cbn [run spec_run]. rewrite E1, bind_Some_l.
  cbn [fst snd]. by rewrite E2, bind_Some_l.
Qed.

(** An event of a type that is on, which fits into the ring and which no handler refuses
    or changes, is behind everything recorded before, and the reader finds in it the type,
    the flags, time, processor, task, caller and data it was recorded with. *)
Theorem event_read_back e t f d n m l v : log_rep l v -> allowed (Event e t f d n) v -> trace_is_enabled t l = Some true ->
  block e (sizeof_event + n) = Some m -> (forall ev w, exists w', dispatch handlers t (points_of l (ps v)) ev w = (0, ev, w')) ->
  len (queue v) + sizeof_event + n < ByteRing.size (buf l) ->
  exists ev l' b, trace_event handlers points_head e t f d n l = Some (0, l') /\ event_ok e t f d n ev /\
    ByteRing.perform (ByteRing.Read (length (queue v) + length ev)) (buf l') = Some (ByteRing.Got (queue v ++ ev), b) /\ holds b [].
Proof.
  intros H (Ht & Hc & Hn & Hb) Hon Em Hd Hroom. pose proof H as (Hr & Hi & Ho & H32 & Hw & Hq & Hs). pose proof (Hb m Em) as Hm.
  destruct (record_event_ok handlers points_head None point_arena ∅ layout sized e t f d n m l _ _ _ Hr Hq Hs Hc Hn Em Hm) as (ev & l' & Ef & He & E & _ & _ & _ & _ & H5 & H6).
  destruct (event_fill_ok e t f d n m Hc Hm) as (ev0 & Ef0 & El & _). assert (ev0 = ev) as -> by congruence. unfold recorded in *.
  destruct (Hd ev (world l)) as [w' Hd']. rewrite Hd' in E, H6. cbn [fst snd] in E, H6. destruct (Z.ltb_spec (len (queue v) + len ev) (ByteRing.size (buf l))); [|unfold sizeof_event in *; lia].
  cbn in H6. assert (small (buf l')) as Hs' by (unfold small in *; lia).
  destruct (ring_perform_ok (ByteRing.Read (length (queue v) + length ev)) (buf l') _ H6 Hs') as (b & Er & _ & Hb'). exists ev, l', b. unfold trace_event. rewrite Hon, bind_Some_l. cbn [negb].
  split; [exact E|]. split; [exact He|]. cbn [ByteRing.spec fst snd] in Er, Hb'. rewrite <-length_app in Er, Hb' |- *. rewrite firstn_all in Er. rewrite drop_all in Hb'. done.
Qed.

End Refine.

(** ** Where events go wrong *)

(** Memory that [kmalloc] returns is not cleared: its bytes in the place of the backtrace
    get into the ring. *)
Theorem event_leaks_memory e t f d n m ev : can_fill e d n -> len m = sizeof_event + n -> fill e t f d n m = Some ev -> slice ev 48 64 = slice m 48 64.
Proof.
  intros (Hn & Hd & _) Hm E. unfold fill in E.
  repeat (apply bind_Some in E as (? & ? & E)). match goal with H : wr _ 116 _ _ = Some ?y |- _ => destruct (put_data_ok d n y Hn Hd) as (ev' & E' & _ & Hk & _) end.
  { repeat match goal with H : wr _ _ _ _ = Some _ |- _ => apply wr_length in H; [|lia] | H : blit _ _ _ _ _ = Some _ |- _ => apply blit_length in H; [|lia..] end.
    unfold sizeof_event in Hm. lia. }
  assert (ev' = ev) as -> by congruence. rewrite Hk by lia. by untouched.
Qed.

(** The size of an event is computed in 32 bits: with a size of the data near 2^32 the
    memory is shorter than the header that is written to it. *)
Theorem event_size_wraps {W : Type} (handlers : Z -> list Z -> Z -> W -> Z * list Z * W) head e t f d n m (l : log (W := W)) :
  2 ^ 32 - sizeof_event <= n < 2 ^ 32 -> trace_is_enabled t l = Some true -> block e (sizeof_event + n - 2 ^ 32) = Some m -> len m = sizeof_event + n - 2 ^ 32 ->
  trace_event handlers head e t f d n l = None.
Proof.
  intros Hn Hon Em Hm. unfold trace_event. rewrite Hon, bind_Some_l. cbn [negb]. unfold record_event, sizeof_event in *.
  replace (u32 (120 + n)) with (120 + n - 2 ^ 32) by (unfold u32, wrap; rewrite <-(Z.mod_add (120 + n) (-1)) by lia; rewrite Z.mod_small; lia).
  rewrite Em. destruct (fill e t f d n m) as [ev|] eqn:E; [|done]. exfalso. unfold fill in E. repeat (apply bind_Some in E as (? & ? & E)).
  repeat match goal with
  | H : wr ?a 116 4 n = Some _ |- _ => apply blit_inv in H as (? & _)
  | H : wr _ _ _ _ = Some _ |- _ => apply wr_length in H; [|lia]
  | H : blit _ 28 _ _ _ = Some _ |- _ => apply blit_length in H; [|lia..]
  end. lia.
Qed.

(** ** Example *)

Definition ex_arena : gset Z := {[1000; 2000]}.

(** The handler 1 counts events, 2 refuses them, both without changing them. *)
Definition ex_handlers (h : Z) (ev : list Z) (d w : Z) : Z * list Z * Z := (if h =? 2 then d else 0, ev, w + 1).

Definition ex_points : gmap Z trace_point := {[1000 := mk_point 5 1 0 1 0; 2000 := mk_point 6 2 0 2 (-13)]}.

Definition ex_heap : heap := new_node 1012 (new_node 2012 (mk_heap {[8 := 8]} {[8 := 8]})).

Definition ex_log : log := mk_log ex_heap ex_points (replicate 32 0) (mk_buffer (Some (replicate 200 0)) 200 0 0) 0.
Definition ex_view : view := mk_view [] ex_points (replicate 32 0) [] 0.

Definition ex_env : env := mk_env 77 0 (Some (mk_task 4 4 [115; 104; 0])) 4096 (fun n => Some (replicate (Z.to_nat n) 9)).

Lemma trace_layout : disjoint_layout 8 None ex_arena ∅.
Proof. intros [] a [] b; cbn [live]; unfold ex_arena; intros Ha Hb Hab; unfold addr in Hab; cbn in Hab; split; try done; set_solver. Qed.

Lemma ex_log_rep : log_rep 8 ex_arena ex_log ex_view.
Proof.
  split_and!; try done.
  - split.
    + split.
      * intros [] a; cbn [live]; unfold ex_arena; intros Ha; try done; try by apply not_elem_of_empty in Ha.
        -- subst a. split; vm_compute; by eexists.
        -- apply elem_of_union in Ha as [->%elem_of_singleton | ->%elem_of_singleton]; split; vm_compute; by eexists.
      * intros f a x [E <-]%lookup_singleton_Some. injection E as <- <-. exists PointEntry. split; [done|]. split; [done|]. split; [constructor|].
        split; [apply NoDup_singleton|]. split; vm_compute; done.
      * intros f a b x y c _ [_ <-]%lookup_singleton_Some _ ?%not_elem_of_nil. done.
    + apply lookup_singleton_eq.
    + by intros p ?%not_elem_of_nil.
  - eapply (flat_eq _ _ _ _ _ [] [] (replicate 200 0)); [done|reflexivity|done|done|done|done].
Qed.

Definition ex_ops : list op :=
  [Event ex_env 1 127 (Some [1; 2; 3; 4]) 4; Register 1000; Register 2000; Enable 1; Enable 2; Enable 32; SetFlags 1 7; GetFlags 1;
   Event ex_env 2 127 None 0; Event ex_env 1 127 (Some [1; 2; 3; 4]) 4; Event ex_env 1 127 (Some [5]) 1; Unregister 2000; Read 4; Read 200].

Lemma ex_ops_ok : all_allowed ex_handlers ex_arena 200 ex_ops ex_view.
Proof.
  assert (forall d n, 0 <= n < 100 -> (forall x, d = Some x -> n <= len x) -> can_fill ex_env d n /\ n < 2 ^ 31 /\
    forall m, block ex_env (sizeof_event + n) = Some m -> len m = sizeof_event + n) as He.
  { intros d n Hn Hd. split; [|split; [lia|]].
    - split; [lia|]. split; [done|]. intros c [= <-]. vm_compute. by eexists.
    - intros m [= <-]. rewrite length_replicate. unfold sizeof_event. lia. }
  unfold ex_ops. cbn [all_allowed].
  do 14 (apply conj; [cbn [allowed]; try lia; lazymatch goal with
    | |- _ /\ can_fill _ _ _ /\ _ => split; [lia|]; apply He; [lia|]; first [done | intros x [= <-]; simpl; lia]
    | |- _ /\ _ /\ exists _, _ => split; [unfold ex_arena; set_solver|]; split; [refine (bool_decide_eq_true_1 _ _); vm_compute; reflexivity|]; eexists; split; [vm_compute; reflexivity|done]
    | |- True => exact I
    | |- _ => refine (bool_decide_eq_true_1 _ _); vm_compute; reflexivity
    end|]).
  exact I.
Qed.

(** The event of a type that is off, the one that is refused and the one without room are
    not in the ring. *)
Lemma trace_log_refines_witness : exists l' rest, run ex_handlers 8 ex_ops ex_log =
  Some ([Num 0; Num 0; Num 0; Num 0; Num 0; Num (- EINVAL); Num 0; Num 7; Num (-13); Num 0; Num 0; Num 0; Got (le 4 1); Got rest], l') /\ length rest = 120%nat.
Proof.
  destruct (trace_log_refines ex_handlers 8 ex_arena trace_layout (fun _ _ _ _ => eq_refl) ex_ops ex_log ex_view ex_log_rep ex_ops_ok) as (l' & E & _).
  exists l'. eexists. split; [rewrite E; vm_compute; reflexivity|reflexivity].
Defined.

Lemma event_read_back_witness : exists ev l', trace_event ex_handlers 8 ex_env 1 127 (Some [1; 2; 3; 4]) 4 (with_enabled (replicate 32 1) ex_log) = Some (0, l') /\
  Bytes.field ev 8 8 = 77 /\ slice ev 120 4 = [1; 2; 3; 4].
Proof.
  destruct (event_read_back ex_handlers 8 ex_arena trace_layout (fun _ _ _ _ => eq_refl) ex_env 1 127 (Some [1; 2; 3; 4]) 4 (replicate 124 9)
    (with_enabled (replicate 32 1) ex_log) (mk_view [] ex_points (replicate 32 1) [] 0)) as (ev & l' & b & E & He & _).
  - destruct ex_log_rep as (H & Hi & _ & _ & Hw & Hq & Hs). destruct H as [HT HP HK]. by split_and!.
  - split; [lia|]. split; [split; [lia|]; split; [intros x [= <-]; simpl; lia|intros c [= <-]; vm_compute; by eexists]|]. split; [lia|]. intros m [= <-]. reflexivity.
  - reflexivity.
  - reflexivity.
  - intros ev w. by exists w.
  - vm_compute. reflexivity.
  - exists ev, l'. split; [exact E|]. split; [exact (ev_timestamp _ _ _ _ _ _ He)|exact (ev_data _ _ _ _ _ _ He _ eq_refl)].
Defined.

End TraceRefine.
