(* ===== verification/Profile.v ===== *)
(** Profiling: [kernel/profile.c] with [include/horizon/profile.h]. Points, switches, flags
    and the ring are those of tracing under other names, as in the source; samples also
    depend on a switch for all types, and calls of functions are counted on a list. *)

From S2P Require Import Prelude KList Bytes CStr Links ByteRing Trace.

Module Profile.
Import KList Bytes CStr Links ByteRing Trace.

Definition PROFILE_EVENT_FUNCTION : Z := 0.
Definition PROFILE_EVENT_SYSCALL : Z := 1.
Definition PROFILE_EVENT_INTERRUPT : Z := 2.
Definition PROFILE_EVENT_SCHEDULE : Z := 3.
Definition PROFILE_EVENT_MEMORY : Z := 4.
Definition PROFILE_EVENT_IO : Z := 5.
Definition PROFILE_EVENT_NETWORK : Z := 6.
Definition PROFILE_EVENT_DISK : Z := 7.
Definition PROFILE_EVENT_USER : Z := 8.
Definition PROFILE_FLAG_ALL : Z := 127.

(** ** The ring *)

Definition profile_buffer_init := trace_buffer_init.
Definition profile_buffer_free := trace_buffer_free.
Definition profile_buffer_write := trace_buffer_write.
Definition profile_buffer_read := trace_buffer_read.
Definition profile_buffer_clear := trace_buffer_clear.
Definition profile_buffer_used := trace_buffer_used.
Definition profile_buffer_free_space := trace_buffer_free_space.
Definition profile_buffer_is_empty := trace_buffer_is_empty.
Definition profile_buffer_is_full := trace_buffer_is_full.

(** ** State *)

(** A function, without its list node. *)
Record profile_function := mk_function { fname : Z; faddr : Z; calls : Z; total_time : Z; min_time : Z; max_time : Z }.

Section Profile.
Context {W : Type} (handlers : Z -> list Z -> Z -> W -> Z * list Z * W).
(** The addresses of the lists of points and functions. *)
Context (profile_points profile_functions : Z).

(** [base] has the points, the switches, the ring and all list nodes; [freed] what is
    given to [kfree], in order. *)
Record profile := mk_profile { base : log (W := W); functions : gmap Z profile_function; profile_running : Z; freed : list Z }.
Implicit Types (s : profile).

Definition with_base (l : log) s : profile := mk_profile l (functions s) (profile_running s) (freed s).
Definition with_functions (m : gmap Z profile_function) s : profile := mk_profile (base s) m (profile_running s) (freed s).
Definition with_running (x : Z) s : profile := mk_profile (base s) (functions s) x (freed s).

(** An operation on points, switches or the ring. *)
Definition on_log (f : log -> option (Z * log)) s : option (Z * profile) := r ← f (base s); Some (r.1, with_base r.2 s).

Definition profile_init (mem : bool) s : option (Z * profile) := on_log (trace_init mem) s.
Definition profile_register_point (point : option Z) s : option (Z * profile) := on_log (trace_register_point profile_points point) s.
Definition profile_unregister_point (point : option Z) s : option (Z * profile) := on_log (trace_unregister_point point) s.
Definition profile_enable (t : Z) s : option (Z * profile) := on_log (trace_enable t) s.
Definition profile_disable (t : Z) s : option (Z * profile) := on_log (trace_disable t) s.
Definition profile_is_enabled (t : Z) s : option bool := trace_is_enabled t (base s).
Definition profile_set_flags (t f : Z) s : option (Z * profile) := on_log (trace_set_flags profile_points t f) s.
Definition profile_get_flags (t : Z) s : option Z := trace_get_flags profile_points t (base s).

Definition profile_start s : Z * profile := (0, with_running 1 s).
Definition profile_stop s : Z * profile := (0, with_running 0 s).
Definition profile_is_running s : Z := profile_running s.

(** The switch of the type, and the one for all. *)
Definition active (t : Z) s : option bool := on ← profile_is_enabled t s; Some (on && negb (profile_running s =? 0)).

(** ** Samples *)

Definition profile_sample (e : env) (t f : Z) (d : option (list Z)) (n : Z) s : option (Z * profile) :=
  on ← active t s;
  if negb (on : bool) then Some (0, s) else on_log (record_event handlers profile_points e t f d n) s.

Definition sample (e : env) (t : Z) (d : list Z) s : option (Z * profile) :=
  profile_sample e t PROFILE_FLAG_ALL (Some d) (Z.of_nat (length d)) s.

Definition profile_syscall_enter (e : env) (syscall arg1 arg2 arg3 arg4 arg5 arg6 : Z) s : option (Z * profile) :=
  sample e PROFILE_EVENT_SYSCALL (le 4 syscall ++ le 4 arg1 ++ le 4 arg2 ++ le 4 arg3 ++ le 4 arg4 ++ le 4 arg5 ++ le 4 arg6) s.

Definition profile_syscall_exit (e : env) (syscall ret time : Z) s : option (Z * profile) :=
  sample e PROFILE_EVENT_SYSCALL (le 4 syscall ++ le 4 ret ++ le 8 time) s.

Definition profile_interrupt (e : env) (irq time : Z) s : option (Z * profile) :=
  sample e PROFILE_EVENT_INTERRUPT (le 4 irq ++ le 8 time) s.

(** [stack1] and [stack2] are what the two names held before. *)
Definition profile_schedule (e : env) (prev next : option task) (stack1 stack2 : list Z) (time : Z) s : option (Z * profile) :=
  c1 ← put_comm prev stack1;
  c2 ← put_comm next stack2;
  sample e PROFILE_EVENT_SCHEDULE (le 4 (pid_of prev) ++ le 4 (pid_of next) ++ c1 ++ c2 ++ le 8 time) s.

Definition profile_memory (e : env) (ptr sz f : Z) s : option (Z * profile) :=
  sample e PROFILE_EVENT_MEMORY (le 4 ptr ++ le 4 sz ++ le 4 f) s.

Definition profile_io (e : env) (fd op sz time : Z) s : option (Z * profile) :=
  sample e PROFILE_EVENT_IO (le 4 fd ++ le 4 op ++ le 4 sz ++ le 8 time) s.

Definition profile_network (e : env) (sock op sz time : Z) s : option (Z * profile) :=
  sample e PROFILE_EVENT_NETWORK (le 4 sock ++ le 4 op ++ le 4 sz ++ le 8 time) s.

Definition profile_disk (e : env) (dev op sector cnt time : Z) s : option (Z * profile) :=
  sample e PROFILE_EVENT_DISK (le 4 dev ++ le 4 op ++ le 8 sector ++ le 4 cnt ++ le 8 time) s.

(** The type the caller gives is not used. *)
Definition profile_user (e : env) (t : Z) (d : option (list Z)) (n : Z) s : option (Z * profile) :=
  profile_sample e PROFILE_EVENT_USER PROFILE_FLAG_ALL d n s.

(** ** Functions *)

(** Enough for a walk over the functions. *)
Definition function_fuel s : nat := S (base.size (functions s)).

(** The list node of the first function with the address [a]. *)
Definition find_function (a : Z) s : option (option Z) :=
  list_for_each_entry (function_fuel s) (fun q => x ← functions s !! list_entry q FunctionEntry; Some (faddr x =? a)) profile_functions (nodes (base s)).

Definition update_function (g : profile_function -> profile_function) (p : Z) s : option profile :=
  x ← functions s !! p; Some (with_functions (<[p := g x]> (functions s)) s).

Definition one_more (x : profile_function) : profile_function :=
  mk_function (fname x) (faddr x) (u32 (calls x + 1)) (total_time x) (min_time x) (max_time x).

Definition took (time : Z) (x : profile_function) : profile_function :=
  mk_function (fname x) (faddr x) (calls x) (u64 (total_time x + time))
    (if time <? min_time x then time else min_time x) (if max_time x <? time then time else max_time x).

(** [mem] is what [kmalloc] returns. *)
Definition profile_function_enter (a nm : Z) (mem : option Z) s : option (Z * profile) :=
  on ← active PROFILE_EVENT_FUNCTION s;
  if negb (on : bool) then Some (0, s)
  else
    r ← find_function a s;
    match r with
    | Some q => s ← update_function one_more (list_entry q FunctionEntry) s; Some (0, s)
    | None =>
        match mem with
        | None => Some (- ENOMEM, s)
        | Some p =>
            let s := with_functions (<[p := mk_function nm a 1 0 (2 ^ 64 - 1) 0]> (functions s)) s in
            let s := with_base (with_nodes (new_node (addr p FunctionEntry) (nodes (base s))) (base s)) s in
            l ← on_nodes (list_add (addr p FunctionEntry) profile_functions) (base s);
            Some (0, with_base l s)
        end
    end.

Definition profile_function_exit (a time : Z) s : option (Z * profile) :=
  on ← active PROFILE_EVENT_FUNCTION s;
  if negb (on : bool) then Some (0, s)
  else
    r ← find_function a s;
    match r with
    | Some q => s ← update_function (took time) (list_entry q FunctionEntry) s; Some (0, s)
    | None => Some (0, s)
    end.

(** The functions on the list, in order. *)
Fixpoint collect (fuel : nat) (pos : Z) s : option (list profile_function) :=
  match fuel with
  | O => None
  | S fuel =>
      if pos =? profile_functions then Some []
      else x ← functions s !! list_entry pos FunctionEntry; pos ← next (nodes (base s)) !! pos; r ← collect fuel pos s; Some (x :: r)
  end.

(** [places] tells whether both pointers are given; the array that is returned and its
    length are [None] when nothing is stored. *)
Definition profile_get_functions (places mem : bool) s : option (Z * option (list profile_function * Z)) :=
  if negb places then Some (- EINVAL, None)
  else
    pos ← next (nodes (base s)) !! profile_functions;
    r ← collect (function_fuel s) pos s;
    if mem then Some (0, Some (r, Z.of_nat (length r))) else Some (- ENOMEM, None).

Definition profile_clear_functions s : option (Z * profile) :=
  r ← list_clear (function_fuel s) profile_functions (nodes (base s));
  let gone := map (fun q => list_entry q FunctionEntry) r.1 in
  Some (0, mk_profile (with_nodes r.2 (base s)) (foldr delete (functions s) gone) (profile_running s) (freed s ++ gone)).

End Profile.
End Profile.
