(* ===== verification/ProfileSpec.v ===== *)
(** What profiling counts ([kernel/profile.c]): the list of functions refines a list of
    records with distinct addresses, and their numbers are exact. *)

From S2P Require Import Prelude KList Bytes CStr Links ByteRing Trace TraceSpec Profile.

Module ProfileSpec.
Import KList Bytes CStr Links ByteRing Trace TraceSpec Profile.

Section Functions.
Context {W : Type} (points_head functions_head : Z) (point_arena function_arena : gset Z).
Notation live := (live points_head (Some functions_head) point_arena function_arena).
Context (layout : disjoint_layout points_head (Some functions_head) point_arena function_arena).
Implicit Types (s : profile (W := W)) (R : gmap (field * Z) (list Z)).

(** The functions on the list, newest first, and their records. *)
Record view := mk_view { fs : list Z; finfo : gmap Z profile_function }.
Implicit Types (v : view).

Notation key := (FunctionsHead, functions_head).

(** Profiling of functions is on. *)
Definition is_on s : Prop := active PROFILE_EVENT_FUNCTION s = Some true.

Record rep R s v : Prop := {
  rp_tracks : tracks live (nodes (base s)) (<[key := fs v]> R);
  rp_functions : functions s = finfo v;
  rp_known : forall p, p ∈ fs v <-> is_Some (finfo v !! p);
  rp_distinct : forall p q x y, finfo v !! p = Some x -> finfo v !! q = Some y -> faddr x = faddr y -> p = q
}.

Lemma functions_at : addr functions_head FunctionsHead = functions_head.
Proof. apply Z.add_0_r. Qed.

(** The function with the address [a]. *)
Definition v_find (a : Z) v : option Z := List.find (fun p => match finfo v !! p with Some x => faddr x =? a | None => false end) (fs v).

Lemma v_find_some a v p R s : rep R s v -> v_find a v = Some p <-> exists x, finfo v !! p = Some x /\ faddr x = a.
Proof.
  intros H. unfold v_find. split.
  - intros [Hin Hx]%List.find_some. destruct (finfo v !! p) as [x|]; [|done]. exists x. split; [done|lia].
  - intros (x & Hx & Ha). destruct (List.find _ (fs v)) as [q|] eqn:E.
    + apply List.find_some in E as [_ Hq]. destruct (finfo v !! q) as [y|] eqn:Ey; [|done]. f_equal. eapply (rp_distinct _ _ _ H q p); try done. lia.
    + assert (p ∈ fs v) as Hp by (apply (rp_known _ _ _ H); by eexists). apply list_elem_of_In in Hp. pose proof (List.find_none _ _ E p Hp) as Hn. cbv beta in Hn. rewrite Hx in Hn. lia.
Qed.

Lemma functions_bound R s v : rep R s v -> (length (fs v) < function_fuel s)%nat.
Proof.
  intros H. unfold function_fuel. rewrite (rp_functions _ _ _ H). eapply links_bound; [apply H|apply lookup_insert_eq|]. intros p Hp. by apply (rp_known _ _ _ H).
Qed.

Lemma find_function_ok a R s v : rep R s v -> find_function functions_head a s = Some ((fun p => addr p FunctionEntry) <$> v_find a v).
Proof.
  intros H. unfold find_function.
  pose proof (walk_links live _ _ FunctionsHead functions_head FunctionEntry (fs v) (function_fuel s) (fun p => x ← functions s !! p; Some (faddr x =? a))
    (fun p => match finfo v !! p with Some x => faddr x =? a | None => false end) (rp_tracks _ _ _ H) (lookup_insert_eq _ _ _) eq_refl) as Hw.
  rewrite functions_at in Hw. rewrite Hw; [done|by eapply functions_bound|]. intros p Hp. rewrite (rp_functions _ _ _ H).
  apply (rp_known _ _ _ H) in Hp as [x ->]. done.
Qed.

(** ** Calls *)

Definition v_update (g : profile_function -> profile_function) p v : view := mk_view (fs v) (alter g p (finfo v)).

Lemma update_ok g p x R s v : rep R s v -> finfo v !! p = Some x -> (forall y, faddr (g y) = faddr y) ->
  exists s', update_function g p s = Some s' /\ rep R s' (v_update g p v) /\ base s' = base s /\ profile_running s' = profile_running s.
Proof.
  intros [H1 H2 H3 H4] Hx Hg. unfold update_function. rewrite H2, Hx, bind_Some_l. eexists. split; [done|]. split; [|done].
  assert (<[p := g x]> (finfo v) = alter g p (finfo v)) as Ea.
  { apply map_eq. intros j. destruct (decide (j = p)) as [->|]; [by rewrite lookup_insert_eq, lookup_alter_eq, Hx|by rewrite lookup_insert_ne, lookup_alter_ne]. }
  rewrite Ea. assert (forall j y, alter g p (finfo v) !! j = Some y -> exists z, finfo v !! j = Some z /\ faddr y = faddr z) as Hl.
  { intros j y Hy. destruct (decide (p = j)) as [->|]; [rewrite lookup_alter_eq, Hx in Hy; injection Hy as <-; by exists x|rewrite lookup_alter_ne in Hy by done; by exists y]. }
  split; [done|done| |]; cbn [fs finfo v_update].
  - intros j. rewrite H3. destruct (decide (p = j)) as [->|]; [rewrite lookup_alter_eq, Hx; split; intros _; by eexists|by rewrite lookup_alter_ne].
  - intros i j y z Hi Hj E. apply Hl in Hi as (y' & Hi & Ey), Hj as (z' & Hj & Ez). eapply H4; try done. congruence.
Qed.

Definition new_function (a nm : Z) : profile_function := mk_function nm a 1 0 (2 ^ 64 - 1) 0.

Definition v_enter (a nm p : Z) v : view :=
  match v_find a v with
  | Some q => v_update one_more q v
  | None => mk_view (p :: fs v) (<[p := new_function a nm]> (finfo v))
  end.

Lemma enter_ok a nm p R s v : rep R s v -> is_on s -> p ∈ function_arena -> finfo v !! p = None -> (forall b, R !! (FunctionsHead, b) = None) -> R !! (FunctionEntry, p) = None ->
  exists s', profile_function_enter functions_head a nm (Some p) s = Some (0, s') /\ rep R s' (v_enter a nm p v) /\ is_on s'.
Proof.
  intros H Hon Hp Hfr HR HRp. unfold profile_function_enter. rewrite Hon, bind_Some_l. cbn [negb]. rewrite (find_function_ok a R s v H), bind_Some_l. unfold v_enter.
  destruct (v_find a v) as [q|] eqn:Ef; cbn [fmap option_fmap option_map].
  - apply (v_find_some a v q R s H) in Ef as (x & Hx & _). rewrite entry_addr. destruct (update_ok one_more q x R s v H Hx) as (s' & E & H' & Hb & Hr); [done|].
    rewrite E, bind_Some_l. exists s'. split; [done|]. split; [done|]. unfold is_on, active, profile_is_enabled in *. by rewrite Hb, Hr.
  - pose proof H as [HT HF HK HD]. assert (p ∉ fs v) as Hpf by (rewrite HK, Hfr; by intros [? ?]).
    assert (free (<[key := fs v]> R) FunctionsHead p) as Hfree.
    { intros b l [[Hk <-]|[_ E]]%lookup_insert_Some; [done|]. by rewrite HR in E. }
    assert (tracks live (new_node (addr p FunctionEntry) (nodes (base s))) (<[key := fs v]> R)) as HT'.
    { eapply (tracks_untouched live layout (nodes (base s)) _ _ FunctionEntry p); [done|done|apply new_node_others| |].
      - by rewrite lookup_insert_ne by done.
      - intros [] Em; try discriminate Em. exact Hfree. }
    destruct (add_link live layout _ _ FunctionsHead functions_head FunctionEntry (fs v) p HT' (lookup_insert_eq _ _ _) eq_refl Hp Hfree) as (h & E & H').
    rewrite functions_at in E. cbn [base with_base with_functions]. unfold on_nodes. cbn [nodes with_nodes]. rewrite E, !bind_Some_l. eexists. split; [done|]. split; [|done].
    rewrite insert_insert_eq in H'. split; cbn [fs finfo]; [done|by rewrite <-HF| |].
    + intros j. rewrite elem_of_cons, HK, lookup_insert_is_Some'. split; intros [->|?]; auto.
    + intros i j x y [[<- <-]|[Hi Hx]]%lookup_insert_Some [[<- <-]|[Hj Hy]]%lookup_insert_Some Ea; [done| | |by eapply HD].
      * exfalso. cbn [faddr new_function] in Ea. pose proof (proj2 (v_find_some a v j R s H) ltac:(exists y; by split)). congruence.
      * exfalso. cbn [faddr new_function] in Ea. pose proof (proj2 (v_find_some a v i R s H) ltac:(exists x; by split)). congruence.
Qed.

Definition v_exit (a time : Z) v : view := match v_find a v with Some q => v_update (took time) q v | None => v end.

Lemma exit_ok a time R s v : rep R s v -> is_on s ->
  exists s', profile_function_exit functions_head a time s = Some (0, s') /\ rep R s' (v_exit a time v) /\ is_on s'.
Proof.
  intros H Hon. unfold profile_function_exit. rewrite Hon, bind_Some_l. cbn [negb]. rewrite (find_function_ok a R s v H), bind_Some_l. unfold v_exit.
  destruct (v_find a v) as [q|] eqn:Ef; cbn [fmap option_fmap option_map]; [|by exists s].
  apply (v_find_some a v q R s H) in Ef as (x & Hx & _). rewrite entry_addr. destruct (update_ok (took time) q x R s v H Hx) as (s' & E & H' & Hb & Hr); [done|].
  rewrite E, bind_Some_l. exists s'. split; [done|]. split; [done|]. unfold is_on, active, profile_is_enabled in *. by rewrite Hb, Hr.
Qed.

(** ** Listing and clearing *)

Definition records v : list profile_function := omap (fun p => finfo v !! p) (fs v).

Lemma collect_ok R s v ps1 ps2 fuel : rep R s v -> fs v = ps1 ++ ps2 -> (length ps2 < fuel)%nat ->
  collect functions_head fuel (List.hd functions_head (nodes_in FunctionEntry ps2)) s = Some (omap (fun p => finfo v !! p) ps2).
Proof.
  intros H. revert ps1 fuel. induction ps2 as [|p ps2 IH]; intros ps1 [|fuel] El Hf; simpl in Hf; try lia; cbn [collect nodes_in map List.hd]; [by rewrite Z.eqb_refl|].
  pose proof H as [HT HF HK HD]. assert (p ∈ fs v) as Hp by (rewrite El; apply elem_of_app; right; left).
  destruct (tracks_list _ _ _ _ _ _ FunctionEntry HT (lookup_insert_eq _ _ _) eq_refl) as (_ & Hl & _). rewrite Forall_forall in Hl.
  destruct (Z.eqb_spec (addr p FunctionEntry) functions_head) as [Ea|_].
  { rewrite <-functions_at in Ea. by destruct (layout FunctionEntry p FunctionsHead functions_head (Hl p Hp) eq_refl Ea). }
  rewrite entry_addr, HF. cbn [omap list_omap]. destruct (proj1 (HK p) Hp) as [x Hx]. rewrite Hx, bind_Some_l.
  pose proof (next_link live _ _ FunctionsHead functions_head FunctionEntry ps1 p ps2 HT) as Hn. rewrite functions_at in Hn.
  rewrite Hn, bind_Some_l; [|rewrite lookup_insert_eq; by f_equal|done]. fold (nodes_in FunctionEntry ps2).
  rewrite (IH (ps1 ++ [p]) fuel), bind_Some_l; [done|rewrite El; by rewrite <-app_assoc|lia].
Qed.

Lemma get_functions_ok R s v : rep R s v -> profile_get_functions functions_head true true s = Some (0, Some (records v, Z.of_nat (length (records v)))).
Proof.
  intros H. unfold profile_get_functions. cbn [negb].
  pose proof (first_link live _ _ FunctionsHead functions_head FunctionEntry _ (rp_tracks _ _ _ H) (lookup_insert_eq _ _ _) eq_refl) as Hf. rewrite functions_at in Hf. rewrite Hf, bind_Some_l.
  rewrite (collect_ok R s v [] (fs v)), bind_Some_l; [done|done|done|by eapply functions_bound].
Qed.

(** After [profile_clear_functions] no function is known, every record has been given to
    [kfree] exactly once, newest first, and the list is intact. *)
Theorem clear_functions_frees R s v : rep R s v ->
  exists s', profile_clear_functions functions_head s = Some (0, s') /\ rep R s' (mk_view [] ∅) /\ freed s' = freed s ++ fs v /\ NoDup (fs v).
Proof.
  intros H. pose proof H as [HT HF HK HD]. unfold profile_clear_functions.
  destruct (clear_links live layout _ _ FunctionsHead functions_head FunctionEntry (fs v) (function_fuel s) HT (lookup_insert_eq _ _ _) eq_refl) as (h & E & H'); [by eapply functions_bound|].
  rewrite functions_at in E. rewrite E, bind_Some_l. cbn [fst snd]. eexists. split; [done|].
  assert (map (fun q => list_entry q FunctionEntry) (nodes_in FunctionEntry (fs v)) = fs v) as ->.
  { unfold nodes_in. rewrite map_map. rewrite <-(map_id (fs v)) at 2. apply map_ext. intros p. apply entry_addr. }
  split; [|split; [done|eapply tracks_NoDup; [apply H|apply lookup_insert_eq]]]. rewrite insert_insert_eq in H'.
  assert (foldr delete (functions s) (fs v) = ∅) as Hd.
  { apply map_empty. intros p. rewrite HF. destruct (decide (p ∈ fs v)) as [Hp|Hp].
    - clear -Hp. induction (fs v) as [|q l IH]; [by apply not_elem_of_nil in Hp|]. cbn [foldr]. apply lookup_delete_None. apply elem_of_cons in Hp as [->|Hp]; auto.
    - rewrite lookup_foldr_delete_not_elem_of by done. apply eq_None_not_Some. by rewrite <-HK. }
  split; cbn [fs finfo functions]; try done. intros p. rewrite lookup_empty. split; [by intros ?%not_elem_of_nil|by intros [? ?]].
Qed.

(** ** Exact numbers *)

Inductive event := Enter (a nm p : Z) | Exit (a time : Z).

Fixpoint run (es : list event) s : option profile :=
  match es with
  | [] => Some s
  | Enter a nm p :: es => r ← profile_function_enter functions_head a nm (Some p) s; run es r.2
  | Exit a time :: es => r ← profile_function_exit functions_head a time s; run es r.2
  end.

Definition v_step v (e : event) : view := match e with Enter a nm p => v_enter a nm p v | Exit a time => v_exit a time v end.

(** New records get memory that is not in use. *)
Fixpoint fresh_memory (es : list event) v : Prop :=
  match es with
  | [] => True
  | e :: es => match e with Enter _ _ p => p ∈ function_arena /\ finfo v !! p = None | Exit _ _ => True end /\ fresh_memory es (v_step v e)
  end.

(** What is counted for [a]: a record from the first call on. *)
Definition count_event (a : Z) (o : option profile_function) (e : event) : option profile_function :=
  match e with
  | Enter b nm _ => if b =? a then Some (match o with Some x => one_more x | None => new_function a nm end) else o
  | Exit b time => if b =? a then took time <$> o else o
  end.

Definition record_of (a : Z) v : option profile_function := v_find a v ≫= fun p => finfo v !! p.

Lemma record_update g a q x R s v : rep R s v -> finfo v !! q = Some x -> (forall y, faddr (g y) = faddr y) ->
  forall R' s', rep R' s' (v_update g q v) -> record_of a (v_update g q v) = if faddr x =? a then Some (g x) else record_of a v.
Proof.
  intros H Hx Hg R' s' H'. unfold record_of. destruct (Z.eqb_spec (faddr x) a) as [Ea|Ea].
  - assert (v_find a (v_update g q v) = Some q) as ->; [|simpl; by rewrite lookup_alter_eq, Hx]. apply (v_find_some a _ q R' s' H'). exists (g x). simpl. rewrite lookup_alter_eq, Hx. split; [done|by rewrite Hg].
  - destruct (v_find a v) as [p|] eqn:E.
    + apply (v_find_some a v p R s H) in E as (y & Hy & Hya). assert (q <> p) as Hne by (intros ->; congruence).
      assert (v_find a (v_update g q v) = Some p) as ->; [apply (v_find_some a _ p R' s' H'); exists y; simpl; by rewrite lookup_alter_ne|]. simpl. by rewrite lookup_alter_ne.
    + destruct (v_find a (v_update g q v)) as [p|] eqn:E'; [|done]. exfalso. apply (v_find_some a _ p R' s' H') in E' as (y & Hy & Hya). simpl in Hy.
      destruct (decide (q = p)) as [->|]; [rewrite lookup_alter_eq, Hx in Hy; injection Hy as <-; rewrite Hg in Hya; done|]. rewrite lookup_alter_ne in Hy by done.
      pose proof (proj2 (v_find_some a v p R s H) ltac:(exists y; by split)). congruence.
Qed.

Lemma record_step a e R s v R' s' : rep R s v -> rep R' s' (v_step v e) -> match e with Enter _ _ p => finfo v !! p = None | _ => True end ->
  record_of a (v_step v e) = count_event a (record_of a v) e.
Proof.
  intros H H' Hf. destruct e as [b nm p|b time]; cbn [v_step count_event] in *.
  - unfold v_enter in *. destruct (v_find b v) as [q|] eqn:E.
    + pose proof E as Eb. apply (v_find_some b v q R s H) in E as (x & Hx & Hxb). rewrite (record_update one_more a q x R s v H Hx) with (R' := R') (s' := s'); [|done..]. rewrite Hxb.
      destruct (Z.eqb_spec b a) as [->|]; [|done]. unfold record_of. rewrite Eb. simpl. by rewrite Hx.
    + destruct (Z.eqb_spec b a) as [->|Hne].
      * unfold record_of. rewrite E. cbn [mbind option_bind]. assert (v_find a (mk_view (p :: fs v) (<[p := new_function a nm]> (finfo v))) = Some p) as ->;
          [|simpl; by rewrite lookup_insert_eq]. apply (v_find_some a _ p R' s' H'). exists (new_function a nm). simpl. by rewrite lookup_insert_eq.
      * unfold record_of, v_find. cbn [fs finfo List.find]. rewrite lookup_insert_eq. cbn [faddr new_function]. destruct (Z.eqb_spec b a); [done|].
        assert (forall l, p ∉ l -> (List.find (fun q => match <[p := new_function b nm]> (finfo v) !! q with Some x => faddr x =? a | None => false end) l ≫= fun q => <[p := new_function b nm]> (finfo v) !! q) =
          (List.find (fun q => match finfo v !! q with Some x => faddr x =? a | None => false end) l ≫= fun q => finfo v !! q)) as Hl.
        { induction l as [|q l IH]; intros Hq; [done|]. apply not_elem_of_cons in Hq as [Hpq Hq]. cbn [List.find]. rewrite lookup_insert_ne by done.
          destruct (match finfo v !! q with Some x => faddr x =? a | None => false end); [cbn [mbind option_bind]; by rewrite lookup_insert_ne|by apply IH]. }
        apply Hl. rewrite (rp_known _ _ _ H), Hf. by intros [? ?].
  - unfold v_exit in *. destruct (v_find b v) as [q|] eqn:E.
    + pose proof E as Eb. apply (v_find_some b v q R s H) in E as (x & Hx & Hxb). rewrite (record_update (took time) a q x R s v H Hx) with (R' := R') (s' := s'); [|done..]. rewrite Hxb.
      destruct (Z.eqb_spec b a) as [->|]; [|done]. unfold record_of. rewrite Eb. simpl. by rewrite Hx.
    + destruct (Z.eqb_spec b a) as [->|]; [|done]. unfold record_of. by rewrite E.
Qed.

(** The record of [n] calls that took the times [ts]. *)
Definition stat (nm a n : Z) (ts : list Z) : profile_function :=
  mk_function nm a (u32 n) (u64 (foldl Z.add 0 ts)) (foldl Z.min (2 ^ 64 - 1) ts) (foldl Z.max 0 ts).

Lemma one_more_stat nm a n ts : one_more (stat nm a n ts) = stat nm a (n + 1) ts.
Proof. unfold one_more, stat. cbn. f_equal. unfold u32, wrap. by rewrite Zplus_mod_idemp_l. Qed.

Lemma took_stat nm a n ts t : took t (stat nm a n ts) = stat nm a n (ts ++ [t]).
Proof.
  unfold took, stat. cbn [fname faddr calls total_time min_time max_time]. rewrite !foldl_snoc. f_equal.
  - unfold u64, wrap. by rewrite Zplus_mod_idemp_l.
  - destruct (Z.ltb_spec t (foldl Z.min (2 ^ 64 - 1) ts)); lia.
  - destruct (Z.ltb_spec (foldl Z.max 0 ts) t); lia.
Qed.

(** The number of calls of [a] and the times its calls took. *)
Definition calls_of (a : Z) (es : list event) : Z := foldr (fun e n => match e with Enter b _ _ => if b =? a then n + 1 else n | _ => n end) 0 es.
Definition times_of (a : Z) (es : list event) : list Z := omap (fun e => match e with Exit b t => if b =? a then Some t else None | _ => None end) es.

Lemma count_known a nm n ts es : foldl (count_event a) (Some (stat nm a n ts)) es = Some (stat nm a (n + calls_of a es) (ts ++ times_of a es)).
Proof.
  revert n ts. induction es as [|[b nm' p|b t] es IH]; intros n ts; cbn [foldl count_event].
  - unfold calls_of, times_of. simpl. by rewrite app_nil_r, Z.add_0_r.
  - unfold calls_of, times_of. cbn [foldr omap list_omap]. fold (calls_of a es) (times_of a es). destruct (b =? a); [|by rewrite IH].
    rewrite one_more_stat, IH. do 2 f_equal. lia.
  - unfold calls_of, times_of. cbn [foldr omap list_omap]. fold (calls_of a es) (times_of a es). destruct (b =? a); [|by rewrite IH].
    cbn [fmap option_fmap option_map]. rewrite took_stat, IH. by rewrite <-app_assoc.
Qed.

(** What is known about [a] in the end: nothing before its first call. *)
Fixpoint counted (a : Z) (es : list event) : option profile_function :=
  match es with
  | [] => None
  | Enter b nm _ :: es => if b =? a then Some (stat nm a (1 + calls_of a es) (times_of a es)) else counted a es
  | Exit _ _ :: es => counted a es
  end.

Lemma counted_ok a es : foldl (count_event a) None es = counted a es.
Proof.
  induction es as [|[b nm p|b t] es IH]; [done|..]; cbn [foldl count_event counted].
  - destruct (b =? a); [|done]. apply (count_known a nm 1 []).
  - by destruct (b =? a).
Qed.

Lemma profile_run_ok es R s v : (forall b, R !! (FunctionsHead, b) = None) -> (forall p, R !! (FunctionEntry, p) = None) -> rep R s v -> is_on s -> fresh_memory es v ->
  exists s', run es s = Some s' /\ rep R s' (foldl v_step v es) /\ forall a, record_of a (foldl v_step v es) = foldl (count_event a) (record_of a v) es.
Proof.
  intros HR1 HR2. revert s v. induction es as [|e es IH]; intros s v H Hon Hf; [by exists s|]. destruct Hf as [He Hf].
  assert (exists s1, match e with Enter a nm p => profile_function_enter functions_head a nm (Some p) s | Exit a t => profile_function_exit functions_head a t s end = Some (0, s1) /\
    rep R s1 (v_step v e) /\ is_on s1) as (s1 & E1 & H1 & Hon1).
  { destruct e as [a nm p|a t]; [destruct He as [Hp Hfr]; by apply enter_ok|by apply exit_ok]. }
  destruct (IH s1 _ H1 Hon1 Hf) as (s2 & E2 & H2 & Hr). exists s2. split; [|split; [done|]].
  - destruct e; cbn [run]; by rewrite E1, bind_Some_l.
  - intros a. cbn [foldl]. rewrite Hr. f_equal. eapply record_step; [done|done|]. destruct e; [by destruct He|done].
Qed.

Lemma records_distinct R s v : rep R s v -> NoDup (faddr <$> records v).
Proof.
  intros H. assert (NoDup (fs v)) as Hnd by (eapply tracks_NoDup; [apply H|apply lookup_insert_eq]). unfold records.
  assert (forall l, NoDup l -> (forall p, p ∈ l -> is_Some (finfo v !! p)) -> NoDup (faddr <$> omap (fun p => finfo v !! p) l)) as Hl; [|apply Hl; [done|apply H]].
  induction 1 as [|p l Hp Hl IH]; intros Hk; [constructor|]. cbn [omap list_omap]. destruct (Hk p) as [x Hx]; [left|]. rewrite Hx. cbn [fmap list_fmap].
  constructor; [|apply IH; intros q Hq; apply Hk; by right]. intros (y & Ey & (q & Hq & Hy)%list_elem_of_omap)%list_elem_of_fmap.
  apply Hp. by rewrite (rp_distinct _ _ _ H p q x y Hx Hy Ey).
Qed.

Lemma record_listed a x R s v : rep R s v -> (x ∈ records v /\ faddr x = a) <-> record_of a v = Some x.
Proof.
  intros H. unfold records, record_of. rewrite list_elem_of_omap. split.
  - intros [(p & Hp & Hx) Ha]. rewrite (proj2 (v_find_some a v p R s H)); [done|]. by exists x.
  - intros (p & E & Hx)%bind_Some. apply (v_find_some a v p R s H) in E as (y & Hy & Hya). assert (y = x) as -> by congruence.
    split; [|done]. exists p. split; [|done]. apply (rp_known _ _ _ H). by eexists.
Qed.

(** After any sequence of calls and returns of functions with profiling on,
    [profile_get_functions] lists one record for each function that was called, with the
    name given at its first call, the number of its calls, and the sum, the least and the
    greatest of the times of its returns since then. *)
Theorem profile_statistics es R s : (forall b, R !! (FunctionsHead, b) = None) -> (forall p, R !! (FunctionEntry, p) = None) ->
  rep R s (mk_view [] ∅) -> is_on s -> fresh_memory es (mk_view [] ∅) ->
  exists s' recs, run es s = Some s' /\ profile_get_functions functions_head true true s' = Some (0, Some (recs, Z.of_nat (length recs))) /\
    (forall a x, (x ∈ recs /\ faddr x = a) <-> counted a es = Some x) /\
    NoDup (faddr <$> recs).
Proof.
  intros HR1 HR2 H Hon Hf. destruct (profile_run_ok es R s _ HR1 HR2 H Hon Hf) as (s' & E & H' & Hr). exists s', (records (foldl v_step (mk_view [] ∅) es)).
  split; [done|]. split; [by eapply get_functions_ok|]. split.
  - intros a x. rewrite (record_listed a x R s' _ H'), Hr. cbn. by rewrite counted_ok.
  - eapply records_distinct, H'.
Qed.

End Functions.

(** ** Example *)

Definition ex_arena : gset Z := {[3000; 4000; 5000]}.

Lemma profile_layout : disjoint_layout 8 (Some 16) ∅ ex_arena.
Proof. intros [] a [] b; cbn [live]; unfold ex_arena; intros Ha Hb Hab; unfold addr in Hab; cbn in Hab; split; try done; set_solver. Qed.

Definition ex_heap : heap := new_node 3036 (new_node 4036 (new_node 5036 (mk_heap {[8 := 8; 16 := 16]} {[8 := 8; 16 := 16]}))).
Definition ex_profile : profile := mk_profile (mk_log ex_heap ∅ (replicate 32 1) (mk_buffer None 0 0 0) tt) ∅ 1 [].

Lemma ex_profile_rep : rep 8 16 ∅ ex_arena {[(PointsHead, 8) := []]} ex_profile (mk_view [] ∅).
Proof.
  split; try done; [split|].
  - intros [] a; cbn [live]; unfold ex_arena; intros Ha; try by apply not_elem_of_empty in Ha.
    + subst a. split; vm_compute; by eexists.
    + injection Ha as <-. split; vm_compute; by eexists.
    + apply elem_of_union in Ha as [[->%elem_of_singleton | ->%elem_of_singleton]%elem_of_union | ->%elem_of_singleton]; split; vm_compute; by eexists.
  - intros f a x [[E <-]|[_ [E <-]%lookup_singleton_Some]]%lookup_insert_Some; injection E as <- <-; eexists; (split; [done|]); (split; [done|]); (split; [constructor|]);
      (split; [apply NoDup_singleton|]); split; vm_compute; done.
  - intros f a b x y c _ [[_ <-]|[_ [_ <-]%lookup_singleton_Some]]%lookup_insert_Some _ ?%not_elem_of_nil; done.
  - intros p. cbn [fs finfo]. rewrite lookup_empty. split; [by intros ?%not_elem_of_nil|by intros [? ?]].
Qed.

Definition ex_events : list event := [Enter 70 1 3000; Exit 70 5; Exit 90 1; Enter 90 2 4000; Enter 70 1 5000; Exit 70 3].

Lemma ex_fresh : fresh_memory ex_arena ex_events (mk_view [] ∅).
Proof. unfold ex_events. repeat (apply conj; [try exact I|]); try exact I; try reflexivity; unfold ex_arena; set_solver. Qed.

Lemma profile_statistics_witness : exists s' recs, run 16 ex_events ex_profile = Some s' /\ profile_get_functions 16 true true s' = Some (0, Some (recs, Z.of_nat (length recs))) /\ mk_function 1 70 2 8 3 5 ∈ recs.
Proof.
  destruct (profile_statistics 8 16 ∅ ex_arena profile_layout ex_events {[(PointsHead, 8) := []]} ex_profile) as (s' & recs & E & Eg & Hr & _).
  - intros b. by rewrite lookup_singleton_ne by done.
  - intros b. by rewrite lookup_singleton_ne by done.
  - exact ex_profile_rep.
  - reflexivity.
  - exact ex_fresh.
  - exists s', recs. split; [exact E|]. split; [exact Eg|]. apply (Hr 70). vm_compute. reflexivity.
Defined.

Lemma clear_functions_frees_witness : exists s', profile_clear_functions 16 ex_profile = Some (0, s') /\ freed s' = [].
Proof.
  destruct (clear_functions_frees 8 16 ∅ ex_arena profile_layout {[(PointsHead, 8) := []]} ex_profile _ ex_profile_rep) as (s' & E & _ & Hf & _).
  exists s'. split; [exact E|exact Hf].
Defined.

End ProfileSpec.
