(* ===== verification/Console.v ===== *)
(** The text console: [kernel/console.c]. The screen of 80 by 25 cells in video memory, the
    cursor, special characters, scrolling, and printing of numbers. *)

From S2P Require Import Prelude.

Module Console.

Definition VGA_WIDTH : Z := 80.
Definition VGA_HEIGHT : Z := 25.

(** [CONSOLE_ATTR(fg, bg)], stored in a byte. *)
Definition CONSOLE_ATTR (fg bg : Z) : Z := u8 (Z.lor (Z.shiftl bg 4) fg).

(** [outs] has the bytes written to ports, in order. *)
Record console := mk_console {
  vga_memory : list Z; console_x : Z; console_y : Z; console_attr : Z; saved_x : Z; saved_y : Z; cursor_visible : Z; outs : list (Z * Z)
}.
Implicit Types (s : console) (c : Z) (str : list Z).

Definition with_memory (m : list Z) s : console :=
  mk_console m (console_x s) (console_y s) (console_attr s) (saved_x s) (saved_y s) (cursor_visible s) (outs s).
Definition with_cursor (x y : Z) s : console :=
  mk_console (vga_memory s) x y (console_attr s) (saved_x s) (saved_y s) (cursor_visible s) (outs s).
Definition with_attr (a : Z) s : console :=
  mk_console (vga_memory s) (console_x s) (console_y s) a (saved_x s) (saved_y s) (cursor_visible s) (outs s).
Definition with_saved (x y : Z) s : console :=
  mk_console (vga_memory s) (console_x s) (console_y s) (console_attr s) x y (cursor_visible s) (outs s).
Definition with_visible (v : Z) s : console :=
  mk_console (vga_memory s) (console_x s) (console_y s) (console_attr s) (saved_x s) (saved_y s) v (outs s).
Definition outb (port v : Z) s : console :=
  mk_console (vga_memory s) (console_x s) (console_y s) (console_attr s) (saved_x s) (saved_y s) (cursor_visible s) (outs s ++ [(port, u8 v)]).

(** [char] is signed: a character of 128 or more is negative as an operand of [|]. *)
Definition s8 c : Z := swrap 8 c.
Definition cell (attr c : Z) : Z := u16 (Z.lor (Z.shiftl attr 8) (s8 c)).

Definition put_cell (i v : Z) s : option console := m ← aset (vga_memory s) i v; Some (with_memory m s).

(** The position as the hardware gets it. *)
Definition move_hardware_cursor s : console :=
  let pos := u16 (u32 (console_y s * VGA_WIDTH + console_x s)) in
  outb 981 pos (outb 980 15 (outb 981 (Z.shiftr pos 8) (outb 980 14 s))).
Definition update_hardware_cursor s : console := if cursor_visible s =? 0 then s else move_hardware_cursor s.

(** ** Screen *)

(** [n] cells from [i] on become [v]. *)
Fixpoint fill_cells (n : nat) (i v : Z) s : option console :=
  match n with O => Some s | S n => s ← put_cell i v s; fill_cells n (i + 1) v s end.

Definition console_clear s : option console :=
  s ← fill_cells (Z.to_nat (VGA_WIDTH * VGA_HEIGHT)) 0 (cell (console_attr s) 32) s;
  Some (update_hardware_cursor (with_cursor 0 0 s)).

(** [n] cells from [i] on get what the cells a line below hold. *)
Fixpoint move_cells (n : nat) (i : Z) s : option console :=
  match n with O => Some s | S n => v ← aget (vga_memory s) (i + VGA_WIDTH); s ← put_cell i v s; move_cells n (i + 1) s end.

Definition console_scroll s : option console :=
  s ← move_cells (Z.to_nat (VGA_WIDTH * (VGA_HEIGHT - 1))) 0 s;
  s ← fill_cells (Z.to_nat VGA_WIDTH) ((VGA_HEIGHT - 1) * VGA_WIDTH) (cell (console_attr s) 32) s;
  Some (with_cursor (console_x s) (u32 (console_y s - 1)) s).

(** To the start of the next line, scrolling at the end of the screen. *)
Definition next_line s : option console :=
  let s := with_cursor 0 (u32 (console_y s + 1)) s in
  if VGA_HEIGHT <=? console_y s then console_scroll s else Some s.

Definition console_newline s : option console := s ← next_line s; Some (update_hardware_cursor s).

Definition console_backspace s : option console :=
  let s := if 0 <? console_x s then with_cursor (u32 (console_x s - 1)) (console_y s) s
           else if 0 <? console_y s then with_cursor (VGA_WIDTH - 1) (u32 (console_y s - 1)) s else s in
  s ← put_cell (u32 (console_y s * VGA_WIDTH + console_x s)) (cell (console_attr s) 32) s;
  Some (update_hardware_cursor s).

Definition console_tab s : option console :=
  let s := with_cursor (Z.land (u32 (console_x s + 8)) (Z.lnot 7)) (console_y s) s in
  s ← (if VGA_WIDTH <=? console_x s then next_line s else Some s);
  Some (update_hardware_cursor s).

(** ** Characters and strings *)

Definition console_putchar c s : option console :=
  if c =? 10 then console_newline s
  else if c =? 13 then Some (with_cursor 0 (console_y s) s)
  else if c =? 8 then console_backspace s
  else if c =? 9 then console_tab s
  else
    s ← put_cell (u32 (console_y s * VGA_WIDTH + console_x s)) (cell (console_attr s) c) s;
    let s := with_cursor (u32 (console_x s + 1)) (console_y s) s in
    s ← (if VGA_WIDTH <=? console_x s then next_line s else Some s);
    Some (update_hardware_cursor s).

(** The string is read up to its zero; running over its end is a fault. *)
Fixpoint console_write str s : option console :=
  match str with
  | [] => None
  | c :: str => if c =? 0 then Some s else s ← console_putchar c s; console_write str s
  end.

Definition console_write_attr str (attr : Z) s : option console :=
  let old_attr := console_attr s in
  s ← console_write str (with_attr attr s);
  Some (with_attr old_attr s).
Definition console_write_color str (fg bg : Z) s : option console := console_write_attr str (CONSOLE_ATTR fg bg) s.

(** [buf] is what [vsnprintf] puts into the buffer. *)
Definition console_printf (buf : list Z) s : option console := console_write buf s.
Definition console_printf_attr (attr : Z) (buf : list Z) s : option console := console_write_attr buf attr s.
Definition console_printf_color (fg bg : Z) (buf : list Z) s : option console := console_write_color buf fg bg s.

(** ** Attributes and cursor *)

Definition console_set_attr (attr : Z) s : console := with_attr attr s.
Definition console_set_color (fg bg : Z) s : console := with_attr (CONSOLE_ATTR fg bg) s.
Definition console_get_attr s : Z := console_attr s.
Definition console_get_color s : Z * Z := (Z.land (console_attr s) 15, Z.land (Z.shiftr (console_attr s) 4) 15).

Definition console_set_cursor (x y : Z) s : console :=
  let x := if VGA_WIDTH <=? x then VGA_WIDTH - 1 else x in
  let y := if VGA_HEIGHT <=? y then VGA_HEIGHT - 1 else y in
  update_hardware_cursor (with_cursor x y s).
Definition console_get_cursor s : Z * Z := (console_x s, console_y s).

(** [r1] and [r2] are the bytes that [inb] returns. *)
Definition console_show_cursor (r1 r2 : Z) s : console :=
  let s := with_visible 1 s in
  let s := outb 981 (Z.lor (Z.land r1 192) 14) (outb 980 10 s) in
  let s := outb 981 (Z.lor (Z.land r2 224) 15) (outb 980 11 s) in
  move_hardware_cursor s.
Definition console_hide_cursor s : console := outb 981 32 (outb 980 10 (with_visible 0 s)).

Definition console_save_cursor s : console := with_saved (console_x s) (console_y s) s.
Definition console_restore_cursor s : console := console_set_cursor (saved_x s) (saved_y s) s.

Definition console_init (r1 r2 : Z) s : option console := s ← console_clear s; Some (console_show_cursor r1 r2 s).

(** ** Numbers *)

(** The loop that stores the digits, lowest first, in a buffer of [cap] characters. *)
Fixpoint digits (fuel : nat) (cap : nat) (next : Z -> Z) (digit : Z -> Z) (n : Z) (buf : list Z) : option (list Z) :=
  match fuel with
  | O => None
  | S fuel =>
      if 0 <? n then
        if (length buf <? cap)%nat then digits fuel cap next digit (next n) (buf ++ [digit n]) else None
      else Some buf
  end.

(** The buffer from its end to its start. *)
Fixpoint put_all (l : list Z) s : option console :=
  match l with [] => Some s | c :: l => s ← console_putchar c s; put_all l s end.

Definition print_number (cap : nat) (next digit : Z -> Z) (prefix : list Z) (n : Z) s : option console :=
  buf ← digits 33 cap next digit n [];
  s ← (match prefix with [] => Some s | _ => console_write prefix s end);
  put_all (rev buf) s.

Definition hex_digit (d : Z) : Z := if d <? 10 then 48 + d else 65 + d - 10.

Definition console_print_dec (n : Z) s : option console :=
  if n =? 0 then console_putchar 48 s else print_number 16 (fun n => n / 10) (fun n => 48 + n mod 10) [] n s.
Definition console_print_hex (n : Z) s : option console :=
  if n =? 0 then console_write [48; 120; 48; 0] s
  else print_number 16 (fun n => Z.shiftr n 4) (fun n => hex_digit (Z.land n 15)) [48; 120; 0] n s.
Definition console_print_bin (n : Z) s : option console :=
  if n =? 0 then console_write [48; 98; 48; 0] s else print_number 32 (fun n => Z.shiftr n 1) (fun n => 48 + Z.land n 1) [48; 98; 0] n s.
Definition console_print_oct (n : Z) s : option console :=
  if n =? 0 then console_write [48; 111; 48; 0] s else print_number 16 (fun n => Z.shiftr n 3) (fun n => 48 + Z.land n 7) [48; 111; 0] n s.

(** ** The console before the kernel is up, which is the same one *)

Definition early_console_print := console_write.
Definition early_console_clear := console_clear.
Definition early_console_putchar := console_putchar.
Definition early_console_write := console_write.
Definition early_console_write_attr := console_write_attr.
Definition early_console_write_color := console_write_color.
Definition early_console_set_attr := console_set_attr.
Definition early_console_set_color := console_set_color.
Definition early_console_get_attr := console_get_attr.
Definition early_console_get_color := console_get_color.
Definition early_console_set_cursor := console_set_cursor.
Definition early_console_get_cursor := console_get_cursor.
Definition early_console_show_cursor := console_show_cursor.
Definition early_console_hide_cursor := console_hide_cursor.
Definition early_console_scroll := console_scroll.
Definition early_console_newline := console_newline.
Definition early_console_backspace := console_backspace.
Definition early_console_tab := console_tab.
Definition early_console_save_cursor := console_save_cursor.
Definition early_console_restore_cursor := console_restore_cursor.
Definition early_console_print_dec := console_print_dec.
Definition early_console_print_hex := console_print_hex.
Definition early_console_print_bin := console_print_bin.
Definition early_console_print_oct := console_print_oct.
Definition early_console_init (r1 r2 : Z) s : option console := s ← early_console_clear s; Some (early_console_show_cursor r1 r2 s).

End Console.
