(* ===== verification/ConsoleSpec.v ===== *)
(** The console ([kernel/console.c]) as a roll of paper of which the screen shows the last 25
    lines; printed numbers; and the cursor of the hardware. *)

From S2P Require Import Prelude Bytes Console.

Module ConsoleSpec.
Import Bytes Console.

Implicit Types (s : console).

(** ** Loops over the cells *)

Lemma put_cell_at (A B : list Z) c v s : vga_memory s = A ++ c :: B -> put_cell (len A) v s = Some (with_memory (A ++ v :: B) s).
Proof.
  intros E. unfold put_cell. rewrite E, aset_Some by (rewrite length_app; simpl; lia). rewrite bind_Some_l, Nat2Z.id. do 2 f_equal.
  rewrite insert_app_r_alt by lia. by rewrite Nat.sub_diag.
Qed.

Lemma fill_cells_ok n (A B C : list Z) v s : length B = n -> vga_memory s = A ++ B ++ C ->
  fill_cells n (len A) v s = Some (with_memory (A ++ replicate n v ++ C) s).
Proof.
  revert A B s. induction n as [|n IH]; intros A [|b B] s Hl Hm; simpl in Hl; try lia; cbn [fill_cells replicate].
  { rewrite app_nil_l. simpl in Hm. rewrite <-Hm. by destruct s. }
  cbn [app] in Hm. rewrite (put_cell_at A (B ++ C) b v s Hm), bind_Some_l. replace (len A + 1) with (len (A ++ [v])) by (rewrite length_app; simpl; lia).
  rewrite (IH (A ++ [v]) B); [by rewrite <-app_assoc|lia|]. cbn [vga_memory with_memory]. by rewrite <-app_assoc.
Qed.

Lemma move_cells_ok n (A M : list Z) s : (n + 80 <= length M)%nat -> vga_memory s = A ++ M ->
  move_cells n (len A) s = Some (with_memory (A ++ take n (drop 80 M) ++ drop n M) s).
Proof.
  revert A M s. induction n as [|n IH]; intros A M s Hl Hm; cbn [move_cells].
  { rewrite take_0, drop_0. simpl. rewrite <-Hm. by destruct s. }
  destruct M as [|c M]; [simpl in Hl; lia|]. assert (length (A ++ c :: M) = length A + S (length M))%nat as Hlen by (by rewrite length_app).
  destruct (aget_Some (vga_memory s) (len A + VGA_WIDTH)) as [v Hv]; [rewrite Hm, Hlen; unfold VGA_WIDTH; simpl in Hl; lia|]. rewrite Hv, bind_Some_l.
  rewrite (put_cell_at A M c v s Hm), bind_Some_l. replace (len A + 1) with (len (A ++ [v])) by (rewrite length_app; simpl; lia).
  rewrite (IH (A ++ [v]) M); [|simpl in Hl; lia|cbn [vga_memory with_memory]; by rewrite <-app_assoc].
  unfold aget, VGA_WIDTH in Hv. destruct (Z.ltb_spec (len A + 80) 0); [lia|]. rewrite Hm in Hv.
  rewrite lookup_app_r in Hv by lia. replace (Z.to_nat (len A + 80) - length A)%nat with 80%nat in Hv by lia.
  change (drop 80 (c :: M)) with (drop 79 M). change ((c :: M) !! 80%nat) with (M !! 79%nat) in Hv. rewrite (drop_S M v 79 Hv). by rewrite <-app_assoc.
Qed.

(** ** Rows *)

Notation row := (list Z).
Definition blank (attr : Z) : row := replicate 80 (cell attr 32).

Definition wide (rs : list row) : Prop := Forall (fun r => length r = 80%nat) rs.

Lemma concat_length rs : wide rs -> length (concat rs) = (80 * length rs)%nat.
Proof. induction 1 as [|r rs Hr _ IH]; [done|]. simpl. rewrite length_app, IH, Hr. lia. Qed.

(** A cell of the screen in a list of rows. *)
Definition put_row (x y : nat) (v : Z) (rs : list row) : list row := alter (fun r => <[x := v]> r) y rs.

Lemma put_row_wide x y v rs : wide rs -> wide (put_row x y v rs).
Proof. intros H. apply Forall_alter; [done|]. intros r _ Hr. by rewrite length_insert. Qed.

Lemma put_cell_row x y v rs s : wide rs -> vga_memory s = concat rs -> (x < 80)%nat -> (y < length rs)%nat ->
  put_cell (Z.of_nat y * 80 + Z.of_nat x) v s = Some (with_memory (concat (put_row x y v rs)) s).
Proof.
  intros Hw Hm Hx Hy. destruct (lookup_lt_is_Some_2 rs y Hy) as [r Hr]. pose proof (list_elem_of_split_length rs y r Hr) as (r1 & r2 & -> & Hr1).
  apply Forall_app in Hw as [Hw1 Hw2]. apply Forall_cons in Hw2 as [Hr80 Hw2]. rewrite concat_app in Hm. cbn [concat] in Hm.
  destruct (lookup_lt_is_Some_2 r x ltac:(lia)) as [c Hc]. destruct (list_elem_of_split_length r x c Hc) as (a & b & -> & Ha).
  rewrite <-app_assoc in Hm. cbn [app] in Hm. rewrite app_assoc in Hm. replace (Z.of_nat y * 80 + Z.of_nat x) with (len (concat r1 ++ a)) by (rewrite length_app, concat_length by done; lia).
  rewrite (put_cell_at _ _ c v s Hm). do 2 f_equal. unfold put_row. subst y x. rewrite alter_app_r_alt by lia. rewrite Nat.sub_diag. cbn [alter list_alter].
  rewrite insert_app_r_alt, Nat.sub_diag by lia. cbn [insert list_insert]. rewrite concat_app. cbn [concat]. by rewrite <-!app_assoc.
Qed.

(** ** Paper *)

(** All lines since the start, of which the last 25 are on the screen; the cursor, relative
    to the screen; the attribute; and the saved cursor. *)
Record paper := mk_paper { rows : list row; px : Z; py : Z; pattr : Z; psaved : Z * Z }.
Implicit Types (p : paper).

Definition top p : nat := length (rows p) - 25.
Definition screen p : list row := drop (top p) (rows p).

Record rep s p : Prop := {
  rp_rows : (25 <= length (rows p))%nat;
  rp_wide : wide (rows p);
  rp_memory : vga_memory s = concat (screen p);
  rp_x : console_x s = px p;
  rp_y : console_y s = py p;
  rp_attr : console_attr s = pattr p;
  rp_saved : (saved_x s, saved_y s) = psaved p;
  rp_cursor : 0 <= px p < 80 /\ 0 <= py p < 25
}.

Lemma screen_length s p : rep s p -> length (screen p) = 25%nat /\ wide (screen p).
Proof. intros H. pose proof (rp_rows _ _ H). unfold screen, top. rewrite length_drop. split; [lia|]. apply Forall_drop, H. Qed.

Definition at_ (x y : Z) p : paper := mk_paper (rows p) x y (pattr p) (psaved p).

(** A character at the cursor. *)
Definition p_put (v : Z) p : paper := mk_paper (put_row (Z.to_nat (px p)) (top p + Z.to_nat (py p)) v (rows p)) (px p) (py p) (pattr p) (psaved p).

(** The next line, which is a new one at the end of the screen. *)
Definition p_line p : paper :=
  if py p + 1 <? 25 then at_ 0 (py p + 1) p
  else mk_paper (rows p ++ [blank (pattr p)]) 0 (py p) (pattr p) (psaved p).

Definition p_char (c : Z) p : paper :=
  if c =? 10 then p_line p
  else if c =? 13 then at_ 0 (py p) p
  else if c =? 8 then
    p_put (cell (pattr p) 32) (if 0 <? px p then at_ (px p - 1) (py p) p else if 0 <? py p then at_ 79 (py p - 1) p else p)
  else if c =? 9 then if (px p / 8 + 1) * 8 <? 80 then at_ ((px p / 8 + 1) * 8) (py p) p else p_line p
  else let p := p_put (cell (pattr p) c) p in if px p + 1 <? 80 then at_ (px p + 1) (py p) p else p_line p.

Lemma rep_outs s p : rep s p -> rep (update_hardware_cursor s) p.
Proof. unfold update_hardware_cursor. intros []. destruct (cursor_visible s =? 0); by split. Qed.

Lemma rep_at x y s p : rep s p -> 0 <= x < 80 -> 0 <= y < 25 -> rep (with_cursor x y s) (at_ x y p).
Proof. intros []. by split. Qed.

Lemma screen_put v p : (25 <= length (rows p))%nat -> screen (p_put v p) = put_row (Z.to_nat (px p)) (Z.to_nat (py p)) v (screen p).
Proof.
  intros Hl. unfold screen, top, p_put, put_row. cbn [rows]. rewrite length_alter. fold (top p). rewrite <-(take_drop (top p) (rows p)) at 1.
  assert (length (take (top p) (rows p)) = top p) as Ht by (rewrite length_take; unfold top; lia).
  rewrite alter_app_r_alt by lia. rewrite drop_app_length' by lia. f_equal. lia.
Qed.

Lemma console_put_ok v s p : rep s p ->
  exists s', put_cell (u32 (console_y s * VGA_WIDTH + console_x s)) v s = Some s' /\ rep s' (p_put v p) /\ console_attr s' = console_attr s.
Proof.
  intros H. pose proof (rp_cursor _ _ H) as [Hx Hy]. destruct (screen_length _ _ H) as [Hl Hw]. rewrite (rp_x _ _ H), (rp_y _ _ H). unfold VGA_WIDTH. rewrite u32_small by lia.
  pose proof (put_cell_row (Z.to_nat (px p)) (Z.to_nat (py p)) v (screen p) s Hw (rp_memory _ _ H) ltac:(lia) ltac:(lia)) as E. rewrite !Z2Nat.id in E by lia. rewrite E.
  eexists. split; [done|]. split; [|done]. destruct H. split; try done; cbn [rows p_put vga_memory with_memory].
  - unfold put_row. by rewrite length_alter.
  - by apply put_row_wide.
  - by rewrite screen_put.
Qed.

Lemma tail_drop n (l : list row) : tail (drop n l) = drop (S n) l.
Proof. revert l. induction n as [|n IH]; intros [|r l]; try done. apply IH. Qed.

Lemma scroll_ok s rs : length rs = 25%nat -> wide rs -> vga_memory s = concat rs ->
  console_scroll s = Some (with_cursor (console_x s) (u32 (console_y s - 1)) (with_memory (concat (tail rs ++ [blank (console_attr s)])) s)).
Proof.
  intros Hl Hw Hm. destruct rs as [|r rs]; [done|]. apply Forall_cons in Hw as [Hr Hw]. cbn [concat tail] in *. pose proof (concat_length rs Hw) as Hc. simpl in Hl.
  unfold console_scroll. change 0 with (len (@nil Z)). rewrite (move_cells_ok _ [] (vga_memory s) s); [|rewrite Hm, length_app, Hc; unfold VGA_WIDTH, VGA_HEIGHT; lia|done].
  rewrite bind_Some_l. change (Z.to_nat (VGA_WIDTH * (VGA_HEIGHT - 1))) with 1920%nat. rewrite Hm, drop_app_length' by lia. rewrite firstn_all2 by lia. cbn [app].
  change ((VGA_HEIGHT - 1) * VGA_WIDTH) with (Z.of_nat 1920). replace 1920%nat with (length (concat rs)) by lia.
  rewrite (fill_cells_ok _ (concat rs) (drop (length (concat rs)) (r ++ concat rs)) []).
  - rewrite bind_Some_l, app_nil_r. cbn [console_x console_y with_memory console_attr]. rewrite concat_app. cbn [concat]. rewrite app_nil_r. done.
  - rewrite length_drop, length_app. unfold VGA_WIDTH. lia.
  - cbn [vga_memory with_memory]. by rewrite app_nil_r.
Qed.

Lemma next_line_ok s p : rep s p -> exists s', next_line s = Some s' /\ rep s' (p_line p).
Proof.
  intros H. pose proof (rp_cursor _ _ H) as [Hx Hy]. destruct (screen_length _ _ H) as [Hl Hw]. unfold next_line, p_line. rewrite (rp_y _ _ H), u32_small by lia. cbn [console_y with_cursor].
  unfold VGA_HEIGHT. destruct (Z.leb_spec 25 (py p + 1)), (Z.ltb_spec (py p + 1) 25); try lia.
  - assert (py p = 24) as E24 by lia. rewrite (scroll_ok _ (screen p) Hl Hw); [|apply H]. cbn [console_y with_cursor]. rewrite u32_small by lia. eexists. split; [done|].
    pose proof (rp_rows _ _ H) as Hr. destruct H as [R1 R2 R3 R4 R5 R6 R7 R8]. split; cbn [rows px py pattr psaved vga_memory console_x console_y console_attr saved_x saved_y with_cursor with_memory]; try done.
    + rewrite length_app. simpl. lia.
    + apply Forall_app. split; [done|]. constructor; [|constructor]. apply length_replicate.
    + f_equal. rewrite R6. unfold screen, top. cbn [rows]. rewrite length_app. simpl length. rewrite drop_app_le by lia. f_equal. rewrite tail_drop. f_equal. lia.
    + lia.
  - eexists. split; [done|]. apply rep_at; [done|lia|lia].
Qed.

(** ** Characters *)

Lemma tab_stop x : 0 <= x < 80 -> Z.land (u32 (x + 8)) (Z.lnot 7) = (x / 8 + 1) * 8.
Proof.
  intros Hx. rewrite u32_small by lia. change 7 with (Z.ones 3). rewrite <-Z.ldiff_land, Z.ldiff_ones_r by lia. rewrite Z.shiftl_mul_pow2, Z.shiftr_div_pow2 by lia.
  change (2 ^ 3) with 8. by rewrite <-(Z.div_add x 1 8) by lia.
Qed.

Lemma putchar_ok c s p : rep s p -> exists s', console_putchar c s = Some s' /\ rep s' (p_char c p).
Proof.
  intros H. pose proof (rp_cursor _ _ H) as [Hx Hy]. pose proof (rp_x _ _ H) as Ex. pose proof (rp_y _ _ H) as Ey. unfold console_putchar, p_char.
  destruct (Z.eqb_spec c 10).
  { destruct (next_line_ok s p H) as (s1 & E & H1). unfold console_newline. rewrite E, bind_Some_l. eexists. split; [done|by apply rep_outs]. }
  destruct (Z.eqb_spec c 13). { rewrite Ey. eexists. split; [done|]. apply rep_at; (done || lia). }
  destruct (Z.eqb_spec c 8).
  { unfold console_backspace. rewrite Ex, Ey. set (s0 := if 0 <? px p then _ else _). set (p0 := if 0 <? px p then _ else _).
    assert (rep s0 p0 /\ console_attr s0 = console_attr s /\ pattr p0 = pattr p) as (H0 & Ea & Ep).
    { unfold s0, p0. destruct (Z.ltb_spec 0 (px p)); [rewrite u32_small by lia; split; [apply rep_at; (done || lia)|done]|].
      destruct (Z.ltb_spec 0 (py p)); [|done]. rewrite u32_small by lia. split; [apply rep_at; (done || (unfold VGA_WIDTH; lia))|done]. }
    cbv zeta. destruct (console_put_ok (cell (console_attr s0) 32) s0 p0 H0) as (s1 & E & H1 & _). rewrite E, bind_Some_l. eexists. split; [done|]. apply rep_outs.
    rewrite Ea, (rp_attr _ _ H) in H1. exact H1. }
  destruct (Z.eqb_spec c 9).
  { unfold console_tab. rewrite Ex, tab_stop by lia. cbn [console_x with_cursor]. unfold VGA_WIDTH. pose proof (Z.div_pos (px p) 8 ltac:(lia) ltac:(lia)).
    destruct (Z.leb_spec 80 ((px p / 8 + 1) * 8)), (Z.ltb_spec ((px p / 8 + 1) * 8) 80); try lia.
    - destruct (next_line_ok s p H) as (s1 & E & Hl1). change (next_line (with_cursor ((px p / 8 + 1) * 8) (console_y s) s)) with (next_line s). rewrite E, bind_Some_l.
      eexists. split; [done|by apply rep_outs].
    - rewrite bind_Some_l. eexists. split; [done|]. apply rep_outs. rewrite Ey. apply rep_at; (done || lia). }
  destruct (console_put_ok (cell (console_attr s) c) s p H) as (s1 & E & H1 & Ea). rewrite E, bind_Some_l, <-(rp_attr _ _ H). cbv zeta.
  pose proof (rp_x _ _ H1) as Ex1. pose proof (rp_y _ _ H1) as Ey1. rewrite Ex1, Ey1. cbn [px py p_put]. rewrite u32_small by lia. cbn [console_x with_cursor]. unfold VGA_WIDTH.
  destruct (Z.leb_spec 80 (px p + 1)), (Z.ltb_spec (px p + 1) 80); try lia.
  - destruct (next_line_ok s1 _ H1) as (s2 & E2 & Hl2). assert (next_line (with_cursor (px p + 1) (py p) s1) = next_line s1) as -> by (unfold next_line; cbn [console_y with_cursor]; by rewrite Ey1).
    rewrite E2, bind_Some_l. eexists. split; [done|by apply rep_outs].
  - rewrite bind_Some_l. eexists. split; [done|]. apply rep_outs, rep_at; (done || lia).
Qed.

Fixpoint p_text (cs : list Z) p : paper := match cs with [] => p | c :: cs => p_text cs (p_char c p) end.

Lemma put_all_ok cs s p : rep s p -> exists s', put_all cs s = Some s' /\ rep s' (p_text cs p).
Proof.
  revert s p. induction cs as [|c cs IH]; intros s p H; [by exists s|]. destruct (putchar_ok c s p H) as (s1 & E & H1). cbn [put_all p_text].
  rewrite E, bind_Some_l. by apply IH.
Qed.

(** A string with its zero, and what is behind it. *)
Lemma write_put cs rest s : Forall (fun c => c <> 0) cs -> console_write (cs ++ 0 :: rest) s = put_all cs s.
Proof.
  intros H. revert s. induction H as [|c cs Hc _ IH]; intros s; [done|]. cbn [app console_write put_all]. destruct (Z.eqb_spec c 0); [done|].
  destruct (console_putchar c s); [|done]. apply IH.
Qed.

(** ** Numbers *)

(** What a digit stands for, and what a numeral does. *)
Definition digit_value (c : Z) : Z := if c <? 58 then c - 48 else c - 55.
Definition parse (b : Z) (cs : list Z) : Z := foldl (fun n c => n * b + digit_value c) 0 cs.

(** A numeral of [n]: digits of the base without a leading zero. *)
Definition numeral (b n : Z) (cs : list Z) : Prop :=
  parse b cs = n /\ Forall (fun c => 0 <= digit_value c < b) cs /\ match cs with [] => False | c :: cs => cs = [] \/ digit_value c <> 0 end.

Lemma parse_snoc b cs c : parse b (cs ++ [c]) = parse b cs * b + digit_value c.
Proof. unfold parse. by rewrite foldl_snoc. Qed.

Section Digits.
Context (b : Z) (Hb : 2 <= b) (next digit : Z -> Z) (Hnext : forall n, 0 <= n -> next n = n / b) (Hdigit : forall n, 0 <= n -> digit_value (digit n) = n mod b).

(** The loop stores the numeral of what is left of [n] behind what it has stored. *)
Lemma digits_ok k fuel cap n buf : 0 < n < b ^ Z.of_nat k -> (k < fuel)%nat -> (length buf + k <= cap)%nat ->
  exists ds, digits fuel cap next digit n buf = Some (buf ++ ds) /\ numeral b n (rev ds).
Proof.
  revert fuel n buf. induction k as [|k IH]; intros [|fuel] n buf Hn Hf Hc; try lia. cbn [digits]. destruct (Z.ltb_spec 0 n); [|lia].
  destruct (Nat.ltb_spec (length buf) cap); [|lia]. rewrite Hnext by lia. pose proof (Z.mod_pos_bound n b ltac:(lia)) as Hm. pose proof (Hdigit n ltac:(lia)) as Hdn.
  destruct (decide (n / b = 0)) as [E0|E0].
  - exists [digit n]. rewrite E0. destruct fuel as [|fuel]; [lia|]. split; [done|]. split; [|split; [constructor; [by rewrite Hdn|constructor]|by left]].
    unfold parse. cbn. rewrite Hdn. pose proof (Z.div_mod n b ltac:(lia)). lia.
  - assert (0 < n / b < b ^ Z.of_nat k) as Hq.
    { split; [pose proof (Z.div_pos n b); lia|]. apply Z.div_lt_upper_bound; [lia|]. rewrite <-Z.pow_succ_r by lia. replace (Z.succ (Z.of_nat k)) with (Z.of_nat (S k)) by lia. lia. }
    destruct (IH fuel (n / b) (buf ++ [digit n]) Hq ltac:(lia)) as (ds & E & Hp & Hd & Hl); [rewrite length_app; simpl; lia|].
    exists (digit n :: ds). rewrite E, <-app_assoc. split; [done|]. cbn [rev]. split; [|split].
    + rewrite parse_snoc, Hp, Hdn. pose proof (Z.div_mod n b ltac:(lia)). lia.
    + apply Forall_app. split; [done|]. constructor; [by rewrite Hdn|constructor].
    + destruct (rev ds) as [|c cs]; [done|]. cbn [app]. destruct Hl as [->|]; [|by right]. right. unfold parse in Hp. cbn in Hp. lia.
Qed.

Lemma print_number_ok k cap prefix n s p : rep s p -> 0 < n < b ^ Z.of_nat k -> (k <= 32)%nat -> (k <= cap)%nat -> Forall (fun c => c <> 0) prefix ->
  exists cs s', print_number cap next digit (match prefix with [] => [] | _ => prefix ++ [0] end) n s = Some s' /\ rep s' (p_text (prefix ++ cs) p) /\ numeral b n cs.
Proof.
  intros H Hn Hk Hc Hp. unfold print_number. destruct (digits_ok k 33 cap n [] Hn ltac:(lia) ltac:(simpl; lia)) as (ds & E & Hd). rewrite E, bind_Some_l. exists (rev ds).
  destruct (put_all_ok (prefix ++ rev ds) s p H) as (s' & E' & H'). exists s'. split; [|done].
  assert (forall cs ds s, put_all (cs ++ ds) s = put_all cs s ≫= put_all ds) as Happ.
  { clear. induction cs as [|c cs IH]; intros ds s; [done|]. cbn [app put_all]. destruct (console_putchar c s); [|done]. apply IH. }
  rewrite Happ in E'. destruct prefix as [|c prefix]; [exact E'|]. cbn [app] in *. change (c :: prefix ++ [0]) with ((c :: prefix) ++ 0 :: []). rewrite write_put by done. exact E'.
Qed.
End Digits.

Lemma hex_digit_value d : 0 <= d < 16 -> digit_value (hex_digit d) = d.
Proof. intros Hd. unfold hex_digit, digit_value. destruct (Z.ltb_spec d 10); [destruct (Z.ltb_spec (48 + d) 58)|destruct (Z.ltb_spec (65 + d - 10) 58)]; lia. Qed.

Lemma low_digit n k : 0 <= n -> 0 <= k -> Z.land n (2 ^ k - 1) = n mod 2 ^ k.
Proof. intros Hn Hk. rewrite <-Z.land_ones by lia. f_equal. rewrite Z.ones_equiv. lia. Qed.

(** Each of the four functions prints every 32-bit number as its numeral without leading
    zeros, behind the prefix of its base, and never writes past its buffer of digits. *)
Theorem numbers_printed n s p : rep s p -> 0 <= n < 2 ^ 32 ->
  (exists cs s', console_print_dec n s = Some s' /\ rep s' (p_text cs p) /\ numeral 10 n cs) /\
  (exists cs s', console_print_hex n s = Some s' /\ rep s' (p_text ([48; 120] ++ cs) p) /\ numeral 16 n cs) /\
  (exists cs s', console_print_bin n s = Some s' /\ rep s' (p_text ([48; 98] ++ cs) p) /\ numeral 2 n cs) /\
  exists cs s', console_print_oct n s = Some s' /\ rep s' (p_text ([48; 111] ++ cs) p) /\ numeral 8 n cs.
Proof.
  intros H Hn. unfold console_print_dec, console_print_hex, console_print_bin, console_print_oct. destruct (Z.eqb_spec n 0) as [->|Hn0].
  - assert (forall b, 2 <= b -> numeral b 0 [48]) as H0 by (intros b Hb; split; [done|]; split; [repeat constructor; cbn; lia|by left]).
    assert (forall c, c <> 0 -> exists cs s', console_write [48; c; 48; 0] s = Some s' /\ rep s' (p_text ([48; c] ++ cs) p) /\ cs = [48]) as Hw.
    { intros c Hc. destruct (put_all_ok [48; c; 48] s p H) as (s' & E & H'). exists [48], s'. split; [|done]. rewrite <-E. apply (write_put [48; c; 48] []). by repeat constructor. }
    split; [destruct (putchar_ok 48 s p H) as (s' & E & H'); exists [48], s'; split; [done|]; split; [done|apply H0; lia]|].
    split; [|split]; (edestruct Hw as (cs & s' & E & H' & ->); [|exists [48], s'; split; [exact E|]; split; [done|apply H0; lia]]; done).
  - split; [|split; [|split]].
    + apply (print_number_ok 10 ltac:(lia) (fun n => n / 10) (fun n => 48 + n mod 10)) with (k := 10%nat) (prefix := []); try done; try lia.
      intros m Hm. unfold digit_value. pose proof (Z.mod_pos_bound m 10 ltac:(lia)). destruct (Z.ltb_spec (48 + m mod 10) 58); lia.
    + apply (print_number_ok 16 ltac:(lia) (fun n => Z.shiftr n 4) (fun n => hex_digit (Z.land n 15))) with (k := 8%nat) (prefix := [48; 120]); try done; try lia.
      * intros m Hm. by rewrite Z.shiftr_div_pow2 by lia.
      * intros m Hm. change (Z.land m 15) with (Z.land m (2 ^ 4 - 1)). rewrite low_digit by lia. apply hex_digit_value, Z.mod_pos_bound. lia.
      * by repeat constructor.
    + apply (print_number_ok 2 ltac:(lia) (fun n => Z.shiftr n 1) (fun n => 48 + Z.land n 1)) with (k := 32%nat) (prefix := [48; 98]); try done; try lia.
      * intros m Hm. by rewrite Z.shiftr_div_pow2 by lia.
      * intros m Hm. change (Z.land m 1) with (Z.land m (2 ^ 1 - 1)). rewrite low_digit by lia. unfold digit_value. pose proof (Z.mod_pos_bound m 2 ltac:(lia)). change (2 ^ 1) with 2. destruct (Z.ltb_spec (48 + m mod 2) 58); lia.
      * by repeat constructor.
    + apply (print_number_ok 8 ltac:(lia) (fun n => Z.shiftr n 3) (fun n => 48 + Z.land n 7)) with (k := 11%nat) (prefix := [48; 111]); try done; try lia.
      * intros m Hm. by rewrite Z.shiftr_div_pow2 by lia.
      * intros m Hm. change (Z.land m 7) with (Z.land m (2 ^ 3 - 1)). rewrite low_digit by lia. unfold digit_value. change (2 ^ 3) with 8. pose proof (Z.mod_pos_bound m 8 ltac:(lia)). destruct (Z.ltb_spec (48 + m mod 8) 58); lia.
      * by repeat constructor.
Qed.

(** ** Operations *)

Lemma console_clear_ok s p : rep s p -> exists s', console_clear s = Some s' /\
  rep s' (mk_paper (take (top p) (rows p) ++ replicate 25 (blank (pattr p))) 0 0 (pattr p) (psaved p)).
Proof.
  intros H. destruct (screen_length _ _ H) as [Hl Hw]. pose proof (rp_rows _ _ H) as Hr. unfold console_clear.
  change 0 with (len (@nil Z)) at 1. rewrite (fill_cells_ok _ [] (vga_memory s) []).
  - rewrite bind_Some_l. eexists. split; [done|]. apply rep_outs. destruct H as [R1 R2 R3 R4 R5 R6 R7 R8].
    assert (length (take (top p) (rows p)) = top p) as Ht by (rewrite length_take; unfold top; lia).
    split; cbn [rows px py pattr psaved]; try done.
    + rewrite length_app. simpl. lia.
    + apply Forall_app. split; [by apply Forall_take|]. apply Forall_replicate, length_replicate.
    + unfold screen. replace (top _) with (top p) by (unfold top at 2; cbn [rows]; rewrite length_app, Ht, length_replicate; lia). cbn [rows].
      rewrite drop_app_length' by lia. rewrite R6. reflexivity.
  - rewrite (rp_memory _ _ H), concat_length, Hl by done. reflexivity.
  - by rewrite app_nil_r.
Qed.

Inductive op :=
  | Put (c : Z) | Write (cs : list Z) | WriteAttr (cs : list Z) (a : Z) | SetAttr (a : Z) | SetCursor (x y : Z) | Save | Restore | Clear
  | Show (r1 r2 : Z) | Hide.

Definition perform (o : op) s : option console :=
  match o with
  | Put c => console_putchar c s
  | Write cs => console_write (cs ++ [0]) s
  | WriteAttr cs a => console_write_attr (cs ++ [0]) a s
  | SetAttr a => Some (console_set_attr a s)
  | SetCursor x y => Some (console_set_cursor x y s)
  | Save => Some (console_save_cursor s)
  | Restore => Some (console_restore_cursor s)
  | Clear => console_clear s
  | Show r1 r2 => Some (console_show_cursor r1 r2 s)
  | Hide => Some (console_hide_cursor s)
  end.

Definition colored (a : Z) p : paper := mk_paper (rows p) (px p) (py p) a (psaved p).
Definition moved (x y : Z) p : paper := at_ (Z.min x 79) (Z.min y 24) p.

Definition spec (o : op) p : paper :=
  match o with
  | Put c => p_char c p
  | Write cs => p_text cs p
  | WriteAttr cs a => colored (pattr p) (p_text cs (colored a p))
  | SetAttr a => colored a p
  | SetCursor x y => moved x y p
  | Save => mk_paper (rows p) (px p) (py p) (pattr p) (px p, py p)
  | Restore => moved (psaved p).1 (psaved p).2 p
  | Clear => mk_paper (take (top p) (rows p) ++ replicate 25 (blank (pattr p))) 0 0 (pattr p) (psaved p)
  | Show _ _ | Hide => p
  end.

(** Strings are terminated, and coordinates are unsigned. *)
Definition allowed (o : op) p : Prop :=
  match o with
  | Write cs | WriteAttr cs _ => Forall (fun c => c <> 0) cs
  | SetCursor x y => 0 <= x /\ 0 <= y
  | Restore => 0 <= (psaved p).1 /\ 0 <= (psaved p).2
  | _ => True
  end.

Lemma set_cursor_ok x y s p : rep s p -> 0 <= x -> 0 <= y -> rep (console_set_cursor x y s) (moved x y p).
Proof.
  intros H Hx Hy. unfold console_set_cursor, moved, VGA_WIDTH, VGA_HEIGHT. apply rep_outs.
  replace (if 80 <=? x then 80 - 1 else x) with (Z.min x 79) by (destruct (Z.leb_spec 80 x); lia).
  replace (if 25 <=? y then 25 - 1 else y) with (Z.min y 24) by (destruct (Z.leb_spec 25 y); lia). apply rep_at; (done || lia).
Qed.

Lemma rep_colored a s p : rep s p -> rep (with_attr a s) (colored a p).
Proof. intros []. by split. Qed.

Lemma console_perform_ok o s p : rep s p -> allowed o p -> exists s', perform o s = Some s' /\ rep s' (spec o p).
Proof.
  intros H Ha. destruct o as [c|cs|cs a|a|x y| | | |r1 r2|]; cbn [perform spec allowed] in *.
  - by apply putchar_ok.
  - rewrite write_put by done. by apply put_all_ok.
  - unfold console_write_attr. rewrite write_put by done. destruct (put_all_ok cs _ _ (rep_colored a s p H)) as (s' & E & H'). rewrite E, bind_Some_l.
    eexists. split; [done|]. rewrite (rp_attr _ _ H). by apply rep_colored.
  - eexists. split; [done|]. by apply rep_colored.
  - destruct Ha. eexists. split; [done|]. by apply set_cursor_ok.
  - eexists. split; [done|]. destruct H as [R1 R2 R3 R4 R5 R6 R7 R8]. split; try done. cbn. by rewrite R4, R5.
  - eexists. split; [done|]. unfold console_restore_cursor. rewrite <-(rp_saved _ _ H) in *. destruct Ha. by apply set_cursor_ok.
  - by apply console_clear_ok.
  - eexists. split; [done|]. destruct H. by split.
  - eexists. split; [done|]. destruct H. by split.
Qed.

Fixpoint run (os : list op) s : option console := match os with [] => Some s | o :: os => s ← perform o s; run os s end.
Fixpoint spec_run (os : list op) p : paper := match os with [] => p | o :: os => spec_run os (spec o p) end.
Fixpoint all_allowed (os : list op) p : Prop := match os with [] => True | o :: os => allowed o p /\ all_allowed os (spec o p) end.

(** C35: any sequence of characters, strings, cursor movements, colours and clearings leaves
    on the screen the last 25 lines of a roll of paper on which the same characters were
    put: lines are 80 cells wide, a line that leaves the screen at the top is never changed
    again, a new one is blank in the current colours, and video memory is never left. *)
Theorem console_refines_paper os s p : rep s p -> all_allowed os p -> exists s', run os s = Some s' /\ rep s' (spec_run os p).
Proof.
  revert s p. induction os as [|o os IH]; intros s p H Ha; [by exists s|]. destruct Ha as [Ho Ha]. destruct (console_perform_ok o s p H Ho) as (s1 & E & H1).
  cbn [run spec_run]. rewrite E, bind_Some_l. by apply IH.
Qed.

(** ** The cursor of the hardware *)

(** The CRT controller: a write to port 0x3D4 selects a register, one to 0x3D5 sets it. *)
Definition crt_step (r : Z * gmap Z Z) (o : Z * Z) : Z * gmap Z Z :=
  if o.1 =? 980 then (o.2, r.2) else if o.1 =? 981 then (r.1, <[r.1 := o.2]> r.2) else r.
Definition crt s : gmap Z Z := (foldl crt_step (0, ∅) (outs s)).2.

(** The cursor is shown where the next character goes. *)
Definition shows s : Prop :=
  cursor_visible s = 0 \/ (crt s !! 14 = Some (Z.shiftr (console_y s * 80 + console_x s) 8) /\ crt s !! 15 = Some (u8 (console_y s * 80 + console_x s))).

Lemma move_shows s : 0 <= console_x s < 80 -> 0 <= console_y s < 25 -> shows (move_hardware_cursor s).
Proof.
  intros Hx Hy. right. unfold move_hardware_cursor, VGA_WIDTH. rewrite (u32_small (_ + _)), u16_small by lia. unfold crt. cbn [outs outb console_x console_y].
  rewrite !foldl_snoc. destruct (foldl crt_step _ (outs s)) as [i r]. cbn [crt_step fst snd Z.eqb Pos.eqb]. change (u8 14) with 14. change (u8 15) with 15. split.
  - rewrite lookup_insert_ne, lookup_insert_eq by done. f_equal. apply u8_small. rewrite Z.shiftr_div_pow2 by lia. split; [apply Z.div_pos; lia|apply Z.div_lt_upper_bound; lia].
  - apply lookup_insert_eq.
Qed.

Lemma update_shows s p : rep (update_hardware_cursor s) p -> shows (update_hardware_cursor s).
Proof.
  intros H. pose proof (rp_cursor _ _ H). pose proof (rp_x _ _ H). pose proof (rp_y _ _ H). unfold update_hardware_cursor in *. destruct (Z.eqb_spec (cursor_visible s) 0); [by left|].
  cbn in *. apply move_shows; lia.
Qed.

Lemma putchar_updates c s s' : c <> 13 -> console_putchar c s = Some s' -> exists s0, s' = update_hardware_cursor s0.
Proof.
  intros Hc. unfold console_putchar, console_newline, console_backspace, console_tab. destruct (c =? 10); [intros (s1 & _ & [= <-])%bind_Some; by exists s1|].
  destruct (Z.eqb_spec c 13); [done|]. destruct (c =? 8); [intros (s1 & _ & [= <-])%bind_Some; by exists s1|].
  destruct (c =? 9); [intros (s1 & _ & [= <-])%bind_Some; by exists s1|]. intros (s1 & _ & (s2 & _ & [= <-])%bind_Some)%bind_Some. by exists s2.
Qed.

Lemma putchar_shows c s s' p : rep s p -> c <> 13 -> console_putchar c s = Some s' -> shows s'.
Proof.
  intros H Hc E. destruct (putchar_updates c s s' Hc E) as [s0 ->]. destruct (putchar_ok c s p H) as (s1 & E1 & H1). assert (s1 = update_hardware_cursor s0) as -> by congruence.
  by eapply update_shows.
Qed.

Lemma put_all_shows cs s s' p : rep s p -> Forall (fun c => c <> 13) cs -> shows s -> put_all cs s = Some s' -> shows s'.
Proof.
  intros H Hc. revert s p H. induction Hc as [|c cs Hc _ IH]; intros s p H Hs; cbn [put_all]; [by intros [= <-]|].
  intros (s1 & E1 & E)%bind_Some. destruct (putchar_ok c s p H) as (s1' & E1' & H1). assert (s1' = s1) as -> by congruence. eapply IH; [exact H1| |exact E]. by apply (putchar_shows c s s1 p).
Qed.

Definition no_return (o : op) : Prop := match o with Put c => c <> 13 | Write cs | WriteAttr cs _ => Forall (fun c => c <> 13) cs | _ => True end.

(** The cursor of the hardware, while visible, is where the next character goes, and
    every operation except a carriage return keeps it there. *)
Theorem hardware_cursor_follows o s p : rep s p -> allowed o p -> no_return o -> shows s -> exists s', perform o s = Some s' /\ shows s'.
Proof.
  intros H Ha Hn Hs. destruct (console_perform_ok o s p H Ha) as (s' & E & H'). exists s'. split; [done|].
  destruct o as [c|cs|cs a|a|x y| | | |r1 r2|]; cbn [perform no_return allowed] in *.
  - by apply (putchar_shows c s s' p).
  - rewrite write_put in E by done. by apply (put_all_shows cs s s' p).
  - unfold console_write_attr in E. rewrite write_put in E by done. apply bind_Some in E as (s1 & E1 & [= <-]).
    pose proof (put_all_shows cs _ s1 _ (rep_colored a s p H) Hn Hs E1) as Hs1. exact Hs1.
  - injection E as <-. exact Hs.
  - injection E as <-. unfold console_set_cursor in *. by eapply update_shows.
  - injection E as <-. exact Hs.
  - injection E as <-. unfold console_restore_cursor, console_set_cursor in *. by eapply update_shows.
  - unfold console_clear in E. apply bind_Some in E as (s1 & _ & [= <-]). by eapply update_shows.
  - injection E as <-. pose proof (rp_cursor _ _ H). unfold console_show_cursor in *. apply move_shows; cbn; rewrite ?(rp_x _ _ H), ?(rp_y _ _ H); lia.
  - injection E as <-. by left.
Qed.

(** ** Where the console goes wrong *)

(** After a carriage return the cursor is still shown where it was. *)
Theorem return_leaves_cursor s p : rep s p -> shows s -> cursor_visible s <> 0 -> console_x s <> 0 -> exists s', console_putchar 13 s = Some s' /\ console_x s' = 0 /\ ~ shows s'.
Proof.
  intros H [?|[_ H2]] Hv Hx; [done|]. pose proof (rp_cursor _ _ H). pose proof (rp_x _ _ H). pose proof (rp_y _ _ H). eexists. split; [done|]. split; [done|].
  intros [?|[_ Hs]]; [done|]. change (crt (with_cursor 0 (console_y s) s)) with (crt s) in Hs. rewrite H2 in Hs. injection Hs as E. cbn [console_x console_y with_cursor] in E.
  unfold u8, wrap in E. pose proof (Z.div_mod (console_y s * 80 + console_x s) (2 ^ 8) ltac:(lia)). pose proof (Z.div_mod (console_y s * 80 + 0) (2 ^ 8) ltac:(lia)). lia.
Qed.

(** A character of 128 or more changes the colours of its cell to all ones. *)
Theorem high_character_attr attr c : 0 <= attr < 256 -> 128 <= c < 256 -> cell attr c = 65280 + c.
Proof.
  intros Ha Hc. unfold cell, s8, swrap. replace ((c + 2 ^ (8 - 1)) mod 2 ^ 8 - 2 ^ (8 - 1)) with (c - 256).
  2:{ rewrite <-(Z.mod_add (c + 2 ^ (8 - 1)) (-1)) by lia. rewrite Z.mod_small by lia. lia. }
  assert (Z.lor (Z.shiftl attr 8) (c - 256) = c - 256) as ->.
  { apply Z.bits_inj'. intros i Hi. rewrite Z.lor_spec, Z.shiftl_spec by done. destruct (Z.lt_ge_cases i 8); [by rewrite Z.testbit_neg_r by lia|].
    assert (Z.testbit (c - 256) i = true) as ->; [|apply orb_true_r]. replace (c - 256) with (Z.lnot (255 - c)) by (unfold Z.lnot; lia). rewrite Z.lnot_spec by lia.
    rewrite Z.bits_above_log2; [done|lia|]. apply Z.le_lt_trans with (Z.log2 255); [apply Z.log2_le_mono; lia|]. change (Z.log2 255) with 7. lia. }
  unfold u16, wrap. rewrite <-(Z.mod_add (c - 256) 1) by lia. rewrite Z.mod_small; lia.
Qed.

(** [console_scroll] of a screen whose cursor is in the first line takes the cursor out of the
    screen; the next character is written outside of video memory. *)
Theorem scroll_at_top_faults s p c : rep s p -> py p = 0 -> c ∉ [8; 9; 10; 13] -> exists s', console_scroll s = Some s' /\ console_y s' = 2 ^ 32 - 1 /\ console_putchar c s' = None.
Proof.
  intros H Hy0 Hc. pose proof (rp_cursor _ _ H) as [Hx Hy]. destruct (screen_length _ _ H) as [Hl Hw]. rewrite (scroll_ok s (screen p) Hl Hw (rp_memory _ _ H)), (rp_x _ _ H), (rp_y _ _ H), Hy0.
  eexists. split; [done|]. split; [done|]. rewrite !not_elem_of_cons in Hc. destruct Hc as (C1 & C2 & C3 & C4 & _). unfold console_putchar.
  destruct (Z.eqb_spec c 10), (Z.eqb_spec c 13), (Z.eqb_spec c 8), (Z.eqb_spec c 9); try done. unfold put_cell. rewrite aset_None; [done|]. right.
  cbn [console_x console_y with_cursor vga_memory with_memory]. change (u32 (0 - 1)) with 4294967295. unfold VGA_WIDTH.
  replace (u32 (4294967295 * 80 + px p)) with (4294967216 + px p) by (unfold u32, wrap; rewrite <-(Z.mod_add (4294967295 * 80 + px p) (-79)) by lia; rewrite Z.mod_small; lia).
  rewrite concat_length; [|apply Forall_app; split; [|constructor; [apply length_replicate|constructor]]].
  - rewrite length_app. destruct (screen p); simpl in *; lia.
  - destruct (screen p); [done|]. by apply Forall_cons in Hw as [_ Hw].
Qed.

(** ** Example *)

Definition ex_console : console := mk_console (concat (replicate 25 (blank 7))) 0 0 7 0 0 1 [].
Definition ex_paper : paper := mk_paper (replicate 25 (blank 7)) 0 0 7 (0, 0).

Lemma ex_console_rep : rep ex_console ex_paper.
Proof. split; try done. apply Forall_replicate, length_replicate. Qed.

Lemma console_refines_paper_witness : exists s', run (repeat (Put 10) 30 ++ [Write [72; 105]; SetCursor 90 3; Save; WriteAttr [33] 12; Restore]) ex_console = Some s' /\
  console_x s' = 79 /\ console_y s' = 3 /\ vga_memory s' !! 1920%nat = Some (cell 7 72) /\ vga_memory s' !! 319%nat = Some (cell 12 33).
Proof.
  destruct (console_refines_paper (repeat (Put 10) 30 ++ [Write [72; 105]; SetCursor 90 3; Save; WriteAttr [33] 12; Restore]) ex_console ex_paper ex_console_rep) as (s' & E & H).
  - cbn [repeat app all_allowed]. do 30 (split; [exact I|]). split; [by repeat constructor|]. split; [simpl; lia|]. split; [exact I|]. split; [by repeat constructor|]. split; [vm_compute; split; discriminate|exact I].
  - exists s'. split; [exact E|]. rewrite (rp_x _ _ H), (rp_y _ _ H), (rp_memory _ _ H). split; [vm_compute; reflexivity|]. split; [vm_compute; reflexivity|]. split; vm_compute; reflexivity.
Defined.

Lemma numbers_printed_witness : exists s' cs, console_print_hex 255 ex_console = Some s' /\ numeral 16 255 cs.
Proof. destruct (numbers_printed 255 ex_console ex_paper ex_console_rep) as (_ & (cs & s' & E & _ & Hn) & _); [lia|]. exists s', cs. split; [exact E|exact Hn]. Defined.

Lemma hardware_cursor_follows_witness : exists s', perform (Put 65) (move_hardware_cursor ex_console) = Some s' /\ shows s'.
Proof.
  apply (hardware_cursor_follows (Put 65) (move_hardware_cursor ex_console) ex_paper).
  - destruct ex_console_rep. by split.
  - exact I.
  - discriminate.
  - apply move_shows; simpl; lia.
Defined.

End ConsoleSpec.
