(* ===== verification/SwapCompress.v ===== *)
(** Compression of swapped pages: [kernel/mm/swap_compress.c]. The run-length code that
    stands for all algorithms, the dispatch over them, and the statistics. *)

From S2P Require Import Prelude Bytes.

Module SwapCompress.
Import Bytes.

Definition EINVAL : Z := 22.
Definition EIO : Z := 5.
Definition ENOSPC : Z := 28.
Definition PAGE_SIZE : Z := 4096.

(** ** The run-length code *)

(** The inner loop: bytes equal to [value] from [src_pos] on, [n] of them known. *)
Fixpoint run_length (fuel : nat) (src : list Z) (in_size src_pos value n : Z) : option Z :=
  match fuel with
  | O => None
  | S fuel =>
      if u32 (src_pos + n) <? in_size then
        b ← aget src (u32 (src_pos + n));
        if (b =? value) && (n <? 255) then run_length fuel src in_size src_pos value (n + 1) else Some n
      else Some n
  end.

Fixpoint compress_loop (fuel : nat) (src dst : list Z) (in_size out_size src_pos dst_pos : Z) : option (Z * list Z) :=
  match fuel with
  | O => None
  | S fuel =>
      if src_pos <? in_size then
        value ← aget src src_pos;
        n ← run_length 256 src in_size src_pos value 1;
        if out_size <? u32 (dst_pos + 2) then Some (- ENOSPC, dst)
        else
          dst ← aset dst dst_pos (u8 n);
          dst ← aset dst (u32 (dst_pos + 1)) value;
          compress_loop fuel src dst in_size out_size (u32 (src_pos + n)) (u32 (dst_pos + 2))
      else Some (s32 dst_pos, dst)
  end.

(** The result is the return value and the output buffer. *)
Definition swap_compress_lz4 (src dst : list Z) (in_size out_size : Z) : option (Z * list Z) :=
  compress_loop (S (Z.to_nat in_size)) src dst in_size out_size 0 0.

(** [n] times [value] from [dst_pos] on. *)
Fixpoint write_run (n : nat) (dst : list Z) (dst_pos value : Z) : option (list Z) :=
  match n with O => Some dst | S n => dst ← aset dst dst_pos value; write_run n dst (u32 (dst_pos + 1)) value end.

Fixpoint decompress_loop (fuel : nat) (src dst : list Z) (in_size out_size src_pos dst_pos : Z) : option (Z * list Z) :=
  match fuel with
  | O => None
  | S fuel =>
      if src_pos <? in_size then
        n ← aget src src_pos;
        value ← aget src (u32 (src_pos + 1));
        if out_size <? u32 (dst_pos + n) then Some (- ENOSPC, dst)
        else
          dst ← write_run (Z.to_nat n) dst dst_pos value;
          decompress_loop fuel src dst in_size out_size (u32 (src_pos + 2)) (u32 (dst_pos + n))
      else Some (s32 dst_pos, dst)
  end.

Definition swap_decompress_lz4 (src dst : list Z) (in_size out_size : Z) : option (Z * list Z) :=
  decompress_loop (S (Z.to_nat in_size)) src dst in_size out_size 0 0.

Definition swap_compress_zlib := swap_compress_lz4.
Definition swap_decompress_zlib := swap_decompress_lz4.
Definition swap_compress_zstd := swap_compress_lz4.
Definition swap_decompress_zstd := swap_decompress_lz4.

(** ** Algorithms and statistics *)

Definition SWAP_COMPRESS_NONE : Z := 0.
Definition SWAP_COMPRESS_LZ4 : Z := 1.
Definition SWAP_COMPRESS_ZLIB : Z := 2.
Definition SWAP_COMPRESS_ZSTD : Z := 3.

Record compress := mk_compress {
  compress_count : Z; compress_bytes_in : Z; compress_bytes_out : Z;
  decompress_count : Z; decompress_bytes_in : Z; decompress_bytes_out : Z;
  current_algo : Z
}.
Implicit Types (c : compress).

(** The two buffers that are allocated here are used nowhere. *)
Definition swap_compress_init : compress := mk_compress 0 0 0 0 0 0 SWAP_COMPRESS_LZ4.

(** The enumeration has no negative constant and is unsigned: only the upper bound can fail. *)
Definition swap_compress_set_algo (algo : Z) c : Z * compress :=
  if (algo <? SWAP_COMPRESS_NONE) || (SWAP_COMPRESS_ZSTD <? algo) then (- EINVAL, c)
  else (0, mk_compress (compress_count c) (compress_bytes_in c) (compress_bytes_out c) (decompress_count c) (decompress_bytes_in c) (decompress_bytes_out c) algo).

Definition swap_compress_get_algo c : Z := current_algo c.

Definition compressed (n k : Z) c : compress :=
  mk_compress (u64 (compress_count c + 1)) (u64 (compress_bytes_in c + n)) (u64 (compress_bytes_out c + k))
    (decompress_count c) (decompress_bytes_in c) (decompress_bytes_out c) (current_algo c).
Definition decompressed (n k : Z) c : compress :=
  mk_compress (compress_count c) (compress_bytes_in c) (compress_bytes_out c)
    (u64 (decompress_count c + 1)) (u64 (decompress_bytes_in c + n)) (u64 (decompress_bytes_out c + k)) (current_algo c).

(** The switch of both functions: copying, or one of the three functions; [None] inside for
    a code that returns at once. *)
Definition by_algorithm (algo : Z) (lz4 zlib zstd : option (Z * list Z)) (inp out : list Z) (in_size out_size : Z) :
    option (Z + Z * list Z) :=
  if algo =? SWAP_COMPRESS_NONE then
    if out_size <? in_size then Some (inl (- ENOSPC)) else out ← blit out 0 inp 0 in_size; Some (inr (s32 in_size, out))
  else if algo =? SWAP_COMPRESS_LZ4 then inr <$> lz4
  else if algo =? SWAP_COMPRESS_ZLIB then inr <$> zlib
  else if algo =? SWAP_COMPRESS_ZSTD then inr <$> zstd
  else Some (inl (- EINVAL)).

Definition swap_compress_page (inp out : option (list Z)) (in_size out_size : Z) c : option (Z * option (list Z) * compress) :=
  match inp, out with
  | Some i, Some o =>
      if (in_size =? 0) || (out_size =? 0) then Some (- EINVAL, out, c)
      else
        r ← by_algorithm (current_algo c) (swap_compress_lz4 i o in_size out_size) (swap_compress_zlib i o in_size out_size)
              (swap_compress_zstd i o in_size out_size) i o in_size out_size;
        match r with
        | inl e => Some (e, out, c)
        | inr (k, o) =>
            if k <=? 0 then
              if out_size <? in_size then Some (- ENOSPC, Some o, c)
              else o ← blit o 0 i 0 in_size; Some (s32 in_size, Some o, compressed in_size (s32 in_size) c)
            else Some (k, Some o, compressed in_size k c)
        end
  | _, _ => Some (- EINVAL, out, c)
  end.

Definition swap_decompress_page (inp out : option (list Z)) (in_size out_size : Z) c : option (Z * option (list Z) * compress) :=
  match inp, out with
  | Some i, Some o =>
      if (in_size =? 0) || (out_size =? 0) then Some (- EINVAL, out, c)
      else
        r ← by_algorithm (current_algo c) (swap_decompress_lz4 i o in_size out_size) (swap_decompress_zlib i o in_size out_size)
              (swap_decompress_zstd i o in_size out_size) i o in_size out_size;
        match r with
        | inl e => Some (e, out, c)
        | inr (k, o) => if k <=? 0 then Some (- EIO, Some o, c) else Some (k, Some o, decompressed in_size k c)
        end
  | _, _ => Some (- EINVAL, out, c)
  end.

(** ** The code as a function on lists *)

(** How many of the first [k] elements are [v] before another one comes. *)
Fixpoint lead (k : nat) (v : Z) (l : list Z) : nat :=
  match k, l with S k, b :: l => if b =? v then S (lead k v l) else O | _, _ => O end.

(** Runs of at most 255 equal bytes, each as long as possible. *)
Fixpoint runs (fuel : nat) (l : list Z) : list (Z * Z) :=
  match fuel, l with
  | S fuel, v :: l => let n := lead 254 v l in (Z.of_nat (S n), v) :: runs fuel (drop n l)
  | _, _ => []
  end.
Definition encode (l : list Z) : list (Z * Z) := runs (length l) l.

Definition flat (ps : list (Z * Z)) : list Z := concat (map (fun p => [p.1; p.2]) ps).
Definition decode (ps : list (Z * Z)) : list Z := concat (map (fun p => replicate (Z.to_nat p.1) p.2) ps).

Lemma lead_split k v l : exists l', l = replicate (lead k v l) v ++ l' /\ (lead k v l <= k)%nat /\ (lead k v l <= length l)%nat /\
  (lead k v l = k \/ head l' <> Some v).
Proof.
  revert l. induction k as [|k IH]; intros [|b l]; cbn [lead].
  - exists []. repeat split; [lia..|by left].
  - exists (b :: l). repeat split; [lia..|by left].
  - exists []. repeat split; [lia..|by right].
  - destruct (Z.eqb_spec b v) as [->|Hb].
    + destruct (IH l) as (l' & E & H1 & H2 & H3). exists l'. cbn [replicate app length]. split; [congruence|]. split; [lia|]. split; [lia|].
      destruct H3 as [H3|H3]; [left; lia|by right].
    + exists (b :: l). cbn [length]. split; [done|]. split; [lia|]. split; [lia|]. right. cbn. congruence.
Qed.

Lemma decode_runs fuel l : (length l <= fuel)%nat -> decode (runs fuel l) = l.
Proof.
  revert l. induction fuel as [|fuel IH]; intros [|v l] Hl; cbn in Hl; try done; try lia. cbn [runs]. unfold decode. cbn [map concat fst snd].
  change (concat (map _ (runs fuel ?x))) with (decode (runs fuel x)). rewrite IH by (rewrite length_drop; lia). rewrite Nat2Z.id. cbn [replicate app]. f_equal.
  destruct (lead_split 254 v l) as (l' & E & _). set (n := lead 254 v l) in *. rewrite E. by rewrite drop_app_length' by (by rewrite length_replicate).
Qed.

(** Nothing is lost by the code on lists. *)
Lemma decode_encode l : decode (encode l) = l.
Proof. by apply decode_runs. Qed.

Lemma runs_ok fuel l : Forall (fun p => 1 <= p.1 <= 255) (runs fuel l).
Proof.
  revert l. induction fuel as [|fuel IH]; intros [|v l]; cbn [runs]; try constructor; [|apply IH]. cbn [fst].
  destruct (lead_split 254 v l) as (_ & _ & Hle & _). lia.
Qed.

Lemma runs_values (P : Z -> Prop) fuel l : Forall P l -> Forall (fun p => P p.2) (runs fuel l).
Proof.
  revert l. induction fuel as [|fuel IH]; intros [|v l] H; cbn [runs]; try constructor; inversion_clear H; [done|]. apply IH. by apply Forall_drop.
Qed.

Lemma flat_length ps : length (flat ps) = (2 * length ps)%nat.
Proof. induction ps as [|p ps IH]; [done|]. unfold flat in *. cbn. rewrite IH. lia. Qed.

Lemma decode_length ps : Forall (fun p => 1 <= p.1) ps -> (length ps <= length (decode ps))%nat.
Proof. induction 1 as [|p ps Hp _ IH]; [done|]. unfold decode in *. cbn. rewrite length_app, length_replicate. lia. Qed.

(** The code never takes more than twice the space. *)
Lemma encode_bound l : (length (encode l) <= length l)%nat.
Proof.
  rewrite <-(decode_encode l) at 2. apply decode_length. eapply Forall_impl; [apply runs_ok|]. cbn. lia.
Qed.

(** ** The loops compute the code *)

Lemma aget_at {A} (X Y : list A) x i : i = Z.of_nat (length X) -> aget (X ++ x :: Y) i = Some x.
Proof. intros ->. unfold aget. destruct (Z.ltb_spec (Z.of_nat (length X)) 0); [lia|]. rewrite Nat2Z.id. by apply list_lookup_middle. Qed.

Lemma aset_at {A} (X Y : list A) x y i : i = Z.of_nat (length X) -> aset (X ++ x :: Y) i y = Some (X ++ y :: Y).
Proof. intros ->. rewrite aset_Some by (rewrite length_app; cbn; lia). f_equal. rewrite Nat2Z.id. by rewrite insert_app_r_alt, Nat.sub_diag by lia. Qed.

Lemma run_length_ok fuel X n v l : (1 <= n <= 255)%nat -> (255 - n < fuel)%nat -> len X + Z.of_nat n + len l < 2 ^ 31 ->
  run_length fuel (X ++ replicate n v ++ l) (len X + Z.of_nat n + len l) (len X) v (Z.of_nat n) = Some (Z.of_nat (n + lead (255 - n) v l)).
Proof.
  revert n l. induction fuel as [|fuel IH]; intros n l Hn Hf Hs; [lia|]. cbn [run_length]. rewrite u32_small by lia. destruct l as [|b l].
  - destruct (Z.ltb_spec (len X + Z.of_nat n) (len X + Z.of_nat n + len (@nil Z))); cbn in *; [lia|]. destruct (255 - n)%nat; cbn; by rewrite Nat.add_0_r.
  - cbn [length] in *. destruct (Z.ltb_spec (len X + Z.of_nat n) (len X + Z.of_nat n + Z.of_nat (S (length l)))); [|lia].
    rewrite app_assoc, aget_at, bind_Some_l by (rewrite length_app, length_replicate; lia).
    destruct (Z.eqb_spec b v) as [->|Hb]; cbn [andb]; [|destruct (255 - n)%nat; cbn [lead]; rewrite ?(proj2 (Z.eqb_neq b v) Hb); by rewrite Nat.add_0_r].
    destruct (Z.ltb_spec (Z.of_nat n) 255).
    + replace (255 - n)%nat with (S (255 - S n)) by lia. cbn [lead]. rewrite Z.eqb_refl.
      pose proof (IH (S n) l ltac:(lia) ltac:(lia) ltac:(lia)) as E. rewrite replicate_S_end, <-app_assoc in E. cbn [app] in E. rewrite <-app_assoc.
      replace (Z.of_nat n + 1) with (Z.of_nat (S n)) by lia. replace (len X + Z.of_nat n + Z.of_nat (S (length l))) with (len X + Z.of_nat (S n) + len l) by lia.
      rewrite E. do 2 f_equal. lia.
    + replace (255 - n)%nat with 0%nat by lia. cbn [lead]. by rewrite Nat.add_0_r.
Qed.

Lemma flat_cons p ps : flat (p :: ps) = p.1 :: p.2 :: flat ps.
Proof. done. Qed.

Lemma decode_cons p ps : decode (p :: ps) = replicate (Z.to_nat p.1) p.2 ++ decode ps.
Proof. done. Qed.

Definition fills (ret0 ret : Z) (need room : Z) (D new R dst : list Z) : Prop :=
  if need <=? room then ret = ret0 /\ dst = D ++ new ++ drop (length new) R else ret = - ENOSPC /\ length dst = length (D ++ R).

Lemma compress_loop_ok f X l D R out_size : (length l <= f)%nat -> len X + len l < 2 ^ 30 -> out_size <= len D + len R < 2 ^ 31 -> len D <= out_size ->
  exists ret dst, compress_loop (S f) (X ++ l) (D ++ R) (len X + len l) out_size (len X) (len D) = Some (ret, dst) /\
    fills (len D + len (flat (runs f l))) ret (len D + len (flat (runs f l))) out_size D (flat (runs f l)) R dst.
Proof.
  revert X l D R. induction f as [|f IH]; intros X l D R Hf Hx Ho Hd.
  { destruct l; [|cbn in Hf; lia]. cbn [compress_loop runs]. destruct (Z.ltb_spec (len X) (len X + len (@nil Z))); [cbn in *; lia|]. rewrite s32_small by lia.
    do 2 eexists. split; [done|]. unfold fills. cbn. rewrite Z.add_0_r. destruct (Z.leb_spec (len D) out_size); [by rewrite drop_0|lia]. }
  remember (S f) as sf eqn:Esf. cbn [compress_loop]. destruct l as [|v l].
  { destruct (Z.ltb_spec (len X) (len X + len (@nil Z))); [cbn in *; lia|]. rewrite s32_small by lia. subst sf.
    do 2 eexists. split; [done|]. unfold fills. cbn. rewrite Z.add_0_r. destruct (Z.leb_spec (len D) out_size); [by rewrite drop_0|lia]. }
  cbn [length] in *. destruct (Z.ltb_spec (len X) (len X + Z.of_nat (S (length l)))); [|lia]. rewrite aget_at, bind_Some_l by done.
  pose proof (run_length_ok 256 X 1 v l ltac:(lia) ltac:(lia) ltac:(lia)) as E. replace (len X + Z.of_nat 1 + len l) with (len X + Z.of_nat (S (length l))) in E by lia. cbn [replicate app] in E.
  change (Z.of_nat 1) with 1 in E. rewrite E, bind_Some_l. change (255 - 1)%nat with 254%nat. subst sf. cbn [runs]. destruct (lead_split 254 v l) as (l' & El & H1 & H2 & _).
  set (n := lead 254 v l) in *. rewrite (u32_small (len D + 2)), (u32_small (len D + 1)), (u32_small (len X + _)) by lia. rewrite flat_cons. cbn [length fst snd]. unfold fills at 1.
  assert (drop n l = l') as -> by (rewrite El; by rewrite drop_app_length' by (by rewrite length_replicate)).
  set (more := flat (runs f l')) in *. destruct (Z.ltb_spec out_size (len D + 2)).
  { destruct (Z.leb_spec (len D + Z.of_nat (S (S (length more)))) out_size); [lia|]. by do 2 eexists. }
  destruct R as [|r1 [|r2 R]]; cbn [length] in *; [lia..|]. rewrite aset_at, bind_Some_l by done.
  replace (D ++ u8 (Z.of_nat (1 + n)) :: r2 :: R) with ((D ++ [u8 (Z.of_nat (1 + n))]) ++ r2 :: R) by apps. rewrite aset_at, bind_Some_l by (rewrite length_app; cbn [length]; lia).
  rewrite <-app_assoc. cbn [app]. rewrite u8_small by lia. replace (D ++ Z.of_nat (1 + n) :: v :: R) with ((D ++ [Z.of_nat (1 + n); v]) ++ R) by apps.
  replace (X ++ v :: l) with ((X ++ replicate (1 + n) v) ++ l') by (rewrite <-app_assoc; f_equal; cbn [replicate app Nat.add]; f_equal; by symmetry).
  assert (length l = n + length l')%nat as Hl by (rewrite El at 1; by rewrite length_app, length_replicate).
  destruct (IH (X ++ replicate (1 + n) v) l' (D ++ [Z.of_nat (1 + n); v]) R) as (ret & dst & E' & H'); [lia|rewrite length_app, length_replicate; lia|lens..|].
  rewrite !length_app, length_replicate in E'. cbn [length] in E'.
  replace (Z.of_nat (length X + (1 + n)) + len l') with (len X + Z.of_nat (S (length l))) in E' by lia. replace (Z.of_nat (length X + (1 + n))) with (len X + Z.of_nat (1 + n)) in E' by lia.
  replace (Z.of_nat (length D + 2)) with (len D + 2) in E' by lia. rewrite E'. exists ret, dst. split; [done|]. unfold fills in H'. fold more in H'.
  rewrite !length_app in H'. cbn [length] in H'. destruct (Z.leb_spec (len D + Z.of_nat (S (S (length more)))) out_size), (Z.leb_spec (Z.of_nat (length D + 2) + len more) out_size); try lia.
  - destruct H' as [-> ->]. split; [lia|]. by rewrite <-!app_assoc.
  - destruct H' as [-> ->]. split; [done|]. rewrite !length_app. cbn [length]. lia.
Qed.

Lemma write_run_ok n D R v : (n <= length R)%nat -> len D + len R < 2 ^ 31 -> write_run n (D ++ R) (len D) v = Some (D ++ replicate n v ++ drop n R).
Proof.
  revert D R. induction n as [|n IH]; intros D R Hn Hs; [by rewrite drop_0|]. destruct R as [|r R]; cbn [length] in *; [lia|]. cbn [write_run].
  rewrite aset_at, bind_Some_l, u32_small by done || lia. replace (D ++ v :: R) with ((D ++ [v]) ++ R) by apps.
  pose proof (IH (D ++ [v]) R ltac:(lia) ltac:(lens)) as E. rewrite length_app in E. cbn [length] in E. replace (Z.of_nat (length D + 1)) with (len D + 1) in E by lia.
  rewrite E. by rewrite <-app_assoc.
Qed.

Lemma decompress_loop_ok f X ps J D R out_size : (length ps <= f)%nat -> Forall (fun p => 0 <= p.1 <= 255) ps -> len X + len (flat ps) < 2 ^ 31 ->
  out_size <= len D + len R < 2 ^ 31 -> len D <= out_size ->
  exists ret dst, decompress_loop (S f) (X ++ flat ps ++ J) (D ++ R) (len X + len (flat ps)) out_size (len X) (len D) = Some (ret, dst) /\
    fills (len D + len (decode ps)) ret (len D + len (decode ps)) out_size D (decode ps) R dst.
Proof.
  revert X ps D R. induction f as [|f IH]; intros X ps D R Hf Hp Hx Ho Hd.
  { destruct ps; [|cbn in Hf; lia]. cbn [decompress_loop]. destruct (Z.ltb_spec (len X) (len X + len (flat []))); [cbn in *; lia|]. rewrite s32_small by lia.
    do 2 eexists. split; [done|]. unfold fills. cbn. rewrite Z.add_0_r. destruct (Z.leb_spec (len D) out_size); [by rewrite drop_0|lia]. }
  remember (S f) as sf eqn:Esf. cbn [decompress_loop]. destruct ps as [|[n v] ps].
  { destruct (Z.ltb_spec (len X) (len X + len (flat []))); [cbn in *; lia|]. rewrite s32_small by lia.
    do 2 eexists. split; [done|]. unfold fills. cbn. rewrite Z.add_0_r. destruct (Z.leb_spec (len D) out_size); [by rewrite drop_0|lia]. }
  inversion_clear Hp as [|? ? Hn Hps]. rewrite flat_cons, decode_cons in *. cbn [fst snd length] in *. set (s := flat ps) in *.
  destruct (Z.ltb_spec (len X) (len X + Z.of_nat (S (S (length s))))); [|lia]. rewrite (u32_small (len X + 1)), (u32_small (len X + 2)) by lia.
  cbn [app]. rewrite (aget_at X _ n (len X) eq_refl), bind_Some_l. replace (X ++ n :: v :: s ++ J) with ((X ++ [n]) ++ v :: s ++ J) by apps.
  rewrite aget_at, bind_Some_l by (rewrite length_app; cbn [length]; lia). rewrite <-app_assoc. cbn [app]. rewrite length_app, length_replicate.
  rewrite (u32_small (len D + n)) by lia. unfold fills at 1. destruct (Z.ltb_spec out_size (len D + n)).
  { destruct (Z.leb_spec (len D + Z.of_nat (Z.to_nat n + length (decode ps))) out_size); [lia|]. by do 2 eexists. }
  rewrite write_run_ok, bind_Some_l by lia. replace (X ++ n :: v :: s ++ J) with ((X ++ [n; v]) ++ s ++ J) by apps.
  rewrite (app_assoc D). set (D' := D ++ replicate (Z.to_nat n) v). assert (len D' = len D + n) as HD by (unfold D'; rewrite length_app, length_replicate; lia).
  destruct (IH (X ++ [n; v]) ps D' (drop (Z.to_nat n) R)) as (ret & dst & E & H'); [lia|done|fold s; rewrite length_app; cbn [length]; lia|rewrite length_drop; lia|lia|].
  fold s in E. rewrite length_app in E. cbn [length] in E. replace (Z.of_nat (length X + 2)) with (len X + 2) in E by lia. rewrite HD in E. subst sf.
  replace (len X + Z.of_nat (S (S (length s)))) with (len X + 2 + len s) by lia. rewrite E. exists ret, dst. split; [done|]. unfold fills in H'. rewrite HD in H'.
  destruct (Z.leb_spec (len D + Z.of_nat (Z.to_nat n + length (decode ps))) out_size), (Z.leb_spec (len D + n + len (decode ps)) out_size); try lia.
  - destruct H' as [-> ->]. split; [lia|]. unfold D'. rewrite <-!app_assoc, drop_drop. by rewrite length_app, length_replicate.
  - destruct H' as [-> ->]. split; [done|]. unfold D'. rewrite !length_app, length_replicate, length_drop. lia.
Qed.

(** The two functions, on buffers of their real size. *)
Lemma compress_ok src dst : len src < 2 ^ 30 -> len dst < 2 ^ 31 ->
  exists ret dst', swap_compress_lz4 src dst (len src) (len dst) = Some (ret, dst') /\
    fills (2 * len (encode src)) ret (2 * len (encode src)) (len dst) [] (flat (encode src)) dst dst'.
Proof.
  intros Hs Hd. unfold swap_compress_lz4. rewrite Nat2Z.id. destruct (compress_loop_ok (length src) [] src [] dst (len dst)) as (ret & dst' & E & H); [lia|cbn; lia..|].
  cbn [app length] in E, H. change (Z.of_nat 0) with 0 in *. rewrite ?Z.add_0_l in *. rewrite E. exists ret, dst'. split; [done|].
  fold (encode src) in H. rewrite flat_length in H. by replace (2 * len (encode src)) with (Z.of_nat (2 * length (encode src))) by lia.
Qed.

Lemma decompress_ok ps J dst : Forall (fun p => 0 <= p.1 <= 255) ps -> len ps < 2 ^ 29 -> len dst < 2 ^ 31 ->
  exists ret dst', swap_decompress_lz4 (flat ps ++ J) dst (2 * len ps) (len dst) = Some (ret, dst') /\
    fills (len (decode ps)) ret (len (decode ps)) (len dst) [] (decode ps) dst dst'.
Proof.
  intros Hp Hs Hd. unfold swap_decompress_lz4. destruct (decompress_loop_ok (Z.to_nat (2 * len ps)) [] ps J [] dst (len dst)) as (ret & dst' & E & H); [lia|done|rewrite flat_length; cbn; lia|cbn; lia..|].
  rewrite flat_length in E. cbn [app length] in E. replace (Z.of_nat 0 + Z.of_nat (2 * length ps)) with (2 * len ps) in E by lia. change (Z.of_nat 0) with 0 in E.
  rewrite E. exists ret, dst'. done.
Qed.

(** C15: run-length coding loses nothing: compression writes the runs of the input, at most
    two bytes for one, or reports that they do not fit; and decompressing what it wrote,
    whatever follows it, gives the input back in any buffer that has room for it. *)
Theorem compression_round_trip src dst out J : len src < 2 ^ 29 -> len dst < 2 ^ 31 -> len src <= len out < 2 ^ 31 ->
  len (flat (encode src)) <= 2 * len src /\
  exists ret dst', swap_compress_lz4 src dst (len src) (len dst) = Some (ret, dst') /\ length dst' = length dst /\
    (len dst < len (flat (encode src)) /\ ret = - ENOSPC \/
     ret = len (flat (encode src)) /\ take (Z.to_nat ret) dst' = flat (encode src) /\
     swap_decompress_lz4 (take (Z.to_nat ret) dst' ++ J) out ret (len out) = Some (len src, src ++ drop (length src) out)).
Proof.
  intros Hs Hd Ho. pose proof (encode_bound src) as Hb. rewrite flat_length. split; [lia|].
  destruct (compress_ok src dst ltac:(lia) Hd) as (ret & dst' & E & H). exists ret, dst'. split; [done|]. unfold fills in H.
  destruct (Z.leb_spec (2 * len (encode src)) (len dst)) as [Hle|Hlt]; destruct H as [-> H]; [|split; [done|left; split; [lia|done]]].
  cbn [app] in H. subst dst'. split; [rewrite length_app, flat_length, length_drop; lia|]. right. split; [lia|]. rewrite take_app_length' by (rewrite flat_length; lia). split; [done|].
  destruct (decompress_ok (encode src) J out) as (ret & dst' & E' & H'); [eapply Forall_impl; [apply runs_ok|cbn; lia]|lia|lia|]. rewrite E'. unfold fills in H'. rewrite decode_encode in H'.
  destruct (Z.leb_spec (len src) (len out)); [|lia]. destruct H' as [-> ->]. done.
Qed.

(** Seven bytes take three runs; a buffer of five bytes is too small for them. *)
Lemma compression_round_trip_witness :
  swap_compress_lz4 [7; 7; 7; 0; 0; 9; 9] [1; 1; 1; 1; 1; 1; 1] 7 7 = Some (6, [3; 7; 2; 0; 2; 9; 1]) /\
  swap_compress_lz4 [7; 7; 7; 0; 0; 9; 9] [1; 1; 1; 1; 1] 7 5 = Some (- ENOSPC, [3; 7; 2; 0; 1]) /\
  exists ret dst', swap_compress_lz4 [7; 7; 7; 0; 0; 9; 9] [1; 1; 1; 1; 1; 1; 1] 7 7 = Some (ret, dst') /\
    swap_decompress_lz4 (take (Z.to_nat ret) dst' ++ [5]) (replicate 7 0) ret 7 = Some (7, [7; 7; 7; 0; 0; 9; 9]).
Proof.
  split; [by vm_compute|]. split; [by vm_compute|].
  destruct (compression_round_trip [7; 7; 7; 0; 0; 9; 9] [1; 1; 1; 1; 1; 1; 1] (replicate 7 0) [5]) as (_ & ret & dst' & E & _ & [[H _]|(_ & _ & H)]).
  - cbn; lia.
  - cbn; lia.
  - cbn; lia.
  - exfalso. vm_compute in H. discriminate H.
  - exists ret, dst'. split; [exact E|exact H].
Defined.

(** An input of odd length that is not the output of the compressor is read behind its end. *)
Lemma decompress_reads_behind : swap_decompress_lz4 [3] (replicate 8 0) 1 8 = None.
Proof. done. Qed.

End SwapCompress.
