(* ===== verification/SwapMonitor.v ===== *)
(** Monitoring of swapping: [kernel/mm/swap_monitor.c], with the choice of algorithms of
    [kernel/mm/swap_priority.c] and [kernel/mm/swap_compress.c] that it adjusts. *)

From S2P Require Import Prelude SwapCompress.

Module SwapMonitor.
Import SwapCompress.

Definition EALREADY : Z := 114.

Definition SWAP_PRIORITY_NONE : Z := 0.
Definition SWAP_PRIORITY_ACCESS : Z := 1.
Definition SWAP_PRIORITY_TYPE : Z := 2.
Definition SWAP_PRIORITY_CUSTOM : Z := 3.

Record monitor := mk_monitor {
  start_time : Z; last_time : Z; interval : Z; count : Z;
  in_total : Z; out_total : Z; in_rate : Z; out_rate : Z; in_peak : Z; out_peak : Z;
  in_last : Z; out_last : Z; in_current : Z; out_current : Z;
  pressure : Z; threshold : Z; enabled : Z; auto_adjust : Z;
  priority_algo : Z; comp : compress
}.
Implicit Types (m : monitor).

Definition with_priority_algo (a : Z) m : monitor :=
  mk_monitor (start_time m) (last_time m) (interval m) (count m) (in_total m) (out_total m) (in_rate m) (out_rate m) (in_peak m) (out_peak m)
    (in_last m) (out_last m) (in_current m) (out_current m) (pressure m) (threshold m) (enabled m) (auto_adjust m) a (comp m).
Definition with_comp (c : compress) m : monitor :=
  mk_monitor (start_time m) (last_time m) (interval m) (count m) (in_total m) (out_total m) (in_rate m) (out_rate m) (in_peak m) (out_peak m)
    (in_last m) (out_last m) (in_current m) (out_current m) (pressure m) (threshold m) (enabled m) (auto_adjust m) (priority_algo m) c.
Definition with_enabled (e : Z) m : monitor :=
  mk_monitor (start_time m) (last_time m) (interval m) (count m) (in_total m) (out_total m) (in_rate m) (out_rate m) (in_peak m) (out_peak m)
    (in_last m) (out_last m) (in_current m) (out_current m) (pressure m) (threshold m) e (auto_adjust m) (priority_algo m) (comp m).
Definition with_settings (i t a : Z) m : monitor :=
  mk_monitor (start_time m) (last_time m) i (count m) (in_total m) (out_total m) (in_rate m) (out_rate m) (in_peak m) (out_peak m)
    (in_last m) (out_last m) (in_current m) (out_current m) (pressure m) t (enabled m) a (priority_algo m) (comp m).

Definition swap_monitor_init m : monitor := mk_monitor 0 0 1000 0 0 0 0 0 0 0 0 0 0 0 0 75 0 0 (priority_algo m) (comp m).

Definition swap_priority_init m : monitor := with_priority_algo SWAP_PRIORITY_ACCESS m.
Definition swap_priority_set_algo (algo : Z) m : Z * monitor :=
  if (algo <? SWAP_PRIORITY_NONE) || (SWAP_PRIORITY_CUSTOM <? algo) then (- EINVAL, m) else (0, with_priority_algo algo m).
Definition swap_priority_get_algo m : Z := priority_algo m.

(** [ticks] is what [timer_get_ticks] returns, here and below. *)
Definition swap_monitor_start (ticks : Z) m : Z * monitor :=
  if negb (enabled m =? 0) then (- EALREADY, m)
  else (0, mk_monitor ticks ticks (interval m) 0 0 0 0 0 0 0 0 0 0 0 0 (threshold m) 1 (auto_adjust m) (priority_algo m) (comp m)).

Definition swap_monitor_stop m : Z * monitor := if enabled m =? 0 then (- EINVAL, m) else (0, with_enabled 0 m).

Definition swap_monitor_set_interval (i : Z) m : Z * monitor :=
  if i =? 0 then (- EINVAL, m) else (0, with_settings i (threshold m) (auto_adjust m) m).
Definition swap_monitor_set_threshold (t : Z) m : Z * monitor :=
  if 100 <? t then (- EINVAL, m) else (0, with_settings (interval m) t (auto_adjust m) m).
Definition swap_monitor_set_auto_adjust (e : Z) m : Z * monitor :=
  (0, with_settings (interval m) (threshold m) (if e =? 0 then 0 else 1) m).

Definition swap_monitor_adjust m : monitor :=
  let m := (swap_priority_set_algo (if 90 <? pressure m then SWAP_PRIORITY_ACCESS else if 75 <? pressure m then SWAP_PRIORITY_TYPE else SWAP_PRIORITY_CUSTOM) m).2 in
  with_comp (swap_compress_set_algo (if 90 <? pressure m then SWAP_COMPRESS_ZSTD else if 75 <? pressure m then SWAP_COMPRESS_ZLIB else SWAP_COMPRESS_LZ4) (comp m)).2 m.

(** [a / b] in C: division by zero is a fault. *)
Definition div (a b : Z) : option Z := if b =? 0 then None else Some (a / b).

(** The rates and the pressure, and the start of the next interval. *)
Definition set_rates (i o p : Z) m : monitor :=
  mk_monitor (start_time m) (last_time m) (interval m) (count m) (in_total m) (out_total m) i o
    (if in_peak m <? i then i else in_peak m) (if out_peak m <? o then o else out_peak m)
    (in_last m) (out_last m) (in_current m) (out_current m) p (threshold m) (enabled m) (auto_adjust m) (priority_algo m) (comp m).
Definition next_interval (now : Z) m : monitor :=
  mk_monitor (start_time m) now (interval m) (u64 (count m + 1)) (in_total m) (out_total m) (in_rate m) (out_rate m) (in_peak m) (out_peak m)
    (in_current m) (out_current m) 0 0 (pressure m) (threshold m) (enabled m) (auto_adjust m) (priority_algo m) (comp m).

(** The end of an interval of [elapsed]. *)
Definition update_rates (now elapsed : Z) m : option monitor :=
  i ← div (u64 (in_current m * 1000)) elapsed;
  o ← div (u64 (out_current m * 1000)) elapsed;
  p ← div (u64 (o * 100)) (u64 (i + o + 1));
  let m := set_rates i o p m in
  let m := if negb (auto_adjust m =? 0) && (threshold m <? pressure m) then swap_monitor_adjust m else m in
  Some (next_interval now m).

Definition swap_monitor_update (swap_in swap_out ticks : Z) m : option monitor :=
  if enabled m =? 0 then Some m
  else
    let m := mk_monitor (start_time m) (last_time m) (interval m) (count m) (u64 (in_total m + swap_in)) (u64 (out_total m + swap_out))
               (in_rate m) (out_rate m) (in_peak m) (out_peak m) (in_last m) (out_last m) (u64 (in_current m + swap_in)) (u64 (out_current m + swap_out))
               (pressure m) (threshold m) (enabled m) (auto_adjust m) (priority_algo m) (comp m) in
    let elapsed := u64 (ticks - last_time m) in
    if interval m <=? elapsed then update_rates ticks elapsed m else Some m.

Record stats := mk_stats {
  st_enabled : Z; st_auto_adjust : Z; st_interval : Z; st_threshold : Z; st_start_time : Z; st_last_time : Z; st_count : Z;
  st_in_total : Z; st_out_total : Z; st_in_rate : Z; st_out_rate : Z; st_in_peak : Z; st_out_peak : Z; st_in_last : Z; st_out_last : Z; st_pressure : Z
}.

Definition swap_monitor_get_stats (given : bool) m : Z * option stats :=
  if negb given then (- EINVAL, None)
  else (0, Some (mk_stats (enabled m) (auto_adjust m) (interval m) (threshold m) (start_time m) (last_time m) (count m) (in_total m) (out_total m)
                  (in_rate m) (out_rate m) (in_peak m) (out_peak m) (in_last m) (out_last m) (pressure m))).

(** ** What the statistics are *)

(** The state of a monitor that has counted fewer than [2 ^ 46] pages: no interval is
    empty, so that rates can be computed; the pressure is a percentage, and what was
    counted since the last interval is part of the total. *)
Record Ok m : Prop := {
  ok_interval : 0 < interval m < 2 ^ 64;
  ok_in : 0 <= in_current m <= in_total m; ok_out : 0 <= out_current m <= out_total m;
  ok_rates : in_rate m <= in_peak m /\ out_rate m <= out_peak m;
  ok_pressure : 0 <= pressure m < 100;
  ok_algos : 0 <= priority_algo m <= 3 /\ 0 <= current_algo (comp m) <= 3
}.

Lemma adjust_ok m : Ok m -> Ok (swap_monitor_adjust m).
Proof.
  intros [H1 H2 H3 H4 H5 H6]. unfold swap_monitor_adjust, swap_priority_set_algo, swap_compress_set_algo. cbn [fst snd].
  destruct (90 <? pressure m) eqn:E1; [|destruct (75 <? pressure m) eqn:E2]; cbn; rewrite ?E1, ?E2; cbn; split; cbn; done || lia.
Qed.

Lemma adjust_same m : let m' := swap_monitor_adjust m in
  in_total m' = in_total m /\ out_total m' = out_total m /\ in_current m' = in_current m /\ out_current m' = out_current m /\ in_rate m' = in_rate m /\ out_rate m' = out_rate m /\
  in_peak m' = in_peak m /\ out_peak m' = out_peak m /\ pressure m' = pressure m.
Proof. unfold swap_monitor_adjust, swap_priority_set_algo. cbn. by destruct (90 <? pressure m); [|destruct (75 <? pressure m)]. Qed.

Lemma div_pos_some a b : 0 < b -> div a b = Some (a / b).
Proof. intros H. unfold div. by destruct (Z.eqb_spec b 0); [lia|]. Qed.

Lemma update_rates_ok now e m : Ok m -> 0 < e -> in_total m < 2 ^ 46 -> out_total m < 2 ^ 46 ->
  exists m', update_rates now e m = Some m' /\ Ok m' /\ in_total m' = in_total m /\ out_total m' = out_total m /\ last_time m' = now /\
    in_last m' = in_current m /\ out_last m' = out_current m /\ in_rate m' = in_current m * 1000 / e /\ out_rate m' = out_current m * 1000 / e /\
    in_peak m' = Z.max (in_peak m) (in_rate m') /\ out_peak m' = Z.max (out_peak m) (out_rate m') /\
    pressure m' = out_rate m' * 100 / (in_rate m' + out_rate m' + 1).
Proof.
  intros H He Hi Ho. pose proof H as [K1 K2 K3 K4 K5 K6]. unfold update_rates. rewrite (u64_small (in_current m * 1000)), (u64_small (out_current m * 1000)) by lia.
  rewrite !(div_pos_some _ e), !bind_Some_l by done. set (i := in_current m * 1000 / e). set (o := out_current m * 1000 / e).
  assert (0 <= i < 2 ^ 60) as Hi' by (unfold i; split; [apply Z.div_pos; lia|apply Z.div_lt_upper_bound; nia]).
  assert (0 <= o < 2 ^ 60) as Ho' by (unfold o; split; [apply Z.div_pos; lia|apply Z.div_lt_upper_bound; nia]).
  assert (o < 184467440737095516) as Ho2 by (unfold o; apply Z.div_lt_upper_bound; nia).
  rewrite (u64_small (o * 100)), (u64_small (i + o + 1)) by lia.
  rewrite div_pos_some, bind_Some_l by lia. set (p := o * 100 / (i + o + 1)).
  assert (0 <= p < 100) as Hp by (unfold p; split; [apply Z.div_pos; lia|apply Z.div_lt_upper_bound; lia]).
  assert (Ok (set_rates i o p m)) as H1.
  { split; [exact K1|exact K2|exact K3| |exact Hp|exact K6]. cbn [in_rate in_peak out_rate out_peak set_rates]. destruct (Z.ltb_spec (in_peak m) i), (Z.ltb_spec (out_peak m) o); lia. }
  cbv zeta. set (m1 := set_rates i o p m) in *. set (m2 := if negb (auto_adjust m1 =? 0) && (threshold m1 <? pressure m1) then swap_monitor_adjust m1 else m1). assert (Ok m2) as H2 by (unfold m2; case_match; [by apply adjust_ok|done]).
  assert (in_total m2 = in_total m1 /\ out_total m2 = out_total m1 /\ in_current m2 = in_current m1 /\ out_current m2 = out_current m1 /\ in_rate m2 = in_rate m1 /\ out_rate m2 = out_rate m1 /\
    in_peak m2 = in_peak m1 /\ out_peak m2 = out_peak m1 /\ pressure m2 = pressure m1) as (E1 & E2 & E3 & E4 & E5 & E6 & E7 & E8 & E9) by (unfold m2; case_match; [apply adjust_same|done]).
  exists (next_interval now m2). split; [done|]. destruct H2 as [L1 L2 L3 L4 L5 L6]. split; [split; cbn [next_interval interval in_current in_total out_current out_total in_rate in_peak out_rate out_peak pressure priority_algo comp]; lia|].
  cbn [next_interval in_total out_total last_time in_last out_last in_rate out_rate in_peak out_peak pressure]. rewrite E1, E2, E3, E4, E5, E6, E7, E8, E9.
  split_and!; try done; unfold m1; cbn [set_rates in_peak out_peak in_rate out_rate]; [destruct (Z.ltb_spec (in_peak m) i)|destruct (Z.ltb_spec (out_peak m) o)]; lia.
Qed.

(** While fewer than [2 ^ 46] pages have been counted, an update of a running monitor
    never divides by zero, adds to the totals what it is given, and when the interval is
    over sets the rates to pages per thousand ticks since the last time, the peaks to the
    largest rate seen, and the pressure to the share of pages written, always below 100. *)
Theorem monitor_update_correct i o ticks m : Ok m -> enabled m <> 0 -> 0 <= i -> 0 <= o -> in_total m + i < 2 ^ 46 -> out_total m + o < 2 ^ 46 ->
  exists m', swap_monitor_update i o ticks m = Some m' /\ Ok m' /\ in_total m' = in_total m + i /\ out_total m' = out_total m + o /\
    (u64 (ticks - last_time m) < interval m /\ last_time m' = last_time m /\ in_current m' = in_current m + i /\ out_current m' = out_current m + o /\ pressure m' = pressure m \/
     interval m <= u64 (ticks - last_time m) /\ last_time m' = ticks /\ in_current m' = 0 /\ out_current m' = 0 /\
     in_rate m' = (in_current m + i) * 1000 / u64 (ticks - last_time m) /\ out_rate m' = (out_current m + o) * 1000 / u64 (ticks - last_time m) /\
     in_peak m' = Z.max (in_peak m) (in_rate m') /\ out_peak m' = Z.max (out_peak m) (out_rate m') /\
     pressure m' = out_rate m' * 100 / (in_rate m' + out_rate m' + 1)).
Proof.
  intros H He Hi Ho Hti Hto. pose proof H as []. unfold swap_monitor_update. destruct (Z.eqb_spec (enabled m) 0); [done|].
  rewrite !(u64_small (_ + i)), !(u64_small (_ + o)) by lia. set (m1 := mk_monitor _ _ _ _ _ _ _ _ _ _ _ _ _ _ _ _ _ _ _ _).
  assert (Ok m1) as H1 by (split; cbn; lia). destruct (Z.leb_spec (interval m1) (u64 (ticks - last_time m1))) as [Hl|Hl]; change (interval m1) with (interval m) in Hl; change (last_time m1) with (last_time m) in *.
  - destruct (update_rates_ok ticks (u64 (ticks - last_time m)) m1 H1 ltac:(lia) ltac:(cbn; lia) ltac:(cbn; lia)) as (m' & E & H' & E1 & E2 & E3 & E4 & E5 & E6 & E7 & E8 & E9 & E10).
    exists m'. split; [exact E|]. split; [done|]. cbn in *. do 2 (split; [done|]). right. unfold update_rates in E.
    apply bind_Some in E as (? & _ & E). apply bind_Some in E as (? & _ & E). apply bind_Some in E as (? & _ & E). injection E as <-. cbn in *. done.
  - exists m1. cbn. split; [done|]. split; [done|]. do 2 (split; [done|]). left. done.
Qed.

(** Forty pages out and ten in within two thousand ticks: the pressure is 76, above the
    threshold, and zlib and the priority by type are chosen. *)
Lemma monitor_update_correct_witness : exists m0 m', m0 = (swap_monitor_set_auto_adjust 1 (swap_monitor_start 500 (swap_monitor_init (mk_monitor 0 0 0 0 0 0 0 0 0 0 0 0 0 0 0 0 0 0 1 swap_compress_init))).2).2 /\
  swap_monitor_update 10 40 2500 m0 = Some m' /\ out_rate m' = 20 /\ in_rate m' = 5 /\ pressure m' = 76 /\ priority_algo m' = SWAP_PRIORITY_TYPE /\ current_algo (comp m') = SWAP_COMPRESS_ZLIB.
Proof.
  eexists. destruct (monitor_update_correct 10 40 2500 (swap_monitor_set_auto_adjust 1 (swap_monitor_start 500 (swap_monitor_init (mk_monitor 0 0 0 0 0 0 0 0 0 0 0 0 0 0 0 0 0 0 1 swap_compress_init))).2).2) as (m' & E & _).
  - constructor; by vm_compute.
  - done.
  - lia.
  - lia.
  - cbn; lia.
  - cbn; lia.
  - exists m'. split; [reflexivity|]. split; [exact E|]. vm_compute in E. injection E as <-. repeat split.
Defined.

End SwapMonitor.
