(* ===== verification/Swap.v ===== *)
(** Swap areas: [kernel/mm/swap.c]. The table of areas with their bitmaps, allocation and
    release of entries, and pages written to and read from the swap files. *)

From S2P Require Import Prelude Bytes CStr SwapCompress SwapMonitor.

Module Swap.
Import Bytes CStr SwapCompress SwapMonitor.

Definition ENOENT : Z := 2.
Definition ENOMEM : Z := 12.
Definition EBUSY : Z := 16.
Definition MAX_SWAP_AREAS : Z := 8.

(** The file layer: opening gives a file or nothing; reading and writing start at the
    position of the file and return a count or an error, reading with the bytes that were
    stored. The results of closing and seeking are not looked at. *)
Class Files (D : Type) := {
  fs_open : list Z -> D -> option Z * D;
  fs_close : Z -> D -> D;
  fs_seek : Z -> Z -> D -> D;
  fs_read : Z -> Z -> D -> Z * list Z * D;
  fs_write : Z -> list Z -> D -> Z * D
}.

(** ** Data *)

Record swap_area := mk_area { path : list Z; file : Z; size : Z; used : Z; bitmap : list Z }.

Definition with_used (n : Z) (b : list Z) (a : swap_area) : swap_area := mk_area (path a) (file a) (size a) n b.

Section Swap.
Context {D : Type} `{!Files D}.

(** [swap_areas] has [MAX_SWAP_AREAS] elements. *)
Record swap := mk_swap {
  swap_areas : list swap_area; swap_area_count : Z;
  swap_in_count : Z; swap_out_count : Z; swap_in_bytes : Z; swap_out_bytes : Z;
  mon : monitor; dev : D
}.
Implicit Types (s : swap) (a : swap_area).

Definition with_areas (l : list swap_area) (n : Z) s : swap :=
  mk_swap l n (swap_in_count s) (swap_out_count s) (swap_in_bytes s) (swap_out_bytes s) (mon s) (dev s).
Definition with_mon (m : monitor) s : swap :=
  mk_swap (swap_areas s) (swap_area_count s) (swap_in_count s) (swap_out_count s) (swap_in_bytes s) (swap_out_bytes s) m (dev s).
Definition with_dev (d : D) s : swap :=
  mk_swap (swap_areas s) (swap_area_count s) (swap_in_count s) (swap_out_count s) (swap_in_bytes s) (swap_out_bytes s) (mon s) d.
Definition with_compress (c : compress) s : swap := with_mon (with_comp c (mon s)) s.

Definition no_area : swap_area := mk_area (replicate 256 0) 0 0 0 [].

Definition swap_init s : swap := with_areas (replicate (Z.to_nat MAX_SWAP_AREAS) no_area) 0 s.

(** ** Areas *)

(** [mem] tells whether [kmalloc] finds memory for the bitmap, which it clears. *)
Definition swap_add (name : option (list Z)) (bytes : Z) (mem : bool) s : option (Z * swap) :=
  match name with
  | None => Some (- EINVAL, s)
  | Some name =>
      if bytes =? 0 then Some (- EINVAL, s)
      else if MAX_SWAP_AREAS <=? swap_area_count s then Some (- ENOMEM, s)
      else
        let '(f, d) := fs_open name (dev s) in
        match f with
        | None => Some (- ENOENT, with_dev d s)
        | Some f =>
            let pages := bytes / PAGE_SIZE in
            if negb mem then Some (- ENOMEM, with_dev (fs_close f d) s)
            else
              p ← copy_name 255 name;
              l ← aset (swap_areas s) (swap_area_count s) (mk_area p f pages 0 (replicate (Z.to_nat ((pages + 31) / 32)) 0));
              Some (0, with_areas l (swap_area_count s + 1) (with_dev d s))
        end
  end.

(** The first area with this path, from [i] on; [n] are left. *)
Fixpoint find_area (n : nat) (i : Z) (name : list Z) (l : list swap_area) : option Z :=
  match n with
  | O => Some i
  | S n => a ← aget l i; r ← strcmp (path a) name; if r =? 0 then Some i else find_area n (i + 1) name l
  end.

(** [swap_areas[j] = swap_areas[j + 1]] for [n] areas from [j] on. *)
Fixpoint shift_areas (n : nat) (j : Z) (l : list swap_area) : option (list swap_area) :=
  match n with O => Some l | S n => a ← aget l (j + 1); l ← aset l j a; shift_areas n (j + 1) l end.

Definition swap_remove (name : option (list Z)) s : option (Z * swap) :=
  match name with
  | None => Some (- EINVAL, s)
  | Some name =>
      i ← find_area (Z.to_nat (swap_area_count s)) 0 name (swap_areas s);
      if i =? swap_area_count s then Some (- ENOENT, s)
      else
        a ← aget (swap_areas s) i;
        if 0 <? used a then Some (- EBUSY, s)
        else
          l ← shift_areas (Z.to_nat (swap_area_count s - 1 - i)) i (swap_areas s);
          Some (0, with_areas l (swap_area_count s - 1) (with_dev (fs_close (file a) (dev s)) s))
  end.

(** ** Entries *)

(** The first clear bit from [j] on, [n] pages left. *)
Fixpoint find_page (n : nat) (j : Z) (bm : list Z) : option (option Z) :=
  match n with
  | O => Some None
  | S n => b ← bit_at 32 bm j; if (b : bool) then find_page n (j + 1) bm else Some (Some j)
  end.

(** The areas from [i] on, [n] left. *)
Fixpoint alloc_from (n : nat) (i : Z) s : option (Z * swap) :=
  match n with
  | O => Some (0, s)
  | S n =>
      a ← aget (swap_areas s) i;
      if size a <=? used a then alloc_from n (i + 1) s
      else
        r ← find_page (Z.to_nat (size a)) 0 (bitmap a);
        match r with
        | Some j =>
            bm ← set_bit_at 32 (bitmap a) j;
            l ← aset (swap_areas s) i (with_used (u32 (used a + 1)) bm a);
            Some (u32 (Z.lor (Z.shiftl i 24) j), with_areas l (swap_area_count s) s)
        | None => alloc_from n (i + 1) s
        end
  end.

Definition swap_alloc s : option (Z * swap) := alloc_from (Z.to_nat (swap_area_count s)) 0 s.

(** The tests that release, write and read begin with: the index of the area, the area and
    the page, or [None] for [- EINVAL]. *)
Definition check_entry (entry : Z) s : option (option (Z * swap_area * Z)) :=
  let area_index := Z.land (Z.shiftr entry 24) 255 in
  let page_index := Z.land entry 0xFFFFFF in
  if u32 (swap_area_count s) <=? area_index then Some None
  else
    a ← aget (swap_areas s) area_index;
    if size a <=? page_index then Some None
    else b ← bit_at 32 (bitmap a) page_index; Some (if (b : bool) then Some (area_index, a, page_index) else None).

Definition swap_free (entry : Z) s : option (Z * swap) :=
  if entry =? 0 then Some (- EINVAL, s)
  else
    c ← check_entry entry s;
    match c with
    | None => Some (- EINVAL, s)
    | Some (i, a, j) =>
        bm ← clear_bit_at 32 (bitmap a) j;
        l ← aset (swap_areas s) i (with_used (u32 (used a - 1)) bm a);
        Some (0, with_areas l (swap_area_count s) s)
    end.

(** ** Pages *)

Definition wrote s (m : monitor) : swap :=
  mk_swap (swap_areas s) (swap_area_count s) (swap_in_count s) (u64 (swap_out_count s + 1)) (swap_in_bytes s) (u64 (swap_out_bytes s + PAGE_SIZE)) m (dev s).
Definition got s (m : monitor) : swap :=
  mk_swap (swap_areas s) (swap_area_count s) (u64 (swap_in_count s + 1)) (swap_out_count s) (u64 (swap_in_bytes s + PAGE_SIZE)) (swap_out_bytes s) m (dev s).

(** [buf] is what [kmalloc(PAGE_SIZE * 2)] returns. *)
Definition swap_write (entry : Z) (data : option (list Z)) (buf : option (list Z)) (ticks : Z) s : option (Z * swap) :=
  match data with
  | None => Some (- EINVAL, s)
  | Some page =>
      if entry =? 0 then Some (- EINVAL, s)
      else
        c ← check_entry entry s;
        match c with
        | None => Some (- EINVAL, s)
        | Some (i, a, j) =>
            match buf with
            | None => Some (- ENOMEM, s)
            | Some _ =>
                '(k, out, c) ← swap_compress_page data buf PAGE_SIZE (PAGE_SIZE * 2) (comp (mon s));
                let s := with_compress c s in
                o ← out;
                let '(k, o) := if k <? 0 then (PAGE_SIZE, page) else (k, o) in
                let d := fs_seek (file a) (u32 (j * PAGE_SIZE)) (dev s) in
                let '(r, d) := fs_write (file a) (le 4 k) d in
                if negb (r =? 4) then Some (- EIO, with_dev d s)
                else if len o <? k then None
                else
                  let '(r, d) := fs_write (file a) (take (Z.to_nat k) o) d in
                  if negb (r =? k) then Some (- EIO, with_dev d s)
                  else m ← swap_monitor_update 0 1 ticks (mon s); Some (0, wrote (with_dev d s) m)
            end
        end
  end.

(** [block] is what [kmalloc] returns for each size; the result has the page as it is left. *)
Definition swap_read (entry : Z) (data : option (list Z)) (block : Z -> option (list Z)) (ticks : Z) s : option (Z * option (list Z) * swap) :=
  match data with
  | None => Some (- EINVAL, None, s)
  | Some page =>
      if entry =? 0 then Some (- EINVAL, data, s)
      else
        c ← check_entry entry s;
        match c with
        | None => Some (- EINVAL, data, s)
        | Some (i, a, j) =>
            let d := fs_seek (file a) (u32 (j * PAGE_SIZE)) (dev s) in
            let '(r, bytes, d) := fs_read (file a) 4 d in
            if negb (r =? 4) then Some (- EIO, data, with_dev d s)
            else
              let k := s32 (unle bytes) in
              if k =? PAGE_SIZE then
                let '(r, bytes, d) := fs_read (file a) PAGE_SIZE d in
                page ← blit page 0 bytes 0 (len bytes);
                if negb (r =? PAGE_SIZE) then Some (- EIO, Some page, with_dev d s)
                else m ← swap_monitor_update 1 0 ticks (mon s); Some (0, Some page, got (with_dev d s) m)
              else
                match block (u32 k) with
                | None => Some (- ENOMEM, data, with_dev d s)
                | Some b =>
                    let '(r, bytes, d) := fs_read (file a) (u32 k) d in
                    b ← blit b 0 bytes 0 (len bytes);
                    if negb (r =? k) then Some (- EIO, data, with_dev d s)
                    else
                      '(r, page, c) ← swap_decompress_page (Some b) data (u32 k) PAGE_SIZE (comp (mon s));
                      let s := with_compress c s in
                      if negb (r =? PAGE_SIZE) then Some (- EIO, page, with_dev d s)
                      else m ← swap_monitor_update 1 0 ticks (mon s); Some (0, page, got (with_dev d s) m)
                end
        end
  end.

End Swap.
Arguments swap : clear implicits.

End Swap.
