(* ===== verification/SwapFiles.v ===== *)
(** What swapping needs of the file layer: [fs_read], [fs_write] and [fs_seek] of
    [kernel/fs/fs.c] hand their work to the functions of the file system of the file. The
    laws say what reading and writing at a position means, and files in memory show that
    they can hold. *)

From S2P Require Import Prelude Bytes Swap.

Module SwapFiles.
Import Bytes Swap.

(** [content d f o] is the byte at [o] of the open file [f], [position d f] where the next
    transfer starts. A transfer that is not complete may have stored anything in its range. *)
Class FilesLaws (D : Type) `{!Files D} := {
  content : D -> Z -> Z -> Z;
  position : D -> Z -> Z;
  seek_position f p d : position (fs_seek f p d) f = p;
  seek_content f p d g o : content (fs_seek f p d) g o = content d g o;
  read_content f n d r b d' : fs_read f n d = (r, b, d') -> forall g o, content d' g o = content d g o;
  read_bytes f n d r b d' : fs_read f n d = (r, b, d') -> 0 <= n -> len b <= n /\
    (r = n -> b = map (content d f) (seqZ (position d f) n) /\ position d' f = position d f + n);
  write_other f b d r d' g o : fs_write f b d = (r, d') -> g <> f \/ o < position d f \/ position d f + len b <= o -> content d' g o = content d g o;
  write_bytes f b d r d' : fs_write f b d = (r, d') -> r = len b -> map (content d' f) (seqZ (position d f) (len b)) = b /\ position d' f = position d f + len b
}.

(** Transfers that are always complete. *)
Class Reliable (D : Type) `{!Files D} : Prop := {
  read_full f n d : 0 <= n -> (fs_read f n d).1.1 = n;
  write_full f b d : (fs_write f b d).1 = len b
}.

(** ** Files in memory *)

(** For each open file its position and its bytes; what was never written is zero. *)
Notation memory := (gmap Z (Z * gmap Z Z)).

Definition pos_of (d : memory) (f : Z) : Z := match d !! f with Some (p, _) => p | None => 0 end.
Definition map_of (d : memory) (f : Z) : gmap Z Z := match d !! f with Some (_, m) => m | None => ∅ end.
Definition byte_of (d : memory) (f o : Z) : Z := default 0 (map_of d f !! o).

Fixpoint put_bytes (p : Z) (b : list Z) (m : gmap Z Z) : gmap Z Z := match b with [] => m | x :: b => put_bytes (p + 1) b (<[p := x]> m) end.

(** Opening gives a new file each time. *)
#[global] Instance memory_files : Files memory := {
  fs_open _ d := let f := 1 + Z.of_nat (base.size d) in (Some f, <[f := (0, ∅)]> d);
  fs_close _ d := d;
  fs_seek f p d := <[f := (p, map_of d f)]> d;
  fs_read f n d := (n, map (byte_of d f) (seqZ (pos_of d f) n), <[f := (pos_of d f + n, map_of d f)]> d);
  fs_write f b d := (len b, <[f := (pos_of d f + len b, put_bytes (pos_of d f) b (map_of d f))]> d)
}.

Lemma put_bytes_other p b m o : o < p \/ p + len b <= o -> put_bytes p b m !! o = m !! o.
Proof.
  revert p m. induction b as [|x b IH]; intros p m Ho; [done|]. cbn [put_bytes length] in *. rewrite IH by lia. apply lookup_insert_ne. lia.
Qed.

Lemma put_bytes_same p b m : map (fun o => default 0 (put_bytes p b m !! o)) (seqZ p (len b)) = b.
Proof.
  revert p m. induction b as [|x b IH]; intros p m; [done|]. cbn [put_bytes length]. rewrite seqZ_cons by lia. cbn [map].
  rewrite (put_bytes_other (p + 1) b _ p) by lia. rewrite (lookup_insert_eq m p x). cbn [default from_option id]. f_equal. replace (Z.pred (Z.of_nat (S (length b)))) with (len b) by lia. rewrite <-Z.add_1_r. apply IH.
Qed.

Lemma map_of_insert d f p m g : map_of (<[f := (p, m)]> d) g = if decide (g = f) then m else map_of d g.
Proof. unfold map_of. case_decide as E; [subst; by rewrite lookup_insert_eq|by rewrite lookup_insert_ne by done]. Qed.

Lemma pos_of_insert d f p m : pos_of (<[f := (p, m)]> d) f = p.
Proof. unfold pos_of. by rewrite lookup_insert_eq. Qed.

Lemma byte_of_insert_same d f p g o : byte_of (<[f := (p, map_of d f)]> d) g o = byte_of d g o.
Proof. unfold byte_of. rewrite map_of_insert. case_decide; [by subst|done]. Qed.

#[global] Program Instance memory_laws : FilesLaws memory := { content := byte_of; position := pos_of }.
Next Obligation. intros. apply pos_of_insert. Qed.
Next Obligation. intros. apply byte_of_insert_same. Qed.
Next Obligation. intros f n d r b d' [= <- <- <-] g o. apply byte_of_insert_same. Qed.
Next Obligation.
  intros f n d r b d' [= <- <- <-] Hn. rewrite length_map, length_seqZ. split; [lia|]. intros _. split; [done|]. apply pos_of_insert.
Qed.
Next Obligation.
  intros f b d r d' g o [= <- <-] H. unfold byte_of. rewrite map_of_insert. case_decide as E; [|done]. subst. rewrite put_bytes_other; [done|]. destruct H as [H|H]; [done|exact H].
Qed.
Next Obligation.
  intros f b d r d' [= <- <-] _. split; [|apply pos_of_insert]. unfold byte_of. rewrite map_of_insert. rewrite decide_True by done. apply put_bytes_same.
Qed.

#[global] Instance memory_reliable : Reliable memory.
Proof. by split. Qed.

End SwapFiles.
