(* ===== verification/SwapSpec.v ===== *)
(** The table of swap areas as a list of areas with the sets of their used pages: what
    adding, removing, allocation and release do on it, and the entries that get lost. *)

From S2P Require Import Prelude Bytes CStr SwapCompress SwapMonitor Swap SwapFiles.

Module SwapSpec.
Import Bytes CStr SwapCompress SwapMonitor Swap SwapFiles.

(** ** The abstract table *)

Record slots := mk_slots { vpath : list Z; vfile : Z; vsize : Z; vused : gset Z }.
Implicit Types (u : slots) (l : list slots).

Definition first_free u : option Z := head (filter (fun j => j ∉ vused u) (seqZ 0 (vsize u))).
Definition mark_used (j : Z) u : slots := mk_slots (vpath u) (vfile u) (vsize u) ({[ j ]} ∪ vused u).
Definition mark_free (j : Z) u : slots := mk_slots (vpath u) (vfile u) (vsize u) (vused u ∖ {[ j ]}).

(** The number of page [j] of area [i]. *)
Definition entry_of (i j : Z) : Z := i * 2 ^ 24 + j.

Fixpoint v_alloc (i : Z) l : Z * list slots :=
  match l with
  | [] => (0, [])
  | u :: l =>
      match first_free u with
      | Some j => (entry_of i j, mark_used j u :: l)
      | None => let r := v_alloc (i + 1) l in (r.1, u :: r.2)
      end
  end.

Definition entry_used (e : Z) l : option (nat * slots * Z) :=
  u ← l !! Z.to_nat (e / 2 ^ 24); if decide (e mod 2 ^ 24 ∈ vused u) then Some (Z.to_nat (e / 2 ^ 24), u, e mod 2 ^ 24) else None.

Definition v_free (e : Z) l : Z * list slots :=
  if e =? 0 then (- EINVAL, l)
  else match entry_used e l with Some (i, u, j) => (0, <[i := mark_free j u]> l) | None => (- EINVAL, l) end.

Section Spec.
Context {D : Type} `{!Files D}.
Implicit Types (s : swap D) (d : D).

Definition v_add (name : list Z) (bytes : Z) (mem : bool) (v : list slots * D) : Z * (list slots * D) :=
  if bytes =? 0 then (- EINVAL, v)
  else if 8 <=? Z.of_nat (length v.1) then (- ENOMEM, v)
  else match fs_open name v.2 with
       | (None, d) => (- ENOENT, (v.1, d))
       | (Some f, d) =>
           if mem then (0, (v.1 ++ [mk_slots (take 255 (cstr name)) f (bytes / PAGE_SIZE) ∅], d)) else (- ENOMEM, (v.1, fs_close f d))
       end.

Definition v_remove (name : list Z) (v : list slots * D) : Z * (list slots * D) :=
  match list_find (fun u => vpath u = cstr name) v.1 with
  | None => (- ENOENT, v)
  | Some (i, u) => if decide (vused u = ∅) then (0, (delete i v.1, fs_close (vfile u) v.2)) else (- EBUSY, v)
  end.

(** ** Representation *)

Record area_rep (a : swap_area) u : Prop := {
  ar_path : 0 ∈ path a /\ cstr (path a) = vpath u;
  ar_file : file a = vfile u;
  ar_size : size a = vsize u /\ 0 <= vsize u < 2 ^ 20;
  ar_bits : len (bitmap a) = (vsize u + 31) / 32;
  ar_bit : forall j, 0 <= j < vsize u -> bit_at 32 (bitmap a) j = Some (bool_decide (j ∈ vused u));
  ar_range : forall j, j ∈ vused u -> 0 <= j < vsize u;
  ar_used : used a = Z.of_nat (base.size (vused u))
}.

Record table_rep s l : Prop := {
  tr_length : length (swap_areas s) = 8%nat;
  tr_count : swap_area_count s = Z.of_nat (length l) /\ (length l <= 8)%nat;
  tr_areas : forall i u, l !! i = Some u -> exists a, swap_areas s !! i = Some a /\ area_rep a u
}.

Lemma aget_of_nat {A} (l : list A) i : aget l (Z.of_nat i) = l !! i.
Proof. unfold aget. destruct (Z.ltb_spec (Z.of_nat i) 0); [lia|]. by rewrite Nat2Z.id. Qed.

(** Replacing one area. *)
Lemma table_update s l i a u u' : table_rep s l -> l !! i = Some u -> area_rep a u' ->
  exists L, aset (swap_areas s) (Z.of_nat i) a = Some L /\ table_rep (with_areas L (swap_area_count s) s) (<[i := u']> l).
Proof.
  intros [Hl Hc Ha] Hu Hr. pose proof (lookup_lt_Some _ _ _ Hu) as Hi. rewrite aset_Some by lia. eexists. split; [done|]. rewrite Nat2Z.id. split; cbn.
  - by rewrite length_insert.
  - by rewrite length_insert.
  - intros k w. destruct (decide (k = i)) as [->|Hk].
    + rewrite list_lookup_insert_eq by done. intros [= <-]. exists a. split; [|done]. apply list_lookup_insert_eq. lia.
    + rewrite !list_lookup_insert_ne by done. apply Ha.
Qed.

(** ** Allocation *)

Lemma find_page_ok n j bm (X : gset Z) : (forall k, j <= k < j + Z.of_nat n -> bit_at 32 bm k = Some (bool_decide (k ∈ X))) ->
  find_page n j bm = Some (head (filter (fun k => k ∉ X) (seqZ j (Z.of_nat n)))).
Proof.
  revert j. induction n as [|n IH]; intros j H; [done|]. cbn [find_page]. rewrite (H j), bind_Some_l by lia. rewrite seqZ_cons by lia.
  replace (Z.pred (Z.of_nat (S n))) with (Z.of_nat n) by lia. rewrite filter_cons. case_bool_decide as E; case_decide as E'; try done. rewrite Z.add_1_r. apply IH. intros k Hk. apply H. lia.
Qed.

Lemma first_free_ok u : match first_free u with
  | Some j => 0 <= j < vsize u /\ j ∉ vused u /\ forall k, 0 <= k < j -> k ∈ vused u
  | None => forall k, 0 <= k < vsize u -> k ∈ vused u end.
Proof.
  unfold first_free. assert (forall n j, match head (filter (fun k => k ∉ vused u) (seqZ j (Z.of_nat n))) with
    | Some i => j <= i < j + Z.of_nat n /\ i ∉ vused u /\ (forall k, j <= k < i -> k ∈ vused u) | None => forall k, j <= k < j + Z.of_nat n -> k ∈ vused u end) as H.
  { induction n as [|n IH]; intros j; [cbn; intros k Hk; lia|]. rewrite seqZ_cons by lia. replace (Z.pred (Z.of_nat (S n))) with (Z.of_nat n) by lia.
    rewrite filter_cons. case_decide as Hj; cbn [head]; [split; [lia|]; split; [done|intros k Hk; lia]|]. specialize (IH (Z.succ j)). case_match.
    - destruct IH as (H1 & H2 & H3). split; [lia|]. split; [done|]. intros k Hk. destruct (decide (k = j)) as [->|]; [done|]. apply H3. lia.
    - intros k Hk. destruct (decide (k = j)) as [->|]; [done|]. apply IH. lia. }
  destruct (Z.le_gt_cases 0 (vsize u)); [|unfold seqZ; replace (Z.to_nat (vsize u)) with 0%nat by lia; cbn; intros k Hk; lia].
  specialize (H (Z.to_nat (vsize u)) 0). rewrite Z2Nat.id in H by done. case_match; [|intros k Hk; apply H; lia]. by destruct H as (? & ? & ?).
Qed.

(** The count tells whether there is room. *)
Lemma full_ok a u : area_rep a u -> (size a <=? used a) = bool_decide (first_free u = None).
Proof.
  intros [_ _ [Hs Hr] _ _ Hu Hc]. rewrite Hs, Hc. pose proof (first_free_ok u) as H. set (R := list_to_set (seqZ 0 (vsize u)) : gset Z).
  assert (base.size R = Z.to_nat (vsize u)) as HR by (unfold R; rewrite size_list_to_set by apply NoDup_seqZ; apply length_seqZ).
  assert (forall j, j ∈ R <-> 0 <= j < vsize u) as HRj by (intros j; unfold R; rewrite elem_of_list_to_set, elem_of_seqZ; lia).
  assert (vused u ⊆ R) as Hsub by (intros j Hj; apply HRj; by apply Hu). destruct (first_free u) as [j|].
  - rewrite bool_decide_false by done. destruct H as (Hj & Hn & _). apply Z.leb_gt. assert (base.size (vused u) < base.size R)%nat; [|lia].
    apply subset_size. split; [done|]. intros Hc'. apply Hn, Hc', HRj. done.
  - rewrite bool_decide_true by done. apply Z.leb_le. assert (base.size R <= base.size (vused u))%nat; [|lia]. apply subseteq_size. intros j Hj. by apply H, HRj.
Qed.

Lemma entry_bits i j : 0 <= i < 8 -> 0 <= j < 2 ^ 20 -> u32 (Z.lor (Z.shiftl i 24) j) = entry_of i j.
Proof.
  intros Hi Hj. unfold entry_of. rewrite Z.shiftl_mul_pow2 by lia. rewrite <-Z.lxor_lor, <-Z.add_nocarry_lxor; [apply u32_small; lia|..].
  all: apply Z.bits_inj'; intros n Hn; rewrite Z.land_spec, Z.bits_0; destruct (Z.lt_ge_cases n 24).
  all: try (by rewrite Z.mul_pow2_bits_low by lia).
  all: rewrite (Z.bits_above_log2 j n), andb_false_r; [done|lia|]; destruct (decide (j = 0)) as [->|]; [cbn; lia|]; apply Z.log2_lt_pow2; [lia|]; pose proof (Z.pow_le_mono_r 2 20 n); lia.
Qed.

Lemma mark_used_rep a u j bm : area_rep a u -> 0 <= j < vsize u -> j ∉ vused u -> set_bit_at 32 (bitmap a) j = Some bm ->
  area_rep (with_used (u32 (used a + 1)) bm a) (mark_used j u).
Proof.
  intros [Hp Hf [Hs Hr] Hb Hbit Hrange Hu] Hj Hn E. split; cbn; try done.
  - by rewrite (set_bit_length 32 _ _ _ E).
  - intros k Hk. rewrite (bit_at_set 32 ltac:(lia) _ _ _ k E). case_decide as Hkj; [subst; f_equal; symmetry; apply bool_decide_eq_true_2; set_solver|]. rewrite Hbit by done.
    f_equal. apply bool_decide_ext. set_solver.
  - intros k [->%elem_of_singleton|Hk]%elem_of_union; [done|by apply Hrange].
  - rewrite size_union by set_solver. rewrite size_singleton, Hu. assert (base.size (vused u) <= Z.to_nat (vsize u))%nat as Hle.
    { rewrite <-(length_seqZ 0 (vsize u)), <-(size_list_to_set (C:=gset Z)) by apply NoDup_seqZ. apply subseteq_size. intros k Hk. apply elem_of_list_to_set, elem_of_seqZ. specialize (Hrange k Hk). lia. }
    rewrite u32_small; lia.
Qed.

Lemma mark_free_rep a u j bm : area_rep a u -> j ∈ vused u -> clear_bit_at 32 (bitmap a) j = Some bm ->
  area_rep (with_used (u32 (used a - 1)) bm a) (mark_free j u).
Proof.
  intros [Hp Hf [Hs Hr] Hb Hbit Hrange Hu] Hj E. split; cbn; try done.
  - by rewrite (clear_bit_length 32 _ _ _ E).
  - intros k Hk. rewrite (bit_at_clear 32 ltac:(lia) _ _ _ k E). case_decide as Hkj; [subst; f_equal; symmetry; apply bool_decide_eq_false_2; set_solver|]. rewrite Hbit by done.
    f_equal. apply bool_decide_ext. set_solver.
  - intros k [Hk _]%elem_of_difference. by apply Hrange.
  - rewrite size_difference by set_solver. rewrite size_singleton, Hu. assert (0 < base.size (vused u))%nat by (assert (base.size (vused u) <> 0)%nat; [|lia]; rewrite size_non_empty_iff; set_solver).
    assert (base.size (vused u) <= Z.to_nat (vsize u))%nat as Hle.
    { rewrite <-(length_seqZ 0 (vsize u)), <-(size_list_to_set (C:=gset Z)) by apply NoDup_seqZ. apply subseteq_size. intros k Hk. apply elem_of_list_to_set, elem_of_seqZ. specialize (Hrange k Hk). lia. }
    rewrite u32_small; lia.
Qed.

Lemma alloc_from_ok s l1 l2 : table_rep s (l1 ++ l2) ->
  exists L, let s' := with_areas L (swap_area_count s) s in
    alloc_from (length l2) (len l1) s = Some ((v_alloc (len l1) l2).1, s') /\ table_rep s' (l1 ++ (v_alloc (len l1) l2).2).
Proof.
  revert l1. induction l2 as [|u l2 IH]; intros l1 H; cbn [alloc_from v_alloc length].
  { exists (swap_areas s). cbn. destruct s. done. }
  pose proof H as [Hl [Hc H8] Ha]. destruct (Ha (length l1) u) as (a & Ea & Hr); [by apply list_lookup_middle|]. rewrite aget_of_nat, Ea, bind_Some_l.
  rewrite length_app in H8. cbn [length] in H8. rewrite (full_ok a u Hr). destruct (first_free u) as [j|] eqn:Ef.
  - rewrite bool_decide_false by done. pose proof (first_free_ok u) as Hf. rewrite Ef in Hf. destruct Hf as (Hj & Hn & _).
    pose proof Hr as [_ _ [Hs Hsr] Hb Hbit _ _]. rewrite (find_page_ok _ 0 _ (vused u)), bind_Some_l by (intros k Hk; apply Hbit; lia).
    rewrite Z2Nat.id by lia. rewrite Hs. fold (first_free u). rewrite Ef.
    destruct (set_bit_Some 32 ltac:(lia) (bitmap a) j) as [bm E]; [rewrite Hb; pose proof (Z.div_mod (vsize u + 31) 32); pose proof (Z.mod_pos_bound (vsize u + 31) 32); lia|].
    rewrite E, bind_Some_l. destruct (table_update s (l1 ++ u :: l2) (length l1) _ u (mark_used j u) H ltac:(by apply list_lookup_middle) (mark_used_rep a u j bm Hr Hj Hn E)) as (L & EL & HL).
    rewrite EL, bind_Some_l. exists L. cbn [fst snd]. rewrite entry_bits by lia. split; [done|]. rewrite insert_app_r_alt, Nat.sub_diag in HL by lia. exact HL.
  - rewrite bool_decide_true by done. replace (l1 ++ u :: l2) with ((l1 ++ [u]) ++ l2) in H by (by rewrite <-app_assoc). destruct (IH (l1 ++ [u]) H) as (L & E & HL).
    rewrite length_app in E, HL. cbn [length] in E, HL. replace (Z.of_nat (length l1 + 1)) with (len l1 + 1) in E, HL by lia. exists L. cbn [fst snd]. rewrite <-app_assoc in HL. done.
Qed.

Lemma swap_alloc_ok s l : table_rep s l ->
  exists L, let s' := with_areas L (swap_area_count s) s in swap_alloc s = Some ((v_alloc 0 l).1, s') /\ table_rep s' (v_alloc 0 l).2.
Proof.
  intros H. destruct (alloc_from_ok s [] l H) as (L & E & HL). exists L. cbv zeta. split; [|exact HL].
  unfold swap_alloc. destruct (tr_count _ _ H) as [Hc _]. rewrite Hc at 1. rewrite Nat2Z.id. exact E.
Qed.

(** ** Release *)

Lemma entry_parts e : 0 <= e < 2 ^ 32 -> Z.land (Z.shiftr e 24) 255 = e / 2 ^ 24 /\ Z.land e 0xFFFFFF = e mod 2 ^ 24.
Proof.
  intros He. rewrite Z.shiftr_div_pow2 by lia. change 255 with (Z.ones 8). change 0xFFFFFF with (Z.ones 24). rewrite !Z.land_ones by lia. split; [|done].
  apply Z.mod_small. split; [apply Z.div_pos; lia|]. apply Z.div_lt_upper_bound; lia.
Qed.

Lemma check_entry_ok s l e : table_rep s l -> 0 <= e < 2 ^ 32 ->
  match entry_used e l with
  | Some (i, u, j) => exists a, check_entry e s = Some (Some (Z.of_nat i, a, j)) /\ swap_areas s !! i = Some a /\ area_rep a u /\ l !! i = Some u /\ j ∈ vused u /\ e = entry_of (Z.of_nat i) j /\ (i < 8)%nat
  | None => check_entry e s = Some None
  end.
Proof.
  intros [Hl [Hc H8] Ha] He. unfold check_entry. destruct (entry_parts e He) as [-> ->]. rewrite Hc, u32_small by lia. unfold entry_used.
  assert (0 <= e / 2 ^ 24) as Hi by (apply Z.div_pos; lia). pose proof (Z.mod_pos_bound e (2 ^ 24) ltac:(lia)) as Hj. pose proof (Z.div_mod e (2 ^ 24) ltac:(lia)) as Hd.
  destruct (Z.leb_spec (len l) (e / 2 ^ 24)); [by rewrite lookup_ge_None_2 by lia|].
  destruct (lookup_lt_is_Some_2 l (Z.to_nat (e / 2 ^ 24))) as [u Hu]; [lia|]. rewrite Hu, bind_Some_l. destruct (Ha _ _ Hu) as (a & Ea & Hr).
  assert (aget (swap_areas s) (e / 2 ^ 24) = Some a) as Eg by (unfold aget; destruct (Z.ltb_spec (e / 2 ^ 24) 0); [lia|done]).
  rewrite Eg, bind_Some_l. destruct (ar_size _ _ Hr) as [Hs _]. rewrite Hs.
  destruct (Z.leb_spec (vsize u) (e mod 2 ^ 24)) as [Hge|Hlt].
  - case_decide as Hin; [|done]. apply (ar_range _ _ Hr) in Hin. lia.
  - rewrite (ar_bit _ _ Hr), bind_Some_l by lia. case_decide as Hin; [|by rewrite bool_decide_false by done]. rewrite bool_decide_true by done.
    exists a. rewrite Z2Nat.id by done. split_and!; try done; [unfold entry_of|]; lia.
Qed.

Lemma swap_free_ok s l e : table_rep s l -> 0 <= e < 2 ^ 32 ->
  exists L, let s' := with_areas L (swap_area_count s) s in swap_free e s = Some ((v_free e l).1, s') /\ table_rep s' (v_free e l).2.
Proof.
  intros H He. unfold swap_free, v_free. assert (with_areas (swap_areas s) (swap_area_count s) s = s) as Hs by (by destruct s).
  destruct (Z.eqb_spec e 0); [exists (swap_areas s); cbn; by rewrite Hs|]. pose proof (check_entry_ok s l e H He) as Hce.
  destruct (entry_used e l) as [[[i u] j]|]; [|rewrite Hce, bind_Some_l; exists (swap_areas s); cbn; by rewrite Hs].
  destruct Hce as (a & -> & Ea & Hr & Hu & Hj & _ & _). rewrite bind_Some_l. pose proof (ar_range _ _ Hr j Hj) as Hjr.
  destruct (clear_bit_Some 32 ltac:(lia) (bitmap a) j) as [bm E]; [rewrite (ar_bits _ _ Hr); pose proof (Z.div_mod (vsize u + 31) 32); pose proof (Z.mod_pos_bound (vsize u + 31) 32); lia|].
  rewrite E, bind_Some_l. destruct (table_update s l i _ u (mark_free j u) H Hu (mark_free_rep a u j bm Hr Hj E)) as (L & EL & HL). rewrite EL, bind_Some_l. by exists L.
Qed.

(** ** Areas *)

Lemma copy_name_cstr n name : 0 ∈ name -> exists p, copy_name n name = Some p /\ 0 ∈ p /\ cstr p = take n (cstr name).
Proof.
  revert name. induction n as [|n IH]; intros name Hn; cbn [copy_name]; [exists [0]; split_and!; [done|set_solver|done]|].
  destruct name as [|c name]; [by apply not_elem_of_nil in Hn|]. cbn [head tail]. rewrite bind_Some_l. cbn [cstr]. destruct (Z.eqb_spec c 0) as [->|Hc].
  - eexists. split; [done|]. cbn. split; [set_solver|done].
  - destruct (IH name) as (p & E & Hp & Hq); [apply elem_of_cons in Hn as [?|?]; [lia|done]|]. cbn in E |- *. rewrite E. cbn. eexists. split; [done|]. split; [set_solver|].
    cbn. destruct (Z.eqb_spec c 0); [done|]. by rewrite Hq.
Qed.

Lemma swap_add_ok s l name bytes mem : table_rep s l -> 0 ∈ name -> 0 <= bytes < 2 ^ 32 ->
  exists s', swap_add (Some name) bytes mem s = Some ((v_add name bytes mem (l, dev s)).1, s') /\ mon s' = mon s /\
    table_rep s' (v_add name bytes mem (l, dev s)).2.1 /\ dev s' = (v_add name bytes mem (l, dev s)).2.2.
Proof.
  intros H Hn Hb. pose proof H as [Hl [Hc H8] Ha]. unfold swap_add, v_add. cbn [fst snd]. destruct (Z.eqb_spec bytes 0); [by exists s|]. rewrite Hc. unfold MAX_SWAP_AREAS.
  destruct (Z.leb_spec 8 (len l)); [by exists s|]. destruct (fs_open name (dev s)) as [[f|] d]; [|eexists; split_and!; try done; by split].
  destruct mem; cbn [negb]; [|eexists; split_and!; try done; by split]. destruct (copy_name_cstr 255 name Hn) as (p & -> & Hp & Hq). rewrite bind_Some_l.
  rewrite aset_Some, bind_Some_l by lia. eexists. split; [done|]. cbn [fst snd mon with_areas with_dev]. split; [done|]. split; [|done]. rewrite Nat2Z.id. split; cbn [swap_areas swap_area_count with_areas].
  - by rewrite length_insert.
  - rewrite length_app. cbn. lia.
  - intros i u Hu. destruct (decide (i = length l)) as [->|Hi].
    + rewrite list_lookup_middle in Hu by done. injection Hu as <-. eexists. split; [apply list_lookup_insert_eq; lia|].
      assert (0 <= bytes / PAGE_SIZE < 2 ^ 20) as Hr by (unfold PAGE_SIZE; split; [apply Z.div_pos; lia|apply Z.div_lt_upper_bound; lia]).
      assert (0 <= (bytes / PAGE_SIZE + 31) / 32) as Hq0 by (apply Z.div_pos; lia).
      split; cbn; try done; try (by set_solver).
      * rewrite length_replicate. lia.
      * intros j Hj. rewrite bool_decide_false by set_solver. unfold bit_at. rewrite <-(Z2Nat.id (j / 32)) by (apply Z.div_pos; lia). rewrite aget_of_nat.
        rewrite lookup_replicate_2; [cbn; by rewrite Z.bits_0|]. apply Z2Nat.inj_lt; [apply Z.div_pos; lia|lia|]. pose proof (Z.div_mod j 32). pose proof (Z.mod_pos_bound j 32).
        pose proof (Z.div_mod (bytes / PAGE_SIZE + 31) 32). pose proof (Z.mod_pos_bound (bytes / PAGE_SIZE + 31) 32). lia.
    + pose proof (lookup_lt_Some _ _ _ Hu) as Hlt. rewrite length_app in Hlt. cbn in Hlt. rewrite lookup_app_l in Hu by lia. rewrite list_lookup_insert_ne by lia. by apply Ha.
Qed.

Lemma find_area_ok s l l1 l2 name : table_rep s l -> l = l1 ++ l2 -> 0 ∈ name ->
  find_area (length l2) (len l1) name (swap_areas s) = Some (match list_find (fun u => vpath u = cstr name) l2 with Some (i, _) => Z.of_nat (length l1 + i) | None => len l end).
Proof.
  intros H -> Hn. revert l1 H. induction l2 as [|u l2 IH]; intros l1 H; cbn [find_area length list_find]; [by rewrite app_nil_r|].
  destruct (tr_areas _ _ H (length l1) u) as (a & Ea & Hr); [by apply list_lookup_middle|]. rewrite aget_of_nat, Ea, bind_Some_l.
  destruct (strcmp_cstr (path a) name) as (r & -> & Er); [apply (ar_path _ _ Hr)|done|]. rewrite bind_Some_l. rewrite Er. destruct (ar_path _ _ Hr) as [_ ->].
  clear Er r. case_bool_decide as Ep; case_decide as Ep'; try done; [by rewrite Nat.add_0_r|].
  replace (l1 ++ u :: l2) with ((l1 ++ [u]) ++ l2) in * by (by rewrite <-app_assoc). pose proof (IH (l1 ++ [u]) H) as E. rewrite length_app in E. cbn [length] in E.
  replace (Z.of_nat (length l1 + 1)) with (len l1 + 1) in E by lia. rewrite E. destruct (list_find _ l2) as [[i w]|]; cbn; f_equal; lia.
Qed.

Lemma shift_areas_ok n j (L : list swap_area) : (j + n < length L)%nat ->
  exists L', shift_areas n (Z.of_nat j) L = Some L' /\ length L' = length L /\
    forall k, L' !! k = if decide (j <= k < j + n)%nat then L !! S k else L !! k.
Proof.
  revert j L. induction n as [|n IH]; intros j L Hj; cbn [shift_areas]; [exists L; split_and!; [done..|]; intros k; rewrite decide_False by lia; done|].
  replace (Z.of_nat j + 1) with (Z.of_nat (S j)) by lia. rewrite aget_of_nat. destruct (lookup_lt_is_Some_2 L (S j)) as [a Ea]; [lia|]. rewrite Ea, bind_Some_l.
  rewrite aset_Some, bind_Some_l by lia. rewrite Nat2Z.id. destruct (IH (S j) (<[j := a]> L)) as (L' & E & Hl & Hk); [rewrite length_insert; lia|].
  exists L'. rewrite length_insert in Hl. split_and!; [done..|]. intros k. rewrite Hk. destruct (decide (S j <= k < S j + n)%nat).
  - rewrite decide_True by lia. rewrite list_lookup_insert_ne by lia. done.
  - destruct (decide (k = j)) as [->|Hkj]; [rewrite decide_True by lia; rewrite list_lookup_insert_eq by lia; done|]. rewrite decide_False by lia. by rewrite list_lookup_insert_ne by lia.
Qed.

Lemma swap_remove_ok s l name : table_rep s l -> 0 ∈ name ->
  exists s', swap_remove (Some name) s = Some ((v_remove name (l, dev s)).1, s') /\ mon s' = mon s /\
    table_rep s' (v_remove name (l, dev s)).2.1 /\ dev s' = (v_remove name (l, dev s)).2.2.
Proof.
  intros H Hn. pose proof H as [Hl [Hc H8] Ha]. unfold swap_remove, v_remove. cbn [fst snd]. rewrite Hc, Nat2Z.id.
  pose proof (find_area_ok s l [] l name H eq_refl Hn) as E0. cbn [length plus] in E0. change (Z.of_nat 0) with 0 in E0. rewrite E0, bind_Some_l. clear E0. destruct (list_find _ l) as [[i u]|] eqn:Ef; [|rewrite Z.eqb_refl; by exists s].
  apply list_find_Some in Ef as (Hu & Hp & _). pose proof (lookup_lt_Some _ _ _ Hu) as Hi. destruct (Z.eqb_spec (Z.of_nat i) (len l)); [lia|].
  destruct (Ha i u Hu) as (a & Ea & Hr). rewrite aget_of_nat, Ea, bind_Some_l. rewrite (ar_used _ _ Hr).
  destruct (decide (vused u = ∅)) as [He|He].
  - rewrite He, size_empty. cbn [Z.of_nat Z.ltb Z.compare]. destruct (shift_areas_ok (Z.to_nat (len l - 1 - Z.of_nat i)) i (swap_areas s)) as (L & EL & HL & HLk); [lia|].
    rewrite EL, bind_Some_l. eexists. split; [done|]. cbn [fst snd mon with_areas with_dev dev]. rewrite (ar_file _ _ Hr). split; [done|]. split; [|done]. split; cbn [swap_areas swap_area_count with_areas].
    + by rewrite HL.
    + rewrite length_delete by done. lia.
    + intros k w Hk. rewrite HLk. destruct (decide (k < i)%nat).
      * rewrite decide_False by lia. rewrite list_lookup_delete_lt in Hk by lia. by apply Ha.
      * rewrite list_lookup_delete_ge in Hk by lia. pose proof (lookup_lt_Some _ _ _ Hk). rewrite decide_True by lia. by apply Ha.
  - assert (base.size (vused u) <> 0)%nat by (rewrite size_non_empty_iff; set_solver). destruct (Z.ltb_spec 0 (Z.of_nat (base.size (vused u)))); [|lia]. by exists s.
Qed.

(** ** Sequences of calls *)

Inductive op := Add (name : list Z) (bytes : Z) (mem : bool) | Remove (name : list Z) | Alloc | Free (e : Z).

Definition perform (o : op) s : option (Z * swap D) :=
  match o with Add n b m => swap_add (Some n) b m s | Remove n => swap_remove (Some n) s | Alloc => swap_alloc s | Free e => swap_free e s end.

Definition spec (o : op) (v : list slots * D) : Z * (list slots * D) :=
  match o with
  | Add n b m => v_add n b m v
  | Remove n => v_remove n v
  | Alloc => let r := v_alloc 0 v.1 in (r.1, (r.2, v.2))
  | Free e => let r := v_free e v.1 in (r.1, (r.2, v.2))
  end.

(** Names end with a zero; sizes and entries are 32-bit. *)
Definition allowed (o : op) : Prop :=
  match o with Add n b _ => 0 ∈ n /\ 0 <= b < 2 ^ 32 | Remove n => 0 ∈ n | Alloc => True | Free e => 0 <= e < 2 ^ 32 end.

Fixpoint run (os : list op) s : option (list Z * swap D) :=
  match os with [] => Some ([], s) | o :: os => r ← perform o s; q ← run os r.2; Some (r.1 :: q.1, q.2) end.
Fixpoint spec_run (os : list op) v : list Z * (list slots * D) :=
  match os with [] => ([], v) | o :: os => let r := spec o v in let t := spec_run os r.2 in (r.1 :: t.1, t.2) end.

Lemma swap_perform_ok o s l : table_rep s l -> allowed o ->
  exists s', perform o s = Some ((spec o (l, dev s)).1, s') /\ mon s' = mon s /\ table_rep s' (spec o (l, dev s)).2.1 /\ dev s' = (spec o (l, dev s)).2.2.
Proof.
  intros H Ha. destruct o as [n b m|n| |e]; cbn [perform spec allowed] in *.
  - destruct Ha. by apply swap_add_ok.
  - by apply swap_remove_ok.
  - destruct (swap_alloc_ok s l H) as (L & E & HL). eexists. split; [exact E|]. done.
  - destruct (swap_free_ok s l e H Ha) as (L & E & HL). eexists. split; [exact E|]. done.
Qed.

(** C14: any sequence of adding and removing areas and of allocating and releasing entries
    runs without a fault and gives the answers of a list of areas with sets of used pages:
    allocation takes the first page that is not used in the first area that has one, the
    bitmap and the counter of an area always agree with its set, only used entries are
    released, and an area is removed only when none of its pages is used. *)
Theorem swap_table_refines os s l : table_rep s l -> Forall allowed os ->
  exists s', run os s = Some ((spec_run os (l, dev s)).1, s') /\ table_rep s' (spec_run os (l, dev s)).2.1 /\ dev s' = (spec_run os (l, dev s)).2.2.
Proof.
  intros H Ha. revert s l H. induction Ha as [|o os Ho Ha IH]; intros s l H; [by exists s|]. destruct (swap_perform_ok o s l H Ho) as (s1 & E1 & _ & H1 & Hd1).
  destruct (IH s1 _ H1) as (s2 & E2 & H2 & Hd2). rewrite Hd1, <-surjective_pairing in E2, H2, Hd2. exists s2. cbn [run spec_run]. rewrite E1, bind_Some_l. cbn [fst snd]. by rewrite E2, bind_Some_l.
Qed.

End Spec.

(** ** Entries are given out once *)

Lemma v_alloc_used i l e l' : 0 <= i -> i + len l <= 8 -> Forall (fun u => 0 <= vsize u < 2 ^ 20) l -> v_alloc i l = (e, l') -> e <> 0 ->
  exists n u j, e = entry_of (i + Z.of_nat n) j /\ l !! n = Some u /\ 0 <= j < vsize u /\ j ∉ vused u /\ l' = <[n := mark_used j u]> l.
Proof.
  revert i e l'. induction l as [|u l IH]; intros i e l' Hi H8 Hl; cbn [v_alloc]; [intros [= <- <-] He; by destruct He|]. inversion_clear Hl as [|? ? Hu Hl']. cbn [length] in H8.
  pose proof (first_free_ok u) as Hf. destruct (first_free u) as [j|].
  - intros [= <- <-] _. exists 0%nat, u, j. rewrite Z.add_0_r. destruct Hf as (? & ? & _). done.
  - destruct (v_alloc (i + 1) l) as [e1 l1] eqn:E. intros [= <- <-] He. destruct (IH (i + 1) e1 l1 ltac:(lia) ltac:(lia) Hl' E He) as (n & w & j & -> & Hw & Hj & Hn & ->).
    exists (S n), w, j. split; [f_equal; lia|]. done.
Qed.

(** An allocation that succeeds gives an entry that was not used, and marks it and nothing
    else; a release makes an entry unused, and nothing else. *)
Lemma entry_used_of l i u j : l !! i = Some u -> 0 <= j < 2 ^ 24 -> entry_used (entry_of (Z.of_nat i) j) l = if decide (j ∈ vused u) then Some (i, u, j) else None.
Proof.
  intros Hu Hj. unfold entry_used, entry_of. rewrite Z.div_add_l, Z.div_small, Z.add_0_r, Nat2Z.id, Hu by lia. cbn [mbind option_bind].
  rewrite (Z.add_comm _ j), Z.mod_add, Z.mod_small by lia. done.
Qed.

(** An entry that [swap_alloc] returns was not in use; afterwards it is, and every
    other entry is in use exactly if it was before. *)
Theorem swap_alloc_fresh {D : Type} `{!Files D} (s : swap D) l : table_rep s l ->
  exists e s' l', swap_alloc s = Some (e, s') /\ table_rep s' l' /\
    (e <> 0 -> entry_used e l = None /\ is_Some (entry_used e l') /\
      forall x, 0 <= x -> x <> e -> (is_Some (entry_used x l') <-> is_Some (entry_used x l))).
Proof.
  intros H. destruct (swap_alloc_ok s l H) as (L & E & HL). do 3 eexists. split; [exact E|]. split; [exact HL|]. intros He.
  destruct H as [_ [_ H8] Ha]. destruct (v_alloc 0 l) as [e l'] eqn:Ev. cbn [fst snd] in *.
  destruct (v_alloc_used 0 l e l' ltac:(lia) ltac:(lia)) as (n & u & j & -> & Hu & Hj & Hn & ->); [|done..|].
  { apply Forall_lookup. intros i u Hu. destruct (Ha i u Hu) as (a & _ & Hr). apply (ar_size _ _ Hr). }
  destruct (Ha n u Hu) as (a & _ & Hr). destruct (ar_size _ _ Hr) as [_ Hsz]. rewrite Z.add_0_l in *. pose proof (lookup_lt_Some _ _ _ Hu) as Hnl.
  split; [by rewrite (entry_used_of l n u j) by lia || done; rewrite decide_False by done|]. split.
  - rewrite (entry_used_of _ n (mark_used j u) j); [|by apply list_lookup_insert_eq|lia]. rewrite decide_True; [by eexists|]. cbn. set_solver.
  - intros x Hx Hne. unfold entry_used. destruct (decide (Z.to_nat (x / 2 ^ 24) = n)) as [Hi|Hi].
    + subst n. rewrite list_lookup_insert_eq by done. rewrite Hu. cbn [mbind option_bind mark_used vused].
      assert (x mod 2 ^ 24 <> j) as Hjx. { intros <-. apply Hne. unfold entry_of. rewrite Z2Nat.id by (apply Z.div_pos; lia). rewrite (Z.div_mod x (2 ^ 24)) at 1; lia. }
      repeat case_decide; try done; set_solver.
    + by rewrite list_lookup_insert_ne by done.
Qed.

(** ** Witnesses and what goes wrong *)

Definition start : swap (gmap Z (Z * gmap Z Z)) :=
  swap_init (mk_swap [] 0 0 0 0 0 (swap_monitor_init (mk_monitor 0 0 0 0 0 0 0 0 0 0 0 0 0 0 0 0 0 0 1 swap_compress_init)) ∅).

Lemma start_ok : table_rep start [].
Proof. split; [done|split; [done|cbn; lia]|]. intros i u Hu. by rewrite lookup_nil in Hu. Qed.

(** Two areas of two pages and of one page: the first allocation is lost, the second page
    and the page of the second area are given out, and released. *)
Lemma swap_table_refines_witness : exists s', run [Add [97; 0] 8192 true; Add [98; 0] 4096 true; Alloc; Alloc; Alloc; Alloc; Remove [97; 0]; Free 16777216; Remove [98; 0]; Free 1] start =
  Some ([0; 0; 0; 1; 16777216; 0; - EBUSY; 0; 0; 0], s').
Proof.
  destruct (swap_table_refines [Add [97; 0] 8192 true; Add [98; 0] 4096 true; Alloc; Alloc; Alloc; Alloc; Remove [97; 0]; Free 16777216; Remove [98; 0]; Free 1] start [] start_ok) as (s' & E & _).
  - repeat constructor; cbn; set_solver by lia.
  - exists s'. exact E.
Defined.

(** An area of four pages whose first page has been allocated. *)
Lemma two_steps : exists s, run [Add [97; 0] 16384 true; Alloc] start = Some ([0; 0], s) /\ mon s = mon start /\ table_rep s [mk_slots [97] 1 4 {[ 0 ]}].
Proof.
  destruct (swap_perform_ok (Add [97; 0] 16384 true) start [] start_ok) as (s1 & E1 & M1 & H1 & D1); [cbn; set_solver by lia|].
  destruct (swap_perform_ok Alloc s1 _ H1 I) as (s2 & E2 & M2 & H2 & _). exists s2. cbn [run]. rewrite E1, bind_Some_l. cbn [snd]. rewrite E2, bind_Some_l. cbn [mbind option_bind run fst snd].
  split; [by vm_compute|]. split; [congruence|]. replace [mk_slots [97] 1 4 {[0]}] with (spec Alloc ((spec (Add [97; 0] 16384 true) ([], dev start)).2.1, dev s1)).2.1; [done|by vm_compute].
Qed.

Lemma swap_alloc_fresh_witness : exists s e s' l', run [Add [97; 0] 16384 true; Alloc] start = Some ([0; 0], s) /\ swap_alloc s = Some (e, s') /\ e = 1 /\ table_rep s' l' /\ is_Some (entry_used 1 l').
Proof.
  destruct two_steps as (s & E & _ & Hr). destruct (swap_alloc_fresh s _ Hr) as (e & s' & l' & Ea & Hr' & H). exists s, e, s', l'. split; [exact E|]. split; [exact Ea|].
  assert (e = 1) as -> by (vm_compute in E; injection E as <-; vm_compute in Ea; by injection Ea as <- _). split; [done|]. split; [done|].
  destruct (H ltac:(lia)) as (_ & H1 & _). exact H1.
Defined.

(** The first page of the first area is entry 0, which [swap_alloc] also returns when there
    is no room: the page is marked, can never be released, and the area never removed. *)
Lemma first_entry_lost : exists s, run [Add [97; 0] 8192 true; Alloc; Free 0; Remove [97; 0]] start = Some ([0; 0; - EINVAL; - EBUSY], s) /\
  exists s1, run [Add [97; 0] 8192 true] start = Some ([0], s1) /\ (forall a, swap_areas s1 !! 0%nat = Some a -> used a = 0) /\
  forall a, swap_areas s !! 0%nat = Some a -> used a = 1.
Proof. eexists. split; [by vm_compute|]. eexists. split; [by vm_compute|]. split; intros a; vm_compute; by intros [= <-]. Qed.

(** Removing an area moves the later ones down: an entry of the second area then names the
    first, and releasing it is refused although its page is still marked. *)
Lemma remove_renumbers : exists s, run [Add [97; 0] 100 true; Add [98; 0] 8192 true; Alloc; Remove [97; 0]; Free 16777216] start =
  Some ([0; 0; 16777216; 0; - EINVAL], s) /\ forall a, swap_areas s !! 0%nat = Some a -> used a = 1.
Proof. eexists. split; [by vm_compute|]. intros a. vm_compute. by intros [= <-]. Qed.

End SwapSpec.
