(* ===== verification/SwapStore.v ===== *)
(** Swapped pages: what [swap_write] leaves in the swap file and what [swap_read] finds
    there. Entries refine a map from entries to pages as long as the pages are small enough
    when compressed; other pages run into their neighbours or come back changed. *)

From S2P Require Import Prelude Bytes CStr SwapCompress SwapMonitor Swap SwapFiles SwapSpec.

Module SwapStore.
Import Bytes CStr SwapCompress SwapMonitor Swap SwapFiles SwapSpec.

(** ** Pages in the file *)

(** What is stored for a page: the size of its code and the code. *)
Definition code (page : list Z) : list Z := flat (encode page).
Definition image (page : list Z) : list Z := le 4 (len (code page)) ++ code page.


Lemma image_length page : len (image page) = 4 + len (code page).
Proof. unfold image. rewrite length_app, le_length. lia. Qed.

Lemma code_pos page : len page = PAGE_SIZE -> 0 < len (code page) <= 2 * PAGE_SIZE.
Proof.
  intros H. unfold code. rewrite flat_length. pose proof (encode_bound page). split; [|lia].
  assert (length (encode page) <> 0)%nat; [|lia]. intros E%nil_length_inv. pose proof (decode_encode page) as Hd. rewrite E in Hd. cbn in Hd. subst page. cbn in H. discriminate H.
Qed.

(** ** The monitor does not get in the way *)

(** Off, or on with fewer than [2 ^ 46] pages counted after [n] more transfers. *)
Definition safe (n : Z) (m : monitor) : Prop :=
  1 <= current_algo (comp m) <= 3 /\ (enabled m = 0 \/ Ok m /\ in_total m + n < 2 ^ 46 /\ out_total m + n < 2 ^ 46).

Lemma safe_comp n m c : safe n m -> current_algo c = current_algo (comp m) -> safe n (with_comp c m).
Proof.
  intros [Ha [He|(H & Hi & Ho)]] Hc; (split; [cbn; lia|]); [by left|]. right. split; [|done]. destruct H. split; cbn; try done. by rewrite Hc.
Qed.

Lemma update_algo i o t m m' : swap_monitor_update i o t m = Some m' -> 1 <= current_algo (comp m) <= 3 -> 1 <= current_algo (comp m') <= 3.
Proof.
  unfold swap_monitor_update. destruct (enabled m =? 0); [by intros [= <-]|]. case_match; [|intros [= <-]; cbn; lia]. unfold update_rates.
  intros (? & _ & E)%bind_Some. apply bind_Some in E as (? & _ & E). apply bind_Some in E as (p & _ & [= <-]). cbn. intros Ha.
  destruct (negb (auto_adjust m =? 0) && (threshold m <? p)); cbn; [|lia]. unfold swap_monitor_adjust, swap_priority_set_algo, swap_compress_set_algo. cbn.
  destruct (90 <? p) eqn:E1; [|destruct (75 <? p) eqn:E2]; cbn; rewrite ?E1, ?E2; cbn; done.
Qed.

Lemma safe_update n i o t m : safe (n + 1) m -> 0 <= n -> 0 <= i -> 0 <= o -> i + o <= 1 -> exists m', swap_monitor_update i o t m = Some m' /\ safe n m'.
Proof.
  intros [Ha H] Hn Hi Ho Hio. assert (exists m', swap_monitor_update i o t m = Some m' /\ (enabled m' = 0 \/ Ok m' /\ in_total m' + n < 2 ^ 46 /\ out_total m' + n < 2 ^ 46)) as (m' & E & H').
  - destruct (Z.eq_dec (enabled m) 0) as [He|He]; [exists m; split; [unfold swap_monitor_update; by rewrite He|by left]|]. destruct H as [H|(H & H1 & H2)]; [done|].
    destruct (monitor_update_correct i o t m H He Hi Ho ltac:(lia) ltac:(lia)) as (m' & E & H' & E1 & E2 & _). exists m'. split; [done|]. right. split; [done|]. lia.
  - exists m'. split; [done|]. split; [by eapply update_algo|done].
Qed.

(** ** Compression of a page *)

Lemma compress_page_ok page buf c : len page = PAGE_SIZE -> len buf = 2 * PAGE_SIZE -> 1 <= current_algo c <= 3 ->
  exists c', swap_compress_page (Some page) (Some buf) PAGE_SIZE (PAGE_SIZE * 2) c = Some (len (code page), Some (code page ++ drop (length (code page)) buf), c') /\ current_algo c' = current_algo c.
Proof.
  intros Hp Hb Hc. pose proof (code_pos page Hp) as Hk. destruct (compress_ok page buf) as (ret & dst & E & H); [unfold PAGE_SIZE in *; lia..|]. unfold fills in H.
  rewrite Hp, Hb in E. rewrite Hb in H. unfold code in Hk. rewrite flat_length in Hk. destruct (Z.leb_spec (2 * len (encode page)) (2 * PAGE_SIZE)); [|lia]. destruct H as [-> ->].
  unfold swap_compress_page, by_algorithm, swap_compress_zlib, swap_compress_zstd. rewrite (Z.mul_comm PAGE_SIZE 2), E. change ((PAGE_SIZE =? 0) || (2 * PAGE_SIZE =? 0)) with false. cbn [app].
  assert (current_algo c = 1 \/ current_algo c = 2 \/ current_algo c = 3) as Hc' by lia. exists (compressed PAGE_SIZE (2 * len (encode page)) c). unfold code. rewrite flat_length.
  replace (Z.of_nat (2 * length (encode page))) with (2 * len (encode page)) by lia.
  split; [|done]. destruct Hc' as [-> | [-> | ->]]; cbn [Z.eqb SWAP_COMPRESS_NONE SWAP_COMPRESS_LZ4 SWAP_COMPRESS_ZLIB SWAP_COMPRESS_ZSTD Pos.eqb fmap option_fmap option_map];
    rewrite bind_Some_l; (destruct (Z.leb_spec (2 * len (encode page)) 0); [lia|done]).
Qed.


(** ** One page *)

Section Store.
Context {D : Type} `{!Files D} `{!FilesLaws D} `{!Reliable D}.
Implicit Types (s : swap D) (d : D) (page : list Z).

Definition bytes_at d (f p n : Z) : list Z := map (content d f) (seqZ p n).
Definition holds_page d (f p : Z) page : Prop := bytes_at d f p (len (image page)) = image page.

Lemma bytes_at_app d f p a b : 0 <= a -> 0 <= b -> bytes_at d f p (a + b) = bytes_at d f p a ++ bytes_at d f (p + a) b.
Proof. intros Ha Hb. unfold bytes_at. by rewrite seqZ_app, map_app by done. Qed.

Lemma bytes_at_ext d d' f p n : (forall o, p <= o < p + n -> content d' f o = content d f o) -> bytes_at d' f p n = bytes_at d f p n.
Proof. intros H. apply map_ext_in. intros o Ho%list_elem_of_In%elem_of_seqZ. apply H. lia. Qed.

(** Writing a size and the code behind it. *)
Lemma write_image_ok f page d d1 d2 r1 r2 : fs_write f (le 4 (len (code page))) d = (r1, d1) -> fs_write f (code page) d1 = (r2, d2) ->
  r1 = 4 /\ r2 = len (code page) /\ holds_page d2 f (position d f) page /\
  forall g o, g <> f \/ o < position d f \/ position d f + len (image page) <= o -> content d2 g o = content d g o.
Proof.
  intros E1 E2. pose proof (write_full f (le 4 (len (code page))) d) as H1. rewrite E1, le_length in H1. cbn in H1. pose proof (write_full f (code page) d1) as H2. rewrite E2 in H2. cbn in H2. subst r1 r2.
  destruct (write_bytes _ _ _ _ _ E1) as [B1 P1]; [by rewrite le_length|]. destruct (write_bytes _ _ _ _ _ E2) as [B2 _]; [done|]. rewrite le_length in B1, P1. change (Z.of_nat 4) with 4 in *.
  split; [done|]. split; [done|]. rewrite image_length. split.
  - unfold holds_page. rewrite image_length, bytes_at_app by lia. unfold image. f_equal; [|by rewrite P1 in B2]. rewrite <-B1. apply bytes_at_ext. intros o Ho.
    apply (write_other _ _ _ _ _ _ _ E2). rewrite P1. right. left. lia.
  - intros g o Ho. rewrite (write_other _ _ _ _ _ _ _ E2) by (rewrite P1; lia). apply (write_other _ _ _ _ _ _ _ E1). rewrite le_length. lia.
Qed.

(** The part of the state that transfers do not change. *)
Definition same_table s s' : Prop := swap_areas s' = swap_areas s /\ swap_area_count s' = swap_area_count s.


Lemma swap_write_ok s l e i u j page buf t n : table_rep s l -> 0 < e < 2 ^ 32 -> entry_used e l = Some (i, u, j) -> len page = PAGE_SIZE -> len buf = 2 * PAGE_SIZE ->
  safe (n + 1) (mon s) -> 0 <= n ->
  exists s', swap_write e (Some page) (Some buf) t s = Some (0, s') /\ same_table s s' /\ safe n (mon s') /\ holds_page (dev s') (vfile u) (j * PAGE_SIZE) page /\
    forall g o, g <> vfile u \/ o < j * PAGE_SIZE \/ j * PAGE_SIZE + len (image page) <= o -> content (dev s') g o = content (dev s) g o.
Proof.
  intros H He Hu Hp Hb Hm Hn. pose proof (check_entry_ok s l e H ltac:(lia)) as Hc. rewrite Hu in Hc. destruct Hc as (a & Ec & Ea & Hr & Hl & Hj & _ & _).
  unfold swap_write. destruct (Z.eqb_spec e 0); [lia|]. rewrite Ec, bind_Some_l. destruct (compress_page_ok page buf (comp (mon s)) Hp Hb) as (c & E & Hca); [apply Hm|].
  rewrite E, bind_Some_l. cbv zeta. rewrite bind_Some_l. pose proof (code_pos page Hp) as Hk. destruct (Z.ltb_spec (len (code page)) 0); [lia|].
  pose proof (ar_range _ _ Hr j Hj) as Hjr. destruct (ar_size _ _ Hr) as [_ Hsz]. rewrite u32_small by (unfold PAGE_SIZE; lia). rewrite (ar_file _ _ Hr). change (dev (with_compress c s)) with (dev s).
  set (d0 := fs_seek (vfile u) (j * PAGE_SIZE) (dev s)). destruct (fs_write (vfile u) (le 4 (len (code page))) d0) as [r1 d1] eqn:E1. rewrite take_app_length' by lia.
  destruct (fs_write (vfile u) (code page) d1) as [r2 d2] eqn:E2. destruct (write_image_ok _ _ _ _ _ _ _ E1 E2) as (-> & -> & Hh & Ho).
  cbn [negb Z.eqb Pos.eqb]. destruct (Z.ltb_spec (len (code page ++ drop (length (code page)) buf)) (len (code page))); [rewrite length_app in *; lia|]. rewrite Z.eqb_refl. cbn [negb].
  destruct (safe_update n 0 1 t (mon (with_compress c s))) as (m & Em & Hm'); [by apply safe_comp|lia..|].
  rewrite Em, bind_Some_l. eexists. split; [done|]. split; [done|]. split; [exact Hm'|]. cbn [dev wrote with_dev]. unfold d0 in Hh, Ho. rewrite seek_position in Hh, Ho. split; [done|].
  intros g o Hg. rewrite Ho by done. apply seek_content.
Qed.

Lemma read_whole f n d : 0 <= n -> exists d', fs_read f n d = (n, bytes_at d f (position d f) n, d') /\ position d' f = position d f + n /\ forall g o, content d' g o = content d g o.
Proof.
  intros Hn. destruct (fs_read f n d) as [[r b] d'] eqn:E. pose proof (read_full f n d Hn) as Hr. rewrite E in Hr. cbn in Hr. subst r.
  destruct (read_bytes _ _ _ _ _ _ E Hn) as [_ H]. destruct (H eq_refl) as [-> Hp]. exists d'. split; [done|]. split; [done|]. by eapply read_content.
Qed.

Lemma blit_whole (b x : list Z) : length b = length x -> blit b 0 x 0 (len x) = Some x.
Proof. intros H. pose proof (blit_pieces [] b [] [] x [] 0 0 (len x) eq_refl eq_refl eq_refl H) as E. cbn [app] in E. by rewrite !app_nil_r in E. Qed.



(** ** Sequences of allocations, releases, writes and reads *)















(** ** What goes wrong *)

(** A page that does not fit is written over the page behind it, of whatever task: the
    first bytes of that page become the rest of its code. *)
Lemma long_page_overwrites s l e i u j page buf t n : table_rep s l -> 0 < e < 2 ^ 32 -> entry_used e l = Some (i, u, j) -> len page = PAGE_SIZE -> PAGE_SIZE < len (image page) ->
  len buf = 2 * PAGE_SIZE -> safe (n + 1) (mon s) -> 0 <= n ->
  exists s', swap_write e (Some page) (Some buf) t s = Some (0, s') /\
    bytes_at (dev s') (vfile u) ((j + 1) * PAGE_SIZE) (len (image page) - PAGE_SIZE) = drop (Z.to_nat PAGE_SIZE) (image page).
Proof.
  intros H He Hu Hp Hl Hb Hm Hn. destruct (swap_write_ok s l e i u j page buf t n H He Hu Hp Hb Hm Hn) as (s' & E & _ & _ & Hh & _). exists s'. split; [done|]. unfold holds_page in Hh.
  replace (len (image page)) with (PAGE_SIZE + (len (image page) - PAGE_SIZE)) in Hh by lia. rewrite bytes_at_app in Hh by (unfold PAGE_SIZE in *; lia).
  replace ((j + 1) * PAGE_SIZE) with (j * PAGE_SIZE + PAGE_SIZE) by lia. symmetry. rewrite <-Hh at 1. by rewrite drop_app_length' by (unfold bytes_at; by rewrite length_map, length_seqZ).
Qed.

(** A code of exactly [PAGE_SIZE] bytes is taken for a page that is not compressed: the
    task gets the code instead of its page. *)
Lemma page_taken_for_raw s l e i u j page out block t n : table_rep s l -> 0 < e < 2 ^ 32 -> entry_used e l = Some (i, u, j) -> len (code page) = PAGE_SIZE -> len out = PAGE_SIZE ->
  holds_page (dev s) (vfile u) (j * PAGE_SIZE) page -> safe (n + 1) (mon s) -> 0 <= n ->
  exists s', swap_read e (Some out) block t s = Some (0, Some (code page), s').
Proof.
  intros H He Hu Hk Ho Hh Hm Hn. pose proof (check_entry_ok s l e H ltac:(lia)) as Hc. rewrite Hu in Hc. destruct Hc as (a & Ec & Ea & Hr & Hl & Hj & _ & _).
  unfold swap_read. destruct (Z.eqb_spec e 0); [lia|]. rewrite Ec, bind_Some_l. pose proof (ar_range _ _ Hr j Hj) as Hjr. destruct (ar_size _ _ Hr) as [_ Hsz].
  rewrite u32_small by (unfold PAGE_SIZE; lia). rewrite (ar_file _ _ Hr). unfold holds_page, image in Hh. rewrite length_app, le_length in Hh.
  replace (Z.of_nat (4 + length (code page))) with (4 + PAGE_SIZE) in Hh by lia. rewrite bytes_at_app, Hk in Hh by (unfold PAGE_SIZE; lia).
  apply app_inj_1 in Hh as [Hh1 Hh2]; [|unfold bytes_at; by rewrite length_map, length_seqZ, le_length].
  set (d0 := fs_seek (vfile u) (j * PAGE_SIZE) (dev s)). cbv zeta. assert (forall g o, content d0 g o = content (dev s) g o) as C0 by (intros; apply seek_content).
  assert (position d0 (vfile u) = j * PAGE_SIZE) as P0 by apply seek_position.
  destruct (read_whole (vfile u) 4 d0 ltac:(lia)) as (d1 & E1 & P1 & C1). rewrite E1. cbn [negb Z.eqb Pos.eqb]. rewrite P0 in *.
  rewrite (bytes_at_ext (dev s) d0), Hh1 by (intros; apply C0). change (s32 (unle (le 4 PAGE_SIZE)) =? PAGE_SIZE) with true. cbv iota.
  destruct (read_whole (vfile u) PAGE_SIZE d1) as (d2 & E2 & _ & C2); [unfold PAGE_SIZE; lia|]. rewrite E2, P1. rewrite (bytes_at_ext (dev s) d1) by (intros; by rewrite C1, C0).
  rewrite Hh2, blit_whole, bind_Some_l by lia. rewrite Z.eqb_refl. cbn [negb].
  destruct (safe_update n 1 0 t (mon s) Hm Hn) as (m & Em & _); [lia..|]. cbn [mon with_dev]. rewrite Em, bind_Some_l. by eexists.
Qed.

End Store.

(** ** Witness and what goes wrong *)




(** There are such pages: one of alternating bytes, and one of pairs. *)
Definition alternating : list Z := concat (replicate 2048 [0; 1]).
Definition pairs : list Z := concat (replicate 1024 [0; 0; 1; 1]).

Lemma bad_pages : len alternating = PAGE_SIZE /\ len (image alternating) = 2 * PAGE_SIZE + 4 /\ len pairs = PAGE_SIZE /\ len (code pairs) = PAGE_SIZE /\ head (code pairs) <> head pairs.
Proof. split_and!; [vm_compute; reflexivity..|]. vm_compute. discriminate. Qed.

End SwapStore.
