(* ===== verification/UnixSocket.v ===== *)
(** Unix domain sockets: [kernel/ipc/unix_socket.c]. Sockets with reference counts on a
    global list, addresses, connections, and messages on a list in each socket. *)

From S2P Require Import Prelude KList Bytes Links.

Module UnixSocket.
Import KList Bytes Links.

Definition UNIX_STREAM : Z := 1.
Definition UNIX_DGRAM : Z := 2.
Definition UNIX_SEQPACKET : Z := 3.

Definition UNIX_UNCONNECTED : Z := 0.
Definition UNIX_CONNECTING : Z := 1.
Definition UNIX_CONNECTED : Z := 2.
Definition UNIX_DISCONNECTED : Z := 3.

Definition MSG_DONTWAIT : Z := 0x10.

(** ** Data *)

(** The list nodes: [unix_socket_list] with the member [list] of a socket, and the member
    [messages] of a socket with the member [list] of a message. *)
Inductive field := SocketsHead | SockList | Messages | MsgList.

Definition field_offset (f : field) : Z := match f with Messages => 24 | _ => 0 end.
#[global] Instance socket_fields : Fields field := { offset := field_offset }.

Record unix_address := mk_address { alen : Z; aname : list Z }.

(** [peer] is the address of a socket. The reference count is an [int], whose overflow is
    undefined, and is not wrapped. *)
Record unix_socket := mk_socket { type : Z; state : Z; address : option unix_address; peer : option Z; refcount : Z }.

(** [messages] has the data of each message by its address; its length is [len]. *)
Record net := mk_net { nodes : heap; socks : gmap Z unix_socket; messages : gmap Z (list Z) }.
Implicit Types (n : net) (s p m : Z) (x : unix_socket).

Definition with_nodes (h : heap) n : net := mk_net h (socks n) (messages n).
Definition with_socks (k : gmap Z unix_socket) n : net := mk_net (nodes n) k (messages n).
Definition with_messages (k : gmap Z (list Z)) n : net := mk_net (nodes n) (socks n) k.

Definition with_state (v : Z) x : unix_socket := mk_socket (type x) v (address x) (peer x) (refcount x).
Definition with_address (a : unix_address) x : unix_socket := mk_socket (type x) (state x) (Some a) (peer x) (refcount x).
Definition with_peer (p : option Z) x : unix_socket := mk_socket (type x) (state x) (address x) p (refcount x).
Definition add_refs (k : Z) x : unix_socket := mk_socket (type x) (state x) (address x) (peer x) (refcount x + k).

Definition on_nodes (f : heap -> option heap) n : option net := h ← f (nodes n); Some (with_nodes h n).

(** A write to a socket; one that is freed is a fault. *)
Definition update (f : unix_socket -> unix_socket) s n : option net :=
  x ← socks n !! s; Some (with_socks (<[s := f x]> (socks n)) n).

Section Sockets.
(** The address of [unix_socket_list]. *)
Context (unix_socket_list : Z).

(** ** Sockets *)

(** [mem] is what [kmalloc] returns; the memory is cleared. *)
Definition unix_socket_create (t : Z) (mem : option Z) n : option (option Z * net) :=
  if negb (t =? UNIX_STREAM) && negb (t =? UNIX_DGRAM) && negb (t =? UNIX_SEQPACKET) then Some (None, n)
  else
    match mem with
    | None => Some (None, n)
    | Some s =>
        let n := with_nodes (new_node (addr s Messages) (new_node (addr s SockList) (nodes n))) n in
        let n := with_socks (<[s := mk_socket t UNIX_UNCONNECTED None None 1]> (socks n)) n in
        n ← on_nodes (list_init (addr s Messages)) n;
        n ← on_nodes (list_add (addr s SockList) unix_socket_list) n;
        Some (Some s, n)
    end.

Definition message_fuel n : nat := S (size (messages n)).
Definition socket_fuel n : nat := S (size (socks n)).

Definition unix_socket_destroy (sock : option Z) n : option net :=
  match sock with
  | None => Some n
  | Some s =>
      n ← update (add_refs (-1)) s n;
      x ← socks n !! s;
      if refcount x =? 0 then
        n ← on_nodes (list_del (addr s SockList)) n;
        r ← list_clear (message_fuel n) (addr s Messages) (nodes n);
        let n := with_messages (foldr delete (messages n) (map (fun q => list_entry q MsgList) r.1)) (with_nodes r.2 n) in
        Some (with_socks (delete s (socks n)) n)
      else Some n
  end.

Definition has_address (a : list Z) (k : Z) n (s : Z) : option bool :=
  x ← socks n !! s;
  match address x with
  | None => Some false
  | Some d => if alen d =? k then same_bytes k (aname d) a else Some false
  end.

Definition unix_socket_find (a : option (list Z)) (k : Z) n : option (option Z * net) :=
  match a with
  | None => Some (None, n)
  | Some a =>
      if (k <=? 0) || (108 <? k) then Some (None, n)
      else
        r ← list_for_each_entry (socket_fuel n) (fun q => has_address a k n (list_entry q SockList)) unix_socket_list (nodes n);
        match r with
        | None => Some (None, n)
        | Some q => n ← update (add_refs 1) (list_entry q SockList) n; Some (Some (list_entry q SockList), n)
        end
  end.

(** [mem] tells whether [kmalloc] finds memory for the address, which it clears. *)
Definition unix_socket_bind (sock : option Z) (a : option (list Z)) (k : Z) (mem : bool) n : option (Z * net) :=
  match sock, a with
  | Some s, Some b =>
      if (k <=? 0) || (108 <? k) then Some (-1, n)
      else
        x ← socks n !! s;
        match address x with
        | Some _ => Some (-1, n)
        | None =>
            '(r, n) ← unix_socket_find a k n;
            match r with
            | Some _ => Some (-1, n)
            | None =>
                if negb mem then Some (-1, n)
                else
                  name ← blit (replicate 108 0) 0 b 0 k;
                  n ← update (with_address (mk_address k name)) s n;
                  Some (0, n)
            end
        end
  | _, _ => Some (-1, n)
  end.

Definition unix_socket_connect (sock : option Z) (a : option (list Z)) (k : Z) n : option (Z * net) :=
  match sock, a with
  | Some s, Some _ =>
      if (k <=? 0) || (108 <? k) then Some (-1, n)
      else
        x ← socks n !! s;
        if state x =? UNIX_CONNECTED then Some (-1, n)
        else
          '(r, n) ← unix_socket_find a k n;
          match r with
          | None => Some (-1, n)
          | Some p =>
              y ← socks n !! p;
              if (type y =? UNIX_STREAM) && negb (state y =? UNIX_UNCONNECTED) then n ← unix_socket_destroy (Some p) n; Some (-1, n)
              else
                n ← update (fun x => with_state UNIX_CONNECTED (with_peer (Some p) x)) s n;
                Some (0, n)
          end
  | _, _ => Some (-1, n)
  end.

Definition unix_socket_listen (sock : option Z) (backlog : Z) n : option (Z * net) :=
  match sock with
  | None => Some (-1, n)
  | Some s =>
      x ← socks n !! s;
      match address x with
      | None => Some (-1, n)
      | Some _ => if negb (state x =? UNIX_UNCONNECTED) then Some (-1, n) else n ← update (with_state UNIX_CONNECTING) s n; Some (0, n)
      end
  end.

(** What a call returns, or that it waits; the wait ends, and the loop goes on, when the
    condition holds. *)
Inductive outcome (A : Type) := Done (r : A) | Wait.
#[global] Arguments Done {A} r.
#[global] Arguments Wait {A}.

(** The loop of [unix_socket_accept] and what follows it. *)
Definition accept_loop s (mem : option Z) n : option (outcome (option Z) * net) :=
  x ← socks n !! s;
  match peer x with
  | None => Some (Wait, n)
  | Some p =>
      '(r, n) ← unix_socket_create (type x) mem n;
      match r with
      | None => Some (Done None, n)
      | Some c =>
          n ← update (fun x => with_state UNIX_CONNECTED (with_peer (Some p) x)) c n;
          n ← update (fun x => with_state UNIX_CONNECTED (with_peer (Some c) x)) p n;
          n ← update (with_peer None) s n;
          Some (Done (Some c), n)
      end
  end.

Definition unix_socket_accept (sock : option Z) (mem : option Z) n : option (outcome (option Z) * net) :=
  match sock with
  | None => Some (Done None, n)
  | Some s => x ← socks n !! s; if negb (state x =? UNIX_CONNECTING) then Some (Done None, n) else accept_loop s mem n
  end.

(** ** Messages *)

(** A message for [p]: [mem] is what [kmalloc] returns for the message, [mem_data] whether
    it finds memory for the data. The result tells whether the message was queued. *)
Definition enqueue p (buf : list Z) (k : Z) (mem : option Z) (mem_data : bool) n : option (bool * net) :=
  match mem with
  | None => Some (false, n)
  | Some m =>
      if negb mem_data then Some (false, n)
      else if len buf <? k then None
      else
        let n := with_messages (<[m := take (Z.to_nat k) buf]> (messages n)) (with_nodes (new_node (addr m MsgList) (nodes n)) n) in
        n ← on_nodes (list_add_tail (addr m MsgList) (addr p Messages)) n;
        Some (true, n)
  end.

(** A socket can be its own peer: [mutex_lock] then refuses to lock its mutex a second time,
    which is not looked at. *)
Definition unix_socket_send (sock : option Z) (buf : option (list Z)) (k : Z) (mem : option Z) (mem_data : bool) n : option (Z * net) :=
  match sock, buf with
  | Some s, Some b =>
      if k =? 0 then Some (-1, n)
      else
        x ← socks n !! s;
        if negb (state x =? UNIX_CONNECTED) then Some (-1, n)
        else
          match peer x with
          | None => Some (-1, n)
          | Some p =>
              _ ← socks n !! p;
              '(r, n) ← enqueue p b k mem mem_data n;
              Some (if (r : bool) then k else -1, n)
          end
  | _, _ => Some (-1, n)
  end.

(** The loop of receiving and what follows it: the first message is taken; the result has
    the number of bytes and the buffer. *)
Definition recv_loop s (buf : list Z) (k flags : Z) n : option (outcome (Z * list Z) * net) :=
  e ← list_empty (addr s Messages) (nodes n);
  if (e : bool) then if has_flag flags MSG_DONTWAIT then Some (Done (-1, buf), n) else Some (Wait, n)
  else
    q ← next (nodes n) !! addr s Messages;
    let m := list_entry q MsgList in
    n ← on_nodes (list_del (addr m MsgList)) n;
    data ← messages n !! m;
    let copy_len := Z.min k (len data) in
    buf ← blit buf 0 data 0 copy_len;
    Some (Done (copy_len, buf), with_messages (delete m (messages n)) n).

Definition unix_socket_recv (sock : option Z) (buf : option (list Z)) (k flags : Z) n : option (outcome (Z * list Z) * net) :=
  match sock, buf with
  | Some s, Some b =>
      if k =? 0 then Some (Done (-1, b), n)
      else
        x ← socks n !! s;
        if negb (state x =? UNIX_CONNECTED) then Some (Done (-1, b), n) else recv_loop s b k flags n
  | _, _ => Some (Done (-1, []), n)
  end.

Definition unix_socket_sendto (sock : option Z) (buf : option (list Z)) (k : Z) (a : option (list Z)) (alen : Z) (mem : option Z) (mem_data : bool) n : option (Z * net) :=
  match sock, buf with
  | Some s, Some b =>
      if k =? 0 then Some (-1, n)
      else
        x ← socks n !! s;
        if state x =? UNIX_CONNECTED then unix_socket_send sock buf k mem mem_data n
        else if negb (type x =? UNIX_DGRAM) then Some (-1, n)
        else if (match a with None => true | Some _ => (alen <=? 0) || (108 <? alen) end) then Some (-1, n)
        else
          '(r, n) ← unix_socket_find a alen n;
          match r with
          | None => Some (-1, n)
          | Some p =>
              '(ok, n) ← enqueue p b k mem mem_data n;
              n ← unix_socket_destroy (Some p) n;
              Some (if (ok : bool) then k else -1, n)
          end
  | _, _ => Some (-1, n)
  end.

(** The sender's address is never filled in: only its length is set, to 0, if it is asked
    for. *)
Definition unix_socket_recvfrom (sock : option Z) (buf : option (list Z)) (k flags : Z) n : option (outcome (Z * list Z) * net) :=
  match sock, buf with
  | Some s, Some b =>
      if k =? 0 then Some (Done (-1, b), n)
      else
        x ← socks n !! s;
        if state x =? UNIX_CONNECTED then unix_socket_recv sock buf k flags n
        else if negb (type x =? UNIX_DGRAM) then Some (Done (-1, b), n)
        else recv_loop s b k flags n
  | _, _ => Some (Done (-1, []), n)
  end.

(** ** Ends of connections *)

Definition unix_socket_shutdown (sock : option Z) (how : Z) n : option (Z * net) :=
  match sock with
  | None => Some (-1, n)
  | Some s =>
      x ← socks n !! s;
      if negb (state x =? UNIX_CONNECTED) then Some (-1, n)
      else
        n ← update (with_state UNIX_DISCONNECTED) s n;
        match peer x with
        | None => Some (0, n)
        | Some p => n ← update (with_state UNIX_DISCONNECTED) p n; Some (0, n)
        end
  end.

(** [places] tells whether both pointers are given. *)
Definition unix_socket_pair (t : Z) (places : bool) (mem1 mem2 : option Z) n : option (Z * option (Z * Z) * net) :=
  if negb places then Some (-1, None, n)
  else
    '(r1, n) ← unix_socket_create t mem1 n;
    match r1 with
    | None => Some (-1, None, n)
    | Some s1 =>
        '(r2, n) ← unix_socket_create t mem2 n;
        match r2 with
        | None => n ← unix_socket_destroy (Some s1) n; Some (-1, None, n)
        | Some s2 =>
            n ← update (fun x => with_state UNIX_CONNECTED (with_peer (Some s2) x)) s1 n;
            n ← update (fun x => with_state UNIX_CONNECTED (with_peer (Some s1) x)) s2 n;
            Some (0, Some (s1, s2), n)
        end
    end.

End Sockets.

End UnixSocket.
