(* ===== verification/UnixSpec.v ===== *)
(** Unix domain sockets as a finite map from sockets to their state and their queue of
    messages, and what each call does on it. *)

From S2P Require Import Prelude KList Bytes Links UnixSocket.

Module UnixSpec.
Import KList Bytes Links UnixSocket.

#[global] Instance field_eq_dec : EqDecision field.
Proof. solve_decision. Defined.
#[global] Instance field_countable : Countable field.
Proof.
  apply (inj_countable' (fun f => match f with SocketsHead => 0%nat | SockList => 1%nat | Messages => 2%nat | MsgList => 3%nat end)
    (fun i => match i with 0%nat => SocketsHead | 1%nat => SockList | 2%nat => Messages | _ => MsgList end)). by intros [].
Defined.

Definition member_of (f : field) : option field := match f with SocketsHead => Some SockList | Messages => Some MsgList | _ => None end.
#[global] Instance socket_linked : Linked field.
Proof. refine {| member := member_of |}; [by intros [] ? [= <-]|by intros [] [] ? [= <-]]. Defined.

(** ** The abstract state *)

Record vsock := mk_vsock { vtype : Z; vstate : Z; vaddr : option (list Z); vpeer : option Z; vrefs : Z; vqueue : list (list Z) }.
Record view := mk_view { order : list Z; vs : gmap Z vsock }.
Implicit Types (v : view) (y : vsock) (s p m : Z) (n : net) (x : unix_socket).

Definition v_set s y v : view := mk_view (order v) (<[s := y]> (vs v)).
Definition v_alter (g : vsock -> vsock) s v : view := mk_view (order v) (alter g s (vs v)).

Definition with_vstate (k : Z) y : vsock := mk_vsock (vtype y) k (vaddr y) (vpeer y) (vrefs y) (vqueue y).
Definition with_vaddr (a : list Z) y : vsock := mk_vsock (vtype y) (vstate y) (Some a) (vpeer y) (vrefs y) (vqueue y).
Definition with_vpeer (p : option Z) y : vsock := mk_vsock (vtype y) (vstate y) (vaddr y) p (vrefs y) (vqueue y).
Definition with_vqueue (q : list (list Z)) y : vsock := mk_vsock (vtype y) (vstate y) (vaddr y) (vpeer y) (vrefs y) q.
Definition add_vrefs (k : Z) y : vsock := mk_vsock (vtype y) (vstate y) (vaddr y) (vpeer y) (vrefs y + k) (vqueue y).
Definition connected p y : vsock := with_vstate UNIX_CONNECTED (with_vpeer (Some p) y).

Definition valid_type (t : Z) : bool := (t =? UNIX_STREAM) || (t =? UNIX_DGRAM) || (t =? UNIX_SEQPACKET).

Definition v_create (t : Z) (mem : option Z) v : option Z * view :=
  match mem with
  | Some s => if valid_type t then (Some s, mk_view (s :: order v) (<[s := mk_vsock t UNIX_UNCONNECTED None None 1 []]> (vs v))) else (None, v)
  | None => (None, v)
  end.

Definition v_destroy s v : view :=
  match vs v !! s with
  | Some y => if vrefs y =? 1 then mk_view (without s (order v)) (delete s (vs v)) else v_alter (add_vrefs (-1)) s v
  | None => v
  end.

Definition has_vaddr (a : list Z) v s : bool := match vs v !! s with Some y => bool_decide (vaddr y = Some a) | None => false end.
Definition good_name (a : list Z) : bool := (0 <? len a) && (len a <=? 108).

Definition v_find (a : list Z) v : option Z * view :=
  if good_name a then match List.find (has_vaddr a v) (order v) with Some s => (Some s, v_alter (add_vrefs 1) s v) | None => (None, v) end else (None, v).

(** ** Representation *)

Section Sockets.
Context (head : Z) (sock_arena msg_arena : gset Z).

Definition live (f : field) (a : Z) : Prop :=
  match f with SocketsHead => a = head | SockList | Messages => a ∈ sock_arena | MsgList => a ∈ msg_arena end.
Definition disjoint_layout : Prop := forall f a g b, live f a -> live g b -> addr a f = addr b g -> f = g /\ a = b.
Context (layout : disjoint_layout).
Implicit Types (R : gmap (field * Z) (list Z)).

Definition addr_rep (a : option unix_address) (b : option (list Z)) : Prop :=
  match a, b with
  | Some d, Some b => take (Z.to_nat (alen d)) (aname d) = b /\ alen d = len b /\ alen d <= len (aname d)
  | None, None => True
  | _, _ => False
  end.

Record sock_rep x y : Prop := {
  so_type : type x = vtype y; so_state : state x = vstate y; so_addr : addr_rep (address x) (vaddr y); so_peer : peer x = vpeer y; so_refs : refcount x = vrefs y
}.

Record rep R n v : Prop := {
  rp_tracks : tracks live (nodes n) R;
  rp_order : R !! (SocketsHead, head) = Some (order v);
  rp_known : forall s, s ∈ order v <-> is_Some (vs v !! s);
  rp_socks : forall s y, vs v !! s = Some y -> exists x, socks n !! s = Some x /\ sock_rep x y;
  rp_none : forall s, vs v !! s = None -> socks n !! s = None;
  rp_queue : forall s y, vs v !! s = Some y -> exists ms, R !! (Messages, s) = Some ms /\ Forall2 (fun m d => messages n !! m = Some d) ms (vqueue y);
  rp_lists : forall s ms, R !! (Messages, s) = Some ms -> is_Some (vs v !! s)
}.

Lemma sockets_head_at : addr head SocketsHead = head.
Proof. apply Z.add_0_r. Qed.

Lemma order_unique R n v a l : rep R n v -> R !! (SocketsHead, a) = Some l -> a = head /\ l = order v.
Proof. intros H E. destruct (tracks_list _ _ _ _ _ _ SockList (rp_tracks _ _ _ H) E eq_refl) as [-> _]. split; [done|]. pose proof (rp_order _ _ _ H). congruence. Qed.

Lemma socket_free R n v s : rep R n v -> vs v !! s = None -> free R SocketsHead s.
Proof. intros H Hs a l E Hin. apply (order_unique R n v) in E as [-> ->]; [|done]. apply (rp_known _ _ _ H) in Hin as [? ?]. congruence. Qed.

(** A message without data is in no queue. *)
Lemma message_free R n v m : rep R n v -> messages n !! m = None -> free R Messages m.
Proof.
  intros H Hm s ms E Hin. destruct (rp_lists _ _ _ H _ _ E) as [y Hy]. destruct (rp_queue _ _ _ H s y Hy) as (ms' & E' & Hq). assert (ms' = ms) as -> by congruence.
  apply list_elem_of_lookup in Hin as [i Hi]. destruct (Forall2_lookup_l _ _ _ _ _ Hq Hi) as (d & _ & Hd). congruence.
Qed.

Lemma live_socket R n v s y : rep R n v -> vs v !! s = Some y -> s ∈ sock_arena.
Proof. intros H Hy. destruct (rp_queue _ _ _ H s y Hy) as (ms & E & _). by destruct (tracks_list _ _ _ _ _ _ MsgList (rp_tracks _ _ _ H) E eq_refl) as [Hl _]. Qed.

(** ** Writes to a socket *)

Lemma rep_socket_update R n v s y f g : rep R n v -> vs v !! s = Some y -> (forall x, sock_rep x y -> sock_rep (f x) (g y)) -> vqueue (g y) = vqueue y ->
  exists n', update f s n = Some n' /\ rep R n' (v_alter g s v) /\ messages n' = messages n.
Proof.
  intros H Hy Hfg Hq. destruct (rp_socks _ _ _ H s y Hy) as (x & Hx & Hr). unfold update. rewrite Hx, bind_Some_l. eexists. split; [done|]. split; [|done].
  pose proof H as [H1 H2 H3 H4 H5 H6 H7]. split; cbn; try done.
  - intros t. rewrite H3, lookup_alter_is_Some. done.
  - intros t z Hz. destruct (decide (s = t)) as [<-|Hne].
    + rewrite lookup_alter_eq, Hy in Hz. injection Hz as <-. rewrite lookup_insert_eq. exists (f x). split; [done|]. by apply Hfg.
    + rewrite lookup_alter_ne in Hz by done. rewrite lookup_insert_ne by done. by apply H4.
  - intros t Ht. destruct (decide (s = t)) as [<-|Hne]; [rewrite lookup_alter_eq, Hy in Ht; discriminate Ht|]. rewrite lookup_alter_ne in Ht by done. rewrite lookup_insert_ne by done. by apply H5.
  - intros t z Hz. destruct (decide (s = t)) as [<-|Hne].
    + rewrite lookup_alter_eq, Hy in Hz. injection Hz as <-. rewrite Hq. by apply H6.
    + rewrite lookup_alter_ne in Hz by done. by apply H6.
  - intros t ms Hms. rewrite lookup_alter_is_Some. by eapply H7.
Qed.

(** ** Creation *)

Definition fresh_socket n s : Prop := s ∈ sock_arena /\ socks n !! s = None.

Lemma v_create_ok R n v t mem : rep R n v -> (forall s, mem = Some s -> s ∈ sock_arena /\ vs v !! s = None) ->
  exists R' n', unix_socket_create head t mem n = Some ((v_create t mem v).1, n') /\ rep R' n' (v_create t mem v).2 /\ messages n' = messages n.
Proof.
  intros H Hm. unfold unix_socket_create, v_create.
  assert (negb (t =? UNIX_STREAM) && negb (t =? UNIX_DGRAM) && negb (t =? UNIX_SEQPACKET) = negb (valid_type t)) as ->.
  { unfold valid_type. by destruct (t =? UNIX_STREAM), (t =? UNIX_DGRAM), (t =? UNIX_SEQPACKET). }
  destruct (valid_type t); cbn [negb]; [|exists R, n; destruct mem; done]. destruct mem as [s|]; [|by exists R, n]. destruct (Hm s eq_refl) as [Ha Hs].
  pose proof H as [HT HO HK HS HN HQ HL]. assert (R !! (Messages, s) = None) as HR. { apply eq_None_not_Some. intros [ms E]. apply HL in E as [? ?]. congruence. }
  assert (forall k, R !! (SockList, k) = None) as HRS. { intros k. apply eq_None_not_Some. intros [l E]. destruct (tr_list _ _ _ HT _ _ _ E) as (m & Em & _). discriminate Em. }
  pose proof (socket_free R n v s H Hs) as Hfr.
  assert (tracks live (new_node (addr s SockList) (nodes n)) R) as HT1.
  { eapply (tracks_untouched live layout (nodes n) _ _ SockList s); [done|done|apply new_node_others|done|]. intros [] E; try discriminate E. exact Hfr. }
  assert (tracks live (new_node (addr s Messages) (new_node (addr s SockList) (nodes n))) R) as HT2.
  { eapply (tracks_untouched live layout _ _ _ Messages s); [exact HT1|done|apply new_node_others|done|]. intros [] E; discriminate E. }
  destruct (init_head live layout _ _ Messages s MsgList HT2 Ha eq_refl) as (h3 & E3 & HT3); [intros l; rewrite HR; discriminate|].
  cbn [on_nodes with_socks with_nodes nodes]. unfold on_nodes. cbn [nodes with_nodes with_socks]. rewrite E3, !bind_Some_l. cbn [nodes with_nodes].
  destruct (add_link live layout h3 (<[(Messages, s) := []]> R) SocketsHead head SockList (order v) s HT3) as (h4 & E4 & HT4);
    [by rewrite lookup_insert_ne|done|done|intros a l E; rewrite lookup_insert_ne in E by done; by apply Hfr in E|].
  rewrite sockets_head_at in E4. rewrite E4, bind_Some_l. cbn [fst snd]. do 2 eexists. split; [done|]. split; [|done]. split; cbn; [exact HT4|by rewrite lookup_insert_eq| | | | |].
  - intros k. rewrite elem_of_cons, HK, lookup_insert_is_Some'. naive_solver.
  - intros k y [[<- <-]|[Hne Hy]]%lookup_insert_Some; [rewrite lookup_insert_eq; by eexists|]. rewrite lookup_insert_ne by done. by apply HS.
  - intros k [Hk Hne]%lookup_insert_None. rewrite lookup_insert_ne by done. by apply HN.
  - intros k y [[<- <-]|[Hne Hy]]%lookup_insert_Some; rewrite lookup_insert_ne by done; [rewrite lookup_insert_eq; exists []; by split|]. rewrite lookup_insert_ne by congruence. by apply HQ.
  - intros k ms E. rewrite lookup_insert_ne in E by done. apply lookup_insert_is_Some'. apply lookup_insert_Some in E as [[[= <-] _]|[_ E]]; [by left|]. right. by eapply HL.
Qed.

(** ** The end of a socket *)

Lemma without_elem s (l : list Z) t : t ∈ without s l <-> t ∈ l /\ t <> s.
Proof. apply elem_without. Qed.

Lemma foldr_delete_lookup (M : gmap Z (list Z)) ms m : m ∉ ms -> foldr delete M ms !! m = M !! m.
Proof. intros H. by apply lookup_foldr_delete_not_elem_of. Qed.

Lemma messages_bound R n v s y ms : rep R n v -> vs v !! s = Some y -> R !! (Messages, s) = Some ms -> (length ms < message_fuel n)%nat.
Proof.
  intros H Hy E. unfold message_fuel. eapply links_bound; [apply H|exact E|]. intros m Hm. destruct (rp_queue _ _ _ H s y Hy) as (ms' & E' & Hq). assert (ms' = ms) as -> by congruence.
  apply list_elem_of_lookup in Hm as [i Hi]. destruct (Forall2_lookup_l _ _ _ _ _ Hq Hi) as (d & _ & Hd). by eexists.
Qed.

(** The data of messages in other queues survives what happens to this one. *)
Lemma queue_other R n v s t ms y (M : gmap Z (list Z)) : rep R n v -> R !! (Messages, s) = Some ms -> s <> t -> vs v !! t = Some y ->
  (forall m, m ∉ ms -> messages n !! m <> None -> M !! m = messages n !! m) ->
  exists ms', R !! (Messages, t) = Some ms' /\ Forall2 (fun m d => M !! m = Some d) ms' (vqueue y).
Proof.
  intros H E Hne Hy HM. destruct (rp_queue _ _ _ H t y Hy) as (ms' & E' & Hq). exists ms'. split; [done|]. apply Forall2_same_length_lookup_2; [by eapply Forall2_length|].
  intros i m d Hm Hd. pose proof (Forall2_lookup_lr _ _ _ _ _ _ Hq Hm Hd) as Hk. rewrite HM; [done| |by rewrite Hk].
  intros Hin. apply Hne. eapply (tr_once _ _ _ (rp_tracks _ _ _ H)); [exact E|exact E'|exact Hin|]. by eapply list_elem_of_lookup_2.
Qed.

Lemma destroy_ok R n v s y : rep R n v -> vs v !! s = Some y ->
  exists R' n', unix_socket_destroy (Some s) n = Some n' /\ rep R' n' (v_destroy s v) /\ (forall m, messages n !! m = None -> messages n' !! m = None).
Proof.
  intros H Hy. unfold unix_socket_destroy, v_destroy. rewrite Hy. destruct (rep_socket_update R n v s y (add_refs (-1)) (add_vrefs (-1)) H Hy) as (n1 & E1 & H1 & Em); [|done|].
  { intros x []. split; cbn; done || lia. }
  rewrite E1, bind_Some_l. assert (vs (v_alter (add_vrefs (-1)) s v) !! s = Some (add_vrefs (-1) y)) as Hy1 by (cbn; by rewrite lookup_alter_eq, Hy).
  destruct (rp_socks _ _ _ H1 s _ Hy1) as (x & Hx & Hr). rewrite Hx, bind_Some_l. rewrite (so_refs _ _ Hr). cbn [vrefs add_vrefs].
  destruct (Z.eqb_spec (vrefs y + -1) 0) as [Hz|Hz], (Z.eqb_spec (vrefs y) 1); try lia; [|exists R, n1; split; [done|]; split; [done|]; by rewrite Em].
  destruct (rp_queue _ _ _ H1 s _ Hy1) as (ms & Ems & Hq). assert (s ∈ order v) as Hin by (apply (rp_known _ _ _ H); by eexists).
  destruct (del_link live layout _ _ SocketsHead head SockList (order v) s (rp_tracks _ _ _ H1) (rp_order _ _ _ H1) eq_refl Hin) as (h2 & E2 & HT2).
  unfold on_nodes. rewrite E2, !bind_Some_l. cbn [nodes with_nodes messages].
  assert (length ms < message_fuel (with_nodes h2 n1))%nat as Hb by (change (message_fuel (with_nodes h2 n1)) with (message_fuel n1); eapply messages_bound; [exact H1|exact Hy1|done]).
  destruct (clear_links live layout h2 (<[(SocketsHead, head) := without s (order v)]> R) Messages s MsgList ms (message_fuel (with_nodes h2 n1)) HT2) as (h3 & E3 & HT3);
    [by rewrite lookup_insert_ne|done|exact Hb|].
  rewrite E3, bind_Some_l. cbn [fst snd]. apply (tracks_delete live _ _ (Messages, s)) in HT3. rewrite delete_insert_eq in HT3.
  assert (map (fun q => list_entry q MsgList) (nodes_in MsgList ms) = ms) as Emap.
  { unfold nodes_in. rewrite map_map. rewrite <-(map_id ms) at 2. apply map_ext. intros m. apply entry_addr. }
  rewrite Emap. do 2 eexists. split; [done|]. cbn [messages with_messages with_nodes with_socks]. split; [|intros m Hm; rewrite Em; destruct (decide (m ∈ ms)) as [Hi|Hi]; [|by rewrite foldr_delete_lookup]].
  2:{ clear -Hi. induction ms as [|q ms IH]; [by apply not_elem_of_nil in Hi|]. cbn. apply lookup_delete_None. apply elem_of_cons in Hi as [->|Hi]; auto. }
  split; cbn; [exact HT3|by rewrite lookup_delete_ne, lookup_insert_eq| | | | |].
  - intros t. rewrite elem_without, (rp_known _ _ _ H), lookup_delete_is_Some. naive_solver.
  - intros t z [Hne Hz']%lookup_delete_Some. rewrite lookup_delete_ne by done. apply (rp_socks _ _ _ H1). cbn. by rewrite lookup_alter_ne.
  - intros t Ht. destruct (decide (s = t)) as [<-|Hne]; [by rewrite lookup_delete_eq|]. rewrite lookup_delete_ne in Ht by done. rewrite lookup_delete_ne by done. apply (rp_none _ _ _ H1). cbn. by rewrite lookup_alter_ne.
  - intros t z [Hne Hz']%lookup_delete_Some. assert (vs (v_alter (add_vrefs (-1)) s v) !! t = Some z) as Hz1 by (cbn; by rewrite lookup_alter_ne).
    destruct (queue_other R n1 _ s t ms z (foldr delete (messages n1) ms) H1 Ems Hne Hz1) as (ms' & E' & Hq'); [intros m Hm _; by apply foldr_delete_lookup|].
    exists ms'. split; [|done]. rewrite lookup_delete_ne by congruence. by rewrite lookup_insert_ne.
  - intros t ms' [Hne E']%lookup_delete_Some. rewrite lookup_insert_ne in E' by done. rewrite lookup_delete_ne by congruence. by eapply (rp_lists _ _ _ H).
Qed.

(** ** Addresses *)

Lemma has_address_ok R n v s y a : rep R n v -> vs v !! s = Some y -> has_address a (len a) n s = Some (has_vaddr a v s).
Proof.
  intros H Hy. destruct (rp_socks _ _ _ H s y Hy) as (x & Hx & Hr). unfold has_address, has_vaddr. rewrite Hx, Hy, bind_Some_l. pose proof (so_addr _ _ Hr) as Ha. unfold addr_rep in Ha.
  destruct (address x) as [d|], (vaddr y) as [b|]; try done. destruct Ha as (Hb & Hl & Hle). destruct (Z.eqb_spec (alen d) (len a)) as [E|E].
  - unfold same_bytes. destruct (Z.ltb_spec (len (aname d)) (len a)); [lia|]. rewrite Z.ltb_irrefl. cbn [orb]. f_equal. rewrite Nat2Z.id, firstn_all. rewrite E, Nat2Z.id in Hb. rewrite Hb.
    apply bool_decide_ext. split; [by intros ->|by intros [= ->]].
  - f_equal. symmetry. apply bool_decide_eq_false_2. intros [= ->]. lia.
Qed.

Lemma socks_bound R n v : rep R n v -> (length (order v) < socket_fuel n)%nat.
Proof.
  intros H. unfold socket_fuel. eapply links_bound; [apply H|apply H|]. intros s Hs. apply (rp_known _ _ _ H) in Hs as [y Hy]. destruct (rp_socks _ _ _ H s y Hy) as (x & Hx & _). by eexists.
Qed.

Lemma good_name_check (a : list Z) : (len a <=? 0) || (108 <? len a) = negb (good_name a).
Proof. unfold good_name. destruct (Z.leb_spec (len a) 0), (Z.ltb_spec 0 (len a)), (Z.leb_spec (len a) 108), (Z.ltb_spec 108 (len a)); cbn; done || lia. Qed.

Lemma v_find_in a v s : List.find (has_vaddr a v) (order v) = Some s -> exists y, vs v !! s = Some y /\ vaddr y = Some a.
Proof.
  intros [_ Hh]%List.find_some. unfold has_vaddr in Hh. destruct (vs v !! s) as [y|]; [|done]. exists y. split; [done|]. by apply bool_decide_eq_true in Hh.
Qed.

Lemma find_ok R n v a : rep R n v ->
  exists n', unix_socket_find head (Some a) (len a) n = Some ((v_find a v).1, n') /\ rep R n' (v_find a v).2 /\ messages n' = messages n.
Proof.
  intros H. unfold unix_socket_find, v_find. rewrite good_name_check. destruct (good_name a); cbn [negb]; [|by exists n].
  pose proof (walk_links live _ _ SocketsHead head SockList (order v) (socket_fuel n) (has_address a (len a) n) (has_vaddr a v) (rp_tracks _ _ _ H) (rp_order _ _ _ H) eq_refl (socks_bound R n v H)) as Hw.
  rewrite sockets_head_at in Hw. rewrite Hw, bind_Some_l; [|intros s Hs; apply (rp_known _ _ _ H) in Hs as [y Hy]; by eapply has_address_ok]. clear Hw.
  destruct (List.find (has_vaddr a v) (order v)) as [s|] eqn:Ef; cbn [option_map]; [|by exists n]. rewrite entry_addr. destruct (v_find_in a v s Ef) as (y & Hy & _).
  destruct (rep_socket_update R n v s y (add_refs 1) (add_vrefs 1) H Hy) as (n1 & E1 & H1 & Em); [|done|]. { intros x []. split; cbn; done || lia. }
  rewrite E1, bind_Some_l. by exists n1.
Qed.

Definition v_bind s (a : list Z) (mem : bool) v : Z * view :=
  match vs v !! s with
  | Some y =>
      if negb (good_name a) then (-1, v)
      else match vaddr y with
           | Some _ => (-1, v)
           | None => match v_find a v with (Some _, v) => (-1, v) | (None, v) => if mem then (0, v_alter (with_vaddr a) s v) else (-1, v) end
           end
  | None => (-1, v)
  end.

Lemma addr_rep_none x y : sock_rep x y -> (address x = None <-> vaddr y = None).
Proof. intros Hr. pose proof (so_addr _ _ Hr) as Ha. unfold addr_rep in Ha. by destruct (address x), (vaddr y). Qed.

Lemma bind_ok R n v s y a mem : rep R n v -> vs v !! s = Some y ->
  exists n', unix_socket_bind head (Some s) (Some a) (len a) mem n = Some ((v_bind s a mem v).1, n') /\ rep R n' (v_bind s a mem v).2 /\ messages n' = messages n.
Proof.
  intros H Hy. unfold unix_socket_bind, v_bind. rewrite Hy, good_name_check. destruct (good_name a) eqn:Eg; cbn [negb]; [|by exists n].
  destruct (rp_socks _ _ _ H s y Hy) as (x & Hx & Hr). rewrite Hx, bind_Some_l. pose proof (addr_rep_none x y Hr) as Hn.
  destruct (address x) as [d|], (vaddr y) as [b|] eqn:Ea; try (exfalso; by destruct Hn as [Hn1 Hn2]; (discriminate (Hn1 eq_refl) || discriminate (Hn2 eq_refl))); [by exists n|].
  destruct (find_ok R n v a H) as (n1 & E1 & H1 & Em). rewrite E1, bind_Some_l. unfold v_find in *. rewrite Eg in *. destruct (List.find (has_vaddr a v) (order v)) as [t|]; cbn [fst snd] in *; [by exists n1|].
  destruct mem; cbn [negb]; [|by exists n1]. unfold good_name in Eg. apply andb_true_iff in Eg as [G1 G2]. apply Z.ltb_lt in G1. apply Z.leb_le in G2.
  destruct (blit (replicate 108 0) 0 a 0 (len a)) as [name|] eqn:Eb; [|exfalso; unfold blit in Eb; rewrite length_replicate in Eb; destruct (Z.leb_spec (0 + len a) (Z.of_nat 108)), (Z.leb_spec (0 + len a) (len a)); try lia; discriminate Eb].
  rewrite bind_Some_l. apply blit_inv in Eb as (_ & _ & Hname). change (Z.to_nat 0) with 0%nat in Hname. rewrite Nat2Z.id, drop_0, firstn_all, take_0 in Hname. cbn [app] in Hname.
  destruct (rep_socket_update R n1 v s y (with_address (mk_address (len a) name)) (with_vaddr a) H1 Hy) as (n2 & E2 & H2 & Em2); [|done|].
  { intros x' []. split; cbn; try done. rewrite Nat2Z.id, Hname. rewrite take_app_length. split; [done|]. split; [done|]. rewrite length_app. lia. }
  rewrite E2, bind_Some_l. exists n2. split; [done|]. split; [done|]. by rewrite Em2.
Qed.

(** ** Connections *)

Definition v_connect s (a : list Z) v : Z * view :=
  match vs v !! s with
  | Some y =>
      if negb (good_name a) || (vstate y =? UNIX_CONNECTED) then (-1, v)
      else
        match v_find a v with
        | (None, v) => (-1, v)
        | (Some p, v) =>
            match vs v !! p with
            | Some z => if (vtype z =? UNIX_STREAM) && negb (vstate z =? UNIX_UNCONNECTED) then (-1, v_destroy p v) else (0, v_alter (connected p) s v)
            | None => (-1, v)
            end
        end
  | None => (-1, v)
  end.

Lemma alter_some {A} (g : A -> A) (M : gmap Z A) s t a : M !! t = Some a -> exists b, alter g s M !! t = Some b.
Proof. intros Ha. destruct (decide (s = t)) as [<-|]; [rewrite lookup_alter_eq, Ha; by eexists|rewrite lookup_alter_ne, Ha by done; by eexists]. Qed.

Lemma connect_ok R n v s y a : rep R n v -> vs v !! s = Some y ->
  exists R' n', unix_socket_connect head (Some s) (Some a) (len a) n = Some ((v_connect s a v).1, n') /\ rep R' n' (v_connect s a v).2 /\ (forall m, messages n !! m = None -> messages n' !! m = None).
Proof.
  intros H Hy. unfold unix_socket_connect, v_connect. rewrite Hy, good_name_check. destruct (good_name a) eqn:Eg; cbn [negb orb]; [|by exists R, n].
  destruct (rp_socks _ _ _ H s y Hy) as (x & Hx & Hr). rewrite Hx, bind_Some_l, (so_state _ _ Hr). destruct (vstate y =? UNIX_CONNECTED); [by exists R, n|].
  destruct (find_ok R n v a H) as (n1 & E1 & H1 & Em). rewrite E1, bind_Some_l. unfold v_find in *. rewrite Eg in *. destruct (List.find (has_vaddr a v) (order v)) as [p|] eqn:Ef; cbn [fst snd] in *;
    [|exists R, n1; split; [done|]; split; [done|]; by rewrite Em].
  destruct (v_find_in a v p Ef) as (z0 & Hz0 & _). destruct (alter_some (add_vrefs 1) (vs v) p p z0 Hz0) as [z Hz]. change (alter (add_vrefs 1) p (vs v)) with (vs (v_alter (add_vrefs 1) p v)) in Hz.
  rewrite Hz. destruct (rp_socks _ _ _ H1 p z Hz) as (w & Hw & Hrw). rewrite Hw, bind_Some_l, (so_type _ _ Hrw), (so_state _ _ Hrw). destruct ((vtype z =? UNIX_STREAM) && negb (vstate z =? UNIX_UNCONNECTED)).
  - destruct (destroy_ok R n1 _ p z H1 Hz) as (R2 & n2 & E2 & H2 & Em2). rewrite E2, bind_Some_l. exists R2, n2. split; [done|]. split; [done|]. intros m Hm. apply Em2. by rewrite Em.
  - destruct (alter_some (add_vrefs 1) (vs v) p s y Hy) as [y1 Hy1].
    destruct (rep_socket_update R n1 _ s y1 (fun x => with_state UNIX_CONNECTED (with_peer (Some p) x)) (connected p) H1 Hy1) as (n2 & E2 & H2 & Em2); [|done|]. { intros x' []. by split. }
    rewrite E2, bind_Some_l. exists R, n2. split; [done|]. split; [done|]. by rewrite Em2, Em.
Qed.

Definition v_listen s v : Z * view :=
  match vs v !! s with
  | Some y => match vaddr y with None => (-1, v) | Some _ => if vstate y =? UNIX_UNCONNECTED then (0, v_alter (with_vstate UNIX_CONNECTING) s v) else (-1, v) end
  | None => (-1, v)
  end.

Lemma listen_ok R n v s y b : rep R n v -> vs v !! s = Some y ->
  exists n', unix_socket_listen (Some s) b n = Some ((v_listen s v).1, n') /\ rep R n' (v_listen s v).2 /\ messages n' = messages n.
Proof.
  intros H Hy. unfold unix_socket_listen, v_listen. destruct (rp_socks _ _ _ H s y Hy) as (x & Hx & Hr). rewrite Hx, Hy, bind_Some_l. pose proof (addr_rep_none x y Hr) as Hn.
  destruct (address x) as [d|], (vaddr y) as [a|]; try (exfalso; by destruct Hn as [Hn1 Hn2]; (discriminate (Hn1 eq_refl) || discriminate (Hn2 eq_refl))); [|by exists n].
  rewrite (so_state _ _ Hr). destruct (vstate y =? UNIX_UNCONNECTED); cbn [negb]; [|by exists n].
  destruct (rep_socket_update R n v s y (with_state UNIX_CONNECTING) (with_vstate UNIX_CONNECTING) H Hy) as (n1 & E1 & H1 & Em); [|done|]. { intros x' []. by split. }
  rewrite E1, bind_Some_l. by exists n1.
Qed.

Definition v_shutdown s v : Z * view :=
  match vs v !! s with
  | Some y =>
      if vstate y =? UNIX_CONNECTED then
        let v := v_alter (with_vstate UNIX_DISCONNECTED) s v in
        match vpeer y with None => (0, v) | Some p => (0, v_alter (with_vstate UNIX_DISCONNECTED) p v) end
      else (-1, v)
  | None => (-1, v)
  end.

(** The peer, if there is one, is still there. *)
Definition peer_there s v : Prop := forall y p, vs v !! s = Some y -> vstate y = UNIX_CONNECTED -> vpeer y = Some p -> is_Some (vs v !! p).

Lemma shutdown_ok R n v s y how : rep R n v -> vs v !! s = Some y -> peer_there s v ->
  exists n', unix_socket_shutdown (Some s) how n = Some ((v_shutdown s v).1, n') /\ rep R n' (v_shutdown s v).2 /\ messages n' = messages n.
Proof.
  intros H Hy Hp. unfold unix_socket_shutdown, v_shutdown. destruct (rp_socks _ _ _ H s y Hy) as (x & Hx & Hr). rewrite Hx, Hy, bind_Some_l, (so_state _ _ Hr), (so_peer _ _ Hr).
  destruct (Z.eqb_spec (vstate y) UNIX_CONNECTED) as [Es|]; cbn [negb]; [|by exists n].
  destruct (rep_socket_update R n v s y (with_state UNIX_DISCONNECTED) (with_vstate UNIX_DISCONNECTED) H Hy) as (n1 & E1 & H1 & Em); [|done|]. { intros x' []. by split. }
  rewrite E1, bind_Some_l. destruct (vpeer y) as [p|] eqn:Ep; [|by exists n1]. destruct (Hp y p Hy Es Ep) as [z Hz]. destruct (alter_some (with_vstate UNIX_DISCONNECTED) (vs v) s p z Hz) as [z' Hz'].
  destruct (rep_socket_update R n1 _ p z' (with_state UNIX_DISCONNECTED) (with_vstate UNIX_DISCONNECTED) H1 Hz') as (n2 & E2 & H2 & Em2); [intros x' []; by split|done|].
  rewrite E2, bind_Some_l. exists n2. split; [done|]. split; [done|]. by rewrite Em2.
Qed.

Definition v_pair (t : Z) (mem1 mem2 : option Z) v : Z * option (Z * Z) * view :=
  match v_create t mem1 v with
  | (None, v) => (-1, None, v)
  | (Some s1, v) =>
      match v_create t mem2 v with
      | (None, v) => (-1, None, v_destroy s1 v)
      | (Some s2, v) => (0, Some (s1, s2), v_alter (connected s1) s2 (v_alter (connected s2) s1 v))
      end
  end.

Lemma pair_ok R n v t mem1 mem2 : rep R n v -> (forall s, mem1 = Some s -> s ∈ sock_arena /\ vs v !! s = None) ->
  (forall s, mem2 = Some s -> s ∈ sock_arena /\ vs v !! s = None /\ mem1 <> Some s) ->
  exists R' n', unix_socket_pair head t true mem1 mem2 n = Some ((v_pair t mem1 mem2 v).1, n') /\ rep R' n' (v_pair t mem1 mem2 v).2 /\ (forall m, messages n !! m = None -> messages n' !! m = None).
Proof.
  intros H Hm1 Hm2. unfold unix_socket_pair, v_pair. cbn [negb]. destruct (v_create_ok R n v t mem1 H Hm1) as (R1 & n1 & E1 & H1 & Em1). rewrite E1, bind_Some_l.
  assert (forall s, mem2 = Some s -> s ∈ sock_arena /\ vs (v_create t mem1 v).2 !! s = None) as Hm2'.
  { intros s Hs. destruct (Hm2 s Hs) as (Ha & Hn & Hne). split; [done|]. unfold v_create. destruct mem1 as [s1|]; [|done]. destruct (valid_type t); cbn; [|done]. rewrite lookup_insert_ne by congruence. done. }
  destruct (v_create t mem1 v) as [[s1|] v1] eqn:Ec1; cbn [fst snd] in *; [|exists R1, n1; split; [done|]; split; [done|]; by rewrite Em1].
  destruct (v_create_ok R1 n1 v1 t mem2 H1 Hm2') as (R2 & n2 & E2 & H2 & Em2). rewrite E2, bind_Some_l.
  assert (exists y1, vs v1 !! s1 = Some y1) as [y1 Hy1]. { unfold v_create in Ec1. destruct mem1; [|done]. destruct (valid_type t); [|done]. injection Ec1 as <- <-. cbn. rewrite lookup_insert_eq. by eexists. }
  destruct (v_create t mem2 v1) as [[s2|] v2] eqn:Ec2; cbn [fst snd] in *.
  - unfold v_create in Ec2. destruct mem2 as [m2|]; [|done]. destruct (valid_type t); [|done]. injection Ec2 as -> <-. destruct (Hm2' s2 eq_refl) as [_ Hn2].
    assert (s1 <> s2) as Hne by congruence. cbn [vs v_alter] in *.
    destruct (rep_socket_update R2 n2 _ s1 y1 (fun x => with_state UNIX_CONNECTED (with_peer (Some s2) x)) (connected s2) H2) as (n3 & E3 & H3 & Em3); [cbn; by rewrite lookup_insert_ne|intros x' []; by split|done|].
    rewrite E3, bind_Some_l. destruct (rep_socket_update R2 n3 _ s2 (mk_vsock t UNIX_UNCONNECTED None None 1 []) (fun x => with_state UNIX_CONNECTED (with_peer (Some s1) x)) (connected s1) H3) as (n4 & E4 & H4 & Em4);
      [cbn; rewrite lookup_alter_ne by done; apply lookup_insert_eq|intros x' []; by split|done|].
    rewrite E4, bind_Some_l. exists R2, n4. split; [done|]. split; [done|]. by rewrite Em4, Em3, Em2, Em1.
  - assert (v2 = v1) as -> by (unfold v_create in Ec2; destruct mem2; [destruct (valid_type t); [done|]|]; by injection Ec2 as <-).
    destruct (destroy_ok R2 n2 v1 s1 y1 H2 Hy1) as (R3 & n3 & E3 & H3 & Em3). rewrite E3, bind_Some_l. exists R3, n3. split; [done|]. split; [done|]. intros m Hm. apply Em3. by rewrite Em2, Em1.
Qed.

(** ** Messages *)

Definition v_put p (d : list Z) v : view := v_alter (fun y => with_vqueue (vqueue y ++ [d]) y) p v.

(** Memory for a message that is not in use. *)
Definition fresh_message (mem : option Z) n : Prop := forall m, mem = Some m -> m ∈ msg_arena /\ messages n !! m = None.

Lemma rep_queue_change R n v p y q h (M : gmap Z (list Z)) ms ms' : rep R n v -> vs v !! p = Some y -> R !! (Messages, p) = Some ms -> tracks live h (<[(Messages, p) := ms']> R) ->
  Forall2 (fun m d => M !! m = Some d) ms' q -> (forall m, m ∉ ms -> messages n !! m <> None -> M !! m = messages n !! m) ->
  rep (<[(Messages, p) := ms']> R) (mk_net h (socks n) M) (v_alter (with_vqueue q) p v).
Proof.
  intros H Hy E HT Hq HM. pose proof H as [_ HO HK HS HN HQ HL]. split; cbn; [exact HT|by rewrite lookup_insert_ne| | | | |].
  - intros s. by rewrite HK, lookup_alter_is_Some.
  - intros s z Hz. destruct (decide (p = s)) as [<-|Hne].
    + rewrite lookup_alter_eq, Hy in Hz. injection Hz as <-. destruct (HS p y Hy) as (x & Hx & []). exists x. split; [done|]. by split.
    + rewrite lookup_alter_ne in Hz by done. by apply HS.
  - intros s Hs. destruct (decide (p = s)) as [<-|Hne]; [rewrite lookup_alter_eq, Hy in Hs; discriminate Hs|]. rewrite lookup_alter_ne in Hs by done. by apply HN.
  - intros s z Hz. destruct (decide (p = s)) as [<-|Hne].
    + rewrite lookup_alter_eq, Hy in Hz. injection Hz as <-. exists ms'. rewrite lookup_insert_eq. by split.
    + rewrite lookup_alter_ne in Hz by done. destruct (queue_other R n v p s ms z M H E Hne Hz HM) as (ms2 & E2 & Hq2). exists ms2. split; [|done]. rewrite lookup_insert_ne by congruence. done.
  - intros s l E2. rewrite lookup_alter_is_Some. apply lookup_insert_Some in E2 as [[[= <-] _]|[_ E2]]; [by eexists|by eapply HL].
Qed.

Lemma alter_with_queue y p v q g : vs v !! p = Some y -> with_vqueue q y = g y -> v_alter (with_vqueue q) p v = v_alter g p v.
Proof. intros Hy Hg. unfold v_alter. f_equal. apply map_eq. intros s. destruct (decide (p = s)) as [<-|]; [by rewrite !lookup_alter_eq, Hy; cbn; rewrite Hg|by rewrite !lookup_alter_ne]. Qed.

Lemma v_enqueue_ok R n v p y d mem mem_data : rep R n v -> vs v !! p = Some y -> fresh_message mem n ->
  exists R' n', enqueue p d (len d) mem mem_data n = Some (match mem with Some _ => mem_data | None => false end, n') /\
    rep R' n' (match mem with Some _ => if mem_data then v_put p d v else v | None => v end) /\
    (forall m, mem <> Some m -> messages n !! m = None -> messages n' !! m = None).
Proof.
  intros H Hy Hm. unfold enqueue. destruct mem as [m|]; [|exists R, n; by split]. destruct mem_data; cbn [negb]; [|exists R, n; by split]. destruct (Hm m eq_refl) as [Ha Hn].
  rewrite Z.ltb_irrefl, Nat2Z.id, firstn_all. destruct (rp_queue _ _ _ H p y Hy) as (ms & E & Hq). pose proof (message_free R n v m H Hn) as Hf.
  assert (tracks live (new_node (addr m MsgList) (nodes n)) R) as HT1.
  { eapply (tracks_untouched live layout (nodes n) _ _ MsgList m); [apply H|done|apply new_node_others| |intros [] Ef; try discriminate Ef; exact Hf].
    apply eq_None_not_Some. intros [l El]. destruct (tr_list _ _ _ (rp_tracks _ _ _ H) _ _ _ El) as (f & Ef & _). discriminate Ef. }
  destruct (add_tail_link live layout _ R Messages p MsgList ms m HT1 E eq_refl Ha Hf) as (h & Eh & HT). unfold on_nodes. cbn [nodes with_messages with_nodes]. rewrite Eh, !bind_Some_l.
  assert (m ∉ ms) as Hnin by (by apply (Hf p ms)).
  do 2 eexists. split; [done|]. cbn [messages with_nodes with_messages]. split; [|intros k Hk Hkn; rewrite lookup_insert_ne by congruence; done].
  unfold v_put. rewrite <-(alter_with_queue y p v (vqueue y ++ [d])) by done. apply (rep_queue_change R n v p y _ h (<[m := d]> (messages n)) ms (ms ++ [m])); try done.
  - apply Forall2_app; [|constructor; [apply lookup_insert_eq|constructor]]. apply Forall2_same_length_lookup_2; [by eapply Forall2_length|]. intros i k e Hk He. cbv beta. rewrite lookup_insert_ne; [by eapply (Forall2_lookup_lr (fun m d => messages n !! m = Some d))|].
    intros ->. apply Hnin. by eapply list_elem_of_lookup_2.
  - intros k Hk Hkn. rewrite lookup_insert_ne; [done|]. congruence.
Qed.

Definition v_send s (d : list Z) (mem : option Z) (mem_data : bool) v : Z * view :=
  match vs v !! s with
  | Some y =>
      if (len d =? 0) || negb (vstate y =? UNIX_CONNECTED) then (-1, v)
      else match vpeer y, mem, mem_data with Some p, Some _, true => (len d, v_put p d v) | _, _, _ => (-1, v) end
  | None => (-1, v)
  end.

Lemma v_send_ok R n v s y d mem mem_data : rep R n v -> vs v !! s = Some y -> peer_there s v -> fresh_message mem n ->
  exists R' n', unix_socket_send (Some s) (Some d) (len d) mem mem_data n = Some ((v_send s d mem mem_data v).1, n') /\ rep R' n' (v_send s d mem mem_data v).2 /\
    (forall m, mem <> Some m -> messages n !! m = None -> messages n' !! m = None).
Proof.
  intros H Hy Hp Hm. unfold unix_socket_send, v_send. rewrite Hy. destruct (Z.eqb_spec (len d) 0); cbn [orb]; [exists R, n; by split|].
  destruct (rp_socks _ _ _ H s y Hy) as (x & Hx & Hr). rewrite Hx, bind_Some_l, (so_state _ _ Hr), (so_peer _ _ Hr). destruct (Z.eqb_spec (vstate y) UNIX_CONNECTED) as [Es|]; cbn [negb]; [|exists R, n; by split].
  destruct (vpeer y) as [p|] eqn:Ep; [|exists R, n; by split]. destruct (Hp y p Hy Es Ep) as [z Hz]. destruct (rp_socks _ _ _ H p z Hz) as (w & Hw & _). rewrite Hw, bind_Some_l.
  destruct (v_enqueue_ok R n v p z d mem mem_data H Hz Hm) as (R' & n' & E & H' & Hk). rewrite E, bind_Some_l. exists R', n'. destruct mem as [m|], mem_data; by split.
Qed.

(** The first message is taken, as much of it as there is room for; the rest is lost. *)
Definition v_take s (buf : list Z) (flags : Z) y v : outcome (Z * list Z) * view :=
  match vqueue y with
  | [] => ((if has_flag flags MSG_DONTWAIT then Done (-1, buf) else Wait), v)
  | d :: q => (Done (Z.min (len buf) (len d), take (length buf) d ++ drop (length d) buf), v_alter (with_vqueue q) s v)
  end.

Lemma recv_loop_ok R n v s y buf flags : rep R n v -> vs v !! s = Some y ->
  exists R' n', recv_loop s buf (len buf) flags n = Some ((v_take s buf flags y v).1, n') /\ rep R' n' (v_take s buf flags y v).2 /\ (forall m, messages n !! m = None -> messages n' !! m = None).
Proof.
  intros H Hy. unfold recv_loop, v_take. destruct (rp_queue _ _ _ H s y Hy) as (ms & E & Hq). destruct (tracks_list _ _ _ _ _ _ MsgList (rp_tracks _ _ _ H) E eq_refl) as (_ & _ & HL).
  rewrite (list_empty_ok _ _ _ HL), bind_Some_l. destruct ms as [|m ms].
  { apply Forall2_nil_inv_l in Hq. rewrite Hq. cbn [nodes_in map]. rewrite bool_decide_true by done. exists R, n. destruct (has_flag flags MSG_DONTWAIT); by split. }
  apply Forall2_cons_inv_l in Hq as (d & q & Hd & Hq & ->). rewrite bool_decide_false by done. rewrite (first_link live _ _ Messages s MsgList (m :: ms) (rp_tracks _ _ _ H) E eq_refl), bind_Some_l. cbn [List.hd nodes_in map]. cbv zeta. rewrite entry_addr.
  destruct (del_link live layout _ _ Messages s MsgList (m :: ms) m (rp_tracks _ _ _ H) E eq_refl) as (h & Eh & HT); [left|]. unfold on_nodes. rewrite Eh, !bind_Some_l. cbn [messages with_nodes]. rewrite Hd, bind_Some_l.
  pose proof (tracks_NoDup _ _ _ _ _ _ (rp_tracks _ _ _ H) E) as [Hnin Hnd]%NoDup_cons. pose proof (without_split m [] ms) as Hw. cbn [app] in Hw. rewrite Hw in HT by (by constructor). clear Hw.
  assert (blit buf 0 d 0 (Z.min (len buf) (len d)) = Some (take (length buf) d ++ drop (length d) buf)) as ->.
  { unfold blit. destruct (Z.leb_spec (0 + Z.min (len buf) (len d)) (len buf)), (Z.leb_spec (0 + Z.min (len buf) (len d)) (len d)); try lia. cbn [andb]. rewrite take_0, drop_0. cbn [app]. f_equal.
    replace (Z.to_nat (Z.min (len buf) (len d))) with (Nat.min (length buf) (length d)) by lia. replace (Z.to_nat (0 + Z.min (len buf) (len d))) with (Nat.min (length buf) (length d)) by lia.
    destruct (Nat.le_ge_cases (length buf) (length d)); [rewrite !Nat.min_l by lia|rewrite !Nat.min_r by lia]; f_equal; [by rewrite !drop_ge by lia|by rewrite !take_ge by lia]. }
  rewrite bind_Some_l. cbn [fst snd with_messages with_nodes nodes messages socks]. do 2 eexists. split; [done|]. split; [|intros k Hk; apply lookup_delete_None; by right].
  apply (rep_queue_change R n v s y q h (delete m (messages n)) (m :: ms) ms); try done.
  - apply Forall2_same_length_lookup_2; [by eapply Forall2_length|]. intros i k e Hk He. cbv beta. rewrite lookup_delete_ne; [by eapply (Forall2_lookup_lr (fun m d => messages n !! m = Some d))|]. intros ->. apply Hnin. by eapply list_elem_of_lookup_2.
  - intros k Hk _. rewrite lookup_delete_ne; [done|]. intros ->. apply Hk. left.
Qed.

Definition v_recv s (buf : list Z) (flags : Z) v : outcome (Z * list Z) * view :=
  match vs v !! s with
  | Some y => if (len buf =? 0) || negb (vstate y =? UNIX_CONNECTED) then (Done (-1, buf), v) else v_take s buf flags y v
  | None => (Done (-1, buf), v)
  end.

Definition v_recvfrom s (buf : list Z) (flags : Z) v : outcome (Z * list Z) * view :=
  match vs v !! s with
  | Some y => if (len buf =? 0) || (negb (vstate y =? UNIX_CONNECTED) && negb (vtype y =? UNIX_DGRAM)) then (Done (-1, buf), v) else v_take s buf flags y v
  | None => (Done (-1, buf), v)
  end.

Lemma recv_ok R n v s y buf flags : rep R n v -> vs v !! s = Some y ->
  exists R' n', unix_socket_recv (Some s) (Some buf) (len buf) flags n = Some ((v_recv s buf flags v).1, n') /\ rep R' n' (v_recv s buf flags v).2 /\ (forall m, messages n !! m = None -> messages n' !! m = None).
Proof.
  intros H Hy. unfold unix_socket_recv, v_recv. rewrite Hy. destruct (Z.eqb_spec (len buf) 0); cbn [orb]; [exists R, n; by split|].
  destruct (rp_socks _ _ _ H s y Hy) as (x & Hx & Hr). rewrite Hx, bind_Some_l, (so_state _ _ Hr). destruct (vstate y =? UNIX_CONNECTED); cbn [negb]; [by eapply recv_loop_ok|exists R, n; by split].
Qed.

Lemma recvfrom_ok R n v s y buf flags : rep R n v -> vs v !! s = Some y ->
  exists R' n', unix_socket_recvfrom (Some s) (Some buf) (len buf) flags n = Some ((v_recvfrom s buf flags v).1, n') /\ rep R' n' (v_recvfrom s buf flags v).2 /\ (forall m, messages n !! m = None -> messages n' !! m = None).
Proof.
  intros H Hy. unfold unix_socket_recvfrom, v_recvfrom, unix_socket_recv. rewrite Hy. destruct (Z.eqb_spec (len buf) 0); cbn [orb]; [exists R, n; by split|].
  destruct (rp_socks _ _ _ H s y Hy) as (x & Hx & Hr). rewrite Hx, !bind_Some_l, (so_state _ _ Hr), (so_type _ _ Hr).
  destruct (vstate y =? UNIX_CONNECTED); cbn [negb andb]; [by eapply recv_loop_ok|]. destruct (vtype y =? UNIX_DGRAM); cbn [negb]; [by eapply recv_loop_ok|exists R, n; by split].
Qed.

Definition v_sendto s (d a : list Z) (mem : option Z) (mem_data : bool) v : Z * view :=
  match vs v !! s with
  | Some y =>
      if len d =? 0 then (-1, v)
      else if vstate y =? UNIX_CONNECTED then v_send s d mem mem_data v
      else if negb (vtype y =? UNIX_DGRAM) || negb (good_name a) then (-1, v)
      else match v_find a v with
           | (None, v) => (-1, v)
           | (Some p, v) => match mem, mem_data with Some _, true => (len d, v_destroy p (v_put p d v)) | _, _ => (-1, v_destroy p v) end
           end
  | None => (-1, v)
  end.

Lemma sendto_ok R n v s y d a mem mem_data : rep R n v -> vs v !! s = Some y -> peer_there s v -> fresh_message mem n ->
  exists R' n', unix_socket_sendto head (Some s) (Some d) (len d) (Some a) (len a) mem mem_data n = Some ((v_sendto s d a mem mem_data v).1, n') /\ rep R' n' (v_sendto s d a mem mem_data v).2 /\
    (forall m, mem <> Some m -> messages n !! m = None -> messages n' !! m = None).
Proof.
  intros H Hy Hp Hm. pose proof (v_send_ok R n v s y d mem mem_data H Hy Hp Hm) as Hs. unfold unix_socket_sendto, v_sendto. rewrite Hy. destruct (Z.eqb_spec (len d) 0); [exists R, n; by split|].
  destruct (rp_socks _ _ _ H s y Hy) as (x & Hx & Hr). rewrite Hx, bind_Some_l, (so_state _ _ Hr), (so_type _ _ Hr), good_name_check. destruct (vstate y =? UNIX_CONNECTED); [exact Hs|].
  destruct (vtype y =? UNIX_DGRAM); cbn [negb orb]; [|exists R, n; by split]. destruct (good_name a) eqn:Eg; cbn [negb]; [|exists R, n; by split].
  destruct (find_ok R n v a H) as (n1 & E1 & H1 & Em). rewrite E1, bind_Some_l. unfold v_find in *. rewrite Eg in *.
  destruct (List.find (has_vaddr a v) (order v)) as [p|] eqn:Ef; cbn [fst snd] in *; [|exists R, n1; split; [done|]; split; [done|]; by rewrite Em].
  destruct (v_find_in a v p Ef) as (z0 & Hz0 & _). destruct (alter_some (add_vrefs 1) (vs v) p p z0 Hz0) as [z Hz]. change (alter (add_vrefs 1) p (vs v)) with (vs (v_alter (add_vrefs 1) p v)) in Hz.
  destruct (v_enqueue_ok R n1 _ p z d mem mem_data H1 Hz) as (R2 & n2 & E2 & H2 & Hk2); [unfold fresh_message in *; by rewrite Em|]. rewrite E2, bind_Some_l.
  assert (exists z', vs (match mem with Some _ => if mem_data then v_put p d (v_alter (add_vrefs 1) p v) else v_alter (add_vrefs 1) p v | None => v_alter (add_vrefs 1) p v end) !! p = Some z') as [z' Hz'].
  { destruct mem, mem_data; try by eexists. by eapply alter_some. }
  destruct (destroy_ok R2 n2 _ p z' H2 Hz') as (R3 & n3 & E3 & H3 & Hk3). rewrite E3, bind_Some_l. exists R3, n3.
  split; [by destruct mem, mem_data|]. split; [by destruct mem, mem_data|]. intros m Hne Hn. apply Hk3, Hk2; [done|]. by rewrite Em.
Qed.

Definition v_accept s (mem : option Z) v : outcome (option Z) * view :=
  match vs v !! s with
  | Some y =>
      if vstate y =? UNIX_CONNECTING then
        match vpeer y with
        | None => (Wait, v)
        | Some p =>
            match v_create (vtype y) mem v with
            | (None, v) => (Done None, v)
            | (Some c, v) => (Done (Some c), v_alter (with_vpeer None) s (v_alter (connected c) p (v_alter (connected p) c v)))
            end
        end
      else (Done None, v)
  | None => (Done None, v)
  end.

Lemma v_accept_ok R n v s y mem : rep R n v -> vs v !! s = Some y -> (forall c, mem = Some c -> c ∈ sock_arena /\ vs v !! c = None) -> (forall p, vpeer y = Some p -> is_Some (vs v !! p)) ->
  exists R' n', unix_socket_accept head (Some s) mem n = Some ((v_accept s mem v).1, n') /\ rep R' n' (v_accept s mem v).2 /\ messages n' = messages n.
Proof.
  intros H Hy Hm Hp. unfold unix_socket_accept, v_accept, accept_loop. destruct (rp_socks _ _ _ H s y Hy) as (x & Hx & Hr). rewrite Hx, Hy, !bind_Some_l, (so_state _ _ Hr), (so_peer _ _ Hr), (so_type _ _ Hr).
  destruct (vstate y =? UNIX_CONNECTING); cbn [negb]; [|by exists R, n]. destruct (vpeer y) as [p|] eqn:Ep; [|by exists R, n].
  destruct (v_create_ok R n v (vtype y) mem H Hm) as (R1 & n1 & E1 & H1 & Em1). rewrite E1, bind_Some_l. destruct (Hp p eq_refl) as [z Hz].
  destruct (v_create (vtype y) mem v) as [[c|] v1] eqn:Ec; cbn [fst snd] in *; [|by exists R1, n1].
  assert (exists yc yp ys, vs v1 !! c = Some yc /\ vs v1 !! p = Some yp /\ vs v1 !! s = Some ys) as (yc & yp & ys & Hc & Hpp & Hss).
  { unfold v_create in Ec. destruct mem as [m|]; [|done]. destruct (valid_type (vtype y)); [|done]. injection Ec as -> <-. destruct (Hm c eq_refl) as [_ Hn]. cbn. rewrite lookup_insert_eq, !lookup_insert_ne by congruence. do 3 eexists. split; [done|]. split; [exact Hz|exact Hy]. }
  destruct (rep_socket_update R1 n1 v1 c yc (fun x => with_state UNIX_CONNECTED (with_peer (Some p) x)) (connected p) H1 Hc) as (n2 & E2 & H2 & Em2); [intros x' []; by split|done|]. rewrite E2, bind_Some_l.
  destruct (alter_some (connected p) (vs v1) c p yp Hpp) as [yp2 Hp2].
  destruct (rep_socket_update R1 n2 _ p yp2 (fun x => with_state UNIX_CONNECTED (with_peer (Some c) x)) (connected c) H2 Hp2) as (n3 & E3 & H3 & Em3); [intros x' []; by split|done|]. rewrite E3, bind_Some_l.
  destruct (alter_some (connected p) (vs v1) c s ys Hss) as [ys2 Hs2]. destruct (alter_some (connected c) _ p s ys2 Hs2) as [ys3 Hs3].
  destruct (rep_socket_update R1 n3 _ s ys3 (with_peer None) (with_vpeer None) H3 Hs3) as (n4 & E4 & H4 & Em4); [intros x' []; by split|done|]. rewrite E4, bind_Some_l.
  exists R1, n4. split; [done|]. split; [done|]. congruence.
Qed.

End Sockets.

End UnixSpec.
