(* ===== verification/UnixRefine.v ===== *)
(** Sequences of calls on Unix domain sockets: the refinement of the abstract sockets, that
    messages arrive in order and names are unique, and what goes wrong with listening
    sockets, references and locks. *)

From S2P Require Import Prelude KList Bytes Links UnixSocket UnixSpec.

Module UnixRefine.
Import KList Bytes Links UnixSocket UnixSpec.
Implicit Types (v : view) (y : vsock) (s p m : Z) (n : net) (x : unix_socket).

(** ** Calls *)

Inductive op :=
  | Create (t : Z) (mem : option Z) | Destroy (s : Z) | Bind (s : Z) (a : list Z) (mem : bool) | Connect (s : Z) (a : list Z) | Listen (s backlog : Z)
  | Accept (s : Z) (mem : option Z) | Send (s : Z) (d : list Z) (mem : option Z) (mem_data : bool) | Recv (s : Z) (buf : list Z) (flags : Z)
  | SendTo (s : Z) (d a : list Z) (mem : option Z) (mem_data : bool) | RecvFrom (s : Z) (buf : list Z) (flags : Z) | Shutdown (s how : Z) | Pair (t : Z) (mem1 mem2 : option Z).

Inductive answer := Num (r : Z) | Sock (s : option Z) | Got (r : outcome (Z * list Z)) | Accepted (r : outcome (option Z)) | Both (r : Z * option (Z * Z)) | Nothing.

Section Calls.
Context (head : Z) (sock_arena msg_arena : gset Z) (layout : disjoint_layout head sock_arena msg_arena).
Notation rep := (rep head sock_arena msg_arena).

Definition perform (o : op) n : option (answer * net) :=
  match o with
  | Create t mem => r ← unix_socket_create head t mem n; Some (Sock r.1, r.2)
  | Destroy s => n ← unix_socket_destroy (Some s) n; Some (Nothing, n)
  | Bind s a mem => r ← unix_socket_bind head (Some s) (Some a) (len a) mem n; Some (Num r.1, r.2)
  | Connect s a => r ← unix_socket_connect head (Some s) (Some a) (len a) n; Some (Num r.1, r.2)
  | Listen s b => r ← unix_socket_listen (Some s) b n; Some (Num r.1, r.2)
  | Accept s mem => r ← unix_socket_accept head (Some s) mem n; Some (Accepted r.1, r.2)
  | Send s d mem md => r ← unix_socket_send (Some s) (Some d) (len d) mem md n; Some (Num r.1, r.2)
  | Recv s buf f => r ← unix_socket_recv (Some s) (Some buf) (len buf) f n; Some (Got r.1, r.2)
  | SendTo s d a mem md => r ← unix_socket_sendto head (Some s) (Some d) (len d) (Some a) (len a) mem md n; Some (Num r.1, r.2)
  | RecvFrom s buf f => r ← unix_socket_recvfrom (Some s) (Some buf) (len buf) f n; Some (Got r.1, r.2)
  | Shutdown s how => r ← unix_socket_shutdown (Some s) how n; Some (Num r.1, r.2)
  | Pair t m1 m2 => r ← unix_socket_pair head t true m1 m2 n; Some (Both r.1, r.2)
  end.

Definition spec (o : op) v : answer * view :=
  match o with
  | Create t mem => let r := v_create t mem v in (Sock r.1, r.2)
  | Destroy s => (Nothing, v_destroy s v)
  | Bind s a mem => let r := v_bind s a mem v in (Num r.1, r.2)
  | Connect s a => let r := v_connect s a v in (Num r.1, r.2)
  | Listen s _ => let r := v_listen s v in (Num r.1, r.2)
  | Accept s mem => let r := v_accept s mem v in (Accepted r.1, r.2)
  | Send s d mem md => let r := v_send s d mem md v in (Num r.1, r.2)
  | Recv s buf f => let r := v_recv s buf f v in (Got r.1, r.2)
  | SendTo s d a mem md => let r := v_sendto s d a mem md v in (Num r.1, r.2)
  | RecvFrom s buf f => let r := v_recvfrom s buf f v in (Got r.1, r.2)
  | Shutdown s _ => let r := v_shutdown s v in (Num r.1, r.2)
  | Pair t m1 m2 => let r := v_pair t m1 m2 v in (Both r.1, r.2)
  end.

(** The sockets used are there, and so are the peers that are written to; [kmalloc] gives
    memory that is not in use. *)
Definition known s v : Prop := is_Some (vs v !! s).
Definition free_socket (mem : option Z) v : Prop := forall s, mem = Some s -> s ∈ sock_arena /\ vs v !! s = None.

Definition allowed (o : op) n v : Prop :=
  match o with
  | Create _ mem => free_socket mem v
  | Destroy s | Bind s _ _ | Connect s _ | Listen s _ | Recv s _ _ | RecvFrom s _ _ => known s v
  | Accept s mem => known s v /\ free_socket mem v /\ forall y p, vs v !! s = Some y -> vpeer y = Some p -> known p v
  | Send s _ mem _ | SendTo s _ _ mem _ => known s v /\ peer_there s v /\ fresh_message msg_arena mem n
  | Shutdown s _ => known s v /\ peer_there s v
  | Pair _ m1 m2 => free_socket m1 v /\ free_socket m2 v /\ (forall s, m2 = Some s -> m1 <> Some s)
  end.

Lemma unix_perform_ok R n v o : rep R n v -> allowed o n v -> exists R' n', perform o n = Some ((spec o v).1, n') /\ rep R' n' (spec o v).2.
Proof.
  intros H Ha. destruct o as [t mem|s|s a mem|s a|s b|s mem|s d mem md|s buf f|s d a mem md|s buf f|s how|t m1 m2]; cbn [perform spec allowed fst snd] in *.
  - destruct (v_create_ok _ _ _ layout R n v t mem H Ha) as (R' & n' & E & H' & _). rewrite E, bind_Some_l. by exists R', n'.
  - destruct Ha as [y Hy]. destruct (destroy_ok _ _ _ layout R n v s y H Hy) as (R' & n' & E & H' & _). rewrite E, bind_Some_l. by exists R', n'.
  - destruct Ha as [y Hy]. destruct (bind_ok _ _ _ R n v s y a mem H Hy) as (n' & E & H' & _). rewrite E, bind_Some_l. by exists R, n'.
  - destruct Ha as [y Hy]. destruct (connect_ok _ _ _ layout R n v s y a H Hy) as (R' & n' & E & H' & _). rewrite E, bind_Some_l. by exists R', n'.
  - destruct Ha as [y Hy]. destruct (listen_ok _ _ _ R n v s y b H Hy) as (n' & E & H' & _). rewrite E, bind_Some_l. by exists R, n'.
  - destruct Ha as ([y Hy] & Hm & Hp). destruct (v_accept_ok _ _ _ layout R n v s y mem H Hy Hm) as (R' & n' & E & H' & _); [intros p; by apply Hp|]. rewrite E, bind_Some_l. by exists R', n'.
  - destruct Ha as ([y Hy] & Hp & Hm). destruct (v_send_ok _ _ _ layout R n v s y d mem md H Hy Hp Hm) as (R' & n' & E & H' & _). rewrite E, bind_Some_l. by exists R', n'.
  - destruct Ha as [y Hy]. destruct (recv_ok _ _ _ layout R n v s y buf f H Hy) as (R' & n' & E & H' & _). rewrite E, bind_Some_l. by exists R', n'.
  - destruct Ha as ([y Hy] & Hp & Hm). destruct (sendto_ok _ _ _ layout R n v s y d a mem md H Hy Hp Hm) as (R' & n' & E & H' & _). rewrite E, bind_Some_l. by exists R', n'.
  - destruct Ha as [y Hy]. destruct (recvfrom_ok _ _ _ layout R n v s y buf f H Hy) as (R' & n' & E & H' & _). rewrite E, bind_Some_l. by exists R', n'.
  - destruct Ha as ([y Hy] & Hp). destruct (shutdown_ok _ _ _ R n v s y how H Hy Hp) as (n' & E & H' & _). rewrite E, bind_Some_l. by exists R, n'.
  - destruct Ha as (H1 & H2 & H3). destruct (pair_ok _ _ _ layout R n v t m1 m2 H H1) as (R' & n' & E & H' & _); [intros s Hs; destruct (H2 s Hs); auto|]. rewrite E, bind_Some_l. by exists R', n'.
Qed.

Fixpoint run (os : list op) n : option (list answer * net) :=
  match os with [] => Some ([], n) | o :: os => r ← perform o n; q ← run os r.2; Some (r.1 :: q.1, q.2) end.
Fixpoint spec_run (os : list op) v : list answer * view :=
  match os with [] => ([], v) | o :: os => let r := spec o v in let q := spec_run os r.2 in (r.1 :: q.1, q.2) end.

(** Every call is allowed in the state it is made in. *)
Fixpoint all_allowed (os : list op) n v : Prop :=
  match os with [] => True | o :: os => allowed o n v /\ forall a n', perform o n = Some (a, n') -> all_allowed os n' (spec o v).2 end.

(** Calls refine their specification, and keep what the specification keeps. *)
Lemma run_keeps (I : view -> Prop) R n v os : (forall R n o v, rep R n v -> I v -> I (spec o v).2) -> rep R n v -> I v -> all_allowed os n v ->
  exists R' n', run os n = Some ((spec_run os v).1, n') /\ rep R' n' (spec_run os v).2 /\ I (spec_run os v).2.
Proof.
  intros HI. revert R n v. induction os as [|o os IH]; intros R n v H Hv Ha; [by exists R, n|]. destruct Ha as [Ho Ha]. destruct (unix_perform_ok R n v o H Ho) as (R1 & n1 & E1 & H1).
  destruct (IH R1 n1 _ H1 (HI R n o v H Hv) (Ha _ _ E1)) as (R2 & n2 & E2 & H2 & Hv2). exists R2, n2. cbn [run spec_run]. rewrite E1, bind_Some_l. cbn [fst snd]. by rewrite E2, bind_Some_l.
Qed.

Lemma unix_sockets_refine_run R n v os : rep R n v -> all_allowed os n v -> exists R' n', run os n = Some ((spec_run os v).1, n') /\ rep R' n' (spec_run os v).2.
Proof. intros H Ha. destruct (run_keeps (fun _ => True) R n v os (fun _ _ _ _ _ _ => I) H I Ha) as (R' & n' & E & H' & _). by exists R', n'. Qed.

(** C16: any sequence of creating, destroying, binding, connecting, listening, accepting,
    sending, receiving and shutting down sockets runs without a fault, while the peers that
    are written to exist, and refines a finite map from
    sockets to their state and a queue of messages: a message is queued completely at the
    peer or not at all, receiving takes the oldest one, and a socket disappears with its
    messages when its last reference is given up. *)
Theorem unix_sockets_refine R n v os : rep R n v -> all_allowed os n v ->
  exists R' n', run os n = Some ((spec_run os v).1, n') /\ rep R' n' (spec_run os v).2.
Proof. apply unix_sockets_refine_run. Qed.

(** ** Changes of one socket *)

(** What holds of every socket holds after a change that keeps it. *)
Definition every (P : Z -> vsock -> Prop) v : Prop := forall s y, vs v !! s = Some y -> P s y.

Lemma every_alter (P : Z -> vsock -> Prop) g s v : every P v -> (forall y, vs v !! s = Some y -> P s y -> P s (g y)) -> every P (v_alter g s v).
Proof.
  intros H Hg t z Hz. cbn in Hz. destruct (decide (s = t)) as [<-|Hne]; [|rewrite lookup_alter_ne in Hz by done; by apply H].
  rewrite lookup_alter_eq in Hz. apply fmap_Some in Hz as (y & Hy & ->). apply Hg; [done|]. by apply H.
Qed.

Lemma every_create (P : Z -> vsock -> Prop) t mem v : every P v -> (forall s t, P s (mk_vsock t UNIX_UNCONNECTED None None 1 [])) -> every P (v_create t mem v).2.
Proof. intros H Hn. unfold v_create. destruct mem as [s|]; [|done]. destruct (valid_type t); [|done]. intros k y. cbn [snd vs]. intros [[<- <-]|[_ Hy]]%lookup_insert_Some; [apply Hn|by apply H]. Qed.

Lemma every_destroy (P : Z -> vsock -> Prop) s v : every P v -> (forall k y, P s y -> P s (add_vrefs k y)) -> every P (v_destroy s v).
Proof.
  intros H Hr. unfold v_destroy. destruct (vs v !! s) as [y|]; [|done]. case_match; [|apply every_alter; auto]. intros k z. cbn [vs]. intros [_ Hz]%lookup_delete_Some. by apply H.
Qed.

Lemma every_find (P : Z -> vsock -> Prop) a v : every P v -> (forall s k y, P s y -> P s (add_vrefs k y)) -> every P (v_find a v).2.
Proof. intros H Hr. unfold v_find. destruct (good_name a); [|done]. destruct (List.find _ _); [|done]. apply every_alter; auto. Qed.

(** What each call keeps of every socket, from what the changes that calls make keep. *)
Lemma every_spec (P : Z -> vsock -> Prop) o v : every P v ->
  (forall s t, P s (mk_vsock t UNIX_UNCONNECTED None None 1 [])) -> (forall s k y, P s y -> P s (add_vrefs k y)) -> (forall s q y, P s y -> P s (with_vqueue q y)) ->
  (forall s p y, P s y -> P s (connected p y)) -> (forall s y, P s y -> P s (with_vstate UNIX_DISCONNECTED y)) -> (forall s y, P s y -> P s (with_vpeer None y)) ->
  (forall s y, vstate y = UNIX_UNCONNECTED -> P s y -> P s (with_vstate UNIX_CONNECTING y)) -> (forall s a mem y, o = Bind s a mem -> P s y -> P s (with_vaddr a y)) ->
  every P (spec o v).2.
Proof.
  intros H Hnew Hrefs Hqueue Hconn Hdisc Hpeer Hlisten Hbind.
  assert (forall s v, every P v -> every P (v_destroy s v)) as Hd by (intros; apply every_destroy; auto). assert (forall a v, every P v -> every P (v_find a v).2) as Hf by (intros; apply every_find; auto).
  assert (forall t mem v, every P v -> every P (v_create t mem v).2) as Hc by (intros; apply every_create; auto).
  assert (forall p d v, every P v -> every P (v_put p d v)) as Hp by (intros; apply every_alter; auto).
  assert (forall s d mem md v, every P v -> every P (v_send s d mem md v).2) as Hs by (intros; unfold v_send; repeat case_match; cbn; auto).
  assert (forall s b f y v, every P v -> every P (v_take s b f y v).2) as Ht by (intros; unfold v_take; repeat case_match; cbn; auto; apply every_alter; auto).
  destruct o as [t mem|s|s a mem|s a|s b|s mem|s d mem md|s buf f|s d a mem md|s buf f|s how|t m1 m2]; cbn [spec fst snd]; auto.
  - unfold v_bind. destruct (vs v !! s); [|done]. case_match; [done|]. case_match; [done|]. specialize (Hf a v H). destruct (v_find a v) as [[q|] w]; [done|]. case_match; [|done]. apply every_alter; [done|]. intros. by eapply Hbind.
  - unfold v_connect. destruct (vs v !! s); [|done]. case_match; [done|]. specialize (Hf a v H). destruct (v_find a v) as [[q|] w]; [|done]. cbn in Hf. destruct (vs w !! q); [|done]. case_match; [by apply Hd|]. apply every_alter; auto.
  - unfold v_listen. destruct (vs v !! s) as [y|] eqn:Ey; [|done]. case_match; [|done]. destruct (Z.eqb_spec (vstate y) UNIX_UNCONNECTED) as [E|]; [|done].
    apply every_alter; [done|]. intros z Hz Hq. assert (z = y) as -> by congruence. auto.
  - unfold v_accept. destruct (vs v !! s) as [y|]; [|done]. case_match; [|done]. case_match; [|done]. specialize (Hc (vtype y) mem v H). destruct (v_create (vtype y) mem v) as [[c|] w]; [|done].
    cbn in *. repeat (apply every_alter; auto).
  - unfold v_recv. destruct (vs v !! s); [|done]. case_match; auto.
  - unfold v_sendto. destruct (vs v !! s); [|done]. case_match; [done|]. case_match; [by apply Hs|]. case_match; [done|]. specialize (Hf a v H). destruct (v_find a v) as [[q|] w]; [|done]. cbn in Hf. repeat case_match; cbn; auto.
  - unfold v_recvfrom. destruct (vs v !! s); [|done]. case_match; auto.
  - unfold v_shutdown. destruct (vs v !! s); [|done]. case_match; [|done]. case_match; cbn; repeat (apply every_alter; auto).
  - unfold v_pair. specialize (Hc t m1 v H) as H1. destruct (v_create t m1 v) as [[s1|] w]; [|done]. cbn in H1. specialize (Hc t m2 w H1) as H2. destruct (v_create t m2 w) as [[s2|] w2]; cbn in *; [|by apply Hd].
    repeat (apply every_alter; auto).
Qed.

(** ** Names *)

(** Two sockets never have the same name. *)
Definition unique v : Prop := forall s t y z a, vs v !! s = Some y -> vs v !! t = Some z -> vaddr y = Some a -> vaddr z = Some a -> s = t.

(** A name of [v]. *)
Definition named v s y : Prop := forall a, vaddr y = Some a -> exists y0, vs v !! s = Some y0 /\ vaddr y0 = Some a.

Lemma unique_named v w : unique v -> every (named v) w -> unique w.
Proof. intros Hu H s t y z a Hy Hz Ha Hb. destruct (H s y Hy a Ha) as (y0 & Hy0 & Ha0). destruct (H t z Hz a Hb) as (z0 & Hz0 & Hb0). exact (Hu s t y0 z0 a Hy0 Hz0 Ha0 Hb0). Qed.

Lemma find_none_free a v s y : (forall s, s ∈ order v <-> known s v) -> List.find (has_vaddr a v) (order v) = None -> vs v !! s = Some y -> vaddr y <> Some a.
Proof.
  intros HK Hf Hy Ha. assert (s ∈ order v) as Hin by (apply HK; by eexists). apply list_elem_of_In in Hin. pose proof (List.find_none _ _ Hf s Hin) as Hn. unfold has_vaddr in Hn. rewrite Hy in Hn. by apply bool_decide_eq_false in Hn.
Qed.

Lemma unique_bind s a mem v : (forall s, s ∈ order v <-> known s v) -> unique v -> unique (v_bind s a mem v).2.
Proof.
  intros HK Hu. unfold v_bind. destruct (vs v !! s) as [y|] eqn:Ey; [|done]. case_match; [done|]. destruct (vaddr y); [done|]. unfold v_find. destruct (good_name a); [|done].
  destruct (List.find _ _) as [q|] eqn:Ef; cbn.
  - apply (unique_named v); [done|]. apply every_alter; [by intros t z Hz b Hb; exists z|]. intros z Hz Hn b Hb. by apply Hn.
  - destruct mem; [|done]. intros t1 t2 z1 z2 b H1 H2 B1 B2. cbn in H1, H2. destruct (decide (s = t1)) as [<-|N1], (decide (s = t2)) as [<-|N2]; [done| | |];
      rewrite ?lookup_alter_eq, ?Ey, ?lookup_alter_ne in H1 by done; rewrite ?lookup_alter_eq, ?Ey, ?lookup_alter_ne in H2 by done.
    + injection H1 as <-. injection B1 as <-. by destruct (find_none_free a v t2 z2 HK Ef H2).
    + injection H2 as <-. injection B2 as <-. by destruct (find_none_free a v t1 z1 HK Ef H1).
    + by eapply Hu.
Qed.

Lemma unique_spec R n o v : rep R n v -> unique v -> unique (spec o v).2.
Proof.
  intros H Hu. assert (every (named v) v) as Hv by (intros t z Hz b Hb; by exists z).
  destruct o; [| |apply unique_bind; [apply (rp_known _ _ _ _ _ _ H)|done]|..]; (apply (unique_named v); [done|]; apply every_spec; done).
Qed.

(** ** A listening socket never gets a connection *)

(** Sockets that are not connected have no peer. *)
Definition quiet : view -> Prop := every (fun _ y => vstate y = UNIX_UNCONNECTED \/ vstate y = UNIX_CONNECTING -> vpeer y = None).

Lemma quiet_spec R n o v : rep R n v -> quiet v -> quiet (spec o v).2.
Proof.
  intros _ H. apply every_spec; try done; [intros s p y _ [E|E]; done|intros s y _ [E|E]; done|intros s y E Hy _; apply Hy; by left].
Qed.

(** C19: whatever calls were made before, [unix_socket_accept] on a listening socket waits:
    no call ever gives a listening socket the peer it waits for. *)
Theorem accept_never_returns R n v os s y mem : rep R n v -> quiet v -> all_allowed os n v -> vs (spec_run os v).2 !! s = Some y -> vstate y = UNIX_CONNECTING ->
  exists as' n', run os n = Some (as', n') /\ unix_socket_accept head (Some s) mem n' = Some (Wait, n').
Proof.
  intros H Hq Ha Hy Hst. destruct (run_keeps quiet R n v os quiet_spec H Hq Ha) as (R' & n' & E & H' & Hq'). exists (spec_run os v).1, n'. split; [done|].
  destruct (rp_socks _ _ _ _ _ _ H' s y Hy) as (x & Hx & Hr). unfold unix_socket_accept, accept_loop. rewrite Hx, !bind_Some_l, (so_state _ _ Hr), Hst. cbn [negb Z.eqb UNIX_CONNECTING Pos.eqb].
  rewrite (so_peer _ _ Hr), (Hq' s y Hy (or_intror Hst)). done.
Qed.

(** The bytes of a socket's address. *)
Definition name_of x : option (list Z) := option_map (fun d => take (Z.to_nat (alen d)) (aname d)) (address x).

Lemma name_rep R n v s x : rep R n v -> socks n !! s = Some x -> exists y, vs v !! s = Some y /\ vaddr y = name_of x.
Proof.
  intros H Hx. destruct (vs v !! s) as [y|] eqn:Hy; [|rewrite (rp_none _ _ _ _ _ _ H s Hy) in Hx; discriminate Hx]. exists y. split; [done|].
  destruct (rp_socks _ _ _ _ _ _ H s y Hy) as (x' & Hx' & Hr). assert (x' = x) as -> by congruence. pose proof (so_addr _ _ Hr) as Ha. unfold addr_rep, name_of in *. destruct (address x), (vaddr y); try done. cbn. by destruct Ha as [-> _].
Qed.

(** C18: sockets never share a name: whatever calls are made, two sockets whose addresses have
    the same bytes are the same one, so [unix_socket_find] has one answer. *)
Theorem addresses_unique R n v os : rep R n v -> unique v -> all_allowed os n v ->
  exists n', run os n = Some ((spec_run os v).1, n') /\ forall s t x z, socks n' !! s = Some x -> socks n' !! t = Some z -> name_of x = name_of z -> name_of x <> None -> s = t.
Proof.
  intros H Hu Ha. destruct (run_keeps unique R n v os unique_spec H Hu Ha) as (R' & n' & E & H' & Hu'). exists n'. split; [done|]. intros s t x z Hx Hz Hxz Hn.
  destruct (name_rep R' n' _ s x H' Hx) as (y & Hy & Ey). destruct (name_rep R' n' _ t z H' Hz) as (y' & Hy' & Ey'). destruct (name_of x) as [a|]; [|done]. eapply Hu'; [exact Hy|exact Hy'|exact Ey|by rewrite Ey'].
Qed.

(** ** Conversations *)

(** [s] is connected to [p] and has the messages [q]. *)
Definition linked v s p (q : list (list Z)) : Prop := exists y, vs v !! s = Some y /\ vstate y = UNIX_CONNECTED /\ vpeer y = Some p /\ vqueue y = q.

(** Sending and receiving on one socket; messages have at most [k] bytes, and buffers room
    for that many. *)
Definition talks (k : Z) s (o : op) : Prop := match o with Send t d _ _ => t = s /\ len d <= k | Recv t buf _ => t = s /\ k <= len buf | _ => False end.

(** The messages that were sent on and received from [s], from the answers. *)
Definition sent1 s (o : op) (a : answer) : list (list Z) := match o, a with Send t d _ _, Num r => if (t =? s) && (0 <=? r) then [d] else [] | _, _ => [] end.
Definition received1 s (o : op) (a : answer) : list (list Z) := match o, a with Recv t _ _, Got (Done (r, b)) => if (t =? s) && (0 <=? r) then [take (Z.to_nat r) b] else [] | _, _ => [] end.
Definition sent s (os : list op) (az : list answer) : list (list Z) := concat (zip_with (sent1 s) os az).
Definition received s (os : list op) (az : list answer) : list (list Z) := concat (zip_with (received1 s) os az).

Lemma linked_other v s p q g t : linked v s p q -> t <> s -> linked (v_alter g t v) s p q.
Proof. intros (y & Hy & E) Hne. exists y. cbn. rewrite lookup_alter_ne by done. done. Qed.

Lemma linked_queue v s p q q' g : linked v s p q -> (forall y, vqueue y = q -> g y = with_vqueue q' y) -> linked (v_alter g s v) s p q'.
Proof. intros (y & Hy & E1 & E2 & E3) Hg. exists (with_vqueue q' y). cbn. rewrite lookup_alter_eq, Hy. cbn. by rewrite Hg. Qed.

Lemma received1_other s t o a k : talks k s o -> t <> s -> received1 t o a = [].
Proof. intros Ho Hne. destruct o, a; try done. destruct Ho as [-> _]. cbn. destruct r as [[r b]|]; [|done]. by destruct (Z.eqb_spec s t). Qed.

Lemma sent1_other s t o a k : talks k s o -> t <> s -> sent1 t o a = [].
Proof. intros Ho Hne. destruct o, a; try done. destruct Ho as [-> _]. cbn. by destruct (Z.eqb_spec s t). Qed.

Lemma talk_step k v s p q r o : s <> p -> linked v s p q -> linked v p s r -> talks k s o -> Forall (fun d : list Z => len d <= k) q ->
  exists q' r', linked (spec o v).2 s p q' /\ linked (spec o v).2 p s r' /\ q = received1 s o (spec o v).1 ++ q' /\ r ++ sent1 s o (spec o v).1 = r' /\
    Forall (fun d : list Z => len d <= k) (sent1 s o (spec o v).1).
Proof.
  intros Hne Hs Hp Ho Hq. pose proof Hs as (y & Hy & Est & Epe & Eq). destruct o; try done; destruct Ho as [-> Hk]; cbn [spec sent1 received1 fst snd].
  - unfold v_send. rewrite Hy, Est, Epe, !Z.eqb_refl. cbn [negb andb]. rewrite orb_false_r. destruct (Z.eqb_spec (len d) 0); [exists q, r; cbn; by rewrite app_nil_r|]. destruct mem; [|exists q, r; by rewrite app_nil_r]. destruct mem_data; [|exists q, r; by rewrite app_nil_r].
    cbn [fst snd]. destruct (Z.leb_spec 0 (len d)); [|lia]. exists q, (r ++ [d]). split; [by apply linked_other|]. split; [|split; [done|split; [done|by repeat constructor]]]. eapply linked_queue; [exact Hp|]. by intros w ->.
  - unfold v_recv, v_take. rewrite Hy, Est, !Z.eqb_refl, Eq. cbn [negb]. rewrite orb_false_r. destruct (Z.eqb_spec (len buf) 0) as [E0|]; [exists q, r; cbn; by rewrite app_nil_r|].
    destruct q as [|d q]; [exists [], r; destruct (has_flag flags MSG_DONTWAIT); cbn; by rewrite app_nil_r|].
    apply Forall_cons in Hq as [Hd Hq]. cbn [fst snd]. rewrite Z.min_r by lia. destruct (Z.leb_spec 0 (len d)); [|lia]. cbn [andb app]. exists q, r. rewrite app_nil_r. split; [by eapply linked_queue|]. split; [by apply linked_other|].
    split; [|done]. f_equal. rewrite Nat2Z.id, (take_ge d) by lia. by rewrite take_app_length.
Qed.

Lemma talk_run k s p os v q r : s <> p -> linked v s p q -> linked v p s r -> Forall (fun o => talks k s o \/ talks k p o) os -> Forall (fun d : list Z => len d <= k) q -> Forall (fun d : list Z => len d <= k) r ->
  exists q' r', linked (spec_run os v).2 s p q' /\ linked (spec_run os v).2 p s r' /\ q ++ sent p os (spec_run os v).1 = received s os (spec_run os v).1 ++ q' /\
    r ++ sent s os (spec_run os v).1 = received p os (spec_run os v).1 ++ r'.
Proof.
  intros Hne. revert v q r. induction os as [|o os IH]; intros v q r Hs Hp Ho Hq Hr; [exists q, r; cbn; by rewrite !app_nil_r|]. apply Forall_cons in Ho as [Ho Hos]. cbn [spec_run fst snd]. unfold sent, received. cbn [zip_with concat].
  fold (sent s os (spec_run os (spec o v).2).1) (sent p os (spec_run os (spec o v).2).1) (received s os (spec_run os (spec o v).2).1) (received p os (spec_run os (spec o v).2).1).
  destruct Ho as [Ho|Ho].
  - destruct (talk_step k v s p q r o Hne Hs Hp Ho Hq) as (q1 & r1 & Hs1 & Hp1 & -> & <- & Hd). apply Forall_app in Hq as [_ Hq].
    destruct (IH _ q1 _ Hs1 Hp1 Hos Hq) as (q2 & r2 & Hs2 & Hp2 & E1 & E2); [by apply Forall_app|]. exists q2, r2. split; [done|]. split; [done|]. rewrite (received1_other s p o _ k Ho), (sent1_other s p o _ k Ho) by done. cbn [app].
    rewrite <-!(assoc_L (++)), E1, <-E2. by rewrite <-(assoc_L (++)).
  - destruct (talk_step k v p s r q o (not_eq_sym Hne) Hp Hs Ho Hr) as (r1 & q1 & Hp1 & Hs1 & -> & <- & Hd). apply Forall_app in Hr as [_ Hr].
    destruct (IH _ _ r1 Hs1 Hp1 Hos) as (q2 & r2 & Hs2 & Hp2 & E1 & E2); [by apply Forall_app|done|]. exists q2, r2. split; [done|]. split; [done|]. rewrite (received1_other p s o _ k Ho), (sent1_other p s o _ k Ho) by done. cbn [app].
    rewrite <-!(assoc_L (++)), E2, <-E1. by rewrite <-(assoc_L (++)).
Qed.

(** C17: after [unix_socket_pair], in any interleaving of sending and receiving on both ends
    with receive buffers large enough for every message (a shorter one cuts the message off), what was sent on one end is what was received on the other,
    in the same order and unchanged, followed by the messages still in its queue. *)
Theorem messages_in_order k R n v t s p os : rep R n v -> valid_type t = true -> all_allowed (Pair t (Some s) (Some p) :: os) n v -> Forall (fun o => talks k s o \/ talks k p o) os ->
  exists az R' n' v' ys yp, run (Pair t (Some s) (Some p) :: os) n = Some (Both (0, Some (s, p)) :: az, n') /\ rep R' n' v' /\ vs v' !! s = Some ys /\ vs v' !! p = Some yp /\
    sent p os az = received s os az ++ vqueue ys /\ sent s os az = received p os az ++ vqueue yp.
Proof.
  intros H Ht Ha Hos. pose proof Ha as [(_ & _ & Hne) _]. destruct (unix_sockets_refine_run R n v _ H Ha) as (R' & n' & E & H'). cbn [spec_run fst snd] in E, H'. revert E H'.
  assert (spec (Pair t (Some s) (Some p)) v = (Both (0, Some (s, p)), (v_pair t (Some s) (Some p) v).2)) as -> by (cbn; unfold v_pair, v_create; by rewrite Ht).
  cbn [fst snd]. intros E H'. assert (s <> p) as Hsp by (intros ->; by apply (Hne p)).
  destruct (talk_run k s p os (v_pair t (Some s) (Some p) v).2 [] [] Hsp) as (q' & r' & (ys & Hys & _ & _ & <-) & (yp & Hyp & _ & _ & <-) & E1 & E2); [| |done|done|done|].
  - unfold v_pair, v_create. rewrite Ht. eexists. cbn. rewrite lookup_alter_ne, lookup_alter_eq, lookup_insert_ne, lookup_insert_eq by done. done.
  - unfold v_pair, v_create. rewrite Ht. eexists. cbn. rewrite lookup_alter_eq, lookup_alter_ne, lookup_insert_eq by done. done.
  - do 6 eexists. split; [exact E|]. split; [exact H'|]. split; [exact Hys|]. split; [exact Hyp|]. by split.
Qed.

(** ** Deciding which calls are allowed *)

Definition known_b s v : bool := bool_decide (is_Some (vs v !! s)).
Definition free_socket_b (mem : option Z) v : bool := match mem with Some s => bool_decide (s ∈ sock_arena) && bool_decide (vs v !! s = None) | None => true end.
Definition fresh_message_b (mem : option Z) n : bool := match mem with Some m => bool_decide (m ∈ msg_arena) && bool_decide (messages n !! m = None) | None => true end.
Definition peer_b (p : option Z) v : bool := match p with Some p => known_b p v | None => true end.
Definition peer_there_b s v : bool :=
  match vs v !! s with Some y => if vstate y =? UNIX_CONNECTED then match vpeer y with Some p => known_b p v | None => true end else true | None => true end.

Definition allowed_b (o : op) n v : bool :=
  match o with
  | Create _ mem => free_socket_b mem v
  | Destroy s | Bind s _ _ | Connect s _ | Listen s _ | Recv s _ _ | RecvFrom s _ _ => known_b s v
  | Accept s mem => known_b s v && free_socket_b mem v && peer_b (y ← vs v !! s; vpeer y) v
  | Send s _ mem _ | SendTo s _ _ mem _ => known_b s v && peer_there_b s v && fresh_message_b mem n
  | Shutdown s _ => known_b s v && peer_there_b s v
  | Pair _ m1 m2 => free_socket_b m1 v && free_socket_b m2 v && (bool_decide (m2 = None) || negb (bool_decide (m1 = m2)))
  end.

Fixpoint all_allowed_b (os : list op) n v : bool :=
  match os with [] => true | o :: os => allowed_b o n v && match perform o n with Some (_, n') => all_allowed_b os n' (spec o v).2 | None => true end end.

Lemma free_socket_sound mem v : free_socket_b mem v = true -> free_socket mem v.
Proof. intros H s ->. apply andb_true_iff in H as [H1 H2]. split; by eapply bool_decide_eq_true. Qed.

Lemma fresh_message_sound mem n : fresh_message_b mem n = true -> fresh_message msg_arena mem n.
Proof. intros H s ->. apply andb_true_iff in H as [H1 H2]. split; by eapply bool_decide_eq_true. Qed.

Lemma peer_there_sound s v : peer_there_b s v = true -> peer_there s v.
Proof.
  intros H y p Hy Hst Hp. unfold peer_there_b in H. rewrite Hy, Hst, Hp in H. by apply bool_decide_eq_true in H.
Qed.

Lemma allowed_sound o n v : allowed_b o n v = true -> allowed o n v.
Proof.
  destruct o; cbn [allowed_b allowed]; rewrite ?andb_true_iff; unfold known_b; rewrite ?bool_decide_eq_true; try done; try (intros H; by apply free_socket_sound).
  - intros [[H1 H2] H3]. split; [done|]. split; [by apply free_socket_sound|]. intros y p Hy Hp. rewrite Hy in H3. cbn in H3. rewrite Hp in H3. by apply bool_decide_eq_true in H3.
  - intros [[H1 H2] H3]. split; [done|]. split; [by apply peer_there_sound|by apply fresh_message_sound].
  - intros [[H1 H2] H3]. split; [done|]. split; [by apply peer_there_sound|by apply fresh_message_sound].
  - intros [H1 H2]. split; [done|by apply peer_there_sound].
  - intros [[H1 H2] H3]. split; [by apply free_socket_sound|]. split; [by apply free_socket_sound|]. intros s -> ->. cbn in H3. by rewrite bool_decide_true in H3.
Qed.

Lemma all_allowed_sound os n v : all_allowed_b os n v = true -> all_allowed os n v.
Proof.
  revert n v. induction os as [|o os IH]; intros n v; [done|]. cbn [all_allowed_b all_allowed]. intros [H1 H2]%andb_true_iff. split; [by apply allowed_sound|]. intros a n' E. rewrite E in H2. by apply IH.
Qed.

End Calls.

(** ** A concrete network *)

Definition ex_socks : gset Z := {[2000; 3000; 4000]}.
Definition ex_msgs : gset Z := {[5000; 6000; 7000]}.

Lemma ex_socket_layout : disjoint_layout 1000 ex_socks ex_msgs.
Proof.
  intros f a g b Ha Hb E. unfold live, ex_socks, ex_msgs in *. destruct f, g; rewrite ?elem_of_union, ?elem_of_singleton in Ha; rewrite ?elem_of_union, ?elem_of_singleton in Hb;
    unfold addr in E; cbn in E; try (split; [done|lia]); lia.
Qed.

(** The memory of nodes that are not in use yet, and the empty list of sockets. *)
Definition ex_nodes : list Z := [1000; 2000; 2024; 3000; 3024; 4000; 4024; 5000; 6000; 7000].
Definition ex_raw : heap := foldr new_node (mk_heap ∅ ∅) ex_nodes.
Definition ex_heap : heap := default ex_raw (list_init 1000 ex_raw).
Definition ex_net : net := mk_net ex_heap ∅ ∅.
Definition ex_lists : gmap (field * Z) (list Z) := {[(SocketsHead, 1000) := []]}.
Definition ex_view : view := mk_view [] ∅.

Lemma ex_socket_rep : rep 1000 ex_socks ex_msgs ex_lists ex_net ex_view.
Proof.
  assert (tracks (live 1000 ex_socks ex_msgs) ex_raw ∅) as HT.
  { split; [|intros f a l E; by rewrite lookup_empty in E|intros f a b l l' d E; by rewrite lookup_empty in E].
    intros f a Ha. destruct f; cbn in Ha; unfold ex_socks, ex_msgs in Ha; rewrite ?elem_of_union, ?elem_of_singleton in Ha; repeat (destruct Ha as [Ha|Ha]); subst a; split; vm_compute; by eexists. }
  destruct (init_head (live 1000 ex_socks ex_msgs) ex_socket_layout ex_raw ∅ SocketsHead 1000 SockList HT eq_refl eq_refl) as (h & E & HT1); [done|].
  assert (h = ex_heap) as -> by (change (addr 1000 SocketsHead) with 1000 in E; unfold ex_heap; by rewrite E).
  split; try done.
  - intros s. cbn. rewrite lookup_empty. split; [intros H; by apply not_elem_of_nil in H|by intros [? ?]].
  - intros s ms E1. unfold ex_lists in E1. apply lookup_singleton_Some in E1 as [[=] _].
Qed.

Lemma ex_quiet : quiet ex_view.
Proof. by intros s y Hy. Qed.

Lemma ex_unique : unique ex_view.
Proof. by intros s t y z a Hy. Qed.

(** A datagram to a named socket, and a stream between the ends of a pair. *)
Definition ex_ops : list op :=
  [Create 2 (Some 2000); Bind 2000 [97; 98] true; Pair 1 (Some 3000) (Some 4000); Send 3000 [1; 2; 3] (Some 5000) true; SendTo 2000 [4] [97; 98] (Some 6000) true;
   Recv 4000 [0; 0] 0; RecvFrom 2000 [0; 0; 0] 0; Recv 4000 [0] 0x10; Recv 4000 [0] 0; Bind 3000 [97; 98] true; Shutdown 3000 0; Destroy 4000; Send 3000 [1] None true].
Definition ex_answers : list answer :=
  [Sock (Some 2000); Num 0; Both (0, Some (3000, 4000)); Num 3; Num 1; Got (Done (2, [1; 2])); Got (Done (1, [4; 0; 0])); Got (Done (-1, [0])); Got Wait; Num (-1); Num 0; Nothing; Num (-1)].

Lemma ex_allowed os : all_allowed_b 1000 ex_socks ex_msgs os ex_net ex_view = true -> all_allowed 1000 ex_socks ex_msgs os ex_net ex_view.
Proof. apply all_allowed_sound. Qed.

Lemma unix_sockets_refine_witness : exists n', run 1000 ex_ops ex_net = Some (ex_answers, n').
Proof.
  destruct (unix_sockets_refine 1000 ex_socks ex_msgs ex_socket_layout ex_lists ex_net ex_view ex_ops ex_socket_rep) as (R' & n' & E & _); [apply ex_allowed; vm_compute; reflexivity|].
  exists n'. rewrite E. vm_compute. reflexivity.
Defined.

Definition ex_listening : list op := [Create 1 (Some 2000); Bind 2000 [97] true; Listen 2000 5; Create 1 (Some 3000); Connect 3000 [97]; Create 2 (Some 4000); Bind 4000 [98] true; Connect 3000 [98]].

Lemma accept_never_returns_witness : exists az n', run 1000 ex_listening ex_net = Some (az, n') /\ unix_socket_accept 1000 (Some 2000) None n' = Some (Wait, n').
Proof.
  apply (accept_never_returns 1000 ex_socks ex_msgs ex_socket_layout ex_lists ex_net ex_view ex_listening 2000 (mk_vsock 1 UNIX_CONNECTING (Some [97]) None 1 []) None ex_socket_rep ex_quiet);
    [apply ex_allowed; vm_compute; reflexivity|vm_compute; reflexivity|reflexivity].
Defined.

Lemma addresses_unique_witness : exists n', run 1000 ex_listening ex_net = Some ((spec_run ex_listening ex_view).1, n') /\ forall s x, socks n' !! s = Some x -> name_of x = Some [98] -> s = 4000.
Proof.
  destruct (addresses_unique 1000 ex_socks ex_msgs ex_socket_layout ex_lists ex_net ex_view ex_listening ex_socket_rep ex_unique) as (n' & E & Hu); [apply ex_allowed; vm_compute; reflexivity|].
  exists n'. split; [exact E|]. vm_compute in E. injection E as <-. intros s x Hx Hn. eapply (Hu s 4000 x); [exact Hx|vm_compute; reflexivity|rewrite Hn; reflexivity|by rewrite Hn].
Defined.

Definition ex_talk : list op := [Send 2000 [1; 2] (Some 5000) true; Send 3000 [9] (Some 6000) true; Recv 3000 [0; 0; 0] 0; Send 2000 [3] (Some 7000) true; Recv 2000 [0; 0] 0; Recv 3000 [0; 0] 0].

Lemma messages_in_order_witness : exists az n', run 1000 (Pair 1 (Some 2000) (Some 3000) :: ex_talk) ex_net = Some (az, n') /\
  az = [Both (0, Some (2000, 3000)); Num 2; Num 1; Got (Done (2, [1; 2; 0])); Num 1; Got (Done (1, [9; 0])); Got (Done (1, [3; 0]))].
Proof.
  destruct (messages_in_order 1000 ex_socks ex_msgs ex_socket_layout 2 ex_lists ex_net ex_view 1 2000 3000 ex_talk ex_socket_rep eq_refl) as (az & R' & n' & v' & ys & yp & E & _);
    [apply ex_allowed; vm_compute; reflexivity|unfold ex_talk; repeat (constructor; [cbn; lia|]); constructor|].
  eexists _, n'. split; [exact E|]. vm_compute in E. injection E as <- _. reflexivity.
Defined.

(** ** What goes wrong *)

(** A bind that fails because the name is taken leaves the other socket with a reference
    that nobody gives up: the socket is never freed. *)
Lemma bind_leaks_reference : exists az n', run 1000 [Create 2 (Some 2000); Bind 2000 [97] true; Create 2 (Some 3000); Bind 3000 [97] true; Destroy 2000] ex_net = Some (az, n') /\
  az = [Sock (Some 2000); Num 0; Sock (Some 3000); Num (-1); Nothing] /\ refcount <$> socks n' !! 2000 = Some 1.
Proof. do 2 eexists. split; [vm_compute; reflexivity|]. split; [reflexivity|vm_compute; reflexivity]. Qed.

(** A stream socket that listens cannot be connected to: only one that does not listen can. *)
Lemma listening_refused : exists az n', run 1000 [Create 1 (Some 2000); Bind 2000 [97] true; Create 1 (Some 3000); Listen 2000 5; Connect 3000 [97]] ex_net = Some (az, n') /\
  az = [Sock (Some 2000); Num 0; Sock (Some 3000); Num 0; Num (-1)].
Proof. do 2 eexists. split; [vm_compute; reflexivity|reflexivity]. Qed.

(** A socket connected to its own name sends to itself. *)
Lemma self_connected_sends : exists az n', run 1000 [Create 2 (Some 2000); Bind 2000 [97] true; Connect 2000 [97]; Send 2000 [1; 2] (Some 5000) true; Recv 2000 [0; 0] 0] ex_net = Some (az, n') /\
  az = [Sock (Some 2000); Num 0; Num 0; Num 2; Got (Done (2, [1; 2]))].
Proof. do 2 eexists. split; [vm_compute; reflexivity|reflexivity]. Qed.

(** The ends of a pair hold no reference to each other: after one is destroyed, sending on
    the other uses freed memory. *)
Lemma pair_peer_freed : exists az n', run 1000 [Pair 1 (Some 2000) (Some 3000); Destroy 3000] ex_net = Some (az, n') /\
  unix_socket_send (Some 2000) (Some [1]) 1 (Some 5000) true n' = None /\ peer <$> socks n' !! 2000 = Some (Some 3000) /\ socks n' !! 3000 = None.
Proof. do 2 eexists. split; [vm_compute; reflexivity|]. split; [vm_compute; reflexivity|]. split; vm_compute; reflexivity. Qed.

(** A connection holds a reference to the peer that no call gives up: destroying both
    sockets frees only the one that connected. *)
Lemma connection_leaks_reference : exists az n', run 1000 [Create 2 (Some 2000); Bind 2000 [97] true; Create 2 (Some 3000); Connect 3000 [97]; Shutdown 3000 0; Destroy 3000; Destroy 2000] ex_net = Some (az, n') /\
  socks n' !! 3000 = None /\ refcount <$> socks n' !! 2000 = Some 1.
Proof. do 2 eexists. split; [vm_compute; reflexivity|]. split; vm_compute; reflexivity. Qed.

End UnixRefine.
