(* ===== verification/ThreadSync.v ===== *)
(** Mutexes and semaphores of threads: [kernel/thread/thread_sync.c], as steps of any number
    of threads. *)

From S2P Require Import Prelude KList.

Module ThreadSync.
Import KList.

Definition EINVAL : Z := 22.
Definition EBUSY : Z := 16.
Definition EAGAIN : Z := 11.
Definition EPERM : Z := 1.
Definition EDEADLK : Z := 35.

(** A thread is named by its address. The node [wait_list] that the code takes from a thread
    is declared nowhere; its offset is a parameter. [waiters] is the address of the list
    head in the mutex or the semaphore. *)
Section Sync.
Context (waiters off : Z).

Definition wait_node (t : Z) : Z := t + off.
Definition thread_of (q : Z) : Z := q - off.

(** ** Lists without a lock *)

(** The accesses of [list_add_tail(new, head)] one by one: a thread is before the access the
    name tells, with the values it has read. *)
Inductive add_pc := AddLast | AddLink (p : Z) | AddLast2 | AddPrev (p : Z) | AddNext | AddHead.

(** The place behind the access, [None] at the end. *)
Definition list_add_tail_step (new head : Z) (a : add_pc) (h : heap) : option (option add_pc * heap) :=
  match a with
  | AddLast => p ← prev h !! head; Some (Some (AddLink p), h)
  | AddLink p => h ← set_next p new h; Some (Some AddLast2, h)
  | AddLast2 => p ← prev h !! head; Some (Some (AddPrev p), h)
  | AddPrev p => h ← set_prev new p h; Some (Some AddNext, h)
  | AddNext => h ← set_next new head h; Some (Some AddHead, h)
  | AddHead => h ← set_prev head new h; Some (None, h)
  end.

(** The same for [list_del(entry)]. *)
Inductive del_pc := DelNext | DelPrev (n : Z) | DelBack (n p : Z) | DelPrev2 | DelNext2 (p : Z) | DelForth (p n : Z) | DelClear | DelClear2.

Definition list_del_step (entry : Z) (d : del_pc) (h : heap) : option (option del_pc * heap) :=
  match d with
  | DelNext => n ← next h !! entry; Some (Some (DelPrev n), h)
  | DelPrev n => p ← prev h !! entry; Some (Some (DelBack n p), h)
  | DelBack n p => h ← set_prev n p h; Some (Some DelPrev2, h)
  | DelPrev2 => p ← prev h !! entry; Some (Some (DelNext2 p), h)
  | DelNext2 p => n ← next h !! entry; Some (Some (DelForth p n), h)
  | DelForth p n => h ← set_next p n h; Some (Some DelClear, h)
  | DelClear => h ← set_next entry 0 h; Some (Some DelClear2, h)
  | DelClear2 => h ← set_prev entry 0 h; Some (None, h)
  end.

(** ** Mutexes *)

Record mutex := mk_mutex { locked : Z; owner : option Z; nodes : heap }.
Implicit Types (m : mutex) (t w : Z).

Definition with_locked (v : Z) m : mutex := mk_mutex v (owner m) (nodes m).
Definition with_owner (o : option Z) m : mutex := mk_mutex (locked m) o (nodes m).
Definition with_nodes (h : heap) m : mutex := mk_mutex (locked m) (owner m) h.

(** [given]: the pointer is not null. *)
Definition mutex_init (given : bool) m : option (Z * mutex) :=
  if negb given then Some (- EINVAL, m) else h ← list_init waiters (nodes m); Some (0, mk_mutex 0 None h).

Definition mutex_destroy (given : bool) m : option Z :=
  if negb given then Some (- EINVAL)
  else if negb (locked m =? 0) then Some (- EBUSY)
  else e ← list_empty waiters (nodes m); Some (if negb e then - EBUSY else 0).

(** Where a thread is: outside of the code, without ([Idle]) or with the mutex ([Holding]),
    and what the last call returned; inside of [mutex_lock] ([held]: called by the thread that has
    it), [mutex_trylock] or [mutex_unlock], before the statement the name tells; or
    [Asleep] inside of [sched_block_thread]. *)
Inductive pc :=
| Idle (r : Z) | Holding (r : Z)
| LockSwap (held : bool) | LockOwn | LockTest (held : bool) | LockAdd (a : add_pc) | LockBlock | Asleep
| TrySwap (held : bool) | TryOwn
| UnlockTest (held : bool) | UnlockEmpty | UnlockFirst | UnlockDel (w : Z) (d : del_pc) | UnlockGive (w : Z) | UnlockWake (w : Z) | UnlockClear | UnlockFree.

Inductive request := Lock | TryLock | Unlock.

Definition out (held : bool) (r : Z) : pc := if held then Holding r else Idle r.

Definition start (q : request) (given held : bool) : pc :=
  if negb given then out held (- EINVAL) else match q with Lock => LockSwap held | TryLock => TrySwap held | Unlock => UnlockTest held end.

(** [__sync_bool_compare_and_swap(&mutex->locked, 0, 1)]. *)
Definition compare_and_swap m : bool * mutex := if locked m =? 0 then (true, with_locked 1 m) else (false, m).

Definition mutex_lock_step t (p : pc) m : option (pc * mutex) :=
  match p with
  | LockSwap held => let '(ok, m) := compare_and_swap m in Some (if (ok : bool) then LockOwn else LockTest held, m)
  | LockOwn => Some (Holding 0, with_owner (Some t) m)
  | LockTest held => Some (if bool_decide (owner m = Some t) then out held (- EDEADLK) else LockAdd AddLast, m)
  | LockAdd a => '(a, h) ← list_add_tail_step (wait_node t) waiters a (nodes m); Some (match a with Some a => LockAdd a | None => LockBlock end, with_nodes h m)
  | LockBlock => Some (Asleep, m)
  | _ => None
  end.

Definition mutex_trylock_step t (p : pc) m : option (pc * mutex) :=
  match p with
  | TrySwap held => let '(ok, m) := compare_and_swap m in Some (if (ok : bool) then TryOwn else out held (- EBUSY), m)
  | TryOwn => Some (Holding 0, with_owner (Some t) m)
  | _ => None
  end.

(** The step [UnlockWake], which concerns another thread, is below. *)
Definition mutex_unlock_step t (p : pc) m : option (pc * mutex) :=
  match p with
  | UnlockTest held => Some (if negb (bool_decide (owner m = Some t)) then out held (- EPERM) else UnlockEmpty, m)
  | UnlockEmpty => e ← list_empty waiters (nodes m); Some (if negb e then UnlockFirst else UnlockClear, m)
  | UnlockFirst => q ← next (nodes m) !! waiters; Some (UnlockDel (thread_of q) DelNext, m)
  | UnlockDel w d => '(d, h) ← list_del_step (wait_node w) d (nodes m); Some (match d with Some d => UnlockDel w d | None => UnlockGive w end, with_nodes h m)
  | UnlockGive w => Some (UnlockWake w, with_owner (Some w) m)
  | UnlockClear => Some (UnlockFree, with_owner None m)
  | UnlockFree => Some (Idle 0, with_locked 0 m)
  | _ => None
  end.

Record state := mk_state { mx : mutex; threads : gmap Z pc }.
Implicit Types (s : state) (T : gmap Z pc).

(** [sched_unblock_thread]: a thread that is not blocked is left alone; one that is returns
    0 from [mutex_lock]. *)
Definition unblock w T : gmap Z pc := match T !! w with Some Asleep => <[w := Holding 0]> T | _ => T end.

(** Thread [t] takes a step; [q] and [given] count when it is outside. A thread that sleeps
    or does not exist takes none. *)
Definition step t (q : request) (given : bool) s : option state :=
  match threads s !! t with
  | None | Some Asleep => Some s
  | Some (Idle _) => Some (mk_state (mx s) (<[t := start q given false]> (threads s)))
  | Some (Holding _) => Some (mk_state (mx s) (<[t := start q given true]> (threads s)))
  | Some (UnlockWake w) => Some (mk_state (mx s) (<[t := Idle 0]> (unblock w (threads s))))
  | Some p =>
      r ← match p with
          | LockSwap _ | LockOwn | LockTest _ | LockAdd _ | LockBlock => mutex_lock_step t p (mx s)
          | TrySwap _ | TryOwn => mutex_trylock_step t p (mx s)
          | _ => mutex_unlock_step t p (mx s)
          end;
      Some (mk_state r.2 (<[t := r.1]> (threads s)))
  end.

(** Who takes a step, in this order. *)
Fixpoint run (sched : list (Z * request * bool)) s : option state :=
  match sched with [] => Some s | (t, q, g) :: sched => s ← step t q g s; run sched s end.

(** ** Semaphores *)

Record sem := mk_sem { value : Z; snodes : heap }.
Implicit Types (x : sem).

Definition with_value (v : Z) x : sem := mk_sem v (snodes x).
Definition with_snodes (h : heap) x : sem := mk_sem (value x) h.

Definition sem_init (given : bool) (v : Z) x : option (Z * sem) :=
  if negb given then Some (- EINVAL, x) else h ← list_init waiters (snodes x); Some (0, mk_sem (s32 v) h).

Definition sem_destroy (given : bool) x : option Z :=
  if negb given then Some (- EINVAL) else e ← list_empty waiters (snodes x); Some (if negb e then - EBUSY else 0).

Inductive spc :=
| Out (r : Z) | WaitSub | WaitAdd (a : add_pc) | WaitBlock | WaitAsleep | TryTest | TrySub
| PostAdd | PostEmpty | PostFirst | PostDel (w : Z) (d : del_pc) | PostWake (w : Z).

Inductive srequest := SemWait | SemTryWait | SemPost.

Definition sem_start (q : srequest) (given : bool) : spc :=
  if negb given then Out (- EINVAL) else match q with SemWait => WaitSub | SemTryWait => TryTest | SemPost => PostAdd end.

(** [__sync_fetch_and_add(&sem->value, k)]. *)
Definition fetch_and_add (k : Z) x : Z * sem := (value x, with_value (s32 (value x + k)) x).

(** The last component of the result is the number of permits that the step takes: 1 when
    the call returns 0 without having slept. *)
Definition sem_wait_step t (p : spc) x : option (spc * sem * Z) :=
  match p with
  | WaitSub => let '(v, x) := fetch_and_add (-1) x in Some (if v <=? 0 then (WaitAdd AddLast, x, 0) else (Out 0, x, 1))
  | WaitAdd a => '(a, h) ← list_add_tail_step (wait_node t) waiters a (snodes x); Some (match a with Some a => WaitAdd a | None => WaitBlock end, with_snodes h x, 0)
  | WaitBlock => Some (WaitAsleep, x, 0)
  | _ => None
  end.

Definition sem_trywait_step (p : spc) x : option (spc * sem * Z) :=
  match p with
  | TryTest => Some (if 0 <? value x then TrySub else Out (- EAGAIN), x, 0)
  | TrySub => let '(v, x) := fetch_and_add (-1) x in Some (if 0 <? v then (Out 0, x, 1) else (Out (- EAGAIN), x, 0))
  | _ => None
  end.

Definition sem_post_step (p : spc) x : option (spc * sem) :=
  match p with
  | PostAdd => let '(v, x) := fetch_and_add 1 x in Some (if v <? 0 then PostEmpty else Out 0, x)
  | PostEmpty => e ← list_empty waiters (snodes x); Some (if negb e then PostFirst else Out 0, x)
  | PostFirst => q ← next (snodes x) !! waiters; Some (PostDel (thread_of q) DelNext, x)
  | PostDel w d => '(d, h) ← list_del_step (wait_node w) d (snodes x); Some (match d with Some d => PostDel w d | None => PostWake w end, with_snodes h x)
  | _ => None
  end.

(** [passed] counts the waits that returned 0, [posted] the posts. *)
Record sem_state := mk_sem_state { sx : sem; sthreads : gmap Z spc; passed : Z; posted : Z }.

(** [sched_unblock_thread], and whether it woke the thread. *)
Definition sem_unblock w (T : gmap Z spc) : gmap Z spc * Z := match T !! w with Some WaitAsleep => (<[w := Out 0]> T, 1) | _ => (T, 0) end.

Definition sem_step t (q : srequest) (given : bool) (s : sem_state) : option sem_state :=
  match sthreads s !! t with
  | None | Some WaitAsleep => Some s
  | Some (Out _) => Some (mk_sem_state (sx s) (<[t := sem_start q given]> (sthreads s)) (passed s) (posted s))
  | Some (PostWake w) => let '(T, k) := sem_unblock w (sthreads s) in Some (mk_sem_state (sx s) (<[t := Out 0]> T) (passed s + k) (posted s))
  | Some p =>
      match p with
      | WaitSub | WaitAdd _ | WaitBlock => '(p', x, k) ← sem_wait_step t p (sx s); Some (mk_sem_state x (<[t := p']> (sthreads s)) (passed s + k) (posted s))
      | TryTest | TrySub => '(p', x, k) ← sem_trywait_step p (sx s); Some (mk_sem_state x (<[t := p']> (sthreads s)) (passed s + k) (posted s))
      | _ => '(p', x) ← sem_post_step p (sx s); Some (mk_sem_state x (<[t := p']> (sthreads s)) (passed s) (posted s + match p with PostAdd => 1 | _ => 0 end))
      end
  end.

Fixpoint sem_run (sched : list (Z * srequest * bool)) (s : sem_state) : option sem_state :=
  match sched with [] => Some s | (t, q, g) :: sched => s ← sem_step t q g s; sem_run sched s end.

End Sync.

End ThreadSync.
