(* ===== verification/ThreadSyncSpec.v ===== *)
(** What mutexes and semaphores promise when threads interleave between single accesses to memory: exclusion, the order of
    waiting threads, and how many waits can pass; and where wake-ups are lost. *)

From S2P Require Import Prelude KList ThreadSync.

Module ThreadSyncSpec.
Import KList ThreadSync.

Section Mutex.
Context (waiters off : Z).
Implicit Types (m : mutex) (t u w : Z) (s : state) (T : gmap Z pc) (p : pc) (l : list Z) (o : option Z).
Notation step := (step waiters off).
Notation run := (run waiters off).

(** ** The invariant *)

(** The program points of the thread that has the mutex, from the exchange that sets
    [locked] until it is given away or released. *)
Definition token p : bool :=
  match p with
  | Holding _ | LockSwap true | LockOwn | LockTest true | TrySwap true | TryOwn | UnlockTest true | UnlockEmpty | UnlockFirst | UnlockDel _ _ | UnlockGive _
  | UnlockWake _ | UnlockClear | UnlockFree => true
  | _ => false
  end.

(** Those at which [owner] is that thread. *)
Definition owns p : bool := match p with LockOwn | TryOwn | UnlockWake _ | UnlockFree => false | _ => token p end.

(** Those of a thread that is in the list or was given the mutex. *)
Definition waits p : bool := match p with LockBlock | Asleep => true | _ => false end.
Definition waiting T w : Prop := exists p, T !! w = Some p /\ waits p = true.

(** What the thread at [p] knows of the owner and the waiting threads. *)
Definition local T o l t p : Prop :=
  (owns p = true -> o = Some t) /\
  match p with
  | LockOwn | TryOwn | UnlockFree => o = None
  | UnlockFirst => l <> []
  | UnlockDel w _ => exists l', l = w :: l'
  | UnlockGive w => w ∉ l /\ waiting T w
  | UnlockWake w => o = Some w /\ w ∉ l /\ waiting T w
  | _ => True
  end.

Definition nodes_of l : list Z := map (wait_node off) l.

Record inv h s l : Prop := {
  iv_list : is_list h waiters (nodes_of l);
  iv_node : forall t p, threads s !! t = Some p -> node h (wait_node off t) /\ wait_node off t <> waiters;
  iv_lock : locked (mx s) = 0 /\ owner (mx s) = None \/ locked (mx s) = 1;
  iv_token : forall t p, threads s !! t = Some p -> token p = true -> locked (mx s) = 1;
  iv_one : forall t u p p', threads s !! t = Some p -> threads s !! u = Some p' -> token p = true -> token p' = true -> t = u;
  iv_local : forall t p, threads s !! t = Some p -> token p = true -> local (threads s) (owner (mx s)) l t p;
  iv_owner : forall t, owner (mx s) = Some t -> exists p, threads s !! t = Some p /\ (owns p = true \/ waits p = true);
  iv_wait : forall t, t ∈ l -> waiting (threads s) t
}.

Lemma waiting_insert T t p p' w : T !! t = Some p -> (waits p = true -> waits p' = true) -> waiting T w -> waiting (<[t := p']> T) w.
Proof.
  intros Ht Hw (q & Hq & Hwq). destruct (decide (t = w)) as [<-|Hne]; [exists p'; rewrite lookup_insert_eq; split; [done|]; apply Hw; congruence|].
  exists q. by rewrite lookup_insert_ne.
Qed.

Lemma owns_token p : owns p = true -> token p = true.
Proof. by destruct p; cbn. Qed.

Lemma token_waits p : token p = true -> waits p = false.
Proof. by destruct p; cbn. Qed.

(** A step of the thread that has the mutex. *)
Lemma inv_token_step h s l t p p' h' m' l' : inv h s l -> threads s !! t = Some p -> token p = true ->
  is_list h' waiters (nodes_of l') -> (forall y, node h y -> node h' y) -> (locked m' = 0 /\ owner m' = None \/ locked m' = 1) ->
  (token p' = true -> locked m' = 1) -> (token p' = true -> local (<[t := p']> (threads s)) (owner m') l' t p') ->
  (forall u, owner m' = Some u -> u = t /\ owns p' = true \/ u <> t /\ waiting (threads s) u) -> (forall u, u ∈ l' -> u ∈ l) -> inv h' (mk_state m' (<[t := p']> (threads s))) l'.
Proof.
  intros [HL HN HK HT H1 HLo HO HW] Ht Hp HL' HN' HK' HT' HLo' HO' Hl. split; cbn; try done.
  - intros u q [[<- <-]|[Hne Hq]]%lookup_insert_Some; [|destruct (HN u q Hq); split; auto]. destruct (HN t p Ht). auto.
  - intros u q [[<- <-]|[Hne Hq]]%lookup_insert_Some Hk; [by apply HT'|]. destruct Hne. by eapply H1.
  - intros u v q q' [[<- <-]|[Hne Hq]]%lookup_insert_Some [[<- <-]|[Hne' Hq']]%lookup_insert_Some Hk Hk'; [done| | |]; [destruct Hne'|destruct Hne|]; by eapply H1.
  - intros u q [[<- <-]|[Hne Hq]]%lookup_insert_Some Hk; [by apply HLo'|]. destruct Hne. by eapply H1.
  - intros u Hu. destruct (HO' u Hu) as [[-> Hk]|[Hne (q & Hq & Hk)]]; [exists p'; rewrite lookup_insert_eq; auto|exists q; rewrite lookup_insert_ne by done; auto].
  - intros u Hu. apply (waiting_insert _ t p); [done| |auto]. by rewrite (token_waits p Hp).
Qed.

(** A step of another thread, which may put itself at the end of the list. *)
Lemma inv_other_step h s l t p p' h' g l' : inv h s l -> threads s !! t = Some p -> token p = false -> token p' = false -> (waits p = true -> waits p' = true) ->
  is_list h' waiters (nodes_of l') -> (l' = l \/ l' = l ++ [t] /\ waits p' = true /\ waits p = false) -> (forall y, node h y -> node h' y) ->
  inv h' (mk_state (with_nodes g (mx s)) (<[t := p']> (threads s))) l'.
Proof.
  intros [HL HN HK HT H1 HLo HO HW] Ht Hp Hp' Hw HLl Hl' HN'.
  assert (forall u q, <[t := p']> (threads s) !! u = Some q -> token q = true -> threads s !! u = Some q /\ u <> t) as Hin.
  { intros u q [[<- <-]|[Hne Hq]]%lookup_insert_Some Hk; [congruence|done]. }
  assert (forall w, waiting (threads s) w -> waiting (<[t := p']> (threads s)) w) as Hwt by (intros w; by eapply waiting_insert).
  split; cbn; try done.
  - intros u q [[<- <-]|[Hne Hq]]%lookup_insert_Some; [destruct (HN t p Ht)|destruct (HN u q Hq)]; auto.
  - intros u q Hq Hk. destruct (Hin u q Hq Hk). by eapply HT.
  - intros u v q q' Hq Hq' Hk Hk'. destruct (Hin u q Hq Hk), (Hin v q' Hq' Hk'). by eapply H1.
  - intros u q Hq Hk. destruct (Hin u q Hq Hk) as [Hq0 Hne]. destruct (HLo u q Hq0 Hk) as [Ho Hm]. split; [done|].
    assert (forall w, w ∉ l -> waiting (threads s) w -> w ∉ l') as Hnl.
    { intros w Hw1 (q0 & Hq1 & Hk1). destruct Hl' as [-> | (-> & Hk2 & Hk3)]; [done|]. rewrite elem_of_app, list_elem_of_singleton. intros [Hi|Hi]; [done|]. congruence. }
    destruct q; try done; [by destruct Hl' as [-> | (-> & _)]; [|destruct l]|destruct Hm as [l0 ->]; destruct Hl' as [-> | (-> & _)]; by eexists|destruct Hm as [Hm1 Hm2]; auto|destruct Hm as (Hm0 & Hm1 & Hm2); auto].
  - intros u Hu. destruct (HO u Hu) as (q & Hq & Hk). destruct (decide (t = u)) as [<-|Hne]; [|exists q; by rewrite lookup_insert_ne].
    exists p'. rewrite lookup_insert_eq. split; [done|]. assert (q = p) as -> by congruence. destruct Hk as [Hk|Hk]; [apply owns_token in Hk; congruence|auto].
  - intros u Hu. destruct Hl' as [->|(-> & Hk & _)]; [auto|]. apply elem_of_app in Hu as [Hu|Hu]; [auto|]. apply list_elem_of_singleton in Hu as ->. exists p'. by rewrite lookup_insert_eq.
Qed.

(** Taking a free mutex. *)
Lemma inv_acquire h s l t p p' : inv h s l -> threads s !! t = Some p -> waits p = false -> locked (mx s) = 0 -> p' = LockOwn \/ p' = TryOwn ->
  inv h (mk_state (with_locked 1 (mx s)) (<[t := p']> (threads s))) l.
Proof.
  intros [HL HN HK HT H1 HLo HO HW] Ht Hp H0 Hp'. destruct HK as [[_ Hno]|HK]; [|lia].
  assert (forall u q, threads s !! u = Some q -> token q = true -> False) as Hnt by (intros u q Hq Hk; pose proof (HT u q Hq Hk); lia).
  split; cbn; try done.
  - intros u q [[<- <-]|[Hne Hq]]%lookup_insert_Some; [by apply (HN t p)|by apply (HN u q)].
  - by right.
  - intros u v q q' [[<- <-]|[Hne Hq]]%lookup_insert_Some [[<- <-]|[Hne' Hq']]%lookup_insert_Some Hk Hk'; [done| | |]; exfalso; eauto.
  - intros u q [[<- <-]|[Hne Hq]]%lookup_insert_Some Hk; [|exfalso; eauto]. destruct Hp' as [-> | ->]; by split.
  - intros u Hu. congruence.
  - intros u Hu. apply (waiting_insert _ t p); [done|congruence|auto].
Qed.

(** ** Steps *)

(** The place of the list in memory does not matter to the invariant. *)
Lemma inv_nodes h s l g : inv h s l -> inv h (mk_state (with_nodes g (mx s)) (threads s)) l.
Proof. by intros []. Qed.

(** A step that changes nothing but the place of the thread. *)
Lemma inv_move h s l t p p' : inv h s l -> threads s !! t = Some p -> token p = token p' -> waits p = false -> waits p' = false -> owns p = owns p' ->
  (token p' = true -> local (<[t := p']> (threads s)) (owner (mx s)) l t p') -> inv h (mk_state (mx s) (<[t := p']> (threads s))) l.
Proof.
  intros H Ht Htok Hw Hw' Hown Hlo. destruct (token p) eqn:Hp.
  - apply (inv_token_step h s l t p p' h (mx s) l H Ht Hp); try done; [apply H|apply H|intros; by eapply (iv_token _ _ _ H)|].
    intros u Hu. destruct (iv_owner _ _ _ H u Hu) as (q & Hq & Hk). destruct (decide (u = t)) as [->|Hne]; [left; split; [done|]; assert (q = p) as -> by congruence; rewrite <-Hown; destruct Hk; [done|congruence]|].
    right. split; [done|]. exists q. split; [done|]. destruct Hk as [Hk|]; [|done]. destruct Hne. apply owns_token in Hk. by eapply (iv_one _ _ _ H).
  - pose proof (inv_other_step h s l t p p' h (nodes (mx s)) l H Ht Hp) as Hi. destruct (mx s) as [k o g] eqn:E. cbn in *. apply Hi; [done|congruence|apply H|by left|done].
Qed.

Lemma local_plain T o l t p p' : local T o l t p -> owns p = true -> owns p' = true -> match p' with UnlockFirst | UnlockDel _ _ | UnlockGive _ => False | _ => True end -> local (<[t := p']> T) o l t p'.
Proof. intros [Ho _] Hp Hp' Hk. split; [auto|]. by destruct p'. Qed.

Lemma held_owner h s l t p : inv h s l -> threads s !! t = Some p -> owns p = true -> owner (mx s) = Some t.
Proof. intros H Ht Hp. by apply (iv_local _ _ _ H t p Ht (owns_token p Hp)). Qed.

(** A thread outside or at the start of a call owns the mutex only if it has it. *)
Lemma not_owner h s l t p : inv h s l -> threads s !! t = Some p -> token p = false -> waits p = false -> owner (mx s) <> Some t.
Proof. intros H Ht Hp Hw Ho. destruct (iv_owner _ _ _ H t Ho) as (q & Hq & [Hk|Hk]); assert (q = p) as -> by congruence; [apply owns_token in Hk|]; congruence. Qed.

Lemma not_in_list h s l t p : inv h s l -> threads s !! t = Some p -> waits p = false -> t ∉ l.
Proof. intros H Ht Hw Hin. destruct (iv_wait _ _ _ H t Hin) as (q & Hq & Hk). congruence. Qed.

Lemma node_not_in h l t : is_list h waiters (nodes_of l) -> wait_node off t <> waiters -> t ∉ l -> wait_node off t ∉ waiters :: nodes_of l.
Proof.
  intros _ Hne Hin. rewrite elem_of_cons. intros [E|E]; [done|]. apply Hin. unfold nodes_of in E. apply list_elem_of_fmap in E as (u & Eu & Hu). unfold wait_node in Eu. by assert (t = u) as -> by lia.
Qed.

Lemma start_held q g : token (start q g true) = true /\ owns (start q g true) = true /\ waits (start q g true) = false /\
  match start q g true with UnlockFirst | UnlockDel _ _ | UnlockGive _ => False | _ => True end.
Proof. by destruct q, g. Qed.

Lemma start_idle q g : token (start q g false) = false /\ owns (start q g false) = false /\ waits (start q g false) = false.
Proof. by destruct q, g. Qed.

(** ** Operations on the list, access by access *)

Definition add_rank (a : add_pc) : nat := match a with AddLast => 6 | AddLink _ => 5 | AddLast2 => 4 | AddPrev _ => 3 | AddNext => 2 | AddHead => 1 end.
Definition del_rank (d : del_pc) : nat :=
  match d with DelNext => 8 | DelPrev _ => 7 | DelBack _ _ => 6 | DelPrev2 => 5 | DelNext2 _ => 4 | DelForth _ _ => 3 | DelClear => 2 | DelClear2 => 1 end.

(** What is left of an operation, without a step of another thread in between. *)
Fixpoint finish {A} (f : A -> heap -> option (option A * heap)) (n : nat) (a : A) (g : heap) : option heap :=
  match n with O => None | S n => '(a, g) ← f a g; match a with Some a => finish f n a g | None => Some g end end.

(** Follows the right side of an equation through its calls. *)
Ltac split_binds := repeat match goal with |- _ = mbind _ ?x => destruct x; [cbn|done] | |- _ = ?x => destruct x; cbn; done end.

Lemma finish_add new head g : finish (list_add_tail_step new head) 6 AddLast g = list_add_tail new head g.
Proof. unfold list_add_tail. cbn [finish list_add_tail_step]. by split_binds. Qed.

Lemma finish_del e g : finish (list_del_step e) 8 DelNext g = list_del e g.
Proof. unfold list_del. cbn [finish list_del_step]. by split_binds. Qed.

Ltac split_access E := try match type of E with mbind _ ?x = _ => destruct x; [cbn in E|discriminate E] end; injection E as <- <-; cbn in *; simplify_eq; try split.

(** One access of an operation that ends well. *)
Lemma add_access new head a g g' : finish (list_add_tail_step new head) (add_rank a) a g = Some g' -> exists a' g1, list_add_tail_step new head a g = Some (a', g1) /\
  match a' with Some a' => a' <> AddLast /\ finish (list_add_tail_step new head) (add_rank a') a' g1 = Some g' | None => g1 = g' end.
Proof.
  intros E. destruct (list_add_tail_step new head a g) as [[a' g1]|] eqn:E1; [|destruct a; cbn [add_rank finish] in E; by rewrite E1 in E]. exists a', g1. split; [done|].
  destruct a; cbn [add_rank finish] in E; rewrite E1, bind_Some_l in E; cbn in E1; by split_access E1.
Qed.

Lemma del_access e d g g' : finish (list_del_step e) (del_rank d) d g = Some g' -> exists d' g1, list_del_step e d g = Some (d', g1) /\
  match d' with Some d' => d' <> DelNext /\ finish (list_del_step e) (del_rank d') d' g1 = Some g' | None => g1 = g' end.
Proof.
  intros E. destruct (list_del_step e d g) as [[d' g1]|] eqn:E1; [|destruct d; cbn [del_rank finish] in E; by rewrite E1 in E]. exists d', g1. split; [done|].
  destruct d; cbn [del_rank finish] in E; rewrite E1, bind_Some_l in E; cbn in E1; by split_access E1.
Qed.

(** A thread in the middle of an operation on the list. *)
Definition mid p : bool := match p with LockAdd AddLast | UnlockDel _ DelNext => false | LockAdd _ | UnlockDel _ _ => true | _ => false end.

(** A thread that is about to touch the list. *)
Definition touches p : bool := match p with LockAdd _ | UnlockEmpty | UnlockFirst | UnlockDel _ _ => true | _ => false end.

(** Nobody but [t] is in the middle of an operation. *)
Definition alone T t : Prop := forall u q, T !! u = Some q -> mid q = true -> u = t.

(** What is left of the operation of the thread at [p], and all of it. *)
Definition rest t p (g : heap) : option heap :=
  match p with
  | LockAdd a => finish (list_add_tail_step (wait_node off t) waiters) (add_rank a) a g
  | UnlockDel w d => finish (list_del_step (wait_node off w)) (del_rank d) d g
  | _ => Some g
  end.
Definition whole t p (h : heap) : option heap :=
  match p with LockAdd _ => list_add_tail (wait_node off t) waiters h | UnlockDel w _ => list_del (wait_node off w) h | _ => Some h end.

(** [h] is the memory of the list without the operation that has begun: the rest of it leads to what all of it makes of [h]. *)
Record heaps h s : Prop := {
  hp_quiet : (forall t p, threads s !! t = Some p -> mid p = false) -> nodes (mx s) = h;
  hp_mid : forall t p, threads s !! t = Some p -> mid p = true -> alone (threads s) t /\ rest t p (nodes (mx s)) = whole t p h
}.

(** Before an operation the rest of it is all of it. *)
Lemma rest_whole h s t p : heaps h s -> threads s !! t = Some p -> alone (threads s) t -> rest t p (nodes (mx s)) = whole t p h.
Proof.
  intros [HQ HM] Ht Ha. destruct (mid p) eqn:Hp; [by apply HM|]. rewrite HQ; [destruct p as [| | | | |[]| | | | | | | |w []| | | |]; try done; [apply finish_add|apply finish_del]|].
  intros u q Hq. destruct (mid q) eqn:Hk; [|done]. assert (u = t) as -> by (by eapply Ha). congruence.
Qed.

Lemma heaps_same h s m' t p p' : heaps h s -> threads s !! t = Some p -> mid p = false -> mid p' = false -> nodes m' = nodes (mx s) -> heaps h (mk_state m' (<[t := p']> (threads s))).
Proof.
  intros [HQ HM] Ht Hp Hp' Hm. split; cbn.
  - intros Hn. rewrite Hm. apply HQ. intros u q Hq. destruct (decide (u = t)) as [->|Hne]; [congruence|]. apply (Hn u). by rewrite lookup_insert_ne.
  - intros u q [[<- <-]|[Hne Hq]]%lookup_insert_Some Hk; [congruence|]. destruct (HM u q Hq Hk) as [Ha E]. rewrite Hm. split; [|done].
    intros v q' [[<- <-]|[Hne' Hq']]%lookup_insert_Some Hk'; [congruence|by eapply Ha].
Qed.

(** [t] goes on with its operation, or ends it. *)
Lemma heaps_access h s m' t p p' : alone (threads s) t -> threads s !! t = Some p -> (if mid p' then rest t p' (nodes m') = whole t p' h else nodes m' = h) ->
  heaps h (mk_state m' (<[t := p']> (threads s))).
Proof.
  intros Ha Ht Hp'. assert (alone (<[t := p']> (threads s)) t) as Ha' by (intros u q [[<- <-]|[Hne Hq]]%lookup_insert_Some Hk; [done|by eapply Ha]). split; cbn.
  - intros Hn. rewrite (Hn t p') in Hp' by apply lookup_insert_eq. done.
  - intros u q Hq Hk. assert (u = t) as -> by (by eapply Ha'). rewrite lookup_insert_eq in Hq. injection Hq as <-. by rewrite Hk in Hp'.
Qed.

(** What one step of [t] leads to. *)
Definition ok t s (r : option (pc * mutex)) : Prop :=
  exists h' p' m' l', r = Some (p', m') /\ inv h' (mk_state m' (<[t := p']> (threads s))) l' /\ heaps h' (mk_state m' (<[t := p']> (threads s))).

(** A step that does not touch the list. *)
Lemma ok_same h s l t p p' m' : heaps h s -> threads s !! t = Some p -> mid p = false -> mid p' = false -> nodes m' = nodes (mx s) ->
  inv h (mk_state m' (<[t := p']> (threads s))) l -> ok t s (Some (p', m')).
Proof. intros Hh Ht Hp Hp' Hm H. exists h, p', m', l. split; [done|]. split; [done|]. by eapply heaps_same. Qed.

(** Locking. *)
Lemma lock_add_ok h s l t a : inv h s l -> heaps h s -> threads s !! t = Some (LockAdd a) -> alone (threads s) t -> ok t s (mutex_lock_step waiters off t (LockAdd a) (mx s)).
Proof.
  intros H Hh Ht Ha. destruct (iv_node _ _ _ H t _ Ht) as [Hn Hne]. destruct (list_add_tail_ok h waiters (nodes_of l) [] (wait_node off t)) as (h' & E & HL & _ & Hk); [rewrite app_nil_r; apply H| |done|].
  { rewrite app_nil_r. eapply node_not_in; [apply H|done|by eapply not_in_list]. }
  cbn [List.hd] in E. pose proof (rest_whole h s t _ Hh Ht Ha) as Er. cbn [rest whole] in Er. rewrite E in Er. destruct (add_access _ _ _ _ _ Er) as (a' & g & E1 & Ea). cbn [mutex_lock_step]. rewrite E1, bind_Some_l.
  destruct a' as [a'|]; [exists h, (LockAdd a'), (with_nodes g (mx s)), l|subst g; exists h', LockBlock, (with_nodes h' (mx s)), (l ++ [t])]; (split; [done|]; split; [|eapply heaps_access; [done|exact Ht|]]).
  - apply (inv_nodes h (mk_state (mx s) _)). by apply (inv_move h s l t _ _ H Ht).
  - destruct Ea as [Hl Ea]. assert (mid (LockAdd a') = true) as -> by (by destruct a'). cbn. by rewrite E.
  - apply (inv_other_step h s l t _ _ h' h' (l ++ [t]) H Ht); try done; [|by right]. unfold nodes_of. by rewrite map_app.
  - done.
Qed.

Lemma lock_step_ok h s l t p : inv h s l -> heaps h s -> threads s !! t = Some p -> (touches p = true -> alone (threads s) t) ->
  match p with LockSwap _ | LockOwn | LockTest _ | LockAdd _ | LockBlock => True | _ => False end -> ok t s (mutex_lock_step waiters off t p (mx s)).
Proof.
  intros H Hh Ht Ha Hp. destruct p as [| |held| |held|a| | | | | | | | | | | |]; try done; [| | |eapply lock_add_ok; by try apply Ha|]; cbn [mutex_lock_step].
  - unfold compare_and_swap. destruct (Z.eqb_spec (locked (mx s)) 0) as [E|E]; apply (ok_same h s l t _ _ _ Hh Ht); try done.
    + apply (inv_acquire h s l t _ _ H Ht); auto.
    + apply (inv_move h s l t _ _ H Ht); try by destruct held. intros Hk. destruct held; [|done]. eapply local_plain; [by eapply (iv_local _ _ _ H)|done..].
  - apply (ok_same h s l t _ _ _ Hh Ht); try done.
    apply (inv_token_step h s l t _ _ h (with_owner (Some t) (mx s)) l H Ht); try done; [apply H|right; by eapply (iv_token _ _ _ H)|intros; by eapply (iv_token _ _ _ H)|]. intros u [= <-]. by left.
  - case_bool_decide as Ho; apply (ok_same h s l t _ _ _ Hh Ht); try done; try (by destruct held); apply (inv_move h s l t _ _ H Ht); try by destruct held.
    + destruct held; [|done]. by destruct Ho; eapply held_owner.
    + destruct held; [|done]. by destruct Ho; eapply held_owner.
  - apply (ok_same h s l t _ _ _ Hh Ht); try done. pose proof (inv_other_step h s l t _ Asleep h (nodes (mx s)) l H Ht eq_refl eq_refl (fun _ => eq_refl) (iv_list _ _ _ H) (or_introl eq_refl) (fun y Hy => Hy)) as Hi. by destruct (mx s).
Qed.

Lemma trylock_step_ok h s l t p : inv h s l -> heaps h s -> threads s !! t = Some p -> match p with TrySwap _ | TryOwn => True | _ => False end -> ok t s (mutex_trylock_step t p (mx s)).
Proof.
  intros H Hh Ht Hp. destruct p as [| | | | | | | |held| | | | | | | | |]; try done; cbn [mutex_trylock_step].
  - unfold compare_and_swap. destruct (Z.eqb_spec (locked (mx s)) 0) as [E|E]; apply (ok_same h s l t _ _ _ Hh Ht); try done; try (by destruct held).
    + apply (inv_acquire h s l t _ _ H Ht); auto.
    + apply (inv_move h s l t _ _ H Ht); try by destruct held. intros Hk. destruct held; [|done]. eapply local_plain; [by eapply (iv_local _ _ _ H)|done..].
  - apply (ok_same h s l t _ _ _ Hh Ht); try done.
    apply (inv_token_step h s l t _ _ h (with_owner (Some t) (mx s)) l H Ht); try done; [apply H|right; by eapply (iv_token _ _ _ H)|intros; by eapply (iv_token _ _ _ H)|]. intros u [= <-]. by left.
Qed.

(** Unlocking: the first waiting thread leaves the list. *)
Lemma unlock_del_ok h s l t w d : inv h s l -> heaps h s -> threads s !! t = Some (UnlockDel w d) -> alone (threads s) t -> ok t s (mutex_unlock_step waiters off t (UnlockDel w d) (mx s)).
Proof.
  intros H Hh Ht Ha. destruct (iv_local _ _ _ H t _ Ht eq_refl) as [Ho [l' ->]]. pose proof (iv_list _ _ _ H) as HL. destruct (list_del_ok h waiters [] (wait_node off w) (nodes_of l') HL) as (h' & E & HL' & _ & _ & _ & HN).
  assert (w ∉ l') as Hnd. { destruct HL as [Hnd _]. cbn in Hnd. apply NoDup_cons in Hnd as [_ Hnd]. apply NoDup_cons in Hnd as [Hnd _]. intros Hin. apply Hnd. unfold nodes_of. by apply list_elem_of_fmap_2. }
  assert (waiting (threads s) w) as Hw by (apply (iv_wait _ _ _ H); left). pose proof (iv_token _ _ _ H t _ Ht eq_refl) as Hk.
  pose proof (rest_whole h s t _ Hh Ht Ha) as Er. cbn [rest whole] in Er. rewrite E in Er. destruct (del_access _ _ _ _ Er) as (d' & g & E1 & Ed). cbn [mutex_unlock_step]. rewrite E1, bind_Some_l.
  destruct d' as [d'|]; [exists h, (UnlockDel w d'), (with_nodes g (mx s)), (w :: l')|subst g; exists h', (UnlockGive w), (with_nodes h' (mx s)), l']; (split; [done|]; split; [|eapply heaps_access; [done|exact Ht|]]).
  - apply (inv_nodes h (mk_state (mx s) _)). apply (inv_move h s (w :: l') t _ _ H Ht); try done. intros _. split; [auto|by exists l'].
  - destruct Ed as [Hl Ed]. assert (mid (UnlockDel w d') = true) as -> by (by destruct d'). cbn. by rewrite E.
  - apply (inv_token_step h s (w :: l') t _ _ h' (with_nodes h' (mx s)) l' H Ht); try done; [by right| | |intros u Hu; by right].
    + intros _. split; [auto|]. split; [done|]. by eapply waiting_insert.
    + intros u Hu. left. cbn in Hu. rewrite (Ho eq_refl) in Hu. by injection Hu as <-.
  - done.
Qed.

(** Up to the wake-up. *)
Lemma unlock_step_ok h s l t p : inv h s l -> heaps h s -> threads s !! t = Some p -> (touches p = true -> alone (threads s) t) ->
  match p with UnlockTest _ | UnlockEmpty | UnlockFirst | UnlockDel _ _ | UnlockGive _ | UnlockClear | UnlockFree => True | _ => False end -> ok t s (mutex_unlock_step waiters off t p (mx s)).
Proof.
  intros H Hh Ht Ha Hp. assert (token p = true -> local (threads s) (owner (mx s)) l t p /\ locked (mx s) = 1) as Hlo by (intros Hk; split; [by apply (iv_local _ _ _ H)|by eapply (iv_token _ _ _ H)]).
  assert (mid p = false -> touches p = true -> nodes (mx s) = h) as Hq.
  { intros Hm Htp. apply (hp_quiet _ _ Hh). intros u q Hq. destruct (mid q) eqn:Hk; [|done]. assert (u = t) as -> by (by eapply Ha). congruence. }
  destruct p as [| | | | | | | | | |held| | |w d|w|w| |]; try done; [| | |eapply unlock_del_ok; by try apply Ha| | |]; cbn [mutex_unlock_step].
  - case_bool_decide as Ho; cbn [negb]; apply (ok_same h s l t _ _ _ Hh Ht); try done; try (by destruct held); apply (inv_move h s l t _ _ H Ht); try by destruct held.
    + destruct held; [done|]. by destruct (not_owner h s l t _ H Ht).
    + destruct held; [done|]. by destruct (not_owner h s l t _ H Ht).
    + intros Hk. destruct held; [|done]. by destruct Ho; eapply held_owner.
  - rewrite (Hq eq_refl eq_refl), (list_empty_ok _ _ _ (iv_list _ _ _ H)), bind_Some_l. case_bool_decide as He; cbn [negb]; apply (ok_same h s l t _ _ _ Hh Ht); try done; apply (inv_move h s l t _ _ H Ht); try done; intros _.
    + eapply local_plain; [by apply Hlo|done..].
    + split; [intros _; by eapply held_owner|]. by intros ->.
  - destruct (Hlo eq_refl) as ([Ho Hl] & _). destruct l as [|w l]; [done|]. rewrite (Hq eq_refl eq_refl), (first_ok _ _ _ (iv_list _ _ _ H)), bind_Some_l. cbn [List.hd nodes_of map].
    apply (ok_same h s (w :: l) t _ _ _ Hh Ht); try done. apply (inv_move h s (w :: l) t _ _ H Ht); try done. intros _. split; [intros _; auto|]. exists l. unfold thread_of, wait_node. f_equal. lia.
  - destruct (Hlo eq_refl) as ([Ho [Hn Hw]] & Hk). apply (ok_same h s l t _ _ _ Hh Ht); try done. apply (inv_token_step h s l t _ _ h (with_owner (Some w) (mx s)) l H Ht); try done; [apply H|by right| |].
    + intros _. split; [done|]. split; [done|]. split; [done|]. by eapply waiting_insert.
    + intros u [= <-]. right. split; [|done]. intros ->. destruct Hw as (q & Hq' & Hk'). rewrite Ht in Hq'. injection Hq' as <-. discriminate Hk'.
  - destruct (Hlo eq_refl) as (_ & Hk). apply (ok_same h s l t _ _ _ Hh Ht); try done. apply (inv_token_step h s l t _ _ h (with_owner None (mx s)) l H Ht); try done; [apply H|by right].
  - destruct (Hlo eq_refl) as ([_ Ho] & Hk). apply (ok_same h s l t _ _ _ Hh Ht); try done. apply (inv_token_step h s l t _ _ h (with_locked 0 (mx s)) l H Ht); try done; [apply H|left; by split|]. intros u Hu. cbn in Hu. congruence.
Qed.

(** The wake-up: the mutex goes to the thread, if it sleeps already. *)
Lemma wake_step_ok h s l t w : inv h s l -> threads s !! t = Some (UnlockWake w) -> inv h (mk_state (mx s) (<[t := Idle 0]> (unblock w (threads s)))) l.
Proof.
  intros H Ht. destruct (iv_local _ _ _ H t _ Ht eq_refl) as [_ (Ho & Hn & (q & Hq & Hk))]. pose proof (iv_token _ _ _ H t _ Ht eq_refl) as Hl.
  assert (w <> t) as Hne by (intros ->; rewrite Ht in Hq; injection Hq as <-; discriminate Hk).
  assert (inv h (mk_state (mx s) (<[t := Idle 0]> (threads s))) l) as H1.
  { apply (inv_token_step h s l t _ _ h (mx s) l H Ht); try done; [apply H|by right|]. intros u Hu. right. rewrite Ho in Hu. injection Hu as <-. split; [done|]. by exists q. }
  unfold unblock. rewrite Hq. destruct q; try done. rewrite insert_insert_ne by done. destruct H1 as [HL HN HK HT H1 HLo HO HW]. cbn in *.
  assert (forall u p, <[w := Holding 0]> (<[t := Idle 0]> (threads s)) !! u = Some p -> token p = true -> u = w /\ p = Holding 0) as Hu.
  { intros u p [[<- <-]|[Hu1 [[<- <-]|[Hu2 Hp]]%lookup_insert_Some]]%lookup_insert_Some Hkp; [done|done|]. destruct Hu2. by eapply (iv_one _ _ _ H). }
  split; cbn; try done.
  - intros u p [[<- <-]|[Hu1 Hp]]%lookup_insert_Some; [eapply (HN w Asleep); rewrite lookup_insert_ne by done; exact Hq|by eapply HN].
  - intros u u' p p' Hp Hp' Hk1 Hk2. destruct (Hu u p Hp Hk1) as [-> _], (Hu u' p' Hp' Hk2) as [-> _]. done.
  - intros u p Hp Hk1. destruct (Hu u p Hp Hk1) as [-> ->]. split; [|done]. intros _. exact Ho.
  - intros u Hu'. rewrite Ho in Hu'. injection Hu' as <-. exists (Holding 0). rewrite lookup_insert_eq. auto.
  - intros u Hin. destruct (HW u Hin) as (p & Hp & Hk1). exists p. rewrite lookup_insert_ne; [done|]. intros <-. done.
Qed.

Lemma wake_heaps h s t w : heaps h s -> threads s !! t = Some (UnlockWake w) -> heaps h (mk_state (mx s) (<[t := Idle 0]> (unblock w (threads s)))).
Proof.
  intros Hh Ht. unfold unblock. destruct (threads s !! w) as [[]|] eqn:Hw; try by eapply heaps_same.
  assert (heaps h (mk_state (mx s) (<[w := Holding 0]> (threads s)))) as Hh1 by (by eapply heaps_same).
  pose proof (heaps_same h _ (mx s) t (UnlockWake w) (Idle 0) Hh1) as Hh2. cbn in Hh2. apply Hh2; try done. rewrite lookup_insert_ne; [done|congruence].
Qed.

(** A thread that touches the list does so while no other one is in the middle of an operation. *)
Definition fits s t : Prop := forall p, threads s !! t = Some p -> touches p = true -> alone (threads s) t.

Lemma step_ok h s l t q g : inv h s l -> heaps h s -> fits s t -> exists h' s' l', step t q g s = Some s' /\ inv h' s' l' /\ heaps h' s'.
Proof.
  intros H Hh Hf. unfold ThreadSync.step. destruct (threads s !! t) as [p|] eqn:Ht; [|by exists h, s, l]. specialize (Hf p Ht).
  assert (forall r, ok t s r -> exists h' s' l', (r ← r; Some (mk_state r.2 (<[t := r.1]> (threads s)))) = Some s' /\ inv h' s' l' /\ heaps h' s') as Hr
    by (intros r (h' & p' & m' & l' & -> & H' & Hh'); rewrite bind_Some_l; by do 3 eexists).
  destruct p eqn:Ep; try (apply Hr; by eapply lock_step_ok); try (apply Hr; by eapply trylock_step_ok); try (apply Hr; by eapply unlock_step_ok).
  - destruct (start_idle q g) as (E1 & E2 & E3). do 3 eexists. split; [done|]. split; [apply (inv_move h s l t _ _ H Ht); try done; by rewrite E1|]. eapply heaps_same; try done. by destruct q, g.
  - destruct (start_held q g) as (E1 & E2 & E3 & E4). do 3 eexists. split; [done|]. split; [apply (inv_move h s l t _ _ H Ht); try done; intros _; eapply local_plain; [by eapply (iv_local _ _ _ H)|done..]|].
    eapply heaps_same; try done. by destruct q, g.
  - by exists h, s, l.
  - do 3 eexists. split; [done|]. split; [by apply wake_step_ok|by apply wake_heaps].
Qed.

(** The operations on the list, which no lock protects, do not overlap. *)
Fixpoint serial (sched : list (Z * request * bool)) s : Prop :=
  match sched with [] => True | (t, q, g) :: sched => fits s t /\ match step t q g s with Some s => serial sched s | None => True end end.

Definition fits_b s t : bool :=
  match threads s !! t with Some p => negb (touches p) || forallb (fun '(u, q) => negb (mid q) || (u =? t)) (map_to_list (threads s)) | None => true end.
Fixpoint serial_b (sched : list (Z * request * bool)) s : bool :=
  match sched with [] => true | (t, q, g) :: sched => fits_b s t && match step t q g s with Some s => serial_b sched s | None => true end end.

Lemma serial_check sched s : serial_b sched s = true -> serial sched s.
Proof.
  revert s. induction sched as [|[[t q] g] sched IH]; intros s Hs; [done|]. cbn in *. apply andb_true_iff in Hs as [Hf Hs]. split; [|destruct (step t q g s); by try apply IH].
  intros p Ht Htp u q' Hq Hk. unfold fits_b in Hf. rewrite Ht, Htp in Hf. cbn in Hf. rewrite forallb_forall in Hf. apply elem_of_map_to_list, list_elem_of_In, Hf in Hq. rewrite Hk in Hq. cbn in Hq. lia.
Qed.

Lemma mutex_run_ok sched h s l : inv h s l -> heaps h s -> serial sched s -> exists h' s' l', run sched s = Some s' /\ inv h' s' l' /\ heaps h' s'.
Proof.
  revert h s l. induction sched as [|[[t q] g] sched IH]; intros h s l H Hh Hs; [by exists h, s, l|]. destruct Hs as [Hf Hs]. destruct (step_ok h s l t q g H Hh Hf) as (h1 & s1 & l1 & E1 & H1 & Hh1).
  cbn [ThreadSync.run]. rewrite E1, bind_Some_l. rewrite E1 in Hs. by eapply IH.
Qed.

(** ** Exclusion *)

(** A mutex that was just set up, and threads that have not used it. *)
Definition initial s : Prop := exists m, mutex_init waiters true m = Some (0, mx s) /\ node (nodes m) waiters /\
  forall t p, threads s !! t = Some p -> p = Idle 0 /\ node (nodes m) (wait_node off t) /\ wait_node off t <> waiters.

Lemma inv_initial s : initial s -> inv (nodes (mx s)) s [] /\ heaps (nodes (mx s)) s.
Proof.
  intros (m & E & Hw & HT). unfold mutex_init in E. cbn [negb] in E. destruct (list_init_ok waiters (nodes m) Hw) as (h & Eh & HL & _ & HN). rewrite Eh, bind_Some_l in E. injection E as E.
  assert (forall t p, threads s !! t = Some p -> token p = false /\ mid p = false) as Hk by (intros t p Hp; by destruct (HT t p Hp) as [-> _]). destruct s as [m' T]. cbn in *. subst m'. cbn.
  split; split; cbn; try done; [intros t p Hp; destruct (HT t p Hp) as (_ & Hn & Hne); auto|by left|intros t p Hp Hp'|intros t u p p' Hp _ Hp'|intros t p Hp Hp'|intros t Ht; by apply not_elem_of_nil in Ht|intros t p Hp Hp'];
    destruct (Hk t p Hp); congruence.
Qed.

(** C20: threads that lock, try to lock and unlock a mutex, under every interleaving of
    their single accesses to memory in which the operations on the list of waiting threads do not overlap ([serial]: the code takes
    no lock around them): no step faults, at most one thread has the mutex, and while one has it the
    mutex is locked and that thread its owner. *)
Theorem mutex_exclusion sched s : initial s -> serial sched s -> exists s', run sched s = Some s' /\
  (forall t u r r', threads s' !! t = Some (Holding r) -> threads s' !! u = Some (Holding r') -> t = u) /\
  (forall t r, threads s' !! t = Some (Holding r) -> locked (mx s') = 1 /\ owner (mx s') = Some t).
Proof.
  intros H Hs. destruct (inv_initial s H) as [Hi Hh]. destruct (mutex_run_ok sched _ s [] Hi Hh Hs) as (h' & s' & l & E & H' & _). exists s'. split; [done|]. split; [intros t u r r' Ht Hu; by eapply (iv_one _ _ _ H')|].
  intros t r Ht. split; [by eapply (iv_token _ _ _ H')|by eapply held_owner].
Qed.

(** ** Handing over *)

Lemma mutex_step_at s t q g p p' m' : threads s !! t = Some p ->
  match p with
  | LockSwap _ | LockOwn | LockTest _ | LockAdd _ | LockBlock => mutex_lock_step waiters off t p (mx s)
  | TrySwap _ | TryOwn => mutex_trylock_step t p (mx s)
  | Idle _ | Holding _ | Asleep | UnlockWake _ => None
  | _ => mutex_unlock_step waiters off t p (mx s)
  end = Some (p', m') -> step t q g s = Some (mk_state m' (<[t := p']> (threads s))).
Proof. intros Ht E. unfold ThreadSync.step. rewrite Ht. destruct p; try done; by rewrite E, bind_Some_l. Qed.

Lemma run_step t q g sched s s1 : step t q g s = Some s1 -> run ((t, q, g) :: sched) s = run sched s1.
Proof. intros E. cbn [ThreadSync.run]. by rewrite E, bind_Some_l. Qed.

Lemma del_rank_step e d g d' g' : list_del_step e d g = Some (d', g') -> del_rank d = S (match d' with Some d' => del_rank d' | None => O end).
Proof. intros E. destruct d; cbn in E; by split_access E. Qed.

(** A thread that takes the node of [w] out of the list without a step of another one. *)
Lemma run_del n d t w s h' sched : threads s !! t = Some (UnlockDel w d) -> del_rank d = n -> finish (list_del_step (wait_node off w)) n d (nodes (mx s)) = Some h' ->
  run (replicate n (t, Unlock, true) ++ sched) s = run sched (mk_state (with_nodes h' (mx s)) (<[t := UnlockGive w]> (threads s))).
Proof.
  revert d s. induction n as [|n IH]; intros d s Ht Hn E; [done|]. cbn [finish] in E. destruct (list_del_step (wait_node off w) d (nodes (mx s))) as [[d' g]|] eqn:E1; [|done]. rewrite bind_Some_l in E.
  apply del_rank_step in E1 as Hr. cbn [replicate app]. erewrite run_step; [|eapply mutex_step_at; [exact Ht|]; cbn [mutex_unlock_step]; rewrite E1, bind_Some_l; reflexivity].
  destruct d' as [d'|]; [|injection E as <-; by assert (n = O) as -> by lia]. rewrite (IH d'); cbn; [by rewrite insert_insert_eq|apply lookup_insert_eq|lia|done].
Qed.

(** When the thread that has the mutex unlocks it while others sleep, and no other thread takes a step, the mutex goes
    to the one that waited longest, which returns 0 from [mutex_lock] as its owner; it is never free in between. *)
Theorem unlock_hands_over s l t r w : inv (nodes (mx s)) s (w :: l) -> threads s !! t = Some (Holding r) -> threads s !! w = Some Asleep ->
  exists s', run (replicate 14 (t, Unlock, true)) s = Some s' /\ threads s' !! w = Some (Holding 0) /\ threads s' !! t = Some (Idle 0) /\
    owner (mx s') = Some w /\ locked (mx s') = 1 /\ is_list (nodes (mx s')) waiters (nodes_of l) /\ forall u, u <> t -> u <> w -> threads s' !! u = threads s !! u.
Proof.
  intros H Ht Hw. pose proof (held_owner _ s _ t _ H Ht eq_refl) as Ho. pose proof (iv_token _ _ _ H t _ Ht eq_refl) as Hl. pose proof (iv_list _ _ _ H) as HL. assert (w <> t) as Hne by congruence.
  destruct (list_del_ok (nodes (mx s)) waiters [] (wait_node off w) (nodes_of l) HL) as (h & E & HL' & _ & _ & _). cbn [app] in *. rewrite <-finish_del in E. destruct s as [m T]. cbn in * |-.
  change (replicate 14 (t, Unlock, true)) with ((t, Unlock, true) :: (t, Unlock, true) :: (t, Unlock, true) :: (t, Unlock, true) :: replicate 8 (t, Unlock, true) ++ [(t, Unlock, true); (t, Unlock, true)]).
  erewrite run_step; [|unfold ThreadSync.step; cbn; rewrite Ht; reflexivity]. cbn [start negb].
  erewrite run_step; [|eapply mutex_step_at; cbn; [apply lookup_insert_eq|]; cbn [mutex_unlock_step]; rewrite bool_decide_true by done; reflexivity]. cbn [negb threads mx]. rewrite insert_insert_eq.
  erewrite run_step; [|eapply mutex_step_at; cbn; [apply lookup_insert_eq|]; cbn [mutex_unlock_step]; rewrite (list_empty_ok _ _ _ HL), bind_Some_l; reflexivity]. cbn [nodes_of map]. rewrite bool_decide_false by done. cbn [negb threads mx]. rewrite insert_insert_eq.
  erewrite run_step; [|eapply mutex_step_at; cbn; [apply lookup_insert_eq|]; cbn [mutex_unlock_step]; rewrite (first_ok _ _ _ HL), bind_Some_l; reflexivity]. cbn [threads mx List.hd nodes_of map]. rewrite insert_insert_eq.
  assert (thread_of off (wait_node off w) = w) as -> by (unfold thread_of, wait_node; lia). erewrite (run_del 8 DelNext t w); [|apply lookup_insert_eq|done|exact E]. cbn [threads mx]. rewrite insert_insert_eq.
  erewrite run_step; [|eapply mutex_step_at; cbn; [apply lookup_insert_eq|]; cbn [mutex_unlock_step]; reflexivity]. cbn [threads mx]. rewrite insert_insert_eq.
  erewrite run_step; [|unfold ThreadSync.step; cbn; rewrite lookup_insert_eq; reflexivity]. cbn [ThreadSync.run]. eexists. split; [done|]. cbn.
  assert (unblock w (<[t := UnlockWake w]> T) = <[w := Holding 0]> (<[t := UnlockWake w]> T)) as -> by (unfold unblock; by rewrite lookup_insert_ne, Hw by done).
  rewrite lookup_insert_ne, lookup_insert_eq, lookup_insert_eq by done. repeat (split; [done|]). intros u Hu1 Hu2. by rewrite !lookup_insert_ne by done.
Qed.

(** ** The lost wake-up *)

(** The mutex was given to [w], which sleeps, and nobody has it. *)
Definition dead w s : Prop := owner (mx s) = Some w /\ threads s !! w = Some Asleep /\ forall t p, threads s !! t = Some p -> token p = false.

Lemma dead_step h s l w t q g s' : inv h s l -> dead w s -> step t q g s = Some s' -> dead w s'.
Proof.
  intros H (Ho & Hw & Hk) E. pose proof (iv_lock _ _ _ H) as [[_ Hn]|Hl]; [congruence|]. unfold ThreadSync.step in E. destruct (threads s !! t) as [p|] eqn:Ht; [|by simplify_eq].
  assert (forall p' m', p <> Asleep -> token p' = false -> owner m' = owner (mx s) -> dead w (mk_state m' (<[t := p']> (threads s)))) as Hd.
  { intros p' m' Hp Hp' Ho'. assert (t <> w) as Hne by congruence. split; [cbn; congruence|]. split; [cbn; by rewrite lookup_insert_ne|]. cbn. intros u q' [[<- <-]|[_ Hq]]%lookup_insert_Some; [done|by eapply Hk]. }
  pose proof (Hk t p Ht) as Hp. destruct p as [r|r|[]| |[]|a| | |[]| |[]| | |x d|x|x| |]; try discriminate Hp; cbn in E; try (injection E as <-).
  - apply Hd; [done| |done]. apply start_idle.
  - unfold compare_and_swap in E. rewrite Hl in E. cbn in E. injection E as <-. by apply Hd.
  - apply Hd; [done| |done]. cbn. rewrite Ho. case_bool_decide; [done|done].
  - destruct (list_add_tail_step _ _ _ _) as [[[a'|] g1]|]; [| |discriminate E]; cbn in E; injection E as <-; by apply Hd.
  - by apply Hd.
  - by split.
  - unfold compare_and_swap in E. rewrite Hl in E. cbn in E. injection E as <-. by apply Hd.
  - apply Hd; [done| |done]. cbn. rewrite Ho. case_bool_decide as Hc; [|done]. injection Hc as ->. congruence.
Qed.

(** A mutex that was given to a thread before it fell asleep is lost: whatever the
    threads do (their operations on the list not overlapping), that thread is never woken and no thread ever gets the mutex again. *)
Theorem early_wakeup_lost h s l w sched : inv h s l -> heaps h s -> dead w s -> serial sched s ->
  exists s', run sched s = Some s' /\ threads s' !! w = Some Asleep /\ forall t r, threads s' !! t <> Some (Holding r).
Proof.
  revert h s l. induction sched as [|[[t q] g] sched IH]; intros h s l H Hh Hd Hs.
  - exists s. split; [done|]. destruct Hd as (_ & Hw & Hk). split; [done|]. intros t r Ht. by specialize (Hk t _ Ht).
  - destruct Hs as [Hf Hs]. destruct (step_ok h s l t q g H Hh Hf) as (h1 & s1 & l1 & E1 & H1 & Hh1). cbn [ThreadSync.run]. rewrite E1, bind_Some_l. rewrite E1 in Hs. eapply IH; [exact H1|exact Hh1| |exact Hs]. exact (dead_step h s l w t q g s1 H Hd E1).
Qed.

End Mutex.

(** ** Semaphores *)

Section Semaphore.
Context (waiters off : Z).
Implicit Types (s : sem_state) (T : gmap Z spc) (p : spc).

(** Posts that found a negative value and have not woken anybody yet. *)
Definition pending p : Z := match p with PostEmpty | PostFirst | PostDel _ _ | PostWake _ => 1 | _ => 0 end.

(** What the posts allow: waits that returned, the value while it is positive, and posts on
    their way to a waiting thread. *)
Definition used s : Z := passed s + Z.max (value (sx s)) 0 + total pending (sthreads s).

(** After [k] steps from the value [v]. *)
Record bounded (v k : Z) s : Prop := { bd_used : used s <= v + posted s; bd_low : - k <= value (sx s); bd_high : value (sx s) <= v + k }.

Lemma s32_id z : - 2 ^ 31 <= z < 2 ^ 31 -> s32 z = z.
Proof. intros H. unfold s32, swrap. rewrite Z.mod_small; lia. Qed.

Lemma pending_nonneg p : 0 <= pending p.
Proof. by destruct p. Qed.

Lemma bounded_move v k s t p p' x d e : bounded v k s -> sthreads s !! t = Some p -> value (sx s) - 1 <= value x <= value (sx s) + 1 ->
  d + Z.max (value x) 0 - Z.max (value (sx s)) 0 + pending p' - pending p <= e -> bounded v (k + 1) (mk_sem_state x (<[t := p']> (sthreads s)) (passed s + d) (posted s + e)).
Proof. intros [H1 H2 H3] Ht Hx Hd. split; unfold used in *; cbn; [rewrite (total_update pending _ t p p' Ht)| |]; lia. Qed.

Lemma bounded_same v k s : bounded v k s -> bounded v (k + 1) s.
Proof. intros [H1 H2 H3]. split; lia. Qed.

(** A thread that is woken has not returned before. *)
Lemma unblock_total w T : total pending (sem_unblock w T).1 = total pending T /\ 0 <= (sem_unblock w T).2 <= 1.
Proof. unfold sem_unblock. destruct (T !! w) as [[]|] eqn:E; cbn; try (split; [done|lia]). rewrite (total_update pending T w _ _ E). cbn. lia. Qed.

Lemma sem_step_bounded v k s t q g s' : 0 <= v -> v + k + 1 < 2 ^ 31 -> bounded v k s -> sem_step waiters off t q g s = Some s' -> bounded v (k + 1) s'.
Proof.
  intros Hv Hk H E. pose proof H as [H1 H2 H3]. unfold sem_step in E. destruct (sthreads s !! t) as [p|] eqn:Ht; [|injection E as <-; by apply bounded_same].
  assert (s32 (value (sx s) + -1) = value (sx s) - 1) as Em by (apply s32_id; lia). assert (s32 (value (sx s) + 1) = value (sx s) + 1) as Ep by (apply s32_id; lia).
  assert (forall p' x d e, value (sx s) - 1 <= value x <= value (sx s) + 1 -> d + Z.max (value x) 0 - Z.max (value (sx s)) 0 + pending p' - pending p <= e ->
    bounded v (k + 1) (mk_sem_state x (<[t := p']> (sthreads s)) (passed s + d) (posted s + e))) as Hm by (intros; by eapply bounded_move).
  assert (forall p' x d, value (sx s) - 1 <= value x <= value (sx s) + 1 -> d + Z.max (value x) 0 - Z.max (value (sx s)) 0 + pending p' - pending p <= 0 ->
    bounded v (k + 1) (mk_sem_state x (<[t := p']> (sthreads s)) (passed s + d) (posted s))) as Hm0 by (intros p' x d ? ?; rewrite <-(Z.add_0_r (posted s)); by apply Hm).
  clear H1 H2 H3. destruct p; cbn in E; unfold with_value in E; cbn in E; try (injection E as <-).
  - rewrite <-(Z.add_0_r (passed s)). apply Hm0; [lia|]. destruct q, g; cbn; lia.
  - destruct (Z.leb_spec (value (sx s)) 0); injection E as <-; apply Hm0; cbn; rewrite Em; lia.
  - destruct (list_add_tail_step _ _ _ _) as [[[a'|] h]|]; [| |discriminate E]; injection E as <-; apply Hm0; cbn; lia.
  - apply Hm0; cbn; lia.
  - by apply bounded_same.
  - apply Hm0; [lia|]. destruct (0 <? value (sx s)); cbn; lia.
  - destruct (Z.ltb_spec 0 (value (sx s))); injection E as <-; apply Hm0; cbn; rewrite Em; lia.
  - rewrite <-(Z.add_0_r (passed s)). apply Hm; cbn; rewrite Ep; [lia|]. destruct (Z.ltb_spec (value (sx s)) 0); cbn; lia.
  - destruct (list_empty _ _) as [[]|]; [| |discriminate E]; cbn in E; injection E as <-; rewrite <-(Z.add_0_r (passed s)); apply Hm; cbn; lia.
  - destruct (next _ !! _); [|discriminate E]. cbn in E. injection E as <-. rewrite <-(Z.add_0_r (passed s)). apply Hm; cbn; lia.
  - destruct (list_del_step _ _ _) as [[[d'|] h]|]; [| |discriminate E]; cbn in E; injection E as <-; rewrite <-(Z.add_0_r (passed s)); apply Hm; cbn; lia.
  - destruct (sem_unblock w (sthreads s)) as [T d] eqn:Eu. injection E as <-. destruct (unblock_total w (sthreads s)) as [Ht1 Ht2]. rewrite Eu in *. cbn in *. destruct H as [H1 H2 H3].
    assert (T !! t = Some (PostWake w)) as Ht'.
    { unfold sem_unblock in Eu. destruct (sthreads s !! w) as [[]|] eqn:Ew; injection Eu as <- _; try done. rewrite lookup_insert_ne; [done|]. intros ->. congruence. }
    split; unfold used in *; cbn; [rewrite (total_update pending T t _ _ Ht')|lia|lia]. cbn. lia.
Qed.

Lemma sem_run_bounded v sched k s s' : 0 <= v -> 0 <= k -> v + k + Z.of_nat (length sched) < 2 ^ 31 -> bounded v k s -> sem_run waiters off sched s = Some s' -> exists k', bounded v k' s'.
Proof.
  intros Hv. revert k s. induction sched as [|[[t q] g] sched IH]; intros k s Hk Hl H E; [injection E as <-; by exists k|]. cbn [sem_run length] in *.
  destruct (sem_step waiters off t q g s) as [s1|] eqn:E1; [|discriminate E]. rewrite bind_Some_l in E. apply (IH (k + 1) s1); [lia|lia| |done]. eapply sem_step_bounded; [done| |exact H|exact E1]. lia.
Qed.

(** A semaphore that was just set up, and threads that have not used it. *)
Definition sem_initial (v : Z) s : Prop := exists x, sem_init waiters true v x = Some (0, sx s) /\ passed s = 0 /\ posted s = 0 /\ forall t p, sthreads s !! t = Some p -> p = Out 0.

(** C21: under every interleaving of threads that wait, try to wait and post, the waits that
    returned 0 are never more than the initial value and the posts allow; for fewer than
    2^31 steps, in which the value does not overflow. *)
Theorem semaphore_bound v sched s s' : 0 <= v -> v + Z.of_nat (length sched) < 2 ^ 31 -> sem_initial v s -> sem_run waiters off sched s = Some s' -> passed s' <= v + posted s'.
Proof.
  intros Hv Hl (x & Ei & Hp & Hq & HT) E. assert (bounded v 0 s) as H.
  { unfold sem_init in Ei. cbn [negb] in Ei. destruct (list_init _ _) as [h|]; [|discriminate Ei]. injection Ei as Ei. assert (value (sx s) = v) as Ev by (rewrite <-Ei; cbn; apply s32_id; lia).
    assert (total pending (sthreads s) = 0) as E0 by (apply total_zero; intros t p Ht; by rewrite (HT t p Ht)). split; unfold used; rewrite ?Ev, ?E0; lia. }
  destruct (sem_run_bounded v sched 0 s s') as (k' & [H1 _ _]); [lia|lia|lia|done|done|]. unfold used in H1. pose proof (total_nonneg pending (sthreads s') pending_nonneg). lia.
Qed.

End Semaphore.

(** ** Concrete threads *)

(** Three threads at 100, 200 and 300 with their node 8 bytes in; the list head is at 50. *)
Definition ex_heap : heap := foldr new_node (mk_heap ∅ ∅) [50; 108; 208; 308].
Definition ex_mutex : mutex := mk_mutex 0 None (default ex_heap (list_init 50 ex_heap)).
Definition ex_state : state := mk_state ex_mutex (<[100 := Idle 0]> (<[200 := Idle 0]> {[300 := Idle 0]})).

Lemma ex_initial : initial 50 8 ex_state.
Proof.
  exists (mk_mutex 0 None ex_heap). split; [vm_compute; reflexivity|]. split; [split; vm_compute; by eexists|].
  intros t p. cbn [threads ex_state]. intros [[<- <-]|[_ [[<- <-]|[_ [<- <-]%lookup_singleton_Some]]%lookup_insert_Some]]%lookup_insert_Some; (split; [done|]); (split; [split; vm_compute; by eexists|done]).
Qed.

Definition ask (q : request) (k : nat) (t : Z) : list (Z * request * bool) := replicate k (t, q, true).

(** 100 takes the mutex; 200 and 300 wait for it and sleep; 100 locks it a second time. *)
Definition ex_sched : list (Z * request * bool) := ask Lock 3 100 ++ ask Lock 10 200 ++ ask Lock 10 300 ++ ask Lock 3 100.

Lemma mutex_exclusion_witness : exists s', run 50 8 ex_sched ex_state = Some s' /\ threads s' !! 100 = Some (Holding (- EDEADLK)) /\ threads s' !! 200 = Some Asleep /\ locked (mx s') = 1 /\ owner (mx s') = Some 100.
Proof.
  destruct (mutex_exclusion 50 8 ex_sched ex_state ex_initial (serial_check 50 8 ex_sched ex_state ltac:(vm_compute; reflexivity))) as (s' & E & _ & H). exists s'. vm_compute in E. injection E as <-. split; [vm_compute; reflexivity|]. split; [reflexivity|]. split; [reflexivity|].
  apply (H 100 (- EDEADLK)). reflexivity.
Defined.

Lemma ex_waiting : exists s, run 50 8 ex_sched ex_state = Some s /\ inv 50 8 (nodes (mx s)) s [200; 300].
Proof.
  destruct (inv_initial 50 8 _ ex_initial) as [Hi Hh]. destruct (mutex_run_ok 50 8 ex_sched _ ex_state [] Hi Hh (serial_check 50 8 ex_sched ex_state ltac:(vm_compute; reflexivity))) as (h & s & l & E & H & [HQ _]). exists s. split; [done|].
  assert (nodes (mx s) = h) as Eh. { apply HQ. vm_compute in E. injection E as <-. cbn [threads]. intros t p Hp. revert t p Hp. apply (map_Forall_to_list (fun _ p => mid p = false)). vm_compute. repeat constructor. }
  rewrite Eh. assert (next h !! 50 = Some 208 /\ next h !! 208 = Some 308 /\ next h !! 308 = Some 50) as (E1 & E2 & E3) by (rewrite <-Eh; vm_compute in E; injection E as <-; split; [reflexivity|split; reflexivity]).
  assert (l = [200; 300]) as <-; [|done]. pose proof (iv_list _ _ _ _ _ H) as HL. pose proof HL as [Hnd Hc]. unfold nodes_of, wait_node in *. destruct l as [|a [|b [|c l]]]; cbn in Hc.
  - destruct Hc as (Hc & _). congruence.
  - destruct Hc as (Hc & _ & Hc2 & _). rewrite E1 in Hc. injection Hc as Hc. replace (a + 8) with 208 in Hc2 by lia. congruence.
  - destruct Hc as (Hc & _ & Hc2 & _). rewrite E1 in Hc. injection Hc as Hc. replace (a + 8) with 208 in Hc2 by lia. rewrite E2 in Hc2. injection Hc2 as Hc2. f_equal; [lia|]. f_equal. lia.
  - destruct Hc as (Hc & _ & Hc2 & _ & Hc3 & _). rewrite E1 in Hc. injection Hc as Hc. replace (a + 8) with 208 in Hc2 by lia. rewrite E2 in Hc2. injection Hc2 as Hc2. replace (b + 8) with 308 in Hc3 by lia. rewrite E3 in Hc3. injection Hc3 as Hc3.
    cbn in Hnd. apply NoDup_cons in Hnd as [Hnd _]. destruct Hnd. right. right. rewrite <-Hc3. left.
Qed.

Lemma unlock_hands_over_witness : exists s s', run 50 8 ex_sched ex_state = Some s /\ run 50 8 (ask Unlock 14 100) s = Some s' /\ threads s' !! 200 = Some (Holding 0) /\ threads s' !! 300 = Some Asleep.
Proof.
  destruct ex_waiting as (s & E & H). assert (threads s !! 100 = Some (Holding (- EDEADLK)) /\ threads s !! 200 = Some Asleep /\ threads s !! 300 = Some Asleep) as (E1 & E2 & E3) by (vm_compute in E; injection E as <-; split; [reflexivity|split; reflexivity]).
  destruct (unlock_hands_over 50 8 s [300] 100 (- EDEADLK) 200 H E1 E2) as (s' & E' & Hw & _ & _ & _ & _ & Ho). exists s, s'. split; [exact E|]. split; [exact E'|]. split; [exact Hw|]. rewrite Ho; [exact E3|done|done].
Defined.

(** Without that condition a step can fault: 200 has stored its node into the list head and not yet the links of the node
    when 100 unlocks the mutex and [list_del] follows the null pointer [next] of the node. *)
Lemma half_linked_faults : initial 50 8 ex_state /\ run 50 8 (ask Lock 3 100 ++ ask Lock 5 200 ++ ask Unlock 14 100) ex_state = None.
Proof. split; [exact ex_initial|]. vm_compute. reflexivity. Qed.

(** 200 is given the mutex after it entered the list and before it sleeps. *)
Definition ex_lost : list (Z * request * bool) := ask Lock 3 100 ++ ask Lock 9 200 ++ ask Unlock 14 100 ++ ask Lock 1 200.

Lemma early_wakeup_lost_witness : exists s s', run 50 8 ex_lost ex_state = Some s /\ run 50 8 (ask Lock 12 100 ++ ask TryLock 2 300) s = Some s' /\ threads s' !! 200 = Some Asleep /\ threads s' !! 100 = Some Asleep.
Proof.
  destruct (inv_initial 50 8 _ ex_initial) as [Hi Hh]. destruct (mutex_run_ok 50 8 ex_lost _ ex_state [] Hi Hh (serial_check 50 8 ex_lost ex_state ltac:(vm_compute; reflexivity))) as (h & s & l & E & H & Hh'). exists s.
  assert (dead 200 s) as Hd.
  { vm_compute in E. injection E as <-. split; [reflexivity|]. split; [reflexivity|]. cbn [threads]. intros t p Hp. revert t p Hp. apply (map_Forall_to_list (fun _ p => token p = false)). vm_compute. repeat constructor. }
  assert (serial 50 8 (ask Lock 12 100 ++ ask TryLock 2 300) s) as Hs by (vm_compute in E; injection E as <-; apply serial_check; vm_compute; reflexivity).
  destruct (early_wakeup_lost 50 8 h s l 200 (ask Lock 12 100 ++ ask TryLock 2 300) H Hh' Hd Hs) as (s' & E' & Hw & _). exists s'. split; [exact E|]. split; [exact E'|]. split; [exact Hw|].
  vm_compute in E. injection E as <-. vm_compute in E'. injection E' as <-. reflexivity.
Defined.

(** A thread that is woken by anything else, as signals and [thread_wakeup] do, returns from
    [mutex_lock] while another one has the mutex. *)
Lemma foreign_wakeup_breaks_exclusion : exists s, run 50 8 ex_sched ex_state = Some s /\ unblock 200 (threads s) !! 200 = Some (Holding 0) /\ unblock 200 (threads s) !! 100 = Some (Holding (- EDEADLK)).
Proof. eexists. split; [vm_compute; reflexivity|]. split; reflexivity. Qed.

Definition ex_sem : sem_state := mk_sem_state (mk_sem 1 (nodes ex_mutex)) (<[100 := Out 0]> (<[200 := Out 0]> (<[300 := Out 0]> {[400 := Out 0]}))) 0 0.
Definition sem_ask (q : srequest) (k : nat) (t : Z) : list (Z * srequest * bool) := replicate k (t, q, true).

Lemma ex_sem_initial : sem_initial 50 1 ex_sem.
Proof.
  exists (mk_sem 0 ex_heap). split; [vm_compute; reflexivity|]. split; [done|]. split; [done|].
  intros t p. cbn [sthreads ex_sem]. by intros [[<- <-]|[_ [[<- <-]|[_ [[<- <-]|[_ [<- <-]%lookup_singleton_Some]]%lookup_insert_Some]]%lookup_insert_Some]]%lookup_insert_Some.
Qed.

(** 100 passes, 200 waits and is let through by the post of 300. *)
Lemma semaphore_bound_witness : exists s', sem_run 50 8 (sem_ask SemWait 2 100 ++ sem_ask SemWait 9 200 ++ sem_ask SemPost 13 300) ex_sem = Some s' /\ passed s' = 2 /\ passed s' <= 1 + posted s'.
Proof.
  destruct (sem_run 50 8 (sem_ask SemWait 2 100 ++ sem_ask SemWait 9 200 ++ sem_ask SemPost 13 300) ex_sem) as [s'|] eqn:E; [|vm_compute in E; discriminate E]. exists s'. split; [reflexivity|].
  split; [vm_compute in E; injection E as <-; reflexivity|]. apply (semaphore_bound 50 8 1 (sem_ask SemWait 2 100 ++ sem_ask SemWait 9 200 ++ sem_ask SemPost 13 300) ex_sem s'); [lia|cbn; lia|exact ex_sem_initial|exact E].
Defined.

(** Two posts that find the same first waiting thread both remove it: the second one
    follows the null pointers that the first one left. *)
Lemma posts_remove_twice : sem_run 50 8 (sem_ask SemWait 2 100 ++ sem_ask SemWait 9 200 ++ sem_ask SemWait 9 400 ++ sem_ask SemPost 4 300 ++ sem_ask SemPost 4 100 ++ sem_ask SemPost 8 300 ++ sem_ask SemPost 8 100) ex_sem = None.
Proof. vm_compute. reflexivity. Qed.

(** A [sem_trywait] that loses a race after its first test takes a permit without getting
    it: after a post the value is 0 again, though nobody waits and only one wait returned. *)
Lemma trywait_loses_permit : exists s', sem_run 50 8 (sem_ask SemTryWait 2 100 ++ sem_ask SemTryWait 2 200 ++ sem_ask SemTryWait 1 100 ++ sem_ask SemTryWait 1 200 ++ sem_ask SemPost 3 300) ex_sem = Some s' /\
  passed s' = 1 /\ posted s' = 1 /\ value (sx s') = 0 /\ sthreads s' !! 200 = Some (Out (- EAGAIN)).
Proof. eexists. split; [vm_compute; reflexivity|]. repeat (split; [reflexivity|]). reflexivity. Qed.

End ThreadSyncSpec.
