(* ===== verification/Tsd.v ===== *)
(** Thread-specific data: [kernel/thread/thread_tls.c]. The table of keys, the values of each
    thread, the destructors at its end, and the refinement of a map from threads and keys
    to values. *)

From S2P Require Import Prelude.

Module Tsd.

Definition EINVAL : Z := 22.
Definition ENOMEM : Z := 12.
Definition MAX_TSD_KEYS : Z := 128.

(** ** Data *)

(** [destructor] is the address of a function; a null pointer is [None]. *)
Record tsd_key := mk_key { allocated : bool; destructor : option Z }.
(** The members of a thread that the file uses; values are pointers, 0 for null. *)
Record thread := mk_thread { tsd : option (list Z); tsd_count : Z }.

Section Tsd.
(** What a destructor does to the rest of the system when it is called with a value. *)
Context {W : Type} (call : Z -> Z -> W -> W).

Record state := mk_state { tsd_keys : list tsd_key; threads : gmap Z thread; world : W }.
Implicit Types (s : state) (t key v : Z) (l : list Z) (ks : list tsd_key).

Definition no_key : tsd_key := mk_key false None.

(** ** Operations *)

Definition thread_tls_init s : state := mk_state (replicate (Z.to_nat MAX_TSD_KEYS) no_key) (threads s) (world s).

(** The index of the first key from [i] on that is not allocated. *)
Fixpoint find_key (n : nat) (i : Z) ks : option (option Z) :=
  match n with O => Some None | S n => k ← aget ks i; if negb (allocated k) then Some (Some i) else find_key n (i + 1) ks end.

(** [given]: the pointer for the key is not null. *)
Definition thread_key_create (given : bool) (d : option Z) s : option (Z * option Z * state) :=
  if negb given then Some (- EINVAL, None, s)
  else
    r ← find_key (Z.to_nat MAX_TSD_KEYS) 0 (tsd_keys s);
    match r with
    | Some i => ks ← aset (tsd_keys s) i (mk_key true d); Some (0, Some i, mk_state ks (threads s) (world s))
    | None => Some (- ENOMEM, None, s)
    end.

Definition thread_key_delete key s : option (Z * state) :=
  if MAX_TSD_KEYS <=? key then Some (- EINVAL, s)
  else
    k ← aget (tsd_keys s) key;
    if negb (allocated k) then Some (- EINVAL, s)
    else ks ← aset (tsd_keys s) key no_key; Some (0, mk_state ks (threads s) (world s)).

(** [mem]: [kmalloc] finds memory, which it clears. *)
Definition thread_set_tsd (thr : option Z) key v (mem : bool) s : option (Z * state) :=
  match thr with
  | None => Some (- EINVAL, s)
  | Some t =>
      if MAX_TSD_KEYS <=? key then Some (- EINVAL, s)
      else
        k ← aget (tsd_keys s) key;
        if negb (allocated k) then Some (- EINVAL, s)
        else
          x ← threads s !! t;
          match (match tsd x with Some l => Some (l, tsd_count x) | None => if mem then Some (replicate (Z.to_nat MAX_TSD_KEYS) 0, MAX_TSD_KEYS) else None end) with
          | None => Some (- ENOMEM, s)
          | Some (l, c) => l ← aset l key v; Some (0, mk_state (tsd_keys s) (<[t := mk_thread (Some l) c]> (threads s)) (world s))
          end
  end.

Definition thread_get_tsd (thr : option Z) key s : option Z :=
  match thr with
  | None => Some 0
  | Some t =>
      if MAX_TSD_KEYS <=? key then Some 0
      else
        k ← aget (tsd_keys s) key;
        if negb (allocated k) then Some 0 else x ← threads s !! t; match tsd x with None => Some 0 | Some l => aget l key end
  end.

(** The loop over the keys from [i] on. *)
Fixpoint run_destructors (n : nat) (i : Z) ks l (w : W) : option (list Z * W) :=
  match n with
  | O => Some (l, w)
  | S n =>
      k ← aget ks i;
      match (if allocated k then destructor k else None) with
      | Some d => v ← aget l i; if v =? 0 then run_destructors n (i + 1) ks l w else l ← aset l i 0; run_destructors n (i + 1) ks l (call d v w)
      | None => run_destructors n (i + 1) ks l w
      end
  end.

Definition thread_run_tsd_destructors (thr : option Z) s : option state :=
  match thr with
  | None => Some s
  | Some t =>
      x ← threads s !! t;
      match tsd x with
      | None => Some s
      | Some l => r ← run_destructors (Z.to_nat (tsd_count x)) 0 (tsd_keys s) l (world s); Some (mk_state (tsd_keys s) (<[t := mk_thread None 0]> (threads s)) r.2)
      end
  end.

(** ** The abstract storage *)

(** Keys with their destructors, and for each thread the values that were set, if it has
    memory for values. *)
Record store := mk_store { keys : gmap Z (option Z); vals : gmap Z (option (gmap Z Z)) }.
Implicit Types (a : store).

Definition value a t key : Z := match vals a !! t with Some (Some m) => default 0 (m !! key) | _ => 0 end.

Record rep s a : Prop := {
  rp_len : length (tsd_keys s) = 128%nat;
  rp_keys : forall i, 0 <= i < 128 -> exists k, aget (tsd_keys s) i = Some k /\ keys a !! i = if allocated k then Some (destructor k) else None;
  rp_range : forall i d, keys a !! i = Some d -> 0 <= i < 128;
  rp_threads : forall t, is_Some (threads s !! t) <-> is_Some (vals a !! t);
  rp_vals : forall t x m, threads s !! t = Some x -> vals a !! t = Some m ->
    match tsd x, m with
    | None, None => True
    | Some l, Some m => tsd_count x = 128 /\ length l = 128%nat /\ forall i, 0 <= i < 128 -> aget l i = Some (default 0 (m !! i))
    | _, _ => False
    end
}.

Definition free_key a (i : Z) : bool := bool_decide (keys a !! i = None).
Definition all_keys : list Z := seqZ 0 128.

Definition call_of a (f : Z -> Z) (i : Z) : option (Z * Z) := match keys a !! i with Some (Some d) => if f i =? 0 then None else Some (d, f i) | _ => None end.

(** The destructor calls for a thread: the keys in order, with a destructor and a value
    that is not null. *)
Definition calls a t : list (Z * Z) := omap (call_of a (value a t)) all_keys.

Definition v_create (d : option Z) a : Z * option Z * store :=
  match List.find (free_key a) all_keys with Some i => (0, Some i, mk_store (<[i := d]> (keys a)) (vals a)) | None => (- ENOMEM, None, a) end.

Definition v_delete key a : Z * store := match keys a !! key with Some _ => (0, mk_store (delete key (keys a)) (vals a)) | None => (- EINVAL, a) end.

Definition v_set t key v (mem : bool) a : Z * store :=
  match keys a !! key, vals a !! t with
  | Some _, Some (Some m) => (0, mk_store (keys a) (<[t := Some (<[key := v]> m)]> (vals a)))
  | Some _, Some None => if mem then (0, mk_store (keys a) (<[t := Some {[key := v]}]> (vals a))) else (- ENOMEM, a)
  | _, _ => (- EINVAL, a)
  end.

Definition v_get t key a : Z := match keys a !! key with Some _ => value a t key | None => 0 end.

Definition v_end t a : store := mk_store (keys a) (<[t := None]> (vals a)).

(** ** What each operation does *)

Lemma rep_key s a key : rep s a -> 0 <= key < 128 -> exists k, aget (tsd_keys s) key = Some k /\ (allocated k = true <-> is_Some (keys a !! key)) /\ keys a !! key = if allocated k then Some (destructor k) else None.
Proof.
  intros H Hk. destruct (rp_keys _ _ H key Hk) as (k & E & Ek). exists k. split; [done|]. split; [|done]. rewrite Ek. destruct (allocated k); [split; [by eexists|done]|]. split; [done|by intros [? ?]].
Qed.

Lemma find_key_ok s a n i : rep s a -> i + Z.of_nat n = 128 -> 0 <= i -> find_key n i (tsd_keys s) = Some (List.find (free_key a) (seqZ i (Z.of_nat n))).
Proof.
  intros H. revert i. induction n as [|n IH]; intros i Hi H0; [done|]. cbn [find_key]. rewrite seqZ_cons by lia. cbn [List.find]. destruct (rep_key s a i H) as (k & E & Ek & _); [lia|]. rewrite E, bind_Some_l. unfold free_key at 1.
  destruct (allocated k); cbn [negb].
  - rewrite bool_decide_false by (destruct Ek as [Ek _]; intros E2; destruct (Ek eq_refl) as [? ?]; congruence). rewrite IH by lia. replace (Z.pred (Z.of_nat (S n))) with (Z.of_nat n) by lia. by replace (Z.succ i) with (i + 1) by lia.
  - rewrite bool_decide_true; [done|]. apply eq_None_not_Some. by intros ?%Ek.
Qed.

(** The table with one key changed. *)
Lemma rep_set_key s a key k : rep s a -> 0 <= key < 128 -> exists ks, aset (tsd_keys s) key k = Some ks /\
  rep (mk_state ks (threads s) (world s)) (mk_store (if allocated k then <[key := destructor k]> (keys a) else delete key (keys a)) (vals a)).
Proof.
  intros H Hk. pose proof H as [HL HK HR HT HV]. rewrite aset_Some by lia. eexists. split; [done|]. split; cbn; try done; [by rewrite length_insert| |].
  - intros i Hi. destruct (decide (i = key)) as [->|Hne].
    + exists k. unfold aget. destruct (Z.ltb_spec key 0); [lia|]. rewrite list_lookup_insert_eq by lia. split; [done|]. destruct (allocated k); [apply lookup_insert_eq|apply lookup_delete_eq].
    + destruct (HK i Hi) as (k' & E & Ek). exists k'. unfold aget in *. destruct (Z.ltb_spec i 0); [lia|]. rewrite list_lookup_insert_ne by lia. split; [done|]. destruct (allocated k); [by rewrite lookup_insert_ne|by rewrite lookup_delete_ne].
  - intros i d Hi. destruct (allocated k); [apply lookup_insert_Some in Hi as [[<- _]|[_ Hi]]; [done|by eapply HR]|apply lookup_delete_Some in Hi as [_ Hi]; by eapply HR].
Qed.

Lemma create_key_ok s a d : rep s a -> exists s', thread_key_create true d s = Some ((v_create d a).1, s') /\ rep s' (v_create d a).2 /\ world s' = world s.
Proof.
  intros H. unfold thread_key_create, v_create, all_keys. cbn [negb]. rewrite (find_key_ok s a) by (try done; lia). rewrite bind_Some_l. change (Z.of_nat (Z.to_nat MAX_TSD_KEYS)) with 128.
  destruct (List.find (free_key a) (seqZ 0 128)) as [i|] eqn:Ef; [|by exists s]. apply List.find_some in Ef as [Hi%list_elem_of_In _]. apply elem_of_seqZ in Hi.
  destruct (rep_set_key s a i (mk_key true d) H) as (ks & E & H'); [lia|]. rewrite E, bind_Some_l. by eexists.
Qed.

Lemma key_out s a key : rep s a -> 0 <= key -> MAX_TSD_KEYS <= key -> keys a !! key = None.
Proof. intros H H0 Hk. apply eq_None_not_Some. intros [d Hd]. pose proof (rp_range _ _ H key d Hd). unfold MAX_TSD_KEYS in Hk. lia. Qed.

Lemma delete_key_ok s a key : rep s a -> 0 <= key -> exists s', thread_key_delete key s = Some ((v_delete key a).1, s') /\ rep s' (v_delete key a).2 /\ world s' = world s.
Proof.
  intros H H0. unfold thread_key_delete, v_delete. destruct (Z.leb_spec MAX_TSD_KEYS key) as [Hk|Hk]; [rewrite (key_out s a key H H0 Hk); by exists s|]. unfold MAX_TSD_KEYS in Hk.
  destruct (rep_key s a key H) as (k & E & _ & Ek); [lia|]. rewrite E, bind_Some_l, Ek. destruct (allocated k); cbn [negb]; [|by exists s].
  destruct (rep_set_key s a key no_key H) as (ks & E' & H'); [lia|]. rewrite E', bind_Some_l. by eexists.
Qed.

(** The values of one thread changed. *)
Lemma rep_set_thread s a t x m w : rep s a -> is_Some (threads s !! t) ->
  match tsd x, m with
  | None, None => True
  | Some l, Some m => tsd_count x = 128 /\ length l = 128%nat /\ forall i, 0 <= i < 128 -> aget l i = Some (default 0 (m !! i))
  | _, _ => False
  end -> rep (mk_state (tsd_keys s) (<[t := x]> (threads s)) w) (mk_store (keys a) (<[t := m]> (vals a))).
Proof.
  intros [HL HK HR HT HV] Ht Hx. split; cbn; try done.
  - intros u. rewrite !lookup_insert_is_Some', HT. done.
  - intros u y k [[<- <-]|[Hne Hy]]%lookup_insert_Some [[E <-]|[Hne' Hk]]%lookup_insert_Some; [done|done|done|by eapply HV].
Qed.

Lemma thread_vals s a t x : rep s a -> threads s !! t = Some x -> exists m, vals a !! t = Some m /\
  match tsd x, m with
  | None, None => True
  | Some l, Some m => tsd_count x = 128 /\ length l = 128%nat /\ forall i, 0 <= i < 128 -> aget l i = Some (default 0 (m !! i))
  | _, _ => False
  end.
Proof. intros H Hx. destruct (proj1 (rp_threads _ _ H t)) as [m Hm]; [by eexists|]. exists m. split; [done|]. by eapply (rp_vals _ _ H). Qed.

(** An array with one element changed, against a map. *)
Lemma aset_values (l : list Z) (m : gmap Z Z) key v : length l = 128%nat -> 0 <= key < 128 -> (forall i, 0 <= i < 128 -> aget l i = Some (default 0 (m !! i))) ->
  exists l', aset l key v = Some l' /\ length l' = 128%nat /\ forall i, 0 <= i < 128 -> aget l' i = Some (default 0 (<[key := v]> m !! i)).
Proof.
  intros Hl Hk Hm. rewrite aset_Some by lia. eexists. split; [done|]. split; [by rewrite length_insert|]. intros i Hi. specialize (Hm i Hi). unfold aget in *. destruct (Z.ltb_spec i 0); [lia|]. destruct (decide (i = key)) as [->|Hne].
  - by rewrite list_lookup_insert_eq, lookup_insert_eq by lia.
  - by rewrite list_lookup_insert_ne, lookup_insert_ne by lia.
Qed.

Lemma set_tsd_ok s a t key v mem : rep s a -> is_Some (threads s !! t) -> 0 <= key ->
  exists s', thread_set_tsd (Some t) key v mem s = Some ((v_set t key v mem a).1, s') /\ rep s' (v_set t key v mem a).2 /\ world s' = world s.
Proof.
  intros H [x Hx] H0. unfold thread_set_tsd, v_set. destruct (Z.leb_spec MAX_TSD_KEYS key) as [Hk|Hk]; [rewrite (key_out s a key H H0 Hk); by exists s|]. unfold MAX_TSD_KEYS in *.
  destruct (rep_key s a key H) as (k & E & _ & Ek); [lia|]. rewrite E, bind_Some_l, Ek. destruct (allocated k); cbn [negb]; [|by exists s]. rewrite Hx, bind_Some_l.
  destruct (thread_vals s a t x H Hx) as (m & -> & Hm). destruct (tsd x) as [l|], m as [m|]; try done.
  - destruct Hm as (Hc & Hl & Hm). destruct (aset_values l m key v Hl) as (l' & El & Hl' & Hm'); [lia|done|]. rewrite El, bind_Some_l. eexists. split; [done|]. split; [|done]. apply rep_set_thread; [done|by eexists|done].
  - destruct mem; [|by exists s]. destruct (aset_values (replicate 128 0) ∅ key v) as (l' & El & Hl' & Hm'); [by rewrite length_replicate|lia| |].
    { intros i Hi. unfold aget. destruct (Z.ltb_spec i 0); [lia|]. rewrite lookup_empty. by rewrite lookup_replicate_2 by lia. }
    change (Z.to_nat 128) with 128%nat. rewrite El, bind_Some_l. eexists. split; [done|]. split; [|done]. apply rep_set_thread; [done|by eexists|done].
Qed.

Lemma get_tsd_ok s a t key : rep s a -> is_Some (threads s !! t) -> 0 <= key -> thread_get_tsd (Some t) key s = Some (v_get t key a).
Proof.
  intros H [x Hx] H0. unfold thread_get_tsd, v_get, value. destruct (Z.leb_spec MAX_TSD_KEYS key) as [Hk|Hk]; [by rewrite (key_out s a key H H0 Hk)|]. unfold MAX_TSD_KEYS in *.
  destruct (rep_key s a key H) as (k & E & _ & Ek); [lia|]. rewrite E, bind_Some_l, Ek. destruct (allocated k); cbn [negb]; [|done]. rewrite Hx, bind_Some_l.
  destruct (thread_vals s a t x H Hx) as (m & -> & Hm). destruct (tsd x) as [l|], m as [m|]; try done. destruct Hm as (_ & _ & Hm). apply Hm. lia.
Qed.

(** ** Destructors *)

Definition call_all (cs : list (Z * Z)) (w : W) : W := foldl (fun w c => call c.1 c.2 w) w cs.

Lemma omap_head {A B} (f : A -> option B) x (l : list A) : omap f (x :: l) = match f x with Some y => y :: omap f l | None => omap f l end.
Proof. done. Qed.

Lemma omap_none {A B} (f : A -> option B) (l : list A) : (forall x, f x = None) -> omap f l = [].
Proof. intros Hf. induction l as [|x l IH]; [done|]. by rewrite omap_head, Hf. Qed.

Lemma run_destructors_ok s a (f : Z -> Z) n i l w : rep s a -> i + Z.of_nat n = 128 -> 0 <= i -> length l = 128%nat -> (forall j, i <= j < 128 -> aget l j = Some (f j)) ->
  exists l', run_destructors n i (tsd_keys s) l w = Some (l', call_all (omap (call_of a f) (seqZ i (Z.of_nat n))) w).
Proof.
  intros H. revert i l w. induction n as [|n IH]; intros i l w Hi H0 Hl Hf; [by exists l|]. cbn [run_destructors]. rewrite seqZ_cons by lia. rewrite omap_head.
  replace (Z.pred (Z.of_nat (S n))) with (Z.of_nat n) by lia. replace (Z.succ i) with (i + 1) by lia.
  destruct (rep_key s a i H) as (k & E & _ & Ek); [lia|]. rewrite E, bind_Some_l. unfold call_of at 1. rewrite Ek.
  destruct (allocated k); [|apply IH; [lia|lia|done|]; intros j Hj; apply Hf; lia]. destruct (destructor k) as [d|]; [|apply IH; [lia|lia|done|]; intros j Hj; apply Hf; lia].
  rewrite Hf, bind_Some_l by lia. destruct (Z.eqb_spec (f i) 0); [apply IH; [lia|lia|done|]; intros j Hj; apply Hf; lia|].
  rewrite aset_Some, bind_Some_l by lia. cbn [call_all foldl fst snd]. apply IH; [lia|lia|by rewrite length_insert|]. intros j Hj. rewrite <-Hf by lia. unfold aget. destruct (Z.ltb_spec j 0); [lia|]. by rewrite list_lookup_insert_ne by lia.
Qed.

Lemma run_tsd_destructors_ok s a t : rep s a -> is_Some (threads s !! t) -> exists s', thread_run_tsd_destructors (Some t) s = Some s' /\ rep s' (v_end t a) /\ world s' = call_all (calls a t) (world s).
Proof.
  intros H [x Hx]. unfold thread_run_tsd_destructors, v_end. rewrite Hx, bind_Some_l. destruct (thread_vals s a t x H Hx) as (m & Em & Hm). destruct (tsd x) as [l|] eqn:El, m as [m|]; try done.
  - destruct Hm as (Hc & Hl & Hm). rewrite Hc. destruct (run_destructors_ok s a (value a t) (Z.to_nat 128) 0 l (world s) H) as (l' & E); [lia|lia|done|intros j Hj; unfold value; rewrite Em; by apply Hm|].
    rewrite E, bind_Some_l. eexists. split; [reflexivity|]. split; [apply rep_set_thread; [done|by eexists|done]|]. cbn [world snd]. rewrite Z2Nat.id by lia. unfold calls, all_keys. reflexivity.
  - exists s. split; [done|]. assert (<[t := None]> (vals a) = vals a) as -> by (by apply insert_id). split; [by destruct a|].
    assert (calls a t = []) as ->; [|done]. unfold calls. apply omap_none. intros i. unfold call_of, value. rewrite Em. by destruct (keys a !! i) as [[]|].
Qed.

(** ** Sequences of calls *)

Inductive op := Create (d : option Z) | Delete (key : Z) | Set_ (t key v : Z) (mem : bool) | Get (t key : Z) | End_ (t : Z).
Inductive answer := Key (r : Z) (k : option Z) | Code (r : Z) | Value (v : Z) | Nothing.

Definition perform (o : op) s : option (answer * state) :=
  match o with
  | Create d => r ← thread_key_create true d s; Some (Key r.1.1 r.1.2, r.2)
  | Delete key => r ← thread_key_delete key s; Some (Code r.1, r.2)
  | Set_ t key v mem => r ← thread_set_tsd (Some t) key v mem s; Some (Code r.1, r.2)
  | Get t key => v ← thread_get_tsd (Some t) key s; Some (Value v, s)
  | End_ t => s ← thread_run_tsd_destructors (Some t) s; Some (Nothing, s)
  end.

(** The last component has the destructor calls. *)
Definition spec (o : op) a : answer * store * list (Z * Z) :=
  match o with
  | Create d => let r := v_create d a in (Key r.1.1 r.1.2, r.2, [])
  | Delete key => let r := v_delete key a in (Code r.1, r.2, [])
  | Set_ t key v mem => let r := v_set t key v mem a in (Code r.1, r.2, [])
  | Get t key => (Value (v_get t key a), a, [])
  | End_ t => (Nothing, v_end t a, calls a t)
  end.

(** Keys are unsigned, and threads exist. *)
Definition allowed (o : op) a : bool :=
  match o with
  | Create _ => true
  | Delete key => 0 <=? key
  | Set_ t key _ _ | Get t key => (0 <=? key) && bool_decide (is_Some (vals a !! t))
  | End_ t => bool_decide (is_Some (vals a !! t))
  end.

Fixpoint run (os : list op) s : option (list answer * state) :=
  match os with [] => Some ([], s) | o :: os => r ← perform o s; q ← run os r.2; Some (r.1 :: q.1, q.2) end.
Fixpoint spec_run (os : list op) a : list answer * store * list (Z * Z) :=
  match os with [] => ([], a, []) | o :: os => let r := spec o a in let q := spec_run os r.1.2 in (r.1.1 :: q.1.1, q.1.2, r.2 ++ q.2) end.
Fixpoint all_allowed (os : list op) a : bool := match os with [] => true | o :: os => allowed o a && all_allowed os (spec o a).1.2 end.

Lemma tsd_perform_ok o s a : rep s a -> allowed o a = true -> exists s', perform o s = Some ((spec o a).1.1, s') /\ rep s' (spec o a).1.2 /\ world s' = call_all (spec o a).2 (world s).
Proof.
  intros H Ha. destruct o as [d|key|t key v mem|t key|t]; cbn [perform spec allowed fst snd] in *; rewrite ?andb_true_iff, ?Z.leb_le, ?bool_decide_eq_true, <-?(rp_threads _ _ H) in Ha.
  - destruct (create_key_ok s a d H) as (s' & E & H' & Ew). rewrite E, bind_Some_l. by exists s'.
  - destruct (delete_key_ok s a key H Ha) as (s' & E & H' & Ew). rewrite E, bind_Some_l. by exists s'.
  - destruct Ha as [H0 Ht]. destruct (set_tsd_ok s a t key v mem H Ht H0) as (s' & E & H' & Ew). rewrite E, bind_Some_l. by exists s'.
  - destruct Ha as [H0 Ht]. rewrite (get_tsd_ok s a t key H Ht H0), bind_Some_l. by exists s.
  - destruct (run_tsd_destructors_ok s a t H Ha) as (s' & E & H' & Ew). rewrite E, bind_Some_l. by exists s'.
Qed.

Lemma call_all_app c1 c2 w : call_all (c1 ++ c2) w = call_all c2 (call_all c1 w).
Proof. apply foldl_app. Qed.

(** C33: any sequence of creating and deleting keys, setting and getting values and ending
    threads refines a table of keys, of which the lowest free one is taken, and a map from
    threads and keys to values: a thread reads what it wrote last for a key. At its end the
    destructors of the keys it has values for are called with them, once and in the order
    of the keys, and its values are gone. *)
Theorem tsd_refines os s a : rep s a -> all_allowed os a = true ->
  exists s', run os s = Some ((spec_run os a).1.1, s') /\ rep s' (spec_run os a).1.2 /\ world s' = call_all (spec_run os a).2 (world s).
Proof.
  revert s a. induction os as [|o os IH]; intros s a H Ha; [by exists s|]. cbn [all_allowed run spec_run fst snd] in *. apply andb_true_iff in Ha as [Ho Ha].
  destruct (tsd_perform_ok o s a H Ho) as (s1 & E1 & H1 & W1). destruct (IH s1 _ H1 Ha) as (s2 & E2 & H2 & W2). rewrite E1, bind_Some_l. cbn [fst snd]. rewrite E2, bind_Some_l. exists s2. split; [done|]. split; [done|]. by rewrite call_all_app, <-W1.
Qed.

(** The empty storage. *)
Lemma rep_init s : (forall t x, threads s !! t = Some x -> tsd x = None) -> rep (thread_tls_init s) (mk_store ∅ ((fun _ => None) <$> threads s)).
Proof.
  intros HT. split; cbn; [by rewrite length_replicate| | | |].
  - intros i Hi. exists no_key. unfold aget. destruct (Z.ltb_spec i 0); [lia|]. rewrite lookup_replicate_2 by (unfold MAX_TSD_KEYS; lia). by rewrite lookup_empty.
  - intros i d Hd. by rewrite lookup_empty in Hd.
  - intros t. by rewrite lookup_fmap, fmap_is_Some.
  - intros t x m Hx. rewrite lookup_fmap, Hx. intros [= <-]. by rewrite (HT t x Hx).
Qed.

End Tsd.

(** ** Examples *)

(** Destructors write what they are called with into a list. *)
Definition ex_call (d v : Z) (w : list (Z * Z)) : list (Z * Z) := w ++ [(d, v)].
Definition ex_start : state (W := list (Z * Z)) := mk_state [] {[7 := mk_thread None 0]} [].
Definition ex_ops : list op :=
  [Create (Some 500); Create None; Set_ 7 0 11 false; Set_ 7 0 11 true; Set_ 7 1 12 true; Get 7 0; Get 7 5; Get 7 128; Delete 2; End_ 7; Get 7 0].

Lemma tsd_refines_witness : exists s', run ex_call ex_ops (thread_tls_init ex_start) =
  Some ([Key 0 (Some 0); Key 0 (Some 1); Code (- ENOMEM); Code 0; Code 0; Value 11; Value 0; Value 0; Code (- EINVAL); Nothing; Value 0], s') /\ world s' = [(500, 11)].
Proof.
  destruct (tsd_refines ex_call ex_ops (thread_tls_init ex_start) (mk_store ∅ ((fun _ => None) <$> threads ex_start))) as (s' & E & _ & Ew); [apply rep_init; intros t x; cbn [threads ex_start]; intros [<- <-]%lookup_singleton_Some; reflexivity|vm_compute; reflexivity|].
  exists s'. rewrite Ew, E. split; vm_compute; reflexivity.
Defined.

(** Deleting a key leaves the values of the threads: under the next key with its number
    they are read again, and the new destructor is called with them. *)
Lemma deleted_value_returns : exists s', run ex_call [Create None; Set_ 7 0 11 true; Delete 0; Create (Some 600); Get 7 0; End_ 7] (thread_tls_init ex_start) =
  Some ([Key 0 (Some 0); Code 0; Code 0; Key 0 (Some 0); Value 11; Nothing], s') /\ world s' = [(600, 11)].
Proof. eexists. split; vm_compute; reflexivity. Qed.

End Tsd.
