(* ===== verification/Ramfs.v ===== *)
(** The file system in memory: [kernel/fs/ramfs/file.c], [dir.c], [inode.c] and [super.c]. *)

From S2P Require Import Prelude Bytes.

Module Ramfs.
Import Bytes.

(** ** Reallocation *)

(** What [krealloc] copies from the old block into the new one of [fresh] contents. *)
Class Realloc := keep : forall {A : Type}, list A -> list A -> list A.

(** The documented behaviour: the new block starts with as much of the old one as fits. *)
Class ReallocLaws `{Realloc} := keep_prefix : forall {A : Type} (old fresh : list A), keep old fresh = take (length fresh) old ++ drop (length old) fresh.

(** [krealloc] of [mm/slab.c] copies [old_size] bytes, which is 0. *)
Definition slab_realloc : Realloc := fun A _ fresh => fresh.

(** A reallocation that keeps the contents. *)
Definition true_realloc : Realloc := fun A old fresh => take (length fresh) old ++ drop (length old) fresh.
#[export] Instance true_realloc_laws : @ReallocLaws true_realloc.
Proof. done. Qed.

(** A new block, none, or none and the old one released, as for the size 0. *)
Inductive realloced (A : Type) := NewBlock (b : list A) | NoMemory | Released.
#[global] Arguments NewBlock {A} b.
#[global] Arguments NoMemory {A}.
#[global] Arguments Released {A}.

(** [mem] tells what [kmalloc] gives for a size, with the contents of the memory. *)
Definition krealloc {A} `{Realloc} (old : option (list A)) (n : Z) (mem : Z -> option (list A)) : realloced A :=
  match old with
  | None => match mem n with Some b => NewBlock b | None => NoMemory end
  | Some o => if n =? 0 then Released else match mem n with Some b => NewBlock (keep o b) | None => NoMemory end
  end.

(** ** Data *)

Definition S_IFMT : Z := 0xF000.
Definition S_IFSOCK : Z := 0xC000.
Definition S_IFLNK : Z := 0xA000.
Definition S_IFREG : Z := 0x8000.
Definition S_IFBLK : Z := 0x6000.
Definition S_IFDIR : Z := 0x4000.
Definition S_IFCHR : Z := 0x2000.
Definition S_IFIFO : Z := 0x1000.
Definition S_IS (k mode : Z) : bool := Z.land mode S_IFMT =? k.

Definition SEEK_SET : Z := 0.
Definition SEEK_CUR : Z := 1.
Definition SEEK_END : Z := 2.

Definition ATTR_MODE : Z := 1.
Definition ATTR_UID : Z := 2.
Definition ATTR_GID : Z := 4.
Definition ATTR_SIZE : Z := 8.
Definition ATTR_ATIME : Z := 16.
Definition ATTR_MTIME : Z := 32.
Definition ATTR_CTIME : Z := 64.

Definition PAGE_SIZE : Z := 4096.

(** The values of these constants are declared nowhere. *)
Inductive d_type := DT_DIR | DT_REG | DT_LNK | DT_BLK | DT_CHR | DT_FIFO | DT_SOCK | DT_UNKNOWN.

Record dirent := mk_dirent { name : option (list Z); dlen : Z; ino : Z; dtype : d_type; dmode : Z }.

(** What [data] of an inode points to: bytes of a file or a link, a directory, or memory that was released. *)
Inductive contents := Null | Block (b : list Z) | Directory (count : Z) (entries : option (list dirent)) | Dangling.

(** The members of [struct ramfs_inode] and of the inode in it that the file system uses. *)
Record inode := mk_inode {
  i_ino : Z; i_mode : Z; i_nlink : Z; i_uid : Z; i_gid : Z; i_size : Z; i_atime : Z; i_mtime : Z; i_ctime : Z; data : contents; size : Z
}.
Implicit Types (x : inode) (d : dirent).

Definition with_data (c : contents) x : inode := mk_inode (i_ino x) (i_mode x) (i_nlink x) (i_uid x) (i_gid x) (i_size x) (i_atime x) (i_mtime x) (i_ctime x) c (size x).
Definition with_size (n : Z) x : inode := mk_inode (i_ino x) (i_mode x) (i_nlink x) (i_uid x) (i_gid x) (i_size x) (i_atime x) (i_mtime x) (i_ctime x) (data x) n.
Definition with_i_size (n : Z) x : inode := mk_inode (i_ino x) (i_mode x) (i_nlink x) (i_uid x) (i_gid x) n (i_atime x) (i_mtime x) (i_ctime x) (data x) (size x).
Definition with_ino (n : Z) x : inode := mk_inode n (i_mode x) (i_nlink x) (i_uid x) (i_gid x) (i_size x) (i_atime x) (i_mtime x) (i_ctime x) (data x) (size x).
Definition add_links (k : Z) x : inode := mk_inode (i_ino x) (i_mode x) (u32 (i_nlink x + k)) (i_uid x) (i_gid x) (i_size x) (i_atime x) (i_mtime x) (i_ctime x) (data x) (size x).

Section Ramfs.
Context `{Realloc}.

(** ** Files: [file.c] *)

(** Bytes of the block, from a pointer that must be valid when there are any. *)
Definition block_of (c : contents) : option (list Z) := match c with Block b => Some b | _ => None end.

(** The result, the buffer and the position. *)
Definition ramfs_file_read x (buf : list Z) (count pos : Z) : option (Z * list Z * Z) :=
  if (pos <? 0) || (size x <? pos) then Some (0, buf, pos)
  else
    let bytes := if size x <? pos + count then u32 (size x - pos) else count in
    if bytes =? 0 then Some (0, buf, pos)
    else b ← block_of (data x); buf ← blit buf 0 b pos bytes; Some (s32 bytes, buf, pos + bytes).

(** [data] as the argument of [krealloc]. *)
Definition old_block (c : contents) : option (option (list Z)) := match c with Null => Some None | Block b => Some (Some b) | _ => None end.

Definition ramfs_file_write x (buf : list Z) (count pos : Z) (mem : Z -> option (list Z)) : option (Z * inode * Z) :=
  if pos <? 0 then Some (-1, x, pos)
  else
    let put x := if count =? 0 then Some (0, x, pos) else b ← block_of (data x); b ← blit b pos buf 0 count; Some (s32 count, with_data (Block b) x, pos + count) in
    if size x <? pos + count then
      old ← old_block (data x);
      match krealloc old (u32 (pos + count)) mem with
      | NoMemory => Some (-1, x, pos)
      | Released => Some (-1, with_data Dangling x, pos)
      | NewBlock b =>
          b ← (if size x <? pos then blit b (size x) (replicate (Z.to_nat (u32 (pos - size x))) 0) 0 (u32 (pos - size x)) else Some b);
          let x := with_size (u32 (pos + count)) (with_data (Block b) x) in
          put (with_i_size (size x) x)
      end
    else put x.

(** [pos] is the position of the file; the result and the new position. *)
Definition ramfs_file_llseek x (pos offset whence : Z) : Z * Z :=
  let p := if whence =? SEEK_SET then Some offset else if whence =? SEEK_CUR then Some (pos + offset) else if whence =? SEEK_END then Some (size x + offset) else None in
  match p with Some p => if p <? 0 then (-1, pos) else (p, p) | None => (-1, pos) end.

(** The loop over the entries from [i] on, with the [actor], which changes [w]. *)
Fixpoint iterate {W} (actor : list Z -> Z -> Z -> Z -> d_type -> W -> bool * W) (n : nat) (i : Z) (entries : option (list dirent)) (pos : Z) (w : W) : option (Z * W) :=
  match n with
  | O => Some (pos, w)
  | S n =>
      if i <? pos then iterate actor n (i + 1) entries pos w
      else
        l ← entries;
        d ← aget l i;
        nm ← name d;
        let '(more, w) := actor nm (dlen d) i (ino d) (dtype d) w in
        if (more : bool) then iterate actor n (i + 1) entries (i + 1) w else Some (pos, w)
  end.

Definition ramfs_dir_iterate {W} (actor : list Z -> Z -> Z -> Z -> d_type -> W -> bool * W) x (pos : Z) (w : W) : option (Z * Z * W) :=
  match data x with
  | Null => Some (0, pos, w)
  | Directory count entries => r ← iterate actor (Z.to_nat count) 0 entries pos w; Some (0, r.1, r.2)
  | _ => None
  end.

(** ** Directories: [dir.c] *)

Definition name_matches (nm : list Z) (len : Z) d : option bool := if dlen d =? len then b ← name d; same_bytes len b nm else Some false.

(** The index of the first entry from [i] on with the name. *)
Fixpoint find_entry (n : nat) (i : Z) (nm : list Z) (len : Z) (entries : option (list dirent)) : option (option Z) :=
  match n with
  | O => Some None
  | S n => l ← entries; d ← aget l i; b ← name_matches nm len d; if (b : bool) then Some (Some i) else find_entry n (i + 1) nm len entries
  end.

Definition ramfs_find_dirent x (nm : list Z) (len : Z) : option (option dirent) :=
  match data x with
  | Null => Some None
  | Directory count entries =>
      r ← find_entry (Z.to_nat count) 0 nm len entries;
      match r with Some i => l ← entries; d ← aget l i; Some (Some d) | None => Some None end
  | _ => None
  end.

Definition entry_type (mode : Z) : d_type :=
  if S_IS S_IFDIR mode then DT_DIR else if S_IS S_IFREG mode then DT_REG else if S_IS S_IFLNK mode then DT_LNK else if S_IS S_IFBLK mode then DT_BLK
  else if S_IS S_IFCHR mode then DT_CHR else if S_IS S_IFIFO mode then DT_FIFO else if S_IS S_IFSOCK mode then DT_SOCK else DT_UNKNOWN.

(** Memory: for the directory, for [n] entries, and for the bytes of the name. *)
Record memory := mk_memory { mem_dir : bool; mem_entries : Z -> option (list dirent); mem_bytes : Z -> option (list Z) }.
Implicit Types (mem : memory).

(** The inode [y] is entered into the directory [x]. *)
Definition ramfs_add_dirent x (nm : list Z) (len : Z) (y : inode) mem : option (Z * inode) :=
  match (match data x with Null => if mem_dir mem then Some (Some (with_data (Directory 0 None) x)) else Some None | Directory _ _ => Some (Some x) | _ => None end) with
  | None => None
  | Some None => Some (-1, x)
  | Some (Some x) =>
      r ← ramfs_find_dirent x nm len;
      match r with
      | Some _ => Some (-1, x)
      | None =>
          match data x with
          | Directory count entries =>
              match krealloc entries (count + 1) (mem_entries mem) with
              | NoMemory => Some (-1, x)
              | Released => Some (-1, with_data (Directory count None) x)
              | NewBlock l =>
                  d ← aget l count;
                  match mem_bytes mem (len + 1) with
                  | None => l ← aset l count (mk_dirent None (dlen d) (ino d) (dtype d) (dmode d)); Some (-1, with_data (Directory count (Some l)) x)
                  | Some b =>
                      b ← blit b 0 nm 0 len;
                      b ← aset b len 0;
                      l ← aset l count (mk_dirent (Some b) len (i_ino y) (entry_type (i_mode y)) (i_mode y));
                      Some (0, with_data (Directory (count + 1) (Some l)) x)
                  end
              end
          | _ => None
          end
      end
  end.

(** The entries behind [i] move down by one. *)
Fixpoint move_down (n : nat) (i : Z) (l : list dirent) : option (list dirent) :=
  match n with O => Some l | S n => d ← aget l (i + 1); l ← aset l i d; move_down n (i + 1) l end.

Definition ramfs_remove_dirent x (nm : list Z) (len : Z) mem : option (Z * inode) :=
  match data x with
  | Null => Some (-1, x)
  | Directory count entries =>
      r ← find_entry (Z.to_nat count) 0 nm len entries;
      match r with
      | None => Some (-1, x)
      | Some i =>
          l ← entries;
          l ← move_down (Z.to_nat (count - 1 - i)) i l;
          let count := count - 1 in
          if count =? 0 then Some (0, with_data (Directory 0 None) x)
          else
            match krealloc (Some l) count (mem_entries mem) with
            | NewBlock l => Some (0, with_data (Directory count (Some l)) x)
            | _ => Some (0, with_data (Directory count (Some l)) x)
            end
      end
  | _ => None
  end.

Definition ramfs_empty_dir x : option bool := match data x with Null => Some true | Directory count _ => Some (count =? 0) | _ => None end.

(** [sym] has the characters of the target, without its terminator. *)
Definition ramfs_set_link x (sym : list Z) mem : option (Z * inode) :=
  match mem_bytes mem (len sym + 1) with
  | None => Some (-1, x)
  | Some b => b ← blit b 0 sym 0 (len sym); b ← aset b (len sym) 0; Some (0, with_i_size (len sym) (with_size (len sym) (with_data (Block b) x)))
  end.

Definition ramfs_get_link x : contents := data x.

(** ** Inodes: [super.c] *)

(** What [new_inode] of the VFS returns: the address, and an inode that was set up by
    [ramfs_alloc_inode] and given a number. *)
Definition ramfs_alloc_inode (number links : Z) : inode := mk_inode number 0 links 0 0 0 0 0 0 Null 0.

Definition ramfs_get_inode (fresh : option (Z * inode)) (mode now : Z) : option (Z * inode) :=
  match fresh with
  | None => None
  | Some (a, y) => Some (a, mk_inode (i_ino y) mode (i_nlink y) 0 0 (i_size y) now now now (data y) (size y))
  end.

(** ** Names: [inode.c] *)

Record dentry := mk_dentry { d_name : list Z; d_inode : option Z }.
Record fs := mk_fs { inodes : gmap Z inode; dentries : gmap Z dentry }.
Implicit Types (s : fs) (a dir e : Z).

Definition with_inodes (m : gmap Z inode) s : fs := mk_fs m (dentries s).
Definition set_inode a x s : fs := with_inodes (<[a := x]> (inodes s)) s.

(** The functions of the VFS that are called; they are not in the tree. *)
Class Vfs := { d_instantiate : Z -> Z -> fs -> fs; d_add : Z -> Z -> fs -> fs; iput : Z -> fs -> fs }.
Context `{Vfs}.

(** Enter the inode [y] at [a] under the name of the dentry; on failure it is given back. *)
Definition enter dir e a (mem : memory) s : option (Z * fs) :=
  x ← inodes s !! dir;
  n ← dentries s !! e;
  y ← inodes s !! a;
  '(r, x) ← ramfs_add_dirent x (d_name n) (len (d_name n)) y mem;
  let s := set_inode dir x s in
  Some (if negb (r =? 0) then (r, iput a s) else (0, d_instantiate e a s)).

(** [ramfs_create], [ramfs_mknod] and, with the type of a directory in [mode],
    [ramfs_mkdir]. *)
Definition create_node dir e (fresh : option (Z * inode)) (mode now : Z) mem s : option (Z * fs) :=
  match ramfs_get_inode fresh mode now with
  | None => Some (-1, s)
  | Some (a, y) => enter dir e a mem (set_inode a y s)
  end.

Definition ramfs_create dir e fresh (mode now : Z) mem s := create_node dir e fresh mode now mem s.
Definition ramfs_mknod dir e fresh (mode now : Z) mem s := create_node dir e fresh mode now mem s.
Definition ramfs_mkdir dir e fresh (mode now : Z) mem s := create_node dir e fresh (Z.lor S_IFDIR mode) now mem s.

Definition ramfs_symlink dir e fresh (now : Z) (sym : list Z) (mem_link : memory) mem s : option (Z * fs) :=
  match ramfs_get_inode fresh (Z.lor S_IFLNK 0x1FF) now with
  | None => Some (-1, s)
  | Some (a, y) =>
      '(r, y) ← ramfs_set_link y sym mem_link;
      let s := set_inode a y s in
      if negb (r =? 0) then Some (r, iput a s) else enter dir e a mem s
  end.

(** The inode that is found is a new one. *)
Definition ramfs_lookup dir e (fresh : option (Z * inode)) (now : Z) s : option fs :=
  x ← inodes s !! dir;
  n ← dentries s !! e;
  r ← ramfs_find_dirent x (d_name n) (len (d_name n));
  match r with
  | None => Some s
  | Some d => match ramfs_get_inode fresh (dmode d) now with None => Some s | Some (a, y) => Some (d_add e a (set_inode a (with_ino (ino d) y) s)) end
  end.

Definition ramfs_link (old : Z) dir e mem s : option (Z * fs) :=
  o ← dentries s !! old;
  match d_inode o with
  | None => Some (-1, s)
  | Some a =>
      y ← inodes s !! a;
      let s := set_inode a (add_links 1 y) s in
      x ← inodes s !! dir;
      n ← dentries s !! e;
      y ← inodes s !! a;
      '(r, x) ← ramfs_add_dirent x (d_name n) (len (d_name n)) y mem;
      let s := set_inode dir x s in
      if negb (r =? 0) then y ← inodes s !! a; Some (r, set_inode a (add_links (-1) y) s) else Some (0, d_instantiate e a s)
  end.

(** What [ramfs_unlink] and [ramfs_rmdir] have in common. *)
Definition remove_name dir e a mem s : option (Z * fs) :=
  x ← inodes s !! dir;
  n ← dentries s !! e;
  '(r, x) ← ramfs_remove_dirent x (d_name n) (len (d_name n)) mem;
  let s := set_inode dir x s in
  if negb (r =? 0) then Some (r, s) else y ← inodes s !! a; Some (0, set_inode a (add_links (-1) y) s).

Definition ramfs_unlink dir e mem s : option (Z * fs) :=
  n ← dentries s !! e;
  match d_inode n with None => Some (-1, s) | Some a => remove_name dir e a mem s end.

Definition ramfs_rmdir dir e mem s : option (Z * fs) :=
  n ← dentries s !! e;
  match d_inode n with
  | None => Some (-1, s)
  | Some a => y ← inodes s !! a; empty ← ramfs_empty_dir y; if negb empty then Some (-1, s) else remove_name dir e a mem s
  end.

(** [mem], [mem_new] and [mem_back]: for removing, entering and entering again. *)
Definition ramfs_rename old_dir (old : Z) new_dir (new : Z) mem (mem_new mem_back : memory) s : option (Z * fs) :=
  o ← dentries s !! old;
  match d_inode o with
  | None => Some (-1, s)
  | Some a =>
      x ← inodes s !! old_dir;
      '(r, x) ← ramfs_remove_dirent x (d_name o) (len (d_name o)) mem;
      let s := set_inode old_dir x s in
      if negb (r =? 0) then Some (r, s)
      else
        n ← dentries s !! new;
        x ← inodes s !! new_dir;
        y ← inodes s !! a;
        '(r, x) ← ramfs_add_dirent x (d_name n) (len (d_name n)) y mem_new;
        let s := set_inode new_dir x s in
        if negb (r =? 0) then
          x ← inodes s !! old_dir;
          y ← inodes s !! a;
          '(_, x) ← ramfs_add_dirent x (d_name o) (len (d_name o)) y mem_back;
          Some (r, set_inode old_dir x s)
        else Some (0, s)
  end.

(** The members of [kstat] that come from the inode: number, mode, links, owner, size and
    blocks. *)
Record kstat := mk_stat { st_ino : Z; st_mode : Z; st_nlink : Z; st_uid : Z; st_gid : Z; st_size : Z; st_atime : Z; st_mtime : Z; st_ctime : Z; st_blksize : Z; st_blocks : Z }.

Definition ramfs_getattr x : kstat :=
  mk_stat (i_ino x) (i_mode x) (i_nlink x) (i_uid x) (i_gid x) (size x) (i_atime x) (i_mtime x) (i_ctime x) PAGE_SIZE (u32 (size x + PAGE_SIZE - 1) / PAGE_SIZE).

Record iattr := mk_attr { ia_valid : Z; ia_mode : Z; ia_uid : Z; ia_gid : Z; ia_size : Z; ia_atime : Z; ia_mtime : Z; ia_ctime : Z }.

(** The part for [ATTR_SIZE]: [None] is a fault, [Some None] an error. *)
Definition set_size x (n : Z) (mem : Z -> option (list Z)) : option (option inode * inode) :=
  if n <? size x then let x := with_size (u32 n) x in let x := with_i_size (size x) x in Some (Some x, x)
  else if size x <? n then
    old ← old_block (data x);
    match krealloc old (u32 n) mem with
    | NoMemory => Some (None, x)
    | Released => Some (None, with_data Dangling x)
    | NewBlock b =>
        b ← blit b (size x) (replicate (Z.to_nat (u32 (n - size x))) 0) 0 (u32 (n - size x));
        let x := with_size (u32 n) (with_data (Block b) x) in
        let x := with_i_size (size x) x in Some (Some x, x)
    end
  else let x := with_i_size (size x) x in Some (Some x, x).

Definition ramfs_setattr x (t : iattr) (mem : Z -> option (list Z)) : option (Z * inode) :=
  r ← (if has_flag (ia_valid t) ATTR_SIZE then set_size x (ia_size t) mem else Some (Some x, x));
  match r with
  | (None, x) => Some (-1, x)
  | (Some x, _) =>
      let pick (flag v w : Z) : Z := if has_flag (ia_valid t) flag then v else w in
      Some (0, mk_inode (i_ino x) (pick ATTR_MODE (ia_mode t) (i_mode x)) (i_nlink x) (pick ATTR_UID (ia_uid t) (i_uid x)) (pick ATTR_GID (ia_gid t) (i_gid x)) (i_size x)
        (pick ATTR_ATIME (ia_atime t) (i_atime x)) (pick ATTR_MTIME (ia_mtime t) (i_mtime x)) (pick ATTR_CTIME (ia_ctime t) (i_ctime x)) (data x) (size x))
  end.

End Ramfs.

End Ramfs.
