(* ===== verification/RamfsFile.v ===== *)
(** Files in memory as lists of bytes: reading, writing and changing the size. *)

From S2P Require Import Prelude Bytes Ramfs.

Module RamfsFile.
Import Bytes Ramfs.

(** What is left of the contents [c] of a file when its block is reallocated to one that was
    [fresh]. *)
Class Kept `{Realloc} := {
  kept : list Z -> list Z -> list Z;
  kept_ok : forall (old fresh c : list Z), take (length c) old = c -> (length c <= length old)%nat -> (length c <= length fresh)%nat -> take (length c) (keep old fresh) = kept c fresh;
  kept_length : forall c fresh : list Z, (length c <= length fresh)%nat -> length (kept c fresh) = length c;
  keep_length : forall old fresh : list Z, length (keep old fresh) = length fresh
}.

(** [krealloc] of [mm/slab.c] leaves what was in the new block. *)
#[export] Instance slab_kept : @Kept slab_realloc.
Proof. refine {| kept := fun c fresh => take (length c) fresh |}; [done| |done]. intros c fresh Hl. rewrite length_take. lia. Defined.

(** One that fulfils its contract leaves the contents. *)
#[export] Instance true_kept : @Kept true_realloc.
Proof.
  refine {| kept := fun c _ => c |}; [|done|].
  - intros old fresh c Ht Ho Hf. unfold keep, true_realloc. rewrite take_app_le by (rewrite length_take; lia). by rewrite take_take, Nat.min_l by lia.
  - intros old fresh. unfold keep, true_realloc. rewrite length_app, length_take, length_drop. lia.
Defined.

Section Files.
Context `{Kept}.
Implicit Types (x : inode) (c buf : list Z) (n pos count : Z) (mem : Z -> option (list Z)).

(** ** Representation *)

(** The block has at least the bytes of the file. *)
Record file_rep x c : Prop := {
  fr_data : match data x with Null => c = [] | Block b => take (length c) b = c /\ (length c <= length b)%nat | _ => False end;
  fr_size : size x = len c;
  fr_small : len c < 2 ^ 32
}.

(** [kmalloc] gives blocks of the size that was asked for. *)
Definition honest mem : Prop := forall n b, 0 <= n -> mem n = Some b -> len b = n.

(** A file that is as long as [n] at least, with zeros behind its end. *)
Definition extend n c : list Z := c ++ replicate (Z.to_nat n - length c) 0.

Definition write_at pos buf c : list Z := take (Z.to_nat pos) (extend pos c) ++ buf ++ drop (Z.to_nat pos + length buf) c.

Lemma extend_length n c : 0 <= n -> len (extend n c) = Z.max n (len c).
Proof. intros Hn. unfold extend. rewrite length_app, length_replicate. lia. Qed.

Lemma extend_short n c : 0 <= n <= len c -> extend n c = c.
Proof. intros Hn. unfold extend. replace (Z.to_nat n - length c)%nat with 0%nat by lia. apply app_nil_r. Qed.

Lemma ramfs_write_length pos buf c : 0 <= pos -> len (write_at pos buf c) = Z.max (pos + len buf) (len c).
Proof. intros Hp. pose proof (extend_length pos c Hp). unfold write_at. rewrite !length_app, length_take, length_drop. lia. Qed.

(** The block after reallocation starts with what is left of the file. *)
Lemma realloc_prefix x c n mem b : file_rep x c -> honest mem -> len c <= n -> 0 < n -> mem n = Some b ->
  exists old b', old_block (data x) = Some old /\ krealloc old n mem = NewBlock b' /\ len b' = n /\ take (length c) b' = kept c b.
Proof.
  intros [Hd _ _] Hm Hle Hn Hb. pose proof (Hm n b ltac:(lia) Hb) as Hl. destruct (data x) as [|o| |]; try done; cbn [old_block].
  - exists None, b. cbn. rewrite Hb. split; [done|]. split; [done|]. split; [done|]. subst c. symmetry. apply nil_length_inv. rewrite kept_length; cbn; [done|lia].
  - destruct Hd as [Ht Ho]. exists (Some o), (keep o b). unfold krealloc. destruct (Z.eqb_spec n 0); [lia|]. rewrite Hb. split; [done|]. split; [done|]. rewrite keep_length. split; [done|]. apply kept_ok; [done|done|lia].
Qed.

(** No memory: nothing changes. *)
Lemma realloc_fails x c n mem : file_rep x c -> 0 < n -> mem n = None -> exists old, old_block (data x) = Some old /\ krealloc old n mem = NoMemory.
Proof.
  intros [Hd _ _] Hn Hb. destruct (data x) as [|o| |]; try done; cbn [old_block]; eexists; (split; [done|]); unfold krealloc; [by rewrite Hb|]. destruct (Z.eqb_spec n 0); [lia|]. by rewrite Hb.
Qed.

(** Zeros between the end of the file and [n]. *)
Lemma zero_fill c n b : len c <= n <= len b -> take (length c) b = c ->
  exists b', blit b (len c) (replicate (Z.to_nat (n - len c)) 0) 0 (n - len c) = Some b' /\ length b' = length b /\ take (Z.to_nat n) b' = extend n c.
Proof.
  intros Hn Ht. unfold blit. rewrite length_replicate. destruct (Z.leb_spec (len c + (n - len c)) (len b)), (Z.leb_spec (0 + (n - len c)) (Z.of_nat (Z.to_nat (n - len c)))); try lia. cbn [andb].
  eexists. split; [done|]. change (Z.to_nat 0) with 0%nat. rewrite drop_0, Nat2Z.id, Ht. split.
  - rewrite !length_app, length_take, length_replicate, length_drop. lia.
  - unfold extend. rewrite take_ge with (n := Z.to_nat (n - len c)) by (rewrite length_replicate; lia). rewrite app_assoc, take_app_le by (rewrite length_app, length_replicate; lia).
    rewrite take_ge by (rewrite length_app, length_replicate; lia). f_equal. f_equal. lia.
Qed.

(** Copying into a block that is long enough. *)
Lemma put_block c pos buf b : 0 <= pos -> Z.max (pos + len buf) (len c) <= len b -> take (Z.to_nat (Z.max pos (len c))) b = extend pos c ->
  exists b', blit b pos buf 0 (len buf) = Some b' /\ length b' = length b /\ take (length (write_at pos buf c)) b' = write_at pos buf c.
Proof.
  intros Hp Hb Ht. pose proof (ramfs_write_length pos buf c Hp) as Hw. unfold blit. destruct (Z.leb_spec (pos + len buf) (len b)), (Z.leb_spec (0 + len buf) (len buf)); try lia. cbn [andb]. eexists. split; [done|].
  change (Z.to_nat 0) with 0%nat. rewrite drop_0, Nat2Z.id, firstn_all. split; [rewrite !length_app, length_take, length_drop; lia|].
  assert (take (Z.to_nat pos) b = take (Z.to_nat pos) (extend pos c)) as Epre by (rewrite <-Ht, take_take, Nat.min_l by lia; done).
  replace (length (write_at pos buf c)) with (Z.to_nat (Z.max (pos + len buf) (len c))) by lia. clear Hw. rewrite app_assoc. rewrite take_app_ge by (rewrite length_app, length_take; lia). rewrite length_app, length_take, Nat.min_l by lia.
  unfold write_at. rewrite <-app_assoc, <-Epre. f_equal. f_equal. destruct (Z.le_gt_cases (len c) (pos + len buf)).
  - rewrite drop_ge with (l := c) by lia. by replace (Z.to_nat (Z.max (pos + len buf) (len c)) - (Z.to_nat pos + length buf))%nat with 0%nat by lia.
  - rewrite extend_short, Z.max_r, Nat2Z.id in Ht by lia. rewrite take_drop_commute. replace (Z.to_nat (pos + len buf) + (Z.to_nat (Z.max (pos + len buf) (len c)) - (Z.to_nat pos + length buf)))%nat with (length c) by lia.
    rewrite Ht. f_equal. lia.
Qed.

(** ** Operations *)

Definition spec_write pos buf mem c : Z * Z * list Z :=
  if len c <? pos + len buf then match mem (pos + len buf) with Some b => (s32 (len buf), pos + len buf, write_at pos buf (kept c b)) | None => (-1, pos, c) end
  else (s32 (len buf), pos + len buf, write_at pos buf c).

Lemma write_inside pos c : 0 <= pos <= len c -> write_at pos [] c = c.
Proof. intros Hp. unfold write_at. rewrite extend_short by done. cbn [app length]. rewrite Nat.add_0_r. apply take_drop. Qed.

Lemma write_empty pos c : len c <= pos -> write_at pos [] c = extend pos c.
Proof. intros Hp. pose proof (extend_length pos c) as He. unfold write_at. cbn [app length]. rewrite drop_ge, app_nil_r by lia. apply take_ge. lia. Qed.

Lemma write_block x c pos buf b : 0 <= pos -> pos + len buf < 2 ^ 32 -> len c < 2 ^ 32 -> data x = Block b -> size x = Z.max (pos + len buf) (len c) -> size x <= len b -> take (Z.to_nat (Z.max pos (len c))) b = extend pos c ->
  exists x', (if len buf =? 0 then Some (0, x, pos) else b ← block_of (data x); b ← blit b pos buf 0 (len buf); Some (s32 (len buf), with_data (Block b) x, pos + len buf)) = Some (s32 (len buf), x', pos + len buf) /\
    file_rep x' (write_at pos buf c).
Proof.
  intros Hp Hs Hsm Hd Hz Hb Ht. pose proof (ramfs_write_length pos buf c Hp) as Hwl. destruct (put_block c pos buf b) as (b' & E & Hl & Ht'); [done|lia|done|]. destruct (Z.eqb_spec (len buf) 0) as [E0|E0].
  - destruct buf as [|? ?]; [|cbn in E0; lia]. exists x. split; [f_equal; f_equal; cbn; lia|]. unfold blit in E. cbn in E. case_match; [|done]. injection E as E. change (Z.to_nat 0) with 0%nat in E. rewrite Z.add_0_r, take_drop in E. subst b'.
    split; [rewrite Hd; split; [done|lia]|lia|lia].
  - rewrite Hd. cbn [block_of]. rewrite bind_Some_l, E, bind_Some_l. eexists. split; [done|]. split; cbn; [split; [done|lia]|lia|lia].
Qed.

Lemma ramfs_write_ok x c pos buf mem : file_rep x c -> honest mem -> 0 <= pos -> pos + len buf < 2 ^ 32 ->
  exists x', ramfs_file_write x buf (len buf) pos mem = Some ((spec_write pos buf mem c).1.1, x', (spec_write pos buf mem c).1.2) /\ file_rep x' (spec_write pos buf mem c).2.
Proof.
  intros HF Hm Hp Hs. pose proof HF as [Hd Hz Hsm]. unfold ramfs_file_write, spec_write. destruct (Z.ltb_spec pos 0); [lia|]. rewrite Hz. destruct (Z.ltb_spec (len c) (pos + len buf)) as [Hg|Hg]; cycle 1.
  - cbn [fst snd]. destruct (data x) as [|b| |] eqn:Ed; try done.
    + subst c. assert (pos = 0 /\ buf = []) as [-> ->] by (destruct buf; cbn in *; [split; [lia|done]|lia]). exists x. rewrite <-Ed. split; [done|]. split; [by rewrite Ed|done|done].
    + destruct Hd as [Ht Hl]. rewrite <-Ed. apply (write_block x c pos buf b); try done; [lia|lia|]. rewrite Z.max_r, Nat2Z.id, extend_short by lia. done.
  - rewrite u32_small by lia. destruct (mem (pos + len buf)) as [b0|] eqn:Eb; [|destruct (realloc_fails x c (pos + len buf) mem HF) as (old & Eo & Ek); [lia|done|]; rewrite Eo, bind_Some_l, Ek; by exists x].
    destruct (realloc_prefix x c (pos + len buf) mem b0 HF Hm) as (old & b & Eo & Ek & Hl & Ht); [lia|lia|exact Eb|]. rewrite Eo, bind_Some_l, Ek.
    pose proof (Hm (pos + len buf) b0 ltac:(lia) Eb) as Hb0. pose proof (kept_length c b0 ltac:(lia)) as Hk. rewrite <-Hk in Ht |- *. rewrite <-Hk in Hg. set (k := kept c b0) in *. clearbody k. assert (len k < 2 ^ 32) as Hks by lia. clear Hk Hsm HF Hd Hz c. rename k into c.
    assert (exists b1, (if len c <? pos then blit b (len c) (replicate (Z.to_nat (u32 (pos - len c))) 0) 0 (u32 (pos - len c)) else Some b) = Some b1 /\ len b1 = pos + len buf /\ take (Z.to_nat (Z.max pos (len c))) b1 = extend pos c) as (b1 & E1 & Hl1 & Ht1).
    { destruct (Z.ltb_spec (len c) pos); [|exists b; split; [done|]; split; [done|]; rewrite Z.max_r by lia; rewrite extend_short by lia; by rewrite Nat2Z.id]. rewrite u32_small by lia.
      destruct (zero_fill c pos b) as (b1 & E1 & Hl1 & Ht1); [lia|done|]. exists b1. split; [done|]. split; [lia|]. by rewrite Z.max_l by lia. }
    rewrite E1, bind_Some_l. cbn [fst snd]. apply (write_block _ c pos buf b1); cbn; try done; lia.
Qed.

Definition spec_read pos count buf c : Z * Z * list Z :=
  if (pos <? 0) || (len c <? pos) then (0, pos, buf)
  else let k := Z.min count (len c - pos) in (s32 k, pos + k, take (Z.to_nat k) (drop (Z.to_nat pos) c) ++ drop (Z.to_nat k) buf).

Lemma ramfs_read_ok x c pos count buf : file_rep x c -> 0 <= count <= len buf ->
  ramfs_file_read x buf count pos = Some ((spec_read pos count buf c).1.1, (spec_read pos count buf c).2, (spec_read pos count buf c).1.2).
Proof.
  intros [Hd Hz Hsm] Hc. unfold ramfs_file_read, spec_read. rewrite Hz. destruct ((pos <? 0) || (len c <? pos)) eqn:Ep; [done|]. apply orb_false_iff in Ep as [P1%Z.ltb_ge P2%Z.ltb_ge].
  assert ((if len c <? pos + count then u32 (len c - pos) else count) = Z.min count (len c - pos)) as -> by (destruct (Z.ltb_spec (len c) (pos + count)); [rewrite u32_small by lia; lia|lia]).
  cbv zeta. set (k := Z.min count (len c - pos)). destruct (Z.eqb_spec k 0) as [E0|E0]; [cbn [fst snd]; rewrite E0; cbn; by rewrite Z.add_0_r|].
  destruct (data x) as [|b| |]; try done; [subst c; cbn in *; lia|]. destruct Hd as [Ht Hl]. cbn [block_of]. rewrite bind_Some_l.
  unfold blit. destruct (Z.leb_spec (0 + k) (len buf)), (Z.leb_spec (pos + k) (len b)); try lia. cbn [andb]. rewrite bind_Some_l. cbn [fst snd]. change (Z.to_nat 0) with 0%nat. rewrite take_0. cbn [app]. f_equal. f_equal. f_equal. f_equal.
  assert (drop (Z.to_nat pos) c = take (length c - Z.to_nat pos) (drop (Z.to_nat pos) b)) as -> by (rewrite <-Ht at 1; apply skipn_firstn_comm). rewrite take_take. f_equal. lia.
Qed.

Definition spec_truncate n mem c : Z * list Z := 
  if n <? len c then (0, take (Z.to_nat n) c) else if len c <? n then match mem n with Some b => (0, extend n (kept c b)) | None => (-1, c) end else (0, c).

Lemma truncate_ok x c n mem : file_rep x c -> honest mem -> 0 <= n < 2 ^ 32 ->
  exists o x', set_size x n mem = Some (o, x') /\ (o = if (spec_truncate n mem c).1 =? 0 then Some x' else None) /\ file_rep x' (spec_truncate n mem c).2.
Proof.
  intros HF Hm Hn. pose proof HF as [Hd Hz Hsm]. unfold set_size, spec_truncate. rewrite Hz. destruct (Z.ltb_spec n (len c)) as [Hl|Hl].
  - do 2 eexists. split; [done|]. split; [done|]. rewrite u32_small by lia. split; cbn; rewrite ?length_take; [|lia|lia]. destruct (data x) as [|b| |]; try done; [by rewrite Hd, take_nil|]. destruct Hd as [Ht Hb].
    split; [|lia]. rewrite Nat.min_l by lia. transitivity (take (Z.to_nat n) (take (length c) b)); [by rewrite take_take, Nat.min_l by lia|by rewrite Ht].
  - destruct (Z.ltb_spec (len c) n) as [Hg|Hg]; [|do 2 eexists; by repeat split].
    rewrite u32_small by lia. destruct (mem n) as [b0|] eqn:Eb; [|destruct (realloc_fails x c n mem HF) as (old & Eo & Ek); [lia|done|]; rewrite Eo, bind_Some_l, Ek; by exists None, x].
    destruct (realloc_prefix x c n mem b0 HF Hm) as (old & b & Eo & Ek & Hlb & Ht); [lia|lia|exact Eb|]. rewrite Eo, bind_Some_l, Ek, u32_small by lia.
    pose proof (Hm n b0 ltac:(lia) Eb) as Hb0. pose proof (kept_length c b0 ltac:(lia)) as Hk. rewrite <-Hk in Ht |- *. destruct (zero_fill (kept c b0) n b) as (b1 & E1 & Hl1 & Ht1); [lia|done|].
    rewrite E1, bind_Some_l. do 2 eexists. split; [done|]. split; [done|]. pose proof (extend_length n (kept c b0)) as He.
    split; cbn; [|lia|lia]. replace (length (extend n (kept c b0))) with (Z.to_nat n) by lia. split; [done|lia].
Qed.

(** ** Sequences of calls *)

(** [pos] is the position of the caller's file; a write sets the size of the memory it may
    ask for. *)
Inductive op := Write (buf : list Z) (pos : Z) (mem : Z -> option (list Z)) | Read (buf : list Z) (count pos : Z) | Truncate (n : Z) (mem : Z -> option (list Z)) | Seek (pos offset whence : Z).
Inductive answer := Wrote (r pos : Z) | Got (r pos : Z) (buf : list Z) | Sized (r : Z) | Sought (r pos : Z).

Definition size_only (n : Z) : iattr := mk_attr ATTR_SIZE 0 0 0 n 0 0 0.

Definition perform (o : op) x : option (answer * inode) :=
  match o with
  | Write buf pos mem => r ← ramfs_file_write x buf (len buf) pos mem; Some (Wrote r.1.1 r.2, r.1.2)
  | Read buf count pos => r ← ramfs_file_read x buf count pos; Some (Got r.1.1 r.2 r.1.2, x)
  | Truncate n mem => r ← ramfs_setattr x (size_only n) mem; Some (Sized r.1, r.2)
  | Seek pos offset whence => let r := ramfs_file_llseek x pos offset whence in Some (Sought r.1 r.2, x)
  end.

Definition spec_seek pos offset whence c : Z * Z :=
  let p := match whence with 0 => offset | 1 => pos + offset | 2 => len c + offset | _ => -1 end in if p <? 0 then (-1, pos) else (p, p).

Definition spec (o : op) c : answer * list Z :=
  match o with
  | Write buf pos mem => let r := spec_write pos buf mem c in (Wrote r.1.1 r.1.2, r.2)
  | Read buf count pos => let r := spec_read pos count buf c in (Got r.1.1 r.1.2 r.2, c)
  | Truncate n mem => let r := spec_truncate n mem c in (Sized r.1, r.2)
  | Seek pos offset whence => let r := spec_seek pos offset whence c in (Sought r.1 r.2, c)
  end.

(** Positions stay below 4 GB, and reads have the room they ask for. *)
Definition allowed (o : op) : Prop :=
  match o with
  | Write buf pos mem => honest mem /\ 0 <= pos /\ pos + len buf < 2 ^ 32
  | Read buf count pos => 0 <= count <= len buf
  | Truncate n mem => honest mem /\ 0 <= n < 2 ^ 32
  | Seek _ _ whence => 0 <= whence
  end.

Fixpoint run (os : list op) x : option (list answer * inode) := match os with [] => Some ([], x) | o :: os => r ← perform o x; q ← run os r.2; Some (r.1 :: q.1, q.2) end.
Fixpoint spec_run (os : list op) c : list answer * list Z := match os with [] => ([], c) | o :: os => let r := spec o c in let q := spec_run os r.2 in (r.1 :: q.1, q.2) end.

Lemma file_rep_attrs x c y : file_rep x c -> data y = data x -> size y = size x -> file_rep y c.
Proof. intros [H1 H2 H3] Ed Es. split; rewrite ?Ed, ?Es; done. Qed.

Lemma file_perform_ok o x c : file_rep x c -> allowed o -> exists x', perform o x = Some ((spec o c).1, x') /\ file_rep x' (spec o c).2.
Proof.
  intros HF Ha. destruct o as [buf pos mem|buf count pos|n mem|pos offset whence]; cbn [perform spec allowed fst snd] in *.
  - destruct Ha as (Hm & Hp & Hs). destruct (ramfs_write_ok x c pos buf mem HF Hm Hp Hs) as (x' & E & H'). rewrite E, bind_Some_l. by exists x'.
  - rewrite (ramfs_read_ok x c pos count buf HF Ha), bind_Some_l. by exists x.
  - destruct Ha as (Hm & Hn). destruct (truncate_ok x c n mem HF Hm Hn) as (o & x' & E & Eo & H'). unfold ramfs_setattr. change (has_flag (ia_valid (size_only n)) ATTR_SIZE) with true. cbn [ia_size size_only]. rewrite E, bind_Some_l, Eo.
    assert ((spec_truncate n mem c).1 = 0 \/ (spec_truncate n mem c).1 = -1) as [E0|E0] by (unfold spec_truncate; repeat case_match; auto); rewrite E0; cbn; eexists; (split; [done|]); [by eapply file_rep_attrs|done].
  - exists x. split; [|done]. unfold ramfs_file_llseek, spec_seek. rewrite (fr_size _ _ HF). unfold SEEK_SET, SEEK_CUR, SEEK_END. destruct whence as [|[p|p|]|]; try lia; try done; by destruct p.
Qed.

Lemma file_run_ok os x c : file_rep x c -> Forall allowed os -> exists x', run os x = Some ((spec_run os c).1, x') /\ file_rep x' (spec_run os c).2.
Proof.
  revert x c. induction os as [|o os IH]; intros x c HF Ha; [by exists x|]. apply Forall_cons in Ha as [Ho Ha]. destruct (file_perform_ok o x c HF Ho) as (x1 & E1 & H1). destruct (IH x1 _ H1 Ha) as (x2 & E2 & H2).
  exists x2. cbn [run spec_run]. rewrite E1, bind_Some_l. cbn [fst snd]. by rewrite E2, bind_Some_l.
Qed.

End Files.

(** ** The two reallocations *)

(** C12: any sequence of reading, writing, seeking and changing the size of a file in memory, with positions and sizes that are not negative and below 4 GB,
    buffers as long as the reads ask for, and an allocator whose blocks have the size it is asked for,
    refines the same operations on a list of bytes: a write replaces the bytes from its
    position on, with zeros between the old end and the position, or fails without
    changing anything when memory runs out; a read delivers the bytes that are there;
    every operation that makes the file longer first replaces what was in it by what the
    new block happens to hold, as [krealloc] of the slab allocator copies nothing. *)
Theorem ramfs_file_refines os x c : file_rep x c -> Forall allowed os -> exists x', run (H := slab_realloc) os x = Some ((spec_run (H0 := slab_kept) os c).1, x') /\ file_rep x' (spec_run (H0 := slab_kept) os c).2.
Proof. apply file_run_ok. Qed.

(** With a [krealloc] that keeps the contents they survive. *)
Lemma ramfs_file_contract os x c : file_rep x c -> Forall allowed os -> exists x', run (H := true_realloc) os x = Some ((spec_run (H0 := true_kept) os c).1, x') /\ file_rep x' (spec_run (H0 := true_kept) os c).2.
Proof. apply file_run_ok. Qed.

(** ** Examples *)

Definition ex_mem (n : Z) : option (list Z) := if n <? 100 then Some (replicate (Z.to_nat n) 7) else None.
Definition ex_file : inode := ramfs_alloc_inode 5 1.

Lemma ex_honest : honest ex_mem.
Proof. intros n b Hn. unfold ex_mem. case_match; [|done]. intros [= <-]. rewrite length_replicate. lia. Qed.

Lemma ex_file_rep : file_rep ex_file [].
Proof. by split. Qed.

Definition ex_ops : list op := [Write [1; 2; 3] 0 ex_mem; Write [9] 5 ex_mem; Read (replicate 8 0) 8 0; Write [4; 4] 1 ex_mem; Truncate 3 ex_mem; Write [1] 200 ex_mem; Truncate 6 ex_mem; Read [0; 0] 2 2; Seek 0 (-1) 2].

Lemma ramfs_file_refines_witness : exists x', run (H := slab_realloc) ex_ops ex_file =
  Some ([Wrote 3 3; Wrote 1 6; Got 6 6 [7; 7; 7; 0; 0; 9; 0; 0]; Wrote 2 3; Sized 0; Wrote (-1) 200; Sized 0; Got 2 4 [7; 0]; Sought 5 5], x').
Proof.
  destruct (ramfs_file_refines ex_ops ex_file [] ex_file_rep) as (x' & E & _); [unfold ex_ops; repeat (constructor; [cbn; pose proof ex_honest; first [lia|split; [assumption|lia]]|]); constructor|].
  exists x'. rewrite E. vm_compute. reflexivity.
Defined.

(** ** What goes wrong *)

(** With [krealloc] of [mm/slab.c], which copies nothing, a file loses its contents whenever
    it grows. *)
Lemma growing_loses_contents : exists x', run (H := slab_realloc) [Write [1; 2; 3] 0 ex_mem; Write [4] 3 ex_mem; Read [0; 0; 0; 0] 4 0] ex_file = Some ([Wrote 3 3; Wrote 1 4; Got 4 4 [7; 7; 7; 4]], x').
Proof. eexists. vm_compute. reflexivity. Qed.

(** The size is passed to [krealloc] in 32 bits: a write behind 4 GB asks for too little. *)
Lemma write_wraps : ramfs_file_write (H := true_realloc) ex_file [1; 2] 2 (2 ^ 32) ex_mem = None.
Proof. vm_compute. reflexivity. Qed.

(** A negative size is smaller than that of the file, which becomes nearly 4 GB; reading it then runs behind the block. *)
Lemma negative_size : exists x x', ramfs_file_write (H := true_realloc) ex_file [1; 2] 2 0 ex_mem = Some (2, x, 2) /\ ramfs_setattr (H := true_realloc) x (size_only (-1)) ex_mem = Some (0, x') /\
  size x' = 2 ^ 32 - 1 /\ ramfs_file_read x' (replicate 4 0) 4 0 = None.
Proof. do 2 eexists. split; [vm_compute; reflexivity|]. split; [vm_compute; reflexivity|]. split; vm_compute; reflexivity. Qed.

End RamfsFile.
