(* ===== verification/RamfsDir.v ===== *)
(** Directories in memory as lists of names with inode numbers: searching, entering,
    removing and listing, and renaming between directories. *)

From S2P Require Import Prelude Bytes Ramfs.

Module RamfsDir.
Import Bytes Ramfs.

(** ** The abstract directory *)

Record entry := mk_entry { e_name : list Z; e_ino : Z; e_type : d_type; e_mode : Z }.
Implicit Types (l : list entry) (e : entry) (x y : inode) (d : dirent) (es : list dirent) (nm : list Z).

Definition named nm e : bool := bool_decide (e_name e = nm).
Definition has_name nm l : bool := existsb (named nm) l.
Definition without_name nm l : list entry := List.filter (fun e => negb (named nm e)) l.
Definition unique l : Prop := NoDup (map e_name l).

(** The entry for an inode. *)
Definition entry_of nm y : entry := mk_entry nm (i_ino y) (entry_type (i_mode y)) (i_mode y).

Section Dirs.
Context `{ReallocLaws}.

Record dirent_rep d e : Prop := {
  dr_name : exists b, name d = Some b /\ take (length (e_name e)) b = e_name e /\ (length (e_name e) <= length b)%nat;
  dr_len : dlen d = len (e_name e);
  dr_rest : ino d = e_ino e /\ dtype d = e_type e /\ dmode d = e_mode e
}.

(** The array can be longer than the directory. *)
Definition dir_rep x l : Prop :=
  match data x with
  | Null => l = []
  | Directory count entries => count = len l /\ match entries with None => l = [] | Some es => exists es1 es2, es = es1 ++ es2 /\ Forall2 dirent_rep es1 l end
  | _ => False
  end.

Lemma match_ok nm d e : dirent_rep d e -> name_matches nm (len nm) d = Some (named nm e).
Proof.
  intros [(b & Eb & Ht & Hl) El _]. unfold name_matches, named. rewrite El. destruct (Z.eqb_spec (len (e_name e)) (len nm)) as [E|E].
  - rewrite Eb, bind_Some_l. unfold same_bytes. destruct (Z.ltb_spec (len b) (len nm)); [lia|]. rewrite Z.ltb_irrefl. cbn [orb]. rewrite Nat2Z.id, firstn_all. replace (length nm) with (length (e_name e)) by lia. by rewrite Ht.
  - f_equal. symmetry. apply bool_decide_eq_false_2. intros E'. apply E. by rewrite E'.
Qed.

(** The position of a name. *)
Fixpoint index nm (i : Z) l : option Z := match l with [] => None | e :: l => if named nm e then Some i else index nm (i + 1) l end.

Lemma find_entry_ok nm es0 es1 es2 l i : i = len es0 -> Forall2 dirent_rep es1 l -> find_entry (length l) i nm (len nm) (Some (es0 ++ es1 ++ es2)) = Some (index nm i l).
Proof.
  intros Hi Hf. revert es0 i Hi. induction Hf as [|d e es1 l Hd Hf IH]; intros es0 i Hi; [done|]. cbn [find_entry length index]. rewrite bind_Some_l. unfold aget. destruct (Z.ltb_spec i 0); [lia|].
  assert ((es0 ++ (d :: es1) ++ es2) !! Z.to_nat i = Some d) as ->. { rewrite Hi, Nat2Z.id. cbn [app]. by rewrite list_lookup_middle. }
  rewrite bind_Some_l, (match_ok nm d e Hd), bind_Some_l. destruct (named nm e); [done|]. replace (es0 ++ (d :: es1) ++ es2) with ((es0 ++ [d]) ++ es1 ++ es2) by (by rewrite <-app_assoc). apply IH. rewrite length_app. cbn. lia.
Qed.

(** A name is found at its place. *)
Lemma index_split nm i l : match index nm i l with
  | None => has_name nm l = false
  | Some j => exists l1 e l2, l = l1 ++ e :: l2 /\ j = i + len l1 /\ e_name e = nm /\ has_name nm l1 = false
  end.
Proof.
  revert i. induction l as [|e l IH]; intros i; [done|]. cbn [index]. unfold has_name. cbn [existsb]. destruct (named nm e) eqn:E; [|specialize (IH (i + 1)); destruct (index nm (i + 1) l)].
  - exists [], e, l. split; [done|]. split; [cbn; lia|]. by apply bool_decide_eq_true in E.
  - destruct IH as (l1 & e1 & l2 & -> & -> & En & Hn). exists (e :: l1), e1, l2. split; [done|]. split; [cbn [length]; lia|]. split; [done|]. unfold has_name in *. cbn [existsb]. by rewrite E.
  - done.
Qed.

Lemma has_name_false nm l : has_name nm l = false <-> nm ∉ map e_name l.
Proof.
  unfold has_name. induction l as [|e l IH]; cbn [existsb map]; [split; [intros _; apply not_elem_of_nil|done]|]. rewrite orb_false_iff, IH, not_elem_of_cons. unfold named. rewrite bool_decide_eq_false. naive_solver.
Qed.

Lemma without_absent nm l : has_name nm l = false -> without_name nm l = l.
Proof. unfold has_name, without_name. induction l as [|e l IH]; [done|]. cbn. intros [E1 E2]%orb_false_iff. rewrite E1. cbn. f_equal. auto. Qed.

Lemma ramfs_without_split nm l1 e l2 : unique (l1 ++ e :: l2) -> e_name e = nm -> without_name nm (l1 ++ e :: l2) = l1 ++ l2.
Proof.
  intros Hu En. unfold unique in Hu. rewrite map_app in Hu. cbn [map] in Hu. apply NoDup_app in Hu as (_ & H1 & H2). apply NoDup_cons in H2 as [H2 _]. unfold without_name. rewrite List.filter_app. cbn. unfold named at 2. rewrite bool_decide_true by done. cbn.
  f_equal; apply without_absent, has_name_false; rewrite <-En; [|done]. intros Hin. apply (H1 _ Hin). left.
Qed.

(** ** Searching *)

Lemma find_index x l nm : dir_rep x l -> match data x with Directory count entries => find_entry (Z.to_nat count) 0 nm (len nm) entries = Some (index nm 0 l) | _ => index nm 0 l = None end.
Proof.
  unfold dir_rep. destruct (data x) as [|b|count [es|]|]; try done; [by intros ->| |by intros [-> ->]]. intros (-> & es1 & es2 & -> & Hf). rewrite Nat2Z.id. by apply (find_entry_ok nm [] es1 es2 l 0).
Qed.

Lemma find_dirent_ok x l nm : dir_rep x l -> exists r, ramfs_find_dirent x nm (len nm) = Some r /\
  match r with None => has_name nm l = false | Some d => exists e, e ∈ l /\ e_name e = nm /\ dirent_rep d e end.
Proof.
  intros HD. pose proof (find_index x l nm HD) as Hi. pose proof (index_split nm 0 l) as Hs. unfold ramfs_find_dirent, dir_rep in *. destruct (data x) as [|b|count entries|]; try done; [exists None; split; [done|]; by rewrite Hi in Hs|].
  rewrite Hi, bind_Some_l. destruct (index nm 0 l) as [j|]; [|by exists None]. destruct Hs as (l1 & e & l2 & -> & -> & En & _). destruct HD as [_ HD]. destruct entries as [es|]; [|by destruct l1].
  destruct HD as (es1 & es2 & -> & Hf). apply Forall2_app_inv_r in Hf as (ea & eb & Ha & Hb & ->). apply Forall2_cons_inv_r in Hb as (d & eb' & Hd & Hb & ->). rewrite bind_Some_l. unfold aget. destruct (Z.ltb_spec (0 + len l1) 0); [lia|].
  rewrite <-app_assoc. cbn [app]. rewrite list_lookup_middle by (rewrite (Forall2_length _ _ _ Ha); lia). rewrite bind_Some_l. exists (Some d). split; [done|]. exists e. split; [|done]. apply elem_of_app. right. left.
Qed.

(** ** Entering and removing *)

Implicit Types (mem : memory).

(** Memory of the sizes that are asked for; [plenty] of it never runs out. *)
Definition honest mem : Prop := (forall n es, 0 <= n -> mem_entries mem n = Some es -> len es = n) /\ (forall n b, 0 <= n -> mem_bytes mem n = Some b -> len b = n).
Definition plenty mem : Prop := mem_dir mem = true /\ (forall n, mem_entries mem n <> None) /\ (forall n, mem_bytes mem n <> None).

Lemma Forall2_keep es1 es2 l n (fresh : list dirent) : Forall2 dirent_rep es1 l -> (length l <= n)%nat -> length fresh = n -> exists rest, keep (es1 ++ es2) fresh = es1 ++ rest /\ (length l + length rest)%nat = n.
Proof.
  intros Hf Hn Hl. pose proof (Forall2_length _ _ _ Hf) as Hll. rewrite keep_prefix. exists (take (n - length es1) es2 ++ drop (length (es1 ++ es2)) fresh). split.
  - rewrite Hl, take_app_ge by lia. by rewrite <-app_assoc.
  - rewrite !length_app, length_take, length_drop. lia.
Qed.

(** The array for one entry more. *)
Lemma realloc_entries x l n count entries mem fresh : dir_rep x l -> data x = Directory count entries -> honest mem -> mem_entries mem n = Some fresh -> len l <= n -> 0 < n ->
  exists es1 rest, krealloc entries n (mem_entries mem) = NewBlock (es1 ++ rest) /\ Forall2 dirent_rep es1 l /\ len l + len rest = n.
Proof.
  intros HD Ed [Hm _] Hf Hn Hpos. unfold dir_rep in HD. rewrite Ed in HD. destruct HD as [-> HD]. pose proof (Hm n fresh ltac:(lia) Hf) as Hl. unfold krealloc. destruct entries as [es|].
  - destruct HD as (es1 & es2 & -> & Hr). destruct (Z.eqb_spec n 0); [lia|]. rewrite Hf. destruct (Forall2_keep es1 es2 l (Z.to_nat n) fresh Hr) as (rest & Ek & Hk); [lia|lia|]. exists es1, rest. rewrite Ek. split; [done|]. split; [done|lia].
  - subst l. rewrite Hf. exists [], fresh. split; [done|]. split; [constructor|cbn in *; lia].
Qed.

Lemma data_same x c : with_data c x = with_data c (with_data c x).
Proof. done. Qed.

Lemma add_dirent_ok x l nm y mem : dir_rep x l -> honest mem -> exists r x', ramfs_add_dirent x nm (len nm) y mem = Some (r, x') /\ x' = with_data (data x') x /\
  (r = 0 /\ has_name nm l = false /\ dir_rep x' (l ++ [entry_of nm y]) \/ r = -1 /\ dir_rep x' l /\ (plenty mem -> has_name nm l = true)).
Proof.
  intros HD Hm. unfold ramfs_add_dirent.
  assert (exists o, (match data x with Null => if mem_dir mem then Some (Some (with_data (Directory 0 None) x)) else Some None | Directory _ _ => Some (Some x) | _ => None end) = Some o /\
    match o with None => mem_dir mem = false | Some z => dir_rep z l /\ z = with_data (data z) x /\ exists c en, data z = Directory c en end) as (o & -> & Ho).
  { unfold dir_rep in *. destruct (data x) as [|b|c en|] eqn:Ed; try done; [destruct (mem_dir mem); [subst l|by exists None]|]; eexists; (split; [reflexivity|]); cbn; rewrite ?Ed; (split; [done|]); (split; [by destruct x; cbn in *; subst|by do 2 eexists]). }
  destruct o as [z|]; [|exists (-1), x; split; [done|]; split; [by destruct x|]; right; split; [done|]; split; [done|]; intros [Hp _]; congruence]. destruct Ho as (HD' & Ez & c & en & Ed).
  destruct (find_dirent_ok z l nm HD') as (r & Er & Hr). rewrite Er, bind_Some_l. destruct r as [d|].
  { exists (-1), z. split; [done|]. split; [done|]. right. split; [done|]. split; [done|]. intros _. destruct Hr as (e & Hin & En & _). destruct (has_name nm l) eqn:Eh; [done|]. apply has_name_false in Eh. destruct Eh. rewrite <-En. by apply list_elem_of_fmap_2. }
  rewrite Ed. assert (c = len l) as Ec by (unfold dir_rep in HD'; rewrite Ed in HD'; apply HD'). destruct (mem_entries mem (c + 1)) as [fresh|] eqn:Ef.
  2:{ assert (krealloc en (c + 1) (mem_entries mem) = NoMemory) as -> by (unfold krealloc; rewrite Ef; destruct en; [destruct (Z.eqb_spec (c + 1) 0); [lia|done]|done]). exists (-1), z. split; [done|]. split; [done|]. right. split; [done|]. split; [done|]. intros (_ & Hp & _). by destruct (Hp (c + 1)). }
  destruct (realloc_entries z l (c + 1) c en mem fresh HD' Ed Hm Ef) as (es1 & rest & Ek & Hf & Hl); [lia|lia|]. rewrite Ek. assert (exists d, rest = [d]) as [d ->] by (destruct rest as [|d [|? ?]]; cbn in Hl; try lia; by exists d). clear Hl.
  pose proof (Forall2_length _ _ _ Hf) as Hll. assert (aget (es1 ++ [d]) c = Some d) as -> by (unfold aget; destruct (Z.ltb_spec c 0); [lia|]; by rewrite list_lookup_middle by lia). rewrite bind_Some_l.
  assert (forall d', aset (es1 ++ [d]) c d' = Some (es1 ++ [d'])) as Eset. { intros d'. rewrite aset_Some by (rewrite length_app; cbn; lia). rewrite insert_app_r_alt by lia. by replace (Z.to_nat c - length es1)%nat with 0%nat by lia. }
  destruct (mem_bytes mem (len nm + 1)) as [b|] eqn:Eb.
  - pose proof (proj2 Hm (len nm + 1) b ltac:(lia) Eb) as Hb. assert (blit b 0 nm 0 (len nm) = Some (nm ++ drop (length nm) b)) as ->.
    { unfold blit. destruct (Z.leb_spec (0 + len nm) (len b)), (Z.leb_spec (0 + len nm) (len nm)); try lia. cbn [andb]. change (Z.to_nat 0) with 0%nat. rewrite take_0, drop_0, Nat2Z.id, firstn_all. cbn [app]. f_equal. f_equal. f_equal. lia. }
    rewrite bind_Some_l, aset_Some by (rewrite length_app, length_drop; lia). rewrite bind_Some_l, Eset, bind_Some_l. do 2 eexists. split; [done|]. split; [by rewrite Ez|]. left. split; [done|]. split; [done|]. unfold dir_rep. cbn.
    split; [rewrite length_app; cbn; lia|]. eexists _, []. split; [by rewrite app_nil_r|]. apply Forall2_app; [done|]. constructor; [|constructor]. split; cbn; [|done|done]. eexists. split; [done|].
    rewrite insert_app_r_alt by lia. rewrite take_app_length, length_app. split; [done|lia].
  - rewrite Eset, bind_Some_l. do 2 eexists. split; [done|]. split; [by rewrite Ez|]. right. split; [done|]. split; [|intros (_ & _ & Hp); by destruct (Hp (len nm + 1))]. unfold dir_rep. cbn. split; [done|]. by exists es1, [mk_dirent None (dlen d) (ino d) (dtype d) (dmode d)].
Qed.

Lemma move_down_ok n pre d post rest i : i = len pre -> n = length post -> exists z, move_down n i (pre ++ d :: post ++ rest) = Some (pre ++ post ++ z :: rest).
Proof.
  revert pre d i n. induction post as [|p post IH]; intros pre d i n Hi ->; [by exists d|]. cbn [move_down length app]. unfold aget. destruct (Z.ltb_spec (i + 1) 0); [lia|].
  assert ((pre ++ d :: p :: post ++ rest) !! Z.to_nat (i + 1) = Some p) as -> by (replace (pre ++ d :: p :: post ++ rest) with ((pre ++ [d]) ++ p :: post ++ rest) by (by rewrite <-app_assoc); rewrite list_lookup_middle; [done|rewrite length_app; cbn; lia]).
  rewrite bind_Some_l, aset_Some by (rewrite length_app; cbn; lia). rewrite bind_Some_l, insert_app_r_alt by lia. replace (Z.to_nat i - length pre)%nat with 0%nat by lia. cbn [list_insert insert].
  destruct (IH (pre ++ [p]) p (i + 1) (length post)) as (z & E); [rewrite length_app; cbn; lia|done|]. exists z. rewrite <-!app_assoc in E. exact E.
Qed.

Lemma remove_dirent_ok x l nm mem : dir_rep x l -> unique l -> honest mem -> exists x', ramfs_remove_dirent x nm (len nm) mem = Some (if has_name nm l then 0 else -1, x') /\ x' = with_data (data x') x /\ dir_rep x' (without_name nm l).
Proof.
  intros HD Hu Hm. pose proof (find_index x l nm HD) as Hi. pose proof (index_split nm 0 l) as Hs. unfold ramfs_remove_dirent. pose proof HD as HD0. unfold dir_rep in HD. destruct (data x) as [|b|count entries|] eqn:Ed; try done.
  - subst l. exists x. split; [done|]. split; [by destruct x|]. unfold dir_rep. by rewrite Ed.
  - rewrite Hi, bind_Some_l. destruct (index nm 0 l) as [j|].
    2:{ exists x. rewrite Hs. split; [done|]. split; [by destruct x; cbn in *|]. by rewrite without_absent. }
    destruct Hs as (l1 & e & l2 & -> & -> & En & _). rewrite ramfs_without_split by done. assert (has_name nm (l1 ++ e :: l2) = true) as ->. { destruct (has_name nm (l1 ++ e :: l2)) eqn:E; [done|]. apply has_name_false in E. destruct E. rewrite <-En, map_app. apply elem_of_app. right. left. }
    destruct HD as [-> HD]. destruct entries as [es|]; [|by destruct l1]. destruct HD as (es1 & es2 & -> & Hf). apply Forall2_app_inv_r in Hf as (ea & eb & Ha & Hb & ->). apply Forall2_cons_inv_r in Hb as (d & eb' & Hd & Hb & ->).
    pose proof (Forall2_length _ _ _ Ha) as La. pose proof (Forall2_length _ _ _ Hb) as Lb. rewrite bind_Some_l. rewrite length_app. cbn [length].
    destruct (move_down_ok (length eb') ea d eb' es2 (0 + len l1)) as (z & Ez); [lia|done|]. replace (Z.to_nat (Z.of_nat (length l1 + S (length l2)) - 1 - (0 + len l1))) with (length eb') by lia.
    replace ((ea ++ d :: eb') ++ es2) with (ea ++ d :: eb' ++ es2) by (by rewrite <-app_assoc). rewrite Ez, bind_Some_l. cbv zeta. replace (Z.of_nat (length l1 + S (length l2)) - 1) with (len (l1 ++ l2)) by (rewrite length_app; lia).
    assert (Forall2 dirent_rep (ea ++ eb') (l1 ++ l2)) as Hf by (by apply Forall2_app). destruct (Z.eqb_spec (len (l1 ++ l2)) 0) as [E0|E0].
    + destruct (l1 ++ l2); [|cbn in E0; lia]. eexists. split; [done|]. split; [done|]. by unfold dir_rep; cbn.
    + assert (dir_rep (with_data (Directory (len (l1 ++ l2)) (Some (ea ++ eb' ++ z :: es2))) x) (l1 ++ l2)) as HD1 by (unfold dir_rep; cbn; split; [done|]; exists (ea ++ eb'), (z :: es2); split; [by rewrite <-app_assoc|done]).
      unfold krealloc. destruct (Z.eqb_spec (len (l1 ++ l2)) 0); [lia|]. destruct (mem_entries mem (len (l1 ++ l2))) as [fresh|] eqn:Ef; [|eexists; split; [done|]; split; [done|]; exact HD1].
      eexists. split; [done|]. split; [done|]. pose proof (proj1 Hm (len (l1 ++ l2)) fresh ltac:(lia) Ef) as Hfr. rewrite app_assoc. destruct (Forall2_keep (ea ++ eb') (z :: es2) (l1 ++ l2) (length (l1 ++ l2)) fresh Hf) as (rest & Ek & Hk); [lia|lia|]. rewrite Ek. unfold dir_rep. cbn. split; [done|]. by exists (ea ++ eb'), rest.
Qed.

(** ** Listing *)

(** An actor that collects names, numbers and types. *)
Definition collect nm (n i number : Z) (t : d_type) (w : list (list Z * Z * d_type)) : bool * list (list Z * Z * d_type) := (true, w ++ [(take (Z.to_nat n) nm, number, t)]).
Definition listing l : list (list Z * Z * d_type) := map (fun e => (e_name e, e_ino e, e_type e)) l.

Lemma iterate_ok es0 es1 es2 l i pos w : i = len es0 -> i <= pos -> Forall2 dirent_rep es1 l ->
  iterate collect (length l) i (Some (es0 ++ es1 ++ es2)) pos w = Some (Z.max pos (i + len l), w ++ listing (drop (Z.to_nat (pos - i)) l)).
Proof.
  intros Hi Hp Hf. revert es0 i pos w Hi Hp. induction Hf as [|d e es1 l Hd Hf IH]; intros es0 i pos w Hi Hp; [cbn; rewrite drop_nil; cbn; rewrite app_nil_r; f_equal; f_equal; lia|]. cbn [iterate length].
  replace (es0 ++ (d :: es1) ++ es2) with ((es0 ++ [d]) ++ es1 ++ es2) by (by rewrite <-app_assoc). destruct (Z.ltb_spec i pos).
  - rewrite IH by (rewrite ?length_app; cbn; lia). replace (Z.to_nat (pos - i)) with (S (Z.to_nat (pos - (i + 1)))) by lia. cbn [drop]. f_equal. f_equal. lia.
  - assert (pos = i) as -> by lia. rewrite bind_Some_l. assert (aget ((es0 ++ [d]) ++ es1 ++ es2) i = Some d) as -> by (unfold aget; destruct (Z.ltb_spec i 0); [lia|]; rewrite <-app_assoc; cbn [app]; by rewrite list_lookup_middle by lia).
    rewrite bind_Some_l. destruct Hd as [(b & Eb & Ht & Hl) El (E1 & E2 & _)]. rewrite Eb, bind_Some_l. unfold collect at 1. rewrite IH by (rewrite ?length_app; cbn; lia). rewrite !Z.sub_diag. change (Z.to_nat 0) with 0%nat. cbn [drop].
    unfold listing. cbn [map]. rewrite <-app_assoc, El, E1, E2, Nat2Z.id, Ht. cbn [app]. f_equal. f_equal. lia.
Qed.

Lemma dir_iterate_ok x l : dir_rep x l -> ramfs_dir_iterate collect x 0 [] = Some (0, len l, listing l).
Proof.
  unfold dir_rep, ramfs_dir_iterate. destruct (data x) as [|b|count [es|]|]; try done; [by intros ->| |by intros [-> ->]]. intros (-> & es1 & es2 & -> & Hf). rewrite Nat2Z.id.
  pose proof (iterate_ok [] es1 es2 l 0 0 [] eq_refl ltac:(lia) Hf) as Hi. cbn [app] in Hi. rewrite Hi, bind_Some_l. cbn. f_equal. f_equal. f_equal. lia.
Qed.

(** ** Sequences of calls on one directory *)

Inductive op := Add nm y mem | Remove nm mem | Find nm | List_.
Inductive answer := Code (r : Z) | Found (r : option (Z * d_type * Z)) | Listing (r : list (list Z * Z * d_type)).

Definition perform (o : op) x : option (answer * inode) :=
  match o with
  | Add nm y mem => r ← ramfs_add_dirent x nm (len nm) y mem; Some (Code r.1, r.2)
  | Remove nm mem => r ← ramfs_remove_dirent x nm (len nm) mem; Some (Code r.1, r.2)
  | Find nm => r ← ramfs_find_dirent x nm (len nm); Some (Found (option_map (fun d => (ino d, dtype d, dmode d)) r), x)
  | List_ => r ← ramfs_dir_iterate collect x 0 []; Some (Listing r.2, x)
  end.

Definition spec (o : op) l : answer * list entry :=
  match o with
  | Add nm y _ => if has_name nm l then (Code (-1), l) else (Code 0, l ++ [entry_of nm y])
  | Remove nm _ => (Code (if has_name nm l then 0 else -1), without_name nm l)
  | Find nm => (Found (option_map (fun e => (e_ino e, e_type e, e_mode e)) (List.find (named nm) l)), l)
  | List_ => (Listing (listing l), l)
  end.

Definition allowed (o : op) : Prop := match o with Add _ _ mem => honest mem /\ plenty mem | Remove _ mem => honest mem | _ => True end.

Fixpoint run (os : list op) x : option (list answer * inode) := match os with [] => Some ([], x) | o :: os => r ← perform o x; q ← run os r.2; Some (r.1 :: q.1, q.2) end.
Fixpoint spec_run (os : list op) l : list answer * list entry := match os with [] => ([], l) | o :: os => let r := spec o l in let q := spec_run os r.2 in (r.1 :: q.1, q.2) end.

Lemma unique_add nm y l : unique l -> has_name nm l = false -> unique (l ++ [entry_of nm y]).
Proof. unfold unique. intros Hu Hn%has_name_false. rewrite map_app. apply NoDup_app. split; [done|]. split; [|apply NoDup_singleton]. intros n Hin Hin'. apply list_elem_of_singleton in Hin' as ->. done. Qed.

Lemma unique_remove nm l : unique l -> unique (without_name nm l).
Proof.
  unfold unique, without_name. induction l as [|e l IH]; [done|]. cbn. intros [Hn Hu]%NoDup_cons. destruct (named nm e); cbn; [by apply IH|]. apply NoDup_cons. split; [|by apply IH].
  intros Hin. apply Hn. apply list_elem_of_fmap in Hin as (e' & -> & Hin). apply list_elem_of_fmap_2. apply list_elem_of_In, List.filter_In in Hin as [Hin _]. by apply list_elem_of_In.
Qed.

Lemma find_named nm l e : unique l -> e ∈ l -> e_name e = nm -> List.find (named nm) l = Some e.
Proof.
  unfold unique. induction l as [|e' l IH]; intros Hu Hin En; [by apply not_elem_of_nil in Hin|]. cbn in *. apply NoDup_cons in Hu as [Hn Hu]. unfold named at 1. case_bool_decide as Hc.
  - apply elem_of_cons in Hin as [->|Hin]; [done|]. destruct Hn. rewrite Hc, <-En. by apply list_elem_of_fmap_2.
  - apply elem_of_cons in Hin as [->|Hin]; [done|]. by apply IH.
Qed.

Lemma dir_perform_ok o x l : dir_rep x l -> unique l -> allowed o -> exists x', perform o x = Some ((spec o l).1, x') /\ dir_rep x' (spec o l).2 /\ unique (spec o l).2.
Proof.
  intros HD Hu Ha. destruct o as [nm y mem|nm mem|nm|]; cbn [perform spec allowed] in *.
  - destruct Ha as [Hm Hp]. destruct (add_dirent_ok x l nm y mem HD Hm) as (r & x' & E & _ & [(-> & Hn & HD')|(-> & HD' & Hh)]); rewrite E, bind_Some_l; exists x'; [rewrite Hn|rewrite (Hh Hp)]; (split; [done|]); split; [done|by apply unique_add|done|done].
  - destruct (remove_dirent_ok x l nm mem HD Hu Ha) as (x' & E & _ & HD'). rewrite E, bind_Some_l. exists x'. split; [done|]. split; [done|by apply unique_remove].
  - destruct (find_dirent_ok x l nm HD) as (r & E & Hr). rewrite E, bind_Some_l. exists x. split; [|done]. cbn [fst]. f_equal. f_equal. f_equal. destruct r as [d|].
    + destruct Hr as (e & Hin & En & [_ _ (E1 & E2 & E3)]). rewrite (find_named nm l e Hu Hin En). cbn. by rewrite E1, E2, E3.
    + destruct (List.find (named nm) l) as [e|] eqn:Ef; [|done]. apply List.find_some in Ef as [Hin Hn]. apply bool_decide_eq_true in Hn. apply has_name_false in Hr. destruct Hr. rewrite <-Hn. apply list_elem_of_fmap_2. by apply list_elem_of_In.
  - rewrite (dir_iterate_ok x l HD), bind_Some_l. by exists x.
Qed.

(** With a [krealloc] that keeps contents, a directory in memory refines a list of distinct names with number, type and mode
    of their inodes: entering refuses a name that is there and otherwise puts it at the
    end, removing takes exactly that name out, searching finds the entry of the name, and
    listing visits every entry once, in order. *)
Theorem ramfs_directory_refines os x l : dir_rep x l -> unique l -> Forall allowed os -> exists x', run os x = Some ((spec_run os l).1, x') /\ dir_rep x' (spec_run os l).2 /\ unique (spec_run os l).2.
Proof.
  revert x l. induction os as [|o os IH]; intros x l HD Hu Ha; [by exists x|]. apply Forall_cons in Ha as [Ho Ha]. destruct (dir_perform_ok o x l HD Hu Ho) as (x1 & E1 & H1 & U1). destruct (IH x1 _ H1 U1 Ha) as (x2 & E2 & H2 & U2).
  exists x2. cbn [run spec_run]. rewrite E1, bind_Some_l. cbn [fst snd]. by rewrite E2, bind_Some_l.
Qed.

End Dirs.

(** ** Examples *)

Definition blank : dirent := mk_dirent None 0 0 DT_UNKNOWN 0.
Definition ex_mem : memory := mk_memory true (fun n => Some (replicate (Z.to_nat n) blank)) (fun n => Some (replicate (Z.to_nat n) 0)).
Definition ex_inode (n mode : Z) : inode := mk_inode n mode 1 0 0 0 0 0 0 Null 0.

Lemma ex_mem_ok : honest ex_mem /\ plenty ex_mem.
Proof. split; split; cbn; [intros n es Hn [= <-]; rewrite length_replicate; lia|intros n es Hn [= <-]; rewrite length_replicate; lia|done|split; by intros n]. Qed.

Definition ex_ops : list op :=
  [Add [97] (ex_inode 11 S_IFREG) ex_mem; Add [98; 99] (ex_inode 12 S_IFDIR) ex_mem; Add [97] (ex_inode 13 S_IFREG) ex_mem; Find [98; 99]; Add [100] (ex_inode 14 S_IFLNK) ex_mem; Remove [97] ex_mem; Find [97]; List_].

Lemma ramfs_directory_refines_witness : exists x', run (H := true_realloc) ex_ops (ex_inode 2 S_IFDIR) =
  Some ([Code 0; Code 0; Code (-1); Found (Some (12, DT_DIR, S_IFDIR)); Code 0; Code 0; Found None; Listing [([98; 99], 12, DT_DIR); ([100], 14, DT_LNK)]], x').
Proof.
  destruct (ramfs_directory_refines (H := true_realloc) ex_ops (ex_inode 2 S_IFDIR) [] eq_refl (NoDup_nil_2)) as (x' & E & _); [unfold ex_ops; repeat (constructor; [first [exact ex_mem_ok|exact (proj1 ex_mem_ok)|exact I]|]); constructor|].
  exists x'. rewrite E. vm_compute. reflexivity.
Defined.

(** With [krealloc] of [mm/slab.c] the second name that is entered takes away the first: its
    entry has a null name. *)
Lemma second_name_loses_first : exists x', run (H := slab_realloc) [Add [97] (ex_inode 11 S_IFREG) ex_mem; Add [98] (ex_inode 12 S_IFREG) ex_mem; Find [97]] (ex_inode 2 S_IFDIR) = Some ([Code 0; Code 0; Found None], x').
Proof. eexists. vm_compute. reflexivity. Qed.

End RamfsDir.

(** * Names: creating, linking, removing, renaming and looking up refine operations on a map of
    directories. *)

Module RamfsNames.
Import Bytes Ramfs RamfsDir.

(** What the functions of the VFS are documented to do: a dentry gets its inode, and giving
    an inode back concerns no other one. *)
Class VfsLaws `{Vfs} := {
  inst_inodes : forall e a s, inodes (d_instantiate e a s) = inodes s;
  inst_dentries : forall e a s, dentries (d_instantiate e a s) = alter (fun d => mk_dentry (d_name d) (Some a)) e (dentries s);
  dadd_inodes : forall e a s, inodes (d_add e a s) = inodes s;
  dadd_dentries : forall e a s, dentries (d_add e a s) = alter (fun d => mk_dentry (d_name d) (Some a)) e (dentries s);
  iput_others : forall a b s, b <> a -> inodes (iput a s) !! b = inodes s !! b;
  iput_dentries : forall a s, dentries (iput a s) = dentries s
}.

(** ** The abstract file system *)

(** [n_dir] has the entries of a directory. *)
Record node := mk_node { n_ino : Z; n_mode : Z; n_links : Z; n_dir : option (list entry) }.
Record view := mk_view { nodes : gmap Z node; names : gmap Z dentry }.
Implicit Types (v : view) (n : node) (s : fs) (x y : inode) (a dir e : Z) (nm : list Z) (l : list entry) (mem : memory).

Definition with_dir (o : option (list entry)) n : node := mk_node (n_ino n) (n_mode n) (n_links n) o.
Definition add_n_links (k : Z) n : node := mk_node (n_ino n) (n_mode n) (u32 (n_links n + k)) (n_dir n).
Definition v_set a n v : view := mk_view (<[a := n]> (nodes v)) (names v).
Definition v_alter (f : node -> node) a v : view := mk_view (alter f a (nodes v)) (names v).
Definition v_attach e a v : view := mk_view (nodes v) (alter (fun d => mk_dentry (d_name d) (Some a)) e (names v)).
Definition v_entry nm n : entry := mk_entry nm (n_ino n) (entry_type (n_mode n)) (n_mode n).
Definition dir_of dir v : list entry := match nodes v !! dir with Some n => default [] (n_dir n) | None => [] end.
Definition name_of e v : list Z := match names v !! e with Some d => d_name d | None => [] end.
Definition inode_of e v : option Z := d ← names v !! e; d_inode d.

(** Entering and removing a name: [None] when it is there already, or is not there. *)
Definition put_name dir nm n v : option view :=
  if has_name nm (dir_of dir v) then None else Some (v_alter (with_dir (Some (dir_of dir v ++ [v_entry nm n]))) dir v).
Definition take_name dir nm v : option view :=
  if has_name nm (dir_of dir v) then Some (v_alter (with_dir (Some (without_name nm (dir_of dir v)))) dir v) else None.

(** A new inode with its mode. *)
Definition new_node y (mode : Z) : node := mk_node (i_ino y) mode (i_nlink y) (if S_IS S_IFDIR mode then Some [] else None).

Definition v_create dir e a n v : Z * view :=
  match put_name dir (name_of e v) n (v_set a n v) with Some v => (0, v_attach e a v) | None => (-1, v) end.

Definition v_link old dir e v : Z * view :=
  match inode_of old v with
  | None => (-1, v)
  | Some a => match nodes v !! a with
      | None => (-1, v)
      | Some n => match put_name dir (name_of e v) n (v_alter (add_n_links 1) a v) with Some v => (0, v_attach e a v) | None => (-1, v) end
      end
  end.

Definition v_unlink dir e v : Z * view :=
  match inode_of e v with
  | None => (-1, v)
  | Some a => match take_name dir (name_of e v) v with Some v => (0, v_alter (add_n_links (-1)) a v) | None => (-1, v) end
  end.

Definition v_rmdir dir e v : Z * view := match inode_of e v with None => (-1, v) | Some a => match dir_of a v with [] => v_unlink dir e v | _ => (-1, v) end end.

(** A target that exists is not replaced: the old name is entered again. *)
Definition v_rename old_dir old new_dir new v : Z * view :=
  match inode_of old v with
  | None => (-1, v)
  | Some a => match nodes v !! a, take_name old_dir (name_of old v) v with
      | Some n, Some w =>
          match put_name new_dir (name_of new v) n w with Some w => (0, w) | None => (-1, default w (put_name old_dir (name_of old v) n w)) end
      | _, _ => (-1, v)
      end
  end.

Definition with_n_ino (k : Z) n : node := mk_node k (n_mode n) (n_links n) (n_dir n).

(** The dentry gets a new inode with the number and the mode of the entry, and nothing in it. *)
Definition v_lookup dir e a y v : view :=
  match List.find (named (name_of e v)) (dir_of dir v) with Some en => v_attach e a (v_set a (with_n_ino (e_ino en) (new_node y (e_mode en))) v) | None => v end.

(** ** Representation *)

Section Names.
Context {HRe : Realloc} {HRL : ReallocLaws} {HVf : Vfs} {HVL : VfsLaws}.

Record node_rep x n : Prop := {
  nr_ino : i_ino x = n_ino n; nr_mode : i_mode x = n_mode n; nr_links : i_nlink x = n_links n /\ 0 <= n_links n < 2 ^ 32;
  nr_dir : match n_dir n with Some l => dir_rep x l /\ unique l | None => True end
}.

Record fs_rep s v : Prop := { fr_nodes : forall a n, nodes v !! a = Some n -> exists x, inodes s !! a = Some x /\ node_rep x n; fr_names : dentries s = names v }.

Definition is_dir dir v : Prop := exists n l, nodes v !! dir = Some n /\ n_dir n = Some l.

Lemma rep_set s v a x n : fs_rep s v -> node_rep x n -> fs_rep (set_inode a x s) (v_set a n v).
Proof.
  intros [HN HE] Hx. split; [|done]. cbn. intros b k [[<- <-]|[Hne Hk]]%lookup_insert_Some; [exists x; by rewrite lookup_insert_eq|]. rewrite lookup_insert_ne by done. by apply HN.
Qed.

Lemma rep_alter s v a x n f : fs_rep s v -> nodes v !! a = Some n -> node_rep x (f n) -> fs_rep (set_inode a x s) (v_alter f a v).
Proof.
  intros HR Ha Hx. assert (v_alter f a v = v_set a (f n) v) as -> by (unfold v_alter, v_set; f_equal; apply map_eq; intros b; destruct (decide (a = b)) as [<-|]; [by rewrite lookup_alter_eq, lookup_insert_eq, Ha|by rewrite lookup_alter_ne, lookup_insert_ne]).
  by apply rep_set.
Qed.

Lemma rep_inst s v e a : fs_rep s v -> fs_rep (d_instantiate e a s) (v_attach e a v).
Proof. intros [HN HE]. split; [by rewrite inst_inodes|]. rewrite inst_dentries, HE. done. Qed.

Lemma rep_dadd s v e a : fs_rep s v -> fs_rep (d_add e a s) (v_attach e a v).
Proof. intros [HN HE]. split; [by rewrite dadd_inodes|]. rewrite dadd_dentries, HE. done. Qed.

(** Giving back an inode that the view does not have. *)
Lemma rep_iput s v a : fs_rep s v -> nodes v !! a = None -> fs_rep (iput a s) v.
Proof. intros [HN HE] Ha. split; [|by rewrite iput_dentries]. intros b n Hb. rewrite iput_others by congruence. by apply HN. Qed.

Lemma rep_dir s v dir : fs_rep s v -> is_dir dir v -> exists x n, inodes s !! dir = Some x /\ nodes v !! dir = Some n /\ node_rep x n /\ n_dir n = Some (dir_of dir v) /\ dir_rep x (dir_of dir v) /\ unique (dir_of dir v).
Proof.
  intros HR (n & l & Hn & Hl). destruct (fr_nodes _ _ HR dir n Hn) as (x & Hx & Hr). exists x, n. unfold dir_of. rewrite Hn, Hl. cbn. pose proof (nr_dir _ _ Hr) as Hd. rewrite Hl in Hd. destruct Hd. done.
Qed.

(** The inode of a directory with other entries. *)
Lemma node_rep_dir x n l c : node_rep x n -> dir_rep (with_data c x) l -> unique l -> node_rep (with_data c x) (with_dir (Some l) n).
Proof. intros [H1 H2 H3 H4] Hd Hu. by split. Qed.

Lemma entry_node nm y n : node_rep y n -> entry_of nm y = v_entry nm n.
Proof. intros [H1 H2 _ _]. unfold entry_of, v_entry. by rewrite H1, H2. Qed.

Lemma same_dir v dir n : nodes v !! dir = Some n -> n_dir n = Some (dir_of dir v) -> v_alter (with_dir (Some (dir_of dir v))) dir v = v.
Proof.
  intros Hn El. destruct v as [N E]. unfold v_alter. cbn in *. f_equal. apply map_eq. intros b. destruct (decide (dir = b)) as [<-|]; [|by rewrite lookup_alter_ne]. rewrite lookup_alter_eq, Hn. cbn. f_equal. destruct n; cbn in *. by rewrite El.
Qed.

(** Entering a name into the directory of a state. *)
Lemma put_name_ok s v dir nm y n mem : fs_rep s v -> is_dir dir v -> i_ino y = n_ino n -> i_mode y = n_mode n -> honest mem -> plenty mem ->
  exists x x', inodes s !! dir = Some x /\ match put_name dir nm n v with
    | Some w => ramfs_add_dirent x nm (len nm) y mem = Some (0, x') /\ fs_rep (set_inode dir x' s) w
    | None => ramfs_add_dirent x nm (len nm) y mem = Some (-1, x') /\ fs_rep (set_inode dir x' s) v
    end.
Proof.
  intros HR Hd E1 E2 Hm Hp. destruct (rep_dir s v dir HR Hd) as (x & k & Hx & Hk & Hr & El & HD & Hu). destruct (add_dirent_ok x _ nm y mem HD Hm) as (r & x' & E & Ex & Hc). exists x, x'. split; [done|]. unfold put_name.
  destruct Hc as [(-> & Hn & HD')|(-> & HD' & Hh)]; [rewrite Hn|rewrite (Hh Hp)]; (split; [done|]).
  - assert (entry_of nm y = v_entry nm n) as Ee by (unfold entry_of, v_entry; by rewrite E1, E2). rewrite <-Ee. apply (rep_alter s v dir x' k); [done|done|]. rewrite Ex in *. apply node_rep_dir; [done|done|]. by apply unique_add.
  - rewrite <-(same_dir v dir k Hk El). apply (rep_alter s v dir x' k); [done|done|]. rewrite Ex in *. by apply node_rep_dir.
Qed.

Lemma take_name_ok s v dir nm mem : fs_rep s v -> is_dir dir v -> honest mem ->
  exists x x', inodes s !! dir = Some x /\ match take_name dir nm v with
    | Some w => ramfs_remove_dirent x nm (len nm) mem = Some (0, x') /\ fs_rep (set_inode dir x' s) w
    | None => ramfs_remove_dirent x nm (len nm) mem = Some (-1, x') /\ fs_rep (set_inode dir x' s) v
    end.
Proof.
  intros HR Hd Hm. destruct (rep_dir s v dir HR Hd) as (x & k & Hx & Hk & Hr & El & HD & Hu). destruct (remove_dirent_ok x _ nm mem HD Hu Hm) as (x' & E & Ex & HD'). exists x, x'. split; [done|]. unfold take_name.
  assert (fs_rep (set_inode dir x' s) (v_alter (with_dir (Some (without_name nm (dir_of dir v)))) dir v)) as HR' by (apply (rep_alter s v dir x' k); [done|done|]; rewrite Ex in *; apply node_rep_dir; [done|done|]; by apply unique_remove).
  destruct (has_name nm (dir_of dir v)) eqn:Eh; (split; [done|]); [done|]. rewrite without_absent in HR' by done.
  by rewrite (same_dir v dir k Hk El) in HR'.
Qed.

(** ** Operations *)

(** What [new_inode] gives: an inode without contents, at an address that is not in use. *)
Definition fresh_inode (f : option (Z * inode)) v : Prop := forall a y, f = Some (a, y) -> nodes v !! a = None /\ data y = Null /\ 0 <= i_nlink y < 2 ^ 32.

Lemma name_of_ok s v e : fs_rep s v -> is_Some (names v !! e) -> exists d, dentries s !! e = Some d /\ d_name d = name_of e v /\ d_inode d = inode_of e v.
Proof. intros HR [d Hd]. exists d. unfold name_of, inode_of. rewrite (fr_names _ _ HR), Hd. done. Qed.

Lemma new_node_rep y mode now : data y = Null -> 0 <= i_nlink y < 2 ^ 32 -> node_rep (mk_inode (i_ino y) mode (i_nlink y) 0 0 (i_size y) now now now (data y) (size y)) (new_node y mode).
Proof. intros Hd Hl. split; cbn; try done. destruct (S_IS S_IFDIR mode); [|done]. split; [|apply NoDup_nil_2]. unfold dir_rep. cbn. by rewrite Hd. Qed.

Lemma dir_set dir a n v : is_dir dir v -> nodes v !! a = None -> is_dir dir (v_set a n v).
Proof. intros (k & l & Hk & Hl) Ha. exists k, l. cbn. rewrite lookup_insert_ne; [done|congruence]. Qed.

Lemma dir_alter dir a f v : is_dir dir v -> (forall n, n_dir n <> None -> n_dir (f n) <> None) -> is_dir dir (v_alter f a v).
Proof.
  intros (k & l & Hk & Hl) Hf. destruct (decide (a = dir)) as [->|Hne].
  - specialize (Hf k ltac:(by rewrite Hl)). destruct (n_dir (f k)) as [l'|] eqn:E; [|done]. exists (f k), l'. cbn. by rewrite lookup_alter_eq, Hk.
  - exists k, l. cbn. by rewrite lookup_alter_ne.
Qed.

Lemma put_none_set dir nm n a v : is_dir dir v -> nodes v !! a = None -> put_name dir nm n (v_set a n v) = None -> has_name nm (dir_of dir v) = true.
Proof.
  intros (k & l & Hk & Hl) Ha. unfold put_name. assert (dir_of dir (v_set a n v) = dir_of dir v) as -> by (unfold dir_of; cbn; rewrite lookup_insert_ne by congruence; done). by destruct (has_name nm (dir_of dir v)).
Qed.

(** The part that creating and making links have in common. *)
Lemma ramfs_enter_ok s v dir e a y n mem : fs_rep s v -> is_dir dir v -> is_Some (names v !! e) -> nodes v !! a = None -> node_rep y n -> honest mem -> plenty mem ->
  exists s', enter dir e a mem (set_inode a y s) = Some ((v_create dir e a n v).1, s') /\ fs_rep s' (v_create dir e a n v).2.
Proof.
  intros HR Hd He Ha Hy Hm Hp. pose proof (rep_set s v a y n HR Hy) as HR1. destruct (name_of_ok _ _ e HR1) as (d & Ed & En & _); [done|]. change (name_of e (v_set a n v)) with (name_of e v) in En.
  destruct (put_name_ok (set_inode a y s) (v_set a n v) dir (name_of e v) y n mem HR1 (dir_set dir a n v Hd Ha) (nr_ino _ _ Hy) (nr_mode _ _ Hy) Hm Hp) as (x & x' & Hx & Hc). unfold enter, v_create. rewrite Hx, bind_Some_l, Ed, bind_Some_l.
  assert (inodes (set_inode a y s) !! a = Some y) as -> by apply lookup_insert_eq. rewrite bind_Some_l, En. destruct (put_name dir (name_of e v) n (v_set a n v)) as [w|] eqn:Ew.
  - destruct Hc as [E HR2]. rewrite E, bind_Some_l. cbn [fst snd]. change (negb (0 =? 0)) with false. eexists. split; [done|]. by apply rep_inst.
  - destruct Hc as [E HR2]. rewrite E, bind_Some_l. change (negb (-1 =? 0)) with true. eexists. split; [done|]. cbn [snd]. apply rep_iput; [|done]. destruct HR2 as [HN HE]. split; [|done]. intros b k Hb. apply HN. cbn. rewrite lookup_insert_ne; [done|congruence].
Qed.

Lemma create_node_ok s v dir e f mode now mem : fs_rep s v -> is_dir dir v -> is_Some (names v !! e) -> fresh_inode f v -> honest mem -> plenty mem ->
  exists s', create_node dir e f mode now mem s = Some ((match f with Some (a, y) => v_create dir e a (new_node y mode) v | None => (-1, v) end).1, s') /\
    fs_rep s' (match f with Some (a, y) => v_create dir e a (new_node y mode) v | None => (-1, v) end).2.
Proof.
  intros HR Hd He Hf Hm Hp. unfold create_node, ramfs_get_inode. destruct f as [[a y]|]; [|by exists s]. destruct (Hf a y eq_refl) as (Ha & Hn & Hl). apply ramfs_enter_ok; try done. by apply new_node_rep.
Qed.

Lemma set_link_ok y n sym mem : node_rep y n -> n_dir n = None -> honest mem -> plenty mem -> exists y', ramfs_set_link y sym mem = Some (0, y') /\ node_rep y' n.
Proof.
  intros [R1 R2 R3 R4] Hn [_ Hm] (_ & _ & Hp). unfold ramfs_set_link. destruct (mem_bytes mem (len sym + 1)) as [b|] eqn:Eb; [|by destruct (Hp (len sym + 1))]. pose proof (Hm (len sym + 1) b ltac:(lia) Eb) as Hb.
  unfold blit. destruct (Z.leb_spec (0 + len sym) (len b)), (Z.leb_spec (0 + len sym) (len sym)); try lia. cbn [andb]. rewrite bind_Some_l. rewrite aset_Some; [|change (Z.to_nat 0) with 0%nat; rewrite !length_app, !length_take, !length_drop; lia].
  rewrite bind_Some_l. eexists. split; [done|]. split; cbn; try done. by rewrite Hn.
Qed.

Lemma symlink_ok s v dir e f now sym mem1 mem : fs_rep s v -> is_dir dir v -> is_Some (names v !! e) -> fresh_inode f v -> honest mem1 -> plenty mem1 -> honest mem -> plenty mem ->
  let r := match f with Some (a, y) => v_create dir e a (new_node y (Z.lor S_IFLNK 0x1FF)) v | None => (-1, v) end in
  exists s', ramfs_symlink dir e f now sym mem1 mem s = Some (r.1, s') /\ fs_rep s' r.2.
Proof.
  intros HR Hd He Hf Hm1 Hp1 Hm Hp. cbv zeta. unfold ramfs_symlink, ramfs_get_inode. destruct f as [[a y]|]; [|by exists s]. destruct (Hf a y eq_refl) as (Ha & Hn & Hl).
  destruct (set_link_ok _ _ sym mem1 (new_node_rep y (Z.lor S_IFLNK 0x1FF) now Hn Hl) eq_refl Hm1 Hp1) as (y' & E & Hy). rewrite E, bind_Some_l. change (negb (0 =? 0)) with false. by apply ramfs_enter_ok.
Qed.

Lemma links_back n : 0 <= n_links n < 2 ^ 32 -> add_n_links (-1) (add_n_links 1 n) = n.
Proof.
  intros Hn. destruct n as [k m c d]. unfold add_n_links. cbn in *. f_equal. unfold u32, wrap. rewrite Zplus_mod_idemp_l. replace (c + 1 + -1) with c by lia. by apply Z.mod_small.
Qed.

Lemma node_rep_links x n k : node_rep x n -> node_rep (add_links k x) (add_n_links k n).
Proof. intros [R1 R2 [R3 _] R4]. split; cbn; try done. rewrite R3. split; [done|]. apply Z.mod_pos_bound. lia. Qed.

Lemma alter_back a v n : nodes v !! a = Some n -> 0 <= n_links n < 2 ^ 32 -> v_alter (add_n_links (-1)) a (v_alter (add_n_links 1) a v) = v.
Proof.
  intros Hn Hl. destruct v as [N E]. unfold v_alter. cbn in *. f_equal. apply map_eq. intros b. destruct (decide (a = b)) as [<-|]; [rewrite !lookup_alter_eq, Hn; cbn; by rewrite links_back|by rewrite !lookup_alter_ne].
Qed.

Lemma link_ok s v old dir e mem : fs_rep s v -> is_dir dir v -> is_Some (names v !! e) -> is_Some (names v !! old) -> (forall a, inode_of old v = Some a -> is_Some (nodes v !! a)) -> honest mem -> plenty mem ->
  exists s', ramfs_link old dir e mem s = Some ((v_link old dir e v).1, s') /\ fs_rep s' (v_link old dir e v).2.
Proof.
  intros HR Hd He Ho Hk Hm Hp. unfold ramfs_link, v_link. destruct (name_of_ok s v old HR Ho) as (o & Eo & _ & Ei). rewrite Eo, bind_Some_l, Ei. destruct (inode_of old v) as [a|] eqn:Ea; [|by exists s]. destruct (Hk a eq_refl) as [n Hn]. rewrite Hn.
  destruct (fr_nodes _ _ HR a n Hn) as (y & Hy & Hr). rewrite Hy, bind_Some_l. pose proof (rep_alter s v a (add_links 1 y) n (add_n_links 1) HR Hn (node_rep_links _ _ 1 Hr)) as HR1.
  assert (is_dir dir (v_alter (add_n_links 1) a v)) as Hd1 by (apply dir_alter; [done|]; by intros []).
  destruct (put_name_ok _ _ dir (name_of e v) (add_links 1 y) n mem HR1 Hd1 (nr_ino _ _ Hr) (nr_mode _ _ Hr) Hm Hp) as (x & x' & Hx & Hc). rewrite Hx, bind_Some_l. destruct (name_of_ok _ _ e HR1) as (d & Ed & En & _); [done|].
  change (name_of e (v_alter (add_n_links 1) a v)) with (name_of e v) in En. rewrite Ed, bind_Some_l. assert (inodes (set_inode a (add_links 1 y) s) !! a = Some (add_links 1 y)) as -> by apply lookup_insert_eq. rewrite bind_Some_l, En.
  destruct (put_name dir (name_of e v) n (v_alter (add_n_links 1) a v)) as [w|]; destruct Hc as [E HR2]; rewrite E, bind_Some_l; cbv zeta.
  - change (negb (0 =? 0)) with false. eexists. split; [done|]. by apply rep_inst.
  - change (negb (-1 =? 0)) with true. destruct (fr_nodes _ _ HR2 a (add_n_links 1 n)) as (y2 & Hy2 & Hr2); [cbn; by rewrite lookup_alter_eq, Hn|]. rewrite Hy2, bind_Some_l. eexists. split; [done|]. cbn [snd].
    pose proof (rep_alter _ _ a (add_links (-1) y2) (add_n_links 1 n) (add_n_links (-1)) HR2) as HR3. rewrite (alter_back a v n Hn (proj2 (nr_links _ _ Hr))) in HR3. apply HR3; [cbn; by rewrite lookup_alter_eq, Hn|]. by apply node_rep_links.
Qed.

(** Removing a name, for files and directories. *)
Lemma remove_name_ok s v dir e a mem : fs_rep s v -> is_dir dir v -> is_Some (names v !! e) -> inode_of e v = Some a -> is_Some (nodes v !! a) -> honest mem ->
  exists s', remove_name dir e a mem s = Some ((v_unlink dir e v).1, s') /\ fs_rep s' (v_unlink dir e v).2.
Proof.
  intros HR Hd He Ei [n Hn] Hm. unfold remove_name, v_unlink. rewrite Ei. destruct (take_name_ok s v dir (name_of e v) mem HR Hd Hm) as (x & x' & Hx & Hc). destruct (name_of_ok s v e HR He) as (d & Ed & En & _). rewrite Hx, bind_Some_l, Ed, bind_Some_l, En.
  destruct (take_name dir (name_of e v) v) as [w|] eqn:Ew; destruct Hc as [E HR1]; rewrite E, bind_Some_l; cbv zeta.
  - change (negb (0 =? 0)) with false. assert (exists k, nodes w !! a = Some k) as [k Hk]. { unfold take_name in Ew. case_match; [|done]. injection Ew as <-. cbn. destruct (decide (dir = a)) as [<-|]; [rewrite lookup_alter_eq, Hn; by eexists|rewrite lookup_alter_ne, Hn by done; by eexists]. }
    destruct (fr_nodes _ _ HR1 a k Hk) as (y & Hy & Hr). rewrite Hy, bind_Some_l. eexists. split; [done|]. apply (rep_alter _ _ a _ k); [done|done|]. by apply node_rep_links.
  - change (negb (-1 =? 0)) with true. by eexists.
Qed.

Lemma unlink_ok s v dir e mem : fs_rep s v -> is_dir dir v -> is_Some (names v !! e) -> (forall a, inode_of e v = Some a -> is_Some (nodes v !! a)) -> honest mem ->
  exists s', ramfs_unlink dir e mem s = Some ((v_unlink dir e v).1, s') /\ fs_rep s' (v_unlink dir e v).2.
Proof.
  intros HR Hd He Hk Hm. unfold ramfs_unlink. destruct (name_of_ok s v e HR He) as (d & Ed & _ & Ei). rewrite Ed, bind_Some_l, Ei. destruct (inode_of e v) as [a|] eqn:Ea; [by apply remove_name_ok; auto|]. exists s. unfold v_unlink. by rewrite Ea.
Qed.

Lemma rmdir_ok s v dir e mem : fs_rep s v -> is_dir dir v -> is_Some (names v !! e) -> (forall a, inode_of e v = Some a -> is_dir a v) -> honest mem ->
  exists s', ramfs_rmdir dir e mem s = Some ((v_rmdir dir e v).1, s') /\ fs_rep s' (v_rmdir dir e v).2.
Proof.
  intros HR Hd He Hk Hm. unfold ramfs_rmdir, v_rmdir. destruct (name_of_ok s v e HR He) as (d & Ed & _ & Ei). rewrite Ed, bind_Some_l, Ei. destruct (inode_of e v) as [a|] eqn:Ea; [|by exists s]. destruct (rep_dir s v a HR (Hk a eq_refl)) as (x & n & Hx & Hn & Hr & _ & HD & _).
  rewrite Hx, bind_Some_l. assert (ramfs_empty_dir x = Some (bool_decide (dir_of a v = []))) as ->.
  { unfold ramfs_empty_dir, dir_rep in *. destruct (data x) as [|b|c en|]; try done; [by rewrite HD|]. destruct HD as [-> _]. f_equal. destruct (dir_of a v); [done|]. rewrite bool_decide_false by done. cbn. apply Z.eqb_neq. lia. }
  rewrite bind_Some_l. destruct (dir_of a v) eqn:El; [rewrite bool_decide_true by done; cbn [negb]; apply remove_name_ok; try done; by eexists|]. rewrite bool_decide_false by done. by exists s.
Qed.

(** A node keeps its number and mode when the entries of directories change. *)
Lemma node_kept w v a n dir o : nodes v !! a = Some n -> w = v_alter (with_dir o) dir v -> exists k, nodes w !! a = Some k /\ n_ino k = n_ino n /\ n_mode k = n_mode n.
Proof. intros Hn ->. cbn. destruct (decide (dir = a)) as [<-|]; [rewrite lookup_alter_eq, Hn; by eexists|rewrite lookup_alter_ne by done; by exists n]. Qed.

Lemma rename_ok s v old_dir old new_dir new mem mem1 mem2 : fs_rep s v -> is_dir old_dir v -> is_dir new_dir v -> is_Some (names v !! old) -> is_Some (names v !! new) ->
  (forall a, inode_of old v = Some a -> is_Some (nodes v !! a)) -> honest mem -> honest mem1 -> plenty mem1 -> honest mem2 -> plenty mem2 ->
  exists s', ramfs_rename old_dir old new_dir new mem mem1 mem2 s = Some ((v_rename old_dir old new_dir new v).1, s') /\ fs_rep s' (v_rename old_dir old new_dir new v).2.
Proof.
  intros HR Ho Hd Hno Hnn Hk Hm Hm1 Hp1 Hm2 Hp2. unfold ramfs_rename, v_rename. destruct (name_of_ok s v old HR Hno) as (d & Ed & En & Ei). rewrite Ed, bind_Some_l, Ei. destruct (inode_of old v) as [a|] eqn:Ea; [|by exists s]. destruct (Hk a eq_refl) as [n Hn]. rewrite Hn, En.
  destruct (take_name_ok s v old_dir (name_of old v) mem HR Ho Hm) as (x & x' & Hx & Hc). rewrite Hx, bind_Some_l. destruct (take_name old_dir (name_of old v) v) as [w|] eqn:Ew; destruct Hc as [E HR1]; rewrite E, bind_Some_l; cbv zeta; [|by eexists].
  change (negb (0 =? 0)) with false. unfold take_name in Ew. case_match; [|done]. injection Ew as Ew. assert (forall b, is_dir b v -> is_dir b w) as HD by (intros b Hb; rewrite <-Ew; apply dir_alter; [done|]; by intros []).
  assert (names w = names v) as Ewn by (by rewrite <-Ew). destruct (node_kept w v a n old_dir _ Hn (eq_sym Ew)) as (k & Hk1 & Hki & Hkm). clear Ew. destruct (name_of_ok _ _ new HR1) as (d2 & Ed2 & En2 & _); [by rewrite Ewn|]. rewrite Ed2, bind_Some_l.
  assert (name_of new w = name_of new v) as Enw by (unfold name_of; by rewrite Ewn). rewrite Enw in En2. rewrite En2. destruct (fr_nodes _ _ HR1 a k Hk1) as (y & Hy & Hr).
  destruct (put_name_ok _ w new_dir (name_of new v) y n mem1 HR1 (HD _ Hd)) as (z & z' & Hz & Hc); [rewrite (nr_ino _ _ Hr); done|rewrite (nr_mode _ _ Hr); done|done|done|]. rewrite Hz, bind_Some_l, Hy, bind_Some_l.
  destruct (put_name new_dir (name_of new v) n w) as [w2|]; destruct Hc as [E2 HR2]; rewrite E2, bind_Some_l; cbv zeta; [by eexists|]. change (negb (-1 =? 0)) with true. destruct (fr_nodes _ _ HR2 a k Hk1) as (y2 & Hy2 & Hr2).
  destruct (put_name_ok _ w old_dir (name_of old v) y2 n mem2 HR2 (HD _ Ho)) as (t & t' & Ht & Hc); [rewrite (nr_ino _ _ Hr2); done|rewrite (nr_mode _ _ Hr2); done|done|done|]. rewrite Ht, bind_Some_l, Hy2, bind_Some_l.
  destruct (put_name old_dir (name_of old v) n w) as [w3|]; destruct Hc as [E3 HR3]; rewrite E3, bind_Some_l; by eexists.
Qed.

Lemma ramfs_lookup_ok s v dir e f now : fs_rep s v -> is_dir dir v -> is_Some (names v !! e) -> fresh_inode f v ->
  exists s', ramfs_lookup dir e f now s = Some s' /\ fs_rep s' (match f with Some (a, y) => v_lookup dir e a y v | None => v end).
Proof.
  intros HR Hd He Hf. unfold ramfs_lookup. destruct (rep_dir s v dir HR Hd) as (x & n & Hx & _ & _ & _ & HD & Hu). destruct (name_of_ok s v e HR He) as (d & Ed & En & _). rewrite Hx, bind_Some_l, Ed, bind_Some_l, En.
  destruct (find_dirent_ok x _ (name_of e v) HD) as (r & E & Hr). rewrite E, bind_Some_l. destruct r as [en|].
  - destruct Hr as (et & Hin & Hne & [_ _ (E1 & _ & E3)]). unfold ramfs_get_inode. destruct f as [[a y]|]; [|by exists s]. eexists. split; [done|]. unfold v_lookup. rewrite (find_named _ _ et Hu Hin Hne). apply rep_dadd, rep_set; [done|]. destruct (Hf a y eq_refl) as (_ & Hn & Hl).
    rewrite E1, E3. destruct (new_node_rep y (e_mode et) now Hn Hl) as [R1 R2 R3 R4]. split; cbn; [done|done|exact R3|exact R4].
  - exists s. split; [done|]. destruct f as [[a y]|]; [|done]. unfold v_lookup. destruct (List.find (named (name_of e v)) (dir_of dir v)) as [et|] eqn:Ef; [|done]. apply List.find_some in Ef as [Hin Hn]. apply bool_decide_eq_true in Hn. apply has_name_false in Hr. destruct Hr. rewrite <-Hn. apply list_elem_of_fmap_2. by apply list_elem_of_In.
Qed.

(** ** Sequences of calls *)

Inductive op :=
  | Create dir e (f : option (Z * inode)) (mode now : Z) mem | Mkdir dir e (f : option (Z * inode)) (mode now : Z) mem | Mknod dir e (f : option (Z * inode)) (mode now : Z) mem
  | Symlink dir e (f : option (Z * inode)) (now : Z) (sym : list Z) (mem1 mem : memory) | Link (old : Z) dir e mem | Unlink dir e mem | Rmdir dir e mem
  | Rename (old_dir old new_dir new : Z) (mem mem1 mem2 : memory) | Lookup dir e (f : option (Z * inode)) (now : Z).

Definition perform (o : op) s : option (Z * fs) :=
  match o with
  | Create dir e f mode now mem => ramfs_create dir e f mode now mem s
  | Mkdir dir e f mode now mem => ramfs_mkdir dir e f mode now mem s
  | Mknod dir e f mode now mem => ramfs_mknod dir e f mode now mem s
  | Symlink dir e f now sym mem1 mem => ramfs_symlink dir e f now sym mem1 mem s
  | Link old dir e mem => ramfs_link old dir e mem s
  | Unlink dir e mem => ramfs_unlink dir e mem s
  | Rmdir dir e mem => ramfs_rmdir dir e mem s
  | Rename od o nd n mem mem1 mem2 => ramfs_rename od o nd n mem mem1 mem2 s
  | Lookup dir e f now => s ← ramfs_lookup dir e f now s; Some (0, s)
  end.

Definition v_new dir e (f : option (Z * inode)) (mode : Z) v : Z * view := match f with Some (a, y) => v_create dir e a (new_node y mode) v | None => (-1, v) end.

Definition spec (o : op) v : Z * view :=
  match o with
  | Create dir e f mode _ _ | Mknod dir e f mode _ _ => v_new dir e f mode v
  | Mkdir dir e f mode _ _ => v_new dir e f (Z.lor S_IFDIR mode) v
  | Symlink dir e f _ _ _ _ => v_new dir e f (Z.lor S_IFLNK 0x1FF) v
  | Link old dir e _ => v_link old dir e v
  | Unlink dir e _ => v_unlink dir e v
  | Rmdir dir e _ => v_rmdir dir e v
  | Rename od o nd n _ _ _ => v_rename od o nd n v
  | Lookup dir e f _ => (0, match f with Some (a, y) => v_lookup dir e a y v | None => v end)
  end.

Definition there e v : Prop := forall a, inode_of e v = Some a -> is_Some (nodes v !! a).
Definition place dir e v : Prop := is_dir dir v /\ is_Some (names v !! e).
Definition enough mem : Prop := honest mem /\ plenty mem.

Definition legal (o : op) v : Prop :=
  match o with
  | Create dir e f _ _ mem | Mknod dir e f _ _ mem | Mkdir dir e f _ _ mem => place dir e v /\ fresh_inode f v /\ enough mem
  | Symlink dir e f _ _ mem1 mem => place dir e v /\ fresh_inode f v /\ enough mem1 /\ enough mem
  | Link old dir e mem => place dir e v /\ is_Some (names v !! old) /\ there old v /\ enough mem
  | Unlink dir e mem => place dir e v /\ there e v /\ honest mem
  | Rmdir dir e mem => place dir e v /\ (forall a, inode_of e v = Some a -> is_dir a v) /\ honest mem
  | Rename od o nd n mem mem1 mem2 => place od o v /\ place nd n v /\ there o v /\ honest mem /\ enough mem1 /\ enough mem2
  | Lookup dir e f _ => place dir e v /\ fresh_inode f v
  end.

Fixpoint run (os : list op) s : option (list Z * fs) := match os with [] => Some ([], s) | o :: os => r ← perform o s; q ← run os r.2; Some (r.1 :: q.1, q.2) end.
Fixpoint spec_run (os : list op) v : list Z * view := match os with [] => ([], v) | o :: os => let r := spec o v in let q := spec_run os r.2 in (r.1 :: q.1, q.2) end.
Fixpoint legal_run (os : list op) v : Prop := match os with [] => True | o :: os => legal o v /\ legal_run os (spec o v).2 end.

Lemma names_perform_ok o s v : fs_rep s v -> legal o v -> exists s', perform o s = Some ((spec o v).1, s') /\ fs_rep s' (spec o v).2.
Proof.
  intros HR HL. destruct o; cbn [perform spec legal] in *; unfold place, enough in HL; destruct_and?.
  - by apply create_node_ok.
  - by apply create_node_ok.
  - by apply create_node_ok.
  - by apply symlink_ok.
  - by apply link_ok.
  - by apply unlink_ok.
  - by apply rmdir_ok.
  - by apply rename_ok.
  - destruct (ramfs_lookup_ok s v dir e f now) as (s' & E & HR'); [done..|]. exists s'. by rewrite E.
Qed.

(** With a [krealloc] that keeps contents and memory that lasts, any sequence of operations
    on names refines the same operations on a map from directories to lists of entries. *)
Theorem ramfs_names_refine os s v : fs_rep s v -> legal_run os v -> exists s', run os s = Some ((spec_run os v).1, s') /\ fs_rep s' (spec_run os v).2.
Proof.
  revert s v. induction os as [|o os IH]; intros s v HR HL; [by exists s|]. destruct HL as [Ho HL]. destruct (names_perform_ok o s v HR Ho) as (s1 & E1 & H1). destruct (IH s1 _ H1 HL) as (s2 & E2 & H2).
  exists s2. cbn [run spec_run]. rewrite E1, bind_Some_l. cbn [fst snd]. by rewrite E2, bind_Some_l.
Qed.

End Names.

(** ** Examples *)

(** A VFS that only attaches inodes to dentries. *)
Definition attach e a s : fs := mk_fs (inodes s) (alter (fun d => mk_dentry (d_name d) (Some a)) e (dentries s)).
#[export] Instance ex_vfs : Vfs := {| d_instantiate := attach; d_add := attach; iput := fun a s => mk_fs (delete a (inodes s)) (dentries s) |}.
#[export] Instance ex_vfs_laws : VfsLaws.
Proof. split; try done. intros a b s Hb. cbn. by rewrite lookup_delete_ne. Qed.

(** A directory at 2, and dentries for the names "a", "b" and "a" again. *)
Definition ex_fs : fs := mk_fs {[2 := ex_inode 2 S_IFDIR]} (<[10 := mk_dentry [97] None]> (<[11 := mk_dentry [98] None]> {[12 := mk_dentry [97] None]})).
Definition ex_view : view := mk_view {[2 := mk_node 2 S_IFDIR 1 (Some [])]} (dentries ex_fs).

Lemma ex_fs_rep : fs_rep ex_fs ex_view.
Proof. split; [|done]. intros a n Hn. cbn in Hn. apply lookup_singleton_Some in Hn as [<- <-]. exists (ex_inode 2 S_IFDIR). split; [done|]. by split; cbn; [..|split; [done|apply NoDup_nil_2]]. Qed.

Definition ex_ops : list op := [Create 2 10 (Some (50, ex_inode 7 0)) (S_IFREG + 0x1A4) 99 ex_mem; Rename 2 10 2 11 ex_mem ex_mem ex_mem; Unlink 2 11 ex_mem].

(** A file is created and renamed; the dentry of the new name has no inode yet, so that
    removing that name is refused. *)
Lemma ramfs_names_refine_witness : exists s', run (HRe := true_realloc) ex_ops ex_fs = Some ([0; 0; -1], s').
Proof.
  destruct (ramfs_names_refine (HRe := true_realloc) ex_ops ex_fs ex_view ex_fs_rep) as (s' & E & _); [|exists s'; rewrite E; vm_compute; reflexivity].
  pose proof ex_mem_ok as Hm. assert (forall dir e v n l d, nodes v !! dir = Some n -> n_dir n = Some l -> names v !! e = Some d -> place dir e v) as HP by (intros * E1 E2 E3; split; [by exists n, l|by exists d]).
  split; [split; [by eapply HP|]; split; [|exact Hm]; intros a y [= <- <-]; split; [done|]; split; [done|]; cbn; lia|].
  split; [split; [by eapply HP|]; split; [by eapply HP|]; split; [|split; [apply Hm|]; split; exact Hm]; intros a Ha; vm_compute in Ha; injection Ha as <-; by eexists|].
  split; [|exact I]. split; [by eapply HP|]. split; [|apply Hm]. intros a Ha. by vm_compute in Ha.
Defined.

(** ** What goes wrong *)

(** A name that is looked up gets a new inode: what was written into the file is not in it. *)
Lemma lookup_loses_contents : exists s1 s2 y, perform (HRe := true_realloc) (Create 2 10 (Some (50, ex_inode 7 0)) S_IFREG 0 ex_mem) ex_fs = Some (0, s1) /\
  ramfs_lookup 2 12 (Some (51, ex_inode 8 0)) 1 (set_inode 50 (with_size 3 (with_data (Block [1; 2; 3]) (ex_inode 7 S_IFREG))) s1) = Some s2 /\
  (dentries s2 !! 12) = Some (mk_dentry [97] (Some 51)) /\ inodes s2 !! 51 = Some y /\ i_ino y = 7 /\ data y = Null /\ size y = 0.
Proof. do 3 eexists. repeat (split; [vm_compute; reflexivity|]). vm_compute. reflexivity. Qed.

Definition no_mem : memory := mk_memory false (fun _ => None) (fun _ => None).

(** When memory runs out in the middle of renaming, the file has no name any more. *)
Lemma rename_loses_name : exists s1 s2 x, perform (HRe := true_realloc) (Create 2 10 (Some (50, ex_inode 7 0)) S_IFREG 0 ex_mem) ex_fs = Some (0, s1) /\
  ramfs_rename (H := true_realloc) 2 10 2 11 no_mem no_mem no_mem s1 = Some (-1, s2) /\ inodes s2 !! 2 = Some x /\ data x = Directory 0 None.
Proof. do 3 eexists. repeat (split; [vm_compute; reflexivity|]). vm_compute. reflexivity. Qed.

End RamfsNames.
