(* ===== verification/Coherency.v ===== *)
(** The directory of cache lines: [kernel/mm/cache_coherency.c]. *)

From S2P Require Import Prelude.

Module Coherency.

Definition EINVAL : Z := 22.
Definition MAX_CPUS : Z := 32.
Definition CACHE_LINE_INVALID : Z := 0.
Definition CACHE_LINE_SHARED : Z := 1.
Definition CACHE_LINE_MODIFIED : Z := 2.
Definition CACHE_LINE_EXCLUSIVE : Z := 3.
Definition CACHE_LINE_SIZE : Z := 64.
Definition CACHE_DIRECTORY_SIZE : Z := 1024.

Definition CACHE_PROTOCOL_NONE : Z := 0.
Definition CACHE_PROTOCOL_MSI : Z := 1.
Definition CACHE_PROTOCOL_MESI : Z := 2.
Definition CACHE_PROTOCOL_MOESI : Z := 3.

(** ** Data *)

Record entry := mk_entry { address : Z; state : list Z; valid : Z }.

Record coherency := mk_coherency {
  cache_directory : list entry; current_protocol : Z;
  invalidations : Z; flushes : Z; broadcasts : Z; snoops : Z; upgrades : Z; downgrades : Z
}.
Implicit Types (c : coherency) (e : entry) (l : list Z) (a cpu h s : Z).

Definition with_directory d c : coherency := mk_coherency d (current_protocol c) (invalidations c) (flushes c) (broadcasts c) (snoops c) (upgrades c) (downgrades c).
Definition with_protocol p c : coherency := mk_coherency (cache_directory c) p (invalidations c) (flushes c) (broadcasts c) (snoops c) (upgrades c) (downgrades c).
Definition count_invalidation c : coherency := mk_coherency (cache_directory c) (current_protocol c) (u64 (invalidations c + 1)) (flushes c) (broadcasts c) (snoops c) (upgrades c) (downgrades c).
Definition count_flush c : coherency := mk_coherency (cache_directory c) (current_protocol c) (invalidations c) (u64 (flushes c + 1)) (broadcasts c) (snoops c) (upgrades c) (downgrades c).
Definition count_broadcast c : coherency := mk_coherency (cache_directory c) (current_protocol c) (invalidations c) (flushes c) (u64 (broadcasts c + 1)) (snoops c) (upgrades c) (downgrades c).
Definition count_snoop c : coherency := mk_coherency (cache_directory c) (current_protocol c) (invalidations c) (flushes c) (broadcasts c) (u64 (snoops c + 1)) (upgrades c) (downgrades c).
Definition count_upgrade c : coherency := mk_coherency (cache_directory c) (current_protocol c) (invalidations c) (flushes c) (broadcasts c) (snoops c) (u64 (upgrades c + 1)) (downgrades c).
Definition count_downgrade c : coherency := mk_coherency (cache_directory c) (current_protocol c) (invalidations c) (flushes c) (broadcasts c) (snoops c) (upgrades c) (u64 (downgrades c + 1)).

(** ** The directory *)

Definition no_entry : entry := mk_entry 0 (replicate (Z.to_nat MAX_CPUS) 0) 0.

Definition cache_coherency_init : coherency := mk_coherency (replicate (Z.to_nat CACHE_DIRECTORY_SIZE) no_entry) CACHE_PROTOCOL_MESI 0 0 0 0 0 0.

Definition cache_coherency_set_protocol (p : Z) c : Z * coherency :=
  if (p <? CACHE_PROTOCOL_NONE) || (CACHE_PROTOCOL_MOESI <? p) then (- EINVAL, c) else (0, with_protocol p c).

Definition cache_coherency_get_protocol c : Z := current_protocol c.

(** [address &= ~(CACHE_LINE_SIZE - 1)] and the place in the directory. *)
Definition align a : Z := Z.land a (Z.lnot (CACHE_LINE_SIZE - 1)).
Definition hash a : Z := (a / CACHE_LINE_SIZE) mod CACHE_DIRECTORY_SIZE.

(** The outer option is a fault; the entry is given with its index. *)
Definition cache_coherency_find_entry a c : option (option (Z * entry)) :=
  let a := align a in
  e ← aget (cache_directory c) (hash a);
  Some (if negb (valid e =? 0) && (address e =? a) then Some (hash a, e) else None).

Definition put h e c : option coherency := d ← aset (cache_directory c) h e; Some (with_directory d c).

Definition cache_coherency_create_entry a c : option (Z * entry * coherency) :=
  let a := align a in
  e ← aget (cache_directory c) (hash a);
  let e := mk_entry a (replicate (length (state e)) CACHE_LINE_INVALID) 1 in
  c ← put (hash a) e c;
  Some (hash a, e, c).

Definition cache_coherency_get_entry a c : option (Z * entry * coherency) :=
  r ← cache_coherency_find_entry a c;
  match r with Some (h, e) => Some (h, e, c) | None => cache_coherency_create_entry a c end.

Definition with_state l e : entry := mk_entry (address e) l (valid e).

(** ** Operations on all processors *)

(** A loop over the processors that sets each state from the one before it. *)
Definition all_cpus (f : Z -> Z) e : entry := with_state (map f (state e)) e.

Definition cache_coherency_invalidate a c : option (Z * coherency) :=
  let a := align a in
  r ← cache_coherency_find_entry a c;
  match r with
  | Some (h, e) => c ← put h (all_cpus (fun s => if negb (s =? CACHE_LINE_INVALID) then CACHE_LINE_INVALID else s) e) c; Some (0, count_invalidation c)
  | None => Some (0, c)
  end.

Definition cache_coherency_flush a c : option (Z * coherency) :=
  let a := align a in
  r ← cache_coherency_find_entry a c;
  match r with
  | Some (h, e) => c ← put h (all_cpus (fun s => if s =? CACHE_LINE_MODIFIED then CACHE_LINE_SHARED else s) e) c; Some (0, count_flush c)
  | None => Some (0, c)
  end.

Definition cache_coherency_broadcast a c : option (Z * coherency) :=
  let a := align a in
  r ← cache_coherency_find_entry a c;
  match r with
  | Some (h, e) => c ← put h (all_cpus (fun s => if s =? CACHE_LINE_INVALID then CACHE_LINE_SHARED else s) e) c; Some (0, count_broadcast c)
  | None => Some (0, c)
  end.

(** ** Operations of one processor *)

Definition no_cpu cpu : bool := (cpu <? 0) || (MAX_CPUS <=? cpu).

Definition cache_coherency_snoop a cpu c : option (Z * coherency) :=
  if no_cpu cpu then Some (- EINVAL, c)
  else
    let a := align a in
    r ← cache_coherency_find_entry a c;
    match r with
    | None => Some (CACHE_LINE_INVALID, c)
    | Some (_, e) => s ← aget (state e) cpu; Some (s, count_snoop c)
    end.

(** The loop that invalidates all copies but that of [cpu]; [i] is the processor in front. *)
Fixpoint invalidate_others cpu (i : Z) l : list Z :=
  match l with [] => [] | s :: l => (if negb (i =? cpu) then CACHE_LINE_INVALID else s) :: invalidate_others cpu (i + 1) l end.

Definition set_cpu cpu s e : option entry := l ← aset (state e) cpu s; Some (with_state l e).

Definition bad_state s : bool := (s <? CACHE_LINE_INVALID) || (CACHE_LINE_EXCLUSIVE <? s).

Definition cache_coherency_upgrade a cpu s c : option (Z * coherency) :=
  if no_cpu cpu then Some (- EINVAL, c)
  else if bad_state s then Some (- EINVAL, c)
  else
    let a := align a in
    '(h, e, c) ← cache_coherency_get_entry a c;
    current ← aget (state e) cpu;
    if s <=? current then Some (0, c)
    else
      let others e := with_state (invalidate_others cpu 0 (state e)) e in
      let done e := e ← set_cpu cpu s e; c ← put h e c; Some (0, count_upgrade c) in
      let p := current_protocol c in
      if p =? CACHE_PROTOCOL_NONE then done e
      else if p =? CACHE_PROTOCOL_MSI then done (if s =? CACHE_LINE_MODIFIED then others e else e)
      else if p =? CACHE_PROTOCOL_MESI then done (if (s =? CACHE_LINE_MODIFIED) || (s =? CACHE_LINE_EXCLUSIVE) then others e else e)
      else if p =? CACHE_PROTOCOL_MOESI then done (if s =? CACHE_LINE_MODIFIED then others e else e)
      else Some (- EINVAL, c).

Definition cache_coherency_downgrade a cpu s c : option (Z * coherency) :=
  if no_cpu cpu then Some (- EINVAL, c)
  else if bad_state s then Some (- EINVAL, c)
  else
    let a := align a in
    r ← cache_coherency_find_entry a c;
    match r with
    | None => Some (0, c)
    | Some (h, e) =>
        current ← aget (state e) cpu;
        if current <=? s then Some (0, c) else e ← set_cpu cpu s e; c ← put h e c; Some (0, count_downgrade c)
    end.

(** The loop of a read over the processors: whether it met a modified, an exclusive and a
    shared copy, and the states it leaves; [exclusives] tells whether it looks for
    exclusive copies. *)
Fixpoint share (exclusives : bool) l : bool * bool * bool * list Z :=
  match l with
  | [] => (false, false, false, [])
  | s :: l =>
      let '(m, x, sh, l) := share exclusives l in
      if s =? CACHE_LINE_MODIFIED then (true, x, sh, CACHE_LINE_SHARED :: l)
      else if exclusives && (s =? CACHE_LINE_EXCLUSIVE) then (m, true, sh, CACHE_LINE_SHARED :: l)
      else if s =? CACHE_LINE_SHARED then (m, x, true, s :: l)
      else (m, x, sh, s :: l)
  end.

Definition cache_coherency_read a cpu c : option (Z * coherency) :=
  if no_cpu cpu then Some (- EINVAL, c)
  else
    let a := align a in
    '(h, e, c) ← cache_coherency_get_entry a c;
    current ← aget (state e) cpu;
    let finish s e := e ← set_cpu cpu s e; c ← put h e c; Some (0, c) in
    let p := current_protocol c in
    if p =? CACHE_PROTOCOL_NONE then finish CACHE_LINE_SHARED e
    else if p =? CACHE_PROTOCOL_MSI then
      if current =? CACHE_LINE_INVALID then let '(_, _, _, l) := share false (state e) in finish CACHE_LINE_SHARED (with_state l e) else Some (0, c)
    else if p =? CACHE_PROTOCOL_MESI then
      if current =? CACHE_LINE_INVALID then
        let '(m, x, _, l) := share true (state e) in finish (if m || x then CACHE_LINE_SHARED else CACHE_LINE_EXCLUSIVE) (with_state l e)
      else Some (0, c)
    else if p =? CACHE_PROTOCOL_MOESI then
      if current =? CACHE_LINE_INVALID then
        let '(m, x, sh, l) := share true (state e) in finish (if m || x || sh then CACHE_LINE_SHARED else CACHE_LINE_EXCLUSIVE) (with_state l e)
      else Some (0, c)
    else Some (- EINVAL, c).

Definition cache_coherency_write a cpu c : option (Z * coherency) :=
  if no_cpu cpu then Some (- EINVAL, c)
  else
    let a := align a in
    '(h, e, c) ← cache_coherency_get_entry a c;
    let finish e := e ← set_cpu cpu CACHE_LINE_MODIFIED e; c ← put h e c; Some (0, c) in
    let p := current_protocol c in
    if p =? CACHE_PROTOCOL_NONE then finish e
    else if (p =? CACHE_PROTOCOL_MSI) || (p =? CACHE_PROTOCOL_MESI) || (p =? CACHE_PROTOCOL_MOESI) then finish (with_state (invalidate_others cpu 0 (state e)) e)
    else Some (- EINVAL, c).

End Coherency.
