(* ===== verification/CoherencySpec.v ===== *)
(** What the directory of cache lines does: it refines a table of lines with one state for each
    processor, in which a modified copy is the only one, and with the MOESI protocol a
    table of lines that have one owner or any number of readers. *)

From S2P Require Import Prelude Coherency.

Module CoherencySpec.
Import Coherency.

(** ** States of all processors as functions *)

Definition cpus : list Z := seqZ 0 MAX_CPUS.
Definition is_cpu (i : Z) : Prop := 0 <= i < MAX_CPUS.
Implicit Types (c : coherency) (g : Z -> Z) (a cpu h s p i j : Z).

Lemma elem_of_cpus i : i ∈ cpus <-> is_cpu i.
Proof. unfold cpus, is_cpu. rewrite elem_of_seqZ. lia. Qed.

Lemma cpus_lookup i : is_cpu i -> cpus !! Z.to_nat i = Some i.
Proof. unfold is_cpu. intros Hi. unfold cpus. rewrite lookup_seqZ. lia. Qed.

Lemma cpus_length : length cpus = 32%nat.
Proof. done. Qed.

Lemma map_cpus g g' : (forall i, is_cpu i -> g i = g' i) -> map g cpus = map g' cpus.
Proof. intros E. apply List.map_ext_in. intros i Hi. by apply E, elem_of_cpus, list_elem_of_In. Qed.

Lemma get_cpu g cpu : is_cpu cpu -> aget (map g cpus) cpu = Some (g cpu).
Proof. intros Hc. unfold aget. pose proof Hc as [H0 _]. destruct (Z.ltb_spec cpu 0); [lia|]. change (map g cpus) with (g <$> cpus). by rewrite list_lookup_fmap, cpus_lookup. Qed.

Definition update cpu s g : Z -> Z := fun i => if i =? cpu then s else g i.
Definition sole cpu g : Z -> Z := fun i => if i =? cpu then g i else CACHE_LINE_INVALID.

Lemma put_cpu g cpu s : is_cpu cpu -> aset (map g cpus) cpu s = Some (map (update cpu s g) cpus).
Proof.
  intros Hc. unfold is_cpu, MAX_CPUS in Hc. rewrite aset_Some by (rewrite length_map, cpus_length; lia). f_equal. apply list_eq. intros k. change (map g cpus) with (g <$> cpus). change (map (update cpu s g) cpus) with (update cpu s g <$> cpus).
  rewrite list_lookup_insert, length_fmap, cpus_length, !list_lookup_fmap. unfold cpus. destruct (decide (k < 32)%nat) as [Hk|Hk].
  - replace (seqZ 0 MAX_CPUS !! k) with (Some (Z.of_nat k)) by (symmetry; apply lookup_seqZ; unfold MAX_CPUS; lia). cbn. unfold update. case_decide as Hd; destruct (Z.eqb_spec (Z.of_nat k) cpu); try done; lia.
  - rewrite decide_False by lia. rewrite lookup_seqZ_ge by (unfold MAX_CPUS; lia). done.
Qed.

Lemma invalidate_others_ok cpu g i n : invalidate_others cpu i (map g (seqZ i (Z.of_nat n))) = map (sole cpu g) (seqZ i (Z.of_nat n)).
Proof.
  revert i. induction n as [|n IH]; intros i; [done|]. rewrite seqZ_cons by lia. replace (Z.pred (Z.of_nat (S n))) with (Z.of_nat n) by lia. replace (Z.succ i) with (i + 1) by lia. cbn. rewrite IH. f_equal. unfold sole. by destruct (i =? cpu).
Qed.

(** A copy that another processor reads. *)
Definition demote (exclusives : bool) s : Z := if (s =? CACHE_LINE_MODIFIED) || exclusives && (s =? CACHE_LINE_EXCLUSIVE) then CACHE_LINE_SHARED else s.
Definition any s g (l : list Z) : bool := existsb (fun i => g i =? s) l.

Lemma share_ok b g (l : list Z) : share b (map g l) = (any 2 g l, b && any 3 g l, any 1 g l, map (fun i => demote b (g i)) l).
Proof.
  induction l as [|i l IH]; [by destruct b|]. cbn [map share]. rewrite IH. unfold any, demote. cbn [existsb]. unfold CACHE_LINE_MODIFIED, CACHE_LINE_EXCLUSIVE, CACHE_LINE_SHARED.
  destruct (Z.eqb_spec (g i) 2) as [->|H2]; [done|]. destruct (Z.eqb_spec (g i) 3) as [->|H3]; [by destruct b|]. rewrite andb_false_r. cbn [orb]. by destruct (Z.eqb_spec (g i) 1) as [->|].
Qed.

Lemma any_true s g : any s g cpus = true <-> exists i, is_cpu i /\ g i = s.
Proof.
  unfold any. rewrite existsb_exists. setoid_rewrite Z.eqb_eq. split; intros (i & Hi & E); exists i; (split; [|done]); [by apply elem_of_cpus, list_elem_of_In|by apply list_elem_of_In, elem_of_cpus].
Qed.

(** ** The table of lines *)

Notation table := (gmap Z (Z * (Z -> Z))).
Implicit Types (D : table).

Definition nobody : Z -> Z := fun _ => CACHE_LINE_INVALID.
Definition line a D : option (Z -> Z) := match D !! hash (align a) with Some (b, g) => if b =? align a then Some g else None | None => None end.
(** A line takes the place of whatever line was there. *)
Definition store a g D : table := <[hash (align a) := (align a, g)]> D.
Definition current a D : Z -> Z := default nobody (line a D).

Inductive op := SetProtocol p | Invalidate a | Flush a | Broadcast a | Snoop a cpu | Upgrade a cpu s | Downgrade a cpu s | Read a cpu | Write a cpu.

Definition perform (o : op) c : option (Z * coherency) :=
  match o with
  | SetProtocol p => Some (cache_coherency_set_protocol p c)
  | Invalidate a => cache_coherency_invalidate a c
  | Flush a => cache_coherency_flush a c
  | Broadcast a => cache_coherency_broadcast a c
  | Snoop a cpu => cache_coherency_snoop a cpu c
  | Upgrade a cpu s => cache_coherency_upgrade a cpu s c
  | Downgrade a cpu s => cache_coherency_downgrade a cpu s c
  | Read a cpu => cache_coherency_read a cpu c
  | Write a cpu => cache_coherency_write a cpu c
  end.

(** What happens to one line. *)
Definition read_line p cpu g : Z -> Z :=
  if p =? CACHE_PROTOCOL_NONE then update cpu CACHE_LINE_SHARED g
  else if negb (g cpu =? CACHE_LINE_INVALID) then g
  else
    let others := if p =? CACHE_PROTOCOL_MSI then true else any 2 g cpus || any 3 g cpus || negb (p =? CACHE_PROTOCOL_MESI) && any 1 g cpus in
    update cpu (if others then CACHE_LINE_SHARED else CACHE_LINE_EXCLUSIVE) (fun i => demote (negb (p =? CACHE_PROTOCOL_MSI)) (g i)).

Definition write_line p cpu g : Z -> Z := update cpu CACHE_LINE_MODIFIED (if p =? CACHE_PROTOCOL_NONE then g else sole cpu g).

Definition upgrade_line p cpu s g : Z -> Z :=
  if s <=? g cpu then g
  else update cpu s (if negb (p =? CACHE_PROTOCOL_NONE) && ((s =? CACHE_LINE_MODIFIED) || (p =? CACHE_PROTOCOL_MESI) && (s =? CACHE_LINE_EXCLUSIVE)) then sole cpu g else g).

Definition downgrade_line cpu s g : Z -> Z := if g cpu <=? s then g else update cpu s g.

Definition flush_line g : Z -> Z := fun i => if g i =? CACHE_LINE_MODIFIED then CACHE_LINE_SHARED else g i.
Definition broadcast_line g : Z -> Z := fun i => if g i =? CACHE_LINE_INVALID then CACHE_LINE_SHARED else g i.

(** A change to a line only if it is in the table. *)
Definition change a (f : (Z -> Z) -> Z -> Z) D : table := match line a D with Some g => store a (f g) D | None => D end.

Definition spec (o : op) (p : Z) D : Z * (Z * table) :=
  match o with
  | SetProtocol q => if (q <? CACHE_PROTOCOL_NONE) || (CACHE_PROTOCOL_MOESI <? q) then (- EINVAL, (p, D)) else (0, (q, D))
  | Invalidate a => (0, (p, change a (fun _ => nobody) D))
  | Flush a => (0, (p, change a flush_line D))
  | Broadcast a => (0, (p, change a broadcast_line D))
  | Snoop a cpu => if no_cpu cpu then (- EINVAL, (p, D)) else (current a D cpu, (p, D))
  | Upgrade a cpu s => if no_cpu cpu || bad_state s then (- EINVAL, (p, D)) else (0, (p, store a (upgrade_line p cpu s (current a D)) D))
  | Downgrade a cpu s => if no_cpu cpu || bad_state s then (- EINVAL, (p, D)) else (0, (p, change a (downgrade_line cpu s) D))
  | Read a cpu => if no_cpu cpu then (- EINVAL, (p, D)) else (0, (p, store a (read_line p cpu (current a D)) D))
  | Write a cpu => if no_cpu cpu then (- EINVAL, (p, D)) else (0, (p, store a (write_line p cpu (current a D)) D))
  end.

(** ** Representation *)

Definition entry_rep (e : entry) (o : option (Z * (Z -> Z))) : Prop :=
  match o with Some (a, g) => e = mk_entry a (map g cpus) 1 | None => valid e = 0 /\ length (state e) = 32%nat end.

Record rep c p D : Prop := {
  r_protocol : current_protocol c = p /\ 0 <= p <= 3;
  r_length : length (cache_directory c) = 1024%nat;
  r_entries : forall h e, aget (cache_directory c) h = Some e -> entry_rep e (D !! h)
}.

Lemma coherency_hash_range a : 0 <= hash a < 1024.
Proof. apply Z.mod_pos_bound. done. Qed.

Lemma align_align a : align (align a) = align a.
Proof. unfold align. rewrite <-Z.land_assoc. by rewrite Z.land_diag. Qed.

Lemma coherency_rep_entry c p D a : rep c p D -> exists e, aget (cache_directory c) (hash a) = Some e /\ entry_rep e (D !! hash a).
Proof. intros HR. destruct (aget_Some (cache_directory c) (hash a)) as [e He]; [rewrite (r_length _ _ _ HR); pose proof (coherency_hash_range a); lia|]. exists e. split; [done|]. by apply HR. Qed.

Lemma coherency_find_ok c p D a : rep c p D -> cache_coherency_find_entry (align a) c = Some (match line a D with Some g => Some (hash (align a), mk_entry (align a) (map g cpus) 1) | None => None end).
Proof.
  intros HR. unfold cache_coherency_find_entry, line. rewrite align_align. destruct (coherency_rep_entry c p D (align a) HR) as (e & He & Hr). rewrite He, bind_Some_l. f_equal. unfold entry_rep in Hr. destruct (D !! hash (align a)) as [[b g]|].
  - subst e. cbn. by destruct (Z.eqb_spec b (align a)) as [->|].
  - destruct Hr as [-> _]. done.
Qed.

Lemma coherency_put_ok c p D a g : rep c p D -> exists c', put (hash (align a)) (mk_entry (align a) (map g cpus) 1) c = Some c' /\ rep c' p (store a g D) /\ c' = with_directory (cache_directory c') c.
Proof.
  intros [Hp Hl He]. unfold put. pose proof (coherency_hash_range (align a)). rewrite aset_Some by lia. rewrite bind_Some_l. eexists. split; [done|]. split; [|done]. split; cbn; [done|by rewrite length_insert|].
  intros h e. unfold aget. destruct (Z.ltb_spec h 0); [done|]. rewrite list_lookup_insert. unfold store. case_decide as Hd.
  - destruct Hd as [Eh _]. assert (hash (align a) = h) as <- by lia. rewrite lookup_insert_eq. by intros [= <-].
  - intros E. rewrite lookup_insert_ne; [apply He; unfold aget; by destruct (Z.ltb_spec h 0); [lia|]|]. intros <-. apply Hd. split; [done|lia].
Qed.

Lemma coherency_get_ok c p D a : rep c p D -> exists c', cache_coherency_get_entry (align a) c = Some (hash (align a), mk_entry (align a) (map (current a D) cpus) 1, c') /\ rep c' p (store a (current a D) D).
Proof.
  intros HR. unfold cache_coherency_get_entry. rewrite (coherency_find_ok c p D a HR), bind_Some_l. unfold current, line. destruct (coherency_rep_entry c p D (align a) HR) as (e & He & Hr). unfold entry_rep in Hr.
  assert (length (state e) = 32%nat) as Hl by (destruct (D !! hash (align a)) as [[b g]|]; [by subst e|apply Hr]).
  assert (exists c', cache_coherency_create_entry (align a) c = Some (hash (align a), mk_entry (align a) (map nobody cpus) 1, c') /\ rep c' p (store a nobody D)) as Hc.
  { unfold cache_coherency_create_entry. rewrite align_align, He, bind_Some_l, Hl. change (replicate 32 CACHE_LINE_INVALID) with (map nobody cpus). destruct (coherency_put_ok c p D a nobody HR) as (c' & E & HR' & _). rewrite E, bind_Some_l. by exists c'. }
  destruct (D !! hash (align a)) as [[b g]|] eqn:ED; [|exact Hc]. destruct (Z.eqb_spec b (align a)) as [->|]; [|exact Hc]. exists c. split; [done|]. unfold store. by rewrite insert_id.
Qed.

Lemma coherency_rep_ext c p D a g g' : rep c p (store a g D) -> (forall i, is_cpu i -> g i = g' i) -> rep c p (store a g' D).
Proof.
  intros [Hp Hl He] Hg. split; [done|done|]. intros h e Eh. specialize (He h e Eh). unfold store in *. destruct (decide (hash (align a) = h)) as [<-|]; [|by rewrite lookup_insert_ne in He |- * by done]. rewrite lookup_insert_eq in He |- *. unfold entry_rep in *. rewrite He. f_equal. by apply map_cpus.
Qed.

Lemma store_store a g g' D : store a g (store a g' D) = store a g D.
Proof. apply insert_insert_eq. Qed.

(** Statistics do not matter. *)
Lemma rep_counts c c' p D : rep c p D -> cache_directory c' = cache_directory c -> current_protocol c' = current_protocol c -> rep c' p D.
Proof. intros [Hp Hl He] Ed Ep. split; rewrite ?Ep, ?Ed; done. Qed.

(** ** Operations *)

Lemma no_cpu_spec cpu : no_cpu cpu = false <-> is_cpu cpu.
Proof. unfold no_cpu, is_cpu, MAX_CPUS. rewrite orb_false_iff, Z.ltb_ge, Z.leb_gt. lia. Qed.

(** Counting changes neither directory nor protocol. *)
Definition counts (k : coherency -> coherency) : Prop := forall c, cache_directory (k c) = cache_directory c /\ current_protocol (k c) = current_protocol c.

Lemma rep_count k c p D : counts k -> rep c p D -> rep (k c) p D.
Proof. intros Hk HR. destruct (Hk c). by apply (rep_counts c). Qed.

Lemma all_cpus_ok c p D a f k : rep c p D -> counts k -> exists c', (r ← cache_coherency_find_entry (align a) c; match r with Some (h, e) => c ← put h (all_cpus f e) c; Some (0, k c) | None => Some (0, c) end) = Some (0, c') /\
  rep c' p (change a (fun g i => f (g i)) D).
Proof.
  intros HR Hk. rewrite (coherency_find_ok c p D a HR), bind_Some_l. unfold change. destruct (line a D) as [g|]; [|by exists c]. unfold all_cpus, with_state. cbn [address state valid]. rewrite List.map_map. destruct (coherency_put_ok c p D a (fun i => f (g i)) HR) as (c' & E & HR' & _).
  rewrite E, bind_Some_l. exists (k c'). split; [done|by apply rep_count].
Qed.

Lemma change_ext c p D a f f' : rep c p (change a f D) -> (forall g i, is_cpu i -> f g i = f' g i) -> rep c p (change a f' D).
Proof. unfold change. destruct (line a D) as [g|]; [|done]. intros HR Hf. apply (coherency_rep_ext c p D a (f g)); [done|auto]. Qed.

Lemma coherency_finish_ok c p D a g0 cpu s g k : rep c p (store a g0 D) -> is_cpu cpu -> counts k ->
  exists c', (e ← set_cpu cpu s (mk_entry (align a) (map g cpus) 1); c ← put (hash (align a)) e c; Some (0, k c)) = Some (0, c') /\ rep c' p (store a (update cpu s g) D).
Proof.
  intros HR Hc Hk. unfold set_cpu, with_state. cbn [address state valid]. rewrite put_cpu, !bind_Some_l by done. destruct (coherency_put_ok c p _ a (update cpu s g) HR) as (c' & E & HR' & _). rewrite E, bind_Some_l. exists (k c'). split; [done|]. rewrite store_store in HR'. by apply rep_count.
Qed.

Lemma coherency_others_ok a g cpu : with_state (invalidate_others cpu 0 (state (mk_entry a (map g cpus) 1))) (mk_entry a (map g cpus) 1) = mk_entry a (map (sole cpu g) cpus) 1.
Proof. unfold with_state. cbn [address state valid]. f_equal. exact (invalidate_others_ok cpu g 0 32). Qed.

Lemma coherency_counts_id : counts id.
Proof. by intros []. Qed.

Lemma counts_all : counts count_invalidation /\ counts count_flush /\ counts count_broadcast /\ counts count_snoop /\ counts count_upgrade /\ counts count_downgrade.
Proof. by repeat split. Qed.

Ltac protocols p := assert (p = 0 \/ p = 1 \/ p = 2 \/ p = 3) as [->|[->|[->| ->]]] by lia.

Lemma coherency_read_ok c p D a cpu : rep c p D -> is_cpu cpu -> exists c', cache_coherency_read a cpu c = Some (0, c') /\ rep c' p (store a (read_line p cpu (current a D)) D).
Proof.
  intros HR Hc. unfold cache_coherency_read. rewrite (proj2 (no_cpu_spec cpu) Hc). cbv zeta. destruct (coherency_get_ok c p D a HR) as (c1 & E & HR1). rewrite E, bind_Some_l. cbn [state]. rewrite get_cpu, bind_Some_l by done. destruct (r_protocol _ _ _ HR1) as [-> Hp]. set (g := current a D) in *. clearbody g.
  pose proof (fun s g' => coherency_finish_ok c1 p D a g cpu s g' id HR1 Hc coherency_counts_id) as Hf. rewrite !share_ok. unfold with_state, read_line. cbn [address state valid]. destruct (Z.eqb_spec (g cpu) CACHE_LINE_INVALID) as [Ei|Ei].
  - protocols p; cbn -[set_cpu put cpus any demote]; rewrite ?orb_false_r; apply Hf.
  - protocols p; cbn -[set_cpu put cpus any demote]; [apply Hf|by exists c1..].
Qed.

Lemma coherency_write_ok c p D a cpu : rep c p D -> is_cpu cpu -> exists c', cache_coherency_write a cpu c = Some (0, c') /\ rep c' p (store a (write_line p cpu (current a D)) D).
Proof.
  intros HR Hc. unfold cache_coherency_write. rewrite (proj2 (no_cpu_spec cpu) Hc). cbv zeta. destruct (coherency_get_ok c p D a HR) as (c1 & E & HR1). rewrite E, bind_Some_l, coherency_others_ok. destruct (r_protocol _ _ _ HR1) as [-> Hp]. set (g := current a D) in *. clearbody g.
  pose proof (fun g' => coherency_finish_ok c1 p D a g cpu CACHE_LINE_MODIFIED g' id HR1 Hc coherency_counts_id) as Hf. unfold write_line. protocols p; cbn -[set_cpu put cpus sole]; apply Hf.
Qed.

Lemma coherency_upgrade_ok c p D a cpu s : rep c p D -> is_cpu cpu -> bad_state s = false -> exists c', cache_coherency_upgrade a cpu s c = Some (0, c') /\ rep c' p (store a (upgrade_line p cpu s (current a D)) D).
Proof.
  intros HR Hc Hs. unfold cache_coherency_upgrade. rewrite (proj2 (no_cpu_spec cpu) Hc), Hs. cbv zeta. destruct (coherency_get_ok c p D a HR) as (c1 & E & HR1). rewrite E, bind_Some_l. cbn [state]. rewrite get_cpu, bind_Some_l by done.
  destruct (r_protocol _ _ _ HR1) as [-> Hp]. set (g := current a D) in *. clearbody g. unfold upgrade_line. destruct (s <=? g cpu); [by exists c1|]. pose proof (coherency_others_ok (align a) g cpu) as Ho. cbn [state] in Ho. rewrite Ho. clear Ho.
  pose proof (fun g' => coherency_finish_ok c1 p D a g cpu s g' count_upgrade HR1 Hc ltac:(apply counts_all)) as Hf. clear HR1 HR E. protocols p; cbn -[set_cpu put cpus sole]; [apply Hf|destruct (s =? CACHE_LINE_MODIFIED)|destruct (s =? CACHE_LINE_MODIFIED), (s =? CACHE_LINE_EXCLUSIVE)|destruct (s =? CACHE_LINE_MODIFIED)]; apply Hf.
Qed.

Lemma coherency_downgrade_ok c p D a cpu s : rep c p D -> is_cpu cpu -> bad_state s = false -> exists c', cache_coherency_downgrade a cpu s c = Some (0, c') /\ rep c' p (change a (downgrade_line cpu s) D).
Proof.
  intros HR Hc Hs. unfold cache_coherency_downgrade, change. rewrite (proj2 (no_cpu_spec cpu) Hc), Hs. cbv zeta. rewrite (coherency_find_ok c p D a HR), bind_Some_l. destruct (line a D) as [g|] eqn:El; [|by exists c]. cbn [state]. rewrite get_cpu, bind_Some_l by done.
  assert (store a g D = D) as ES by (unfold line in El; unfold store; case_match; [|done]; case_match; case_match; [|done]; simplify_eq; apply insert_id; rewrite H; repeat f_equal; lia).
  unfold downgrade_line. destruct (g cpu <=? s); [exists c; by rewrite ES|]. apply (coherency_finish_ok c p D a g cpu s g count_downgrade); [by rewrite ES|done|apply counts_all].
Qed.

Lemma coherency_snoop_ok c p D a cpu : rep c p D -> is_cpu cpu -> exists c', cache_coherency_snoop a cpu c = Some (current a D cpu, c') /\ rep c' p D.
Proof.
  intros HR Hc. unfold cache_coherency_snoop, current. rewrite (proj2 (no_cpu_spec cpu) Hc). cbv zeta. rewrite (coherency_find_ok c p D a HR), bind_Some_l. destruct (line a D) as [g|]; [|by exists c]. cbn [state default]. rewrite get_cpu, bind_Some_l by done.
  exists (count_snoop c). split; [done|]. apply rep_count; [apply counts_all|done].
Qed.

Lemma coherency_perform_ok o c p D : rep c p D -> exists c', perform o c = Some ((spec o p D).1, c') /\ rep c' (spec o p D).2.1 (spec o p D).2.2.
Proof.
  intros HR. destruct counts_all as (K1 & K2 & K3 & _). destruct o as [q|a|a|a|a cpu|a cpu s|a cpu s|a cpu|a cpu]; cbn [perform spec].
  - unfold cache_coherency_set_protocol, CACHE_PROTOCOL_NONE, CACHE_PROTOCOL_MOESI. destruct (Z.ltb_spec q 0), (Z.ltb_spec 3 q); cbn [orb fst snd]; eexists; (split; [done|]); try done. destruct HR as [_ Hl He]. by split.
  - destruct (all_cpus_ok c p D a (fun s => if negb (s =? CACHE_LINE_INVALID) then CACHE_LINE_INVALID else s) _ HR K1) as (c' & E & HR'). exists c'. split; [exact E|]. apply (change_ext _ _ _ _ _ _ HR'). intros g i _. unfold nobody. by destruct (Z.eqb_spec (g i) CACHE_LINE_INVALID).
  - apply (all_cpus_ok c p D a (fun s => if s =? CACHE_LINE_MODIFIED then CACHE_LINE_SHARED else s) _ HR K2).
  - apply (all_cpus_ok c p D a (fun s => if s =? CACHE_LINE_INVALID then CACHE_LINE_SHARED else s) _ HR K3).
  - destruct (no_cpu cpu) eqn:Ec; [unfold cache_coherency_snoop; rewrite Ec; by exists c|]. apply no_cpu_spec in Ec. by apply coherency_snoop_ok.
  - destruct (no_cpu cpu) eqn:Ec; [unfold cache_coherency_upgrade; rewrite Ec; by exists c|]. destruct (bad_state s) eqn:Es; [unfold cache_coherency_upgrade; rewrite Ec, Es; by exists c|]. apply no_cpu_spec in Ec. by apply coherency_upgrade_ok.
  - destruct (no_cpu cpu) eqn:Ec; [unfold cache_coherency_downgrade; rewrite Ec; by exists c|]. destruct (bad_state s) eqn:Es; [unfold cache_coherency_downgrade; rewrite Ec, Es; by exists c|]. apply no_cpu_spec in Ec. by apply coherency_downgrade_ok.
  - destruct (no_cpu cpu) eqn:Ec; [unfold cache_coherency_read; rewrite Ec; by exists c|]. apply no_cpu_spec in Ec. by apply coherency_read_ok.
  - destruct (no_cpu cpu) eqn:Ec; [unfold cache_coherency_write; rewrite Ec; by exists c|]. apply no_cpu_spec in Ec. by apply coherency_write_ok.
Qed.

(** ** Sequences of calls *)

Fixpoint run (os : list op) c : option (list Z * coherency) := match os with [] => Some ([], c) | o :: os => r ← perform o c; q ← run os r.2; Some (r.1 :: q.1, q.2) end.

Lemma coherency_init_rep : rep cache_coherency_init 2 ∅.
Proof. split; [done|done|]. intros h e. unfold aget. destruct (h <? 0); [done|]. intros [-> _]%lookup_replicate. by rewrite lookup_empty. Qed.

(** ** A modified copy is the only one *)

Definition alone g : Prop := forall i j, is_cpu i -> is_cpu j -> i <> j -> g i = CACHE_LINE_MODIFIED -> g j = CACHE_LINE_INVALID.
Definition all_alone D : Prop := forall h b g, D !! h = Some (b, g) -> alone g.

(** Calls that keep to the protocol: it is not switched off, the line is not spread beside
    a modified copy, and the states of single processors are raised to modified and lowered
    to shared or invalid. *)
Definition safe (o : op) : Prop :=
  match o with SetProtocol q => q <> CACHE_PROTOCOL_NONE | Broadcast _ => False | Upgrade _ _ s => s = CACHE_LINE_MODIFIED | Downgrade _ _ s => s <= CACHE_LINE_SHARED | _ => True end.

Lemma store_alone a g D : all_alone D -> alone g -> all_alone (store a g D).
Proof. intros HD Hg h b g'. unfold store. intros [[_ [= _ <-]]|[_ E]]%lookup_insert_Some; [done|by apply (HD h b)]. Qed.

Lemma line_alone a g D : all_alone D -> line a D = Some g -> alone g.
Proof. unfold line. intros HD E. case_match eqn:EL; [|done]. case_match; case_match; [|done]. injection E as ->. by apply (HD _ _ _ EL). Qed.

Lemma nobody_alone : alone nobody.
Proof. done. Qed.

Lemma current_alone a D : all_alone D -> alone (current a D).
Proof. intros HD. unfold current. destruct (line a D) eqn:E; [by apply (line_alone a _ D)|apply nobody_alone]. Qed.

Lemma change_alone a f D : all_alone D -> (forall g, alone g -> alone (f g)) -> all_alone (change a f D).
Proof. intros HD Hf. unfold change. destruct (line a D) eqn:E; [|done]. apply store_alone; [done|]. by apply Hf, (line_alone a _ D). Qed.

(** When no copy is modified there is nothing to show. *)
Lemma clean_alone g : (forall i, g i <> CACHE_LINE_MODIFIED) -> alone g.
Proof. by intros Hg i j _ _ _ E%Hg. Qed.

Lemma sole_alone cpu s g : alone (update cpu s (sole cpu g)).
Proof. intros i j _ _ Hij. unfold update, sole. destruct (Z.eqb_spec i cpu), (Z.eqb_spec j cpu); try done; lia. Qed.

Lemma demote_clean b s : demote b s <> CACHE_LINE_MODIFIED.
Proof. unfold demote. destruct (Z.eqb_spec s CACHE_LINE_MODIFIED); [done|]. cbn. by destruct (b && (s =? CACHE_LINE_EXCLUSIVE)). Qed.

Lemma read_alone p cpu g : p <> 0 -> alone g -> alone (read_line p cpu g).
Proof.
  intros Hp Hg. unfold read_line. destruct (Z.eqb_spec p CACHE_PROTOCOL_NONE); [done|]. destruct (negb (g cpu =? CACHE_LINE_INVALID)); [done|]. apply clean_alone. intros i. unfold update. destruct (i =? cpu); [|apply demote_clean]. by case_match.
Qed.

Lemma downgrade_alone cpu s g : is_cpu cpu -> 0 <= s <= 1 -> alone g -> alone (downgrade_line cpu s g).
Proof.
  intros Hc Hs Hg. unfold downgrade_line. destruct (Z.leb_spec (g cpu) s) as [|Hl]; [done|]. intros i j Hi Hj Hij. unfold update. destruct (Z.eqb_spec i cpu) as [->|]; [unfold CACHE_LINE_MODIFIED; lia|]. intros E. pose proof (Hg i j Hi Hj Hij E) as Ej.
  destruct (Z.eqb_spec j cpu) as [->|]; [|done]. unfold CACHE_LINE_INVALID in *. lia.
Qed.

Lemma safe_step o p D : p <> 0 -> all_alone D -> safe o -> (spec o p D).2.1 <> 0 /\ all_alone (spec o p D).2.2.
Proof.
  intros Hp HD Hs. destruct o as [q|a|a|a|a cpu|a cpu s|a cpu s|a cpu|a cpu]; cbn [spec safe] in *; try done.
  - by case_match.
  - split; [done|]. apply change_alone; [done|]. intros g _. apply nobody_alone.
  - split; [done|]. apply change_alone; [done|]. intros g _. apply clean_alone. intros i. unfold flush_line. by destruct (Z.eqb_spec (g i) CACHE_LINE_MODIFIED).
  - by destruct (no_cpu cpu).
  - subst s. destruct (no_cpu cpu || bad_state _); [done|]. split; [done|]. apply store_alone; [done|]. unfold upgrade_line. case_match; [by apply current_alone|]. unfold CACHE_PROTOCOL_NONE. destruct (Z.eqb_spec p 0); [done|]. apply sole_alone.
  - destruct (no_cpu cpu) eqn:Ec; [done|]. destruct (bad_state s) eqn:Es; [done|]. cbn [orb snd fst]. split; [done|]. apply change_alone; [done|]. intros g. apply downgrade_alone; [by apply no_cpu_spec|]. unfold bad_state, CACHE_LINE_INVALID, CACHE_LINE_SHARED in *. lia.
  - destruct (no_cpu cpu); [done|]. split; [done|]. apply store_alone; [done|]. apply read_alone; [done|by apply current_alone].
  - destruct (no_cpu cpu); [done|]. split; [done|]. apply store_alone; [done|]. unfold write_line, CACHE_PROTOCOL_NONE. destruct (Z.eqb_spec p 0); [done|]. apply sole_alone.
Qed.

Lemma safe_run os c p D : rep c p D -> p <> 0 -> all_alone D -> Forall safe os -> exists rs c' p' D', run os c = Some (rs, c') /\ rep c' p' D' /\ all_alone D'.
Proof.
  revert c p D. induction os as [|o os IH]; intros c p D HR Hp HD Hs; [by exists [], c, p, D|]. apply Forall_cons in Hs as [Ho Hs]. destruct (coherency_perform_ok o c p D HR) as (c1 & E1 & HR1). destruct (safe_step o p D Hp HD Ho) as [Hp1 HD1].
  destruct (IH c1 _ _ HR1 Hp1 HD1 Hs) as (rs & c2 & p2 & D2 & E2 & HR2 & HD2). exists ((spec o p D).1 :: rs), c2, p2, D2. cbn [run]. rewrite E1, bind_Some_l. cbn [fst snd]. by rewrite E2, bind_Some_l.
Qed.

(** C38: after any sequence of reads, writes, flushes, invalidations and changes of single
    states that keep to the protocol, with any of the protocols MSI, MESI and MOESI and any
    switching between them, a line that one processor has modified is invalid on every
    other processor. *)
Theorem modified_copy_alone os : Forall safe os -> exists rs c, run os cache_coherency_init = Some (rs, c) /\
  forall a i j c1, is_cpu i -> is_cpu j -> i <> j -> cache_coherency_snoop a i c = Some (CACHE_LINE_MODIFIED, c1) -> exists c2, cache_coherency_snoop a j c = Some (CACHE_LINE_INVALID, c2).
Proof.
  intros Hs. destruct (safe_run os _ _ _ coherency_init_rep) as (rs & c & p & D & E & HR & HD); [done|by intros h b g; rewrite lookup_empty|done|]. exists rs, c. split; [done|]. intros a i j c1 Hi Hj Hij Ei.
  destruct (coherency_snoop_ok c p D a i HR Hi) as (c2 & E2 & _). destruct (coherency_snoop_ok c p D a j HR Hj) as (c3 & E3 & _). exists c3. rewrite E3. rewrite E2 in Ei. injection Ei as Em _. by rewrite (current_alone a D HD i j Hi Hj Hij Em).
Qed.

Definition ex_calls : list op := [Read 4096 0; Write 4100 3; Read 4096 1; SetProtocol 1; Upgrade 4096 5 2; Downgrade 4096 5 1; Write 4096 7; Flush 8192].

Lemma modified_copy_alone_witness : exists rs c c1 c2, run ex_calls cache_coherency_init = Some (rs, c) /\ cache_coherency_snoop 4096 7 c = Some (CACHE_LINE_MODIFIED, c1) /\ cache_coherency_snoop 4096 1 c = Some (CACHE_LINE_INVALID, c2).
Proof.
  destruct (modified_copy_alone ex_calls) as (rs & c & E & H); [repeat constructor; cbn; done|]. assert (option_map fst (r ← run ex_calls cache_coherency_init; cache_coherency_snoop 4096 7 r.2) = Some CACHE_LINE_MODIFIED) as E7 by (vm_compute; reflexivity).
  rewrite E, bind_Some_l in E7. cbn [snd] in E7. destruct (cache_coherency_snoop 4096 7 c) as [[r c1]|] eqn:Es; [|done]. injection E7 as ->. destruct (H 4096 7 1 c1) as (c2 & E2); [unfold is_cpu, MAX_CPUS; lia..|exact Es|]. exists rs, c, c1, c2. split; [exact E|]. split; [exact Es|exact E2].
Defined.

End CoherencySpec.

(** * Owners and readers of lines, and what the other protocols and calls do to them. *)

Module CoherencyOwners.
Import Coherency CoherencySpec.

(** ** Who has a line *)

(** Any number of copies that may be read, or one that may be written; it is dirty when it
    has been. *)
Inductive holders := Copies (R : gset Z) | Owner (cpu : Z) (dirty : bool).
Implicit Types (n : holders) (a cpu s i : Z) (R : gset Z).

Definition everybody : gset Z := list_to_set cpus.
Definition proper n : Prop := match n with Copies R => R ⊆ everybody | Owner cpu _ => is_cpu cpu end.

(** The state of a processor's copy. *)
Definition st n i : Z :=
  match n with
  | Copies R => if decide (i ∈ R) then CACHE_LINE_SHARED else CACHE_LINE_INVALID
  | Owner cpu dirty => if i =? cpu then (if dirty : bool then CACHE_LINE_MODIFIED else CACHE_LINE_EXCLUSIVE) else CACHE_LINE_INVALID
  end.

Definition none : holders := Copies ∅.

Definition h_read cpu n : holders :=
  match n with Copies R => if decide (R = ∅) then Owner cpu false else Copies ({[cpu]} ∪ R) | Owner o _ => if o =? cpu then n else Copies {[o; cpu]} end.
Definition h_write cpu : holders := Owner cpu true.
Definition h_flush n : holders := match n with Owner o true => Copies {[o]} | _ => n end.
Definition h_broadcast n : holders := match n with Copies _ => Copies everybody | _ => n end.

Definition h_upgrade cpu s n : holders :=
  if s <=? st n cpu then n
  else if s =? CACHE_LINE_MODIFIED then Owner cpu true
  else if s =? CACHE_LINE_EXCLUSIVE then Owner cpu false
  else match n with Copies R => Copies ({[cpu]} ∪ R) | Owner _ _ => n end.

Definition h_downgrade cpu s n : holders :=
  if st n cpu <=? s then n
  else match n with
    | Copies R => Copies (R ∖ {[cpu]})
    | Owner _ _ => if s =? CACHE_LINE_INVALID then none else if s =? CACHE_LINE_SHARED then Copies {[cpu]} else Owner cpu true
    end.

(** ** The table *)

Notation owners := (gmap Z (Z * holders)).
Implicit Types (T : owners).

Definition entry_of a T : option holders := match T !! hash (align a) with Some (b, n) => if b =? align a then Some n else None | None => None end.
Definition holders_of a T : holders := default none (entry_of a T).
Definition set_holders a n T : owners := <[hash (align a) := (align a, n)]> T.
Definition alter_holders a (f : holders -> holders) T : owners := match entry_of a T with Some n => set_holders a (f n) T | None => T end.

Definition h_spec (o : op) T : Z * owners :=
  match o with
  | SetProtocol q => (if (q <? CACHE_PROTOCOL_NONE) || (CACHE_PROTOCOL_MOESI <? q) then - EINVAL else 0, T)
  | Invalidate a => (0, alter_holders a (fun _ => none) T)
  | Flush a => (0, alter_holders a h_flush T)
  | Broadcast a => (0, alter_holders a h_broadcast T)
  | Snoop a cpu => (if no_cpu cpu then - EINVAL else st (holders_of a T) cpu, T)
  | Upgrade a cpu s => if no_cpu cpu || bad_state s then (- EINVAL, T) else (0, set_holders a (h_upgrade cpu s (holders_of a T)) T)
  | Downgrade a cpu s => if no_cpu cpu || bad_state s then (- EINVAL, T) else (0, alter_holders a (h_downgrade cpu s) T)
  | Read a cpu => if no_cpu cpu then (- EINVAL, T) else (0, set_holders a (h_read cpu (holders_of a T)) T)
  | Write a cpu => if no_cpu cpu then (- EINVAL, T) else (0, set_holders a (h_write cpu) T)
  end.

(** The protocol stays MOESI; copies are spread, and states raised to shared or exclusive,
    only where no other processor owns the line, or has it. *)
Definition fits (o : op) T : Prop :=
  match o with
  | SetProtocol q => q < CACHE_PROTOCOL_NONE \/ CACHE_PROTOCOL_MOESI <= q
  | Broadcast a => exists R, holders_of a T = Copies R
  | Upgrade a cpu s => (s = CACHE_LINE_SHARED -> forall o d, holders_of a T = Owner o d -> o = cpu) /\ (s = CACHE_LINE_EXCLUSIVE -> forall i, is_cpu i -> i <> cpu -> st (holders_of a T) i = CACHE_LINE_INVALID)
  | _ => True
  end.

(** ** One line *)

Definition same (g g' : Z -> Z) : Prop := forall i, is_cpu i -> g i = g' i.

Lemma in_everybody i : i ∈ everybody <-> is_cpu i.
Proof. unfold everybody. rewrite elem_of_list_to_set. apply elem_of_cpus. Qed.

Ltac states := unfold CACHE_LINE_INVALID, CACHE_LINE_SHARED, CACHE_LINE_MODIFIED, CACHE_LINE_EXCLUSIVE in *.

Lemma any_copies R s : R ⊆ everybody -> any s (st (Copies R)) cpus = true <-> (s = 1 /\ R <> ∅) \/ (s = 0 /\ R <> everybody).
Proof.
  intros HS. rewrite any_true. unfold st. states. split.
  - intros (i & Hi & E). case_decide as Hd; [left|right]; (split; [done|]); intros ->; [by apply not_elem_of_empty in Hd|]. by apply Hd, in_everybody.
  - intros [[-> Hn]|[-> Hn]].
    + apply set_choose_L in Hn as [i Hi]. exists i. rewrite decide_True by done. split; [by apply in_everybody, HS|done].
    + destruct (decide (everybody ∖ R = ∅)) as [E|E]; [destruct Hn; apply leibniz_equiv; split; [by apply HS|]; intros Hi; destruct (decide (x ∈ R)); [done|]; assert (x ∈ everybody ∖ R) as Hx by set_solver; rewrite E in Hx; by apply not_elem_of_empty in Hx|].
      apply set_choose_L in E as [i [Hi Hs]%elem_of_difference]. exists i. split; [by apply in_everybody|]. by rewrite decide_False.
Qed.

Lemma any_owner o d : is_cpu o -> any 2 (st (Owner o d)) cpus = d /\ any 3 (st (Owner o d)) cpus = negb d.
Proof.
  intros Ho. split; [destruct d|destruct d].
  - apply any_true. exists o. cbn. by rewrite Z.eqb_refl.
  - apply not_true_is_false. intros (i & _ & E)%any_true. cbn in E. states. destruct (i =? o); lia.
  - apply not_true_is_false. intros (i & _ & E)%any_true. cbn in E. states. destruct (i =? o); lia.
  - apply any_true. exists o. cbn. by rewrite Z.eqb_refl.
Qed.

Lemma st_none i : st (Copies ∅) i = CACHE_LINE_INVALID.
Proof. unfold st. by rewrite decide_False by apply not_elem_of_empty. Qed.

Lemma read_holders cpu n : proper n -> is_cpu cpu -> same (read_line 3 cpu (st n)) (st (h_read cpu n)) /\ proper (h_read cpu n).
Proof.
  intros Hn Hc. unfold read_line. change (3 =? CACHE_PROTOCOL_NONE) with false. change (3 =? CACHE_PROTOCOL_MSI) with false. change (3 =? CACHE_PROTOCOL_MESI) with false. cbn [negb andb]. destruct n as [R|o d]; cbn [proper] in Hn.
  - assert (any 2 (st (Copies R)) cpus = false) as -> by (apply not_true_is_false; rewrite any_copies by done; lia). assert (any 3 (st (Copies R)) cpus = false) as -> by (apply not_true_is_false; rewrite any_copies by done; lia). cbn [orb].
    assert (any 1 (st (Copies R)) cpus = negb (bool_decide (R = ∅))) as -> by (apply eq_true_iff_eq; rewrite any_copies by done; rewrite negb_true_iff, bool_decide_eq_false; lia || (split; [intros [[_ ?]|[? _]]; [done|lia]|by left])).
    unfold h_read. destruct (decide (R = ∅)) as [->|Hne]; [rewrite bool_decide_true by done; split; [|done]|rewrite bool_decide_false by done; split; [|cbn; intros x; rewrite elem_of_union, elem_of_singleton; intros [->|Hx]; [by apply in_everybody|by apply Hn]]].
    + intros i Hi. rewrite st_none. change (negb (CACHE_LINE_INVALID =? CACHE_LINE_INVALID)) with false. cbv iota zeta. unfold update. rewrite st_none. cbn. by destruct (i =? cpu).
    + intros i Hi. unfold st. case_decide as Hd; cbn; [rewrite (decide_ext (i ∈ {[cpu]} ∪ R) (i ∈ R)) by set_solver; done|]. unfold update. destruct (Z.eqb_spec i cpu) as [->|Hic]; [by rewrite decide_True by set_solver|].
      rewrite (decide_ext (i ∈ {[cpu]} ∪ R) (i ∈ R)) by set_solver. by case_decide.
  - destruct (any_owner o d Hn) as [-> ->]. cbn [st h_read]. destruct (Z.eqb_spec cpu o) as [->|Hco]; [rewrite Z.eqb_refl; split; [|done]; intros i Hi; by destruct d|]. destruct (Z.eqb_spec o cpu); [lia|].
    split; [|cbn; intros x; rewrite elem_of_union, !elem_of_singleton; intros [-> | ->]; by apply in_everybody]. intros i Hi. cbn. unfold update. destruct (Z.eqb_spec i cpu) as [->|]; [rewrite decide_True by set_solver; by destruct d|].
    destruct (Z.eqb_spec i o) as [->|]; [rewrite decide_True by set_solver; by destruct d|]. rewrite decide_False by set_solver. done.
Qed.

Lemma write_holders cpu n : is_cpu cpu -> same (write_line 3 cpu (st n)) (st (h_write cpu)) /\ proper (h_write cpu).
Proof. intros Hc. split; [|done]. intros i Hi. unfold write_line, update, sole. cbn. by destruct (i =? cpu). Qed.

Lemma flush_holders n : proper n -> same (flush_line (st n)) (st (h_flush n)) /\ proper (h_flush n).
Proof.
  intros Hn. destruct n as [R|o []]; cbn [h_flush]; (split; [|done || (cbn; intros x ->%elem_of_singleton; by apply in_everybody)]); intros i Hi; unfold flush_line; cbn.
  - by case_decide.
  - destruct (Z.eqb_spec i o) as [->|]; [by rewrite decide_True by set_solver|by rewrite decide_False by set_solver].
  - by destruct (i =? o).
Qed.

Lemma broadcast_holders R : same (broadcast_line (st (Copies R))) (st (Copies everybody)).
Proof. intros i Hi. unfold broadcast_line. cbn. rewrite (decide_True (P := i ∈ everybody)) by (by apply in_everybody). by case_decide. Qed.

Lemma states_of s : bad_state s = false -> s = 0 \/ s = 1 \/ s = 2 \/ s = 3.
Proof. unfold bad_state. states. lia. Qed.

Lemma st_range n i : 0 <= st n i <= 3.
Proof. destruct n as [R|o []]; cbn; states; try case_decide; try destruct (i =? o); lia. Qed.

Lemma upgrade_holders cpu s n : proper n -> is_cpu cpu -> bad_state s = false -> (s = CACHE_LINE_SHARED -> forall o d, n = Owner o d -> o = cpu) ->
  (s = CACHE_LINE_EXCLUSIVE -> forall i, is_cpu i -> i <> cpu -> st n i = CACHE_LINE_INVALID) -> same (upgrade_line 3 cpu s (st n)) (st (h_upgrade cpu s n)) /\ proper (h_upgrade cpu s n).
Proof.
  intros Hn Hc Hs H1 H3. unfold upgrade_line, h_upgrade. destruct (Z.leb_spec s (st n cpu)) as [|Hl]; [done|]. pose proof (st_range n cpu) as Hr. states. destruct (states_of s Hs) as [->|[->|[->| ->]]]; [lia|..]; cbn.
  - destruct n as [R|o d].
    + split; [|cbn; intros x; rewrite elem_of_union, elem_of_singleton; intros [->|Hx]; [by apply in_everybody|by apply Hn]]. intros i Hi. unfold update. destruct (Z.eqb_spec i cpu) as [->|Hic]; cbn; [by rewrite decide_True by set_solver|]. by rewrite (decide_ext (i ∈ {[cpu]} ∪ R) (i ∈ R)) by set_solver.
    + rewrite (H1 eq_refl o d eq_refl) in Hl. cbn in Hl. rewrite Z.eqb_refl in Hl. states. destruct d; lia.
  - split; [|done]. intros i Hi. unfold update, sole. cbn. by destruct (i =? cpu).
  - split; [|done]. intros i Hi. unfold update. cbn. destruct (Z.eqb_spec i cpu); [done|]. by apply H3.
Qed.

Lemma downgrade_holders cpu s n : proper n -> is_cpu cpu -> bad_state s = false -> same (downgrade_line cpu s (st n)) (st (h_downgrade cpu s n)) /\ proper (h_downgrade cpu s n).
Proof.
  intros Hn Hc Hs. unfold downgrade_line, h_downgrade. destruct (Z.leb_spec (st n cpu) s) as [|Hl]; [done|]. pose proof (st_range n cpu) as Hr. states. destruct n as [R|o d].
  - assert (s = 0) as -> by (cbn in Hl; states; case_decide; destruct (states_of s Hs) as [->|[->|[->| ->]]]; lia). split; [|cbn; cbn in Hn; set_solver]. intros i Hi. unfold update. destruct (Z.eqb_spec i cpu) as [->|Hic]; cbn; [by rewrite decide_False by set_solver|].
    by rewrite (decide_ext (i ∈ R ∖ {[cpu]}) (i ∈ R)) by set_solver.
  - assert (o = cpu) as -> by (cbn in Hl; states; destruct (Z.eqb_spec cpu o); [done|]; destruct (states_of s Hs) as [->|[->|[->| ->]]]; lia). destruct (states_of s Hs) as [->|[->|[->| ->]]]; [..|lia]; cbn -[update].
    + split; [|done]. intros i Hi. unfold update. cbn. rewrite decide_False by set_solver. by destruct (i =? cpu).
    + split; [|cbn; intros x ->%elem_of_singleton; by apply in_everybody]. intros i Hi. unfold update. cbn. destruct (Z.eqb_spec i cpu) as [->|]; [by rewrite decide_True by set_solver|by rewrite decide_False by set_solver].
    + split; [|done]. intros i Hi. unfold update. cbn. by destruct (i =? cpu).
Qed.

(** The operations depend on the states of processors only. *)
Lemma any_same s g g' : same g g' -> any s g cpus = any s g' cpus.
Proof. intros Hg. apply eq_true_iff_eq. rewrite !any_true. split; intros (i & Hi & E); exists i; (split; [done|]); [by rewrite <-Hg|by rewrite Hg]. Qed.

Lemma update_same cpu s g g' : same g g' -> same (update cpu s g) (update cpu s g').
Proof. intros Hg i Hi. unfold update. by rewrite Hg. Qed.

Lemma sole_same cpu g g' : same g g' -> same (sole cpu g) (sole cpu g').
Proof. intros Hg i Hi. unfold sole. by rewrite Hg. Qed.

Lemma read_same p cpu g g' : same g g' -> is_cpu cpu -> same (read_line p cpu g) (read_line p cpu g').
Proof.
  intros Hg Hc. unfold read_line. rewrite (Hg cpu Hc), !(any_same _ g g' Hg). destruct (p =? CACHE_PROTOCOL_NONE); [by apply update_same|]. destruct (negb (g' cpu =? CACHE_LINE_INVALID)); [done|]. apply update_same. intros i Hi. by rewrite Hg.
Qed.

Lemma write_same p cpu g g' : same g g' -> same (write_line p cpu g) (write_line p cpu g').
Proof. intros Hg. apply update_same. destruct (p =? CACHE_PROTOCOL_NONE); [done|by apply sole_same]. Qed.

Lemma upgrade_same p cpu s g g' : same g g' -> is_cpu cpu -> same (upgrade_line p cpu s g) (upgrade_line p cpu s g').
Proof. intros Hg Hc. unfold upgrade_line. rewrite (Hg cpu Hc). destruct (s <=? g' cpu); [done|]. apply update_same. case_match; [by apply sole_same|done]. Qed.

(** ** The directory *)

Definition states_of_table T : gmap Z (Z * (Z -> Z)) := (fun x : Z * holders => (x.1, st x.2)) <$> T.

Record owners_rep c T : Prop := { or_rep : rep c 3 (states_of_table T); or_proper : forall h b n, T !! h = Some (b, n) -> proper n }.

Lemma line_table a T : line a (states_of_table T) = st <$> entry_of a T.
Proof. unfold line, entry_of, states_of_table. rewrite lookup_fmap. destruct (T !! hash (align a)) as [[b n]|]; [|done]. cbn. by destruct (b =? align a). Qed.

Lemma current_table a T : same (current a (states_of_table T)) (st (holders_of a T)).
Proof. unfold current, holders_of. rewrite line_table. destruct (entry_of a T) as [n|]; [done|]. intros i Hi. cbn -[st]. by rewrite st_none. Qed.

Lemma entry_proper c T a n : owners_rep c T -> entry_of a T = Some n -> proper n.
Proof. intros HR E. unfold entry_of in E. case_match eqn:EL; [|done]. case_match; case_match; [|done]. injection E as ->. by apply (or_proper _ _ HR _ _ _ EL). Qed.

Lemma holders_proper c T a : owners_rep c T -> proper (holders_of a T).
Proof. intros HR. unfold holders_of. destruct (entry_of a T) as [n|] eqn:E; [by apply (entry_proper c T a)|]. cbn. set_solver. Qed.

Lemma set_ok c0 c T a g n : owners_rep c0 T -> rep c 3 (store a g (states_of_table T)) -> same g (st n) -> proper n -> owners_rep c (set_holders a n T).
Proof.
  intros HT HR Hg Hn. split.
  - unfold states_of_table, set_holders. rewrite fmap_insert. by apply (coherency_rep_ext c 3 _ a g).
  - intros h b m. unfold set_holders. intros [[_ [= _ <-]]|[_ E]]%lookup_insert_Some; [done|by apply (or_proper _ _ HT _ _ _ E)].
Qed.

Lemma alter_ok c0 c T a f F : owners_rep c0 T -> rep c 3 (change a f (states_of_table T)) -> (forall n, entry_of a T = Some n -> same (f (st n)) (st (F n)) /\ proper (F n)) -> owners_rep c (alter_holders a F T).
Proof.
  intros HT HR Hf. unfold change in HR. rewrite line_table in HR. unfold alter_holders. destruct (entry_of a T) as [n|] eqn:E; cbn in HR; [|split; [done|apply HT]]. destruct (Hf n eq_refl). by apply (set_ok c0 c T a (f (st n))).
Qed.

Lemma owners_perform_ok o c T : owners_rep c T -> fits o T -> exists c', perform o c = Some ((h_spec o T).1, c') /\ owners_rep c' (h_spec o T).2.
Proof.
  intros HT Hf. pose proof HT as [HR Hpr]. destruct (coherency_perform_ok o c 3 (states_of_table T) HR) as (c' & E & HR'). exists c'. pose proof (fun a => current_table a T) as HC. pose proof (fun a => holders_proper c T a HT) as HP.
  destruct o as [q|a|a|a|a cpu|a cpu s|a cpu s|a cpu|a cpu]; cbn [spec h_spec fits] in *.
  - unfold CACHE_PROTOCOL_NONE, CACHE_PROTOCOL_MOESI in *. revert E HR'. destruct (Z.ltb_spec q 0), (Z.ltb_spec 3 q); cbn [orb fst snd]; intros E HR'; (split; [done|]); try (by split). assert (q = 3) as -> by lia. by split.
  - split; [exact E|]. apply (alter_ok c c' T a _ _ HT HR'). intros n _. split; [intros i _; symmetry; apply st_none|cbn; set_solver].
  - split; [exact E|]. apply (alter_ok c c' T a _ _ HT HR'). intros n En. by apply flush_holders, (entry_proper c T a).
  - split; [exact E|]. apply (alter_ok c c' T a _ _ HT HR'). intros n En. destruct Hf as [R HS]. unfold holders_of in HS. rewrite En in HS. cbn in HS. subst n. split; [apply broadcast_holders|cbn [proper h_broadcast]; reflexivity].
  - destruct (no_cpu cpu) eqn:Ec; cbn [fst snd] in *; [done|]. apply no_cpu_spec in Ec. rewrite (HC a cpu Ec) in E. by split.
  - destruct (no_cpu cpu) eqn:Ec; cbn [orb fst snd] in *; [done|]. destruct (bad_state s) eqn:Es; cbn [fst snd] in *; [done|]. apply no_cpu_spec in Ec. split; [exact E|]. destruct Hf as [H1 H3]. destruct (upgrade_holders cpu s (holders_of a T) (HP a) Ec Es H1 H3) as [Hs Hp].
    apply (set_ok c c' T a _ _ HT HR'); [|done]. intros i Hi. rewrite <-(Hs i Hi). by apply upgrade_same.
  - destruct (no_cpu cpu) eqn:Ec; cbn [orb fst snd] in *; [done|]. destruct (bad_state s) eqn:Es; cbn [fst snd] in *; [done|]. apply no_cpu_spec in Ec. split; [exact E|]. apply (alter_ok c c' T a _ _ HT HR'). intros n En. apply downgrade_holders; [by apply (entry_proper c T a)|done|done].
  - destruct (no_cpu cpu) eqn:Ec; cbn [fst snd] in *; [done|]. apply no_cpu_spec in Ec. split; [exact E|]. destruct (read_holders cpu (holders_of a T) (HP a) Ec) as [Hs Hp]. apply (set_ok c c' T a _ _ HT HR'); [|done]. intros i Hi. rewrite <-(Hs i Hi). by apply read_same.
  - destruct (no_cpu cpu) eqn:Ec; cbn [fst snd] in *; [done|]. apply no_cpu_spec in Ec. split; [exact E|]. destruct (write_holders cpu (holders_of a T) Ec) as [Hs Hp]. apply (set_ok c c' T a _ _ HT HR'); [|done]. intros i Hi. rewrite <-(Hs i Hi). by apply write_same.
Qed.

(** ** Sequences of calls *)

Fixpoint h_run (os : list op) T : list Z * owners := match os with [] => ([], T) | o :: os => let r := h_spec o T in let q := h_run os r.2 in (r.1 :: q.1, q.2) end.
Fixpoint fit (os : list op) T : Prop := match os with [] => True | o :: os => fits o T /\ fit os (h_spec o T).2 end.

(** C39: with the MOESI protocol any sequence of calls that copies a line to all processors only where nobody owns it, and raises
    a line to shared only where no other processor owns it, to exclusive only where no other has it ([fits]), refines a table in which each line has
    one owner, with a clean or a dirty copy, or a set of readers: a read makes a lone
    processor the owner and otherwise joins the readers, whom a former owner joins too; a
    write makes the processor the only owner; flushing makes a dirty owner a reader; a
    line is forgotten when another takes its place; and snooping tells who has the line. *)
Theorem moesi_refines_owners os c T : owners_rep c T -> fit os T -> exists c', run os c = Some ((h_run os T).1, c') /\ owners_rep c' (h_run os T).2.
Proof.
  revert c T. induction os as [|o os IH]; intros c T HT Hf; [by exists c|]. destruct Hf as [Ho Hf]. destruct (owners_perform_ok o c T HT Ho) as (c1 & E1 & H1). destruct (IH c1 _ H1 Hf) as (c2 & E2 & H2).
  exists c2. cbn [run h_run]. rewrite E1, bind_Some_l. cbn [fst snd]. by rewrite E2, bind_Some_l.
Qed.

Definition moesi : coherency := (cache_coherency_set_protocol 3 cache_coherency_init).2.

Lemma moesi_start : owners_rep moesi ∅.
Proof.
  split; [|by intros h b n; rewrite lookup_empty]. destruct coherency_init_rep as [_ Hl He]. unfold states_of_table. rewrite fmap_empty. by split.
Qed.

Definition ex_moesi : list op := [Read 4096 0; Snoop 4096 0; Read 4100 3; Snoop 4096 0; Snoop 4096 3; Write 4096 5; Snoop 4096 3; Snoop 4096 5; Flush 4096; Snoop 4096 5; Write 4096 5; Read (4096 + 65536) 1; Snoop 4096 5].

Lemma moesi_refines_owners_witness : exists c', run ex_moesi moesi = Some ([0; 3; 0; 1; 1; 0; 0; 2; 0; 1; 0; 0; 0], c').
Proof. destruct (moesi_refines_owners ex_moesi moesi ∅ moesi_start) as (c' & E & _); [by repeat split|]. exists c'. rewrite E. vm_compute. reflexivity. Defined.

(** ** What goes wrong *)

(** The answers of calls. *)
Definition answers (os : list op) : option (list Z) := option_map fst (run os cache_coherency_init).

(** With MESI, which is the protocol at the start, a third reader gets the line exclusively
    although others share it. *)
Lemma mesi_exclusive_beside_shared : answers [Read 0 0; Read 0 1; Read 0 2; Snoop 0 0; Snoop 0 1; Snoop 0 2] = Some [0; 0; 0; 1; 1; 3].
Proof. vm_compute. reflexivity. Qed.

(** Raising a state to shared, and broadcasting, leave a modified copy as it is. *)
Lemma shared_beside_modified : answers [Write 0 0; Upgrade 0 1 1; Snoop 0 0; Snoop 0 1; Broadcast 0; Snoop 0 0; Snoop 0 2] = Some [0; 0; 2; 1; 0; 2; 1].
Proof. vm_compute. reflexivity. Qed.

(** With MOESI raising a state to exclusive does not invalidate the others. *)
Lemma moesi_exclusive_beside_modified : answers [SetProtocol 3; Write 0 0; Upgrade 0 1 3; Snoop 0 0; Snoop 0 1] = Some [0; 0; 0; 2; 3].
Proof. vm_compute. reflexivity. Qed.

(** Reading a line 64 KB away forgets that a line is modified, without flushing it. *)
Lemma collision_forgets_modified : answers [Write 0 0; Read 65536 1; Snoop 0 0] = Some [0; 0; 0].
Proof. vm_compute. reflexivity. Qed.

(** Reading one's own modified line without a protocol makes it shared. *)
Lemma read_without_protocol : answers [SetProtocol 0; Write 0 0; Read 0 0; Snoop 0 0] = Some [0; 0; 0; 1].
Proof. vm_compute. reflexivity. Qed.

End CoherencyOwners.
